(* ===== verification/_CoqProject ===== *)
-Q . S2P
Prelude.v
Rlp.v
RlpEncode.v
RlpDecode.v
TrieEncoding.v
Trie.v
TrieProofs.v
TrieSpec.v
TrieHash.v
TrieHashProofs.v
TrieRoot.v
TrieLoad.v
TrieDatabase.v
TrieDatabaseProofs.v
TrieDatabaseInv.v
TrieDatabaseRefs.v
TrieDatabaseSafety.v
AccessList.v
StateDB.v
StateDBProofs.v
StateDBSnapshots.v
StateDBObserve.v
StateDBEffects.v
Uint256.v
VmAnalysis.v
VmContract.v
VmMemory.v
VmGas.v
VmPrecompiles.v
VmInstructions.v
VmJumpTable.v
VmInterpreter.v
VmGasProofs.v
VmSstore.v
VmRefund.v
VmSupply.v
VmState.v
VmWp.v
VmFrame.v
VmInstrProofs.v
VmInstrState.v
VmGasTotal.v
VmStep.v
VmCalls.v
VmTables.v
VmPrecompileProofs.v
VmErrors.v
VmLoop.v
VmRun.v
VmSafety.v
StateTransition.v
StateTransitionProofs.v
StateProcessorProofs.v
ChainConfig.v
ChainConfigProofs.v
BlockTypes.v
Ethash.v
EthashProofs.v
EthashAlgo.v
EthashAlgoProofs.v
EthashSizes.v
EthashVerify.v
EthashVerifyProofs.v
EthashHeaders.v
EthashExamples.v
GoHeap.v
TxList.v
TxListProofs.v
TxSigning.v
TxByPrice.v
TxLookup.v
TxPool.v
TxPoolInv.v
TxPoolAdd.v
TxPoolReorg.v
TxPoolLimits.v
TxPoolRun.v
TxPoolTheorems.v
TxPoolSched.v
TxPoolExamples.v
