(* ===== verification/Prelude.v ===== *)
(** * A verification of go-virbicoin

    The repository is a fork of go-ethereum: a node of a blockchain whose blocks
    run transactions on a virtual machine over a state of accounts, authenticated
    by a Merkle Patricia trie of RLP encoded nodes.  This library models, in that
    order from the bottom, the codec, the trie, the state database, the virtual
    machine, the processing of transactions, the proof-of-work engine and the pool of
    pending transactions, and proves what each promises to the next.

    ** Parts, files and sources

    - Codec (src/rlp).  [Rlp] holds the reference definition of the format
      ([Spec.enc]) and the slice functions of rlp/raw.go; [RlpEncode] the
      two-buffer encoder of rlp/encode.go over the Go values [val]; [RlpDecode]
      the stream decoder of rlp/decode.go over the target types [typ].
    - Trie (src/trie).  [TrieEncoding] holds the three key encodings of
      encoding.go; [Trie] the nodes and the lookup, insertion and deletion of
      trie.go; [TrieHash] the hasher and the node decoder of hasher.go and
      node.go.  [TrieProofs], [TrieSpec], [TrieHashProofs], [TrieRoot] and
      [TrieLoad] hold the proofs.  The node database is the interface [NodeDB],
      Keccak-256 a parameter.  [TrieDatabase] models the write layer below,
      database.go: dirty nodes with counts of the references to them and the list
      in which they are flushed, over a disk whose writes may fail.
      [TrieDatabaseProofs] holds the flush-list, [TrieDatabaseInv] the invariant of
      the counts, [TrieDatabaseRefs] what the operations on references do with it,
      [TrieDatabaseSafety] what flushing and committing do, and the theorems.
    - State (src/core/state).  [AccessList] models access_list.go; [StateDB]
      statedb.go, state_object.go and journal.go: live objects with their layers
      of storage, every setter with its journal entry, reverts, snapshots and
      [Finalise].  What lies below (tries, snapshot layer, code store) is the
      interface [Backend] of reads.  [StateDBProofs], [StateDBSnapshots],
      [StateDBObserve] and [StateDBEffects] hold the proofs.
    - Virtual machine (src/core/vm).  [Uint256] is the interface to the package of
      256-bit integers, which is not part of the repository; [VmAnalysis] models
      analysis.go, [VmContract] contract.go, [VmMemory] stack.go, memory.go,
      common.go and memory_table.go, [VmGas] gas.go, gas_table.go and
      operations_acl.go, in a monad of state and errors over the record [frame],
      [VmPrecompiles] contracts.go over an interface [Crypto] of primitives,
      [VmInstructions] instructions.go, [VmJumpTable] jump_table.go and eips.go,
      [VmInterpreter] interpreter.go and evm.go.  The instructions call the EVM
      through the interface [Evm], and the EVM runs the loop, which closes the
      recursion on fuel.  [VmGasProofs], [VmSstore] and [VmRefund] hold the proofs
      about gas.  The others lead to [VmSafety]: [VmSupply] and [VmState] what the
      machine keeps of the balances and of the state, [VmWp] a logic of total correctness, [VmFrame] the invariant of
      a running contract, [VmInstrProofs], [VmInstrState], [VmGasTotal], [VmStep],
      [VmCalls] and [VmTables] that every entry of every instruction set keeps it,
      [VmPrecompileProofs] the precompiled contracts, [VmErrors] which errors can
      occur, [VmLoop] and [VmRun] the loop and the entry points of the EVM.
    - Transactions (src/core).  [StateTransition] models state_transition.go,
      gaspool.go and, from Byzantium on, state_processor.go: the purchase of gas,
      the message on the virtual machine, refund and fees, and the loop over the
      transactions of a block.  [StateTransitionProofs] and
      [StateProcessorProofs] hold the proofs.
    - Configuration (src/params/config.go).  [ChainConfig] models the schedule of
      forks, its compatibility checks and the rules of a block;
      [ChainConfigProofs] holds the proofs.
    - Consensus (src/consensus/ethash, src/consensus/misc).  [BlockTypes] holds
      headers and their hash, [Ethash] the difficulty and the rewards,
      [EthashAlgo] the caches, datasets and hashimoto of algorithm.go,
      [EthashSizes] its size tables, [EthashVerify] the generation of caches and
      datasets in memory and in mapped files (ethash.go), the verification of seals,
      headers and uncles, the fork checks and the gas limit of a new block,
      [EthashHeaders] the goroutines that verify a batch of headers, as a
      transition system with its proofs.  Keccak-512 is a parameter, and the chain
      that is read is the interface [ChainReader].  [EthashProofs],
      [EthashAlgoProofs] and [EthashVerifyProofs] hold the proofs, and
      [EthashExamples] applies them to a short chain.

    - Transaction pool (src/core/tx_pool.go, tx_list.go, tx_noncer.go,
      src/core/types/transaction.go and transaction_signing.go).  [GoHeap] is the
      package container/heap of the Go library.  [TxList] models transactions and the
      nonce-sorted lists of an account, [TxSigning] the signers and the recovery of a
      sender, [TxByPrice] the order in which a miner takes transactions, [TxLookup] the
      sets of accounts, the lookup by hash, the price heap and the virtual nonces,
      [TxPool] the pool: validation, addition, replacement, removal, promotion and
      demotion, the two truncations, the reset to a new head and the queries.  Hash and
      curve are those of [Crypto], the chain is the interface [blockChain] of the
      source, the order in which Go visits a map is any ([MapOrder]), and the
      configuration and the readings of the clock are in [PoolEnv].  [TxListProofs] and the
      second part of [TxLookup] hold the lemmas on the data structures, [TxPoolInv] the
      invariant of the pool and removals, [TxPoolAdd] additions, [TxPoolReorg] promotion
      and demotion, [TxPoolLimits] the truncations, [TxPoolRun] the reset and whole runs,
      [TxPoolTheorems] the theorems.  [TxPoolSched] models [scheduleReorgLoop] with the
      goroutines around it as a transition system; [TxPoolExamples] applies the
      theorems to a pool on a chain with two branches.

    This file, [Prelude], is the vocabulary they share: Go results (a value, an
    error, or a run-time panic), byte slices as lists of integers between 0 and
    255, indexing and slicing with Go's bounds checks, machine integers at their
    width, big-endian byte strings, and the lemmas and tactics on them.

    ** What the theorems show

    - Codec: the encoder produces the reference encoding and fails exactly on
      negative integers; decoding inverts it; the splitters accept exactly the
      canonical encodings.  One theorem is about a defect: decoding a zero byte
      into a one-byte array does not advance the stream.
    - Trie: the entry points refine a finite map; the shape, and so the root hash,
      depends on the content only; a trie opened by its root hash from a store of
      its nodes represents the map that was hashed; an incomplete store gives an
      error that names a missing node and changes nothing.  One theorem is about a
      defect: a node missed while a full node is reduced is reported at the path of
      the full node.
    - Node database: whatever is inserted, dereferenced, flushed and committed, and
      whichever writes fail, the nodes below a referenced root stay readable; no
      operation panics or fails to end; a successful commit leaves them on disk.
      The client inserts children before parents, releases a reference once, and
      keeps the counters below their width ([valid]).
    - State: a revert leads back to the state of the snapshot up to caches
      ([eqv], a bisimulation that no query distinguishes), whatever happened in
      between; panics are characterised exactly; [Finalise] deletes the accounts
      it should and commits the others.
    - Virtual machine: the jump destination bitmap is the plain scan of the code;
      the 64-bit gas computations agree with the formulas over the integers or
      report overflow; SSTORE charges the difference of prices that depend on the
      original and current values only; the refund counter covers what may be
      taken back from it, through snapshots and reverts, so it never goes below
      zero.  Every call and creation ends without panic within as many rounds as
      there is gas, for any code; a call that fails is undone.  Two theorems are
      about defects: the lists of addresses of precompiled contracts, and return
      data of the identity contract, which is a view of the caller's memory.

    - Transactions: processing the transactions of a block ends without panic,
      whatever contracts they run; the receipts account for the gas of the block;
      no balance becomes negative and the sum of all balances does not grow; and
      each transaction starts from a state in which nothing is pending.
    - Configuration: the compatibility check ends with the lowest conflict; an
      accepted order of forks makes the rules of every block cumulative.  One
      theorem is about a defect, changes of Petersburg that are not noticed.
    - Consensus: a seal is verified alike from the dataset, written by any
      interleaving of its threads in memory or in a mapped file, and from the cache,
      unless the dataset replaces a file that could not be written; the size searches end with
      the largest prime; a batch is accepted exactly when its headers form a valid
      chain, and its verdicts arrive in order without deadlock; prepared headers
      are accepted; the issuance of a block with verified uncles is bounded; the
      difficulty follows its rule within bounds.  Two theorems are about defects:
      the 256-bit difficulty calculators differ from those in use, and the gas
      limit proposed on a small full block is refused.

    - Transaction pool: whatever is added, reorganised, repriced and evicted, no
      operation panics, and the lookup, the lists, the counters and the price heap
      agree; an accepted transaction is in the pool and displaces at most the one it
      outbids and cheaper remote ones; after a run the limits hold and what is pending
      can be executed; truncation is fair; a reorganisation of at most 64 blocks gives back
      exactly what it took, a deeper one nothing.  The lists refine a list in the order of nonces.  Under any interleaving one
      run is active at most, every request is served, and the resets follow the heads
      without a gap.  A signed transaction names its signer, on its chain only.  The
      miner gets the best of the next transactions of all accounts, in the order of
      nonces.

    ** Fuel and bounds

    Recursions that are not structural run on fuel ([fuelled]); each entry point
    computes it from its input (the length of the bytes or of the key), and a
    theorem shows that the result is never [out_of_fuel].  The decoder takes its
    fuel as an argument, because one of its loops does not end; the round trip
    holds with fuel beyond the length of the input.  Integers are [Z] with the
    wrap-around of their width written out ([u64]).  The run loop of the virtual
    machine takes its fuel as an argument, shared by all nested calls; fuel above
    the gas suffices, because every instruction that does not end the contract
    costs some.  The theorems on the refund counter and on calls assume less than
    [2^64 / 40000] operations or gas in a transaction, beyond which the counter
    might wrap; the gas limit of a block stays far below.  The equality of the two
    ways to verify a seal holds up to epoch 1919; from 1920 on the offsets into the
    dataset exceed 32 bits.  The loops of the pool run on the lengths of what they
    consume; only the walk down two branches takes its fuel as an argument, and a
    number of steps above the numbers of the heads suffices.  The theorems on the pool
    assume fewer than [2^63] transactions, limits of the configuration below [2^63]
    ([ConfigOk]) and transactions that can be encoded ([tx_ok]); blocks have the number
    that they are asked for by ([ChainOk]).

    ** What is not modelled

    Networking, storage engines, services, the clique engine, the chain of blocks,
    mining, accounts and the command line are not modelled;
    nor are, in the parts above, the reflection cache of the codec, the trie's
    committer, iterators and proofs, the cache of clean nodes of its database, the writing of the state to the
    tries, and, in the virtual machine, the tracer, its cancellation from another
    goroutine, extra EIPs and the BLS12-381 contracts; and, for transactions,
    bloom filters and the state roots in receipts before Byzantium; and, for the pool,
    the file of the journal, meters and tickers, the cached senders and JSON; and, for
    ethash, the search for nonces, remote mining, the stores that keep the
    caches and datasets of recent epochs and remove the files of old ones. *)

From Stdlib Require Export ZArith Lia.
From stdpp Require Export base tactics list numbers option.

#[global] Open Scope Z_scope.

(** ** Go results

    A Go function that returns [(v, error)] is modelled by [outcome E A]:
    [Ret v] when the error is nil, [Err e] when it is not (the values returned
    beside a non-nil error are the zero values and are not kept), and [Panic]
    when the call panics (index or slice out of range, nil dereference, an
    explicit [panic]). *)
Inductive outcome (E A : Type) : Type :=
| Ret (a : A)
| Err (e : E)
| Panic.
Arguments Ret {E A} _.
Arguments Err {E A} _.
Arguments Panic {E A}.

#[global] Instance outcome_ret E : MRet (outcome E) := fun A a => Ret a.
#[global] Instance outcome_bind E : MBind (outcome E) := fun A B f m =>
  match m with
  | Ret a => f a
  | Err e => Err e
  | Panic => Panic
  end.
#[global] Instance outcome_fmap E : FMap (outcome E) := fun A B f m =>
  match m with
  | Ret a => Ret (f a)
  | Err e => Err e
  | Panic => Panic
  end.

Lemma outcome_bind_ret {E A B} (m : outcome E A) (f : A -> outcome E B) b :
  m ≫= f = Ret b <-> exists a, m = Ret a /\ f a = Ret b.
Proof. destruct m; simpl; naive_solver. Qed.

Definition is_ret {E A} (m : outcome E A) : Prop := exists a, m = Ret a.
Definition no_panic {E A} (m : outcome E A) : Prop := m <> Panic.

Lemma no_panic_bind {E A B} (m : outcome E A) (f : A -> outcome E B) :
  no_panic m -> (forall a, m = Ret a -> no_panic (f a)) -> no_panic (m ≫= f).
Proof. destruct m; simpl; intros H1 H2; [by apply H2|done|by destruct H1]. Qed.

(** A computation on fuel: [None] when it runs out. *)
Definition fuelled (E A : Type) : Type := option (outcome E A).

Definition run {E A} (m : outcome E A) : fuelled E A := Some m.
Definition out_of_fuel {E A} : fuelled E A := None.

#[global] Instance fuelled_bind E : MBind (fuelled E) := fun A B f m =>
  match m with
  | Some (Ret a) => f a
  | Some (Err e) => Some (Err e)
  | Some Panic => Some Panic
  | None => None
  end.

(** ** Byte slices *)

Notation bytes := (list Z).

Definition is_byte (b : Z) : Prop := 0 <= b < 256.
Notation bytes_ok := (Forall is_byte).

#[global] Instance is_byte_dec b : Decision (is_byte b).
Proof. unfold is_byte; apply _. Defined.

(** [len(b)] *)
Definition zlen {A} (l : list A) : Z := Z.of_nat (length l).

(** [b[i]], [b[i:j]], [b[i:]] and [b[:j]] with the bounds checks of Go, the
    slices taken within the length. *)
Definition go_index {E A} (l : list A) (i : Z) : outcome E A :=
  if decide (0 <= i) then
    match l !! Z.to_nat i with Some a => Ret a | None => Panic end
  else Panic.

Definition go_slice {E A} (l : list A) (i j : Z) : outcome E (list A) :=
  if decide (0 <= i <= j /\ j <= zlen l)
  then Ret (take (Z.to_nat (j - i)) (drop (Z.to_nat i) l))
  else Panic.

Definition go_from {E A} (l : list A) (i : Z) : outcome E (list A) :=
  go_slice l i (zlen l).

Definition go_to {E A} (l : list A) (j : Z) : outcome E (list A) :=
  go_slice l 0 j.

(** ** Machine integers *)

Definition u8 (x : Z) : Z := x mod 2 ^ 8.
Definition u16 (x : Z) : Z := x mod 2 ^ 16.
Definition u32 (x : Z) : Z := x mod 2 ^ 32.
Definition u64 (x : Z) : Z := x mod 2 ^ 64.
(** [int64] and [int] of a 64-bit word. *)
Definition i64 (x : Z) : Z := if decide (u64 x < 2 ^ 63) then u64 x else u64 x - 2 ^ 64.
Definition is_u64 (x : Z) : Prop := 0 <= x < 2 ^ 64.

#[global] Instance is_u64_dec b : Decision (is_u64 b).
Proof. unfold is_u64; apply _. Defined.

Lemma u64_range x : is_u64 (u64 x).
Proof. apply Z.mod_pos_bound. lia. Qed.

Lemma u64_id x : is_u64 x -> u64 x = x.
Proof. apply Z.mod_small. Qed.

Lemma i64_id x : 0 <= x < 2 ^ 63 -> i64 x = x.
Proof. intros H. unfold i64. rewrite u64_id by (unfold is_u64; lia). by rewrite decide_True by lia. Qed.

Lemma u64_succ_pred x : is_u64 x -> u64 (u64 (x + 1) - 1) = x.
Proof. intros H. unfold u64. rewrite Zminus_mod_idemp_l, Z.add_simpl_r. by apply u64_id. Qed.

(** ** Big-endian byte strings *)

(** The [n] low bytes of [z], most significant first. *)
Fixpoint be_bytes (n : nat) (z : Z) : bytes :=
  match n with
  | O => []
  | S k => u8 (Z.shiftr z (8 * Z.of_nat k)) :: be_bytes k z
  end.

(** The integer a big-endian byte string stands for. *)
Definition be_to_Z (l : bytes) : Z := fold_left (fun a b => a * 256 + b) l 0.

Create HintDb go discriminated.
Create Rewrite HintDb zlen.

Lemma zlen_nonneg {A} (l : list A) : 0 <= zlen l.
Proof. unfold zlen; lia. Qed.

Lemma zlen_nil {A} : zlen (@nil A) = 0.
Proof. reflexivity. Qed.

Lemma zlen_cons {A} (a : A) l : zlen (a :: l) = 1 + zlen l.
Proof. unfold zlen; simpl; lia. Qed.

Lemma zlen_app {A} (l1 l2 : list A) : zlen (l1 ++ l2) = zlen l1 + zlen l2.
Proof. unfold zlen; rewrite length_app; lia. Qed.

#[global] Hint Rewrite @zlen_nil @zlen_cons @zlen_app : zlen.

(** Normalise lengths, then call [lia]. *)
Ltac zlen_lia :=
  autorewrite with zlen in *;
  repeat match goal with
  | |- context [zlen ?l] => lazymatch goal with
      | H : 0 <= zlen l |- _ => fail
      | _ => pose proof (zlen_nonneg l) end
  | _ : context [zlen ?l] |- _ => lazymatch goal with
      | H : 0 <= zlen l |- _ => fail
      | _ => pose proof (zlen_nonneg l) end
  end; lia.

(** Take the branches of the conditionals whose conditions [lia] decides. *)
Ltac decide_lia :=
  repeat match goal with
  | |- context [if decide ?P then _ else _] =>
      first [rewrite (decide_True (P:=P)) by zlen_lia | rewrite (decide_False (P:=P)) by zlen_lia]
  end.

Lemma zlen_to_nat {A} (l : list A) : Z.to_nat (zlen l) = length l.
Proof. unfold zlen. lia. Qed.

Lemma zlen_0_inv {A} (l : list A) : zlen l = 0 -> l = [].
Proof. destruct l; [done|zlen_lia]. Qed.

Lemma go_index_lookup {E A} (l : list A) (i : nat) a :
  l !! i = Some a -> go_index (E:=E) l (Z.of_nat i) = Ret a.
Proof. intros H. unfold go_index. rewrite decide_True by lia. by rewrite Nat2Z.id, H. Qed.

Lemma go_index_at {E A} (l : list A) i x : 0 <= i -> l !! Z.to_nat i = Some x -> go_index (E:=E) l i = Ret x.
Proof. intros Hi H. unfold go_index. by rewrite decide_True, H. Qed.

Lemma go_slice_app {E A} (l1 l2 l3 : list A) :
  go_slice (E:=E) (l1 ++ l2 ++ l3) (zlen l1) (zlen l1 + zlen l2) = Ret l2.
Proof.
  unfold go_slice. rewrite decide_True by zlen_lia.
  unfold zlen. rewrite Nat2Z.id, drop_app_length.
  replace (Z.to_nat _) with (length l2) by lia. by rewrite take_app_length.
Qed.

Lemma go_from_app {E A} (l1 l2 : list A) :
  go_from (E:=E) (l1 ++ l2) (zlen l1) = Ret l2.
Proof.
  unfold go_from. rewrite zlen_app. rewrite <- (app_nil_r l2) at 1. apply go_slice_app.
Qed.

Lemma go_to_app {E A} (l1 l2 : list A) :
  go_to (E:=E) (l1 ++ l2) (zlen l1) = Ret l1.
Proof. exact (go_slice_app [] l1 l2). Qed.

Lemma length_be_bytes n z : length (be_bytes n z) = n.
Proof. induction n; simpl; congruence. Qed.

Lemma zlen_be_bytes n z : zlen (be_bytes n z) = Z.of_nat n.
Proof. unfold zlen. by rewrite length_be_bytes. Qed.
#[global] Hint Rewrite zlen_be_bytes : zlen.

Lemma u8_byte z : is_byte (u8 z).
Proof. unfold is_byte, u8. apply Z.mod_pos_bound. lia. Qed.

Lemma u8_small z : is_byte z -> u8 z = z.
Proof. unfold is_byte, u8. intros. apply Z.mod_small. lia. Qed.

Lemma be_bytes_ok n z : bytes_ok (be_bytes n z).
Proof. induction n; simpl; constructor; auto using u8_byte. Qed.

#[export] Hint Resolve u8_byte be_bytes_ok : go.

Lemma be_fold_acc l a :
  fold_left (fun a b => a * 256 + b) l a = a * 256 ^ zlen l + be_to_Z l.
Proof.
  unfold be_to_Z. revert a. induction l as [|b l IH]; intros a; simpl.
  { rewrite zlen_nil. lia. }
  rewrite (IH (a * 256 + b)), (IH (0 * 256 + b)), zlen_cons, Z.pow_add_r by zlen_lia. lia.
Qed.

Lemma be_to_Z_nil : be_to_Z [] = 0.
Proof. reflexivity. Qed.

Lemma be_to_Z_cons b l : be_to_Z (b :: l) = b * 256 ^ zlen l + be_to_Z l.
Proof. unfold be_to_Z at 1; simpl. rewrite be_fold_acc. lia. Qed.

Lemma be_to_Z_app l1 l2 :
  be_to_Z (l1 ++ l2) = be_to_Z l1 * 256 ^ zlen l2 + be_to_Z l2.
Proof. unfold be_to_Z at 1. rewrite fold_left_app. apply be_fold_acc. Qed.

Lemma be_to_Z_bound l : bytes_ok l -> 0 <= be_to_Z l < 256 ^ zlen l.
Proof.
  induction 1 as [|b l Hb _ IH]; [by vm_compute|].
  rewrite be_to_Z_cons, zlen_cons, (Z.pow_add_r 256 1) by zlen_lia.
  unfold is_byte in Hb. nia.
Qed.

Lemma be_to_Z_be_bytes n z : be_to_Z (be_bytes n z) = z mod 256 ^ Z.of_nat n.
Proof.
  induction n as [|n IH]; [exact (eq_sym (Z.mod_1_r z))|].
  cbn [be_bytes]. rewrite be_to_Z_cons, zlen_be_bytes, IH.
  unfold u8. rewrite Z.shiftr_div_pow2 by lia.
  change (2 ^ 8) with 256. replace (2 ^ (8 * Z.of_nat n)) with (256 ^ Z.of_nat n)
    by (rewrite Z.pow_mul_r by lia; reflexivity).
  rewrite Nat2Z.inj_succ, Z.pow_succ_r by lia.
  assert (0 < 256 ^ Z.of_nat n) by (apply Z.pow_pos_nonneg; lia).
  rewrite (Z.mul_comm 256), Z.rem_mul_r by lia. lia.
Qed.

Lemma be_bytes_be_to_Z l : bytes_ok l -> be_bytes (length l) (be_to_Z l) = l.
Proof.
  intros Hl. assert (Hgen : forall k, be_bytes (length l) (k * 256 ^ zlen l + be_to_Z l) = l).
  { induction Hl as [|b l Hb Hl IH]; intros k; [done|].
    cbn [length be_bytes]. rewrite be_to_Z_cons, zlen_cons, Z.pow_add_r by zlen_lia.
    replace (k * (256 ^ 1 * 256 ^ zlen l) + (b * 256 ^ zlen l + be_to_Z l))
      with ((k * 256 + b) * 256 ^ zlen l + be_to_Z l) by lia.
    rewrite IH. f_equal.
    rewrite Z.shiftr_div_pow2 by lia.
    replace (2 ^ (8 * Z.of_nat (length l))) with (256 ^ zlen l)
      by (unfold zlen; rewrite (Z.pow_mul_r 2) by lia; reflexivity).
    pose proof (be_to_Z_bound l Hl).
    assert (0 < 256 ^ zlen l) by (apply Z.pow_pos_nonneg; zlen_lia).
    rewrite Z.div_add_l, (Z.div_small (be_to_Z l)) by lia.
    unfold u8, is_byte in *. change (2 ^ 8) with 256.
    rewrite Z.add_0_r, Z.add_comm, Z.mod_add by lia. apply Z.mod_small. lia. }
  specialize (Hgen 0). by rewrite Z.mul_0_l, Z.add_0_l in Hgen.
Qed.

Lemma shiftr_mod_pow2 x k m :
  0 <= k -> 0 <= m -> Z.shiftr (x mod 2 ^ (k + m)) k = Z.shiftr x k mod 2 ^ m.
Proof.
  intros Hk Hm. apply Z.bits_inj'. intros i Hi.
  rewrite Z.shiftr_spec by lia. destruct (decide (i < m)).
  - rewrite !Z.mod_pow2_bits_low, Z.shiftr_spec by lia. done.
  - rewrite !Z.mod_pow2_bits_high by lia. done.
Qed.

Lemma lor_add x y n : 0 <= n -> 0 <= y < 2 ^ n -> x mod 2 ^ n = 0 -> Z.lor x y = x + y.
Proof.
  intros Hn Hy Hx. assert (Z.land x y = 0) as Hland.
  { apply Z.bits_inj'. intros k Hk. rewrite Z.land_spec, Z.bits_0.
    destruct (decide (k < n)).
    - assert (Z.testbit x k = false) as ->; [|done].
      rewrite <- (Z.mod_pow2_bits_low x n k) by lia. by rewrite Hx, Z.bits_0.
    - assert (Z.testbit y k = false) as ->; [|by rewrite andb_false_r].
      rewrite <- (Z.mod_small y (2 ^ n)) by lia. apply Z.mod_pow2_bits_high. lia. }
  rewrite <- Z.lxor_lor by done. by rewrite Z.add_nocarry_lxor.
Qed.

Lemma nth_last {A} (l : list A) x d : nth (length (l ++ [x]) - 1) (l ++ [x]) d = x.
Proof.
  rewrite length_app. cbn. rewrite app_nth2 by lia.
  by replace (length l + 1 - 1 - length l)%nat with 0%nat by lia.
Qed.
