(* ===== verification/Rlp.v ===== *)
(** * RLP: the format, and the slice-based codec of rlp/raw.go

    [Module Spec] is the reference definition of the encoding: items are byte
    strings or lists of items, and [Spec.enc] is their encoding.
    The rest models the integer and header writers that rlp/encode.go and
    rlp/raw.go share ([intsize], [putint], [headsize], [puthead]) and the
    functions of rlp/raw.go and rlp/iterator.go, which split encoded values off
    byte slices. *)

From S2P Require Import Prelude.

(** The messages of the [decodeError]s of rlp/decode.go, one per message; the
    type and the path the message also names are left out. *)
Inductive decode_msg :=
| msgCanonInt              (* non-canonical integer (leading zero bytes) *)
| msgCanonSize             (* non-canonical size information *)
| msgExpectedList          (* expected input list *)
| msgExpectedString        (* expected input string or byte *)
| msgStringTooLong         (* input string too long *)
| msgStringTooShort        (* input string too short *)
| msgListTooManyElems      (* input list has too many elements *)
| msgListTooFewElems       (* input list has too few elements *)
| msgTooFewElems           (* too few elements *)
| msgWrongKindEmpty.       (* wrong kind of empty value *)

#[global] Instance decode_msg_eq_dec : EqDecision decode_msg.
Proof. solve_decision. Defined.

(** The errors of package rlp (rlp/decode.go), with the two of package io it
    returns. *)
Inductive rlp_err :=
| EOL
| ErrExpectedString
| ErrExpectedList
| ErrCanonInt
| ErrCanonSize
| ErrElemTooLarge
| ErrValueTooLarge
| ErrMoreThanOneValue
| errNotInList
| errNotAtEOL
| errUintOverflow
| io_EOF
| io_ErrUnexpectedEOF
| errNegativeBigInt
| errInvalidBool
| decodeError (msg : decode_msg).

#[global] Instance rlp_err_eq_dec : EqDecision rlp_err.
Proof. solve_decision. Defined.

(** [Kind] of rlp/decode.go *)
Inductive Kind := Byte | String | List.

#[global] Instance Kind_eq_dec : EqDecision Kind.
Proof. solve_decision. Defined.

(** ** The reference encoding *)
Module Spec.

Inductive item :=
| Str (b : bytes)
| Lst (l : list item).

(** Number of bytes of the shortest big-endian form of [z]. *)
Definition byte_len (z : Z) : Z := if decide (z = 0) then 0 else Z.log2 z / 8 + 1.

Definition min_be (z : Z) : bytes := be_bytes (Z.to_nat (byte_len z)) z.

Definition header (smalltag largetag size : Z) : bytes :=
  if decide (size < 56) then [smalltag + size]
  else (largetag + byte_len size) :: min_be size.

Definition enc_str (b : bytes) : bytes :=
  match b with
  | [x] => if decide (x < 128) then [x] else header 0x80 0xB7 1 ++ b
  | _ => header 0x80 0xB7 (zlen b) ++ b
  end.

Definition enc_list (content : bytes) : bytes :=
  header 0xC0 0xF7 (zlen content) ++ content.

Fixpoint enc (i : item) : bytes :=
  match i with
  | Str b => enc_str b
  | Lst l => enc_list (concat (map enc l))
  end.

Definition enc_all (l : list item) : bytes := concat (map enc l).

Fixpoint item_ok (i : item) : Prop :=
  match i with
  | Str b => bytes_ok b
  | Lst l => foldr (fun i P => item_ok i /\ P) True l
  end.

Definition item_ind' (P : item -> Prop)
    (HS : forall b, P (Str b)) (HL : forall l, Forall P l -> P (Lst l)) : forall i, P i :=
  fix go i :=
    match i with
    | Str b => HS b
    | Lst l => HL l ((fix gos l : Forall P l :=
        match l with
        | [] => Forall_nil_2 _
        | i :: l => Forall_cons_2 _ i l (go i) (gos l)
        end) l)
    end.

End Spec.

(** ** Integer and header writers (rlp/encode.go) *)

(** The loop of [intsize]: [size] counts the shifts by 8 until nothing is left.
    A [uint64] needs at most 8 rounds. *)
Fixpoint intsize_loop (fuel : nat) (size i : Z) : Z :=
  match fuel with
  | O => size
  | S fuel =>
      let i := Z.shiftr i 8 in
      if decide (i = 0) then size else intsize_loop fuel (size + 1) i
  end.

Definition intsize (i : Z) : Z := intsize_loop 8 1 i.

(** The bytes [putint] writes at the start of its buffer; it returns their
    number. *)
Definition putint (i : Z) : bytes :=
  if decide (i < 2 ^ 8) then [u8 i]
  else if decide (i < 2 ^ 16) then [u8 (Z.shiftr i 8); u8 i]
  else if decide (i < 2 ^ 24) then
    [u8 (Z.shiftr i 16); u8 (Z.shiftr i 8); u8 i]
  else if decide (i < 2 ^ 32) then
    [u8 (Z.shiftr i 24); u8 (Z.shiftr i 16); u8 (Z.shiftr i 8); u8 i]
  else if decide (i < 2 ^ 40) then
    [u8 (Z.shiftr i 32); u8 (Z.shiftr i 24); u8 (Z.shiftr i 16); u8 (Z.shiftr i 8); u8 i]
  else if decide (i < 2 ^ 48) then
    [u8 (Z.shiftr i 40); u8 (Z.shiftr i 32); u8 (Z.shiftr i 24); u8 (Z.shiftr i 16);
     u8 (Z.shiftr i 8); u8 i]
  else if decide (i < 2 ^ 56) then
    [u8 (Z.shiftr i 48); u8 (Z.shiftr i 40); u8 (Z.shiftr i 32); u8 (Z.shiftr i 24);
     u8 (Z.shiftr i 16); u8 (Z.shiftr i 8); u8 i]
  else
    [u8 (Z.shiftr i 56); u8 (Z.shiftr i 48); u8 (Z.shiftr i 40); u8 (Z.shiftr i 32);
     u8 (Z.shiftr i 24); u8 (Z.shiftr i 16); u8 (Z.shiftr i 8); u8 i].

Definition headsize (size : Z) : Z :=
  if decide (size < 56) then 1 else 1 + intsize size.

(** The bytes [puthead] writes at the start of its buffer. *)
Definition puthead (smalltag largetag size : Z) : bytes :=
  if decide (size < 56) then [u8 (smalltag + u8 size)]
  else
    let b := putint size in
    u8 (largetag + u8 (zlen b)) :: b.

(** ** rlp/raw.go *)

Definition ListSize (contentSize : Z) : Z := u64 (u64 (headsize contentSize) + contentSize).

Local Notation "b .[ i ]" := (nth i b 0) (at level 2, left associativity).

(** The big-endian size field of [slen] bytes; the guard on the length keeps
    every access of the ladder in range. *)
Definition readSize (b : bytes) (slen : Z) : outcome rlp_err Z :=
  if decide (slen > zlen b) then Err io_ErrUnexpectedEOF else
  let s :=
    match slen with
    | 1 => b.[0]
    | 2 => Z.lor (Z.shiftl b.[0] 8) b.[1]
    | 3 => Z.lor (Z.lor (Z.shiftl b.[0] 16) (Z.shiftl b.[1] 8)) b.[2]
    | 4 => Z.lor (Z.lor (Z.lor (Z.shiftl b.[0] 24) (Z.shiftl b.[1] 16)) (Z.shiftl b.[2] 8)) b.[3]
    | 5 => Z.lor (Z.lor (Z.lor (Z.lor (Z.shiftl b.[0] 32) (Z.shiftl b.[1] 24))
             (Z.shiftl b.[2] 16)) (Z.shiftl b.[3] 8)) b.[4]
    | 6 => Z.lor (Z.lor (Z.lor (Z.lor (Z.lor (Z.shiftl b.[0] 40) (Z.shiftl b.[1] 32))
             (Z.shiftl b.[2] 24)) (Z.shiftl b.[3] 16)) (Z.shiftl b.[4] 8)) b.[5]
    | 7 => Z.lor (Z.lor (Z.lor (Z.lor (Z.lor (Z.lor (Z.shiftl b.[0] 48) (Z.shiftl b.[1] 40))
             (Z.shiftl b.[2] 32)) (Z.shiftl b.[3] 24)) (Z.shiftl b.[4] 16)) (Z.shiftl b.[5] 8)) b.[6]
    | 8 => Z.lor (Z.lor (Z.lor (Z.lor (Z.lor (Z.lor (Z.lor (Z.shiftl b.[0] 56)
             (Z.shiftl b.[1] 48)) (Z.shiftl b.[2] 40)) (Z.shiftl b.[3] 32)) (Z.shiftl b.[4] 24))
             (Z.shiftl b.[5] 16)) (Z.shiftl b.[6] 8)) b.[7]
    | _ => 0
    end in
  if decide (s < 56 \/ b.[0] = 0) then Err ErrCanonSize else Ret s.

(** The kind, the size of the tag and the size of the content of the first
    value of [buf]. *)
Definition readKind (buf : bytes) : outcome rlp_err (Kind * Z * Z) :=
  match buf with
  | [] => Err io_ErrUnexpectedEOF
  | b :: rest =>
      '(k, tagsize, contentsize) ←
        (if decide (b < 0x80) then Ret (Byte, 0, 1)
         else if decide (b < 0xB8) then
           let contentsize := b - 0x80 in
           if decide (contentsize = 1 /\ zlen buf > 1 /\ buf.[1] < 128)
           then Err ErrCanonSize
           else Ret (String, 1, contentsize)
         else if decide (b < 0xC0) then
           contentsize ← readSize rest (b - 0xB7);
           Ret (String, (b - 0xB7) + 1, contentsize)
         else if decide (b < 0xF8) then Ret (List, 1, b - 0xC0)
         else
           contentsize ← readSize rest (b - 0xF7);
           Ret (List, (b - 0xF7) + 1, contentsize));
      if decide (contentsize > u64 (zlen buf - tagsize))
      then Err ErrValueTooLarge
      else Ret (k, tagsize, contentsize)
  end.

Definition Split (b : bytes) : outcome rlp_err (Kind * bytes * bytes) :=
  '(k, ts, cs) ← readKind b;
  content ← go_slice b ts (u64 (ts + cs));
  rest ← go_from b (u64 (ts + cs));
  Ret (k, content, rest).

Definition SplitString (b : bytes) : outcome rlp_err (bytes * bytes) :=
  '(k, content, rest) ← Split b;
  if decide (k = List) then Err ErrExpectedString else Ret (content, rest).

Definition SplitUint64 (b : bytes) : outcome rlp_err (Z * bytes) :=
  '(content, rest) ← SplitString b;
  match content with
  | [] => Ret (0, rest)
  | [c] => if decide (c = 0) then Err ErrCanonInt else Ret (c, rest)
  | _ =>
      if decide (zlen content > 8) then Err errUintOverflow
      else
        match readSize content (u8 (zlen content)) with
        | Ret x => Ret (x, rest)
        | Err _ => Err ErrCanonInt
        | Panic => Panic
        end
  end.

Definition SplitList (b : bytes) : outcome rlp_err (bytes * bytes) :=
  '(k, content, rest) ← Split b;
  if decide (k = List) then Ret (content, rest) else Err ErrExpectedList.

(** The loop of [CountValues]; each round drops at least one byte, so
    [length b] rounds are enough ([None] is a loop that has not finished). *)
Fixpoint CountValues_loop (fuel : nat) (i : Z) (b : bytes) : option (outcome rlp_err Z) :=
  match b with
  | [] => Some (Ret i)
  | _ =>
      match fuel with
      | O => None
      | S fuel =>
          match readKind b with
          | Ret (_, tagsize, size) =>
              match go_from b (u64 (tagsize + size)) with
              | Ret b' => CountValues_loop fuel (i + 1) b'
              | Err e => Some (Err e)
              | Panic => Some Panic
              end
          | Err e => Some (Err e)
          | Panic => Some Panic
          end
      end
  end.

Definition CountValues (b : bytes) : option (outcome rlp_err Z) :=
  CountValues_loop (length b) 0 b.

Definition AppendUint64 (b : bytes) (i : Z) : bytes :=
  if decide (i = 0) then b ++ [0x80]
  else if decide (i < 128) then b ++ [u8 i]
  else if decide (i < 2 ^ 8) then b ++ [0x81; u8 i]
  else if decide (i < 2 ^ 16) then b ++ [0x82; u8 (Z.shiftr i 8); u8 i]
  else if decide (i < 2 ^ 24) then
    b ++ [0x83; u8 (Z.shiftr i 16); u8 (Z.shiftr i 8); u8 i]
  else if decide (i < 2 ^ 32) then
    b ++ [0x84; u8 (Z.shiftr i 24); u8 (Z.shiftr i 16); u8 (Z.shiftr i 8); u8 i]
  else if decide (i < 2 ^ 40) then
    b ++ [0x85; u8 (Z.shiftr i 32); u8 (Z.shiftr i 24); u8 (Z.shiftr i 16);
          u8 (Z.shiftr i 8); u8 i]
  else if decide (i < 2 ^ 48) then
    b ++ [0x86; u8 (Z.shiftr i 40); u8 (Z.shiftr i 32); u8 (Z.shiftr i 24);
          u8 (Z.shiftr i 16); u8 (Z.shiftr i 8); u8 i]
  else if decide (i < 2 ^ 56) then
    b ++ [0x87; u8 (Z.shiftr i 48); u8 (Z.shiftr i 40); u8 (Z.shiftr i 32);
          u8 (Z.shiftr i 24); u8 (Z.shiftr i 16); u8 (Z.shiftr i 8); u8 i]
  else
    b ++ [0x88; u8 (Z.shiftr i 56); u8 (Z.shiftr i 48); u8 (Z.shiftr i 40);
          u8 (Z.shiftr i 32); u8 (Z.shiftr i 24); u8 (Z.shiftr i 16); u8 (Z.shiftr i 8); u8 i].

(** ** Minimal big-endian integers *)

Lemma byte_len_unique z k : 0 < k -> 256 ^ (k - 1) <= z < 256 ^ k -> Spec.byte_len z = k.
Proof.
  intros Hk [H1 H2]. unfold Spec.byte_len.
  assert (0 < 256 ^ (k - 1)) by (apply Z.pow_pos_nonneg; lia).
  rewrite decide_False by lia.
  change 256 with (2 ^ 8) in H1, H2. rewrite <- !Z.pow_mul_r in H1, H2 by lia.
  assert (8 * (k - 1) <= Z.log2 z < 8 * k).
  { split; [apply Z.log2_le_pow2 | apply Z.log2_lt_pow2]; lia. }
  replace (Z.log2 z / 8) with (k - 1); [lia|]. apply (Z.div_unique _ _ _ (Z.log2 z - 8 * (k - 1))); lia.
Qed.

Lemma byte_len_bounds z : 0 < z -> 256 ^ (Spec.byte_len z - 1) <= z < 256 ^ Spec.byte_len z.
Proof.
  intros Hz. unfold Spec.byte_len. rewrite decide_False by lia.
  pose proof (Z.log2_spec z Hz) as [Hl Hu]. pose proof (Z.log2_nonneg z).
  pose proof (Z.div_mod (Z.log2 z) 8 ltac:(lia)).
  pose proof (Z.mod_pos_bound (Z.log2 z) 8 ltac:(lia)).
  assert (0 <= Z.log2 z / 8) by (apply Z.div_pos; lia).
  change 256 with (2 ^ 8). rewrite <- !Z.pow_mul_r by lia. split.
  - etransitivity; [|exact Hl]. apply Z.pow_le_mono_r; lia.
  - eapply Z.lt_le_trans; [exact Hu|]. apply Z.pow_le_mono_r; lia.
Qed.

Lemma byte_len_pos z : 0 < z -> 1 <= Spec.byte_len z.
Proof.
  intros Hz. unfold Spec.byte_len. rewrite decide_False by lia.
  assert (0 <= Z.log2 z / 8) by (apply Z.div_pos; [apply Z.log2_nonneg|lia]). lia.
Qed.

Lemma byte_len_u64 z : 0 < z < 2 ^ 64 -> 1 <= Spec.byte_len z <= 8.
Proof.
  intros Hz. pose proof (byte_len_pos z ltac:(lia)). split; [lia|].
  assert (Spec.byte_len z - 1 < 8); [|lia].
  apply (Z.pow_lt_mono_r_iff 256); try lia.
  pose proof (byte_len_bounds z ltac:(lia)). change (256 ^ 8) with (2 ^ 64). lia.
Qed.

Lemma zlen_min_be z : 0 <= z -> zlen (Spec.min_be z) = Spec.byte_len z.
Proof.
  intros Hz. unfold Spec.min_be. rewrite zlen_be_bytes, Z2Nat.id; [done|].
  destruct (decide (z = 0)) as [->|]; [done|]. pose proof (byte_len_pos z); lia.
Qed.

Lemma min_be_ok z : bytes_ok (Spec.min_be z).
Proof. apply be_bytes_ok. Qed.
#[export] Hint Resolve min_be_ok : go.

Lemma be_to_Z_min_be z : 0 <= z -> be_to_Z (Spec.min_be z) = z.
Proof.
  intros Hz. unfold Spec.min_be. rewrite be_to_Z_be_bytes.
  destruct (decide (z = 0)) as [->|]; [done|].
  pose proof (byte_len_bounds z ltac:(lia)). pose proof (byte_len_pos z ltac:(lia)).
  rewrite Z2Nat.id by lia. apply Z.mod_small. lia.
Qed.

(** A byte string without leading zero is the minimal form of its value. *)
Lemma min_be_be_to_Z b l :
  bytes_ok (b :: l) -> b <> 0 -> Spec.min_be (be_to_Z (b :: l)) = b :: l.
Proof.
  intros Hok Hb. pose proof (be_to_Z_bound _ Hok) as Hbd.
  inversion Hok as [|? ? Hb' Hl]; subst.
  pose proof (be_to_Z_bound _ Hl). unfold is_byte in Hb'.
  assert (Spec.byte_len (be_to_Z (b :: l)) = zlen (b :: l)) as Hlen.
  { apply byte_len_unique; [zlen_lia|]. split; [|lia].
    rewrite be_to_Z_cons, zlen_cons. replace (1 + zlen l - 1) with (zlen l) by lia. nia. }
  unfold Spec.min_be. rewrite Hlen. unfold zlen. rewrite Nat2Z.id. by apply be_bytes_be_to_Z.
Qed.

(** The minimal form of a positive integer starts with a nonzero byte. *)
Lemma min_be_head z : 0 < z -> exists b l, Spec.min_be z = b :: l /\ 0 < b < 256.
Proof.
  intros Hz. destruct (Spec.min_be z) as [|b l] eqn:E.
  - pose proof (zlen_min_be z ltac:(lia)) as H. rewrite E in H.
    pose proof (byte_len_pos z). zlen_lia.
  - exists b, l. split; [done|].
    pose proof (min_be_ok z) as Hok. rewrite E in Hok. inversion Hok as [|? ? Hb Hl]; subst.
    unfold is_byte in Hb. destruct (decide (b = 0)) as [->|]; [|lia]. exfalso.
    pose proof (be_to_Z_min_be z ltac:(lia)) as Hv. rewrite E, be_to_Z_cons in Hv.
    pose proof (be_to_Z_bound _ Hl). pose proof (byte_len_bounds z Hz) as [Hb1 _].
    pose proof (zlen_min_be z ltac:(lia)) as Hlen. rewrite E, zlen_cons in Hlen.
    replace (Spec.byte_len z - 1) with (zlen l) in Hb1 by lia. lia.
Qed.

Lemma putint_min_be i : 0 < i < 2 ^ 64 -> putint i = Spec.min_be i.
Proof.
  intros Hi. unfold putint, Spec.min_be.
  repeat case_decide;
    match goal with |- ?l = _ =>
      rewrite (byte_len_unique i (zlen l)) by (unfold zlen; cbn [length]; lia)
    end;
    unfold zlen; rewrite Nat2Z.id; cbn; by rewrite ?Z.shiftr_0_r.
Qed.

Lemma intsize_loop_spec fuel size i :
  0 <= i < 256 ^ (Z.of_nat fuel) ->
  (0 < fuel)%nat ->
  intsize_loop fuel size i = size - 1 + Z.max 1 (Spec.byte_len i).
Proof.
  revert size i. induction fuel as [|fuel IH]; intros size i Hi Hf; [lia|].
  cbn [intsize_loop]. rewrite Z.shiftr_div_pow2 by lia. change (2 ^ 8) with 256.
  rewrite Nat2Z.inj_succ, Z.pow_succ_r in Hi by lia.
  case_decide as Hd.
  - assert (i < 256) by (apply Z.div_small_iff in Hd; lia).
    destruct (decide (i = 0)) as [->|]; [change (Spec.byte_len 0) with 0; lia|].
    rewrite (byte_len_unique i 1) by (cbn; lia). lia.
  - assert (0 <= i / 256) by (apply Z.div_pos; lia).
    assert (256 <= i). { destruct (decide (i < 256)); [|lia]. by rewrite Z.div_small in Hd by lia. }
    assert (0 < i / 256) by lia.
    destruct fuel as [|fuel']; [change (256 ^ Z.of_nat 0) with 1 in Hi; lia|].
    rewrite IH; [|split; [lia|apply Z.div_lt_upper_bound; lia]|lia].
    pose proof (byte_len_bounds (i / 256) ltac:(lia)) as [Hb1 Hb2].
    pose proof (byte_len_pos (i / 256) ltac:(lia)).
    rewrite (byte_len_unique i (Spec.byte_len (i / 256) + 1)); [lia|lia|].
    replace (Spec.byte_len (i / 256) + 1 - 1) with (Z.succ (Spec.byte_len (i / 256) - 1)) by lia.
    rewrite Z.add_1_r, !Z.pow_succ_r by lia.
    pose proof (Z.div_mod i 256 ltac:(lia)). pose proof (Z.mod_pos_bound i 256 ltac:(lia)). lia.
Qed.

Lemma intsize_byte_len i : 0 < i < 2 ^ 64 -> intsize i = Spec.byte_len i.
Proof.
  intros Hi. unfold intsize. rewrite intsize_loop_spec; [|change (256 ^ Z.of_nat 8) with (2 ^ 64); lia|lia].
  pose proof (byte_len_pos i ltac:(lia)). lia.
Qed.

Lemma puthead_header st lt size :
  0 <= size < 2 ^ 64 -> 0 <= st <= 200 -> 0 <= lt <= 247 ->
  puthead st lt size = Spec.header st lt size.
Proof.
  intros Hs Hst Hlt. unfold puthead, Spec.header. case_decide.
  - rewrite (u8_small size), u8_small by (unfold is_byte; lia). done.
  - rewrite putint_min_be by lia. rewrite zlen_min_be by lia.
    pose proof (byte_len_u64 size ltac:(lia)).
    rewrite (u8_small (Spec.byte_len _)), u8_small by (unfold is_byte; lia). done.
Qed.

Lemma zlen_header st lt size : 0 <= size -> zlen (Spec.header st lt size) =
  if decide (size < 56) then 1 else 1 + Spec.byte_len size.
Proof.
  intros. unfold Spec.header. case_decide; [done|]. rewrite zlen_cons, zlen_min_be by lia. done.
Qed.

Lemma headsize_header st lt size :
  0 <= size < 2 ^ 64 -> headsize size = zlen (Spec.header st lt size).
Proof.
  intros. rewrite zlen_header by lia. unfold headsize. case_decide; [done|].
  by rewrite intsize_byte_len by lia.
Qed.

Lemma header_ok st lt size :
  0 <= size < 2 ^ 64 -> 0 <= st <= 200 -> 0 <= lt <= 247 -> bytes_ok (Spec.header st lt size).
Proof.
  intros. unfold Spec.header. case_decide.
  - repeat constructor; lia.
  - pose proof (byte_len_u64 size ltac:(lia)).
    constructor; [unfold is_byte; lia|apply min_be_ok].
Qed.



(** ** The size field *)

Lemma lor_byte x y : 0 <= y < 256 -> Z.lor (Z.shiftl x 8) y = x * 256 + y.
Proof.
  intros. rewrite Z.shiftl_mul_pow2 by lia. rewrite (lor_add _ _ 8); [done|lia|lia|].
  by rewrite Z.mod_mul by lia.
Qed.

Lemma lor_byte_shift x y n m :
  0 <= y < 256 -> 0 <= n -> m = n + 8 ->
  Z.lor (Z.shiftl x m) (Z.shiftl y n) = Z.shiftl (x * 256 + y) n.
Proof.
  intros Hy Hn ->. rewrite <- (lor_byte x y) by done.
  by rewrite Z.shiftl_lor, Z.shiftl_shiftl, (Z.add_comm n 8) by lia.
Qed.

Local Ltac pop b H := destruct b as [|? b]; [zlen_lia|rewrite zlen_cons in H].

Lemma readSize_spec b slen :
  bytes_ok b -> 1 <= slen <= 8 -> slen <= zlen b ->
  readSize b slen =
    (let s := be_to_Z (take (Z.to_nat slen) b) in
     if decide (s < 56 \/ nth 0 b 0 = 0) then Err ErrCanonSize else Ret s).
Proof.
  intros Hb Hs Hlen. unfold readSize. rewrite decide_False by lia.
  assert (slen = 1 \/ slen = 2 \/ slen = 3 \/ slen = 4 \/ slen = 5 \/ slen = 6 \/ slen = 7
    \/ slen = 8) as Hc by lia.
  destruct_or! Hc; subst slen.
  1: do 1 pop b Hlen. 2: do 2 pop b Hlen. 3: do 3 pop b Hlen. 4: do 4 pop b Hlen.
  5: do 5 pop b Hlen. 6: do 6 pop b Hlen. 7: do 7 pop b Hlen. 8: do 8 pop b Hlen.
  all: repeat match goal with H : Forall _ (_ :: _) |- _ => inversion H; clear H; subst end.
  all: unfold is_byte in *.
  all: match goal with |- context [Z.to_nat ?n] =>
         let k := eval vm_compute in (Z.to_nat n) in change (Z.to_nat n) with k end.
  all: cbn [nth take]; rewrite take_0; unfold be_to_Z; cbn [fold_left].
  all: repeat rewrite lor_byte_shift by lia; rewrite ?lor_byte by lia; by rewrite Z.mul_0_l, Z.add_0_l.
Qed.

Lemma readSize_min_be size rest :
  56 <= size < 2 ^ 64 -> bytes_ok rest ->
  readSize (Spec.min_be size ++ rest) (Spec.byte_len size) = Ret size.
Proof.
  intros Hs Hr. pose proof (byte_len_u64 size ltac:(lia)).
  pose proof (zlen_min_be size ltac:(lia)) as Hl.
  rewrite readSize_spec; [|by apply Forall_app; auto with go|lia|zlen_lia].
  replace (Z.to_nat (Spec.byte_len size)) with (length (Spec.min_be size))
    by (unfold zlen in Hl; lia).
  rewrite take_app_length, be_to_Z_min_be by lia.
  destruct (min_be_head size ltac:(lia)) as (b & l & -> & ?).
  cbv zeta. rewrite decide_False; [done|]. cbn. lia.
Qed.

Lemma readSize_inv b slen s :
  bytes_ok b -> 1 <= slen <= 8 -> readSize b slen = Ret s ->
  56 <= s < 2 ^ 64 /\ Spec.byte_len s = slen /\ exists rest, b = Spec.min_be s ++ rest.
Proof.
  intros Hb Hs. destruct (decide (slen <= zlen b)) as [Hl|Hl].
  2: { unfold readSize. by rewrite decide_True by lia. }
  rewrite readSize_spec by done. cbv zeta. case_decide as Hd; [done|]. intros [= <-].
  rewrite <- (take_drop (Z.to_nat slen) b) in Hb, Hl. apply Forall_app in Hb as [Hb1 Hb2].
  assert (length (take (Z.to_nat slen) b) = Z.to_nat slen) as Hlen.
  { rewrite length_take. rewrite take_drop in Hl. unfold zlen in Hl. lia. }
  pose proof (be_to_Z_bound _ Hb1) as Hbd. unfold zlen in Hbd. rewrite Hlen in Hbd.
  set (s := be_to_Z (take (Z.to_nat slen) b)) in *.
  assert (s < 2 ^ 64).
  { eapply Z.lt_le_trans; [apply Hbd|]. change (2 ^ 64) with (256 ^ 8). apply Z.pow_le_mono_r; lia. }
  destruct (take (Z.to_nat slen) b) as [|x l] eqn:E; [cbn in Hlen; lia|].
  assert (x <> 0). { intros ->. apply Hd. right. rewrite <- (take_drop (Z.to_nat slen) b), E. done. }
  assert (Spec.min_be s = x :: l) as Hm by by apply min_be_be_to_Z.
  split; [lia|split].
  - pose proof (zlen_min_be s ltac:(lia)) as Hz. rewrite Hm in Hz. unfold zlen in Hz. lia.
  - exists (drop (Z.to_nat slen) b). by rewrite Hm, <- E, take_drop.
Qed.

(** ** Splitting values off a slice *)

(** The encoding of a value of kind [k] with content [c], when [c] has that
    kind's form: a single byte below 128 is its own encoding. *)
Definition single_byte (c : bytes) : bool :=
  match c with [x] => bool_decide (x < 128) | _ => false end.

Definition frame (k : Kind) (c : bytes) : bytes :=
  match k with
  | Byte => c
  | String => Spec.header 0x80 0xB7 (zlen c) ++ c
  | List => Spec.enc_list c
  end.

Definition frame_ok (k : Kind) (c : bytes) : Prop :=
  match k with
  | Byte => single_byte c = true
  | String => single_byte c = false
  | List => True
  end.

Lemma enc_str_frame b :
  Spec.enc_str b = frame (if single_byte b then Byte else String) b.
Proof.
  unfold Spec.enc_str, single_byte. destruct b as [|x [|y l]]; [done| |done].
  case_decide; [by rewrite bool_decide_true|by rewrite bool_decide_false].
Qed.

Lemma frame_ok_str b : frame_ok (if single_byte b then Byte else String) b.
Proof. by destruct (single_byte b) eqn:E. Qed.

Lemma u64_small x : is_u64 x -> u64 x = x.
Proof. unfold is_u64, u64. intros. apply Z.mod_small. lia. Qed.

Lemma readKind_frame k c rest :
  bytes_ok (c ++ rest) -> frame_ok k c -> zlen (frame k c ++ rest) < 2 ^ 64 ->
  readKind (frame k c ++ rest) = Ret (k, zlen (frame k c) - zlen c, zlen c).
Proof.
  intros [Hc Hr]%Forall_app Hf Hlen.
  assert (forall A ts cs (x y : outcome rlp_err A), zlen (frame k c) - zlen c = ts -> cs = zlen c ->
    (if decide (cs > u64 (zlen (frame k c ++ rest) - ts)) then x else y) = y) as Hlast.
  { intros A ts cs x y <- ->. rewrite u64_small by (unfold is_u64; destruct k; cbn [frame] in *;
      unfold Spec.enc_list in *; zlen_lia). by decide_lia. }
  destruct k; cbn [frame frame_ok] in *; unfold Spec.enc_list in *; rewrite <- ?app_assoc in *;
    unfold Spec.header in *.
  - destruct c as [|x [|]]; try done. cbn [single_byte] in Hf. apply bool_decide_eq_true in Hf.
    cbn [app readKind] in *. rewrite decide_True by lia. cbn [mbind outcome_bind].
    rewrite Hlast by zlen_lia. repeat f_equal; zlen_lia.
  - case_decide as Hd; cbn [app readKind] in *; decide_lia.
    + rewrite decide_False.
      * cbn. rewrite Hlast by zlen_lia. repeat f_equal; zlen_lia.
      * intros (H1 & H2 & H3). destruct c as [|x [|]]; cbn in *; try zlen_lia.
        apply bool_decide_eq_false in Hf. lia.
    + pose proof (byte_len_u64 (zlen c) ltac:(zlen_lia)). pose proof (zlen_min_be (zlen c) (zlen_nonneg c)).
      decide_lia. replace (183 + Spec.byte_len (zlen c) - 183) with (Spec.byte_len (zlen c)) by lia.
      rewrite readSize_min_be by (try apply Forall_app; auto; zlen_lia). cbn [mbind outcome_bind].
      rewrite Hlast by zlen_lia. repeat f_equal; zlen_lia.
  - case_decide as Hd; cbn [app readKind] in *; decide_lia.
    + cbn. rewrite Hlast by zlen_lia. repeat f_equal; zlen_lia.
    + pose proof (byte_len_u64 (zlen c) ltac:(zlen_lia)). pose proof (zlen_min_be (zlen c) (zlen_nonneg c)).
      decide_lia. replace (247 + Spec.byte_len (zlen c) - 247) with (Spec.byte_len (zlen c)) by lia.
      rewrite readSize_min_be by (try apply Forall_app; auto; zlen_lia). cbn [mbind outcome_bind].
      rewrite Hlast by zlen_lia. repeat f_equal; zlen_lia.
Qed.

Definition kind_tags (k : Kind) (st lt : Z) : Prop :=
  k = String /\ st = 0x80 /\ lt = 0xB7 \/ k = List /\ st = 0xC0 /\ lt = 0xF7.

Lemma frame_of_header k st lt b cs rest0 :
  kind_tags k st lt -> b = Spec.header st lt cs ++ rest0 -> 0 <= cs <= zlen rest0 ->
  exists c rest, b = frame k c ++ rest /\ zlen c = cs
    /\ zlen (frame k c) - zlen c = zlen (Spec.header st lt cs).
Proof.
  intros Hk -> Hl. unfold zlen in Hl.
  exists (take (Z.to_nat cs) rest0), (drop (Z.to_nat cs) rest0).
  assert (zlen (take (Z.to_nat cs) rest0) = cs) as Ht by (unfold zlen; rewrite length_take; lia).
  destruct Hk as [(-> & -> & ->)|(-> & -> & ->)]; cbn [frame]; unfold Spec.enc_list;
    rewrite Ht, <- app_assoc, take_drop, zlen_app; split_and!; try done; lia.
Qed.

Lemma short_header_inv k st lt x b :
  kind_tags k st lt -> 0 <= x - st < 56 -> x - st <= zlen b ->
  exists c rest, x :: b = frame k c ++ rest /\ zlen c = x - st
    /\ zlen (frame k c) - zlen c = 1.
Proof.
  intros Hk Hx Hl. destruct (frame_of_header k st lt (x :: b) (x - st) b) as (c & rest & ?);
    [done| |lia|].
  - unfold Spec.header. decide_lia. cbn. f_equal. lia.
  - exists c, rest. unfold Spec.header in *. by rewrite decide_True in * by lia.
Qed.

Lemma long_header_inv k st lt x b s :
  kind_tags k st lt -> bytes_ok b -> 1 <= x - lt <= 8 -> readSize b (x - lt) = Ret s ->
  s <= zlen b - (x - lt) ->
  exists c rest, x :: b = frame k c ++ rest /\ zlen c = s /\ 56 <= s
    /\ zlen (frame k c) - zlen c = x - lt + 1.
Proof.
  intros Hk Hb Hx (Hs & Hbl & rest0 & ->)%readSize_inv Hl; [|done|lia].
  pose proof (zlen_min_be s ltac:(lia)).
  destruct (frame_of_header k st lt (x :: Spec.min_be s ++ rest0) s rest0)
    as (c & rest & E & Hc & Hh); [done| |zlen_lia|].
  - unfold Spec.header. decide_lia. cbn. f_equal. lia.
  - exists c, rest. split_and!; try done; [lia|].
    rewrite Hh, zlen_header by lia. decide_lia. lia.
Qed.

Lemma readKind_inv b k ts cs :
  bytes_ok b -> zlen b < 2 ^ 64 -> readKind b = Ret (k, ts, cs) ->
  exists c rest, b = frame k c ++ rest /\ frame_ok k c
    /\ ts = zlen (frame k c) - zlen c /\ cs = zlen c.
Proof.
  intros Hb Hlen. destruct b as [|x b]; [done|]. cbn [readKind].
  inversion Hb as [|? ? Hx Hb']; subst. unfold is_byte in Hx.
  assert (Hu : forall t, 0 <= t <= zlen (x :: b) -> u64 (zlen (x :: b) - t) = zlen (x :: b) - t)
    by (intros; apply u64_small; unfold is_u64; zlen_lia).
  rewrite outcome_bind_ret. intros ([[k' ts'] cs'] & Hr & Hlast).
  case_decide as Hgt; [done|]. injection Hlast as -> -> ->.
  repeat case_decide; try done; try (apply outcome_bind_ret in Hr as (s & Hs & Hr)); injection Hr as <- <- <-.
  - exists [x], b. cbn [frame frame_ok single_byte].
    rewrite bool_decide_true by lia. split_and!; try done; zlen_lia.
  - rewrite Hu in Hgt by zlen_lia.
    destruct (short_header_inv String 0x80 0xB7 x b) as (c & rest & E & Hc & Hh); [by left|lia|zlen_lia|].
    exists c, rest. rewrite Hh, Hc, E. split_and!; try done.
    unfold frame_ok. destruct (single_byte c) eqn:Es; [|done]. exfalso.
    destruct c as [|y [|]]; try done. cbn in Es. apply bool_decide_eq_true in Es.
    match goal with H : ~ (_ /\ _ /\ _) |- _ => apply H end.
    cbn [frame] in E. unfold Spec.header in E. rewrite decide_True in E by done.
    rewrite E. cbn [app nth]. split_and!; zlen_lia.
  - assert (x - 183 <= zlen b) by (unfold readSize in Hs; case_decide; [done|lia]).
    rewrite Hu in Hgt by zlen_lia.
    destruct (long_header_inv String 0x80 0xB7 x b s) as (c & rest & E & Hc & H56 & Hh);
      [by left|done|lia|done|zlen_lia|].
    exists c, rest. rewrite Hh, Hc, E. split_and!; try done.
    unfold frame_ok. destruct c as [|y [|]]; try done. unfold zlen in Hc; cbn in Hc; lia.
  - rewrite Hu in Hgt by zlen_lia.
    destruct (short_header_inv List 0xC0 0xF7 x b) as (c & rest & E & Hc & Hh); [by right|lia|zlen_lia|].
    exists c, rest. rewrite Hh, Hc, E. by split_and!.
  - assert (x - 247 <= zlen b) by (unfold readSize in Hs; case_decide; [done|lia]).
    rewrite Hu in Hgt by zlen_lia.
    destruct (long_header_inv List 0xC0 0xF7 x b s) as (c & rest & E & Hc & H56 & Hh);
      [by right|done|lia|done|zlen_lia|].
    exists c, rest. rewrite Hh, Hc, E. by split_and!.
Qed.

Lemma readKind_no_panic b : no_panic (readKind b).
Proof.
  unfold no_panic, readKind, readSize. destruct b as [|x b]; [done|].
  repeat case_decide; cbn; try done; repeat case_decide; cbn; repeat case_decide; done.
Qed.

Lemma Split_frame k c rest :
  bytes_ok (c ++ rest) -> frame_ok k c -> zlen (frame k c ++ rest) < 2 ^ 64 ->
  Split (frame k c ++ rest) = Ret (k, c, rest).
Proof.
  intros Hb Hf Hl. unfold Split. rewrite readKind_frame by done. cbn [mbind outcome_bind].
  assert (exists h, frame k c = h ++ c) as [h Hh].
  { destruct k; cbn; unfold Spec.enc_list; [by exists []|eauto|eauto]. }
  rewrite Hh in *. autorewrite with zlen in Hl.
  rewrite u64_small by (unfold is_u64; zlen_lia).
  replace (zlen (h ++ c) - zlen c) with (zlen h) by zlen_lia.
  rewrite <- app_assoc, go_slice_app. cbn [mbind outcome_bind].
  replace (zlen h + zlen c) with (zlen (h ++ c)) by zlen_lia.
  by rewrite app_assoc, go_from_app.
Qed.

Lemma frame_content_ok k c r : bytes_ok (frame k c ++ r) -> bytes_ok (c ++ r).
Proof. unfold frame, Spec.enc_list. destruct k; rewrite !Forall_app; tauto. Qed.

Lemma readKind_Split b k ts cs :
  bytes_ok b -> zlen b < 2 ^ 64 -> readKind b = Ret (k, ts, cs) ->
  exists c r, b = frame k c ++ r /\ frame_ok k c /\ Split b = Ret (k, c, r).
Proof.
  intros Hb Hl Hk. destruct (readKind_inv b k ts cs) as (c & r & E & Hf & _); [done|lia|done|].
  exists c, r. split_and!; try done. rewrite E in *.
  apply Split_frame; eauto using frame_content_ok.
Qed.

(** [Split] parses exactly one encoded value. On a byte slice of a length
    Go can represent it never panics, and it returns kind [k], content [c] and
    rest [r] if and only if the slice is the canonical encoding of [c] under
    [k] (the shortest header, and no header for a single byte below 128)
    followed by [r]. *)
Theorem Split_correct b :
  bytes_ok b -> zlen b < 2 ^ 63 ->
  no_panic (Split b) /\
  (forall k c r, Split b = Ret (k, c, r) <-> b = frame k c ++ r /\ frame_ok k c).
Proof.
  intros Hb Hl.
  destruct (readKind b) as [[[k ts] cs]|e|] eqn:Hk; [| |by destruct (readKind_no_panic b)].
  - apply readKind_Split in Hk as (c & r & E & Hf & Hs); [|done|lia].
    split; [by rewrite Hs|]. intros k' c' r'. split.
    + rewrite Hs. by intros [= <- <- <-].
    + intros [E' Hf']. rewrite E' in *. apply Split_frame; [by eapply frame_content_ok|done|lia].
  - assert (Split b = Err e) as Hs by (unfold Split; by rewrite Hk).
    split; [by rewrite Hs|]. intros k c r. split; [by rewrite Hs|].
    intros [E Hf]. rewrite E in *. apply Split_frame; [by eapply frame_content_ok|done|lia].
Qed.

Lemma Split_correct_witness : Split [0x83; 1; 2; 3; 9] = Ret (String, [1; 2; 3], [9]).
Proof.
  apply (Split_correct [0x83; 1; 2; 3; 9]).
  - repeat constructor; lia.
  - reflexivity.
  - split; reflexivity.
Defined.

(** ** Encoded items *)

Definition item_kind (i : Spec.item) : Kind :=
  match i with
  | Spec.Str b => if single_byte b then Byte else String
  | Spec.Lst _ => List
  end.

Definition item_content (i : Spec.item) : bytes :=
  match i with
  | Spec.Str b => b
  | Spec.Lst l => Spec.enc_all l
  end.

Lemma enc_frame i : Spec.enc i = frame (item_kind i) (item_content i).
Proof. destruct i; [apply enc_str_frame|done]. Qed.

Lemma item_frame_ok i : frame_ok (item_kind i) (item_content i).
Proof. destruct i; [apply frame_ok_str|done]. Qed.

Lemma zlen_frame k c : zlen c <= zlen (frame k c).
Proof. destruct k; cbn; unfold Spec.enc_list; zlen_lia. Qed.

Lemma zlen_frame_pos k c : frame_ok k c -> 0 < zlen (frame k c).
Proof.
  destruct k; cbn; unfold Spec.enc_list, Spec.header.
  - destruct c; [done|]. zlen_lia.
  - intros _. case_decide; zlen_lia.
  - intros _. case_decide; zlen_lia.
Qed.

Lemma frame_bytes_ok k c : bytes_ok c -> zlen (frame k c) < 2 ^ 64 -> bytes_ok (frame k c).
Proof.
  intros Hc Hl. pose proof (zlen_frame k c). pose proof (zlen_nonneg c).
  destruct k; cbn; unfold Spec.enc_list; [done| |];
    apply Forall_app; split; auto; apply header_ok; lia.
Qed.

Lemma item_ok_Lst l : Spec.item_ok (Spec.Lst l) <-> Forall Spec.item_ok l.
Proof.
  cbn [Spec.item_ok]. induction l as [|i l IH]; cbn [foldr]; [by split|].
  split; [intros [? ?]; constructor; tauto|inversion 1; tauto].
Qed.

Lemma enc_all_cons i l : Spec.enc_all (i :: l) = Spec.enc i ++ Spec.enc_all l.
Proof. done. Qed.

Lemma enc_bytes_ok i : Spec.item_ok i -> zlen (Spec.enc i) < 2 ^ 64 -> bytes_ok (Spec.enc i).
Proof.
  induction i as [b|l IH] using Spec.item_ind'; intros Hok Hl; rewrite enc_frame in *.
  - by apply frame_bytes_ok.
  - apply frame_bytes_ok; [|done]. pose proof (zlen_frame List (Spec.enc_all l)) as Hz.
    cbn [item_kind item_content] in *. apply item_ok_Lst in Hok.
    assert (zlen (Spec.enc_all l) < 2 ^ 64) as Hl' by lia. clear Hl Hz.
    induction l as [|i l IHl]; [constructor|].
    rewrite enc_all_cons in *. 
    apply Forall_cons_1 in IH as [IH1 IH2]. apply Forall_cons_1 in Hok as [Hok1 Hok2].
    apply Forall_app; split; [apply IH1; [done|zlen_lia]|apply IHl; [done|done|zlen_lia]].
Qed.

Lemma enc_all_bytes_ok l :
  Forall Spec.item_ok l -> zlen (Spec.enc_all l) < 2 ^ 64 -> bytes_ok (Spec.enc_all l).
Proof.
  induction l as [|i l IHl]; [constructor|]. rewrite enc_all_cons.
  intros [Hi Hl]%Forall_cons_1 Hz. apply Forall_app; split; [apply enc_bytes_ok|apply IHl]; try done; zlen_lia.
Qed.

(** ** Counting values *)

(** One round of the loop of [CountValues] on a value in front. *)
Lemma CountValues_loop_step fuel i k c r :
  bytes_ok (c ++ r) -> frame_ok k c -> zlen (frame k c ++ r) < 2 ^ 64 ->
  CountValues_loop (S fuel) i (frame k c ++ r) = CountValues_loop fuel (i + 1) r.
Proof.
  intros Hb Hf Hl. pose proof (zlen_frame_pos k c Hf).
  cbn [CountValues_loop]. destruct (frame k c ++ r) as [|x b] eqn:E;
    [apply (f_equal zlen) in E; zlen_lia|].
  rewrite <- E in *. rewrite readKind_frame by done. pose proof (zlen_frame k c).
  rewrite u64_small by (unfold is_u64; zlen_lia).
  replace (zlen (frame k c) - zlen c + zlen c) with (zlen (frame k c)) by lia.
  by rewrite go_from_app.
Qed.

Lemma CountValues_loop_total fuel i b :
  bytes_ok b -> zlen b < 2 ^ 64 -> (length b <= fuel)%nat ->
  exists o, CountValues_loop fuel i b = Some o /\ no_panic o.
Proof.
  revert i b. induction fuel as [|fuel IH]; intros i b Hb Hl Hf.
  - destruct b; [by exists (Ret i)|cbn in Hf; lia].
  - destruct b as [|x b']; [by exists (Ret i)|]. set (b := x :: b') in *.
    destruct (readKind b) as [[[k ts] cs]|e|] eqn:Hk; [| |by destruct (readKind_no_panic b)].
    + apply readKind_inv in Hk as (c & r & E & Hfr & _); [|done|done]. rewrite E in *.
      rewrite CountValues_loop_step by eauto using frame_content_ok.
      pose proof (zlen_frame_pos k c Hfr) as Hp. unfold zlen in Hp.
      rewrite length_app in Hf. apply IH; [|zlen_lia|lia].
      by apply Forall_app in Hb as [_ ?].
    + exists (Err e). subst b. cbn [CountValues_loop]. by rewrite Hk.
Qed.

(** [CountValues] always finishes, within one round per input byte, and
    never panics; on the concatenated encodings of a list of items it returns
    the number of items. *)
Theorem CountValues_correct b :
  bytes_ok b -> zlen b < 2 ^ 63 ->
  (exists o, CountValues b = Some o /\ no_panic o) /\
  (forall l, Forall Spec.item_ok l -> b = Spec.enc_all l -> CountValues b = Some (Ret (zlen l))).
Proof.
  intros Hb Hl. unfold CountValues. split; [apply CountValues_loop_total; [done|lia|lia]|].
  intros l Hok ->.
  assert (H : forall fuel i, (length (Spec.enc_all l) <= fuel)%nat ->
    CountValues_loop fuel i (Spec.enc_all l) = Some (Ret (i + zlen l))).
  2: { rewrite H by lia. by rewrite Z.add_0_l. }
  induction l as [|it l IH]; intros fuel i Hf.
  { rewrite zlen_nil, Z.add_0_r. by destruct fuel. }
  rewrite enc_all_cons in *. rewrite enc_frame in *. apply Forall_cons_1 in Hok as [_ Hok].
  pose proof (zlen_frame_pos _ _ (item_frame_ok it)) as Hp. unfold zlen in Hp.
  rewrite length_app in Hf. destruct fuel as [|fuel]; [lia|].
  rewrite CountValues_loop_step; [|by eapply frame_content_ok|apply item_frame_ok|lia].
  rewrite IH; [f_equal; f_equal; zlen_lia|zlen_lia|by apply Forall_app in Hb as [_ ?]|done|lia].
Qed.

Lemma CountValues_correct_witness :
  (exists o, CountValues [0x81] = Some o /\ no_panic o) /\
  CountValues (Spec.enc_all [Spec.Str [7]; Spec.Lst [Spec.Str []]; Spec.Str [200]]) = Some (Ret 3).
Proof.
  split.
  - apply (CountValues_correct [0x81]); [repeat constructor; lia|reflexivity].
  - refine (proj2 (CountValues_correct _ _ _) [Spec.Str [7]; Spec.Lst [Spec.Str []]; Spec.Str [200]] _ _);
      try reflexivity; repeat constructor; vm_compute; by repeat constructor.
Defined.

(** ** Integers *)

Lemma AppendUint64_spec b i : is_u64 i -> AppendUint64 b i = b ++ Spec.enc_str (Spec.min_be i).
Proof.
  intros Hi. unfold is_u64 in Hi. unfold AppendUint64. case_decide as H0; [by subst|].
  case_decide as H1.
  { unfold Spec.min_be. rewrite (byte_len_unique i 1) by (cbn; lia). change (Z.to_nat 1) with 1%nat.
    cbn [be_bytes Spec.enc_str]. rewrite Z.shiftr_0_r.
    rewrite (u8_small i) by (unfold is_byte; lia). by rewrite decide_True by lia. }
  rewrite <- putint_min_be by lia. unfold putint. f_equal.
  repeat case_decide; unfold Spec.enc_str, Spec.header; try reflexivity.
  rewrite decide_False; [done|]. rewrite u8_small by (unfold is_byte; lia). lia.
Qed.

Lemma byte_len_max i : is_u64 i -> Spec.byte_len i <= 8.
Proof.
  unfold is_u64. intros Hi. destruct (decide (i = 0)) as [->|]; [by cbn|]. pose proof (byte_len_u64 i ltac:(lia)). lia.
Qed.

Lemma enc_uint_length i : is_u64 i -> zlen (Spec.enc_str (Spec.min_be i)) <= 9.
Proof.
  intros Hi. pose proof (byte_len_max i Hi). unfold is_u64 in Hi. pose proof (zlen_min_be i ltac:(lia)) as Hz.
  rewrite enc_str_frame. destruct (single_byte _); cbn [frame]; [lia|]. rewrite zlen_app, zlen_header by zlen_lia. decide_lia. lia.
Qed.

(** [AppendUint64] appends the canonical RLP encoding of its integer (the
    encoding of the shortest big-endian form), and [SplitUint64] reads that
    integer back from the front of a slice and leaves the rest. *)
Theorem AppendUint64_SplitUint64 b i rest :
  is_u64 i -> bytes_ok rest -> zlen rest < 2 ^ 63 ->
  AppendUint64 b i = b ++ Spec.enc_str (Spec.min_be i) /\
  SplitUint64 (AppendUint64 [] i ++ rest) = Ret (i, rest).
Proof.
  intros Hi Hr Hl. split; [by apply AppendUint64_spec|].
  rewrite AppendUint64_spec by done. cbn [app]. unfold SplitUint64, SplitString.
  unfold is_u64 in Hi. pose proof (zlen_min_be i ltac:(lia)) as Hz.
  assert (Spec.byte_len i <= 8) by by apply byte_len_max. pose proof (enc_uint_length i Hi).
  rewrite enc_str_frame in *. rewrite Split_frame;
    [|apply Forall_app; auto with go|apply frame_ok_str|zlen_lia].
  cbn [mbind outcome_bind]. rewrite decide_False by by destruct (single_byte _). cbn [mbind outcome_bind].
  destruct (decide (i = 0)) as [->|Hi0]; [done|].
  pose proof (be_to_Z_min_be i ltac:(lia)) as Hv.
  destruct (min_be_head i ltac:(lia)) as (x & l & E & Hx). rewrite E in *.
  destruct l as [|y l].
  { rewrite decide_False by lia. do 2 f_equal. exact Hv. }
  rewrite decide_False by lia.
  rewrite u8_small by (unfold is_byte; zlen_lia).
  assert (256 <= i).
  { pose proof (byte_len_bounds i ltac:(lia)) as [Hb _]. rewrite <- Hz, !zlen_cons in Hb.
    etransitivity; [|exact Hb]. change 256 with (256 ^ 1) at 1. apply Z.pow_le_mono_r; zlen_lia. }
  rewrite Hz, <- (app_nil_r (x :: y :: l)), <- E. by rewrite readSize_min_be by (auto; lia).
Qed.

Lemma AppendUint64_SplitUint64_witness :
  AppendUint64 [1] 1024 = [1; 0x82; 4; 0] /\
  SplitUint64 (AppendUint64 [] 1024 ++ [5; 6]) = Ret (1024, [5; 6]).
Proof.
  split; [reflexivity|].
  apply (AppendUint64_SplitUint64 [] 1024 [5; 6]); [split; lia|repeat constructor; lia|reflexivity].
Defined.
