(* ===== verification/RlpEncode.v ===== *)
(** * The RLP encoder of rlp/encode.go

    The encoder writes string data and list headers to separate buffers (an
    [encbuf]); a list header is reserved when the list starts and its size is
    computed when the list ends, so that every byte is copied once when
    [toBytes] interleaves the two.  The model keeps the buffers and the
    operations on them; Go values are the inductive [val], one constructor per
    case of [makeWriter], and [write] is the writer that case selects. *)

From S2P Require Import Prelude Rlp.

(** ** Writing into a fixed buffer *)

(** [copy(out[pos:], src)]: the number of bytes copied and the new buffer. *)
Definition go_copy (out : bytes) (pos : Z) (src : bytes) : outcome rlp_err (Z * bytes) :=
  if decide (0 <= pos <= zlen out) then
    let n := Z.min (zlen out - pos) (zlen src) in
    Ret (n, take (Z.to_nat pos) out ++ take (Z.to_nat n) src ++ drop (Z.to_nat (pos + n)) out)
  else Panic.

(** Storing the bytes [src] at [out[pos]], [out[pos+1]], ... *)
Definition go_store (out : bytes) (pos : Z) (src : bytes) : outcome rlp_err bytes :=
  if decide (0 <= pos /\ pos + zlen src <= zlen out) then
    Ret (take (Z.to_nat pos) out ++ src ++ drop (Z.to_nat (pos + zlen src)) out)
  else Panic.

(** ** [encbuf] *)

Record listhead := mk_listhead {
  lh_offset : Z;  (* index of this header in string data *)
  lh_size : Z     (* total size of encoded data (including list headers) *)
}.

Record encbuf := mk_encbuf {
  str : bytes;              (* string data, contains everything except list headers *)
  lheads : list listhead;   (* all list headers *)
  lhsize : Z                (* sum of sizes of all encoded list headers *)
}.

Definition listhead_encode (head : listhead) : bytes := puthead 0xC0 0xF7 (u64 (lh_size head)).

(** The buffer after [reset]. *)
Definition encbuf_reset : encbuf := mk_encbuf [] [] 0.

Definition append_str (w : encbuf) (b : bytes) : encbuf :=
  mk_encbuf (str w ++ b) (lheads w) (lhsize w).

Definition encodeStringHeader (w : encbuf) (size : Z) : encbuf :=
  if decide (size < 56) then append_str w [u8 (0x80 + u8 size)]
  else
    let b := putint (u64 size) in
    append_str w (u8 (0xB7 + u8 (zlen b)) :: b).

Definition encodeString (w : encbuf) (b : bytes) : encbuf :=
  match b with
  | [x] =>
      if decide (x <= 0x7F) then append_str w [x]
      else append_str (encodeStringHeader w (zlen b)) b
  | _ => append_str (encodeStringHeader w (zlen b)) b
  end.

Definition encodeUint (w : encbuf) (i : Z) : encbuf :=
  if decide (i = 0) then append_str w [0x80]
  else if decide (i < 128) then append_str w [u8 i]
  else
    let s := putint i in
    append_str w (u8 (0x80 + u8 (zlen s)) :: s).

Definition encbuf_size (w : encbuf) : Z := zlen (str w) + lhsize w.

Definition encbuf_list (w : encbuf) : encbuf * Z :=
  (mk_encbuf (str w) (lheads w ++ [mk_listhead (zlen (str w)) (lhsize w)]) (lhsize w),
   zlen (lheads w)).

Definition listEnd (w : encbuf) (index : Z) : outcome rlp_err encbuf :=
  lh ← go_index (lheads w) index;
  let size := encbuf_size w - lh_offset lh - lh_size lh in
  let lheads' := <[Z.to_nat index := mk_listhead (lh_offset lh) size]> (lheads w) in
  Ret (mk_encbuf (str w) lheads'
         (if decide (size < 56) then lhsize w + 1 else lhsize w + (1 + intsize (u64 size)))).

(** The loop of [toBytes] over the list headers. *)
Fixpoint toBytes_loop (s : bytes) (heads : list listhead) (out : bytes) (pos strpos : Z)
    : outcome rlp_err (bytes * Z * Z) :=
  match heads with
  | [] => Ret (out, pos, strpos)
  | head :: heads =>
      piece ← go_slice s strpos (lh_offset head);
      '(n, out) ← go_copy out pos piece;
      let pos := pos + n in
      let strpos := strpos + n in
      let enc := listhead_encode head in
      out ← go_store out pos enc;
      toBytes_loop s heads out (pos + zlen enc) strpos
  end.

Definition toBytes (w : encbuf) : outcome rlp_err bytes :=
  if decide (encbuf_size w < 0) then Panic else
  let out := replicate (Z.to_nat (encbuf_size w)) 0 in
  '(out, pos, strpos) ← toBytes_loop (str w) (lheads w) out 0 0;
  piece ← go_from (str w) strpos;
  '(_, out) ← go_copy out pos piece;
  Ret out.

(** ** Values and their writers *)

(** A Go value as the encoder sees it: the cases of [makeWriter]. Types with
    their own [EncodeRLP] method are not among them. *)
Inductive val :=
| RawV (b : bytes)                     (* RawValue *)
| UintV (i : Z)                        (* an unsigned integer type *)
| BoolV (b : bool)
| BigPtrV (i : option Z)               (* *big.Int *)
| BigV (i : Z)                         (* big.Int *)
| BytesV (b : bytes)                   (* []byte *)
| ByteArrayV (named : bool) (b : bytes) (* [N]byte, or an array of a named byte type *)
| StringV (b : bytes)                  (* string *)
| SliceV (tail : bool) (l : list val)  (* a slice or array of other elements, tag "tail" *)
| StructV (fields : list val)
| PtrV (nilKind : Kind) (v : option val)
| IfaceV (v : option val).

Definition BitLen (i : Z) : Z := if decide (i = 0) then 0 else Z.log2 (Z.abs i) + 1.

(** [big.Int.Bits]: the 64-bit words of the absolute value, little-endian. *)
Definition Bits (i : Z) : list Z :=
  map (fun k => u64 (Z.shiftr (Z.abs i) (64 * Z.of_nat k))) (seq 0 (Z.to_nat ((BitLen i + 63) / 64))).

(** The inner loop of [writeBigInt]: [j] counts the bytes of the word left. *)
Fixpoint writeBigInt_word (j : nat) (d index : Z) (buf : bytes) : Z * bytes :=
  match j with
  | O => (index, buf)
  | S j =>
      if decide (index > 0) then
        let index := index - 1 in
        writeBigInt_word j (Z.shiftr d 8) index (<[Z.to_nat index := u8 d]> buf)
      else (index, buf)
  end.

Fixpoint writeBigInt_loop (ds : list Z) (index : Z) (buf : bytes) : bytes :=
  match ds with
  | [] => buf
  | d :: ds =>
      let '(index, buf) := writeBigInt_word 8 d index buf in
      writeBigInt_loop ds index buf
  end.

Definition writeBigInt (i : Z) (w : encbuf) : outcome rlp_err encbuf :=
  if decide (i < 0) then Err errNegativeBigInt else
  let bitlen := BitLen i in
  if decide (bitlen <= 64) then Ret (encodeUint w (u64 i)) else
  let length := Z.shiftr (Z.land (bitlen + 7) (-8)) 3 in
  let w := encodeStringHeader w length in
  Ret (append_str w (writeBigInt_loop (Bits i) length (replicate (Z.to_nat length) 0))).

Definition writeBool (b : bool) (w : encbuf) : encbuf :=
  append_str w [if b then 0x01 else 0x80].

Definition writeBigIntPtr (i : option Z) (w : encbuf) : outcome rlp_err encbuf :=
  match i with
  | None => Ret (append_str w [0x80])
  | Some i => writeBigInt i w
  end.

(** [makeByteArrayWriter] and the writers it chooses between. *)
Definition writeByteArray (named : bool) (b : bytes) (w : encbuf) : encbuf :=
  match b with
  | [] => append_str w [0x80]
  | [x] => if decide (x <= 0x7f) then append_str w [x] else append_str w [0x81; x]
  | _ =>
      if named then encodeString w b
      else append_str (encodeStringHeader w (zlen b)) b
  end.

Definition writeString (s : bytes) (w : encbuf) : encbuf :=
  match s with
  | [x] =>
      if decide (x <= 0x7f) then append_str w [x]
      else append_str (encodeStringHeader w (zlen s)) s
  | _ => append_str (encodeStringHeader w (zlen s)) s
  end.

(** [writer]s compose over the elements of a slice or the fields of a struct,
    stopping at the first error. *)
Fixpoint write (v : val) (w : encbuf) {struct v} : outcome rlp_err encbuf :=
  let write_elems :=
    fix write_elems (l : list val) (w : encbuf) : outcome rlp_err encbuf :=
      match l with
      | [] => Ret w
      | v :: l => w ← write v w; write_elems l w
      end in
  match v with
  | RawV b => Ret (append_str w b)
  | UintV i => Ret (encodeUint w i)
  | BoolV b => Ret (writeBool b w)
  | BigPtrV i => writeBigIntPtr i w
  | BigV i => writeBigInt i w
  | BytesV b => Ret (encodeString w b)
  | ByteArrayV named b => Ret (writeByteArray named b w)
  | StringV s => Ret (writeString s w)
  | SliceV tail l =>
      if tail then write_elems l w
      else
        let '(w, lh) := encbuf_list w in
        w ← write_elems l w;
        listEnd w lh
  | StructV fields =>
      let '(w, lh) := encbuf_list w in
      w ← write_elems fields w;
      listEnd w lh
  | PtrV nilKind None =>
      if decide (nilKind = String) then Ret (append_str w [0x80])
      else let '(w, lh) := encbuf_list w in listEnd w lh
  | PtrV _ (Some v) => write v w
  | IfaceV None => Ret (append_str w [0xC0])
  | IfaceV (Some v) => write v w
  end.

Fixpoint write_elems (l : list val) (w : encbuf) : outcome rlp_err encbuf :=
  match l with
  | [] => Ret w
  | v :: l => w ← write v w; write_elems l w
  end.

Definition EncodeToBytes (v : val) : outcome rlp_err bytes :=
  w ← write v encbuf_reset;
  toBytes w.

(** [toWriter]: the byte strings handed to [out.Write], in order, for a writer
    that accepts every write. *)
Fixpoint toWriter_loop (s : bytes) (heads : list listhead) (strpos : Z)
    : outcome rlp_err (list bytes) :=
  match heads with
  | [] =>
      if decide (strpos < zlen s) then p ← go_from s strpos; Ret [p] else Ret []
  | head :: heads =>
      if decide (lh_offset head - strpos > 0) then
        p ← go_slice s strpos (lh_offset head);
        ps ← toWriter_loop s heads (strpos + zlen p);
        Ret (p :: listhead_encode head :: ps)
      else
        ps ← toWriter_loop s heads strpos;
        Ret (listhead_encode head :: ps)
  end.

Definition toWriter (w : encbuf) : outcome rlp_err (list bytes) :=
  toWriter_loop (str w) (lheads w) 0.

Example EncodeToBytes_ex :
  EncodeToBytes (StructV [UintV 1024; SliceV false [BytesV [1]; StringV [200]]; BigPtrV (Some (2 ^ 70))])
  = Ret [0xd1; 0x82; 4; 0; 0xc3; 1; 0x81; 200; 0x89; 64; 0; 0; 0; 0; 0; 0; 0; 0].
Proof. reflexivity. Qed.

(** ** The reference encoding of a value *)

Definition enc_nat (i : Z) : bytes := Spec.enc_str (Spec.min_be i).

(** The encoding of [v], [None] when [v] holds a negative big integer. *)
Fixpoint val_enc (v : val) : option bytes :=
  let elems := fix elems (l : list val) : option bytes :=
    match l with
    | [] => Some []
    | v :: l => e ← val_enc v; es ← elems l; Some (e ++ es)
    end in
  match v with
  | RawV b => Some b
  | UintV i => Some (enc_nat i)
  | BoolV b => Some (enc_nat (if b then 1 else 0))
  | BigPtrV None => Some (Spec.enc_str [])
  | BigPtrV (Some i) | BigV i => if decide (i < 0) then None else Some (enc_nat i)
  | BytesV b | ByteArrayV _ b | StringV b => Some (Spec.enc_str b)
  | SliceV true l => elems l
  | SliceV false l | StructV l => c ← elems l; Some (Spec.enc_list c)
  | PtrV k None => Some (if decide (k = String) then Spec.enc_str [] else Spec.enc_list [])
  | IfaceV None => Some (Spec.enc_list [])
  | PtrV _ (Some v) | IfaceV (Some v) => val_enc v
  end.

Fixpoint elems_enc (l : list val) : option bytes :=
  match l with
  | [] => Some []
  | v :: l => e ← val_enc v; es ← elems_enc l; Some (e ++ es)
  end.

(** Unsigned integers are 64-bit, string data are bytes. *)
Fixpoint val_ok (v : val) : Prop :=
  let elems := fix elems (l : list val) : Prop :=
    match l with [] => True | v :: l => val_ok v /\ elems l end in
  match v with
  | UintV i => is_u64 i
  | RawV b | BytesV b | ByteArrayV _ b | StringV b => bytes_ok b
  | BoolV _ | BigPtrV _ | BigV _ => True
  | SliceV _ l | StructV l => elems l
  | PtrV _ (Some v) | IfaceV (Some v) => val_ok v
  | PtrV _ None | IfaceV None => True
  end.

Fixpoint vals_ok (l : list val) : Prop :=
  match l with [] => True | v :: l => val_ok v /\ vals_ok l end.

Section val_ind.
Context (P : val -> Prop).
Context (HRaw : forall b, P (RawV b)) (HUint : forall i, P (UintV i)) (HBool : forall b, P (BoolV b)).
Context (HBigPtr : forall i, P (BigPtrV i)) (HBig : forall i, P (BigV i)).
Context (HBytes : forall b, P (BytesV b)) (HArr : forall n b, P (ByteArrayV n b)).
Context (HString : forall b, P (StringV b)).
Context (HSlice : forall t l, Forall P l -> P (SliceV t l)) (HStruct : forall l, Forall P l -> P (StructV l)).
Context (HPtrNil : forall k, P (PtrV k None)) (HPtr : forall k v, P v -> P (PtrV k (Some v))).
Context (HIfaceNil : P (IfaceV None)) (HIface : forall v, P v -> P (IfaceV (Some v))).

Fixpoint val_ind' (v : val) : P v :=
  let elems := fix elems (l : list val) : Forall P l :=
    match l with
    | [] => Forall_nil_2 _
    | v :: l => Forall_cons_2 _ v l (val_ind' v) (elems l)
    end in
  match v with
  | RawV b => HRaw b | UintV i => HUint i | BoolV b => HBool b
  | BigPtrV i => HBigPtr i | BigV i => HBig i
  | BytesV b => HBytes b | ByteArrayV n b => HArr n b | StringV b => HString b
  | SliceV t l => HSlice t l (elems l) | StructV l => HStruct l (elems l)
  | PtrV k None => HPtrNil k | PtrV k (Some v) => HPtr k v (val_ind' v)
  | IfaceV None => HIfaceNil | IfaceV (Some v) => HIface v (val_ind' v)
  end.
End val_ind.

(** ** Strings and integers *)

Lemma encodeStringHeader_spec w size :
  0 <= size < 2 ^ 64 -> encodeStringHeader w size = append_str w (Spec.header 0x80 0xB7 size).
Proof.
  intros Hs. rewrite <- puthead_header by lia. unfold encodeStringHeader, puthead.
  case_decide; [done|]. by rewrite u64_small.
Qed.

Lemma append_str_app w a b : append_str (append_str w a) b = append_str w (a ++ b).
Proof. unfold append_str. cbn. by rewrite app_assoc. Qed.

Lemma string_writer_spec w b (f : encbuf -> bytes -> encbuf) :
  (forall x, f w [x] = if decide (x <= 0x7f) then append_str w [x]
     else append_str (encodeStringHeader w 1) [x]) ->
  ((forall x, b <> [x]) -> f w b = append_str (encodeStringHeader w (zlen b)) b) ->
  zlen b < 2 ^ 64 -> f w b = append_str w (Spec.enc_str b).
Proof.
  intros H1 H2 Hl. unfold Spec.enc_str. destruct b as [|x [|y b]].
  1,3: rewrite H2 by done; rewrite encodeStringHeader_spec by zlen_lia; apply append_str_app.
  rewrite H1. repeat case_decide; try lia; [done|].
  rewrite encodeStringHeader_spec by lia. apply append_str_app.
Qed.

Lemma encodeString_spec w b : zlen b < 2 ^ 64 -> encodeString w b = append_str w (Spec.enc_str b).
Proof.
  apply (string_writer_spec w b encodeString); [done|]. intros. by destruct b as [|x [|]]; naive_solver.
Qed.

Lemma writeString_spec w b : zlen b < 2 ^ 64 -> writeString b w = append_str w (Spec.enc_str b).
Proof.
  apply (string_writer_spec w b (fun w b => writeString b w)); [done|].
  intros. by destruct b as [|x [|]]; naive_solver.
Qed.

Lemma writeByteArray_spec n w b :
  zlen b < 2 ^ 64 -> writeByteArray n b w = append_str w (Spec.enc_str b).
Proof.
  intros Hl. destruct b as [|x [|y b]]; [done| |].
  - cbn. case_decide; case_decide; try lia; done.
  - cbn [writeByteArray]. destruct n; [by apply encodeString_spec|].
    rewrite encodeStringHeader_spec by zlen_lia. apply append_str_app.
Qed.

Lemma encodeUint_spec w i : is_u64 i -> encodeUint w i = append_str w (enc_nat i).
Proof.
  intros Hi. unfold encodeUint. pose proof (AppendUint64_spec [] i Hi) as E. cbn [app] in E.
  unfold enc_nat. rewrite <- E. unfold AppendUint64, is_u64 in *. case_decide; [done|].
  case_decide; [done|]. f_equal. unfold putint. by repeat case_decide.
Qed.

(** ** Big integers *)

Lemma writeBigInt_word_spec j d index n v :
  (Z.of_nat j <= 8) -> 0 <= index -> 0 <= v ->
  d = Z.shiftr v (8 * Z.of_nat n) mod 2 ^ (8 * Z.of_nat j) ->
  writeBigInt_word j d index (replicate (Z.to_nat index) 0 ++ be_bytes n v)
  = let k := Z.min (Z.of_nat j) index in
    (index - k, replicate (Z.to_nat (index - k)) 0 ++ be_bytes (n + Z.to_nat k) v).
Proof.
  revert d index n. induction j as [|j IH]; intros d index n Hj Hi Hv ->.
  { cbv zeta. replace (Z.of_nat 0 `min` index) with 0 by lia. change (Z.to_nat 0) with 0%nat.
    by rewrite Nat.add_0_r, Z.sub_0_r. }
  cbn [writeBigInt_word]. case_decide as Hi0.
  - replace (Z.to_nat index) with (Z.to_nat (index - 1) + 1)%nat by lia.
    rewrite replicate_add, <- app_assoc. cbn [replicate app].
    rewrite insert_app_r_alt by (rewrite length_replicate; lia).
    rewrite length_replicate, Nat.sub_diag. cbn [list_insert insert].
    assert (u8 (Z.shiftr v (8 * Z.of_nat n) mod 2 ^ (8 * Z.of_nat (S j))) :: be_bytes n v = be_bytes (S n) v) as ->.
    { cbn [be_bytes]. f_equal. unfold u8. apply Z.mod_mod_divide.
      exists (2 ^ (8 * Z.of_nat j)). rewrite <- Z.pow_add_r by lia. f_equal. lia. }
    rewrite (IH _ _ (S n)); [|lia|lia|done|].
    + cbv zeta. f_equal; [lia|]. f_equal; f_equal; lia.
    + replace (8 * Z.of_nat (S j)) with (8 + 8 * Z.of_nat j) by lia.
      rewrite shiftr_mod_pow2, Z.shiftr_shiftr by lia. do 2 f_equal. lia.
  - assert (index = 0) as -> by lia. cbv zeta. replace (Z.of_nat (S j) `min` 0) with 0 by lia.
    change (Z.to_nat 0) with 0%nat. by rewrite Nat.add_0_r.
Qed.

Lemma writeBigInt_loop_0 ds buf : writeBigInt_loop ds 0 buf = buf.
Proof. by induction ds. Qed.

Lemma writeBigInt_loop_spec (m k n : nat) v length :
  0 <= v -> n = (8 * k)%nat -> Z.of_nat n <= length -> length <= Z.of_nat n + 64 / 8 * Z.of_nat m ->
  writeBigInt_loop (map (fun k => u64 (Z.shiftr v (64 * Z.of_nat k))) (seq k m))
    (length - Z.of_nat n) (replicate (Z.to_nat (length - Z.of_nat n)) 0 ++ be_bytes n v)
  = be_bytes (Z.to_nat length) v.
Proof.
  change (64 / 8) with 8. intros Hv. revert k n.
  induction m as [|m IH]; intros k n -> Hl1 Hl2.
  - cbn [seq map writeBigInt_loop]. replace (length - Z.of_nat (8 * k)) with 0 by lia.
    by assert (Z.to_nat length = (8 * k)%nat) as -> by lia.
  - cbn [seq map writeBigInt_loop].
    rewrite (writeBigInt_word_spec 8 _ _ (8 * k) v); [|lia|lia|done|].
    2: { unfold u64. f_equal; f_equal; lia. }
    cbv zeta. destruct (decide (length - Z.of_nat (8 * k) < 8)).
    + replace (Z.of_nat 8 `min` (length - Z.of_nat (8 * k))) with (length - Z.of_nat (8 * k)) by lia.
      rewrite Z.sub_diag. cbn [Z.to_nat replicate app].
      replace (8 * k + Z.to_nat (length - Z.of_nat (8 * k)))%nat with (Z.to_nat length) by lia.
      apply writeBigInt_loop_0.
    + replace (Z.of_nat 8 `min` (length - Z.of_nat (8 * k))) with 8 by lia.
      replace (length - Z.of_nat (8 * k) - 8) with (length - Z.of_nat (8 * S k)) by lia.
      replace (8 * k + Z.to_nat 8)%nat with (8 * S k)%nat by lia.
      apply IH; lia.
Qed.

Lemma byte_len_BitLen i : 0 < i -> Spec.byte_len i = (BitLen i + 7) / 8.
Proof.
  intros Hi. unfold BitLen, Spec.byte_len. rewrite !decide_False by lia. rewrite Z.abs_eq by lia.
  replace (Z.log2 i + 1 + 7) with (Z.log2 i + 1 * 8) by lia. by rewrite Z.div_add by lia.
Qed.

Lemma round_up_bytes n : Z.shiftr (Z.land (n + 7) (-8)) 3 = (n + 7) / 8.
Proof.
  rewrite Z.shiftr_land. change (Z.shiftr (-8) 3) with (-1).
  by rewrite Z.land_m1_r, Z.shiftr_div_pow2 by lia.
Qed.

Lemma writeBigInt_spec i w :
  0 <= i -> zlen (enc_nat i) < 2 ^ 64 -> writeBigInt i w = Ret (append_str w (enc_nat i)).
Proof.
  intros Hi Hl. unfold writeBigInt. rewrite decide_False by lia. case_decide as Hb.
  - assert (is_u64 i).
    { unfold is_u64. destruct (decide (i = 0)) as [->|]; [lia|]. split; [lia|].
      unfold BitLen in Hb. rewrite decide_False, Z.abs_eq in Hb by lia.
      apply Z.log2_lt_pow2; lia. }
    rewrite u64_small by done. by rewrite encodeUint_spec.
  - assert (0 < i) by (destruct (decide (i = 0)) as [->|]; [by destruct Hb|lia]).
    rewrite round_up_bytes. pose proof (byte_len_BitLen i ltac:(lia)) as Hbl. rewrite <- Hbl.
    pose proof (zlen_min_be i Hi) as Hz. unfold enc_nat, Spec.enc_str in *.
    assert (8 < Spec.byte_len i).
    { assert (9 <= (BitLen i + 7) / 8); [apply Z.div_le_lower_bound; lia|lia]. }
    destruct (Spec.min_be i) as [|x [|y l]] eqn:E; [zlen_lia|zlen_lia|]. rewrite <- E in *.
    rewrite encodeStringHeader_spec by zlen_lia. rewrite append_str_app, Hz. do 3 f_equal.
    unfold Bits. rewrite Z.abs_eq by lia.
    pose proof (writeBigInt_loop_spec (Z.to_nat ((BitLen i + 63) / 64)) 0 0 i (Spec.byte_len i) Hi eq_refl) as Hs.
    cbn [be_bytes] in Hs. rewrite app_nil_r, Z.sub_0_r in Hs. apply Hs; [lia|].
    clear -Hb Hbl. rewrite Hbl, Z2Nat.id by (apply Z.div_pos; lia). change (64 / 8) with 8.
    Z.to_euclidean_division_equations; lia.
Qed.

(** ** Interleaving string data and headers *)

(** What [toBytes] produces from the string data [s], which starts at offset
    [k] of the buffer, and the headers [hs] that fall into it. *)
Fixpoint render (k : Z) (s : bytes) (hs : list listhead) : bytes :=
  match hs with
  | [] => s
  | h :: hs =>
      take (Z.to_nat (lh_offset h - k)) s ++ listhead_encode h
      ++ render (lh_offset h) (drop (Z.to_nat (lh_offset h - k)) s) hs
  end.

(** The headers are in order of their offsets, all between [k] and [e]. *)
Fixpoint heads_wf (k e : Z) (hs : list listhead) : Prop :=
  match hs with
  | [] => k <= e
  | h :: hs => k <= lh_offset h <= e /\ heads_wf (lh_offset h) e hs
  end.

Lemma heads_wf_le k e hs : heads_wf k e hs -> k <= e.
Proof. destruct hs; cbn; [done|]. intros [? _]; lia. Qed.

Lemma heads_wf_app k m e hs1 hs2 :
  heads_wf k m hs1 -> heads_wf m e hs2 -> heads_wf k e (hs1 ++ hs2).
Proof.
  revert k. induction hs1 as [|h hs1 IH]; intros k H1 H2; cbn in *.
  - destruct hs2 as [|h hs2]; cbn in *; [lia|]. destruct H2. split; [lia|done].
  - destruct H1 as [H1 H1']. pose proof (heads_wf_le _ _ _ H2). split; [lia|]. by apply IH.
Qed.

Lemma render_app k s1 s2 hs1 hs2 :
  heads_wf k (k + zlen s1) hs1 -> heads_wf (k + zlen s1) (k + zlen s1 + zlen s2) hs2 ->
  render k (s1 ++ s2) (hs1 ++ hs2) = render k s1 hs1 ++ render (k + zlen s1) s2 hs2.
Proof.
  revert k s1. induction hs1 as [|h hs1 IH]; intros k s1 H1 H2; cbn [app render heads_wf] in *.
  - destruct hs2 as [|h hs2]; [done|]. cbn [render heads_wf] in *. destruct H2 as [H2 _].
    assert (Z.to_nat (lh_offset h - k) = length s1 + Z.to_nat (lh_offset h - (k + zlen s1)))%nat as ->
      by (unfold zlen in *; lia).
    rewrite take_app_add, drop_app_add. by rewrite <- app_assoc.
  - destruct H1 as [H1 H1']. unfold zlen in H1.
    rewrite take_app_le, drop_app_le by lia. rewrite <- !app_assoc. do 2 f_equal.
    assert (lh_offset h + zlen (drop (Z.to_nat (lh_offset h - k)) s1) = k + zlen s1) as E
      by (unfold zlen; rewrite length_drop; lia).
    rewrite IH; rewrite ?E; done.
Qed.

(** [w'] is [w] after writing something whose encoding is [e]. *)
Definition wrote (w w' : encbuf) (e : bytes) : Prop :=
  exists s hs,
    str w' = str w ++ s /\ lheads w' = lheads w ++ hs
    /\ lhsize w' = lhsize w + (zlen e - zlen s)
    /\ heads_wf (zlen (str w)) (zlen (str w) + zlen s) hs
    /\ render (zlen (str w)) s hs = e.

Lemma wrote_nil w : wrote w w [].
Proof.
  exists [], []. rewrite !app_nil_r. cbn. split_and!; try done; zlen_lia.
Qed.

Lemma wrote_append_str w e : wrote w (append_str w e) e.
Proof.
  exists e, []. rewrite app_nil_r. cbn. split_and!; try done; zlen_lia.
Qed.

Lemma wrote_app w1 w2 w3 e1 e2 : wrote w1 w2 e1 -> wrote w2 w3 e2 -> wrote w1 w3 (e1 ++ e2).
Proof.
  intros (s1 & hs1 & Hs1 & Hh1 & Hl1 & Hw1 & Hr1) (s2 & hs2 & Hs2 & Hh2 & Hl2 & Hw2 & Hr2).
  rewrite Hs1, zlen_app in *. exists (s1 ++ s2), (hs1 ++ hs2). split_and!.
  - by rewrite Hs2, <- app_assoc.
  - by rewrite Hh2, Hh1, <- app_assoc.
  - zlen_lia.
  - rewrite zlen_app, Z.add_assoc. by eapply heads_wf_app.
  - rewrite render_app by done. by rewrite Hr1, Hr2.
Qed.

(** Ending a list: the header reserved by [encbuf_list] becomes the header of
    what was written since. *)
Lemma wrote_list w w1 index w2 e :
  zlen e < 2 ^ 64 ->
  encbuf_list w = (w1, index) -> wrote w1 w2 e ->
  exists w3, listEnd w2 index = Ret w3 /\ wrote w w3 (Spec.enc_list e).
Proof.
  intros He [= <- <-] (s & hs & Hs & Hh & Hl & Hw & Hr). cbn [str lheads lhsize] in *.
  set (h0 := mk_listhead (zlen (str w)) (lhsize w)) in *.
  assert (Hix : lheads w2 !! length (lheads w) = Some h0).
  { rewrite Hh, <- app_assoc. by apply list_lookup_middle. }
  unfold listEnd, zlen at 1. rewrite (go_index_lookup _ _ _ Hix). cbn [mbind outcome_bind].
  assert (encbuf_size w2 - lh_offset h0 - lh_size h0 = zlen e) as ->.
  { unfold encbuf_size. rewrite Hs, Hl. cbn. zlen_lia. }
  eexists. split; [done|].
  exists s, (mk_listhead (zlen (str w)) (zlen e) :: hs). cbn [str lheads lhsize heads_wf render lh_offset].
  rewrite Z.sub_diag. change (Z.to_nat 0) with 0%nat. rewrite take_0, drop_0. cbn [app].
  assert (Hhd : listhead_encode (mk_listhead (zlen (str w)) (zlen e)) = Spec.header 0xC0 0xF7 (zlen e)).
  { unfold listhead_encode. cbn. rewrite u64_small by (unfold is_u64; zlen_lia).
    by rewrite puthead_header by zlen_lia. }
  split_and!; try done.
  - unfold zlen. rewrite Nat2Z.id, Hh, <- app_assoc. cbn [app].
    rewrite insert_app_r_alt by lia. by rewrite Nat.sub_diag.
  - rewrite Hl. unfold Spec.enc_list. rewrite zlen_app, zlen_header by zlen_lia. case_decide; [lia|].
    rewrite u64_small by (unfold is_u64; zlen_lia). rewrite intsize_byte_len by zlen_lia. lia.
  - zlen_lia.
  - by rewrite Hhd, Hr.
Qed.

Lemma splice_app {A} (d old rest src : list A) :
  length old = length src ->
  take (length d) (d ++ old ++ rest) ++ src ++ drop (length d + length src) (d ++ old ++ rest)
  = d ++ src ++ rest.
Proof.
  intros H. rewrite take_app_length, <- H. do 2 f_equal.
  rewrite app_assoc, <- length_app. apply drop_app_length.
Qed.

Lemma go_copy_fit d old rest src :
  length old = length src ->
  go_copy (d ++ old ++ rest) (zlen d) src = Ret (zlen src, d ++ src ++ rest).
Proof.
  intros H. unfold go_copy. rewrite decide_True by zlen_lia.
  assert (zlen old = zlen src) by (unfold zlen; lia).
  rewrite Z.min_r by zlen_lia. rewrite <- (splice_app d old rest src H).
  unfold zlen. rewrite Z2Nat.inj_add, !Nat2Z.id by lia. by rewrite firstn_all.
Qed.

Lemma go_store_fit d old rest src :
  length old = length src -> go_store (d ++ old ++ rest) (zlen d) src = Ret (d ++ src ++ rest).
Proof.
  intros H. unfold go_store. assert (zlen old = zlen src) by (unfold zlen; lia).
  rewrite decide_True by zlen_lia. rewrite <- (splice_app d old rest src H).
  unfold zlen. by rewrite Z2Nat.inj_add, !Nat2Z.id by lia.
Qed.

Lemma toBytes_loop_spec s heads d pos strpos n :
  heads_wf strpos (zlen s) heads -> 0 <= strpos -> pos = zlen d ->
  n = length (render strpos (drop (Z.to_nat strpos) s) heads) ->
  exists d' strpos', 0 <= strpos' <= zlen s /\
    toBytes_loop s heads (d ++ replicate n 0) pos strpos
    = Ret (d' ++ replicate (length (drop (Z.to_nat strpos') s)) 0, zlen d', strpos') /\
    d' ++ drop (Z.to_nat strpos') s = d ++ render strpos (drop (Z.to_nat strpos) s) heads.
Proof.
  revert d pos strpos n. induction heads as [|h hs IH]; intros d pos strpos n Hw Hp -> ->.
  { exists d, strpos. cbn in *. done. }
  cbn [heads_wf toBytes_loop render] in *. destruct Hw as [Hw1 Hw2].
  pose proof (heads_wf_le _ _ _ Hw2) as Hle. unfold go_slice.
  rewrite decide_True by lia. cbn [mbind outcome_bind].
  set (piece := take (Z.to_nat (lh_offset h - strpos)) (drop (Z.to_nat strpos) s)).
  rewrite drop_drop. replace (Z.to_nat strpos + Z.to_nat (lh_offset h - strpos))%nat
    with (Z.to_nat (lh_offset h)) by lia.
  set (R := render (lh_offset h) (drop (Z.to_nat (lh_offset h)) s) hs).
  assert (zlen piece = lh_offset h - strpos) as Hpl.
  { unfold piece, zlen. rewrite length_take, length_drop. unfold zlen in *. lia. }
  rewrite !length_app, !replicate_add, go_copy_fit by apply length_replicate.
  cbn [mbind outcome_bind]. rewrite app_assoc, <- zlen_app.
  rewrite go_store_fit by apply length_replicate. cbn [mbind outcome_bind].
  rewrite Hpl, app_assoc, <- zlen_app, Zplus_minus.
  destruct (IH ((d ++ piece) ++ listhead_encode h) (zlen ((d ++ piece) ++ listhead_encode h)) (lh_offset h) (length R))
    as (d' & strpos' & H1 & H2 & H3); [done|lia|done|done|].
  exists d', strpos'. split_and!; [lia|lia|done|]. rewrite H3. by rewrite <- !app_assoc.
Qed.

Lemma toBytes_wrote w e : wrote encbuf_reset w e -> toBytes w = Ret e.
Proof.
  intros (s & hs & Hs & Hh & Hl & Hw & Hr). cbn in *. rewrite zlen_nil in *.
  unfold toBytes, encbuf_size. rewrite Hs, Hh, Hl. rewrite decide_False by zlen_lia.
  replace (zlen s + (0 + (zlen e - zlen s))) with (zlen e) by lia. unfold zlen at 1. rewrite Nat2Z.id.
  destruct (toBytes_loop_spec s hs [] 0 0 (length e)) as (d' & strpos' & H1 & H2 & H3);
    [done|done|done|by rewrite drop_0, Hr|].
  cbn [app] in H2. rewrite H2. cbn [mbind outcome_bind].
  unfold go_from, go_slice. rewrite decide_True by lia. cbn [mbind outcome_bind].
  rewrite firstn_all2 by (rewrite length_drop; unfold zlen; lia).
  rewrite <- (app_nil_r (replicate _ _)), go_copy_fit by apply length_replicate.
  cbn [mbind outcome_bind]. rewrite app_nil_r, H3, drop_0, Hr. done.
Qed.

(** ** The writers *)

Lemma elems_write_fix l w :
  (fix write_elems (l : list val) (w : encbuf) : outcome rlp_err encbuf :=
      match l with
      | [] => Ret w
      | v :: l => w ← write v w; write_elems l w
      end) l w = write_elems l w.
Proof. revert w. induction l as [|v l IH]; intros w; [done|]. cbn. by destruct (write v w). Qed.

(** Writing from any buffer appends the reference encoding, and fails exactly
    when there is none. *)
Definition writes (o : option bytes) (w : encbuf) (r : outcome rlp_err encbuf) : Prop :=
  match o with
  | Some e => exists w', r = Ret w' /\ lheads w `prefix_of` lheads w' /\ (zlen e < 2 ^ 63 -> wrote w w' e)
  | None => r = Err errNegativeBigInt
  end.

Lemma writes_append_str (w w' : encbuf) e :
  (zlen e < 2 ^ 63 -> w' = append_str w e) -> lheads w' = lheads w -> writes (Some e) w (Ret w').
Proof.
  intros H Hl. exists w'. split_and!; [done|by rewrite Hl|].
  intros He. rewrite H by done. apply wrote_append_str.
Qed.

Lemma writes_list w w1 index o (f : encbuf -> outcome rlp_err encbuf) :
  encbuf_list w = (w1, index) -> writes o w1 (f w1) ->
  writes (c ← o; Some (Spec.enc_list c)) w (w ← f w1; listEnd w index).
Proof.
  intros Hw Hf. destruct o as [e|]; cbn in *; [|by rewrite Hf].
  destruct Hf as (w2 & -> & Hp & Hwr). cbn.
  assert (Hix : lheads w2 !! length (lheads w) = Some (mk_listhead (zlen (str w)) (lhsize w))).
  { destruct Hp as [hs ->]. injection Hw as <- <-. cbn. rewrite <- app_assoc. by apply list_lookup_middle. }
  assert (index = zlen (lheads w)) as Hidx by by injection Hw as <- <-.
  assert (exists w3, listEnd w2 index = Ret w3 /\ lheads w `prefix_of` lheads w3) as (w3 & H3 & Hp3).
  { unfold listEnd. rewrite Hidx. unfold zlen at 1. rewrite (go_index_lookup _ _ _ Hix). cbn [mbind outcome_bind].
    eexists. split; [done|]. cbn [lheads]. destruct Hp as [hs ->]. injection Hw as <- <-. cbn [lheads].
    unfold zlen. rewrite Nat2Z.id, <- app_assoc, insert_app_r_alt by lia. by eexists. }
  exists w3. split_and!; [done|done|]. intros He.
  assert (zlen e < 2 ^ 63) by (unfold Spec.enc_list in He; zlen_lia).
  destruct (wrote_list w w1 index w2 e) as (w3' & H3' & Hwr3); [lia|done|by apply Hwr|].
  rewrite H3 in H3'. by injection H3' as <-.
Qed.

Lemma lheads_encodeStringHeader w n : lheads (encodeStringHeader w n) = lheads w.
Proof. unfold encodeStringHeader. by case_decide. Qed.

Lemma lheads_writeString w b :
  lheads (encodeString w b) = lheads w /\ lheads (writeString b w) = lheads w
  /\ (forall n, lheads (writeByteArray n b w) = lheads w).
Proof.
  unfold encodeString, writeString, writeByteArray. split_and!; [| |intros []];
    destruct b as [|x [|]]; try case_decide; cbn; try apply lheads_encodeStringHeader; done.
Qed.

Lemma writeBigInt_writes w i :
  writes (if decide (i < 0) then None else Some (enc_nat i)) w (writeBigInt i w).
Proof.
  unfold writes. case_decide as Hi; [unfold writeBigInt; by rewrite decide_True|].
  assert (exists w', writeBigInt i w = Ret w' /\ lheads w' = lheads w) as (w' & Hw & Hl).
  { unfold writeBigInt. rewrite decide_False by lia. case_decide; eexists; (split; [done|]); cbn.
    - unfold encodeUint. by repeat case_decide.
    - apply lheads_encodeStringHeader. }
  exists w'. split_and!; [done|by rewrite Hl|]. intros He.
  rewrite writeBigInt_spec in Hw by lia. injection Hw as <-. apply wrote_append_str.
Qed.

Lemma write_elems_writes l :
  Forall (fun v => forall w, val_ok v -> writes (val_enc v) w (write v w)) l ->
  forall w, vals_ok l -> writes (elems_enc l) w (write_elems l w).
Proof.
  induction 1 as [|v l Hv Hl IH]; intros w Hok; cbn.
  { exists w. split_and!; try done. intros _. apply wrote_nil. }
  destruct Hok as [Hokv Hokl]. specialize (Hv w Hokv). destruct (val_enc v) as [e|]; cbn in *.
  2: by rewrite Hv.
  destruct Hv as (w' & -> & Hp & Hw). cbn. specialize (IH w' Hokl).
  destruct (elems_enc l) as [es|]; cbn in *; [|done].
  destruct IH as (w'' & -> & Hp' & Hw'). exists w''. split_and!; [done|by etransitivity|].
  intros He. eapply wrote_app; [apply Hw|apply Hw']; zlen_lia.
Qed.

Lemma write_writes v w : val_ok v -> writes (val_enc v) w (write v w).
Proof.
  revert w. induction v using val_ind'; intros w Hok.
  - apply writes_append_str; done.
  - apply writes_append_str; [intros _; by apply encodeUint_spec|]. unfold encodeUint. by repeat case_decide.
  - destruct b; apply writes_append_str; done.
  - destruct i as [i|]; [apply writeBigInt_writes|apply writes_append_str; done].
  - apply writeBigInt_writes.
  - apply writes_append_str; [|apply lheads_writeString].
    intros He. apply encodeString_spec. rewrite enc_str_frame in He. pose proof (zlen_frame (if single_byte b then Byte else String) b). lia.
  - apply writes_append_str; [|apply lheads_writeString].
    intros He. apply writeByteArray_spec. rewrite enc_str_frame in He. pose proof (zlen_frame (if single_byte b then Byte else String) b). lia.
  - apply writes_append_str; [|apply lheads_writeString].
    intros He. apply writeString_spec. rewrite enc_str_frame in He. pose proof (zlen_frame (if single_byte b then Byte else String) b). lia.
  - destruct t; [by apply write_elems_writes|].
    by apply (writes_list w _ _ (elems_enc l) (write_elems l)); [|apply write_elems_writes].
  - by apply (writes_list w _ _ (elems_enc l) (write_elems l)); [|apply write_elems_writes].
  - cbn. case_decide; [by apply writes_append_str|].
    apply (writes_list w _ _ (Some []) (fun w => Ret w)); [done|].
    eexists. split_and!; [done|done|]. intros _. apply wrote_nil.
  - by apply IHv.
  - by apply writes_append_str.
  - by apply IHv.
Qed.

(** ** Writing to an [io.Writer] *)

Lemma toWriter_loop_spec s heads strpos :
  heads_wf strpos (zlen s) heads -> 0 <= strpos ->
  exists ps, toWriter_loop s heads strpos = Ret ps /\
    concat ps = render strpos (drop (Z.to_nat strpos) s) heads.
Proof.
  revert strpos. induction heads as [|h hs IH]; intros strpos Hw Hp; cbn [toWriter_loop render heads_wf] in *.
  - case_decide.
    + unfold go_from, go_slice. rewrite decide_True by lia. eexists; split; [done|].
      rewrite firstn_all2 by (rewrite length_drop; unfold zlen; lia). cbn. by rewrite app_nil_r.
    + exists []. split; [done|]. by rewrite drop_ge by (unfold zlen in *; lia).
  - destruct Hw as [Hw1 Hw2]. pose proof (heads_wf_le _ _ _ Hw2).
    destruct (IH (lh_offset h) Hw2 ltac:(lia)) as (ps & Hps & Hc).
    rewrite drop_drop. replace (Z.to_nat strpos + Z.to_nat (lh_offset h - strpos))%nat
      with (Z.to_nat (lh_offset h)) by lia.
    case_decide.
    + unfold go_slice. rewrite decide_True by lia. cbn [mbind outcome_bind].
      set (p := take _ _). assert (strpos + zlen p = lh_offset h) as ->.
      { unfold p, zlen. rewrite length_take, length_drop. unfold zlen in *. lia. }
      rewrite Hps. eexists; split; [done|]. cbn [concat]. by rewrite Hc.
    + assert (strpos = lh_offset h) as -> by lia. rewrite Hps. eexists; split; [done|].
      rewrite Z.sub_diag. cbn [concat]. by rewrite Hc.
Qed.

(** [toWriter] hands the same bytes to a writer as [toBytes] returns. *)
Lemma toWriter_wrote w e :
  wrote encbuf_reset w e -> exists ps, toWriter w = Ret ps /\ concat ps = e.
Proof.
  intros (s & hs & Hs & Hh & _ & Hw & Hr). cbn in *. rewrite zlen_nil in *.
  unfold toWriter. rewrite Hs, Hh.
  destruct (toWriter_loop_spec s hs 0) as (ps & Hps & Hc); [done|lia|].
  exists ps. split; [done|]. by rewrite Hc, drop_0.
Qed.

Lemma EncodeToBytes_Some v e :
  val_ok v -> val_enc v = Some e -> zlen e < 2 ^ 63 -> EncodeToBytes v = Ret e.
Proof.
  intros Hok He Hz. pose proof (write_writes v encbuf_reset Hok) as H. rewrite He in H.
  destruct H as (w & Hw & _ & Hwr). unfold EncodeToBytes. rewrite Hw. cbn. by apply toBytes_wrote, Hwr.
Qed.

(** C30: the two-buffer encoder refines the reference encoding.  For every Go
    value the encoder supports, [EncodeToBytes] returns exactly its reference
    RLP encoding when that encoding has a length Go can represent, [Encode]
    hands the same bytes to its writer, and both return an error exactly when
    the value contains a negative big integer.  In particular the header offsets
    and sizes recorded while writing interleave correctly and no buffer access
    is out of range. *)
Theorem EncodeToBytes_correct v :
  val_ok v ->
  match val_enc v with
  | Some e => zlen e < 2 ^ 63 ->
      EncodeToBytes v = Ret e /\ (@concat Z <$> (write v encbuf_reset ≫= toWriter)) = Ret e
  | None => EncodeToBytes v = Err errNegativeBigInt /\ write v encbuf_reset = Err errNegativeBigInt
  end.
Proof.
  intros Hok. pose proof (write_writes v encbuf_reset Hok) as H.
  destruct (val_enc v) as [e|] eqn:Ev.
  - intros He. split; [by apply EncodeToBytes_Some|].
    destruct H as (w & -> & _ & Hw). destruct (toWriter_wrote w e (Hw He)) as (ps & Hps & <-).
    cbn. by rewrite Hps.
  - unfold EncodeToBytes. by rewrite H.
Qed.

Lemma EncodeToBytes_correct_witness :
  EncodeToBytes (StructV [UintV 300; SliceV true [BoolV true; BytesV [1; 2]]; PtrV List None])
  = Ret [0xc8; 0x82; 1; 44; 1; 0x82; 1; 2; 0xc0].
Proof.
  refine (proj1 (EncodeToBytes_correct
    (StructV [UintV 300; SliceV true [BoolV true; BytesV [1; 2]]; PtrV List None]) _ _));
    vm_compute; repeat constructor; try done.
Defined.
