(* ===== verification/RlpDecode.v ===== *)
(** * The RLP decoder of rlp/decode.go

    A [Stream] reads encoded values from an input, keeping the kind and size of
    the value ahead once they have been read and a stack of the lists it is
    inside of.  The model covers the stream over an in-memory reader (the
    [bytes.Reader] that [DecodeBytes] makes): the operations are functions from
    the stream to the stream and an outcome, because an operation that fails
    still moves the stream.  Target types are the inductive [typ], one
    constructor per case of [makeDecoder]. *)

From S2P Require Import Prelude Rlp RlpEncode.

(** ** The stream *)

Record stream := mk_stream {
  r : bytes;                 (* what the reader still holds *)
  remaining : Z;             (* number of bytes remaining to be read from r *)
  limited : bool;
  kind : option Kind;        (* kind of value ahead, None for -1 *)
  size : Z;                  (* size of value ahead *)
  byteval : Z;               (* value of single byte in type tag *)
  kinderr : option rlp_err;  (* error from last readKind *)
  stack : list (Z * Z)       (* listpos {pos, size}, innermost first *)
}.

Definition set_r (x : bytes) (s : stream) : stream :=
  mk_stream x (remaining s) (limited s) (kind s) (size s) (byteval s) (kinderr s) (stack s).
Definition set_remaining (x : Z) (s : stream) : stream :=
  mk_stream (r s) x (limited s) (kind s) (size s) (byteval s) (kinderr s) (stack s).
Definition set_kind (x : option Kind) (s : stream) : stream :=
  mk_stream (r s) (remaining s) (limited s) x (size s) (byteval s) (kinderr s) (stack s).
Definition set_size (x : Z) (s : stream) : stream :=
  mk_stream (r s) (remaining s) (limited s) (kind s) x (byteval s) (kinderr s) (stack s).
Definition set_byteval (x : Z) (s : stream) : stream :=
  mk_stream (r s) (remaining s) (limited s) (kind s) (size s) x (kinderr s) (stack s).
Definition set_kinderr (x : option rlp_err) (s : stream) : stream :=
  mk_stream (r s) (remaining s) (limited s) (kind s) (size s) (byteval s) x (stack s).
Definition set_stack (x : list (Z * Z)) (s : stream) : stream :=
  mk_stream (r s) (remaining s) (limited s) (kind s) (size s) (byteval s) (kinderr s) x.

(** Operations move the stream also when they fail. *)
Definition M (A : Type) : Type := stream -> stream * outcome rlp_err A.

#[global] Instance M_ret : MRet M := fun A a s => (s, Ret a).
#[global] Instance M_bind : MBind M := fun A B f m s =>
  match m s with
  | (s, Ret a) => f a s
  | (s, Err e) => (s, Err e)
  | (s, Panic) => (s, Panic)
  end.

Definition fail {A} (e : rlp_err) : M A := fun s => (s, Err e).
Definition panic {A} : M A := fun s => (s, Panic).
Definition modify (f : stream -> stream) : M unit := fun s => (f s, Ret tt).
Definition get {A} (f : stream -> A) : M A := fun s => (s, Ret (f s)).

(** Run [m] and look at its error: [try m k] passes the result, error or not,
    to [k]. *)
Definition try {A B} (m : M A) (k : outcome rlp_err A -> M B) : M B := fun s =>
  let '(s, o) := m s in k o s.

(** [Reset] on a [bytes.Reader], with no limit given or the length as limit. *)
Definition Reset (b : bytes) : stream :=
  mk_stream b (u64 (zlen b)) true None 0 0 None [].

Definition willRead (n : Z) : M unit := fun s =>
  let s := set_kind None s in
  match stack s with
  | (pos, sz) :: st =>
      if decide (n > u64 (sz - pos)) then (s, Err ErrElemTooLarge)
      else
        let s := set_stack ((u64 (pos + n), sz) :: st) s in
        if limited s then
          if decide (n > remaining s) then (s, Err ErrValueTooLarge)
          else (set_remaining (remaining s - n) s, Ret tt)
        else (s, Ret tt)
  | [] =>
      if limited s then
        if decide (n > remaining s) then (s, Err ErrValueTooLarge)
        else (set_remaining (remaining s - n) s, Ret tt)
      else (s, Ret tt)
  end.

(** [bytes.Reader]: reading one byte, and reading until [n] bytes are there. *)
Definition reader_ReadByte : M Z := fun s =>
  match r s with
  | [] => (s, Err io_ErrUnexpectedEOF)
  | b :: rest => (set_r rest s, Ret b)
  end.

Definition reader_Read (n : Z) : M bytes := fun s =>
  if decide (n <= zlen (r s)) then
    (set_r (drop (Z.to_nat n) (r s)) s, Ret (take (Z.to_nat n) (r s)))
  else (set_r [] s, Err io_ErrUnexpectedEOF).

Definition readByte : M Z := willRead 1;; reader_ReadByte.

(** [readFull] into a buffer of [n] bytes. *)
Definition readFull (n : Z) : M bytes := willRead n;; reader_Read n.

Definition readUint (size : Z) : M Z :=
  if decide (size = 0) then modify (set_kind None);; mret 0
  else if decide (size = 1) then readByte
  else if decide (8 < size) then panic
  else
    b ← readFull size;
    match b with
    | 0 :: _ => fail ErrCanonSize
    | _ => mret (be_to_Z (replicate (Z.to_nat (8 - size)) 0 ++ b))
    end.

(** [readKind] returns the kind and the size beside the error. *)
Definition stream_readKind : stream -> stream * (Kind * Z * option rlp_err) := fun s =>
  match readByte s with
  | (s, Ret b) =>
      let s := set_byteval 0 s in
      let sized (k : Kind) (n : Z) : stream * (Kind * Z * option rlp_err) :=
        match readUint n s with
        | (s, Ret size) =>
            (s, (k, size, if decide (size < 56) then Some ErrCanonSize else None))
        | (s, Err e) => (s, (k, 0, Some e))
        | (s, Panic) => (s, (k, 0, None))   (* unreachable: n is between 1 and 8 *)
        end in
      if decide (b < 0x80) then (set_byteval b s, (Byte, 0, None))
      else if decide (b < 0xB8) then (s, (String, b - 0x80, None))
      else if decide (b < 0xC0) then sized String (b - 0xB7)
      else if decide (b < 0xF8) then (s, (List, b - 0xC0, None))
      else sized List (b - 0xF7)
  | (s, Err e) =>
      let e :=
        match stack s with
        | [] =>
            match e with
            | io_ErrUnexpectedEOF => io_EOF
            | ErrValueTooLarge => io_EOF
            | e => e
            end
        | _ => e
        end in
      (s, (Byte, 0, Some e))
  | (s, Panic) => (s, (Byte, 0, None))      (* unreachable: readByte does not panic *)
  end.

Definition stream_Kind : M (Kind * Z) := fun s =>
  let ret (s : stream) : stream * outcome rlp_err (Kind * Z) :=
    match kinderr s, kind s with
    | Some e, _ => (s, Err e)
    | None, Some k => (s, Ret (k, size s))
    | None, None => (s, Ret (Byte, size s))  (* unreachable: kind has been set *)
    end in
  match kind s with
  | Some _ => ret s
  | None =>
      let s := set_kinderr None s in
      let tos := head (stack s) in
      match tos with
      | Some (pos, sz) =>
          if decide (pos = sz) then (s, Err EOL)
          else
            let '(s, (k, n, e)) := stream_readKind s in
            let s := set_kinderr e (set_size n (set_kind (Some k) s)) in
            match e, head (stack s) with
            | None, Some (pos, sz) =>
                (* tos points into the stack, so it sees the header bytes read *)
                if decide (n > u64 (sz - pos)) then ret (set_kinderr (Some ErrElemTooLarge) s)
                else ret s
            | _, _ => ret s
            end
      | None =>
          let '(s, (k, n, e)) := stream_readKind s in
          let s := set_kinderr e (set_size n (set_kind (Some k) s)) in
          match e with
          | None =>
              if decide (limited s = true /\ n > remaining s)
              then ret (set_kinderr (Some ErrValueTooLarge) s)
              else ret s
          | Some _ => ret s
          end
      end
  end.

Definition stream_Bytes : M bytes :=
  '(k, sz) ← stream_Kind;
  match k with
  | Byte => modify (set_kind None);; b ← get byteval; mret [b]
  | String =>
      b ← readFull sz;
      match b with
      | [x] => if decide (sz = 1 /\ x < 128) then fail ErrCanonSize else mret b
      | _ => mret b
      end
  | List => fail ErrExpectedString
  end.

Definition stream_Raw : M bytes :=
  '(k, sz) ← stream_Kind;
  match k with
  | Byte => modify (set_kind None);; b ← get byteval; mret [b]
  | String => b ← readFull sz; mret (puthead 0x80 0xB7 sz ++ b)
  | List => b ← readFull sz; mret (puthead 0xC0 0xF7 sz ++ b)
  end.

Definition stream_uint (maxbits : Z) : M Z :=
  '(k, sz) ← stream_Kind;
  match k with
  | Byte =>
      b ← get byteval;
      if decide (b = 0) then fail ErrCanonInt
      else modify (set_kind None);; mret b
  | String =>
      if decide (sz > u64 (maxbits / 8)) then fail errUintOverflow
      else
        try (readUint (u8 sz)) (fun o =>
          match o with
          | Err ErrCanonSize => fail ErrCanonInt
          | Err e => fail e
          | Ret v => if decide (sz > 0 /\ v < 128) then fail ErrCanonSize else mret v
          | Panic => panic
          end)
  | List => fail ErrExpectedString
  end.

Definition stream_Uint : M Z := stream_uint 64.

Definition stream_Bool : M bool :=
  num ← stream_uint 8;
  if decide (num = 0) then mret false
  else if decide (num = 1) then mret true
  else fail errInvalidBool.

Definition stream_List : M Z :=
  '(k, sz) ← stream_Kind;
  if decide (k = List) then
    modify (fun s => set_size 0 (set_kind None (set_stack ((0, sz) :: stack s) s)));;
    mret sz
  else fail ErrExpectedList.

Definition stream_ListEnd : M unit := fun s =>
  match stack s with
  | [] => (s, Err errNotInList)
  | (pos, sz) :: st =>
      if decide (pos = sz) then
        let st :=
          match st with
          | [] => []
          | (pos', sz') :: st => (u64 (pos' + sz), sz') :: st
          end in
        (set_size 0 (set_kind None (set_stack st s)), Ret tt)
      else (s, Err errNotAtEOL)
  end.

(** ** Decoders *)

Definition wrapStreamError (e : rlp_err) : rlp_err :=
  match e with
  | ErrCanonInt => decodeError msgCanonInt
  | ErrCanonSize => decodeError msgCanonSize
  | ErrExpectedList => decodeError msgExpectedList
  | ErrExpectedString => decodeError msgExpectedString
  | errUintOverflow => decodeError msgStringTooLong
  | errNotAtEOL => decodeError msgListTooManyElems
  | e => e
  end.

Definition wrap {A} (m : M A) : M A :=
  try m (fun o => fun s => (s, match o with Err e => Err (wrapStreamError e) | o => o end)).

(** The types values are decoded into: the cases of [makeDecoder], without the
    types that have their own [DecodeRLP] method. [TPtr None] is a pointer
    without the struct tag "nil", [TPtr (Some k)] one with it. *)
Inductive typ :=
| TRaw
| TBigInt
| TPtr (nilKind : option Kind) (t : typ)
| TUint (bits : Z)
| TBool
| TString
| TBytes
| TByteArray (n : Z)
| TSlice (tail : bool) (t : typ)
| TArray (n : nat) (t : typ)
| TStruct (ts : list typ)
| TIface.

Definition decodeByteArray (vlen : Z) : M bytes :=
  '(k, sz) ← stream_Kind;
  match k with
  | Byte =>
      if decide (vlen = 0) then fail (decodeError msgStringTooLong)
      else if decide (vlen > 1) then fail (decodeError msgStringTooShort)
      else try stream_Uint (fun o => mret [match o with Ret bv => bv | _ => 0 end])
  | String =>
      if decide (vlen < sz) then fail (decodeError msgStringTooLong)
      else if decide (vlen > sz) then fail (decodeError msgStringTooShort)
      else
        b ← readFull vlen;
        match b with
        | x :: _ => if decide (sz = 1 /\ x < 128) then fail (wrapStreamError ErrCanonSize) else mret b
        | [] => mret b
        end
  | List => fail (wrapStreamError ErrExpectedString)
  end.

(** A decoder run may not come to an end: [None] is a run that has used up its
    fuel, one unit per element of a slice and per level of interface nesting. *)
Definition D (A : Type) : Type := stream -> option (stream * outcome rlp_err A).

Definition liftD {A} (m : M A) : D A := fun s => Some (m s).

#[global] Instance D_ret : MRet D := fun A a s => Some (s, Ret a).
#[global] Instance D_bind : MBind D := fun A B f m s =>
  match m s with
  | Some (s, Ret a) => f a s
  | Some (s, Err e) => Some (s, Err e)
  | Some (s, Panic) => Some (s, Panic)
  | None => None
  end.

(** The loop of [decodeSliceElems]: elements up to the end of the list. *)
Fixpoint decodeSliceElems (fuel : nat) (elemdec : D val) : D (list val) := fun s =>
  match fuel with
  | O => None
  | S fuel =>
      match elemdec s with
      | None => None
      | Some (s, Err EOL) => Some (s, Ret [])
      | Some (s, Err e) => Some (s, Err e)
      | Some (s, Panic) => Some (s, Panic)
      | Some (s, Ret v) =>
          match decodeSliceElems fuel elemdec s with
          | Some (s, Ret vs) => Some (s, Ret (v :: vs))
          | o => o
          end
      end
  end.

Definition decodeListSlice (fuel : nat) (elemdec : D val) : D (list val) :=
  size ← liftD (wrap stream_List);
  if decide (size = 0) then liftD stream_ListEnd;; mret []
  else
    vs ← decodeSliceElems fuel elemdec;
    liftD stream_ListEnd;;
    mret vs.

(** The loop of [decodeListArray] over the [n] elements left of the array. *)
Fixpoint decodeArrayElems (n : nat) (elemdec : D val) : D (list val) := fun s =>
  match n with
  | O => Some (s, Ret [])
  | S n =>
      match elemdec s with
      | None => None
      | Some (s, Err EOL) => Some (s, Err (decodeError msgListTooFewElems))
      | Some (s, Err e) => Some (s, Err e)
      | Some (s, Panic) => Some (s, Panic)
      | Some (s, Ret v) =>
          match decodeArrayElems n elemdec s with
          | Some (s, Ret vs) => Some (s, Ret (v :: vs))
          | o => o
          end
      end
  end.

Definition decodeListArray (n : nat) (elemdec : D val) : D (list val) :=
  liftD (wrap stream_List);;
  vs ← decodeArrayElems n elemdec;
  liftD (wrap stream_ListEnd);;
  mret vs.

(** The loop of the struct decoder over its fields. *)
Fixpoint decodeFields (decs : list (D val)) : D (list val) := fun s =>
  match decs with
  | [] => Some (s, Ret [])
  | dec :: decs =>
      match dec s with
      | None => None
      | Some (s, Err EOL) => Some (s, Err (decodeError msgTooFewElems))
      | Some (s, Err e) => Some (s, Err e)
      | Some (s, Panic) => Some (s, Panic)
      | Some (s, Ret v) =>
          match decodeFields decs s with
          | Some (s, Ret vs) => Some (s, Ret (v :: vs))
          | o => o
          end
      end
  end.

Definition decodeStruct (decs : list (D val)) : D (list val) :=
  liftD (wrap stream_List);;
  vs ← decodeFields decs;
  liftD (wrap stream_ListEnd);;
  mret vs.

Fixpoint decodeInterface (fuel : nat) : D val :=
  match fuel with
  | O => fun _ => None
  | S fuel =>
      '(k, _) ← liftD stream_Kind;
      if decide (k = List) then
        vs ← decodeListSlice fuel (decodeInterface fuel);
        mret (IfaceV (Some (SliceV false vs)))
      else
        b ← liftD stream_Bytes;
        mret (IfaceV (Some (BytesV b)))
  end.

Definition decodeBigInt : M val :=
  b ← wrap stream_Bytes;
  match b with
  | 0 :: _ => fail (wrapStreamError ErrCanonInt)
  | _ => mret (BigPtrV (Some (be_to_Z b)))
  end.

(** [makeNilPtrDecoder]: empty values decode to the nil pointer. *)
Definition decodeNilPtr (nilKind : Kind) (dec : D val) : D val :=
  '(k, sz) ← liftD (wrap stream_Kind);
  if decide (k <> Byte /\ sz = 0) then
    if decide (k <> nilKind) then liftD (fail (decodeError msgWrongKindEmpty))
    else liftD (modify (set_kind None));; mret (PtrV nilKind None)
  else
    v ← dec;
    mret (PtrV nilKind (Some v)).

(** [defaultNilKind] of rlp/typecache.go: strings, numbers, booleans and byte
    arrays encode nil as an empty string, everything else as an empty list. *)
Definition defaultNilKind (t : typ) : Kind :=
  match t with
  | TUint _ | TString | TBool | TBytes | TByteArray _ | TRaw => String
  | _ => List
  end.

(** The decoder [makeDecoder] builds for a type. *)
Fixpoint decode (fuel : nat) (t : typ) {struct t} : D val :=
  let decs := fix decs (ts : list typ) : list (D val) :=
    match ts with [] => [] | t :: ts => decode fuel t :: decs ts end in
  match t with
  | TRaw => b ← liftD stream_Raw; mret (RawV b)
  | TBigInt => liftD decodeBigInt
  | TPtr None t => v ← decode fuel t; mret (PtrV (defaultNilKind t) (Some v))
  | TPtr (Some k) t => decodeNilPtr k (decode fuel t)
  | TUint bits => i ← liftD (wrap (stream_uint bits)); mret (UintV i)
  | TBool => b ← liftD (wrap stream_Bool); mret (BoolV b)
  | TString => b ← liftD (wrap stream_Bytes); mret (StringV b)
  | TBytes => b ← liftD (wrap stream_Bytes); mret (BytesV b)
  | TByteArray n => b ← liftD (decodeByteArray n); mret (ByteArrayV false b)
  | TSlice tail t =>
      if tail then vs ← decodeSliceElems fuel (decode fuel t); mret (SliceV true vs)
      else vs ← decodeListSlice fuel (decode fuel t); mret (SliceV false vs)
  | TArray n t => vs ← decodeListArray n (decode fuel t); mret (SliceV false vs)
  | TStruct ts => vs ← decodeStruct (decs ts); mret (StructV vs)
  | TIface => decodeInterface fuel
  end.

(** [DecodeBytes]: one value and no trailing data. *)
Definition DecodeBytes (fuel : nat) (t : typ) (b : bytes) : option (outcome rlp_err val) :=
  match decode fuel t (Reset b) with
  | None => None
  | Some (s, Ret v) => if decide (zlen (r s) > 0) then Some (Err ErrMoreThanOneValue) else Some (Ret v)
  | Some (_, Err e) => Some (Err e)
  | Some (_, Panic) => Some Panic
  end.

Example DecodeBytes_ex :
  DecodeBytes 9 (TStruct [TUint 64; TSlice false TBytes; TPtr (Some String) TBigInt])
    [0xc8; 0x82; 4; 0; 0xc3; 1; 0x81; 200; 7]
  = Some (Ret (StructV [UintV 1024; SliceV false [BytesV [1]; BytesV [200]];
      PtrV String (Some (BigPtrV (Some 7)))])).
Proof. reflexivity. Qed.

(** ** The stream in front of an encoded value *)

(** A stream over [l] whose byte count is exact. *)
Definition St (l : bytes) (k : option Kind) (sz bv : Z) (ke : option rlp_err) (st : list (Z * Z)) : stream :=
  mk_stream l (zlen l) true k sz bv ke st.

(** The innermost list has room for [n] more bytes. *)
Definition room (st : list (Z * Z)) (n : Z) : Prop :=
  match st with
  | [] => True
  | (pos, sz) :: _ => 0 <= pos /\ pos + n <= sz < 2 ^ 64
  end.

(** The innermost list after [n] more bytes. *)
Definition bump (st : list (Z * Z)) (n : Z) : list (Z * Z) :=
  match st with
  | [] => []
  | (pos, sz) :: st => (pos + n, sz) :: st
  end.

Lemma bump_bump st a b : bump (bump st a) b = bump st (a + b).
Proof. destruct st as [|[? ?] ?]; cbn; [done|]. do 2 f_equal. lia. Qed.

Lemma bump_0 st : bump st 0 = st.
Proof. destruct st as [|[? ?] ?]; cbn; [done|]. by rewrite Z.add_0_r. Qed.

Lemma room_le st a b : 0 <= b <= a -> room st a -> room st b.
Proof. destruct st as [|[? ?] ?]; cbn; lia. Qed.

Lemma room_bump st a b : 0 <= a -> room st (a + b) -> room (bump st a) b.
Proof. destruct st as [|[? ?] ?]; cbn; lia. Qed.

Lemma willRead_ok n l k sz bv ke st :
  0 <= n <= zlen l -> room st n ->
  willRead n (St l k sz bv ke st)
  = (mk_stream l (zlen l - n) true None sz bv ke (bump st n), Ret tt).
Proof.
  intros Hn Hr. unfold willRead, St. destruct st as [|[pos siz] st]; cbn in *.
  - by decide_lia.
  - rewrite !u64_small by (unfold is_u64; lia). decide_lia. done.
Qed.

Lemma readFull_ok b l k sz bv ke st :
  room st (zlen b) ->
  readFull (zlen b) (St (b ++ l) k sz bv ke st) = (St l None sz bv ke (bump st (zlen b)), Ret b).
Proof.
  intros Hr. unfold readFull, mbind, M_bind. rewrite willRead_ok by (try done; zlen_lia).
  unfold reader_Read. cbn. decide_lia. rewrite zlen_to_nat.
  rewrite drop_app_length, take_app_length. unfold St, set_r. cbn. do 2 f_equal. zlen_lia.
Qed.

Lemma readByte_ok x l k sz bv ke st :
  room st 1 ->
  readByte (St (x :: l) k sz bv ke st) = (St l None sz bv ke (bump st 1), Ret x).
Proof.
  intros Hr. unfold readByte, mbind, M_bind. rewrite willRead_ok by (try done; zlen_lia).
  unfold reader_ReadByte. cbn. unfold St, set_r. cbn. do 2 f_equal. zlen_lia.
Qed.

Lemma be_to_Z_replicate n l : be_to_Z (replicate n 0 ++ l) = be_to_Z l.
Proof. induction n as [|n IH]; [done|]. cbn [replicate app]. rewrite be_to_Z_cons. lia. Qed.

Lemma readUint_min_be i l k sz bv ke st :
  0 < i < 2 ^ 64 -> room st (Spec.byte_len i) ->
  readUint (Spec.byte_len i) (St (Spec.min_be i ++ l) k sz bv ke st)
  = (St l None sz bv ke (bump st (Spec.byte_len i)), Ret i).
Proof.
  intros Hi Hr. pose proof (byte_len_u64 i Hi) as Hb. pose proof (zlen_min_be i ltac:(lia)) as Hz.
  pose proof (be_to_Z_min_be i ltac:(lia)) as Hv.
  destruct (min_be_head i ltac:(lia)) as (x & xs & E & Hx).
  unfold readUint. rewrite decide_False by lia. case_decide as H1.
  - rewrite E in *. destruct xs; [|zlen_lia]. cbn [app]. rewrite H1, readByte_ok by (by rewrite <- H1).
    do 2 f_equal. exact Hv.
  - rewrite decide_False by lia. unfold mbind, M_bind.
    rewrite <- Hz, readFull_ok by (by rewrite Hz). rewrite E. destruct x; try lia.
    unfold mret, M_ret. by rewrite <- E, be_to_Z_replicate, Hv.
Qed.

(** The size the stream reports for a value ahead. *)
Definition klen (k : Kind) (c : bytes) : Z := match k with Byte => 0 | _ => zlen c end.

(** The stream after [Kind] in front of the value [c] of kind [k], followed by
    [l]: the header has been read. *)
Definition Kd (k : Kind) (c l : bytes) (st : list (Z * Z)) : stream :=
  match k with
  | Byte => St l (Some Byte) 0 (be_to_Z c) None (bump st 1)
  | _ => St (c ++ l) (Some k) (zlen c) 0 None (bump st (zlen (frame k c) - zlen c))
  end.

Lemma readKind_header k stag ltag c l kk sz bv ke st :
  kind_tags k stag ltag -> zlen c < 2 ^ 64 -> room st (zlen (Spec.header stag ltag (zlen c))) ->
  stream_readKind (St (Spec.header stag ltag (zlen c) ++ c ++ l) kk sz bv ke st)
  = (St (c ++ l) None sz 0 ke (bump st (zlen (Spec.header stag ltag (zlen c)))), (k, zlen c, None)).
Proof.
  intros Hk Hc Hr. unfold stream_readKind. rewrite zlen_header in * by zlen_lia. unfold Spec.header.
  case_decide as Hs.
  - cbn [app]. rewrite readByte_ok by done. cbn.
    destruct Hk as [(-> & -> & ->)|(-> & -> & ->)]; decide_lia; unfold St, set_byteval; cbn; do 3 f_equal; lia.
  - pose proof (byte_len_u64 (zlen c) ltac:(zlen_lia)).
    cbn [app]. rewrite readByte_ok by (eapply room_le; [|done]; lia). cbn.
    destruct Hk as [(-> & -> & ->)|(-> & -> & ->)]; decide_lia;
      (match goal with |- context [readUint ?n] => replace n with (Spec.byte_len (zlen c)) by lia end);
      unfold set_byteval; cbn;
      (match goal with |- context [readUint ?n ?s] =>
        change s with (St (Spec.min_be (zlen c) ++ c ++ l) None sz 0 ke (bump st 1)) end);
      rewrite readUint_min_be by (try lia; by apply room_bump; [lia|]);
      by rewrite bump_bump; decide_lia.
Qed.

(** [Kind] when the next header is well-formed and the value fits. *)
Lemma Kind_ok s s' k n :
  kind s = None -> stream_readKind (set_kinderr None s) = (s', (k, n, None)) ->
  match stack s with
  | [] => n <= remaining s'
  | (pos, sz) :: _ => pos <> sz /\ match stack s' with (pos', sz') :: _ => n <= u64 (sz' - pos') | [] => False end
  end ->
  stream_Kind s = (set_kinderr None (set_size n (set_kind (Some k) s')), Ret (k, n)).
Proof.
  intros Hk Hr Hf. unfold stream_Kind. rewrite Hk. cbn [stack set_kinderr].
  destruct (stack s) as [|[pos sz] st] eqn:Est; cbn [list.head]; rewrite Hr; cbn.
  - rewrite decide_False; [done|]. lia.
  - destruct Hf as [Hne Hf]. rewrite decide_False by done. cbn.
    destruct (stack s') as [|[pos' sz'] st']; [done|]. cbn. by rewrite decide_False by lia.
Qed.

Lemma Kind_kinded k c l st : stream_Kind (Kd k c l st) = (Kd k c l st, Ret (k, klen k c)).
Proof. by destruct k. Qed.

Lemma Kind_fresh k c l sz bv ke st :
  frame_ok k c -> zlen (frame k c) < 2 ^ 64 -> room st (zlen (frame k c)) ->
  stream_Kind (St (frame k c ++ l) None sz bv ke st) = (Kd k c l st, Ret (k, klen k c)).
Proof.
  intros Hf Hl Hr. pose proof (zlen_frame_pos k c Hf) as Hp. pose proof (zlen_frame k c) as Hle.
  assert (Hrk : forall ke', stream_readKind (St (frame k c ++ l) None sz bv ke' st)
    = (set_kinderr ke' (set_size sz (set_kind None (Kd k c l st))), (k, klen k c, None))).
  { intros ke'. destruct k; cbn [frame klen] in *.
    - destruct c as [|x [|]]; try done. cbn in Hf. apply bool_decide_eq_true in Hf.
      cbn [app]. unfold stream_readKind. rewrite readByte_ok by done. by decide_lia.
    - rewrite <- app_assoc. rewrite (readKind_header String 0x80 0xB7);
        [|by left|lia|eapply room_le; [|done]; zlen_lia].
      unfold Kd. cbn [frame]. rewrite zlen_app, Z.add_simpl_r. done.
    - unfold Spec.enc_list in *. rewrite <- app_assoc. rewrite (readKind_header List 0xC0 0xF7);
        [|by right|lia|eapply room_le; [|done]; zlen_lia].
      unfold Kd. cbn [frame]. unfold Spec.enc_list. rewrite zlen_app, Z.add_simpl_r. done. }
  rewrite (Kind_ok (St (frame k c ++ l) None sz bv ke st) _ k (klen k c) eq_refl (Hrk None)).
  - by destruct k.
  - cbn [stack St]. destruct st as [|[pos siz] st]; cbn in Hr.
    + destruct k; cbn; zlen_lia.
    + split; [lia|]. destruct k; cbn [Kd St stack set_kinderr set_size set_kind bump klen frame] in *;
        rewrite u64_small by (unfold is_u64; zlen_lia); zlen_lia.
Qed.

(** [s] is in front of the value [c] of kind [k], followed by [l], the header
    read or not. *)
Definition ahead (s : stream) (k : Kind) (c l : bytes) (st : list (Z * Z)) : Prop :=
  frame_ok k c /\ bytes_ok c /\ zlen (frame k c) < 2 ^ 64 /\ room st (zlen (frame k c)) /\
  stream_Kind s = (Kd k c l st, Ret (k, klen k c)).

Lemma ahead_fresh k c l sz bv ke st :
  frame_ok k c -> bytes_ok c -> zlen (frame k c) < 2 ^ 64 -> room st (zlen (frame k c)) ->
  ahead (St (frame k c ++ l) None sz bv ke st) k c l st.
Proof. intros. split_and!; auto using Kind_fresh. Qed.

Lemma ahead_kinded s k c l st : ahead s k c l st -> ahead (Kd k c l st) k c l st.
Proof. intros (? & ? & ? & ? & ?). split_and!; auto using Kind_kinded. Qed.

(** [m] reads the value ahead of [s]: it returns [v] and leaves the stream in
    front of [l]. *)
Definition reads {A} (res : stream * outcome rlp_err A) (l : bytes) (st : list (Z * Z)) (v : A) : Prop :=
  exists sz bv ke, res = (St l None sz bv ke st, Ret v).

Lemma frame_split k c : k <> Byte ->
  zlen (frame k c) = zlen (frame k c) - zlen c + zlen c.
Proof. lia. Qed.

Lemma readFull_Kd k c l st :
  k <> Byte -> room st (zlen (frame k c)) ->
  readFull (zlen c) (Kd k c l st) = (St l None (zlen c) 0 None (bump st (zlen (frame k c))), Ret c).
Proof.
  intros Hk Hr. pose proof (zlen_frame k c). pose proof (zlen_nonneg c).
  assert (room (bump st (zlen (frame k c) - zlen c)) (zlen c)).
  { apply room_bump; [lia|]. by rewrite Z.sub_simpl_r. }
  destruct k; [done| |]; unfold Kd; rewrite readFull_ok by done; by rewrite bump_bump, Z.sub_simpl_r.
Qed.

Lemma Bytes_ahead s k c l st :
  ahead s k c l st -> k <> List -> reads (stream_Bytes s) l (bump st (zlen (frame k c))) c.
Proof.
  intros (Hf & Hb & Hl & Hr & Hk) Hn. unfold stream_Bytes, mbind, M_bind. rewrite Hk. destruct k; [| |done].
  - destruct c as [|x [|]]; try done. by eexists _, _, _.
  - cbn [klen]. rewrite readFull_Kd by done. eexists _, _, _.
    destruct c as [|x [|]]; try done. cbn in Hf. apply bool_decide_eq_false in Hf.
    by rewrite decide_False by lia.
Qed.

Lemma Raw_ahead s k c l st :
  ahead s k c l st -> reads (stream_Raw s) l (bump st (zlen (frame k c))) (frame k c).
Proof.
  intros (Hf & Hb & Hl & Hr & Hk). pose proof (zlen_frame k c). pose proof (zlen_nonneg c).
  unfold stream_Raw, mbind, M_bind. rewrite Hk. destruct k.
  - destruct c as [|x [|]]; try done. by eexists _, _, _.
  - cbn [klen]. rewrite readFull_Kd by done. eexists _, _, _. by rewrite puthead_header by lia.
  - cbn [klen]. rewrite readFull_Kd by done. eexists _, _, _. by rewrite puthead_header by lia.
Qed.

(** An integer in canonical form: no leading zero byte. *)
Lemma uint_ahead s i k l st bits :
  ahead s k (Spec.min_be i) l st -> k <> List ->
  (bits = 8 \/ bits = 16 \/ bits = 32 \/ bits = 64) -> 0 <= i < 2 ^ bits ->
  reads (stream_uint bits s) l (bump st (zlen (frame k (Spec.min_be i)))) i.
Proof.
  intros (Hf & Hb & Hl & Hr & Hk) Hn Hbits Hi.
  assert (0 <= i < 2 ^ 64).
  { split; [lia|]. apply (Z.lt_le_trans _ (2 ^ bits)); [lia|]. apply Z.pow_le_mono_r; lia. }
  unfold stream_uint, mbind, M_bind. rewrite Hk. clear Hk.
  destruct k; [| |done]; cbn [frame_ok] in Hf.
  - pose proof (be_to_Z_min_be i ltac:(lia)) as Hv.
    destruct (decide (i = 0)) as [->|Hi0]; [done|].
    destruct (min_be_head i ltac:(lia)) as (x & [|] & E & Hx); rewrite E in *; [|done].
    cbn [Kd get byteval St]. rewrite Hv, decide_False by lia. by eexists _, _, _.
  - cbn [klen]. rewrite zlen_min_be in * by lia.
    assert (Spec.byte_len i <= bits / 8).
    { destruct (decide (i = 0)) as [->|]; [vm_compute; destruct_or! Hbits; subst; done|].
      assert (Spec.byte_len i - 1 < bits / 8); [|lia].
      apply (Z.pow_lt_mono_r_iff 256); [lia|destruct_or! Hbits; subst; done|].
      pose proof (byte_len_bounds i ltac:(lia)).
      replace (256 ^ (bits / 8)) with (2 ^ bits) by (destruct_or! Hbits; subst; done). lia. }
    assert (0 <= bits / 8 <= 8) by (destruct_or! Hbits; subst; done).
    rewrite decide_False by (rewrite u64_small by (unfold is_u64; lia); lia).
    unfold try. destruct (decide (i = 0)) as [->|Hi0].
    + cbn. eexists _, _, _. do 2 f_equal.
    + pose proof (byte_len_u64 i ltac:(lia)).
      rewrite u8_small by (unfold is_byte; lia).
      unfold Kd. rewrite readUint_min_be; [|lia|].
      2: { apply room_bump; [pose proof (zlen_frame String (Spec.min_be i)); lia|].
           rewrite zlen_min_be by lia. by rewrite Z.sub_simpl_r. }
      rewrite bump_bump, zlen_min_be, Z.sub_simpl_r by lia. eexists _, _, _.
      rewrite decide_False; [done|]. intros [_ Hlt].
      unfold Spec.min_be in Hf. rewrite (byte_len_unique i 1) in Hf by lia.
      cbn in Hf. apply bool_decide_eq_false in Hf. rewrite Z.shiftr_0_r, u8_small in Hf by (unfold is_byte; lia). lia.
Qed.

Lemma List_ahead s c l st :
  ahead s List c l st ->
  exists bv, stream_List s
    = (St (c ++ l) None 0 bv None ((0, zlen c) :: bump st (zlen (frame List c) - zlen c)), Ret (zlen c)).
Proof.
  intros (Hf & Hb & Hl & Hr & Hk). unfold stream_List, mbind, M_bind. rewrite Hk. by eexists.
Qed.

Lemma ListEnd_ok n l k sz bv ke st :
  0 <= n -> room st n ->
  stream_ListEnd (St l k sz bv ke ((n, n) :: st)) = (St l None 0 bv ke (bump st n), Ret tt).
Proof.
  intros Hn Hr. unfold stream_ListEnd, St. cbn. rewrite decide_True by done.
  destruct st as [|[pos siz] st]; cbn in *; [done|]. by rewrite u64_small by (unfold is_u64; lia).
Qed.

Lemma wrap_reads {A} (m : M A) s l st v : reads (m s) l st v -> reads (wrap m s) l st v.
Proof. intros (sz & bv & ke & E). exists sz, bv, ke. unfold wrap, try. by rewrite E. Qed.

(** ** Typed values *)

(** Types whose decoder reads list elements up to the end of the enclosing
    list instead of one value. *)
Fixpoint is_tail (t : typ) : bool :=
  match t with
  | TSlice tl _ => tl
  | TPtr None t => is_tail t
  | _ => false
  end.

(** A value that is not the encoding of an empty string or an empty list; only
    such values survive behind a pointer with the tag "nil". *)
Definition nonempty (v : val) : Prop :=
  match val_enc v with Some e => e <> [0x80] /\ e <> [0xC0] | None => False end.

(** [v] is a value of type [t] as the decoder would produce it: non-negative
    big integers, non-nil pointers except where the tag "nil" allows nil, and no
    one-byte array holding zero (see [DecodeBytes_zero_byte_array] below). *)
Fixpoint typed (v : val) (t : typ) {struct v} : Prop :=
  let all := fix all (l : list val) (t : typ) : Prop :=
    match l with [] => True | v :: l => typed v t /\ all l t end in
  let fields := fix fields (l : list val) (ts : list typ) : Prop :=
    match l, ts with
    | [], [] => True
    | v :: l, t :: ts => typed v t /\ (is_tail t = true -> ts = []) /\ fields l ts
    | _, _ => False
    end in
  match v, t with
  | RawV b, TRaw => exists k c, b = frame k c /\ frame_ok k c /\ bytes_ok c
  | BigPtrV (Some i), TBigInt => 0 <= i
  | PtrV k None, TPtr (Some k') t => k = k' /\ k <> Byte
  | PtrV k (Some v), TPtr nk t =>
      is_tail t = false /\ typed v t /\
      match nk with Some k' => k = k' /\ nonempty v | None => k = defaultNilKind t end
  | UintV i, TUint bits =>
      (bits = 8 \/ bits = 16 \/ bits = 32 \/ bits = 64) /\ 0 <= i < 2 ^ bits
  | BoolV _, TBool => True
  | StringV b, TString => bytes_ok b
  | BytesV b, TBytes => bytes_ok b
  | ByteArrayV false b, TByteArray n => bytes_ok b /\ zlen b = n /\ b <> [0]
  | SliceV tl l, TSlice tl' t => tl = tl' /\ is_tail t = false /\ all l t
  | SliceV false l, TArray n t => length l = n /\ is_tail t = false /\ all l t
  | StructV l, TStruct ts => fields l ts
  | IfaceV (Some (BytesV b)), TIface => bytes_ok b
  | IfaceV (Some (SliceV false l)), TIface => all l TIface
  | _, _ => False
  end.

Fixpoint all_typed (l : list val) (t : typ) : Prop :=
  match l with [] => True | v :: l => typed v t /\ all_typed l t end.

Fixpoint fields_typed (l : list val) (ts : list typ) : Prop :=
  match l, ts with
  | [], [] => True
  | v :: l, t :: ts => typed v t /\ (is_tail t = true -> ts = []) /\ fields_typed l ts
  | _, _ => False
  end.

(** ** The end of a list *)

Lemma Kind_EOL n l sz bv ke st :
  stream_Kind (St l None sz bv ke ((n, n) :: st)) = (St l None sz bv None ((n, n) :: st), Err EOL).
Proof. unfold stream_Kind. cbn. by rewrite decide_True. Qed.

(** At the end of a list every decoder reports EOL and the stream stays. *)
Lemma decode_EOL fuel t n l sz bv ke st :
  (0 < fuel)%nat -> is_tail t = false ->
  decode fuel t (St l None sz bv ke ((n, n) :: st))
  = Some (St l None sz bv None ((n, n) :: st), Err EOL).
Proof.
  intros Hf. induction t; intros Ht; cbn [decode is_tail] in *;
    unfold decodeNilPtr, decodeListSlice, decodeListArray, decodeStruct, decodeBigInt, decodeByteArray,
      stream_Raw, stream_Bytes, stream_List, stream_Bool, stream_uint, wrap, try, liftD, mbind, D_bind, M_bind;
    try by rewrite Kind_EOL.
  - destruct nilKind; [by rewrite Kind_EOL|]. by rewrite IHt.
  - destruct tail; [done|]. by rewrite Kind_EOL.
  - destruct fuel as [|fuel]; [lia|]. cbn [decodeInterface]. unfold liftD, mbind, D_bind. by rewrite Kind_EOL.
Qed.

(** ** Decoding what was encoded *)

(** [D]-decoders: [dec] reads the value ahead of [s]. *)
Definition readsD {A} (res : option (stream * outcome rlp_err A)) (l : bytes) (st : list (Z * Z)) (v : A) : Prop :=
  exists sz bv ke, res = Some (St l None sz bv ke st, Ret v).

Lemma liftD_reads {A} (m : M A) (f : A -> val) s l st a :
  reads (m s) l st a -> readsD ((b ← liftD m; mret (f b)) s) l st (f a).
Proof.
  intros (sz & bv & ke & E). exists sz, bv, ke. unfold mbind, D_bind, liftD. by rewrite E.
Qed.

(** The decoder of [t] reads [v] back from its encoding [e], which is one
    encoded value. *)
Definition decodes (fuel : nat) (t : typ) (v : val) (e : bytes) : Prop :=
  exists k c, e = frame k c /\ frame_ok k c /\ bytes_ok c /\
  forall s l st, ahead s k c l st -> readsD (decode fuel t s) l (bump st (zlen e)) v.

Lemma elems_loop_ok fuel fuel' t l es rest sz bv ke pos n st :
  Forall2 (decodes fuel t) l es -> is_tail t = false -> (length l < fuel')%nat -> (0 < fuel)%nat ->
  pos + zlen (concat es) = n -> 0 <= pos -> n < 2 ^ 64 ->
  exists sz' bv' ke',
    decodeSliceElems fuel' (decode fuel t) (St (concat es ++ rest) None sz bv ke ((pos, n) :: st))
    = Some (St rest None sz' bv' ke' ((n, n) :: st), Ret l).
Proof.
  intros Hl Ht. revert fuel' sz bv ke pos.
  induction Hl as [|v e l es Hv Hl IH]; intros fuel' sz bv ke pos Hf Hf0 Hn Hp Hmax;
    (destruct fuel' as [|fuel']; [cbn in Hf; lia|]); cbn [decodeSliceElems concat app] in *.
  - rewrite zlen_nil, Z.add_0_r in Hn. subst pos. rewrite decode_EOL by done. by eexists _, _, _.
  - destruct Hv as (k & c & -> & Hfr & Hb & Hdec).
    assert (Hnn := zlen_nonneg (concat es)). rewrite zlen_app in Hn.
    destruct (Hdec (St ((frame k c ++ concat es) ++ rest) None sz bv ke ((pos, n) :: st)) (concat es ++ rest)
      ((pos, n) :: st)) as (sz' & bv' & ke' & ->).
    { rewrite <- app_assoc. apply ahead_fresh; [done|done|lia|]. cbn. lia. }
    cbn [bump]. pose proof (zlen_nonneg (frame k c)).
    destruct (IH fuel' sz' bv' ke' (pos + zlen (frame k c))) as (sz'' & bv'' & ke'' & ->);
      [cbn in Hf; lia|done|lia|lia|done|]. by eexists _, _, _.
Qed.

Lemma array_loop_ok fuel t l es rest sz bv ke pos n st :
  Forall2 (decodes fuel t) l es ->
  pos + zlen (concat es) = n -> 0 <= pos -> n < 2 ^ 64 ->
  exists sz' bv' ke',
    decodeArrayElems (length l) (decode fuel t) (St (concat es ++ rest) None sz bv ke ((pos, n) :: st))
    = Some (St rest None sz' bv' ke' ((n, n) :: st), Ret l).
Proof.
  intros Hl. revert sz bv ke pos.
  induction Hl as [|v e l es Hv Hl IH]; intros sz bv ke pos Hn Hp Hmax; cbn [decodeArrayElems concat app length] in *.
  - rewrite zlen_nil, Z.add_0_r in Hn. subst pos. by eexists _, _, _.
  - destruct Hv as (k & c & -> & Hfr & Hb & Hdec).
    assert (Hnn := zlen_nonneg (concat es)). rewrite zlen_app in Hn.
    destruct (Hdec (St ((frame k c ++ concat es) ++ rest) None sz bv ke ((pos, n) :: st)) (concat es ++ rest)
      ((pos, n) :: st)) as (sz' & bv' & ke' & ->).
    { rewrite <- app_assoc. apply ahead_fresh; [done|done|lia|]. cbn. lia. }
    cbn [bump]. pose proof (zlen_nonneg (frame k c)).
    destruct (IH sz' bv' ke' (pos + zlen (frame k c))) as (sz'' & bv'' & ke'' & ->); [lia|lia|done|].
    by eexists _, _, _.
Qed.

(** What a list decoder does inside the list, from the start of the content to
    the end of the list, gives what it does on the list. *)
Lemma list_reads {A} (inner : D A) s c l st v :
  ahead s List c l st ->
  (forall bv, exists sz' bv' ke',
     inner (St (c ++ l) None 0 bv None ((0, zlen c) :: bump st (zlen (frame List c) - zlen c)))
     = Some (St l None sz' bv' ke' ((zlen c, zlen c) :: bump st (zlen (frame List c) - zlen c)), Ret v)) ->
  readsD ((liftD (wrap stream_List);; x ← inner; liftD (wrap stream_ListEnd);; mret x) s)
    l (bump st (zlen (frame List c))) v /\
  readsD ((sz ← liftD (wrap stream_List); x ← inner; liftD stream_ListEnd;; mret x) s)
    l (bump st (zlen (frame List c))) v.
Proof.
  intros Ha Hin. destruct (List_ahead _ _ _ _ Ha) as [bv HL].
  destruct Ha as (_ & _ & Hl & Hr & _). destruct (Hin bv) as (sz' & bv' & ke' & E).
  pose proof (zlen_frame List c). pose proof (zlen_nonneg c).
  assert (Hend : stream_ListEnd (St l None sz' bv' ke' ((zlen c, zlen c) :: bump st (zlen (frame List c) - zlen c)))
    = (St l None 0 bv' ke' (bump st (zlen (frame List c))), Ret tt)).
  { rewrite ListEnd_ok; [|lia|apply room_bump; [lia|by rewrite Z.sub_simpl_r]].
    by rewrite bump_bump, Z.sub_simpl_r. }
  split; exists 0, bv', ke'; unfold mbind, D_bind, liftD, wrap, try; rewrite HL; cbn [fst snd];
    rewrite E, Hend; done.
Qed.

Definition roundtrips (v : val) : Prop := forall t e fuel,
  typed v t -> is_tail t = false -> val_enc v = Some e -> zlen e < 2 ^ 63 -> (length e < fuel)%nat ->
  decodes fuel t v e.

Lemma decodes_pos fuel t v e : decodes fuel t v e -> 0 < zlen e.
Proof. intros (k & c & -> & Hf & _). by apply zlen_frame_pos. Qed.

Lemma elems_decodes l t c fuel :
  Forall roundtrips l -> all_typed l t -> is_tail t = false -> elems_enc l = Some c ->
  zlen c < 2 ^ 63 -> (length c < fuel)%nat ->
  exists es, c = concat es /\ Forall2 (decodes fuel t) l es /\ (length l <= length c)%nat.
Proof.
  intros Hl. revert c. induction Hl as [|v l Hv Hl IH]; intros c Hty Ht Hc Hz Hf; cbn in *.
  { injection Hc as <-. exists []. split_and!; [done|constructor|done]. }
  destruct Hty as [Htv Htl]. destruct (val_enc v) as [e|] eqn:Ev; [|done]. cbn in Hc.
  destruct (elems_enc l) as [c'|]; [|done]. injection Hc as <-. rewrite length_app in *.
  destruct (IH c') as (es & -> & Hes & Hlen); [done|done|done|zlen_lia|lia|].
  assert (decodes fuel t v e) as Hd by (apply Hv; [done|done|done|zlen_lia|lia]).
  exists (e :: es). split_and!; [done|by constructor|].
  apply decodes_pos in Hd. unfold zlen in Hd. lia.
Qed.

Lemma concat_bytes_ok fuel t l es :
  Forall2 (decodes fuel t) l es -> zlen (concat es) < 2 ^ 64 -> bytes_ok (concat es).
Proof.
  induction 1 as [|v e l es Hv Hl IH]; cbn; [constructor|]. intros Hz.
  destruct Hv as (k & c & -> & ? & ? & _). apply Forall_app; split; [apply frame_bytes_ok|apply IH]; auto; zlen_lia.
Qed.

(** Decoding a slice that is not a tail. *)
Lemma slice_decodes fuel fuel' t l c :
  Forall roundtrips l -> all_typed l t -> is_tail t = false -> elems_enc l = Some c ->
  zlen (Spec.enc_list c) < 2 ^ 63 -> (length c < fuel)%nat -> (length c < fuel')%nat ->
  bytes_ok c /\ forall s rest st, ahead s List c rest st ->
  readsD (decodeListSlice fuel' (decode fuel t) s) rest (bump st (zlen (frame List c))) l.
Proof.
  intros Hl Hty Ht Hc Hz Hf Hf'.
  assert (zlen c < 2 ^ 63) by (unfold Spec.enc_list in Hz; zlen_lia).
  destruct (elems_decodes l t c fuel) as (es & -> & Hes & Hlen); try done.
  split; [by eapply concat_bytes_ok; [|lia]|].
  intros s rest st Ha. unfold decodeListSlice.
  destruct (decide (zlen (concat es) = 0)) as [E0|E0].
  - assert (l = []) as -> by (apply zlen_0_inv in E0; rewrite E0 in Hlen; by destruct l; cbn in Hlen; [|lia]).
    destruct (List_ahead _ _ _ _ Ha) as [bv HL]. destruct Ha as (_ & _ & _ & Hr & _).
    rewrite E0 in *. apply zlen_0_inv in E0. rewrite E0 in *.
    unfold mbind, D_bind, liftD, wrap, try. rewrite HL. cbn [fst snd]. rewrite decide_True by done.
    rewrite Z.sub_0_r, ListEnd_ok; [|lia|apply room_bump; [zlen_lia|by rewrite Z.add_0_r]].
    rewrite bump_bump, Z.add_0_r. by eexists _, _, _.
  - destruct (list_reads (decodeSliceElems fuel' (decode fuel t)) s (concat es) rest st l Ha) as [_ H2].
    { intros bv. apply elems_loop_ok; [done|done|lia|lia|lia|lia|lia]. }
    destruct (List_ahead _ _ _ _ Ha) as [bv HL].
    destruct H2 as (sz' & bv' & ke' & H2). exists sz', bv', ke'. rewrite <- H2.
    unfold mbind, D_bind, liftD, wrap, try. rewrite HL. cbn [fst snd]. by rewrite decide_False.
Qed.

Lemma typed_tail v t :
  typed v t -> is_tail t = true ->
  exists l t', v = SliceV true l /\ t = TSlice true t' /\ is_tail t' = false /\ all_typed l t'.
Proof.
  intros Hty Ht. destruct t as [| |[k|] t| | | | | |tl t| | | ]; try done.
  - destruct v; cbn in *; repeat case_match; try done. destruct Hty as (? & _). congruence.
  - cbn in Ht. subst tl. destruct v; cbn in Hty; repeat case_match; try done;
      destruct Hty as (Htl & ? & ?); try done; subst; by exists l, t.
Qed.

(** Decoding the fields of a struct, a tail slice last. *)
Lemma fields_ok fuel l ts c rest sz bv ke pos n st :
  Forall (fun v => roundtrips v /\ forall tl l', v = SliceV tl l' -> Forall roundtrips l') l ->
  fields_typed l ts -> elems_enc l = Some c -> (length c < fuel)%nat ->
  pos + zlen c = n -> 0 <= pos -> n < 2 ^ 63 ->
  exists sz' bv' ke',
    decodeFields (map (decode fuel) ts) (St (c ++ rest) None sz bv ke ((pos, n) :: st))
    = Some (St rest None sz' bv' ke' ((n, n) :: st), Ret l).
Proof.
  intros Hl. revert ts c sz bv ke pos.
  induction Hl as [|v l [Hv Htail] Hl IH]; intros ts c sz bv ke pos Hty Hc Hf Hn Hp Hmax.
  { destruct ts; [|done]. injection Hc as <-. rewrite zlen_nil, Z.add_0_r in Hn. subst pos. by eexists _, _, _. }
  destruct ts as [|t ts]; [done|]. destruct Hty as (Htv & Hlast & Hts).
  cbn in Hc. destruct (val_enc v) as [e|] eqn:Ev; [|done]. cbn in Hc.
  destruct (elems_enc l) as [c'|] eqn:Ec; [|done]. injection Hc as <-. rewrite length_app in *.
  assert (Hnn := zlen_nonneg c'). assert (Hne := zlen_nonneg e). rewrite zlen_app in Hn.
  destruct (is_tail t) eqn:Et.
  - specialize (Hlast eq_refl) as ->. destruct l; [|done]. injection Ec as <-. rewrite !app_nil_r in *.
    destruct (typed_tail v t) as (l' & t' & -> & -> & Ht & Hall); [done|done|].
    destruct (elems_decodes l' t' e fuel) as (es & -> & Hes & Hlen); [by eapply Htail|done|done|done|lia|lia|].
    cbn [map decodeFields decode]. unfold mbind, D_bind.
    destruct (elems_loop_ok fuel fuel t' l' es rest sz bv ke pos n st) as (sz' & bv' & ke' & ->);
      [done|done|lia|lia|rewrite zlen_nil in Hn; lia|lia|lia|].
    by eexists _, _, _.
  - assert (decodes fuel t v e) as (k & cc & -> & Hfr & Hb & Hdec) by (apply Hv; [done|done|done|lia|lia]).
    cbn [map decodeFields].
    destruct (Hdec (St ((frame k cc ++ c') ++ rest) None sz bv ke ((pos, n) :: st)) (c' ++ rest) ((pos, n) :: st))
      as (sz' & bv' & ke' & ->).
    { rewrite <- app_assoc. apply ahead_fresh; [done|done|lia|]. cbn. lia. }
    cbn [bump].
    destruct (IH ts c' sz' bv' ke' (pos + zlen (frame k cc))) as (sz'' & bv'' & ke'' & ->);
      [done|done|lia|lia|lia|done|]. by eexists _, _, _.
Qed.

Lemma enc_str_decodes fuel t v b :
  bytes_ok b ->
  (forall s k l st, k <> List -> ahead s k b l st -> readsD (decode fuel t s) l (bump st (zlen (frame k b))) v) ->
  decodes fuel t v (Spec.enc_str b).
Proof.
  intros Hb H. rewrite enc_str_frame. exists (if single_byte b then Byte else String), b.
  split_and!; [done|apply frame_ok_str|done|].
  intros s l st Ha. apply H; [by destruct (single_byte b)|done].
Qed.

(** A value in front of which [Kind] has reported [k] and [klen k c]. *)
Lemma nilptr_decodes fuel t v e k :
  decodes fuel t v e -> e <> [0x80] -> e <> [0xC0] ->
  decodes fuel (TPtr (Some k) t) (PtrV k (Some v)) e.
Proof.
  intros (k' & c & -> & Hf & Hb & Hdec) H80 HC0. exists k', c. split_and!; try done.
  intros s l st Ha. pose proof Ha as (_ & _ & _ & _ & Hk).
  cbn [decode]. unfold decodeNilPtr, mbind, D_bind, liftD, wrap, try. rewrite Hk. cbn [fst snd].
  rewrite decide_False.
  - destruct (Hdec (Kd k' c l st) l st) as (sz & bv & ke & ->); [by eapply ahead_kinded|]. by eexists _, _, _.
  - intros [Hne H0]. destruct k'; [done| |]; cbn in H0; apply zlen_0_inv in H0 as ->; done.
Qed.

Lemma bytearray_decodes fuel b :
  bytes_ok b -> b <> [0] -> zlen b < 2 ^ 63 ->
  decodes fuel (TByteArray (zlen b)) (ByteArrayV false b) (Spec.enc_str b).
Proof.
  intros Hb Hnz Hl. apply enc_str_decodes; [done|]. intros s k l st Hk Ha.
  pose proof Ha as (Hf & _ & Hfl & Hr & HK). cbn [decode]. apply liftD_reads.
  unfold decodeByteArray, mbind, M_bind. rewrite HK. destruct k; [| |done]; cbn [frame_ok klen] in *.
  - destruct b as [|x [|]]; try done. rewrite !decide_False by zlen_lia.
    unfold try, stream_Uint, stream_uint, mbind, M_bind. rewrite Kind_kinded.
    cbn [Kd get byteval St]. change (be_to_Z [x]) with x.
    rewrite decide_False by congruence. by eexists _, _, _.
  - rewrite !decide_False by lia. rewrite readFull_Kd by done. eexists _, _, _.
    destruct b as [|x b]; [done|]. rewrite decide_False; [done|].
    intros [H1 H2]. destruct b; [|zlen_lia]. cbn in Hf. by apply bool_decide_eq_false in Hf.
Qed.

Lemma array_decodes fuel t l c :
  Forall roundtrips l -> all_typed l t -> is_tail t = false -> elems_enc l = Some c ->
  zlen (Spec.enc_list c) < 2 ^ 63 -> (length c < fuel)%nat ->
  decodes fuel (TArray (length l) t) (SliceV false l) (Spec.enc_list c).
Proof.
  intros Hl Hty Ht Hc Hz Hf.
  assert (zlen c < 2 ^ 63) by (unfold Spec.enc_list in Hz; zlen_lia).
  destruct (elems_decodes l t c fuel) as (es & -> & Hes & Hlen); try done.
  exists List, (concat es). split_and!; [done|done|by eapply concat_bytes_ok; [|lia]|].
  intros s rest st Ha. cbn [decode].
  destruct (list_reads (decodeArrayElems (length l) (decode fuel t)) s (concat es) rest st l Ha)
    as [(sz' & bv' & ke' & H1) _].
  { intros bv. apply array_loop_ok; [done|lia|lia|lia]. }
  exists sz', bv', ke'. unfold decodeListArray. unfold mbind at 1, D_bind at 1. by rewrite H1.
Qed.

Lemma decs_map fuel ts :
  (fix decs (ts : list typ) : list (D val) :=
    match ts with [] => [] | t :: ts => decode fuel t :: decs ts end) ts = map (decode fuel) ts.
Proof. induction ts; cbn; congruence. Qed.

Lemma elems_bytes_ok fuel l ts c :
  Forall (fun v => roundtrips v /\ forall tl l', v = SliceV tl l' -> Forall roundtrips l') l ->
  fields_typed l ts -> elems_enc l = Some c -> (length c < fuel)%nat -> zlen c < 2 ^ 63 -> bytes_ok c.
Proof.
  intros Hl. revert ts c. induction Hl as [|v l [Hv Htail] Hl IH]; intros ts c Hty Hc Hf Hz; cbn in Hc.
  { by injection Hc as <-. }
  destruct ts as [|t ts]; [done|]. destruct Hty as (Htv & Hlast & Hts).
  destruct (val_enc v) as [e|] eqn:Ev; [|done]. cbn in Hc.
  destruct (elems_enc l) as [c'|] eqn:Ec; [|done]. injection Hc as <-. rewrite length_app, zlen_app in *.
  pose proof (zlen_nonneg e). pose proof (zlen_nonneg c').
  apply Forall_app; split; [|eapply IH; [done|done|lia|lia]].
  destruct (is_tail t) eqn:Et.
  - destruct (typed_tail v t) as (l' & t' & -> & -> & Ht & Hall); [done|done|].
    destruct (elems_decodes l' t' e fuel) as (es & -> & Hes & Hlen); [by eapply Htail|done|done|done|lia|lia|].
    eapply concat_bytes_ok; [done|lia].
  - destruct (Hv t e fuel) as (k & cc & -> & ? & ? & _); [done|done|done|lia|lia|].
    apply frame_bytes_ok; [done|lia].
Qed.

Lemma struct_decodes fuel ts l c :
  Forall (fun v => roundtrips v /\ forall tl l', v = SliceV tl l' -> Forall roundtrips l') l ->
  fields_typed l ts -> elems_enc l = Some c ->
  zlen (Spec.enc_list c) < 2 ^ 63 -> (length c < fuel)%nat ->
  decodes fuel (TStruct ts) (StructV l) (Spec.enc_list c).
Proof.
  intros Hl Hty Hc Hz Hf.
  assert (zlen c < 2 ^ 63) by (unfold Spec.enc_list in Hz; zlen_lia).
  exists List, c. split_and!; [done|done|by eapply elems_bytes_ok|].
  intros s rest st Ha. cbn [decode]. rewrite decs_map.
  destruct (list_reads (decodeFields (map (decode fuel) ts)) s c rest st l Ha) as [(sz' & bv' & ke' & H1) _].
  { intros bv. apply fields_ok; [done|done|done|lia|lia|lia|lia]. }
  exists sz', bv', ke'. unfold decodeStruct. unfold mbind at 1, D_bind at 1. by rewrite H1.
Qed.

Lemma uint_decodes fuel i bits :
  (bits = 8 \/ bits = 16 \/ bits = 32 \/ bits = 64) -> 0 <= i < 2 ^ bits ->
  decodes fuel (TUint bits) (UintV i) (enc_nat i).
Proof.
  intros Hb Hi. apply enc_str_decodes; [apply min_be_ok|]. intros s k l st Hk Ha.
  by apply liftD_reads, wrap_reads, uint_ahead.
Qed.

Lemma bool_decodes fuel b : decodes fuel TBool (BoolV b) (enc_nat (if b then 1 else 0)).
Proof.
  apply enc_str_decodes; [apply min_be_ok|]. intros s k l st Hk Ha.
  apply liftD_reads, wrap_reads. unfold stream_Bool, mbind, M_bind.
  destruct (uint_ahead s _ k l st 8 Ha) as (sz & bv & ke & ->); [done|by left|by destruct b|].
  exists sz, bv, ke. by destruct b.
Qed.

Lemma bigint_decodes fuel i : 0 <= i -> decodes fuel TBigInt (BigPtrV (Some i)) (enc_nat i).
Proof.
  intros Hi. apply enc_str_decodes; [apply min_be_ok|]. intros s k l st Hk Ha.
  destruct (wrap_reads _ _ _ _ _ (Bytes_ahead _ _ _ _ _ Ha Hk)) as (sz & bv & ke & E).
  exists sz, bv, ke. cbn [decode]. unfold liftD, decodeBigInt, mbind, M_bind. rewrite E.
  pose proof (be_to_Z_min_be i Hi) as Hv.
  destruct (decide (i = 0)) as [->|]; [done|].
  destruct (min_be_head i ltac:(lia)) as (x & xs & Em & Hx). rewrite Em in *. destruct x; try lia.
  unfold mret, M_ret. by rewrite Hv.
Qed.

Lemma bytes_decodes fuel t (f : bytes -> val) b :
  bytes_ok b -> (forall s, decode fuel t s = (b ← liftD (wrap stream_Bytes); mret (f b)) s) ->
  decodes fuel t (f b) (Spec.enc_str b).
Proof.
  intros Hb Hd. apply enc_str_decodes; [done|]. intros s k l st Hk Ha. rewrite Hd.
  apply liftD_reads, wrap_reads. by eapply Bytes_ahead.
Qed.

Lemma zlen_enc_str b : zlen b <= zlen (Spec.enc_str b).
Proof. rewrite enc_str_frame. apply zlen_frame. Qed.

Lemma enc_list_length c fuel :
  (length (Spec.enc_list c) < fuel)%nat -> (S (length c) < fuel)%nat.
Proof.
  pose proof (zlen_frame_pos List c I) as H. unfold zlen in H. cbn in H. unfold Spec.enc_list in *.
  rewrite length_app in *. unfold Spec.header. case_decide; cbn; lia.
Qed.

Lemma iface_decodes fuel b l c :
  (bytes_ok b -> decodes (S fuel) TIface (IfaceV (Some (BytesV b))) (Spec.enc_str b)) /\
  (Forall roundtrips l -> all_typed l TIface -> elems_enc l = Some c ->
   zlen (Spec.enc_list c) < 2 ^ 63 -> (length c < fuel)%nat ->
   decodes (S fuel) TIface (IfaceV (Some (SliceV false l))) (Spec.enc_list c)).
Proof.
  split.
  - intros Hb. apply enc_str_decodes; [done|]. intros s k rest st Hk Ha.
    pose proof Ha as (_ & _ & _ & _ & HK).
    cbn [decode decodeInterface]. unfold mbind at 1, D_bind at 1, liftD at 1. rewrite HK.
    rewrite decide_False by done.
    apply (liftD_reads _ (fun b => IfaceV (Some (BytesV b)))).
    eapply Bytes_ahead; [by eapply ahead_kinded|done].
  - intros Hl Hty Hc Hz Hf.
    destruct (slice_decodes fuel fuel TIface l c) as [Hb Hs]; [done..|].
    exists List, c. split_and!; try done. intros s rest st Ha. pose proof Ha as (_ & _ & _ & _ & HK).
    cbn [decode decodeInterface]. unfold mbind at 1, D_bind at 1, liftD at 1. rewrite HK.
    rewrite decide_True by done.
    destruct (Hs (Kd List c rest st) rest st) as (sz & bv & ke & E); [by eapply ahead_kinded|].
    exists sz, bv, ke. unfold mbind, D_bind. change (decodeInterface fuel) with (decode fuel TIface).
    by rewrite E.
Qed.

Definition roundtrips' (v : val) : Prop :=
  roundtrips v /\ (forall tl l', v = SliceV tl l' -> Forall roundtrips l').

Lemma roundtrips_Forall l : Forall roundtrips' l -> Forall roundtrips l.
Proof. apply Forall_impl. by intros ? []. Qed.

Lemma enc_list_inv (o : option bytes) e :
  (c ← o; Some (Spec.enc_list c)) = Some e -> exists c, o = Some c /\ e = Spec.enc_list c.
Proof. destruct o; cbn; [|done]. intros [= <-]. eauto. Qed.

Lemma slice_roundtrips tl l : Forall roundtrips l -> roundtrips (SliceV tl l).
Proof.
  intros Hl t e fuel Hty Ht He Hz Hf.
  destruct t as [| | | | | | | |tl' t|n t| |]; try (cbn in Hty; by destruct tl).
  - cbn in Ht. subst tl'. destruct tl; destruct Hty as (Htl & Ht' & Hall); [done|]. clear Htl.
    apply enc_list_inv in He as (c & Hc & ->). apply enc_list_length in Hf.
    destruct (slice_decodes fuel fuel t l c) as [Hb Hs]; try done; try lia.
    exists List, c. split_and!; try done. intros s rest st Ha. cbn [decode].
    destruct (Hs s rest st Ha) as (sz & bv & ke & E). exists sz, bv, ke.
    unfold mbind, D_bind. by rewrite E.
  - destruct tl; [done|]. destruct Hty as (<- & Ht' & Hall).
    apply enc_list_inv in He as (c & Hc & ->). apply enc_list_length in Hf.
    apply array_decodes; try done. lia.
Qed.

Lemma nil_decodes fuel t k :
  k <> Byte ->
  decodes fuel (TPtr (Some k) t) (PtrV k None) (if decide (k = String) then Spec.enc_str [] else Spec.enc_list []).
Proof.
  intros Hk. exists k, []. split_and!; [by destruct k|by destruct k|constructor|].
  intros s l st Ha. destruct Ha as (_ & _ & _ & _ & HK).
  cbn [decode]. unfold decodeNilPtr, mbind, D_bind, liftD, wrap, try. rewrite HK. cbn [fst snd].
  rewrite decide_True by by destruct k. rewrite decide_False by (intros []; done).
  exists 0, 0, None. destruct k; [done| |]; cbn; unfold St, set_kind; cbn; do 3 f_equal; destruct st as [|[]]; done.
Qed.

Lemma all_roundtrip v : roundtrips' v.
Proof.
  induction v using val_ind'; (split; [intros t' e fuel Hty Ht He Hz Hf|try done]);
    try (by destruct t').
  - destruct t'; try done. destruct Hty as (k & c & -> & Hfr & Hb). injection He as <-.
    exists k, c. split_and!; try done. intros s l st Ha. by apply liftD_reads, Raw_ahead.
  - destruct t'; try done. destruct Hty. injection He as <-. by apply uint_decodes.
  - destruct t'; try done. injection He as <-. apply bool_decodes.
  - destruct i as [i|]; [|by destruct t']. destruct t'; try done.
    cbn in Hty, He. rewrite decide_False in He by lia. injection He as <-. by apply bigint_decodes.
  - destruct t'; try done. injection He as <-. by apply (bytes_decodes fuel TBytes BytesV).
  - destruct t'; try by destruct n. destruct n; [done|]. destruct Hty as (Hb & <- & H0). injection He as <-.
    apply bytearray_decodes; [done|done|]. pose proof (zlen_enc_str b). lia.
  - destruct t'; try done. injection He as <-. by apply (bytes_decodes fuel TString StringV).
  - by eapply slice_roundtrips; eauto using roundtrips_Forall.
  - intros tl l' [= <- <-]. by apply roundtrips_Forall.
  - destruct t'; try done. apply enc_list_inv in He as (c & Hc & ->). apply enc_list_length in Hf.
    apply struct_decodes; try done. lia.
  - destruct t' as [| |[k'|] t'| | | | | | | | |]; try done. destruct Hty as [<- Hk].
    injection He as <-. by apply nil_decodes.
  - destruct t' as [| |nk t'| | | | | | | | |]; try done. destruct Hty as (Ht' & Htv & Hnk).
    change (val_enc v = Some e) in He. destruct IHv as [IHv _]. specialize (IHv t' e fuel Htv Ht' He Hz Hf).
    destruct nk as [k'|].
    + destruct Hnk as [<- Hne]. unfold nonempty in Hne. rewrite He in Hne.
      destruct Hne. by apply nilptr_decodes.
    + subst k. destruct IHv as (k & c & -> & Hfr & Hb & Hd). exists k, c. split_and!; try done.
      intros s l st Ha. cbn [decode]. destruct (Hd s l st Ha) as (sz & bv & ke & E).
      exists sz, bv, ke. unfold mbind, D_bind. by rewrite E.
  - destruct t'; try (cbn in Hty; by repeat case_match). destruct fuel as [|fuel]; [lia|].
    destruct v as [ | | | | |b| | |[] l| | | ]; cbn in Hty; try done.
    + change (Some (Spec.enc_str b) = Some e) in He. injection He as <-. by apply (proj1 (iface_decodes fuel b [] [])).
    + destruct IHv as [_ IHl].
      change ((c ← elems_enc l; Some (Spec.enc_list c)) = Some e) in He. apply enc_list_inv in He as (c & Hc & ->). apply enc_list_length in Hf.
      apply (proj2 (iface_decodes fuel [] l c)); try done; [by eapply IHl|lia].
Qed.

(** C24: encoding and decoding are inverse on typed values.  If [v] is a value
    of type [t] and the encoder produces [e] for it, then decoding [e] into [t]
    with fuel beyond the length of [e] finishes and returns [v], with no
    trailing data left. *)
Theorem DecodeBytes_EncodeToBytes v t e :
  val_ok v -> typed v t -> is_tail t = false -> val_enc v = Some e -> zlen e < 2 ^ 63 ->
  EncodeToBytes v = Ret e /\
  forall fuel, (length e < fuel)%nat -> DecodeBytes fuel t e = Some (Ret v).
Proof.
  intros Hok Hty Ht He Hz. split.
  { by apply EncodeToBytes_Some. }
  intros fuel Hf. destruct (all_roundtrip v) as [Hv _].
  destruct (Hv t e fuel Hty Ht He Hz Hf) as (k & c & -> & Hfr & Hb & Hd).
  unfold DecodeBytes.
  assert (Reset (frame k c) = St (frame k c ++ []) None 0 0 None []) as ->.
  { unfold Reset, St. rewrite app_nil_r, u64_small by (unfold is_u64; zlen_lia). done. }
  destruct (Hd (St (frame k c ++ []) None 0 0 None []) [] []) as (sz & bv & ke & ->).
  { apply ahead_fresh; [done|done|lia|done]. }
  done.
Qed.

Lemma DecodeBytes_EncodeToBytes_witness :
  let v := StructV [UintV 1024; PtrV List (Some (StructV [])) ; ByteArrayV false [0; 7]; SliceV true [BoolV true]] in
  let t := TStruct [TUint 64; TPtr None (TStruct []); TByteArray 2; TSlice true TBool] in
  EncodeToBytes v = Ret [0xc8; 0x82; 4; 0; 0xc0; 0x82; 0; 7; 1] /\
  DecodeBytes 10 t [0xc8; 0x82; 4; 0; 0xc0; 0x82; 0; 7; 1] = Some (Ret v).
Proof.
  intros v t.
  destruct (DecodeBytes_EncodeToBytes v t [0xc8; 0x82; 4; 0; 0xc0; 0x82; 0; 7; 1]) as [H1 H2].
  - vm_compute. repeat split; repeat constructor; discriminate.
  - cbn. repeat split; try done; try lia; repeat constructor; lia.
  - reflexivity.
  - reflexivity.
  - reflexivity.
  - split; [exact H1|apply H2; cbn; lia].
Defined.

(** ** One-byte arrays holding zero *)

Definition stuck (s : stream) : Prop := kind s = Some Byte /\ byteval s = 0 /\ kinderr s = None.

Lemma decodeByteArray_stuck s : stuck s -> decodeByteArray 1 s = (s, Ret [0]).
Proof.
  intros (Hk & Hb & He).
  assert (HK : stream_Kind s = (s, Ret (Byte, size s))) by (unfold stream_Kind; by rewrite Hk, He).
  unfold decodeByteArray, try, stream_Uint, stream_uint, mbind, M_bind. rewrite HK.
  rewrite decide_False, decide_False by lia. rewrite HK. unfold get. by rewrite Hb.
Qed.

Lemma decodeSliceElems_stuck n elemdec s v :
  elemdec s = Some (s, Ret v) -> decodeSliceElems n elemdec s = None.
Proof. intros Hs. induction n as [|n IH]; [done|]. cbn. by rewrite Hs, IH. Qed.

(** The stream inside the list c1 00, and after its first element. *)
Definition zero_elem_start : stream := mk_stream [0] 1 true None 0 0 None [(0, 1)].
Definition zero_elem_stuck : stream := mk_stream [] 0 true (Some Byte) 0 0 None [(1, 1)].

Lemma zero_elem_List : wrap stream_List (Reset [0xc1; 0]) = (zero_elem_start, Ret 1).
Proof. vm_compute. reflexivity. Qed.

Lemma zero_elem_first : decodeByteArray 1 zero_elem_start = (zero_elem_stuck, Ret [0]).
Proof. vm_compute. reflexivity. Qed.

Lemma zero_elem_loop fuel :
  decodeSliceElems fuel (b ← liftD (decodeByteArray 1); mret (ByteArrayV false b)) zero_elem_start = None.
Proof.
  destruct fuel as [|fuel]; [done|]. cbn [decodeSliceElems].
  unfold mbind at 1, D_bind at 1, liftD at 1. rewrite zero_elem_first. unfold mret at 1, D_ret at 1.
  erewrite decodeSliceElems_stuck; [done|].
  unfold mbind, D_bind, liftD. by rewrite decodeByteArray_stuck.
Qed.

(** C38: a defect of the decoder.  [decodeByteArray] discards the error of
    [Uint] and with it the rearming of the stream, so after a one-byte array
    holding zero the stream stays in front of the same value.  The encoder
    writes the slice of one such array as c1 00, and decoding these two bytes
    back into a slice of one-byte arrays never ends, whatever the fuel; a struct
    with such a field decodes into an error. *)
Theorem DecodeBytes_zero_byte_array :
  EncodeToBytes (SliceV false [ByteArrayV false [0]]) = Ret [0xc1; 0] /\
  (forall fuel, DecodeBytes fuel (TSlice false (TByteArray 1)) [0xc1; 0] = None) /\
  EncodeToBytes (StructV [ByteArrayV false [0]; ByteArrayV false [5]]) = Ret [0xc2; 0; 5] /\
  (forall fuel, DecodeBytes fuel (TStruct [TByteArray 1; TByteArray 1]) [0xc2; 0; 5]
     = Some (Err (decodeError msgListTooManyElems))).
Proof.
  split_and!; [vm_compute; reflexivity| |vm_compute; reflexivity|intros fuel; vm_compute; reflexivity].
  intros fuel. unfold DecodeBytes. cbn [decode].
  assert (decodeListSlice fuel (b ← liftD (decodeByteArray 1); mret (ByteArrayV false b)) (Reset [0xc1; 0]) = None) as H.
  { unfold decodeListSlice. unfold mbind at 1, D_bind at 1, liftD at 1. rewrite zero_elem_List.
    rewrite decide_False by lia. unfold mbind at 1, D_bind at 1. by rewrite zero_elem_loop. }
  unfold mbind at 1, D_bind at 1. by rewrite H.
Qed.
