(* ===== verification/TrieEncoding.v ===== *)
(** * Key encodings of the Merkle Patricia trie (trie/encoding.go)

    Trie keys exist in three encodings: the key bytes, the hex encoding (one
    byte per nibble, with an optional terminator 16) and the compact encoding
    (hex prefix encoding: nibbles packed into bytes after a flag nibble).  The
    model keeps the byte arithmetic of the conversions; [hexToCompactInPlace]
    keeps the index arithmetic of its loop over the buffer it overwrites. *)

From S2P Require Import Prelude.

(** The conversions return no error; they panic on malformed input. *)
Notation total A := (outcome Empty_set A).

Definition hasTerm (s : bytes) : bool :=
  bool_decide (zlen s > 0 /\ nth (length s - 1) s 0 = 16).

Fixpoint prefixLen (a b : bytes) : nat :=
  match a, b with
  | x :: a, y :: b => if decide (x = y) then S (prefixLen a b) else 0%nat
  | _, _ => 0%nat
  end.

(** The bytes written by [decodeNibbles]: two nibbles to a byte. *)
Fixpoint decodeNibbles (nibbles : bytes) : total bytes :=
  match nibbles with
  | [] => Ret []
  | [_] => Panic
  | a :: b :: rest =>
      bs ← decodeNibbles rest;
      Ret (Z.lor (u8 (Z.shiftl a 4)) b :: bs)
  end.

Definition hexToCompact (hex : bytes) : total bytes :=
  let '(terminator, hex) :=
    if hasTerm hex then (1, take (length hex - 1) hex) else (0, hex) in
  let flag := u8 (Z.shiftl terminator 5) in
  if decide (Z.land (zlen hex) 1 = 1) then
    match hex with
    | h0 :: hex =>
        bs ← decodeNibbles hex;
        Ret (Z.lor (Z.lor flag (Z.shiftl 1 4)) h0 :: bs)
    | [] => Panic
    end
  else
    bs ← decodeNibbles hex;
    Ret (flag :: bs).

Fixpoint keybytesToHex_nibbles (str : bytes) : bytes :=
  match str with
  | [] => []
  | b :: str => b / 16 :: b mod 16 :: keybytesToHex_nibbles str
  end.

Definition keybytesToHex (str : bytes) : bytes := keybytesToHex_nibbles str ++ [16].

Definition hexToKeybytes (hex : bytes) : total bytes :=
  let hex := if hasTerm hex then take (length hex - 1) hex else hex in
  if decide (Z.land (zlen hex) 1 <> 0) then Panic
  else decodeNibbles hex.

Definition compactToHex (compact : bytes) : total bytes :=
  match compact with
  | [] => Ret []
  | _ =>
      let base := keybytesToHex compact in
      base0 ← go_index base 0;
      base ← (if decide (base0 < 2) then go_to base (zlen base - 1) else Ret base);
      let chop := 2 - Z.land base0 1 in
      go_from base chop
  end.

(** The loop of [hexToCompactInPlace]: [hex[bi] = hex[ni]<<4 | hex[ni+1]]. *)
Fixpoint hexToCompactInPlace_loop (fuel : nat) (hexLen ni bi : Z) (hex : bytes)
    : option (total bytes) :=
  if decide (ni < hexLen) then
    match fuel with
    | O => None
    | S fuel =>
        match go_index (E:=Empty_set) hex ni, go_index (E:=Empty_set) hex (ni + 1) with
        | Ret a, Ret b =>
            if decide (0 <= bi < zlen hex) then
              hexToCompactInPlace_loop fuel hexLen (ni + 2) (bi + 1)
                (<[Z.to_nat bi := Z.lor (u8 (Z.shiftl a 4)) b]> hex)
            else Some Panic
        | _, _ => Some Panic
        end
    end
  else Some (Ret hex).

(** The buffer after the call and the length the call returns. *)
Definition hexToCompactInPlace (hex : bytes) : option (total (bytes * Z)) :=
  let hexLen := zlen hex in
  let '(firstByte, hexLen) :=
    if hasTerm hex then (Z.shiftl 1 5, hexLen - 1) else (0, hexLen) in
  let binLen := hexLen / 2 + 1 in
  match (if decide (Z.land hexLen 1 = 1) then
           h0 ← go_index (E:=Empty_set) hex 0;
           Ret (Z.lor (Z.lor firstByte (Z.shiftl 1 4)) h0, 1)
         else Ret (firstByte, 0)) with
  | Ret (firstByte, ni) =>
      match hexToCompactInPlace_loop (length hex) hexLen ni 1 hex with
      | Some (Ret hex) =>
          match hex with
          | [] => Some Panic
          | _ => Some (Ret (<[0%nat := firstByte]> hex, binLen))
          end
      | Some _ => Some Panic
      | None => None
      end
  | _ => Some Panic
  end.

Example hexToCompactInPlace_ex :
  hexToCompactInPlace [1; 2; 3; 4; 5; 16] = Some (Ret ([0x31; 0x23; 0x45; 4; 5; 16], 3)).
Proof. reflexivity. Qed.

(** ** Hex keys *)

Definition is_nibble (x : Z) : Prop := 0 <= x < 16.

(** The optional terminator. *)
Definition term (t : bool) : bytes := if t then [16] else [].

Lemma hasTerm_hex ns t : Forall is_nibble ns -> hasTerm (ns ++ term t) = t.
Proof.
  intros Hn. unfold hasTerm. destruct t; cbn [term].
  - apply bool_decide_true. rewrite nth_last. split; [zlen_lia|done].
  - rewrite app_nil_r. apply bool_decide_false. intros [H1 H2].
    destruct ns as [|x ns _] using rev_ind; [done|]. rewrite nth_last in H2.
    apply Forall_app in Hn as [_ Hx]. inversion Hx; subst. unfold is_nibble in *. lia.
Qed.

Lemma strip_term ns t :
  Forall is_nibble ns ->
  (if hasTerm (ns ++ term t) then take (length (ns ++ term t) - 1) (ns ++ term t) else ns ++ term t) = ns.
Proof.
  intros Hn. rewrite hasTerm_hex by done. destruct t; cbn [term]; [|apply app_nil_r].
  rewrite length_app. cbn [length]. rewrite Nat.add_sub. apply take_app_length.
Qed.

Lemma length_nibbles bs : length (keybytesToHex_nibbles bs) = (2 * length bs)%nat.
Proof. induction bs; cbn; lia. Qed.

Lemma nibbles_ok bs : bytes_ok bs -> Forall is_nibble (keybytesToHex_nibbles bs).
Proof.
  induction 1 as [|b bs Hb _ IH]; cbn; [constructor|]. unfold is_byte, is_nibble in *.
  repeat constructor; try done; Z.to_euclidean_division_equations; lia.
Qed.

Lemma pack_byte b : is_byte b -> Z.lor (u8 (Z.shiftl (b / 16) 4)) (b mod 16) = b.
Proof.
  intros Hb. unfold is_byte in Hb. unfold u8. rewrite Z.shiftl_mul_pow2 by lia.
  change (2 ^ 4) with 16. change (2 ^ 8) with 256.
  rewrite Z.mod_small by (Z.to_euclidean_division_equations; lia).
  rewrite (lor_add _ _ 4); [Z.to_euclidean_division_equations; lia|lia| |].
  - change (2 ^ 4) with 16. apply Z.mod_pos_bound. lia.
  - change (2 ^ 4) with 16. apply Z.mod_mul. lia.
Qed.

Lemma decodeNibbles_nibbles bs : bytes_ok bs -> decodeNibbles (keybytesToHex_nibbles bs) = Ret bs.
Proof.
  induction 1 as [|b bs Hb _ IH]; [done|]. cbn [keybytesToHex_nibbles decodeNibbles].
  rewrite IH. cbn. by rewrite pack_byte.
Qed.

(** A list of nibbles of even length is the nibbles of a byte string. *)
Lemma even_nibbles ns :
  Forall is_nibble ns -> Nat.even (length ns) = true ->
  exists bs, bytes_ok bs /\ ns = keybytesToHex_nibbles bs.
Proof.
  remember (length ns) as n eqn:E. revert ns E.
  induction n as [n IH] using lt_wf_ind; intros ns -> Hn He.
  destruct ns as [|a [|b ns]]; [by exists []|done|].
  apply Forall_cons_1 in Hn as [Ha Hn]. apply Forall_cons_1 in Hn as [Hb Hn]. unfold is_nibble in *.
  destruct (IH (length ns) ltac:(cbn; lia) ns eq_refl Hn He) as (bs & Hbs & ->).
  exists (16 * a + b :: bs). split; [constructor; [unfold is_byte; lia|done]|].
  cbn. f_equal; [|f_equal]; Z.to_euclidean_division_equations; lia.
Qed.

Lemma land1_even (n : nat) : Z.land (Z.of_nat n) 1 = if Nat.even n then 0 else 1.
Proof.
  change 1 with (Z.ones 1) at 1. rewrite Z.land_ones by lia. change (2 ^ 1) with 2.
  rewrite Zmod_even.
  destruct (Nat.even n) eqn:E.
  - apply Nat.even_spec in E as [m ->]. replace (Z.of_nat (2 * m)) with (2 * Z.of_nat m) by lia.
    by rewrite Z.even_mul.
  - rewrite <- Nat.negb_odd in E. apply negb_false_iff, Nat.odd_spec in E as [m ->].
    replace (Z.of_nat (2 * m + 1)) with (2 * Z.of_nat m + 1) by lia.
    by rewrite Z.even_add, Z.even_mul.
Qed.

(** The two shapes of a list of nibbles: bytes, or a nibble and bytes. *)
Lemma nibbles_cases ns :
  Forall is_nibble ns ->
  (exists bs, bytes_ok bs /\ ns = keybytesToHex_nibbles bs) \/
  (exists h bs, is_nibble h /\ bytes_ok bs /\ ns = h :: keybytesToHex_nibbles bs).
Proof.
  intros Hn. destruct (Nat.even (length ns)) eqn:E; [left; by apply even_nibbles|right].
  destruct ns as [|h ns]; [done|]. apply Forall_cons_1 in Hn as [Hh Hn].
  destruct (even_nibbles ns) as (bs & Hbs & ->); [done| |by exists h, bs].
  cbn [length] in E. rewrite Nat.even_succ, <- Nat.negb_even in E. by apply negb_false_iff.
Qed.

(** The flag byte of the compact encoding. *)
Definition flag (t : bool) : Z := if t then 32 else 0.

Lemma hexToCompact_even bs t :
  bytes_ok bs -> hexToCompact (keybytesToHex_nibbles bs ++ term t) = Ret (flag t :: bs).
Proof.
  intros Hb. pose proof (nibbles_ok bs Hb) as Hn. unfold hexToCompact.
  pose proof (strip_term _ t Hn) as Hs. rewrite hasTerm_hex in * by done.
  destruct t; rewrite Hs; unfold zlen; rewrite length_nibbles, land1_even, Nat.even_mul; cbn [orb Nat.even];
    rewrite decide_False by done; by rewrite decodeNibbles_nibbles.
Qed.

Lemma hexToCompact_odd h bs t :
  is_nibble h -> bytes_ok bs ->
  hexToCompact (h :: keybytesToHex_nibbles bs ++ term t) = Ret (flag t + 16 + h :: bs).
Proof.
  intros Hh Hb. assert (Forall is_nibble (h :: keybytesToHex_nibbles bs)) as Hn by (constructor; auto using nibbles_ok).
  change (h :: keybytesToHex_nibbles bs ++ term t) with ((h :: keybytesToHex_nibbles bs) ++ term t).
  unfold hexToCompact. pose proof (strip_term _ t Hn) as Hs. rewrite hasTerm_hex in * by done.
  unfold is_nibble in Hh.
  assert (Z.lor (flag t + 16) h = flag t + 16 + h) as Hf.
  { apply (lor_add _ _ 4); [lia|cbn; lia|by destruct t]. }
  destruct t; rewrite Hs; unfold zlen; cbn [length]; rewrite length_nibbles, land1_even, Nat.even_succ, <- Nat.negb_even, Nat.even_mul;
    cbn [orb negb Nat.even]; rewrite decide_True by done; rewrite decodeNibbles_nibbles by done;
    cbn [mbind outcome_bind]; rewrite <- Hf; done.
Qed.

Lemma compactToHex_byte x bs (odd t : bool) h :
  is_nibble h -> x = flag t + (if odd then 16 + h else 0) -> bytes_ok bs ->
  compactToHex (x :: bs) = Ret ((if odd then [h] else []) ++ keybytesToHex_nibbles bs ++ term t).
Proof.
  intros Hh -> Hb. unfold is_nibble in Hh. unfold compactToHex.
  set (x := flag t + (if odd then 16 + h else 0)).
  assert (x / 16 = (if t then 2 else 0) + (if odd then 1 else 0)) as Hq.
  { unfold x, flag. destruct t, odd; Z.to_euclidean_division_equations; lia. }
  assert (odd = true -> x mod 16 = h) as Hm.
  { intros ->. unfold x, flag. destruct t; Z.to_euclidean_division_equations; lia. }
  unfold keybytesToHex. cbn [keybytesToHex_nibbles app]. rewrite Hq.
  change (go_index (E:=Empty_set) (?a :: ?l) 0) with (Ret (E:=Empty_set) a).
  set (l := x mod 16 :: keybytesToHex_nibbles bs ++ [16]).
  set (q := (if t then 2 else 0) + (if odd then 1 else 0)).
  cbn [mbind outcome_bind].
  assert ((if decide (q < 2) then go_to (E:=Empty_set) (q :: l) (zlen (q :: l) - 1) else Ret (q :: l))
    = Ret (q :: x mod 16 :: keybytesToHex_nibbles bs ++ term t)) as ->.
  { unfold q at 1. destruct t; [by rewrite decide_False by (destruct odd; lia)|].
    rewrite decide_True by (destruct odd; lia). unfold l.
    replace (zlen _ - 1) with (zlen (q :: x mod 16 :: keybytesToHex_nibbles bs)) by zlen_lia.
    cbn [term]. rewrite app_nil_r.
    apply (go_to_app (q :: x mod 16 :: keybytesToHex_nibbles bs) [16]). }
  cbn [mbind outcome_bind].
  destruct odd.
  - rewrite Hm by done. assert (2 - Z.land q 1 = zlen [q]) as -> by (unfold q; by destruct t).
    apply (go_from_app [q]).
  - assert (2 - Z.land q 1 = zlen [q; x mod 16]) as -> by (unfold q; by destruct t).
    apply (go_from_app [q; x mod 16]).
Qed.

Lemma hexToCompact_inv ns t :
  Forall is_nibble ns ->
  exists c, hexToCompact (ns ++ term t) = Ret c /\ bytes_ok c /\ compactToHex c = Ret (ns ++ term t).
Proof.
  intros [(bs & Hb & ->)|(h & bs & Hh & Hb & ->)]%nibbles_cases.
  - exists (flag t :: bs). split_and!; [by apply hexToCompact_even| |].
    + constructor; [destruct t; split; done|done].
    + apply (compactToHex_byte _ bs false t 0); [split; done|by destruct t|done].
  - exists (flag t + 16 + h :: bs). split_and!; [by apply hexToCompact_odd| |].
    + unfold is_nibble in Hh. constructor; [unfold is_byte, flag; destruct t; lia|done].
    + apply (compactToHex_byte _ bs true t h); [done|lia|done].
Qed.

(** The compact encoding loses nothing.  For every hex key, a list of
    nibbles with or without terminator, [hexToCompact] succeeds, and
    [compactToHex] recovers the key from the result, including the parity of
    its length and the terminator. *)
Theorem compactToHex_hexToCompact ns t :
  Forall is_nibble ns ->
  exists c, hexToCompact (ns ++ term t) = Ret c /\ bytes_ok c /\ compactToHex c = Ret (ns ++ term t).
Proof. apply hexToCompact_inv. Qed.

Lemma compactToHex_hexToCompact_witness :
  exists c, hexToCompact [1; 2; 3; 16] = Ret c /\ bytes_ok c /\ compactToHex c = Ret [1; 2; 3; 16].
Proof. apply (compactToHex_hexToCompact [1; 2; 3] true). repeat constructor; lia. Defined.

(** [hexToKeybytes] inverts [keybytesToHex], so distinct keys have distinct
    hex keys, and it panics exactly on hex keys with an odd number of nibbles. *)
Theorem hexToKeybytes_keybytesToHex :
  (forall k, bytes_ok k -> hexToKeybytes (keybytesToHex k) = Ret k) /\
  (forall ns t, Forall is_nibble ns ->
     (hexToKeybytes (ns ++ term t) = Panic <-> Nat.odd (length ns) = true)).
Proof.
  assert (H : forall ns t, Forall is_nibble ns -> hexToKeybytes (ns ++ term t)
    = if decide (Z.land (zlen ns) 1 <> 0) then Panic else decodeNibbles ns).
  { intros ns t Hn. unfold hexToKeybytes. by rewrite strip_term. }
  split.
  - intros k Hk. unfold keybytesToHex. rewrite (H _ true) by by apply nibbles_ok.
    unfold zlen. rewrite length_nibbles, land1_even, Nat.even_mul. cbn [Nat.even orb].
    rewrite decide_False by lia. by apply decodeNibbles_nibbles.
  - intros ns t Hn. rewrite H by done. unfold zlen. rewrite land1_even, <- Nat.negb_even.
    destruct (Nat.even (length ns)) eqn:E.
    + rewrite decide_False by lia. destruct (even_nibbles ns Hn E) as (bs & Hb & ->).
      by rewrite decodeNibbles_nibbles.
    + by rewrite decide_True by lia.
Qed.

Lemma in_place_step fuel hexLen (ni : nat) bi hex b :
  is_byte b -> Z.of_nat ni < hexLen -> 0 <= bi < zlen hex ->
  hex !! ni = Some (b / 16) -> hex !! (ni + 1)%nat = Some (b mod 16) ->
  hexToCompactInPlace_loop (S fuel) hexLen (Z.of_nat ni) bi hex
  = hexToCompactInPlace_loop fuel hexLen (Z.of_nat ni + 2) (bi + 1) (<[Z.to_nat bi := b]> hex).
Proof.
  intros Hb Hl Hbi H1 H2. cbn [hexToCompactInPlace_loop]. rewrite decide_True by done.
  rewrite (go_index_lookup _ _ _ H1).
  replace (Z.of_nat ni + 1) with (Z.of_nat (ni + 1)) by lia.
  rewrite (go_index_lookup _ _ _ H2), decide_True by done. by rewrite pack_byte.
Qed.

Lemma in_place_loop bs fuel x0 (dn mid : bytes) tl ni bi hexLen :
  bytes_ok bs -> (length bs <= fuel)%nat ->
  bi = 1 + zlen dn -> ni = 1 + zlen dn + zlen mid -> hexLen = ni + 2 * zlen bs ->
  exists rest, hexToCompactInPlace_loop fuel hexLen ni bi (x0 :: dn ++ mid ++ keybytesToHex_nibbles bs ++ tl)
    = Some (Ret (x0 :: dn ++ bs ++ rest)) /\ length rest = (length mid + length bs + length tl)%nat.
Proof.
  intros Hb. revert fuel dn mid ni bi. induction Hb as [|b bs Hb Hbs IH]; intros fuel dn mid ni bi Hf -> -> Hlen.
  - exists (mid ++ tl). split; [|rewrite length_app; cbn; lia].
    destruct fuel; cbn; rewrite decide_False by zlen_lia; done.
  - destruct fuel as [|fuel]; [cbn in Hf; lia|]. cbn [keybytesToHex_nibbles].
    set (buf := x0 :: dn ++ mid ++ (b / 16 :: b mod 16 :: keybytesToHex_nibbles bs) ++ tl).
    assert (buf = (x0 :: dn ++ mid) ++ b / 16 :: b mod 16 :: keybytesToHex_nibbles bs ++ tl) as Eb
      by (unfold buf; cbn; by rewrite <- !app_assoc).
    assert (buf !! (1 + length dn + length mid)%nat = Some (b / 16)) as H1.
    { rewrite Eb, lookup_app_r by (cbn; rewrite length_app; lia). cbn [length]. rewrite length_app.
      by replace (1 + length dn + length mid - S (length dn + length mid))%nat with 0%nat by lia. }
    assert (buf !! (1 + length dn + length mid + 1)%nat = Some (b mod 16)) as H2.
    { rewrite Eb, lookup_app_r by (cbn; rewrite length_app; lia). cbn [length]. rewrite length_app.
      by replace (1 + length dn + length mid + 1 - S (length dn + length mid))%nat with 1%nat by lia. }
    
    replace (1 + zlen dn + zlen mid) with (Z.of_nat (1 + length dn + length mid)) by (unfold zlen; lia).
    rewrite (in_place_step _ _ _ _ _ b) by (done || (unfold buf; zlen_lia) || (unfold zlen in *; cbn in Hlen; lia)).
    assert (exists m0 mid', mid ++ [b / 16; b mod 16] = m0 :: mid' /\ length mid' = S (length mid)) as (m0 & mid' & Em & Hm').
    { destruct mid as [|m0 mid]; [by eexists _, _|]. eexists _, _. split; [done|]. rewrite length_app. cbn. lia. }
    assert (<[Z.to_nat (1 + zlen dn):=b]> buf = x0 :: (dn ++ [b]) ++ mid' ++ keybytesToHex_nibbles bs ++ tl) as ->.
    { replace (Z.to_nat (1 + zlen dn)) with (S (length dn)) by (unfold zlen; lia).
      unfold buf. replace (mid ++ (b / 16 :: b mod 16 :: keybytesToHex_nibbles bs) ++ tl)
        with ((mid ++ [b / 16; b mod 16]) ++ keybytesToHex_nibbles bs ++ tl) by (rewrite <- !app_assoc; done).
      rewrite Em. change (<[S ?n:=?v]> (?a :: ?l)) with (a :: <[n:=v]> l). f_equal. rewrite insert_app_r_alt, Nat.sub_diag by lia. cbn. by rewrite <- app_assoc. }
    destruct (IH fuel (dn ++ [b]) mid' (Z.of_nat (1 + length dn + length mid) + 2) (1 + zlen dn + 1))
      as (rest & Hr & Hl); [cbn in Hf; lia|zlen_lia|unfold zlen; rewrite length_app; cbn; lia|rewrite Hlen; unfold zlen; cbn; lia|].
    exists rest. split; [|cbn; lia].
    rewrite Hr. by rewrite <- !app_assoc.
Qed.

(** The loop as it is started, from the second byte for an odd number of
    nibbles and from the first one for an even number. *)
Lemma in_place_loop_odd h bs tl :
  bytes_ok bs ->
  let hex := h :: keybytesToHex_nibbles bs ++ tl in
  exists rest, hexToCompactInPlace_loop (length hex) (1 + 2 * zlen bs) 1 1 hex
    = Some (Ret (h :: bs ++ rest)) /\ length rest = (length bs + length tl)%nat.
Proof.
  intros Hb hex. destruct (in_place_loop bs (length hex) h [] [] tl 1 1 (1 + 2 * zlen bs))
    as (rest & Hr & Hl); try done.
  - cbn. rewrite length_app, length_nibbles. lia.
  - by exists rest.
Qed.

Lemma in_place_loop_even bs tl :
  bytes_ok bs -> keybytesToHex_nibbles bs ++ tl <> [] ->
  let hex := keybytesToHex_nibbles bs ++ tl in
  exists x rest, hexToCompactInPlace_loop (length hex) (2 * zlen bs) 0 1 hex
    = Some (Ret (x :: bs ++ rest)) /\ S (length bs + length rest) = length hex.
Proof.
  intros Hb Hne hex. destruct Hb as [|b bs Hb Hbs]; cbn [keybytesToHex_nibbles app] in *.
  - destruct tl as [|x rest]; [done|]. by exists x, rest.
  - set (l := b mod 16 :: keybytesToHex_nibbles bs ++ tl) in *.
    change (length hex) with (S (length l)). change 0 with (Z.of_nat 0).
    rewrite (in_place_step _ _ _ _ _ b) by (done || (unfold hex, l; zlen_lia)).
    destruct (in_place_loop bs (length l) (b / 16) [b] [] tl
      2 2 (2 * zlen (b :: bs))) as (rest & Hr & Hl); try done.
    { cbn. rewrite length_app, length_nibbles. lia. }
    { zlen_lia. }
    exists (b / 16), rest. split; [exact Hr|].
    unfold hex, l. cbn [length]. rewrite Hl, length_app, length_nibbles. cbn. lia.
Qed.

Lemma hexToCompactInPlace_term ns t :
  Forall is_nibble ns ->
  hexToCompactInPlace (ns ++ term t) =
  match (if decide (Z.land (zlen ns) 1 = 1) then
           h0 ← go_index (E:=Empty_set) (ns ++ term t) 0;
           Ret (Z.lor (Z.lor (flag t) 16) h0, 1)
         else Ret (flag t, 0)) with
  | Ret (firstByte, ni) =>
      match hexToCompactInPlace_loop (length (ns ++ term t)) (zlen ns) ni 1 (ns ++ term t) with
      | Some (Ret []) => Some Panic
      | Some (Ret (_ :: buf)) => Some (Ret (firstByte :: buf, zlen ns / 2 + 1))
      | Some _ => Some Panic
      | None => None
      end
  | _ => Some Panic
  end.
Proof.
  intros Hn. unfold hexToCompactInPlace. rewrite hasTerm_hex by done.
  assert ((if t then (Z.shiftl 1 5, zlen (ns ++ term t) - 1) else (0, zlen (ns ++ term t)))
    = (flag t, zlen ns)) as ->.
  { destruct t; cbn [term flag]; f_equal; zlen_lia. }
  cbv iota beta. destruct (if decide _ then _ else _) as [[fb ni]| |]; [|done..].
  by destruct (hexToCompactInPlace_loop _ _ _ _ _) as [[[|]| |]|].
Qed.

(** The in-place conversion computes the same compact key.  For every
    non-empty hex key, [hexToCompactInPlace] terminates without reading or
    writing out of range, returns the length of the compact encoding, and the
    prefix of the buffer of that length is what [hexToCompact] returns; the
    buffer keeps its length. *)
Theorem hexToCompactInPlace_correct ns t :
  Forall is_nibble ns -> ns ++ term t <> [] ->
  exists c buf, hexToCompact (ns ++ term t) = Ret c /\
    hexToCompactInPlace (ns ++ term t) = Some (Ret (buf, zlen c)) /\
    go_to (E:=Empty_set) buf (zlen c) = Ret c /\
    length buf = length (ns ++ term t).
Proof.
  intros Hn Hne. rewrite hexToCompactInPlace_term by done.
  destruct (nibbles_cases ns Hn) as [(bs & Hb & ->)|(h & bs & Hh & Hb & ->)].
  - destruct (in_place_loop_even bs (term t) Hb Hne) as (x & rest & Hr & Hl).
    assert (zlen (keybytesToHex_nibbles bs) = 2 * zlen bs) as Hz
      by (unfold zlen; rewrite length_nibbles; lia).
    exists (flag t :: bs), (flag t :: bs ++ rest).
    rewrite Hz, decide_False by (rewrite (Z.land_ones _ 1) by lia; Z.to_euclidean_division_equations; lia).
    cbv zeta in Hr. rewrite Hr. split_and!; [by apply hexToCompact_even| | |].
    + do 3 f_equal. rewrite Z.mul_comm, Z.div_mul by lia. zlen_lia.
    + apply (go_to_app (flag t :: bs) rest).
    + cbn. rewrite length_app. lia.
  - destruct (in_place_loop_odd h bs (term t) Hb) as (rest & Hr & Hl).
    assert (zlen (h :: keybytesToHex_nibbles bs) = 1 + 2 * zlen bs) as Hz
      by (unfold zlen; cbn; rewrite length_nibbles; lia).
    exists (flag t + 16 + h :: bs), (flag t + 16 + h :: bs ++ rest).
    rewrite Hz, decide_True by (rewrite (Z.land_ones _ 1) by lia; Z.to_euclidean_division_equations; lia).
    cbv zeta in Hr. cbn [app]. rewrite (go_index_lookup (_ :: _) 0 h eq_refl). cbn [mbind outcome_bind].
    rewrite Hr. split_and!; [by apply hexToCompact_odd| | |].
    + do 3 f_equal.
      * f_equal. unfold is_nibble in Hh. rewrite (lor_add _ h 4); destruct t; cbn; lia || done.
      * rewrite zlen_cons. Z.to_euclidean_division_equations; lia.
    + apply (go_to_app (_ :: bs) rest).
    + cbn. rewrite !length_app, length_nibbles. lia.
Qed.

Lemma hexToCompactInPlace_correct_witness :
  exists c buf, hexToCompact [1; 2; 3; 16] = Ret c /\
    hexToCompactInPlace [1; 2; 3; 16] = Some (Ret (buf, zlen c)) /\
    go_to (E:=Empty_set) buf (zlen c) = Ret c /\ length buf = length [1; 2; 3; 16].
Proof. apply (hexToCompactInPlace_correct [1; 2; 3] true); [repeat constructor; lia|done]. Defined.
