(* ===== verification/Trie.v ===== *)
(** * The Merkle Patricia trie (trie/trie.go, trie/node.go)

    The in-memory trie: nodes, lookup, insertion and deletion.  A node is the
    interface [node] of the code with its implementations as constructors; nil
    is [nilNode].  Subtries that are not loaded are hash nodes, resolved through
    the node database, an interface ([NodeDB]).  The three recursions follow the
    code; they run on fuel because resolving a hash node is not a structural
    step, and the theorems of TrieProofs show that the fuel the entry points
    supply is enough. *)

From S2P Require Import Prelude TrieEncoding.

(** ** Nodes *)

Record nodeFlag := mk_nodeFlag {
  flag_hash : option bytes;  (* cached hash of the node (may be nil) *)
  flag_dirty : bool          (* whether the node has changes that must be written *)
}.

Inductive node :=
| nilNode
| fullNode (Children : list node) (flags : nodeFlag)
| shortNode (Key : bytes) (Val : node) (flags : nodeFlag)
| hashNode (h : bytes)
| valueNode (v : bytes).

(** [common.BytesToHash]: crop from the left, or pad with zeros, to 32 bytes. *)
Definition BytesToHash (b : bytes) : bytes :=
  let b := if decide (zlen b > 32) then drop (length b - 32) b else b in
  replicate (32 - length b) 0 ++ b.

(** What the trie uses of the node database: [Database.node], nil when the
    node is not found. *)
Class NodeDB := db_node : bytes -> option node.

Record MissingNodeError := mk_MissingNodeError { NodeHash : bytes; Path : bytes }.

Record Trie := mk_Trie { root : node; unhashed : Z }.

Definition newFlag : nodeFlag := mk_nodeFlag None true.

(** [n.Children[i]] and the assignment to it, for a copy of the node. *)
Definition child (cs : list node) (i : Z) : outcome MissingNodeError node := go_index cs i.

Definition set_child (cs : list node) (i : Z) (n : node) : outcome MissingNodeError (list node) :=
  if decide (0 <= i < zlen cs) then Ret (<[Z.to_nat i := n]> cs) else Panic.

Section Trie.
Context {db : NodeDB}.

Notation M A := (fuelled MissingNodeError A).
Notation R A := (outcome MissingNodeError A).

Definition resolveHash (n prefix : bytes) : R node :=
  let hash := BytesToHash n in
  match db_node hash with
  | Some node => Ret node
  | None => Err (mk_MissingNodeError hash prefix)
  end.

Definition resolve (n : node) (prefix : bytes) : R node :=
  match n with
  | hashNode h => resolveHash h prefix
  | _ => Ret n
  end.

(** [New]: [emptyRoot] is the hash of the empty trie. *)
Definition New (emptyRoot root : bytes) : R Trie :=
  if decide (root <> replicate 32 0 /\ root <> emptyRoot) then
    rootnode ← resolveHash root [];
    Ret (mk_Trie rootnode 0)
  else Ret (mk_Trie nilNode 0).

(** ** Lookup *)

(** The value (None is nil), the node with what was resolved on the way, and
    whether something was resolved. *)
Fixpoint tryGet (fuel : nat) (origNode : node) (key : bytes) (pos : Z)
    : M (option bytes * node * bool) :=
  match fuel with
  | O => out_of_fuel
  | S fuel =>
      match origNode with
      | nilNode => run (Ret (None, nilNode, false))
      | valueNode n => run (Ret (Some n, origNode, false))
      | shortNode Key Val flags =>
          found ← run (if decide (zlen key - pos < zlen Key) then Ret false
                       else part ← go_slice key pos (pos + zlen Key);
                            Ret (bool_decide (Key = part)));
          if (found : bool) then
            '(value, newnode, didResolve) ← tryGet fuel Val key (pos + zlen Key);
            run (Ret (value, if (didResolve : bool) then shortNode Key newnode flags else origNode, didResolve))
          else run (Ret (None, origNode, false))
      | fullNode Children flags =>
          k ← run (go_index key pos);
          c ← run (child Children k);
          '(value, newnode, didResolve) ← tryGet fuel c key (pos + 1);
          if (didResolve : bool) then
            Children ← run (set_child Children k newnode);
            run (Ret (value, fullNode Children flags, true))
          else run (Ret (value, origNode, false))
      | hashNode n =>
          path ← run (go_to key pos);
          child ← run (resolveHash n path);
          '(value, newnode, _) ← tryGet fuel child key pos;
          run (Ret (value, newnode, true))
      end
  end.

(** ** Insertion *)

(** Whether the trie changed, and the new node. *)
Fixpoint insert (fuel : nat) (n : node) (prefix key : bytes) (value : node)
    : M (bool * node) :=
  match fuel with
  | O => out_of_fuel
  | S fuel =>
      match key with
      | [] =>
          match n with
          | valueNode v =>
              match value with
              | valueNode v' => run (Ret (negb (bool_decide (v = v')), value))
              | _ => run Panic
              end
          | _ => run (Ret (true, value))
          end
      | key0 :: key1 =>
          match n with
          | shortNode Key Val flags =>
              let matchlen := prefixLen key Key in
              if decide (matchlen = length Key) then
                '(dirty, nn) ← insert fuel Val (prefix ++ take matchlen key) (drop matchlen key) value;
                if (dirty : bool) then run (Ret (true, shortNode Key nn newFlag))
                else run (Ret (false, n))
              else
                nk ← run (go_index Key (Z.of_nat matchlen));
                '(_, c1) ← insert fuel nilNode (prefix ++ take (matchlen + 1) Key) (drop (matchlen + 1) Key) Val;
                branch ← run (set_child (replicate 17 nilNode) nk c1);
                k ← run (go_index key (Z.of_nat matchlen));
                '(_, c2) ← insert fuel nilNode (prefix ++ take (matchlen + 1) key) (drop (matchlen + 1) key) value;
                branch ← run (set_child branch k c2);
                if decide (matchlen = 0%nat) then run (Ret (true, fullNode branch newFlag))
                else run (Ret (true, shortNode (take matchlen key) (fullNode branch newFlag) newFlag))
          | fullNode Children flags =>
              c ← run (child Children key0);
              '(dirty, nn) ← insert fuel c (prefix ++ [key0]) key1 value;
              if (dirty : bool) then
                Children ← run (set_child Children key0 nn);
                run (Ret (true, fullNode Children newFlag))
              else run (Ret (false, n))
          | nilNode => run (Ret (true, shortNode key value newFlag))
          | hashNode h =>
              rn ← run (resolveHash h prefix);
              '(dirty, nn) ← insert fuel rn prefix key value;
              if (dirty : bool) then run (Ret (true, nn)) else run (Ret (false, rn))
          | valueNode _ => run Panic
          end
      end
  end.

(** ** Deletion *)

(** The loop of [delete] over the children: the index of the only child that is
    not nil, -1 when all are nil, -2 when there are at least two. *)
Fixpoint delete_pos (cs : list node) (i pos : Z) : Z :=
  match cs with
  | [] => pos
  | nilNode :: cs => delete_pos cs (i + 1) pos
  | _ :: cs => if decide (pos = -1) then delete_pos cs (i + 1) i else -2
  end.

(** What [delete] makes of a full node that lost a child: a short node when one
    child is left, merged with that child if it is a short node itself. *)
Definition delete_reduce (prefix : bytes) (Children : list node) : M (bool * node) :=
  let pos := delete_pos Children 0 (-1) in
  if decide (pos >= 0) then
    cpos ← run (child Children pos);
    cnode ← run (if decide (pos <> 16) then
                   cnode ← resolve cpos prefix;
                   Ret (Some cnode)
                 else Ret None);
    match cnode with
    | Some (shortNode ckey cval _) => run (Ret (true, shortNode (pos :: ckey) cval newFlag))
    | _ => run (Ret (true, shortNode [pos] cpos newFlag))
    end
  else run (Ret (true, fullNode Children newFlag)).

Fixpoint delete (fuel : nat) (n : node) (prefix key : bytes) : M (bool * node) :=
  match fuel with
  | O => out_of_fuel
  | S fuel =>
      match n with
      | shortNode Key Val flags =>
          let matchlen := prefixLen key Key in
          if decide (matchlen < length Key)%nat then run (Ret (false, n))
          else if decide (matchlen = length key) then run (Ret (true, nilNode))
          else
            '(dirty, child) ← delete fuel Val (prefix ++ take (length Key) key) (drop (length Key) key);
            if (dirty : bool) then
              match child with
              | shortNode ckey cval _ => run (Ret (true, shortNode (Key ++ ckey) cval newFlag))
              | _ => run (Ret (true, shortNode Key child newFlag))
              end
            else run (Ret (false, n))
      | fullNode Children flags =>
          match key with
          | [] => run Panic
          | key0 :: key1 =>
              c ← run (child Children key0);
              '(dirty, nn) ← delete fuel c (prefix ++ [key0]) key1;
              if (dirty : bool) then
                Children ← run (set_child Children key0 nn);
                delete_reduce prefix Children
              else run (Ret (false, n))
          end
      | valueNode _ => run (Ret (true, nilNode))
      | nilNode => run (Ret (false, nilNode))
      | hashNode h =>
          rn ← run (resolveHash h prefix);
          '(dirty, nn) ← delete fuel rn prefix key;
          if (dirty : bool) then run (Ret (true, nn)) else run (Ret (false, rn))
      end
  end.

(** ** The entry points *)

(** Every nibble of the key costs at most two calls, one of them to resolve a
    hash node. *)
Definition trie_fuel (key : bytes) : nat := 2 * length key + 2.

(** The result of a call and the trie after it. *)
Definition result A : Type := option (R A * Trie).

Definition TryGet (t : Trie) (key : bytes) : result (option bytes) :=
  let k := keybytesToHex key in
  match tryGet (trie_fuel k) (root t) k 0 with
  | Some (Ret (value, newroot, didResolve)) =>
      Some (Ret value, if (didResolve : bool) then mk_Trie newroot (unhashed t) else t)
  | Some (Err e) => Some (Err e, t)
  | Some Panic => Some (Panic, t)
  | None => None
  end.

(** The end of [TryUpdate] and [TryDelete], which install the new root. *)
Definition install (t : Trie) (r : M (bool * node)) : result unit :=
  match r with
  | Some (Ret (_, n)) => Some (Ret tt, mk_Trie n (unhashed t))
  | Some (Err e) => Some (Err e, t)
  | Some Panic => Some (Panic, t)
  | None => None
  end.

Definition TryDelete (t : Trie) (key : bytes) : result unit :=
  let t := mk_Trie (root t) (unhashed t + 1) in
  let k := keybytesToHex key in
  install t (delete (trie_fuel k) (root t) [] k).

Definition TryUpdate (t : Trie) (key value : bytes) : result unit :=
  let t := mk_Trie (root t) (unhashed t + 1) in
  let k := keybytesToHex key in
  if decide (zlen value <> 0) then
    install t (insert (trie_fuel k) (root t) [] k (valueNode value))
  else
    install t (delete (trie_fuel k) (root t) [] k).

Definition Reset (t : Trie) : Trie := mk_Trie nilNode 0.

End Trie.
