(* ===== verification/TrieProofs.v ===== *)
(** * Correctness of the trie operations

    The specification of a trie is a finite map from keys to values.  Between
    the two stands [tree], a trie with every hash node resolved: [denotes]
    relates a node (and the database behind its hash nodes) to its tree, [tget]
    is the content of a tree, and [wft] the canonical form of the code's
    comments (no short node below a short node, at least two children in a full
    node, non-empty values).  Insertion and deletion preserve the form and
    change the content as the map operations do; a tree in canonical form is
    determined by its content, so a trie does not depend on its history. *)

From stdpp Require Import gmap.
From S2P Require Import Prelude TrieEncoding Trie.

(** ** Trees and their content *)

Inductive tree :=
| TNil
| TFull (cs : list tree)
| TShort (k : bytes) (t : tree)
| TValue (v : bytes).

Fixpoint strip (p k : bytes) : option bytes :=
  match p, k with
  | [], _ => Some k
  | x :: p, y :: k => if decide (x = y) then strip p k else None
  | _ :: _, [] => None
  end.

Fixpoint tget (t : tree) (k : bytes) : option bytes :=
  match t with
  | TNil => None
  | TValue v => match k with [] => Some v | _ => None end
  | TShort p t => match strip p k with Some k => tget t k | None => None end
  | TFull cs =>
      match k with
      | [] => None
      | x :: k => nth (Z.to_nat x) (map (fun c => tget c k) cs) None
      end
  end.

(** A hex key: nibbles, then the terminator. *)
Fixpoint hexkey (k : bytes) : Prop :=
  match k with
  | [] => False
  | x :: k => (x = 16 /\ k = []) \/ (is_nibble x /\ hexkey k)
  end.

(** The canonical form, for a non-empty subtrie above the terminator. *)
Inductive wft : tree -> Prop :=
| wf_leaf k v : hexkey k -> v <> [] -> wft (TShort k (TValue v))
| wf_ext k cs : k <> [] -> Forall is_nibble k -> wft (TFull cs) -> wft (TShort k (TFull cs))
| wf_full cs i j ci cj :
    length cs = 17%nat ->
    (forall i c, (i < 16)%nat -> cs !! i = Some c -> c <> TNil -> wft c) ->
    (forall c, cs !! 16%nat = Some c -> c <> TNil -> exists v, v <> [] /\ c = TValue v) ->
    i <> j -> cs !! i = Some ci -> cs !! j = Some cj -> ci <> TNil -> cj <> TNil ->
    wft (TFull cs).

Definition wf_root (t : tree) : Prop := t = TNil \/ wft t.

(** The child a full node may have at an index. *)
Definition wf_at (x : Z) (c : tree) : Prop :=
  c = TNil \/ (is_nibble x /\ wft c) \/ (x = 16 /\ exists v, v <> [] /\ c = TValue v).

(** ** Nodes and trees *)

(** A node that is in memory, as the database returns it. *)
Definition loaded (n : node) : Prop :=
  match n with shortNode _ _ _ | fullNode _ _ => True | _ => False end.

(** What is known of the cached hash of a node, and of the hash in a hash node,
    for the tree below: an invariant of the nodes that the operations keep
    because a node they create has no cached hash. *)
Class HashInv := {
  flag_ok : nodeFlag -> tree -> Prop;
  hash_ok : bytes -> tree -> Prop;
  flag_ok_new t : flag_ok newFlag t
}.

(** The invariant that says nothing of the hashes. *)
Definition no_hashes : HashInv :=
  {| flag_ok _ _ := True; hash_ok _ _ := True; flag_ok_new _ := I |}.

Inductive denotes {db : NodeDB} {hi : HashInv} : node -> tree -> Prop :=
| d_nil : denotes nilNode TNil
| d_value v : denotes (valueNode v) (TValue v)
| d_short k n t fl : flag_ok fl (TShort k t) -> denotes n t -> denotes (shortNode k n fl) (TShort k t)
| d_full ns ts fl :
    flag_ok fl (TFull ts) -> length ns = length ts ->
    (forall i n t, ns !! i = Some n -> ts !! i = Some t -> denotes n t) ->
    denotes (fullNode ns fl) (TFull ts)
| d_hash h n t :
    hash_ok h t -> db_node (BytesToHash h) = Some n -> loaded n -> denotes n t -> denotes (hashNode h) t.

#[export] Hint Resolve flag_ok_new : go.

(** Prove that a node with fresh or known flags denotes its tree. *)
Ltac den := repeat constructor; auto with go.

(** The abstract state: a trie represents a finite map. *)
Definition represents {db : NodeDB} {hi : HashInv} (n : node) (t : tree) (m : gmap bytes bytes) : Prop :=
  denotes n t /\ wf_root t /\
  forall k v, hexkey k ->
    tget t k = Some v <-> exists key, bytes_ok key /\ k = keybytesToHex key /\ m !! key = Some v.

(** ** Keys *)

Lemma strip_Some p k k' : strip p k = Some k' <-> k = p ++ k'.
Proof.
  revert k. induction p as [|x p IH]; intros k; cbn; [naive_solver|].
  destruct k as [|y k]; [naive_solver|]. case_decide; subst; naive_solver.
Qed.

Lemma strip_app p q k : strip (p ++ q) k = match strip p k with Some k => strip q k | None => None end.
Proof.
  revert k. induction p as [|x p IH]; intros k; cbn; [done|].
  destruct k; [done|]. by case_decide.
Qed.

Lemma strip_refl p k : strip p (p ++ k) = Some k.
Proof. by apply strip_Some. Qed.

Lemma hexkey_term ns : Forall is_nibble ns -> hexkey (ns ++ [16]).
Proof. induction 1; cbn; auto. Qed.

Lemma hexkey_keybytes key : bytes_ok key -> hexkey (keybytesToHex key).
Proof. intros. by apply hexkey_term, nibbles_ok. Qed.

Lemma hexkey_app_inv p x k :
  hexkey (p ++ x :: k) ->
  Forall is_nibble p /\ ((x = 16 /\ k = []) \/ (is_nibble x /\ hexkey k)).
Proof.
  induction p as [|y p IH]; cbn; [auto|]. intros [[_ H]|[Hy H]].
  - by destruct p.
  - destruct (IH H). auto.
Qed.

Lemma hexkey_app_nil p k : hexkey p -> hexkey (p ++ k) -> k = [].
Proof.
  induction p as [|y p IH]; cbn; [done|]. intros [[-> ->]|[Hy H]] [[_ H']|[Hy' H']].
  - done.
  - unfold is_nibble in *. lia.
  - by apply app_nil in H' as [-> ->].
  - auto.
Qed.

Lemma hexkey_nibbles p : hexkey p -> ~ Forall is_nibble p.
Proof.
  induction p as [|y p IH]; cbn; [done|]. intros [[-> ->]|[Hy H]] [Hn Hn']%Forall_cons_1.
  - unfold is_nibble in *. lia.
  - by apply IH.
Qed.

Lemma hexkey_drop p k : Forall is_nibble p -> hexkey (p ++ k) -> hexkey k.
Proof.
  induction 1 as [|x p Hx Hp IH]; cbn; [done|]. intros [[-> _]|[_ H]]; [|auto].
  unfold is_nibble in *. lia.
Qed.

Lemma hexkey_cons_range x k : hexkey (x :: k) -> 0 <= x < 17.
Proof. cbn. unfold is_nibble. lia. Qed.

Lemma hexkey_nibble_app p k : Forall is_nibble p -> hexkey k -> hexkey (p ++ k).
Proof. induction 1; cbn; auto. Qed.

(** The common prefix of two keys and what follows it. *)
Lemma prefixLen_split a b :
  exists p a' b', a = p ++ a' /\ b = p ++ b' /\ prefixLen a b = length p /\
    match a', b' with x :: _, y :: _ => x <> y | _, _ => True end.
Proof.
  revert b. induction a as [|x a IH]; intros b.
  - by exists [], [], b.
  - destruct b as [|y b]; [by exists [], (x :: a), []|]. cbn. case_decide as Hxy.
    + subst y. destruct (IH b) as (p & a' & b' & -> & -> & -> & H).
      by exists (x :: p), a', b'.
    + by exists [], (x :: a), (y :: b).
Qed.

Lemma take_length_app {A} (l k : list A) : take (length l) (l ++ k) = l.
Proof. apply take_app_length. Qed.

Lemma take_length_app1 {A} (l k : list A) x : take (length l + 1) (l ++ x :: k) = l ++ [x].
Proof.
  rewrite (cons_middle x l k), app_assoc.
  replace (length l + 1)%nat with (length (l ++ [x])) by (rewrite length_app; done).
  apply take_app_length.
Qed.

Lemma drop_length_app1 {A} (l k : list A) x : drop (length l + 1) (l ++ x :: k) = k.
Proof.
  rewrite (cons_middle x l k), app_assoc.
  replace (length l + 1)%nat with (length (l ++ [x])) by (rewrite length_app; done).
  apply drop_app_length.
Qed.

(** ** Trees *)

Lemma tget_TFull cs x k :
  tget (TFull cs) (x :: k) = tget (nth (Z.to_nat x) cs TNil) k.
Proof. exact (map_nth (fun c => tget c k) cs TNil (Z.to_nat x)). Qed.

Lemma tget_TFull_lookup cs x k c :
  cs !! Z.to_nat x = Some c -> tget (TFull cs) (x :: k) = tget c k.
Proof. intros H. rewrite tget_TFull. by rewrite (nth_lookup_Some _ _ _ _ H). Qed.

Lemma tget_TFull_insert cs x c y k :
  0 <= x < zlen cs -> 0 <= y ->
  tget (TFull (<[Z.to_nat x := c]> cs)) (y :: k)
  = if decide (y = x) then tget c k else tget (TFull cs) (y :: k).
Proof.
  intros Hx Hy. rewrite !tget_TFull. unfold zlen in Hx. case_decide as E.
  - subst y. erewrite nth_lookup_Some; [done|]. apply list_lookup_insert_eq. lia.
  - rewrite !nth_lookup, list_lookup_insert_ne by lia. done.
Qed.

Lemma tget_short p t k : tget (TShort p t) k = match strip p k with Some k => tget t k | None => None end.
Proof. done. Qed.

(** [TShort k t], with no short node for an empty key. *)
Definition tcons (k : bytes) (t : tree) : tree := match k with [] => t | _ => TShort k t end.

Lemma tget_tcons p t k : tget (tcons p t) k = match strip p k with Some k => tget t k | None => None end.
Proof. by destruct p. Qed.

Lemma wf_full_intro cs x y cx cy :
  length cs = 17%nat ->
  (forall i c, cs !! i = Some c -> wf_at (Z.of_nat i) c) ->
  x <> y -> cs !! Z.to_nat x = Some cx -> cs !! Z.to_nat y = Some cy ->
  0 <= x -> 0 <= y -> cx <> TNil -> cy <> TNil -> wft (TFull cs).
Proof.
  intros Hl Hw Hxy Hx Hy Hx0 Hy0 Hcx Hcy.
  apply (wf_full cs (Z.to_nat x) (Z.to_nat y) cx cy); try done; [| |lia].
  - intros i c Hi Hc Hn. destruct (Hw i c Hc) as [?|[[_ ?]|[? _]]]; [done|done|lia].
  - intros c Hc Hn. destruct (Hw _ c Hc) as [?|[[H _]|[_ ?]]]; [done| |done].
    unfold is_nibble in H. lia.
Qed.

Lemma wf_full_at cs i c : wft (TFull cs) -> cs !! i = Some c -> wf_at (Z.of_nat i) c.
Proof.
  intros Hw Hc. inversion Hw as [| |? ? ? ? ? Hl H1 H2]; subst.
  assert (i < 17)%nat by (rewrite <- Hl; by eapply lookup_lt_Some).
  destruct c; [by left| | |];
    (destruct (decide (i = 16)%nat) as [->|]; [right; right; split; [done|]; by apply H2|
     right; left; split; [unfold is_nibble; lia|apply (H1 i); [lia|done|done]]]).
Qed.

Lemma wf_full_length cs : wft (TFull cs) -> length cs = 17%nat.
Proof. by inversion 1. Qed.

Lemma wf_at_insert (cs : list tree) x c :
  0 <= x -> (forall i c, cs !! i = Some c -> wf_at (Z.of_nat i) c) -> wf_at x c ->
  forall i c', <[Z.to_nat x := c]> cs !! i = Some c' -> wf_at (Z.of_nat i) c'.
Proof.
  intros Hx Hw Hc i c' Hi. apply list_lookup_insert_Some in Hi as [(<- & <- & _)|[_ ?]]; [|eauto].
  by rewrite Z2Nat.id.
Qed.

Lemma wft_not_nil t : wft t -> t <> TNil.
Proof. by destruct 1. Qed.

Lemma wf_tcons_value k v x :
  (x = 16 /\ k = []) \/ (is_nibble x /\ hexkey k) -> v <> [] -> wf_at x (tcons k (TValue v)).
Proof.
  intros [[-> ->]|[Hx Hk]] Hv.
  - right; right. eauto.
  - right; left. split; [done|]. destruct k; [done|]. by constructor.
Qed.

Lemma wf_tcons_full p cs : Forall is_nibble p -> wft (TFull cs) -> wft (tcons p (TFull cs)).
Proof. intros Hp Hw. destruct p; [done|]. by constructor. Qed.

(** Every subtrie in canonical form holds a key, and a full node holds two that
    differ in their first nibble. *)
Lemma wf_at_inhabited x c :
  (wft c -> exists k v, hexkey k /\ tget c k = Some v) ->
  wf_at x c -> c <> TNil -> exists k v, hexkey (x :: k) /\ tget c k = Some v.
Proof.
  intros IH [?|[[Hx Hc]|(-> & v & Hv & ->)]] Hn; [done| |].
  - destruct (IH Hc) as (k & v & Hk & Hg). exists k, v. cbn. auto.
  - exists [], v. cbn. auto.
Qed.

Lemma wft_inhabited t : wft t -> exists k v, hexkey k /\ tget t k = Some v.
Proof.
  induction 1 as [k v Hk Hv|p cs Hp Hn Hw (k & v & Hk & Hg)|cs i j ci cj Hl H1 IH H2 Hij Hi Hj Hci Hcj].
  - exists k, v. split; [done|]. cbn. rewrite <- (app_nil_r k) at 2. by rewrite strip_refl.
  - exists (p ++ k), v. split; [by apply hexkey_nibble_app|].
    cbn [tget]. by rewrite strip_refl.
  - assert (wft (TFull cs)) as Hw by by eapply wf_full.
    destruct (wf_at_inhabited (Z.of_nat i) ci) as (k & v & Hk & Hg);
      [| by eapply wf_full_at |done|].
    + intros Hc. destruct (decide (i < 16)%nat) as [Hi16|]; [by eapply IH|].
      pose proof (lookup_lt_Some _ _ _ Hi). assert (i = 16%nat) as -> by lia.
      destruct (H2 _ Hi Hci) as (v & _ & ->). inversion Hc.
    + exists (Z.of_nat i :: k), v. split; [done|].
      rewrite (tget_TFull_lookup _ _ _ ci) by by rewrite Nat2Z.id. done.
Qed.

Lemma wf_full_two cs :
  wft (TFull cs) ->
  exists x y k k' v v', x <> y /\ hexkey (x :: k) /\ hexkey (y :: k') /\
    tget (TFull cs) (x :: k) = Some v /\ tget (TFull cs) (y :: k') = Some v'.
Proof.
  intros Hw. pose proof Hw as Hw'. inversion Hw' as [| |? i j ci cj Hl H1 H2 Hij Hi Hj Hci Hcj]; subst.
  destruct (wf_at_inhabited _ _ (wft_inhabited ci) (wf_full_at _ _ _ Hw Hi) Hci) as (k & v & Hk & Hg).
  destruct (wf_at_inhabited _ _ (wft_inhabited cj) (wf_full_at _ _ _ Hw Hj) Hcj) as (k' & v' & Hk' & Hg').
  exists (Z.of_nat i), (Z.of_nat j), k, k', v, v'. split_and!; [lia|done|done| |].
  - rewrite (tget_TFull_lookup _ _ _ ci) by by rewrite Nat2Z.id. done.
  - rewrite (tget_TFull_lookup _ _ _ cj) by by rewrite Nat2Z.id. done.
Qed.

(** ** Nodes *)

Section Denotes.
Context {db : NodeDB} {hi : HashInv}.

(** The children of a full node and those of the tree it denotes. *)
Definition denotes_all (ns : list node) (ts : list tree) : Prop :=
  forall i n t, ns !! i = Some n -> ts !! i = Some t -> denotes n t.

Lemma denotes_nil_inv n : denotes n TNil -> n = nilNode.
Proof. inversion 1 as [| | | |h n' t ? ? Hl Hd]; [done|]. by inversion Hd; subst. Qed.

Lemma denotes_value_inv n v : denotes n (TValue v) -> n = valueNode v.
Proof. inversion 1 as [| | | |h n' t ? ? Hl Hd]; [done|]. by inversion Hd; subst. Qed.

Lemma denotes_nil t : denotes nilNode t -> t = TNil.
Proof. by inversion 1. Qed.

Lemma denotes_loaded n t :
  denotes n t -> wft t ->
  loaded n \/ exists h n', n = hashNode h /\ db_node (BytesToHash h) = Some n' /\ loaded n' /\ denotes n' t.
Proof. destruct 1; intros Hw; [inversion Hw|inversion Hw|by left|by left|right; eauto 6]. Qed.

Lemma denotes_short_inv n k t :
  loaded n -> denotes n (TShort k t) -> exists n' fl, n = shortNode k n' fl /\ denotes n' t /\ flag_ok fl (TShort k t).
Proof. intros Hl Hd. inversion Hd; subst; [eauto|done]. Qed.

Lemma denotes_full_inv n ts :
  loaded n -> denotes n (TFull ts) ->
  exists ns fl, n = fullNode ns fl /\ length ns = length ts /\
    denotes_all ns ts /\ flag_ok fl (TFull ts).
Proof. intros Hl Hd. inversion Hd; subst; [by eexists _, _|done]. Qed.

Lemma denotes_insert ns ts (x : nat) n t :
  denotes_all ns ts ->
  denotes n t -> denotes_all (<[x := n]> ns) (<[x := t]> ts).
Proof.
  intros H Hd i n' t' H1 H2.
  apply list_lookup_insert_Some in H1 as [(-> & <- & ?)|[? H1]].
  - apply list_lookup_insert_Some in H2 as [(_ & <- & _)|[? _]]; done.
  - apply list_lookup_insert_Some in H2 as [(? & _)|[_ H2]]; [done|eauto].
Qed.

Lemma denotes_set_child ns ts fl (x : nat) n t :
  flag_ok fl (TFull (<[x := t]> ts)) -> length ns = length ts ->
  denotes_all ns ts ->
  denotes n t ->
  denotes (fullNode (<[x := n]> ns) fl) (TFull (<[x := t]> ts)).
Proof.
  intros Hf Hl H Hd. constructor; [done|by rewrite !length_insert|]. by apply denotes_insert.
Qed.

(** Reading and writing a child of a full node that denotes a tree. *)
Lemma child_ok (ns : list node) (ts : list tree) x :
  length ns = length ts -> 0 <= x < zlen ts ->
  denotes_all ns ts ->
  exists n t, child ns x = Ret n /\ ts !! Z.to_nat x = Some t /\ denotes n t /\
    forall n', set_child ns x n' = Ret (<[Z.to_nat x := n']> ns).
Proof.
  intros Hl Hx H. unfold zlen in Hx.
  destruct (lookup_lt_is_Some_2 ns (Z.to_nat x)) as [n Hn]; [lia|].
  destruct (lookup_lt_is_Some_2 ts (Z.to_nat x)) as [t Ht]; [lia|].
  exists n, t. split_and!; [|done|eauto|].
  - unfold child. rewrite <- (Z2Nat.id x) at 1 by lia. by apply go_index_lookup.
  - intros n'. unfold set_child. rewrite decide_True; [done|]. unfold zlen. lia.
Qed.

Lemma resolveHash_ok h n prefix : db_node (BytesToHash h) = Some n -> resolveHash h prefix = Ret n.
Proof. unfold resolveHash. by intros ->. Qed.

End Denotes.

(** Step a fuelled computation through a call whose result is known. *)
Ltac frun := cbn [mbind fuelled_bind run].

(** ** Insertion *)

Section Insert.
Context {db : NodeDB} {hi : HashInv}.

(** What an insertion of [v] at [k] into [t], which is the subtrie below the
    nibble [x], promises. *)
Definition ins_at (x : Z) (r : fuelled MissingNodeError (bool * node)) (t : tree) (k v : bytes) : Prop :=
  exists d n' t', r = run (Ret (d, n')) /\ denotes n' t' /\ wf_at x t' /\ t' <> TNil /\
    (forall k', hexkey (x :: k') -> tget t' k' = if decide (k' = k) then Some v else tget t k') /\
    d = negb (bool_decide (tget t k = Some v)).

Definition is_full (t : tree) : Prop := match t with TFull _ => True | _ => False end.

(** The same for a subtrie above the terminator; a full node stays one. *)
Definition ins_ok (r : fuelled MissingNodeError (bool * node)) (t : tree) (k v : bytes) : Prop :=
  exists d n' t', r = run (Ret (d, n')) /\ denotes n' t' /\ wft t' /\
    (forall k', hexkey k' -> tget t' k' = if decide (k' = k) then Some v else tget t k') /\
    d = negb (bool_decide (tget t k = Some v)) /\ (is_full t -> is_full t').

(** [insert] into an empty subtrie. *)
Definition ncons (k : bytes) (n : node) : node :=
  match k with [] => n | _ => shortNode k n newFlag end.

Lemma insert_nil fuel prefix k n :
  insert (S fuel) nilNode prefix k n = run (Ret (true, ncons k n)).
Proof. by destruct k. Qed.

Lemma denotes_ncons k n t : denotes n t -> denotes (ncons k n) (tcons k t).
Proof. destruct k; [done|]. intros. den. Qed.

Lemma tget_tcons_value k v k' :
  tget (tcons k (TValue v)) k' = if decide (k' = k) then Some v else None.
Proof.
  rewrite tget_tcons. destruct (strip k k') as [r|] eqn:E.
  - apply strip_Some in E as ->. destruct r as [|x r]; cbn.
    + rewrite app_nil_r. by rewrite decide_True.
    + rewrite decide_False; [done|]. intros H%(f_equal length). rewrite length_app in H. cbn in H. lia.
  - rewrite decide_False; [done|]. intros ->. rewrite <- (app_nil_r k) in E at 2.
    by rewrite strip_refl in E.
Qed.

Lemma ins_at_nil fuel prefix x k v :
  hexkey (x :: k) -> v <> [] -> ins_at x (insert (S fuel) nilNode prefix k (valueNode v)) TNil k v.
Proof.
  intros Hk Hv. exists true, (ncons k (valueNode v)), (tcons k (TValue v)).
  split_and!; [apply insert_nil|apply denotes_ncons, d_value|by apply wf_tcons_value|by destruct k| |done].
  intros k' _. apply tget_tcons_value.
Qed.

Lemma ins_at_value fuel prefix v0 v :
  v <> [] -> ins_at 16 (insert (S fuel) (valueNode v0) prefix [] (valueNode v)) (TValue v0) [] v.
Proof.
  intros Hv. exists (negb (bool_decide (v0 = v))), (valueNode v), (TValue v).
  split_and!; [done|constructor|right; right; eauto|done| |].
  - intros k' [[_ ->]|[H _]]; [done|]. unfold is_nibble in H. lia.
  - cbn. f_equal. apply bool_decide_ext. naive_solver.
Qed.

(** Insertion into a child of a full node, given insertion into non-empty
    subtries. *)
Lemma ins_at_child fuel nc c prefix x k v :
  denotes nc c -> wf_at x c -> hexkey (x :: k) -> v <> [] ->
  (wft c -> hexkey k -> ins_ok (insert (S fuel) nc prefix k (valueNode v)) c k v) ->
  ins_at x (insert (S fuel) nc prefix k (valueNode v)) c k v.
Proof.
  intros Hd [->|[[Hx Hc]|(-> & v0 & Hv0 & ->)]] Hk Hv IH.
  - apply denotes_nil_inv in Hd as ->. by apply ins_at_nil.
  - assert (hexkey k) as Hk'.
    { destruct Hk as [[-> _]|[_ ?]]; [unfold is_nibble in Hx; lia|done]. }
    destruct (IH Hc Hk') as (d & n' & t' & H1 & H2 & H3 & H4 & H5 & _).
    exists d, n', t'. split_and!; [done..|right; left; done|by apply wft_not_nil| |done].
    intros k'' [[-> _]|[_ ?]]; [unfold is_nibble in Hx; lia|auto].
  - apply denotes_value_inv in Hd as ->. destruct Hk as [[_ ->]|[Hx _]]; [|unfold is_nibble in Hx; lia].
    by apply ins_at_value.
Qed.

Lemma insert_full fuel prefix cs fl ns x k v :
  wft (TFull cs) -> flag_ok fl (TFull cs) -> length ns = length cs ->
  denotes_all ns cs ->
  hexkey (x :: k) -> v <> [] ->
  (forall nc c, denotes nc c -> cs !! Z.to_nat x = Some c -> wft c -> hexkey k ->
     ins_ok (insert (S fuel) nc (prefix ++ [x]) k (valueNode v)) c k v) ->
  ins_ok (insert (S (S fuel)) (fullNode ns fl) prefix (x :: k) (valueNode v)) (TFull cs) (x :: k) v.
Proof.
  intros Hw Hfl Hl Hd Hk Hv IH. pose proof (wf_full_length _ Hw) as Hl17.
  pose proof (hexkey_cons_range _ _ Hk) as Hx.
  destruct (child_ok ns cs x) as (nc & c & Hc & Hcs & Hdc & Hset); [done|unfold zlen; lia|done|].
  assert (wf_at x c) as Hwc by (rewrite <- (Z2Nat.id x) by lia; by eapply wf_full_at).
  destruct (ins_at_child fuel nc c (prefix ++ [x]) x k v) as (d & n' & t' & H1 & H2 & H3 & H3' & H4 & H5);
    [done..|eauto|].
  set (f := S fuel) in *. cbn [insert]. rewrite Hc. frun. rewrite H1. frun.
  assert (tget (TFull cs) (x :: k) = tget c k) as Hg by by apply tget_TFull_lookup.
  destruct d.
  - rewrite Hset. frun. exists true, (fullNode (<[Z.to_nat x := n']> ns) newFlag), (TFull (<[Z.to_nat x := t']> cs)).
    split_and!; [done|apply denotes_set_child; auto with go| | |by rewrite Hg|done].
    + inversion Hw as [| |? i j ci cj _ _ _ Hij Hi Hj Hci Hcj]; subst.
      assert (exists j' cj', j' <> Z.to_nat x /\ cs !! j' = Some cj' /\ cj' <> TNil) as (j' & cj' & Hj' & Hcj' & Hn).
      { destruct (decide (i = Z.to_nat x)) as [->|]; [exists j, cj|exists i, ci]; done. }
      apply (wf_full_intro _ x (Z.of_nat j') t' cj'); [by rewrite length_insert| |lia| | |lia|lia|done|done].
      * apply wf_at_insert; [lia| |done]. intros ??. by apply wf_full_at.
      * apply list_lookup_insert_eq. lia.
      * rewrite Nat2Z.id. by rewrite list_lookup_insert_ne.
    + intros [|y k'] Hk'; [done|]. pose proof (hexkey_cons_range _ _ Hk').
      rewrite tget_TFull_insert by (unfold zlen; lia).
      destruct (decide (y = x)) as [->|E].
      * rewrite H4 by done. rewrite (tget_TFull_lookup _ _ _ c) by done.
        repeat case_decide; naive_solver.
      * rewrite decide_False; [done|congruence].
  - exists false, (fullNode ns fl), (TFull cs). split_and!; [done|by constructor|done| |by rewrite Hg|done].
    intros k' Hk'. destruct (decide (k' = x :: k)) as [->|]; [|done]. rewrite Hg.
    symmetry in H5. apply negb_false_iff, bool_decide_eq_true in H5. done.
Qed.

Lemma prefixLen_app p a b :
  match a, b with x :: _, y :: _ => x <> y | _, _ => True end ->
  prefixLen (p ++ a) (p ++ b) = length p.
Proof.
  intros H. induction p as [|z p IH]; cbn; [|by rewrite decide_True, IH by done].
  destruct a, b; [done..|]. cbn. by rewrite decide_False.
Qed.

Lemma insert_short_unfold fuel Key Val flags prefix k value :
  k <> [] ->
  insert (S fuel) (shortNode Key Val flags) prefix k value =
  (let matchlen := prefixLen k Key in
   if decide (matchlen = length Key) then
     '(dirty, nn) ← insert fuel Val (prefix ++ take matchlen k) (drop matchlen k) value;
     if (dirty : bool) then run (Ret (true, shortNode Key nn newFlag))
     else run (Ret (false, shortNode Key Val flags))
   else
     nk ← run (go_index Key (Z.of_nat matchlen));
     '(_, c1) ← insert fuel nilNode (prefix ++ take (matchlen + 1) Key) (drop (matchlen + 1) Key) Val;
     branch ← run (set_child (replicate 17 nilNode) nk c1);
     kk ← run (go_index k (Z.of_nat matchlen));
     '(_, c2) ← insert fuel nilNode (prefix ++ take (matchlen + 1) k) (drop (matchlen + 1) k) value;
     branch ← run (set_child branch kk c2);
     if decide (matchlen = 0%nat) then run (Ret (true, fullNode branch newFlag))
     else run (Ret (true, shortNode (take matchlen k) (fullNode branch newFlag) newFlag))).
Proof. by destruct k. Qed.

Lemma go_index_app1 {E A} (p : list A) x a : go_index (E:=E) (p ++ x :: a) (Z.of_nat (length p)) = Ret x.
Proof. apply go_index_lookup. by apply list_lookup_middle. Qed.

Lemma set_child_ok ns x n : 0 <= x < zlen ns -> set_child ns x n = Ret (<[Z.to_nat x := n]> ns).
Proof. intros H. unfold set_child. by rewrite decide_True. Qed.

(** The branch that replaces a short node: two children, the others nil. *)
Definition tbranch (y : Z) (cy : tree) (x : Z) (cx : tree) : tree :=
  TFull (<[Z.to_nat x := cx]> (<[Z.to_nat y := cy]> (replicate 17 TNil))).

Lemma tget_tbranch y cy x cx z k :
  0 <= x < 17 -> 0 <= y < 17 -> 0 <= z ->
  tget (tbranch y cy x cx) (z :: k)
  = if decide (z = x) then tget cx k else if decide (z = y) then tget cy k else None.
Proof.
  intros Hx Hy Hz. unfold tbranch.
  rewrite tget_TFull_insert by (unfold zlen; rewrite ?length_insert, ?length_replicate; lia).
  destruct (decide (z = x)); [done|].
  rewrite tget_TFull_insert by (unfold zlen; rewrite ?length_insert, ?length_replicate; lia).
  destruct (decide (z = y)); [done|]. rewrite tget_TFull, nth_lookup.
  destruct (replicate 17 TNil !! Z.to_nat z) as [c|] eqn:E; [|done].
  by apply lookup_replicate in E as [-> _].
Qed.

Lemma wf_tbranch y cy x cx :
  0 <= x < 17 -> 0 <= y < 17 -> x <> y -> wf_at x cx -> wf_at y cy -> cx <> TNil -> cy <> TNil ->
  wft (tbranch y cy x cx).
Proof.
  intros Hx Hy Hxy Hcx Hcy Hnx Hny. apply (wf_full_intro _ x y cx cy); try done; try lia.
  - by rewrite !length_insert.
  - apply wf_at_insert; [lia| |done]. apply wf_at_insert; [lia| |done].
    intros i c [-> _]%lookup_replicate. by left.
  - apply list_lookup_insert_eq. rewrite length_insert, length_replicate. lia.
  - rewrite list_lookup_insert_ne by lia. apply list_lookup_insert_eq. rewrite length_replicate. lia.
Qed.

Lemma denotes_nbranch y ny cy x nx cx :
  denotes ny cy -> denotes nx cx ->
  denotes (fullNode (<[Z.to_nat x := nx]> (<[Z.to_nat y := ny]> (replicate 17 nilNode))) newFlag)
          (tbranch y cy x cx).
Proof.
  intros Hy Hx. apply denotes_set_child; [auto with go|by rewrite !length_insert| |done].
  apply denotes_insert; [|done]. intros i n t [-> _]%lookup_replicate [-> _]%lookup_replicate. constructor.
Qed.

(** The content of the branch and the prefix above it. *)
Lemma tget_split p x a y b tv v k' :
  0 <= x < 17 -> 0 <= y < 17 -> x <> y -> hexkey k' ->
  tget (tcons p (tbranch y (tcons b tv) x (tcons a (TValue v)))) k'
  = if decide (k' = p ++ x :: a) then Some v else tget (TShort (p ++ y :: b) tv) k'.
Proof.
  intros Hx Hy Hxy Hk'. rewrite tget_tcons. cbn [tget]. rewrite strip_app.
  destruct (strip p k') as [r|] eqn:E.
  - apply strip_Some in E as ->. destruct r as [|z r].
    { rewrite decide_False; [done|]. intros H%app_inv_head. done. }
    destruct (hexkey_app_inv _ _ _ Hk') as [_ Hz].
    rewrite tget_tbranch by (unfold is_nibble in *; lia). rewrite tget_tcons_value, tget_tcons. cbn [strip].
    destruct (decide (z = x)) as [->|Hzx].
    + rewrite (decide_False (P := y = x)) by done.
      destruct (decide (r = a)) as [->|Hra]; [by rewrite decide_True|].
      rewrite decide_False; [done|]. intros H%app_inv_head. congruence.
    + rewrite (decide_False (P := p ++ z :: r = p ++ x :: a)) by (intros H%app_inv_head; congruence).
      destruct (decide (z = y)) as [->|]; [by rewrite decide_True|by rewrite decide_False by congruence].
  - rewrite decide_False; [done|]. intros ->. by rewrite strip_refl in E.
Qed.

Lemma insert_split fuel prefix p x a y b nv tv fl v :
  hexkey (p ++ x :: a) -> v <> [] -> x <> y -> 0 <= y < 17 -> denotes nv tv ->
  wf_at y (tcons b tv) -> tcons b tv <> TNil ->
  ins_ok (insert (S (S fuel)) (shortNode (p ++ y :: b) nv fl) prefix (p ++ x :: a) (valueNode v))
         (TShort (p ++ y :: b) tv) (p ++ x :: a) v.
Proof.
  intros Hk Hv Hxy Hy Hd Hwy Hny. destruct (hexkey_app_inv _ _ _ Hk) as [Hp Hx].
  assert (0 <= x < 17) by (unfold is_nibble in Hx; lia).
  rewrite insert_short_unfold by (by destruct p).
  rewrite prefixLen_app by done. cbv zeta. rewrite decide_False by (rewrite length_app; cbn; lia).
  rewrite !go_index_app1, !drop_length_app1, !insert_nil, take_length_app. frun.
  rewrite set_child_ok by done. frun.
  rewrite set_child_ok by (unfold zlen; rewrite length_insert, length_replicate; lia). frun.
  set (br := fullNode _ _).
  exists true, (ncons p br), (tcons p (tbranch y (tcons b tv) x (tcons a (TValue v)))).
  split_and!.
  - destruct p; cbn; done.
  - apply denotes_ncons, denotes_nbranch; apply denotes_ncons; [done|constructor].
  - apply wf_tcons_full; [done|].
    apply wf_tbranch; try done; [by apply wf_tcons_value|by destruct a].
  - intros k' Hk'. by apply tget_split.
  - cbn [tget]. rewrite strip_app, strip_refl. cbn [strip]. by rewrite decide_False.
  - done.
Qed.

(** Insertion into the loaded nodes, and into all nodes, that denote [t]. *)
Definition ins_loaded (t : tree) : Prop :=
  forall n fuel prefix k v, loaded n -> denotes n t -> hexkey k -> v <> [] -> (2 * length k <= fuel)%nat ->
    ins_ok (insert fuel n prefix k (valueNode v)) t k v.

Definition ins_any (t : tree) : Prop :=
  forall n fuel prefix k v, denotes n t -> hexkey k -> v <> [] -> (2 * length k + 1 <= fuel)%nat ->
    ins_ok (insert fuel n prefix k (valueNode v)) t k v.

(** Resolving a hash node first costs one call. *)
Lemma ins_hash t : wft t -> ins_loaded t -> ins_any t.
Proof.
  intros Hw H n fuel prefix k v Hd Hk Hv Hf.
  destruct (denotes_loaded _ _ Hd Hw) as [Hl|(h & n' & -> & Hdb & Hl & Hd')]; [apply H; (done || lia)|].
  destruct fuel as [|fuel]; [lia|]. destruct k as [|x k]; [done|].
  destruct (H n' fuel prefix (x :: k) v) as (d & n2 & t' & E & H2 & H3 & H4 & H5 & H6); try done; [lia|].
  cbn [insert]. rewrite (resolveHash_ok _ n') by done. frun. rewrite E. frun.
  destruct d.
  - by exists true, n2, t'.
  - exists false, n', t. split_and!; try done. intros k' Hk'.
    destruct (decide (k' = x :: k)) as [->|]; [|done].
    symmetry in H5. by apply negb_false_iff, bool_decide_eq_true in H5.
Qed.

Lemma ins_leaf sk v0 : hexkey sk -> v0 <> [] -> ins_loaded (TShort sk (TValue v0)).
Proof.
  intros Hsk Hv0 n fuel prefix k v Hl Hd Hk Hv Hf.
  destruct (denotes_short_inv _ _ _ Hl Hd) as (nv & fl & -> & Hdv & Hfl).
  destruct k as [|k0 k1] eqn:Ek; [done|]. rewrite <- Ek in *.
  assert (1 <= length k)%nat by (subst; cbn; lia). destruct fuel as [|[|fuel]]; [lia|lia|].
  destruct (prefixLen_split k sk) as (p & a & b & Hka & Hskb & Hp & Hab).
  destruct b as [|y b].
  - rewrite app_nil_r in Hskb. subst p.
    assert (a = []) as -> by (apply (hexkey_app_nil sk); [done|congruence]). rewrite app_nil_r in Hka.
    subst sk. rewrite insert_short_unfold by (by intros ->). cbv zeta. rewrite Hp, decide_True by done.
    rewrite drop_all. apply denotes_value_inv in Hdv as ->. cbn [insert]. frun.
    assert (tget (TShort k (TValue v0)) k = Some v0) as Hg.
    { pose proof (tget_tcons_value k v0 k) as E. rewrite decide_True in E by done. by destruct k. }
    exists (negb (bool_decide (v0 = v))), (shortNode k (valueNode v) (if decide (v0 = v) then fl else newFlag)),
      (TShort k (TValue v)).
    split_and!.
    + destruct (decide (v0 = v)) as [->|]; [rewrite bool_decide_true by done|rewrite bool_decide_false by done]; done.
    + destruct (decide (v0 = v)) as [<-|]; den.
    + by constructor.
    + intros k' _. pose proof (tget_tcons_value k v k') as E. pose proof (tget_tcons_value k v0 k') as E0.
      destruct k; [done|]. cbn [tcons] in E, E0. rewrite E, E0. by destruct (decide _).
    + rewrite Hg. f_equal. apply bool_decide_ext. naive_solver.
    + done.
  - destruct a as [|x a].
    + rewrite app_nil_r in Hka. subst p. rewrite Hskb in Hsk. by pose proof (hexkey_app_nil _ _ Hk Hsk).
    + rewrite Hka, Hskb in *. destruct (hexkey_app_inv _ _ _ Hsk) as [_ Hy].
      apply insert_split; try done; [unfold is_nibble in Hy; lia|by apply wf_tcons_value|by destruct b].
Qed.

Lemma ins_ext sk cs :
  sk <> [] -> Forall is_nibble sk -> wft (TFull cs) -> ins_any (TFull cs) -> ins_loaded (TShort sk (TFull cs)).
Proof.
  intros Hsk0 Hsk Hw IH n fuel prefix k v Hl Hd Hk Hv Hf.
  destruct (denotes_short_inv _ _ _ Hl Hd) as (nv & fl & -> & Hdv & Hfl).
  assert (k <> []) as Hk0 by (by intros ->). assert (1 <= length k)%nat by (destruct k; [done|cbn; lia]).
  destruct fuel as [|[|fuel]]; [lia|lia|].
  destruct (prefixLen_split k sk) as (p & a & b & Hka & Hskb & Hp & Hab).
  destruct b as [|y b].
  - rewrite app_nil_r in Hskb. subst p. rewrite insert_short_unfold by done. cbv zeta.
    rewrite Hp, decide_True by done. rewrite Hka in *. rewrite take_app_length, drop_app_length.
    pose proof (hexkey_drop _ _ Hsk Hk) as Ha.
    assert (1 <= length sk)%nat by (destruct sk; [done|cbn; lia]). rewrite length_app in Hf.
    destruct (IH nv (S fuel) (prefix ++ sk) a v) as (d & n' & t' & E & H2 & H3 & H4 & H5 & H6); try done; [lia|].
    rewrite E. frun.
    assert (forall t a, tget (TShort sk t) (sk ++ a) = tget t a) as Hg by (intros; cbn [tget]; by rewrite strip_refl).
    destruct t' as [|cs'|k2 t2|v2]; try (by destruct (H6 I)).
    exists d, (if d then shortNode sk n' newFlag else shortNode sk nv fl), (TShort sk (TFull (if d then cs' else cs))).
    split_and!; [by destruct d|destruct d; den|by destruct d; constructor| |by rewrite Hg|done].
    intros k' Hk'. rewrite !tget_short. destruct (strip sk k') as [r|] eqn:Er.
    + apply strip_Some in Er as ->. pose proof (hexkey_drop _ _ Hsk Hk') as Hr.
      assert (tget (TFull (if d then cs' else cs)) r = if decide (r = a) then Some v else tget (TFull cs) r) as ->.
      { destruct d; [by apply H4|]. destruct (decide (r = a)) as [->|]; [|done].
        symmetry in H5. by apply negb_false_iff, bool_decide_eq_true in H5. }
      destruct (decide (r = a)) as [->|Hra]; [by rewrite decide_True|].
      rewrite decide_False; [done|]. by intros ?%app_inv_head.
    + rewrite decide_False; [done|]. intros ->. by rewrite strip_refl in Er.
  - destruct a as [|x a].
    + rewrite app_nil_r in Hka. subst p. rewrite Hskb in Hsk. apply Forall_app in Hsk as [Hsk _].
      by apply hexkey_nibbles in Hk.
    + rewrite Hka, Hskb in *. apply Forall_app in Hsk as [_ Hyb]. apply Forall_cons_1 in Hyb as [Hy Hb].
      apply insert_split; try done; [unfold is_nibble in Hy; lia| |by destruct b].
      right; left. split; [done|]. by apply wf_tcons_full.
Qed.

Lemma insert_ok t : wft t -> ins_any t.
Proof.
  intros Hw. induction Hw as [k v Hk Hv|p cs Hp Hn Hw IH|cs i j ci cj Hl H1 IH H2 Hij Hi Hj Hci Hcj].
  - apply ins_hash; [by constructor|]. by apply ins_leaf.
  - apply ins_hash; [by constructor|]. by apply ins_ext.
  - assert (wft (TFull cs)) as Hw by by eapply wf_full.
    apply ins_hash; [done|]. intros n fuel prefix k v Hln Hd Hk Hv Hf.
    destruct (denotes_full_inv _ _ Hln Hd) as (ns & fl & -> & Hl' & Hd' & Hfl).
    destruct k as [|x k]; [done|]. destruct fuel as [|[|fuel]]; [cbn in Hf; lia..|].
    apply insert_full; try done. intros nc c Hdc Hc Hwc Hk'.
    destruct (wf_full_at _ _ _ Hw Hc) as [->|[[Hx _]|(_ & v' & _ & ->)]]; [inversion Hwc| |inversion Hwc].
    eapply (IH (Z.to_nat x)); try done; [unfold is_nibble in Hx; lia|by apply wft_not_nil|cbn in Hf; lia].
Qed.

End Insert.

(** ** Deletion *)

(** [TShort p t], merged with a short node below it. *)
Definition tjoin (p : bytes) (t : tree) : tree :=
  match t with TShort k t => TShort (p ++ k) t | _ => TShort p t end.

Lemma tget_tjoin p t k : tget (tjoin p t) k = tget (TShort p t) k.
Proof.
  destruct t; try done. cbn [tjoin]. rewrite !tget_short, strip_app.
  by destruct (strip p k).
Qed.

Lemma wf_tjoin p t : p <> [] -> Forall is_nibble p -> wft t -> wft (tjoin p t).
Proof.
  intros Hp Hn Hw. destruct Hw as [k v Hk Hv|k cs Hk Hkn Hw|cs i j ci cj]; cbn [tjoin].
  - constructor; [|done]. by apply hexkey_nibble_app.
  - constructor; [by destruct p|by apply Forall_app|done].
  - constructor; [done..|]. by eapply wf_full.
Qed.

(** The three results of the loop that counts the children. *)
Lemma delete_pos_found ns i p :
  p <> -1 -> (Forall (eq nilNode) ns /\ delete_pos ns i p = p) \/
             (exists j n, ns !! j = Some n /\ n <> nilNode /\ delete_pos ns i p = -2).
Proof.
  intros Hp. revert i. induction ns as [|n ns IH]; intros i; [by left|].
  destruct n; cbn [delete_pos]; rewrite ?decide_False by done;
    [|by right; eexists 0%nat, _..].
  destruct (IH (i + 1)) as [[H1 ->]|(j & n & Hj & Hn & ->)]; [left; auto|right; by exists (S j), n].
Qed.

Inductive pos_spec (ns : list node) (i : Z) : Z -> Prop :=
| pos_none : Forall (eq nilNode) ns -> pos_spec ns i (-1)
| pos_one j n :
    ns !! j = Some n -> n <> nilNode ->
    (forall j' n', ns !! j' = Some n' -> j' <> j -> n' = nilNode) ->
    pos_spec ns i (i + Z.of_nat j)
| pos_two j j' n n' :
    j <> j' -> ns !! j = Some n -> ns !! j' = Some n' -> n <> nilNode -> n' <> nilNode ->
    pos_spec ns i (-2).

Lemma delete_pos_spec ns i : 0 <= i -> pos_spec ns i (delete_pos ns i (-1)).
Proof.
  revert i. induction ns as [|n ns IH]; intros i Hi; [by constructor|].
  assert (n = nilNode \/ n <> nilNode) as [->|Hn] by (destruct n; auto).
  - cbn [delete_pos]. destruct (IH (i + 1)) as [H|j n H1 H2 H3|j j' n n' H1 H2 H3 H4 H5]; [lia| | |].
    + constructor. auto.
    + replace (i + 1 + Z.of_nat j) with (i + Z.of_nat (S j)) by lia.
      apply (pos_one _ _ _ n); [done..|]. intros [|j'] n'; [by intros [= <-]|]. cbn. intros. eapply H3; [done|lia].
    + by apply (pos_two _ _ (S j) (S j') n n'); [lia|..].
  - assert (delete_pos (n :: ns) i (-1) = delete_pos ns (i + 1) i) as -> by (by destruct n).
    destruct (delete_pos_found ns (i + 1) i) as [[H1 ->]|(j & n' & Hj & Hn' & ->)]; [lia| |].
    + replace i with (i + Z.of_nat 0) at 2 by lia. apply (pos_one _ _ _ n); [done..|].
      intros [|j'] n'; [done|]. cbn. intros Hj _. rewrite Forall_lookup in H1. symmetry. by eapply H1.
    + by apply (pos_two _ _ 0 (S j) n n').
Qed.

Section Delete.
Context {db : NodeDB} {hi : HashInv}.

(** What a deletion of [k] from [t], the subtrie below the nibble [x],
    promises; the node of a subtrie that changed is in memory. *)
Definition del_at (x : Z) (r : fuelled MissingNodeError (bool * node)) (t : tree) (k : bytes) : Prop :=
  exists d n' t', r = run (Ret (d, n')) /\ denotes n' t' /\ wf_at x t' /\
    (forall k', hexkey (x :: k') -> tget t' k' = if decide (k' = k) then None else tget t k') /\
    d = bool_decide (is_Some (tget t k)).

Definition del_ok (r : fuelled MissingNodeError (bool * node)) (t : tree) (k : bytes) : Prop :=
  exists d n' t', r = run (Ret (d, n')) /\ denotes n' t' /\ wf_root t' /\
    (forall k', hexkey k' -> tget t' k' = if decide (k' = k) then None else tget t k') /\
    d = bool_decide (is_Some (tget t k)) /\ (d = true -> t' = TNil \/ loaded n').

(** Nothing to delete: the node is returned as it is. *)
Lemma del_unchanged n t k :
  denotes n t -> wf_root t -> tget t k = None -> del_ok (run (Ret (false, n))) t k.
Proof.
  intros Hd Hw Hg. exists false, n, t. split_and!; try done.
  - intros k' _. by destruct (decide (k' = k)) as [->|].
  - rewrite bool_decide_false; [done|]. rewrite Hg. by intros [? ?].
Qed.

Lemma denotes_tjoin Key n t :
  loaded n -> denotes n t ->
  denotes match n with
          | shortNode ckey cval _ => shortNode (Key ++ ckey) cval newFlag
          | _ => shortNode Key n newFlag
          end (tjoin Key t).
Proof.
  intros Hl Hd. destruct Hd; try done; cbn [tjoin]; den.
Qed.

Lemma del_at_child fuel nc c prefix x k :
  denotes nc c -> wf_at x c -> hexkey (x :: k) ->
  (wft c -> hexkey k -> del_ok (delete (S fuel) nc prefix k) c k) ->
  del_at x (delete (S fuel) nc prefix k) c k.
Proof.
  intros Hd [->|[[Hx Hc]|(-> & v0 & Hv0 & ->)]] Hk IH.
  - apply denotes_nil_inv in Hd as ->. exists false, nilNode, TNil.
    split_and!; [done|constructor|by left| |done]. intros k' _. by destruct (decide _).
  - assert (hexkey k) as Hk'.
    { destruct Hk as [[-> _]|[_ ?]]; [unfold is_nibble in Hx; lia|done]. }
    destruct (IH Hc Hk') as (d & n' & t' & H1 & H2 & H3 & H4 & H5 & _).
    exists d, n', t'. split_and!; [done..| | |done].
    + destruct H3 as [->|H3]; [by left|right; by left].
    + intros k'' [[-> _]|[_ ?]]; [unfold is_nibble in Hx; lia|auto].
  - apply denotes_value_inv in Hd as ->. destruct Hk as [[_ ->]|[Hx _]]; [|unfold is_nibble in Hx; lia].
    exists true, nilNode, TNil. split_and!; [done|constructor|by left| |done].
    intros k' [[_ ->]|[H _]]; [done|]. unfold is_nibble in H. lia.
Qed.

Lemma denotes_resolve n t prefix :
  denotes n t -> wft t -> exists n', resolve n prefix = Ret n' /\ loaded n' /\ denotes n' t.
Proof.
  intros Hd Hw. destruct (denotes_loaded _ _ Hd Hw) as [Hl|(h & n' & -> & Hdb & Hl & Hd')].
  - exists n. by destruct n.
  - exists n'. split; [|done]. by apply resolveHash_ok.
Qed.

(** The content of a full node with one child left. *)
Lemma tget_only_child cs j c k :
  cs !! j = Some c -> (forall j' c', cs !! j' = Some c' -> j' <> j -> c' = TNil) ->
  hexkey k -> tget (TFull cs) k = tget (TShort [Z.of_nat j] c) k.
Proof.
  intros Hc Ho Hk. destruct k as [|x k]; [done|]. pose proof (hexkey_cons_range _ _ Hk).
  rewrite tget_short. cbn [strip]. destruct (decide (Z.of_nat j = x)) as [<-|Hx].
  - rewrite (tget_TFull_lookup _ _ _ c); [done|]. by rewrite Nat2Z.id.
  - rewrite tget_TFull, nth_lookup. destruct (cs !! Z.to_nat x) as [c'|] eqn:E; [|done].
    cbn. by rewrite (Ho _ _ E) by lia.
Qed.

(** The reduction keeps the content and restores the canonical form. *)
Lemma delete_reduce_ok prefix ns cs j0 c0 :
  length ns = length cs -> denotes_all ns cs -> length cs = 17%nat ->
  (forall i c, cs !! i = Some c -> wf_at (Z.of_nat i) c) -> cs !! j0 = Some c0 -> c0 <> TNil ->
  exists n' t', delete_reduce prefix ns = run (Ret (true, n')) /\ denotes n' t' /\ loaded n' /\ wft t' /\
    (forall k, hexkey k -> tget t' k = tget (TFull cs) k).
Proof.
  intros Hl Hd H17 Hw Hj0 Hc0. unfold delete_reduce.
  assert (forall j n, ns !! j = Some n -> exists c, cs !! j = Some c /\ denotes n c) as Hcs.
  { intros j n Hj. destruct (lookup_lt_is_Some_2 cs j) as [c Hc]; [|eauto].
    rewrite <- Hl. by eapply lookup_lt_Some. }
  assert (forall j n c, ns !! j = Some n -> cs !! j = Some c -> (n = nilNode <-> c = TNil)) as Hnil.
  { intros j n c Hn Hc. pose proof (Hd _ _ _ Hn Hc) as H. split; intros ->.
    - by apply denotes_nil. - by apply denotes_nil_inv. }
  destruct (lookup_lt_is_Some_2 ns j0) as [n0 Hn0]; [rewrite Hl; by eapply lookup_lt_Some|].
  destruct (delete_pos_spec ns 0) as [H|j n H1 H2 H3|j j' n n' H1 H2 H3 H4 H5]; [lia| | |]; cbv zeta.
  - rewrite Forall_lookup in H. destruct Hc0. eapply Hnil; [done..|]. symmetry. by eapply H.
  - rewrite Z.add_0_l, decide_True by lia. unfold child. rewrite (go_index_lookup _ _ _ H1). frun.
    destruct (Hcs _ _ H1) as (c & Hc & Hdc).
    assert (forall k, hexkey k -> tget (TFull cs) k = tget (TShort [Z.of_nat j] c) k) as Hg.
    { intros k. apply tget_only_child; [done|]. intros j' c' Hc' Hne.
      destruct (lookup_lt_is_Some_2 ns j') as [n' Hn']; [rewrite Hl; by eapply lookup_lt_Some|].
      eapply Hnil; [done..|]. eapply H3; done. }
    destruct (Hw _ _ Hc) as [->|[[Hx Hwc]|(E16 & v & Hv & ->)]].
    + destruct H2. by apply denotes_nil_inv.
    + rewrite decide_True by (unfold is_nibble in Hx; lia).
      destruct (denotes_resolve _ _ prefix Hdc Hwc) as (n' & Hr & Hln & Hdn). rewrite Hr. frun.
      exists (match n' with shortNode ckey cval _ => shortNode (Z.of_nat j :: ckey) cval newFlag
                       | _ => shortNode [Z.of_nat j] n newFlag end), (tjoin [Z.of_nat j] c).
      split_and!; [by destruct n'| |by destruct n'| |].
      * inversion Hdn; subst; try done; den.
      * apply wf_tjoin; [done| |done]. by constructor.
      * intros k Hk. rewrite tget_tjoin. symmetry. by apply Hg.
    + rewrite E16, decide_False by lia. frun. exists (shortNode [16] n newFlag), (TShort [16] (TValue v)).
      split_and!; [done|den|done|constructor; [by left|done]|].
      intros k Hk. rewrite Hg by done. by rewrite E16.
  - rewrite decide_False by lia. exists (fullNode ns newFlag), (TFull cs).
    destruct (Hcs _ _ H2) as (c & Hc & _). destruct (Hcs _ _ H3) as (c' & Hc' & _).
    split_and!; [done|den|done| |done].
    apply (wf_full_intro _ (Z.of_nat j) (Z.of_nat j') c c'); rewrite ?Nat2Z.id; try done; try lia.
    + intros ->. apply H4. by eapply Hnil. + intros ->. apply H5. by eapply Hnil.
Qed.

Lemma delete_full fuel prefix cs fl ns x k :
  wft (TFull cs) -> flag_ok fl (TFull cs) -> length ns = length cs -> denotes_all ns cs -> hexkey (x :: k) ->
  (forall nc c, denotes nc c -> cs !! Z.to_nat x = Some c -> wft c -> hexkey k ->
     del_ok (delete (S fuel) nc (prefix ++ [x]) k) c k) ->
  del_ok (delete (S (S fuel)) (fullNode ns fl) prefix (x :: k)) (TFull cs) (x :: k).
Proof.
  intros Hw Hfl Hl Hd Hk IH. pose proof (wf_full_length _ Hw) as Hl17.
  pose proof (hexkey_cons_range _ _ Hk) as Hx.
  destruct (child_ok ns cs x) as (nc & c & Hc & Hcs & Hdc & Hset); [done|unfold zlen; lia|done|].
  assert (wf_at x c) as Hwc by (rewrite <- (Z2Nat.id x) by lia; by eapply wf_full_at).
  destruct (del_at_child fuel nc c (prefix ++ [x]) x k) as (d & n' & t' & H1 & H2 & H3 & H4 & H5);
    [done..|eauto|].
  set (f := S fuel) in *. cbn [delete]. rewrite Hc. frun. rewrite H1. frun.
  assert (tget (TFull cs) (x :: k) = tget c k) as Hg by by apply tget_TFull_lookup.
  destruct d.
  - rewrite Hset. frun.
    inversion Hw as [| |? i j ci cj _ _ _ Hij Hi Hj Hci Hcj]; subst.
    assert (exists j' cj', j' <> Z.to_nat x /\ cs !! j' = Some cj' /\ cj' <> TNil) as (j' & cj' & Hj' & Hcj' & Hn).
    { destruct (decide (i = Z.to_nat x)) as [->|]; [exists j, cj|exists i, ci]; done. }
    destruct (delete_reduce_ok prefix (<[Z.to_nat x := n']> ns) (<[Z.to_nat x := t']> cs) j' cj')
      as (n'' & t'' & E & Hd'' & Hl'' & Hw'' & Hg''); try done.
    + by rewrite !length_insert.
    + by apply denotes_insert.
    + by rewrite length_insert.
    + apply wf_at_insert; [lia| |done]. intros ??. by apply wf_full_at.
    + by rewrite list_lookup_insert_ne.
    + rewrite E. exists true, n'', t''. split_and!; [done|done|by right| |by rewrite Hg|by right].
      intros [|y k'] Hk'; [done|]. pose proof (hexkey_cons_range _ _ Hk').
      rewrite Hg'', tget_TFull_insert by (done || unfold zlen; lia).
      destruct (decide (y = x)) as [->|E'].
      * rewrite H4 by done. rewrite (tget_TFull_lookup _ _ _ c) by done.
        repeat case_decide; naive_solver.
      * rewrite decide_False; [done|congruence].
  - apply del_unchanged; [by constructor|by right|]. rewrite Hg.
    symmetry in H5. apply bool_decide_eq_false in H5. by apply eq_None_not_Some.
Qed.

Definition del_loaded (t : tree) : Prop :=
  forall n fuel prefix k, loaded n -> denotes n t -> hexkey k -> (2 * length k <= fuel)%nat ->
    del_ok (delete fuel n prefix k) t k.

Definition del_any (t : tree) : Prop :=
  forall n fuel prefix k, denotes n t -> hexkey k -> (2 * length k + 1 <= fuel)%nat ->
    del_ok (delete fuel n prefix k) t k.

Lemma del_hash t : wft t -> del_loaded t -> del_any t.
Proof.
  intros Hw H n fuel prefix k Hd Hk Hf.
  destruct (denotes_loaded _ _ Hd Hw) as [Hl|(h & n' & -> & Hdb & Hl & Hd')]; [apply H; (done || lia)|].
  destruct fuel as [|fuel]; [lia|].
  destruct (H n' fuel prefix k) as (d & n2 & t' & E & H2 & H3 & H4 & H5 & H6); try done; [lia|].
  cbn [delete]. rewrite (resolveHash_ok _ n') by done. frun. rewrite E. frun.
  destruct d.
  - by exists true, n2, t'.
  - apply del_unchanged; [done|by right|].
    symmetry in H5. apply bool_decide_eq_false in H5. by apply eq_None_not_Some.
Qed.

(** Deleting below a short node whose key does not lead to the key deleted. *)
Lemma delete_mismatch fuel prefix k p a y b nv fl t :
  k = p ++ a -> match a with x :: _ => x <> y | _ => True end ->
  denotes (shortNode (p ++ y :: b) nv fl) (TShort (p ++ y :: b) t) -> wft (TShort (p ++ y :: b) t) ->
  del_ok (delete (S fuel) (shortNode (p ++ y :: b) nv fl) prefix k) (TShort (p ++ y :: b) t) k.
Proof.
  intros -> Hxy Hd Hw. cbn [delete]. rewrite prefixLen_app by (by destruct a).
  rewrite decide_True by (rewrite length_app; cbn; lia).
  apply del_unchanged; [done|by right|]. rewrite tget_short, strip_app, strip_refl.
  destruct a; [done|]. cbn [strip]. by rewrite decide_False.
Qed.

Lemma del_leaf sk v0 : hexkey sk -> v0 <> [] -> del_loaded (TShort sk (TValue v0)).
Proof.
  intros Hsk Hv0 n fuel prefix k Hl Hd Hk Hf.
  destruct (denotes_short_inv _ _ _ Hl Hd) as (nv & fl & -> & Hdv & Hfl).
  assert (1 <= length k)%nat by (destruct k; [done|cbn; lia]). destruct fuel as [|fuel]; [lia|].
  destruct (prefixLen_split k sk) as (p & a & b & Hka & Hskb & Hp & Hab).
  destruct b as [|y b].
  - rewrite app_nil_r in Hskb. subst p.
    assert (a = []) as -> by (apply (hexkey_app_nil sk); [done|congruence]). rewrite app_nil_r in Hka.
    subst sk. cbn [delete]. rewrite Hp, decide_False, decide_True by lia.
    exists true, nilNode, TNil.
    assert (forall k', tget (TShort k (TValue v0)) k' = if decide (k' = k) then Some v0 else None) as Hg.
    { intros k'. pose proof (tget_tcons_value k v0 k'). by destruct k. }
    split_and!; [done|constructor|by left| | |by left].
    + intros k' _. rewrite Hg. by destruct (decide (k' = k)).
    + rewrite Hg, decide_True by done. done.
  - subst sk. eapply delete_mismatch; [done| |done|by constructor]. by destruct a.
Qed.

Lemma del_ext sk cs :
  sk <> [] -> Forall is_nibble sk -> wft (TFull cs) -> del_any (TFull cs) -> del_loaded (TShort sk (TFull cs)).
Proof.
  intros Hsk0 Hsk Hw IH n fuel prefix k Hl Hd Hk Hf.
  destruct (denotes_short_inv _ _ _ Hl Hd) as (nv & fl & -> & Hdv & Hfl).
  assert (1 <= length k)%nat by (destruct k; [done|cbn; lia]). destruct fuel as [|fuel]; [lia|].
  destruct (prefixLen_split k sk) as (p & a & b & Hka & Hskb & Hp & Hab).
  destruct b as [|y b]; [|subst sk; eapply delete_mismatch; [done|by destruct a|done|by constructor]].
  rewrite app_nil_r in Hskb. subst p. cbn [delete]. rewrite Hka in *.
  pose proof (hexkey_drop _ _ Hsk Hk) as Ha.
  assert (1 <= length sk)%nat by (destruct sk; [done|cbn; lia]).
  assert (1 <= length a)%nat by (destruct a; [done|cbn; lia]). rewrite length_app in Hf.
  rewrite Hp, decide_False by lia. rewrite decide_False by (rewrite length_app; lia).
  rewrite take_app_length, drop_app_length.
  destruct (IH nv fuel (prefix ++ sk) a) as (d & n' & t' & E & H2 & H3 & H4 & H5 & H6); try done; [lia|].
  rewrite E. frun.
  assert (forall t a, tget (TShort sk t) (sk ++ a) = tget t a) as Hg by (intros; rewrite tget_short; by rewrite strip_refl).
  destruct d.
  - assert (t' <> TNil) as Hnn.
    { destruct (wf_full_two _ Hw) as (x & y & k1 & k2 & v1 & v2 & Hxy & Hk1 & Hk2 & Hv1 & Hv2). intros ->.
      pose proof (H4 _ Hk1) as G1. pose proof (H4 _ Hk2) as G2. rewrite Hv1 in G1. rewrite Hv2 in G2.
      destruct (decide (x :: k1 = a)), (decide (y :: k2 = a)); cbn in G1, G2; congruence. }
    destruct H3 as [->|Hw']; [done|]. destruct H6 as [->|Hln]; [done|done|].
    pose proof (denotes_tjoin sk _ _ Hln H2) as Hj.
    exists true, (match n' with shortNode ckey cval _ => shortNode (sk ++ ckey) cval newFlag
                           | _ => shortNode sk n' newFlag end), (tjoin sk t').
    split_and!; [by destruct n'|done|right; by apply wf_tjoin| |by rewrite Hg|right; by destruct n'].
    intros k' Hk'. rewrite tget_tjoin, !tget_short. destruct (strip sk k') as [r|] eqn:Er.
    + apply strip_Some in Er as ->. rewrite H4 by by apply (hexkey_drop sk).
      destruct (decide (r = a)) as [->|Hra]; [by rewrite decide_True|].
      rewrite decide_False; [done|]. by intros ?%app_inv_head.
    + by destruct (decide _).
  - apply del_unchanged; [by constructor|right; by constructor|]. rewrite Hg.
    symmetry in H5. apply bool_decide_eq_false in H5. by apply eq_None_not_Some.
Qed.

Lemma delete_ok t : wft t -> del_any t.
Proof.
  intros Hw. induction Hw as [k v Hk Hv|p cs Hp Hn Hw IH|cs i j ci cj Hl H1 IH H2 Hij Hi Hj Hci Hcj].
  - apply del_hash; [by constructor|]. by apply del_leaf.
  - apply del_hash; [by constructor|]. by apply del_ext.
  - assert (wft (TFull cs)) as Hw by by eapply wf_full.
    apply del_hash; [done|]. intros n fuel prefix k Hln Hd Hk Hf.
    destruct (denotes_full_inv _ _ Hln Hd) as (ns & fl & -> & Hl' & Hd' & Hfl).
    destruct k as [|x k]; [done|]. destruct fuel as [|[|fuel]]; [cbn in Hf; lia..|].
    apply delete_full; try done. intros nc c Hdc Hc Hwc Hk'.
    destruct (wf_full_at _ _ _ Hw Hc) as [->|[[Hx _]|(_ & v' & _ & ->)]]; [inversion Hwc| |inversion Hwc].
    eapply (IH (Z.to_nat x)); try done; [unfold is_nibble in Hx; lia|by apply wft_not_nil|cbn in Hf; lia].
Qed.

End Delete.

(** ** Lookup *)

Section Get.
Context {db : NodeDB} {hi : HashInv}.

Definition get_ok (r : fuelled MissingNodeError (option bytes * node * bool)) (t : tree) (k : bytes) : Prop :=
  exists n' d, r = run (Ret (tget t k, n', d)) /\ denotes n' t.

Definition get_loaded (t : tree) : Prop :=
  forall n fuel p k, loaded n -> denotes n t -> hexkey k -> (2 * length k <= fuel)%nat ->
    get_ok (tryGet fuel n (p ++ k) (zlen p)) t k.

Definition get_any (t : tree) : Prop :=
  forall n fuel p k, denotes n t -> hexkey k -> (2 * length k + 1 <= fuel)%nat ->
    get_ok (tryGet fuel n (p ++ k) (zlen p)) t k.

Lemma get_hash t : wft t -> get_loaded t -> get_any t.
Proof.
  intros Hw H n fuel p k Hd Hk Hf.
  destruct (denotes_loaded _ _ Hd Hw) as [Hl|(h & n' & -> & Hdb & Hl & Hd')]; [apply H; (done || lia)|].
  destruct fuel as [|fuel]; [lia|].
  destruct (H n' fuel p k) as (n2 & d & E & H2); try done; [lia|].
  cbn [tryGet]. rewrite go_to_app. frun. rewrite (resolveHash_ok _ n') by done. frun. rewrite E. frun.
  by exists n2, true.
Qed.

(** The test of [tryGet] at a short node. *)
Lemma short_match (p k Key : bytes) :
  (if decide (zlen (p ++ k) - zlen p < zlen Key) then Ret false
   else part ← go_slice (p ++ k) (zlen p) (zlen p + zlen Key);
        Ret (bool_decide (Key = part)))
  = Ret (E:=MissingNodeError) (bool_decide (is_Some (strip Key k))).
Proof.
  destruct (strip Key k) as [k'|] eqn:E.
  - apply strip_Some in E as ->. rewrite decide_False by zlen_lia.
    rewrite (go_slice_app p Key k'). cbn. by rewrite !bool_decide_true by eauto.
  - rewrite bool_decide_false by (by intros [? ?]).
    case_decide as Hl; [done|]. rewrite zlen_app in Hl.
    assert (exists k1 k2, k = k1 ++ k2 /\ zlen k1 = zlen Key) as (k1 & k2 & -> & Hk1).
    { exists (take (length Key) k), (drop (length Key) k). rewrite take_drop. split; [done|].
      unfold zlen in *. rewrite length_take. lia. }
    rewrite <- Hk1, go_slice_app. cbn. rewrite bool_decide_false; [done|]. intros ->.
    by rewrite strip_refl in E.
Qed.

Lemma tryGet_short fuel Key Val flags p k :
  tryGet (S fuel) (shortNode Key Val flags) (p ++ k) (zlen p) =
  match strip Key k with
  | Some k' =>
      '(value, newnode, didResolve) ← tryGet fuel Val ((p ++ Key) ++ k') (zlen (p ++ Key));
      run (Ret (value, if (didResolve : bool) then shortNode Key newnode flags else shortNode Key Val flags, didResolve))
  | None => run (Ret (None, shortNode Key Val flags, false))
  end.
Proof.
  cbn [tryGet]. rewrite short_match. frun. destruct (strip Key k) as [k'|] eqn:E.
  - rewrite bool_decide_true by eauto. apply strip_Some in E as ->. by rewrite zlen_app, <- app_assoc.
  - by rewrite bool_decide_false by (by intros [? ?]).
Qed.

Lemma get_short sk t :
  sk <> [] ->
  (forall n fuel p k, denotes n t -> hexkey (sk ++ k) -> (2 * length k + 1 <= fuel)%nat ->
     get_ok (tryGet fuel n (p ++ k) (zlen p)) t k) ->
  get_loaded (TShort sk t).
Proof.
  intros Hsk IH n fuel p k Hl Hd Hk Hf.
  destruct (denotes_short_inv _ _ _ Hl Hd) as (nv & fl & -> & Hdv & Hfl).
  destruct fuel as [|fuel]; [destruct k; [done|cbn in Hf; lia]|].
  rewrite tryGet_short. unfold get_ok. rewrite tget_short.
  destruct (strip sk k) as [k'|] eqn:E; [|by eexists _, false].
  apply strip_Some in E as ->. rewrite length_app in Hf.
  assert (1 <= length sk)%nat by (destruct sk; [done|cbn; lia]).
  destruct (IH nv fuel (p ++ sk) k') as (n' & d & -> & Hd'); [done..|lia|]. frun.
  eexists _, d. split; [done|]. destruct d; den.
Qed.

Lemma get_value v n fuel p :
  denotes n (TValue v) -> get_ok (tryGet (S fuel) n (p ++ []) (zlen p)) (TValue v) [].
Proof. intros ->%denotes_value_inv. exists (valueNode v), false. split; [done|constructor]. Qed.

Lemma get_nil n fuel p k :
  denotes n TNil -> get_ok (tryGet (S fuel) n (p ++ k) (zlen p)) TNil k.
Proof. intros ->%denotes_nil_inv. exists nilNode, false. split; [done|constructor]. Qed.

Lemma get_full fuel cs fl ns p x k :
  wft (TFull cs) -> flag_ok fl (TFull cs) -> length ns = length cs -> denotes_all ns cs -> hexkey (x :: k) ->
  (forall nc c, denotes nc c -> cs !! Z.to_nat x = Some c -> wft c -> hexkey k ->
     get_ok (tryGet (S fuel) nc ((p ++ [x]) ++ k) (zlen (p ++ [x]))) c k) ->
  get_ok (tryGet (S (S fuel)) (fullNode ns fl) (p ++ x :: k) (zlen p)) (TFull cs) (x :: k).
Proof.
  intros Hw Hfl Hl Hd Hk IH. pose proof (wf_full_length _ Hw) as Hl17.
  pose proof (hexkey_cons_range _ _ Hk) as Hx.
  destruct (child_ok ns cs x) as (nc & c & Hc & Hcs & Hdc & Hset); [done|unfold zlen; lia|done|].
  assert (wf_at x c) as Hwc by (rewrite <- (Z2Nat.id x) by lia; by eapply wf_full_at).
  assert (get_ok (tryGet (S fuel) nc ((p ++ [x]) ++ k) (zlen (p ++ [x]))) c k) as (n' & d & E & Hd').
  { destruct Hwc as [->|[[Hx' Hwc]|(-> & v & Hv & ->)]].
    - by apply get_nil.
    - apply IH; try done. destruct Hk as [[-> _]|[_ ?]]; [unfold is_nibble in Hx'; lia|done].
    - destruct Hk as [[_ ->]|[Hx' _]]; [|unfold is_nibble in Hx'; lia]. by apply get_value. }
  unfold get_ok. rewrite (tget_TFull_lookup _ _ _ c) by done.
  set (f := S fuel) in *. cbn [tryGet]. 
  rewrite (go_index_app1 p x k : go_index _ (zlen p) = Ret x). frun. rewrite Hc. frun.
  rewrite <- app_assoc, zlen_app in E. change (zlen p + zlen [x]) with (zlen p + 1) in E. cbn [app] in E.
  rewrite E. frun. destruct d; [rewrite Hset; frun|]; eexists _, _; (split; [done|]).
  - pose proof (list_insert_id cs (Z.to_nat x) c Hcs) as Ei. rewrite <- Ei.
    apply denotes_set_child; try done. by rewrite Ei.
  - by constructor.
Qed.

Lemma tryGet_ok t : wft t -> get_any t.
Proof.
  intros Hw. induction Hw as [sk v Hk Hv|q cs Hp Hn Hw IH|cs i j ci cj Hl H1 IH H2 Hij Hi Hj Hci Hcj].
  - apply get_hash; [by constructor|]. apply get_short; [by destruct sk|]. intros n fuel p k Hd Hk' Hf.
    destruct fuel; [lia|]. rewrite (hexkey_app_nil _ _ Hk Hk'). by apply get_value.
  - apply get_hash; [by constructor|]. apply get_short; [done|]. intros n fuel p k Hd Hk' Hf.
    apply IH; [done| |done]. by apply (hexkey_drop q).
  - assert (wft (TFull cs)) as Hw by by eapply wf_full.
    apply get_hash; [done|]. intros n fuel p k Hln Hd Hk Hf.
    destruct (denotes_full_inv _ _ Hln Hd) as (ns & fl & -> & Hl' & Hd' & Hfl).
    destruct k as [|x k]; [done|]. destruct fuel as [|[|fuel]]; [cbn in Hf; lia..|].
    apply get_full; try done. intros nc c Hdc Hc Hwc Hk'.
    destruct (wf_full_at _ _ _ Hw Hc) as [->|[[Hx _]|(_ & v' & _ & ->)]]; [inversion Hwc| |inversion Hwc].
    eapply (IH (Z.to_nat x)); try done; [unfold is_nibble in Hx; lia|by apply wft_not_nil|cbn in Hf; lia].
Qed.

End Get.
