(* ===== verification/TrieSpec.v ===== *)
(** * What the trie promises

    The entry points of the trie refine the operations of a finite map, and the
    tree behind a trie is determined by that map: it depends neither on the
    order of the updates, nor on what was deleted on the way, nor on which
    subtries are loaded.  Reading an incomplete database gives an error that
    names a node the database does not have, and changes nothing. *)

From stdpp Require Import gmap.
From S2P Require Import Prelude TrieEncoding Trie TrieProofs.

(** ** The canonical form is unique *)

Lemma wft_cases t :
  wft t ->
  (exists k v, t = TShort k (TValue v) /\ hexkey k) \/
  (exists p cs, t = tcons p (TFull cs) /\ Forall is_nibble p /\ wft (TFull cs)).
Proof.
  destruct 1 as [k v|k cs|cs i j ci cj]; [left; eauto|right|right].
  - exists k, cs. by destruct k.
  - exists [], cs. split_and!; [done|constructor|]. by eapply wf_full.
Qed.

Lemma tget_leaf k v k' : hexkey k -> tget (TShort k (TValue v)) k' = if decide (k' = k) then Some v else None.
Proof. intros Hk. rewrite <- tget_tcons_value. by destruct k. Qed.

(** A branch holds two keys that part right after its prefix, and only keys
    with that prefix. *)
Lemma branch_keys p cs :
  Forall is_nibble p -> wft (TFull cs) ->
  exists x y k k' v v', x <> y /\ hexkey (p ++ x :: k) /\ hexkey (p ++ y :: k') /\
    tget (tcons p (TFull cs)) (p ++ x :: k) = Some v /\ tget (tcons p (TFull cs)) (p ++ y :: k') = Some v'.
Proof.
  intros Hp Hw. destruct (wf_full_two _ Hw) as (x & y & k & k' & v & v' & Hxy & Hk & Hk' & Hv & Hv').
  exists x, y, k, k', v, v'. rewrite !tget_tcons, !strip_refl. auto using hexkey_nibble_app.
Qed.

Lemma prefix_bound {A} (p q : list A) x y k k' r r' :
  x <> y -> p ++ x :: k = q ++ r -> p ++ y :: k' = q ++ r' -> (length q <= length p)%nat.
Proof.
  intros Hxy. revert q. induction p as [|a p IH]; intros [|z q]; cbn; intros; simplify_eq; [lia..|].
  apply le_n_S. eauto.
Qed.

Lemma branch_bound p cs q ds :
  Forall is_nibble p -> wft (TFull cs) ->
  (forall k, hexkey k -> tget (tcons p (TFull cs)) k = tget (tcons q (TFull ds)) k) ->
  (length q <= length p)%nat /\ (length p = length q -> p = q).
Proof.
  intros Hp Hw He. destruct (branch_keys p cs Hp Hw) as (x & y & k & k' & v & v' & Hxy & Hk & Hk' & Hv & Hv').
  rewrite He, tget_tcons in Hv by done. rewrite He, tget_tcons in Hv' by done.
  destruct (strip q (p ++ x :: k)) as [r|] eqn:Er; [|done].
  destruct (strip q (p ++ y :: k')) as [r'|] eqn:Er'; [|done]. apply strip_Some in Er, Er'. split.
  - by eapply prefix_bound.
  - intros Hl. by apply app_inj_1 in Er as [-> _].
Qed.

Lemma branch_prefix p cs q ds :
  Forall is_nibble p -> Forall is_nibble q -> wft (TFull cs) -> wft (TFull ds) ->
  (forall k, hexkey k -> tget (tcons p (TFull cs)) k = tget (tcons q (TFull ds)) k) ->
  p = q /\ (forall k, hexkey k -> tget (TFull cs) k = tget (TFull ds) k).
Proof.
  intros Hp Hq Hc Hd He.
  destruct (branch_bound p cs q ds) as [H1 H2]; [done..|].
  destruct (branch_bound q ds p cs) as [H3 _]; [done..|by intros; rewrite He|].
  assert (p = q) as -> by (apply H2; lia). split; [done|]. intros k Hk.
  specialize (He (q ++ k)). rewrite !tget_tcons, !strip_refl in He. auto using hexkey_nibble_app.
Qed.

Lemma leaf_not_branch k v p cs :
  hexkey k -> Forall is_nibble p -> wft (TFull cs) ->
  ~ (forall k', hexkey k' -> tget (TShort k (TValue v)) k' = tget (tcons p (TFull cs)) k').
Proof.
  intros Hk Hp Hw He. destruct (branch_keys p cs Hp Hw) as (x & y & k1 & k2 & v1 & v2 & Hxy & Hk1 & Hk2 & Hv1 & Hv2).
  rewrite <- He, tget_leaf in Hv1, Hv2 by done.
  destruct (decide (p ++ x :: k1 = k)) as [<-|], (decide (p ++ y :: k2 = p ++ x :: k1)) as [E|]; try done.
  apply app_inv_head in E. congruence.
Qed.

(** Two children at the same index with the same content. *)
Lemma child_ext x c d :
  wf_at x c -> wf_at x d ->
  (forall k, hexkey (x :: k) -> tget c k = tget d k) ->
  (wft c -> wft d -> (forall k, hexkey k -> tget c k = tget d k) -> c = d) -> c = d.
Proof.
  intros Hc Hd He IH.
  assert (forall c d, wf_at x d -> (forall k, hexkey (x :: k) -> tget c k = tget d k) -> c = TNil -> d = TNil) as Hnil.
  { intros c' d' Hd' He' ->. assert (d' = TNil \/ d' <> TNil) as [?|Hdn] by (destruct d'; auto); [done|].
    destruct (wf_at_inhabited x d' (wft_inhabited d') Hd' Hdn) as (k & v & Hk & Hv). by rewrite <- He' in Hv. }
  assert (c = TNil \/ c <> TNil) as [Hcn|Hcn] by (destruct c; auto).
  { rewrite (Hnil c d); done. }
  assert (d <> TNil) as Hdn.
  { intros Hdn. apply Hcn. apply (Hnil d c); [done| |done]. intros. by rewrite He. }
  destruct Hc as [?|[[Hx Hc]|(-> & v & _ & ->)]], Hd as [?|[[Hx' Hd]|(Hx' & v' & _ & ->)]]; try done.
  - apply IH; [done..|]. intros k Hk. apply He. cbn. auto.
  - unfold is_nibble in Hx. lia.
  - unfold is_nibble in Hx'. lia.
  - assert (Some v = Some v') as [= <-] by (apply (He []); by left). done.
Qed.

Lemma tree_ext t1 :
  wft t1 -> forall t2, wft t2 -> (forall k, hexkey k -> tget t1 k = tget t2 k) -> t1 = t2.
Proof.
  induction 1 as [k v Hk Hv|p cs Hp Hn Hw IH|cs i j ci cj Hl H1 IH H2 Hij Hi Hj Hci Hcj];
    intros t2 Hw2 He; destruct (wft_cases _ Hw2) as [(k2 & v2 & -> & Hk2)|(q & ds & -> & Hq & Hds)].
  - pose proof (He k Hk) as Hk1. rewrite !tget_leaf, decide_True in Hk1 by done.
    destruct (decide (k = k2)) as [<-|]; [congruence|done].
  - by destruct (leaf_not_branch k v q ds Hk Hq Hds).
  - destruct (leaf_not_branch k2 v2 p cs); [done..|]. intros. rewrite <- He by done. by destruct p.
  - assert (TShort p (TFull cs) = tcons p (TFull cs)) as Ep by (by destruct p).
    destruct (branch_prefix p cs q ds) as [-> He']; try done; [intros; by rewrite <- Ep, He|].
    by rewrite Ep, (IH (TFull ds)).
  - assert (wft (TFull cs)) as Hw by by eapply wf_full.
    destruct (leaf_not_branch k2 v2 [] cs); [done|constructor|done|]. intros. by rewrite <- He.
  - assert (wft (TFull cs)) as Hw by by eapply wf_full.
    destruct (branch_prefix [] cs q ds) as [<- He']; try done. cbn [tcons]. f_equal.
    apply list_eq_same_length with 17%nat; [by apply wf_full_length|done|].
    intros n c d Hlt Hc Hd. pose proof (wf_full_at _ _ _ Hw Hc) as Hwc. pose proof (wf_full_at _ _ _ Hds Hd) as Hwd.
    apply (child_ext (Z.of_nat n)); [done..| |].
    + intros k Hk. specialize (He' _ Hk).
      by rewrite (tget_TFull_lookup cs _ _ c), (tget_TFull_lookup ds _ _ d) in He' by by rewrite Nat2Z.id.
    + intros Hc1 Hd1 Hg. destruct (decide (n = 16)%nat) as [->|].
      * destruct (H2 _ Hc) as (v & _ & ->); [by apply wft_not_nil|inversion Hc1].
      * apply (IH n); [lia|done|by apply wft_not_nil|done|done].
Qed.

(** ** Refinement of the finite map *)

Lemma keybytesToHex_inj k k' :
  bytes_ok k -> bytes_ok k' -> keybytesToHex k = keybytesToHex k' -> k = k'.
Proof.
  intros Hk Hk' H%app_inv_tail.
  pose proof (decodeNibbles_nibbles k Hk) as E. pose proof (decodeNibbles_nibbles k' Hk') as E'.
  rewrite H, E' in E. congruence.
Qed.

Lemma represents_lookup {db : NodeDB} {hi : HashInv} n t m key :
  represents n t m -> bytes_ok key -> tget t (keybytesToHex key) = m !! key.
Proof.
  intros (_ & _ & H) Hk. apply option_eq. intros v. rewrite H by by apply hexkey_keybytes. split.
  - intros (key' & Hk' & E & Hm). by rewrite (keybytesToHex_inj key key').
  - intros Hm. by exists key.
Qed.

(** The content of the trie after a change at one key. *)
Lemma represents_change {db : NodeDB} {hi : HashInv} n t m n' t' m' key :
  represents n t m -> bytes_ok key -> denotes n' t' -> wf_root t' ->
  (forall k, hexkey k -> k <> keybytesToHex key -> tget t' k = tget t k) ->
  tget t' (keybytesToHex key) = m' !! key ->
  (forall key', key' <> key -> m' !! key' = m !! key') ->
  represents n' t' m'.
Proof.
  intros (Hd & Hw & H) Hkey Hd' Hw' Hoth Hkv Hm'. split_and!; [done..|].
  intros k v Hk. destruct (decide (k = keybytesToHex key)) as [->|Hne].
  - rewrite Hkv. split.
    + intros Hv. by exists key.
    + intros (key' & Hk' & E & Hv). by rewrite (keybytesToHex_inj key key').
  - rewrite Hoth, H by done. split; intros (key' & Hk' & -> & Hv); exists key'; (split_and!; [done..|]).
    + rewrite Hm'; [done|congruence].
    + rewrite Hm' in Hv; [done|congruence].
Qed.

Lemma represents_empty {db : NodeDB} {hi : HashInv} : represents nilNode TNil ∅.
Proof.
  split_and!; [constructor|by left|]. intros k v Hk. split; [done|].
  intros (? & _ & _ & H). by rewrite lookup_empty in H.
Qed.

Lemma trie_fuel_enough k : (2 * length k + 1 <= trie_fuel k)%nat.
Proof. unfold trie_fuel. lia. Qed.

#[local] Hint Resolve trie_fuel_enough : go.

(** The empty tree, which is not covered by [wft]. *)
Lemma insert_root {db : NodeDB} {hi : HashInv} fuel n t k v :
  denotes n t -> wf_root t -> hexkey k -> v <> [] -> (2 * length k + 1 <= fuel)%nat ->
  exists d n' t', insert fuel n [] k (valueNode v) = run (Ret (d, n')) /\ denotes n' t' /\ wft t' /\
    (forall k', hexkey k' -> tget t' k' = if decide (k' = k) then Some v else tget t k').
Proof.
  intros Hd [->|Hw] Hk Hv Hf.
  - destruct fuel as [|fuel]; [lia|]. apply denotes_nil_inv in Hd as ->. exists true, (ncons k (valueNode v)), (tcons k (TValue v)).
    split_and!; [|apply denotes_ncons; constructor|destruct k; [done|by constructor]|].
    + apply insert_nil.
    + intros k' _. apply tget_tcons_value.
  - destruct (insert_ok t Hw n fuel [] k v) as (d & n' & t' & H1 & H2 & H3 & H4 & _);
      [done..|]. by exists d, n', t'.
Qed.

Lemma delete_root {db : NodeDB} {hi : HashInv} fuel n t k :
  denotes n t -> wf_root t -> hexkey k -> (2 * length k + 1 <= fuel)%nat ->
  exists d n' t', delete fuel n [] k = run (Ret (d, n')) /\ denotes n' t' /\ wf_root t' /\
    (forall k', hexkey k' -> tget t' k' = if decide (k' = k) then None else tget t k').
Proof.
  intros Hd [->|Hw] Hk Hf.
  - destruct fuel as [|fuel]; [lia|]. apply denotes_nil_inv in Hd as ->. exists false, nilNode, TNil.
    split_and!; [done|constructor|by left|intros; by destruct (decide _)].
  - destruct (delete_ok t Hw n fuel [] k) as (d & n' & t' & H1 & H2 & H3 & H4 & _);
      [done..|]. by exists d, n', t'.
Qed.

Lemma delete_represents {db : NodeDB} {hi : HashInv} fuel n t m key :
  represents n t m -> bytes_ok key -> (2 * length (keybytesToHex key) + 1 <= fuel)%nat ->
  exists d n' t', delete fuel n [] (keybytesToHex key) = run (Ret (d, n')) /\
    represents n' t' (base.delete key m).
Proof.
  intros Hr Hkey Hf. pose proof Hr as (Hd & Hw & _).
  destruct (delete_root fuel n t (keybytesToHex key)) as (d & n' & t' & E & H2 & H3 & H4);
    [done..|by apply hexkey_keybytes|done|].
  exists d, n', t'. split; [done|]. apply (represents_change n t m n' t' _ key); try done.
  - intros k Hk Hne. rewrite H4 by done. by rewrite decide_False.
  - rewrite H4 by by apply hexkey_keybytes. by rewrite decide_True, lookup_delete_eq by done.
  - intros key' Hne. by rewrite lookup_delete_ne.
Qed.

Lemma insert_represents {db : NodeDB} {hi : HashInv} fuel n t m key v :
  represents n t m -> bytes_ok key -> v <> [] -> (2 * length (keybytesToHex key) + 1 <= fuel)%nat ->
  exists d n' t', insert fuel n [] (keybytesToHex key) (valueNode v) = run (Ret (d, n')) /\
    represents n' t' (<[key := v]> m).
Proof.
  intros Hr Hkey Hv Hf. pose proof Hr as (Hd & Hw & _).
  destruct (insert_root fuel n t (keybytesToHex key) v) as (d & n' & t' & E & H2 & H3 & H4);
    [done..|by apply hexkey_keybytes|done|done|].
  exists d, n', t'. split; [done|]. apply (represents_change n t m n' t' _ key); try done.
  - by right.
  - intros k Hk Hne. rewrite H4 by done. by rewrite decide_False.
  - rewrite H4 by by apply hexkey_keybytes. by rewrite decide_True, lookup_insert_eq by done.
  - intros key' Hne. by rewrite lookup_insert_ne.
Qed.

(** The map operation that an update stands for. *)
Definition map_update (key value : bytes) (m : gmap bytes bytes) : gmap bytes bytes :=
  match value with [] => base.delete key m | _ => <[key := value]> m end.

Lemma TryUpdate_ok {db : NodeDB} {hi : HashInv} T t m key value :
  represents (root T) t m -> bytes_ok key ->
  exists n' t', TryUpdate T key value = Some (Ret tt, mk_Trie n' (unhashed T + 1)) /\
    represents n' t' (map_update key value m).
Proof.
  intros Hr Hk. unfold TryUpdate. cbv zeta. cbn [root unhashed]. destruct value as [|b value].
  - destruct (delete_represents _ _ _ _ _ Hr Hk (trie_fuel_enough _)) as (d & n' & t' & E & H). rewrite decide_False by (intros Hz; by apply Hz).
    rewrite E. by exists n', t'.
  - destruct (insert_represents (trie_fuel (keybytesToHex key)) _ _ _ key (b :: value) Hr Hk) as (d & n' & t' & E & H);
      [done|apply trie_fuel_enough|].
    rewrite decide_True by zlen_lia. rewrite E. by exists n', t'.
Qed.

Lemma get_represents {db : NodeDB} {hi : HashInv} fuel n t m key :
  represents n t m -> bytes_ok key -> (2 * length (keybytesToHex key) + 1 <= fuel)%nat ->
  exists n' d, tryGet fuel n (keybytesToHex key) 0 = run (Ret (m !! key, n', d)) /\ represents n' t m.
Proof.
  intros Hr Hk Hf. rewrite <- (represents_lookup _ _ _ _ Hr Hk). destruct Hr as (Hd & Hw & Hm).
  assert (get_ok (tryGet fuel n (keybytesToHex key) 0) t (keybytesToHex key)) as (n' & d & E & Hd').
  { destruct Hw as [->|Hw].
    - destruct fuel; [lia|]. by apply (get_nil _ _ []).
    - apply (tryGet_ok t Hw _ _ []); [done|by apply hexkey_keybytes|done]. }
  by exists n', d.
Qed.

(** lookup refines the map.  On a trie that represents the map [m], and
    whatever part of it is loaded, [TryGet] returns [m !! key], the trie still
    represents [m], and the fuel of the lookup suffices. *)
Theorem TryGet_refines {db : NodeDB} {hi : HashInv} T t m key :
  represents (root T) t m -> bytes_ok key ->
  exists T', TryGet T key = Some (Ret (m !! key), T') /\
    represents (root T') t m /\ unhashed T' = unhashed T.
Proof.
  intros Hr Hk. unfold TryGet. cbv zeta.
  destruct (get_represents _ _ _ _ _ Hr Hk (trie_fuel_enough _)) as (n' & d & -> & Hr').
  cbn [run]. destruct d; (eexists; split; [done|]; split; done).
Qed.

(** C11: updating refines the map.  [TryUpdate] succeeds on every trie that
    represents a map, and leaves a trie that represents the map with the key
    bound to the value, or without the key when the value is empty. *)
Theorem TryUpdate_refines {db : NodeDB} {hi : HashInv} T t m key value :
  represents (root T) t m -> bytes_ok key ->
  exists T' t', TryUpdate T key value = Some (Ret tt, T') /\
    represents (root T') t' (map_update key value m) /\ unhashed T' = unhashed T + 1.
Proof.
  intros Hr Hk. destruct (TryUpdate_ok T t m key value Hr Hk) as (n' & t' & E & H).
  eexists _, t'. by split; [exact E|].
Qed.

(** C12: deletion refines the map, whether or not the key was present. *)
Theorem TryDelete_refines {db : NodeDB} {hi : HashInv} T t m key :
  represents (root T) t m -> bytes_ok key ->
  exists T' t', TryDelete T key = Some (Ret tt, T') /\
    represents (root T') t' (base.delete key m) /\ unhashed T' = unhashed T + 1.
Proof.
  intros Hr Hk. unfold TryDelete. cbv zeta. cbn [root].
  destruct (delete_represents _ _ _ _ _ Hr Hk (trie_fuel_enough _)) as (d & n' & t' & -> & H).
  eexists _, t'. by split.
Qed.

(** ** History independence *)

(** A sequence of updates, and the map it leaves. *)
Fixpoint updates {db : NodeDB} (T : Trie) (ops : list (bytes * bytes)) : option (outcome MissingNodeError unit * Trie) :=
  match ops with
  | [] => Some (Ret tt, T)
  | (key, value) :: ops =>
      match TryUpdate T key value with
      | Some (Ret _, T) => updates T ops
      | r => r
      end
  end.

Definition map_updates (m : gmap bytes bytes) (ops : list (bytes * bytes)) : gmap bytes bytes :=
  fold_left (fun m op => map_update op.1 op.2 m) ops m.

Lemma updates_represents {db : NodeDB} {hi : HashInv} ops T t m :
  represents (root T) t m -> Forall (fun op => bytes_ok op.1) ops ->
  exists T' t', updates T ops = Some (Ret tt, T') /\ represents (root T') t' (map_updates m ops).
Proof.
  intros Hr Ho. revert T t m Hr. induction Ho as [|[key value] ops Hk _ IH]; intros T t m Hr.
  - by exists T, t.
  - cbn [updates map_updates fold_left fst snd].
    destruct (TryUpdate_ok T t m key value Hr Hk) as (n' & t' & -> & H). by eapply IH.
Qed.

Lemma represents_tree {db1 db2 : NodeDB} {hi1 hi2 : HashInv} n1 n2 t1 t2 m :
  represents (db:=db1) (hi:=hi1) n1 t1 m -> represents (db:=db2) (hi:=hi2) n2 t2 m -> t1 = t2.
Proof.
  intros (_ & W1 & H1) (_ & W2 & H2).
  assert (forall k, hexkey k -> tget t1 k = tget t2 k) as He.
  { intros k Hk. apply option_eq. intros v. by rewrite H1, H2. }
  destruct W1 as [->|W1], W2 as [->|W2]; [done| | |by apply tree_ext].
  - destruct (wft_inhabited _ W2) as (k & v & Hk & Hv). by rewrite <- He in Hv.
  - destruct (wft_inhabited _ W1) as (k & v & Hk & Hv). by rewrite He in Hv.
Qed.

(** The trie does not depend on its history.  Two sequences of updates and
    deletions, applied to two tries of the same map over any databases,
    succeed, and when they leave the same map, the two results denote the same
    tree, node for node. *)
Theorem updates_canonical {db1 db2 : NodeDB} {hi1 hi2 : HashInv} T1 T2 t1 t2 m1 m2 ops1 ops2 :
  represents (db:=db1) (hi:=hi1) (root T1) t1 m1 -> represents (db:=db2) (hi:=hi2) (root T2) t2 m2 ->
  Forall (fun op => bytes_ok op.1) ops1 -> Forall (fun op => bytes_ok op.1) ops2 ->
  map_updates m1 ops1 = map_updates m2 ops2 ->
  exists T1' T2' t, updates (db:=db1) T1 ops1 = Some (Ret tt, T1') /\
    updates (db:=db2) T2 ops2 = Some (Ret tt, T2') /\
    denotes (db:=db1) (hi:=hi1) (root T1') t /\ denotes (db:=db2) (hi:=hi2) (root T2') t /\ wf_root t.
Proof.
  intros R1 R2 O1 O2 Hm.
  destruct (updates_represents (hi:=hi1) ops1 T1 t1 m1 R1 O1) as (T1' & t1' & E1 & R1').
  destruct (updates_represents (hi:=hi2) ops2 T2 t2 m2 R2 O2) as (T2' & t2' & E2 & R2').
  rewrite <- Hm in R2'. assert (t2' = t1') as -> by by eapply (represents_tree (db1:=db2) (db2:=db1) (hi1:=hi2) (hi2:=hi1)).
  exists T1', T2', t1'. destruct R1' as (? & ? & _), R2' as (? & _ & _). done.
Qed.

(** ** Missing nodes *)

Section Missing.
Context {db : NodeDB}.

(** The error names a node that the database does not have, on the way to the
    key. *)
Definition missing (key : bytes) (e : MissingNodeError) : Prop :=
  db_node (NodeHash e) = None /\ Path e `prefix_of` key.

Lemma resolveHash_missing n prefix key e :
  resolveHash n prefix = Err e -> prefix `prefix_of` key -> missing key e.
Proof. unfold resolveHash. destruct (db_node _) eqn:E; [done|]. intros [= <-]. done. Qed.

Lemma go_slice_prefix {E} (k p : bytes) pos : go_to (E:=E) k pos = Ret p -> p `prefix_of` k.
Proof.
  unfold go_to, go_slice. case_decide; [|done]. rewrite drop_0. intros [= <-].
  exists (drop (Z.to_nat (pos - 0)) k). by rewrite take_drop.
Qed.

Lemma bind_Err {A B} (m : fuelled MissingNodeError A) (f : A -> fuelled MissingNodeError B) e :
  m ≫= f = run (Err e) -> m = run (Err e) \/ exists a, m = run (Ret a) /\ f a = run (Err e).
Proof. destruct m as [[a|e'|]|]; cbn; unfold run; naive_solver. Qed.

Lemma go_index_Err {A} (l : list A) i e : run (go_index l i) <> run (Err (E:=MissingNodeError) e).
Proof. unfold go_index. case_decide; [|done]. by destruct (l !! _). Qed.

Lemma go_slice_Err {A} (l : list A) i j e : run (go_slice l i j) <> run (Err (E:=MissingNodeError) e).
Proof. unfold go_slice. by case_decide. Qed.

Lemma short_test_Err (key : bytes) pos (Key : bytes) e :
  run (if decide (zlen key - pos < zlen Key) then Ret false
       else part ← go_slice key pos (pos + zlen Key); Ret (bool_decide (Key = part)))
  <> run (Err (E:=MissingNodeError) e).
Proof. case_decide; [done|]. unfold go_slice. by case_decide. Qed.

Lemma set_child_Err ns i n e : run (set_child ns i n) <> run (Err e).
Proof. unfold set_child. by case_decide. Qed.

(** Follow an error through the binds of a computation to the call it is from. *)
Ltac err_inv H :=
  repeat match type of H with
  | (_ ≫= _) = run (Err _) =>
      let a := fresh "a" in let Ha := fresh "Ha" in
      apply bind_Err in H as [H|(a & Ha & H)]; [|try destruct a as [[? ?] ?] || destruct a as [? ?] || idtac]
  | run (go_index _ _) = run (Err _) => by destruct (go_index_Err _ _ _ H)
  | run (child _ _) = run (Err _) => by destruct (go_index_Err _ _ _ H)
  | run (set_child _ _ _) = run (Err _) => by destruct (set_child_Err _ _ _ _ H)
  | run (Ret _) = run (Err _) => discriminate H
  | run Panic = run (Err _) => discriminate H
  | out_of_fuel = run (Err _) => discriminate H
  | (if ?b then _ else _) = run (Err _) => destruct b
  end.

Lemma tryGet_missing fuel n key pos e : tryGet fuel n key pos = run (Err e) -> missing key e.
Proof.
  revert n pos. induction fuel as [|fuel IH]; intros n pos H; [done|].
  destruct n as [|cs fl|Key Val fl|h|v]; cbn [tryGet] in H; err_inv H; try by eapply IH.
  - by destruct (short_test_Err key pos Key e).
  - by destruct (go_slice_Err key 0 pos e).
  - injection H as H. eapply resolveHash_missing; [done|]. injection Ha as Ha. by eapply go_slice_prefix.
Qed.

Lemma insert_nil_Err fuel prefix k n e : insert fuel nilNode prefix k n <> run (Err e).
Proof. destruct fuel; [done|]. by rewrite insert_nil. Qed.

Lemma app_take_drop_prefix (prefix key : bytes) m :
  (prefix ++ take m key) ++ drop m key = prefix ++ key.
Proof. by rewrite <- app_assoc, take_drop. Qed.

Lemma insert_missing fuel n prefix key v e :
  insert fuel n prefix key v = run (Err e) -> missing (prefix ++ key) e.
Proof.
  revert n prefix key. induction fuel as [|fuel IH]; intros n prefix key H; [done|].
  destruct key as [|x key]; cbn [insert] in H; [destruct n; try done; by destruct v|].
  destruct n as [|cs fl|Key Val fl|h|v']; cbv zeta in H; err_inv H; try by destruct (insert_nil_Err _ _ _ _ _ H).
  - rewrite cons_middle, app_assoc. by eapply IH.
  - rewrite <- (app_take_drop_prefix _ _ (prefixLen (x :: key) Key)). by eapply IH.
  - injection H as H. eapply resolveHash_missing; [done|]. by apply prefix_app_r.
  - by eapply IH.
Qed.

Lemma resolve_missing n prefix key e :
  resolve n prefix = Err e -> prefix `prefix_of` key -> missing key e.
Proof. destruct n; try done. apply resolveHash_missing. Qed.

Lemma delete_reduce_missing prefix key cs e :
  delete_reduce prefix cs = run (Err e) -> prefix `prefix_of` key -> missing key e.
Proof.
  unfold delete_reduce. cbv zeta. intros H Hp. err_inv H.
  - case_decide; [|done]. destruct (resolve _ prefix) eqn:E; try done. injection H as ->.
    by eapply resolve_missing.
  - by destruct a0 as [[]|].
Qed.

Lemma delete_missing fuel n prefix key e :
  delete fuel n prefix key = run (Err e) -> missing (prefix ++ key) e.
Proof.
  revert n prefix key. induction fuel as [|fuel IH]; intros n prefix key H; [done|].
  destruct n as [|cs fl|Key Val fl|h|v']; cbn [delete] in H; cbv zeta in H.
  - done.
  - destruct key as [|x key]; [done|]. err_inv H.
    + rewrite cons_middle, app_assoc. by eapply IH.
    + eapply delete_reduce_missing; [done|]. by apply prefix_app_r.
  - err_inv H.
    + rewrite <- (app_take_drop_prefix _ _ (length Key)). by eapply IH.
    + by repeat case_match.
  - err_inv H; [|by eapply IH].
    injection H as H. eapply resolveHash_missing; [done|]. by apply prefix_app_r.
  - done.
Qed.

(** a node missing from the database is reported and nothing is lost.
    When [TryGet], [TryUpdate] or [TryDelete] returns an error, the hash it
    names is not in the database, its path is a prefix of the key, and the root
    is unchanged. *)
Theorem missing_node_safe (T T' : Trie) (key value : bytes) (e : MissingNodeError) :
  (exists r, TryGet T key = Some (r, T') /\ r = Err e) \/
  TryUpdate T key value = Some (Err e, T') \/ TryDelete T key = Some (Err e, T') ->
  missing (keybytesToHex key) e /\ root T' = root T.
Proof.
  assert (forall T0 r, install T0 r = Some (Err e, T') -> r = run (Err e) /\ root T' = root T0) as Hi.
  { intros T0 [[[d n]|e'|]|]; cbn; intros; by simplify_eq. }
  intros [(r & H & ->)|[H|H]].
  - unfold TryGet in H. cbv zeta in H. destruct (tryGet _ _ _ _) as [[[[v n] d]|e'|]|] eqn:E; simplify_eq.
    split; [|done]. by eapply tryGet_missing.
  - unfold TryUpdate in H. cbv zeta in H. case_decide; apply Hi in H as [H Hr]; (split; [|done]).
    + by apply (insert_missing _ _ [] _ _ _ H).
    + by apply (delete_missing _ _ [] _ _ H).
  - unfold TryDelete in H. cbv zeta in H. apply Hi in H as [H Hr]. split; [|done].
    by apply (delete_missing _ _ [] _ _ H).
Qed.

End Missing.

(** ** The path of a missing node *)

Section MissingPath.
Context {db : NodeDB}.

(** From the node [n] the key [k] leads along the path [p] to the node [m],
    where the key [r] is left. *)
Inductive leads : node -> bytes -> bytes -> node -> bytes -> Prop :=
| leads_here n k : leads n k [] n k
| leads_full cs fl x c k p m r :
    0 <= x -> cs !! Z.to_nat x = Some c -> leads c k p m r ->
    leads (fullNode cs fl) (x :: k) (x :: p) m r
| leads_short Key Val fl k p m r :
    Key <> [] -> leads Val k p m r -> leads (shortNode Key Val fl) (Key ++ k) (Key ++ p) m r
| leads_hash h n k p m r :
    db_node (BytesToHash h) = Some n -> loaded n -> leads n k p m r -> leads (hashNode h) k p m r.

(** The node holds the key [k] and nothing else. *)
Inductive only_key : node -> bytes -> Prop :=
| only_value v : only_key (valueNode v) []
| only_short k v fl : k <> [] -> only_key (shortNode k (valueNode v) fl) k
| only_hash h n k :
    db_node (BytesToHash h) = Some n -> loaded n -> only_key n k -> only_key (hashNode h) k.

(** The calls that [delete] makes on a node before it is past it. *)
Definition visits (n : node) : nat := match n with hashNode _ => 2 | _ => 1 end.

Lemma visits_loaded n : loaded n -> visits n = 1%nat.
Proof. by destruct n. Qed.

Lemma visits_le n : (1 <= visits n <= 2)%nat.
Proof. destruct n; cbn; lia. Qed.

Lemma delete_only_key n k : only_key n k -> forall fuel prefix, (visits n <= fuel)%nat ->
  delete fuel n prefix k = run (Ret (true, nilNode)).
Proof.
  induction 1 as [v|k v fl Hk|h n k Hdb Hl H IH]; intros [|fuel] prefix Hf;
    try (cbn in Hf; lia).
  - done.
  - cbn [delete]. pose proof (prefixLen_app k [] [] I) as E. rewrite app_nil_r in E.
    cbv zeta. by rewrite E, decide_False, decide_True by lia.
  - cbn [delete]. unfold resolveHash. rewrite Hdb. cbn [mbind fuelled_bind run].
    rewrite IH by (rewrite visits_loaded by done; cbn in Hf; lia). done.
Qed.

Lemma leads_length n k p m r : leads n k p m r -> (length r <= length k)%nat.
Proof. induction 1; rewrite ?length_app; cbn; lia. Qed.

(** An error below the node that the key leads to is the error of the whole
    deletion. *)
Lemma delete_leads n k p m r e : leads n k p m r -> r <> [] -> forall prefix,
  (forall fuel, (2 * length r + visits m <= fuel)%nat -> delete fuel m (prefix ++ p) r = run (Err e)) ->
  forall fuel, (2 * length k + visits n <= fuel)%nat -> delete fuel n prefix k = run (Err e).
Proof.
  intros H Hr. induction H as [n k|cs fl x c k p m r Hx Hc H IH|Key Val fl k p m r HK H IH|h n k p m r Hdb Hl H IH];
    intros prefix Hm fuel Hf; [apply Hm in Hf; by rewrite app_nil_r in Hf|..];
    destruct fuel as [|fuel]; try (cbn in Hf; lia); cbn [delete].
  - unfold child, go_index. rewrite decide_True by (apply lookup_lt_Some in Hc; unfold zlen; lia).
    rewrite Hc. cbn [mbind fuelled_bind run]. pose proof (visits_le c).
    rewrite IH; [done|done| |cbn in Hf; lia]. intros f. rewrite <- app_assoc. apply Hm.
  - pose proof (prefixLen_app Key k [] ltac:(by destruct k)) as E. rewrite app_nil_r in E.
    assert (1 <= length Key)%nat by (destruct Key; [done|cbn; lia]).
    assert (1 <= length k)%nat by (apply leads_length in H; destruct r; [done|cbn in H; lia]).
    cbv zeta. rewrite E, decide_False, decide_False by (rewrite ?length_app; lia).
    rewrite take_app_length, drop_app_length. pose proof (visits_le Val). rewrite length_app in Hf. cbn in Hf.
    rewrite IH; [done|done| |lia]. intros f. rewrite <- app_assoc. apply Hm.
  - unfold resolveHash. rewrite Hdb. cbn [mbind fuelled_bind run].
    rewrite IH; [done|done|done|]. rewrite visits_loaded by done. cbn in Hf. lia.
Qed.

(** A full node whose only child is missing is not reduced: the error has the
    path of the full node. *)
Lemma delete_reduce_lost prefix cs pos h :
  cs !! pos = Some (hashNode h) -> pos <> 16%nat -> db_node (BytesToHash h) = None ->
  (forall j c, cs !! j = Some c -> j <> pos -> c = nilNode) ->
  delete_reduce prefix cs = run (Err (mk_MissingNodeError (BytesToHash h) prefix)).
Proof.
  intros Hp H16 Hdb Hn. unfold delete_reduce.
  destruct (delete_pos_spec cs 0) as [H|j n H1 H2 H3|j j' n n' H1 H2 H3 H4 H5]; [lia| | |].
  - rewrite Forall_lookup in H. by apply H in Hp.
  - assert (j = pos) as -> by (destruct (decide (j = pos)) as [|Hj]; [done|by apply Hn in H1]).
    cbv zeta. rewrite decide_True by lia. unfold child, go_index.
    rewrite decide_True by (apply lookup_lt_Some in Hp; unfold zlen; lia).
    replace (Z.to_nat (0 + Z.of_nat pos)) with pos by lia. rewrite Hp. cbn [mbind fuelled_bind run].
    rewrite decide_True by lia. cbn [resolve]. unfold resolveHash. by rewrite Hdb.
  - destruct (decide (j = pos)) as [->|Hj]; [by apply Hn in H3|by apply Hn in H2].
Qed.

(** C37: When the key leads along a path [p] to a full node, the child of the
    key there holds that key only, and the one other child (below index 16) is
    a node that the database lacks, then [TryDelete] fails with the missing
    node at the path [p] of the full node, without the index of the child, and
    leaves the root as it was. *)
Theorem TryDelete_missing_path T key p cs fl x rest c pos h :
  leads (root T) (keybytesToHex key) p (fullNode cs fl) (x :: rest) ->
  0 <= x -> cs !! Z.to_nat x = Some c -> only_key c rest ->
  cs !! pos = Some (hashNode h) -> pos <> Z.to_nat x -> pos <> 16%nat ->
  (forall j d, cs !! j = Some d -> j <> pos -> j <> Z.to_nat x -> d = nilNode) ->
  db_node (BytesToHash h) = None ->
  TryDelete T key
  = Some (Err (mk_MissingNodeError (BytesToHash h) p), mk_Trie (root T) (unhashed T + 1)).
Proof.
  intros Hl Hx Hc Ho Hp Hpx H16 Hn Hdb. unfold TryDelete. cbv zeta. cbn [root unhashed].
  rewrite (delete_leads _ _ _ _ _ (mk_MissingNodeError (BytesToHash h) p) Hl); [done|done| |].
  2: { unfold trie_fuel. pose proof (visits_le (root T)). lia. }
  intros [|fuel] Hf; [cbn in Hf; lia|]. cbn [delete app]. pose proof (visits_le c).
  pose proof (lookup_lt_Some _ _ _ Hc). unfold child, go_index, set_child.
  rewrite decide_True by (unfold zlen; lia). rewrite Hc. cbn [mbind fuelled_bind run].
  rewrite (delete_only_key _ _ Ho) by (cbn in Hf; lia). cbn [mbind fuelled_bind run].
  rewrite decide_True by (unfold zlen; lia). cbn [mbind fuelled_bind run].
  apply (delete_reduce_lost _ _ pos); [by rewrite list_lookup_insert_ne|done|done|].
  intros j d Hj Hjp. destruct (decide (j = Z.to_nat x)) as [->|Hjx].
  - rewrite list_lookup_insert_eq in Hj by done. by injection Hj.
  - rewrite list_lookup_insert_ne in Hj by done. by apply (Hn j).
Qed.

End MissingPath.

(** ** Examples *)

Module Examples.

#[local] Existing Instance no_hashes.

(** A database of one node, the leaf of the key [0x12]. *)
Definition leaf_hash : bytes := replicate 32 1.
Definition leaf : node := shortNode [1; 2; 16] (valueNode [7]) (mk_nodeFlag (Some leaf_hash) false).
Definition ex_db : NodeDB := fun h => if decide (h = leaf_hash) then Some leaf else None.
Definition ex_map : gmap bytes bytes := {[ [0x12] := [7] ]}.
Definition ex_trie : Trie := mk_Trie (hashNode leaf_hash) 0.

Lemma ex_represents :
  represents (db:=ex_db) (root ex_trie) (TShort [1; 2; 16] (TValue [7])) ex_map.
Proof.
  split_and!.
  - apply (d_hash (db:=ex_db) _ leaf); [done..|]. by apply d_short, d_value.
  - right. constructor; [|done]. apply (hexkey_keybytes [0x12]). repeat constructor; lia.
  - intros k v Hk. rewrite (tget_tcons_value [1; 2; 16] [7] k : tget (TShort _ _) k = _). split.
    + destruct (decide (k = _)) as [->|]; [|done]. intros [= <-]. exists [0x12].
      split_and!; [repeat constructor; lia|done|apply lookup_singleton_eq].
    + intros (key & Hkey & -> & Hm). unfold ex_map in Hm. by apply lookup_singleton_Some in Hm as [<- <-].
Qed.

Lemma TryGet_refines_witness :
  exists T', TryGet (db:=ex_db) ex_trie [0x12] = Some (Ret (ex_map !! [0x12]), T') /\
    represents (db:=ex_db) (root T') (TShort [1; 2; 16] (TValue [7])) ex_map /\
    unhashed T' = unhashed ex_trie.
Proof. apply (TryGet_refines (db:=ex_db)); [exact ex_represents|repeat constructor; lia]. Defined.

Lemma TryUpdate_refines_witness :
  exists T' t', TryUpdate (db:=ex_db) ex_trie [0x13] [8; 9] = Some (Ret tt, T') /\
    represents (db:=ex_db) (root T') t' (map_update [0x13] [8; 9] ex_map) /\
    unhashed T' = unhashed ex_trie + 1.
Proof.
  apply (TryUpdate_refines (db:=ex_db) _ (TShort [1; 2; 16] (TValue [7])));
    [exact ex_represents|repeat constructor; lia].
Defined.

Lemma TryDelete_refines_witness :
  exists T' t', TryDelete (db:=ex_db) ex_trie [0x12] = Some (Ret tt, T') /\
    represents (db:=ex_db) (root T') t' (base.delete [0x12] ex_map) /\
    unhashed T' = unhashed ex_trie + 1.
Proof.
  apply (TryDelete_refines (db:=ex_db) _ (TShort [1; 2; 16] (TValue [7])));
    [exact ex_represents|repeat constructor; lia].
Defined.

(** Adding and removing a key against adding the other one to an empty trie. *)
Lemma updates_canonical_witness :
  exists T1' T2' t,
    updates (db:=ex_db) ex_trie [([0x13], [8]); ([0x12], [])] = Some (Ret tt, T1') /\
    updates (db:=fun _ => None) (mk_Trie nilNode 0) [([0x13], [8])] = Some (Ret tt, T2') /\
    denotes (db:=ex_db) (root T1') t /\ denotes (db:=fun _ => None) (root T2') t /\ wf_root t.
Proof.
  apply (updates_canonical (db1:=ex_db) (db2:=fun _ => None) (hi1:=no_hashes) (hi2:=no_hashes) ex_trie (mk_Trie nilNode 0)
    (TShort [1; 2; 16] (TValue [7])) TNil ex_map ∅).
  - exact ex_represents.
  - apply represents_empty.
  - repeat constructor; cbn; lia.
  - repeat constructor; cbn; lia.
  - vm_compute. reflexivity.
Defined.

Lemma missing_node_safe_witness :
  missing (db:=fun _ => None) (keybytesToHex [0x12]) (mk_MissingNodeError leaf_hash []) /\
  root ex_trie = root ex_trie.
Proof.
  apply (missing_node_safe (db:=fun _ => None) ex_trie ex_trie [0x12] [] (mk_MissingNodeError leaf_hash [])).
  left. by eexists.
Defined.

(** A root that starts with the nibbles 0 and 1, the leaf of the key [0x0123]
    and a sibling that the database lacks. *)
Definition lost_children : list node :=
  <[5%nat := hashNode leaf_hash]> (<[2%nat := shortNode [3; 16] (valueNode [7]) newFlag]> (replicate 17 nilNode)).
Definition lost_trie : Trie := mk_Trie (shortNode [0; 1] (fullNode lost_children newFlag) newFlag) 0.

Lemma TryDelete_missing_path_witness :
  TryDelete (db:=fun _ => None) lost_trie [0x01; 0x23]
  = Some (Err (mk_MissingNodeError (BytesToHash leaf_hash) [0; 1]), mk_Trie (root lost_trie) (0 + 1)).
Proof.
  apply (TryDelete_missing_path (db:=fun _ => None) lost_trie [0x01; 0x23] [0; 1] lost_children newFlag
    2 [3; 16] (shortNode [3; 16] (valueNode [7]) newFlag) 5 leaf_hash); [|lia|done| |done|done|done| |done].
  - apply (leads_short (db:=fun _ => None) [0; 1] _ _ [2; 3; 16] []); [done|constructor].
  - by constructor.
  - intros j d Hj H5 H2. change (Z.to_nat 2) with 2%nat in H2.
    do 17 (destruct j as [|j]; [first [done|by injection Hj]|]). done.
Defined.

End Examples.
