(* ===== verification/TrieHash.v ===== *)
(** * Hashing and decoding trie nodes (trie/hasher.go, trie/node.go)

    [hash] collapses a node: children whose encoding has 32 bytes or more are
    replaced by their hash, smaller ones are embedded, and the result is RLP
    encoded and hashed.  The hashes computed on the way are cached in the nodes.
    [decodeNode] is the inverse, from the database to a node.  The encoding of a
    tree ([titem]) is defined without reference to nodes or caches. *)

From S2P Require Import Prelude Rlp RlpEncode TrieEncoding Trie TrieProofs.

(** What the code uses of Keccak-256 (golang.org/x/crypto/sha3): a digest of 32
    bytes. *)
Class Keccak := {
  keccak : bytes -> bytes;
  keccak_len b : length (keccak b) = 32%nat;
  keccak_bytes b : bytes_ok (keccak b)
}.

(** A conversion that can only panic, within a computation that can fail. *)
Definition lift {E A} (m : outcome Empty_set A) : outcome E A :=
  match m with Ret a => Ret a | Err e => match e with end | Panic => Panic end.

(** ** Encoding *)

(** The node as the RLP encoder sees it: a nil interface, a byte slice, a
    pointer to a struct of two exported fields, or, through
    [fullNode.EncodeRLP], an array whose nil elements are empty values. *)
Fixpoint node_val (n : node) : val :=
  match n with
  | nilNode => IfaceV None
  | valueNode v => IfaceV (Some (BytesV v))
  | hashNode h => IfaceV (Some (BytesV h))
  | shortNode Key Val _ => IfaceV (Some (PtrV List (Some (StructV [BytesV Key; node_val Val]))))
  | fullNode Children _ =>
      IfaceV (Some (SliceV false
        (map (fun c => match c with nilNode => IfaceV (Some (BytesV [])) | _ => node_val c end) Children)))
  end.

Section Hash.
Context {K : Keccak}.

Definition encode_node (n : node) : outcome Empty_set bytes :=
  match EncodeToBytes (node_val n) with Ret e => Ret e | _ => Panic end.

(** [shortnodeToHash] and [fullnodeToHash] *)
Definition nodeToHash (n : node) (force : bool) : outcome Empty_set node :=
  tmp ← encode_node n;
  if decide (zlen tmp < 32 /\ force = false) then Ret n else Ret (hashNode (keccak tmp)).

(** The flag of the cached copy of a node. *)
Definition cached_flag (flags : nodeFlag) (hashed : node) : nodeFlag :=
  mk_nodeFlag (match hashed with hashNode hn => Some hn | _ => None end) (flag_dirty flags).

(** The hash of a node, or the node itself if it is small, and a copy of the
    node with the hashes cached. The sixteen children of a full node are
    independent of each other; the code may hash them in parallel. *)
Fixpoint hash (n : node) (force : bool) : outcome Empty_set (node * node) :=
  let hash_children :=
    fix hash_children (i : nat) (cs : list node) : outcome Empty_set (list node * list node) :=
      match cs with
      | [] => Ret ([], [])
      | c :: cs =>
          '(h, c') ← (if decide (i < 16)%nat then
                        match c with
                        | nilNode => Ret (valueNode [], nilNode)
                        | _ => hash c false
                        end
                      else Ret (c, c));
          '(hs, cs') ← hash_children (S i) cs;
          Ret (h :: hs, c' :: cs')
      end in
  match n with
  | nilNode => Panic
  | shortNode Key Val flags =>
      match flag_hash flags with
      | Some h => Ret (hashNode h, n)
      | None =>
          key ← hexToCompact Key;
          '(collapsed, cached) ← (match Val with
                                  | fullNode _ _ | shortNode _ _ _ => hash Val false
                                  | _ => Ret (Val, Val)
                                  end);
          hashed ← nodeToHash (shortNode key collapsed flags) force;
          Ret (hashed, shortNode Key cached (cached_flag flags hashed))
      end
  | fullNode Children flags =>
      match flag_hash flags with
      | Some h => Ret (hashNode h, n)
      | None =>
          '(collapsed, cached) ← hash_children 0%nat Children;
          hashed ← nodeToHash (fullNode collapsed flags) force;
          Ret (hashed, fullNode cached (cached_flag flags hashed))
      end
  | hashNode _ | valueNode _ => Ret (n, n)
  end.

Fixpoint hash_children (i : nat) (cs : list node) : outcome Empty_set (list node * list node) :=
  match cs with
  | [] => Ret ([], [])
  | c :: cs =>
      '(h, c') ← (if decide (i < 16)%nat then
                    match c with
                    | nilNode => Ret (valueNode [], nilNode)
                    | _ => hash c false
                    end
                  else Ret (c, c));
      '(hs, cs') ← hash_children (S i) cs;
      Ret (h :: hs, c' :: cs')
  end.

(** [Trie.Hash] (with [hashRoot]): the root hash, and the trie with the cached
    nodes. *)
Definition Hash (emptyRoot : bytes) (t : Trie) : outcome Empty_set (bytes * Trie) :=
  match root t with
  | nilNode => Ret (BytesToHash emptyRoot, mk_Trie nilNode (unhashed t))
  | n =>
      '(hashed, cached) ← hash n true;
      match hashed with
      | hashNode h => Ret (BytesToHash h, mk_Trie cached 0)
      | _ => Panic
      end
  end.

End Hash.

(** ** Decoding *)

(** The errors of the decoder, without the path [wrapError] adds to them. *)
Inductive node_err :=
| errUnexpectedEOF
| errRlp (e : rlp_err)              (* "decode error", "invalid value node" and plain rlp errors *)
| errNumElems (c : Z)               (* invalid number of list elements *)
| errOversized (size : Z)           (* oversized embedded node *)
| errStringSize (size : Z).         (* invalid RLP string size *)

Definition rlp {A} (m : outcome rlp_err A) : outcome node_err A :=
  match m with Ret a => Ret a | Err e => Err (errRlp e) | Panic => Panic end.

(** The number of values in [elems]; the code drops the error of
    [CountValues], which then returns 0. *)
Definition count_elems (elems : bytes) : Z :=
  match CountValues elems with Some (Ret c) => c | _ => 0 end.

Notation D A := (fuelled node_err A).

(** [decodeRef], [decodeShort] and [decodeFull] call [decodeNode] back; it is
    their first argument. *)
Definition decodeRef (decodeNode : option bytes -> bytes -> D node) (buf : bytes) : D (node * bytes) :=
  '(kind, val, rest) ← run (rlp (Split buf));
  if decide (kind = List) then
    let size := zlen buf - zlen rest in
    if decide (size > 32) then run (Err (errOversized size))
    else
      n ← decodeNode None buf;
      run (Ret (n, rest))
  else if decide (kind = String /\ zlen val = 0) then run (Ret (nilNode, rest))
  else if decide (kind = String /\ zlen val = 32) then run (Ret (hashNode val, rest))
  else run (Err (errStringSize (zlen val))).

Definition decodeShort (decodeNode : option bytes -> bytes -> D node) (hash : option bytes) (elems : bytes)
    : D node :=
  '(kbuf, rest) ← run (rlp (SplitString elems));
  let flag := mk_nodeFlag hash false in
  key ← run (lift (compactToHex kbuf));
  if hasTerm key then
    '(val, _) ← run (rlp (SplitString rest));
    run (Ret (shortNode key (valueNode val) flag))
  else
    '(r, _) ← decodeRef decodeNode rest;
    run (Ret (shortNode key r flag)).

(** The loop of [decodeFull] over the first sixteen children. *)
Fixpoint decodeFull_loop (decodeNode : option bytes -> bytes -> D node) (i : nat) (elems : bytes)
    : D (list node * bytes) :=
  match i with
  | O => run (Ret ([], elems))
  | S i =>
      '(cld, rest) ← decodeRef decodeNode elems;
      '(children, rest) ← decodeFull_loop decodeNode i rest;
      run (Ret (cld :: children, rest))
  end.

Definition decodeFull (decodeNode : option bytes -> bytes -> D node) (hash : option bytes) (elems : bytes)
    : D node :=
  '(children, elems) ← decodeFull_loop decodeNode 16 elems;
  '(val, _) ← run (rlp (SplitString elems));
  let last := if decide (zlen val > 0) then valueNode val else nilNode in
  run (Ret (fullNode (children ++ [last]) (mk_nodeFlag hash false))).

(** The fuel bounds the depth of embedded nodes. *)
Fixpoint decodeNode (fuel : nat) (hash : option bytes) (buf : bytes) : D node :=
  match fuel with
  | O => out_of_fuel
  | S fuel =>
      match buf with
      | [] => run (Err errUnexpectedEOF)
      | _ =>
          '(elems, _) ← run (rlp (SplitList buf));
          let c := count_elems elems in
          if decide (c = 2) then decodeShort (decodeNode fuel) hash elems
          else if decide (c = 17) then decodeFull (decodeNode fuel) hash elems
          else run (Err (errNumElems c))
      end
  end.
