(* ===== verification/TrieHashProofs.v ===== *)
(** * Correctness of trie hashing

    The hash of a node is the hash of the tree it denotes, whatever is loaded or
    cached, and the nodes that [hash] returns, with their new cached hashes,
    denote the same tree.  Together with the uniqueness of the canonical form
    this makes the root hash a function of the content of the trie. *)

From stdpp Require Import gmap.
From S2P Require Import Prelude Rlp RlpEncode TrieEncoding Trie TrieProofs TrieSpec TrieHash.

(** ** The encoding of a tree *)

Definition compact (k : bytes) : bytes := match hexToCompact k with Ret c => c | _ => [] end.

Section Spec.
Context {K : Keccak}.

(** A child as it appears in its parent: strings as they are, lists embedded if
    they are smaller than a hash. *)
Definition ref_item (i : Spec.item) : Spec.item :=
  match i with
  | Spec.Str _ => i
  | Spec.Lst _ => if decide (zlen (Spec.enc i) < 32) then i else Spec.Str (keccak (Spec.enc i))
  end.

Fixpoint titem (t : tree) : Spec.item :=
  match t with
  | TNil => Spec.Str []
  | TValue v => Spec.Str v
  | TShort k t => Spec.Lst [Spec.Str (compact k); ref_item (titem t)]
  | TFull cs => Spec.Lst (map (fun c => ref_item (titem c)) cs)
  end.

Definition tenc (t : tree) : bytes := Spec.enc (titem t).

(** The content is byte strings of a size that a machine can hold. *)
Definition content_ok (t : tree) : Prop :=
  forall k v, hexkey k -> tget t k = Some v -> zlen k < 2 ^ 32 /\ zlen v < 2 ^ 32 /\ bytes_ok v.

(** ** Sizes *)

Lemma zlen_header_le st lt size : 0 <= size < 2 ^ 64 -> zlen (Spec.header st lt size) <= 9.
Proof.
  intros H. rewrite zlen_header by lia. case_decide; [lia|]. pose proof (byte_len_u64 size). lia.
Qed.

Lemma enc_str_size b : zlen b < 2 ^ 64 -> zlen (Spec.enc_str b) <= 9 + zlen b.
Proof.
  intros Hb. pose proof (zlen_header_le 0x80 0xB7 (zlen b)). pose proof (zlen_header_le 0x80 0xB7 1).
  unfold Spec.enc_str. destruct b as [|x [|y b]]; [zlen_lia| |zlen_lia]. case_decide; zlen_lia.
Qed.

Lemma zlen_enc_list b : zlen b < 2 ^ 64 -> zlen (Spec.enc_list b) <= 9 + zlen b.
Proof.
  intros Hb. pose proof (zlen_header_le 0xC0 0xF7 (zlen b)). unfold Spec.enc_list. zlen_lia.
Qed.

Lemma zlen_keccak b : zlen (keccak b) = 32.
Proof. unfold zlen. by rewrite keccak_len. Qed.

Lemma zlen_enc_hash b : zlen (Spec.enc (Spec.Str (keccak b))) = 33.
Proof.
  pose proof (zlen_keccak b) as H. change (Spec.enc (Spec.Str (keccak b))) with (Spec.enc_str (keccak b)).
  unfold Spec.enc_str. destruct (keccak b) as [|x [|y l]]; try done. rewrite zlen_app, H. done.
Qed.

Lemma zlen_enc_ref l : zlen (Spec.enc (ref_item (Spec.Lst l))) <= 33.
Proof. unfold ref_item. case_decide; [lia|]. rewrite zlen_enc_hash. lia. Qed.

Lemma compact_ok k :
  (exists ns t, Forall is_nibble ns /\ k = ns ++ term t) ->
  hexToCompact k = Ret (compact k) /\ bytes_ok (compact k) /\ zlen (compact k) <= zlen k + 1 /\ compact k <> [].
Proof.
  intros (ns & t & Hn & ->). unfold compact.
  assert (is_byte (flag t)) as Hf by (unfold is_byte, flag; destruct t; lia).
  destruct (nibbles_cases ns Hn) as [(bs & Hb & ->)|(h & bs & Hh & Hb & ->)].
  - rewrite hexToCompact_even by done. split_and!; [done|by constructor| |done].
    unfold zlen. rewrite length_app, length_nibbles. cbn. lia.
  - cbn [app]. rewrite hexToCompact_odd by done. split_and!; [done| | |done].
    + constructor; [|done]. unfold is_nibble in Hh. unfold is_byte, flag. destruct t; lia.
    + unfold zlen. cbn. rewrite length_app, length_nibbles. lia.
Qed.

Lemma compact_hexkey k : hexkey k -> exists ns t, Forall is_nibble ns /\ k = ns ++ term t.
Proof.
  induction k as [|x k IH]; cbn; [done|]. intros [[-> ->]|[Hx Hk]].
  - exists [], true. by split.
  - destruct (IH Hk) as (ns & t & Hn & ->). exists (x :: ns), t. split; [by constructor|done].
Qed.

Lemma compact_nibbles k : Forall is_nibble k -> exists ns t, Forall is_nibble ns /\ k = ns ++ term t.
Proof. intros H. exists k, false. by rewrite app_nil_r. Qed.

(** ** The content of subtries *)

Lemma content_ok_short p cs :
  Forall is_nibble p -> content_ok (TShort p (TFull cs)) -> content_ok (TFull cs).
Proof.
  intros Hp H k v Hk Hv. destruct (H (p ++ k) v) as (H1 & H2 & H3).
  - by apply hexkey_nibble_app.
  - by rewrite tget_short, strip_refl.
  - rewrite zlen_app in H1. split_and!; [|done|done]. pose proof (zlen_nonneg p). lia.
Qed.

Lemma content_ok_key p t : content_ok (TShort p t) -> wft (TShort p t) -> zlen p < 2 ^ 32.
Proof.
  intros H Hw. destruct (wft_inhabited _ Hw) as (k & v & Hk & Hv). destruct (H k v Hk Hv) as (H1 & _).
  rewrite tget_short in Hv. destruct (strip p k) as [r|] eqn:E; [|done]. apply strip_Some in E as ->.
  zlen_lia.
Qed.

Lemma content_ok_child cs i c :
  content_ok (TFull cs) -> cs !! i = Some c ->
  forall k v, hexkey (Z.of_nat i :: k) -> tget c k = Some v -> zlen k < 2 ^ 32 /\ zlen v < 2 ^ 32 /\ bytes_ok v.
Proof.
  intros H Hc k v Hk Hv. destruct (H (Z.of_nat i :: k) v) as (H1 & H2 & H3); [done| |].
  - rewrite (tget_TFull_lookup _ _ _ c); [done|]. by rewrite Nat2Z.id.
  - rewrite zlen_cons in H1. split_and!; [lia|done|done].
Qed.

Lemma content_ok_sub cs i c :
  content_ok (TFull cs) -> cs !! i = Some c -> (i < 16)%nat -> content_ok c.
Proof.
  intros H Hc Hi k v Hk Hv. eapply content_ok_child; [done..| |done]. right. split; [|done].
  unfold is_nibble. lia.
Qed.

(** The children of a full node, as items in it. *)
Lemma ref_child_size cs i c :
  wft (TFull cs) -> content_ok (TFull cs) -> cs !! i = Some c ->
  zlen (Spec.enc (ref_item (titem c))) <= 33 + (if decide (i = 16)%nat then 2 ^ 32 else 0).
Proof.
  intros Hw Hc Hi. destruct (wf_full_at _ _ _ Hw Hi) as [->|[[Hx Hwc]|(Hx & v & Hv & ->)]].
  - change (zlen (Spec.enc (ref_item (titem TNil)))) with 1. case_decide; lia.
  - rewrite decide_False by (unfold is_nibble in Hx; lia). destruct Hwc; cbn [titem];
      pose proof (zlen_enc_ref); eauto using Z.le_trans with lia.
  - rewrite decide_True by lia. destruct (content_ok_child _ _ _ Hc Hi [] v) as (_ & H2 & _); [by left|done|].
    cbn. pose proof (enc_str_size v). lia.
Qed.

Lemma zlen_concat_children (f : tree -> bytes) cs i0 :
  (forall i c, cs !! i = Some c -> zlen (f c) <= 33 + (if decide (i0 + i = 16)%nat then 2 ^ 32 else 0)) ->
  zlen (concat (map f cs)) <= 33 * zlen cs + (if decide (i0 <= 16)%nat then 2 ^ 32 else 0).
Proof.
  revert i0. induction cs as [|c cs IH]; intros i0 H; cbn [map concat].
  - case_decide; unfold zlen; cbn; lia.
  - rewrite zlen_app, zlen_cons. specialize (IH (S i0)). pose proof (H 0%nat c eq_refl) as H0.
    rewrite Nat.add_0_r in H0.
    assert (zlen (concat (map f cs)) <= 33 * zlen cs + (if decide (S i0 <= 16)%nat then 2 ^ 32 else 0)) as H'.
    { apply IH. intros i c' Hc. specialize (H (S i) c' Hc). by rewrite Nat.add_succ_r in H. }
    repeat case_decide; lia.
Qed.

Lemma tenc_size t : wft t -> content_ok t -> zlen (tenc t) < 2 ^ 34.
Proof.
  intros Hw Hc. unfold tenc. pose proof Hw as Hw0. destruct Hw as [k v Hk Hv|k cs Hk0 Hk Hw|cs i j ci cj]; cbn [titem].
  - destruct (Hc k v) as (H1 & H2 & _); [done|by rewrite tget_leaf, decide_True|].
    destruct (compact_ok k (compact_hexkey k Hk)) as (_ & _ & H3 & _).
    change (zlen (Spec.enc_list (Spec.enc_str (compact k) ++ Spec.enc_str v ++ [])) < 2 ^ 34).
    pose proof (enc_str_size (compact k)). pose proof (enc_str_size v).
    pose proof (zlen_enc_list (Spec.enc_str (compact k) ++ Spec.enc_str v ++ [])). zlen_lia.
  - pose proof (content_ok_key _ _ Hc Hw0) as H1.
    destruct (compact_ok k (compact_nibbles k Hk)) as (_ & _ & H3 & _).
    change (zlen (Spec.enc_list (Spec.enc_str (compact k) ++ Spec.enc (ref_item (titem (TFull cs))) ++ [])) < 2 ^ 34).
    pose proof (enc_str_size (compact k)). cbn [titem].
    pose proof (zlen_enc_ref (map (fun c => ref_item (titem c)) cs)) as H4.
    set (e := Spec.enc _) in *.
    pose proof (zlen_enc_list (Spec.enc_str (compact k) ++ e ++ [])). zlen_lia.
  - pose proof (wf_full_length _ Hw0) as Hl.
    change (zlen (Spec.enc_list (concat (map Spec.enc (map (fun c => ref_item (titem c)) cs)))) < 2 ^ 34).
    rewrite map_map. pose proof (zlen_concat_children (fun c => Spec.enc (ref_item (titem c))) cs 0) as Hs.
    pose proof (zlen_enc_list (concat (map (fun c => Spec.enc (ref_item (titem c))) cs))) as He.
    rewrite decide_True in Hs by lia. assert (zlen cs = 17) as Hl' by (unfold zlen; lia). rewrite Hl' in Hs.
    pose proof (Hs (fun i c Hi => ref_child_size _ _ _ Hw0 Hc Hi)). lia.
Qed.

Lemma ref_item_ok i : Spec.item_ok i -> Spec.item_ok (ref_item i).
Proof.
  intros H. destruct i; [done|]. unfold ref_item. case_decide; [done|]. apply keccak_bytes.
Qed.

Lemma titem_ok t : wft t -> content_ok t -> Spec.item_ok (titem t).
Proof.
  induction 1 as [k v Hk Hv|k cs Hp Hk Hw IH|cs i j ci cj Hl H1 IH H2 Hij Hi Hj Hci Hcj]; intros Hc.
  - destruct (Hc k v) as (_ & _ & H3); [done|by rewrite tget_leaf, decide_True|].
    destruct (compact_ok k (compact_hexkey k Hk)) as (_ & Hb & _). cbn. auto.
  - destruct (compact_ok k (compact_nibbles k Hk)) as (_ & Hb & _).
    cbn [titem]. apply item_ok_Lst. repeat constructor; [done|].
    apply ref_item_ok, IH. by eapply content_ok_short.
  - assert (wft (TFull cs)) as Hw by by eapply wf_full.
    cbn [titem]. apply item_ok_Lst, Forall_map, Forall_lookup. intros n c Hn. apply ref_item_ok.
    destruct (wf_full_at _ _ _ Hw Hn) as [->|[[Hx Hwc]|(Hx & v & Hv & ->)]]; [constructor| |].
    + eapply IH; [|done|by apply wft_not_nil|]; [unfold is_nibble in Hx; lia|].
      eapply content_ok_sub; [done..|]. unfold is_nibble in Hx. lia.
    + eapply (content_ok_child _ _ _ Hc Hn []); [by left|done].
Qed.

End Spec.

(** ** The encoding of a collapsed node *)

Fixpoint node_item (n : node) : Spec.item :=
  match n with
  | nilNode => Spec.Lst []
  | valueNode v | hashNode v => Spec.Str v
  | shortNode Key Val _ => Spec.Lst [Spec.Str Key; node_item Val]
  | fullNode Children _ =>
      Spec.Lst (map (fun c => match c with nilNode => Spec.Str [] | _ => node_item c end) Children)
  end.

Definition node_ind' (P : node -> Prop)
    (Hnil : P nilNode) (Hfull : forall cs fl, Forall P cs -> P (fullNode cs fl))
    (Hshort : forall k n fl, P n -> P (shortNode k n fl))
    (Hhash : forall h, P (hashNode h)) (Hval : forall v, P (valueNode v)) : forall n, P n :=
  fix go n :=
    match n with
    | nilNode => Hnil
    | fullNode cs fl => Hfull cs fl ((fix gos cs : Forall P cs :=
        match cs with
        | [] => Forall_nil_2 _
        | c :: cs => Forall_cons_2 _ c cs (go c) (gos cs)
        end) cs)
    | shortNode k n fl => Hshort k n fl (go n)
    | hashNode h => Hhash h
    | valueNode v => Hval v
    end.

Lemma node_val_enc n :
  val_enc (node_val n) = Some (Spec.enc (node_item n)) /\
  (Spec.item_ok (node_item n) -> val_ok (node_val n)).
Proof.
  induction n as [|cs fl IH|k n fl [IH1 IH2]|h|v] using node_ind'; [done| | |done|done].
  - cbn [node_val node_item].
    set (f := fun c => match c with nilNode => IfaceV (Some (BytesV [])) | _ => node_val c end).
    set (g := fun c => match c with nilNode => Spec.Str [] | _ => node_item c end).
    change ((c ← elems_enc (map f cs); Some (Spec.enc_list c)) = Some (Spec.enc_list (concat (map Spec.enc (map g cs)))) /\
      (Spec.item_ok (Spec.Lst (map g cs)) -> vals_ok (map f cs))).
    rewrite item_ok_Lst.
    assert (elems_enc (map f cs) = Some (concat (map Spec.enc (map g cs))) /\
      (Forall Spec.item_ok (map g cs) -> vals_ok (map f cs))) as [-> H2]; [|done].
    induction IH as [|c cs [H1 H2] _ [IH1 IH2]]; [done|]. cbn [map elems_enc concat vals_ok].
    assert (val_enc (f c) = Some (Spec.enc (g c)) /\ (Spec.item_ok (g c) -> val_ok (f c))) as [-> H3]
      by (destruct c; [split; [done|constructor]|done..]).
    cbn. rewrite IH1. split; [done|]. intros [??]%Forall_cons_1. auto.
  - cbn. rewrite IH1. cbn. rewrite app_nil_r. split; [done|]. intros (? & ? & _). auto.
Qed.

Lemma encode_node_ok n e :
  Spec.item_ok (node_item n) -> e = Spec.enc (node_item n) -> zlen e < 2 ^ 63 -> encode_node n = Ret e.
Proof.
  intros Hok -> Hz. destruct (node_val_enc n) as [H1 H2]. unfold encode_node.
  by rewrite (EncodeToBytes_Some _ _ (H2 Hok) H1 Hz).
Qed.

(** ** Hashing *)

Section HashProofs.
Context {db : NodeDB} {K : Keccak}.

(** A hash stands for the tree it is the hash of, and only large trees are
    referred to by hash. *)
Definition is_hash (h : bytes) (t : tree) : Prop := h = keccak (tenc t) /\ 32 <= zlen (tenc t).

#[global] Instance hash_inv : HashInv := {|
  flag_ok fl t := match flag_hash fl with Some h => is_hash h t | None => True end;
  hash_ok := is_hash;
  flag_ok_new _ := I
|}.

(** The flags of a node that is in memory, and the node with other flags. *)
Definition top_flags (n : node) : nodeFlag :=
  match n with shortNode _ _ fl | fullNode _ fl => fl | _ => newFlag end.

Definition reflag (fl : nodeFlag) (n : node) : node :=
  match n with
  | shortNode k v _ => shortNode k v fl
  | fullNode cs _ => fullNode cs fl
  | _ => n
  end.

Lemma denotes_reflag fl n t : loaded n -> denotes n t -> flag_ok fl t -> denotes (reflag fl n) t.
Proof. intros Hl Hd Hf. destruct Hd; try done; by constructor. Qed.

Lemma denotes_flags n t : denotes n t -> loaded n -> flag_ok (top_flags n) t.
Proof. by destruct 1. Qed.

Lemma denotes_unreflag fl n t : loaded n -> denotes (reflag fl n) t -> flag_ok (top_flags n) t -> denotes n t.
Proof.
  intros Hl Hd Hf. replace n with (reflag (top_flags n) (reflag fl n)) by (by destruct n).
  apply denotes_reflag; [by destruct n|done|done].
Qed.

(** What [hash n false] promises for a node of the tree [t]. *)
Definition hashed (r : outcome Empty_set (node * node)) (t : tree) : Prop :=
  exists h c, r = Ret (h, c) /\ node_item h = ref_item (titem t) /\ denotes c t /\ h <> nilNode.

(** From the collapsed node to the hash and the cached copy. *)
Lemma nodeToHash_ok n t force :
  node_item n = titem t -> wft t -> content_ok t -> n <> nilNode ->
  exists h, nodeToHash n force = Ret h /\ h <> nilNode /\
    (force = false -> node_item h = ref_item (titem t) /\ (forall fl, flag_ok (cached_flag fl h) t)) /\
    (force = true -> h = hashNode (keccak (tenc t))).
Proof.
  intros Hn Hw Hc Hnil. pose proof (tenc_size _ Hw Hc) as Hs. unfold nodeToHash.
  rewrite (encode_node_ok n (tenc t)); [|rewrite Hn; by apply titem_ok|by rewrite Hn|lia]. cbn [mbind outcome_bind].
  assert (exists l, titem t = Spec.Lst l) as [l El] by (destruct Hw; by eexists).
  destruct force.
  - rewrite decide_False by naive_solver. eexists. by split_and!.
  - case_decide as Hd.
    + exists n. split_and!; [done|done| |done]. intros _. split.
      * rewrite Hn. unfold tenc in Hd. rewrite El in *. unfold ref_item. by rewrite decide_True by tauto.
      * intros fl. destruct n; try done. by rewrite El in Hn.
    + eexists. split_and!; [done|done| |done]. intros _. split.
      * unfold tenc in *. rewrite El in *. unfold ref_item. rewrite decide_False by tauto. done.
      * intros fl. cbn. split; [done|]. lia.
Qed.

(** Hashing a node in memory that has no cached hash. *)
Definition hash_fresh (t : tree) : Prop :=
  forall n force, loaded n -> denotes n t -> flag_hash (top_flags n) = None ->
    exists h c, hash n force = Ret (h, c) /\ loaded c /\ h <> nilNode /\ denotes (reflag newFlag c) t /\
      (force = false -> node_item h = ref_item (titem t) /\ flag_ok (top_flags c) t) /\
      (force = true -> h = hashNode (keccak (tenc t)) /\ flag_hash (top_flags c) = Some (keccak (tenc t))).

Definition hash_any (t : tree) : Prop := forall n, denotes n t -> hashed (hash n false) t.

Lemma is_hash_ref h t : is_hash h t -> wft t -> Spec.Str h = ref_item (titem t).
Proof.
  intros [-> Hl] Hw. unfold tenc in *.
  assert (exists l, titem t = Spec.Lst l) as [l El] by (destruct Hw; by eexists).
  rewrite El in *. unfold ref_item. by rewrite decide_False by lia.
Qed.

Lemma hash_hash t : wft t -> hash_fresh t -> hash_any t.
Proof.
  intros Hw H n Hd. destruct (denotes_loaded _ _ Hd Hw) as [Hl|(h & n' & -> & _)].
  - pose proof (denotes_flags _ _ Hd Hl) as Hf. destruct (flag_hash (top_flags n)) as [h|] eqn:E.
    + exists (hashNode h), n. cbn in Hf. rewrite E in Hf. split_and!; [|by apply is_hash_ref|done|done].
      destruct n; try done; cbn in E; cbn [hash]; by rewrite E.
    + destruct (H n false Hl Hd E) as (h & c & Hr & Hlc & Hn & Hdc & Hf' & _).
      destruct (Hf' eq_refl) as [Hi Hfc]. exists h, c. split_and!; [done|done| |done].
      by eapply denotes_unreflag.
  - exists (hashNode h), (hashNode h). split_and!; [done| |done|done].
    apply is_hash_ref; [|done]. by inversion Hd.
Qed.

(** The common end of the two cases of [hash]. *)
Lemma hash_finish t n (c : nodeFlag -> node) flags force :
  node_item n = titem t -> n <> nilNode -> wft t -> content_ok t ->
  (forall fl, loaded (c fl) /\ top_flags (c fl) = fl /\ reflag newFlag (c fl) = c newFlag) ->
  denotes (c newFlag) t ->
  exists h c', (hashed ← nodeToHash n force; Ret (hashed, c (cached_flag flags hashed))) = Ret (h, c') /\
    loaded c' /\ h <> nilNode /\ denotes (reflag newFlag c') t /\
    (force = false -> node_item h = ref_item (titem t) /\ flag_ok (top_flags c') t) /\
    (force = true -> h = hashNode (keccak (tenc t)) /\ flag_hash (top_flags c') = Some (keccak (tenc t))).
Proof.
  intros Hn Hnil Hw Hc Hcf Hd. destruct (nodeToHash_ok n t force Hn Hw Hc Hnil) as (h & -> & Hh & H1 & H2).
  cbn [mbind outcome_bind]. destruct (Hcf (cached_flag flags h)) as (Hl & Ht & Hr).
  exists h, (c (cached_flag flags h)). split_and!; [done..|by rewrite Hr| |].
  - intros Ef. destruct (H1 Ef) as [Hi Hfl]. by rewrite Ht.
  - intros Ef. rewrite Ht, (H2 Ef). done.
Qed.

Lemma hash_leaf k v : hexkey k -> v <> [] -> content_ok (TShort k (TValue v)) -> hash_fresh (TShort k (TValue v)).
Proof.
  intros Hk Hv Hc n force Hl Hd Hf. destruct (denotes_short_inv _ _ _ Hl Hd) as (nv & fl & -> & Hdv & Hfl).
  apply denotes_value_inv in Hdv as ->. cbn [top_flags] in Hf. cbn [hash]. rewrite Hf.
  destruct (compact_ok k (compact_hexkey k Hk)) as (-> & _). cbn [mbind outcome_bind].
  apply (hash_finish _ _ (fun fl => shortNode k (valueNode v) fl)); try done; [by constructor|by repeat constructor].
Qed.

Lemma hash_ext k cs :
  k <> [] -> Forall is_nibble k -> wft (TFull cs) -> content_ok (TShort k (TFull cs)) ->
  hash_any (TFull cs) -> hash_fresh (TShort k (TFull cs)).
Proof.
  intros Hk0 Hk Hw Hc IH n force Hl Hd Hf. destruct (denotes_short_inv _ _ _ Hl Hd) as (nv & fl & -> & Hdv & Hfl).
  cbn [top_flags] in Hf. cbn [hash]. rewrite Hf.
  destruct (compact_ok k (compact_nibbles k Hk)) as (-> & _). cbn [mbind outcome_bind].
  destruct (IH nv Hdv) as (h & c & Hr & Hi & Hdc & Hnil).
  assert (match nv with fullNode _ _ | shortNode _ _ _ => hash nv false | _ => Ret (nv, nv) end = Ret (h, c)) as ->.
  { inversion Hdv; subst; try done. }
  cbn [mbind outcome_bind].
  apply (hash_finish _ _ (fun fl => shortNode k c fl)); try done; [|by constructor|by constructor].
  cbn [node_item titem]. by rewrite Hi.
Qed.

(** An element of a collapsed full node. *)
Definition elem_item (c : node) : Spec.item := match c with nilNode => Spec.Str [] | _ => node_item c end.

Lemma hash_children_ok ns ts i0 :
  length ns = length ts ->
  (forall i n t, ns !! i = Some n -> ts !! i = Some t -> denotes n t /\
     (((i0 + i < 16)%nat /\ (t = TNil \/ wft t /\ hash_any t)) \/
      ((i0 + i = 16)%nat /\ (t = TNil \/ exists v, t = TValue v)))) ->
  exists hs cs, hash_children i0 ns = Ret (hs, cs) /\ map elem_item hs = map (fun t => ref_item (titem t)) ts /\
    length cs = length ts /\ denotes_all cs ts.
Proof.
  revert ts i0. induction ns as [|n ns IH]; intros [|t ts] i0 Hl H; try done.
  { by exists [], []. }
  destruct (IH ts (S i0)) as (hs & cs & E & Hi & Hl' & Hd').
  { by injection Hl. }
  { intros i n' t' Hn Ht. specialize (H (S i) n' t' Hn Ht). by rewrite Nat.add_succ_r in H. }
  destruct (H 0%nat n t eq_refl eq_refl) as [Hd Hc]. rewrite Nat.add_0_r in Hc. cbn [hash_children].
  assert (exists h c, (if decide (i0 < 16)%nat then
       match n with nilNode => Ret (valueNode [], nilNode) | _ => hash n false end else Ret (n, n)) = Ret (h, c) /\
     elem_item h = ref_item (titem t) /\ denotes c t) as (h & c & -> & Hh & Hdc).
  { destruct Hc as [[Hlt [->|[Hw Hany]]]|[Heq [->|[v ->]]]].
    - apply denotes_nil_inv in Hd as ->. rewrite decide_True by done. eexists _, _. by split_and!; [|..|constructor].
    - destruct (Hany n Hd) as (h & c & Hr & Hh & Hdc & Hnil). exists h, c. rewrite decide_True by done.
      split_and!; [|by destruct h|done]. inversion Hd; subst; try done; inversion Hw.
    - apply denotes_nil_inv in Hd as ->. rewrite decide_False by lia. eexists _, _. by split_and!; [|..|constructor].
    - apply denotes_value_inv in Hd as ->. rewrite decide_False by lia. eexists _, _. by split_and!; [|..|constructor]. }
  cbn [mbind outcome_bind]. rewrite E. cbn [mbind outcome_bind].
  eexists _, _. split_and!; [done|cbn; by rewrite Hh, Hi|cbn; by rewrite Hl'|].
  intros [|i] n' t' Hn Ht; cbn in Hn, Ht; [by simplify_eq|by eapply Hd'].
Qed.

Lemma hash_ok_all t : wft t -> content_ok t -> hash_any t /\ hash_fresh t.
Proof.
  intros Hw. induction Hw as [k v Hk Hv|p cs Hp Hn Hw IH|cs i j ci cj Hl H1 IH H2 Hij Hi Hj Hci Hcj]; intros Hc.
  - pose proof (hash_leaf k v Hk Hv Hc). split; [|done]. apply hash_hash; [by constructor|done].
  - assert (hash_fresh (TShort p (TFull cs))) as H.
    { apply hash_ext; try done. apply IH. by eapply content_ok_short. }
    split; [|done]. apply hash_hash; [by constructor|done].
  - assert (wft (TFull cs)) as Hw by by eapply wf_full.
    assert (hash_fresh (TFull cs)) as H; [|split; [by apply hash_hash|done]].
    intros n force Hln Hd Hf. destruct (denotes_full_inv _ _ Hln Hd) as (ns & fl & -> & Hl' & Hd' & Hfl).
    cbn [top_flags] in Hf. cbn [hash]. rewrite Hf.
    change (exists h c, ('(collapsed, cached) ← hash_children 0 ns;
      hashed ← nodeToHash (fullNode collapsed fl) force;
      Ret (hashed, fullNode cached (cached_flag fl hashed))) = Ret (h, c) /\
      loaded c /\ h <> nilNode /\ denotes (reflag newFlag c) (TFull cs) /\
      (force = false -> node_item h = ref_item (titem (TFull cs)) /\ flag_ok (top_flags c) (TFull cs)) /\
      (force = true -> h = hashNode (keccak (tenc (TFull cs))) /\ flag_hash (top_flags c) = Some (keccak (tenc (TFull cs))))).
    destruct (hash_children_ok ns cs 0) as (hs & cs' & -> & Hhs & Hlc & Hdc); [done| |].
    { intros i' n t Hn Ht. split; [by eapply Hd'|]. rewrite Nat.add_0_l.
      destruct (wf_full_at _ _ _ Hw Ht) as [->|[[Hx Hwc]|(Hx & v & Hv & ->)]].
      - apply lookup_lt_Some in Ht. destruct (decide (i' = 16)%nat); [right|left; split; [lia|]]; auto.
      - left. unfold is_nibble in Hx. split; [lia|]. right. split; [done|].
        eapply IH; [|done|by apply wft_not_nil|eapply content_ok_sub; [done..|]]; lia.
      - right. split; [lia|]. right. by exists v. }
    cbn [mbind outcome_bind]. apply (hash_finish _ _ (fun fl => fullNode cs' fl)); try done; [|by constructor].
    cbn [node_item titem]. f_equal. exact Hhs.
Qed.

End HashProofs.
