(* ===== verification/TrieRoot.v ===== *)
(** * The root hash of a trie

    The root of a trie is special: its hash is computed and cached even when its
    encoding is smaller than a hash.  [root_denotes] is the invariant of roots;
    the operations and [Hash] keep it, and the hash that [Hash] returns is that
    of the tree. *)

From stdpp Require Import gmap.
From S2P Require Import Prelude Rlp RlpEncode TrieEncoding Trie TrieProofs TrieSpec TrieHash TrieHashProofs.

(** ** The flags of the root do not matter to the operations *)

Section Reflag.
Context {db : NodeDB}.

Lemma insert_reflag fuel n fl prefix k v d n1 :
  loaded n -> k <> [] -> insert fuel (reflag fl n) prefix k v = run (Ret (d, n1)) ->
  insert fuel n prefix k v = run (Ret (d, if (d : bool) then n1 else n)).
Proof.
  intros Hl Hk H. destruct fuel as [|fuel]; [done|]. destruct k as [|x k]; [done|].
  destruct n as [|cs f|Key Val f|h|v']; try done; cbn [insert reflag] in *; cbv zeta in *.
  - destruct (child cs x) as [c| |]; try done. cbn [mbind fuelled_bind run] in *.
    destruct (insert fuel c _ k v) as [[[[] nn]| |]|]; try done; cbn [mbind fuelled_bind run] in *.
    + destruct (set_child cs x nn); try done. cbn in *. by simplify_eq.
    + by simplify_eq.
  - case_decide.
    + destruct (insert fuel Val _ _ v) as [[[[] nn]| |]|]; try done; cbn in *; by simplify_eq.
    + rewrite H. destruct d; [done|]. exfalso. clear -H.
      unfold mbind, fuelled_bind, run in H. repeat (case_match; try done; simplify_eq).
Qed.

Lemma delete_reduce_true prefix cs d n : delete_reduce prefix cs = run (Ret (d, n)) -> d = true.
Proof.
  unfold delete_reduce. cbv zeta. case_decide; [|by intros [= <- _]].
  destruct (child cs _) as [c| |]; try done. cbn [mbind fuelled_bind run].
  destruct (if decide _ then _ else _) as [[cn|]| |]; try done; cbn; [destruct cn|]; intros; by simplify_eq.
Qed.

Lemma delete_reflag fuel n fl prefix k d n1 :
  loaded n -> delete fuel (reflag fl n) prefix k = run (Ret (d, n1)) ->
  delete fuel n prefix k = run (Ret (d, if (d : bool) then n1 else n)).
Proof.
  intros Hl H. destruct fuel as [|fuel]; [done|].
  destruct n as [|cs f|Key Val f|h|v']; try done; cbn [delete reflag] in *; cbv zeta in *.
  - destruct k as [|x k]; [done|].
    destruct (child cs x) as [c| |]; try done. cbn [mbind fuelled_bind run] in *.
    destruct (delete fuel c _ k) as [[[[] nn]| |]|]; try done; cbn [mbind fuelled_bind run] in *; [|by simplify_eq].
    destruct (set_child cs x nn); try done. cbn [mbind fuelled_bind run] in *.
    rewrite H. by rewrite (delete_reduce_true _ _ _ _ H).
  - repeat case_decide; [by simplify_eq|by simplify_eq|].
    destruct (delete fuel Val _ _) as [[[[] nn]| |]|]; try done; cbn [mbind fuelled_bind run] in *; [|by simplify_eq].
    destruct nn; by simplify_eq.
Qed.

Lemma tryGet_reflag fuel n fl k pos v n1 d :
  loaded n -> tryGet fuel (reflag fl n) k pos = run (Ret (v, n1, d)) ->
  tryGet fuel n k pos = run (Ret (v, reflag (top_flags n) n1, d)) /\ loaded n1.
Proof.
  intros Hl H. destruct fuel as [|fuel]; [done|].
  destruct n as [|cs f|Key Val f|h|v']; try done; cbn [tryGet reflag top_flags] in *.
  - destruct (go_index k pos) as [x| |]; try done. cbn [mbind fuelled_bind run] in *.
    destruct (child cs x) as [c| |]; try done. cbn [mbind fuelled_bind run] in *.
    destruct (tryGet fuel c k _) as [[[[v' nn] []]| |]|]; try done; cbn [mbind fuelled_bind run] in *.
    + destruct (set_child cs x nn); try done. cbn in *. by simplify_eq.
    + by simplify_eq.
  - destruct (if decide _ then _ else _) as [[]| |]; try done; cbn [mbind fuelled_bind run] in *; [|by simplify_eq].
    destruct (tryGet fuel Val k _) as [[[[v' nn] []]| |]|]; try done; cbn in *; by simplify_eq.
Qed.

End Reflag.

(** ** The invariant of a root *)

Section Root.
Context {db : NodeDB} {K : Keccak}.

Lemma denotes_fun {hi : HashInv} n t1 t2 : denotes n t1 -> denotes n t2 -> t1 = t2.
Proof.
  intros H. revert t2. induction H as [|v|k n t fl Hf Hd IH|ns ts fl Hf Hl Hd IH|h n t Hh Hdb Hl Hd IH]; intros t2 H2;
    inversion H2 as [|v2|k2 n2 t2' fl2 Hf2 Hd2|ns2 ts2 fl2 Hf2 Hl2 Hd2|h2 n2 t2' Hh2 Hdb2 Hln2 Hd2]; subst; try done.
  - f_equal. auto.
  - f_equal. apply list_eq_same_length with (length ts); [congruence..|]. intros i x y Hi Hx Hy.
    destruct (lookup_lt_is_Some_2 ns i) as [n Hn]; [lia|]. eauto.
  - rewrite Hdb in Hdb2. simplify_eq. auto.
Qed.

(** The node in memory behind a root. *)
Inductive at_root (t : tree) : node -> node -> Prop :=
| at_nil : at_root t nilNode nilNode
| at_loaded n : loaded n -> at_root t n n
| at_hash h n : h = keccak (tenc t) -> db_node (BytesToHash h) = Some n -> loaded n -> at_root t (hashNode h) n.

(** [n] is the root of a trie that represents [m], with a valid cached hash. *)
Definition root_represents (n : node) (t : tree) (m : gmap bytes bytes) : Prop :=
  exists n0, at_root t n n0 /\ represents (reflag newFlag n0) t m /\ content_ok t /\
    (forall h, flag_hash (top_flags n0) = Some h -> h = keccak (tenc t)).

(** The sizes of keys and values. *)
Definition map_ok (m : gmap bytes bytes) : Prop :=
  forall key v, m !! key = Some v -> zlen key < 2 ^ 31 - 1 /\ zlen v < 2 ^ 32 /\ bytes_ok v.

Lemma map_content_ok n t m : represents n t m -> map_ok m -> content_ok t.
Proof.
  intros (_ & _ & H) Hm k v Hk Hv. apply H in Hv as (key & Hb & -> & Hv); [|done].
  destruct (Hm _ _ Hv) as (H1 & H2 & H3). split_and!; [|done|done].
  unfold keybytesToHex, zlen in *. rewrite length_app, length_nibbles. cbn. lia.
Qed.

(** Every node that satisfies the invariant of subtries can be a root. *)
Lemma represents_root n t m : represents n t m -> map_ok m -> root_represents n t m.
Proof.
  intros Hr Hm. pose proof (map_content_ok _ _ _ Hr Hm) as Hc. destruct Hr as (Hd & Hw & Hr).
  destruct Hw as [->|Hw].
  { apply denotes_nil_inv in Hd as ->. exists nilNode. split_and!; [constructor| |done|done].
    split_and!; [constructor|by left|done]. }
  destruct (denotes_loaded _ _ Hd Hw) as [Hl|(h & n' & -> & Hdb & Hl & Hd')].
  - exists n. split_and!; [by constructor| |done|].
    + split_and!; [by apply denotes_reflag|by right|done].
    + intros h E. pose proof (denotes_flags _ _ Hd Hl) as Hf. cbn in Hf. rewrite E in Hf. by destruct Hf.
  - exists n'. split_and!; [constructor; [|done|done]| |done|].
    + inversion Hd as [| | | |? ? ? Hh]; subst. by destruct Hh.
    + split_and!; [by apply denotes_reflag|by right|done].
    + intros h' E. pose proof (denotes_flags _ _ Hd' Hl) as Hf. cbn in Hf. rewrite E in Hf. by destruct Hf.
Qed.

(** Changing the flags of a loaded root back. *)
Lemma root_unchanged n0 t m t' m' :
  at_root t n0 n0 -> represents (reflag newFlag n0) t m -> represents (reflag newFlag n0) t' m' ->
  content_ok t -> (forall h, flag_hash (top_flags n0) = Some h -> h = keccak (tenc t)) ->
  root_represents n0 t' m'.
Proof.
  intros Ha Hr Hr' Hc Hf. assert (t' = t) as -> by (destruct Hr as [Hd _], Hr' as [Hd' _]; by eapply denotes_fun).
  by exists n0.
Qed.

Lemma at_root_self t n n0 : at_root t n n0 -> at_root t n0 n0.
Proof. destruct 1; by constructor. Qed.

Lemma at_root_cases t n n0 : at_root t n n0 -> n0 = nilNode \/ loaded n0.
Proof. destruct 1; auto. Qed.

(** An update of a root, from what it does on the nodes of subtries. *)
Lemma root_op (op : nat -> node -> fuelled MissingNodeError (bool * node)) bound n t m m' fuel :
  (forall fuel n fl d n1, loaded n -> op fuel (reflag fl n) = run (Ret (d, n1)) ->
     op fuel n = run (Ret (d, if (d : bool) then n1 else n))) ->
  (forall fuel h, op (S fuel) (hashNode h)
     = (rn ← run (resolveHash h []);
        '(dirty, nn) ← op fuel rn;
        if (dirty : bool) then run (Ret (true, nn)) else run (Ret (false, rn)))) ->
  (forall fuel n t, represents n t m -> (bound <= fuel)%nat ->
     exists d n' t', op fuel n = run (Ret (d, n')) /\ represents n' t' m') ->
  root_represents n t m -> map_ok m' -> (bound + 1 <= fuel)%nat ->
  exists d n' t', op fuel n = run (Ret (d, n')) /\ root_represents n' t' m'.
Proof.
  intros Hre Hhash Hop (n0 & Ha & Hr & Hc & Hf) Hm Hfuel.
  assert (forall f, (bound <= f)%nat ->
    exists d n' t', op f n0 = run (Ret (d, n')) /\ root_represents n' t' m') as Hn0.
  { intros f Hf'. destruct (Hop f _ _ Hr Hf') as (d & n' & t' & E & Hr').
    destruct (at_root_cases _ _ _ Ha) as [->|Hl].
    - exists d, n', t'. split; [done|]. by apply represents_root.
    - rewrite (Hre _ _ _ _ _ Hl E).
      assert (run (Ret (d, n')) = run (E:=MissingNodeError) (Ret (d, if d then n' else reflag newFlag n0))) as E2.
      { rewrite <- E. apply (Hre _ _ newFlag); by destruct n0. }
      destruct d; [exists true, n', t'; split; [done|by apply represents_root]|].
      injection E2 as ->. exists false, n0, t'. split; [done|].
      apply (root_unchanged n0 t m); [by constructor|done..]. }
  destruct Ha as [|n0 Hl|h n0 Hh Hdb Hl]; [apply Hn0; lia..|].
  destruct fuel as [|fuel]; [lia|]. rewrite Hhash, (resolveHash_ok _ n0) by done.
  destruct (Hn0 fuel) as (d & n' & t' & E & Hr'); [lia|]. frun. rewrite E. frun. destruct d.
  - by exists true, n', t'.
  - pose proof (Hop fuel (reflag newFlag n0) t Hr) as (d & n2 & t2 & E' & Hr2); [lia|].
    pose proof (Hre _ _ _ _ _ Hl E') as E2. rewrite E in E2. injection E2 as <- ->. by exists false, n0, t'.
Qed.

Lemma root_insert n t m key v :
  root_represents n t m -> bytes_ok key -> v <> [] -> map_ok (<[key := v]> m) ->
  exists d n' t', insert (trie_fuel (keybytesToHex key)) n [] (keybytesToHex key) (valueNode v) = run (Ret (d, n')) /\
    root_represents n' t' (<[key := v]> m).
Proof.
  intros Hr Hk Hv Hm.
  apply (root_op (fun f n => insert f n [] (keybytesToHex key) (valueNode v))
    (2 * length (keybytesToHex key) + 1) n t m); try done.
  - intros fuel n' fl d n1 Hl. apply insert_reflag; [done|]. by destruct key.
  - intros fuel h. by destruct key.
  - intros fuel n' t' Hr' Hf. by eapply insert_represents.
  - unfold trie_fuel. lia.
Qed.

Lemma root_delete n t m key :
  root_represents n t m -> bytes_ok key -> map_ok (base.delete key m) ->
  exists d n' t', delete (trie_fuel (keybytesToHex key)) n [] (keybytesToHex key) = run (Ret (d, n')) /\
    root_represents n' t' (base.delete key m).
Proof.
  intros Hr Hk Hm.
  apply (root_op (fun f n => delete f n [] (keybytesToHex key)) (2 * length (keybytesToHex key) + 1) n t m); try done.
  - intros fuel n' fl d n1 Hl. by apply delete_reflag.
  - intros fuel n' t' Hr' Hf. by eapply delete_represents.
  - unfold trie_fuel. lia.
Qed.

Lemma root_get n t m key :
  root_represents n t m -> bytes_ok key ->
  exists n' d, tryGet (trie_fuel (keybytesToHex key)) n (keybytesToHex key) 0 = run (Ret (m !! key, n', d)) /\
    (d = true -> root_represents n' t m).
Proof.
  intros (n0 & Ha & Hr & Hc & Hf) Hk. set (k := keybytesToHex key).
  assert (forall f, (2 * length k + 1 <= f)%nat -> exists n' d,
    tryGet f n0 k 0 = run (Ret (m !! key, n', d)) /\ root_represents n' t m) as Hn0.
  { intros f Hf'. destruct (get_represents f _ _ _ _ Hr Hk Hf') as (n' & d & E & Hr').
    destruct (at_root_cases _ _ _ Ha) as [->|Hl].
    - exists n', d. split; [done|]. destruct f; [lia|]. cbn in E. simplify_eq. exists nilNode.
      by split_and!; [constructor|..].
    - destruct (tryGet_reflag _ _ _ _ _ _ _ _ Hl E) as [E' Hl']. eexists _, _. split; [done|].
      exists (reflag (top_flags n0) n'). split_and!; [constructor; by destruct n'| |done|].
      + replace (reflag newFlag (reflag (top_flags n0) n')) with (reflag newFlag n') by (by destruct n').
        destruct Hr' as (Hd & Hw & Hm). split_and!; [|done|done]. apply denotes_reflag; [done|done|constructor].
      + intros h. replace (top_flags (reflag (top_flags n0) n')) with (top_flags n0) by (by destruct n'). apply Hf. }
  destruct Ha as [|n0 Hl|h n0 Hh Hdb Hl].
  - destruct (Hn0 (trie_fuel k) (trie_fuel_enough k)) as (n' & d & E & H). by exists n', d.
  - destruct (Hn0 (trie_fuel k) (trie_fuel_enough k)) as (n' & d & E & H). by exists n', d.
  - destruct (Hn0 (2 * length k + 1)%nat) as (n' & d & E & H); [lia|].
    exists n', true. split; [|done]. unfold trie_fuel. rewrite Nat.add_succ_r. cbn [tryGet].
    rewrite (go_to_app [] k : go_to k 0 = Ret []). frun. rewrite (resolveHash_ok _ n0) by done. frun.
    by rewrite E.
Qed.

Lemma BytesToHash_id h : length h = 32%nat -> BytesToHash h = h.
Proof. intros H. unfold BytesToHash. rewrite decide_False by (unfold zlen; lia). by rewrite H. Qed.

(** The root hash of a tree. *)
Definition root_hash (emptyRoot : bytes) (t : tree) : bytes :=
  match t with TNil => emptyRoot | _ => keccak (tenc t) end.

Lemma Hash_ok emptyRoot T t m :
  length emptyRoot = 32%nat -> root_represents (root T) t m ->
  exists T', Hash emptyRoot T = Ret (root_hash emptyRoot t, T') /\ root_represents (root T') t m.
Proof.
  intros He (n0 & Ha & Hr & Hc & Hf). pose proof Hr as (Hd & Hw & Hm). unfold Hash.
  destruct Hw as [->|Hw].
  { assert (n0 = nilNode) as -> by (apply denotes_nil_inv in Hd; by destruct n0).
    destruct (root T) eqn:E; try by inversion Ha.
    rewrite BytesToHash_id by done. eexists. split; [done|]. exists nilNode. by split_and!; [constructor|..]. }
  assert (root_hash emptyRoot t = keccak (tenc t)) as -> by (destruct Hw; done).
  assert (forall n, BytesToHash (keccak n) = keccak n) as Hk by (intros; apply BytesToHash_id, keccak_len).
  destruct (at_root_cases _ _ _ Ha) as [->|Hl]; [by apply denotes_nil in Hd as ->; inversion Hw|].
  assert (exists c, (hash (root T) true = Ret (hashNode (keccak (tenc t)), c)) /\ root_represents c t m) as (c & E & Hrc).
  { destruct Ha as [|n0 _|h n0 Hh Hdb _]; [done| |].
    - destruct (flag_hash (top_flags n0)) as [h|] eqn:Eh.
      + exists n0. split; [|exists n0; split_and!; [by constructor|done|done|intros; apply Hf; congruence]].
        rewrite <- (Hf h eq_refl). destruct n0; try done; cbn in *; by rewrite Eh.
      + destruct (hash_ok_all t Hw Hc) as [_ H].
        destruct (H n0 true Hl) as (h & c & E & Hlc & _ & Hdc & _ & H2); [|done|].
        { apply (denotes_unreflag newFlag); [done|done|]. cbn. by rewrite Eh. }
        destruct (H2 eq_refl) as [-> Hfc]. exists c. split; [done|]. exists c.
        split_and!; [by constructor|by split_and!; [|right|]|done|]. intros h E'. congruence.
    - exists (hashNode h). cbn. rewrite <- Hh. split; [done|]. exists n0. by split_and!; [constructor|..]. }
  destruct (root T) eqn:ET; [by inversion Ha; subst|..]; rewrite E; cbn; rewrite Hk; eauto.
Qed.

End Root.

(** ** Sessions *)

(** The operations of a trie, in any order. *)
Inductive step :=
| SGet (key : bytes)
| SUpdate (key value : bytes)
| SDelete (key : bytes)
| SHash.

Definition exec_step {db : NodeDB} {K : Keccak} (emptyRoot : bytes) (T : Trie) (s : step) : option Trie :=
  match s with
  | SGet key => match TryGet T key with Some (Ret _, T') => Some T' | _ => None end
  | SUpdate key value => match TryUpdate T key value with Some (Ret _, T') => Some T' | _ => None end
  | SDelete key => match TryDelete T key with Some (Ret _, T') => Some T' | _ => None end
  | SHash => match Hash emptyRoot T with Ret (_, T') => Some T' | _ => None end
  end.

Fixpoint exec {db : NodeDB} {K : Keccak} (emptyRoot : bytes) (T : Trie) (l : list step) : option Trie :=
  match l with
  | [] => Some T
  | s :: l => match exec_step emptyRoot T s with Some T' => exec emptyRoot T' l | None => None end
  end.

(** What the steps mean for the map. *)
Definition map_step (m : gmap bytes bytes) (s : step) : gmap bytes bytes :=
  match s with
  | SUpdate key value => map_update key value m
  | SDelete key => base.delete key m
  | _ => m
  end.

Definition step_ok (s : step) : Prop :=
  match s with
  | SGet key | SDelete key => bytes_ok key
  | SUpdate key value => bytes_ok key /\ zlen key < 2 ^ 31 - 1 /\ bytes_ok value /\ zlen value < 2 ^ 32
  | SHash => True
  end.

Lemma map_ok_delete m key : map_ok m -> map_ok (base.delete key m).
Proof. intros H k v [_ Hk]%lookup_delete_Some. eauto. Qed.

Lemma map_ok_step m s : map_ok m -> step_ok s -> map_ok (map_step m s).
Proof.
  intros Hm Hs. destruct s as [key|key value|key|]; cbn; [done| |by apply map_ok_delete|done].
  destruct Hs as (H1 & H2 & H3 & H4). unfold map_update. destruct value as [|b value]; [by apply map_ok_delete|].
  intros k v Hk. apply lookup_insert_Some in Hk as [[<- <-]|[_ Hk]]; [done|eauto].
Qed.

Lemma exec_step_ok {db : NodeDB} {K : Keccak} emptyRoot T t m s :
  length emptyRoot = 32%nat -> root_represents (root T) t m -> map_ok m -> step_ok s ->
  exists T' t', exec_step emptyRoot T s = Some T' /\ root_represents (root T') t' (map_step m s).
Proof.
  intros He Hr Hm Hs. pose proof (map_ok_step m s Hm Hs) as Hm'.
  destruct s as [key|key value|key|]; cbn [exec_step map_step] in *.
  - unfold TryGet. cbv zeta. destruct (root_get _ _ _ _ Hr Hs) as (n' & d & -> & H). cbn [run].
    destruct d; eauto.
  - destruct Hs as (H1 & _). unfold TryUpdate. cbv zeta. cbn [root]. destruct value as [|b value].
    + rewrite decide_False by (intros Hz; by apply Hz).
      destruct (root_delete _ _ _ _ Hr H1 Hm') as (d & n' & t' & -> & H). cbn. eauto.
    + rewrite decide_True by zlen_lia.
      destruct (root_insert _ _ _ key (b :: value) Hr H1) as (d & n' & t' & -> & H); [done|done|]. cbn. eauto.
  - unfold TryDelete. cbv zeta. cbn [root].
    destruct (root_delete _ _ _ _ Hr Hs Hm') as (d & n' & t' & -> & H). cbn. eauto.
  - destruct (Hash_ok emptyRoot T t m He Hr) as (T' & -> & H). eauto.
Qed.

Lemma exec_ok {db : NodeDB} {K : Keccak} emptyRoot l T t m :
  length emptyRoot = 32%nat -> root_represents (root T) t m -> map_ok m -> Forall step_ok l ->
  exists T' t', exec emptyRoot T l = Some T' /\ root_represents (root T') t' (fold_left map_step l m).
Proof.
  intros He Hr Hm Hl. revert T t m Hr Hm. induction Hl as [|s l Hs _ IH]; intros T t m Hr Hm; [eauto|].
  cbn [exec fold_left]. destruct (exec_step_ok emptyRoot T t m s He Hr Hm Hs) as (T' & t' & -> & H).
  eapply IH; [done|by apply map_ok_step].
Qed.

(** hashing.  On a trie that represents a map, whatever is loaded, cached
    or changed since the last hash, [Hash] returns the hash of the canonical
    tree of the map, and the trie it leaves, with its cached hashes, still
    represents the map. *)
Theorem Hash_correct {db : NodeDB} {K : Keccak} emptyRoot T t m :
  length emptyRoot = 32%nat -> root_represents (root T) t m ->
  exists T', Hash emptyRoot T = Ret (root_hash emptyRoot t, T') /\ root_represents (root T') t m.
Proof. apply Hash_ok. Qed.

(** C23: the root hash is a function of the content.  Two sessions of lookups,
    updates, deletions and intermediate hashings, started from tries of two
    maps over any two databases, run without error or panic, and if they leave
    the same map, the two tries have the same root hash. *)
Theorem Hash_history_independent {db1 db2 : NodeDB} {K : Keccak} emptyRoot T1 T2 t1 t2 m1 m2 l1 l2 :
  length emptyRoot = 32%nat ->
  root_represents (db:=db1) (root T1) t1 m1 -> root_represents (db:=db2) (root T2) t2 m2 ->
  map_ok m1 -> map_ok m2 -> Forall step_ok l1 -> Forall step_ok l2 ->
  fold_left map_step l1 m1 = fold_left map_step l2 m2 ->
  exists T1' T2' T1'' T2'' h,
    exec (db:=db1) emptyRoot T1 l1 = Some T1' /\ exec (db:=db2) emptyRoot T2 l2 = Some T2' /\
    Hash emptyRoot T1' = Ret (h, T1'') /\ Hash emptyRoot T2' = Ret (h, T2'').
Proof.
  intros He R1 R2 M1 M2 L1 L2 Hm.
  destruct (exec_ok emptyRoot l1 T1 t1 m1 He R1 M1 L1) as (T1' & t1' & E1 & R1').
  destruct (exec_ok emptyRoot l2 T2 t2 m2 He R2 M2 L2) as (T2' & t2' & E2 & R2').
  destruct (Hash_ok emptyRoot T1' t1' _ He R1') as (T1'' & H1 & _).
  destruct (Hash_ok emptyRoot T2' t2' _ He R2') as (T2'' & H2 & _).
  rewrite <- Hm in R2'. destruct R1' as (n1 & _ & R1' & _), R2' as (n2 & _ & R2' & _).
  assert (t2' = t1') as -> by by eapply (represents_tree (db1:=db2) (db2:=db1)).
  by exists T1', T2', T1'', T2'', (root_hash emptyRoot t1').
Qed.

(** ** Examples *)

Module RootExamples.

(** A digest function to run the examples with. *)
#[local] Instance ex_keccak : Keccak := {|
  keccak b := be_bytes 32 (be_to_Z b);
  keccak_len b := length_be_bytes 32 (be_to_Z b);
  keccak_bytes b := be_bytes_ok 32 (be_to_Z b)
|}.

#[local] Instance ex_empty_db : NodeDB := fun _ => None.

Definition ex_map : gmap bytes bytes := {[ [0x12] := [7] ]}.
Definition ex_tree : tree := TShort [1; 2; 16] (TValue [7]).
Definition ex_root : Trie := mk_Trie (shortNode [1; 2; 16] (valueNode [7]) newFlag) 1.

Lemma ex_map_ok : map_ok ex_map.
Proof.
  intros k v Hk. unfold ex_map in Hk. apply lookup_singleton_Some in Hk as [<- <-].
  split_and!; [done|done|repeat constructor; lia].
Qed.

Lemma ex_root_represents : root_represents (root ex_root) ex_tree ex_map.
Proof.
  apply represents_root; [|exact ex_map_ok]. split_and!.
  - repeat constructor.
  - right. constructor; [|done]. apply (hexkey_keybytes [0x12]). repeat constructor; lia.
  - intros k v Hk. rewrite (tget_tcons_value [1; 2; 16] [7] k : tget ex_tree k = _). split.
    + destruct (decide (k = _)) as [->|]; [|done]. intros [= <-]. exists [0x12].
      split_and!; [repeat constructor; lia|done|apply lookup_singleton_eq].
    + intros (key & Hkey & -> & Hm). unfold ex_map in Hm. by apply lookup_singleton_Some in Hm as [<- <-].
Qed.

Lemma Hash_correct_witness :
  exists T', Hash (replicate 32 5) ex_root = Ret (root_hash (replicate 32 5) ex_tree, T') /\
    root_represents (root T') ex_tree ex_map.
Proof. apply Hash_correct; [reflexivity|exact ex_root_represents]. Defined.

(** Deleting and adding again, with a hash in between, against adding to the
    empty trie. *)
Lemma Hash_history_independent_witness :
  exists T1' T2' T1'' T2'' h,
    exec (replicate 32 5) ex_root [SUpdate [0x13] [8]; SHash; SDelete [0x12]] = Some T1' /\
    exec (replicate 32 5) (mk_Trie nilNode 0) [SUpdate [0x13] [8]; SGet [0x14]] = Some T2' /\
    Hash (replicate 32 5) T1' = Ret (h, T1'') /\ Hash (replicate 32 5) T2' = Ret (h, T2'').
Proof.
  apply (Hash_history_independent _ _ _ ex_tree TNil ex_map ∅).
  - reflexivity.
  - exact ex_root_represents.
  - exists nilNode. split_and!; [constructor|apply represents_empty| |done]. by intros k v.
  - exact ex_map_ok.
  - intros k v Hk. by rewrite lookup_empty in Hk.
  - repeat constructor; cbn; lia.
  - repeat constructor; cbn; lia.
  - vm_compute. reflexivity.
Defined.

End RootExamples.
