(* ===== verification/TrieLoad.v ===== *)
(** * Loading a trie from the database

    [decodeNode] inverts the encoding of nodes, so that a store which holds the
    encoding of every node of a tree under its hash gives back that tree: a trie
    opened by root hash represents the map that was hashed. *)

From stdpp Require Import gmap.
From S2P Require Import Prelude Rlp RlpEncode TrieEncoding Trie TrieProofs TrieSpec TrieHash TrieHashProofs TrieRoot.

(** The fuel of [decodeNode]: an embedded node is shorter than the node it is
    in. *)
Definition decode_fuel (buf : bytes) : nat := S (length buf).

(** [Database.node] on the persistent store: the encoding under the hash,
    decoded; [mustDecodeNode] panics on an encoding that is not a node, which
    the results below exclude, and no node is returned for it here. *)
Definition db_of (store : bytes -> option bytes) : NodeDB := fun h =>
  match store h with
  | Some enc =>
      match decodeNode (decode_fuel enc) (Some h) enc with
      | Some (Ret n) => Some n
      | _ => None
      end
  | None => None
  end.

Section Load.
Context {K : Keccak}.

(** The node that decoding gives for a tree, and for a child. *)
Fixpoint dnode (hash : option bytes) (t : tree) : node :=
  let ref_node t :=
    match t with
    | TNil => nilNode
    | TValue v => valueNode v
    | _ => if decide (zlen (tenc t) < 32) then dnode None t else hashNode (keccak (tenc t))
    end in
  match t with
  | TNil => nilNode
  | TValue v => valueNode v
  | TShort k t => shortNode k (ref_node t) (mk_nodeFlag hash false)
  | TFull cs => fullNode (map ref_node cs) (mk_nodeFlag hash false)
  end.

Definition ref_node (t : tree) : node :=
  match t with
  | TNil => nilNode
  | TValue v => valueNode v
  | _ => if decide (zlen (tenc t) < 32) then dnode None t else hashNode (keccak (tenc t))
  end.

(** ** Splitting encoded items *)

Lemma Split_enc i rest :
  Spec.item_ok i -> bytes_ok rest -> zlen (Spec.enc i ++ rest) < 2 ^ 64 ->
  Split (Spec.enc i ++ rest) = Ret (item_kind i, item_content i, rest).
Proof.
  intros Hi Hr Hl. pose proof (enc_bytes_ok i Hi ltac:(zlen_lia)) as Hb.
  rewrite enc_frame in *. apply Split_frame; [|apply item_frame_ok|done].
  apply (frame_content_ok (item_kind i)). by apply Forall_app.
Qed.

Lemma SplitString_enc b rest :
  bytes_ok b -> bytes_ok rest -> zlen (Spec.enc (Spec.Str b) ++ rest) < 2 ^ 64 ->
  SplitString (Spec.enc (Spec.Str b) ++ rest) = Ret (b, rest).
Proof.
  intros Hb Hr Hl. unfold SplitString. rewrite Split_enc by done. cbn. by destruct (single_byte b).
Qed.

Lemma SplitList_enc l rest :
  Forall Spec.item_ok l -> bytes_ok rest -> zlen (Spec.enc (Spec.Lst l) ++ rest) < 2 ^ 64 ->
  SplitList (Spec.enc (Spec.Lst l) ++ rest) = Ret (Spec.enc_all l, rest).
Proof.
  intros Hl Hr Hz. unfold SplitList. rewrite Split_enc; [done| |done|done]. by apply item_ok_Lst.
Qed.

Lemma CountValues_loop_enc l fuel i :
  Forall Spec.item_ok l -> zlen (Spec.enc_all l) < 2 ^ 64 -> (length (Spec.enc_all l) <= fuel)%nat ->
  CountValues_loop fuel i (Spec.enc_all l) = Some (Ret (i + zlen l)).
Proof.
  intros Hl. revert fuel i. induction Hl as [|x l Hx Hl IH]; intros fuel i Hz Hf.
  - cbn. destruct fuel; cbn; by rewrite Z.add_0_r.
  - rewrite enc_all_cons in *. pose proof (enc_bytes_ok x Hx ltac:(zlen_lia)) as Hb.
    pose proof (zlen_frame_pos _ _ (item_frame_ok x)) as Hp. rewrite enc_frame in *.
    rewrite length_app in Hf. unfold zlen in Hp. destruct fuel as [|fuel]; [lia|].
    rewrite CountValues_loop_step; [|..|done]; [| |apply item_frame_ok].
    + rewrite IH by (zlen_lia || lia). do 2 f_equal. zlen_lia.
    + apply (frame_content_ok (item_kind x)). apply Forall_app. split; [done|].
      apply enc_all_bytes_ok; [done|zlen_lia].
Qed.

Lemma count_elems_enc l :
  Forall Spec.item_ok l -> zlen (Spec.enc_all l) < 2 ^ 64 -> count_elems (Spec.enc_all l) = zlen l.
Proof. intros Hl Hz. unfold count_elems, CountValues. by rewrite CountValues_loop_enc. Qed.

(** ** Decoding an encoded tree *)

Lemma compactToHex_compact k :
  (exists ns t, Forall is_nibble ns /\ k = ns ++ term t) -> compactToHex (compact k) = Ret k.
Proof.
  intros (ns & t & Hn & ->). unfold compact. destruct (hexToCompact_inv ns t Hn) as (c & -> & _ & H). done.
Qed.

Lemma hasTerm_hexkey k : hexkey k -> hasTerm k = true.
Proof.
  intros Hk. assert (exists ns, Forall is_nibble ns /\ k = ns ++ [16]) as (ns & Hn & ->).
  { induction k as [|x k IH]; [done|]. destruct Hk as [[-> ->]|[Hx Hk]]; [by exists []|].
    destruct (IH Hk) as (ns & Hn & ->). exists (x :: ns). split; [by constructor|done]. }
  by apply (hasTerm_hex ns true).
Qed.

Lemma hasTerm_nibbles k : Forall is_nibble k -> hasTerm k = false.
Proof. intros Hk. pose proof (hasTerm_hex k false Hk) as H. by rewrite app_nil_r in H. Qed.

Lemma decodeRef_ok rec c rest :
  c = TNil \/ (wft c /\ content_ok c) -> bytes_ok rest ->
  zlen (Spec.enc (ref_item (titem c)) ++ rest) < 2 ^ 64 ->
  (zlen (tenc c) < 32 -> wft c -> rec None (tenc c ++ rest) = run (Ret (dnode None c))) ->
  decodeRef rec (Spec.enc (ref_item (titem c)) ++ rest) = run (Ret (ref_node c, rest)).
Proof.
  intros Hc Hr Hz Hrec. unfold decodeRef. rewrite Split_enc; [|..|done|done].
  - cbn [rlp]. frun. destruct Hc as [->|[Hw Hc]]; [done|].
    assert (exists l, titem c = Spec.Lst l) as [l El] by (destruct Hw; by eexists).
    assert (ref_node c = if decide (zlen (tenc c) < 32) then dnode None c else hashNode (keccak (tenc c))) as ->
      by (by destruct Hw). unfold tenc in *. rewrite El in *. cbn [ref_item] in *. case_decide as Hd.
    + cbn [item_kind]. rewrite decide_True by done. cbv zeta.
      rewrite decide_False by zlen_lia. rewrite Hrec by done. done.
    + set (h := keccak _). pose proof (zlen_keccak (Spec.enc (Spec.Lst l)) : zlen h = 32) as Hh.
      assert (single_byte h = false) as Hs by (destruct h as [|x [|y h']]; done).
      cbn [item_kind item_content]. rewrite Hs. rewrite decide_False by done.
      rewrite decide_False by lia. by rewrite decide_True.
  - destruct Hc as [->|[Hw Hc]]; [constructor|]. by apply ref_item_ok, titem_ok.
Qed.

Lemma ref_node_value v : ref_node (TValue v) = valueNode v.
Proof. done. Qed.

(** The loop over the first sixteen children. *)
Lemma decodeFull_loop_ok rec cs rest :
  Forall (fun c => (c = TNil \/ (wft c /\ content_ok c)) /\
    (forall r, zlen (tenc c) < 32 -> wft c -> bytes_ok r -> zlen (tenc c ++ r) < 2 ^ 64 ->
       rec None (tenc c ++ r) = run (Ret (dnode None c)))) cs ->
  bytes_ok rest -> zlen (Spec.enc_all (map (fun c => ref_item (titem c)) cs) ++ rest) < 2 ^ 64 ->
  decodeFull_loop rec (length cs) (Spec.enc_all (map (fun c => ref_item (titem c)) cs) ++ rest)
  = run (Ret (map ref_node cs, rest)).
Proof.
  intros Hcs Hr. induction Hcs as [|c cs [Hc Hrec] Hcs IH]; intros Hz; [done|].
  cbn [map length decodeFull_loop] in *. rewrite enc_all_cons, <- app_assoc in *.
  set (e := Spec.enc _) in *. set (r := Spec.enc_all _ ++ rest) in *.
  assert (bytes_ok r) as Hbr.
  { apply Forall_app. split; [|done]. apply enc_all_bytes_ok; [|unfold r in Hz; zlen_lia].
    apply Forall_map. eapply Forall_impl; [|exact Hcs]. intros c' [[->|[Hw Hc']] _]; [constructor|].
    by apply ref_item_ok, titem_ok. }
  unfold e at 1. rewrite decodeRef_ok; [|done|done|done|].
  - frun. rewrite IH by zlen_lia. done.
  - intros Hlt Hw. apply Hrec; try done. unfold e in Hz.
    destruct Hc as [->|[_ Hc]]; [inversion Hw|]. unfold tenc in *.
    assert (ref_item (titem c) = titem c) as E; [|by rewrite E in Hz].
    assert (exists l, titem c = Spec.Lst l) as [l El] by (destruct Hw; by eexists).
    rewrite El in *. unfold ref_item. by rewrite decide_True.
Qed.

Definition decodes (t : tree) : Prop :=
  forall fuel hash rest, (length (tenc t) < fuel)%nat -> bytes_ok rest -> zlen (tenc t ++ rest) < 2 ^ 64 ->
    decodeNode fuel hash (tenc t ++ rest) = run (Ret (dnode hash t)).

(** The beginning of [decodeNode] on an encoded list. *)
Lemma decodeNode_list fuel hash l rest :
  Forall Spec.item_ok l -> bytes_ok rest -> zlen (Spec.enc (Spec.Lst l) ++ rest) < 2 ^ 64 ->
  decodeNode (S fuel) hash (Spec.enc (Spec.Lst l) ++ rest) =
  if decide (zlen l = 2) then decodeShort (decodeNode fuel) hash (Spec.enc_all l)
  else if decide (zlen l = 17) then decodeFull (decodeNode fuel) hash (Spec.enc_all l)
  else run (Err (errNumElems (zlen l))).
Proof.
  intros Hl Hr Hz. cbn [decodeNode]. pose proof (zlen_frame_pos List (Spec.enc_all l) I) as Hp.
  assert (zlen (Spec.enc_all l) < 2 ^ 64) as Hz'.
  { pose proof (zlen_frame List (Spec.enc_all l)).
    change (frame List (Spec.enc_all l)) with (Spec.enc (Spec.Lst l)) in *. zlen_lia. }
  change (frame List (Spec.enc_all l)) with (Spec.enc (Spec.Lst l)) in Hp.
  destruct (Spec.enc (Spec.Lst l) ++ rest) as [|x b] eqn:E.
  { apply app_nil in E as [E _]. by rewrite E in Hp. }
  rewrite <- E in *. rewrite SplitList_enc by done. cbn [rlp]. frun. cbv zeta.
  by rewrite count_elems_enc.
Qed.

Lemma titem_Lst t : wft t -> exists l, titem t = Spec.Lst l.
Proof. destruct 1; by eexists. Qed.

(** A child that is embedded is shorter than its parent. *)
Lemma embedded_shorter l c :
  In (ref_item (titem c)) l -> zlen (tenc c) < 32 -> wft c ->
  (length (tenc c) < length (Spec.enc (Spec.Lst l)))%nat.
Proof.
  intros Hin Hlt Hw. destruct (titem_Lst c Hw) as [lc El].
  assert (ref_item (titem c) = titem c) as E.
  { unfold tenc in Hlt. rewrite El in *. unfold ref_item. by rewrite decide_True. }
  rewrite E in Hin. apply in_split in Hin as (l1 & l2 & ->).
  change (Spec.enc (Spec.Lst ?l)) with (Spec.enc_list (Spec.enc_all l)). unfold Spec.enc_list, Spec.header, Spec.enc_all.
  rewrite map_app, concat_app. cbn [map concat]. unfold tenc. case_decide; cbn; rewrite !length_app; lia.
Qed.

Lemma enc_all_app l1 l2 : Spec.enc_all (l1 ++ l2) = Spec.enc_all l1 ++ Spec.enc_all l2.
Proof. unfold Spec.enc_all. by rewrite map_app, concat_app. Qed.

Lemma zlen_content_lt l rest : zlen (Spec.enc (Spec.Lst l) ++ rest) < 2 ^ 64 -> zlen (Spec.enc_all l) < 2 ^ 64.
Proof.
  intros H. pose proof (zlen_frame List (Spec.enc_all l)).
  change (frame List (Spec.enc_all l)) with (Spec.enc (Spec.Lst l)) in *. zlen_lia.
Qed.

Lemma enc_all_cons2 a b : Spec.enc_all [a; b] = Spec.enc a ++ Spec.enc b.
Proof. unfold Spec.enc_all. cbn. by rewrite app_nil_r. Qed.

Lemma decodes_leaf k v : hexkey k -> v <> [] -> content_ok (TShort k (TValue v)) -> decodes (TShort k (TValue v)).
Proof.
  intros Hk Hv Hc fuel hash rest Hf Hr Hz. destruct fuel as [|fuel]; [lia|]. clear Hf.
  pose proof (titem_ok _ (wf_leaf _ _ Hk Hv) Hc) as Hok. unfold tenc in *. cbn [titem] in *.
  apply item_ok_Lst in Hok. rewrite decodeNode_list by done. apply zlen_content_lt in Hz.
  rewrite decide_True by done. unfold decodeShort. rewrite enc_all_cons2 in *.
  apply Forall_cons_1 in Hok as [Hk1 Hok]. apply Forall_cons_1 in Hok as [Hv1 _].
  pose proof (enc_bytes_ok _ Hv1 ltac:(cbn [ref_item] in *; zlen_lia)) as Hb.
  rewrite SplitString_enc by done. cbn [rlp]. frun.
  rewrite compactToHex_compact by by apply compact_hexkey. cbn [lift]. frun.
  rewrite hasTerm_hexkey by done. cbn [ref_item] in *.
  rewrite <- (app_nil_r (Spec.enc (Spec.Str v))). rewrite SplitString_enc; [done|done|constructor|].
  rewrite app_nil_r. zlen_lia.
Qed.

Lemma decodes_ext k cs :
  k <> [] -> Forall is_nibble k -> wft (TFull cs) -> content_ok (TShort k (TFull cs)) -> decodes (TFull cs) ->
  decodes (TShort k (TFull cs)).
Proof.
  intros Hk0 Hk Hw Hc IH fuel hash rest Hf Hr Hz. destruct fuel as [|fuel]; [lia|].
  pose proof (content_ok_short _ _ Hk Hc) as Hc'.
  pose proof (titem_ok _ (wf_ext _ _ Hk0 Hk Hw) Hc) as Hok. unfold tenc in *.
  set (i := ref_item (titem (TFull cs))) in *.
  change (titem (TShort k (TFull cs))) with (Spec.Lst [Spec.Str (compact k); i]) in *.
  apply item_ok_Lst in Hok. rewrite decodeNode_list by done. apply zlen_content_lt in Hz.
  rewrite decide_True by done. unfold decodeShort. rewrite enc_all_cons2 in *.
  apply Forall_cons_1 in Hok as [Hk1 Hok]. apply Forall_cons_1 in Hok as [Hi _].
  pose proof (enc_bytes_ok _ Hi ltac:(zlen_lia)) as Hb.
  rewrite SplitString_enc by done. cbn [rlp]. frun.
  rewrite compactToHex_compact by by apply compact_nibbles. cbn [lift]. frun.
  rewrite hasTerm_nibbles by done. rewrite <- (app_nil_r (Spec.enc i)). unfold i.
  rewrite decodeRef_ok; [done|by right|constructor|rewrite app_nil_r; fold i; zlen_lia|].
  intros Hlt _. apply IH; [|constructor|rewrite app_nil_r; lia].
  assert (length (tenc (TFull cs)) < length (Spec.enc (Spec.Lst [Spec.Str (compact k); i])))%nat; [|lia].
  apply embedded_shorter; [|done|done]. right. by left.
Qed.

Lemma full_split cs :
  wft (TFull cs) -> exists cs16 c, cs = cs16 ++ [c] /\ length cs16 = 16%nat /\ cs !! 16%nat = Some c /\
    (forall i x, cs16 !! i = Some x -> cs !! i = Some x /\ (i < 16)%nat) /\
    (c = TNil \/ exists v, v <> [] /\ c = TValue v).
Proof.
  intros Hw. pose proof (wf_full_length _ Hw) as Hl.
  destruct (lookup_lt_is_Some_2 cs 16) as [c Hc]; [lia|].
  exists (take 16 cs), c. assert (cs = take 16 cs ++ [c]) as E.
  { rewrite <- (take_drop 16 cs) at 1. f_equal. rewrite (drop_S cs c 16) by done.
    f_equal. apply nil_length_inv. rewrite length_drop. lia. }
  split_and!; [done|rewrite length_take; lia|done| |].
  - intros i x Hx. pose proof (lookup_lt_Some _ _ _ Hx) as Hi. rewrite length_take in Hi.
    split; [|lia]. rewrite lookup_take in Hx. by rewrite decide_True in Hx by lia.
  - destruct (wf_full_at _ _ _ Hw Hc) as [->|[[Hx _]|(_ & v & Hv & ->)]]; [by left| |right; eauto].
    unfold is_nibble in Hx. lia.
Qed.

Lemma enc_all_single i : Spec.enc_all [i] = Spec.enc i.
Proof. unfold Spec.enc_all. cbn. apply app_nil_r. Qed.

Lemma decodes_full cs :
  wft (TFull cs) -> content_ok (TFull cs) ->
  (forall i c, (i < 16)%nat -> cs !! i = Some c -> c <> TNil -> content_ok c -> decodes c) -> decodes (TFull cs).
Proof.
  intros Hw Hc IH fuel hash rest Hf Hr Hz. destruct fuel as [|fuel]; [lia|].
  pose proof (titem_ok _ Hw Hc) as Hok. pose proof (wf_full_length _ Hw) as Hl. unfold tenc in *.
  set (l := map (fun c => ref_item (titem c)) cs). change (titem (TFull cs)) with (Spec.Lst l) in *.
  apply item_ok_Lst in Hok. rewrite decodeNode_list by done. apply zlen_content_lt in Hz.
  assert (zlen l = 17) as Hl17 by (unfold l, zlen; rewrite length_map; lia).
  rewrite Hl17, decide_False, decide_True by lia. unfold decodeFull.
  destruct (full_split cs Hw) as (cs16 & c & Ecs & H16 & Hc16 & Hsub & Hlast).
  assert (Spec.enc_all l = Spec.enc_all (map (fun c => ref_item (titem c)) cs16) ++ Spec.enc (ref_item (titem c))) as El.
  { unfold l. rewrite Ecs, map_app, enc_all_app. cbn [map]. by rewrite enc_all_single. }
  assert (Forall Spec.item_ok [ref_item (titem c)]) as Hlok.
  { unfold l in Hok. rewrite Ecs, map_app in Hok. by apply Forall_app in Hok as [_ Hok]. }
  apply Forall_cons_1 in Hlok as [Hlok _].
  rewrite El in *. pose proof (enc_bytes_ok _ Hlok ltac:(zlen_lia)) as Hb. rewrite <- H16.
  rewrite decodeFull_loop_ok; [|..|done|done].
  - frun. rewrite <- (app_nil_r (Spec.enc (ref_item (titem c)))). destruct Hlast as [->|(v & Hv & ->)].
    + cbn [titem ref_item]. rewrite SplitString_enc; [|constructor..|done]. cbn [rlp]. frun. rewrite decide_False by done.
      change (dnode hash (TFull cs)) with (fullNode (map ref_node cs) (mk_nodeFlag hash false)). by rewrite Ecs, map_app.
    + cbn [titem ref_item] in *. rewrite SplitString_enc; [|done|constructor|rewrite app_nil_r; zlen_lia].
      cbn [rlp]. frun. rewrite decide_True by (destruct v; [done|zlen_lia]).
      change (dnode hash (TFull cs)) with (fullNode (map ref_node cs) (mk_nodeFlag hash false)). by rewrite Ecs, map_app.
  - apply Forall_lookup. intros i x Hx. destruct (Hsub i x Hx) as [Hx' Hi].
    assert (content_ok x) as Hcx by by eapply content_ok_sub. split.
    + destruct (wf_full_at _ _ _ Hw Hx') as [->|[[_ ?]|[? _]]]; [by left|by right|lia].
    + intros r Hlt Hwx Hbr Hzr. eapply IH; [exact Hi|done|by apply wft_not_nil|done| |done|done].
      assert (length (tenc x) < length (Spec.enc (Spec.Lst l)))%nat; [|lia].
      apply embedded_shorter; [|done|done]. unfold l. apply in_map_iff. exists x. split; [done|].
      apply list_elem_of_In. by eapply list_elem_of_lookup_2.
Qed.

Lemma decode_ok t : wft t -> content_ok t -> decodes t.
Proof.
  intros Hw. induction Hw as [k v Hk Hv|p cs Hp Hn Hw IH|cs i j ci cj Hl H1 IH H2 Hij Hi Hj Hci Hcj]; intros Hc.
  - by apply decodes_leaf.
  - apply decodes_ext; try done. apply IH. by eapply content_ok_short.
  - apply decodes_full; [by eapply wf_full|done|]. intros. by eapply IH.
Qed.

(** ** The store *)

Inductive subtree : tree -> tree -> Prop :=
| st_refl t : subtree t t
| st_short s k t : subtree s t -> subtree s (TShort k t)
| st_full s cs i c : cs !! i = Some c -> subtree s c -> subtree s (TFull cs).

(** Every subtrie that is referred to by hash is in the store, under its hash. *)
Definition stored (store : bytes -> option bytes) (t : tree) : Prop :=
  forall s, subtree s t -> wft s -> 32 <= zlen (tenc s) -> store (keccak (tenc s)) = Some (tenc s).

Section Store.
Context (store : bytes -> option bytes).
#[local] Instance store_db : NodeDB := db_of store.

Lemma db_node_stored h t :
  store h = Some (tenc t) -> wft t -> content_ok t -> db_node h = Some (dnode (Some h) t).
Proof.
  intros Hs Hw Hc. unfold db_node, store_db, db_of. rewrite Hs. unfold decode_fuel.
  pose proof (decode_ok t Hw Hc (S (length (tenc t))) (Some h) []) as E. rewrite app_nil_r in E.
  pose proof (tenc_size t Hw Hc). by rewrite E by (done || lia || constructor).
Qed.

Lemma dnode_loaded hash t : wft t -> loaded (dnode hash t).
Proof. by destruct 1. Qed.

Definition dnode_ok (t : tree) : Prop :=
  forall hash, flag_ok (mk_nodeFlag hash false) t -> denotes (dnode hash t) t.

Lemma ref_node_denotes c :
  c = TNil \/ (exists v, c = TValue v) \/ (wft c /\ content_ok c /\ stored store c /\ dnode_ok c) -> denotes (ref_node c) c.
Proof.
  intros [->|[[v ->]|(Hw & Hc & Hs & Hd)]]; [constructor..|].
  assert (ref_node c = if decide (zlen (tenc c) < 32) then dnode None c else hashNode (keccak (tenc c))) as ->
    by (by destruct Hw). case_decide as Hl.
  - by apply Hd.
  - assert (is_hash (keccak (tenc c)) c) as Hh by (split; [done|lia]).
    apply (d_hash _ (dnode (Some (keccak (tenc c))) c)); [done| |by apply dnode_loaded|by apply Hd].
    rewrite BytesToHash_id by apply keccak_len. apply db_node_stored; [|done|done].
    apply Hs; [constructor|done|lia].
Qed.

Lemma dnode_denotes t : wft t -> content_ok t -> stored store t -> dnode_ok t.
Proof.
  intros Hw. induction Hw as [k v Hk Hv|p cs Hp Hn Hw IH|cs i j ci cj Hl H1 IH H2 Hij Hi Hj Hci Hcj]; intros Hc Hs hash Hf.
  - constructor; [done|constructor].
  - assert (content_ok (TFull cs)) as Hc' by by eapply content_ok_short.
    assert (stored store (TFull cs)) as Hs' by (intros s Hsub; apply Hs; by constructor).
    apply d_short; [done|]. apply (ref_node_denotes (TFull cs)). right; right. auto.
  - assert (wft (TFull cs)) as Hw by by eapply wf_full.
    apply (d_full (map ref_node cs)); [done|by rewrite length_map|]. intros n x y Hx Hy.
    rewrite list_lookup_fmap, Hy in Hx. injection Hx as <-. apply ref_node_denotes.
    destruct (wf_full_at _ _ _ Hw Hy) as [->|[[Hx Hwc]|(Hx & v & Hv & ->)]]; [by left| |right; left; eauto].
    right; right. assert (n < 16)%nat by (unfold is_nibble in Hx; lia).
    assert (content_ok y) as Hcy by by eapply content_ok_sub.
    assert (stored store y) as Hsy by (intros s Hsub; apply Hs; by eapply st_full).
    split_and!; [done..|]. by eapply IH; [|done|apply wft_not_nil| |].
Qed.

(** The root of the tree, loaded from the store. *)
Lemma root_load t m h :
  wft t -> map_ok m -> stored store t -> store (keccak (tenc t)) = Some (tenc t) ->
  (forall k v, hexkey k ->
     tget t k = Some v <-> exists key, bytes_ok key /\ k = keybytesToHex key /\ m !! key = Some v) ->
  h = keccak (tenc t) ->
  db_node h = Some (dnode (Some h) t) /\ root_represents (dnode (Some h) t) t m.
Proof.
  intros Hw Hm Hs Hroot Hc ->.
  assert (content_ok t) as Hcon.
  { intros k v Hk Hv. apply Hc in Hv as (key & Hb & -> & Hv); [|done].
    destruct (Hm _ _ Hv) as (H1 & H2 & H3). split_and!; [|done|done].
    unfold keybytesToHex, zlen in *. rewrite length_app, length_nibbles. cbn. lia. }
  split; [by apply db_node_stored|].
  exists (dnode (Some (keccak (tenc t))) t). split_and!.
  - constructor. by apply dnode_loaded.
  - split_and!; [|by right|done].
    replace (reflag newFlag (dnode (Some (keccak (tenc t))) t)) with (reflag newFlag (dnode None t)) by (by destruct Hw).
    apply denotes_reflag; [by apply dnode_loaded|by apply dnode_denotes|constructor].
  - done.
  - intros h. destruct Hw; cbn; congruence.
Qed.

End Store.

End Load.

(** ** Decoding arbitrary input *)

Lemma Split_total b :
  bytes_ok b -> zlen b < 2 ^ 64 ->
  (exists e, Split b = Err e) \/
  (exists k c r, Split b = Ret (k, c, r) /\ b = frame k c ++ r /\ frame_ok k c /\ bytes_ok c /\ bytes_ok r).
Proof.
  intros Hb Hl. destruct (readKind b) as [[[k ts] cs]|e|] eqn:Hk; [| |by destruct (readKind_no_panic b)].
  - right. apply readKind_Split in Hk as (c & r & E & Hf & Hs); [|done|done]. exists k, c, r.
    rewrite E in Hb. apply frame_content_ok, Forall_app in Hb as [??]. done.
  - left. exists e. unfold Split. by rewrite Hk.
Qed.

(** A computation on fuel that ends, without panic. *)
Definition safe {E A} (m : fuelled E A) : Prop := exists o, m = Some o /\ o <> Panic.

Lemma safe_bind {E A B} (m : fuelled E A) (f : A -> fuelled E B) :
  safe m -> (forall a, m = run (Ret a) -> safe (f a)) -> safe (m ≫= f).
Proof.
  intros (o & -> & Ho) H. destruct o as [a|e|]; cbn; [by apply H| |done]. by eexists.
Qed.

Lemma safe_ret {E A} (a : A) : safe (run (E:=E) (Ret a)).
Proof. by eexists. Qed.

Lemma safe_err {E A} (e : E) : safe (run (A:=A) (Err e)).
Proof. by eexists. Qed.

#[local] Hint Resolve safe_ret safe_err : go.

Lemma SplitString_safe b : bytes_ok b -> zlen b < 2 ^ 64 -> safe (run (rlp (SplitString b))).
Proof.
  intros Hb Hl. unfold SplitString. destruct (Split_total b Hb Hl) as [[e ->]|(k & c & r & -> & _)];
    cbn [mbind outcome_bind rlp]; [|case_decide]; eauto with go.
Qed.

Lemma SplitString_parts b c r :
  bytes_ok b -> zlen b < 2 ^ 64 -> run (rlp (SplitString b)) = run (Ret (c, r)) ->
  bytes_ok c /\ bytes_ok r /\ zlen r < zlen b.
Proof.
  intros Hb Hl H. unfold SplitString in H.
  destruct (Split_total b Hb Hl) as [[e E]|(k & c' & r' & E & Eb & Hf & Hc & Hr)]; rewrite E in H; [done|].
  cbn [mbind outcome_bind] in H. case_decide; [done|]. cbn in H. unfold run in H. simplify_eq. pose proof (zlen_frame_pos _ _ Hf).
  split_and!; [done|done|zlen_lia].
Qed.

Lemma compactToHex_safe c : bytes_ok c -> exists k, compactToHex c = Ret k.
Proof.
  intros Hc. destruct c as [|x c]; [by eexists|]. unfold compactToHex, keybytesToHex.
  cbn [keybytesToHex_nibbles app]. set (q := x / 16). set (l := x mod 16 :: keybytesToHex_nibbles c ++ [16]).
  change (go_index (E:=Empty_set) (q :: l) 0) with (Ret (E:=Empty_set) q). cbn [mbind outcome_bind].
  assert (2 <= zlen l) as Hl by (unfold l; zlen_lia).
  assert (0 <= Z.land q 1 < 2) as Hq
    by (change 1 with (Z.ones 1); rewrite Z.land_ones by lia; apply Z.mod_pos_bound; lia).
  assert (exists b, (if decide (q < 2) then go_to (E:=Empty_set) (q :: l) (zlen (q :: l) - 1) else Ret (q :: l)) = Ret b
    /\ 2 <= zlen b) as (b & -> & Hb).
  { case_decide; [|exists (q :: l); split; [done|zlen_lia]]. unfold go_to, go_slice.
    rewrite decide_True by zlen_lia. eexists. split; [done|]. unfold zlen. rewrite length_take, length_drop.
    unfold zlen in Hl. cbn [length]. lia. }
  cbn [mbind outcome_bind]. unfold go_from, go_slice. rewrite decide_True by lia. by eexists.
Qed.

Section DecodeSafe.
Context (rec : option bytes -> bytes -> D node) (N : Z).
Hypothesis rec_safe : forall h b, bytes_ok b -> zlen b < N -> safe (rec h b).

Lemma decodeRef_safe b :
  bytes_ok b -> zlen b < N -> N <= 2 ^ 64 ->
  safe (decodeRef rec b) /\
  (forall n r, decodeRef rec b = run (Ret (n, r)) -> bytes_ok r /\ zlen r < zlen b).
Proof.
  intros Hb Hl HN. unfold decodeRef.
  destruct (Split_total b Hb ltac:(lia)) as [[e ->]|(k & c & r & -> & Eb & Hf & Hc & Hr)];
    cbn [rlp]; frun; [split; [apply safe_err|done]|].
  assert (zlen r < zlen b) as Hrl by (pose proof (zlen_frame_pos _ _ Hf); rewrite Eb; zlen_lia).
  repeat case_decide; cbv zeta; try (split; [eauto with go|intros; unfold run in *; by simplify_eq]).
  split.
  - apply safe_bind; [by apply rec_safe|eauto with go].
  - intros n' r' E. destruct (rec None b) as [[n''| |]|]; try done. cbn in E. unfold run in E. by simplify_eq.
Qed.

Lemma decodeShort_safe hash b :
  bytes_ok b -> zlen b < N -> N <= 2 ^ 64 -> safe (decodeShort rec hash b).
Proof.
  intros Hb Hl HN. unfold decodeShort. apply safe_bind; [apply SplitString_safe; [done|lia]|].
  intros [kbuf rest] E. destruct (SplitString_parts _ _ _ Hb ltac:(lia) E) as (Hk & Hr & Hrl).
  cbv zeta. apply safe_bind; [destruct (compactToHex_safe kbuf Hk) as [key ->]; apply safe_ret|].
  intros key _. destruct (hasTerm key).
  - apply safe_bind; [apply SplitString_safe; [done|lia]|]. intros [? ?] _. eauto with go.
  - apply safe_bind; [apply decodeRef_safe; [done|lia|done]|]. intros [? ?] _. eauto with go.
Qed.

Lemma decodeFull_loop_safe i b :
  bytes_ok b -> zlen b < N -> N <= 2 ^ 64 ->
  safe (decodeFull_loop rec i b) /\
  (forall ns r, decodeFull_loop rec i b = run (Ret (ns, r)) -> bytes_ok r /\ zlen r <= zlen b).
Proof.
  intros Hb Hl HN. revert b Hb Hl. induction i as [|i IH]; intros b Hb Hl; cbn [decodeFull_loop].
  - split; [eauto with go|]. intros ns r [= <- <-]. split; [done|lia].
  - destruct (decodeRef_safe b Hb Hl HN) as [H1 H2]. split.
    + apply safe_bind; [done|]. intros [n r] E. destruct (H2 _ _ E) as [Hr Hrl].
      apply safe_bind; [apply IH; [done|lia]|]. intros [? ?] _. eauto with go.
    + intros ns r E. destruct (decodeRef rec b) as [[[n r1]| |]|]; try done. cbn [mbind fuelled_bind run] in E.
      destruct (H2 _ _ eq_refl) as [Hr1 Hrl]. destruct (IH r1 Hr1 ltac:(lia)) as [_ H3].
      destruct (decodeFull_loop rec i r1) as [[[ns2 r2]| |]|]; try done. cbn in E. injection E as <- <-.
      destruct (H3 _ _ eq_refl). split; [done|lia].
Qed.

Lemma decodeFull_safe hash b :
  bytes_ok b -> zlen b < N -> N <= 2 ^ 64 -> safe (decodeFull rec hash b).
Proof.
  intros Hb Hl HN. unfold decodeFull. destruct (decodeFull_loop_safe 16 b Hb Hl HN) as [H1 H2].
  apply safe_bind; [done|]. intros [ns r] E. destruct (H2 _ _ E) as [Hr Hrl].
  apply safe_bind; [apply SplitString_safe; [done|lia]|]. intros [? ?] _. eauto with go.
Qed.

End DecodeSafe.

Lemma decodeNode_safe fuel hash b :
  bytes_ok b -> zlen b < 2 ^ 64 -> (length b < fuel)%nat -> safe (decodeNode fuel hash b).
Proof.
  revert hash b. induction fuel as [|fuel IH]; intros hash b Hb Hz Hf; [lia|]. cbn [decodeNode].
  destruct b as [|x b']; [eauto with go|]. set (b := x :: b') in *. unfold SplitList.
  destruct (Split_total b Hb Hz) as [[e ->]|(k & c & r & -> & Eb & Hk & Hc & Hr)]; [apply safe_err|].
  cbn [mbind outcome_bind]. case_decide as Hkl; [|apply safe_err]. subst k. cbn [rlp]. frun. cbv zeta.
  assert (zlen c < zlen b) as Hcl.
  { rewrite Eb. cbn [frame]. unfold Spec.enc_list, Spec.header. case_decide; zlen_lia. }
  assert (forall h b, bytes_ok b -> zlen b < zlen c + 1 -> safe (decodeNode fuel h b)) as Hrec.
  { intros h b0 Hb0 Hl0. apply IH; [done|lia|]. unfold zlen in *. lia. }
  repeat case_decide; [eapply decodeShort_safe|eapply decodeFull_safe|eauto with go]; (exact Hrec || done || lia).
Qed.

(** Decoding a node is safe on every input.  [decodeNode] terminates on
    every byte string of a length Go can represent, with fuel one more than the
    length, and it never panics, whatever is nested inside. *)
Theorem decodeNode_total hash buf :
  bytes_ok buf -> zlen buf < 2 ^ 63 ->
  exists o, decodeNode (decode_fuel buf) hash buf = Some o /\ no_panic o.
Proof. intros Hb Hz. apply decodeNode_safe; [done|lia|]. unfold decode_fuel. lia. Qed.

Lemma decodeNode_total_witness :
  exists o, decodeNode (decode_fuel [0xc2; 0x80; 0xc0]) None [0xc2; 0x80; 0xc0] = Some o /\ no_panic o.
Proof. apply decodeNode_total; [repeat constructor; lia|reflexivity]. Defined.

(** a trie is restored from its store.  If a store holds, under their
    hashes, the encodings of the root and of all subtries of a trie whose
    encoding has 32 bytes or more, and the root hash is not one of the two that
    stand for the empty trie, then [New] with the root hash returns, without
    error, a trie that represents the same map, for the invariant under which
    the operations and [Hash] are correct. *)
Theorem New_loads {K : Keccak} {db : NodeDB} store emptyRoot n t m :
  root_represents n t m -> map_ok m -> t <> TNil ->
  stored store t -> store (keccak (tenc t)) = Some (tenc t) ->
  root_hash emptyRoot t <> replicate 32 0 -> root_hash emptyRoot t <> emptyRoot ->
  exists T, New (db:=db_of store) emptyRoot (root_hash emptyRoot t) = Ret T /\
    root_represents (db:=db_of store) (root T) t m.
Proof.
  intros (n0 & _ & (_ & Hw & Hc) & _) Hm Ht Hs Hroot Hz He. destruct Hw as [?|Hw]; [done|].
  assert (root_hash emptyRoot t = keccak (tenc t)) as Eh by (by destruct Hw). rewrite Eh in *.
  destruct (root_load store t m _ Hw Hm Hs Hroot Hc eq_refl) as [Hdb Hr].
  unfold New. rewrite decide_True by done. unfold resolveHash. rewrite BytesToHash_id by apply keccak_len.
  change (db_node (NodeDB:=db_of store) (keccak (tenc t)) = Some (dnode (Some (keccak (tenc t))) t)) in Hdb.
  rewrite Hdb. cbn. by eexists.
Qed.

Module LoadExamples.
Import RootExamples.
#[local] Existing Instance ex_keccak.
#[local] Existing Instance ex_empty_db.

Definition ex_hash : bytes := keccak (tenc ex_tree).
Definition ex_store : bytes -> option bytes := fun h => if decide (h = ex_hash) then Some (tenc ex_tree) else None.

Lemma ex_stored : stored ex_store ex_tree.
Proof.
  intros s Hs Hw Hl. exfalso. inversion Hs as [|? ? ? Hs'|]; subst.
  - by vm_compute in Hl.
  - inversion Hs'; subst. inversion Hw.
Qed.

Lemma New_loads_witness :
  exists T, New (db:=db_of ex_store) (replicate 32 5) (root_hash (replicate 32 5) ex_tree) = Ret T /\
    root_represents (db:=db_of ex_store) (root T) ex_tree ex_map.
Proof.
  apply (New_loads (db:=ex_empty_db) ex_store (replicate 32 5) (root ex_root)).
  - exact ex_root_represents.
  - exact ex_map_ok.
  - discriminate.
  - exact ex_stored.
  - reflexivity.
  - vm_compute. discriminate.
  - vm_compute. discriminate.
Defined.

End LoadExamples.
