(* ===== verification/TrieDatabase.v ===== *)
(** * The node database of the tries (trie/database.go)

    The write layer between tries and disk: nodes that are not yet on disk, with the
    counts of the references to them and the list in which they are flushed; garbage
    collection, flushing and committing.  A write to disk may fail.  The cache of clean
    nodes is not configured, and statistics are left out. *)

From stdpp Require Import gmap.
From S2P Require Import Prelude Rlp RlpEncode TrieEncoding Trie TrieProofs TrieHash.

(** ** Nodes without caches *)

Inductive rnode :=
| rawNil
| rawFullNode (n : list rnode)
| rawShortNode (Key : bytes) (Val : rnode)
| rawHash (h : bytes)
| rawValue (v : bytes).

(** The children of a full node may be nil, the child of a short node may not. *)
Fixpoint simplifyNode (n : node) : outcome Empty_set rnode :=
  let simplify_children :=
    fix simplify_children (cs : list node) : outcome Empty_set (list rnode) :=
      match cs with
      | [] => Ret []
      | c :: cs =>
          r ← match c with nilNode => Ret rawNil | _ => simplifyNode c end;
          rs ← simplify_children cs;
          Ret (r :: rs)
      end in
  match n with
  | nilNode => Panic
  | shortNode Key Val _ => r ← simplifyNode Val; Ret (rawShortNode Key r)
  | fullNode Children _ => rs ← simplify_children Children; Ret (rawFullNode rs)
  | hashNode h => Ret (rawHash h)
  | valueNode v => Ret (rawValue v)
  end.

Fixpoint expandNode (hash : option bytes) (n : rnode) : outcome Empty_set node :=
  let expand_children :=
    fix expand_children (cs : list rnode) : outcome Empty_set (list node) :=
      match cs with
      | [] => Ret []
      | c :: cs =>
          r ← match c with rawNil => Ret nilNode | _ => expandNode None c end;
          rs ← expand_children cs;
          Ret (r :: rs)
      end in
  match n with
  | rawNil => Panic
  | rawShortNode Key Val => key ← compactToHex Key; v ← expandNode None Val; Ret (shortNode key v (mk_nodeFlag hash false))
  | rawFullNode cs => rs ← expand_children cs; Ret (fullNode rs (mk_nodeFlag hash false))
  | rawHash h => Ret (hashNode h)
  | rawValue v => Ret (valueNode v)
  end.

(** The hashes of the children of a node, in order. *)
Fixpoint forGatherChildren (n : rnode) : list bytes :=
  match n with
  | rawShortNode _ Val => forGatherChildren Val
  | rawFullNode cs => concat (take 16 (map forGatherChildren cs))
  | rawHash h => [BytesToHash h]
  | rawValue _ | rawNil => []
  end.

(** The node as the RLP encoder sees it. *)
Fixpoint rnode_val (n : rnode) : val :=
  match n with
  | rawNil => IfaceV None
  | rawValue v => IfaceV (Some (BytesV v))
  | rawHash h => IfaceV (Some (BytesV h))
  | rawShortNode Key Val => IfaceV (Some (PtrV List (Some (StructV [BytesV Key; rnode_val Val]))))
  | rawFullNode cs =>
      IfaceV (Some (SliceV false (map (fun c => match c with rawNil => IfaceV (Some (BytesV [])) | _ => rnode_val c end) cs)))
  end.

(** ** The database *)

Record cachedNode := mk_cachedNode {
  cn_node : rnode;
  cn_size : Z;
  parents : Z;
  children : option (gmap bytes Z);
  flushPrev : bytes;
  flushNext : bytes
}.

Definition cn_rlp (n : cachedNode) : outcome Empty_set bytes :=
  match EncodeToBytes (rnode_val (cn_node n)) with Ret e => Ret e | _ => Panic end.

(** What is on disk; [faults] tells which of the next batch writes fail. *)
Record Disk := mk_Disk { kv : gmap bytes bytes; kv_preimages : gmap bytes bytes; faults : list bool }.

Record Database := mk_Database {
  diskdb : Disk;
  dirties : gmap bytes cachedNode;
  oldest : bytes;
  newest : bytes;
  preimages : option (gmap bytes bytes);
  dirtiesSize : Z;
  childrenSize : Z;
  preimagesSize : Z
}.

Definition zeroHash : bytes := replicate 32 0.
#[global] Arguments zeroHash : simpl never.
Definition HashLength : Z := 32.
Definition cachedNodeChildrenSize : Z := 48.
Definition IdealBatchSize : Z := 100 * 1024.

Notation R A := (outcome Empty_set A).

Definition set_dirties (db : Database) (d : gmap bytes cachedNode) : Database :=
  mk_Database (diskdb db) d (oldest db) (newest db) (preimages db) (dirtiesSize db) (childrenSize db) (preimagesSize db).
Definition set_flush (db : Database) (old new : bytes) : Database :=
  mk_Database (diskdb db) (dirties db) old new (preimages db) (dirtiesSize db) (childrenSize db) (preimagesSize db).
Definition add_sizes (db : Database) (d c : Z) : Database :=
  mk_Database (diskdb db) (dirties db) (oldest db) (newest db) (preimages db) (dirtiesSize db + d) (childrenSize db + c) (preimagesSize db).
Definition set_diskdb (db : Database) (d : Disk) : Database :=
  mk_Database d (dirties db) (oldest db) (newest db) (preimages db) (dirtiesSize db) (childrenSize db) (preimagesSize db).
Definition set_preimages (db : Database) (p : option (gmap bytes bytes)) (size : Z) : Database :=
  mk_Database (diskdb db) (dirties db) (oldest db) (newest db) p (dirtiesSize db) (childrenSize db) size.

Definition set_parents (n : cachedNode) (p : Z) : cachedNode := mk_cachedNode (cn_node n) (cn_size n) p (children n) (flushPrev n) (flushNext n).
Definition set_children (n : cachedNode) (c : option (gmap bytes Z)) : cachedNode := mk_cachedNode (cn_node n) (cn_size n) (parents n) c (flushPrev n) (flushNext n).
Definition set_flushPrev (n : cachedNode) (h : bytes) : cachedNode := mk_cachedNode (cn_node n) (cn_size n) (parents n) (children n) h (flushNext n).
Definition set_flushNext (n : cachedNode) (h : bytes) : cachedNode := mk_cachedNode (cn_node n) (cn_size n) (parents n) (children n) (flushPrev n) h.

(** [db.dirties[hash]] as a pointer that is dereferenced, and a change through it. *)
Definition deref (db : Database) (hash : bytes) : R cachedNode :=
  match dirties db !! hash with Some n => Ret n | None => Panic end.
Definition change (db : Database) (hash : bytes) (f : cachedNode -> cachedNode) : R Database :=
  n ← deref db hash; Ret (set_dirties db (<[hash := f n]> (dirties db))).

Definition NewDatabase (disk : Disk) (collect : bool) : Database :=
  mk_Database disk {[zeroHash := mk_cachedNode rawNil 0 0 (Some ∅) zeroHash zeroHash]} zeroHash zeroHash (if collect then Some ∅ else None) 0 0 0.

Section Range.
(** The order in which [range] visits the keys of a map. *)
Context (range : gmap bytes Z -> list bytes).

(** [forChilds] *)
Definition forChilds (n : cachedNode) : list bytes :=
  match children n with Some m => range m | None => [] end ++ forGatherChildren (cn_node n).

(** [c.parents++] for those of the hashes that are cached. *)
Definition add_parent (d : gmap bytes cachedNode) (child : bytes) : gmap bytes cachedNode :=
  match d !! child with
  | Some c => <[child := set_parents c (u32 (parents c + 1))]> d
  | None => d
  end.

Definition insert (db : Database) (hash : bytes) (size : Z) (n : node) : R Database :=
  match dirties db !! hash with
  | Some _ => Ret db
  | None =>
      r ← simplifyNode n;
      let entry := mk_cachedNode r (u16 size) 0 None (newest db) zeroHash in
      let d := fold_left add_parent (forChilds entry) (dirties db) in
      let db := set_dirties db (<[hash := entry]> d) in
      db ← (if decide (oldest db = zeroHash) then Ret (set_flush db hash hash)
            else
              db' ← change db (newest db) (fun n => set_flushNext n hash);
              Ret (set_flush db' (oldest db') hash));
      Ret (add_sizes db (HashLength + cn_size entry) 0)
  end.

Definition insertPreimage (db : Database) (hash preimage : bytes) : Database :=
  match preimages db with
  | None => db
  | Some p =>
      match p !! hash with
      | Some _ => db
      | None => set_preimages db (Some (<[hash := preimage]> p)) (preimagesSize db + HashLength + zlen preimage)
      end
  end.

(** [node]: [None] is a nil node; a node that cannot be decoded or expanded is a panic. *)
Definition db_get (db : Database) (hash : bytes) : outcome Empty_set (option node) :=
  match dirties db !! hash with
  | Some n => r ← expandNode (Some hash) (cn_node n); Ret (Some r)
  | None =>
      match kv (diskdb db) !! hash with
      | None => Ret None
      | Some enc =>
          match decodeNode (S (length enc)) (Some hash) enc with
          | Some (Ret n) => Ret (Some n)
          | _ => Panic
          end
      end
  end.

(** [Node] *)
Definition Node (db : Database) (hash : bytes) : outcome Empty_set (option bytes) :=
  if decide (hash = zeroHash) then Ret None
  else
    match dirties db !! hash with
    | Some n => r ← cn_rlp n; Ret (Some r)
    | None => match kv (diskdb db) !! hash with Some enc => Ret (if decide (enc = []) then None else Some enc) | None => Ret None end
    end.

(** [reference]; [Reference] takes the lock around it. *)
Definition reference (db : Database) (child parent : bytes) : R Database :=
  match dirties db !! child with
  | None => Ret db
  | Some node =>
      p ← deref db parent;
      let '(m, db, known) :=
        match children p with
        | None => (∅, add_sizes db 0 cachedNodeChildrenSize, false)
        | Some m => (m, db, bool_decide (is_Some (m !! child)))
        end in
      if (known : bool) && bool_decide (parent <> zeroHash) then Ret db
      else
        db ← change db child (fun n => set_parents n (u32 (parents n + 1)));
        let count := u16 (default 0 (m !! child) + 1) in
        db ← change db parent (fun n => set_children n (Some (<[child := count]> m)));
        Ret (if decide (count = 1) then add_sizes db 0 (HashLength + 2) else db)
  end.

(** ** Garbage collection *)

(** Removing a node from the flush-list, in [dereference] and [cleaner.Put]. *)
Definition unlink (db : Database) (hash : bytes) (node : cachedNode) : R Database :=
  if decide (hash = oldest db) then
    let db := set_flush db (flushNext node) (newest db) in
    change db (flushNext node) (fun n => set_flushPrev n zeroHash)
  else if decide (hash = newest db) then
    let db := set_flush db (oldest db) (flushPrev node) in
    change db (flushPrev node) (fun n => set_flushNext n zeroHash)
  else
    db ← change db (flushPrev node) (fun n => set_flushNext n (flushNext node));
    change db (flushNext node) (fun n => set_flushPrev n (flushPrev node)).

(** A callback on each of the hashes, in turn. *)
Fixpoint for_each (f : Database -> bytes -> fuelled Empty_set Database) (l : list bytes) (db : Database) : fuelled Empty_set Database :=
  match l with
  | [] => run (Ret db)
  | h :: l => db ← f db h; for_each f l db
  end.

(** [node.children[child]--] *)
Definition drop_child (db : Database) (parent child : bytes) (node : cachedNode) : R Database :=
  match children node with
  | Some m =>
      let c := default 0 (m !! child) in
      if decide (c > 0) then
        if decide (c - 1 = 0) then
          db ← change db parent (fun n => set_children n (Some (base.delete child m)));
          Ret (add_sizes db 0 (- (HashLength + 2)))
        else change db parent (fun n => set_children n (Some (<[child := c - 1]> m)))
      else Ret db
  | None => Ret db
  end.

(** The fuel bounds the depth of the references. *)
Fixpoint dereference (fuel : nat) (db : Database) (child parent : bytes) : fuelled Empty_set Database :=
  match fuel with
  | O => out_of_fuel
  | S fuel =>
      node ← run (deref db parent);
      db ← run (drop_child db parent child node);
      match dirties db !! child with
      | None => run (Ret db)
      | Some node =>
          let node := if decide (parents node > 0) then set_parents node (parents node - 1) else node in
          let db := set_dirties db (<[child := node]> (dirties db)) in
          if decide (parents node = 0) then
            db ← run (unlink db child node);
            db ← for_each (fun db h => dereference fuel db h child) (forChilds node) db;
            let db := set_dirties db (base.delete child (dirties db)) in
            run (Ret (add_sizes db (- (HashLength + cn_size node)) (if children node then - cachedNodeChildrenSize else 0)))
          else run (Ret db)
      end
  end.

Definition Dereference (db : Database) (root : bytes) : fuelled Empty_set Database :=
  if decide (root = zeroHash) then run (Ret db) else dereference (S (size (dirties db))) db root zeroHash.

(** ** Writing to disk *)

Record Batch := mk_Batch { b_nodes : list (bytes * bytes); b_preimages : list (bytes * bytes); b_size : Z }.
Definition NewBatch : Batch := mk_Batch [] [] 0.

Definition WriteTrieNode (b : Batch) (hash node : bytes) : Batch :=
  mk_Batch (b_nodes b ++ [(hash, node)]) (b_preimages b) (b_size b + zlen node).
Definition WritePreimages (b : Batch) (p : gmap bytes bytes) : Batch :=
  mk_Batch (b_nodes b) (b_preimages b ++ map_to_list p) (b_size b + foldr (fun kv n => zlen kv.2 + n) 0 (map_to_list p)).

(** A batch is written as a whole or not at all. *)
Definition put_all (l : list (bytes * bytes)) (m : gmap bytes bytes) : gmap bytes bytes := fold_left (fun m '(k, v) => <[k := v]> m) l m.
Definition batch_Write (b : Batch) (d : Disk) : Disk * bool :=
  match faults d with
  | true :: fs => (mk_Disk (kv d) (kv_preimages d) fs, false)
  | fs => (mk_Disk (put_all (b_nodes b) (kv d)) (put_all (b_preimages b) (kv_preimages d)) (tail fs), true)
  end.

Definition cachedNodeSize : Z := 96.
Definition external_size (n : cachedNode) : Z :=
  match children n with Some m => cachedNodeChildrenSize + Z.of_nat (size m) * (HashLength + 2) | None => 0 end.

(** What [Cap] and [Commit] leave, and whether a write failed. *)
Notation W A := (fuelled Empty_set (A * bool)).

(** The first loop of [Cap]: the nodes that go to disk, up to the one that is returned. *)
Fixpoint cap_flush (fuel : nat) (db : Database) (b : Batch) (size limit : Z) (old : bytes) : W (Database * Batch * bytes) :=
  if decide (size > limit /\ old <> zeroHash) then
    match fuel with
    | O => out_of_fuel
    | S fuel =>
        node ← run (deref db old);
        blob ← run (cn_rlp node);
        let b := WriteTrieNode b old blob in
        let '(db, b, ok) :=
          if decide (b_size b >= IdealBatchSize) then
            let '(d, ok) := batch_Write b (diskdb db) in (set_diskdb db d, NewBatch, ok)
          else (db, b, true) in
        if (ok : bool) then cap_flush fuel db b (size - (HashLength + cn_size node + cachedNodeSize) - external_size node) limit (flushNext node)
        else run (Ret (db, b, old, false))
    end
  else run (Ret (db, b, old, true)).

(** The second loop of [Cap]. *)
Fixpoint cap_clear (fuel : nat) (db : Database) (old : bytes) : fuelled Empty_set Database :=
  if decide (oldest db <> old) then
    match fuel with
    | O => out_of_fuel
    | S fuel =>
        node ← run (deref db (oldest db));
        let db := set_dirties db (base.delete (oldest db) (dirties db)) in
        let db := set_flush db (flushNext node) (newest db) in
        cap_clear fuel (add_sizes db (- (HashLength + cn_size node)) (- external_size node)) old
    end
  else run (Ret db).

Definition Cap (db : Database) (limit : Z) : W Database :=
  meta ← run (deref db zeroHash);
  let size0 := dirtiesSize db + (Z.of_nat (size (dirties db)) - 1) * cachedNodeSize in
  let size0 := size0 + (childrenSize db - match children meta with Some m => Z.of_nat (size m) * (HashLength + 2) | None => 0 end) in
  let flushPreimages := bool_decide (preimagesSize db > 4 * 1024 * 1024) in
  let '(db, b, ok) :=
    match flushPreimages, preimages db with
    | true, Some p =>
        let b := WritePreimages NewBatch p in
        if decide (b_size b > IdealBatchSize) then
          let '(d, ok) := batch_Write b (diskdb db) in (set_diskdb db d, NewBatch, ok)
        else (db, b, true)
    | _, _ => (db, NewBatch, true)
    end in
  if negb ok then run (Ret (db, false))
  else
    '(db, b, old, ok) ← cap_flush (size (dirties db)) db b size0 limit (oldest db);
    if negb ok then run (Ret (db, false))
    else
      let '(d, ok) := batch_Write b (diskdb db) in
      let db := set_diskdb db d in
      if negb ok then run (Ret (db, false))
      else
        let db := match flushPreimages, preimages db with true, Some _ => set_preimages db (Some ∅) 0 | _, _ => db end in
        db ← cap_clear (size (dirties db)) db old;
        if decide (oldest db <> zeroHash) then
          db ← run (change db (oldest db) (fun n => set_flushPrev n zeroHash));
          run (Ret (db, true))
        else run (Ret (db, true)).

(** [cleaner.Put] *)
Definition cleaner_Put (db : Database) (hash : bytes) : R Database :=
  match dirties db !! hash with
  | None => Ret db
  | Some node =>
      db ← unlink db hash node;
      let db := set_dirties db (base.delete hash (dirties db)) in
      Ret (add_sizes db (- (HashLength + cn_size node) - external_size node) 0)
  end.

(** [batch.Replay(uncacher)] *)
Fixpoint Replay (db : Database) (l : list (bytes * bytes)) : R Database :=
  match l with
  | [] => Ret db
  | (hash, _) :: l => db ← cleaner_Put db hash; Replay db l
  end.

(** The callback of [commit] on the children: the first error ends it. *)
Fixpoint commit_each (f : Database -> Batch -> bytes -> W (Database * Batch)) (l : list bytes) (db : Database) (b : Batch) : W (Database * Batch) :=
  match l with
  | [] => run (Ret (db, b, true))
  | h :: l =>
      '(db, b, ok) ← f db b h;
      if (ok : bool) then commit_each f l db b else run (Ret (db, b, false))
  end.

Fixpoint commit (fuel : nat) (db : Database) (b : Batch) (hash : bytes) : W (Database * Batch) :=
  match fuel with
  | O => out_of_fuel
  | S fuel =>
      match dirties db !! hash with
      | None => run (Ret (db, b, true))
      | Some node =>
          '(db, b, ok) ← commit_each (commit fuel) (forChilds node) db b;
          if negb ok then run (Ret (db, b, false))
          else
            blob ← run (cn_rlp node);
            let b := WriteTrieNode b hash blob in
            if decide (b_size b >= IdealBatchSize) then
              let '(d, ok) := batch_Write b (diskdb db) in
              let db := set_diskdb db d in
              if negb ok then run (Ret (db, b, false))
              else
                db ← run (Replay db (b_nodes b));
                run (Ret (db, NewBatch, true))
            else run (Ret (db, b, true))
      end
  end.

Definition Commit (db : Database) (node : bytes) : W Database :=
  let '(db, ok) :=
    match preimages db with
    | Some p =>
        let b := WritePreimages NewBatch p in
        let '(db, b, ok) :=
          if decide (b_size b > IdealBatchSize) then
            let '(d, ok) := batch_Write b (diskdb db) in (set_diskdb db d, NewBatch, ok)
          else (db, b, true) in
        if (ok : bool) then let '(d, ok) := batch_Write b (diskdb db) in (set_diskdb db d, ok) else (db, false)
    | None => (db, true)
    end in
  if negb ok then run (Ret (db, false))
  else
    '(db, b, ok) ← commit (S (size (dirties db))) db NewBatch node;
    if negb ok then run (Ret (db, false))
    else
      let '(d, ok) := batch_Write b (diskdb db) in
      let db := set_diskdb db d in
      if negb ok then run (Ret (db, false))
      else
        db ← run (Replay db (b_nodes b));
        run (Ret (match preimages db with Some _ => set_preimages db (Some ∅) 0 | None => db end, true)).

(** [Size] *)
Definition Size (db : Database) : R (Z * Z) :=
  meta ← deref db zeroHash;
  let metadataSize := (Z.of_nat (size (dirties db)) - 1) * cachedNodeSize in
  let metarootRefs := match children meta with Some m => Z.of_nat (size m) * (HashLength + 2) | None => 0 end in
  Ret (dirtiesSize db + childrenSize db + metadataSize - metarootRefs, preimagesSize db).

End Range.
