(* ===== verification/TrieDatabaseProofs.v ===== *)
(** * The flush-list of the node database (trie/database.go)

    Occurrences in lists of references, and the doubly linked list of the nodes in the
    order in which they were inserted. *)

From stdpp Require Import gmap.
From S2P Require Import Prelude Rlp RlpEncode TrieEncoding Trie TrieProofs TrieHash TrieDatabase.

(** ** Counting *)

(** The occurrences of [k] in a list. *)
Definition occ (k : bytes) (l : list bytes) : nat := length (base.filter (fun x => x = k) l).

Lemma occ_nil k : occ k [] = O.
Proof. done. Qed.

Lemma occ_cons k x l : occ k (x :: l) = ((if decide (x = k) then 1 else 0) + occ k l)%nat.
Proof. unfold occ. rewrite filter_cons. by case_decide. Qed.

Lemma occ_app k l1 l2 : occ k (l1 ++ l2) = (occ k l1 + occ k l2)%nat.
Proof. unfold occ. by rewrite list.filter_app, length_app. Qed.

Lemma occ_pos k l : (0 < occ k l)%nat <-> k ∈ l.
Proof.
  induction l as [|x l IH]; [rewrite occ_nil; split; [lia|by intros ?%elem_of_nil]|]. rewrite occ_cons, elem_of_cons. case_decide; [|rewrite <- IH]; naive_solver lia.
Qed.

Lemma occ_zero k l : k ∉ l -> occ k l = O.
Proof. rewrite <- occ_pos. lia. Qed.

Lemma occ_perm k l l' : l ≡ₚ l' -> occ k l = occ k l'.
Proof. intros H. unfold occ. by rewrite H. Qed.

(** ** Entries without their place in the flush-list *)

Record bare := mk_bare { b_node : rnode; b_sz : Z; b_parents : Z; b_children : option (gmap bytes Z) }.
Definition strip (e : cachedNode) : bare := mk_bare (cn_node e) (cn_size e) (parents e) (children e).
Definition bares (db : Database) : gmap bytes bare := strip <$> dirties db.

Lemma bares_lookup db h : bares db !! h = strip <$> (dirties db !! h).
Proof. apply lookup_fmap. Qed.

Lemma bares_Some db h e : dirties db !! h = Some e -> bares db !! h = Some (strip e).
Proof. intros H. by rewrite bares_lookup, H. Qed.

Lemma bares_inv db h b : bares db !! h = Some b -> exists e, dirties db !! h = Some e /\ b = strip e.
Proof. rewrite bares_lookup. destruct (dirties db !! h) as [e|]; [|done]. intros [= <-]. by exists e. Qed.

Lemma change_Ret db h f e : dirties db !! h = Some e -> change db h f = Ret (set_dirties db (<[h := f e]> (dirties db))).
Proof. intros H. unfold change, deref. by rewrite H. Qed.

(** A change of the links of one entry. *)
Definition relink (f : cachedNode -> cachedNode) : Prop := forall e, strip (f e) = strip e.

Lemma relink_prev h : relink (fun n => set_flushPrev n h).
Proof. done. Qed.

Lemma relink_next h : relink (fun n => set_flushNext n h).
Proof. done. Qed.

Lemma bares_relink db db' h f e : relink f -> dirties db !! h = Some e -> dirties db' = <[h := f e]> (dirties db) -> bares db' = bares db.
Proof.
  intros Hf He E. unfold bares. rewrite E, fmap_insert, Hf. apply insert_id. by rewrite lookup_fmap, He.
Qed.

(** What is kept when only links change. *)
Record same_but_links (db db' : Database) : Prop := {
  sl_bares : bares db' = bares db;
  sl_disk : diskdb db' = diskdb db;
  sl_preimages : preimages db' = preimages db
}.

(** ** The flush-list *)

(** The entries [L], linked in both directions, the last of them to [next]; the first of them back to [prev], if that is known. *)
Fixpoint linked (d : gmap bytes cachedNode) (prev : option bytes) (L : list bytes) (next : bytes) : Prop :=
  match L with
  | [] => True
  | h :: L => exists e, d !! h = Some e /\ (forall p, prev = Some p -> flushPrev e = p) /\ flushNext e = hd next L /\ linked d (Some h) L next
  end.

Fixpoint back (prev : option bytes) (L : list bytes) : option bytes := match L with [] => prev | h :: L => back (Some h) L end.

Lemma linked_app d prev L1 L2 next : linked d prev (L1 ++ L2) next <-> linked d prev L1 (hd next L2) /\ linked d (back prev L1) L2 next.
Proof.
  revert prev. induction L1 as [|h L1 IH]; intros prev; [naive_solver|]. cbn [app linked]. setoid_rewrite IH.
  replace (hd next (L1 ++ L2)) with (hd (hd next L2) L1) by (by destruct L1). cbn [back]. naive_solver.
Qed.

Lemma linked_frame d prev L next h e : h ∉ L -> linked d prev L next -> linked (<[h := e]> d) prev L next.
Proof.
  revert prev. induction L as [|x L IH]; intros prev Hh; [done|]. cbn. intros (ex & Hx & Hp & Hn & Hl). exists ex.
  rewrite lookup_insert_ne by set_solver. split; [done|]. split; [done|]. split; [done|]. apply IH; [set_solver|done].
Qed.

Lemma linked_delete d prev L next h : h ∉ L -> linked d prev L next -> linked (base.delete h d) prev L next.
Proof.
  revert prev. induction L as [|x L IH]; intros prev Hh; [done|]. cbn. intros (ex & Hx & Hp & Hn & Hl). exists ex.
  rewrite lookup_delete_ne by set_solver. split; [done|]. split; [done|]. split; [done|]. apply IH; [set_solver|done].
Qed.

(** The link back of the first entry, and the link of the last. *)
Lemma linked_set_prev d prev h L next e q :
  h ∉ L -> d !! h = Some e -> linked d prev (h :: L) next -> linked (<[h := set_flushPrev e q]> d) (Some q) (h :: L) next.
Proof.
  intros Hh He (e' & He' & _ & Hn & Hl). assert (e' = e) as -> by congruence. exists (set_flushPrev e q). rewrite lookup_insert_eq.
  split; [done|]. split; [by intros p [= ->]|]. split; [done|]. by apply linked_frame.
Qed.

Lemma linked_set_next d prev L h next e q :
  h ∉ L -> d !! h = Some e -> linked d prev (L ++ [h]) next -> linked (<[h := set_flushNext e q]> d) prev (L ++ [h]) q.
Proof.
  intros Hh He [H1 (e' & He' & Hp & _ & _)]%linked_app. assert (e' = e) as -> by congruence. apply linked_app. split; [by apply linked_frame|].
  exists (set_flushNext e q). by rewrite lookup_insert_eq.
Qed.

Lemma linked_any d prev L next : linked d prev L next -> linked d None L next.
Proof. destruct L as [|h L]; [done|]. intros (e & He & _ & H). by exists e. Qed.

Lemma linked_Some d prev L next h : linked d prev L next -> h ∈ L -> is_Some (d !! h).
Proof.
  revert prev. induction L as [|x L IH]; intros prev; [by intros _ ?%elem_of_nil|]. cbn. intros (e & He & _ & _ & Hl) [->|Hh]%elem_of_cons; [by eexists|by eapply IH].
Qed.

(** Nothing is said of the link back from the oldest entry, nor of [newest] when the list is empty. *)
Record flush_list (db : Database) (L : list bytes) : Prop := {
  fl_oldest : oldest db = hd zeroHash L;
  fl_newest : forall h, back None L = Some h -> newest db = h;
  fl_links : linked (dirties db) None L zeroHash;
  fl_nodup : NoDup L;
  fl_zero : zeroHash ∉ L
}.

Lemma back_snoc prev L h : back prev (L ++ [h]) = Some h.
Proof. revert prev. induction L as [|x L IH]; intros prev; [done|apply IH]. Qed.

Lemma back_in L h : back None L = Some h -> h ∈ L.
Proof.
  destruct L as [|x L] using rev_ind; [done|]. rewrite back_snoc. intros [= ->]. set_solver.
Qed.

Lemma back_app prev L1 L2 : L2 <> [] -> back prev (L1 ++ L2) = back None L2.
Proof. intros H. destruct L2 as [|x L2] using rev_ind; [done|]. by rewrite app_assoc, !back_snoc. Qed.

Lemma back_None prev h L : back prev (h :: L) = back None (h :: L).
Proof. done. Qed.

Lemma change_links db h f e :
  relink f -> dirties db !! h = Some e -> same_but_links db (set_dirties db (<[h := f e]> (dirties db))).
Proof. intros Hf He. split; [by eapply bares_relink|done|done]. Qed.

#[export] Instance same_but_links_trans : Transitive same_but_links.
Proof. intros x y z [] []. split; congruence. Qed.

(** Taking an entry out of the flush-list: the oldest, the newest, or one in between. *)
Lemma unlink_first db h L e e0 :
  flush_list db (h :: L) -> dirties db !! h = Some e -> dirties db !! zeroHash = Some e0 ->
  exists db', unlink db h e = Ret db' /\ flush_list db' L /\ same_but_links db db'.
Proof.
  intros [Ho Hn (e' & He' & _ & Hnx & Hl) [Hh Hd]%list.NoDup_cons Hz] He H0. cbn in Ho. assert (e' = e) as -> by congruence.
  unfold unlink. rewrite decide_True by done. rewrite Hnx. destruct L as [|x L]; cbn [hd].
  - erewrite change_Ret by exact H0. eexists. split; [done|]. split; [by split; [| | |exact Hd|apply not_elem_of_nil]|]. split; [|done|done]. by eapply bares_relink; [apply relink_prev|exact H0|].
  - destruct (linked_Some _ _ _ _ x Hl) as [ex Hx]; [set_solver|]. erewrite change_Ret by exact Hx. eexists. split; [done|]. split.
    + split; [done|exact Hn| |done|set_solver]. eapply linked_any, linked_set_prev; [by apply list.NoDup_cons in Hd as [??]|done|exact Hl].
    + split; [|done|done]. by eapply bares_relink; [apply relink_prev|exact Hx|].
Qed.

Lemma unlink_last db L p h e :
  flush_list db ((L ++ [p]) ++ [h]) -> dirties db !! h = Some e ->
  exists db', unlink db h e = Ret db' /\ flush_list db' (L ++ [p]) /\ same_but_links db db'.
Proof.
  intros [Ho Hn Hl Hd Hz] He. apply linked_app in Hl as [Hl (e' & He' & Hp & _)]. rewrite back_snoc in Hp. specialize (Hp p eq_refl).
  assert (e' = e) as -> by congruence. specialize (Hn h). rewrite back_snoc in Hn. specialize (Hn eq_refl).
  apply list.NoDup_app in Hd as (Hd & Hdj & _). assert (oldest db <> h) as Hne by (rewrite Ho; destruct L; cbn; set_solver).
  destruct (linked_Some _ _ _ _ p Hl) as [ep Hep]; [set_solver|]. unfold unlink. rewrite decide_False by done. rewrite decide_True by done. rewrite Hp.
  erewrite change_Ret by exact Hep. eexists. split; [done|]. split.
  - split; [rewrite <- app_assoc in Ho; cbn; rewrite Ho; by destruct L|intros q; rewrite back_snoc; by intros [= ->]| |done|set_solver].
    apply list.NoDup_app in Hd as (_ & Hdp & _). eapply linked_set_next; [set_solver|done|exact Hl].
  - split; [|done|done]. by eapply bares_relink; [apply relink_next|exact Hep|].
Qed.

Lemma unlink_middle db L p h x L2 e :
  flush_list db ((L ++ [p]) ++ h :: x :: L2) -> dirties db !! h = Some e ->
  exists db', unlink db h e = Ret db' /\ flush_list db' ((L ++ [p]) ++ x :: L2) /\ same_but_links db db'.
Proof.
  intros [Ho Hn Hl Hd Hz] He. apply linked_app in Hl as [Hl (e' & He' & Hp & Hnx & Hr)]. rewrite back_snoc in Hp. specialize (Hp p eq_refl).
  assert (e' = e) as -> by congruence. rewrite back_app in Hn by done.
  apply list.NoDup_app in Hd as (Hd & Hdj & [Hhx Hd2]%list.NoDup_cons). assert (oldest db <> h) as Hno by (rewrite Ho; destruct L; cbn; set_solver).
  assert (newest db <> h) as Hnn.
  { destruct (back None (x :: L2)) as [q|] eqn:Hq; [|by destruct L2 as [|? ? _] using rev_ind; [|rewrite app_comm_cons, back_snoc in Hq]].
    rewrite (Hn q Hq). apply back_in in Hq. set_solver. }
  destruct (linked_Some _ _ _ _ p Hl) as [ep Hep]; [set_solver|]. destruct (linked_Some _ _ _ _ x Hr) as [ex Hx]; [set_solver|].
  assert (p <> x) as Hpx by set_solver. unfold unlink. rewrite !decide_False by done. rewrite Hp, Hnx. cbn [hd].
  erewrite change_Ret by exact Hep. assert (dirties (set_dirties db (<[p:=set_flushNext ep x]> (dirties db))) !! x = Some ex) as Hx' by (cbn; by rewrite lookup_insert_ne).
  cbn. erewrite change_Ret by exact Hx'. eexists. split; [done|]. split.
  - split; [|by rewrite back_app by done| | |set_solver].
    + cbn. rewrite Ho, <- !app_assoc. by destruct L.
    + apply list.NoDup_app in Hd as (_ & Hdp & _). apply linked_app. split; cbn.
      * apply linked_frame; [set_solver|]. eapply linked_set_next; [set_solver|done|exact Hl].
      * rewrite back_snoc. apply list.NoDup_cons in Hd2 as [Hx2 _]. eapply linked_set_prev; [done|by rewrite lookup_insert_ne|]. apply linked_frame; [set_solver|exact Hr].
    + apply list.NoDup_app. set_solver.
  - transitivity (set_dirties db (<[p:=set_flushNext ep x]> (dirties db))); [by apply (change_links _ _ (fun n => set_flushNext n x))|by apply (change_links _ _ (fun n => set_flushPrev n p))].
Qed.

Lemma unlink_ok db L1 h L2 e e0 :
  flush_list db (L1 ++ h :: L2) -> dirties db !! h = Some e -> dirties db !! zeroHash = Some e0 ->
  exists db', unlink db h e = Ret db' /\ flush_list db' (L1 ++ L2) /\ same_but_links db db'.
Proof.
  intros Hf He H0. destruct L1 as [|p L1 _] using rev_ind; [by eapply unlink_first|].
  destruct L2 as [|x L2]; [|by eapply unlink_middle]. rewrite app_nil_r. by eapply unlink_last.
Qed.

(** Adding an entry at the end of the flush-list, as [insert] does. *)
Definition append (db : Database) (h : bytes) : outcome Empty_set Database :=
  if decide (oldest db = zeroHash) then Ret (set_flush db h h)
  else
    db' ← change db (newest db) (fun n => set_flushNext n h);
    Ret (set_flush db' (oldest db') h).

Lemma append_ok db L h e :
  flush_list db L -> dirties db !! h = None -> h <> zeroHash -> flushPrev e = newest db -> flushNext e = zeroHash ->
  exists db', append (set_dirties db (<[h := e]> (dirties db))) h = Ret db' /\ flush_list db' (L ++ [h]) /\ same_but_links (set_dirties db (<[h := e]> (dirties db))) db'.
Proof.
  intros [Ho Hn Hl Hd Hz] Hh H0 Hp Hnx. set (db1 := set_dirties db _). assert (h ∉ L) as HhL by (intros Hx; destruct (linked_Some _ _ _ _ _ Hl Hx); congruence).
  assert (linked (dirties db1) None L zeroHash) as Hl1 by (by apply linked_frame). assert (dirties db1 !! h = Some e) as He by apply lookup_insert_eq.
  unfold append. destruct L as [|p L _] using rev_ind.
  - change (oldest db1) with (oldest db). rewrite decide_True by done. eexists. split; [done|]. split; [|by split].
    split; [done|by intros x [= <-]|by exists e| |set_solver]. apply NoDup_singleton.
  - assert (newest db = p) as Hnp by (apply Hn, back_snoc). change (oldest db1) with (oldest db). change (newest db1) with (newest db).
    rewrite decide_False by (rewrite Ho; destruct L; cbn; set_solver). rewrite Hnp in *. destruct (linked_Some _ _ _ _ p Hl1) as [ep Hep]; [set_solver|]. erewrite change_Ret by exact Hep. cbn.
    assert (p <> h) as Hph by set_solver. eexists. split; [done|]. split; [split|].
    + cbn. rewrite Ho. by destruct L.
    + intros x. rewrite back_snoc. by intros [= <-].
    + apply list.NoDup_app in Hd as (_ & Hdp & _). apply linked_app. split; cbn [hd]; [eapply linked_set_next; [set_solver|exact Hep|exact Hl1]|].
      exists e. cbn. rewrite lookup_insert_ne by done. rewrite back_snoc. split; [done|]. split; [|done]. intros q [= <-]. done.
    + apply list.NoDup_app. split; [done|]. split; [set_solver|apply NoDup_singleton].
    + set_solver.
    + by split; [apply (change_links db1 p (fun n => set_flushNext n h) ep)| |].
Qed.
