(* ===== verification/TrieDatabaseInv.v ===== *)
(** * The invariant of the node database (trie/database.go)

    The graph of the nodes, the counts of the references in it, and what each step of
    an operation does to them. *)

From stdpp Require Import gmap.
From S2P Require Import Prelude Rlp RlpEncode TrieEncoding Trie TrieProofs TrieHash TrieDatabase TrieDatabaseProofs.

(** ** What is stored *)

(** A hash stands for one node; a node refers to its children and to the tries of the accounts in it; references do not form cycles. *)
Class Graph := {
  content : bytes -> rnode;
  external : bytes -> list bytes;
  blob : bytes -> bytes;
  rank : bytes -> nat;
  skids (h : bytes) : list bytes := forGatherChildren (content h) ++ external h;
  rank_lt h k : k ∈ skids h -> (rank k < rank h)%nat;
  skids_zero h : zeroHash ∉ skids h
}.

Definition encodes `{Graph} (h : bytes) : Prop := EncodeToBytes (rnode_val (content h)) = Ret (blob h) /\ blob h <> [].

(** Everything that is on disk refers to what is on disk. *)
Definition disk_closed `{Graph} (m : gmap bytes bytes) : Prop :=
  forall h b, m !! h = Some b -> b = blob h /\ b <> [] /\ forall k, k ∈ skids h -> is_Some (m !! k).

(** What a node needs below it. *)
Inductive reach `{Graph} : bytes -> bytes -> Prop :=
| reach_refl h : reach h h
| reach_step h k x : k ∈ skids h -> reach k x -> reach h x.

(** Go visits the keys of a map in some order. *)
Class Range := { range : gmap bytes Z -> list bytes; range_perm m : range m ≡ₚ (map_to_list m).*1 }.

Section Invariant.
Context {G : Graph} {Rg : Range}.
Implicit Types (B : gmap bytes bare) (K : gmap bytes bytes).

Definition on_disk K (k : bytes) : Prop := is_Some (K !! k).

(** The references of a cached node. *)
Definition bare_kids (b : bare) : list bytes := match b_children b with Some m => range m | None => [] end ++ forGatherChildren (b_node b).
Definition kids B (h : bytes) : list bytes := match B !! h with Some b => bare_kids b | None => [] end.

(** How many of the references of the nodes [L] lead to [k]. *)
Definition refs B (L : list bytes) (k : bytes) : nat := sum_list_with (fun h => occ k (kids B h)) L.

(** ** The invariant

    [L] is the flush-list, [P] the nodes that are being deleted, [W] the references that
    are counted but no longer or not yet made, [X] those that are still to be made from a
    node to one outside its trie, and [held] the references that the client holds. *)

Record entry_ok (h : bytes) (b : bare) : Prop := {
  eo_node : b_node b = content h;
  eo_encodes : encodes h;
  eo_parents : 0 <= b_parents b < 2 ^ 32;
  eo_children m k : b_children b = Some m -> is_Some (m !! k) -> k ∈ external h
}.

(** The references of a node lead to disk or to nodes inserted earlier. *)
Fixpoint ordered B K (seen L : list bytes) : Prop :=
  match L with
  | [] => True
  | h :: L => (forall k, k ∈ kids B h -> on_disk K k \/ k ∈ seen) /\ ordered B K (h :: seen) L
  end.

Record inv (P W : list bytes) (X : list (bytes * bytes)) (held L : list bytes) B K : Prop := {
  inv_meta : exists b m, B !! zeroHash = Some b /\ b_children b = Some m /\ forall k, ~ on_disk K k -> default 0 (m !! k) = Z.of_nat (occ k held);
  inv_entry h b : h <> zeroHash -> B !! h = Some b -> entry_ok h b;
  inv_disk : disk_closed K;
  inv_held k : k ∈ held -> on_disk K k \/ k ∈ L;
  inv_count k b : k ∈ L -> ~ on_disk K k -> B !! k = Some b -> Z.of_nat (occ k held + refs B L k + occ k W) <= b_parents b;
  inv_nodup : NoDup L;
  inv_zero : zeroHash ∉ L;
  inv_dom h : is_Some (B !! h) <-> h = zeroHash \/ h ∈ P \/ h ∈ L;
  inv_fresh h : h ∈ P -> h ∉ L /\ h <> zeroHash;
  inv_order : ordered B K [] L;
  inv_external h k : h ∈ L -> k ∈ external h -> on_disk K k \/ k ∈ kids B h \/ (h, k) ∈ X
}.

(** ** References *)

Lemma elem_of_range m k : k ∈ range m <-> is_Some (m !! k).
Proof.
  rewrite range_perm, list_elem_of_fmap. split.
  - intros ([k' v] & -> & Hv%elem_of_map_to_list). by exists v.
  - intros [v Hv]. exists (k, v). by rewrite elem_of_map_to_list.
Qed.

Lemma occ_range_insert m c v k : m !! c = None -> occ k (range (<[c := v]> m)) = (occ k [c] + occ k (range m))%nat.
Proof. intros Hc. rewrite <- occ_app. apply occ_perm. by rewrite !range_perm, map_to_list_insert by done. Qed.

Lemma kids_skids h b k : entry_ok h b -> k ∈ bare_kids b -> k ∈ skids h.
Proof.
  intros [Hn _ _ Hc]. unfold bare_kids, skids. rewrite Hn, !elem_of_app. intros [Hk|Hk]; [right|by left].
  destruct (b_children b) as [m|]; [|by apply elem_of_nil in Hk]. eapply Hc; [done|by apply elem_of_range].
Qed.

Lemma kids_insert B h b x : kids (<[h := b]> B) x = if decide (h = x) then bare_kids b else kids B x.
Proof. unfold kids. rewrite lookup_insert. by case_decide. Qed.

Lemma kids_same B h b b' x : B !! h = Some b -> bare_kids b' = bare_kids b -> kids (<[h := b']> B) x = kids B x.
Proof. intros Hb Hk. rewrite kids_insert. case_decide; [subst|done]. unfold kids. by rewrite Hb. Qed.

Lemma kids_delete B h x : h <> x -> kids (base.delete h B) x = kids B x.
Proof. intros Hne. unfold kids. by rewrite lookup_delete_ne. Qed.

Lemma refs_ext B B' L k : (forall h, h ∈ L -> kids B' h = kids B h) -> refs B' L k = refs B L k.
Proof.
  induction L as [|h L IH]; intros HL; [done|]. unfold refs in *. cbn. rewrite HL by set_solver. rewrite IH; [done|]. intros; apply HL; set_solver.
Qed.

Lemma refs_app B L1 L2 k : refs B (L1 ++ L2) k = (refs B L1 k + refs B L2 k)%nat.
Proof. apply sum_list_with_app. Qed.

Lemma refs_middle B L1 h L2 k : refs B (L1 ++ h :: L2) k = (occ k (kids B h) + refs B (L1 ++ L2) k)%nat.
Proof. rewrite !refs_app. unfold refs. cbn. lia. Qed.

Lemma refs_pos B L h k : h ∈ L -> k ∈ kids B h -> (0 < refs B L k)%nat.
Proof. intros (L1 & L2 & ->)%list_elem_of_split Hk%occ_pos. rewrite refs_middle. lia. Qed.

Lemma refs_zero B L k : (forall h, h ∈ L -> k ∉ kids B h) -> refs B L k = O.
Proof.
  induction L as [|h L IH]; intros HL; [done|]. unfold refs in *. cbn. rewrite (occ_zero k (kids B h)), IH; [done| |]; intros; apply HL; set_solver.
Qed.

(** ** The order *)

Lemma ordered_mono B B' K K' seen seen' L :
  (forall h k, h ∈ L -> k ∈ kids B' h -> k ∈ kids B h /\ (on_disk K k -> on_disk K' k) /\ (k ∈ seen -> on_disk K' k \/ k ∈ seen')) ->
  ordered B K seen L -> ordered B' K' seen' L.
Proof.
  revert seen seen'. induction L as [|h L IH]; intros seen seen' HL; [done|]. intros [H1 H2]. split.
  - intros k Hk. destruct (HL h k) as (Hk' & Hd & Hs); [set_solver|done|]. destruct (H1 k Hk') as [?|?]; auto.
  - eapply IH; [|exact H2]. intros x k Hx Hk. destruct (HL x k) as (Hk' & Hd & Hs); [set_solver|done|]. split; [done|]. split; [done|]. set_solver.
Qed.

Lemma ordered_ext B B' K seen L : (forall h, h ∈ L -> kids B' h = kids B h) -> ordered B K seen L -> ordered B' K seen L.
Proof. intros HL. apply ordered_mono. intros h k Hh. rewrite HL by done. auto. Qed.

Lemma ordered_app B K seen L1 L2 : ordered B K seen (L1 ++ L2) <-> ordered B K seen L1 /\ ordered B K (rev L1 ++ seen) L2.
Proof.
  revert seen. induction L1 as [|h L1 IH]; intros seen; cbn; [naive_solver|]. rewrite IH, <- app_assoc. naive_solver.
Qed.

Lemma ordered_drop B K seen L1 x L2 :
  (forall h, h ∈ L2 -> x ∈ kids B h -> on_disk K x) -> ordered B K seen (L1 ++ x :: L2) -> ordered B K seen (L1 ++ L2).
Proof.
  intros Hx [H1 [_ H2]]%ordered_app. apply ordered_app. split; [done|]. eapply ordered_mono; [|exact H2].
  intros h k Hh Hk. split; [done|]. split; [done|]. intros [->|?]%elem_of_cons; [left; by eapply Hx|by right].
Qed.

(** ** The steps of the operations *)

Definition with_parents (b : bare) (p : Z) : bare := mk_bare (b_node b) (b_sz b) p (b_children b).
Definition with_children (b : bare) (c : option (gmap bytes Z)) : bare := mk_bare (b_node b) (b_sz b) (b_parents b) c.

Lemma insert_dom B h b b' x : B !! h = Some b -> is_Some (<[h := b']> B !! x) <-> is_Some (B !! x).
Proof. intros Hb. rewrite lookup_insert_is_Some. destruct (decide (h = x)); naive_solver. Qed.

Lemma inv_kids P W X held L B K h k : inv P W X held L B K -> h ∈ L -> k ∈ kids B h -> k ∈ skids h.
Proof.
  intros I Hh. unfold kids. destruct (B !! h) as [b|] eqn:Hb; [|by intros ?%elem_of_nil]. apply kids_skids, (inv_entry _ _ _ _ _ _ _ I); [|done].
  intros ->. by apply (inv_zero _ _ _ _ _ _ _ I).
Qed.

(** More on disk. *)
Lemma inv_grow P W X held L B K K' : disk_closed K' -> (forall k, on_disk K k -> on_disk K' k) -> inv P W X held L B K -> inv P W X held L B K'.
Proof.
  intros HK Hg [(b & m & H1 & H2 & H3) ? ? Hh Hc ? ? ? ? Ho He]. split; [|done|done| | |done|done|done|done| |].
  - exists b, m. split; [done|]. split; [done|]. intros k Hk. apply H3. auto.
  - intros k Hk. destruct (Hh k Hk); auto.
  - intros k b' Hk Hd. apply Hc; auto.
  - eapply ordered_mono; [|exact Ho]. naive_solver.
  - intros h k Hh' Hk. destruct (He h k Hh' Hk); auto.
Qed.

(** A node that is not in the flush-list is not counted. *)
Lemma inv_uncounted P W W' X held L B K :
  (forall k, k ∈ L -> ~ on_disk K k -> (occ k W' <= occ k W)%nat) -> inv P W X held L B K -> inv P W' X held L B K.
Proof. intros HW [? ? ? ? Hc ? ? ? ? ? ?]. split; try done. intros k b Hk Hd Hb. specialize (Hc k b Hk Hd Hb). specialize (HW k Hk Hd). lia. Qed.

(** Another count for one node. *)
Lemma inv_parents P W W' X held L B K x b p :
  (forall k, k <> x -> (occ k W' <= occ k W)%nat) -> x <> zeroHash -> B !! x = Some b -> 0 <= p < 2 ^ 32 ->
  (x ∈ L -> ~ on_disk K x -> Z.of_nat (occ x held + refs B L x + occ x W') <= p) ->
  inv P W X held L B K -> inv P W' X held L (<[x := with_parents b p]> B) K.
Proof.
  intros HW Hx Hb Hp Hcx I. pose proof I as [(b0 & m & H1 & H2 & H3) Hent ? ? Hc ? ? Hdom ? Ho He].
  assert (forall h, kids (<[x := with_parents b p]> B) h = kids B h) as Hk by (intros h; by eapply kids_same).
  split; [| |done|done| |done|done| |done| |].
  - exists b0, m. by rewrite lookup_insert_ne.
  - intros h b' Hh. rewrite lookup_insert. case_decide as E; [subst; intros [= <-]|by apply Hent]. destruct (Hent h b Hh Hb). by split.
  - intros k b' Hkl Hd. rewrite (refs_ext B) by done. rewrite lookup_insert. case_decide as E; [subst; intros [= <-]; by apply Hcx|].
    intros Hb'. specialize (Hc k b' Hkl Hd Hb'). specialize (HW k ltac:(done)). lia.
  - intros h. by rewrite (insert_dom _ _ b).
  - apply (ordered_ext B); auto.
  - intros h k. rewrite Hk. apply He.
Qed.

(** Other children of the meta root. *)
Lemma inv_root P W W' X held held' L B K b m' :
  B !! zeroHash = Some b -> (forall k, ~ on_disk K k -> default 0 (m' !! k) = Z.of_nat (occ k held')) ->
  (forall k, ~ on_disk K k -> (occ k held' + occ k W' <= occ k held + occ k W)%nat) -> (forall k, k ∈ held' -> on_disk K k \/ k ∈ L) ->
  inv P W X held L B K -> inv P W' X held' L (<[zeroHash := with_children b (Some m')]> B) K.
Proof.
  intros Hb Hm HW Hh [_ Hent ? _ Hc ? Hz Hdom ? Ho He].
  assert (forall h, h ∈ L -> kids (<[zeroHash := with_children b (Some m')]> B) h = kids B h) as Hk.
  { intros h Hl. rewrite kids_insert, decide_False; [done|]. by intros <-. }
  split; [| |done|done| |done|done| |done| |].
  - exists (with_children b (Some m')), m'. by rewrite lookup_insert_eq.
  - intros h b' Hne. rewrite lookup_insert_ne by done. by apply Hent.
  - intros k b' Hl Hd. rewrite (refs_ext B) by done. rewrite lookup_insert_ne by (by intros <-). intros Hb'. specialize (Hc k b' Hl Hd Hb'). specialize (HW k Hd). lia.
  - intros h. by rewrite (insert_dom _ _ b).
  - apply (ordered_ext B); auto.
  - intros h k Hl. rewrite Hk by done. by apply He.
Qed.

(** Fewer external children of a node that is being deleted. *)
Lemma inv_child P W X held L B K p b m m' :
  p ∈ P -> B !! p = Some b -> b_children b = Some m -> (forall k, is_Some (m' !! k) -> is_Some (m !! k)) ->
  inv P W X held L B K -> inv P W X held L (<[p := with_children b (Some m')]> B) K.
Proof.
  intros Hp Hb Hm Hm' [(b0 & m0 & H1 & H2 & H3) Hent ? ? Hc ? Hz Hdom Hf Ho He]. destruct (Hf p Hp) as [HpL Hp0].
  assert (forall h, h ∈ L -> kids (<[p := with_children b (Some m')]> B) h = kids B h) as Hk.
  { intros h Hl. rewrite kids_insert, decide_False; [done|]. by intros <-. }
  split; [| |done|done| |done|done| |done| |].
  - exists b0, m0. by rewrite lookup_insert_ne.
  - intros h b' Hne. rewrite lookup_insert. case_decide as E; [subst; intros [= <-]|by apply Hent]. destruct (Hent h b Hne Hb) as [? ? ? Hch]. split; [done..|].
    intros m1 k [= <-] Hk1. eapply Hch; [done|by apply Hm'].
  - intros k b' Hl Hd. rewrite (refs_ext B) by done. rewrite lookup_insert_ne by (by intros <-). by apply Hc.
  - intros h. by rewrite (insert_dom _ _ b).
  - apply (ordered_ext B); auto.
  - intros h k Hl. rewrite Hk by done. by apply He.
Qed.

Lemma NoDup_middle (L1 : list bytes) x L2 : NoDup (L1 ++ x :: L2) -> x ∉ L1 ++ L2 /\ NoDup (L1 ++ L2).
Proof. rewrite <- Permutation_middle. apply list.NoDup_cons. Qed.

(** A node without references leaves the flush-list; its own references are to be taken back. *)
Lemma inv_release P W X held L1 c L2 B K :
  (on_disk K c \/ (occ c held = O /\ refs B (L1 ++ c :: L2) c = O)) ->
  inv P W X held (L1 ++ c :: L2) B K -> inv (c :: P) (kids B c ++ W) X held (L1 ++ L2) B K.
Proof.
  intros Hc0 [Hmeta Hent ? Hh Hc [Hn1 Hn2]%NoDup_middle Hz Hdom Hf Ho He].
  split; [done|done|done| | |done|set_solver| | | |].
  - intros k Hk. destruct (Hh k Hk) as [?|Hl]; [by left|]. destruct (decide (k = c)) as [->|Hne]; [|set_solver].
    destruct Hc0 as [?|[Ho0 _]]; [by left|]. apply occ_pos in Hk. lia.
  - intros k b Hk Hd Hb. rewrite occ_app. specialize (Hc k b ltac:(set_solver) Hd Hb). rewrite refs_middle in Hc. lia.
  - intros h. rewrite Hdom. set_solver.
  - intros h [->|Hp]%elem_of_cons; [set_solver|]. destruct (Hf h Hp). set_solver.
  - eapply ordered_drop; [|exact Ho]. intros h Hh2 Hk. destruct Hc0 as [?|[_ Hr]]; [done|].
    pose proof (refs_pos B (L1 ++ c :: L2) h c ltac:(set_solver) Hk). lia.
  - intros h k Hl. apply He. set_solver.
Qed.

Lemma inv_finish P W X held L c B K : c ∉ P -> inv (c :: P) W X held L B K -> inv P W X held L (base.delete c B) K.
Proof.
  intros HcP [(b0 & m0 & H1 & H2 & H3) Hent ? ? Hc ? Hz Hdom Hf Ho He]. destruct (Hf c) as [HcL Hc0]; [set_solver|].
  assert (forall h, h ∈ L -> kids (base.delete c B) h = kids B h) as Hk by (intros h Hl; apply kids_delete; by intros <-).
  split; [| |done|done| |done|done| | | |].
  - exists b0, m0. by rewrite lookup_delete_ne.
  - intros h b' Hne [_ Hb]%lookup_delete_Some. by apply Hent.
  - intros k b' Hl Hd [_ Hb]%lookup_delete_Some. rewrite (refs_ext B) by done. by apply Hc.
  - intros h. destruct (decide (c = h)) as [<-|Hne]; [rewrite lookup_delete_eq, is_Some_alt; set_solver|]. rewrite lookup_delete_ne by done. rewrite Hdom. set_solver.
  - intros h Hp. apply Hf. set_solver.
  - apply (ordered_ext B); auto.
  - intros h k Hl. rewrite Hk by done. by apply He.
Qed.

(** A node that is on disk leaves the cache. *)
Lemma inv_drop P W X held L1 c L2 B K :
  on_disk K c -> inv P W X held (L1 ++ c :: L2) B K -> inv P W X held (L1 ++ L2) (base.delete c B) K.
Proof.
  intros Hc I. apply inv_finish; [intros Hp; by destruct (inv_fresh _ _ _ _ _ _ _ I c Hp) as [? _]; set_solver|].
  eapply inv_uncounted; [|apply inv_release; [by left|exact I]]. intros k _ _. rewrite occ_app. lia.
Qed.

(** A reference from a node to another trie, once it is counted. *)
Lemma inv_made P W X held L B K h k : on_disk K k \/ k ∈ kids B h -> inv P W ((h, k) :: X) held L B K -> inv P W X held L B K.
Proof.
  intros Hk [? ? ? ? ? ? ? ? ? ? He]. split; try done. intros h' k' Hl Hx. destruct (He h' k' Hl Hx) as [?|[?|Hp]]; auto. apply elem_of_cons in Hp as [[= -> ->]|Hp]; [|auto]. destruct Hk; auto.
Qed.

Lemma bare_kids_add b m k v : default ∅ (b_children b) = m -> m !! k = None -> forall x, occ x (bare_kids (with_children b (Some (<[k := v]> m)))) = (occ x [k] + occ x (bare_kids b))%nat.
Proof.
  intros <- Hk x. unfold bare_kids. cbn [b_children with_children b_node]. rewrite !occ_app, occ_range_insert by done.
  destruct (b_children b) as [g|]; cbn; [lia|]. rewrite (occ_perm x (range ∅) []); [cbn; lia|]. by rewrite range_perm, map_to_list_empty.
Qed.

Lemma inv_link P W X held L1 h L2 B K b m k v :
  B !! h = Some b -> default ∅ (b_children b) = m -> m !! k = None -> k ∈ external h -> on_disk K k \/ k ∈ L1 ->
  inv P (k :: W) X held (L1 ++ h :: L2) B K -> inv P W X held (L1 ++ h :: L2) (<[h := with_children b (Some (<[k := v]> m))]> B) K.
Proof.
  intros Hb Hm Hk Hkx Hkl I. pose proof (bare_kids_add b m k v Hm Hk) as Hocc. destruct I as [(b0 & m0 & H1 & H2 & H3) Hent ? ? Hc Hnd Hz Hdom Hf Ho He].
  destruct (NoDup_middle _ _ _ Hnd) as [Hh _]. set (b' := with_children b _) in *. assert (h <> zeroHash) as Hh0 by (intros ->; set_solver).
  assert (forall x, x ∈ L1 ++ L2 -> kids (<[h := b']> B) x = kids B x) as Hks.
  { intros x Hx. rewrite kids_insert, decide_False; [done|]. by intros <-. }
  assert (kids B h = bare_kids b) as Hkb by (unfold kids; by rewrite Hb).
  assert (kids (<[h := b']> B) h = bare_kids b') as Hkb' by (by rewrite kids_insert, decide_True).
  assert (forall x, x ∈ bare_kids b' <-> x = k \/ x ∈ bare_kids b) as Hin.
  { intros x. rewrite <- !occ_pos, Hocc. rewrite occ_cons, occ_nil. case_decide; naive_solver lia. }
  split; [| |done|done| |done|done| |done| |].
  - exists b0, m0. by rewrite lookup_insert_ne.
  - intros x bx Hne. rewrite lookup_insert. case_decide as E; [subst x; intros [= <-]|by apply Hent]. destruct (Hent h b Hne Hb) as [? ? ? Hch]. split; [done..|].
    intros m1 y [= <-] [->|[_ Hy]]%lookup_insert_is_Some; [done|]. destruct (b_children b) as [g|]; cbn in Hm; subst m; [by eapply Hch|by destruct Hy].
  - intros x bx Hl Hd Hbx. assert (exists bx', B !! x = Some bx' /\ b_parents bx' = b_parents bx) as (bx' & Hbx' & <-).
    { rewrite lookup_insert in Hbx. case_decide as E; [subst; injection Hbx as <-; by exists b|by exists bx]. }
    specialize (Hc x bx' Hl Hd Hbx'). rewrite !refs_middle in *. rewrite Hkb', Hocc. rewrite Hkb in Hc. rewrite (refs_ext B) by done. rewrite !occ_cons, occ_nil in *. lia.
  - intros x. by rewrite (insert_dom _ _ b).
  - apply ordered_app in Ho as [Ho1 [Ho2 Ho3]]. apply ordered_app. split; [apply (ordered_ext B); [|done]; set_solver|]. split.
    + intros x. rewrite Hkb', Hin. rewrite Hkb in Ho2. intros [->|Hx]; [|by apply Ho2]. rewrite elem_of_app, <- (Permutation_rev L1). naive_solver.
    + apply (ordered_ext B); [|done]. set_solver.
  - intros x y Hl Hy. destruct (He x y Hl Hy) as [?|[Hx|?]]; auto. right. left. destruct (decide (x = h)) as [->|Hne]; [rewrite Hkb', Hin; rewrite Hkb in Hx; auto|]. rewrite Hks; [done|set_solver].
Qed.

Lemma ordered_in B K seen L h k : ordered B K seen L -> h ∈ L -> k ∈ kids B h -> on_disk K k \/ k ∈ seen \/ k ∈ L.
Proof.
  revert seen. induction L as [|x L IH]; intros seen; [by intros _ ?%elem_of_nil|]. intros [H1 H2] [->|Hh]%elem_of_cons Hk; [destruct (H1 k Hk); auto|].
  rewrite elem_of_cons. destruct (IH _ H2 Hh Hk) as [?|[[?|?]%elem_of_cons|?]]; auto.
Qed.

(** A node enters: its references have been counted. *)
Lemma inv_insert P X held L B K h n size :
  h <> zeroHash -> B !! h = None -> n = content h -> encodes h -> (forall k, k ∈ forGatherChildren n -> on_disk K k \/ k ∈ L) ->
  inv P (forGatherChildren n) X held L B K ->
  inv P [] (map (fun k => (h, k)) (external h) ++ X) held (L ++ [h]) (<[h := mk_bare n size 0 None]> B) K.
Proof.
  intros Hh0 Hb -> Henc Hav [(b0 & m0 & H1 & H2 & H3) Hent ? Hheld Hc Hnd Hz Hdom Hf Ho He].
  assert (h ∉ P /\ h ∉ L) as [HhP HhL] by (split; intros Hx; destruct (Hdom h) as [_ [? ?]]; auto; congruence).
  set (b := mk_bare _ _ _ _). set (B' := <[h := b]> B).
  assert (forall x, x ∈ L -> kids B' x = kids B x) as Hks by (intros x Hx; unfold B'; rewrite kids_insert, decide_False; [done|by intros <-]).
  assert (kids B' h = forGatherChildren (content h)) as Hkb by (unfold B'; by rewrite kids_insert, decide_True).
  assert (h ∉ forGatherChildren (content h)) as Hself by (intros Hx; pose proof (rank_lt h h ltac:(apply elem_of_app; by left)); lia).
  split; [| |done| | | | | | | |].
  - exists b0, m0. unfold B'. by rewrite lookup_insert_ne.
  - intros x bx Hne. unfold B'. rewrite lookup_insert. case_decide as E; [subst x; intros [= <-]|by apply Hent]. by split.
  - intros k Hk. destruct (Hheld k Hk); set_solver.
  - intros k bk Hk Hd Hbk. rewrite refs_app, occ_nil. unfold refs at 2. cbn [sum_list_with]. rewrite Hkb, (refs_ext B) by done. apply elem_of_app in Hk as [Hk|Hk%list_elem_of_singleton].
    + unfold B' in Hbk. rewrite lookup_insert_ne in Hbk by (by intros <-). specialize (Hc k bk Hk Hd Hbk). lia.
    + subst k. rewrite (occ_zero h held), (occ_zero h (forGatherChildren _)), refs_zero; [|intros x Hx Hkx; by destruct (ordered_in _ _ _ _ _ _ Ho Hx Hkx) as [?|[?%elem_of_nil|?]]|done|intros Hx; by destruct (Hheld h Hx)].
      unfold B' in Hbk. rewrite lookup_insert_eq in Hbk. by injection Hbk as <-.
  - apply list.NoDup_app. split; [done|]. split; [set_solver|apply NoDup_singleton].
  - set_solver.
  - intros x. unfold B'. rewrite lookup_insert_is_Some', Hdom. set_solver.
  - intros x Hx. destruct (Hf x Hx). set_solver.
  - apply ordered_app. split; [by apply (ordered_ext B)|]. split; [|done]. intros k. rewrite Hkb, elem_of_app, <- (Permutation_rev L). naive_solver.
  - intros x k [Hx|Hx%list_elem_of_singleton]%elem_of_app Hk; [|subst x]; [rewrite Hks by done; destruct (He x k Hx Hk); set_solver|]. right; right. apply elem_of_app. left. apply list_elem_of_fmap. eauto.
Qed.

End Invariant.
