(* ===== verification/TrieDatabaseRefs.v ===== *)
(** * References in the node database (trie/database.go)

    Insertion, references and garbage collection keep the invariant, and end. *)

From stdpp Require Import gmap.
From S2P Require Import Prelude Rlp RlpEncode TrieEncoding Trie TrieProofs TrieHash TrieDatabase TrieDatabaseProofs TrieDatabaseInv.

Notation disk db := (kv (diskdb db)).

Section References.
Context {G : Graph} {Rg : Range}.


Record db_ok (P W : list bytes) (X : list (bytes * bytes)) (held L : list bytes) (db : Database) : Prop := {
  ok_inv : inv P W X held L (bares db) (disk db);
  ok_list : flush_list db L
}.

Lemma bares_set db h e : bares (set_dirties db (<[h := e]> (dirties db))) = <[h := strip e]> (bares db).
Proof. apply fmap_insert. Qed.

Lemma bares_unset db h : bares (set_dirties db (base.delete h (dirties db))) = base.delete h (bares db).
Proof. apply fmap_delete. Qed.

(** A change of an entry that keeps its links. *)
Lemma linked_set d prev L next h e e' :
  d !! h = Some e -> flushPrev e' = flushPrev e -> flushNext e' = flushNext e -> linked d prev L next -> linked (<[h := e']> d) prev L next.
Proof.
  intros He Hp Hn. revert prev. induction L as [|x L IH]; intros prev; [done|]. cbn. intros (ex & Hx & Hpx & Hnx & Hl).
  destruct (decide (h = x)) as [->|Hne].
  - assert (ex = e) as -> by congruence. exists e'. rewrite lookup_insert_eq, Hp, Hn. auto.
  - exists ex. rewrite lookup_insert_ne by done. auto.
Qed.

Lemma flush_list_set db L h e e' :
  dirties db !! h = Some e -> flushPrev e' = flushPrev e -> flushNext e' = flushNext e -> flush_list db L ->
  flush_list (set_dirties db (<[h := e']> (dirties db))) L.
Proof. intros He Hp Hn [? ? ? ? ?]. split; try done. by eapply linked_set. Qed.

Lemma flush_list_unset db L h : h ∉ L -> flush_list db L -> flush_list (set_dirties db (base.delete h (dirties db))) L.
Proof. intros Hh [? ? ? ? ?]. split; try done. by apply linked_delete. Qed.

(** The sizes do not matter. *)
Lemma db_ok_sizes P W X held L db d c : db_ok P W X held L db -> db_ok P W X held L (add_sizes db d c).
Proof. intros [? []]. by split; [|split]. Qed.

Lemma db_ok_links P W X held L db db' : same_but_links db db' -> flush_list db' L -> inv P W X held L (bares db) (disk db) -> db_ok P W X held L db'.
Proof. intros [H1 H2 _] Hl HI. split; [|done]. by rewrite H1, H2. Qed.

Lemma ok_zero P W X held L db : db_ok P W X held L db -> exists e m, dirties db !! zeroHash = Some e /\ children e = Some m /\ forall k, ~ on_disk (disk db) k -> default 0 (m !! k) = Z.of_nat (occ k held).
Proof. intros [[(b & m & (e & He & ->)%bares_inv & Hm & Hc) _ _ _ _ _ _ _ _ _ _] _]. by exists e, m. Qed.

Lemma ok_dom P W X held L db h : db_ok P W X held L db -> is_Some (dirties db !! h) <-> h = zeroHash \/ h ∈ P \/ h ∈ L.
Proof. intros [HI _]. rewrite <- (inv_dom _ _ _ _ _ _ _ HI h), bares_lookup. destruct (dirties db !! h); naive_solver. Qed.

(** ** Garbage collection *)

Definition dec (n : cachedNode) : cachedNode := if decide (parents n > 0) then set_parents n (parents n - 1) else n.

(** The part of [dereference] that looks at the child. *)
Definition release (fuel : nat) (db : Database) (child : bytes) : fuelled Empty_set Database :=
  match dirties db !! child with
  | None => run (Ret db)
  | Some node =>
      let node := dec node in
      let db := set_dirties db (<[child := node]> (dirties db)) in
      if decide (parents node = 0) then
        db ← run (unlink db child node);
        db ← for_each (fun db h => dereference range fuel db h child) (forChilds range node) db;
        let db := set_dirties db (base.delete child (dirties db)) in
        run (Ret (add_sizes db (- (HashLength + cn_size node)) (if children node then - cachedNodeChildrenSize else 0)))
      else run (Ret db)
  end.

Lemma dereference_release fuel db child parent :
  dereference range (S fuel) db child parent = (node ← run (deref db parent); db ← run (drop_child db parent child node); release fuel db child).
Proof. done. Qed.

#[local] Arguments dereference : simpl never.

(** Taking back a reference of a node that is being deleted. *)
Lemma drop_child_ok P W X held L db p c :
  p ∈ P -> db_ok P W X held L db ->
  exists node db', deref db p = Ret node /\ drop_child db p c node = Ret db' /\ db_ok P W X held L db' /\ diskdb db' = diskdb db.
Proof.
  intros Hp Hok. destruct (ok_dom _ _ _ _ _ _ p Hok) as [_ [node Hn]]; [auto|]. exists node. unfold deref. rewrite Hn.
  destruct Hok as [HI HL]. unfold drop_child. destruct (children node) as [m|] eqn:Hm; [|by exists db].
  assert (forall m', (forall k, is_Some (m' !! k) -> is_Some (m !! k)) -> db_ok P W X held L (set_dirties db (<[p := set_children node (Some m')]> (dirties db)))) as Hset.
  { intros m' Hsub. split; [|by eapply flush_list_set]. rewrite bares_set. by eapply (inv_child P W X held L _ _ p (strip node)); [|apply bares_Some| | |]. }
  destruct (decide _) as [Hc|]; [|by exists db]. destruct (decide _); erewrite !change_Ret by done; eexists; split_and!; try done.
  - apply db_ok_sizes, Hset. intros k [_ ?]%lookup_delete_is_Some. done.
  - apply Hset. intros k. rewrite lookup_insert_is_Some. intros [<-|[_ ?]]; [|done]. destruct (m !! c); [done|]. cbn in Hc. lia.
Qed.

(** How deep the references below a node can be. *)
Definition below (L : list bytes) (c : bytes) : nat := length (base.filter (fun h => (rank h < rank c)%nat) L).

Lemma below_sublist L L' c : sublist L' L -> (below L' c <= below L c)%nat.
Proof. unfold below. induction 1; [done|rewrite !filter_cons; case_decide; cbn; lia|rewrite filter_cons; case_decide; cbn; lia]. Qed.

Lemma below_lt L c h : h ∈ L -> (rank h < rank c)%nat -> (below L h < below L c)%nat.
Proof.
  intros (L1 & L2 & ->)%list_elem_of_split Hr. unfold below. rewrite !list.filter_app, !filter_cons, !length_app.
  rewrite decide_False by lia. rewrite decide_True by done. cbn.
  assert (forall l, (length (base.filter (fun x => (rank x < rank h)%nat) l) <= length (base.filter (fun x => (rank x < rank c)%nat) l))%nat) as Hle.
  { intros l. induction l as [|x l IH]; [done|]. rewrite !filter_cons. repeat case_decide; cbn; lia. }
  pose proof (Hle L1). pose proof (Hle L2). lia.
Qed.

Lemma below_length L c : c ∈ L -> (below L c < length L)%nat.
Proof.
  intros (L1 & L2 & ->)%list_elem_of_split. unfold below. rewrite list.filter_app, filter_cons, decide_False, !length_app by lia. cbn.
  pose proof (length_filter (fun h => (rank h < rank c)%nat) L1). pose proof (length_filter (fun h => (rank h < rank c)%nat) L2). lia.
Qed.

(** What [release] does with enough fuel. *)
Definition releases (fuel : nat) : Prop := forall P W X held L db c,
  db_ok P (c :: W) X held L db -> c <> zeroHash -> (forall p, p ∈ P -> (rank c < rank p)%nat) -> (c ∈ L -> (below L c < fuel)%nat) ->
  exists db' L', release fuel db c = run (Ret db') /\ db_ok P W X held L' db' /\ sublist L' L /\ diskdb db' = diskdb db.

Lemma for_each_ok fuel P W X held c l L db :
  releases fuel -> db_ok (c :: P) (l ++ W) X held L db -> zeroHash ∉ l -> (forall p h, p ∈ c :: P -> h ∈ l -> (rank h < rank p)%nat) ->
  (forall h, h ∈ l -> h ∈ L -> (below L h < fuel)%nat) ->
  exists db' L', for_each (fun db h => dereference range (S fuel) db h c) l db = run (Ret db') /\ db_ok (c :: P) W X held L' db' /\ sublist L' L /\ diskdb db' = diskdb db.
Proof.
  intros HR. revert L db. induction l as [|h l IH]; intros L db Hok Hz Hr Hf; [by exists db, L|].
  cbn [for_each]. rewrite dereference_release. destruct (drop_child_ok (c :: P) ((h :: l) ++ W) X held L db c h) as (node & db1 & -> & Hd & Hok1 & Hk1); [set_solver|done|].
  cbn. rewrite Hd. cbn. destruct (HR (c :: P) (l ++ W) X held L db1 h) as (db2 & L2 & -> & Hok2 & Hs2 & Hk2); [done|set_solver|intros p Hp; apply Hr; [done|set_solver]|apply Hf; set_solver|].
  cbn. destruct (IH L2 db2) as (db3 & L3 & -> & Hok3 & Hs3 & Hk3); [done|set_solver|intros; apply Hr; set_solver| |].
  - intros x Hx Hx2. pose proof (below_sublist _ _ x Hs2). assert (x ∈ L) as HxL by (by eapply elem_of_sublist; [|exact Hs2]). specialize (Hf x ltac:(set_solver) HxL). lia.
  - exists db3, L3. split; [done|]. split; [done|]. split; [by etransitivity|congruence].
Qed.

(** One reference less. *)
Lemma dec_ok P W X held L db c node :
  dirties db !! c = Some node -> c ∈ L -> db_ok P (c :: W) X held L db -> db_ok P W X held L (set_dirties db (<[c := dec node]> (dirties db))).
Proof.
  intros Hn HcL [HI HL]. assert (strip (dec node) = with_parents (strip node) (if decide (parents node > 0) then parents node - 1 else parents node)) as Hst.
  { unfold dec. by destruct (decide _). }
  split; [|eapply flush_list_set; [done| | |done]; unfold dec; by destruct (decide _)].
  assert (c <> zeroHash) as Hc0 by (intros ->; by apply (inv_zero _ _ _ _ _ _ _ HI)). pose proof (bares_Some db c node Hn) as Hb.
  destruct (inv_entry _ _ _ _ _ _ _ HI c _ Hc0 Hb) as [_ _ Hp _]. cbn in Hp. rewrite bares_set, Hst. apply (inv_parents P (c :: W)); [|done|done| | |exact HI].
  - intros k Hk. rewrite occ_cons. lia.
  - destruct (decide _); lia.
  - intros _ Hd. pose proof (inv_count _ _ _ _ _ _ _ HI c _ HcL Hd Hb) as Hc. rewrite occ_cons, decide_True in Hc by done. cbn in Hc. destruct (decide _); lia.
Qed.

(** A node that loses its last reference. *)
Lemma unlink_released P W X held L db c node :
  dirties db !! c = Some node -> c ∈ L -> parents node = 0 -> db_ok P W X held L db ->
  exists L1 L2 db', L = L1 ++ c :: L2 /\ unlink db c node = Ret db' /\ db_ok (c :: P) (forChilds range node ++ W) X held (L1 ++ L2) db' /\ diskdb db' = diskdb db.
Proof.
  intros Hn HcL Hp Hok. destruct (ok_zero _ _ _ _ _ _ Hok) as (e0 & _ & H0 & _). destruct Hok as [HI HL]. destruct (list_elem_of_split _ _ HcL) as (L1 & L2 & ->).
  destruct (unlink_ok db L1 c L2 node e0) as (db' & Hu & Hl' & Hs); [done..|]. exists L1, L2, db'. split; [done|]. split; [done|]. split; [|by destruct Hs].
  eapply db_ok_links; [done|done|]. replace (forChilds range node) with (kids (bares db) c) by (unfold kids; by rewrite (bares_Some db c node)).
  apply inv_release; [|done]. destruct (decide (is_Some (disk db !! c))) as [?|Hd]; [by left|right].
  pose proof (inv_count _ _ _ _ _ _ _ HI c _ HcL Hd (bares_Some db c node Hn)) as Hc. cbn in Hc. lia.
Qed.

Lemma release_missing fuel P W X held L db c :
  c ∉ L -> dirties db !! c = None -> db_ok P (c :: W) X held L db -> release fuel db c = run (Ret db) /\ db_ok P W X held L db.
Proof.
  intros HcL Hn [HI HL]. unfold release. rewrite Hn. split; [done|]. split; [|done]. eapply inv_uncounted; [|exact HI].
  intros k Hk _. rewrite occ_cons, decide_False; [done|]. by intros ->.
Qed.

Lemma release_ok fuel : releases fuel.
Proof.
  induction fuel as [fuel IH] using lt_wf_ind. intros P W X held L db c Hok Hc0 Hr Hf.
  destruct (decide (c ∈ L)) as [HcL|HcL]; cycle 1.
  { assert (dirties db !! c = None) as Hn. { destruct (ok_dom _ _ _ _ _ _ c Hok) as [Hd _]. destruct (dirties db !! c); [|done]. destruct Hd as [?|[Hp|?]]; [by eexists|done| |done]. specialize (Hr c Hp). lia. }
    destruct (release_missing fuel P W X held L db c) as [-> ?]; [done..|]. by exists db, L. }
  specialize (Hf HcL). destruct fuel as [|fuel]; [lia|]. destruct (ok_dom _ _ _ _ _ _ c Hok) as [_ [node Hn]]; [auto|]. unfold release. rewrite Hn. cbv zeta.
  pose proof (dec_ok _ _ _ _ _ _ _ _ Hn HcL Hok) as Hok1. set (db1 := set_dirties db _) in *. destruct (decide _) as [Hp|Hp]; [|by exists db1, L].
  destruct (unlink_released P W X held L db1 c (dec node)) as (L1 & L2 & db2 & -> & -> & Hok2 & Hk2); [apply lookup_insert_eq|done..|]. cbn.
  assert (forall h, h ∈ forChilds range (dec node) -> h ∈ skids c) as Hsk.
  { intros h. apply (kids_skids c (strip (dec node))). apply (inv_entry _ _ _ _ _ _ _ (ok_inv _ _ _ _ _ _ Hok1)); [done|]. apply bares_Some, lookup_insert_eq. }
  destruct (for_each_ok fuel P W X held c (forChilds range (dec node)) (L1 ++ L2) db2) as (db3 & L3 & -> & Hok3 & Hs3 & Hk3).
  - apply IH. lia.
  - done.
  - intros Hz%Hsk. by eapply skids_zero.
  - intros p h [->|Hp']%elem_of_cons Hh%Hsk%rank_lt; [done|]. specialize (Hr p Hp'). lia.
  - intros h Hh%Hsk%rank_lt HhL. pose proof (below_lt (L1 ++ c :: L2) c h ltac:(set_solver) Hh). pose proof (below_sublist (L1 ++ c :: L2) (L1 ++ L2) h ltac:(by apply sublist_app; [|apply sublist_cons])). lia.
  - cbn. eexists _, L3. split; [done|]. split; [|split; [etransitivity; [done|by apply sublist_app; [|apply sublist_cons]]|cbn; by rewrite Hk3, Hk2]].
    apply db_ok_sizes. destruct Hok3 as [HI3 HL3]. destruct (inv_fresh _ _ _ _ _ _ _ HI3 c) as [Hc3 _]; [set_solver|]. split; [|by apply flush_list_unset].
    rewrite bares_unset. apply inv_finish; [|done]. intros Hp'. specialize (Hr c Hp'). lia.
Qed.

(** Other references that the client holds. *)
Lemma root_ok W W' X held held' L db e m' :
  dirties db !! zeroHash = Some e -> (forall k, ~ on_disk (disk db) k -> default 0 (m' !! k) = Z.of_nat (occ k held')) ->
  (forall k, ~ on_disk (disk db) k -> (occ k held' + occ k W' <= occ k held + occ k W)%nat) -> (forall k, k ∈ held' -> on_disk (disk db) k \/ k ∈ L) ->
  db_ok [] W X held L db -> db_ok [] W' X held' L (set_dirties db (<[zeroHash := set_children e (Some m')]> (dirties db))).
Proof.
  intros He Hm HW Hh [HI HL]. split; [|by eapply flush_list_set]. rewrite bares_set. apply (inv_root [] W W' X held held' L _ _ (strip e)); try done. by apply bares_Some.
Qed.

(** If nothing that counts changes, the map may stay as it is. *)
Lemma root_id W W' X held held' L db e m :
  dirties db !! zeroHash = Some e -> children e = Some m -> (forall k, ~ on_disk (disk db) k -> default 0 (m !! k) = Z.of_nat (occ k held')) ->
  (forall k, ~ on_disk (disk db) k -> (occ k held' + occ k W' <= occ k held + occ k W)%nat) -> (forall k, k ∈ held' -> on_disk (disk db) k \/ k ∈ L) ->
  db_ok [] W X held L db -> db_ok [] W' X held' L db.
Proof.
  intros He Hm. intros H1 H2 H3 H4. pose proof (root_ok W W' X held held' L db e m He H1 H2 H3 H4) as Hok.
  rewrite insert_id in Hok; [by destruct db|]. rewrite He. destruct e; cbn in *. by subst.
Qed.

Lemma drop_root_ok held root L db e :
  dirties db !! zeroHash = Some e -> db_ok [] [] [] (root :: held) L db ->
  exists db', drop_child db zeroHash root e = Ret db' /\ db_ok [] [root] [] held L db' /\ diskdb db' = diskdb db.
Proof.
  intros He Hok. destruct (ok_zero _ _ _ _ _ _ Hok) as (e' & m & He' & Hm & Hc). assert (e' = e) as -> by congruence.
  assert (forall k, k ∈ held -> on_disk (disk db) k \/ k ∈ L) as Hh by (intros k Hk; apply (inv_held _ _ _ _ _ _ _ (ok_inv _ _ _ _ _ _ Hok)); set_solver).
  assert (forall k, ~ on_disk (disk db) k -> (occ k held + occ k [root] <= occ k (root :: held) + occ k [])%nat) as HW by (intros k _; rewrite !occ_cons, occ_nil; lia).
  unfold drop_child. rewrite Hm. setoid_rewrite occ_cons in Hc. destruct (decide _) as [Hp|Hp].
  - destruct (decide _) as [H1|H1]; erewrite change_Ret by done; eexists; (split; [done|]); (split; [|done]); [apply db_ok_sizes|]; eapply root_ok; try done; intros k Hd; specialize (Hc k Hd).
    + destruct (decide (root = k)) as [->|]; [rewrite lookup_delete_eq|rewrite lookup_delete_ne by done]; cbn in *; lia.
    + destruct (decide (root = k)) as [->|]; [rewrite lookup_insert_eq|rewrite lookup_insert_ne by done]; cbn in *; lia.
  - exists db. split; [done|]. split; [|done]. eapply root_id; try done. intros k Hd. specialize (Hc k Hd). destruct (decide (root = k)) as [->|]; lia.
Qed.

Lemma length_dirties P W X held L db : db_ok P W X held L db -> (length L < size (dirties db))%nat.
Proof.
  intros Hok. pose proof (ok_list _ _ _ _ _ _ Hok) as [_ _ _ Hnd Hz].
  assert (NoDup (zeroHash :: L)) as Hnd' by (by apply list.NoDup_cons). rewrite <- size_dom.
  apply (Nat.le_trans _ (size (list_to_set (zeroHash :: L) : gset bytes))); [rewrite size_list_to_set by done; cbn; lia|].
  apply subseteq_size. intros x Hx%elem_of_list_to_set. apply elem_of_dom. apply (ok_dom _ _ _ _ _ _ x Hok). set_solver.
Qed.

Lemma inv_held_perm P W X held held' L B K : held ≡ₚ held' -> inv P W X held L B K -> inv P W X held' L B K.
Proof.
  intros Hp [(b & m & H1 & H2 & H3) ? ? Hh Hc ? ? ? ? ? ?]. split; try done.
  - exists b, m. split; [done|]. split; [done|]. intros k. rewrite <- (occ_perm k _ _ Hp). apply H3.
  - intros k. rewrite <- Hp. apply Hh.
  - intros k. rewrite <- (occ_perm k _ _ Hp). apply Hc.
Qed.

Lemma Dereference_ok held held' root L db :
  root <> zeroHash -> held ≡ₚ root :: held' -> db_ok [] [] [] held L db ->
  exists db' L', Dereference range db root = run (Ret db') /\ db_ok [] [] [] held' L' db' /\ diskdb db' = diskdb db.
Proof.
  intros Hr Hp [HI HL]. apply (inv_held_perm _ _ _ _ _ _ _ _ Hp) in HI. assert (db_ok [] [] [] (root :: held') L db) as Hok by by split.
  unfold Dereference. rewrite decide_False by done. rewrite dereference_release. destruct (ok_zero _ _ _ _ _ _ Hok) as (e & m & He & _). unfold deref. rewrite He. cbn.
  destruct (drop_root_ok held' root L db e He Hok) as (db1 & -> & Hok1 & Hk1). cbn.
  destruct (release_ok (size (dirties db)) [] [] [] held' L db1 root) as (db2 & L2 & -> & Hok2 & _ & Hk2); [done|done|by intros p ?%elem_of_nil| |].
  - intros Hl%below_length. pose proof (length_dirties _ _ _ _ _ _ Hok). lia.
  - exists db2, L2. split; [done|]. split; [done|congruence].
Qed.

(** ** References *)

(** The counters of parents have room for references to [l]. *)
Definition room (db : Database) (l : list bytes) : Prop := forall k e, dirties db !! k = Some e -> parents e + Z.of_nat (occ k l) < 2 ^ 32.

Definition inc (n : cachedNode) : cachedNode := set_parents n (u32 (parents n + 1)).

Lemma inc_ok W X held L db c node :
  dirties db !! c = Some node -> c ∈ L -> parents node + 1 < 2 ^ 32 -> db_ok [] W X held L db ->
  db_ok [] (c :: W) X held L (set_dirties db (<[c := inc node]> (dirties db))) /\ parents (inc node) = parents node + 1.
Proof.
  intros Hn HcL Hroom [HI HL]. assert (c <> zeroHash) as Hc0 by (intros ->; by apply (inv_zero _ _ _ _ _ _ _ HI)). pose proof (bares_Some db c node Hn) as Hb.
  destruct (inv_entry _ _ _ _ _ _ _ HI c _ Hc0 Hb) as [_ _ Hp _]. cbn in Hp.
  assert (parents (inc node) = parents node + 1) as Hinc by (cbn; unfold u32; rewrite Z.mod_small; lia). split; [|done].
  split; [|by eapply flush_list_set]. rewrite bares_set. change (strip (inc node)) with (with_parents (strip node) (parents (inc node))). rewrite Hinc.
  apply (inv_parents [] W); [|done|done|lia| |exact HI].
  - intros k Hk. by rewrite occ_cons, decide_False.
  - intros _ Hd. pose proof (inv_count _ _ _ _ _ _ _ HI c _ HcL Hd Hb) as Hc. rewrite occ_cons, decide_True by done. cbn in Hc. lia.
Qed.

Lemma Reference_ok held L db root :
  root <> zeroHash -> on_disk (disk db) root \/ root ∈ L -> Z.of_nat (occ root held) + 1 < 2 ^ 16 -> room db [root] -> db_ok [] [] [] held L db ->
  exists db', reference db root zeroHash = Ret db' /\ db_ok [] [] [] (root :: held) L db' /\ diskdb db' = diskdb db.
Proof.
  intros Hr Hav H16 H32 Hok. destruct (ok_zero _ _ _ _ _ _ Hok) as (e & m & He & Hm & Hc). unfold reference.
  assert (forall k, k ∈ root :: held -> on_disk (disk db) k \/ k ∈ L) as Hh.
  { intros k [->|Hk]%elem_of_cons; [done|]. by apply (inv_held _ _ _ _ _ _ _ (ok_inv _ _ _ _ _ _ Hok)). }
  destruct (dirties db !! root) as [node|] eqn:Hn.
  - assert (root ∈ L) as HrL. { destruct (ok_dom _ _ _ _ _ _ root Hok) as [[?|[?%elem_of_nil|?]] _]; [by eexists|done..]. }
    unfold deref. rewrite He. cbn. rewrite Hm. rewrite andb_false_r. erewrite change_Ret by done.
    specialize (H32 root node Hn). rewrite occ_cons, decide_True, occ_nil in H32 by done.
    destruct (inc_ok _ _ _ _ _ _ _ Hn HrL ltac:(lia) Hok) as [Hok1 _]. cbn. erewrite change_Ret by (cbn; by rewrite lookup_insert_ne).
    eexists. split; [done|]. split; [|by destruct (decide _)].
    assert (db_ok [] [] [] (root :: held) L (set_dirties (set_dirties db (<[root := inc node]> (dirties db)))
      (<[zeroHash := set_children e (Some (<[root := u16 (default 0 (m !! root) + 1)]> m))]> (<[root := inc node]> (dirties db))))); [|destruct (decide _); [by apply db_ok_sizes|done]].
    eapply (root_ok [root] [] [] held); [by cbn; rewrite lookup_insert_ne| | |done|done].
    + intros k Hd. specialize (Hc k Hd). rewrite occ_cons. destruct (decide (root = k)) as [->|Hne]; [|by rewrite lookup_insert_ne].
      rewrite lookup_insert_eq. cbn. unfold u16. rewrite Z.mod_small; lia.
    + intros k _. rewrite !occ_cons, occ_nil. lia.
  - exists db. split; [done|]. split; [|done]. destruct Hav as [Hd|HrL]; [|destruct (ok_dom _ _ _ _ _ _ root Hok) as [_ Hd]; rewrite Hn in Hd; by destruct Hd as [? ?]; auto].
    eapply (root_id [] [] [] held); try done; intros k Hkd; rewrite occ_cons, decide_False; try done; try (by intros ->). by apply Hc.
Qed.

(** A counter goes up by one. *)
Lemma room_inc db db' k l node :
  room db (k :: l) -> dirties db !! k = Some node -> (forall x e, dirties db' !! x = Some e -> exists e', (<[k := inc node]> (dirties db)) !! x = Some e' /\ parents e = parents e') ->
  parents (inc node) = parents node + 1 -> room db' l.
Proof.
  intros Hr Hn Hd Hi x e Hx. destruct (Hd x e Hx) as (e' & He' & ->). rewrite lookup_insert in He'. destruct (decide (k = x)) as [->|Hne].
  - injection He' as <-. specialize (Hr x node Hn). rewrite occ_cons, decide_True in Hr by done. lia.
  - specialize (Hr x e' He'). rewrite occ_cons, decide_False in Hr by done. lia.
Qed.

Lemma room_weaken db k l : room db (k :: l) -> room db l.
Proof. intros Hr x e Hx. specialize (Hr x e Hx). rewrite occ_cons in Hr. lia. Qed.

(** Making the entry of the parent. *)
Lemma link_ok X held L1 h L2 db k node p m :
  k ∈ external h -> on_disk (disk db) k \/ k ∈ L1 -> dirties db !! k = Some node -> dirties db !! h = Some p -> default ∅ (children p) = m -> m !! k = None ->
  room db [k] -> db_ok [] [] ((h, k) :: X) held (L1 ++ h :: L2) db ->
  db_ok [] [] X held (L1 ++ h :: L2) (set_dirties db (<[h := set_children p (Some (<[k := 1]> m))]> (<[k := inc node]> (dirties db)))).
Proof.
  intros Hx Hav Hn Hp Hm Hk Hr Hok. assert (k ∈ skids h) as Hsk by (apply elem_of_app; by right).
  assert (k ∈ L1 ++ h :: L2) as HkL. { destruct (ok_dom _ _ _ _ _ _ k Hok) as [[?|[?%elem_of_nil|?]] _]; [by eexists|subst; by apply skids_zero in Hsk|done..]. }
  assert (k <> h) as Hne by (intros ->; apply rank_lt in Hsk; lia). specialize (Hr k node Hn). rewrite occ_cons, decide_True, occ_nil in Hr by done.
  destruct (inc_ok _ _ _ _ _ _ _ Hn HkL ltac:(lia) Hok) as [[HI HL] _]. set (db1 := set_dirties db _) in *.
  assert (dirties db1 !! h = Some p) as Hp1 by (cbn; by rewrite lookup_insert_ne).
  change (set_dirties db _) with (set_dirties db1 (<[h := set_children p (Some (<[k := 1]> m))]> (dirties db1))). split; [|by eapply flush_list_set].
  rewrite bares_set. change (strip (set_children p ?c)) with (with_children (strip p) c).
  eapply inv_made; [right|eapply inv_link; [by apply bares_Some|exact Hm|done|done|done|exact HI]].
  unfold kids. rewrite lookup_insert_eq. unfold bare_kids. cbn. rewrite elem_of_app. left. apply elem_of_range. by rewrite lookup_insert_eq.
Qed.

Lemma external_ok X held L1 h L2 db k l :
  k ∈ external h -> on_disk (disk db) k \/ k ∈ L1 -> room db (k :: l) -> db_ok [] [] ((h, k) :: X) held (L1 ++ h :: L2) db ->
  exists db', reference db k h = Ret db' /\ db_ok [] [] X held (L1 ++ h :: L2) db' /\ diskdb db' = diskdb db /\ room db' l.
Proof.
  intros Hx Hav Hr Hok. assert (h <> zeroHash) as Hh0 by (intros ->; apply (inv_zero _ _ _ _ _ _ _ (ok_inv _ _ _ _ _ _ Hok)); set_solver). unfold reference.
  destruct (ok_dom _ _ _ _ _ _ h Hok) as [_ [p Hp]]; [set_solver|]. destruct (dirties db !! k) as [node|] eqn:Hn; cycle 1.
  { exists db. split; [done|]. split; [|split; [done|by eapply room_weaken]]. destruct Hok as [HI HL]. split; [|done]. eapply inv_made; [|exact HI].
    destruct Hav as [?|Hl]; [by left|]. destruct (ok_dom _ _ _ _ _ _ k ltac:(by split)) as [_ Hd]. rewrite Hn in Hd. destruct Hd as [? ?]; [set_solver|done]. }
  unfold deref. rewrite Hp. cbn. assert (room db [k]) as Hr1. { intros x e Hxe. specialize (Hr x e Hxe). rewrite occ_cons in *. rewrite occ_nil. lia. }
  assert (k <> h) as Hne by (intros ->; pose proof (rank_lt h h ltac:(apply elem_of_app; by right)); lia).
  destruct (inc_ok [] ((h, k) :: X) held (L1 ++ h :: L2) db k node Hn) as [_ Hinc]; [|specialize (Hr k node Hn); rewrite occ_cons, decide_True in Hr by done; lia|done|].
  { destruct (ok_dom _ _ _ _ _ _ k Hok) as [[->|[?%elem_of_nil|?]] _]; [by eexists| |done|done]. exfalso. eapply (skids_zero h), elem_of_app. by right. }
  destruct (bool_decide_reflect (is_Some (default ∅ (children p) !! k))) as [Hkn|Hkn].
  - destruct (children p) as [m|] eqn:Hm; cbn in Hkn; [|by destruct Hkn]. rewrite !bool_decide_true by done. cbn. exists db. split; [done|]. split; [|split; [done|by eapply room_weaken]].
    destruct Hok as [HI HL]. split; [|done]. eapply inv_made; [right|exact HI]. unfold kids. rewrite (bares_Some db h p) by done. unfold bare_kids. cbn. rewrite Hm, elem_of_app. left. by apply elem_of_range.
  - assert (default ∅ (children p) !! k = None) as Hkm by (by apply eq_None_not_Some).
    pose proof (link_ok X held L1 h L2 db k node p _ Hx Hav Hn Hp eq_refl Hkm Hr1 Hok) as Hok'.
    assert (forall d c, room (add_sizes (set_dirties db (<[h := set_children p (Some (<[k := 1]> (default ∅ (children p))))]> (<[k := inc node]> (dirties db)))) d c) l) as Hroom.
    { intros d c. eapply room_inc; [exact Hr|done| |exact Hinc]. intros x e. cbn. rewrite lookup_insert. destruct (decide (h = x)) as [<-|]; [|by exists e].
      intros [= <-]. exists p. by rewrite lookup_insert_ne. }
    destruct (children p) as [m|] eqn:Hm; cbn in Hkm, Hok', Hroom |- *; [rewrite (bool_decide_false (is_Some (m !! k))) by (by rewrite Hkm; intros [? ?])|];
      (erewrite change_Ret by done); cbn; (erewrite change_Ret by (cbn; by rewrite lookup_insert_ne)); (eexists; split; [done|]); rewrite ?Hkm; cbn; rewrite decide_True by done.
    + split; [by apply db_ok_sizes|]. split; [done|]. apply Hroom.
    + split; [apply db_ok_sizes; exact (db_ok_sizes _ _ _ _ _ _ 0 cachedNodeChildrenSize Hok')|]. split; [done|]. apply (Hroom 0 0).
Qed.

(** [add_parent] on all references of a new node. *)
Lemma add_parents_ok l l' : forall W X held L db,
  room db (l ++ l') -> (forall k, k ∈ l -> on_disk (disk db) k \/ k ∈ L) -> zeroHash ∉ l -> db_ok [] W X held L db ->
  let db' := set_dirties db (fold_left add_parent l (dirties db)) in db_ok [] (rev l ++ W) X held L db' /\ room db' l'.
Proof.
  induction l as [|k l IH]; intros W X held L db Hr Hav Hz Hok; [by destruct db|]. cbn. rewrite <- app_assoc. cbn. unfold add_parent at 2 4. change (room db (k :: (l ++ l'))) in Hr.
  destruct (dirties db !! k) as [node|] eqn:Hn.
  - assert (k ∈ L) as HkL. { destruct (ok_dom _ _ _ _ _ _ k Hok) as [[->|[?%elem_of_nil|?]] _]; [by eexists|set_solver|done..]. }
    destruct (inc_ok _ _ _ _ _ _ _ Hn HkL ltac:(specialize (Hr k node Hn); rewrite occ_cons, decide_True in Hr by done; lia) Hok) as [Hok1 Hinc].
    apply (IH (k :: W)) in Hok1; [done| |set_solver|set_solver]. eapply room_inc; [exact Hr|done| |done]. intros x e Hx. by exists e.
  - apply IH; [by eapply room_weaken|set_solver|set_solver|]. destruct Hok as [HI HL]. split; [|done]. eapply inv_uncounted; [|exact HI].
    intros x Hx _. rewrite occ_cons, decide_False; [done|]. intros ->. destruct (ok_dom _ _ _ _ _ _ x ltac:(by split)) as [_ Hd]. rewrite Hn in Hd. destruct Hd as [? ?]; [auto|done].
Qed.

Lemma not_dirty P W X held L db h : db_ok P W X held L db -> h <> zeroHash -> h ∉ P -> h ∉ L -> dirties db !! h = None.
Proof. intros Hok H1 H2 H3. apply eq_None_not_Some. rewrite (ok_dom _ _ _ _ _ _ h Hok). naive_solver. Qed.

Lemma room_bares db db' l : room db l -> bares db' = bares db -> room db' l.
Proof.
  intros Hr Hb k e He. pose proof (bares_Some db' k e He) as Hb'. rewrite Hb in Hb'. destruct (bares_inv _ _ _ Hb') as (e' & He' & Hs).
  assert (parents e = parents e') as -> by (by injection Hs). by apply Hr.
Qed.

Lemma db_insert_ok held L db h size n :
  h <> zeroHash -> simplifyNode n = Ret (content h) -> encodes h -> (forall k, k ∈ skids h -> on_disk (disk db) k \/ k ∈ L) -> room db (skids h) ->
  db_ok [] [] [] held L db -> dirties db !! h = None ->
  exists db', insert range db h size n = Ret db' /\ db_ok [] [] (map (fun k => (h, k)) (external h)) held (L ++ [h]) db' /\ diskdb db' = diskdb db /\ room db' (external h).
Proof.
  intros Hh Hn Henc Hav Hr Hok Hd. unfold insert. rewrite Hd, Hn. cbn [mbind outcome_bind]. unfold forChilds at 1. cbn [children cn_node app].
  set (n' := content h) in *. assert (h ∉ L) as HhL. { intros Hl. destruct (ok_dom _ _ _ _ _ _ h Hok) as [_ Hx]. rewrite Hd in Hx. by destruct Hx as [? ?]; auto. }
  destruct (add_parents_ok (forGatherChildren n') (external h) [] [] held L db) as [[HI HL] Hr1]; [done|intros k Hk; apply Hav, elem_of_app; by left|intros Hz; apply (skids_zero h), elem_of_app; by left|done|].
  set (db1 := set_dirties db (fold_left _ _ _)) in *. set (e := mk_cachedNode _ _ _ _ _ _).
  assert (dirties db1 !! h = None) as Hd1 by (eapply not_dirty; [by split|done|apply not_elem_of_nil|done]).
  destruct (append_ok db1 L h e) as (db2 & Ha & HL2 & Hs2); [done..|].
  change (exists db', (append (set_dirties db1 (<[h := e]> (dirties db1))) h ≫= fun db0 => Ret (add_sizes db0 (HashLength + u16 size) 0)) = Ret db' /\
    db_ok [] [] (map (fun k => (h, k)) (external h)) held (L ++ [h]) db' /\ diskdb db' = diskdb db /\ room db' (external h)).
  rewrite Ha. cbn. eexists. split; [done|]. split; [|split; [cbn; by rewrite (sl_disk _ _ Hs2)|]].
  - apply db_ok_sizes. eapply db_ok_links; [done|done|]. rewrite bares_set. rewrite <- (app_nil_r (map _ _)). apply inv_insert; [done|by rewrite bares_lookup, Hd1|done|done|intros k Hk; apply Hav, elem_of_app; by left|].
    eapply inv_uncounted; [|exact HI]. intros k _ _. rewrite app_nil_r. by rewrite <- (occ_perm k _ _ (Permutation_rev _)).
  - eapply room_bares; [|exact (sl_bares _ _ Hs2)]. intros k ek. cbn. rewrite lookup_insert. destruct (decide (h = k)) as [<-|]; [|apply Hr1]. intros [= <-].
    rewrite occ_zero; [done|]. intros Hx. pose proof (rank_lt h h ltac:(apply elem_of_app; by right)). lia.
Qed.

(** [insert] with the references to other tries that follow it. *)
Fixpoint references (db : Database) (h : bytes) (l : list bytes) : outcome Empty_set Database :=
  match l with
  | [] => Ret db
  | k :: l => db ← reference db k h; references db h l
  end.

Lemma references_ok held L1 h L2 l : forall X db,
  (forall k, k ∈ l -> k ∈ external h /\ (on_disk (disk db) k \/ k ∈ L1)) -> room db l -> db_ok [] [] (map (fun k => (h, k)) l ++ X) held (L1 ++ h :: L2) db ->
  exists db', references db h l = Ret db' /\ db_ok [] [] X held (L1 ++ h :: L2) db' /\ diskdb db' = diskdb db.
Proof.
  induction l as [|k l IH]; intros X db Hl Hr Hok; [by exists db|]. destruct (Hl k) as [Hx Hav]; [set_solver|]. cbn.
  destruct (external_ok (map (fun k => (h, k)) l ++ X) held L1 h L2 db k l) as (db1 & -> & Hok1 & Hd1 & Hr1); [done..|]. cbn.
  destruct (IH X db1) as (db2 & -> & Hok2 & Hd2); [|done|done|exists db2; split; [done|split; [done|congruence]]].
  rewrite Hd1. intros x Hxl. apply Hl. set_solver.
Qed.

Definition insert_with (db : Database) (h : bytes) (size : Z) (n : node) : outcome Empty_set Database :=
  db ← insert range db h size n; references db h (external h).

Lemma inv_pending P W X X' held L B K : inv P W X held L B K -> inv P W (X' ++ X) held L B K.
Proof. intros [? ? ? ? ? ? ? ? ? ? He]. split; try done. intros h k Hh Hk. rewrite elem_of_app. destruct (He h k Hh Hk) as [?|[?|?]]; auto. Qed.

(** What a node of the flush-list refers to is on disk, or was inserted before it. *)
Lemma skids_avail P W held L1 h L2 db k :
  db_ok P W [] held (L1 ++ h :: L2) db -> k ∈ skids h -> on_disk (disk db) k \/ (k ∈ L1 /\ k ∈ kids (bares db) h).
Proof.
  intros [HI _] Hk. pose proof (inv_order _ _ _ _ _ _ _ HI) as [_ [Ho _]]%ordered_app.
  assert (on_disk (disk db) k \/ k ∈ kids (bares db) h) as [?|Hkk]; [|by left|].
  - apply elem_of_app in Hk as [Hk|Hk].
    + right. unfold kids. destruct (inv_dom _ _ _ _ _ _ _ HI h) as [_ [b Hb]]; [set_solver|]. rewrite Hb.
      destruct (inv_entry _ _ _ _ _ _ _ HI h b) as [Hn _ _ _]; [intros ->; apply (inv_zero _ _ _ _ _ _ _ HI); set_solver|done|]. apply elem_of_app. right. by rewrite Hn.
    + destruct (inv_external _ _ _ _ _ _ _ HI h k) as [?|[?|?%elem_of_nil]]; [set_solver|done|by left|by right|done].
  - destruct (Ho k Hkk) as [?|Hs]; [by left|]. rewrite app_nil_r, <- (Permutation_rev L1) in Hs. by right.
Qed.

Lemma insert_with_ok held L db h size n :
  h <> zeroHash -> simplifyNode n = Ret (content h) -> encodes h -> (forall k, k ∈ skids h -> on_disk (disk db) k \/ k ∈ L) -> room db (skids h) ->
  db_ok [] [] [] held L db ->
  exists db' L', insert_with db h size n = Ret db' /\ db_ok [] [] [] held L' db' /\ diskdb db' = diskdb db /\ (forall k, k ∈ L' <-> k = h \/ k ∈ L).
Proof.
  intros Hh Hn Henc Hav Hr Hok. unfold insert_with. destruct (dirties db !! h) as [e|] eqn:Hd.
  - unfold insert at 1. rewrite Hd. cbn. assert (h ∈ L) as HhL. { destruct (ok_dom _ _ _ _ _ _ h Hok) as [[?|[?%elem_of_nil|?]] _]; [by eexists|done..]. }
    destruct (list_elem_of_split _ _ HhL) as (L1 & L2 & ->). destruct (references_ok held L1 h L2 (external h) [] db) as (db' & -> & Hok' & Hd').
    + intros k Hk. split; [done|]. destruct (skids_avail _ _ _ _ _ _ _ k Hok) as [?|[? _]]; [apply elem_of_app; by right|by left|by right].
    + intros k ek Hek. specialize (Hr k ek Hek). unfold skids in Hr. rewrite occ_app in Hr. lia.
    + destruct Hok as [HI HL]. split; [|done]. by apply inv_pending.
    + exists db', (L1 ++ h :: L2). split; [done|]. split; [done|]. split; [done|]. set_solver.
  - destruct (db_insert_ok held L db h size n) as (db1 & -> & Hok1 & Hd1 & Hr1); [done..|]. cbn.
    destruct (references_ok held L h [] (external h) [] db1) as (db' & -> & Hok' & Hd').
    + intros k Hk. split; [done|]. rewrite Hd1. apply Hav, elem_of_app. by right.
    + done.
    + by rewrite app_nil_r.
    + exists db', (L ++ [h]). split; [done|]. split; [done|]. split; [congruence|]. set_solver.
Qed.

End References.
