(* ===== verification/TrieDatabaseSafety.v ===== *)
(** * What the node database keeps (trie/database.go)

    Flushing and committing keep the invariant of the node database, and so every node
    that a root refers to stays available, also when writes fail. *)

From stdpp Require Import gmap.
From S2P Require Import Prelude Rlp RlpEncode TrieEncoding Trie TrieProofs TrieHash TrieDatabase TrieDatabaseProofs TrieDatabaseInv TrieDatabaseRefs.

Section Safety.
Context {G : Graph} {Rg : Range}.

(** ** Writing *)

(** The disk as it will be when a batch is written. *)
Definition ahead (db : Database) (b : Batch) : gmap bytes bytes := put_all (b_nodes b) (disk db).

Lemma put_all_snoc l h v m : put_all (l ++ [(h, v)]) m = <[h := v]> (put_all l m).
Proof. unfold put_all. by rewrite fold_left_app. Qed.

Lemma put_all_keeps l m k : on_disk m k -> on_disk (put_all l m) k.
Proof.
  induction l as [|[h v] l IH] using rev_ind; [done|]. intros Hk. rewrite put_all_snoc. apply lookup_insert_is_Some'. right. by apply IH.
Qed.

Lemma put_all_puts l m h v : (h, v) ∈ l -> on_disk (put_all l m) h.
Proof.
  induction l as [|[h' v'] l IH] using rev_ind; [by intros ?%elem_of_nil|]. rewrite put_all_snoc, elem_of_app, list_elem_of_singleton. intros [Hl|[= -> ->]]; apply lookup_insert_is_Some'; [right; by apply IH|by left].
Qed.

Lemma disk_closed_add K h : disk_closed K -> blob h <> [] -> (forall k, k ∈ skids h -> on_disk K k) -> disk_closed (<[h := blob h]> K).
Proof.
  intros HK Hb Hs x v. rewrite lookup_insert. destruct (decide (h = x)) as [<-|Hne].
  - intros [= <-]. split; [done|]. split; [done|]. intros k Hk. apply lookup_insert_is_Some'. right. by apply Hs.
  - intros Hx. destruct (HK x v Hx) as (-> & Hb' & Hk'). split; [done|]. split; [done|]. intros k Hk. apply lookup_insert_is_Some'. right. by apply Hk'.
Qed.

Lemma flush_list_disk db L d : flush_list db L -> flush_list (set_diskdb db d) L.
Proof. by intros []. Qed.

Lemma write_ok P W X held L db b d ok :
  db_ok P W X held L db -> disk_closed (ahead db b) -> batch_Write b (diskdb db) = (d, ok) ->
  db_ok P W X held L (set_diskdb db d) /\ (kv d = if ok then ahead db b else disk db).
Proof.
  intros [HI HL] Hc Hw. assert (kv d = if ok then ahead db b else disk db) as Hd. { unfold batch_Write in Hw. destruct (faults (diskdb db)) as [|[|] fs]; by injection Hw as <- <-. }
  split; [|done]. split; [|by apply flush_list_disk]. cbn. rewrite Hd. destruct ok; [|done]. eapply inv_grow; [done|intros k; apply put_all_keeps|done].
Qed.

(** *** Flushing *)

Lemma entry_rlp P W X held L db h e : db_ok P W X held L db -> h <> zeroHash -> dirties db !! h = Some e -> cn_rlp e = Ret (blob h) /\ blob h <> [].
Proof.
  intros [HI _] Hh He. destruct (inv_entry _ _ _ _ _ _ _ HI h _ Hh (bares_Some db h e He)) as [Hn [Henc Hb] _ _]. cbn in Hn.
  split; [|done]. unfold cn_rlp. by rewrite Hn, Henc.
Qed.

(** Putting the first node that is not yet in the batch. *)
Lemma ahead_put held F h R db b e :
  db_ok [] [] [] held (F ++ h :: R) db -> dirties db !! h = Some e -> disk_closed (ahead db b) -> (forall k, k ∈ F -> on_disk (ahead db b) k) ->
  cn_rlp e = Ret (blob h) /\ disk_closed (ahead db (WriteTrieNode b h (blob h))) /\ forall k, k ∈ F ++ [h] -> on_disk (ahead db (WriteTrieNode b h (blob h))) k.
Proof.
  intros Hok He Hc HF. assert (h <> zeroHash) as Hh by (intros ->; apply (fl_zero _ _ (ok_list _ _ _ _ _ _ Hok)); set_solver).
  destruct (entry_rlp _ _ _ _ _ _ _ _ Hok Hh He) as [Hr Hb]. split; [done|]. unfold ahead in *. cbn. rewrite put_all_snoc. split.
  - apply disk_closed_add; [done|done|]. intros k Hk. destruct (skids_avail _ _ _ _ _ _ _ k Hok Hk) as [?|[? _]]; [by apply put_all_keeps|by apply HF].
  - intros k [Hk|Hk%list_elem_of_singleton]%elem_of_app; apply lookup_insert_is_Some'; [right; by apply HF|by left].
Qed.

Lemma flush_next db F h R e : flush_list db (F ++ h :: R) -> dirties db !! h = Some e -> flushNext e = hd zeroHash R.
Proof. intros [_ _ [_ (e' & He' & _ & Hn & _)]%linked_app _ _] He. congruence. Qed.

(** What the first loop of [Cap] leaves: a part [F] of the flush-list that will be on disk with the batch. *)
Definition flushed (held L : list bytes) (db : Database) (b : Batch) (old : bytes) : Prop :=
  disk_closed (ahead db b) /\ exists F R, L = F ++ R /\ old = hd zeroHash R /\ forall k, k ∈ F -> on_disk (ahead db b) k.

Lemma cap_flush_ok fuel : forall held F R db b size limit,
  (length R <= fuel)%nat -> db_ok [] [] [] held (F ++ R) db -> disk_closed (ahead db b) -> (forall k, k ∈ F -> on_disk (ahead db b) k) ->
  exists db' b' old ok, cap_flush fuel db b size limit (hd zeroHash R) = run (Ret (db', b', old, ok)) /\ db_ok [] [] [] held (F ++ R) db' /\
    dirties db' = dirties db /\ preimages db' = preimages db /\ (ok = true -> flushed held (F ++ R) db' b' old) /\ (forall k, on_disk (disk db) k -> on_disk (disk db') k).
Proof.
  induction fuel as [|fuel IH]; intros held F R db b size limit Hf Hok Hc HF.
  - destruct R; [|cbn in Hf; lia]. cbn. exists db, b, zeroHash, true. rewrite decide_False by naive_solver. do 4 (split; [done|]). split; [|done]. intros _. split; [done|]. by exists F, [].
  - cbn [cap_flush]. destruct (decide _) as [[Hs Hz]|_]; [|exists db, b, (hd zeroHash R), true; do 4 (split; [done|]); split; [|done]; intros _; split; [done|by exists F, R]].
    destruct R as [|h R]; [done|]. cbn [hd]. cbn in Hf. destruct (ok_dom _ _ _ _ _ _ h Hok) as [_ [e He]]; [set_solver|]. unfold deref. rewrite He. cbn.
    destruct (ahead_put _ _ _ _ _ b _ Hok He Hc HF) as (-> & Hc' & HF'). cbn. rewrite (flush_next db F h R e) by (by destruct Hok).
    set (b1 := WriteTrieNode b h (blob h)) in *. set (size1 := size - _ - _). replace (F ++ h :: R) with ((F ++ [h]) ++ R) in * by (by rewrite <- app_assoc).
    destruct (decide _) as [_|_].
    + destruct (batch_Write b1 (diskdb db)) as [d ok] eqn:Hw. destruct (write_ok _ _ _ _ _ _ _ _ _ Hok Hc' Hw) as [Hok1 Hd]. destruct ok.
      * destruct (IH held (F ++ [h]) R (set_diskdb db d) NewBatch size1 limit) as (db' & b' & old & ok & -> & H1 & H2 & H3 & H4 & H5); [lia|done|unfold ahead; cbn; by rewrite Hd|unfold ahead; cbn; by rewrite Hd|].
        exists db', b', old, ok. do 5 (split; [done|]). intros k Hk. apply H5. cbn. rewrite Hd. by apply put_all_keeps.
      * eexists _, _, _, _. do 4 (split; [done|]). split; [done|]. cbn. by rewrite Hd.
    + apply IH; [lia|done..].
Qed.

Lemma pop_ok held h R db e :
  db_ok [] [] [] held (h :: R) db -> on_disk (disk db) h -> dirties db !! h = Some e ->
  db_ok [] [] [] held R (set_flush (set_dirties db (base.delete h (dirties db))) (flushNext e) (newest db)).
Proof.
  intros [HI HL] Hd He. split.
  - change (bares (set_flush ?x _ _)) with (bares x). rewrite bares_unset. by apply (inv_drop [] [] [] held []).
  - destruct HL as [Ho Hn (e' & He' & _ & Hnx & Hl) [Hh Hnd]%list.NoDup_cons Hz]. assert (e' = e) as -> by congruence. split; [done| | |done|set_solver].
    + intros x Hx. apply Hn. destruct R; [done|exact Hx].
    + apply linked_delete; [done|]. by eapply linked_any.
Qed.

Lemma cap_clear_ok fuel : forall held F R db,
  (length F <= fuel)%nat -> db_ok [] [] [] held (F ++ R) db -> (forall k, k ∈ F -> on_disk (disk db) k) ->
  exists db', cap_clear fuel db (hd zeroHash R) = run (Ret db') /\ db_ok [] [] [] held R db' /\ diskdb db' = diskdb db.
Proof.
  induction fuel as [|fuel IH]; intros held F R db Hf Hok HF; (destruct F as [|h F]; [cbn [cap_clear]; rewrite decide_False by (rewrite (fl_oldest _ _ (ok_list _ _ _ _ _ _ Hok)); auto); by exists db|cbn in Hf; try lia]).
  cbn [cap_clear]. pose proof (ok_list _ _ _ _ _ _ Hok) as [Ho _ _ Hnd Hz]. cbn in Ho. rewrite Ho.
  assert (h <> hd zeroHash R) as Hne. { apply list.NoDup_cons in Hnd as [Hh _]. destruct R; cbn; set_solver. }
  rewrite decide_True by done. destruct (ok_dom _ _ _ _ _ _ h Hok) as [_ [e He]]; [set_solver|]. unfold deref. rewrite He. cbn.
  destruct (IH held F R (add_sizes (set_flush (set_dirties db (base.delete h (dirties db))) (flushNext e) (newest db)) (- (HashLength + cn_size e)) (- external_size e))) as (db' & E & Hok' & Hd').
  - lia.
  - apply db_ok_sizes. apply (pop_ok held h (F ++ R)); [done|apply HF; set_solver|done].
  - intros k Hk. apply HF. set_solver.
  - exists db'. split; [exact E|]. split; [done|]. by rewrite Hd'.
Qed.

Lemma db_ok_preimages P W X held L db p s : db_ok P W X held L db -> db_ok P W X held L (set_preimages db p s).
Proof. intros [? []]. by split; [|split]. Qed.

(** The new oldest node has no predecessor. *)
Lemma first_ok held L db : db_ok [] [] [] held L db -> oldest db <> zeroHash ->
  exists db', change db (oldest db) (fun n => set_flushPrev n zeroHash) = Ret db' /\ db_ok [] [] [] held L db' /\ diskdb db' = diskdb db.
Proof.
  intros [HI HL] Ho. pose proof (fl_oldest _ _ HL) as Hold. rewrite Hold in *. destruct L as [|h L]; [done|]. cbn in *.
  destruct (linked_Some _ _ _ _ h (fl_links _ _ HL)) as [e He]; [set_solver|]. erewrite change_Ret by done. eexists. split; [done|]. split; [|done].
  eapply db_ok_links; [by apply (change_links db h (fun n => set_flushPrev n zeroHash) e)| |done]. destruct HL as [? ? Hl Hnd ?]. split; try done.
  eapply linked_any, linked_set_prev; [by apply list.NoDup_cons in Hnd as [? _]|done|exact Hl].
Qed.

(** Writing a batch without nodes. *)
Lemma write_preimages_ok P W X held L db b d ok :
  db_ok P W X held L db -> b_nodes b = [] -> batch_Write b (diskdb db) = (d, ok) -> db_ok P W X held L (set_diskdb db d) /\ kv d = disk db.
Proof.
  intros Hok Hb Hw. assert (ahead db b = disk db) as Ha by (unfold ahead; by rewrite Hb). destruct (write_ok _ _ _ _ _ _ _ _ _ Hok ltac:(rewrite Ha; apply (inv_disk _ _ _ _ _ _ _ (ok_inv _ _ _ _ _ _ Hok))) Hw) as [? Hd].
  split; [done|]. rewrite Hd, Ha. by destruct ok.
Qed.

Definition grows (db db' : Database) : Prop := forall k, on_disk (disk db) k -> on_disk (disk db') k.

(** The end of [Cap]: the batch is written and the nodes leave the cache. *)
Lemma cap_end held L db b old :
  db_ok [] [] [] held L db -> flushed held L db b old -> forall d, batch_Write b (diskdb db) = (d, true) -> forall db1, db1 = set_diskdb db d \/ db1 = set_preimages (set_diskdb db d) (Some ∅) 0 ->
  exists db' L', (db ← cap_clear (size (dirties db1)) db1 old;
    if decide (oldest db <> zeroHash) then db ← run (change db (oldest db) (fun n => set_flushPrev n zeroHash)); run (Ret (db, true)) else run (Ret (db, true))) = run (Ret (db', true)) /\
    db_ok [] [] [] held L' db' /\ grows db db'.
Proof.
  intros Hok [Hc (F & R & -> & -> & HF)] d Hw db1 Hdb1. destruct (write_ok _ _ _ _ _ _ _ _ _ Hok Hc Hw) as [Hok1 Hd].
  assert (db_ok [] [] [] held (F ++ R) db1 /\ diskdb db1 = d) as [Hok2 Hd1] by (destruct Hdb1 as [->| ->]; [done|split; [by apply db_ok_preimages|done]]).
  destruct (cap_clear_ok (size (dirties db1)) held F R db1) as (db2 & -> & Hok3 & Hd2); [pose proof (length_dirties _ _ _ _ _ _ Hok2) as Hl; rewrite length_app in Hl; lia|done|rewrite Hd1, Hd; done|]. cbn.
  assert (grows db db2) as Hg by (intros k Hk; rewrite Hd2, Hd1, Hd; by apply put_all_keeps).
  destruct (decide _) as [Ho|Ho]; [|by exists db2, R]. destruct (first_ok held R db2 Hok3 Ho) as (db3 & -> & Hok4 & Hd3). cbn. exists db3, R. split; [done|]. split; [done|]. unfold grows. by rewrite Hd3.
Qed.

Lemma Cap_ok held L db limit : db_ok [] [] [] held L db ->
  exists db' L' ok, Cap db limit = run (Ret (db', ok)) /\ db_ok [] [] [] held L' db' /\ grows db db'.
Proof.
  intros Hok. destruct (ok_zero _ _ _ _ _ _ Hok) as (e & m & He & Hm & _). unfold Cap, deref. rewrite He. cbn. set (size0 := _ + (_ - _)).
  set (fp := bool_decide _). set (start := match fp with true => _ | false => _ end).
  assert (exists db0 b0 ok0, start = (db0, b0, ok0) /\ db_ok [] [] [] held L db0 /\ b_nodes b0 = [] /\ disk db0 = disk db) as (db0 & b0 & ok0 & -> & Hok0 & Hb0 & Hd0).
  { unfold start. destruct fp; [|by exists db, NewBatch, true]. destruct (preimages db) as [p|]; [|by exists db, NewBatch, true]. destruct (decide _); [|by eexists db, _, true].
    destruct (batch_Write _ _) as [d ok] eqn:Hw. destruct (write_preimages_ok _ _ _ _ _ _ (WritePreimages NewBatch p) _ _ Hok eq_refl Hw) as [? ?]. eexists _, _, _. by split. }
  destruct ok0; cbn [negb]; [|by exists db0, L, false; split; [|split; [|intros k; rewrite Hd0]]].
  rewrite (fl_oldest _ _ (ok_list _ _ _ _ _ _ Hok0)). assert (ahead db0 b0 = disk db0) as Ha by (unfold ahead; by rewrite Hb0).
  destruct (cap_flush_ok (size (dirties db0)) held [] L db0 b0 size0 limit) as (db1 & b1 & old & ok1 & -> & Hok1 & Hdi & Hpr & Hfl & Hg1).
  - pose proof (length_dirties _ _ _ _ _ _ Hok0). lia.
  - done.
  - rewrite Ha. apply (inv_disk _ _ _ _ _ _ _ (ok_inv _ _ _ _ _ _ Hok0)).
  - by intros k ?%elem_of_nil.
  - cbn. assert (grows db db1) as Hg by (intros k; rewrite <- Hd0; apply Hg1). destruct ok1; cbn [negb]; [|by exists db1, L, false].
    destruct (batch_Write b1 (diskdb db1)) as [d ok2] eqn:Hw. destruct (Hfl eq_refl) as [Hc Hfl']. destruct (write_ok _ _ _ _ _ _ _ _ _ Hok1 Hc Hw) as [Hok2 Hd2].
    destruct ok2; cbn [negb]; [|exists (set_diskdb db1 d), L, false; split; [done|split; [done|intros k Hk; cbn; rewrite Hd2; by apply Hg]]].
    set (db2 := match fp with true => _ | false => _ end).
    destruct (cap_end held L db1 b1 old Hok1 (Hfl eq_refl) d Hw db2) as (db' & L' & E & Hok' & Hg'); [unfold db2; destruct fp; [|by left]; destruct (preimages _); auto|].
    exists db', L', true. split; [exact E|]. split; [done|]. intros k Hk. by apply Hg', Hg.
Qed.

(** *** Committing *)

(** The cache may lose nodes that are on disk. *)
Definition kept (L L' : list bytes) (db' : Database) : Prop := sublist L' L /\ forall k, k ∈ L -> k ∈ L' \/ on_disk (disk db') k.

Lemma cleaner_Put_ok held L db h : db_ok [] [] [] held L db -> on_disk (disk db) h -> h <> zeroHash ->
  exists db' L', cleaner_Put db h = Ret db' /\ db_ok [] [] [] held L' db' /\ kept L L' db' /\ diskdb db' = diskdb db.
Proof.
  intros Hok Hd Hh. unfold cleaner_Put. destruct (dirties db !! h) as [e|] eqn:He; [|exists db, L; split; [done|]; split; [done|]; split; [split; auto|done]].
  assert (h ∈ L) as HhL. { destruct (ok_dom _ _ _ _ _ _ h Hok) as [[?|[?%elem_of_nil|?]] _]; [by eexists|done..]. } destruct (list_elem_of_split _ _ HhL) as (L1 & L2 & ->).
  destruct (ok_zero _ _ _ _ _ _ Hok) as (e0 & _ & H0 & _). destruct Hok as [HI HL]. destruct (unlink_ok db L1 h L2 e e0 HL He H0) as (db1 & -> & HL1 & [Hb1 Hd1 _]). cbn.
  eexists _, (L1 ++ L2). split; [done|]. destruct (NoDup_middle _ _ _ (fl_nodup _ _ HL)) as [Hn _]. split.
  - apply db_ok_sizes. split; [|by apply flush_list_unset]. rewrite bares_unset, Hb1. cbn. rewrite Hd1. by apply inv_drop.
  - split; [|cbn; by rewrite Hd1]. split; [by apply sublist_app; [|apply sublist_cons]|]. intros k Hk. cbn. rewrite Hd1. destruct (decide (k = h)) as [->|]; [by right|left; set_solver].
Qed.

Lemma Replay_ok held l : forall L db, db_ok [] [] [] held L db -> (forall h v, (h, v) ∈ l -> on_disk (disk db) h /\ h <> zeroHash) ->
  exists db' L', Replay db l = Ret db' /\ db_ok [] [] [] held L' db' /\ kept L L' db' /\ diskdb db' = diskdb db.
Proof.
  induction l as [|[h v] l IH]; intros L db Hok Hl; [exists db, L; split; [done|]; split; [done|]; split; [split; auto|done]|].
  cbn. destruct (Hl h v) as [Hd Hh]; [set_solver|]. destruct (cleaner_Put_ok held L db h Hok Hd Hh) as (db1 & L1 & -> & Hok1 & [Hs1 Hk1] & Hd1). cbn.
  destruct (IH L1 db1 Hok1) as (db2 & L2 & -> & Hok2 & [Hs2 Hk2] & Hd2); [intros h' v' Hv; rewrite Hd1; apply (Hl h' v'); set_solver|].
  exists db2, L2. split; [done|]. split; [done|]. split; [|congruence]. split; [by etransitivity|].
  intros k Hk. rewrite Hd2, Hd1 in *. destruct (Hk1 k Hk) as [?|?]; auto.
Qed.

Record batch_ok (db : Database) (b : Batch) : Prop := {
  bo_closed : disk_closed (ahead db b);
  bo_zero h v : (h, v) ∈ b_nodes b -> h <> zeroHash
}.

(** From a state and a batch to another, on behalf of the nodes [l]. *)
Record progress (held L : list bytes) (db : Database) (b : Batch) (l : list bytes) (L' : list bytes) (db' : Database) (b' : Batch) (ok : bool) : Prop := {
  pr_ok : db_ok [] [] [] held L' db';
  pr_kept : kept L L' db';
  pr_grows : grows db db';
  pr_batch : ok = true -> batch_ok db' b' /\ (forall k, on_disk (ahead db b) k -> on_disk (ahead db' b') k) /\ forall k, k ∈ l -> on_disk (ahead db' b') k
}.

Lemma progress_refl held L db b l : db_ok [] [] [] held L db -> batch_ok db b -> (forall k, k ∈ l -> on_disk (ahead db b) k) -> progress held L db b l L db b true.
Proof. intros Hok Hb Hl. split; [done|split; auto|by intros k|auto]. Qed.

Lemma progress_trans held L0 db0 b0 l1 L1 db1 b1 l2 L2 db2 b2 ok :
  progress held L0 db0 b0 l1 L1 db1 b1 true -> progress held L1 db1 b1 l2 L2 db2 b2 ok -> progress held L0 db0 b0 (l1 ++ l2) L2 db2 b2 ok.
Proof.
  intros [_ [Hs1 Hk1] Hg1 Hb1] [Hok2 [Hs2 Hk2] Hg2 Hb2]. destruct (Hb1 eq_refl) as (_ & Hm1 & Hl1). split; [done| |intros k Hk; by apply Hg2, Hg1|].
  - split; [by etransitivity|]. intros k Hk. destruct (Hk1 k Hk) as [?|?]; [auto|right; by apply Hg2].
  - intros ->. destruct (Hb2 eq_refl) as (Hb & Hm2 & Hl2). split; [done|]. split; [intros k Hk; by apply Hm2, Hm1|]. intros k [Hk|Hk]%elem_of_app; auto.
Qed.

(** What [commit] does with enough fuel. *)
Definition enough (fuel : nat) (L : list bytes) (h : bytes) : Prop := (0 < fuel)%nat /\ (h ∈ L -> (below L h + 1 < fuel)%nat).
Definition reachable (L : list bytes) (db : Database) (b : Batch) (h : bytes) : Prop := h <> zeroHash /\ (h ∈ L \/ on_disk (ahead db b) h).
Definition commits (fuel : nat) : Prop := forall held L db b h,
  db_ok [] [] [] held L db -> batch_ok db b -> reachable L db b h -> enough fuel L h ->
  exists L' db' b' ok, commit range fuel db b h = run (Ret (db', b', ok)) /\ progress held L db b [h] L' db' b' ok.

Lemma commit_each_ok fuel held l : forall L db b, commits fuel -> db_ok [] [] [] held L db -> batch_ok db b ->
  (forall k, k ∈ l -> reachable L db b k /\ enough fuel L k) ->
  exists L' db' b' ok, commit_each (commit range fuel) l db b = run (Ret (db', b', ok)) /\ progress held L db b l L' db' b' ok.
Proof.
  induction l as [|h l IH]; intros L db b HC Hok Hb Hl; [exists L, db, b, true; split; [done|]; apply progress_refl; [done|done|by intros k ?%elem_of_nil]|].
  cbn. destruct (Hl h) as [Hr Hf]; [set_solver|]. destruct (HC held L db b h Hok Hb Hr Hf) as (L1 & db1 & b1 & ok & -> & Hp1). cbn. destruct ok; cycle 1.
  { exists L1, db1, b1, false. split; [done|]. destruct Hp1. by split. }
  destruct (pr_batch _ _ _ _ _ _ _ _ _ Hp1 eq_refl) as (Hb1 & Hm1 & _). destruct (pr_kept _ _ _ _ _ _ _ _ _ Hp1) as [Hs1 Hk1].
  destruct (IH L1 db1 b1) as (L2 & db2 & b2 & ok & -> & Hp2); [done|by destruct Hp1|done| |exists L2, db2, b2, ok; split; [done|]; by apply (progress_trans _ _ _ _ [h] _ _ _ _ _ _ _ _ Hp1)].
  intros k Hk. destruct (Hl k) as [[Hk0 Hkr] [Hf0 Hf1]]; [set_solver|]. split.
  - split; [done|]. destruct Hkr as [HkL|Hkr]; [|right; by apply Hm1]. destruct (Hk1 k HkL); [by left|right; by apply put_all_keeps].
  - split; [done|]. intros Hk2. pose proof (below_sublist _ _ k Hs1). specialize (Hf1 ltac:(by eapply elem_of_sublist)). lia.
Qed.

(** The node itself, after its children. *)
Lemma commit_node held L db b h e :
  db_ok [] [] [] held L db -> h <> zeroHash -> blob h <> [] -> cn_rlp e = Ret (blob h) -> batch_ok db b -> (forall k, k ∈ skids h -> on_disk (ahead db b) k) ->
  exists L' db' b' ok,
    (blob ← run (cn_rlp e);
     let b := WriteTrieNode b h blob in
     if decide (b_size b >= IdealBatchSize) then
       let '(d, ok) := batch_Write b (diskdb db) in
       let db := set_diskdb db d in
       if negb ok then run (Ret (db, b, false)) else db ← run (Replay db (b_nodes b)); run (Ret (db, NewBatch, true))
     else run (Ret (db, b, true))) = run (Ret (db', b', ok)) /\ progress held L db b [h] L' db' b' ok.
Proof.
  intros Hok Hh Hbl Hr [Hc Hz] Hk. rewrite Hr. cbn -[batch_Write ahead]. set (b1 := WriteTrieNode b h (blob h)).
  assert (ahead db b1 = <[h := blob h]> (ahead db b)) as Ha by apply put_all_snoc. assert (disk_closed (ahead db b1)) as Hc1 by (rewrite Ha; by apply disk_closed_add).
  assert (forall x v, (x, v) ∈ b_nodes b1 -> x <> zeroHash) as Hz1. { intros x v. cbn. rewrite elem_of_app, list_elem_of_singleton. intros [?|[= -> ->]]; [by eapply Hz|done]. }
  assert (forall k, on_disk (ahead db b) k -> on_disk (ahead db b1) k) as Hm by (intros k Hkk; rewrite Ha; apply lookup_insert_is_Some'; by right).
  assert (forall k, k ∈ [h] -> on_disk (ahead db b1) k) as Hl by (intros k ->%list_elem_of_singleton; rewrite Ha; apply lookup_insert_is_Some'; by left).
  destruct (decide _) as [_|_]; [|exists L, db, b1, true; split; [done|]; split; [done|split; auto|by intros k|by intros _]].
  destruct (batch_Write b1 (diskdb db)) as [d ok] eqn:Hw. destruct (write_ok _ _ _ _ _ _ _ _ _ Hok Hc1 Hw) as [Hok1 Hd]. destruct ok; cbn [negb]; cycle 1.
  { eexists L, _, _, false. split; [done|]. split; [done|split; auto|intros k Hkk; cbn; by rewrite Hd|done]. }
  destruct (Replay_ok held (b_nodes b1) L (set_diskdb db d) Hok1) as (db2 & L2 & E & Hok2 & Hk2 & Hd2).
  { intros x v Hx. split; [|by eapply Hz1]. cbn. rewrite Hd. by eapply put_all_puts. }
  assert (ahead db2 NewBatch = ahead db b1) as Ha2 by (unfold ahead at 1; cbn; by rewrite Hd2).
  exists L2, db2, NewBatch, true. split; [change (b_nodes b ++ [(h, blob h)]) with (b_nodes b1); by rewrite E|]. split; [done|done|intros k Hkk; rewrite Hd2; cbn; rewrite Hd; by apply put_all_keeps|].
  intros _. rewrite !Ha2. split; [split; [by rewrite Ha2|by intros ? ? ?%elem_of_nil]|done].
Qed.

Lemma commit_ok fuel : commits fuel.
Proof.
  induction fuel as [|fuel IH]; intros held L db b h Hok Hb [Hh Hr] [Hf0 Hf]; [lia|]. cbn [commit]. destruct (dirties db !! h) as [e|] eqn:He; cycle 1.
  { exists L, db, b, true. split; [done|]. apply progress_refl; [done|done|]. intros k ->%list_elem_of_singleton. destruct Hr as [Hl|?]; [|done].
    destruct (ok_dom _ _ _ _ _ _ h Hok) as [_ Hd]. rewrite He in Hd. destruct Hd as [? ?]; [auto|done]. }
  assert (h ∈ L) as HhL. { destruct (ok_dom _ _ _ _ _ _ h Hok) as [[?|[?%elem_of_nil|?]] _]; [by eexists|done..]. } specialize (Hf HhL).
  destruct (list_elem_of_split _ _ HhL) as (L1 & L2 & HL). assert (db_ok [] [] [] held (L1 ++ h :: L2) db) as Hok' by (by rewrite <- HL). pose proof (fun k => skids_avail [] [] held L1 h L2 db k Hok') as Hsk.
  assert (kids (bares db) h = forChilds range e) as Hkids by (unfold kids; by rewrite (bares_Some db h e)).
  assert (forall k, k ∈ forChilds range e -> k ∈ skids h) as Hks by (intros k; rewrite <- Hkids; apply (inv_kids _ _ _ _ _ _ _ h k (ok_inv _ _ _ _ _ _ Hok) HhL)).
  destruct (entry_rlp _ _ _ _ _ _ _ _ Hok Hh He) as [Hrlp Hbl].
  destruct (commit_each_ok fuel held (forChilds range e) L db b IH Hok Hb) as (L3 & db3 & b3 & ok & -> & Hp).
  - intros k Hk%Hks. split; [split; [intros ->; by eapply skids_zero|]|].
    + destruct (Hsk k Hk) as [?|[? _]]; [right; by apply put_all_keeps|left; set_solver].
    + split; [lia|]. intros HkL. pose proof (below_lt L h k HkL (rank_lt _ _ Hk)). lia.
  - cbn. destruct ok; cbn [negb]; [|exists L3, db3, b3, false; split; [done|]; destruct Hp; by split]. destruct (pr_batch _ _ _ _ _ _ _ _ _ Hp eq_refl) as (Hb3 & Hm3 & Hl3).
    destruct (commit_node held L3 db3 b3 h e) as (L4 & db4 & b4 & ok & E & Hp4); [by destruct Hp|done|done|done|done| |].
    + intros k Hk. destruct (Hsk k Hk) as [?|[_ Hkk]]; [by apply Hm3, put_all_keeps|]. rewrite Hkids in Hkk. by apply Hl3.
    + exists L4, db4, b4, ok. split; [exact E|]. pose proof (progress_trans _ _ _ _ _ _ _ _ _ _ _ _ _ Hp Hp4) as [? ? ? Hpb]. split; [done..|]. intros Eok. destruct (Hpb Eok) as (? & ? & Hin). do 2 (split; [done|]). intros k Hk. apply Hin. set_solver.
Qed.

Lemma commit_top held L db h : db_ok [] [] [] held L db -> h <> zeroHash ->
  exists L' db' b' ok, commit range (S (size (dirties db))) db NewBatch h = run (Ret (db', b', ok)) /\ progress held L db NewBatch [] L' db' b' ok /\
    (ok = true -> h ∈ L \/ on_disk (disk db) h -> on_disk (ahead db' b') h).
Proof.
  intros Hok Hh. assert (batch_ok db NewBatch) as Hb by (split; [apply (inv_disk _ _ _ _ _ _ _ (ok_inv _ _ _ _ _ _ Hok))|by intros ? ? ?%elem_of_nil]).
  destruct (dirties db !! h) as [e|] eqn:He; cycle 1.
  { cbn [commit]. rewrite He. exists L, db, NewBatch, true. split; [done|]. split; [by apply progress_refl; [| |intros k ?%elem_of_nil]|]. intros _ [Hl|?]; [|done].
    destruct (ok_dom _ _ _ _ _ _ h Hok) as [_ Hd]. rewrite He in Hd. destruct Hd as [? ?]; [auto|done]. }
  assert (h ∈ L) as HhL. { destruct (ok_dom _ _ _ _ _ _ h Hok) as [[?|[?%elem_of_nil|?]] _]; [by eexists|done..]. }
  destruct (commit_ok (S (size (dirties db))) held L db NewBatch h Hok Hb) as (L' & db' & b' & ok & E & [? ? ? Hp]); [split; auto|split; [lia|]|].
  - intros _. pose proof (below_length L h HhL). pose proof (length_dirties _ _ _ _ _ _ Hok). lia.
  - exists L', db', b', ok. split; [exact E|]. split; [split; [done..|]; intros Eok; destruct (Hp Eok) as (? & ? & ?); by split_and!; [..|intros k ?%elem_of_nil]|].
    intros Eok _. destruct (Hp Eok) as (_ & _ & Hin). apply Hin. set_solver.
Qed.

(** The preimages, written first. *)
Lemma commit_preimages held L db : db_ok [] [] [] held L db -> forall p,
  exists db' ok, (let b := WritePreimages NewBatch p in
     let '(db, b, ok) :=
       if decide (b_size b > IdealBatchSize) then let '(d, ok) := batch_Write b (diskdb db) in (set_diskdb db d, NewBatch, ok) else (db, b, true) in
     if (ok : bool) then let '(d, ok) := batch_Write b (diskdb db) in (set_diskdb db d, ok) else (db, false)) = (db', ok) /\
    db_ok [] [] [] held L db' /\ disk db' = disk db.
Proof.
  intros Hok p. cbv zeta. set (b := WritePreimages NewBatch p). assert (b_nodes b = []) as Hb by done. clearbody b. destruct (decide _) as [_|_].
  - destruct (batch_Write b (diskdb db)) as [d ok] eqn:Hw. destruct (write_preimages_ok _ _ _ _ _ _ _ _ _ Hok Hb Hw) as [Hok1 Hd1]. destruct ok; [|by eexists _, _].
    destruct (batch_Write NewBatch _) as [d2 ok2] eqn:Hw2. destruct (write_preimages_ok _ _ _ _ _ _ NewBatch _ _ Hok1 eq_refl Hw2) as [Hok2 Hd2]. eexists _, _. split; [done|]. split; [done|]. cbn in *. congruence.
  - destruct (batch_Write b (diskdb db)) as [d ok] eqn:Hw. destruct (write_preimages_ok _ _ _ _ _ _ _ _ _ Hok Hb Hw) as [Hok1 Hd1]. by eexists _, _.
Qed.

Lemma Commit_ok held L db h : db_ok [] [] [] held L db -> h <> zeroHash ->
  exists db' L' ok, Commit range db h = run (Ret (db', ok)) /\ db_ok [] [] [] held L' db' /\ grows db db' /\
    (ok = true -> h ∈ L \/ on_disk (disk db) h -> on_disk (disk db') h).
Proof.
  intros Hok Hh. unfold Commit. set (start := match preimages db with Some _ => _ | None => _ end).
  assert (exists db0 ok0, start = (db0, ok0) /\ db_ok [] [] [] held L db0 /\ disk db0 = disk db) as (db0 & ok0 & -> & Hok0 & Hd0).
  { unfold start. destruct (preimages db) as [p|]; [by apply commit_preimages|by exists db, true]. }
  destruct ok0; cbn [negb]; [|exists db0, L, false; split; [done|]; split; [done|]; split; [intros k; by rewrite Hd0|done]].
  destruct (commit_top held L db0 h Hok0 Hh) as (L1 & db1 & b1 & ok1 & -> & Hp & Hroot). cbn. rewrite Hd0 in Hroot. destruct (pr_kept _ _ _ _ _ _ _ _ _ Hp) as [Hs1 Hk1].
  assert (grows db db1) as Hg1 by (intros k; rewrite <- Hd0; apply (pr_grows _ _ _ _ _ _ _ _ _ Hp)). pose proof (pr_ok _ _ _ _ _ _ _ _ _ Hp) as Hok1.
  destruct ok1; cbn [negb]; [|by exists db1, L1, false]. destruct (pr_batch _ _ _ _ _ _ _ _ _ Hp eq_refl) as ([Hc Hz] & Hm & _).
  destruct (batch_Write b1 (diskdb db1)) as [d ok2] eqn:Hw. destruct (write_ok _ _ _ _ _ _ _ _ _ Hok1 Hc Hw) as [Hok2 Hd2]. destruct ok2; cbn [negb]; cycle 1.
  { exists (set_diskdb db1 d), L1, false. split; [done|]. split; [done|]. split; [intros k Hk; cbn; rewrite Hd2; by apply Hg1|done]. }
  destruct (Replay_ok held (b_nodes b1) L1 (set_diskdb db1 d) Hok2) as (db3 & L3 & -> & Hok3 & _ & Hd3).
  { intros x v Hx. split; [|by eapply Hz]. cbn. rewrite Hd2. by eapply put_all_puts. }
  cbn. eexists _, L3, true. split; [done|].
  assert (forall db4, diskdb db4 = diskdb db3 -> grows db db4 /\ (true = true -> h ∈ L \/ on_disk (disk db) h -> on_disk (disk db4) h)) as Hend.
  { intros db4 E. unfold grows. rewrite E, Hd3. cbn. rewrite Hd2. split; [intros k Hk; by apply put_all_keeps, Hg1|done]. }
  split; [destruct (preimages db3); [by apply db_ok_preimages|done]|]. apply Hend. by destruct (preimages db3).
Qed.

(** ** Every sequence of operations *)

Inductive dbop :=
| OInsert (h : bytes) (size : Z) (n : node)
| OPreimage (h preimage : bytes)
| OReference (root : bytes)
| ODereference (root : bytes)
| OCap (limit : Z)
| OCommit (root : bytes).

(** The operation, and whether its writes succeeded. *)
Definition exec (o : dbop) (db : Database) : fuelled Empty_set (Database * bool) :=
  match o with
  | OInsert h size n => db ← run (insert_with db h size n); run (Ret (db, true))
  | OPreimage h preimage => run (Ret (insertPreimage db h preimage, true))
  | OReference root => db ← run (reference db root zeroHash); run (Ret (db, true))
  | ODereference root => db ← Dereference range db root; run (Ret (db, true))
  | OCap limit => Cap db limit
  | OCommit root => Commit range db root
  end.

(** The references that the client holds afterwards. *)
Fixpoint remove1 (r : bytes) (l : list bytes) : list bytes :=
  match l with [] => [] | x :: l => if decide (x = r) then l else x :: remove1 r l end.
Definition hold (o : dbop) (held : list bytes) : list bytes :=
  match o with OReference r => r :: held | ODereference r => remove1 r held | _ => held end.

Definition available (db : Database) (k : bytes) : Prop := is_Some (dirties db !! k) \/ on_disk (disk db) k.

(** What the client has to respect: children are inserted before their parents, only what is available is referred to, nothing is released twice, and the counters have room. *)
Definition valid (o : dbop) (held : list bytes) (db : Database) : Prop :=
  match o with
  | OInsert h _ n => h <> zeroHash /\ simplifyNode n = Ret (content h) /\ encodes h /\ (forall k, k ∈ skids h -> available db k) /\ room db (skids h)
  | OReference r => r <> zeroHash /\ available db r /\ Z.of_nat (occ r held) + 1 < 2 ^ 16 /\ room db [r]
  | ODereference r => r <> zeroHash /\ r ∈ held
  | OCommit r => r <> zeroHash
  | OPreimage _ _ | OCap _ => True
  end.

Inductive history : Database -> list bytes -> Prop :=
| history_new d collect : disk_closed (kv d) -> history (NewDatabase d collect) []
| history_op db held o db' ok : history db held -> valid o held db -> exec o db = run (Ret (db', ok)) -> history db' (hold o held).

Lemma remove1_perm r l : r ∈ l -> l ≡ₚ r :: remove1 r l.
Proof.
  induction l as [|x l IH]; [by intros ?%elem_of_nil|]. intros Hr. cbn. destruct (decide (x = r)) as [->|Hne]; [done|].
  rewrite (IH ltac:(set_solver)) at 1. apply perm_swap.
Qed.

Lemma NewDatabase_ok d collect : disk_closed (kv d) -> db_ok [] [] [] [] [] (NewDatabase d collect).
Proof.
  intros Hd. assert (bares (NewDatabase d collect) = {[zeroHash := mk_bare rawNil 0 0 (Some ∅)]}) as Hb by (unfold bares; cbn; by rewrite map_fmap_singleton).
  split; [rewrite Hb; cbn; split|split].
  - exists (mk_bare rawNil 0 0 (Some ∅)), ∅. by rewrite lookup_singleton_eq.
  - by intros h b Hh [? ?]%lookup_singleton_Some.
  - done.
  - by intros k ?%elem_of_nil.
  - by intros k b ?%elem_of_nil.
  - apply base.NoDup_nil_2.
  - apply not_elem_of_nil.
  - intros h. rewrite lookup_singleton_is_Some. set_solver.
  - by intros h ?%elem_of_nil.
  - done.
  - by intros h k ?%elem_of_nil.
  - done.
  - done.
  - done.
  - apply base.NoDup_nil_2.
  - apply not_elem_of_nil.
Qed.

Lemma available_L held L db k : db_ok [] [] [] held L db -> k <> zeroHash -> available db k -> on_disk (disk db) k \/ k ∈ L.
Proof. intros Hok Hk [Hd|?]; [|by left]. right. apply (ok_dom _ _ _ _ _ _ k Hok) in Hd as [?|[?%elem_of_nil|?]]; done. Qed.

Lemma dbop_ok held L db o : db_ok [] [] [] held L db -> valid o held db -> exists db' L' ok, exec o db = run (Ret (db', ok)) /\ db_ok [] [] [] (hold o held) L' db'.
Proof.
  intros Hok. destruct o as [h size n|h pre|r|r|limit|r]; cbn [valid exec hold].
  - intros (Hh & Hn & He & Hav & Hr). destruct (insert_with_ok held L db h size n) as (db' & L' & -> & Hok' & _); [done..| |done|done|by exists db', L', true].
    intros k Hk. eapply available_L; [done|intros ->; by eapply skids_zero|by apply Hav].
  - intros _. eexists _, L, true. split; [done|]. unfold insertPreimage. repeat case_match; try done. by apply db_ok_preimages.
  - intros (Hr & Hav & Ho & Hro). destruct (Reference_ok held L db r) as (db' & -> & Hok' & _); [done|by eapply available_L|done..|]. by exists db', L, true.
  - intros [Hr Hh]. destruct (Dereference_ok held (remove1 r held) r L db Hr (remove1_perm _ _ Hh) Hok) as (db' & L' & -> & Hok' & _). by exists db', L', true.
  - intros _. destruct (Cap_ok held L db limit Hok) as (db' & L' & ok & -> & Hok' & _). by exists db', L', ok.
  - intros Hr. destruct (Commit_ok held L db r Hok Hr) as (db' & L' & ok & -> & Hok' & _). by exists db', L', ok.
Qed.

Lemma hold_nonzero o held db : valid o held db -> zeroHash ∉ held -> zeroHash ∉ hold o held.
Proof.
  destruct o as [| |r|r| |]; cbn; try done; [intros (Hr & _) Hz; set_solver|]. intros [_ Hr] Hz Hz'. apply Hz. rewrite (remove1_perm r held Hr). set_solver.
Qed.

Lemma history_ok db held : history db held -> zeroHash ∉ held /\ exists L, db_ok [] [] [] held L db.
Proof.
  induction 1 as [d c Hd|db held o db' ok _ [Hz [L Hok]] Hv E]; [split; [apply not_elem_of_nil|by exists []; apply NewDatabase_ok]|].
  split; [by eapply hold_nonzero|]. destruct (dbop_ok held L db o Hok Hv) as (db1 & L1 & ok1 & E1 & Hok1). rewrite E in E1. injection E1 as -> ->. by exists L1.
Qed.

(** Everything below a node that is on disk or cached is on disk or cached. *)
Lemma reach_disk K r k : disk_closed K -> reach r k -> on_disk K r -> on_disk K k.
Proof. intros HK. induction 1 as [|h k x Hk _ IH]; [done|]. intros [v Hv]. apply IH. by destruct (HK h v Hv) as (_ & _ & Hs); apply Hs. Qed.

Lemma reach_avail held L db r k : db_ok [] [] [] held L db -> reach r k -> on_disk (disk db) r \/ r ∈ L -> on_disk (disk db) k \/ k ∈ L.
Proof.
  intros Hok. induction 1 as [|h k x Hk Hx IH]; [done|]. intros [Hd|Hl].
  - left. eapply reach_disk; [apply (inv_disk _ _ _ _ _ _ _ (ok_inv _ _ _ _ _ _ Hok))|exact (reach_step _ _ _ Hk Hx)|done].
  - apply IH. destruct (list_elem_of_split _ _ Hl) as (L1 & L2 & ->). destruct (skids_avail _ _ _ _ _ _ _ k Hok Hk) as [?|[? _]]; [by left|right; set_solver].
Qed.

Lemma reach_nonzero r k : r <> zeroHash -> reach r k -> k <> zeroHash.
Proof. intros Hr. induction 1 as [|h k x Hk _ IH]; [done|]. apply IH. intros ->. by eapply skids_zero. Qed.

Lemma Node_ok held L db k : db_ok [] [] [] held L db -> k <> zeroHash -> on_disk (disk db) k \/ k ∈ L -> Node db k = Ret (Some (blob k)).
Proof.
  intros Hok Hk Hav. unfold Node. rewrite decide_False by done. destruct (dirties db !! k) as [e|] eqn:He.
  - destruct (entry_rlp _ _ _ _ _ _ _ _ Hok Hk He) as [-> _]. done.
  - destruct Hav as [[v Hv]|Hl]; [|destruct (ok_dom _ _ _ _ _ _ k Hok) as [_ Hd]; rewrite He in Hd; by destruct Hd as [? ?]; auto].
    rewrite Hv. destruct (inv_disk _ _ _ _ _ _ _ (ok_inv _ _ _ _ _ _ Hok) k v Hv) as (-> & Hb & _). by rewrite decide_False.
Qed.

Lemma history_Node db held r k : history db held -> r ∈ held -> reach r k -> Node db k = Ret (Some (blob k)).
Proof.
  intros [Hz [L Hok]]%history_ok Hr Hk. eapply Node_ok; [done|eapply reach_nonzero; [|done]; by intros ->|].
  eapply reach_avail; [done..|]. by apply (inv_held _ _ _ _ _ _ _ (ok_inv _ _ _ _ _ _ Hok)).
Qed.

(** C8: The node database keeps what its client holds: after any operations, whether their writes to disk succeeded or
    failed, every node reachable from a root that the client still refers to, across tries, is returned by [Node] with the
    right content; and every operation that the client may call ends without panic. *)
Theorem database_safe db held : history db held ->
  (forall r k, r ∈ held -> reach r k -> Node db k = Ret (Some (blob k))) /\
  (forall o, valid o held db -> exists db' ok, exec o db = run (Ret (db', ok))).
Proof.
  intros Hh. split; [intros r k; by apply history_Node|]. intros o Hv. destruct (history_ok _ _ Hh) as [_ [L Hok]].
  destruct (dbop_ok held L db o Hok Hv) as (db' & _ & ok & E & _). by exists db', ok.
Qed.

(** C33: What is committed survives: after a successful [Commit] of a root that was available, everything it reaches is on disk. *)
Theorem Commit_durable db held r db' : history db held -> r <> zeroHash -> available db r -> Commit range db r = run (Ret (db', true)) ->
  forall k, reach r k -> disk db' !! k = Some (blob k).
Proof.
  intros [_ [L Hok]]%history_ok Hr Hav E k Hk. destruct (Commit_ok held L db r Hok Hr) as (db1 & L1 & ok & E1 & Hok1 & _ & Hd). rewrite E in E1. injection E1 as <- <-.
  specialize (Hd eq_refl ltac:(destruct (available_L held L db r Hok Hr Hav); auto)). pose proof (inv_disk _ _ _ _ _ _ _ (ok_inv _ _ _ _ _ _ Hok1)) as Hc.
  destruct (reach_disk _ r k Hc Hk Hd) as [v Hv]. by destruct (Hc k v Hv) as [-> _].
Qed.
End Safety.

(** ** An account and its storage *)

Module DatabaseExample.

Definition any_range : Range.
Proof. exists (fun m => (map_to_list m).*1). done. Defined.

Definition hash_leaf : bytes := replicate 32 1.
Definition hash_storage : bytes := replicate 32 2.
Definition hash_root : bytes := replicate 32 3.

Definition ex_content (h : bytes) : rnode :=
  if decide (h = hash_root) then rawShortNode [0; 1] (rawHash hash_leaf)
  else if decide (h = hash_storage) then rawShortNode [32] (rawValue [7])
  else rawShortNode [32] (rawValue [5]).
Definition ex_external (h : bytes) : list bytes := if decide (h = hash_root) then [hash_storage] else [].
Definition ex_blob (h : bytes) : bytes := match EncodeToBytes (rnode_val (ex_content h)) with Ret e => e | _ => [] end.

Lemma ex_skids h k : k ∈ forGatherChildren (ex_content h) ++ ex_external h -> h = hash_root /\ (k = hash_leaf \/ k = hash_storage).
Proof.
  unfold ex_content, ex_external. destruct (decide (h = hash_root)) as [->|]; [|destruct (decide _); by intros ?%elem_of_nil].
  change (k ∈ [hash_leaf; hash_storage] -> hash_root = hash_root /\ (k = hash_leaf \/ k = hash_storage)). set_solver.
Qed.

#[local] Instance ex_graph : Graph.
Proof.
  refine (Build_Graph ex_content ex_external ex_blob (fun h => if decide (h = hash_root) then 1%nat else 0%nat) _ _).
  - intros h k [-> [-> | ->]]%ex_skids; by vm_compute; lia.
  - by intros h [_ [?|?]]%ex_skids.
Defined.
#[local] Existing Instance any_range.

Definition after (o : dbop) (db : Database) : Database := match exec o db with Some (Ret (db', _)) => db' | _ => db end.
Definition ex_leaf : dbop := OInsert hash_leaf 10 (shortNode [32] (valueNode [5]) (mk_nodeFlag None true)).
Definition ex_storage : dbop := OInsert hash_storage 10 (shortNode [32] (valueNode [7]) (mk_nodeFlag None true)).
Definition ex_root : dbop := OInsert hash_root 40 (shortNode [0; 1] (hashNode hash_leaf) (mk_nodeFlag None true)).

(** The first write fails. *)
Definition db0 : Database := NewDatabase (mk_Disk ∅ ∅ [true]) true.
Definition db1 : Database := after ex_leaf db0.
Definition db2 : Database := after ex_storage db1.
Definition db3 : Database := after ex_root db2.
Definition db4 : Database := after (OReference hash_root) db3.
Definition db5 : Database := after (OCap 0) db4.

Lemma room_ex db l : bool_decide (map_Forall (fun k e => parents e + Z.of_nat (occ k l) < 2 ^ 32) (dirties db)) = true -> room db l.
Proof. intros Hb%bool_decide_eq_true. exact Hb. Qed.

Lemma exec_after o db ok : exec o db = run (Ret (after o db, ok)) -> forall held, history db held -> valid o held db -> history (after o db) (hold o held).
Proof. intros E held Hh Hv. by eapply history_op. Qed.

Lemma ex_kids k : k = hash_leaf \/ k = hash_storage -> k ∈ skids hash_root.
Proof. change (skids hash_root) with [hash_leaf; hash_storage]. set_solver. Qed.

Lemma ex_history : history db4 [hash_root].
Proof.
  apply (exec_after (OReference hash_root) db3 true) with (held := []); [vm_compute; reflexivity| |].
  - apply (exec_after ex_root db2 true) with (held := []); [vm_compute; reflexivity| |].
    + apply (exec_after ex_storage db1 true) with (held := []); [vm_compute; reflexivity| |].
      * apply (exec_after ex_leaf db0 true) with (held := []); [vm_compute; reflexivity|by apply history_new|].
        split_and!; [done|done|split; [reflexivity|done]|by intros k [? _]%ex_skids|by apply room_ex; vm_compute].
      * split_and!; [done|done|split; [reflexivity|done]|by intros k [? _]%ex_skids|by apply room_ex; vm_compute].
    + split_and!; [done|done|split; [reflexivity|done]| |by apply room_ex; vm_compute]. intros k [_ [-> | ->]]%ex_skids; left; by vm_compute; eexists.
  - split_and!; [done|left; by vm_compute; eexists|by vm_compute|by apply room_ex; vm_compute].
Qed.

Lemma ex_history_cap : history db5 [hash_root].
Proof. by apply (exec_after (OCap 0) db4 false) with (held := [hash_root]); [vm_compute; reflexivity|apply ex_history|]. Qed.

Lemma database_safe_witness : Node db5 hash_storage = Ret (Some (ex_blob hash_storage)) /\ (exists db' ok, exec (ODereference hash_root) db5 = run (Ret (db', ok))).
Proof.
  destruct (database_safe db5 [hash_root] ex_history_cap) as [Hn He]. split.
  - apply (Hn hash_root); [set_solver|]. apply (reach_step _ hash_storage); [apply ex_kids; auto|apply reach_refl].
  - apply He. split; [done|set_solver].
Defined.

Lemma Commit_durable_witness : kv (diskdb (after (OCommit hash_root) db5)) !! hash_leaf = Some (ex_blob hash_leaf).
Proof.
  apply (Commit_durable db5 [hash_root] hash_root (after (OCommit hash_root) db5) ex_history_cap); [done|left; by vm_compute; eexists|vm_compute; reflexivity|].
  apply (reach_step _ hash_leaf); [apply ex_kids; auto|apply reach_refl].
Defined.
End DatabaseExample.
