(* ===== verification/AccessList.v ===== *)
(** * The per-transaction access list (core/state/access_list.go)

    Addresses map to an index into a slice of slot sets, -1 when no slot of the
    address was accessed.  Deletions undo additions in reverse order; under the
    invariant [al_ok] they restore the list exactly. *)

From stdpp Require Import gmap.
From S2P Require Import Prelude.

Record accessList := mk_accessList {
  addresses : gmap Z Z;
  slots : list (gset Z)
}.

Definition ContainsAddress (al : accessList) (address : Z) : bool :=
  bool_decide (is_Some (addresses al !! address)).

Definition Contains (al : accessList) (address slot : Z) : outcome Empty_set (bool * bool) :=
  match addresses al !! address with
  | None => Ret (false, false)
  | Some idx =>
      if decide (idx = -1) then Ret (true, false)
      else
        slotmap ← go_index (slots al) idx;
        Ret (true, bool_decide (slot ∈ slotmap))
  end.

Definition newAccessList : accessList := mk_accessList ∅ [].

Definition AddAddress (al : accessList) (address : Z) : bool * accessList :=
  match addresses al !! address with
  | Some _ => (false, al)
  | None => (true, mk_accessList (<[address := -1]> (addresses al)) (slots al))
  end.

(** A slice element assigned in place. *)
Definition set_slotmap (al : accessList) (idx : Z) (m : gset Z) : accessList :=
  mk_accessList (addresses al) (<[Z.to_nat idx := m]> (slots al)).

Definition AddSlot (al : accessList) (address slot : Z) : outcome Empty_set (bool * bool * accessList) :=
  let found := addresses al !! address in
  if decide (found = None \/ found = Some (-1)) then
    Ret (bool_decide (found = None), true,
         mk_accessList (<[address := zlen (slots al)]> (addresses al)) (slots al ++ [{[ slot ]}]))
  else
    let idx := default 0 found in
    slotmap ← go_index (slots al) idx;
    if decide (slot ∈ slotmap) then Ret (false, false, al)
    else Ret (false, true, set_slotmap al idx ({[ slot ]} ∪ slotmap)).

Definition DeleteSlot (al : accessList) (address slot : Z) : outcome Empty_set accessList :=
  match addresses al !! address with
  | None => Panic
  | Some idx =>
      slotmap ← go_index (slots al) idx;
      let slotmap := slotmap ∖ {[ slot ]} in
      let al := set_slotmap al idx slotmap in
      if decide (slotmap = ∅) then
        Ret (mk_accessList (<[address := -1]> (addresses al)) (take (Z.to_nat idx) (slots al)))
      else Ret al
  end.

Definition DeleteAddress (al : accessList) (address : Z) : accessList :=
  mk_accessList (delete address (addresses al)) (slots al).

(** ** The invariant *)

(** Indices are -1 or those of non-empty slot sets, each of one address. *)
Record al_ok (al : accessList) : Prop := {
  al_index a i : addresses al !! a = Some i ->
    i = -1 \/ exists m, 0 <= i /\ slots al !! Z.to_nat i = Some m /\ m <> ∅;
  al_inj a b i : 0 <= i -> addresses al !! a = Some i -> addresses al !! b = Some i -> a = b
}.

(** The set of slots of an address. *)
Definition slots_of (al : accessList) (a : Z) : gset Z :=
  match addresses al !! a with
  | Some i => if decide (i = -1) then ∅ else default ∅ (slots al !! Z.to_nat i)
  | None => ∅
  end.

Lemma go_index_Some {E A} (l : list A) i a : 0 <= i -> l !! Z.to_nat i = Some a -> go_index (E:=E) l i = Ret a.
Proof. intros Hi H. unfold go_index. by rewrite decide_True, H. Qed.

Lemma al_ok_new : al_ok newAccessList.
Proof. split; intros *; cbn; rewrite lookup_empty; done. Qed.

Lemma AddAddress_ok al a : al_ok al -> al_ok (AddAddress al a).2.
Proof.
  intros [H1 H2]. unfold AddAddress. destruct (addresses al !! a) eqn:E; [done|]. split; cbn.
  - intros b i Hb. apply lookup_insert_Some in Hb as [[_ <-]|[_ Hb]]; [by left|eauto].
  - intros b c i Hi Hb Hc. apply lookup_insert_Some in Hb as [[_ <-]|[_ Hb]]; [done|].
    apply lookup_insert_Some in Hc as [[_ <-]|[_ Hc]]; [done|eauto].
Qed.

(** The two ways [AddSlot] succeeds. *)
Lemma AddSlot_cases al a s :
  al_ok al ->
  (addresses al !! a = None \/ addresses al !! a = Some (-1)) /\
    AddSlot al a s = Ret (bool_decide (addresses al !! a = None), true,
      mk_accessList (<[a := zlen (slots al)]> (addresses al)) (slots al ++ [{[ s ]}])) \/
  exists i m, addresses al !! a = Some i /\ 0 <= i /\ slots al !! Z.to_nat i = Some m /\ m <> ∅ /\
    AddSlot al a s = Ret (if decide (s ∈ m) then (false, false, al)
                          else (false, true, set_slotmap al i ({[ s ]} ∪ m))).
Proof.
  intros [H1 _]. unfold AddSlot. case_decide as Hd; [by left|right].
  destruct (addresses al !! a) as [i|] eqn:E; [|naive_solver].
  destruct (H1 a i E) as [->|(m & Hi & Hm & Hne)]; [naive_solver|].
  exists i, m. split_and!; try done. cbn. rewrite (go_index_Some _ _ _ Hi Hm). cbn. by case_decide.
Qed.

Lemma AddSlot_ok al a s r al' : al_ok al -> AddSlot al a s = Ret (r, al') -> al_ok al'.
Proof.
  intros Hal H. pose proof Hal as [H1 H2].
  destruct (AddSlot_cases al a s Hal) as [[Hf E]|(i & m & Ha & Hi & Hm & Hne & E)]; rewrite E in H.
  - injection H as <- <-. split; cbn.
    + intros b i Hb. apply lookup_insert_Some in Hb as [[_ <-]|[_ Hb]].
      * right. exists {[ s ]}. split_and!; [apply zlen_nonneg| |set_solver].
        rewrite zlen_to_nat. by apply list_lookup_middle.
      * destruct (H1 b i Hb) as [->|(m & Hi & Hm & Hne)]; [by left|right]. exists m.
        split_and!; [done| |done]. rewrite lookup_app_l; [done|]. by eapply lookup_lt_Some.
    + assert (forall c i, 0 <= i -> addresses al !! c = Some i -> i <> zlen (slots al)) as Hlt.
      { intros c i Hi Hc ->. destruct (H1 _ _ Hc) as [?|(m & _ & Hm & _)]; [lia|].
        rewrite zlen_to_nat in Hm. apply lookup_lt_Some in Hm. lia. }
      intros b c i Hi Hb Hc.
      apply lookup_insert_Some in Hb as [[<- <-]|[_ Hb]], Hc as [[<- Hc]|[_ Hc]]; eauto; naive_solver.
  - case_decide; injection H as <- <-; [done|]. split; cbn; [|done].
    intros b j Hb. destruct (H1 b j Hb) as [->|(m' & Hj & Hm' & Hne')]; [by left|right].
    destruct (decide (Z.to_nat i = Z.to_nat j)) as [Eij|Eij].
    + exists ({[ s ]} ∪ m). rewrite <- Eij, list_lookup_insert_eq by by eapply lookup_lt_Some.
      split_and!; [done|done|set_solver].
    + exists m'. by rewrite list_lookup_insert_ne.
Qed.

Lemma Contains_slots_of al a s :
  al_ok al -> Contains al a s = Ret (ContainsAddress al a, bool_decide (s ∈ slots_of al a)).
Proof.
  intros [H1 _]. unfold Contains, ContainsAddress, slots_of. destruct (addresses al !! a) as [i|] eqn:E.
  - rewrite bool_decide_true by eauto. case_decide; [by rewrite bool_decide_false by set_solver|].
    destruct (H1 a i E) as [?|(m & Hi & Hm & _)]; [done|]. rewrite (go_index_Some _ _ _ Hi Hm). cbn. by rewrite Hm.
  - rewrite !bool_decide_false; [done|set_solver|by intros [? ?]].
Qed.

(** Another address is not affected by the slot set at the index of [a]. *)
Lemma slots_of_set_other al a b i m :
  al_ok al -> addresses al !! a = Some i -> 0 <= i -> b <> a -> slots_of (set_slotmap al i m) b = slots_of al b.
Proof.
  intros [H1 H2] Ha Hi Hne. unfold slots_of. cbn. destruct (addresses al !! b) as [j|] eqn:Eb; [|done].
  case_decide; [done|]. destruct (H1 b j Eb) as [?|(m' & Hj & Hm' & _)]; [done|].
  rewrite list_lookup_insert_ne; [done|]. intros E. apply Hne. apply (H2 b a j Hj Eb). rewrite Ha. f_equal. lia.
Qed.

Lemma slots_of_app al a b i m :
  al_ok al -> b <> a -> slots_of (mk_accessList (<[a := i]> (addresses al)) (slots al ++ [m])) b = slots_of al b.
Proof.
  intros [H1 _] Hne. unfold slots_of. cbn. rewrite lookup_insert_ne by done.
  destruct (addresses al !! b) as [j|] eqn:Eb; [|done]. case_decide; [done|].
  destruct (H1 b j Eb) as [?|(m' & Hj & Hm' & _)]; [done|].
  rewrite lookup_app_l; [done|]. by eapply lookup_lt_Some.
Qed.

(** The sets that [AddSlot] leaves. *)
Lemma AddSlot_sets al a s :
  al_ok al ->
  exists ca cs al', AddSlot al a s = Ret (ca, cs, al') /\ al_ok al' /\
    ca = negb (ContainsAddress al a) /\ cs = negb (bool_decide (s ∈ slots_of al a)) /\
    (forall b, ContainsAddress al' b = bool_decide (b = a) || ContainsAddress al b) /\
    (forall b, slots_of al' b = if decide (b = a) then {[ s ]} ∪ slots_of al a else slots_of al b).
Proof.
  intros Hal. destruct (AddSlot_cases al a s Hal) as [[Hf E]|(i & m & Ha & Hi & Hm & Hne & E)].
  - eexists _, _, _. split_and!; [exact E|by eapply AddSlot_ok| | | |].
    + unfold ContainsAddress. destruct Hf as [->| ->]; done.
    + unfold slots_of. destruct Hf as [->| ->]; rewrite bool_decide_false; done || set_solver.
    + intros b. unfold ContainsAddress. cbn. destruct (decide (b = a)) as [->|Hb].
      * rewrite lookup_insert_eq, !bool_decide_true by eauto. done.
      * rewrite lookup_insert_ne by done. by rewrite (bool_decide_false (b = a)) by done.
    + intros b. destruct (decide (b = a)) as [->|Hb]; [|by apply slots_of_app]. unfold slots_of. cbn.
      rewrite lookup_insert_eq, decide_False by (unfold zlen; lia).
      rewrite zlen_to_nat, list_lookup_middle by done. cbn. destruct Hf as [->| ->]; set_solver.
  - assert (ContainsAddress al a = true) as Hca by (unfold ContainsAddress; rewrite Ha; done).
    assert (slots_of al a = m) as Hsm by (unfold slots_of; rewrite Ha, decide_False, Hm by lia; done).
    destruct (decide (s ∈ m)) as [Hin|Hin].
    + exists false, false, al. rewrite Hsm, Hca, bool_decide_true by done. split_and!; try done.
      * intros b. destruct (decide (b = a)) as [->|Hb]; [by rewrite bool_decide_true, Hca by done|].
        by rewrite bool_decide_false.
      * intros b. destruct (decide (b = a)) as [->|Hb]; set_solver.
    + exists false, true, (set_slotmap al i ({[ s ]} ∪ m)). rewrite Hsm, Hca, bool_decide_false by done.
      split_and!; try done; [by eapply AddSlot_ok| |].
      * intros b. destruct (decide (b = a)) as [->|Hb]; [by rewrite bool_decide_true|by rewrite bool_decide_false].
      * intros b. destruct (decide (b = a)) as [->|Hb]; [|by eapply slots_of_set_other]. unfold slots_of. cbn.
        rewrite Ha, decide_False, list_lookup_insert_eq by (lia || by eapply lookup_lt_Some). done.
Qed.

(** Undoing an addition restores the list itself. *)
Lemma DeleteSlot_AddSlot al a s ca al' :
  al_ok al -> AddSlot al a s = Ret (ca, true, al') ->
  exists al'', DeleteSlot al' a s = Ret al'' /\ al'' = (if (ca : bool) then (AddAddress al a).2 else al).
Proof.
  intros Hal H. destruct (AddSlot_cases al a s Hal) as [[Hf E]|(i & m & Ha & Hi & Hm & Hne & E)]; rewrite E in H.
  - injection H as <- <-. eexists. split.
    + unfold DeleteSlot. cbn [addresses slots]. rewrite lookup_insert_eq.
      rewrite (go_index_lookup _ (length (slots al)) {[ s ]}) by by apply list_lookup_middle.
      cbn [mbind outcome_bind]. rewrite decide_True by set_solver. reflexivity.
    + unfold set_slotmap. cbn [addresses slots]. rewrite zlen_to_nat, insert_app_r_alt, take_app_length, insert_insert_eq by lia.
      unfold AddAddress. destruct al as [ad sl]. cbn in *. destruct Hf as [Hf|Hf]; rewrite Hf; cbn; [done|].
      f_equal. by apply insert_id.
  - case_decide as Hin; [done|]. injection H as <- <-. exists al. split; [|done].
    unfold DeleteSlot, set_slotmap. cbn [addresses slots]. rewrite Ha.
    pose proof (lookup_lt_Some _ _ _ Hm) as Hlt.
    rewrite (go_index_Some _ _ ({[ s ]} ∪ m) Hi) by (by rewrite list_lookup_insert_eq).
    cbn [mbind outcome_bind]. assert (({[ s ]} ∪ m) ∖ {[ s ]} = m) as -> by set_solver.
    rewrite decide_False by done. rewrite list_insert_insert_eq, list_insert_id by done. by destruct al.
Qed.

Lemma DeleteAddress_AddAddress al a : addresses al !! a = None -> DeleteAddress (AddAddress al a).2 a = al.
Proof.
  intros H. unfold AddAddress, DeleteAddress. rewrite H. cbn. rewrite delete_insert_id by done. by destruct al.
Qed.

(** The access list is a set.  From the empty list on, every addition
    keeps the indices consistent, never panics, reports exactly what was new,
    and [Contains] answers for the sets of addresses and slots added so far. *)
Theorem AddSlot_Contains al a s :
  al_ok al ->
  exists ca cs al', AddSlot al a s = Ret (ca, cs, al') /\ al_ok al' /\
    Contains al a s = Ret (negb ca, negb cs) /\
    forall b z, Contains al' b z =
      if decide (b = a /\ z = s) then Ret (true, true)
      else if decide (b = a) then Ret (true, bool_decide (z ∈ slots_of al a))
      else Contains al b z.
Proof.
  intros Hal. destruct (AddSlot_sets al a s Hal) as (ca & cs & al' & E & Hal' & Hca & Hcs & HA & HS).
  exists ca, cs, al'. split_and!; [done|done| |].
  - rewrite Contains_slots_of by done. by rewrite Hca, Hcs, !negb_involutive.
  - intros b z. rewrite Contains_slots_of by done. rewrite HA, HS. destruct (decide (b = a)) as [->|Hb].
    + rewrite bool_decide_true by done. cbn [orb]. destruct (decide (a = a /\ z = s)) as [[_ ->]|Hz].
      * by rewrite bool_decide_true by set_solver.
      * do 2 f_equal. apply bool_decide_ext. set_solver.
    + rewrite bool_decide_false by done. rewrite decide_False by naive_solver. cbn [orb].
      by rewrite Contains_slots_of.
Qed.

Lemma AddSlot_Contains_witness :
  exists ca cs al', AddSlot newAccessList 1 7 = Ret (ca, cs, al') /\ al_ok al' /\
    Contains newAccessList 1 7 = Ret (negb ca, negb cs) /\
    forall b z, Contains al' b z =
      if decide (b = 1 /\ z = 7) then Ret (true, true)
      else if decide (b = 1) then Ret (true, bool_decide (z ∈ slots_of newAccessList 1))
      else Contains newAccessList b z.
Proof. apply AddSlot_Contains. exact al_ok_new. Defined.

(** undoing an addition restores the access list.  After [AddSlot], the
    deletions that the journal performs for what it reported (the slot, then
    the address) succeed and give back the list as it was, indices included. *)
Theorem AddSlot_undo al a s ca al' :
  al_ok al -> AddSlot al a s = Ret (ca, true, al') ->
  (al1 ← DeleteSlot al' a s; Ret (if (ca : bool) then DeleteAddress al1 a else al1)) = Ret al.
Proof.
  intros Hal H. destruct (DeleteSlot_AddSlot al a s ca al' Hal H) as (al1 & -> & ->). cbn [mbind outcome_bind].
  destruct ca; [|done]. rewrite DeleteAddress_AddAddress; [done|].
  destruct (AddSlot_sets al a s Hal) as (ca' & cs' & al2 & E & _ & Hca & _). rewrite E in H. injection H as -> _ _.
  unfold ContainsAddress in Hca. destruct (addresses al !! a) eqn:Ea; [|done].
  by rewrite bool_decide_true in Hca by eauto.
Qed.

Lemma AddSlot_undo_witness :
  (al1 ← DeleteSlot (mk_accessList {[ 1 := 0 ]} [{[ 7 ]}]) 1 7; Ret (DeleteAddress al1 1)) = Ret newAccessList.
Proof.
  apply (AddSlot_undo newAccessList 1 7 true (mk_accessList {[ 1 := 0 ]} [{[ 7 ]}])); [exact al_ok_new|].
  reflexivity.
Defined.
