(* ===== verification/StateDB.v ===== *)
(** * The state database (core/state/statedb.go, state_object.go, journal.go)

    Accounts are cached as live objects that a transaction modifies; every
    modification is journalled, and [RevertToSnapshot] undoes the journal back
    to the index recorded by [Snapshot].  The model keeps the live objects with
    their four layers of storage, the journal with its dirty counters, the stack
    of revisions and the access list.  Addresses and hashes are integers.  What
    lies below (the account trie, the storage tries, the snapshot layer and the
    code store) is an interface of reads that may fail ([Backend]); a failed
    read is remembered in the error flags, as in the code.  The prefetcher and
    the timers have no effect on the state and are left out. *)

From stdpp Require Import gmap.
From S2P Require Import Prelude Rlp Trie AccessList.

(** ** Data *)

Record Account := mk_Account { Nonce : Z; Balance : Z; Root : Z; CodeHash : Z }.

(** [snapshot.Account]; the slim format leaves out an empty code hash ([None])
    and an empty root (zero). *)
Record snapAccount := mk_snapAccount { snap_Nonce : Z; snap_Balance : Z; snap_Root : Z; snap_CodeHash : option Z }.

(** The layers below the state database. *)
Class Backend := {
  STrie : Type;                                  (* an open storage trie *)
  emptyRoot : Z;
  emptyCodeHash : Z;
  hash_address : Z -> Z;                         (* Keccak256 of an address *)
  hash_code : bytes -> Z;                        (* Keccak256 of a code *)
  snap_account : Z -> option (option snapAccount);  (* by address hash; None is an error *)
  trie_account : Z -> option bytes;              (* by address; None is an error *)
  decode_account : bytes -> option Account;      (* rlp.DecodeBytes *)
  snap_storage : Z -> Z -> option bytes;         (* by address hash and key; None is an error *)
  open_storage : Z -> Z -> option STrie;         (* by address hash and root *)
  empty_storage : STrie;                         (* the trie of the zero root *)
  strie_get : STrie -> Z -> option bytes;        (* None is an error *)
  read_code : Z -> Z -> option bytes             (* by address hash and code hash *)
}.

Section StateDB.
Context {B : Backend}.

Record stateObject := mk_stateObject {
  address : Z;
  data : Account;
  obj_dbErr : bool;
  trie : option STrie;
  code : option bytes;
  originStorage : gmap Z Z;
  pendingStorage : gmap Z Z;
  dirtyStorage : gmap Z Z;
  fakeStorage : option (gmap Z Z);
  dirtyCode : bool;
  suicided : bool;
  deleted : bool
}.

Record Log := mk_Log {
  log_Address : Z; log_Topics : list Z; log_Data : bytes; log_BlockNumber : Z;
  log_TxHash : Z; log_BlockHash : Z; log_TxIndex : Z; log_Index : Z
}.

(** [prev] of [resetObjectChange] is the object that was replaced; nothing
    refers to it until the change is reverted. *)
Inductive journalEntry :=
| createObjectChange (account : Z)
| resetObjectChange (prev : stateObject) (prevdestruct : bool)
| suicideChange (account : Z) (prev : bool) (prevbalance : Z)
| balanceChange (account prev : Z)
| nonceChange (account prev : Z)
| storageChange (account key prevalue : Z)
| codeChange (account : Z) (prevcode : option bytes) (prevhash : Z)
| refundChange (prev : Z)
| addLogChange (txhash : Z)
| addPreimageChange (hash : Z)
| touchChange (account : Z)
| accessListAddAccountChange (addr : Z)
| accessListAddSlotChange (addr slot : Z).

Record journal := mk_journal { entries : list journalEntry; dirties : gmap Z Z }.

Record revision := mk_revision { rev_id : Z; journalIndex : Z }.

Record StateDB := mk_StateDB {
  snap : bool;                        (* whether a snapshot layer is in use *)
  snapDestructs : gset Z;
  stateObjects : gmap Z stateObject;
  stateObjectsPending : gset Z;
  stateObjectsDirty : gset Z;
  dbErr : bool;
  refund : Z;
  thash : Z; bhash : Z; txIndex : Z;
  logs : gmap Z (list Log);
  logSize : Z;
  preimages : gmap Z bytes;
  access : accessList;
  jrnl : journal;
  validRevisions : list revision;
  nextRevisionId : Z
}.

(** *** Field updates *)

Definition set_objects (s : StateDB) (x : gmap Z stateObject) : StateDB :=
  mk_StateDB (snap s) (snapDestructs s) x (stateObjectsPending s) (stateObjectsDirty s) (dbErr s) (refund s)
    (thash s) (bhash s) (txIndex s) (logs s) (logSize s) (preimages s) (access s) (jrnl s)
    (validRevisions s) (nextRevisionId s).
Definition set_destructs (s : StateDB) (x : gset Z) : StateDB :=
  mk_StateDB (snap s) x (stateObjects s) (stateObjectsPending s) (stateObjectsDirty s) (dbErr s) (refund s)
    (thash s) (bhash s) (txIndex s) (logs s) (logSize s) (preimages s) (access s) (jrnl s)
    (validRevisions s) (nextRevisionId s).
Definition set_marks (s : StateDB) (pending dirty : gset Z) : StateDB :=
  mk_StateDB (snap s) (snapDestructs s) (stateObjects s) pending dirty (dbErr s) (refund s)
    (thash s) (bhash s) (txIndex s) (logs s) (logSize s) (preimages s) (access s) (jrnl s)
    (validRevisions s) (nextRevisionId s).
Definition setError (s : StateDB) : StateDB :=
  mk_StateDB (snap s) (snapDestructs s) (stateObjects s) (stateObjectsPending s) (stateObjectsDirty s) true (refund s)
    (thash s) (bhash s) (txIndex s) (logs s) (logSize s) (preimages s) (access s) (jrnl s)
    (validRevisions s) (nextRevisionId s).
Definition set_refund (s : StateDB) (x : Z) : StateDB :=
  mk_StateDB (snap s) (snapDestructs s) (stateObjects s) (stateObjectsPending s) (stateObjectsDirty s) (dbErr s) x
    (thash s) (bhash s) (txIndex s) (logs s) (logSize s) (preimages s) (access s) (jrnl s)
    (validRevisions s) (nextRevisionId s).
Definition set_logs (s : StateDB) (x : gmap Z (list Log)) (n : Z) : StateDB :=
  mk_StateDB (snap s) (snapDestructs s) (stateObjects s) (stateObjectsPending s) (stateObjectsDirty s) (dbErr s) (refund s)
    (thash s) (bhash s) (txIndex s) x n (preimages s) (access s) (jrnl s)
    (validRevisions s) (nextRevisionId s).
Definition set_preimages (s : StateDB) (x : gmap Z bytes) : StateDB :=
  mk_StateDB (snap s) (snapDestructs s) (stateObjects s) (stateObjectsPending s) (stateObjectsDirty s) (dbErr s) (refund s)
    (thash s) (bhash s) (txIndex s) (logs s) (logSize s) x (access s) (jrnl s)
    (validRevisions s) (nextRevisionId s).
Definition set_access (s : StateDB) (x : accessList) : StateDB :=
  mk_StateDB (snap s) (snapDestructs s) (stateObjects s) (stateObjectsPending s) (stateObjectsDirty s) (dbErr s) (refund s)
    (thash s) (bhash s) (txIndex s) (logs s) (logSize s) (preimages s) x (jrnl s)
    (validRevisions s) (nextRevisionId s).
Definition set_journal (s : StateDB) (x : journal) : StateDB :=
  mk_StateDB (snap s) (snapDestructs s) (stateObjects s) (stateObjectsPending s) (stateObjectsDirty s) (dbErr s) (refund s)
    (thash s) (bhash s) (txIndex s) (logs s) (logSize s) (preimages s) (access s) x
    (validRevisions s) (nextRevisionId s).
Definition set_revisions (s : StateDB) (x : list revision) (n : Z) : StateDB :=
  mk_StateDB (snap s) (snapDestructs s) (stateObjects s) (stateObjectsPending s) (stateObjectsDirty s) (dbErr s) (refund s)
    (thash s) (bhash s) (txIndex s) (logs s) (logSize s) (preimages s) (access s) (jrnl s) x n.
Definition set_tx (s : StateDB) (th bh : Z) (ti : Z) : StateDB :=
  mk_StateDB (snap s) (snapDestructs s) (stateObjects s) (stateObjectsPending s) (stateObjectsDirty s) (dbErr s) (refund s)
    th bh ti (logs s) (logSize s) (preimages s) (access s) (jrnl s)
    (validRevisions s) (nextRevisionId s).

Definition obj_setError (o : stateObject) : stateObject :=
  mk_stateObject (address o) (data o) true (trie o) (code o) (originStorage o) (pendingStorage o) (dirtyStorage o)
    (fakeStorage o) (dirtyCode o) (suicided o) (deleted o).
Definition obj_set_data (o : stateObject) (d : Account) : stateObject :=
  mk_stateObject (address o) d (obj_dbErr o) (trie o) (code o) (originStorage o) (pendingStorage o) (dirtyStorage o)
    (fakeStorage o) (dirtyCode o) (suicided o) (deleted o).
Definition obj_set_trie (o : stateObject) (t : STrie) : stateObject :=
  mk_stateObject (address o) (data o) (obj_dbErr o) (Some t) (code o) (originStorage o) (pendingStorage o) (dirtyStorage o)
    (fakeStorage o) (dirtyCode o) (suicided o) (deleted o).
Definition obj_set_code (o : stateObject) (c : option bytes) (dirty : bool) : stateObject :=
  mk_stateObject (address o) (data o) (obj_dbErr o) (trie o) c (originStorage o) (pendingStorage o) (dirtyStorage o)
    (fakeStorage o) dirty (suicided o) (deleted o).
Definition obj_set_storage (o : stateObject) (origin pending dirty : gmap Z Z) : stateObject :=
  mk_stateObject (address o) (data o) (obj_dbErr o) (trie o) (code o) origin pending dirty
    (fakeStorage o) (dirtyCode o) (suicided o) (deleted o).
Definition obj_set_fake (o : stateObject) (f : option (gmap Z Z)) : stateObject :=
  mk_stateObject (address o) (data o) (obj_dbErr o) (trie o) (code o) (originStorage o) (pendingStorage o) (dirtyStorage o)
    f (dirtyCode o) (suicided o) (deleted o).
Definition obj_set_flags (o : stateObject) (sui del : bool) : stateObject :=
  mk_stateObject (address o) (data o) (obj_dbErr o) (trie o) (code o) (originStorage o) (pendingStorage o) (dirtyStorage o)
    (fakeStorage o) (dirtyCode o) sui del.

(** ** The journal *)

Definition newJournal : journal := mk_journal [] ∅.

Definition dirtied (e : journalEntry) : option Z :=
  match e with
  | createObjectChange a | suicideChange a _ _ | balanceChange a _ | nonceChange a _
  | storageChange a _ _ | codeChange a _ _ | touchChange a => Some a
  | _ => None
  end.

(** [j.dirties[addr]++] *)
Definition journal_dirty (j : journal) (addr : Z) : journal :=
  mk_journal (entries j) (<[addr := default 0 (dirties j !! addr) + 1]> (dirties j)).

Definition journal_append (j : journal) (e : journalEntry) : journal :=
  let j := mk_journal (entries j ++ [e]) (dirties j) in
  match dirtied e with
  | Some addr => journal_dirty j addr
  | None => j
  end.

Definition append (s : StateDB) (e : journalEntry) : StateDB := set_journal s (journal_append (jrnl s) e).

(** A fresh state over the backend, with or without a snapshot layer. *)
Definition New (sn : bool) : StateDB :=
  mk_StateDB sn ∅ ∅ ∅ ∅ false 0 0 0 0 ∅ 0 ∅ newAccessList newJournal [] 0.

(** Drop the dirty tracking of one reverted entry. *)
Definition journal_clean (j : journal) (e : journalEntry) : journal :=
  match dirtied e with
  | Some addr =>
      let n := default 0 (dirties j !! addr) - 1 in
      mk_journal (entries j) (if decide (n = 0) then base.delete addr (dirties j) else <[addr := n]> (dirties j))
  | None => j
  end.

(** ** Accounts *)

(** [newObject]; a nil balance or code hash is [None]. *)
Definition newObject (addr nonce : Z) (balance : option Z) (root : Z) (codeHash : option Z) : stateObject :=
  mk_stateObject addr
    (mk_Account nonce (default 0 balance) (if decide (root = 0) then emptyRoot else root)
       (default emptyCodeHash codeHash))
    false None None ∅ ∅ ∅ None false false false.

Definition empty (o : stateObject) : bool :=
  bool_decide (Nonce (data o) = 0 /\ Balance (data o) = 0 /\ CodeHash (data o) = emptyCodeHash).

Definition setBalance (o : stateObject) (amount : Z) : stateObject :=
  obj_set_data o (mk_Account (Nonce (data o)) amount (Root (data o)) (CodeHash (data o))).

Definition setNonce (o : stateObject) (nonce : Z) : stateObject :=
  obj_set_data o (mk_Account nonce (Balance (data o)) (Root (data o)) (CodeHash (data o))).

Definition setCode (o : stateObject) (codeHash : Z) (c : option bytes) : stateObject :=
  obj_set_data (obj_set_code o c true) (mk_Account (Nonce (data o)) (Balance (data o)) (Root (data o)) codeHash).

Definition setState (o : stateObject) (key value : Z) : stateObject :=
  obj_set_storage o (originStorage o) (pendingStorage o) (<[key := value]> (dirtyStorage o)).

Definition markSuicided (o : stateObject) : stateObject := obj_set_flags o true (deleted o).

Definition setStateObject (s : StateDB) (o : stateObject) : StateDB :=
  set_objects s (<[address o := o]> (stateObjects s)).

(** The reads of [getDeletedStateObject] when there is no live object: the
    account from the snapshot layer, or from the trie when there is no such layer
    or it fails.  The flag is the call of [setError]. *)
Definition load_account (s : StateDB) (addr : Z) : option Account * bool :=
  match (if snap s then snap_account (hash_address addr) else None) with
  | Some None => (None, false)
  | Some (Some acc) =>
      (Some (mk_Account (snap_Nonce acc) (snap_Balance acc)
               (if decide (snap_Root acc = 0) then emptyRoot else snap_Root acc)
               (default emptyCodeHash (snap_CodeHash acc))), false)
  | None =>
      match trie_account addr with
      | None => (None, true)
      | Some [] => (None, false)
      | Some enc => (decode_account enc, false)
      end
  end.

Definition getDeletedStateObject (s : StateDB) (addr : Z) : option stateObject * StateDB :=
  match stateObjects s !! addr with
  | Some obj => (Some obj, s)
  | None =>
      match load_account s addr with
      | (None, err) => (None, if (err : bool) then setError s else s)
      | (Some d, _) =>
          let obj := newObject addr (Nonce d) (Some (Balance d)) (Root d) (Some (CodeHash d)) in
          (Some obj, setStateObject s obj)
      end
  end.

Definition getStateObject (s : StateDB) (addr : Z) : option stateObject * StateDB :=
  match getDeletedStateObject s addr with
  | (Some obj, s) => (if deleted obj then None else Some obj, s)
  | (None, s) => (None, s)
  end.

(** The new object, and the one it replaced unless that was deleted. *)
Definition createObject (s : StateDB) (addr : Z) : stateObject * option stateObject * StateDB :=
  let '(prev, s) := getDeletedStateObject s addr in
  let newobj := setNonce (newObject addr 0 None 0 None) 0 in
  match prev with
  | None =>
      let s := append s (createObjectChange addr) in
      (newobj, None, setStateObject s newobj)
  | Some p =>
      let h := hash_address (address p) in
      let prevdestruct := if snap s then bool_decide (h ∈ snapDestructs s) else false in
      let s := if snap s then set_destructs s ({[ h ]} ∪ snapDestructs s) else s in
      let s := append s (resetObjectChange p prevdestruct) in
      (newobj, if deleted p then None else Some p, setStateObject s newobj)
  end.

Definition GetOrNewStateObject (s : StateDB) (addr : Z) : stateObject * StateDB :=
  match getStateObject s addr with
  | (Some obj, s) => (obj, s)
  | (None, s) => let '(obj, _, s) := createObject s addr in (obj, s)
  end.

Definition CreateAccount (s : StateDB) (addr : Z) : StateDB :=
  let '(newObj, prev, s) := createObject s addr in
  match prev with
  | Some p => setStateObject s (setBalance newObj (Balance (data p)))
  | None => s
  end.

(** *** Storage *)

Definition getTrie (o : stateObject) : STrie * stateObject :=
  match trie o with
  | Some t => (t, o)
  | None =>
      match open_storage (hash_address (address o)) (Root (data o)) with
      | Some t => (t, obj_set_trie o t)
      | None => (empty_storage, obj_setError (obj_set_trie o empty_storage))
      end
  end.

(** The slot in its RLP encoding, and whether that is malformed. *)
Definition decode_slot (enc : bytes) : Z * bool :=
  match enc with
  | [] => (0, false)
  | _ =>
      match Split enc with
      | Ret (_, content, _) => (be_to_Z (BytesToHash content), false)
      | _ => (be_to_Z (BytesToHash []), true)
      end
  end.

(** The end of [GetCommittedState]: decode, and cache as the original value. *)
Definition cache_slot (o : stateObject) (key : Z) (enc : bytes) : Z * stateObject :=
  let '(value, err) := decode_slot enc in
  let o := if (err : bool) then obj_setError o else o in
  (value, obj_set_storage o (<[key := value]> (originStorage o)) (pendingStorage o) (dirtyStorage o)).

Definition obj_GetCommittedState (s : StateDB) (o : stateObject) (key : Z) : Z * stateObject :=
  match fakeStorage o with
  | Some f => (default 0 (f !! key), o)
  | None =>
      match pendingStorage o !! key with
      | Some value => (value, o)
      | None =>
          match originStorage o !! key with
          | Some value => (value, o)
          | None =>
              if snap s && bool_decide (hash_address (address o) ∈ snapDestructs s) then (0, o)
              else
                match (if snap s then snap_storage (hash_address (address o)) key else None) with
                | Some enc => cache_slot o key enc
                | None =>
                    let '(t, o) := getTrie o in
                    match strie_get t key with
                    | Some enc => cache_slot o key enc
                    | None => (0, obj_setError o)
                    end
                end
          end
      end
  end.

Definition obj_GetState (s : StateDB) (o : stateObject) (key : Z) : Z * stateObject :=
  match fakeStorage o with
  | Some f => (default 0 (f !! key), o)
  | None =>
      match dirtyStorage o !! key with
      | Some value => (value, o)
      | None => obj_GetCommittedState s o key
      end
  end.

Definition obj_SetState (s : StateDB) (o : stateObject) (key value : Z) : StateDB :=
  match fakeStorage o with
  | Some f => setStateObject s (obj_set_fake o (Some (<[key := value]> f)))
  | None =>
      let '(prev, o) := obj_GetState s o key in
      if decide (prev = value) then setStateObject s o
      else
        let s := append s (storageChange (address o) key prev) in
        setStateObject s (setState o key value)
  end.

(** [SetStorage] is for debugging and is not journalled. *)
Definition obj_SetStorage (s : StateDB) (o : stateObject) (storage : gmap Z Z) : StateDB :=
  setStateObject s (obj_set_fake o (Some (storage ∪ default ∅ (fakeStorage o)))).

(** *** Code *)

Definition obj_Code (o : stateObject) : option bytes * stateObject :=
  match code o with
  | Some c => (Some c, o)
  | None =>
      if decide (CodeHash (data o) = emptyCodeHash) then (None, o)
      else
        match read_code (hash_address (address o)) (CodeHash (data o)) with
        | Some c => (Some c, obj_set_code o (Some c) (dirtyCode o))
        | None => (None, obj_setError o)
        end
  end.

(** [ContractCodeSize] reads the code when its size is not cached. *)
Definition obj_CodeSize (o : stateObject) : Z * stateObject :=
  match code o with
  | Some c => (zlen c, o)
  | None =>
      if decide (CodeHash (data o) = emptyCodeHash) then (0, o)
      else
        match read_code (hash_address (address o)) (CodeHash (data o)) with
        | Some c => (zlen c, o)
        | None => (0, obj_setError o)
        end
  end.

Definition obj_SetCode (s : StateDB) (o : stateObject) (codeHash : Z) (c : bytes) : StateDB :=
  let '(prevcode, o) := obj_Code o in
  let s := append s (codeChange (address o) prevcode (CodeHash (data o))) in
  setStateObject s (setCode o codeHash (Some c)).

(** *** Balance and nonce *)

Definition ripemd : Z := 3.

Definition touch (s : StateDB) (o : stateObject) : StateDB :=
  let s := append s (touchChange (address o)) in
  if decide (address o = ripemd) then set_journal s (journal_dirty (jrnl s) (address o)) else s.

Definition obj_SetBalance (s : StateDB) (o : stateObject) (amount : Z) : StateDB :=
  let s := append s (balanceChange (address o) (Balance (data o))) in
  setStateObject s (setBalance o amount).

Definition obj_AddBalance (s : StateDB) (o : stateObject) (amount : Z) : StateDB :=
  if decide (amount = 0) then (if empty o then touch s o else s)
  else obj_SetBalance s o (Balance (data o) + amount).

Definition obj_SubBalance (s : StateDB) (o : stateObject) (amount : Z) : StateDB :=
  if decide (amount = 0) then s else obj_SetBalance s o (Balance (data o) - amount).

Definition obj_SetNonce (s : StateDB) (o : stateObject) (nonce : Z) : StateDB :=
  let s := append s (nonceChange (address o) (Nonce (data o))) in
  setStateObject s (setNonce o nonce).

(** ** The methods of [StateDB] *)

Definition AddLog (s : StateDB) (log : Log) : StateDB :=
  let s := append s (addLogChange (thash s)) in
  let l := mk_Log (log_Address log) (log_Topics log) (log_Data log) (log_BlockNumber log) (thash s) (bhash s) (u64 (txIndex s)) (logSize s) in
  set_logs s (<[thash s := default [] (logs s !! thash s) ++ [l]]> (logs s)) (u64 (logSize s + 1)).

Definition AddPreimage (s : StateDB) (hash : Z) (preimage : bytes) : StateDB :=
  match preimages s !! hash with
  | Some _ => s
  | None =>
      let s := append s (addPreimageChange hash) in
      set_preimages s (<[hash := preimage]> (preimages s))
  end.

Definition AddRefund (s : StateDB) (gas : Z) : StateDB :=
  let s := append s (refundChange (refund s)) in
  set_refund s (u64 (refund s + gas)).

Definition SubRefund (s : StateDB) (gas : Z) : outcome Empty_set StateDB :=
  let s := append s (refundChange (refund s)) in
  if decide (gas > refund s) then Panic else Ret (set_refund s (refund s - gas)).

(** The getters: a value, and the state with what was loaded on the way. *)
Definition Exist (s : StateDB) (addr : Z) : bool * StateDB :=
  let '(o, s) := getStateObject s addr in (bool_decide (is_Some o), s).

Definition Empty (s : StateDB) (addr : Z) : bool * StateDB :=
  let '(so, s) := getStateObject s addr in
  (match so with Some o => empty o | None => true end, s).

Definition GetBalance (s : StateDB) (addr : Z) : Z * StateDB :=
  let '(so, s) := getStateObject s addr in
  (match so with Some o => Balance (data o) | None => 0 end, s).

Definition GetNonce (s : StateDB) (addr : Z) : Z * StateDB :=
  let '(so, s) := getStateObject s addr in
  (match so with Some o => Nonce (data o) | None => 0 end, s).

Definition GetCodeHash (s : StateDB) (addr : Z) : Z * StateDB :=
  let '(so, s) := getStateObject s addr in
  (match so with Some o => CodeHash (data o) | None => 0 end, s).

Definition HasSuicided (s : StateDB) (addr : Z) : bool * StateDB :=
  let '(so, s) := getStateObject s addr in
  (match so with Some o => suicided o | None => false end, s).

Definition GetCode (s : StateDB) (addr : Z) : option bytes * StateDB :=
  match getStateObject s addr with
  | (Some o, s) => let '(c, o) := obj_Code o in (c, setStateObject s o)
  | (None, s) => (None, s)
  end.

Definition GetCodeSize (s : StateDB) (addr : Z) : Z * StateDB :=
  match getStateObject s addr with
  | (Some o, s) => let '(n, o) := obj_CodeSize o in (n, setStateObject s o)
  | (None, s) => (0, s)
  end.

Definition GetState (s : StateDB) (addr hash : Z) : Z * StateDB :=
  match getStateObject s addr with
  | (Some o, s) => let '(v, o) := obj_GetState s o hash in (v, setStateObject s o)
  | (None, s) => (0, s)
  end.

Definition GetCommittedState (s : StateDB) (addr hash : Z) : Z * StateDB :=
  match getStateObject s addr with
  | (Some o, s) => let '(v, o) := obj_GetCommittedState s o hash in (v, setStateObject s o)
  | (None, s) => (0, s)
  end.

Definition AddBalance (s : StateDB) (addr amount : Z) : StateDB :=
  let '(o, s) := GetOrNewStateObject s addr in obj_AddBalance s o amount.

Definition SubBalance (s : StateDB) (addr amount : Z) : StateDB :=
  let '(o, s) := GetOrNewStateObject s addr in obj_SubBalance s o amount.

(** core/evm.go *)
Definition CanTransfer (s : StateDB) (addr amount : Z) : bool * StateDB :=
  let '(b, s) := GetBalance s addr in (bool_decide (b >= amount), s).

Definition Transfer (s : StateDB) (sender recipient amount : Z) : StateDB :=
  AddBalance (SubBalance s sender amount) recipient amount.

Definition SetBalance (s : StateDB) (addr amount : Z) : StateDB :=
  let '(o, s) := GetOrNewStateObject s addr in obj_SetBalance s o amount.

Definition SetNonce (s : StateDB) (addr nonce : Z) : StateDB :=
  let '(o, s) := GetOrNewStateObject s addr in obj_SetNonce s o nonce.

Definition SetCode (s : StateDB) (addr : Z) (c : bytes) : StateDB :=
  let '(o, s) := GetOrNewStateObject s addr in obj_SetCode s o (hash_code c) c.

Definition SetState (s : StateDB) (addr key value : Z) : StateDB :=
  let '(o, s) := GetOrNewStateObject s addr in obj_SetState s o key value.

Definition SetStorage (s : StateDB) (addr : Z) (storage : gmap Z Z) : StateDB :=
  let '(o, s) := GetOrNewStateObject s addr in obj_SetStorage s o storage.

Definition Suicide (s : StateDB) (addr : Z) : bool * StateDB :=
  match getStateObject s addr with
  | (None, s) => (false, s)
  | (Some o, s) =>
      let s := append s (suicideChange addr (suicided o) (Balance (data o))) in
      (true, setStateObject s (setBalance (markSuicided o) 0))
  end.

Definition AddAddressToAccessList (s : StateDB) (addr : Z) : StateDB :=
  let '(added, al) := AddAddress (access s) addr in
  let s := set_access s al in
  if added then append s (accessListAddAccountChange addr) else s.

Definition AddSlotToAccessList (s : StateDB) (addr slot : Z) : outcome Empty_set StateDB :=
  '(addrMod, slotMod, al) ← AddSlot (access s) addr slot;
  let s := set_access s al in
  let s := if (addrMod : bool) then append s (accessListAddAccountChange addr) else s in
  Ret (if (slotMod : bool) then append s (accessListAddSlotChange addr slot) else s).

Definition Prepare (s : StateDB) (th bh ti : Z) : StateDB := set_access (set_tx s th bh ti) newAccessList.

(** ** Snapshots *)

(** The object of an account that must be there: nil is dereferenced otherwise. *)
Definition must_object (s : StateDB) (addr : Z) (f : stateObject -> stateObject) : outcome Empty_set StateDB :=
  match getStateObject s addr with
  | (Some o, s) => Ret (setStateObject s (f o))
  | (None, _) => Panic
  end.

Definition entry_revert (s : StateDB) (e : journalEntry) : outcome Empty_set StateDB :=
  match e with
  | createObjectChange a =>
      Ret (set_marks (set_objects s (base.delete a (stateObjects s)))
             (stateObjectsPending s) (stateObjectsDirty s ∖ {[ a ]}))
  | resetObjectChange prev prevdestruct =>
      let s := setStateObject s prev in
      Ret (if negb prevdestruct && snap s
           then set_destructs s (snapDestructs s ∖ {[ hash_address (address prev) ]}) else s)
  | suicideChange a prev prevbalance =>
      match getStateObject s a with
      | (Some o, s) => Ret (setStateObject s (setBalance (obj_set_flags o prev (deleted o)) prevbalance))
      | (None, s) => Ret s
      end
  | balanceChange a prev => must_object s a (fun o => setBalance o prev)
  | nonceChange a prev => must_object s a (fun o => setNonce o prev)
  | storageChange a key prevalue => must_object s a (fun o => setState o key prevalue)
  | codeChange a prevcode prevhash => must_object s a (fun o => setCode o prevhash prevcode)
  | refundChange prev => Ret (set_refund s prev)
  | addLogChange txhash =>
      let l := default [] (logs s !! txhash) in
      let n := u64 (logSize s - 1) in
      match l with
      | [] => Panic
      | [_] => Ret (set_logs s (base.delete txhash (logs s)) n)
      | _ => Ret (set_logs s (<[txhash := take (length l - 1) l]> (logs s)) n)
      end
  | addPreimageChange hash => Ret (set_preimages s (base.delete hash (preimages s)))
  | touchChange _ => Ret s
  | accessListAddAccountChange a => Ret (set_access s (DeleteAddress (access s) a))
  | accessListAddSlotChange a slot =>
      al ← DeleteSlot (access s) a slot;
      Ret (set_access s al)
  end.

(** The loop of [journal.revert]; the entries come in reverse order. *)
Fixpoint revert_entries (s : StateDB) (es : list journalEntry) : outcome Empty_set StateDB :=
  match es with
  | [] => Ret s
  | e :: es =>
      s ← entry_revert s e;
      revert_entries (set_journal s (journal_clean (jrnl s) e)) es
  end.

Definition journal_revert (s : StateDB) (snapshot : Z) : outcome Empty_set StateDB :=
  s ← revert_entries s (rev (drop (Z.to_nat snapshot) (entries (jrnl s))));
  es ← go_to (entries (jrnl s)) snapshot;
  Ret (set_journal s (mk_journal es (dirties (jrnl s)))).

Definition Snapshot (s : StateDB) : Z * StateDB :=
  let id := nextRevisionId s in
  (id, set_revisions s (validRevisions s ++ [mk_revision id (zlen (entries (jrnl s)))]) (id + 1)).

(** [sort.Search]: the smallest index in [i, j) where [f] holds, [j] if none,
    for a predicate that stays true once it is. *)
Fixpoint search (fuel : nat) (f : Z -> bool) (i j : Z) : Z :=
  match fuel with
  | O => i
  | S fuel =>
      if decide (i < j) then
        let h := Z.shiftr (i + j) 1 in
        if f h then search fuel f i h else search fuel f (h + 1) j
      else i
  end.

Definition Search (n : Z) (f : Z -> bool) : Z := search (Z.to_nat n) f 0 n.

Definition RevertToSnapshot (s : StateDB) (revid : Z) : outcome Empty_set StateDB :=
  let id i := match validRevisions s !! Z.to_nat i with Some r => rev_id r | None => 0 end in
  let idx := Search (zlen (validRevisions s)) (fun i => bool_decide (id i >= revid)) in
  if decide (idx = zlen (validRevisions s) \/ id idx <> revid) then Panic
  else
    match validRevisions s !! Z.to_nat idx with
    | Some r =>
        s ← journal_revert s (journalIndex r);
        Ret (set_revisions s (take (Z.to_nat idx) (validRevisions s)) (nextRevisionId s))
    | None => Panic
    end.

(** ** The end of a transaction *)

(** [finalise]: the dirty slots move to the pending ones. *)
Definition finalise (o : stateObject) : stateObject :=
  obj_set_storage o (originStorage o) (dirtyStorage o ∪ pendingStorage o) ∅.

(** One round of the loop of [Finalise]. *)
Definition finalise_account (deleteEmptyObjects : bool) (s : StateDB) (addr : Z) : StateDB :=
  match stateObjects s !! addr with
  | None => s
  | Some obj =>
      let s :=
        if suicided obj || (deleteEmptyObjects && empty obj) then
          let s := setStateObject s (obj_set_flags obj (suicided obj) true) in
          if snap s then set_destructs s ({[ hash_address (address obj) ]} ∪ snapDestructs s) else s
        else setStateObject s (finalise obj) in
      set_marks s ({[ addr ]} ∪ stateObjectsPending s) ({[ addr ]} ∪ stateObjectsDirty s)
  end.

Definition clearJournalAndRefund (s : StateDB) : StateDB :=
  let s := match entries (jrnl s) with [] => s | _ => set_refund (set_journal s newJournal) 0 end in
  set_revisions s [] (nextRevisionId s).

(** [Finalise] ranges over the dirty accounts in the order [addrs], which Go
    leaves open. *)
Definition Finalise (s : StateDB) (deleteEmptyObjects : bool) (addrs : list Z) : StateDB :=
  clearJournalAndRefund (fold_left (finalise_account deleteEmptyObjects) addrs s).

End StateDB.
