(* ===== verification/StateDBProofs.v ===== *)
(** * Snapshots of the state database restore it

    Two states are equivalent ([eqv]) when no later operation can tell them
    apart: the same accounts (read through the caches), slots, code, refund,
    logs, preimages, access list and dirty accounts; what was cached on the way
    and the memoised errors may differ.  Every operation appends entries to the
    journal whose reversal, from any equivalent state, is equivalent to the state
    before it ([op]).  Snapshots nest, and programs that take and revert them in
    any order are covered by a chain of saved states ([chain]). *)

From stdpp Require Import gmap.
From S2P Require Import Prelude Rlp Trie AccessList StateDB.

(** What is relied on of the hash of an address: no two addresses collide. *)
Class BackendLaws (B : Backend) := hash_address_inj : forall a b, hash_address a = hash_address b -> a = b.

Section Snapshots.
Context {B : Backend} {L : BackendLaws B}.
Implicit Types (s t : StateDB) (o : stateObject).

(** ** Reading through the caches *)

Definition loaded s (a : Z) : option stateObject :=
  d ← (load_account s a).1;
  Some (newObject a (Nonce d) (Some (Balance d)) (Root d) (Some (CodeHash d))).

Definition look s (a : Z) : option stateObject :=
  match stateObjects s !! a with Some o => Some o | None => loaded s a end.

Definition eff_code o : option bytes := (obj_Code o).1.
Definition committed s o (k : Z) : Z := (obj_GetCommittedState s o k).1.
Definition state_of s o (k : Z) : Z := (obj_GetState s o k).1.

(** Objects that differ in their caches only, seen from [s] and [s']. *)
Record obj_eqv s s' o o' : Prop := {
  oe_address : address o = address o';
  oe_data : data o = data o';
  oe_suicided : suicided o = suicided o';
  oe_deleted : deleted o = deleted o';
  oe_fake : fakeStorage o = fakeStorage o';
  oe_code : eff_code o = eff_code o';
  oe_committed : forall k, committed s o k = committed s' o' k;
  oe_state : forall k, state_of s o k = state_of s' o' k
}.

Record eqv s s' : Prop := {
  eqv_snap : snap s = snap s';
  eqv_destructs : snapDestructs s = snapDestructs s';
  eqv_objects : forall a, option_Forall2 (obj_eqv s s') (look s a) (look s' a);
  eqv_pending : stateObjectsPending s = stateObjectsPending s';
  eqv_dirty : stateObjectsDirty s = stateObjectsDirty s';
  eqv_refund : refund s = refund s';
  eqv_thash : thash s = thash s';
  eqv_bhash : bhash s = bhash s';
  eqv_txIndex : txIndex s = txIndex s';
  eqv_logs : logs s = logs s';
  eqv_logSize : logSize s = logSize s';
  eqv_preimages : preimages s = preimages s';
  eqv_access : access s = access s';
  eqv_dirties : forall a, a <> ripemd -> dirties (jrnl s) !! a = dirties (jrnl s') !! a
}.
Local Infix "≈" := eqv (at level 70).

(** ** The invariant of the state *)

(** How many entries of the journal have made the account dirty. *)
Definition marks_of (es : list journalEntry) (a : Z) : Z := zlen (filter (fun e => dirtied e = Some a) es).

(** The counters of the journal are positive, and count at least its entries. *)
Record tallied (j : journal) : Prop := {
  tl_pos : forall a n, dirties j !! a = Some n -> 0 < n;
  tl_count : forall a, marks_of (entries j) a <= default 0 (dirties j !! a)
}.

Record wf s : Prop := {
  wf_obj : forall a o, look s a = Some o -> address o = a /\ fakeStorage o = None;
  wf_marks : forall a, a ∈ stateObjectsDirty s -> is_Some (look s a);
  wf_logs : forall h l, logs s !! h = Some l -> l <> [];
  wf_size : is_u64 (logSize s);
  wf_al : al_ok (access s);
  wf_tallied : tallied (jrnl s)
}.

(** [s'] differs from [s] in caches and error flags only. *)
Record quiet s s' : Prop := {
  quiet_eqv : s' ≈ s;
  quiet_jrnl : jrnl s' = jrnl s;
  quiet_revisions : validRevisions s' = validRevisions s;
  quiet_next : nextRevisionId s' = nextRevisionId s
}.

(** The journal of [s'] extends that of [s], and undoing the rest leads back. *)
Definition undoable s s' : Prop :=
  exists es, entries (jrnl s') = entries (jrnl s) ++ es /\
    exists t, revert_entries s' (rev es) = Ret t /\ t ≈ s.

(** [s'] is reached from [s] by changes that the journal can undo. *)
Record op s s' : Prop := {
  op_wf : wf s';
  op_undo : undoable s s';
  op_revisions : validRevisions s' = validRevisions s;
  op_next : nextRevisionId s' = nextRevisionId s
}.

(** ** Equivalence *)

#[global] Instance eqv_refl : Reflexive eqv.
Proof.
  intros s. split; try done. intros a. destruct (look s a); constructor. by split.
Qed.

#[global] Instance eqv_sym : Symmetric eqv.
Proof.
  intros s t []; split; try done; [|naive_solver].
  intros a. specialize (eqv_objects0 a). destruct eqv_objects0 as [o o' []|]; constructor. split; congruence.
Qed.

#[global] Instance eqv_trans : Transitive eqv.
Proof.
  intros s t u H K; split; try (destruct H, K; congruence).
  - intros a. pose proof (eqv_objects _ _ H a) as Ha. pose proof (eqv_objects _ _ K a) as Ka.
    destruct Ha as [o o' Ho|]; inversion Ka as [? o'' Ho'|]; subst; constructor.
    destruct Ho, Ho'; split; intros; etrans; eauto.
  - intros a Ha. etrans; [by apply H|by apply K].
Qed.

#[global] Instance quiet_refl : Reflexive quiet.
Proof. by split. Qed.

#[global] Instance quiet_trans : Transitive quiet.
Proof. intros s t u [] []; split; (etrans; [eassumption|done]) || congruence. Qed.

Lemma loaded_snap s s' a : snap s = snap s' -> loaded s a = loaded s' a.
Proof. intros H. unfold loaded, load_account. by rewrite H. Qed.

Lemma loaded_fields s a o :
  loaded s a = Some o -> address o = a /\ fakeStorage o = None /\ suicided o = false /\ deleted o = false.
Proof. unfold loaded. intros (d & _ & [= <-])%bind_Some. done. Qed.

Lemma look_set s o a : look (setStateObject s o) a = if decide (a = address o) then Some o else look s a.
Proof.
  unfold look. cbn. destruct (decide (a = address o)) as [->|]; [by rewrite lookup_insert_eq|].
  by rewrite lookup_insert_ne by done.
Qed.

Lemma look_set_eq s o a : a = address o -> look (setStateObject s o) a = Some o.
Proof. intros ->. rewrite look_set. by rewrite decide_True. Qed.

Lemma look_set_ne s o a : a <> address o -> look (setStateObject s o) a = look s a.
Proof. intros. rewrite look_set. by rewrite decide_False. Qed.

(** The storage of an object depends on two fields of the state only. *)
Lemma committed_view s s' o k :
  snap s = snap s' ->
  (hash_address (address o) ∈ snapDestructs s <-> hash_address (address o) ∈ snapDestructs s') ->
  committed s o k = committed s' o k.
Proof.
  intros H D. unfold committed, obj_GetCommittedState. rewrite H.
  by rewrite (bool_decide_ext _ _ D).
Qed.

Lemma state_committed s o k :
  state_of s o k = match fakeStorage o with
                   | Some f => default 0 (f !! k)
                   | None => match dirtyStorage o !! k with Some v => v | None => committed s o k end
                   end.
Proof. unfold state_of, obj_GetState. by repeat case_match. Qed.

Lemma obj_eqv_view s1 s1' s2 s2' o o' :
  snap s1 = snap s1' -> snap s2 = snap s2' ->
  (hash_address (address o) ∈ snapDestructs s1 <-> hash_address (address o) ∈ snapDestructs s1') ->
  (hash_address (address o) ∈ snapDestructs s2 <-> hash_address (address o) ∈ snapDestructs s2') ->
  obj_eqv s1 s2 o o' -> obj_eqv s1' s2' o o'.
Proof.
  intros H1 H2 D1 D2 [].
  assert (E1 : forall k, committed s1 o k = committed s1' o k) by (intros; by apply committed_view).
  assert (E2 : forall k, committed s2 o' k = committed s2' o' k) by (intros; apply committed_view; congruence).
  split; try done; intros k; specialize (oe_committed0 k); specialize (oe_state0 k);
    rewrite ?state_committed, <- ?E1, <- ?E2 in *; done.
Qed.

(** *** Reads only fill caches *)

(** An object with other caches. *)
Definition refill o (b : bool) (tr : option STrie) (origin : gmap Z Z) : stateObject :=
  mk_stateObject (address o) (data o) b tr (code o) origin (pendingStorage o) (dirtyStorage o)
    (fakeStorage o) (dirtyCode o) (suicided o) (deleted o).

Lemma getTrie_refill o : exists b, getTrie o = ((getTrie o).1, refill o b (Some (getTrie o).1) (originStorage o)).
Proof.
  unfold getTrie, refill. destruct o as [ad d b [t|] ? ? ? ? ? ? ? ?]; cbn; [eauto|].
  destruct (open_storage _ _); cbn; eauto.
Qed.

Lemma GetCommittedState_refill s o k :
  exists b tr origin, (tr = trie o \/ tr = Some (getTrie o).1) /\
    (origin = originStorage o \/ origin = <[k := committed s o k]> (originStorage o)) /\
    (obj_GetCommittedState s o k).2 = refill o b tr origin.
Proof.
  assert (Hsame : refill o (obj_dbErr o) (trie o) (originStorage o) = o) by by destruct o.
  unfold committed, obj_GetCommittedState.
  destruct (fakeStorage o) eqn:Ef; [eexists _, _, _; eauto|].
  destruct (pendingStorage o !! k); [eexists _, _, _; eauto|].
  destruct (originStorage o !! k); [eexists _, _, _; eauto|].
  destruct (snap s && _); [eexists _, _, _; eauto|].
  destruct (if snap s then _ else _) as [enc|].
  - unfold cache_slot. destruct (decode_slot enc) as [v [|]]; eexists _, _, _;
      (split; [by left|]); (split; [by right|done]).
  - destruct (getTrie_refill o) as [b E]. rewrite E. destruct (strie_get _ k) as [enc|].
    + unfold cache_slot. destruct (decode_slot enc) as [v [|]]; eexists _, _, _;
        (split; [by right|]); (split; [by right|done]).
    + eexists _, _, _. split; [by right|]. split; [by left|done].
Qed.

Lemma getTrie_1_refill o b tr origin :
  tr = trie o \/ tr = Some (getTrie o).1 -> (getTrie (refill o b tr origin)).1 = (getTrie o).1.
Proof.
  intros [->| ->]; [|done]. unfold getTrie, refill. cbn. destruct (trie o); [done|]. by destruct (open_storage _ _).
Qed.

(** The value read, layer by layer. *)
Lemma committed_layers s o k :
  committed s o k =
    match fakeStorage o with
    | Some f => default 0 (f !! k)
    | None =>
        match pendingStorage o !! k with
        | Some v => v
        | None =>
            match originStorage o !! k with
            | Some v => v
            | None =>
                if snap s && bool_decide (hash_address (address o) ∈ snapDestructs s) then 0
                else match (if snap s then snap_storage (hash_address (address o)) k else None) with
                     | Some enc => (decode_slot enc).1
                     | None => match strie_get (getTrie o).1 k with
                               | Some enc => (decode_slot enc).1
                               | None => 0
                               end
                     end
            end
        end
    end.
Proof.
  unfold committed, obj_GetCommittedState, cache_slot. repeat (case_match; [done..|]).
  destruct (if snap s then _ else _); [by destruct (decode_slot _)|].
  destruct (getTrie o) as [t o']. cbn. destruct (strie_get t k); [by destruct (decode_slot _)|done].
Qed.

Lemma refill_eqv s o k b tr origin :
  tr = trie o \/ tr = Some (getTrie o).1 ->
  origin = originStorage o \/ origin = <[k := committed s o k]> (originStorage o) ->
  obj_eqv s s (refill o b tr origin) o.
Proof.
  intros Htr Ho. assert (Ec : forall j, committed s (refill o b tr origin) j = committed s o j).
  { intros j. rewrite (committed_layers s (refill _ _ _ _)), getTrie_1_refill by done. cbn.
    destruct Ho as [->| ->]; [by rewrite committed_layers|].
    destruct (decide (j = k)) as [->|]; [rewrite lookup_insert_eq|rewrite lookup_insert_ne by done];
      rewrite committed_layers; by repeat case_match. }
  split; try done; [by unfold eff_code, obj_Code; cbn; repeat case_match|]. intros j. by rewrite !state_committed, Ec.
Qed.

Lemma GetCommittedState_eqv s o k : obj_eqv s s (obj_GetCommittedState s o k).2 o.
Proof.
  destruct (GetCommittedState_refill s o k) as (b & tr & origin & Htr & Ho & ->). by eapply refill_eqv.
Qed.

Lemma obj_eqv_refl s o : obj_eqv s s o o.
Proof. by split. Qed.

Lemma GetState_eqv s o k : obj_eqv s s (obj_GetState s o k).2 o.
Proof.
  unfold obj_GetState. destruct (fakeStorage o); [apply obj_eqv_refl|].
  destruct (dirtyStorage o !! k); [apply obj_eqv_refl|]. apply GetCommittedState_eqv.
Qed.

Lemma obj_eqv_same_storage s o o' :
  address o = address o' -> data o = data o' -> suicided o = suicided o' -> deleted o = deleted o' ->
  fakeStorage o = fakeStorage o' -> eff_code o = eff_code o' ->
  (getTrie o).1 = (getTrie o').1 -> originStorage o = originStorage o' -> pendingStorage o = pendingStorage o' ->
  dirtyStorage o = dirtyStorage o' -> obj_eqv s s o o'.
Proof.
  intros Ha Hd Hs Hl Hf Hc Ht H1 H2 H3. split; try done.
  - intros k. by rewrite !committed_layers, Ha, Hf, Ht, H1, H2.
  - intros k. by rewrite !state_committed, !committed_layers, Ha, Hf, Ht, H1, H2, H3.
Qed.

Lemma getTrie_1 o o' :
  address o = address o' -> Root (data o) = Root (data o') -> trie o = trie o' -> (getTrie o).1 = (getTrie o').1.
Proof. unfold getTrie. intros -> -> ->. destruct (trie o'); [done|]. by destruct (open_storage _ _). Qed.

Lemma Code_eqv s o : obj_eqv s s (obj_Code o).2 o.
Proof.
  unfold obj_Code. destruct (code o) eqn:E; [apply obj_eqv_refl|]. case_decide; [apply obj_eqv_refl|].
  destruct (read_code _ _) eqn:Er; apply obj_eqv_same_storage; try done; try by apply getTrie_1.
  - unfold eff_code, obj_Code. cbn. rewrite E, Er. by repeat case_match.
  - unfold eff_code, obj_Code. cbn. rewrite E, Er. by repeat case_match.
Qed.

Lemma CodeSize_eqv s o : obj_eqv s s (obj_CodeSize o).2 o.
Proof.
  unfold obj_CodeSize. destruct (code o) eqn:E; [apply obj_eqv_refl|]. case_decide; [apply obj_eqv_refl|].
  destruct (read_code _ _) eqn:Er; [apply obj_eqv_refl|].
  apply obj_eqv_same_storage; try done; [|by apply getTrie_1]. unfold eff_code, obj_Code. cbn. rewrite E, Er. by repeat case_match.
Qed.

(** *** States that differ in caches *)

Lemma obj_eqv_frame s s' o o' :
  snap s' = snap s -> snapDestructs s' = snapDestructs s -> obj_eqv s s o o' -> obj_eqv s' s o o'.
Proof. intros H1 H2. apply obj_eqv_view; congruence || by rewrite ?H2. Qed.

Lemma look_same_eqv s s' a :
  snap s' = snap s -> snapDestructs s' = snapDestructs s -> look s' a = look s a ->
  option_Forall2 (obj_eqv s' s) (look s' a) (look s a).
Proof.
  intros H1 H2 ->. destruct (look s a); constructor. apply obj_eqv_frame, obj_eqv_refl; done.
Qed.

Lemma setStateObject_quiet s o o' :
  look s (address o) = Some o -> obj_eqv s s o' o -> quiet s (setStateObject s o').
Proof.
  intros Hl Ho. split; [|done..]. split; try done. intros a.
  destruct (decide (a = address o')) as [->|].
  - rewrite look_set_eq, (oe_address _ _ _ _ Ho), Hl by done. constructor. by apply obj_eqv_frame.
  - apply look_same_eqv; [done..|]. by rewrite look_set_ne.
Qed.

Lemma quiet_live s o : look s (address o) = Some o -> quiet s (setStateObject s o).
Proof. intros. eapply setStateObject_quiet; [done..|apply obj_eqv_refl]. Qed.

Lemma getDeleted_spec s a :
  exists s', getDeletedStateObject s a = (look s a, s') /\ quiet s s' /\ stateObjects s' !! a = look s a.
Proof.
  unfold getDeletedStateObject, look, loaded. destruct (stateObjects s !! a) as [o|] eqn:E; [by exists s|].
  destruct (load_account s a) as [[d|] err] eqn:El; cbn.
  - eexists. split; [done|]. split; [|by cbn; rewrite lookup_insert_eq].
    apply quiet_live. unfold look, loaded. cbn. by rewrite E, El.
  - destruct err; eexists; (split; [done|]); (split; [|done]); [|done]. split; [|done..]. split; try done.
    intros b. by apply look_same_eqv.
Qed.

Lemma wf_eqv s s' : s ≈ s' -> tallied (jrnl s') -> wf s -> wf s'.
Proof.
  intros H T W. split.
  - intros a o Ho. pose proof (eqv_objects _ _ H a) as Ha. rewrite Ho in Ha. inversion Ha as [o1 ? Heq E|]; subst.
    destruct (wf_obj _ W a o1) as [? ?]; [done|]. destruct Heq. split; congruence.
  - intros a Ha. rewrite <- (eqv_dirty _ _ H) in Ha. apply (wf_marks _ W) in Ha as [o Ho].
    pose proof (eqv_objects _ _ H a) as Hq. rewrite Ho in Hq. inversion Hq; subst. eauto.
  - rewrite <- (eqv_logs _ _ H). apply W.
  - rewrite <- (eqv_logSize _ _ H). apply W.
  - rewrite <- (eqv_access _ _ H). apply W.
  - done.
Qed.

Lemma quiet_op s s' : wf s -> quiet s s' -> op s s'.
Proof.
  intros W [H1 H2 H3 H4]. split; [|exists []|done..].
  - eapply wf_eqv; [by symmetry|rewrite H2; apply W|done].
  - split; [by rewrite H2, app_nil_r|]. cbn. eauto.
Qed.

(** ** Reverting respects the equivalence *)

Definition live s (a : Z) : option stateObject :=
  match look s a with Some o => if deleted o then None else Some o | None => None end.

Lemma getStateObject_spec s a :
  exists s', getStateObject s a = (live s a, s') /\ quiet s s' /\ stateObjects s' !! a = look s a.
Proof.
  destruct (getDeleted_spec s a) as (s' & E & Hq & Hl). unfold getStateObject, live. rewrite E. destruct (look s a); eauto.
Qed.

Lemma live_eqv s s' a : s ≈ s' -> option_Forall2 (obj_eqv s s') (live s a) (live s' a).
Proof.
  intros H. unfold live. destruct (eqv_objects _ _ H a) as [o o' Ho|]; [|constructor].
  rewrite <- (oe_deleted _ _ _ _ Ho). destruct (deleted o); by constructor.
Qed.

(** Two states after the same change of an object. *)
Lemma setStateObject_eqv s s' o o' : s ≈ s' -> obj_eqv s s' o o' -> setStateObject s o ≈ setStateObject s' o'.
Proof.
  intros H Ho. split; try apply H. intros a. rewrite !look_set, <- (oe_address _ _ _ _ Ho). case_decide.
  - constructor. by eapply obj_eqv_view; [..|exact Ho].
  - destruct (eqv_objects _ _ H a) as [p p' Hp|]; constructor. by eapply obj_eqv_view; [..|exact Hp].
Qed.

Lemma committed_setBalance s o v k : committed s (setBalance o v) k = committed s o k.
Proof. rewrite !committed_layers. by rewrite (getTrie_1 (setBalance o v) o). Qed.

Lemma committed_setNonce s o v k : committed s (setNonce o v) k = committed s o k.
Proof. rewrite !committed_layers. by rewrite (getTrie_1 (setNonce o v) o). Qed.

Lemma committed_setCode s o h c k : committed s (setCode o h c) k = committed s o k.
Proof. rewrite !committed_layers. by rewrite (getTrie_1 (setCode o h c) o). Qed.

Lemma committed_setState s o j v k : committed s (setState o j v) k = committed s o k.
Proof. rewrite !committed_layers. by rewrite (getTrie_1 (setState o j v) o). Qed.

Lemma committed_flags s o x y k : committed s (obj_set_flags o x y) k = committed s o k.
Proof. rewrite !committed_layers. by rewrite (getTrie_1 (obj_set_flags o x y) o). Qed.

Lemma eff_code_layers o :
  eff_code o = match code o with
               | Some c => Some c
               | None => if decide (CodeHash (data o) = emptyCodeHash) then None
                         else read_code (hash_address (address o)) (CodeHash (data o))
               end.
Proof. unfold eff_code, obj_Code. by repeat case_match. Qed.

Lemma state_of_setState s o j v k :
  fakeStorage o = None -> state_of s (setState o j v) k = if decide (k = j) then v else state_of s o k.
Proof.
  intros Hf. rewrite !state_committed. cbn. rewrite Hf. destruct (decide (k = j)) as [->|].
  - by rewrite lookup_insert_eq.
  - by rewrite lookup_insert_ne, committed_setState.
Qed.

Definition respects (f : stateObject -> stateObject) : Prop :=
  forall s s' o o', obj_eqv s s' o o' -> obj_eqv s s' (f o) (f o').

Lemma setBalance_respects v : respects (fun o => setBalance o v).
Proof.
  intros s s' o o' [Ha Hd Hs Hl Hf Hc Hk Hst]. split; try done.
  - cbn. by rewrite Hd.
  - rewrite !eff_code_layers in *. done.
  - intros k. by rewrite !committed_setBalance.
  - intros k. specialize (Hst k). rewrite !state_committed, !committed_setBalance in *. done.
Qed.

Lemma setNonce_respects v : respects (fun o => setNonce o v).
Proof.
  intros s s' o o' [Ha Hd Hs Hl Hf Hc Hk Hst]. split; try done.
  - cbn. by rewrite Hd.
  - rewrite !eff_code_layers in *. done.
  - intros k. by rewrite !committed_setNonce.
  - intros k. specialize (Hst k). rewrite !state_committed, !committed_setNonce in *. done.
Qed.

Lemma setCode_respects h c : respects (fun o => setCode o h c).
Proof.
  intros s s' o o' [Ha Hd Hs Hl Hf Hc Hk Hst]. split; try done.
  - cbn. by rewrite Hd.
  - rewrite !eff_code_layers. cbn. by rewrite Ha.
  - intros k. by rewrite !committed_setCode.
  - intros k. specialize (Hst k). rewrite !state_committed, !committed_setCode in *. done.
Qed.

Lemma setFlags_respects x : respects (fun o => obj_set_flags o x (deleted o)).
Proof.
  intros s s' o o' [Ha Hd Hs Hl Hf Hc Hk Hst]. split; try done.
  - rewrite !eff_code_layers in *. done.
  - intros k. by rewrite !committed_flags.
  - intros k. specialize (Hst k). rewrite !state_committed, !committed_flags in *. done.
Qed.

Lemma setState_respects j v : respects (fun o => setState o j v).
Proof.
  intros s s' o o' [Ha Hd Hs Hl Hf Hc Hk Hst]. split; try done.
  - rewrite !eff_code_layers in *. done.
  - intros k. by rewrite !committed_setState.
  - intros k. destruct (fakeStorage o) eqn:E.
    + rewrite !state_committed. cbn. by rewrite <- Hf, E.
    + rewrite !state_of_setState by congruence. by rewrite Hst.
Qed.

Lemma objects_frame s s' t t' a :
  snap s = snap t -> snap s' = snap t' -> snapDestructs s = snapDestructs t -> snapDestructs s' = snapDestructs t' ->
  look s a = look t a -> look s' a = look t' a ->
  option_Forall2 (obj_eqv s s') (look s a) (look s' a) -> option_Forall2 (obj_eqv t t') (look t a) (look t' a).
Proof.
  intros H1 H2 H3 H4 <- <- [o o' Ho|]; constructor. eapply obj_eqv_view; [done..| | |done]; by rewrite ?H3, ?H4.
Qed.

(** Equivalence after the same change of another field. *)
Ltac eqv_frame H :=
  split; try done; try (by apply H);
  let a := fresh "a" in intros a; eapply objects_frame; [..|exact (eqv_objects _ _ H a)]; done.

Lemma set_refund_eqv s s' x : s ≈ s' -> set_refund s x ≈ set_refund s' x.
Proof. intros H. eqv_frame H. Qed.

Lemma set_logs_eqv s s' x n : s ≈ s' -> set_logs s x n ≈ set_logs s' x n.
Proof. intros H. eqv_frame H. Qed.

Lemma set_preimages_eqv s s' x : s ≈ s' -> set_preimages s x ≈ set_preimages s' x.
Proof. intros H. eqv_frame H. Qed.

Lemma set_access_eqv s s' x : s ≈ s' -> set_access s x ≈ set_access s' x.
Proof. intros H. eqv_frame H. Qed.

Lemma journal_clean_entries j e : entries (journal_clean j e) = entries j.
Proof. unfold journal_clean. by destruct (dirtied e). Qed.

Lemma journal_clean_dirties j j' e a :
  (forall b, b <> ripemd -> dirties j !! b = dirties j' !! b) -> a <> ripemd ->
  dirties (journal_clean j e) !! a = dirties (journal_clean j' e) !! a.
Proof.
  intros H Ha. unfold journal_clean. destruct (dirtied e) as [b|]; [|by apply H]. cbn.
  destruct (decide (a = b)) as [->|Hne].
  - rewrite (H b Ha). case_decide; [by rewrite !lookup_delete_eq|by rewrite !lookup_insert_eq].
  - destruct (decide _), (decide _); rewrite ?lookup_delete_ne, ?lookup_insert_ne by done; by apply H.
Qed.

Definition cleaned s e : StateDB := set_journal s (journal_clean (jrnl s) e).

Lemma cleaned_eqv s s' e : s ≈ s' -> cleaned s e ≈ cleaned s' e.
Proof.
  intros H. split; try done; try (by apply H).
  - intros a. eapply objects_frame; [..|exact (eqv_objects _ _ H a)]; done.
  - intros a Ha. apply journal_clean_dirties; [apply H|done].
Qed.

Lemma set_marks_eqv s s' p d : s ≈ s' -> set_marks s p d ≈ set_marks s' p d.
Proof. intros H. eqv_frame H. Qed.

Lemma look_delete s a b :
  look (set_objects s (base.delete a (stateObjects s))) b = if decide (b = a) then loaded s a else look s b.
Proof.
  unfold look. cbn. destruct (decide (b = a)) as [->|]; [by rewrite lookup_delete_eq|by rewrite lookup_delete_ne].
Qed.

Lemma loaded_eqv s s' a : s ≈ s' -> option_Forall2 (obj_eqv s s') (loaded s a) (loaded s' a).
Proof.
  intros H. rewrite (loaded_snap s s') by apply H. destruct (loaded s' a); constructor.
  eapply (obj_eqv_view s s s s'); [done|apply H|done|by rewrite (eqv_destructs _ _ H)|apply obj_eqv_refl].
Qed.

Lemma delete_object_eqv s s' a :
  s ≈ s' -> set_objects s (base.delete a (stateObjects s)) ≈ set_objects s' (base.delete a (stateObjects s')).
Proof.
  intros H. split; try done; try (by apply H). intros b. rewrite !look_delete. case_decide.
  - destruct (loaded_eqv s s' a H) as [o o' Ho|]; constructor. by eapply obj_eqv_view; [..|exact Ho].
  - destruct (eqv_objects _ _ H b) as [o o' Ho|]; constructor. by eapply obj_eqv_view; [..|exact Ho].
Qed.

(** The destructed accounts may change at the address of an object that is
    overwritten at the same time: no other object has the same hash. *)
Lemma reset_eqv s s' p D :
  s ≈ s' -> (forall h, h <> hash_address (address p) -> h ∈ D <-> h ∈ snapDestructs s) ->
  (forall a o, look s a = Some o -> address o = a) ->
  set_destructs (setStateObject s p) D ≈ set_destructs (setStateObject s' p) D.
Proof.
  intros H HD Wa. pose proof (eqv_destructs _ _ H) as Ed. split; try done; try (by apply H).
  intros a. change (option_Forall2 (obj_eqv (set_destructs (setStateObject s p) D) (set_destructs (setStateObject s' p) D))
                      (look (setStateObject s p) a) (look (setStateObject s' p) a)).
  destruct (decide (a = address p)) as [->|Hne].
  - rewrite !look_set_eq by done. constructor.
    eapply (obj_eqv_view (set_destructs s D) _ (set_destructs s D) _); [done|apply H|done..|apply obj_eqv_refl].
  - rewrite !look_set_ne by done. pose proof (Wa a) as Wb. pose proof (eqv_objects _ _ H a) as Ha.
    destruct (look s a) as [o|]; inversion Ha as [? o' Ho|]; subst; constructor.
    eapply obj_eqv_view; [..|exact Ho]; [done|done| |]; cbn; rewrite HD, ?Ed; try done;
      rewrite (Wb _ eq_refl); intros ?%hash_address_inj; done.
Qed.

Definition addressed s : Prop := forall a o, look s a = Some o -> address o = a.

Lemma addressed_set s o : addressed s -> addressed (setStateObject s o).
Proof. intros H a p. rewrite look_set. case_decide; [by intros [= <-]|apply H]. Qed.

Lemma addressed_delete s a : addressed s -> addressed (set_objects s (base.delete a (stateObjects s))).
Proof.
  intros H b p. rewrite look_delete. case_decide as E; [subst b|apply H]. intros Hl. by apply loaded_fields in Hl as [-> _].
Qed.

Lemma addressed_quiet s s' : addressed s -> quiet s s' -> addressed s'.
Proof.
  intros H Q a o Ho. pose proof (eqv_objects _ _ (quiet_eqv _ _ Q) a) as Hq. rewrite Ho in Hq.
  inversion Hq as [? p Hp|]; subst. rewrite (oe_address _ _ _ _ Hp). by apply H.
Qed.

(** [entry_revert] leaves the journal and the revisions alone. *)
Record keeps s t : Prop := {
  keeps_jrnl : jrnl t = jrnl s;
  keeps_revisions : validRevisions t = validRevisions s;
  keeps_next : nextRevisionId t = nextRevisionId s
}.

Lemma keeps_quiet s s' t : quiet s s' -> keeps s' t -> keeps s t.
Proof. intros [] []. split; congruence. Qed.

(** The two kinds of reverts of an account. *)
Lemma must_object_spec s a f :
  (exists o s1, live s a = Some o /\ must_object s a f = Ret (setStateObject s1 (f o)) /\ quiet s s1) \/
  (live s a = None /\ must_object s a f = Panic).
Proof.
  destruct (getStateObject_spec s a) as (s1 & E & Q & _). unfold must_object. rewrite E.
  destruct (live s a) as [o|]; [left; eauto|by right].
Qed.

Lemma setStateObject_after_quiet s s' s1 s1' o o' :
  s ≈ s' -> quiet s s1 -> quiet s' s1' -> obj_eqv s s' o o' -> setStateObject s1 o ≈ setStateObject s1' o'.
Proof.
  intros H [Q _ _ _] [Q' _ _ _] Ho. apply setStateObject_eqv; [by rewrite Q, H|].
  eapply obj_eqv_view; [..|exact Ho]; rewrite ?(eqv_destructs _ _ Q), ?(eqv_destructs _ _ Q'); try done;
    symmetry; by apply eqv_snap.
Qed.

(** What reverting the same entry from equivalent states gives. *)
Definition parallel s s' (r r' : outcome Empty_set StateDB) : Prop :=
  match r with
  | Ret t => exists t', r' = Ret t' /\ t ≈ t' /\ addressed t /\ keeps s t /\ keeps s' t'
  | _ => True
  end.

Lemma must_object_parallel s s' a f :
  s ≈ s' -> addressed s -> respects f -> parallel s s' (must_object s a f) (must_object s' a f).
Proof.
  intros H Ha Hf. pose proof (live_eqv s s' a H) as Hl.
  destruct (must_object_spec s a f) as [(o & s1 & E & -> & Q)|[_ ->]]; [|done]. rewrite E in Hl.
  inversion Hl as [? o' Ho E1 E'|]; subst.
  destruct (must_object_spec s' a f) as [(p & s1' & Ep & -> & Q')|[Ep _]]; [|congruence].
  rewrite <- E' in Ep. injection Ep as <-. exists (setStateObject s1' (f o')). split; [done|].
  split; [eapply setStateObject_after_quiet; eauto|]. split; [eapply addressed_set, addressed_quiet; eauto|].
  split; (eapply keeps_quiet; [eassumption|by split]).
Qed.

Lemma Ret_parallel s s' t t' : t ≈ t' -> addressed t -> keeps s t -> keeps s' t' -> parallel s s' (Ret t) (Ret t').
Proof. intros. cbn. eauto 10. Qed.

Lemma suicide_parallel s s' a prev bal :
  s ≈ s' -> addressed s ->
  parallel s s' (entry_revert s (suicideChange a prev bal)) (entry_revert s' (suicideChange a prev bal)).
Proof.
  intros H Ha. pose proof (live_eqv s s' a H) as Hl. cbn [entry_revert].
  destruct (getStateObject_spec s a) as (s1 & -> & Q & _), (getStateObject_spec s' a) as (s1' & -> & Q' & _).
  assert (K : forall t, keeps t t) by by split.
  destruct Hl as [o o' Ho|]; apply Ret_parallel.
  - eapply setStateObject_after_quiet; eauto. by apply setBalance_respects, setFlags_respects.
  - eapply addressed_set, addressed_quiet; eauto.
  - by eapply keeps_quiet; [|split].
  - by eapply keeps_quiet; [|split].
  - by rewrite (quiet_eqv _ _ Q), H, (quiet_eqv _ _ Q').
  - by eapply addressed_quiet.
  - by eapply keeps_quiet.
  - by eapply keeps_quiet.
Qed.

Lemma reset_parallel s s' p pd :
  s ≈ s' -> addressed s ->
  parallel s s' (entry_revert s (resetObjectChange p pd)) (entry_revert s' (resetObjectChange p pd)).
Proof.
  intros H Ha. cbn [entry_revert]. cbn [snap setStateObject set_objects snapDestructs].
  rewrite <- (eqv_snap _ _ H), <- (eqv_destructs _ _ H).
  destruct (negb pd && snap s); apply Ret_parallel; try by split.
  - apply reset_eqv; [done| |done]. set_solver.
  - apply (addressed_set s p Ha).
  - apply setStateObject_eqv; [done|].
    eapply (obj_eqv_view s s s s'); [done|apply H|done|by rewrite (eqv_destructs _ _ H)|apply obj_eqv_refl].
  - by apply addressed_set.
Qed.

Lemma entry_revert_parallel s s' e :
  s ≈ s' -> addressed s -> parallel s s' (entry_revert s e) (entry_revert s' e).
Proof.
  intros H Ha. destruct e.
  - cbn [entry_revert]. rewrite <- (eqv_pending _ _ H), <- (eqv_dirty _ _ H).
    apply Ret_parallel; [by apply set_marks_eqv, delete_object_eqv| |by split..]. apply (addressed_delete s account Ha).
  - by apply reset_parallel.
  - by apply suicide_parallel.
  - by apply must_object_parallel; [..|apply setBalance_respects].
  - by apply must_object_parallel; [..|apply setNonce_respects].
  - by apply must_object_parallel; [..|apply setState_respects].
  - by apply must_object_parallel; [..|apply setCode_respects].
  - apply Ret_parallel; [by apply set_refund_eqv|done|by split..].
  - cbn [entry_revert]. rewrite <- (eqv_logs _ _ H), <- (eqv_logSize _ _ H).
    destruct (default [] _) as [|? [|? ?]]; [done|..];
      (apply Ret_parallel; [by apply set_logs_eqv|done|by split..]).
  - cbn [entry_revert]. rewrite <- (eqv_preimages _ _ H).
    apply Ret_parallel; [by apply set_preimages_eqv|done|by split..].
  - by apply Ret_parallel.
  - cbn [entry_revert]. rewrite <- (eqv_access _ _ H).
    apply Ret_parallel; [by apply set_access_eqv|done|by split..].
  - cbn [entry_revert]. rewrite <- (eqv_access _ _ H). destruct (DeleteSlot _ _ _); [|done|done].
    apply Ret_parallel; [by apply set_access_eqv|done|by split..].
Qed.

(** ** Undoing several entries *)

Lemma revert_entries_cons s e es :
  revert_entries s (e :: es) = (t ← entry_revert s e; revert_entries (cleaned t e) es).
Proof. done. Qed.

Lemma revert_entries_app s es es' :
  revert_entries s (es ++ es') = (t ← revert_entries s es; revert_entries t es').
Proof.
  revert s. induction es as [|e es IH]; intros s; [done|]. cbn [app]. rewrite !revert_entries_cons.
  destruct (entry_revert s e) as [t| |]; cbn [mbind outcome_bind]; [apply IH|done..].
Qed.

Lemma revert_entries_parallel s s' es t :
  s ≈ s' -> addressed s -> revert_entries s es = Ret t ->
  exists t', revert_entries s' es = Ret t' /\ t ≈ t' /\
    entries (jrnl t') = entries (jrnl s') /\ validRevisions t' = validRevisions s' /\ nextRevisionId t' = nextRevisionId s'.
Proof.
  revert s s'. induction es as [|e es IH]; intros s s' H Ha Hr.
  - injection Hr as <-. exists s'. done.
  - rewrite revert_entries_cons in *. pose proof (entry_revert_parallel s s' e H Ha) as P.
    destruct (entry_revert s e) as [u| |]; cbn [mbind outcome_bind] in Hr; [|done..].
    destruct P as (u' & -> & Hu & Hau & _ & K). cbn [mbind outcome_bind].
    destruct (IH (cleaned u e) (cleaned u' e)) as (t' & Ht' & Het & He & Hv & Hn); [by apply cleaned_eqv|done..|].
    exists t'. destruct K as [Kj Kr Kn]. rewrite He, Hv, Hn. cbn. rewrite journal_clean_entries, Kj. done.
Qed.

Lemma wf_addressed s : wf s -> addressed s.
Proof. intros W a o Ho. by apply (wf_obj _ W) in Ho as [? _]. Qed.

Lemma undoable_eqv s s1 s1' :
  wf s1 -> s1 ≈ s1' -> entries (jrnl s1') = entries (jrnl s1) -> undoable s s1 -> undoable s s1'.
Proof.
  intros W H E (es & E1 & t1 & R1 & Q1). exists es. split; [congruence|].
  destruct (revert_entries_parallel s1 s1' (rev es) t1) as (t & -> & Ht & _); [done|by apply wf_addressed|done|].
  exists t. split; [done|]. by rewrite <- Ht.
Qed.

Lemma undoable_trans s s1 s2 : wf s1 -> undoable s s1 -> undoable s1 s2 -> undoable s s2.
Proof.
  intros W1 (es1 & E1 & t1 & R1 & Q1) (es2 & E2 & t2 & R2 & Q2).
  exists (es1 ++ es2). rewrite E2, E1, app_assoc. split; [done|].
  rewrite rev_app_distr, revert_entries_app, R2. cbn [mbind outcome_bind].
  destruct (revert_entries_parallel s1 t2 (rev es1) t1) as (t & -> & Ht & _); [by symmetry|by apply wf_addressed|done|].
  exists t. split; [done|]. by rewrite <- Ht.
Qed.

Lemma op_trans s s1 s2 : wf s -> op s s1 -> op s1 s2 -> op s s2.
Proof.
  intros W [W1 U1 V1 N1] [W2 U2 V2 N2]. split; [done|by apply (undoable_trans s s1)|congruence..].
Qed.

(** ** Every operation can be undone *)

Lemma entries_append j e : entries (journal_append j e) = entries j ++ [e].
Proof. unfold journal_append. by destruct (dirtied e). Qed.

Lemma dirties_append j e a :
  dirties (journal_append j e) !! a =
    if decide (dirtied e = Some a) then Some (default 0 (dirties j !! a) + 1) else dirties j !! a.
Proof.
  unfold journal_append. destruct (dirtied e) as [b|]; cbn; [|by rewrite decide_False].
  destruct (decide (Some b = Some a)) as [[= ->]|]; [by rewrite lookup_insert_eq|].
  rewrite lookup_insert_ne; congruence.
Qed.

Lemma clean_append s e a :
  wf s -> a <> ripemd -> dirties (journal_clean (journal_append (jrnl s) e) e) !! a = dirties (jrnl s) !! a.
Proof.
  intros W Ha. pose proof (dirties_append (jrnl s) e) as D. unfold journal_clean.
  destruct (dirtied e) as [b|] eqn:E; cbn; [|by rewrite D, decide_False].
  destruct (decide (a = b)) as [->|Hne].
  - specialize (D b). rewrite decide_True in D by done. rewrite D. destruct (dirties (jrnl s) !! b) as [n|] eqn:En.
    + pose proof (tl_pos _ (wf_tallied _ W) b n En). rewrite decide_False by (cbn; lia). rewrite lookup_insert_eq. f_equal. cbn. lia.
    + rewrite decide_True by done. by rewrite lookup_delete_eq.
  - case_decide; rewrite ?lookup_delete_ne, ?lookup_insert_ne, D, decide_False by congruence; done.
Qed.

Lemma marks_of_app es es' a : marks_of (es ++ es') a = marks_of es a + marks_of es' a.
Proof. unfold marks_of. by rewrite list.filter_app, zlen_app. Qed.

Lemma marks_of_one e a : marks_of [e] a = if decide (dirtied e = Some a) then 1 else 0.
Proof. unfold marks_of. rewrite list.filter_cons, list.filter_nil. by case_decide. Qed.

Lemma marks_of_nonneg es a : 0 <= marks_of es a.
Proof. apply zlen_nonneg. Qed.

Lemma tallied_append j e : tallied j -> tallied (journal_append j e).
Proof.
  intros [T1 T2]. split.
  - intros a n. rewrite dirties_append. case_decide; [|apply T1]. intros [= <-].
    specialize (T2 a). pose proof (marks_of_nonneg (entries j) a). lia.
  - intros a. rewrite entries_append, marks_of_app, marks_of_one, dirties_append. specialize (T2 a). case_decide; cbn; lia.
Qed.

Lemma tallied_dirty j b : tallied j -> tallied (journal_dirty j b).
Proof.
  intros [T1 T2]. split; intros a; cbn; (destruct (decide (a = b)) as [->|]; [rewrite lookup_insert_eq|rewrite lookup_insert_ne by done; first [apply T1|apply T2]]).
  - intros n [= <-]. specialize (T2 b). pose proof (marks_of_nonneg (entries j) b). lia.
  - specialize (T2 b). cbn. lia.
Qed.

(** The counters after undoing the entry [e], the last of those that they count. *)
Lemma tally_clean j e es :
  (forall a n, dirties j !! a = Some n -> 0 < n) -> (forall a, marks_of (es ++ [e]) a <= default 0 (dirties j !! a)) ->
  (forall a n, dirties (journal_clean j e) !! a = Some n -> 0 < n) /\
  (forall a, marks_of es a <= default 0 (dirties (journal_clean j e) !! a)).
Proof.
  intros T1 T2. assert (T : forall a, marks_of es a + (if decide (dirtied e = Some a) then 1 else 0) <= default 0 (dirties j !! a)).
  { intros a. by rewrite <- marks_of_one, <- marks_of_app. }
  unfold journal_clean. destruct (dirtied e) as [b|] eqn:Eb.
  2: { split; [done|]. intros a. specialize (T a). rewrite decide_False in T by done. lia. }
  pose proof (T b) as Tb. rewrite decide_True in Tb by done. pose proof (marks_of_nonneg es b). cbn. split; intros a;
    (destruct (decide (a = b)) as [->|Hne]; [|specialize (T a); rewrite decide_False in T by congruence;
       case_decide; rewrite ?lookup_delete_ne, ?lookup_insert_ne by done; [apply T1 || lia..]]).
  - case_decide; [by rewrite lookup_delete_eq|]. rewrite lookup_insert_eq. intros n [= <-]. lia.
  - case_decide; [rewrite lookup_delete_eq|rewrite lookup_insert_eq]; cbn; lia.
Qed.

Lemma wf_append s e : wf s -> wf (append s e).
Proof. intros W. split; try apply W. apply tallied_append, W. Qed.

Lemma wf_set s o : wf s -> fakeStorage o = None -> wf (setStateObject s o).
Proof.
  intros W Hf. split; try apply W.
  - intros a p. rewrite look_set. case_decide; [by intros [= <-]|apply W].
  - intros a Ha. rewrite look_set. case_decide; [eauto|by apply W].
Qed.

Lemma op_entry s s' e :
  wf s' -> entries (jrnl s') = entries (jrnl s) ++ [e] -> validRevisions s' = validRevisions s ->
  nextRevisionId s' = nextRevisionId s -> (exists t, entry_revert s' e = Ret t /\ cleaned t e ≈ s) -> op s s'.
Proof.
  intros W Hj Hv Hn (t & Ht & He). split; [done| |done..]. exists [e]. split; [done|].
  cbn [rev app]. rewrite revert_entries_cons, Ht. exists (cleaned t e). done.
Qed.

Lemma getStateObject_live s a o : stateObjects s !! a = Some o -> deleted o = false -> getStateObject s a = (Some o, s).
Proof. intros E Hd. unfold getStateObject, getDeletedStateObject. by rewrite E, Hd. Qed.

Lemma must_object_live s a o f :
  stateObjects s !! a = Some o -> deleted o = false -> must_object s a f = Ret (setStateObject s (f o)).
Proof. intros. unfold must_object. by erewrite getStateObject_live. Qed.

Lemma look_live s a o : stateObjects s !! a = Some o -> look s a = Some o.
Proof. unfold look. by intros ->. Qed.

Lemma look_cleaned s e a : look (cleaned s e) a = look s a.
Proof. done. Qed.

Lemma look_append s e a : look (append s e) a = look s a.
Proof. done. Qed.

(** A journalled change [f] of a live object, undone by [g]. *)
Lemma obj_change s a o e f g :
  wf s -> stateObjects s !! a = Some o -> deleted o = false ->
  address (f o) = a -> deleted (f o) = false -> fakeStorage (f o) = None ->
  (forall t, stateObjects t !! a = Some (f o) -> entry_revert t e = Ret (setStateObject t (g (f o)))) ->
  obj_eqv s s (g (f o)) o -> op s (setStateObject (append s e) (f o)).
Proof.
  intros W Hl Hd Ha Hfd Hff Hr Hg. apply (op_entry _ _ e); [by apply wf_set, Hff; apply wf_append|apply entries_append|done..|].
  eexists. split; [apply Hr; cbn; by rewrite Ha, lookup_insert_eq|].
  pose proof (look_live _ _ _ Hl) as Hlook. destruct (wf_obj _ W a o Hlook) as [Hoa _].
  pose proof (oe_address _ _ _ _ Hg) as Hga. split; try done; [|intros; by apply clean_append].
  intros b. destruct (decide (b = address (g (f o)))) as [->|].
  - rewrite look_cleaned, look_set_eq, Hga, Hoa, Hlook by done. constructor. by apply obj_eqv_frame.
  - apply look_same_eqv; [done..|]. rewrite look_cleaned, !look_set_ne by congruence. apply look_append.
Qed.

Lemma set_twice s e o1 o2 :
  address o1 = address o2 -> setStateObject (append (setStateObject s o1) e) o2 = setStateObject (append s e) o2.
Proof.
  intros E. unfold setStateObject, append, set_objects, set_journal. cbn. by rewrite E, insert_insert_eq.
Qed.

(** The same when the caches of the object were filled first. *)
Lemma obj_change_cached s a o o1 e f g :
  wf s -> stateObjects s !! a = Some o -> deleted o = false -> obj_eqv s s o1 o ->
  address (f o1) = a -> deleted (f o1) = false -> fakeStorage (f o1) = None ->
  (forall t, stateObjects t !! a = Some (f o1) -> entry_revert t e = Ret (setStateObject t (g (f o1)))) ->
  obj_eqv s s (g (f o1)) o1 -> op s (setStateObject (append s e) (f o1)).
Proof.
  intros W Hl Hd H1 Ha Hfd Hff Hr Hg. pose proof (look_live _ _ _ Hl) as Hlook.
  destruct (wf_obj _ W a o Hlook) as [Hoa Hof]. destruct H1 as [E1 E2 E3 E4 E5 E6 E7 E8].
  assert (Q : op s (setStateObject s o1)).
  { apply quiet_op; [done|]. by apply (setStateObject_quiet _ o); [by rewrite Hoa|]. }
  eapply op_trans; [done|exact Q|]. rewrite <- (set_twice s e o1) by congruence.
  apply (obj_change _ a o1 e f g); try done; [apply Q|by cbn; rewrite E1, Hoa, lookup_insert_eq|congruence|].
  by eapply obj_eqv_view; [..|exact Hg].
Qed.

(** *** The operations of an account *)

Lemma op_refl s : wf s -> op s s.
Proof. intros. by apply quiet_op. Qed.

Section Objects.
Context (s : StateDB) (a : Z) (o : stateObject).
Context (W : wf s) (Hl : stateObjects s !! a = Some o) (Hd : deleted o = false).

Lemma live_fields : address o = a /\ fakeStorage o = None.
Proof. apply (wf_obj _ W). by apply look_live. Qed.

Lemma SetBalance_op v : op s (obj_SetBalance s o v).
Proof.
  destruct live_fields as [Ha Hf]. unfold obj_SetBalance. rewrite Ha.
  apply (obj_change s a o _ (fun o => setBalance o v) (fun p => setBalance p (Balance (data o)))); try done.
  - intros t Ht. by apply (must_object_live t a _ (fun p => setBalance p (Balance (data o)))).
  - replace (setBalance _ _) with o; [apply obj_eqv_refl|]. by destruct o as [? [] ? ? ? ? ? ? ? ? ? ?].
Qed.

Lemma SetNonce_op v : op s (obj_SetNonce s o v).
Proof.
  destruct live_fields as [Ha Hf]. unfold obj_SetNonce. rewrite Ha.
  apply (obj_change s a o _ (fun o => setNonce o v) (fun p => setNonce p (Nonce (data o)))); try done.
  - intros t Ht. by apply (must_object_live t a _ (fun p => setNonce p (Nonce (data o)))).
  - replace (setNonce _ _) with o; [apply obj_eqv_refl|]. by destruct o as [? [] ? ? ? ? ? ? ? ? ? ?].
Qed.

Lemma Suicide_op :
  op s (setStateObject (append s (suicideChange a (suicided o) (Balance (data o)))) (setBalance (markSuicided o) 0)).
Proof.
  destruct live_fields as [Ha Hf].
  apply (obj_change s a o _ (fun o => setBalance (markSuicided o) 0)
           (fun p => setBalance (obj_set_flags p (suicided o) (deleted p)) (Balance (data o)))); try done.
  - intros t Ht. cbn [entry_revert]. by rewrite (getStateObject_live _ _ _ Ht).
  - replace (setBalance _ _) with o; [apply obj_eqv_refl|]. by destruct o as [? [] ? ? ? ? ? ? ? ? ? ?].
Qed.

Lemma SetCode_op h c : op s (obj_SetCode s o h c).
Proof.
  destruct live_fields as [Ha Hf]. unfold obj_SetCode. pose proof (Code_eqv s o) as H1.
  destruct (obj_Code o) as [pc o1] eqn:E. cbn in H1. assert (Epc : pc = eff_code o) by by unfold eff_code; rewrite E.
  pose proof H1 as [E1 E2 E3 E4 E5 E6 E7 E8]. rewrite E1, Ha.
  eapply (obj_change_cached s a o o1 _ (fun o => setCode o h (Some c)) (fun p => setCode p (CodeHash (data o1)) pc)); [done|done|done|exact H1|cbn; congruence..| |].
  - intros t Ht. apply (must_object_live t a _ (fun p => setCode p (CodeHash (data o1)) pc) Ht). cbn. congruence.
  - split; try done.
    + by destruct o1 as [? [] ? ? ? ? ? ? ? ? ? ?].
    + rewrite Epc, <- E6, (eff_code_layers o1), eff_code_layers. cbn. by repeat case_match.
    + intros k. by rewrite !committed_setCode.
    + intros k. rewrite !state_committed, !committed_setCode. done.
Qed.

Lemma SetState_op k v : op s (obj_SetState s o k v).
Proof.
  destruct live_fields as [Ha Hf]. unfold obj_SetState. rewrite Hf. pose proof (GetState_eqv s o k) as H1.
  destruct (obj_GetState s o k) as [pv o1] eqn:E. cbn in H1.
  assert (Epv : pv = state_of s o k) by by unfold state_of; rewrite E.
  pose proof H1 as [E1 E2 E3 E4 E5 E6 E7 E8]. rewrite E1, Ha. case_decide.
  { apply quiet_op; [done|]. apply (setStateObject_quiet _ o); [|done]. rewrite Ha. by apply look_live. }
  eapply (obj_change_cached s a o o1 _ (fun o => setState o k v) (fun p => setState p k pv)); [done|done|done|exact H1|cbn; congruence..| |].
  - intros t Ht. apply (must_object_live t a _ (fun p => setState p k pv) Ht). cbn. congruence.
  - split; try done.
    + by rewrite !eff_code_layers.
    + intros j. by rewrite !committed_setState.
    + intros j. rewrite !state_of_setState by (cbn; congruence). case_decide; [|done]. subst. by rewrite E8.
Qed.

Lemma touch_op : op s (touch s o).
Proof.
  destruct live_fields as [Ha _]. unfold touch. rewrite Ha. pose proof (wf_append s (touchChange a) W) as W1.
  destruct (decide (a = ripemd)) as [Er|Hne]; (apply (op_entry _ _ (touchChange a));
    [|by rewrite <- entries_append|done..|eexists; split; [done|]]); [| |done|].
  - split; try apply W1. apply (tallied_dirty (journal_append (jrnl s) (touchChange a)) a), W1.
  - split; try done; [intros b; by apply look_same_eqv|]. intros b Hb. cbn.
    case_decide; rewrite ?lookup_delete_ne, !lookup_insert_ne by congruence; done.
  - split; try done; [intros b; by apply look_same_eqv|]. intros b Hb. by apply clean_append.
Qed.

Lemma AddBalance_op v : op s (obj_AddBalance s o v).
Proof.
  unfold obj_AddBalance. case_decide; [|apply SetBalance_op]. destruct (empty o); [apply touch_op|by apply op_refl].
Qed.

Lemma SubBalance_op v : op s (obj_SubBalance s o v).
Proof. unfold obj_SubBalance. case_decide; [by apply op_refl|apply SetBalance_op]. Qed.

End Objects.

(** *** Creating an account *)

Definition freshObject (a : Z) : stateObject := setNonce (newObject a 0 None 0 None) 0.

Lemma createObject_new s a :
  wf s -> look s a = None ->
  op s (setStateObject (append s (createObjectChange a)) (freshObject a)).
Proof.
  intros W Hl. apply (op_entry _ _ (createObjectChange a)); [|apply entries_append|done..|].
  { apply wf_set; [by apply wf_append|done]. }
  eexists. split; [done|]. unfold look in Hl. destruct (stateObjects s !! a) eqn:E; [done|].
  split; try done.
  - intros b. apply look_same_eqv; [done..|]. unfold look. cbn. rewrite delete_insert_id by done. done.
  - cbn. enough (a ∉ stateObjectsDirty s) by set_solver. intros Ha. apply (wf_marks _ W) in Ha as [p Hp].
    unfold look in Hp. by rewrite E, Hl in Hp.
  - intros b Hb. by apply clean_append.
Qed.

(** The account [p] is replaced by [n]; [D] and [pd] are what [createObject] makes of
    the destructed accounts. *)
Lemma createObject_reset s a p n D pd :
  wf s -> look s a = Some p -> address n = a -> fakeStorage n = None ->
  (if snap s then D = {[ hash_address a ]} ∪ snapDestructs s /\ pd = bool_decide (hash_address a ∈ snapDestructs s)
   else D = snapDestructs s /\ pd = false) ->
  op s (setStateObject (append (set_destructs s D) (resetObjectChange p pd)) n).
Proof.
  intros W Hl Hna Hnf HD. destruct (wf_obj _ W a p Hl) as [Ha Hf].
  apply (op_entry s _ (resetObjectChange p pd)); [|apply entries_append|done..|eexists; split; [done|]].
  { apply wf_set; [|done]. apply wf_append. split; apply W. }
  cbn [snap setStateObject set_objects append set_journal set_destructs snapDestructs].
  assert (E : forall D', D' = snapDestructs s ->
    cleaned (set_destructs (setStateObject (setStateObject (append (set_destructs s D) (resetObjectChange p pd))
      n) p) D') (resetObjectChange p pd) ≈ s).
  { intros D' ->. split; try done.
    intros b. apply look_same_eqv; [done..|]. destruct (decide (b = a)) as [->|].
    - rewrite Hl, <- Ha. unfold look. cbn. by rewrite lookup_insert_eq.
    - unfold look. cbn. by rewrite !lookup_insert_ne by congruence. }
  destruct (snap s); destruct HD as [-> ->]; [|rewrite andb_false_r; by apply E].
  case_bool_decide as Hin; cbn [negb andb]; [|rewrite Ha; apply E; set_solver].
  apply (E ({[ hash_address a ]} ∪ snapDestructs s)). set_solver.
Qed.

Lemma quiet_wf s s' : wf s -> quiet s s' -> wf s'.
Proof. intros W Q. eapply wf_eqv; [symmetry; apply Q|rewrite (quiet_jrnl _ _ Q); apply W|exact W]. Qed.

Lemma look_quiet_None s s' a : quiet s s' -> look s a = None -> look s' a = None.
Proof.
  intros Q Hl. pose proof (eqv_objects _ _ (quiet_eqv _ _ Q) a) as H. rewrite Hl in H. by inversion H.
Qed.

Lemma set_set s o o' : address o = address o' -> setStateObject (setStateObject s o) o' = setStateObject s o'.
Proof. intros E. unfold setStateObject, set_objects. cbn. by rewrite E, insert_insert_eq. Qed.

(** [createObject] and what the caller may do to the new object at once. *)
Lemma createObject_spec s a :
  wf s -> exists s', createObject s a = (freshObject a, live s a, s') /\ op s s' /\
    stateObjects s' !! a = Some (freshObject a) /\
    forall n, is_Some (live s a) -> address n = a -> fakeStorage n = None -> op s (setStateObject s' n).
Proof.
  intros W. destruct (getDeleted_spec s a) as (s1 & E & Q & Hs1). pose proof (quiet_wf _ _ W Q) as W1.
  pose proof (quiet_op _ _ W Q) as O1. unfold createObject. rewrite E. unfold live.
  destruct (look s a) as [p|] eqn:Hl.
  - pose proof (look_live _ _ _ Hs1) as Hl1. destruct (wf_obj _ W a p Hl) as [Ha _].
    set (s2 := if snap s1 then _ else _). set (pd := if snap s1 then _ else _).
    assert (Hs2 : s2 = set_destructs s1 (snapDestructs s2)) by (unfold s2; destruct (snap s1); by destruct s1).
    assert (HD : if snap s1 then snapDestructs s2 = {[ hash_address a ]} ∪ snapDestructs s1 /\
                   pd = bool_decide (hash_address a ∈ snapDestructs s1)
                 else snapDestructs s2 = snapDestructs s1 /\ pd = false)
      by (unfold s2, pd; rewrite Ha; by destruct (snap s1)).
    assert (R : forall n, address n = a -> fakeStorage n = None ->
      op s (setStateObject (append s2 (resetObjectChange p pd)) n)).
    { intros n Hn Hf. rewrite Hs2. apply (op_trans s s1); [done..|]. by apply (createObject_reset s1 a p n). }
    eexists. split; [done|]. split; [by apply R|]. split; [by cbn; rewrite lookup_insert_eq|].
    intros n _ Hn Hf. rewrite set_set by (by rewrite Hn). by apply R.
  - eexists. split; [done|]. split.
    + eapply op_trans; [done..|]. apply createObject_new; [done|]. by apply (look_quiet_None s).
    + split; [by cbn; rewrite lookup_insert_eq|]. by intros n [? ?].
Qed.

Lemma GetOrNewStateObject_spec s a :
  wf s -> exists o s', GetOrNewStateObject s a = (o, s') /\ op s s' /\ wf s' /\
    stateObjects s' !! a = Some o /\ deleted o = false.
Proof.
  intros W. unfold GetOrNewStateObject. destruct (getStateObject_spec s a) as (s1 & -> & Q & Hs1).
  pose proof (quiet_op _ _ W Q) as O1. pose proof (quiet_wf _ _ W Q) as W1. unfold live.
  destruct (look s a) as [o|]; [destruct (deleted o) eqn:Hd|]; [|by eauto 10|];
    destruct (createObject_spec s1 a W1) as (s2 & -> & O2 & H2 & _);
    (assert (O : op s s2) by (by eapply op_trans)); exists (freshObject a), s2; (split; [done|]);
    (split; [done|]); split; [apply O|done|apply O|done].
Qed.

Lemma with_object s a (f : StateDB -> stateObject -> StateDB) :
  wf s ->
  (forall t o, wf t -> stateObjects t !! a = Some o -> deleted o = false -> op t (f t o)) ->
  op s (let '(o, s) := GetOrNewStateObject s a in f s o).
Proof.
  intros W Hf. destruct (GetOrNewStateObject_spec s a W) as (o & s' & -> & O & W' & Hl & Hd).
  eapply op_trans; [done..|]. by apply Hf.
Qed.

(** ** The steps of a transaction *)

(** The calls of the interface that the virtual machine uses. *)
Inductive call :=
| CCreateAccount (a : Z)
| CAddBalance (a v : Z) | CSubBalance (a v : Z) | CSetBalance (a v : Z)
| CSetNonce (a v : Z)
| CSetCode (a : Z) (c : bytes)
| CSetState (a k v : Z)
| CSuicide (a : Z)
| CAddLog (log : Log)
| CAddPreimage (h : Z) (data : bytes)
| CAddRefund (gas : Z) | CSubRefund (gas : Z)
| CAddAddressToAccessList (a : Z) | CAddSlotToAccessList (a slot : Z)
| CExist (a : Z) | CEmpty (a : Z) | CHasSuicided (a : Z)
| CGetBalance (a : Z) | CGetNonce (a : Z) | CGetCodeHash (a : Z)
| CGetCode (a : Z) | CGetCodeSize (a : Z)
| CGetState (a k : Z) | CGetCommittedState (a k : Z)
| CSnapshot | CRevertToSnapshot (id : Z).

Definition exec s (c : call) : outcome Empty_set StateDB :=
  match c with
  | CCreateAccount a => Ret (CreateAccount s a)
  | CAddBalance a v => Ret (AddBalance s a v)
  | CSubBalance a v => Ret (SubBalance s a v)
  | CSetBalance a v => Ret (SetBalance s a v)
  | CSetNonce a v => Ret (SetNonce s a v)
  | CSetCode a c => Ret (SetCode s a c)
  | CSetState a k v => Ret (SetState s a k v)
  | CSuicide a => Ret (Suicide s a).2
  | CAddLog d => Ret (AddLog s d)
  | CAddPreimage h d => Ret (AddPreimage s h d)
  | CAddRefund g => Ret (AddRefund s g)
  | CSubRefund g => SubRefund s g
  | CAddAddressToAccessList a => Ret (AddAddressToAccessList s a)
  | CAddSlotToAccessList a k => AddSlotToAccessList s a k
  | CExist a => Ret (Exist s a).2
  | CEmpty a => Ret (Empty s a).2
  | CHasSuicided a => Ret (HasSuicided s a).2
  | CGetBalance a => Ret (GetBalance s a).2
  | CGetNonce a => Ret (GetNonce s a).2
  | CGetCodeHash a => Ret (GetCodeHash s a).2
  | CGetCode a => Ret (GetCode s a).2
  | CGetCodeSize a => Ret (GetCodeSize s a).2
  | CGetState a k => Ret (GetState s a k).2
  | CGetCommittedState a k => Ret (GetCommittedState s a k).2
  | CSnapshot => Ret (Snapshot s).2
  | CRevertToSnapshot id => RevertToSnapshot s id
  end.

Fixpoint execs s (cs : list call) : outcome Empty_set StateDB :=
  match cs with
  | [] => Ret s
  | c :: cs => s ← exec s c; execs s cs
  end.

(** *** Reads *)

Lemma read_op s a {A} (f : option stateObject -> A) :
  wf s -> op s (let '(so, s) := getStateObject s a in (f so, s)).2.
Proof. intros W. destruct (getStateObject_spec s a) as (s' & -> & Q & _). by apply quiet_op. Qed.

(** A read that fills the caches of the object is quiet. *)
Lemma read_object_quiet s a {A} (f : StateDB -> stateObject -> A * stateObject) (d : A) :
  wf s -> (forall t o, obj_eqv t t (f t o).2 o) ->
  quiet s (match getStateObject s a with
        | (Some o, s) => let '(v, o) := f s o in (v, setStateObject s o)
        | (None, s) => (d, s)
        end).2.
Proof.
  intros W Hf. destruct (getStateObject_spec s a) as (s' & -> & Q & Hl). unfold live.
  destruct (look s a) as [o|] eqn:E; [|done]. destruct (deleted o); [done|].
  transitivity s'; [done|]. specialize (Hf s' o). destruct (f s' o) as [v o1].
  apply (setStateObject_quiet _ o); [|done]. apply look_live in Hl. destruct (wf_obj _ W a o E) as [-> _]. done.
Qed.

Lemma read_object_op s a {A} (f : StateDB -> stateObject -> A * stateObject) (d : A) :
  wf s -> (forall t o, obj_eqv t t (f t o).2 o) ->
  op s (match getStateObject s a with
        | (Some o, s) => let '(v, o) := f s o in (v, setStateObject s o)
        | (None, s) => (d, s)
        end).2.
Proof. intros W Hf. apply quiet_op; [done|]. by apply read_object_quiet. Qed.

(** *** Changes outside the accounts *)

(** An entry that dirties no account and is undone exactly. *)
Lemma field_op s s' e :
  wf s' -> entries (jrnl s') = entries (jrnl s) ++ [e] -> validRevisions s' = validRevisions s ->
  nextRevisionId s' = nextRevisionId s -> dirtied e = None ->
  (exists t, entry_revert s' e = Ret t /\ t ≈ s) -> op s s'.
Proof.
  intros W He Hv Hn Hd (t & Ht & Hq). apply (op_entry _ _ e); [done..|]. exists t. split; [done|].
  unfold cleaned, journal_clean. rewrite Hd. by destruct t.
Qed.

Ltac frame_refl := split; try done; intros ?; by apply look_same_eqv.

Lemma revert_log s h l x :
  logs s !! h = Some (l ++ [x]) ->
  entry_revert s (addLogChange h) =
    Ret (set_logs s (if decide (l = []) then base.delete h (logs s) else <[h := l]> (logs s)) (u64 (logSize s - 1))).
Proof.
  intros E. cbn [entry_revert]. rewrite E. cbn [default]. destruct l as [|y l]; [done|].
  rewrite decide_False by done. replace (take _ _) with (y :: l).
  - cbn. by destruct (l ++ [x]) eqn:?; [destruct l|].
  - unfold id. rewrite length_app, Nat.add_sub. by rewrite take_app_length.
Qed.

Lemma AddLog_op s d : wf s -> op s (AddLog s d).
Proof.
  intros W. apply (field_op _ _ (addLogChange (thash s))); try done.
  - split; try apply W; cbn; [|apply u64_range|by apply (tallied_append (jrnl s) (addLogChange (thash s))), W].
    intros h l. intros [[_ <-]|[_ H]]%lookup_insert_Some; [by destruct (default [] _)|by apply W in H].
  - eexists. split; [eapply revert_log; cbn; by rewrite lookup_insert_eq|]. unfold AddLog.
    cbn [logSize logs thash set_logs append set_journal]. rewrite u64_succ_pred by apply W. rewrite delete_insert_eq, insert_insert_eq.
    destruct (logs s !! thash s) as [l|] eqn:El; cbn [default id].
    + pose proof (wf_logs _ W _ _ El). rewrite decide_False, (insert_id (logs s) (thash s) l) by done. frame_refl.
    + rewrite decide_True, delete_id by done. frame_refl.
Qed.

Lemma AddPreimage_op s h d : wf s -> op s (AddPreimage s h d).
Proof.
  intros W. unfold AddPreimage. destruct (preimages s !! h) eqn:E; [by apply op_refl|].
  apply (field_op _ _ (addPreimageChange h)); try done; [by split; apply (wf_append s (addPreimageChange h) W)|].
  eexists. split; [done|]. cbn [preimages set_preimages append set_journal]. 
  rewrite delete_insert_id by done. frame_refl.
Qed.

Lemma set_refund_op s x : wf s -> op s (set_refund (append s (refundChange (refund s))) x).
Proof.
  intros W. apply (field_op _ _ (refundChange (refund s))); try done; [by split; apply (wf_append s (refundChange (refund s)) W)|].
  eexists. split; [done|]. frame_refl.
Qed.

Lemma AddAddress_op s a :
  wf s -> addresses (access s) !! a = None ->
  op s (append (set_access s (AddAddress (access s) a).2) (accessListAddAccountChange a)).
Proof.
  intros W E. apply (field_op _ _ (accessListAddAccountChange a)); try done.
  - apply wf_append. split; try apply W. cbn. by apply AddAddress_ok, W.
  - eexists. split; [done|]. cbn [access append set_journal set_access]. 
    rewrite DeleteAddress_AddAddress by done. frame_refl.
Qed.

Lemma AddAddressToAccessList_op s a : wf s -> op s (AddAddressToAccessList s a).
Proof.
  intros W. pose proof (AddAddress_op s a W) as H. unfold AddAddressToAccessList.
  unfold AddAddress in *. destruct (addresses (access s) !! a); [|by apply H].
  replace (set_access s (access s)) with s by (by destruct s). by apply op_refl.
Qed.

Lemma AddSlot_false al a k ca al' : al_ok al -> AddSlot al a k = Ret (ca, false, al') -> ca = false /\ al' = al.
Proof.
  intros H E. destruct (AddSlot_cases al a k H) as [[_ E']|(i & m & _ & _ & _ & _ & E')]; rewrite E' in E; [done|].
  destruct (decide (k ∈ m)); by simplify_eq.
Qed.

Lemma AddSlot_true_None al a k al' :
  al_ok al -> AddSlot al a k = Ret (true, true, al') -> addresses al !! a = None.
Proof.
  intros H E. destruct (AddSlot_cases al a k H) as [[_ E']|(i & m & _ & _ & _ & _ & E')]; rewrite E' in E.
  - injection E as Hb _. by apply bool_decide_eq_true in Hb.
  - destruct (decide (k ∈ m)); by simplify_eq.
Qed.

Lemma AddSlotToAccessList_op s a k :
  wf s -> exists s', AddSlotToAccessList s a k = Ret s' /\ op s s'.
Proof.
  intros W. unfold AddSlotToAccessList. pose proof (wf_al _ W) as Hal.
  destruct (AddSlot_sets (access s) a k Hal) as (ca & cs & al' & E & Hal' & _). rewrite E. cbn [mbind outcome_bind].
  eexists. split; [done|]. destruct cs.
  - set (m := if ca then append (set_access s (AddAddress (access s) a).2) (accessListAddAccountChange a) else s).
    assert (Hm : op s m).
    { unfold m. destruct ca; [|by apply op_refl]. apply AddAddress_op; [done|]. by eapply AddSlot_true_None. }
    destruct (DeleteSlot_AddSlot _ _ _ _ _ Hal E) as (al1 & Ed & Hal1).
    apply (op_trans s m); [done..|]. apply (field_op _ _ (accessListAddSlotChange a k)).
    + apply wf_append. pose proof (op_wf _ _ Hm) as Wm. unfold m in Wm. destruct ca; split; try apply Wm; done.
    + unfold m. destruct ca; apply entries_append.
    + unfold m. by destruct ca.
    + unfold m. by destruct ca.
    + done.
    + exists (set_access (append m (accessListAddSlotChange a k)) al1). split.
      * cbn [entry_revert]. unfold m. by destruct ca; cbn [access append set_journal set_access]; rewrite Ed.
      * subst al1. unfold m. destruct ca; frame_refl.
  - destruct (AddSlot_false _ _ _ _ _ Hal E) as [-> ->].
    replace (set_access s (access s)) with s by (by destruct s). by apply op_refl.
Qed.

(** ** Every call is undone by the journal *)

Definition snapshotting (c : call) : bool :=
  match c with CSnapshot | CRevertToSnapshot _ => true | _ => false end.

Lemma CreateAccount_op s a : wf s -> op s (CreateAccount s a).
Proof.
  intros W. unfold CreateAccount. destruct (createObject_spec s a W) as (s' & -> & O & _ & Hn).
  destruct (live s a) as [p|]; [|done]. by apply Hn.
Qed.

Lemma Suicide_call_op s a : wf s -> op s (Suicide s a).2.
Proof.
  intros W. unfold Suicide. destruct (getStateObject_spec s a) as (s1 & -> & Q & Hl). unfold live.
  pose proof (quiet_op _ _ W Q) as O. destruct (look s a) as [o|]; [|done]. destruct (deleted o) eqn:Hd; [done|].
  apply (op_trans s s1); [done..|]. apply Suicide_op; [apply O|done..].
Qed.

(** A call that is not about snapshots panics only in [SubRefund], and what it
    did can be undone. *)
Lemma call_op s c :
  wf s -> snapshotting c = false ->
  match exec s c with
  | Ret s' => op s s'
  | _ => exists g, c = CSubRefund g /\ refund s < g
  end.
Proof.
  intros W Hc. destruct c; cbn [exec]; try done.
  - by apply CreateAccount_op.
  - apply (with_object s a (fun s o => obj_AddBalance s o v)); [done|]. intros. by eapply AddBalance_op.
  - apply (with_object s a (fun s o => obj_SubBalance s o v)); [done|]. intros. by eapply SubBalance_op.
  - apply (with_object s a (fun s o => obj_SetBalance s o v)); [done|]. intros. by eapply SetBalance_op.
  - apply (with_object s a (fun s o => obj_SetNonce s o v)); [done|]. intros. by eapply SetNonce_op.
  - apply (with_object s a (fun s o => obj_SetCode s o (hash_code c) c)); [done|]. intros. by eapply SetCode_op.
  - apply (with_object s a (fun s o => obj_SetState s o k v)); [done|]. intros. by eapply SetState_op.
  - by apply Suicide_call_op.
  - by apply AddLog_op.
  - by apply AddPreimage_op.
  - by apply (set_refund_op s (u64 (refund s + gas))).
  - unfold SubRefund. cbn. case_decide; [exists gas; split; [done|lia]|]. by apply (set_refund_op s (refund s - gas)).
  - by apply AddAddressToAccessList_op.
  - destruct (AddSlotToAccessList_op s a slot W) as (s' & -> & O). done.
  - by apply (read_op s a (fun so => bool_decide (is_Some so))).
  - by apply (read_op s a (fun so => match so with Some o => empty o | None => true end)).
  - by apply (read_op s a (fun so => match so with Some o => suicided o | None => false end)).
  - by apply (read_op s a (fun so => match so with Some o => Balance (data o) | None => 0 end)).
  - by apply (read_op s a (fun so => match so with Some o => Nonce (data o) | None => 0 end)).
  - by apply (read_op s a (fun so => match so with Some o => CodeHash (data o) | None => 0 end)).
  - apply (read_object_op s a (fun _ => obj_Code)); [done|]. intros. apply Code_eqv.
  - apply (read_object_op s a (fun _ => obj_CodeSize)); [done|]. intros. apply CodeSize_eqv.
  - apply (read_object_op s a (fun s o => obj_GetState s o k)); [done|]. intros. apply GetState_eqv.
  - apply (read_object_op s a (fun s o => obj_GetCommittedState s o k)); [done|]. intros. apply GetCommittedState_eqv.
Qed.

End Snapshots.
