(* ===== verification/StateDBSnapshots.v ===== *)
(** * Nested snapshots (core/state/statedb.go: Snapshot, RevertToSnapshot)

    A ghost stack keeps the state in which each valid revision was taken.  Every
    call of the interface preserves the relation between the stack and the state
    ([chain]), so a revert leads back to the saved state, whatever was done, taken
    and reverted in between. *)

From stdpp Require Import gmap.
From S2P Require Import Prelude Rlp Trie AccessList StateDB StateDBProofs.

Local Infix "≈" := eqv (at level 70).

(** ** Binary search *)

Lemma search_spec fuel f i j :
  i <= j -> j - i <= Z.of_nat fuel ->
  (forall x y, i <= x <= y -> y < j -> f x = true -> f y = true) ->
  let r := search fuel f i j in
  i <= r <= j /\ (forall x, i <= x < r -> f x = false) /\ (r < j -> f r = true).
Proof.
  revert i j. induction fuel as [|fuel IH]; intros i j Hij Hf Hm; cbn.
  { split; [lia|]. split; intros; lia. }
  destruct (decide (i < j)); [|split; [lia|split; intros; lia]].
  rewrite Z.shiftr_div_pow2 by lia. change (2 ^ 1) with 2. set (h := (i + j) / 2).
  assert (Hh : i <= h < j) by (unfold h; Z.to_euclidean_division_equations; lia).
  destruct (f h) eqn:Eh.
  - destruct (IH i h) as (H1 & H2 & H3); [lia..|intros; eapply Hm; eauto; lia|]. split; [lia|]. split; [done|].
    intros Hr. destruct (decide (search fuel f i h < h)) as [Hlt|]; [auto|].
    replace (search fuel f i h) with h by lia. done.
  - destruct (IH (h + 1) j) as (H1 & H2 & H3); [lia..|intros; eapply Hm; eauto; lia|]. split; [lia|]. split; [|done].
    intros x Hx. destruct (decide (x <= h)) as [Hle|]; [|apply H2; lia].
    destruct (f x) eqn:Ex; [|done]. rewrite <- Eh. symmetry. apply (Hm x h); [lia..|done].
Qed.

(** The first index of a sorted list with a value at least [v]. *)
Lemma Search_sorted (g : Z -> Z) n i v :
  (forall x y, 0 <= x < y -> y < n -> g x < g y) -> 0 <= i < n -> g i = v ->
  Search n (fun x => bool_decide (g x >= v)) = i.
Proof.
  intros Hs Hi Hv. unfold Search.
  destruct (search_spec (Z.to_nat n) (fun x => bool_decide (g x >= v)) 0 n) as (H1 & H2 & H3); [lia..| |].
  { intros x y Hxy Hy Hx. apply bool_decide_eq_true in Hx. apply bool_decide_eq_true.
    destruct (decide (x = y)) as [->|]; [done|]. pose proof (Hs x y). lia. }
  set (r := search _ _ _ _) in *. destruct (Z.lt_trichotomy r i) as [Hlt|[->|Hgt]]; [|done|].
  - specialize (H3 ltac:(lia)). apply bool_decide_eq_true in H3. pose proof (Hs r i). lia.
  - specialize (H2 i ltac:(lia)). apply bool_decide_eq_false in H2. lia.
Qed.

Section Nested.
Context {B : Backend} {L : BackendLaws B}.
Implicit Types (s g : StateDB) (st : list (revision * StateDB)).

(** ** The ghost stack, newest revision first *)

Fixpoint chain st s : Prop :=
  wf s /\ validRevisions s = rev (map fst st) /\
  match st with
  | [] => True
  | (r, g) :: st =>
      undoable g s /\ journalIndex r = zlen (entries (jrnl g)) /\ rev_id r < nextRevisionId s /\
      nextRevisionId g = rev_id r /\ chain st g
  end.

Lemma chain_wf st s : chain st s -> wf s.
Proof. by destruct st as [|[? ?] ?]; intros [? _]. Qed.

Lemma chain_revisions st s : chain st s -> validRevisions s = rev (map fst st).
Proof. by destruct st as [|[? ?] ?]; intros (_ & ? & _). Qed.

(** Extending the newest state. *)
Lemma chain_extend st s s' :
  chain st s -> wf s' -> undoable s s' -> validRevisions s' = validRevisions s ->
  nextRevisionId s <= nextRevisionId s' -> chain st s'.
Proof.
  intros C W U V N. destruct st as [|[r g] st].
  - destruct C as (_ & C & _). split; [done|]. split; [congruence|done].
  - destruct C as (Ws & C & Ug & J & I & G & C'). split; [done|]. split; [congruence|].
    split; [by apply (undoable_trans g s)|]. split; [done|]. split; [lia|done].
Qed.

Lemma chain_op st s s' : chain st s -> op s s' -> chain st s'.
Proof. intros C [W U V N]. eapply chain_extend; [done..|lia]. Qed.

Lemma chain_Snapshot st s :
  chain st s -> chain ((mk_revision (nextRevisionId s) (zlen (entries (jrnl s))), s) :: st) (Snapshot s).2.
Proof.
  intros C. pose proof (chain_wf _ _ C) as W. pose proof (chain_revisions _ _ C) as V. split; [|split; [|split]].
  - split; apply W.
  - cbn. by rewrite V.
  - exists []. split; [cbn; by rewrite app_nil_r|]. eexists. split; [done|]. split; try done.
    intros a. by apply look_same_eqv.
  - split; [done|]. split; [cbn; lia|done].
Qed.

(** Every saved state is undoable from the current one, and older. *)
Lemma chain_saved pre r g st s :
  chain (pre ++ (r, g) :: st) s ->
  undoable g s /\ journalIndex r = zlen (entries (jrnl g)) /\ rev_id r < nextRevisionId s /\
  nextRevisionId g = rev_id r /\ chain st g.
Proof.
  revert s. induction pre as [|[r1 g1] pre IH]; intros s C; [by destruct C as (_ & _ & C)|].
  destruct C as (W & _ & U & J & I & G & C). destruct (IH g1 C) as (U' & J' & I' & G' & C').
  split; [|split; [done|split; [lia|done]]]. apply (undoable_trans g g1); [by apply chain_wf in C|done..].
Qed.

(** The identifiers of the valid revisions increase. *)
Lemma chain_sorted st s (i j : nat) r r' :
  chain st s -> (i < j)%nat -> validRevisions s !! i = Some r -> validRevisions s !! j = Some r' -> rev_id r < rev_id r'.
Proof.
  revert s. induction st as [|[r1 g] st IH]; intros s C Hij Hi Hj; rewrite (chain_revisions _ _ C) in *; [done|].
  destruct C as (W & _ & U & J & I & G & C). cbn in Hi, Hj. pose proof (chain_revisions _ _ C) as V.
  apply lookup_app_Some in Hj as [Hj|[Hle Hj]].
  - rewrite lookup_app_l in Hi by (apply lookup_lt_Some in Hj; lia). rewrite <- V in Hi, Hj. by eapply IH.
  - apply list_lookup_singleton_Some in Hj as [Hj <-]. rewrite lookup_app_l in Hi by lia. rewrite <- V in Hi.
    rewrite V in Hi. apply list_elem_of_lookup_2, list_elem_of_In, in_rev, in_map_iff in Hi as ([r2 g2] & <- & Hin). apply list_elem_of_In, list_elem_of_split in Hin as (l1 & l2 & ->).
    apply chain_saved in C as (_ & _ & Hlt & _). cbn. lia.
Qed.

(** A state equivalent to a saved one can take its place. *)
Lemma chain_of_saved g st s' :
  chain st g -> s' ≈ g -> entries (jrnl s') = entries (jrnl g) -> tallied (jrnl s') -> validRevisions s' = validRevisions g ->
  nextRevisionId g <= nextRevisionId s' -> chain st s'.
Proof.
  intros C Q E T V N. pose proof (chain_wf _ _ C) as Wg. symmetry in Q. pose proof (wf_eqv _ _ Q T Wg) as W'.
  destruct st as [|[r h] st].
  - destruct C as (_ & C & _). split; [done|]. split; [congruence|done].
  - destruct C as (_ & C & U & J & I & G & C'). split; [done|]. split; [congruence|].
    split; [by apply (undoable_eqv h g)|]. split; [done|]. split; [lia|done].
Qed.

Lemma valid_index pre r g st s :
  chain (pre ++ (r, g) :: st) s -> validRevisions s = rev (map fst st) ++ r :: rev (map fst pre).
Proof.
  intros C. rewrite (chain_revisions _ _ C). rewrite map_app, rev_app_distr. cbn. by rewrite <- app_assoc.
Qed.

(** Undoing entries takes them from the counters. *)
Lemma revert_entries_tally s es es' t :
  addressed s -> revert_entries s es = Ret t ->
  (forall a n, dirties (jrnl s) !! a = Some n -> 0 < n) ->
  (forall a, marks_of (es' ++ rev es) a <= default 0 (dirties (jrnl s) !! a)) ->
  (forall a n, dirties (jrnl t) !! a = Some n -> 0 < n) /\ (forall a, marks_of es' a <= default 0 (dirties (jrnl t) !! a)).
Proof.
  revert s. induction es as [|e es IH]; intros s Ha; [intros [= <-] H1 H2; rewrite app_nil_r in H2; done|].
  rewrite revert_entries_cons. pose proof (entry_revert_parallel s s e ltac:(done) Ha) as P. intros R H1 H2.
  destruct (entry_revert s e) as [u| |]; cbn [mbind outcome_bind] in R; [|done..].
  destruct P as (u' & [= <-] & _ & Hau & _ & K). cbn [rev] in H2. rewrite app_assoc in H2.
  destruct (tally_clean _ _ _ H1 H2) as [T1 T2]. apply (IH (cleaned u e)); try done; unfold cleaned; cbn; by rewrite (keeps_jrnl _ _ K).
Qed.

Lemma journal_revert_spec g s :
  undoable g s -> wf s ->
  exists s', journal_revert s (zlen (entries (jrnl g))) = Ret s' /\ s' ≈ g /\ entries (jrnl s') = entries (jrnl g) /\ tallied (jrnl s') /\
    validRevisions s' = validRevisions s /\ nextRevisionId s' = nextRevisionId s.
Proof.
  intros (es & E & t & R & Q) W. unfold journal_revert. rewrite E. unfold zlen. rewrite Nat2Z.id, drop_app_length, R.
  destruct (revert_entries_parallel s s (rev es) t) as (t' & R' & _ & Et & Vt & Nt); [done|by apply wf_addressed|done|].
  rewrite R in R'. injection R' as <-. cbn [mbind outcome_bind]. rewrite Et, E.
  change (Z.of_nat (length ?l)) with (zlen l). rewrite go_to_app. cbn [mbind outcome_bind].
  assert (Tt : (forall a n, dirties (jrnl t) !! a = Some n -> 0 < n) /\ (forall a, marks_of (entries (jrnl g)) a <= default 0 (dirties (jrnl t) !! a))).
  { destruct (wf_tallied _ W) as [T1 T2].
    apply (revert_entries_tally s (rev es)); [by apply wf_addressed|done|done|]. by rewrite rev_involutive, <- E. }
  eexists. split; [done|]. split; [|split; [done|by split; [split; apply Tt|]]].
  split; try (by apply Q). intros a. eapply objects_frame; [..|exact (eqv_objects _ _ Q a)]; done.
Qed.

(** ** Reverting *)

Lemma RevertToSnapshot_chain pre r g st s :
  chain (pre ++ (r, g) :: st) s ->
  exists s', RevertToSnapshot s (rev_id r) = Ret s' /\ s' ≈ g /\ entries (jrnl s') = entries (jrnl g) /\
    validRevisions s' = validRevisions g /\ nextRevisionId s' = nextRevisionId s /\ chain st s'.
Proof.
  intros C. pose proof (valid_index _ _ _ _ _ C) as V. destruct (chain_saved _ _ _ _ _ C) as (U & J & I & G & Cg).
  pose proof (chain_revisions _ _ Cg) as Vg. pose proof (chain_wf _ _ Cg) as Wg.
  unfold RevertToSnapshot. set (n := zlen (rev (map fst st))).
  assert (Hn : validRevisions s !! Z.to_nat n = Some r).
  { rewrite V. unfold n, zlen. rewrite Nat2Z.id. by apply list_lookup_middle. }
  set (id := fun i : Z => match validRevisions s !! Z.to_nat i with Some r => rev_id r | None => 0 end).
  assert (Hid : id n = rev_id r) by (unfold id; by rewrite Hn).
  assert (Hlen : zlen (validRevisions s) = n + 1 + zlen pre) by (rewrite V; unfold n, zlen; cbn; rewrite length_app; cbn; rewrite !length_rev, !length_map; lia).
  pose proof (zlen_nonneg (rev (map fst st))). pose proof (zlen_nonneg pre).
  rewrite (Search_sorted id _ n (rev_id r)); [|intros x y Hxy Hy|lia|done].
  2:{ unfold id. destruct (lookup_lt_is_Some_2 (validRevisions s) (Z.to_nat x)) as [rx Hx]; [unfold zlen in *; lia|].
      destruct (lookup_lt_is_Some_2 (validRevisions s) (Z.to_nat y)) as [ry Hry]; [unfold zlen in *; lia|].
      rewrite Hx, Hry. eapply (chain_sorted _ s); [done| |done|done]. lia. }
  rewrite Hn, decide_False, J by lia.
  destruct (journal_revert_spec g s U (chain_wf _ _ C)) as (s' & -> & Q & E & T & V' & N'). cbn [mbind outcome_bind].
  assert (Q' : set_revisions s' (take (Z.to_nat n) (validRevisions s')) (nextRevisionId s') ≈ g).
  { split; try (by apply Q). intros a. eapply objects_frame; [..|exact (eqv_objects _ _ Q a)]; done. }
  assert (Vt : take (Z.to_nat n) (validRevisions s') = validRevisions g).
  { rewrite V', V, Vg. unfold n, zlen. rewrite Nat2Z.id. by apply take_app_length'. }
  eexists. split; [done|]. do 4 (split; [done|]). apply (chain_of_saved g); try done. cbn. lia.
Qed.

(** ** Runs of calls *)

Definition valid s (id : Z) : Prop := id ∈ map rev_id (validRevisions s).

#[global] Instance valid_dec s id : Decision (valid s id).
Proof. unfold valid. apply _. Defined.

Lemma valid_chain st s id : chain st s -> valid s id -> exists pre r g rs, st = pre ++ (r, g) :: rs /\ rev_id r = id.
Proof.
  intros C Hv. unfold valid in Hv. rewrite (chain_revisions _ _ C) in Hv.
  apply list_elem_of_In, in_map_iff in Hv as (r & <- & Hin). apply in_rev, in_map_iff in Hin as ([r' g] & <- & Hin).
  apply list_elem_of_In, list_elem_of_split in Hin as (pre & rs & ->). by exists pre, r', g, rs.
Qed.

Lemma RevertToSnapshot_invalid st s id : chain st s -> ~ valid s id -> RevertToSnapshot s id = Panic.
Proof.
  intros C Hv. unfold RevertToSnapshot. set (idx := Search _ _).
  assert (Hidx : 0 <= idx <= zlen (validRevisions s)).
  { unfold idx, Search. apply search_spec; [zlen_lia|zlen_lia|].
    intros x y Hxy Hy Hx. apply bool_decide_eq_true in Hx. apply bool_decide_eq_true.
    destruct (decide (x = y)) as [->|]; [done|].
    destruct (lookup_lt_is_Some_2 (validRevisions s) (Z.to_nat x)) as [rx Ex]; [unfold zlen in *; lia|].
    destruct (lookup_lt_is_Some_2 (validRevisions s) (Z.to_nat y)) as [ry Ey]; [unfold zlen in *; lia|].
    rewrite Ex in Hx. rewrite Ey. pose proof (chain_sorted st s (Z.to_nat x) (Z.to_nat y) rx ry C ltac:(lia) Ex Ey). lia. }
  rewrite decide_True; [done|]. destruct (decide (idx = zlen (validRevisions s))); [by left|right].
  destruct (lookup_lt_is_Some_2 (validRevisions s) (Z.to_nat idx)) as [r Er]; [unfold zlen in *; lia|].
  rewrite Er. intros <-. apply Hv, list_elem_of_In, in_map. apply list_elem_of_In. by eapply list_elem_of_lookup_2.
Qed.

(** The revisions of [st'] that are older than [n] come from [st]. *)
Definition older (n : Z) st' st : Prop :=
  forall pre r g rs, st' = pre ++ (r, g) :: rs -> rev_id r < n -> exists pre', st = pre' ++ (r, g) :: rs.

Lemma exec_chain st s c s' :
  chain st s -> exec s c = Ret s' ->
  exists st', chain st' s' /\ nextRevisionId s <= nextRevisionId s' /\ older (nextRevisionId s) st' st.
Proof.
  intros C E. pose proof (chain_wf _ _ C) as W. destruct (snapshotting c) eqn:Hc.
  - destruct c; try done.
    + injection E as <-. eexists. split; [by apply chain_Snapshot|]. split; [cbn; lia|].
      intros [|x pre] r g rs Est Hr; injection Est; [intros _ _ <-; cbn in Hr; lia|]. intros Hst _. by exists pre.
    + cbn [exec] in E. destruct (decide (valid s id)) as [Hv|Hv]; [|by rewrite (RevertToSnapshot_invalid st) in E].
      destruct (valid_chain _ _ _ C Hv) as (pre & r & g & rs & -> & <-).
      destruct (RevertToSnapshot_chain _ _ _ _ _ C) as (s1 & E1 & _ & _ & _ & N & C1). rewrite E1 in E.
      injection E as <-. exists rs. split; [done|]. split; [lia|]. intros pre' r' g' rs' -> _.
      exists (pre ++ (r, g) :: pre'). by rewrite <- app_assoc.
  - pose proof (call_op s c W Hc) as O. rewrite E in O. exists st. split; [by eapply chain_op|].
    split; [by rewrite (op_next _ _ O)|]. intros pre r g rs -> _. by exists pre.
Qed.

Lemma execs_chain st s cs s' :
  chain st s -> execs s cs = Ret s' ->
  exists st', chain st' s' /\ nextRevisionId s <= nextRevisionId s' /\ older (nextRevisionId s) st' st.
Proof.
  revert st s. induction cs as [|c cs IH]; intros st s C E.
  - injection E as <-. exists st. split; [done|]. split; [done|]. intros pre r g rs -> _. by exists pre.
  - cbn [execs] in E. destruct (exec s c) as [s1| |] eqn:E1; cbn [mbind outcome_bind] in E; [|done..].
    destruct (exec_chain _ _ _ _ C E1) as (st1 & C1 & N1 & O1).
    destruct (IH st1 s1 C1 E) as (st2 & C2 & N2 & O2). exists st2. split; [done|]. split; [lia|].
    intros pre r g rs Est Hr. destruct (O2 pre r g rs Est ltac:(lia)) as [pre1 E2]. by eapply O1.
Qed.

(** A state at the start of a transaction: no snapshot has been taken. *)
Definition start s : Prop := wf s /\ validRevisions s = [].

Lemma New_start sn : start (New sn).
Proof.
  split; [|done]. split; try done.
  intros a o. unfold look. cbn. rewrite lookup_empty. intros (? & ? & _ & _)%loaded_fields. done.
Qed.

Lemma start_chain s : start s -> chain [] s.
Proof. by intros [W V]. Qed.

(** C7: A snapshot can be reverted whatever was done since, including taking and
    reverting other snapshots: as long as the revision is valid, [RevertToSnapshot]
    does not panic and gives back the state in which the snapshot was taken
    (equivalent to it, with the same journal and the same valid revisions). *)
Theorem RevertToSnapshot_restores s00 cs0 s0 id s1 cs s2 :
  start s00 -> execs s00 cs0 = Ret s0 -> Snapshot s0 = (id, s1) -> execs s1 cs = Ret s2 -> valid s2 id ->
  exists s3, RevertToSnapshot s2 id = Ret s3 /\ s3 ≈ s0 /\ entries (jrnl s3) = entries (jrnl s0) /\
    validRevisions s3 = validRevisions s0.
Proof.
  intros S E0 Es E1 Hv. destruct (execs_chain _ _ _ _ (start_chain _ S) E0) as (st0 & C0 & _ & _).
  pose proof (chain_Snapshot _ _ C0) as C1. injection Es as <- Es1. rewrite <- Es1 in E1. cbn [Snapshot snd] in C1.
  destruct (execs_chain _ _ _ _ C1 E1) as (st2 & C2 & N2 & O2).
  destruct (valid_chain _ _ _ C2 Hv) as (pre & r & g & rs & -> & Hr).
  destruct (O2 pre r g rs eq_refl) as [pre' Est]; [cbn; lia|].
  assert (g = s0) as ->.
  { destruct pre' as [|[r' g'] pre']; injection Est; [done|]. intros -> _ _.
    apply chain_saved in C0 as (_ & _ & Hlt & _). lia. }
  rewrite <- Hr. destruct (RevertToSnapshot_chain _ _ _ _ _ C2) as (s3 & R & Q & Ej & V & _). eauto 10.
Qed.

(** Within a transaction a call panics only when [SubRefund] would make the
    refund negative or a revision that is not valid is reverted to; undoing a
    journal never panics. *)
Theorem exec_panics s00 cs s c :
  start s00 -> execs s00 cs = Ret s ->
  exec s c = Panic <->
    (exists gas, c = CSubRefund gas /\ refund s < gas) \/ (exists id, c = CRevertToSnapshot id /\ ~ valid s id).
Proof.
  intros S E. destruct (execs_chain _ _ _ _ (start_chain _ S) E) as (st & C & _ & _).
  pose proof (chain_wf _ _ C) as W. destruct (snapshotting c) eqn:Hc.
  - destruct c; try done; [naive_solver|]. cbn [exec]. destruct (decide (valid s id)) as [Hv|Hv].
    + destruct (valid_chain _ _ _ C Hv) as (pre & r & g & rs & -> & <-).
      destruct (RevertToSnapshot_chain _ _ _ _ _ C) as (s1 & -> & _). naive_solver.
    + rewrite (RevertToSnapshot_invalid st) by done. naive_solver.
  - pose proof (call_op s c W Hc) as O. split.
    + intros Ep. rewrite Ep in O. by left.
    + intros [(gas & -> & Hg)|(id & -> & _)]; [|done]. cbn. unfold SubRefund. cbn. by rewrite decide_True by lia.
Qed.

End Nested.

(** ** A concrete backend *)

Module SnapExamples.

(** One contract account at address 5, with a balance and a storage slot. *)
#[export] Instance ex_backend : Backend := {|
  STrie := Z;
  emptyRoot := 1;
  emptyCodeHash := 2;
  hash_address a := a + 1000;
  hash_code _ := 77;
  snap_account h := if decide (h = 1005) then Some (Some (mk_snapAccount 1 100 7 None)) else Some None;
  trie_account a := if decide (a = 5) then Some [1] else Some [];
  decode_account _ := Some (mk_Account 1 100 7 2);
  snap_storage h k := if decide (h = 1005 /\ k = 3) then Some [9] else Some [];
  open_storage _ root := Some root;
  empty_storage := 1;
  strie_get t k := if decide (t = 7 /\ k = 3) then Some [9] else Some [];
  read_code _ _ := None
|}.

#[export] Instance ex_laws : BackendLaws ex_backend.
Proof. intros a b. cbn. lia. Qed.

Definition or_else (s : StateDB) (r : outcome Empty_set StateDB) : StateDB := match r with Ret t => t | _ => s end.

Definition ex_s0 : StateDB := or_else (New true) (execs (New true) [CAddBalance 5 10; CAddAddressToAccessList 5]).
Definition ex_calls : list call :=
  [CSetState 5 3 44; CSnapshot; CCreateAccount 6; CCreateAccount 5; CAddLog (mk_Log 5 [1] [1; 2] 7 0 0 0 0); CAddSlotToAccessList 6 1;
   CRevertToSnapshot 1; CAddBalance 3 0; CSuicide 5; CSetCode 5 [1]; CAddRefund 4].
Definition ex_s2 : StateDB := or_else ex_s0 (execs (Snapshot ex_s0).2 ex_calls).

Lemma RevertToSnapshot_restores_witness :
  exists s3, RevertToSnapshot ex_s2 0 = Ret s3 /\ s3 ≈ ex_s0 /\ entries (jrnl s3) = entries (jrnl ex_s0) /\
    validRevisions s3 = validRevisions ex_s0.
Proof.
  apply (RevertToSnapshot_restores (New true) [CAddBalance 5 10; CAddAddressToAccessList 5] ex_s0 0 (Snapshot ex_s0).2
           ex_calls ex_s2).
  - apply New_start.
  - vm_compute. reflexivity.
  - vm_compute. reflexivity.
  - vm_compute. reflexivity.
  - apply (bool_decide_unpack _). vm_compute. exact I.
Defined.

Lemma exec_panics_witness : exec ex_s0 (CRevertToSnapshot 0) = Panic.
Proof.
  apply (exec_panics (New true) [CAddBalance 5 10; CAddAddressToAccessList 5] ex_s0 (CRevertToSnapshot 0)).
  - apply New_start.
  - vm_compute. reflexivity.
  - right. exists 0. split; [reflexivity|]. apply (bool_decide_unpack _). vm_compute. exact I.
Defined.

End SnapExamples.
