(* ===== verification/StateDBObserve.v ===== *)
(** * Equivalent states cannot be told apart (core/state/statedb.go)

    The equivalence that reverting restores is a bisimulation: the getters give
    the same answers and every call leads to equivalent states again. *)

From stdpp Require Import gmap.
From S2P Require Import Prelude Rlp Trie AccessList StateDB StateDBProofs StateDBSnapshots.

Local Infix "≈" := eqv (at level 70).

Section Observe.
Context {B : Backend} {L : BackendLaws B}.
Implicit Types (s t : StateDB) (o : stateObject).

(** ** Reading *)

Lemma CodeSize_eff o : (obj_CodeSize o).1 = match eff_code o with Some c => zlen c | None => 0 end.
Proof. rewrite eff_code_layers. unfold obj_CodeSize. by repeat case_match. Qed.

(** What the getters return, as functions of the account. *)
Lemma getters s a k :
  (Exist s a).1 = bool_decide (is_Some (live s a)) /\
  (Empty s a).1 = match live s a with Some o => empty o | None => true end /\
  (HasSuicided s a).1 = match live s a with Some o => suicided o | None => false end /\
  (GetBalance s a).1 = match live s a with Some o => Balance (data o) | None => 0 end /\
  (GetNonce s a).1 = match live s a with Some o => Nonce (data o) | None => 0 end /\
  (GetCodeHash s a).1 = match live s a with Some o => CodeHash (data o) | None => 0 end /\
  (GetCode s a).1 = match live s a with Some o => eff_code o | None => None end /\
  (GetCodeSize s a).1 = match live s a with Some o => (obj_CodeSize o).1 | None => 0 end /\
  (GetState s a k).1 = match live s a with Some o => state_of s o k | None => 0 end /\
  (GetCommittedState s a k).1 = match live s a with Some o => committed s o k | None => 0 end.
Proof.
  unfold Exist, Empty, HasSuicided, GetBalance, GetNonce, GetCodeHash, GetCode, GetCodeSize, GetState, GetCommittedState.
  destruct (getStateObject_spec s a) as (s1 & -> & Q & _). split_and!; try done.
  - destruct (live s a) as [o|]; [|done]. unfold eff_code. by destruct (obj_Code o).
  - destruct (live s a) as [o|]; [|done]. by destruct (obj_CodeSize o).
  - destruct (live s a) as [o|]; [|done]. pose proof (quiet_eqv _ _ Q) as H. 
    transitivity (state_of s1 o k); [unfold state_of; by destruct (obj_GetState s1 o k)|].
    rewrite !state_committed. rewrite (committed_view s1 s); [done|apply H|by rewrite (eqv_destructs _ _ H)].
  - destruct (live s a) as [o|]; [|done]. pose proof (quiet_eqv _ _ Q) as H.
    transitivity (committed s1 o k); [unfold committed; by destruct (obj_GetCommittedState s1 o k)|].
    apply committed_view; [apply H|by rewrite (eqv_destructs _ _ H)].
Qed.

(** Equivalent states answer every query in the same way. *)
Theorem eqv_observe s s' :
  s ≈ s' -> forall a k,
  (Exist s a).1 = (Exist s' a).1 /\ (Empty s a).1 = (Empty s' a).1 /\
  (HasSuicided s a).1 = (HasSuicided s' a).1 /\ (GetBalance s a).1 = (GetBalance s' a).1 /\
  (GetNonce s a).1 = (GetNonce s' a).1 /\ (GetCodeHash s a).1 = (GetCodeHash s' a).1 /\
  (GetCode s a).1 = (GetCode s' a).1 /\ (GetCodeSize s a).1 = (GetCodeSize s' a).1 /\
  (GetState s a k).1 = (GetState s' a k).1 /\ (GetCommittedState s a k).1 = (GetCommittedState s' a k).1.
Proof.
  intros H a k. destruct (getters s a k) as (-> & -> & -> & -> & -> & -> & -> & -> & -> & ->).
  destruct (getters s' a k) as (-> & -> & -> & -> & -> & -> & -> & -> & -> & ->).
  destruct (live_eqv s s' a H) as [o o' [Ea Ed Es El Ef Ec Ek Est]|]; [|by split_and!].
  rewrite !CodeSize_eff, !bool_decide_true by eauto. unfold empty. rewrite Ec, Ed, Es. by split_and!.
Qed.

(** ** Writing *)

Lemma append_eqv s s' e e' : s ≈ s' -> dirtied e = dirtied e' -> append s e ≈ append s' e'.
Proof.
  intros H E. split; try (by apply H).
  - intros a. eapply objects_frame; [..|exact (eqv_objects _ _ H a)]; done.
  - intros a Ha. cbn. rewrite !dirties_append, E, (eqv_dirties _ _ H) by done. done.
Qed.

Lemma obj_eqv_after s s' t t' o o' :
  s ≈ s' -> t ≈ s -> t' ≈ s' -> obj_eqv s s' o o' -> obj_eqv t t' o o'.
Proof.
  intros H T T'. apply obj_eqv_view; rewrite ?(eqv_destructs _ _ T), ?(eqv_destructs _ _ T'); try done;
    symmetry; by apply eqv_snap.
Qed.

(** The objects that both states work on. *)
Record both s s' o o' : Prop := {
  both_eqv : s ≈ s';
  both_obj : obj_eqv s s' o o'
}.

Lemma both_set s s' o o' f : respects f -> both s s' o o' -> setStateObject s (f o) ≈ setStateObject s' (f o').
Proof. intros Hf [H Ho]. apply setStateObject_eqv; [done|]. by apply Hf. Qed.

Lemma both_append s s' o o' e e' : both s s' o o' -> dirtied e = dirtied e' -> both (append s e) (append s' e') o o'.
Proof.
  intros [H Ho] E. split; [by apply append_eqv|]. by eapply obj_eqv_view; [..|exact Ho].
Qed.

Lemma createObject_both s s' a :
  s ≈ s' -> wf s -> wf s' ->
  exists t t', createObject s a = (freshObject a, live s a, t) /\ createObject s' a = (freshObject a, live s' a, t') /\
    t ≈ t' /\ both t t' (freshObject a) (freshObject a).
Proof.
  intros H W W'. unfold createObject.
  destruct (getDeleted_spec s a) as (s1 & -> & Qt & _), (getDeleted_spec s' a) as (s1' & -> & [Q' _ _ _] & _).
  pose proof (quiet_wf _ _ W Qt) as W1. destruct Qt as [Q _ _ _]. assert (H1 : s1 ≈ s1') by by rewrite Q, H, Q'.
  assert (F : forall u u' : StateDB, u ≈ u' -> obj_eqv u u' (freshObject a) (freshObject a)).
  { intros u u' Hu. eapply (obj_eqv_view u u u u'); [done|apply Hu|done|by rewrite (eqv_destructs _ _ Hu)|apply obj_eqv_refl]. }
  pose proof (eqv_objects _ _ H a) as Ha. unfold live.
  destruct (look s a) as [p|] eqn:Ep; inversion Ha as [? p' Hp E1 E2|]; subst.
  - destruct (wf_obj _ W a p Ep) as [Hpa _].
    eexists _, _. split; [done|]. split; [by rewrite <- (oe_deleted _ _ _ _ Hp)|].
    rewrite <- (oe_address _ _ _ _ Hp), <- (eqv_snap _ _ H1), <- (eqv_destructs _ _ H1), Hpa.
    enough (Hn : setStateObject (append (if snap s1 then set_destructs s1 ({[hash_address a]} ∪ snapDestructs s1) else s1)
                     (resetObjectChange p (if snap s1 then bool_decide (hash_address a ∈ snapDestructs s1) else false)))
                   (freshObject a) ≈
                 setStateObject (append (if snap s1 then set_destructs s1' ({[hash_address a]} ∪ snapDestructs s1) else s1')
                     (resetObjectChange p' (if snap s1 then bool_decide (hash_address a ∈ snapDestructs s1) else false)))
                   (freshObject a)) by (split; [done|]; split; [done|]; by apply F).
    destruct (snap s1).
    + set (D := _ ∪ _). set (b := bool_decide _).
      apply (append_eqv (set_destructs (setStateObject s1 (freshObject a)) D)
               (set_destructs (setStateObject s1' (freshObject a)) D) (resetObjectChange p b) (resetObjectChange p' b)); [|done].
      apply reset_eqv; [done|cbn; set_solver|]. by apply wf_addressed.
    + apply setStateObject_eqv; [by apply append_eqv|]. by apply F, append_eqv.
  - eexists _, _. split; [done|]. split; [done|].
    assert (Hn : setStateObject (append s1 (createObjectChange a)) (freshObject a) ≈
                 setStateObject (append s1' (createObjectChange a)) (freshObject a)).
    { apply setStateObject_eqv; [by apply append_eqv|]. by apply F, append_eqv. }
    split; [done|]. split; [done|]. by apply F.
Qed.

Lemma live_wf s a o : wf s -> live s a = Some o -> address o = a /\ fakeStorage o = None /\ deleted o = false.
Proof.
  intros W. unfold live. destruct (look s a) as [p|] eqn:E; [|done]. destruct (deleted p) eqn:Hd; [done|].
  intros [= <-]. by apply (wf_obj _ W) in E as [? ?].
Qed.

Lemma GetOrNewStateObject_both s s' a :
  s ≈ s' -> wf s -> wf s' ->
  exists o o' t t', GetOrNewStateObject s a = (o, t) /\ GetOrNewStateObject s' a = (o', t') /\ both t t' o o' /\
    address o = a /\ fakeStorage o = None.
Proof.
  intros H W W'. pose proof (live_eqv s s' a H) as Hl. unfold GetOrNewStateObject.
  destruct (getStateObject_spec s a) as (s1 & -> & Q & _), (getStateObject_spec s' a) as (s1' & -> & Q' & _).
  assert (H1 : s1 ≈ s1') by by rewrite (quiet_eqv _ _ Q), H, (quiet_eqv _ _ Q').
  destruct (live s a) as [o|] eqn:El; inversion Hl as [? o' Ho E1 E2|]; subst.
  - apply (live_wf s a o W) in El as (Ha & Hf & _). exists o, o', s1, s1'. split_and!; try done. split; [done|].
    by eapply obj_eqv_after; [exact H|apply Q|apply Q'|].
  - destruct (createObject_both s1 s1' a) as (t & t' & -> & -> & Ht & Hb); [done|by apply (quiet_wf s)|by apply (quiet_wf s')|].
    by exists (freshObject a), (freshObject a), t, t'.
Qed.

(** Changing an account through the same journalled change. *)
Lemma with_object_eqv s s' a (f f' : StateDB -> stateObject -> StateDB) :
  s ≈ s' -> wf s -> wf s' ->
  (forall t t' o o', both t t' o o' -> fakeStorage o = None -> f t o ≈ f' t' o') ->
  (let '(o, s) := GetOrNewStateObject s a in f s o) ≈ (let '(o, s) := GetOrNewStateObject s' a in f' s o).
Proof.
  intros H W W' Hf. destruct (GetOrNewStateObject_both s s' a H W W') as (o & o' & t & t' & -> & -> & Hb & _ & Hk).
  by apply Hf.
Qed.

Lemma SetBalance_both s s' o o' v : both s s' o o' -> obj_SetBalance s o v ≈ obj_SetBalance s' o' v.
Proof.
  intros Hb. unfold obj_SetBalance. apply (both_set _ _ _ _ (fun o => setBalance o v)); [apply setBalance_respects|].
  apply both_append; [done|]. cbn. by rewrite (oe_address _ _ _ _ (both_obj _ _ _ _ Hb)).
Qed.

Lemma SetNonce_both s s' o o' v : both s s' o o' -> obj_SetNonce s o v ≈ obj_SetNonce s' o' v.
Proof.
  intros Hb. unfold obj_SetNonce. apply (both_set _ _ _ _ (fun o => setNonce o v)); [apply setNonce_respects|].
  apply both_append; [done|]. cbn. by rewrite (oe_address _ _ _ _ (both_obj _ _ _ _ Hb)).
Qed.

Lemma AddBalance_both s s' o o' v : both s s' o o' -> obj_AddBalance s o v ≈ obj_AddBalance s' o' v.
Proof.
  intros Hb. pose proof Hb as [H [Ea Ed _ _ _ _ _ _]]. unfold obj_AddBalance. case_decide.
  - unfold empty, touch. rewrite <- Ed, <- Ea. case_bool_decide; [|done].
    assert (HT : append s (touchChange (address o)) ≈ append s' (touchChange (address o))) by by apply append_eqv.
    case_decide as Er; [|done]. split; try (by apply HT).
    + intros a. eapply objects_frame; [..|exact (eqv_objects _ _ HT a)]; done.
    + intros a Ha. cbn. rewrite !lookup_insert_ne by congruence. by apply H.
  - rewrite <- Ed. by apply SetBalance_both.
Qed.

Lemma SubBalance_both s s' o o' v : both s s' o o' -> obj_SubBalance s o v ≈ obj_SubBalance s' o' v.
Proof.
  intros Hb. pose proof Hb as [H [Ea Ed _ _ _ _ _ _]]. unfold obj_SubBalance. case_decide; [done|].
  rewrite <- Ed. by apply SetBalance_both.
Qed.

(** After filling the caches of both objects. *)
Lemma both_cached s s' o o' o1 o1' :
  both s s' o o' -> obj_eqv s s o1 o -> obj_eqv s' s' o1' o' -> both s s' o1 o1'.
Proof.
  intros [H []] [] []. split; [done|]. split; intros; congruence.
Qed.

Lemma SetCode_both s s' o o' h c : both s s' o o' -> obj_SetCode s o h c ≈ obj_SetCode s' o' h c.
Proof.
  intros Hb. unfold obj_SetCode. pose proof (Code_eqv s o) as C. pose proof (Code_eqv s' o') as C'.
  destruct (obj_Code o) as [pc o1], (obj_Code o') as [pc' o1']. cbn [snd] in *. pose proof (both_cached _ _ _ _ _ _ Hb C C') as Hb1.
  apply (both_set _ _ _ _ (fun o => setCode o h (Some c))); [apply setCode_respects|].
  apply both_append; [done|]. cbn. by rewrite (oe_address _ _ _ _ (both_obj _ _ _ _ Hb1)).
Qed.

Lemma SetState_both s s' o o' k v :
  both s s' o o' -> fakeStorage o = None -> obj_SetState s o k v ≈ obj_SetState s' o' k v.
Proof.
  intros Hb Hf. pose proof (both_obj _ _ _ _ Hb) as Ho. unfold obj_SetState. rewrite <- (oe_fake _ _ _ _ Ho), Hf.
  pose proof (oe_state _ _ _ _ Ho k) as Hk. unfold state_of in Hk.
  pose proof (GetState_eqv s o k) as C. pose proof (GetState_eqv s' o' k) as C'.
  destruct (obj_GetState s o k) as [pv o1], (obj_GetState s' o' k) as [pv' o1']. cbn [fst snd] in *. subst pv'.
  pose proof (both_cached _ _ _ _ _ _ Hb C C') as Hb1. case_decide.
  - apply setStateObject_eqv; apply Hb1.
  - apply (both_set _ _ _ _ (fun o => setState o k v)); [apply setState_respects|].
    apply both_append; [done|]. cbn. by rewrite (oe_address _ _ _ _ (both_obj _ _ _ _ Hb1)).
Qed.

Lemma Suicide_eqv s s' a : s ≈ s' -> (Suicide s a).2 ≈ (Suicide s' a).2.
Proof.
  intros H. pose proof (live_eqv s s' a H) as Hl. unfold Suicide.
  destruct (getStateObject_spec s a) as (s1 & -> & Q & _), (getStateObject_spec s' a) as (s1' & -> & Q' & _).
  assert (H1 : s1 ≈ s1') by by rewrite (quiet_eqv _ _ Q), H, (quiet_eqv _ _ Q').
  destruct Hl as [o o' Ho|]; [|done]. cbn [snd].
  apply (both_set _ _ _ _ (fun o => setBalance (markSuicided o) 0)).
  - intros u u' x x' Hx. unfold markSuicided. apply setBalance_respects.
    by apply (setFlags_respects true).
  - apply both_append; [|done]. split; [done|]. by eapply obj_eqv_after; [exact H|apply Q|apply Q'|].
Qed.

Lemma CreateAccount_eqv s s' a : s ≈ s' -> wf s -> wf s' -> CreateAccount s a ≈ CreateAccount s' a.
Proof.
  intros H W W'. unfold CreateAccount. destruct (createObject_both s s' a H W W') as (t & t' & -> & -> & Ht & Hb).
  destruct (live_eqv s s' a H) as [o o' Ho|]; [|done]. rewrite <- (oe_data _ _ _ _ Ho).
  apply (both_set _ _ _ _ (fun o1 => setBalance o1 (Balance (data o)))); [apply setBalance_respects|done].
Qed.

Lemma read_eqv s s' a {A} (f : option stateObject -> A) :
  s ≈ s' -> (let '(so, s) := getStateObject s a in (f so, s)).2 ≈ (let '(so, s) := getStateObject s' a in (f so, s)).2.
Proof.
  intros H. destruct (getStateObject_spec s a) as (s1 & -> & Q & _), (getStateObject_spec s' a) as (s1' & -> & Q' & _).
  cbn [snd]. by rewrite (quiet_eqv _ _ Q), H, (quiet_eqv _ _ Q').
Qed.

(** Two states that are equivalent to equivalent ones. *)
Lemma op_quiet_eqv s s' t t' : s ≈ s' -> quiet s t -> quiet s' t' -> t ≈ t'.
Proof. intros H Q Q'. by rewrite (quiet_eqv _ _ Q), H, (quiet_eqv _ _ Q'). Qed.

(** Outcomes that agree. *)
Definition outcome_eqv (r r' : outcome Empty_set StateDB) : Prop :=
  match r, r' with Ret t, Ret t' => t ≈ t' | Panic, Panic => True | _, _ => False end.

(** Equivalence is a bisimulation: after the same call, whichever it is,
    equivalent states are equivalent again (or both panic). *)
Theorem exec_eqv s s' c :
  s ≈ s' -> wf s -> wf s' -> snapshotting c = false -> outcome_eqv (exec s c) (exec s' c).
Proof.
  intros H W W' Hc. destruct c; cbn [exec outcome_eqv]; try done.
  - by apply CreateAccount_eqv.
  - apply with_object_eqv; [done..|]. intros. by apply AddBalance_both.
  - apply with_object_eqv; [done..|]. intros. by apply SubBalance_both.
  - apply with_object_eqv; [done..|]. intros. by apply SetBalance_both.
  - apply with_object_eqv; [done..|]. intros. by apply SetNonce_both.
  - apply with_object_eqv; [done..|]. intros. by apply SetCode_both.
  - apply with_object_eqv; [done..|]. intros. by apply SetState_both.
  - by apply Suicide_eqv.
  - unfold AddLog. cbn. rewrite <- (eqv_logs _ _ H), <- (eqv_logSize _ _ H), <- (eqv_thash _ _ H), <- (eqv_bhash _ _ H),
      <- (eqv_txIndex _ _ H). by apply set_logs_eqv, append_eqv.
  - unfold AddPreimage. rewrite <- (eqv_preimages _ _ H). destruct (preimages s !! h); [done|]. cbn.
    rewrite <- (eqv_preimages _ _ H). by apply set_preimages_eqv, append_eqv.
  - unfold AddRefund. cbn. rewrite <- (eqv_refund _ _ H). by apply set_refund_eqv, append_eqv.
  - unfold SubRefund. cbn. rewrite <- (eqv_refund _ _ H). case_decide; [done|]. by apply set_refund_eqv, append_eqv.
  - unfold AddAddressToAccessList. rewrite <- (eqv_access _ _ H). destruct (AddAddress (access s) a) as [[|] al];
      [apply append_eqv; [|done]|]; by apply set_access_eqv.
  - unfold AddSlotToAccessList. rewrite <- (eqv_access _ _ H). destruct (AddSlot (access s) a slot) as [[[ca cs] al]| |]; cbn; [|done..].
    destruct ca, cs; repeat (apply append_eqv; [|done]); by apply set_access_eqv.
  - by apply (read_eqv s s' a (fun so => bool_decide (is_Some so))).
  - by apply (read_eqv s s' a (fun so => match so with Some o => empty o | None => true end)).
  - by apply (read_eqv s s' a (fun so => match so with Some o => suicided o | None => false end)).
  - by apply (read_eqv s s' a (fun so => match so with Some o => Balance (data o) | None => 0 end)).
  - by apply (read_eqv s s' a (fun so => match so with Some o => Nonce (data o) | None => 0 end)).
  - by apply (read_eqv s s' a (fun so => match so with Some o => CodeHash (data o) | None => 0 end)).
  - eapply op_quiet_eqv; [done|apply (read_object_quiet _ a (fun _ => obj_Code))..]; try done; intros; apply Code_eqv.
  - eapply op_quiet_eqv; [done|apply (read_object_quiet _ a (fun _ => obj_CodeSize))..]; try done; intros; apply CodeSize_eqv.
  - eapply op_quiet_eqv; [done|apply (read_object_quiet _ a (fun s o => obj_GetState s o k))..]; try done;
      intros; apply GetState_eqv.
  - eapply op_quiet_eqv; [done|apply (read_object_quiet _ a (fun s o => obj_GetCommittedState s o k))..]; try done;
      intros; apply GetCommittedState_eqv.
Qed.

End Observe.

Module ObserveExamples.
Import SnapExamples.

(** The state before a read and after it. *)
Lemma ex_read : eqv (GetState (New true) 5 3).2 (New true).
Proof.
  apply (quiet_eqv (New true)), (read_object_quiet _ 5 (fun s o => obj_GetState s o 3)); [apply New_start|].
  intros. apply GetState_eqv.
Qed.

Lemma eqv_observe_witness : (GetBalance (GetState (New true) 5 3).2 5).1 = (GetBalance (New true) 5).1.
Proof. apply (eqv_observe (GetState (New true) 5 3).2 (New true) ex_read 5 0). Defined.

Lemma exec_eqv_witness :
  outcome_eqv (exec (GetState (New true) 5 3).2 (CSetState 5 3 44)) (exec (New true) (CSetState 5 3 44)).
Proof.
  apply (exec_eqv (GetState (New true) 5 3).2 (New true) (CSetState 5 3 44) ex_read).
  - apply (wf_eqv (New true)); [symmetry; exact ex_read|apply (wf_tallied (New true)), New_start|apply New_start].
  - apply New_start.
  - reflexivity.
Defined.

End ObserveExamples.
