(* ===== verification/StateDBEffects.v ===== *)
(** * What the operations on accounts do (core/state/statedb.go)

    Reads after writes: balances, storage slots, and the end of a transaction. *)

From stdpp Require Import gmap.
From S2P Require Import Prelude Rlp Trie AccessList StateDB StateDBProofs StateDBSnapshots StateDBObserve.

Section Effects.
Context {B : Backend} {L : BackendLaws B}.
Implicit Types (s t : StateDB) (o : stateObject).

(** [t] shows the account [a] as [s] does. *)
Definition same_account t s (a : Z) : Prop := option_Forall2 (obj_eqv t s) (live t a) (live s a).

Lemma same_quiet s t a : quiet s t -> same_account t s a.
Proof. intros Q. apply live_eqv, Q. Qed.

(** The same live object in two states that agree on whether it was destructed. *)
Lemma same_look s t a :
  wf s -> snap t = snap s -> (hash_address a ∈ snapDestructs t <-> hash_address a ∈ snapDestructs s) ->
  look t a = look s a -> same_account t s a.
Proof.
  intros W Hs Hd Hl. unfold same_account, live. rewrite Hl. destruct (look s a) as [o|] eqn:E; [|constructor].
  destruct (wf_obj _ W a o E) as [Ha _]. destruct (deleted o); constructor.
  eapply (obj_eqv_view s t s s); [done|done|by rewrite Ha|done|apply obj_eqv_refl].
Qed.

Lemma same_trans s t u a : same_account u t a -> same_account t s a -> same_account u s a.
Proof.
  unfold same_account. intros H K. destruct H as [o o' Ho|]; inversion K as [? p Hp|]; subst; constructor.
  destruct Ho, Hp. split; intros; etrans; eauto.
Qed.

(** What [createObject] leaves of the other accounts. *)
Lemma createObject_frame s a :
  wf s -> exists t, createObject s a = (freshObject a, live s a, t) /\ wf t /\
    stateObjects t !! a = Some (freshObject a) /\ forall b, b <> a -> same_account t s b.
Proof.
  intros W. destruct (createObject_spec s a W) as (t & E & O & Hl & _). exists t. split; [done|]. split; [apply O|].
  split; [done|]. unfold createObject in E. destruct (getDeleted_spec s a) as (s2 & E2 & Q2 & _). rewrite E2 in E.
  intros b Hb. apply (same_trans s s2); [|by apply same_quiet]. pose proof (quiet_wf _ _ W Q2) as W2.
  destruct (look s a) as [q|] eqn:Eq; injection E as _ <-.
  - destruct (wf_obj _ W a q Eq) as [Hq _].
    destruct (snap s2) eqn:Es; cbn; apply same_look; cbn; try done; try by rewrite look_set_ne.
    rewrite Hq. enough (hash_address b <> hash_address a) by set_solver. intros ?%hash_address_inj. done.
  - apply same_look; try done. by rewrite look_set_ne.
Qed.

(** What [GetOrNewStateObject] leaves. *)
Lemma GetOrNewStateObject_frame s a :
  wf s -> exists o t, GetOrNewStateObject s a = (o, t) /\ wf t /\ stateObjects t !! a = Some o /\ deleted o = false /\
    match live s a with Some p => obj_eqv t s o p | None => o = freshObject a end /\
    forall b, b <> a -> same_account t s b.
Proof.
  intros W. unfold GetOrNewStateObject. destruct (getStateObject_spec s a) as (s1 & -> & Q & Hl).
  pose proof (quiet_wf _ _ W Q) as W1. pose proof (live_eqv _ _ a (quiet_eqv _ _ Q)) as Hv.
  destruct (live s a) as [p|] eqn:Ep.
  - unfold live in Ep. destruct (look s a) as [q|]; [|done]. destruct (deleted q) eqn:Hd; [done|]. injection Ep as ->.
    exists p, s1. split_and!; try done; [|intros b _; by apply same_quiet].
    apply look_live in Hl. unfold live in Hv. rewrite Hl, Hd in Hv. by inversion Hv.
  - destruct (createObject_frame s1 a W1) as (t & -> & Wt & Ht & Hb). exists (freshObject a), t. split_and!; try done.
    intros b Hne. apply (same_trans s s1); [by apply Hb|by apply same_quiet].
Qed.

(** *** Balances *)

Definition balance s (a : Z) : Z := match live s a with Some o => Balance (data o) | None => 0 end.

Lemma GetBalance_balance s a : (GetBalance s a).1 = balance s a.
Proof. by destruct (getters s a 0) as (_ & _ & _ & H & _). Qed.

Lemma balance_same s t a : same_account t s a -> balance t a = balance s a.
Proof. unfold balance. intros [o o' Ho|]; [by rewrite (oe_data _ _ _ _ Ho)|done]. Qed.

(** An account after its object was replaced. *)
Lemma live_set t e o a :
  live (setStateObject (append t e) o) a =
    if decide (a = address o) then (if deleted o then None else Some o) else live t a.
Proof. unfold live. rewrite look_set. case_decide; [done|]. by rewrite look_append. Qed.

Lemma balance_set t e o v a :
  deleted o = false -> balance (setStateObject (append t e) (setBalance o v)) a = if decide (a = address o) then v else balance t a.
Proof. intros Hd. unfold balance. rewrite live_set. cbn. rewrite Hd. by case_decide. Qed.

Lemma SetBalance_balance s a v b :
  wf s -> balance (SetBalance s a v) b = if decide (b = a) then v else balance s b.
Proof.
  intros W. unfold SetBalance. destruct (GetOrNewStateObject_frame s a W) as (o & t & -> & Wt & Hl & Hd & _ & Hb).
  destruct (wf_obj _ Wt a o) as [Ha _]; [by apply look_live|]. unfold obj_SetBalance.
  rewrite balance_set, Ha by done. case_decide; [done|]. by apply balance_same, Hb.
Qed.

(** The object that was found or made has the balance of the account. *)
Lemma balance_found t s a o :
  match live s a with Some p => obj_eqv t s o p | None => o = freshObject a end -> Balance (data o) = balance s a.
Proof. unfold balance. destruct (live s a); [intros Ho; by rewrite (oe_data _ _ _ _ Ho)|by intros ->]. Qed.

Lemma balance_touch t o a : balance (touch t o) a = balance t a.
Proof. unfold touch. by case_decide. Qed.

(** The common part of [AddBalance] and [SubBalance]. *)
Lemma balance_change s a v b (f : StateDB -> stateObject -> StateDB) :
  wf s ->
  (forall t o, stateObjects t !! a = Some o -> deleted o = false -> address o = a ->
     balance (f t o) b = if decide (b = a) then Balance (data o) + v else balance t b) ->
  balance (let '(o, s) := GetOrNewStateObject s a in f s o) b = balance s b + (if decide (b = a) then v else 0).
Proof.
  intros W Hf. destruct (GetOrNewStateObject_frame s a W) as (o & t & -> & Wt & Hl & Hd & Ho & Hb).
  destruct (wf_obj _ Wt a o) as [Ha _]; [by apply look_live|]. rewrite Hf by done. case_decide as E.
  - subst b. by rewrite (balance_found t s a).
  - rewrite (balance_same s t) by (by apply Hb). lia.
Qed.

Lemma balance_live t o a : stateObjects t !! a = Some o -> deleted o = false -> balance t a = Balance (data o).
Proof. intros H Hd. unfold balance, live. by rewrite (look_live _ _ _ H), Hd. Qed.

Lemma AddBalance_balance s a v b :
  wf s -> balance (AddBalance s a v) b = balance s b + (if decide (b = a) then v else 0).
Proof.
  intros W. apply balance_change; [done|]. intros t o Hl Hd Ha. unfold obj_AddBalance. case_decide as Ev.
  - replace (balance _ b) with (balance t b) by (destruct (empty o); by rewrite ?balance_touch).
    case_decide as E; [|done]. subst. rewrite (balance_live _ _ _ Hl Hd). lia.
  - unfold obj_SetBalance. by rewrite balance_set, Ha.
Qed.

Lemma SubBalance_balance s a v b :
  wf s -> balance (SubBalance s a v) b = balance s b - (if decide (b = a) then v else 0).
Proof.
  intros W. transitivity (balance s b + (if decide (b = a) then - v else 0)); [|case_decide; lia].
  apply balance_change; [done|]. intros t o Hl Hd Ha. unfold obj_SubBalance. case_decide as Ev.
  - case_decide as E; [|done]. subst. rewrite (balance_live _ _ _ Hl Hd). lia.
  - unfold obj_SetBalance. by rewrite balance_set, Ha.
Qed.

(** A transfer moves the amount from the sender to the recipient and changes
    no other balance; when [CanTransfer] allows it no balance becomes negative. *)
Theorem Transfer_moves s sender recipient amount :
  wf s ->
  (forall b, (GetBalance (Transfer s sender recipient amount) b).1 =
     (GetBalance s b).1 - (if decide (b = sender) then amount else 0) + (if decide (b = recipient) then amount else 0)) /\
  ((CanTransfer s sender amount).1 = true -> 0 <= amount -> (forall b, 0 <= (GetBalance s b).1) ->
   forall b, 0 <= (GetBalance (Transfer s sender recipient amount) b).1).
Proof.
  intros W.
  assert (E : forall b, (GetBalance (Transfer s sender recipient amount) b).1 =
     (GetBalance s b).1 - (if decide (b = sender) then amount else 0) + (if decide (b = recipient) then amount else 0)).
  { intros b. rewrite !GetBalance_balance. unfold Transfer.
    rewrite AddBalance_balance by (apply (call_op s (CSubBalance sender amount)); done). by rewrite SubBalance_balance. }
  split; [done|]. intros Hc Ha Hb b. rewrite E. specialize (Hb b). unfold CanTransfer in Hc.
  pose proof (GetBalance_balance s sender) as Hs. destruct (GetBalance s sender) as [x s1]. cbn in *.
  apply bool_decide_eq_true in Hc. rewrite GetBalance_balance in *. repeat case_decide; subst; lia.
Qed.

(** *** Storage *)

Lemma same_state s t a k : same_account t s a -> (GetState t a k).1 = (GetState s a k).1.
Proof.
  intros H. destruct (getters t a k) as (_ & _ & _ & _ & _ & _ & _ & _ & -> & _).
  destruct (getters s a k) as (_ & _ & _ & _ & _ & _ & _ & _ & -> & _). by destruct H as [o o' []|].
Qed.

Lemma same_committed s t a k : same_account t s a -> (GetCommittedState t a k).1 = (GetCommittedState s a k).1.
Proof.
  intros H. destruct (getters t a k) as (_ & _ & _ & _ & _ & _ & _ & _ & _ & ->).
  destruct (getters s a k) as (_ & _ & _ & _ & _ & _ & _ & _ & _ & ->). by destruct H as [o o' []|].
Qed.

Lemma view_append t e o o' k : state_of (setStateObject (append t e) o') o k = state_of t o k.
Proof. by rewrite !state_committed, (committed_view _ t). Qed.

(** The slots after the write of one, as seen in the state it leads to. *)
Lemma SetState_object t a o k v :
  wf t -> stateObjects t !! a = Some o -> deleted o = false ->
  exists o', live (obj_SetState t o k v) a = Some o' /\
    (forall j, state_of (obj_SetState t o k v) o' j = if decide (j = k) then v else state_of t o j) /\
    (forall j, committed (obj_SetState t o k v) o' j = committed t o j) /\
    forall b, b <> a -> same_account (obj_SetState t o k v) t b.
Proof.
  intros W Hl Hd. destruct (wf_obj _ W a o) as [Ha Hf]; [by apply look_live|].
  unfold obj_SetState. rewrite Hf. pose proof (GetState_eqv t o k) as C.
  destruct (obj_GetState t o k) as [pv o1] eqn:E. cbn [snd] in C. pose proof C as [Ea Ed Es El Ef Ec Ek Est].
  assert (Epv : pv = state_of t o k) by (unfold state_of; by rewrite E).
  assert (Hsame : forall u, snap u = snap t -> snapDestructs u = snapDestructs t -> (forall b, b <> a -> look u b = look t b) ->
     forall b, b <> a -> same_account u t b).
  { intros u H1 H2 H3 b Hb. apply same_look; [done|done|by rewrite H2|by apply H3]. }
  case_decide as Ev.
  - exists o1. split; [|split; [|split]].
    + unfold live. rewrite look_set_eq, El, Hd by congruence. done.
    + intros j. transitivity (state_of t o1 j); [by rewrite !state_committed, (committed_view _ t)|].
      rewrite Est. case_decide; [congruence|done].
    + intros j. rewrite (committed_view _ t) by done. apply Ek.
    + apply Hsame; [done..|]. intros b Hb. apply look_set_ne. congruence.
  - exists (setState o1 k v). split; [|split; [|split]].
    + unfold live. rewrite look_set_eq by (cbn; congruence). cbn. by rewrite El, Hd.
    + intros j. rewrite view_append, state_of_setState by congruence. by rewrite Est.
    + intros j. rewrite (committed_view _ t) by done. rewrite committed_setState. apply Ek.
    + apply Hsame; [done..|]. intros b Hb. rewrite look_set_ne by (cbn; congruence). apply look_append.
Qed.

Lemma SetState_slots s a k v :
  wf s ->
  (GetState (SetState s a k v) a k).1 = v /\
  (forall b j, b <> a \/ (Exist s a).1 = true /\ j <> k -> (GetState (SetState s a k v) b j).1 = (GetState s b j).1) /\
  (forall b j, b <> a \/ (Exist s a).1 = true ->
     (GetCommittedState (SetState s a k v) b j).1 = (GetCommittedState s b j).1).
Proof.
  intros W. unfold SetState. destruct (GetOrNewStateObject_frame s a W) as (o & t & -> & Wt & Hl & Hd & Ho & Hb).
  destruct (SetState_object t a o k v Wt Hl Hd) as (o' & Hv & Hs & Hc & Hb').
  assert (Hsame : forall b, b <> a -> same_account (obj_SetState t o k v) s b)
    by (intros b Hne; apply (same_trans s t); [by apply Hb'|by apply Hb]).
  destruct (getters s a 0) as (HE & _). split; [|split].
  - destruct (getters (obj_SetState t o k v) a k) as (_ & _ & _ & _ & _ & _ & _ & _ & -> & _).
    by rewrite Hv, Hs, decide_True.
  - intros b j Hor. destruct (decide (b = a)) as [->|Hne]; [|by apply same_state, Hsame].
    destruct Hor as [|[Hex Hj]]; [done|]. rewrite HE in Hex. apply bool_decide_eq_true in Hex as [p Hp].
    destruct (getters (obj_SetState t o k v) a j) as (_ & _ & _ & _ & _ & _ & _ & _ & -> & _).
    destruct (getters s a j) as (_ & _ & _ & _ & _ & _ & _ & _ & -> & _).
    rewrite Hv, Hs, decide_False by done. rewrite Hp in *. apply Ho.
  - intros b j Hor. destruct (decide (b = a)) as [->|Hne]; [|by apply same_committed, Hsame].
    destruct Hor as [|Hex]; [done|]. rewrite HE in Hex. apply bool_decide_eq_true in Hex as [p Hp].
    destruct (getters (obj_SetState t o k v) a j) as (_ & _ & _ & _ & _ & _ & _ & _ & _ & ->).
    destruct (getters s a j) as (_ & _ & _ & _ & _ & _ & _ & _ & _ & ->).
    rewrite Hv, Hc. rewrite Hp in *. apply Ho.
Qed.

(** After [SetState] the slot holds the value; every other slot of the
    account, when it existed, and every slot of another account is as before,
    and no committed value changes. *)
Theorem SetState_reads s a k v :
  wf s ->
  (GetState (SetState s a k v) a k).1 = v /\
  (forall b j, b <> a \/ (Exist s a).1 = true /\ j <> k -> (GetState (SetState s a k v) b j).1 = (GetState s b j).1) /\
  (forall b j, b <> a \/ (Exist s a).1 = true ->
     (GetCommittedState (SetState s a k v) b j).1 = (GetCommittedState s b j).1).
Proof. apply SetState_slots. Qed.

(** *** The end of a transaction *)

Definition dies (del : bool) o : bool := suicided o || (del && empty o).

Definition fin (del : bool) o : stateObject :=
  if dies del o then obj_set_flags o (suicided o) true else finalise o.

Lemma insert_alter_Some {A} (m : gmap Z A) (f : A -> A) a x : m !! a = Some x -> <[a := f x]> m = alter f a m.
Proof.
  intros E. apply map_eq. intros b. destruct (decide (b = a)) as [->|].
  - by rewrite lookup_insert_eq, lookup_alter_eq, E.
  - by rewrite lookup_insert_ne, lookup_alter_ne.
Qed.

(** One round, by field. *)
Lemma finalise_account_fields del s a :
  (forall o, stateObjects s !! a = Some o -> address o = a) ->
  stateObjects (finalise_account del s a) = alter (fin del) a (stateObjects s) /\
  snap (finalise_account del s a) = snap s /\
  jrnl (finalise_account del s a) = jrnl s /\
  forall b, hash_address b ∈ snapDestructs (finalise_account del s a) <->
    hash_address b ∈ snapDestructs s \/
    b = a /\ snap s = true /\ exists o, stateObjects s !! a = Some o /\ dies del o = true.
Proof.
  intros Ha. unfold finalise_account. destruct (stateObjects s !! a) as [o|] eqn:E.
  - specialize (Ha o eq_refl). fold (dies del o). pose proof (insert_alter_Some _ (fin del) a o E) as Eo.
    unfold fin in Eo at 1. destruct (dies del o) eqn:Ed; cbn.
    + rewrite Ha, <- Eo. destruct (snap s) eqn:Es; cbn; rewrite ?Ha; (split; [done|]); (split; [done|]); (split; [done|]); intros b.
      * rewrite elem_of_union, elem_of_singleton. split; [intros [->%hash_address_inj|?]; eauto 10|].
        intros [?|(-> & _)]; [by right|by left].
      * split; [by left|]. by intros [?|(_ & ? & _)].
    + rewrite Ha, <- Eo. split_and!; try done. intros b. split; [by left|].
      intros [?|(_ & _ & p & [= <-] & Hp)]; [done|congruence].
  - split_and!; try done; [|intros b; split; [by left|]; by intros [?|(_ & _ & p & ? & _)]]. symmetry. apply map_eq. intros b.
    destruct (decide (b = a)) as [->|]; [by rewrite lookup_alter_eq, E|by rewrite lookup_alter_ne].
Qed.

Lemma fin_address del o : address (fin del o) = address o.
Proof. unfold fin. by destruct (dies del o). Qed.

(** All rounds: the order does not matter. *)
Lemma finalise_all del addrs s :
  NoDup addrs -> (forall a o, stateObjects s !! a = Some o -> address o = a) ->
  let t := fold_left (finalise_account del) addrs s in
  (forall a, stateObjects t !! a = (if decide (a ∈ addrs) then fin del else id) <$> stateObjects s !! a) /\
  snap t = snap s /\ jrnl t = jrnl s /\
  forall b, hash_address b ∈ snapDestructs t <->
    hash_address b ∈ snapDestructs s \/
    b ∈ addrs /\ snap s = true /\ exists o, stateObjects s !! b = Some o /\ dies del o = true.
Proof.
  revert s. induction addrs as [|a addrs IH]; intros s Hnd Ha; cbn.
  { split_and!; try done; [intros a; by rewrite option_fmap_id|]. intros b. set_solver. }
  inversion Hnd as [|? ? Hn Hnd']; subst. destruct (finalise_account_fields del s a (Ha a)) as (Ho & Hs & Hj & Hd).
  destruct (IH (finalise_account del s a) Hnd') as (Io & Is & Ij & Id).
  { intros b o. rewrite Ho. intros Hb. destruct (decide (b = a)) as [->|]; [|rewrite lookup_alter_ne in Hb by done; by apply Ha].
    rewrite lookup_alter_eq in Hb. destruct (stateObjects s !! a) as [p|] eqn:Ep; [|done]. injection Hb as <-.
    rewrite fin_address. by apply Ha. }
  split_and!; [|congruence..|].
  - intros b. rewrite Io, Ho. destruct (decide (b = a)) as [->|Hne].
    + rewrite lookup_alter_eq, decide_False, decide_True by set_solver. by destruct (stateObjects s !! a).
    + rewrite lookup_alter_ne by done. destruct (decide (b ∈ addrs)); [rewrite decide_True|rewrite decide_False]; set_solver.
  - intros b. rewrite Id, Hd, Hs, Ho, elem_of_cons. destruct (decide (b = a)) as [->|Hne].
    + tauto.
    + rewrite lookup_alter_ne by done. tauto.
Qed.

Lemma clear_fields s :
  stateObjects (clearJournalAndRefund s) = stateObjects s /\ snap (clearJournalAndRefund s) = snap s /\
  snapDestructs (clearJournalAndRefund s) = snapDestructs s /\
  entries (jrnl (clearJournalAndRefund s)) = [] /\ validRevisions (clearJournalAndRefund s) = [].
Proof. unfold clearJournalAndRefund. destruct (entries (jrnl s)) eqn:E; split_and!; try done. Qed.

Lemma committed_finalise s o k : fakeStorage o = None -> committed s (finalise o) k = state_of s o k.
Proof.
  intros Hf. rewrite state_committed, !committed_layers. cbn. rewrite Hf, lookup_union.
  rewrite (getTrie_1 (finalise o) o) by done. destruct (dirtyStorage o !! k), (pendingStorage o !! k); done.
Qed.

(** [Finalise] on the account [a], seen in the state [t] that it gives. *)
Lemma Finalise_account s del addrs a :
  wf s -> NoDup addrs ->
  let t := Finalise s del addrs in
  match stateObjects s !! a with
  | Some o =>
      if decide (a ∈ addrs) then
        if dies del o then live t a = None
        else live t a = (if deleted o then None else Some (finalise o)) /\
             forall k, committed t (finalise o) k = state_of s o k
      else same_account t s a
  | None => same_account t s a
  end.
Proof.
  intros W Hnd t. destruct (finalise_all del addrs s Hnd) as (Ho & Hs & _ & Hd).
  { intros b o Hb. apply (wf_obj _ W). by apply look_live. }
  destruct (clear_fields (fold_left (finalise_account del) addrs s)) as (Eo & Es & Ed & _).
  change (clearJournalAndRefund _) with t in Eo, Es, Ed. rewrite <- Eo in Ho. rewrite <- Es in Hs. rewrite <- Ed in Hd.
  clear Eo Es Ed. clearbody t. specialize (Ho a). specialize (Hd a).
  assert (Hsame : stateObjects t !! a = stateObjects s !! a -> (hash_address a ∈ snapDestructs t <-> hash_address a ∈ snapDestructs s) ->
    same_account t s a).
  { intros H1 H2. apply same_look; try done. unfold look. by rewrite H1, (loaded_snap t s). }
  destruct (stateObjects s !! a) as [o|] eqn:E.
  2:{ apply Hsame; [by rewrite Ho|]. rewrite Hd. split; [|by left]. by intros [?|(_ & _ & ? & ? & _)]. }
  destruct (wf_obj _ W a o) as [Ha Hf]; [by apply look_live|].
  destruct (decide (a ∈ addrs)) as [Hin|Hin].
  2:{ apply Hsame; [by rewrite Ho|]. rewrite Hd. split; [|by left]. by intros [?|[? _]]. }
  cbn in Ho. unfold live. rewrite (look_live _ _ _ Ho). unfold fin. destruct (dies del o) eqn:Edi; [done|].
  split; [done|]. intros k. rewrite (committed_view t s); [by apply committed_finalise|done|].
  cbn. rewrite Ha, Hd. split; [|by left]. intros [?|(_ & _ & p & [= <-] & ?)]; [done|congruence].
Qed.

Lemma Finalise_reads s del addrs a k (modified : bool) :
  wf s -> NoDup addrs -> modified = bool_decide (a ∈ addrs /\ is_Some (stateObjects s !! a)) ->
  let t := Finalise s del addrs in
  let gone := modified && ((HasSuicided s a).1 || del && (Empty s a).1) in
  (Exist t a).1 = (Exist s a).1 && negb gone /\
  (gone = false ->
    (GetBalance t a).1 = (GetBalance s a).1 /\ (GetNonce t a).1 = (GetNonce s a).1 /\
    (GetCode t a).1 = (GetCode s a).1 /\ (GetState t a k).1 = (GetState s a k).1 /\
    (GetCommittedState t a k).1 = if modified then (GetState s a k).1 else (GetCommittedState s a k).1).
Proof.
  intros W Hnd Hm t. cbn zeta. pose proof (Finalise_account s del addrs a W Hnd) as Hf. fold t in Hf. cbn zeta in Hf.
  destruct (getters s a k) as (-> & -> & -> & -> & -> & _ & -> & _ & -> & ->).
  destruct (getters t a k) as (-> & _ & _ & -> & -> & _ & -> & _ & -> & ->). clearbody t.
  destruct (stateObjects s !! a) as [o|] eqn:E; [destruct (decide (a ∈ addrs)) as [Hin|Hin]|];
    rewrite ?bool_decide_true in Hm by eauto; rewrite ?bool_decide_false in Hm by (intros [? [? ?]]; done); subst modified.
  1:{ assert (Hl : live s a = if deleted o then None else Some o) by (unfold live; by rewrite (look_live _ _ _ E)).
      destruct (wf_obj _ W a o) as [_ Hfake]; [by apply look_live|].
      rewrite Hl. unfold dies in Hf. destruct (suicided o || del && empty o) eqn:Ed.
      - rewrite Hf. destruct (deleted o); [by split|]. rewrite Ed. split; [by rewrite andb_false_r|done].
      - destruct Hf as [-> Hc]. destruct (deleted o); [by split|]. rewrite Ed. cbn.
        split; [done|]. intros _.
        rewrite !state_committed. cbn. rewrite Hfake, Hc, state_committed, Hfake.
        split_and!; try done. by rewrite !eff_code_layers. }
  all: destruct Hf as [p p' [Ea Ed _ _ _ Ec Ek Est]|]; [|by split];
    rewrite !bool_decide_true by eauto; rewrite ?Ed; by split.
Qed.

(** C32: The end of a transaction, in whichever order Go ranges over the dirty
    accounts: of the accounts that were modified, those that destructed
    themselves (and the empty ones, where that is asked for) cease to exist; all
    others keep their balance, nonce, code and storage, the storage now being
    the committed one; nothing is left to revert. *)
Theorem Finalise_effect s del addrs a k :
  wf s -> NoDup addrs -> (forall b, b ∈ addrs <-> is_Some (dirties (jrnl s) !! b)) ->
  let t := Finalise s del addrs in
  let modified := bool_decide (is_Some (dirties (jrnl s) !! a) /\ is_Some (stateObjects s !! a)) in
  let gone := modified && ((HasSuicided s a).1 || del && (Empty s a).1) in
  (Exist t a).1 = (Exist s a).1 && negb gone /\
  (gone = false ->
    (GetBalance t a).1 = (GetBalance s a).1 /\ (GetNonce t a).1 = (GetNonce s a).1 /\
    (GetCode t a).1 = (GetCode s a).1 /\ (GetState t a k).1 = (GetState s a k).1 /\
    (GetCommittedState t a k).1 = if modified then (GetState s a k).1 else (GetCommittedState s a k).1) /\
  entries (jrnl t) = [] /\ validRevisions t = [].
Proof.
  intros W Hnd Hdirty t modified gone.
  destruct (Finalise_reads s del addrs a k modified W Hnd) as [H1 H2]; [|split; [done|split; [done|apply clear_fields]]].
  apply bool_decide_ext. by rewrite Hdirty.
Qed.

(** *** The invariant across transactions *)

Lemma finalise_account_wf del s a : wf s -> wf (finalise_account del s a).
Proof.
  intros W. unfold finalise_account. destruct (stateObjects s !! a) as [o|] eqn:E; [|done].
  pose proof (look_live _ _ _ E) as Hl. destruct (wf_obj _ W a o Hl) as [Ha Hf]. fold (dies del o).
  set (u := if dies del o then _ else _).
  assert (Wu : wf u /\ is_Some (look u a)).
  { unfold u. destruct (dies del o).
    - pose proof (wf_set s (obj_set_flags o (suicided o) true) W Hf) as W1.
      assert (H1 : is_Some (look (setStateObject s (obj_set_flags o (suicided o) true)) a)) by (rewrite look_set_eq; eauto).
      destruct (snap _); [|done]. split; [|done]. split; apply W1.
    - split; [by apply wf_set|]. rewrite look_set_eq; eauto. }
  clearbody u. destruct Wu as [Wu Hu]. split; try apply Wu. cbn. intros b [->%elem_of_singleton|Hb]%elem_of_union; [done|].
  by apply Wu.
Qed.

Lemma clear_wf s : wf s -> wf (clearJournalAndRefund s).
Proof. intros W. unfold clearJournalAndRefund. destruct (entries (jrnl s)); split; try apply W. done. Qed.

Lemma Finalise_start s del addrs : wf s -> start (Finalise s del addrs).
Proof.
  intros W. split; [|by apply clear_fields]. apply clear_wf. revert s W.
  induction addrs as [|a addrs IH]; intros s W; [done|]. cbn. by apply IH, finalise_account_wf.
Qed.

(** [Prepare] starts the next transaction. *)
Lemma Prepare_start s th bh ti : start s -> start (Prepare s th bh ti).
Proof. intros [W V]. split; [|done]. split; try apply W. apply al_ok_new. Qed.

(** A block of transactions: the calls of each, and the order in which
    [Finalise] ranges over the dirty accounts. *)
Fixpoint transactions s (del : bool) (txs : list (Z * Z * Z * list call * list Z)) : outcome Empty_set StateDB :=
  match txs with
  | [] => Ret s
  | (th, bh, ti, cs, addrs) :: txs =>
      s ← execs (Prepare s th bh ti) cs;
      transactions (Finalise s del addrs) del txs
  end.

(** The invariant on which snapshots rely holds from a fresh state through
    any number of transactions. *)
Theorem transactions_start sn del txs s : transactions (New sn) del txs = Ret s -> start s.
Proof.
  assert (G : forall txs u, start u -> transactions u del txs = Ret s -> start s); [|apply G, New_start].
  clear txs. induction txs as [|[[[[th bh] ti] cs] addrs] txs IH]; intros u S; cbn; [by intros [= <-]|].
  destruct (execs (Prepare u th bh ti) cs) as [v| |] eqn:E; cbn; [|done..]. apply IH, Finalise_start.
  destruct (execs_chain [] _ _ _ (start_chain _ (Prepare_start u th bh ti S)) E) as (st & C & _). by apply chain_wf in C.
Qed.

End Effects.

Module EffectExamples.
Import SnapExamples.

Lemma ex_s0_wf : wf ex_s0.
Proof.
  assert (E : execs (New true) [CAddBalance 5 10; CAddAddressToAccessList 5] = Ret ex_s0) by (vm_compute; reflexivity).
  destruct (execs_chain [] _ _ _ (start_chain _ (New_start true)) E) as (st & C & _). by apply chain_wf in C.
Qed.

Lemma Transfer_moves_witness :
  wf ex_s0 /\ (CanTransfer ex_s0 5 30).1 = true /\ (GetBalance (Transfer ex_s0 5 6 30) 6).1 = 30.
Proof.
  split; [exact ex_s0_wf|]. split; [vm_compute; reflexivity|].
  rewrite (proj1 (Transfer_moves ex_s0 5 6 30 ex_s0_wf) 6). vm_compute. reflexivity.
Defined.

Lemma SetState_reads_witness :
  (GetState (SetState ex_s0 5 3 44) 5 3).1 = 44 /\ (GetState (SetState ex_s0 5 8 44) 5 3).1 = 9.
Proof.
  split; [apply (SetState_reads ex_s0 5 3 44 ex_s0_wf)|].
  rewrite (proj1 (proj2 (SetState_reads ex_s0 5 8 44 ex_s0_wf)) 5 3).
  - vm_compute. reflexivity.
  - right. split; [vm_compute; reflexivity|lia].
Defined.

Lemma Finalise_effect_witness :
  (Exist (Finalise (Suicide ex_s0 5).2 true [5]) 5).1 = false /\
  (Exist (Finalise ex_s0 true [5]) 5).1 = true.
Proof.
  assert (W : wf (Suicide ex_s0 5).2) by (apply (op_wf ex_s0), Suicide_call_op, ex_s0_wf).
  assert (N : NoDup [5]) by (repeat constructor; set_solver).
  assert (D : forall b, b ∈ [5] <-> is_Some (dirties (jrnl ex_s0) !! b)).
  { intros b. change (dirties (jrnl ex_s0)) with ({[ 5 := 1 ]} : gmap Z Z). rewrite lookup_singleton_is_Some. set_solver. }
  assert (D' : forall b, b ∈ [5] <-> is_Some (dirties (jrnl (Suicide ex_s0 5).2) !! b)).
  { intros b. change (dirties (jrnl (Suicide ex_s0 5).2)) with ({[ 5 := 2 ]} : gmap Z Z). rewrite lookup_singleton_is_Some. set_solver. }
  split.
  - rewrite (proj1 (Finalise_effect (Suicide ex_s0 5).2 true [5] 5 0 W N D')). vm_compute. reflexivity.
  - rewrite (proj1 (Finalise_effect ex_s0 true [5] 5 0 ex_s0_wf N D)). vm_compute. reflexivity.
Defined.

Lemma transactions_start_witness :
  exists s, transactions (New true) true [(1, 2, 0, CSnapshot :: ex_calls, [5; 3]); (2, 2, 1, [CSnapshot], [])] = Ret s /\ start s.
Proof.
  eexists. split; [vm_compute; reflexivity|].
  apply (transactions_start true true [(1, 2, 0, CSnapshot :: ex_calls, [5; 3]); (2, 2, 1, [CSnapshot], [])]).
  vm_compute. reflexivity.
Defined.

End EffectExamples.
