(* ===== verification/Uint256.v ===== *)
(** * 256-bit integers (github.com/holiman/uint256)

    The virtual machine computes with the integers of a package that is not part
    of the repository.  Its values are integers from 0 to 2^256 - 1 and its
    operations are an interface; what the virtual machine relies on is stated as
    laws, and an instance shows that they can hold. *)

From S2P Require Import Prelude.

Definition is_u256 (x : Z) : Prop := 0 <= x < 2 ^ 256.

#[global] Instance is_u256_dec x : Decision (is_u256 x).
Proof. unfold is_u256. apply _. Defined.

(** The two's complement reading. *)
Definition signed (x : Z) : Z := if decide (x < 2 ^ 255) then x else x - 2 ^ 256.

(** The value of the low [w] bits in two's complement. *)
Definition sign_extend (w x : Z) : Z :=
  let low := x mod 2 ^ w in if decide (low < 2 ^ (w - 1)) then low else low - 2 ^ w.

(** The power modulo [2^256], by squaring. *)
Fixpoint pow256_pos (x : Z) (n : positive) : Z :=
  match n with
  | xH => x mod 2 ^ 256
  | xO n => let y := pow256_pos x n in (y * y) mod 2 ^ 256
  | xI n => let y := pow256_pos x n in (y * y * x) mod 2 ^ 256
  end.

Definition pow256 (x n : Z) : Z := match n with Z0 => 1 | Zpos p => pow256_pos x p | Zneg _ => 0 end.

Lemma pow256_spec x n : 0 <= n -> pow256 x n = x ^ n mod 2 ^ 256.
Proof.
  intros Hn. destruct n as [|p|p]; [done| |lia]. cbn [pow256]. clear Hn.
  assert (Hsq : forall y, (y mod 2 ^ 256 * (y mod 2 ^ 256)) mod 2 ^ 256 = (y * y) mod 2 ^ 256).
  { intros y. by rewrite <- Z.mul_mod by lia. }
  induction p as [p IH|p IH|]; cbn [pow256_pos].
  - rewrite IH, <- Z.mul_mod_idemp_l, Hsq, Z.mul_mod_idemp_l by lia. f_equal.
    replace (Z.pos p~1) with (Z.pos p + Z.pos p + 1) by lia. rewrite !Z.pow_add_r by lia. lia.
  - rewrite IH, Hsq. f_equal. replace (Z.pos p~0) with (Z.pos p + Z.pos p) by lia. by rewrite Z.pow_add_r by lia.
  - by rewrite Z.pow_1_r.
Qed.

Class Uint256 := {
  IsUint64 : Z -> bool;
  Uint64 : Z -> Z;
  Uint64WithOverflow : Z -> Z * bool;
  Sign : Z -> Z;
  IsZero : Z -> bool;
  BitLen : Z -> Z;
  Bytes20 : Z -> Z;
  Bytes32 : Z -> Z;
  SetBytes : bytes -> Z;
  FromBig : Z -> Z * bool;
  Add : Z -> Z -> Z;
  Sub : Z -> Z -> Z;
  Mul : Z -> Z -> Z;
  Div : Z -> Z -> Z;
  SDiv : Z -> Z -> Z;
  Mod : Z -> Z -> Z;
  SMod : Z -> Z -> Z;
  Exp : Z -> Z -> Z;
  ExtendSign : Z -> Z -> Z;
  Not : Z -> Z;
  Lt : Z -> Z -> bool;
  Gt : Z -> Z -> bool;
  Slt : Z -> Z -> bool;
  Sgt : Z -> Z -> bool;
  Eq : Z -> Z -> bool;
  And : Z -> Z -> Z;
  Or : Z -> Z -> Z;
  Xor : Z -> Z -> Z;
  Byte : Z -> Z -> Z;
  AddMod : Z -> Z -> Z -> Z;
  MulMod : Z -> Z -> Z -> Z;
  Lsh : Z -> Z -> Z;
  Rsh : Z -> Z -> Z;
  SRsh : Z -> Z -> Z
}.

(** The documented behaviour. *)
Class Uint256Laws (U : Uint256) := {
  IsUint64_spec : forall x, is_u256 x -> IsUint64 x = bool_decide (x < 2 ^ 64);
  Uint64_spec : forall x, is_u256 x -> Uint64 x = x mod 2 ^ 64;
  Uint64WithOverflow_spec : forall x, is_u256 x -> Uint64WithOverflow x = (x mod 2 ^ 64, bool_decide (2 ^ 64 <= x));
  Sign_spec : forall x, is_u256 x -> Sign x = if decide (x = 0) then 0 else if decide (x < 2 ^ 255) then 1 else -1;
  IsZero_spec : forall x, is_u256 x -> IsZero x = bool_decide (x = 0);
  BitLen_spec : forall x, is_u256 x -> BitLen x = if decide (x = 0) then 0 else Z.log2 x + 1;
  Bytes20_spec : forall x, is_u256 x -> Bytes20 x = x mod 2 ^ 160;
  Bytes32_spec : forall x, is_u256 x -> Bytes32 x = x;
  SetBytes_spec : forall b, SetBytes b = be_to_Z b mod 2 ^ 256;
  FromBig_spec : forall x, FromBig x = (x mod 2 ^ 256, bool_decide (2 ^ 256 <= Z.abs x));
  Add_spec : forall x y, is_u256 x -> is_u256 y -> Add x y = (x + y) mod 2 ^ 256;
  Sub_spec : forall x y, is_u256 x -> is_u256 y -> Sub x y = (x - y) mod 2 ^ 256;
  Mul_spec : forall x y, is_u256 x -> is_u256 y -> Mul x y = (x * y) mod 2 ^ 256;
  Div_spec : forall x y, is_u256 x -> is_u256 y -> Div x y = if decide (y = 0) then 0 else x / y;
  SDiv_spec : forall x y, is_u256 x -> is_u256 y -> SDiv x y = if decide (y = 0) then 0 else Z.quot (signed x) (signed y) mod 2 ^ 256;
  Mod_spec : forall x y, is_u256 x -> is_u256 y -> Mod x y = if decide (y = 0) then 0 else x mod y;
  SMod_spec : forall x y, is_u256 x -> is_u256 y -> SMod x y = if decide (y = 0) then 0 else Z.rem (signed x) (signed y) mod 2 ^ 256;
  Exp_spec : forall x y, is_u256 x -> is_u256 y -> Exp x y = x ^ y mod 2 ^ 256;
  ExtendSign_spec : forall x n, is_u256 x -> is_u256 n -> ExtendSign x n = if decide (30 < n) then x else sign_extend (8 * n + 8) x mod 2 ^ 256;
  Not_spec : forall x, is_u256 x -> Not x = 2 ^ 256 - 1 - x;
  Lt_spec : forall x y, is_u256 x -> is_u256 y -> Lt x y = bool_decide (x < y);
  Gt_spec : forall x y, is_u256 x -> is_u256 y -> Gt x y = bool_decide (y < x);
  Slt_spec : forall x y, is_u256 x -> is_u256 y -> Slt x y = bool_decide (signed x < signed y);
  Sgt_spec : forall x y, is_u256 x -> is_u256 y -> Sgt x y = bool_decide (signed y < signed x);
  Eq_spec : forall x y, is_u256 x -> is_u256 y -> Eq x y = bool_decide (x = y);
  And_spec : forall x y, is_u256 x -> is_u256 y -> And x y = Z.land x y;
  Or_spec : forall x y, is_u256 x -> is_u256 y -> Or x y = Z.lor x y;
  Xor_spec : forall x y, is_u256 x -> is_u256 y -> Xor x y = Z.lxor x y;
  Byte_spec : forall x n, is_u256 x -> is_u256 n -> Byte x n = if decide (n < 32) then Z.shiftr x (8 * (31 - n)) mod 256 else 0;
  AddMod_spec : forall x y m, is_u256 x -> is_u256 y -> is_u256 m -> AddMod x y m = if decide (m = 0) then 0 else (x + y) mod m;
  MulMod_spec : forall x y m, is_u256 x -> is_u256 y -> is_u256 m -> MulMod x y m = if decide (m = 0) then 0 else (x * y) mod m;
  Lsh_spec : forall x n, is_u256 x -> 0 <= n -> Lsh x n = Z.shiftl x n mod 2 ^ 256;
  Rsh_spec : forall x n, is_u256 x -> 0 <= n -> Rsh x n = Z.shiftr x n;
  SRsh_spec : forall x n, is_u256 x -> 0 <= n -> SRsh x n = Z.shiftr (signed x) n mod 2 ^ 256
}.

(** The operations on [Z]. *)
Module ZUint256.

#[export] Instance z_uint256 : Uint256 := {|
  IsUint64 x := bool_decide (x < 2 ^ 64);
  Uint64 x := x mod 2 ^ 64;
  Uint64WithOverflow x := (x mod 2 ^ 64, bool_decide (2 ^ 64 <= x));
  Sign x := if decide (x = 0) then 0 else if decide (x < 2 ^ 255) then 1 else -1;
  IsZero x := bool_decide (x = 0);
  BitLen x := if decide (x = 0) then 0 else Z.log2 x + 1;
  Bytes20 x := x mod 2 ^ 160;
  Bytes32 x := x;
  SetBytes b := be_to_Z b mod 2 ^ 256;
  FromBig x := (x mod 2 ^ 256, bool_decide (2 ^ 256 <= Z.abs x));
  Add x y := (x + y) mod 2 ^ 256;
  Sub x y := (x - y) mod 2 ^ 256;
  Mul x y := (x * y) mod 2 ^ 256;
  Div x y := if decide (y = 0) then 0 else x / y;
  SDiv x y := if decide (y = 0) then 0 else Z.quot (signed x) (signed y) mod 2 ^ 256;
  Mod x y := if decide (y = 0) then 0 else x mod y;
  SMod x y := if decide (y = 0) then 0 else Z.rem (signed x) (signed y) mod 2 ^ 256;
  Exp x y := pow256 x y;
  ExtendSign x n := if decide (30 < n) then x else sign_extend (8 * n + 8) x mod 2 ^ 256;
  Not x := 2 ^ 256 - 1 - x;
  Lt x y := bool_decide (x < y);
  Gt x y := bool_decide (y < x);
  Slt x y := bool_decide (signed x < signed y);
  Sgt x y := bool_decide (signed y < signed x);
  Eq x y := bool_decide (x = y);
  And x y := Z.land x y;
  Or x y := Z.lor x y;
  Xor x y := Z.lxor x y;
  Byte x n := if decide (n < 32) then Z.shiftr x (8 * (31 - n)) mod 256 else 0;
  AddMod x y m := if decide (m = 0) then 0 else (x + y) mod m;
  MulMod x y m := if decide (m = 0) then 0 else (x * y) mod m;
  Lsh x n := Z.shiftl x n mod 2 ^ 256;
  Rsh x n := Z.shiftr x n;
  SRsh x n := Z.shiftr (signed x) n mod 2 ^ 256
|}.

#[export] Instance z_uint256_laws : Uint256Laws z_uint256.
Proof. split; try done. intros x y _ Hy. apply pow256_spec, Hy. Qed.

End ZUint256.
