(* ===== verification/VmAnalysis.v ===== *)
(** * Jump destination analysis (core/vm/analysis.go, contract.go)

    The bitmap of the bytes of a contract's code that are data of PUSH
    instructions, with its two ways to set bits, and the caching of the analysis
    per code hash in [isCode].  The bitmap is shown equal to a plain scan of the
    code, and a jump is accepted exactly at a JUMPDEST that the scan reaches. *)

From stdpp Require Import gmap.
From S2P Require Import Prelude.

(** ** analysis.go *)

Notation bitvec := bytes.

(** [bits] with [m] or-ed into the byte [i]. *)
Definition or_at (bits : bitvec) (i m : Z) : outcome Empty_set bitvec :=
  b ← go_index bits i;
  Ret (<[Z.to_nat i := Z.lor b m]> bits).

Definition bitvec_set (bits : bitvec) (pos : Z) : outcome Empty_set bitvec :=
  or_at bits (pos / 8) (Z.shiftr 0x80 (pos mod 8)).

Definition set8 (bits : bitvec) (pos : Z) : outcome Empty_set bitvec :=
  bits ← or_at bits (pos / 8) (Z.shiftr 0xFF (pos mod 8));
  or_at bits (pos / 8 + 1) (Z.lxor 0xFF (Z.shiftr 0xFF (pos mod 8))).

Definition codeSegment (bits : bitvec) (pos : Z) : outcome Empty_set bool :=
  b ← go_index bits (pos / 8);
  Ret (bool_decide (Z.land b (Z.shiftr 0x80 (pos mod 8)) = 0)).

Definition PUSH1 : Z := 0x60.
Definition PUSH32 : Z := 0x7f.
Definition JUMPDEST : Z := 0x5b.
Definition BEGINSUB : Z := 0x5c.

(** The loop over whole bytes of PUSH data; what is left of [numbits], the
    bitmap and the program counter. *)
Fixpoint push_bytes (fuel : nat) (numbits : Z) (bits : bitvec) (pc : Z) : fuelled Empty_set (Z * bitvec * Z) :=
  match fuel with
  | O => out_of_fuel
  | S fuel =>
      if decide (numbits >= 8) then
        bits ← run (set8 bits pc);
        push_bytes fuel (numbits - 8) bits (u64 (pc + 8))
      else run (Ret (numbits, bits, pc))
  end.

Fixpoint push_bits (fuel : nat) (numbits : Z) (bits : bitvec) (pc : Z) : fuelled Empty_set (bitvec * Z) :=
  match fuel with
  | O => out_of_fuel
  | S fuel =>
      if decide (numbits > 0) then
        bits ← run (bitvec_set bits pc);
        push_bits fuel (numbits - 1) bits (u64 (pc + 1))
      else run (Ret (bits, pc))
  end.

Fixpoint codeBitmap_loop (fuel : nat) (code : bytes) (bits : bitvec) (pc : Z) : fuelled Empty_set bitvec :=
  match fuel with
  | O => out_of_fuel
  | S fuel =>
      if decide (pc < zlen code) then
        op ← run (go_index code pc);
        if decide (PUSH1 <= op <= PUSH32) then
          r ← push_bytes fuel (op - PUSH1 + 1) bits (u64 (pc + 1));
          let '(numbits, bits, pc) := r in
          r ← push_bits fuel numbits bits pc;
          let '(bits, pc) := r in
          codeBitmap_loop fuel code bits pc
        else codeBitmap_loop fuel code bits (u64 (pc + 1))
      else run (Ret bits)
  end.

Definition codeBitmap (fuel : nat) (code : bytes) : fuelled Empty_set bitvec :=
  codeBitmap_loop fuel code (replicate (Z.to_nat (zlen code / 8 + 1 + 4)) 0) 0.

(** Rounds of the main loop, and of the loops in the last one. *)
Definition bitmap_fuel (code : bytes) : nat := length code + 10.

(** ** The plain scan *)

(** How many bytes of data follow an instruction. *)
Definition push_size (op : Z) : nat := if decide (PUSH1 <= op <= PUSH32) then Z.to_nat (op - PUSH1 + 1) else 0.

(** Which bytes are instructions; [skip] bytes of data come first. *)
Fixpoint instructions (skip : nat) (code : bytes) : list bool :=
  match code with
  | [] => []
  | op :: code =>
      match skip with
      | S skip => false :: instructions skip code
      | O => true :: instructions (push_size op) code
      end
  end.

(** ** Bits of the bitmap *)

Definition bit (bits : bitvec) (p : Z) : bool := Z.testbit (nth (Z.to_nat (p / 8)) bits 0) (7 - p mod 8).

Lemma pos_split p : 0 <= p -> p = 8 * (p / 8) + p mod 8 /\ 0 <= p / 8 /\ 0 <= p mod 8 < 8.
Proof. intros. Z.to_euclidean_division_equations; lia. Qed.

Lemma or_at_spec bits i m :
  0 <= i < zlen bits -> exists bits', or_at bits i m = Ret bits' /\ zlen bits' = zlen bits /\
    forall p, 0 <= p -> bit bits' p = bit bits p || (bool_decide (p / 8 = i) && Z.testbit m (7 - p mod 8)).
Proof.
  intros Hi. unfold or_at. destruct (lookup_lt_is_Some_2 bits (Z.to_nat i)) as [b Hb]; [unfold zlen in *; lia|].
  unfold go_index. rewrite decide_True, Hb by lia. cbn [mbind outcome_bind]. eexists. split; [done|].
  split; [unfold zlen; by rewrite length_insert|]. intros p Hp. unfold bit. destruct (pos_split p Hp) as (E & H1 & H2).
  case_bool_decide as Ei.
  - rewrite Ei. rewrite !nth_lookup, list_lookup_insert_eq, Hb by (apply lookup_lt_Some in Hb; lia). cbn [default id].
    by rewrite Z.lor_spec.
  - rewrite !nth_lookup, list_lookup_insert_ne by lia. by rewrite orb_false_r.
Qed.

Lemma testbit_80 r i : 0 <= r < 8 -> 0 <= i < 8 -> Z.testbit (Z.shiftr 0x80 r) (7 - i) = bool_decide (i = r).
Proof.
  intros Hr Hi. rewrite Z.shiftr_spec by lia. change 0x80 with (2 ^ 7). rewrite Z.pow2_bits_eqb by lia.
  apply Bool.eq_iff_eq_true. rewrite Z.eqb_eq, bool_decide_eq_true. lia.
Qed.

Lemma testbit_ff r i : 0 <= r < 8 -> 0 <= i < 8 -> Z.testbit (Z.shiftr 0xFF r) (7 - i) = bool_decide (r <= i).
Proof.
  intros Hr Hi. rewrite Z.shiftr_spec by lia. change 0xFF with (Z.ones 8). rewrite Z.testbit_ones_nonneg by lia.
  apply Bool.eq_iff_eq_true. rewrite Z.ltb_lt, bool_decide_eq_true. lia.
Qed.

Lemma set_spec bits pos :
  0 <= pos -> pos / 8 < zlen bits ->
  exists bits', bitvec_set bits pos = Ret bits' /\ zlen bits' = zlen bits /\
    forall p, 0 <= p -> bit bits' p = bit bits p || bool_decide (p = pos).
Proof.
  intros Hp Hl. destruct (pos_split pos Hp) as (E & H1 & H2).
  destruct (or_at_spec bits (pos / 8) (Z.shiftr 0x80 (pos mod 8))) as (bits' & Hs & Hz & Hb); [lia|].
  exists bits'. split; [done|]. split; [done|]. intros p Hp'. destruct (pos_split p Hp') as (E' & H1' & H2').
  rewrite Hb, testbit_80 by lia. f_equal. apply Bool.eq_iff_eq_true. rewrite andb_true_iff, !bool_decide_eq_true. lia.
Qed.

Lemma set8_spec bits pos :
  0 <= pos -> pos / 8 + 1 < zlen bits ->
  exists bits', set8 bits pos = Ret bits' /\ zlen bits' = zlen bits /\
    forall p, 0 <= p -> bit bits' p = bit bits p || bool_decide (pos <= p < pos + 8).
Proof.
  intros Hp Hl. destruct (pos_split pos Hp) as (E & H1 & H2). unfold set8.
  destruct (or_at_spec bits (pos / 8) (Z.shiftr 0xFF (pos mod 8))) as (b1 & -> & Hz1 & Hb1); [lia|].
  cbn [mbind outcome_bind].
  destruct (or_at_spec b1 (pos / 8 + 1) (Z.lxor 0xFF (Z.shiftr 0xFF (pos mod 8)))) as (b2 & -> & Hz2 & Hb2); [lia|].
  exists b2. split; [done|]. split; [lia|]. intros p Hp'. destruct (pos_split p Hp') as (E' & H1' & H2').
  rewrite Hb2, Hb1, Z.lxor_spec, testbit_ff, <- orb_assoc by lia. f_equal.
  change 0xFF with (Z.ones 8). rewrite Z.testbit_ones_nonneg by lia.
  replace (7 - p mod 8 <? 8) with true by (symmetry; apply Z.ltb_lt; lia). cbn [xorb].
  repeat case_bool_decide; cbn; lia || done.
Qed.

(** ** The loops *)

(** The bits from [pc] on, [m] of them, are set. *)
Definition marked (bits bits' : bitvec) (pc m : Z) : Prop :=
  zlen bits' = zlen bits /\ forall p, 0 <= p -> bit bits' p = bit bits p || bool_decide (pc <= p < pc + m).

Lemma marked_trans bits b1 b2 pc m1 m2 :
  0 <= m1 -> 0 <= m2 -> marked bits b1 pc m1 -> marked b1 b2 (pc + m1) m2 -> marked bits b2 pc (m1 + m2).
Proof.
  intros H1 H2 [Z1 B1] [Z2 B2]. split; [lia|]. intros p Hp. rewrite B2, B1, <- orb_assoc by done. f_equal.
  repeat case_bool_decide; lia || done.
Qed.

Lemma marked_nil bits pc : marked bits bits pc 0.
Proof. split; [done|]. intros p _. rewrite bool_decide_false by lia. by rewrite orb_false_r. Qed.

Lemma push_bytes_spec fuel numbits bits pc :
  0 <= numbits < 8 * Z.of_nat fuel -> 0 <= pc -> pc + numbits < 2 ^ 64 -> (pc + numbits - 8) / 8 + 1 < zlen bits ->
  exists bits', push_bytes fuel numbits bits pc = run (Ret (numbits mod 8, bits', pc + 8 * (numbits / 8))) /\
    marked bits bits' pc (8 * (numbits / 8)).
Proof.
  revert numbits bits pc. induction fuel as [|fuel IH]; intros numbits bits pc Hn Hpc H64 Hl; [lia|]. cbn [push_bytes].
  destruct (decide (numbits >= 8)) as [H8|H8].
  - destruct (set8_spec bits pc) as (b1 & -> & Hz1 & Hb1); [lia|Z.to_euclidean_division_equations; lia|].
    cbn [mbind fuelled_bind run]. unfold u64. rewrite Z.mod_small by lia.
    destruct (IH (numbits - 8) b1 (pc + 8)) as (b2 & -> & Hm); [lia..|rewrite Hz1; by replace (pc + 8 + (numbits - 8) - 8) with (pc + numbits - 8) by lia|].
    assert (E1 : (numbits - 8) mod 8 = numbits mod 8) by (Z.to_euclidean_division_equations; lia).
    assert (E2 : 8 + 8 * ((numbits - 8) / 8) = 8 * (numbits / 8)) by (Z.to_euclidean_division_equations; lia).
    exists b2. rewrite E1, <- E2, <- Z.add_assoc. split; [done|].
    apply (marked_trans _ b1); [lia|Z.to_euclidean_division_equations; lia| |done]. by split.
  - exists bits. rewrite (Z.mod_small numbits), (Z.div_small numbits) by lia. rewrite Z.mul_0_r, Z.add_0_r.
    split; [done|apply marked_nil].
Qed.

Lemma push_bits_spec fuel numbits bits pc :
  0 <= numbits < Z.of_nat fuel -> 0 <= pc -> pc + numbits < 2 ^ 64 -> (pc + numbits - 1) / 8 < zlen bits ->
  exists bits', push_bits fuel numbits bits pc = run (Ret (bits', pc + numbits)) /\ marked bits bits' pc numbits.
Proof.
  revert numbits bits pc. induction fuel as [|fuel IH]; intros numbits bits pc Hn Hpc H64 Hl; [lia|]. cbn [push_bits].
  destruct (decide (numbits > 0)) as [H0|H0].
  - destruct (set_spec bits pc) as (b1 & -> & Hz1 & Hb1); [lia|Z.to_euclidean_division_equations; lia|].
    cbn [mbind fuelled_bind run]. unfold u64. rewrite Z.mod_small by lia.
    destruct (IH (numbits - 1) b1 (pc + 1)) as (b2 & -> & Hm); [lia..|rewrite Hz1; by replace (pc + 1 + (numbits - 1) - 1) with (pc + numbits - 1) by lia|].
    exists b2. replace (pc + 1 + (numbits - 1)) with (pc + numbits) by lia. split; [done|].
    replace numbits with (1 + (numbits - 1)) by lia. apply (marked_trans _ b1); [lia..| |done].
    split; [done|]. intros p Hp. rewrite Hb1 by done. f_equal. apply bool_decide_ext. lia.
  - exists bits. replace numbits with 0 by lia. rewrite Z.add_0_r. split; [done|apply marked_nil].
Qed.

(** ** The scan, piece by piece *)

Lemma length_instructions skip code : length (instructions skip code) = length code.
Proof. revert skip. induction code as [|op code IH]; intros [|skip]; cbn; auto. Qed.

Lemma instructions_skip skip code :
  instructions skip code = replicate (min skip (length code)) false ++ instructions 0 (drop skip code).
Proof.
  revert skip. induction code as [|op code IH]; intros [|skip]; cbn; try done. by rewrite IH.
Qed.

Lemma push_size_bound op : (push_size op <= 32)%nat.
Proof. unfold push_size, PUSH1, PUSH32. case_decide; lia. Qed.

(** What the bitmap and the scan have to do with each other at [pc]. *)
Record scanned (code : bytes) (bits : bitvec) (pc : Z) : Prop := {
  sc_pc : 0 <= pc;
  sc_len : zlen bits = zlen code / 8 + 5;
  sc_done : forall p, 0 <= p < pc -> p < zlen code -> bit bits p = negb (nth (Z.to_nat p) (instructions 0 code) false);
  sc_todo : forall p, pc <= p -> bit bits p = false;
  sc_rest : pc <= zlen code -> drop (Z.to_nat pc) (instructions 0 code) = instructions 0 (drop (Z.to_nat pc) code)
}.

(** One instruction with [m] bytes of data. *)
Lemma scanned_step code bits bits' pc op :
  scanned code bits pc -> code !! Z.to_nat pc = Some op ->
  let m := Z.of_nat (push_size op) in
  marked bits bits' (pc + 1) m -> scanned code bits' (pc + 1 + m).
Proof.
  intros [H1 H2 H3 H4 H5] Hop m [Hz Hb].
  pose proof (lookup_lt_Some _ _ _ Hop) as Hlt. pose proof (drop_S _ _ _ Hop) as Hd.
  specialize (H5 ltac:(unfold zlen; lia)). rewrite Hd in H5. cbn [instructions] in H5.
  rewrite (instructions_skip (push_size op)) in H5. set (rest := drop (S (Z.to_nat pc)) code) in *.
  assert (Hn : forall p, pc <= p -> nth (Z.to_nat p) (instructions 0 code) false =
    nth (Z.to_nat (p - pc)) (true :: replicate (min (push_size op) (length rest)) false ++ instructions 0 (drop (push_size op) rest)) false).
  { intros p Hp. rewrite <- H5, !nth_lookup, lookup_drop. do 2 f_equal. lia. }
  assert (Hrest : length rest = (length code - S (Z.to_nat pc))%nat) by apply length_drop.
  split; [lia|lia| |intros p Hp; rewrite Hb, H4, bool_decide_false by lia; done|].
  - intros p Hp Hpl. rewrite Hb by lia. destruct (decide (p < pc)) as [Hlo|Hlo].
    { rewrite H3, bool_decide_false by lia. by rewrite orb_false_r. }
    rewrite H4, Hn by lia. destruct (decide (p = pc)) as [->|Hne].
    { rewrite Z.sub_diag, bool_decide_false by lia. done. }
    rewrite bool_decide_true by lia. replace (Z.to_nat (p - pc)) with (S (Z.to_nat (p - pc - 1))) by lia. cbn [nth].
    rewrite app_nth1 by (rewrite length_replicate; unfold zlen, m in *; lia).
    rewrite nth_lookup. destruct (replicate _ false !! _) as [b|] eqn:Eb; [|done].
    apply lookup_replicate in Eb as [-> _]. done.
  - intros Hle. unfold zlen, m in *. replace (Z.to_nat (pc + 1 + Z.of_nat (push_size op))) with (Z.to_nat pc + S (push_size op))%nat by lia.
    rewrite <- drop_drop, H5. cbn [drop]. rewrite Nat.min_l, drop_app_length' by (rewrite ?length_replicate; lia).
    unfold rest. by rewrite drop_drop, Nat.add_succ_r, Nat.add_succ_l.
Qed.

Lemma codeBitmap_loop_spec fuel code bits pc :
  zlen code < 2 ^ 63 -> scanned code bits pc -> pc <= zlen code + 32 ->
  zlen code - pc + 9 < Z.of_nat fuel -> (9 < fuel)%nat ->
  exists bits' pc', codeBitmap_loop fuel code bits pc = run (Ret bits') /\ scanned code bits' pc' /\ zlen code <= pc'.
Proof.
  intros Hlen. revert bits pc. induction fuel as [|fuel IH]; intros bits pc Hs Hpc Hf Hf9; [lia|]. cbn [codeBitmap_loop].
  destruct (decide (pc < zlen code)) as [Hlt|Hge]; [|exists bits, pc; split; [done|split; [done|lia]]].
  pose proof (sc_pc _ _ _ Hs) as Hp0. pose proof (sc_len _ _ _ Hs) as Hz.
  destruct (lookup_lt_is_Some_2 code (Z.to_nat pc)) as [op Hop]; [unfold zlen in *; lia|].
  rewrite (go_index_at code pc op) by done. cbn [mbind fuelled_bind run].
  pose proof (scanned_step code bits) as Hstep.
  replace (u64 (pc + 1)) with (pc + 1) by (unfold u64; rewrite Z.mod_small; lia).
  case_decide as Hpush.
  - set (m := op - PUSH1 + 1). assert (Hm : 1 <= m <= 32) by (unfold m, PUSH1, PUSH32 in *; lia).
    destruct (push_bytes_spec fuel m bits (pc + 1)) as (b1 & -> & M1); [lia|lia|lia|Z.to_euclidean_division_equations; lia|].
    cbn [mbind fuelled_bind run].
    destruct (push_bits_spec fuel (m mod 8) b1 (pc + 1 + 8 * (m / 8))) as (b2 & -> & M2);
      [Z.to_euclidean_division_equations; lia..|destruct M1 as [-> _]; Z.to_euclidean_division_equations; lia|].
    cbn [mbind fuelled_bind run].
    assert (M : marked bits b2 (pc + 1) (Z.of_nat (push_size op))).
    { unfold push_size. rewrite decide_True, Z2Nat.id by (done || lia). fold m.
      replace m with (8 * (m / 8) + m mod 8) at 1 by (Z.to_euclidean_division_equations; lia).
      apply (marked_trans _ b1); [Z.to_euclidean_division_equations; lia..|done|done]. }
    specialize (Hstep b2 pc op Hs Hop M). unfold push_size in Hstep. rewrite decide_True, Z2Nat.id in Hstep by (done || lia).
    fold m in Hstep. replace (pc + 1 + 8 * (m / 8) + m mod 8) with (pc + 1 + m) by (Z.to_euclidean_division_equations; lia).
    apply IH; [done|lia|lia|lia].
  - assert (Ep : push_size op = 0%nat) by (unfold push_size; by rewrite decide_False).
    specialize (Hstep bits pc op Hs Hop). rewrite Ep in Hstep. specialize (Hstep (marked_nil _ _)). rewrite Z.add_0_r in Hstep.
    apply IH; [done|lia|lia|lia].
Qed.


(** ** Correctness *)

Lemma land_80 b r : 0 <= r < 8 -> bool_decide (Z.land b (Z.shiftr 0x80 r) = 0) = negb (Z.testbit b (7 - r)).
Proof.
  intros Hr. replace (Z.shiftr 0x80 r) with (2 ^ (7 - r)).
  2:{ rewrite Z.shiftr_div_pow2 by lia. change 0x80 with (2 ^ 7). rewrite <- Z.pow_sub_r by lia. done. }
  destruct (Z.testbit b (7 - r)) eqn:E; cbn.
  - apply bool_decide_false. intros H. apply (f_equal (fun x => Z.testbit x (7 - r))) in H.
    by rewrite Z.land_spec, E, Z.pow2_bits_true, Z.bits_0 in H by lia.
  - apply bool_decide_true. apply Z.bits_inj. intros i. rewrite Z.land_spec, Z.bits_0.
    destruct (decide (i = 7 - r)) as [->|Hne]; [by rewrite E|]. rewrite Z.pow2_bits_false by lia. apply andb_false_r.
Qed.

Lemma codeSegment_bit bits pos :
  0 <= pos -> pos / 8 < zlen bits -> codeSegment bits pos = Ret (negb (bit bits pos)).
Proof.
  intros Hp Hl. destruct (pos_split pos Hp) as (_ & H1 & H2). unfold codeSegment.
  destruct (lookup_lt_is_Some_2 bits (Z.to_nat (pos / 8))) as [b Hb]; [unfold zlen in *; lia|].
  rewrite (go_index_at bits (pos / 8) b) by done. cbn [mbind outcome_bind]. rewrite land_80 by done.
  unfold bit. by rewrite nth_lookup, Hb.
Qed.

Lemma bit_replicate n p : bit (replicate n 0) p = false.
Proof.
  unfold bit. rewrite nth_lookup. destruct (replicate n 0 !! _) eqn:E; [apply lookup_replicate in E as [-> _]|];
    apply Z.testbit_0_l.
Qed.

Lemma codeBitmap_ok code :
  zlen code < 2 ^ 63 ->
  exists bits, codeBitmap (bitmap_fuel code) code = run (Ret bits) /\
    forall pos, 0 <= pos < zlen code -> codeSegment bits pos = Ret (nth (Z.to_nat pos) (instructions 0 code) false).
Proof.
  intros Hlen. pose proof (zlen_nonneg code). unfold codeBitmap.
  destruct (codeBitmap_loop_spec (bitmap_fuel code) code (replicate (Z.to_nat (zlen code / 8 + 1 + 4)) 0) 0)
    as (bits & pc & -> & [S1 S2 S3 S4 S5] & Hpc); [done| |lia|unfold bitmap_fuel, zlen; lia|unfold bitmap_fuel; lia|].
  - split; [done| |lia|intros; apply bit_replicate|done].
    unfold zlen at 1. rewrite length_replicate. Z.to_euclidean_division_equations; lia.
  - exists bits. split; [done|]. intros pos Hp.
    rewrite codeSegment_bit by (Z.to_euclidean_division_equations; lia). by rewrite S3, negb_involutive by lia.
Qed.

(** C27: The bitmap is computed within one round per byte of code, without an
    access out of its bounds, and [codeSegment] tells for each position of the
    code whether a plain scan, which skips the data of PUSH instructions, finds
    an instruction there. *)
Theorem codeBitmap_correct code :
  zlen code < 2 ^ 63 ->
  exists bits, codeBitmap (bitmap_fuel code) code = run (Ret bits) /\
    forall pos, 0 <= pos < zlen code -> codeSegment bits pos = Ret (nth (Z.to_nat pos) (instructions 0 code) false).
Proof. apply codeBitmap_ok. Qed.

Lemma codeBitmap_correct_witness :
  exists bits, codeBitmap (bitmap_fuel [0x60; 0x5b; 0x5b; 0x7f; 0x5b]) [0x60; 0x5b; 0x5b; 0x7f; 0x5b] = run (Ret bits) /\
    forall pos, 0 <= pos < zlen [0x60; 0x5b; 0x5b; 0x7f; 0x5b] ->
      codeSegment bits pos = Ret (nth (Z.to_nat pos) (instructions 0 [0x60; 0x5b; 0x5b; 0x7f; 0x5b]) false).
Proof. apply (codeBitmap_correct [0x60; 0x5b; 0x5b; 0x7f; 0x5b]). reflexivity. Defined.
