(* ===== verification/VmContract.v ===== *)
(** * The contract of a call (core/vm/contract.go)

    The code, gas and caller of one call, and the cache of jump destination
    analyses that a contract shares with the contracts it calls. *)

From stdpp Require Import gmap.
From S2P Require Import Prelude Uint256 VmAnalysis.

Record Contract := mk_Contract {
  CallerAddress : Z;
  self : Z;
  jumpdests : gmap Z bitvec;      (* shared along the calls of a transaction *)
  analysis : option bitvec;
  Code : bytes;
  CodeHash : Z;
  CodeAddr : option Z;
  Input : bytes;
  Gas : Z;
  value : Z
}.

(** [parent] is the cache of a caller that is itself a contract. *)
Definition NewContract (caller object : Z) (parent : option (gmap Z bitvec)) (v gas : Z) : Contract :=
  mk_Contract caller object (default ∅ parent) None [] 0 None [] gas v.

Definition SetCallCode (c : Contract) (addr hash : Z) (code : bytes) : Contract :=
  mk_Contract (CallerAddress c) (self c) (jumpdests c) (analysis c) code hash (Some addr) (Input c) (Gas c) (value c).

Definition set_analysis (c : Contract) (cache : gmap Z bitvec) (a : bitvec) : Contract :=
  mk_Contract (CallerAddress c) (self c) cache (Some a) (Code c) (CodeHash c) (CodeAddr c) (Input c) (Gas c) (value c).

Definition set_gas (c : Contract) (gas : Z) : Contract :=
  mk_Contract (CallerAddress c) (self c) (jumpdests c) (analysis c) (Code c) (CodeHash c) (CodeAddr c) (Input c) gas (value c).

Definition set_jumpdests (c : Contract) (cache : gmap Z bitvec) : Contract :=
  mk_Contract (CallerAddress c) (self c) cache (analysis c) (Code c) (CodeHash c) (CodeAddr c) (Input c) (Gas c) (value c).

Definition isCode (c : Contract) (udest : Z) : fuelled Empty_set (bool * Contract) :=
  match analysis c with
  | Some a => b ← run (codeSegment a udest); run (Ret (b, c))
  | None =>
      if decide (CodeHash c <> 0) then
        match jumpdests c !! CodeHash c with
        | Some a => b ← run (codeSegment a udest); run (Ret (b, set_analysis c (jumpdests c) a))
        | None =>
            a ← codeBitmap (bitmap_fuel (Code c)) (Code c);
            b ← run (codeSegment a udest);
            run (Ret (b, set_analysis c (<[CodeHash c := a]> (jumpdests c)) a))
        end
      else
        a ← codeBitmap (bitmap_fuel (Code c)) (Code c);
        b ← run (codeSegment a udest);
        run (Ret (b, set_analysis c (jumpdests c) a))
  end.

Section Contract.
Context {U : Uint256} {UL : Uint256Laws U}.

Definition validJumpdest (c : Contract) (dest : Z) : fuelled Empty_set (bool * Contract) :=
  let '(udest, overflow) := Uint64WithOverflow dest in
  if overflow || bool_decide (udest >= zlen (Code c)) then run (Ret (false, c))
  else
    op ← run (go_index (Code c) udest);
    if decide (op <> JUMPDEST) then run (Ret (false, c)) else isCode c udest.

(** [int64(udest) < 0] for an unsigned [udest]. *)
Definition validJumpSubdest (c : Contract) (udest : Z) : fuelled Empty_set (bool * Contract) :=
  if bool_decide (2 ^ 63 <= udest) || bool_decide (udest >= zlen (Code c)) then run (Ret (false, c))
  else
    op ← run (go_index (Code c) udest);
    if decide (op <> BEGINSUB) then run (Ret (false, c)) else isCode c udest.

Definition GetByte (c : Contract) (n : Z) : Z :=
  if decide (n < zlen (Code c)) then nth (Z.to_nat n) (Code c) 0 else 0.

Definition GetOp (c : Contract) (n : Z) : Z := GetByte c n.

Definition UseGas (c : Contract) (gas : Z) : bool * Contract :=
  if decide (Gas c < gas) then (false, c) else (true, set_gas c (Gas c - gas)).

(** ** The cache of analyses *)

Definition bitmap_of (code : bytes) (a : bitvec) : Prop := codeBitmap (bitmap_fuel code) code = run (Ret a).

(** The analyses at hand are those of the code: the local one, and the shared
    ones under the assumption that [code_of] recovers the code of a hash. *)
Definition cache_ok (code_of : Z -> bytes) (c : Contract) : Prop :=
  zlen (Code c) < 2 ^ 63 /\ (CodeHash c <> 0 -> code_of (CodeHash c) = Code c) /\
  (forall a, analysis c = Some a -> bitmap_of (Code c) a) /\
  (forall h a, jumpdests c !! h = Some a -> bitmap_of (code_of h) a).

(** The instruction at a position. *)
Definition instruction_at (code : bytes) (op pos : Z) : Prop :=
  0 <= pos < zlen code /\ code !! Z.to_nat pos = Some op /\ instructions 0 code !! Z.to_nat pos = Some true.

#[global] Instance instruction_at_dec code op pos : Decision (instruction_at code op pos).
Proof. unfold instruction_at. apply _. Defined.

(** Only the caches of a contract change. *)
Definition same_call (c c' : Contract) : Prop := exists cache a, c' = c \/ c' = set_analysis c cache a.

Lemma isCode_spec code_of c u :
  cache_ok code_of c -> 0 <= u < zlen (Code c) ->
  exists c', isCode c u = run (Ret (nth (Z.to_nat u) (instructions 0 (Code c)) false, c')) /\
    cache_ok code_of c' /\ same_call c c'.
Proof.
  intros (Hlen & Hh & Ha & Hj) Hu. destruct (codeBitmap_ok (Code c) Hlen) as (bits & Eb & Hseg).
  assert (Hbits : forall a, bitmap_of (Code c) a -> a = bits) by (unfold bitmap_of; rewrite Eb; by intros a [= ->]).
  assert (Hbm : bitmap_of (Code c) bits) by done.
  unfold isCode. destruct (analysis c) as [a|] eqn:Ea.
  { rewrite (Hbits a (Ha a eq_refl)), Hseg by done. cbn [mbind fuelled_bind run]. exists c.
    split; [done|]. split; [split_and!; try done; by rewrite Ea|]. exists ∅, []. by left. }
  case_decide as Hne; [destruct (jumpdests c !! CodeHash c) as [a|] eqn:Ej|].
  - assert (a = bits) as -> by (apply Hbits; rewrite <- (Hh Hne); by apply Hj).
    rewrite Hseg by done. cbn [mbind fuelled_bind run]. eexists. split; [done|].
    split; [|exists (jumpdests c), bits; by right]. split_and!; try done. by intros a [= <-].
  - rewrite Eb. cbn [mbind fuelled_bind run]. rewrite Hseg by done. cbn [mbind fuelled_bind run].
    eexists. split; [done|]. split; [|eexists _, bits; by right]. split_and!; try done; [by intros a [= <-]|].
    intros h a. cbn. intros [[<- <-]|[_ H]]%lookup_insert_Some; [by rewrite Hh|by apply Hj].
  - rewrite Eb. cbn [mbind fuelled_bind run]. rewrite Hseg by done. cbn [mbind fuelled_bind run].
    eexists. split; [done|]. split; [|eexists _, bits; by right]. split_and!; try done. by intros a [= <-].
Qed.

(** The common part of the two kinds of destinations. *)
Lemma destination_spec code_of c op pos :
  cache_ok code_of c -> 0 <= pos < zlen (Code c) ->
  exists c', (x ← run (go_index (Code c) pos);
              if decide (x <> op) then run (Ret (false, c)) else isCode c pos)
             = run (Ret (bool_decide (instruction_at (Code c) op pos), c')) /\ cache_ok code_of c' /\ same_call c c'.
Proof.
  intros Hc Hp. destruct (lookup_lt_is_Some_2 (Code c) (Z.to_nat pos)) as [x Hx]; [unfold zlen in *; lia|].
  rewrite (go_index_at (Code c) pos x) by (done || lia). cbn [mbind fuelled_bind run].
  case_decide as Hop.
  - exists c. split; [|split; [done|exists ∅, []; by left]].
    rewrite bool_decide_false; [done|]. intros (_ & H & _). congruence.
  - assert (x = op) as -> by (destruct (decide (x = op)); tauto).
    destruct (isCode_spec code_of c pos Hc Hp) as (c' & -> & Hc' & Hs). exists c'. split; [|done].
    do 3 f_equal. rewrite nth_lookup.
    destruct (lookup_lt_is_Some_2 (instructions 0 (Code c)) (Z.to_nat pos)) as [b Hb];
      [rewrite length_instructions; unfold zlen in *; lia|]. rewrite Hb. cbn [default id].
    symmetry. destruct b; [by apply bool_decide_true|]. apply bool_decide_false. intros (_ & _ & H). congruence.
Qed.

Lemma validJumpdest_spec code_of c dest :
  is_u256 dest -> cache_ok code_of c ->
  exists c', validJumpdest c dest = run (Ret (bool_decide (instruction_at (Code c) JUMPDEST dest), c')) /\
    cache_ok code_of c' /\ same_call c c'.
Proof.
  intros Hd Hc. pose proof Hc as (Hlen & _). unfold validJumpdest. rewrite Uint64WithOverflow_spec by done.
  destruct (decide (dest < zlen (Code c))) as [Hlt|Hge].
  - unfold is_u256 in Hd. rewrite Z.mod_small, !bool_decide_false by lia. apply destination_spec; [done|lia].
  - replace (bool_decide (2 ^ 64 <= dest) || bool_decide (dest mod 2 ^ 64 >= zlen (Code c))) with true.
    2:{ symmetry. apply orb_true_iff. rewrite !bool_decide_eq_true. destruct (decide (2 ^ 64 <= dest)); [by left|right].
        unfold is_u256 in Hd. rewrite Z.mod_small by lia. lia. }
    exists c. split; [|split; [done|exists ∅, []; by left]]. rewrite bool_decide_false; [done|].
    intros (? & _). lia.
Qed.

Lemma validJumpSubdest_spec code_of c dest :
  is_u64 dest -> cache_ok code_of c ->
  exists c', validJumpSubdest c dest = run (Ret (bool_decide (instruction_at (Code c) BEGINSUB dest), c')) /\
    cache_ok code_of c' /\ same_call c c'.
Proof.
  intros Hd Hc. pose proof Hc as (Hlen & _). unfold validJumpSubdest, is_u64 in *.
  destruct (decide (dest < zlen (Code c))) as [Hlt|Hge].
  - rewrite !bool_decide_false by lia. apply destination_spec; [done|lia].
  - rewrite (bool_decide_true (dest >= _)) by lia. rewrite orb_true_r. exists c.
    split; [|split; [done|exists ∅, []; by left]]. rewrite bool_decide_false; [done|]. intros (? & _). lia.
Qed.

(** A jump is accepted exactly when its destination is a JUMPDEST that a
    scan of the code reaches as an instruction, whatever analyses are cached;
    the caches stay those of the code. *)
Theorem validJumpdest_correct code_of c dest :
  is_u256 dest -> cache_ok code_of c ->
  exists c', validJumpdest c dest = run (Ret (bool_decide (instruction_at (Code c) JUMPDEST dest), c')) /\
    cache_ok code_of c' /\ same_call c c'.
Proof. apply validJumpdest_spec. Qed.

End Contract.

Module ContractExamples.
Import ZUint256.

Definition ex_code : bytes := [0x60; 0x5b; 0x5b; 0x56].
Definition ex_contract : Contract := SetCallCode (NewContract 1 2 None 0 1000) 2 77 ex_code.

Lemma validJumpdest_correct_witness :
  (exists c', validJumpdest ex_contract 2 = run (Ret (true, c'))) /\ (exists c', validJumpdest ex_contract 1 = run (Ret (false, c'))).
Proof.
  assert (Hc : cache_ok (fun _ => ex_code) ex_contract).
  { split; [reflexivity|]. split; [reflexivity|]. split; [discriminate|]. intros h a. cbn. by rewrite lookup_empty. }
  split.
  - destruct (validJumpdest_correct (fun _ => ex_code) ex_contract 2 ltac:(split; lia) Hc) as (c' & H & _).
    exists c'. rewrite H. reflexivity.
  - destruct (validJumpdest_correct (fun _ => ex_code) ex_contract 1 ltac:(split; lia) Hc) as (c' & H & _).
    exists c'. rewrite H. reflexivity.
Defined.

End ContractExamples.
