(* ===== verification/VmMemory.v ===== *)
(** * Stack, memory and memory sizes (core/vm/stack.go, memory.go, common.go,
    memory_table.go, common/math/integer.go)

    The operands of the instructions and the memory of a call.  The stack is the
    slice of the code, its top the last element.  The sizes of memory that an
    instruction touches are computed in 64-bit integers with overflow flags; they
    are shown equal to the sizes over the integers. *)

From S2P Require Import Prelude Uint256.

(** ** common/math/integer.go *)

Definition MaxUint64 : Z := 2 ^ 64 - 1.

(** [bits.Sub64], [bits.Add64] and [bits.Mul64]: the low word, and the borrow,
    carry or high word. *)
Definition Sub64 (x y : Z) : Z * Z := (u64 (x - y), if decide (x < y) then 1 else 0).
Definition Add64 (x y : Z) : Z * Z := (u64 (x + y), (x + y) / 2 ^ 64).
Definition Mul64 (x y : Z) : Z * Z := (x * y / 2 ^ 64, u64 (x * y)).

Definition SafeSub (x y : Z) : Z * bool := let '(diff, borrowOut) := Sub64 x y in (diff, bool_decide (borrowOut <> 0)).
Definition SafeAdd (x y : Z) : Z * bool := let '(sum, carryOut) := Add64 x y in (sum, bool_decide (carryOut <> 0)).
Definition SafeMul (x y : Z) : Z * bool := let '(hi, lo) := Mul64 x y in (lo, bool_decide (hi <> 0)).

(** ** stack.go *)

Notation Stack := (list Z) (only parsing).

Definition push (st : Stack) (d : Z) : Stack := st ++ [d].

Definition pop {E} (st : Stack) : outcome E (Z * Stack) :=
  ret ← go_index st (zlen st - 1);
  st ← go_to st (zlen st - 1);
  Ret (ret, st).

Definition peek {E} (st : Stack) : outcome E Z := go_index st (zlen st - 1).

Definition Back {E} (st : Stack) (n : Z) : outcome E Z := go_index st (zlen st - n - 1).

Definition swap {E} (st : Stack) (n : Z) : outcome E Stack :=
  x ← go_index st (zlen st - 1);
  y ← go_index st (zlen st - n);
  Ret (<[Z.to_nat (zlen st - 1) := y]> (<[Z.to_nat (zlen st - n) := x]> st)).

Definition dup {E} (st : Stack) (n : Z) : outcome E Stack :=
  x ← go_index st (zlen st - n);
  Ret (push st x).

(** ** memory.go *)

Record Memory := mk_Memory { store : bytes; lastGasCost : Z }.

Definition NewMemory : Memory := mk_Memory [] 0.

Definition Len (m : Memory) : Z := zlen (store m).

(** [copy(dst[offset:offset+size], value)] *)
Definition copy_into (dst : bytes) (offset size : Z) (v : bytes) : bytes :=
  let n := Z.to_nat (Z.min size (zlen v)) in
  take (Z.to_nat offset) dst ++ take n v ++ drop (Z.to_nat offset + n) dst.

Definition Memory_Set {E} (m : Memory) (offset size : Z) (v : bytes) : outcome E Memory :=
  if decide (size > 0) then
    if decide (u64 (offset + size) > Len m) then Panic
    else
      _ ← go_slice (store m) offset (u64 (offset + size));
      Ret (mk_Memory (copy_into (store m) offset size v) (lastGasCost m))
  else Ret m.

(** [WriteToSlice] fills 32 bytes with the big-endian value. *)
Definition Set32 {E} (m : Memory) (offset val : Z) : outcome E Memory :=
  if decide (u64 (offset + 32) > Len m) then Panic
  else
    _ ← go_slice (store m) offset (u64 (offset + 32));
    Ret (mk_Memory (copy_into (store m) offset 32 (be_bytes 32 val)) (lastGasCost m)).

Definition Resize (m : Memory) (size : Z) : Memory :=
  if decide (Len m < size) then mk_Memory (store m ++ replicate (Z.to_nat (size - Len m)) 0) (lastGasCost m) else m.

(** Go slices up to the capacity of the store; the model panics beyond its
    length, which no instruction reaches after the resizing of the run loop. *)
Definition GetCopy {E} (m : Memory) (offset size : Z) : outcome E bytes :=
  if decide (size = 0) then Ret []
  else if decide (Len m > offset) then go_slice (store m) offset (offset + size) else Ret [].

(** The view of [GetPtr] has the content of the copy of [GetCopy]. *)
Definition GetPtr {E} (m : Memory) (offset size : Z) : outcome E bytes :=
  if decide (size = 0) then Ret []
  else if decide (Len m > offset) then go_slice (store m) offset (offset + size) else Ret [].

(** ** common.go *)

Definition toWordSize (size : Z) : Z :=
  if decide (size > MaxUint64 - 31) then MaxUint64 / 32 + 1 else u64 (size + 31) / 32.

Definition RightPadBytes (slice : bytes) (l : Z) : bytes :=
  if decide (l <= zlen slice) then slice else slice ++ replicate (Z.to_nat (l - zlen slice)) 0.

Definition getData {E} (data : bytes) (start size : Z) : outcome E bytes :=
  let length := zlen data in
  let start := if decide (start > length) then length else start in
  let last := u64 (start + size) in
  let last := if decide (last > length) then length else last in
  d ← go_slice data start last;
  Ret (RightPadBytes d (i64 size)).

Section Sizes.
Context {U : Uint256}.

Definition calcMemSize64WithUint (off length64 : Z) : Z * bool :=
  if decide (length64 = 0) then (0, false)
  else
    let '(offset64, overflow) := Uint64WithOverflow off in
    if (overflow : bool) then (0, true)
    else
      let val := u64 (offset64 + length64) in
      (val, bool_decide (val < offset64)).

Definition calcMemSize64 (off l : Z) : Z * bool :=
  if negb (IsUint64 l) then (0, true) else calcMemSize64WithUint off (Uint64 l).

(** ** memory_table.go *)

(** The operands are read with [Back], which panics on a short stack. *)
Definition mem_range {E} (st : Stack) (off len : Z) : outcome E (Z * bool) :=
  o ← Back st off;
  l ← Back st len;
  Ret (calcMemSize64 o l).

Definition mem_fixed {E} (st : Stack) (len : Z) : outcome E (Z * bool) :=
  o ← Back st 0;
  Ret (calcMemSize64WithUint o len).

(** The larger of two ranges: what goes in and what comes out of a call. *)
Definition mem_two {E} (st : Stack) (out_off out_len in_off in_len : Z) : outcome E (Z * bool) :=
  r ← mem_range st out_off out_len;
  let '(x, overflow) := r in
  if (overflow : bool) then Ret (0, true)
  else
    r ← mem_range st in_off in_len;
    let '(y, overflow) := r in
    if (overflow : bool) then Ret (0, true)
    else if decide (x > y) then Ret (x, false) else Ret (y, false).

Definition memorySha3 {E} (st : Stack) : outcome E (Z * bool) := mem_range st 0 1.
Definition memoryCallDataCopy {E} (st : Stack) : outcome E (Z * bool) := mem_range st 0 2.
Definition memoryReturnDataCopy {E} (st : Stack) : outcome E (Z * bool) := mem_range st 0 2.
Definition memoryCodeCopy {E} (st : Stack) : outcome E (Z * bool) := mem_range st 0 2.
Definition memoryExtCodeCopy {E} (st : Stack) : outcome E (Z * bool) := mem_range st 1 3.
Definition memoryMLoad {E} (st : Stack) : outcome E (Z * bool) := mem_fixed st 32.
Definition memoryMStore8 {E} (st : Stack) : outcome E (Z * bool) := mem_fixed st 1.
Definition memoryMStore {E} (st : Stack) : outcome E (Z * bool) := mem_fixed st 32.
Definition memoryCreate {E} (st : Stack) : outcome E (Z * bool) := mem_range st 1 2.
Definition memoryCreate2 {E} (st : Stack) : outcome E (Z * bool) := mem_range st 1 2.
Definition memoryCall {E} (st : Stack) : outcome E (Z * bool) := mem_two st 5 6 3 4.
Definition memoryDelegateCall {E} (st : Stack) : outcome E (Z * bool) := mem_two st 4 5 2 3.
Definition memoryStaticCall {E} (st : Stack) : outcome E (Z * bool) := mem_two st 4 5 2 3.
Definition memoryReturn {E} (st : Stack) : outcome E (Z * bool) := mem_range st 0 1.
Definition memoryRevert {E} (st : Stack) : outcome E (Z * bool) := mem_range st 0 1.
Definition memoryLog {E} (st : Stack) : outcome E (Z * bool) := mem_range st 0 1.

End Sizes.

(** ** The sizes over the integers *)

Lemma SafeAdd_spec x y : is_u64 x -> is_u64 y -> SafeAdd x y = (u64 (x + y), bool_decide (2 ^ 64 <= x + y)).
Proof.
  intros Hx Hy. unfold SafeAdd, Add64, is_u64 in *. f_equal. apply bool_decide_ext. Z.to_euclidean_division_equations; lia.
Qed.

Lemma SafeMul_spec x y : is_u64 x -> is_u64 y -> SafeMul x y = (u64 (x * y), bool_decide (2 ^ 64 <= x * y)).
Proof.
  intros Hx Hy. unfold SafeMul, Mul64, is_u64 in *. f_equal. apply bool_decide_ext.
  assert (0 <= x * y) by nia. split; intros Hd; [|intros H0; apply Z.div_small_iff in H0; lia].
  destruct (decide (2 ^ 64 <= x * y)); [done|]. rewrite Z.div_small in Hd; lia.
Qed.

Lemma SafeSub_spec x y : is_u64 x -> is_u64 y -> SafeSub x y = (u64 (x - y), bool_decide (x < y)).
Proof. intros Hx Hy. unfold SafeSub, Sub64. f_equal. apply bool_decide_ext. case_decide; lia. Qed.

(** The number of 32-byte words, rounded up. *)
Definition words (size : Z) : Z := (size + 31) / 32.

Lemma toWordSize_spec size : is_u64 size -> toWordSize size = words size.
Proof.
  unfold is_u64, toWordSize, words, MaxUint64, u64. intros H. case_decide.
  - Z.to_euclidean_division_equations; lia.
  - rewrite Z.mod_small by lia. done.
Qed.


Section SizesOk.
Context {U : Uint256} {UL : Uint256Laws U}.

Lemma Uint64_small x : is_u256 x -> x < 2 ^ 64 -> Uint64 x = x.
Proof. intros H Hlt. rewrite Uint64_spec by done. apply Z.mod_small. unfold is_u256 in H. lia. Qed.

Lemma u64_add_overflow x y : is_u64 x -> is_u64 y -> 0 < y ->
  bool_decide (u64 (x + y) < x) = bool_decide (2 ^ 64 <= x + y).
Proof. unfold is_u64, u64. intros Hx Hy H0. apply bool_decide_ext. Z.to_euclidean_division_equations; lia. Qed.

(** The memory that an access at [off] of [l] bytes needs. *)
Definition extent (off l : Z) : Z := if decide (l = 0) then 0 else off + l.

Lemma calcMemSize64WithUint_spec off l :
  is_u256 off -> is_u64 l ->
  (extent off l < 2 ^ 64 /\ calcMemSize64WithUint off l = (extent off l, false)) \/
  (2 ^ 64 <= extent off l /\ (calcMemSize64WithUint off l).2 = true).
Proof.
  intros Ho Hl. unfold calcMemSize64WithUint, extent. case_decide; [by left|].
  rewrite Uint64WithOverflow_spec by done. unfold is_u256, is_u64 in *. case_bool_decide; [right; split; [lia|done]|].
  rewrite Z.mod_small by lia. rewrite u64_add_overflow by (unfold is_u64; lia). case_bool_decide.
  - right. split; [lia|done].
  - left. split; [lia|]. unfold u64. by rewrite Z.mod_small by lia.
Qed.

Lemma calcMemSize64_spec off l :
  is_u256 off -> is_u256 l ->
  (extent off l < 2 ^ 64 /\ calcMemSize64 off l = (extent off l, false)) \/
  (2 ^ 64 <= extent off l /\ (calcMemSize64 off l).2 = true).
Proof.
  intros Ho Hl. unfold calcMemSize64. rewrite IsUint64_spec by done. unfold is_u256 in *. case_bool_decide; cbn.
  - rewrite Uint64_small by done. apply calcMemSize64WithUint_spec; [done|unfold is_u64; lia].
  - right. split; [|done]. unfold extent. case_decide; lia.
Qed.

(** *** Operands *)

Lemma Back_spec {E} (st : Stack) n :
  0 <= n -> Forall is_u256 st ->
  (n < zlen st /\ exists x, Back (E:=E) st n = Ret x /\ is_u256 x) \/ (zlen st <= n /\ Back (E:=E) st n = Panic).
Proof.
  intros Hn Hst. unfold Back, go_index. destruct (decide (0 <= zlen st - n - 1)) as [Hle|]; [|right; split; [lia|done]].
  left. split; [lia|]. destruct (lookup_lt_is_Some_2 st (Z.to_nat (zlen st - n - 1))) as [x Hx]; [unfold zlen in *; lia|].
  exists x. rewrite Hx. split; [done|]. by eapply Forall_lookup_1.
Qed.

End SizesOk.
