(* ===== verification/VmGas.v ===== *)
(** * Gas (core/vm/gas.go, gas_table.go, operations_acl.go)

    The dynamic gas functions of the instructions.  They read the stack, expand
    the fee of the memory, look at the state and the access list and may change
    the refund counter; an error leaves these changes in place, so the monad [M]
    returns the frame with an error as with a value. *)

From stdpp Require Import gmap.
From S2P Require Import Prelude Rlp Trie AccessList StateDB Uint256 VmAnalysis VmContract VmMemory.

(** ** errors.go *)

Inductive vm_error :=
| ErrInvalidSubroutineEntry
| ErrOutOfGas
| ErrCodeStoreOutOfGas
| ErrDepth
| ErrInsufficientBalance
| ErrContractAddressCollision
| ErrExecutionReverted
| ErrMaxCodeSizeExceeded
| ErrInvalidJump
| ErrWriteProtection
| ErrReturnDataOutOfBounds
| ErrGasUintOverflow
| ErrInvalidRetsub
| ErrReturnStackExceeded
| ErrStackUnderflow (stackLen required : Z)
| ErrStackOverflow (stackLen limit : Z)
| ErrInvalidOpCode (opcode : Z)
| ErrReentrancySentry               (* gas_table.go: not enough gas for reentrancy sentry *)
| ErrPrecompile.                    (* the errors of the precompiled contracts *)

#[global] Instance vm_error_eq_dec : EqDecision vm_error.
Proof. solve_decision. Defined.

(** ** params/config.go *)

Record Rules := mk_Rules {
  IsHomestead : bool; IsEIP150 : bool; IsEIP155 : bool; IsEIP158 : bool; IsByzantium : bool;
  IsConstantinople : bool; IsPetersburg : bool; IsIstanbul : bool; IsYoloV3 : bool
}.

(** ** params/protocol_params.go *)

Definition CallValueTransferGas : Z := 9000.
Definition CallNewAccountGas : Z := 25000.
Definition QuadCoeffDiv : Z := 512.
Definition LogDataGas : Z := 8.
Definition Sha3WordGas : Z := 6.
Definition SstoreSetGas : Z := 20000.
Definition SstoreResetGas : Z := 5000.
Definition SstoreClearGas : Z := 5000.
Definition SstoreRefundGas : Z := 15000.
Definition NetSstoreNoopGas : Z := 200.
Definition NetSstoreInitGas : Z := 20000.
Definition NetSstoreCleanGas : Z := 5000.
Definition NetSstoreDirtyGas : Z := 200.
Definition NetSstoreClearRefund : Z := 15000.
Definition NetSstoreResetRefund : Z := 4800.
Definition NetSstoreResetClearRefund : Z := 19800.
Definition SstoreSentryGasEIP2200 : Z := 2300.
Definition SstoreSetGasEIP2200 : Z := 20000.
Definition SstoreResetGasEIP2200 : Z := 5000.
Definition SstoreClearsScheduleRefundEIP2200 : Z := 15000.
Definition ExpGas : Z := 10.
Definition LogGas : Z := 375.
Definition CopyGas : Z := 3.
Definition LogTopicGas : Z := 375.
Definition SelfdestructRefundGas : Z := 24000.
Definition MemoryGas : Z := 3.
Definition SloadGasEIP2200 : Z := 800.
Definition SelfdestructGasEIP150 : Z := 5000.
Definition ExpByteFrontier : Z := 10.
Definition ExpByteEIP158 : Z := 50.
Definition CreateBySelfdestructGas : Z := 25000.
Definition ColdAccountAccessCostEIP2929 : Z := 2600.
Definition ColdSloadCostEIP2929 : Z := 2100.
Definition WarmStorageReadCostEIP2929 : Z := 100.

Section Gas.
Context {B : Backend} {U : Uint256}.

(** ** The frame of a call *)

Record frame := mk_frame {
  rules : Rules;
  db : StateDB;
  callGasTemp : Z;
  contract : Contract;
  stack : Stack;
  mem : Memory;
  rstack : list Z;
  pc : Z;
  depth : Z;                  (* of the EVM *)
  readOnly : bool;            (* of the interpreter *)
  returnData : bytes          (* of the interpreter *)
}.

Definition set_db (f : frame) (x : StateDB) : frame :=
  mk_frame (rules f) x (callGasTemp f) (contract f) (stack f) (mem f) (rstack f) (pc f) (depth f) (readOnly f) (returnData f).
Definition set_callGasTemp (f : frame) (x : Z) : frame :=
  mk_frame (rules f) (db f) x (contract f) (stack f) (mem f) (rstack f) (pc f) (depth f) (readOnly f) (returnData f).
Definition set_contract (f : frame) (x : Contract) : frame :=
  mk_frame (rules f) (db f) (callGasTemp f) x (stack f) (mem f) (rstack f) (pc f) (depth f) (readOnly f) (returnData f).
Definition set_stack (f : frame) (x : Stack) : frame :=
  mk_frame (rules f) (db f) (callGasTemp f) (contract f) x (mem f) (rstack f) (pc f) (depth f) (readOnly f) (returnData f).
Definition set_mem (f : frame) (x : Memory) : frame :=
  mk_frame (rules f) (db f) (callGasTemp f) (contract f) (stack f) x (rstack f) (pc f) (depth f) (readOnly f) (returnData f).
Definition set_rstack (f : frame) (x : list Z) : frame :=
  mk_frame (rules f) (db f) (callGasTemp f) (contract f) (stack f) (mem f) x (pc f) (depth f) (readOnly f) (returnData f).
Definition set_pc (f : frame) (x : Z) : frame :=
  mk_frame (rules f) (db f) (callGasTemp f) (contract f) (stack f) (mem f) (rstack f) x (depth f) (readOnly f) (returnData f).
Definition set_returnData (f : frame) (x : bytes) : frame :=
  mk_frame (rules f) (db f) (callGasTemp f) (contract f) (stack f) (mem f) (rstack f) (pc f) (depth f) (readOnly f) x.

Definition M (A : Type) : Type := frame -> outcome Empty_set (frame * (vm_error + A)).

#[global] Instance M_ret : MRet M := fun A a f => Ret (f, inr a).
#[global] Instance M_bind : MBind M := fun A B k m f =>
  r ← m f;
  match r with
  | (f, inr a) => k a f
  | (f, inl e) => Ret (f, inl e)
  end.

Definition fail {A} (e : vm_error) : M A := fun f => Ret (f, inl e).
Definition gets {A} (g : frame -> A) : M A := fun f => Ret (f, inr (g f)).
Definition modify (g : frame -> frame) : M unit := fun f => Ret (g f, inr tt).
Definition lift {A} (g : frame -> outcome Empty_set A) : M A := fun f => a ← g f; Ret (f, inr a).

(** A query of the state, which may fill caches. *)
Definition query {A} (q : StateDB -> A * StateDB) : M A := fun f => let '(a, s) := q (db f) in Ret (set_db f s, inr a).
(** A change of the state, which may panic. *)
Definition change (q : StateDB -> outcome Empty_set StateDB) : M unit := fun f => s ← q (db f); Ret (set_db f s, inr tt).

Definition back (n : Z) : M Z := lift (fun f => Back (stack f) n).
Definition addRefund (gas : Z) : M unit := change (fun s => Ret (AddRefund s gas)).
Definition subRefund (gas : Z) : M unit := change (fun s => SubRefund s gas).
Definition self_address : M Z := gets (fun f => self (contract f)).

(** [gas, overflow = math.SafeAdd(x, y)] and the error if it overflows. *)
Definition safe_add (x y : Z) : M Z :=
  let '(gas, overflow) := SafeAdd x y in if (overflow : bool) then fail ErrGasUintOverflow else mret gas.
Definition safe_mul (x y : Z) : M Z :=
  let '(gas, overflow) := SafeMul x y in if (overflow : bool) then fail ErrGasUintOverflow else mret gas.
Definition back_uint64 (n : Z) : M Z :=
  x ← back n;
  let '(v, overflow) := Uint64WithOverflow x in if (overflow : bool) then fail ErrGasUintOverflow else mret v.

(** ** gas.go *)

Definition callGas (isEip150 : bool) (availableGas base callCost : Z) : vm_error + Z :=
  let late := if negb (IsUint64 callCost) then inl ErrGasUintOverflow else inr (Uint64 callCost) in
  if isEip150 then
    let availableGas := u64 (availableGas - base) in
    let gas := availableGas - availableGas / 64 in
    if negb (IsUint64 callCost) || bool_decide (gas < Uint64 callCost) then inr gas else late
  else late.

(** ** gas_table.go *)

Definition memoryGasCost (newMemSize : Z) : M Z :=
  if decide (newMemSize = 0) then mret 0
  else if decide (newMemSize > 0x1FFFFFFFE0) then fail ErrGasUintOverflow
  else
    m ← gets mem;
    let newMemSizeWords := toWordSize newMemSize in
    let newMemSize := u64 (newMemSizeWords * 32) in
    if decide (newMemSize > Len m) then
      let square := u64 (newMemSizeWords * newMemSizeWords) in
      let linCoef := u64 (newMemSizeWords * MemoryGas) in
      let quadCoef := square / QuadCoeffDiv in
      let newTotalFee := u64 (linCoef + quadCoef) in
      let fee := u64 (newTotalFee - lastGasCost m) in
      _ ← modify (fun f => set_mem f (mk_Memory (store (mem f)) newTotalFee));
      mret fee
    else mret 0.

Definition memoryCopierGas (stackpos memorySize : Z) : M Z :=
  gas ← memoryGasCost memorySize;
  words ← back_uint64 stackpos;
  words ← safe_mul (toWordSize words) CopyGas;
  safe_add gas words.

Definition gasCallDataCopy := memoryCopierGas 2.
Definition gasCodeCopy := memoryCopierGas 2.
Definition gasExtCodeCopy := memoryCopierGas 3.
Definition gasReturnDataCopy := memoryCopierGas 2.

Definition getState (key : Z) : M Z := a ← self_address; query (fun s => GetState s a key).
Definition getCommittedState (key : Z) : M Z := a ← self_address; query (fun s => GetCommittedState s a key).

Definition gasSStore (memorySize : Z) : M Z :=
  y ← back 1;
  x ← back 0;
  current ← getState (Bytes32 x);
  r ← gets rules;
  if IsPetersburg r || negb (IsConstantinople r) then
    if decide (current = 0 /\ Sign y <> 0) then mret SstoreSetGas
    else if decide (current <> 0 /\ Sign y = 0) then
      _ ← addRefund SstoreRefundGas;
      mret SstoreClearGas
    else mret SstoreResetGas
  else
    let value := Bytes32 y in
    if decide (current = value) then mret NetSstoreNoopGas
    else
      original ← getCommittedState (Bytes32 x);
      if decide (original = current) then
        if decide (original = 0) then mret NetSstoreInitGas
        else
          _ ← (if decide (value = 0) then addRefund NetSstoreClearRefund else mret tt);
          mret NetSstoreCleanGas
      else
        _ ← (if decide (original <> 0) then
               if decide (current = 0) then subRefund NetSstoreClearRefund
               else if decide (value = 0) then addRefund NetSstoreClearRefund else mret tt
             else mret tt);
        _ ← (if decide (original = value) then
               if decide (original = 0) then addRefund NetSstoreResetClearRefund else addRefund NetSstoreResetRefund
             else mret tt);
        mret NetSstoreDirtyGas.

Definition gasSStoreEIP2200 (memorySize : Z) : M Z :=
  c ← gets contract;
  if decide (Gas c <= SstoreSentryGasEIP2200) then fail ErrReentrancySentry
  else
    y ← back 1;
    x ← back 0;
    current ← getState (Bytes32 x);
    let value := Bytes32 y in
    if decide (current = value) then mret SloadGasEIP2200
    else
      original ← getCommittedState (Bytes32 x);
      if decide (original = current) then
        if decide (original = 0) then mret SstoreSetGasEIP2200
        else
          _ ← (if decide (value = 0) then addRefund SstoreClearsScheduleRefundEIP2200 else mret tt);
          mret SstoreResetGasEIP2200
      else
        _ ← (if decide (original <> 0) then
               if decide (current = 0) then subRefund SstoreClearsScheduleRefundEIP2200
               else if decide (value = 0) then addRefund SstoreClearsScheduleRefundEIP2200 else mret tt
             else mret tt);
        _ ← (if decide (original = value) then
               if decide (original = 0) then addRefund (SstoreSetGasEIP2200 - SloadGasEIP2200)
               else addRefund (SstoreResetGasEIP2200 - SloadGasEIP2200)
             else mret tt);
        mret SloadGasEIP2200.

Definition makeGasLog (n memorySize : Z) : M Z :=
  requestedSize ← back_uint64 1;
  gas ← memoryGasCost memorySize;
  gas ← safe_add gas LogGas;
  gas ← safe_add gas (u64 (n * LogTopicGas));
  memorySizeGas ← safe_mul requestedSize LogDataGas;
  safe_add gas memorySizeGas.

Definition gasSha3 (memorySize : Z) : M Z :=
  gas ← memoryGasCost memorySize;
  wordGas ← back_uint64 1;
  wordGas ← safe_mul (toWordSize wordGas) Sha3WordGas;
  safe_add gas wordGas.

Definition pureMemoryGascost (memorySize : Z) : M Z := memoryGasCost memorySize.

Definition gasReturn := pureMemoryGascost.
Definition gasRevert := pureMemoryGascost.
Definition gasMLoad := pureMemoryGascost.
Definition gasMStore8 := pureMemoryGascost.
Definition gasMStore := pureMemoryGascost.
Definition gasCreate := pureMemoryGascost.

Definition gasCreate2 (memorySize : Z) : M Z :=
  gas ← memoryGasCost memorySize;
  wordGas ← back_uint64 2;
  wordGas ← safe_mul (toWordSize wordGas) Sha3WordGas;
  safe_add gas wordGas.

(** [stack.data[stack.len()-2]] *)
Definition gasExp (perByte : Z) (memorySize : Z) : M Z :=
  x ← lift (fun f => go_index (stack f) (zlen (stack f) - 2));
  let expByteLen := (BitLen x + 7) / 8 in
  safe_add (u64 (expByteLen * perByte)) ExpGas.

Definition gasExpFrontier := gasExp ExpByteFrontier.
Definition gasExpEIP158 := gasExp ExpByteEIP158.

(** [evm.callGasTemp, err = callGas(...)], then the call's gas is added. *)
Definition add_call_gas (gas : Z) : M Z :=
  r ← gets rules;
  c ← gets contract;
  cost ← back 0;
  match callGas (IsEIP150 r) (Gas c) gas cost with
  | inl e => _ ← modify (fun f => set_callGasTemp f 0); fail e
  | inr temp => _ ← modify (fun f => set_callGasTemp f temp); safe_add gas temp
  end.

Definition gasCall (memorySize : Z) : M Z :=
  v ← back 2;
  let transfersValue := negb (IsZero v) in
  a ← back 1;
  let address := Bytes20 a in
  r ← gets rules;
  new ← (if IsEIP158 r then
           if (transfersValue : bool) then query (fun s => Empty s address) else mret false
         else e ← query (fun s => Exist s address); mret (negb e));
  let gas := if (new : bool) then CallNewAccountGas else 0 in
  let gas := if (transfersValue : bool) then gas + CallValueTransferGas else gas in
  memoryGas ← memoryGasCost memorySize;
  gas ← safe_add gas memoryGas;
  add_call_gas gas.

Definition gasCallCode (memorySize : Z) : M Z :=
  memoryGas ← memoryGasCost memorySize;
  v ← back 2;
  gas ← safe_add (if decide (Sign v <> 0) then CallValueTransferGas else 0) memoryGas;
  add_call_gas gas.

Definition gasDelegateCall (memorySize : Z) : M Z :=
  gas ← memoryGasCost memorySize;
  add_call_gas gas.

Definition gasStaticCall (memorySize : Z) : M Z :=
  gas ← memoryGasCost memorySize;
  add_call_gas gas.

(** The refund of SELFDESTRUCT, the first time. *)
Definition refund_selfdestruct : M unit :=
  self ← self_address;
  suicided ← query (fun s => HasSuicided s self);
  if (suicided : bool) then mret tt else addRefund SelfdestructRefundGas.

(** An empty account that is sent a balance. *)
Definition sends_to_empty (address : Z) : M bool :=
  e ← query (fun s => Empty s address);
  if (e : bool) then
    self ← self_address;
    b ← query (fun s => GetBalance s self);
    mret (bool_decide (b <> 0))
  else mret false.

Definition gasSelfdestruct (memorySize : Z) : M Z :=
  r ← gets rules;
  gas ← (if IsEIP150 r then
           a ← back 0;
           let address := Bytes20 a in
           new ← (if IsEIP158 r then sends_to_empty address
                  else e ← query (fun s => Exist s address); mret (negb e));
           mret (if (new : bool) then SelfdestructGasEIP150 + CreateBySelfdestructGas else SelfdestructGasEIP150)
         else mret 0);
  _ ← refund_selfdestruct;
  mret gas.

(** ** operations_acl.go *)

Definition peek_m : M Z := lift (fun f => peek (stack f)).

Definition gasSStoreEIP2929 (memorySize : Z) : M Z :=
  c ← gets contract;
  if decide (Gas c <= SstoreSentryGasEIP2200) then fail ErrReentrancySentry
  else
    y ← back 1;
    x ← peek_m;
    let slot := Bytes32 x in
    current ← getState slot;
    a ← self_address;
    present ← lift (fun f => Contains (access (db f)) a slot);
    let '(addrPresent, slotPresent) := present in
    cost ← (if (slotPresent : bool) then mret 0
            else
              _ ← change (fun s => AddSlotToAccessList s a slot);
              if (addrPresent : bool) then mret ColdSloadCostEIP2929 else fun _ => Panic);
    let value := Bytes32 y in
    if decide (current = value) then mret (cost + WarmStorageReadCostEIP2929)
    else
      original ← getCommittedState (Bytes32 x);
      if decide (original = current) then
        if decide (original = 0) then mret (cost + SstoreSetGasEIP2200)
        else
          _ ← (if decide (value = 0) then addRefund SstoreClearsScheduleRefundEIP2200 else mret tt);
          mret (cost + (SstoreResetGasEIP2200 - ColdSloadCostEIP2929))
      else
        _ ← (if decide (original <> 0) then
               if decide (current = 0) then subRefund SstoreClearsScheduleRefundEIP2200
               else if decide (value = 0) then addRefund SstoreClearsScheduleRefundEIP2200 else mret tt
             else mret tt);
        _ ← (if decide (original = value) then
               if decide (original = 0) then addRefund (SstoreSetGasEIP2200 - WarmStorageReadCostEIP2929)
               else addRefund (SstoreResetGasEIP2200 - ColdSloadCostEIP2929 - WarmStorageReadCostEIP2929)
             else mret tt);
        mret (cost + WarmStorageReadCostEIP2929).

Definition gasSLoadEIP2929 (memorySize : Z) : M Z :=
  loc ← peek_m;
  let slot := Bytes32 loc in
  a ← self_address;
  present ← lift (fun f => Contains (access (db f)) a slot);
  if (present.2 : bool) then mret WarmStorageReadCostEIP2929
  else
    _ ← change (fun s => AddSlotToAccessList s a slot);
    mret ColdSloadCostEIP2929.

(** Whether the address was missing in the access list, to which it is added. *)
Definition touch_address (addr : Z) : M bool :=
  warm ← gets (fun f => ContainsAddress (access (db f)) addr);
  if (warm : bool) then mret false
  else
    _ ← change (fun s => Ret (AddAddressToAccessList s addr));
    mret true.

Definition gasExtCodeCopyEIP2929 (memorySize : Z) : M Z :=
  gas ← gasExtCodeCopy memorySize;
  a ← peek_m;
  cold ← touch_address (Bytes20 a);
  if (cold : bool) then safe_add gas (ColdAccountAccessCostEIP2929 - WarmStorageReadCostEIP2929) else mret gas.

Definition gasEip2929AccountCheck (memorySize : Z) : M Z :=
  a ← peek_m;
  cold ← touch_address (Bytes20 a);
  mret (if (cold : bool) then ColdAccountAccessCostEIP2929 - WarmStorageReadCostEIP2929 else 0).

(** [contract.UseGas] inside a gas function. *)
Definition use_gas (gas : Z) : M unit := fun f =>
  let '(ok, c) := UseGas (contract f) gas in
  Ret (set_contract f c, if ok then inr tt else inl ErrOutOfGas).

Definition makeCallVariantGasCallEIP2929 (oldCalculator : Z -> M Z) (memorySize : Z) : M Z :=
  a ← back 1;
  cold ← touch_address (Bytes20 a);
  _ ← (if (cold : bool) then use_gas (ColdAccountAccessCostEIP2929 - WarmStorageReadCostEIP2929) else mret tt);
  oldCalculator memorySize.

Definition gasCallEIP2929 := makeCallVariantGasCallEIP2929 gasCall.
Definition gasDelegateCallEIP2929 := makeCallVariantGasCallEIP2929 gasDelegateCall.
Definition gasStaticCallEIP2929 := makeCallVariantGasCallEIP2929 gasStaticCall.
Definition gasCallCodeEIP2929 := makeCallVariantGasCallEIP2929 gasCallCode.

Definition gasSelfdestructEIP2929 (memorySize : Z) : M Z :=
  a ← peek_m;
  let address := Bytes20 a in
  cold ← touch_address address;
  new ← sends_to_empty address;
  _ ← refund_selfdestruct;
  mret ((if (cold : bool) then ColdAccountAccessCostEIP2929 else 0) + (if (new : bool) then CreateBySelfdestructGas else 0)).

End Gas.
