(* ===== verification/VmPrecompiles.v ===== *)
(** * Precompiled contracts (core/vm/contracts.go)

    The contracts at small addresses that are implemented in Go.  Their gas
    functions, the modular exponentiation and the handling of their inputs are
    modelled; the cryptographic primitives are the interface [Crypto].  The
    identity contract returns the slice it was given, not a copy: a result is
    fresh bytes or the input itself ([slice]). *)

From stdpp Require Import gmap.
From Stdlib Require Import Zpow_facts.
From S2P Require Import Prelude Rlp Trie AccessList StateDB Uint256 VmAnalysis VmContract VmMemory VmGas.

(** What the contracts use of the cryptographic packages. *)
Class Crypto := {
  Ecrecover : bytes -> bytes -> option bytes;    (* hash and signature; the public key *)
  Keccak256 : bytes -> bytes;
  sha256_Sum256 : bytes -> bytes;
  ripemd160_Sum : bytes -> bytes;
  G1 : Type;
  G2 : Type;
  G1_Unmarshal : bytes -> option G1;
  G2_Unmarshal : bytes -> option G2;
  G1_Add : G1 -> G1 -> G1;
  G1_ScalarMult : G1 -> Z -> G1;
  G1_Marshal : G1 -> bytes;
  PairingCheck : list G1 -> list G2 -> bool;
  (* blake2b.F: the state, the block, the two counters, the final flag and the rounds *)
  blake2b_F : list Z -> list Z -> Z -> Z -> bool -> Z -> list Z
}.

(** The bytes a contract returns: a new slice, or the slice of its input. *)
Inductive slice := Fresh (b : bytes) | InputSlice.

Definition content (input : bytes) (r : slice) : bytes := match r with Fresh b => b | InputSlice => input end.

Inductive PrecompiledContract :=
| ecrecover | sha256hash | ripemd160hash | dataCopy
| bigModExp (eip2565 : bool)
| bn256AddByzantium | bn256AddIstanbul
| bn256ScalarMulByzantium | bn256ScalarMulIstanbul
| bn256PairingByzantium | bn256PairingIstanbul
| blake2F.

Definition PrecompiledContractsHomestead : list (Z * PrecompiledContract) :=
  [(1, ecrecover); (2, sha256hash); (3, ripemd160hash); (4, dataCopy)].

Definition PrecompiledContractsByzantium : list (Z * PrecompiledContract) :=
  [(1, ecrecover); (2, sha256hash); (3, ripemd160hash); (4, dataCopy); (5, bigModExp false);
   (6, bn256AddByzantium); (7, bn256ScalarMulByzantium); (8, bn256PairingByzantium)].

Definition PrecompiledContractsIstanbul : list (Z * PrecompiledContract) :=
  [(1, ecrecover); (2, sha256hash); (3, ripemd160hash); (4, dataCopy); (5, bigModExp false);
   (6, bn256AddIstanbul); (7, bn256ScalarMulIstanbul); (8, bn256PairingIstanbul); (9, blake2F)].

Definition PrecompiledContractsYoloV3 : list (Z * PrecompiledContract) :=
  [(1, ecrecover); (2, sha256hash); (3, ripemd160hash); (4, dataCopy); (5, bigModExp true);
   (6, bn256AddIstanbul); (7, bn256ScalarMulIstanbul); (8, bn256PairingIstanbul); (9, blake2F)].

(** The lists of addresses, which [init] fills from the maps; the arguments are the
    orders in which Go iterates over the keys. *)
Record PrecompiledAddresses := mk_addresses {
  PrecompiledAddressesYoloV3 : list Z;
  PrecompiledAddressesIstanbul : list Z;
  PrecompiledAddressesByzantium : list Z;
  PrecompiledAddressesHomestead : list Z
}.

Definition init (homestead byzantium istanbul yoloV3 : list Z) : PrecompiledAddresses :=
  let a := mk_addresses [] [] [] [] in
  let a := foldl (fun a k => mk_addresses (PrecompiledAddressesYoloV3 a) (PrecompiledAddressesIstanbul a)
                    (PrecompiledAddressesByzantium a) (PrecompiledAddressesHomestead a ++ [k])) a homestead in
  let a := foldl (fun a k => mk_addresses (PrecompiledAddressesYoloV3 a) (PrecompiledAddressesIstanbul a)
                    (PrecompiledAddressesByzantium a) (PrecompiledAddressesByzantium a ++ [k])) a byzantium in
  let a := foldl (fun a k => mk_addresses (PrecompiledAddressesYoloV3 a) (PrecompiledAddressesIstanbul a ++ [k])
                    (PrecompiledAddressesByzantium a) (PrecompiledAddressesHomestead a)) a istanbul in
  foldl (fun a k => mk_addresses (PrecompiledAddressesYoloV3 a ++ [k]) (PrecompiledAddressesIstanbul a)
           (PrecompiledAddressesByzantium a) (PrecompiledAddressesHomestead a)) a yoloV3.

(** ** Gas *)

Notation EcrecoverGas := 3000 (only parsing).
Notation Sha256BaseGas := 60 (only parsing).
Notation Sha256PerWordGas := 12 (only parsing).
Notation Ripemd160BaseGas := 600 (only parsing).
Notation Ripemd160PerWordGas := 120 (only parsing).
Notation IdentityBaseGas := 15 (only parsing).
Notation IdentityPerWordGas := 3 (only parsing).
Notation Bn256AddGasByzantium := 500 (only parsing).
Notation Bn256AddGasIstanbul := 150 (only parsing).
Notation Bn256ScalarMulGasByzantium := 40000 (only parsing).
Notation Bn256ScalarMulGasIstanbul := 6000 (only parsing).
Notation Bn256PairingBaseGasByzantium := 100000 (only parsing).
Notation Bn256PairingBaseGasIstanbul := 45000 (only parsing).
Notation Bn256PairingPerPointGasByzantium := 80000 (only parsing).
Notation Bn256PairingPerPointGasIstanbul := 34000 (only parsing).

(** [uint64(len(input)+31)/32*perWord + base] *)
Definition per_word (base perWord : Z) (input : bytes) : Z := u64 ((zlen input + 31) / 32 * perWord + base).

Definition modexpMultComplexity (x : Z) : Z :=
  if decide (x <= 64) then x * x
  else if decide (x <= 1024) then x * x / 4 + (96 * x - 3072)
  else x * x / 16 + (480 * x - 199680).

(** [big.Int.BitLen] *)
Definition bitlen (x : Z) : Z := if decide (x = 0) then 0 else Z.log2 (Z.abs x) + 1.

(** [big.Int.Bytes] *)
Definition big_bytes (x : Z) : bytes := be_bytes (Z.to_nat ((bitlen x + 7) / 8)) x.

(** The three lengths at the start of the input, and what follows them. *)
Definition modexp_lengths {E} (input : bytes) : outcome E (Z * Z * Z * bytes) :=
  b ← getData input 0 32;
  e ← getData input 32 32;
  m ← getData input 64 32;
  Ret (be_to_Z b, be_to_Z e, be_to_Z m, if decide (zlen input > 96) then drop 96 input else []).

Definition bigModExp_RequiredGas {E} (eip2565 : bool) (input : bytes) : outcome E Z :=
  r ← modexp_lengths input;
  let '(baseLen, expLen, modLen, input) := r in
  expHead ← (if decide (zlen input <= baseLen) then Ret 0
             else if decide (expLen > 32) then d ← getData input (u64 baseLen) 32; Ret (be_to_Z d)
             else d ← getData input (u64 baseLen) (u64 expLen); Ret (be_to_Z d));
  let msb := if decide (bitlen expHead > 0) then bitlen expHead - 1 else 0 in
  let adjExpLen := (if decide (expLen > 32) then 8 * (expLen - 32) else 0) + msb in
  let gas := Z.max modLen baseLen in
  if eip2565 then
    let gas := (gas + 7) / 8 in
    let gas := gas * gas * Z.max adjExpLen 1 / 3 in
    if decide (bitlen gas > 64) then Ret MaxUint64
    else if decide (u64 gas < 200) then Ret 200
    else Ret (u64 gas)
  else
    let gas := modexpMultComplexity gas * Z.max adjExpLen 1 / 20 in
    if decide (bitlen gas > 64) then Ret MaxUint64 else Ret (u64 gas).

Definition blake2FInputLength : Z := 213.

Definition RequiredGas {E} (p : PrecompiledContract) (input : bytes) : outcome E Z :=
  match p with
  | ecrecover => Ret EcrecoverGas
  | sha256hash => Ret (per_word Sha256BaseGas Sha256PerWordGas input)
  | ripemd160hash => Ret (per_word Ripemd160BaseGas Ripemd160PerWordGas input)
  | dataCopy => Ret (per_word IdentityBaseGas IdentityPerWordGas input)
  | bigModExp eip2565 => bigModExp_RequiredGas eip2565 input
  | bn256AddByzantium => Ret Bn256AddGasByzantium
  | bn256AddIstanbul => Ret Bn256AddGasIstanbul
  | bn256ScalarMulByzantium => Ret Bn256ScalarMulGasByzantium
  | bn256ScalarMulIstanbul => Ret Bn256ScalarMulGasIstanbul
  | bn256PairingByzantium => Ret (u64 (Bn256PairingBaseGasByzantium + zlen input / 192 * Bn256PairingPerPointGasByzantium))
  | bn256PairingIstanbul => Ret (u64 (Bn256PairingBaseGasIstanbul + zlen input / 192 * Bn256PairingPerPointGasIstanbul))
  | blake2F =>
      if decide (zlen input <> blake2FInputLength) then Ret 0
      else r ← go_slice input 0 4; Ret (be_to_Z r)
  end.

(** ** The contracts *)

Section Run.
Context {C : Crypto}.

Definition LeftPadBytes (slice : bytes) (l : Z) : bytes :=
  if decide (l <= zlen slice) then slice else replicate (Z.to_nat (l - zlen slice)) 0 ++ slice.

Definition allZero (b : bytes) : bool := forallb (fun x => bool_decide (x = 0)) b.

(** ** crypto/crypto.go *)

Definition secp256k1N : Z := 0xfffffffffffffffffffffffffffffffebaaedce6af48a03bbfd25e8cd0364141.
Definition secp256k1halfN : Z := secp256k1N / 2.

Definition ValidateSignatureValues (v r s : Z) (homestead : bool) : bool :=
  if decide (r < 1 \/ s < 1) then false
  else if homestead && bool_decide (s > secp256k1halfN) then false
  else bool_decide (r < secp256k1N) && bool_decide (s < secp256k1N) && (bool_decide (v = 0) || bool_decide (v = 1)).

Definition ecrecover_Run (input : bytes) : outcome vm_error slice :=
  let input := RightPadBytes input 128 in
  rb ← go_slice input 64 96;
  sb ← go_slice input 96 128;
  vb ← go_index input 63;
  let v := u8 (vb - 27) in
  z ← go_slice input 32 63;
  if negb (allZero z) || negb (ValidateSignatureValues v (be_to_Z rb) (be_to_Z sb) false) then Ret (Fresh [])
  else
    h ← go_slice input 0 32;
    match Ecrecover h (rb ++ sb ++ [v]) with
    | None => Ret (Fresh [])
    | Some pubKey =>
        k ← go_from pubKey 1;
        a ← go_from (Keccak256 k) 12;
        Ret (Fresh (LeftPadBytes a 32))
    end.

Definition bigModExp_Run (input : bytes) : outcome vm_error slice :=
  r ← modexp_lengths input;
  let '(baseLen, expLen, modLen, input) := r in
  let baseLen := u64 baseLen in
  let expLen := u64 expLen in
  let modLen := u64 modLen in
  if decide (baseLen = 0 /\ modLen = 0) then Ret (Fresh [])
  else
    b ← getData input 0 baseLen;
    e ← getData input baseLen expLen;
    m ← getData input (u64 (baseLen + expLen)) modLen;
    if decide (be_to_Z m = 0) then Ret (Fresh (LeftPadBytes [] (i64 modLen)))
    else Ret (Fresh (LeftPadBytes (big_bytes (Zpow_mod (be_to_Z b) (be_to_Z e) (be_to_Z m))) (i64 modLen))).

(** An error of one of the packages. *)
Definition point {A} (p : option A) : outcome vm_error A := match p with Some a => Ret a | None => Err ErrPrecompile end.

Definition newCurvePoint (blob : bytes) : outcome vm_error G1 := point (G1_Unmarshal blob).
Definition newTwistPoint (blob : bytes) : outcome vm_error G2 := point (G2_Unmarshal blob).

Definition runBn256Add (input : bytes) : outcome vm_error slice :=
  x ← getData input 0 64;
  x ← newCurvePoint x;
  y ← getData input 64 64;
  y ← newCurvePoint y;
  Ret (Fresh (G1_Marshal (G1_Add x y))).

Definition runBn256ScalarMul (input : bytes) : outcome vm_error slice :=
  p ← getData input 0 64;
  p ← newCurvePoint p;
  k ← getData input 64 32;
  Ret (Fresh (G1_Marshal (G1_ScalarMult p (be_to_Z k)))).

Definition true32Byte : bytes := replicate 31 0 ++ [1].
Definition false32Byte : bytes := replicate 32 0.

(** The loop over the points, [n] of them from offset [i]. *)
Fixpoint pairing_points (n : nat) (input : bytes) (i : Z) : outcome vm_error (list G1 * list G2) :=
  match n with
  | O => Ret ([], [])
  | S n =>
      c ← go_slice input i (i + 64);
      c ← newCurvePoint c;
      t ← go_slice input (i + 64) (i + 192);
      t ← newTwistPoint t;
      r ← pairing_points n input (i + 192);
      Ret (c :: r.1, t :: r.2)
  end.

Definition runBn256Pairing (input : bytes) : outcome vm_error slice :=
  if decide (zlen input mod 192 > 0) then Err ErrPrecompile
  else
    r ← pairing_points (Z.to_nat (zlen input / 192)) input 0;
    Ret (Fresh (if PairingCheck r.1 r.2 then true32Byte else false32Byte)).

(** [binary.LittleEndian.Uint64] and its inverse. *)
Definition le_to_Z (b : bytes) : Z := be_to_Z (rev b).

Fixpoint le_words (n : nat) (input : bytes) (offset : Z) : outcome vm_error (list Z) :=
  match n with
  | O => Ret []
  | S n =>
      b ← go_slice input offset (offset + 8);
      r ← le_words n input (offset + 8);
      Ret (le_to_Z b :: r)
  end.

Definition put_le (x : Z) : bytes := map (fun k => u8 (Z.shiftr x (8 * Z.of_nat k))) (seq 0 8).

Definition blake2F_Run (input : bytes) : outcome vm_error slice :=
  if decide (zlen input <> blake2FInputLength) then Err ErrPrecompile
  else
    flag ← go_index input 212;
    if decide (flag <> 0 /\ flag <> 1) then Err ErrPrecompile
    else
      rounds ← go_slice input 0 4;
      h ← le_words 8 input 4;
      m ← le_words 16 input 68;
      t0 ← go_slice input 196 204;
      t1 ← go_slice input 204 212;
      let h := blake2b_F h m (le_to_Z t0) (le_to_Z t1) (bool_decide (flag = 1)) (be_to_Z rounds) in
      Ret (Fresh (concat (map put_le h))).

Definition Run_precompile (p : PrecompiledContract) (input : bytes) : outcome vm_error slice :=
  match p with
  | ecrecover => ecrecover_Run input
  | sha256hash => Ret (Fresh (sha256_Sum256 input))
  | ripemd160hash => Ret (Fresh (LeftPadBytes (ripemd160_Sum input) 32))
  | dataCopy => Ret InputSlice
  | bigModExp _ => bigModExp_Run input
  | bn256AddByzantium | bn256AddIstanbul => runBn256Add input
  | bn256ScalarMulByzantium | bn256ScalarMulIstanbul => runBn256ScalarMul input
  | bn256PairingByzantium | bn256PairingIstanbul => runBn256Pairing input
  | blake2F => blake2F_Run input
  end.

(** The output, the gas that remains and the error. *)
Definition RunPrecompiledContract (p : PrecompiledContract) (input : bytes) (suppliedGas : Z)
    : outcome Empty_set (slice * Z * option vm_error) :=
  gasCost ← RequiredGas p input;
  if decide (suppliedGas < gasCost) then Ret (Fresh [], 0, Some ErrOutOfGas)
  else
    match Run_precompile p input with
    | Ret out => Ret (out, suppliedGas - gasCost, None)
    | Err e => Ret (Fresh [], suppliedGas - gasCost, Some e)
    | Panic => Panic
    end.

End Run.
