(* ===== verification/VmInstructions.v ===== *)
(** * Instructions (core/vm/instructions.go, eips.go)

    One definition per execution function.  An instruction changes the frame of
    the call and returns bytes or an error.  The calls of other contracts go
    through the interface [Evm], which interpreter.go and evm.go implement on
    top of the instructions. *)

From stdpp Require Import gmap.
From S2P Require Import Prelude Rlp Trie AccessList StateDB Uint256 VmAnalysis VmContract VmMemory VmGas VmPrecompiles.

(** The block and transaction contexts and the configuration of the EVM. *)
Record Env := mk_Env {
  GetHash : Z -> Z;
  Coinbase : Z;
  GasLimit : Z;
  BlockNumber : Z;
  Time : Z;
  Difficulty : Z;
  Origin : Z;
  GasPrice : Z;
  ChainID : Z;
  NoRecursion : bool;
  EnablePreimageRecording : bool;
  abort : bool
}.

Definition CallStipend : Z := 2300.

Section Types.
Context {B : Backend}.

(** What the EVM and its interpreter carry from call to call. *)
Record EVM := mk_EVM {
  chainRules : Rules;
  evm_db : StateDB;
  evm_callGasTemp : Z;
  evm_depth : Z;
  evm_readOnly : bool;
  evm_returnData : bytes
}.

Definition evm_of (f : frame) : EVM := mk_EVM (rules f) (db f) (callGasTemp f) (depth f) (readOnly f) (returnData f).

Definition with_evm (f : frame) (e : EVM) : frame :=
  mk_frame (chainRules e) (evm_db e) (evm_callGasTemp e) (contract f) (stack f) (mem f) (rstack f) (pc f)
    (evm_depth e) (evm_readOnly e) (evm_returnData e).

(** The caller of a contract: an account, or a contract whose cache is shared. *)
Inductive ContractRef := AccountRef (a : Z) | ContractCaller (c : Contract).

(** A call returns the EVM, the shared cache, the output, the gas and the error. *)
Definition call_result : Type := EVM * gmap Z bitvec * (slice * Z * option vm_error).
Definition create_result : Type := EVM * gmap Z bitvec * (bytes * Z * Z * option vm_error).

(** What the instructions use of evm.go. *)
Class Evm := {
  evm_Call : EVM -> ContractRef -> Z -> bytes -> Z -> Z -> fuelled Empty_set call_result;
  evm_CallCode : EVM -> ContractRef -> Z -> bytes -> Z -> Z -> fuelled Empty_set call_result;
  evm_DelegateCall : EVM -> ContractRef -> Z -> bytes -> Z -> fuelled Empty_set call_result;
  evm_StaticCall : EVM -> ContractRef -> Z -> bytes -> Z -> fuelled Empty_set call_result;
  evm_Create : EVM -> ContractRef -> bytes -> Z -> Z -> fuelled Empty_set create_result;
  evm_Create2 : EVM -> ContractRef -> bytes -> Z -> Z -> Z -> fuelled Empty_set create_result
}.

(** Computations that may run other contracts. *)
Definition X (A : Type) : Type := frame -> fuelled Empty_set (frame * (vm_error + A)).

#[global] Instance X_ret : MRet X := fun A a f => run (Ret (f, inr a)).
#[global] Instance X_bind : MBind X := fun A B k m f =>
  r ← m f;
  match r with
  | (f, inr a) => k a f
  | (f, inl e) => run (Ret (f, inl e))
  end.

Definition embed {A} (m : M A) : X A := fun f => run (m f).
(** The instructions that return no data. *)
Definition simple (m : M unit) : X bytes := embed (_ ← m; mret []).

Definition pop_m : M Z := fun f => r ← pop (stack f); Ret (set_stack f r.2, inr r.1).
Definition push_m (d : Z) : M unit := modify (fun f => set_stack f (push (stack f) d)).
(** Writing through the pointer that [peek] returns. *)
Definition poke (d : Z) : M unit := fun f =>
  _ ← peek (stack f);
  Ret (set_stack f (<[Z.to_nat (zlen (stack f) - 1) := d]> (stack f)), inr tt).

Definition update (q : StateDB -> StateDB) : M unit := modify (fun f => set_db f (q (db f))).
Definition set_memory (g : Memory -> outcome Empty_set Memory) : M unit := fun f => m ← g (mem f); Ret (set_mem f m, inr tt).
Definition add_pc (n : Z) : M unit := modify (fun f => set_pc f (u64 (pc f + n))).

End Types.

Section Instructions.
Context {B : Backend} {U : Uint256} {C : Crypto} {E : Evm} (env : Env).

Definition binop (g : Z -> Z -> Z) : X bytes := simple (x ← pop_m; y ← peek_m; poke (g x y)).
Definition unop (g : Z -> Z) : X bytes := simple (x ← peek_m; poke (g x)).
Definition of_bool (b : bool) : Z := if b then 1 else 0.

Definition opAdd := binop Add.
Definition opSub := binop Sub.
Definition opMul := binop Mul.
Definition opDiv := binop Div.
Definition opSdiv := binop SDiv.
Definition opMod := binop Mod.
Definition opSmod := binop SMod.
Definition opExp := binop Exp.
Definition opSignExtend := binop (fun back num => ExtendSign num back).
Definition opNot := unop Not.
Definition opLt := binop (fun x y => of_bool (Lt x y)).
Definition opGt := binop (fun x y => of_bool (Gt x y)).
Definition opSlt := binop (fun x y => of_bool (Slt x y)).
Definition opSgt := binop (fun x y => of_bool (Sgt x y)).
Definition opEq := binop (fun x y => of_bool (Eq x y)).
Definition opIszero := unop (fun x => of_bool (IsZero x)).
Definition opAnd := binop And.
Definition opOr := binop Or.
Definition opXor := binop Xor.
Definition opByte := binop (fun th val => Byte val th).

Definition opAddmod : X bytes :=
  simple (x ← pop_m; y ← pop_m; z ← peek_m; poke (if IsZero z then 0 else AddMod x y z)).

Definition opMulmod : X bytes := simple (x ← pop_m; y ← pop_m; z ← peek_m; poke (MulMod x y z)).

Definition opSHL : X bytes :=
  binop (fun shift value => if bool_decide (shift < 256) then Lsh value (Uint64 shift) else 0).

Definition opSHR : X bytes :=
  binop (fun shift value => if bool_decide (shift < 256) then Rsh value (Uint64 shift) else 0).

Definition opSAR : X bytes :=
  binop (fun shift value =>
    if bool_decide (shift > 256) then if decide (Sign value >= 0) then 0 else 2 ^ 256 - 1
    else SRsh value (Uint64 shift)).

Definition getPtr (offset size : Z) : M bytes := lift (fun f => GetPtr (mem f) (i64 (Uint64 offset)) (i64 (Uint64 size))).
Definition getCopy (offset size : Z) : M bytes := lift (fun f => GetCopy (mem f) (i64 (Uint64 offset)) (i64 (Uint64 size))).

Definition opSha3 : X bytes :=
  simple (offset ← pop_m; size ← peek_m;
          data ← getPtr offset size;
          let hasherBuf := Keccak256 data in
          _ ← (if EnablePreimageRecording env then update (fun s => AddPreimage s (be_to_Z hasherBuf) data) else mret tt);
          poke (SetBytes hasherBuf)).

(** Addresses and hashes are integers; their bytes are big-endian. *)
Definition address_word (a : Z) : Z := SetBytes (be_bytes 20 a).
Definition hash_word (h : Z) : Z := SetBytes (be_bytes 32 h).

Definition opAddress : X bytes := simple (a ← self_address; push_m (address_word a)).

Definition opBalance : X bytes :=
  simple (slot ← peek_m; b ← query (fun s => GetBalance s (Bytes20 slot)); poke (FromBig b).1).

Definition opOrigin : X bytes := simple (push_m (address_word (Origin env))).
Definition opCaller : X bytes := simple (c ← gets contract; push_m (address_word (CallerAddress c))).
Definition opCallValue : X bytes := simple (c ← gets contract; push_m (FromBig (value c)).1).

Definition opCallDataLoad : X bytes :=
  simple (x ← peek_m;
          let '(offset, overflow) := Uint64WithOverflow x in
          if (overflow : bool) then poke 0
          else d ← lift (fun f => getData (Input (contract f)) offset 32); poke (SetBytes d)).

Definition opCallDataSize : X bytes := simple (c ← gets contract; push_m (u64 (zlen (Input c)))).

Definition offset_or_max (x : Z) : Z :=
  let '(v, overflow) := Uint64WithOverflow x in if (overflow : bool) then 0xffffffffffffffff else v.

Definition opCallDataCopy : X bytes :=
  simple (memOffset ← pop_m; dataOffset ← pop_m; length ← pop_m;
          d ← lift (fun f => getData (Input (contract f)) (offset_or_max dataOffset) (Uint64 length));
          set_memory (fun m => Memory_Set m (Uint64 memOffset) (Uint64 length) d)).

Definition opReturnDataSize : X bytes := simple (r ← gets returnData; push_m (u64 (zlen r))).

Definition opReturnDataCopy : X bytes :=
  simple (memOffset ← pop_m; dataOffset ← pop_m; length ← pop_m;
          let '(offset64, overflow) := Uint64WithOverflow dataOffset in
          if (overflow : bool) then fail ErrReturnDataOutOfBounds
          else
            let '(end64, overflow) := Uint64WithOverflow (Add dataOffset length) in
            r ← gets returnData;
            if overflow || bool_decide (zlen r < end64) then fail ErrReturnDataOutOfBounds
            else
              d ← lift (fun _ => go_slice r offset64 end64);
              set_memory (fun m => Memory_Set m (Uint64 memOffset) (Uint64 length) d)).

Definition opExtCodeSize : X bytes :=
  simple (slot ← peek_m; n ← query (fun s => GetCodeSize s (Bytes20 slot)); poke (u64 n)).

Definition opCodeSize : X bytes := simple (c ← gets contract; push_m (u64 (zlen (Code c)))).

Definition opCodeCopy : X bytes :=
  simple (memOffset ← pop_m; codeOffset ← pop_m; length ← pop_m;
          d ← lift (fun f => getData (Code (contract f)) (offset_or_max codeOffset) (Uint64 length));
          set_memory (fun m => Memory_Set m (Uint64 memOffset) (Uint64 length) d)).

Definition opExtCodeCopy : X bytes :=
  simple (a ← pop_m; memOffset ← pop_m; codeOffset ← pop_m; length ← pop_m;
          code ← query (fun s => GetCode s (Bytes20 a));
          d ← lift (fun _ => getData (default [] code) (offset_or_max codeOffset) (Uint64 length));
          set_memory (fun m => Memory_Set m (Uint64 memOffset) (Uint64 length) d)).

Definition opExtCodeHash : X bytes :=
  simple (slot ← peek_m;
          let address := Bytes20 slot in
          e ← query (fun s => Empty s address);
          if (e : bool) then poke 0 else h ← query (fun s => GetCodeHash s address); poke (hash_word h)).

Definition opGasprice : X bytes := simple (push_m (FromBig (GasPrice env)).1).

Definition opBlockhash : X bytes :=
  simple (num ← peek_m;
          let '(num64, overflow) := Uint64WithOverflow num in
          if (overflow : bool) then poke 0
          else
            let upper := u64 (BlockNumber env) in
            let lower := if decide (upper < 257) then 0 else upper - 256 in
            if decide (num64 >= lower /\ num64 < upper) then poke (hash_word (GetHash env num64)) else poke 0).

Definition opCoinbase : X bytes := simple (push_m (address_word (Coinbase env))).
Definition opTimestamp : X bytes := simple (push_m (FromBig (Time env)).1).
Definition opNumber : X bytes := simple (push_m (FromBig (BlockNumber env)).1).
Definition opDifficulty : X bytes := simple (push_m (FromBig (Difficulty env)).1).
Definition opGasLimit : X bytes := simple (push_m (u64 (GasLimit env))).
Definition opPop : X bytes := simple (_ ← pop_m; mret tt).

Definition opMload : X bytes :=
  simple (v ← peek_m; d ← lift (fun f => GetPtr (mem f) (i64 (Uint64 v)) 32); poke (SetBytes d)).

Definition opMstore : X bytes :=
  simple (mStart ← pop_m; val ← pop_m; set_memory (fun m => Set32 m (Uint64 mStart) val)).

(** [memory.store[off.Uint64()] = byte(val.Uint64())] *)
Definition opMstore8 : X bytes :=
  simple (off ← pop_m; val ← pop_m;
          set_memory (fun m =>
            _ ← go_index (store m) (Uint64 off);
            Ret (mk_Memory (<[Z.to_nat (Uint64 off) := u8 (Uint64 val)]> (store m)) (lastGasCost m)))).

Definition opSload : X bytes := simple (loc ← peek_m; v ← getState (Bytes32 loc); poke (hash_word v)).

Definition opSstore : X bytes :=
  simple (loc ← pop_m; val ← pop_m; a ← self_address; update (fun s => SetState s a (Bytes32 loc) (Bytes32 val))).

(** The check of a destination, which caches the analysis in the contract. *)
Definition check_jump (check : Contract -> fuelled Empty_set (bool * Contract)) : X bool := fun f =>
  r ← check (contract f);
  run (Ret (set_contract f r.2, inr r.1)).

Definition jump_to (pos : Z) : X bytes :=
  ok ← check_jump (fun c => validJumpdest c pos);
  if (ok : bool) then simple (modify (fun f => set_pc f (Uint64 pos))) else embed (fail ErrInvalidJump).

Definition opJump : X bytes := pos ← embed pop_m; jump_to pos.

Definition opJumpi : X bytes :=
  pos ← embed pop_m;
  cond ← embed pop_m;
  if negb (IsZero cond) then jump_to pos else simple (add_pc 1).

Definition opJumpdest : X bytes := mret [].
Definition opBeginSub : X bytes := embed (fail ErrInvalidSubroutineEntry).

Definition opJumpSub : X bytes :=
  rs ← embed (gets rstack);
  if decide (zlen rs >= 1023) then embed (fail ErrReturnStackExceeded)
  else
    pos ← embed pop_m;
    if negb (IsUint64 pos) then embed (fail ErrInvalidJump)
    else
      let posU64 := Uint64 pos in
      ok ← check_jump (fun c => validJumpSubdest c posU64);
      if (ok : bool) then
        simple (modify (fun f => set_pc (set_rstack f (rstack f ++ [pc f mod 2 ^ 32])) (u64 (posU64 + 1))))
      else embed (fail ErrInvalidJump).

Definition opReturnSub : X bytes :=
  rs ← embed (gets rstack);
  if decide (zlen rs = 0) then embed (fail ErrInvalidRetsub)
  else
    simple (ret ← lift (fun f => go_index (rstack f) (zlen (rstack f) - 1));
            rest ← lift (fun f => go_to (rstack f) (zlen (rstack f) - 1));
            modify (fun f => set_pc (set_rstack f rest) (u64 (ret + 1)))).

Definition opPc : X bytes := simple (p ← gets pc; push_m p).
Definition opMsize : X bytes := simple (m ← gets mem; push_m (u64 (Len m))).
Definition opGas : X bytes := simple (c ← gets contract; push_m (Gas c)).

(** ** Creating contracts *)

(** [contract.UseGas(gas)], its result ignored. *)
Definition take_gas (gas : Z) : M unit := modify (fun f => set_contract f (UseGas (contract f) gas).2).
Definition return_gas (gas : Z) : M unit := modify (fun f => set_contract f (set_gas (contract f) (u64 (Gas (contract f) + gas)))).

(** The EVM and the shared cache after a call of another contract. *)
Definition resume (f : frame) (e : EVM) (cache : gmap Z bitvec) : frame :=
  with_evm (set_contract f (set_jumpdests (contract f) cache)) e.

Definition create_with (create : EVM -> ContractRef -> fuelled Empty_set create_result) : X (bytes * Z * Z * option vm_error) := fun f =>
  r ← create (evm_of f) (ContractCaller (contract f));
  let '(e, cache, out) := r in
  run (Ret (resume f e cache, inr out)).

(** The end of CREATE and CREATE2. *)
Definition finish_create (ok : bool) (res : bytes) (addr returnGas : Z) (suberr : option vm_error) : X bytes :=
  embed (_ ← push_m (if ok then address_word addr else 0);
        _ ← return_gas returnGas;
        mret (if decide (suberr = Some ErrExecutionReverted) then res else [])).

Definition opCreate : X bytes :=
  value ← embed pop_m;
  offset ← embed pop_m;
  size ← embed pop_m;
  input ← embed (getCopy offset size);
  r ← embed (gets rules);
  c ← embed (gets contract);
  let gas := if IsEIP150 r then Gas c - Gas c / 64 else Gas c in
  _ ← embed (take_gas gas);
  out ← create_with (fun e caller => evm_Create e caller input gas value);
  let '(res, addr, returnGas, suberr) := out in
  let ok :=
    if IsHomestead r && bool_decide (suberr = Some ErrCodeStoreOutOfGas) then false
    else if bool_decide (suberr <> None) && bool_decide (suberr <> Some ErrCodeStoreOutOfGas) then false
    else true in
  finish_create ok res addr returnGas suberr.

Definition opCreate2 : X bytes :=
  endowment ← embed pop_m;
  offset ← embed pop_m;
  size ← embed pop_m;
  salt ← embed pop_m;
  input ← embed (getCopy offset size);
  c ← embed (gets contract);
  let gas := Gas c - Gas c / 64 in
  _ ← embed (take_gas gas);
  out ← create_with (fun e caller => evm_Create2 e caller input gas endowment salt);
  let '(res, addr, returnGas, suberr) := out in
  finish_create (bool_decide (suberr = None)) res addr returnGas suberr.

(** ** Calling contracts *)

Definition call_with (call : EVM -> ContractRef -> fuelled Empty_set call_result) : X (slice * Z * option vm_error) := fun f =>
  r ← call (evm_of f) (ContractCaller (contract f));
  let '(e, cache, out) := r in
  run (Ret (resume f e cache, inr out)).

(** The end of the four call instructions.  The output may be the slice of the
    arguments, which is part of the memory; what is returned is its content after
    the output has been copied to the memory. *)
Definition finish_call (args : bytes) (inOffset inSize retOffset retSize : Z) (out : slice * Z * option vm_error) : X bytes :=
  let '(ret, returnGas, err) := out in
  embed (_ ← push_m (of_bool (bool_decide (err = None)));
        _ ← (if decide (err = None \/ err = Some ErrExecutionReverted)
             then set_memory (fun m => Memory_Set m (Uint64 retOffset) (Uint64 retSize) (content args ret))
             else mret tt);
        _ ← return_gas returnGas;
        match ret with
        | Fresh b => mret b
        | InputSlice => getPtr inOffset inSize
        end).

(** CALL and CALLCODE, which pass a value. *)
Definition value_call (call : EVM -> ContractRef -> Z -> bytes -> Z -> Z -> fuelled Empty_set call_result) : X bytes :=
  _ ← embed pop_m;
  gas ← embed (gets callGasTemp);
  addr ← embed pop_m;
  value ← embed pop_m;
  inOffset ← embed pop_m;
  inSize ← embed pop_m;
  retOffset ← embed pop_m;
  retSize ← embed pop_m;
  args ← embed (getPtr inOffset inSize);
  let gas := if IsZero value then gas else u64 (gas + CallStipend) in
  out ← call_with (fun e caller => call e caller (Bytes20 addr) args gas value);
  finish_call args inOffset inSize retOffset retSize out.

(** DELEGATECALL and STATICCALL. *)
Definition plain_call (call : EVM -> ContractRef -> Z -> bytes -> Z -> fuelled Empty_set call_result) : X bytes :=
  _ ← embed pop_m;
  gas ← embed (gets callGasTemp);
  addr ← embed pop_m;
  inOffset ← embed pop_m;
  inSize ← embed pop_m;
  retOffset ← embed pop_m;
  retSize ← embed pop_m;
  args ← embed (getPtr inOffset inSize);
  out ← call_with (fun e caller => call e caller (Bytes20 addr) args gas);
  finish_call args inOffset inSize retOffset retSize out.

Definition opCall : X bytes := value_call evm_Call.
Definition opCallCode : X bytes := value_call evm_CallCode.
Definition opDelegateCall : X bytes := plain_call evm_DelegateCall.
Definition opStaticCall : X bytes := plain_call evm_StaticCall.

Definition opReturn : X bytes := embed (offset ← pop_m; size ← pop_m; getPtr offset size).
Definition opRevert : X bytes := embed (offset ← pop_m; size ← pop_m; getPtr offset size).
Definition opStop : X bytes := mret [].

Definition opSuicide : X bytes :=
  simple (beneficiary ← pop_m;
          a ← self_address;
          balance ← query (fun s => GetBalance s a);
          _ ← update (fun s => AddBalance s (Bytes20 beneficiary) balance);
          update (fun s => (Suicide s a).2)).

(** The topics of a log, in the order they are popped. *)
Fixpoint pop_topics (n : nat) : M (list Z) :=
  match n with
  | O => mret []
  | S n => t ← pop_m; ts ← pop_topics n; mret (Bytes32 t :: ts)
  end.

Definition makeLog (size : nat) : X bytes :=
  simple (mStart ← pop_m; mSize ← pop_m;
          topics ← pop_topics size;
          d ← getCopy mStart mSize;
          a ← self_address;
          update (fun s => AddLog s (mk_Log a topics d (u64 (BlockNumber env)) 0 0 0 0))).

Definition opPush1 : X bytes :=
  simple (_ ← add_pc 1;
          p ← gets pc;
          c ← gets contract;
          if decide (p < zlen (Code c)) then b ← lift (fun _ => go_index (Code c) p); push_m (u64 b) else push_m 0).

Definition makePush (size pushByteSize : Z) : X bytes :=
  simple (p ← gets pc;
          c ← gets contract;
          let codeLen := zlen (Code c) in
          let startMin := if decide (i64 (u64 (p + 1)) < codeLen) then i64 (u64 (p + 1)) else codeLen in
          let endMin := if decide (startMin + pushByteSize < codeLen) then startMin + pushByteSize else codeLen in
          d ← lift (fun _ => go_slice (Code c) startMin endMin);
          _ ← push_m (SetBytes (RightPadBytes d pushByteSize));
          add_pc size).

Definition makeDup (size : Z) : X bytes :=
  simple (fun f => st ← dup (stack f) size; Ret (set_stack f st, inr tt)).

Definition makeSwap (size : Z) : X bytes :=
  simple (fun f => st ← swap (stack f) (size + 1); Ret (set_stack f st, inr tt)).

(** ** eips.go *)

Definition opSelfBalance : X bytes :=
  simple (a ← self_address; b ← query (fun s => GetBalance s a); push_m (FromBig b).1).

Definition opChainID : X bytes := simple (push_m (FromBig (ChainID env)).1).

End Instructions.
