(* ===== verification/VmJumpTable.v ===== *)
(** * Instruction tables (core/vm/jump_table.go, eips.go, stack_table.go, opcodes.go)

    The tables of operations of the eight rule sets, built from each other the way
    the code builds them.  A table is an association list from opcodes; an opcode
    without an entry is invalid. *)

From stdpp Require Import gmap.
From S2P Require Import Prelude Rlp Trie AccessList StateDB Uint256 VmAnalysis VmContract VmMemory VmGas VmPrecompiles VmInstructions.

(** ** opcodes.go *)

Notation STOP := 0 (only parsing).
Notation ADD := 1 (only parsing).
Notation MUL := 2 (only parsing).
Notation SUB := 3 (only parsing).
Notation DIV := 4 (only parsing).
Notation SDIV := 5 (only parsing).
Notation MOD := 6 (only parsing).
Notation SMOD := 7 (only parsing).
Notation ADDMOD := 8 (only parsing).
Notation MULMOD := 9 (only parsing).
Notation EXP := 10 (only parsing).
Notation SIGNEXTEND := 11 (only parsing).
Notation LT := 16 (only parsing).
Notation GT := 17 (only parsing).
Notation SLT := 18 (only parsing).
Notation SGT := 19 (only parsing).
Notation EQ := 20 (only parsing).
Notation ISZERO := 21 (only parsing).
Notation AND := 22 (only parsing).
Notation OR := 23 (only parsing).
Notation XOR := 24 (only parsing).
Notation NOT := 25 (only parsing).
Notation BYTE := 26 (only parsing).
Notation SHL := 27 (only parsing).
Notation SHR := 28 (only parsing).
Notation SAR := 29 (only parsing).
Notation SHA3 := 32 (only parsing).
Notation ADDRESS := 48 (only parsing).
Notation BALANCE := 49 (only parsing).
Notation ORIGIN := 50 (only parsing).
Notation CALLER := 51 (only parsing).
Notation CALLVALUE := 52 (only parsing).
Notation CALLDATALOAD := 53 (only parsing).
Notation CALLDATASIZE := 54 (only parsing).
Notation CALLDATACOPY := 55 (only parsing).
Notation CODESIZE := 56 (only parsing).
Notation CODECOPY := 57 (only parsing).
Notation GASPRICE := 58 (only parsing).
Notation EXTCODESIZE := 59 (only parsing).
Notation EXTCODECOPY := 60 (only parsing).
Notation RETURNDATASIZE := 61 (only parsing).
Notation RETURNDATACOPY := 62 (only parsing).
Notation EXTCODEHASH := 63 (only parsing).
Notation BLOCKHASH := 64 (only parsing).
Notation COINBASE := 65 (only parsing).
Notation TIMESTAMP := 66 (only parsing).
Notation NUMBER := 67 (only parsing).
Notation DIFFICULTY := 68 (only parsing).
Notation GASLIMIT := 69 (only parsing).
Notation CHAINID := 70 (only parsing).
Notation SELFBALANCE := 71 (only parsing).
Notation POP := 80 (only parsing).
Notation MLOAD := 81 (only parsing).
Notation MSTORE := 82 (only parsing).
Notation MSTORE8 := 83 (only parsing).
Notation SLOAD := 84 (only parsing).
Notation SSTORE := 85 (only parsing).
Notation JUMP := 86 (only parsing).
Notation JUMPI := 87 (only parsing).
Notation PC := 88 (only parsing).
Notation MSIZE := 89 (only parsing).
Notation GAS := 90 (only parsing).
Notation RETURNSUB := 93 (only parsing).
Notation JUMPSUB := 94 (only parsing).
Notation PUSH2 := 97 (only parsing).
Notation PUSH3 := 98 (only parsing).
Notation PUSH4 := 99 (only parsing).
Notation PUSH5 := 100 (only parsing).
Notation PUSH6 := 101 (only parsing).
Notation PUSH7 := 102 (only parsing).
Notation PUSH8 := 103 (only parsing).
Notation PUSH9 := 104 (only parsing).
Notation PUSH10 := 105 (only parsing).
Notation PUSH11 := 106 (only parsing).
Notation PUSH12 := 107 (only parsing).
Notation PUSH13 := 108 (only parsing).
Notation PUSH14 := 109 (only parsing).
Notation PUSH15 := 110 (only parsing).
Notation PUSH16 := 111 (only parsing).
Notation PUSH17 := 112 (only parsing).
Notation PUSH18 := 113 (only parsing).
Notation PUSH19 := 114 (only parsing).
Notation PUSH20 := 115 (only parsing).
Notation PUSH21 := 116 (only parsing).
Notation PUSH22 := 117 (only parsing).
Notation PUSH23 := 118 (only parsing).
Notation PUSH24 := 119 (only parsing).
Notation PUSH25 := 120 (only parsing).
Notation PUSH26 := 121 (only parsing).
Notation PUSH27 := 122 (only parsing).
Notation PUSH28 := 123 (only parsing).
Notation PUSH29 := 124 (only parsing).
Notation PUSH30 := 125 (only parsing).
Notation PUSH31 := 126 (only parsing).
Notation DUP1 := 128 (only parsing).
Notation DUP2 := 129 (only parsing).
Notation DUP3 := 130 (only parsing).
Notation DUP4 := 131 (only parsing).
Notation DUP5 := 132 (only parsing).
Notation DUP6 := 133 (only parsing).
Notation DUP7 := 134 (only parsing).
Notation DUP8 := 135 (only parsing).
Notation DUP9 := 136 (only parsing).
Notation DUP10 := 137 (only parsing).
Notation DUP11 := 138 (only parsing).
Notation DUP12 := 139 (only parsing).
Notation DUP13 := 140 (only parsing).
Notation DUP14 := 141 (only parsing).
Notation DUP15 := 142 (only parsing).
Notation DUP16 := 143 (only parsing).
Notation SWAP1 := 144 (only parsing).
Notation SWAP2 := 145 (only parsing).
Notation SWAP3 := 146 (only parsing).
Notation SWAP4 := 147 (only parsing).
Notation SWAP5 := 148 (only parsing).
Notation SWAP6 := 149 (only parsing).
Notation SWAP7 := 150 (only parsing).
Notation SWAP8 := 151 (only parsing).
Notation SWAP9 := 152 (only parsing).
Notation SWAP10 := 153 (only parsing).
Notation SWAP11 := 154 (only parsing).
Notation SWAP12 := 155 (only parsing).
Notation SWAP13 := 156 (only parsing).
Notation SWAP14 := 157 (only parsing).
Notation SWAP15 := 158 (only parsing).
Notation SWAP16 := 159 (only parsing).
Notation LOG0 := 160 (only parsing).
Notation LOG1 := 161 (only parsing).
Notation LOG2 := 162 (only parsing).
Notation LOG3 := 163 (only parsing).
Notation LOG4 := 164 (only parsing).
Notation CREATE := 240 (only parsing).
Notation CALL := 241 (only parsing).
Notation CALLCODE := 242 (only parsing).
Notation RETURN := 243 (only parsing).
Notation DELEGATECALL := 244 (only parsing).
Notation CREATE2 := 245 (only parsing).
Notation STATICCALL := 250 (only parsing).
Notation REVERT := 253 (only parsing).
Notation SELFDESTRUCT := 255 (only parsing).

(** ** Gas: gas.go and params/protocol_params.go *)

Notation GasQuickStep := 2 (only parsing).
Notation GasFastestStep := 3 (only parsing).
Notation GasFastStep := 5 (only parsing).
Notation GasMidStep := 8 (only parsing).
Notation GasSlowStep := 10 (only parsing).
Notation GasExtStep := 20 (only parsing).
Notation Sha3Gas := 30 (only parsing).
Notation JumpdestGas := 1 (only parsing).
Notation CreateGas := 32000 (only parsing).
Notation Create2Gas := 32000 (only parsing).
Notation CallGasFrontier := 40 (only parsing).
Notation CallGasEIP150 := 700 (only parsing).
Notation BalanceGasFrontier := 20 (only parsing).
Notation BalanceGasEIP150 := 400 (only parsing).
Notation BalanceGasEIP1884 := 700 (only parsing).
Notation ExtcodeSizeGasFrontier := 20 (only parsing).
Notation ExtcodeSizeGasEIP150 := 700 (only parsing).
Notation SloadGasFrontier := 50 (only parsing).
Notation SloadGasEIP150 := 200 (only parsing).
Notation SloadGasEIP1884 := 800 (only parsing).
Notation ExtcodeHashGasConstantinople := 400 (only parsing).
Notation ExtcodeHashGasEIP1884 := 700 (only parsing).
Notation ExtcodeCopyBaseFrontier := 20 (only parsing).
Notation ExtcodeCopyBaseEIP150 := 700 (only parsing).
Notation StackLimit := 1024 (only parsing).

(** ** stack_table.go *)

Definition maxStack (pop push : Z) : Z := StackLimit + pop - push.
Definition minStack (pops push : Z) : Z := pops.
Definition minSwapStack (n : Z) : Z := minStack n n.
Definition maxSwapStack (n : Z) : Z := maxStack n n.
Definition minDupStack (n : Z) : Z := minStack n (n + 1).
Definition maxDupStack (n : Z) : Z := maxStack n (n + 1).

(** ** Operations *)

(** The boolean fields of an operation that are set. *)
Inductive flag := Halts | Jumps | Writes | Reverts | Returns.

#[global] Instance flag_eq_dec : EqDecision flag.
Proof. solve_decision. Defined.

Section Table.
Context {B : Backend} {U : Uint256} {C : Crypto} {E : Evm} (env : Env).

Record operation := entry {
  execute : X bytes;
  constantGas : Z;
  dynamicGas : option (Z -> M Z);
  op_minStack : Z;
  op_maxStack : Z;
  memorySize : option (Stack -> outcome Empty_set (Z * bool));
  flags : list flag
}.

Definition has (x : flag) (o : operation) : bool := existsb (fun y => bool_decide (x = y)) (flags o).

Definition JumpTable : Type := list (Z * operation).

Fixpoint lookup_op (t : JumpTable) (op : Z) : option operation :=
  match t with
  | [] => None
  | (k, o) :: t => if Z.eqb k op then Some o else lookup_op t op
  end.

(** [instructionSet[op] = o] *)
Fixpoint set_op (t : JumpTable) (op : Z) (o : operation) : JumpTable :=
  match t with
  | [] => [(op, o)]
  | (k, o') :: t => if Z.eqb k op then (k, o) :: t else (k, o') :: set_op t op o
  end.

(** [instructionSet[op].constantGas = gas] and [instructionSet[op].dynamicGas = f],
    of an operation that the table has. *)
Fixpoint alter_op (g : operation -> operation) (op : Z) (t : JumpTable) : JumpTable :=
  match t with
  | [] => []
  | (k, o) :: t => if Z.eqb k op then (k, g o) :: t else (k, o) :: alter_op g op t
  end.

Definition set_constantGas (t : JumpTable) (op gas : Z) : JumpTable :=
  alter_op (fun o => entry (execute o) gas (dynamicGas o) (op_minStack o) (op_maxStack o) (memorySize o) (flags o)) op t.

Definition set_dynamicGas (t : JumpTable) (op : Z) (f : Z -> M Z) : JumpTable :=
  alter_op (fun o => entry (execute o) (constantGas o) (Some f) (op_minStack o) (op_maxStack o) (memorySize o) (flags o)) op t.

(** ** The frontier instructions, in the order of the code *)

Definition frontier_arithmetic : JumpTable := [
  (STOP, entry opStop 0 None (minStack 0 0) (maxStack 0 0) None [Halts]);
  (ADD, entry opAdd GasFastestStep None (minStack 2 1) (maxStack 2 1) None []);
  (MUL, entry opMul GasFastStep None (minStack 2 1) (maxStack 2 1) None []);
  (SUB, entry opSub GasFastestStep None (minStack 2 1) (maxStack 2 1) None []);
  (DIV, entry opDiv GasFastStep None (minStack 2 1) (maxStack 2 1) None []);
  (SDIV, entry opSdiv GasFastStep None (minStack 2 1) (maxStack 2 1) None []);
  (MOD, entry opMod GasFastStep None (minStack 2 1) (maxStack 2 1) None []);
  (SMOD, entry opSmod GasFastStep None (minStack 2 1) (maxStack 2 1) None []);
  (ADDMOD, entry opAddmod GasMidStep None (minStack 3 1) (maxStack 3 1) None []);
  (MULMOD, entry opMulmod GasMidStep None (minStack 3 1) (maxStack 3 1) None []);
  (EXP, entry opExp 0 (Some gasExpFrontier) (minStack 2 1) (maxStack 2 1) None []);
  (SIGNEXTEND, entry opSignExtend GasFastStep None (minStack 2 1) (maxStack 2 1) None [])
].

Definition frontier_logic : JumpTable := [
  (LT, entry opLt GasFastestStep None (minStack 2 1) (maxStack 2 1) None []);
  (GT, entry opGt GasFastestStep None (minStack 2 1) (maxStack 2 1) None []);
  (SLT, entry opSlt GasFastestStep None (minStack 2 1) (maxStack 2 1) None []);
  (SGT, entry opSgt GasFastestStep None (minStack 2 1) (maxStack 2 1) None []);
  (EQ, entry opEq GasFastestStep None (minStack 2 1) (maxStack 2 1) None []);
  (ISZERO, entry opIszero GasFastestStep None (minStack 1 1) (maxStack 1 1) None []);
  (AND, entry opAnd GasFastestStep None (minStack 2 1) (maxStack 2 1) None []);
  (XOR, entry opXor GasFastestStep None (minStack 2 1) (maxStack 2 1) None []);
  (OR, entry opOr GasFastestStep None (minStack 2 1) (maxStack 2 1) None []);
  (NOT, entry opNot GasFastestStep None (minStack 1 1) (maxStack 1 1) None []);
  (BYTE, entry opByte GasFastestStep None (minStack 2 1) (maxStack 2 1) None []);
  (SHA3, entry (opSha3 env) Sha3Gas (Some gasSha3) (minStack 2 1) (maxStack 2 1) (Some memorySha3) [])
].

Definition frontier_environment : JumpTable := [
  (ADDRESS, entry opAddress GasQuickStep None (minStack 0 1) (maxStack 0 1) None []);
  (BALANCE, entry opBalance BalanceGasFrontier None (minStack 1 1) (maxStack 1 1) None []);
  (ORIGIN, entry (opOrigin env) GasQuickStep None (minStack 0 1) (maxStack 0 1) None []);
  (CALLER, entry opCaller GasQuickStep None (minStack 0 1) (maxStack 0 1) None []);
  (CALLVALUE, entry opCallValue GasQuickStep None (minStack 0 1) (maxStack 0 1) None []);
  (CALLDATALOAD, entry opCallDataLoad GasFastestStep None (minStack 1 1) (maxStack 1 1) None []);
  (CALLDATASIZE, entry opCallDataSize GasQuickStep None (minStack 0 1) (maxStack 0 1) None []);
  (CALLDATACOPY, entry opCallDataCopy GasFastestStep (Some gasCallDataCopy) (minStack 3 0) (maxStack 3 0) (Some memoryCallDataCopy) []);
  (CODESIZE, entry opCodeSize GasQuickStep None (minStack 0 1) (maxStack 0 1) None []);
  (CODECOPY, entry opCodeCopy GasFastestStep (Some gasCodeCopy) (minStack 3 0) (maxStack 3 0) (Some memoryCodeCopy) []);
  (GASPRICE, entry (opGasprice env) GasQuickStep None (minStack 0 1) (maxStack 0 1) None []);
  (EXTCODESIZE, entry opExtCodeSize ExtcodeSizeGasFrontier None (minStack 1 1) (maxStack 1 1) None []);
  (EXTCODECOPY, entry opExtCodeCopy ExtcodeCopyBaseFrontier (Some gasExtCodeCopy) (minStack 4 0) (maxStack 4 0) (Some memoryExtCodeCopy) [])
].

Definition frontier_block : JumpTable := [
  (BLOCKHASH, entry (opBlockhash env) GasExtStep None (minStack 1 1) (maxStack 1 1) None []);
  (COINBASE, entry (opCoinbase env) GasQuickStep None (minStack 0 1) (maxStack 0 1) None []);
  (TIMESTAMP, entry (opTimestamp env) GasQuickStep None (minStack 0 1) (maxStack 0 1) None []);
  (NUMBER, entry (opNumber env) GasQuickStep None (minStack 0 1) (maxStack 0 1) None []);
  (DIFFICULTY, entry (opDifficulty env) GasQuickStep None (minStack 0 1) (maxStack 0 1) None []);
  (GASLIMIT, entry (opGasLimit env) GasQuickStep None (minStack 0 1) (maxStack 0 1) None [])
].

Definition frontier_memory : JumpTable := [
  (POP, entry opPop GasQuickStep None (minStack 1 0) (maxStack 1 0) None []);
  (MLOAD, entry opMload GasFastestStep (Some gasMLoad) (minStack 1 1) (maxStack 1 1) (Some memoryMLoad) []);
  (MSTORE, entry opMstore GasFastestStep (Some gasMStore) (minStack 2 0) (maxStack 2 0) (Some memoryMStore) []);
  (MSTORE8, entry opMstore8 GasFastestStep (Some gasMStore8) (minStack 2 0) (maxStack 2 0) (Some memoryMStore8) []);
  (SLOAD, entry opSload SloadGasFrontier None (minStack 1 1) (maxStack 1 1) None []);
  (SSTORE, entry opSstore 0 (Some gasSStore) (minStack 2 0) (maxStack 2 0) None [Writes]);
  (JUMP, entry opJump GasMidStep None (minStack 1 0) (maxStack 1 0) None [Jumps]);
  (JUMPI, entry opJumpi GasSlowStep None (minStack 2 0) (maxStack 2 0) None [Jumps]);
  (PC, entry opPc GasQuickStep None (minStack 0 1) (maxStack 0 1) None []);
  (MSIZE, entry opMsize GasQuickStep None (minStack 0 1) (maxStack 0 1) None []);
  (GAS, entry opGas GasQuickStep None (minStack 0 1) (maxStack 0 1) None []);
  (JUMPDEST, entry opJumpdest JumpdestGas None (minStack 0 0) (maxStack 0 0) None [])
].

Definition frontier_push_low : JumpTable := [
  (PUSH1, entry opPush1 GasFastestStep None (minStack 0 1) (maxStack 0 1) None []);
  (PUSH2, entry (makePush 2 2) GasFastestStep None (minStack 0 1) (maxStack 0 1) None []);
  (PUSH3, entry (makePush 3 3) GasFastestStep None (minStack 0 1) (maxStack 0 1) None []);
  (PUSH4, entry (makePush 4 4) GasFastestStep None (minStack 0 1) (maxStack 0 1) None []);
  (PUSH5, entry (makePush 5 5) GasFastestStep None (minStack 0 1) (maxStack 0 1) None []);
  (PUSH6, entry (makePush 6 6) GasFastestStep None (minStack 0 1) (maxStack 0 1) None []);
  (PUSH7, entry (makePush 7 7) GasFastestStep None (minStack 0 1) (maxStack 0 1) None []);
  (PUSH8, entry (makePush 8 8) GasFastestStep None (minStack 0 1) (maxStack 0 1) None []);
  (PUSH9, entry (makePush 9 9) GasFastestStep None (minStack 0 1) (maxStack 0 1) None []);
  (PUSH10, entry (makePush 10 10) GasFastestStep None (minStack 0 1) (maxStack 0 1) None []);
  (PUSH11, entry (makePush 11 11) GasFastestStep None (minStack 0 1) (maxStack 0 1) None []);
  (PUSH12, entry (makePush 12 12) GasFastestStep None (minStack 0 1) (maxStack 0 1) None []);
  (PUSH13, entry (makePush 13 13) GasFastestStep None (minStack 0 1) (maxStack 0 1) None []);
  (PUSH14, entry (makePush 14 14) GasFastestStep None (minStack 0 1) (maxStack 0 1) None []);
  (PUSH15, entry (makePush 15 15) GasFastestStep None (minStack 0 1) (maxStack 0 1) None []);
  (PUSH16, entry (makePush 16 16) GasFastestStep None (minStack 0 1) (maxStack 0 1) None [])
].

Definition frontier_push_high : JumpTable := [
  (PUSH17, entry (makePush 17 17) GasFastestStep None (minStack 0 1) (maxStack 0 1) None []);
  (PUSH18, entry (makePush 18 18) GasFastestStep None (minStack 0 1) (maxStack 0 1) None []);
  (PUSH19, entry (makePush 19 19) GasFastestStep None (minStack 0 1) (maxStack 0 1) None []);
  (PUSH20, entry (makePush 20 20) GasFastestStep None (minStack 0 1) (maxStack 0 1) None []);
  (PUSH21, entry (makePush 21 21) GasFastestStep None (minStack 0 1) (maxStack 0 1) None []);
  (PUSH22, entry (makePush 22 22) GasFastestStep None (minStack 0 1) (maxStack 0 1) None []);
  (PUSH23, entry (makePush 23 23) GasFastestStep None (minStack 0 1) (maxStack 0 1) None []);
  (PUSH24, entry (makePush 24 24) GasFastestStep None (minStack 0 1) (maxStack 0 1) None []);
  (PUSH25, entry (makePush 25 25) GasFastestStep None (minStack 0 1) (maxStack 0 1) None []);
  (PUSH26, entry (makePush 26 26) GasFastestStep None (minStack 0 1) (maxStack 0 1) None []);
  (PUSH27, entry (makePush 27 27) GasFastestStep None (minStack 0 1) (maxStack 0 1) None []);
  (PUSH28, entry (makePush 28 28) GasFastestStep None (minStack 0 1) (maxStack 0 1) None []);
  (PUSH29, entry (makePush 29 29) GasFastestStep None (minStack 0 1) (maxStack 0 1) None []);
  (PUSH30, entry (makePush 30 30) GasFastestStep None (minStack 0 1) (maxStack 0 1) None []);
  (PUSH31, entry (makePush 31 31) GasFastestStep None (minStack 0 1) (maxStack 0 1) None []);
  (PUSH32, entry (makePush 32 32) GasFastestStep None (minStack 0 1) (maxStack 0 1) None [])
].

Definition frontier_dup : JumpTable := [
  (DUP1, entry (makeDup 1) GasFastestStep None (minDupStack 1) (maxDupStack 1) None []);
  (DUP2, entry (makeDup 2) GasFastestStep None (minDupStack 2) (maxDupStack 2) None []);
  (DUP3, entry (makeDup 3) GasFastestStep None (minDupStack 3) (maxDupStack 3) None []);
  (DUP4, entry (makeDup 4) GasFastestStep None (minDupStack 4) (maxDupStack 4) None []);
  (DUP5, entry (makeDup 5) GasFastestStep None (minDupStack 5) (maxDupStack 5) None []);
  (DUP6, entry (makeDup 6) GasFastestStep None (minDupStack 6) (maxDupStack 6) None []);
  (DUP7, entry (makeDup 7) GasFastestStep None (minDupStack 7) (maxDupStack 7) None []);
  (DUP8, entry (makeDup 8) GasFastestStep None (minDupStack 8) (maxDupStack 8) None []);
  (DUP9, entry (makeDup 9) GasFastestStep None (minDupStack 9) (maxDupStack 9) None []);
  (DUP10, entry (makeDup 10) GasFastestStep None (minDupStack 10) (maxDupStack 10) None []);
  (DUP11, entry (makeDup 11) GasFastestStep None (minDupStack 11) (maxDupStack 11) None []);
  (DUP12, entry (makeDup 12) GasFastestStep None (minDupStack 12) (maxDupStack 12) None []);
  (DUP13, entry (makeDup 13) GasFastestStep None (minDupStack 13) (maxDupStack 13) None []);
  (DUP14, entry (makeDup 14) GasFastestStep None (minDupStack 14) (maxDupStack 14) None []);
  (DUP15, entry (makeDup 15) GasFastestStep None (minDupStack 15) (maxDupStack 15) None []);
  (DUP16, entry (makeDup 16) GasFastestStep None (minDupStack 16) (maxDupStack 16) None [])
].

Definition frontier_swap : JumpTable := [
  (SWAP1, entry (makeSwap 1) GasFastestStep None (minSwapStack 2) (maxSwapStack 2) None []);
  (SWAP2, entry (makeSwap 2) GasFastestStep None (minSwapStack 3) (maxSwapStack 3) None []);
  (SWAP3, entry (makeSwap 3) GasFastestStep None (minSwapStack 4) (maxSwapStack 4) None []);
  (SWAP4, entry (makeSwap 4) GasFastestStep None (minSwapStack 5) (maxSwapStack 5) None []);
  (SWAP5, entry (makeSwap 5) GasFastestStep None (minSwapStack 6) (maxSwapStack 6) None []);
  (SWAP6, entry (makeSwap 6) GasFastestStep None (minSwapStack 7) (maxSwapStack 7) None []);
  (SWAP7, entry (makeSwap 7) GasFastestStep None (minSwapStack 8) (maxSwapStack 8) None []);
  (SWAP8, entry (makeSwap 8) GasFastestStep None (minSwapStack 9) (maxSwapStack 9) None []);
  (SWAP9, entry (makeSwap 9) GasFastestStep None (minSwapStack 10) (maxSwapStack 10) None []);
  (SWAP10, entry (makeSwap 10) GasFastestStep None (minSwapStack 11) (maxSwapStack 11) None []);
  (SWAP11, entry (makeSwap 11) GasFastestStep None (minSwapStack 12) (maxSwapStack 12) None []);
  (SWAP12, entry (makeSwap 12) GasFastestStep None (minSwapStack 13) (maxSwapStack 13) None []);
  (SWAP13, entry (makeSwap 13) GasFastestStep None (minSwapStack 14) (maxSwapStack 14) None []);
  (SWAP14, entry (makeSwap 14) GasFastestStep None (minSwapStack 15) (maxSwapStack 15) None []);
  (SWAP15, entry (makeSwap 15) GasFastestStep None (minSwapStack 16) (maxSwapStack 16) None []);
  (SWAP16, entry (makeSwap 16) GasFastestStep None (minSwapStack 17) (maxSwapStack 17) None [])
].

Definition frontier_log : JumpTable := [
  (LOG0, entry (makeLog env 0%nat) 0 (Some (makeGasLog 0)) (minStack 2 0) (maxStack 2 0) (Some memoryLog) [Writes]);
  (LOG1, entry (makeLog env 1%nat) 0 (Some (makeGasLog 1)) (minStack 3 0) (maxStack 3 0) (Some memoryLog) [Writes]);
  (LOG2, entry (makeLog env 2%nat) 0 (Some (makeGasLog 2)) (minStack 4 0) (maxStack 4 0) (Some memoryLog) [Writes]);
  (LOG3, entry (makeLog env 3%nat) 0 (Some (makeGasLog 3)) (minStack 5 0) (maxStack 5 0) (Some memoryLog) [Writes]);
  (LOG4, entry (makeLog env 4%nat) 0 (Some (makeGasLog 4)) (minStack 6 0) (maxStack 6 0) (Some memoryLog) [Writes])
].

Definition frontier_system : JumpTable := [
  (CREATE, entry opCreate CreateGas (Some gasCreate) (minStack 3 1) (maxStack 3 1) (Some memoryCreate) [Writes; Returns]);
  (CALL, entry opCall CallGasFrontier (Some gasCall) (minStack 7 1) (maxStack 7 1) (Some memoryCall) [Returns]);
  (CALLCODE, entry opCallCode CallGasFrontier (Some gasCallCode) (minStack 7 1) (maxStack 7 1) (Some memoryCall) [Returns]);
  (RETURN, entry opReturn 0 (Some gasReturn) (minStack 2 0) (maxStack 2 0) (Some memoryReturn) [Halts]);
  (SELFDESTRUCT, entry opSuicide 0 (Some gasSelfdestruct) (minStack 1 0) (maxStack 1 0) None [Halts; Writes])
].

Definition newFrontierInstructionSet : JumpTable :=
  frontier_arithmetic ++ frontier_logic ++ frontier_environment ++ frontier_block ++ frontier_memory ++
  frontier_push_low ++ frontier_push_high ++ frontier_dup ++ frontier_swap ++ frontier_log ++ frontier_system.

Definition newHomesteadInstructionSet : JumpTable :=
  set_op newFrontierInstructionSet DELEGATECALL
    (entry opDelegateCall CallGasFrontier (Some gasDelegateCall) (minStack 6 1) (maxStack 6 1) (Some memoryDelegateCall) [Returns]).

Definition newTangerineWhistleInstructionSet : JumpTable :=
  let t := newHomesteadInstructionSet in
  let t := set_constantGas t BALANCE BalanceGasEIP150 in
  let t := set_constantGas t EXTCODESIZE ExtcodeSizeGasEIP150 in
  let t := set_constantGas t SLOAD SloadGasEIP150 in
  let t := set_constantGas t EXTCODECOPY ExtcodeCopyBaseEIP150 in
  let t := set_constantGas t CALL CallGasEIP150 in
  let t := set_constantGas t CALLCODE CallGasEIP150 in
  set_constantGas t DELEGATECALL CallGasEIP150.

Definition newSpuriousDragonInstructionSet : JumpTable :=
  set_dynamicGas newTangerineWhistleInstructionSet EXP gasExpEIP158.

Definition newByzantiumInstructionSet : JumpTable :=
  let t := newSpuriousDragonInstructionSet in
  let t := set_op t STATICCALL
    (entry opStaticCall CallGasEIP150 (Some gasStaticCall) (minStack 6 1) (maxStack 6 1) (Some memoryStaticCall) [Returns]) in
  let t := set_op t RETURNDATASIZE (entry opReturnDataSize GasQuickStep None (minStack 0 1) (maxStack 0 1) None []) in
  let t := set_op t RETURNDATACOPY
    (entry opReturnDataCopy GasFastestStep (Some gasReturnDataCopy) (minStack 3 0) (maxStack 3 0) (Some memoryReturnDataCopy) []) in
  set_op t REVERT
    (entry opRevert 0 (Some gasRevert) (minStack 2 0) (maxStack 2 0) (Some memoryRevert) [Reverts; Returns]).

Definition newConstantinopleInstructionSet : JumpTable :=
  let t := newByzantiumInstructionSet in
  let t := set_op t SHL (entry opSHL GasFastestStep None (minStack 2 1) (maxStack 2 1) None []) in
  let t := set_op t SHR (entry opSHR GasFastestStep None (minStack 2 1) (maxStack 2 1) None []) in
  let t := set_op t SAR (entry opSAR GasFastestStep None (minStack 2 1) (maxStack 2 1) None []) in
  let t := set_op t EXTCODEHASH (entry opExtCodeHash ExtcodeHashGasConstantinople None (minStack 1 1) (maxStack 1 1) None []) in
  set_op t CREATE2
    (entry opCreate2 Create2Gas (Some gasCreate2) (minStack 4 1) (maxStack 4 1) (Some memoryCreate2) [Writes; Returns]).

(** ** eips.go *)

Definition enable1884 (jt : JumpTable) : JumpTable :=
  let jt := set_constantGas jt SLOAD SloadGasEIP1884 in
  let jt := set_constantGas jt BALANCE BalanceGasEIP1884 in
  let jt := set_constantGas jt EXTCODEHASH ExtcodeHashGasEIP1884 in
  set_op jt SELFBALANCE (entry opSelfBalance GasFastStep None (minStack 0 1) (maxStack 0 1) None []).

Definition enable1344 (jt : JumpTable) : JumpTable :=
  set_op jt CHAINID (entry (opChainID env) GasQuickStep None (minStack 0 1) (maxStack 0 1) None []).

Definition enable2200 (jt : JumpTable) : JumpTable :=
  let jt := set_constantGas jt SLOAD SloadGasEIP2200 in
  set_dynamicGas jt SSTORE gasSStoreEIP2200.

Definition enable2315 (jt : JumpTable) : JumpTable :=
  let jt := set_op jt BEGINSUB (entry opBeginSub GasQuickStep None (minStack 0 0) (maxStack 0 0) None []) in
  let jt := set_op jt JUMPSUB (entry opJumpSub GasSlowStep None (minStack 1 0) (maxStack 1 0) None [Jumps]) in
  set_op jt RETURNSUB (entry opReturnSub GasFastStep None (minStack 0 0) (maxStack 0 0) None [Jumps]).

Definition enable2929 (jt : JumpTable) : JumpTable :=
  let jt := set_dynamicGas jt SSTORE gasSStoreEIP2929 in
  let jt := set_constantGas jt SLOAD 0 in
  let jt := set_dynamicGas jt SLOAD gasSLoadEIP2929 in
  let jt := set_constantGas jt EXTCODECOPY WarmStorageReadCostEIP2929 in
  let jt := set_dynamicGas jt EXTCODECOPY gasExtCodeCopyEIP2929 in
  let jt := set_constantGas jt EXTCODESIZE WarmStorageReadCostEIP2929 in
  let jt := set_dynamicGas jt EXTCODESIZE gasEip2929AccountCheck in
  let jt := set_constantGas jt EXTCODEHASH WarmStorageReadCostEIP2929 in
  let jt := set_dynamicGas jt EXTCODEHASH gasEip2929AccountCheck in
  let jt := set_constantGas jt BALANCE WarmStorageReadCostEIP2929 in
  let jt := set_dynamicGas jt BALANCE gasEip2929AccountCheck in
  let jt := set_constantGas jt CALL WarmStorageReadCostEIP2929 in
  let jt := set_dynamicGas jt CALL gasCallEIP2929 in
  let jt := set_constantGas jt CALLCODE WarmStorageReadCostEIP2929 in
  let jt := set_dynamicGas jt CALLCODE gasCallCodeEIP2929 in
  let jt := set_constantGas jt STATICCALL WarmStorageReadCostEIP2929 in
  let jt := set_dynamicGas jt STATICCALL gasStaticCallEIP2929 in
  let jt := set_constantGas jt DELEGATECALL WarmStorageReadCostEIP2929 in
  let jt := set_dynamicGas jt DELEGATECALL gasDelegateCallEIP2929 in
  let jt := set_constantGas jt SELFDESTRUCT SelfdestructGasEIP150 in
  set_dynamicGas jt SELFDESTRUCT gasSelfdestructEIP2929.

Definition newIstanbulInstructionSet : JumpTable := enable2200 (enable1884 (enable1344 newConstantinopleInstructionSet)).

Definition newYoloV3InstructionSet : JumpTable := enable2929 (enable2315 newIstanbulInstructionSet).

(** ** interpreter.go: NewEVMInterpreter *)

(** The table of the rules, when the configuration brings neither a table nor
    extra EIPs. *)
Definition instruction_set (r : Rules) : JumpTable :=
  if IsYoloV3 r then newYoloV3InstructionSet
  else if IsIstanbul r then newIstanbulInstructionSet
  else if IsConstantinople r then newConstantinopleInstructionSet
  else if IsByzantium r then newByzantiumInstructionSet
  else if IsEIP158 r then newSpuriousDragonInstructionSet
  else if IsEIP150 r then newTangerineWhistleInstructionSet
  else if IsHomestead r then newHomesteadInstructionSet
  else newFrontierInstructionSet.

End Table.
