(* ===== verification/VmInterpreter.v ===== *)
(** * The interpreter and the EVM (core/vm/interpreter.go, evm.go)

    [loop] is the run loop, on fuel; [Run] enters and leaves it; the entry points
    of evm.go run contracts through it, and the instructions call the entry points
    again with the fuel that is left. *)

From stdpp Require Import gmap.
From S2P Require Import Prelude Rlp RlpEncode Trie AccessList StateDB Uint256 VmAnalysis VmContract VmMemory VmGas VmPrecompiles.
From S2P Require Import VmInstructions VmJumpTable.

Definition CallCreateDepth : Z := 1024.
Definition CreateDataGas : Z := 200.
Definition MaxCodeSize : Z := 24576.

Section Evm.
Context {B : Backend} {U : Uint256} {C : Crypto} (env : Env).

(** ** evm.go *)

Definition ActivePrecompiles (addresses : PrecompiledAddresses) (r : Rules) : list Z :=
  if IsYoloV3 r then PrecompiledAddressesYoloV3 addresses
  else if IsIstanbul r then PrecompiledAddressesIstanbul addresses
  else if IsByzantium r then PrecompiledAddressesByzantium addresses
  else PrecompiledAddressesHomestead addresses.

Definition precompiles (r : Rules) : list (Z * PrecompiledContract) :=
  if IsYoloV3 r then PrecompiledContractsYoloV3
  else if IsIstanbul r then PrecompiledContractsIstanbul
  else if IsByzantium r then PrecompiledContractsByzantium
  else PrecompiledContractsHomestead.

Fixpoint find_precompile (addr : Z) (l : list (Z * PrecompiledContract)) : option PrecompiledContract :=
  match l with
  | [] => None
  | (a, p) :: l => if Z.eqb a addr then Some p else find_precompile addr l
  end.

Definition precompile (r : Rules) (addr : Z) : option PrecompiledContract := find_precompile addr (precompiles r).

Definition caller_address (r : ContractRef) : Z := match r with AccountRef a => a | ContractCaller c => self c end.
Definition caller_cache (r : ContractRef) : option (gmap Z bitvec) :=
  match r with AccountRef _ => None | ContractCaller c => Some (jumpdests c) end.

(** contract.go: a caller that is not a contract makes the type assertion panic. *)
Definition AsDelegate (caller : ContractRef) (c : Contract) : outcome Empty_set Contract :=
  match caller with
  | AccountRef _ => Panic
  | ContractCaller parent =>
      Ret (mk_Contract (CallerAddress parent) (self c) (jumpdests c) (analysis c) (Code c) (CodeHash c) (CodeAddr c)
             (Input c) (Gas c) (value parent))
  end.

(** contract.go: [hash] is 0 when it has not been computed. *)
Definition SetCodeOptionalHash (c : Contract) (addr hash : Z) (code : bytes) : Contract := SetCallCode c addr hash code.

Definition set_evm_db (e : EVM) (s : StateDB) : EVM :=
  mk_EVM (chainRules e) s (evm_callGasTemp e) (evm_depth e) (evm_readOnly e) (evm_returnData e).

(** What the interpreter promises: the EVM and the contract afterwards, the
    output and the error. *)
Definition run_result : Type := EVM * Contract * (bytes * option vm_error).

Section Calls.
Context (interpret : EVM -> Contract -> bytes -> bool -> fuelled Empty_set run_result).

(** The end of a call: an error reverts the state and takes the gas, unless the
    contract reverted. *)
Definition finish (snapshot : Z) (e : EVM) (cache : gmap Z bitvec) (ret : slice) (gas : Z) (err : option vm_error)
    : fuelled Empty_set call_result :=
  match err with
  | None => run (Ret (e, cache, (ret, gas, None)))
  | Some er =>
      s ← run (RevertToSnapshot (evm_db e) snapshot);
      let gas := if decide (er <> ErrExecutionReverted) then 0 else gas in
      run (Ret (set_evm_db e s, cache, (ret, gas, Some er)))
  end.

(** A precompiled contract, or the code of a contract. *)
Definition run_contract (snapshot : Z) (e : EVM) (c : Contract) (input : bytes) (readOnly : bool) : fuelled Empty_set call_result :=
  r ← interpret e c input readOnly;
  let '(e, c, (ret, err)) := r in
  finish snapshot e (jumpdests c) (Fresh ret) (Gas c) err.

Definition run_precompiled (snapshot : Z) (e : EVM) (cache : gmap Z bitvec) (p : PrecompiledContract) (input : bytes) (gas : Z)
    : fuelled Empty_set call_result :=
  r ← run (RunPrecompiledContract p input gas);
  let '(ret, gas, err) := r in
  finish snapshot e cache ret gas err.

(** [evm.vmConfig.NoRecursion && evm.depth > 0] *)
Definition no_recursion (e : EVM) : bool := NoRecursion env && bool_decide (evm_depth e > 0).

Definition Call (e : EVM) (caller : ContractRef) (addr : Z) (input : bytes) (gas value : Z) : fuelled Empty_set call_result :=
  let cache := default ∅ (caller_cache caller) in
  if no_recursion e then run (Ret (e, cache, (Fresh [], gas, None)))
  else if decide (evm_depth e > CallCreateDepth) then run (Ret (e, cache, (Fresh [], gas, Some ErrDepth)))
  else
    let '(can, s) := if decide (value <> 0) then CanTransfer (evm_db e) (caller_address caller) value else (true, evm_db e) in
    if negb can then run (Ret (set_evm_db e s, cache, (Fresh [], gas, Some ErrInsufficientBalance)))
    else
      let '(snapshot, s) := Snapshot s in
      let p := precompile (chainRules e) addr in
      let '(exists_, s) := Exist s addr in
      if negb exists_ && bool_decide (p = None) && IsEIP158 (chainRules e) && bool_decide (value = 0) then
        run (Ret (set_evm_db e s, cache, (Fresh [], gas, None)))
      else
        let s := if exists_ then s else CreateAccount s addr in
        let s := Transfer s (caller_address caller) addr value in
        match p with
        | Some p => run_precompiled snapshot (set_evm_db e s) cache p input gas
        | None =>
            let '(code, s) := GetCode s addr in
            if decide (zlen (default [] code) = 0) then finish snapshot (set_evm_db e s) cache (Fresh []) gas None
            else
              let '(hash, s) := GetCodeHash s addr in
              let c := NewContract (caller_address caller) addr (caller_cache caller) value gas in
              run_contract snapshot (set_evm_db e s) (SetCallCode c addr hash (default [] code)) input false
        end.

Definition CallCode (e : EVM) (caller : ContractRef) (addr : Z) (input : bytes) (gas value : Z) : fuelled Empty_set call_result :=
  let cache := default ∅ (caller_cache caller) in
  if no_recursion e then run (Ret (e, cache, (Fresh [], gas, None)))
  else if decide (evm_depth e > CallCreateDepth) then run (Ret (e, cache, (Fresh [], gas, Some ErrDepth)))
  else
    let '(can, s) := CanTransfer (evm_db e) (caller_address caller) value in
    if negb can then run (Ret (set_evm_db e s, cache, (Fresh [], gas, Some ErrInsufficientBalance)))
    else
      let '(snapshot, s) := Snapshot s in
      match precompile (chainRules e) addr with
      | Some p => run_precompiled snapshot (set_evm_db e s) cache p input gas
      | None =>
          let c := NewContract (caller_address caller) (caller_address caller) (caller_cache caller) value gas in
          let '(hash, s) := GetCodeHash s addr in
          let '(code, s) := GetCode s addr in
          run_contract snapshot (set_evm_db e s) (SetCallCode c addr hash (default [] code)) input false
      end.

Definition DelegateCall (e : EVM) (caller : ContractRef) (addr : Z) (input : bytes) (gas : Z) : fuelled Empty_set call_result :=
  let cache := default ∅ (caller_cache caller) in
  if no_recursion e then run (Ret (e, cache, (Fresh [], gas, None)))
  else if decide (evm_depth e > CallCreateDepth) then run (Ret (e, cache, (Fresh [], gas, Some ErrDepth)))
  else
    let '(snapshot, s) := Snapshot (evm_db e) in
    match precompile (chainRules e) addr with
    | Some p => run_precompiled snapshot (set_evm_db e s) cache p input gas
    | None =>
        c ← run (AsDelegate caller (NewContract (caller_address caller) (caller_address caller) (caller_cache caller) 0 gas));
        let '(hash, s) := GetCodeHash s addr in
        let '(code, s) := GetCode s addr in
        run_contract snapshot (set_evm_db e s) (SetCallCode c addr hash (default [] code)) input false
    end.

Definition StaticCall (e : EVM) (caller : ContractRef) (addr : Z) (input : bytes) (gas : Z) : fuelled Empty_set call_result :=
  let cache := default ∅ (caller_cache caller) in
  if no_recursion e then run (Ret (e, cache, (Fresh [], gas, None)))
  else if decide (evm_depth e > CallCreateDepth) then run (Ret (e, cache, (Fresh [], gas, Some ErrDepth)))
  else
    let '(snapshot, s) := Snapshot (evm_db e) in
    let s := AddBalance s addr 0 in
    match precompile (chainRules e) addr with
    | Some p => run_precompiled snapshot (set_evm_db e s) cache p input gas
    | None =>
        let c := NewContract (caller_address caller) addr (caller_cache caller) 0 gas in
        let '(hash, s) := GetCodeHash s addr in
        let '(code, s) := GetCode s addr in
        run_contract snapshot (set_evm_db e s) (SetCallCode c addr hash (default [] code)) input true
    end.

(** The end of [create]: the code is stored, or the state is reverted. *)
Definition finish_deployment (snapshot : Z) (e : EVM) (c : Contract) (address : Z) (ret : bytes) (err : option vm_error)
    : fuelled Empty_set create_result :=
  let maxCodeSizeExceeded := IsEIP158 (chainRules e) && bool_decide (zlen ret > MaxCodeSize) in
  let '(s, c, err) :=
    if bool_decide (err = None) && negb maxCodeSizeExceeded then
      match UseGas c (u64 (zlen ret * CreateDataGas)) with
      | (true, c) => (SetCode (evm_db e) address ret, c, None)
      | (false, c) => (evm_db e, c, Some ErrCodeStoreOutOfGas)
      end
    else (evm_db e, c, err) in
  let undo :=
    maxCodeSizeExceeded ||
    (bool_decide (err <> None) && (IsHomestead (chainRules e) || bool_decide (err <> Some ErrCodeStoreOutOfGas))) in
  s ← (if undo then run (RevertToSnapshot s snapshot) else run (Ret s));
  let c := if undo && bool_decide (err <> Some ErrExecutionReverted) then (UseGas c (Gas c)).2 else c in
  let err := if maxCodeSizeExceeded && bool_decide (err = None) then Some ErrMaxCodeSizeExceeded else err in
  run (Ret (set_evm_db e s, jumpdests c, (ret, address, Gas c, err))).

Definition create (e : EVM) (caller : ContractRef) (code : bytes) (hash gas value address : Z) : fuelled Empty_set create_result :=
  let cache := default ∅ (caller_cache caller) in
  let from := caller_address caller in
  if decide (evm_depth e > CallCreateDepth) then run (Ret (e, cache, ([], 0, gas, Some ErrDepth)))
  else
    let '(can, s) := CanTransfer (evm_db e) from value in
    if negb can then run (Ret (set_evm_db e s, cache, ([], 0, gas, Some ErrInsufficientBalance)))
    else
      let '(nonce, s) := GetNonce s from in
      let s := SetNonce s from (u64 (nonce + 1)) in
      let s := if IsYoloV3 (chainRules e) then AddAddressToAccessList s address else s in
      let '(contractHash, s) := GetCodeHash s address in
      let '(nonce, s) := GetNonce s address in
      if bool_decide (nonce <> 0) || (bool_decide (contractHash <> 0) && bool_decide (contractHash <> emptyCodeHash)) then
        run (Ret (set_evm_db e s, cache, ([], 0, 0, Some ErrContractAddressCollision)))
      else
        let '(snapshot, s) := Snapshot s in
        let s := CreateAccount s address in
        let s := if IsEIP158 (chainRules e) then SetNonce s address 1 else s in
        let s := Transfer s from address value in
        let c := SetCodeOptionalHash (NewContract from address (caller_cache caller) value gas) address hash code in
        let e := set_evm_db e s in
        if no_recursion e then run (Ret (e, cache, ([], address, gas, None)))
        else
          r ← interpret e c [] false;
          let '(e, c, (ret, err)) := r in
          finish_deployment snapshot e c address ret err.

(** crypto/crypto.go *)
Definition BytesToAddress (b : bytes) : Z := be_to_Z b mod 2 ^ 160.

(** The nonce is a [uint64]. *)
Definition CreateAddress (b nonce : Z) : outcome Empty_set Z :=
  match EncodeToBytes (SliceV false [IfaceV (Some (ByteArrayV false (be_bytes 20 b))); IfaceV (Some (UintV (u64 nonce)))]) with
  | Ret data => h ← go_from (Keccak256 data) 12; Ret (BytesToAddress h)
  | Err _ => h ← go_from (Keccak256 []) 12; Ret (BytesToAddress h)
  | Panic => Panic
  end.

Definition CreateAddress2 (b salt inithash : Z) : outcome Empty_set Z :=
  h ← go_from (Keccak256 ([0xff] ++ be_bytes 20 b ++ be_bytes 32 salt ++ be_bytes 32 inithash)) 12;
  Ret (BytesToAddress h).

Definition Create (e : EVM) (caller : ContractRef) (code : bytes) (gas value : Z) : fuelled Empty_set create_result :=
  let '(nonce, s) := GetNonce (evm_db e) (caller_address caller) in
  address ← run (CreateAddress (caller_address caller) nonce);
  create (set_evm_db e s) caller code 0 gas value address.

Definition Create2 (e : EVM) (caller : ContractRef) (code : bytes) (gas endowment salt : Z) : fuelled Empty_set create_result :=
  address ← run (CreateAddress2 (caller_address caller) (Bytes32 salt) (hash_code code));
  create e caller code (hash_code code) gas endowment address.

Definition make_evm : Evm := {|
  evm_Call := Call;
  evm_CallCode := CallCode;
  evm_DelegateCall := DelegateCall;
  evm_StaticCall := StaticCall;
  evm_Create := Create;
  evm_Create2 := Create2
|}.

End Calls.

(** ** interpreter.go *)

Section Step.
Context {E : Evm}.

(** A write, or a call with a value, in read-only mode. *)
Definition write_protection (op : Z) (o : operation) : M unit :=
  ro ← gets readOnly;
  r ← gets rules;
  if ro && IsByzantium r then
    if has Writes o then fail ErrWriteProtection
    else if decide (op = CALL) then
      v ← back 2;
      if decide (Sign v <> 0) then fail ErrWriteProtection else mret tt
    else mret tt
  else mret tt.

(** The size that the memory needs to have. *)
Definition memory_size (o : operation) : M Z :=
  match memorySize o with
  | None => mret 0
  | Some ms =>
      r ← lift (fun f => ms (stack f));
      let '(memSize, overflow) := r in
      if (overflow : bool) then fail ErrGasUintOverflow else safe_mul (toWordSize memSize) 32
  end.

(** Any error of the gas function means that the gas does not suffice. *)
Definition dynamic_gas (o : operation) (size : Z) : M unit :=
  match dynamicGas o with
  | None => mret tt
  | Some g => fun f =>
      r ← g size f;
      match r with
      | (f, inl _) => Ret (f, inl ErrOutOfGas)
      | (f, inr cost) => use_gas cost f
      end
  end.

Definition resize (size : Z) : M unit :=
  if decide (size > 0) then modify (fun f => set_mem f (Resize (mem f) size)) else mret tt.

(** The execution function; [returnData] is set also when it fails. *)
Definition execution (o : operation) : X bytes := fun f =>
  r ← execute o f;
  let '(f, out) := r in
  let res := match out with inr b => b | inl _ => [] end in
  run (Ret (if has Returns o then set_returnData f res else f, out)).

(** The gas of an operation and the memory that it pays for. *)
Definition charge (o : operation) : M unit :=
  _ ← use_gas (constantGas o);
  size ← memory_size o;
  _ ← dynamic_gas o size;
  resize size.

(** One round of the loop: [None] when it goes on, otherwise the output, and
    whether the contract reverted. *)
Definition run_step : X (option (bytes * bool)) :=
  c ← embed (gets contract);
  p ← embed (gets pc);
  r ← embed (gets rules);
  let op := GetOp c p in
  match lookup_op (instruction_set env r) op with
  | None => embed (fail (ErrInvalidOpCode op))
  | Some o =>
      sLen ← embed (gets (fun f => zlen (stack f)));
      if decide (sLen < op_minStack o) then embed (fail (ErrStackUnderflow sLen (op_minStack o)))
      else if decide (sLen > op_maxStack o) then embed (fail (ErrStackOverflow sLen (op_maxStack o)))
      else
        _ ← embed (write_protection op o);
        _ ← embed (charge o);
        res ← execution o;
        if has Reverts o then mret (Some (res, true))
        else if has Halts o then mret (Some (res, false))
        else
          _ ← embed (if has Jumps o then mret tt else add_pc 1);
          mret None
  end.

End Step.

Section Run.
Context (loop : Z -> frame -> fuelled Empty_set (frame * (bytes * option vm_error))).

Definition Run (e : EVM) (c : Contract) (input : bytes) (readOnly : bool) : fuelled Empty_set run_result :=
  if decide (zlen (Code c) = 0) then
    run (Ret (mk_EVM (chainRules e) (evm_db e) (evm_callGasTemp e) (evm_depth e) (evm_readOnly e) [], c, ([], None)))
  else
    let c := mk_Contract (CallerAddress c) (self c) (jumpdests c) (analysis c) (Code c) (CodeHash c) (CodeAddr c) input (Gas c) (value c) in
    r ← loop 0 (mk_frame (chainRules e) (evm_db e) (evm_callGasTemp e) c [] NewMemory [] 0 (evm_depth e + 1)
                  (readOnly || evm_readOnly e) []);
    let '(f, out) := r in
    run (Ret (mk_EVM (rules f) (db f) (callGasTemp f) (evm_depth e) (evm_readOnly e) (returnData f), contract f, out)).

End Run.

Fixpoint loop (fuel : nat) (steps : Z) (f : frame) : fuelled Empty_set (frame * (bytes * option vm_error)) :=
  match fuel with
  | O => out_of_fuel
  | S fuel =>
      let steps := steps + 1 in
      if bool_decide (steps mod 1000 = 0) && abort env then run (Ret (f, ([], None)))
      else
        r ← run_step (E := make_evm (Run (loop fuel))) f;
        match r with
        | (f, inl e) => run (Ret (f, ([], Some e)))
        | (f, inr (Some (res, reverted))) => run (Ret (f, (res, if (reverted : bool) then Some ErrExecutionReverted else None)))
        | (f, inr None) => loop fuel steps f
        end
  end.

(** The EVM, with fuel for the loops of a transaction. *)
Definition evm_at (fuel : nat) : Evm := make_evm (Run (loop fuel)).

End Evm.
