(* ===== verification/VmGasProofs.v ===== *)
(** * What the gas functions charge (core/vm/gas_table.go, gas.go)

    The 64-bit computations agree with the formulas over the integers or report
    an overflow; the fee of memory grows as its quadratic formula says; the gas
    passed to a call leaves a 64th behind. *)

From stdpp Require Import gmap.
From S2P Require Import Prelude Rlp Trie AccessList StateDB StateDBProofs StateDBSnapshots.
From S2P Require Import Uint256 VmAnalysis VmContract VmMemory VmGas.

Section GasProofs.
Context {B : Backend} {U : Uint256} {UL : Uint256Laws U}.
Implicit Types f : frame.

(** ** Running the monad *)

Lemma M_bind_eq {A C} (m : M A) (k : A -> M C) f :
  (m ≫= k) f = match m f with
               | Ret (f, inr a) => k a f
               | Ret (f, inl e) => Ret (f, inl e)
               | Err e => Err e
               | Panic => Panic
               end.
Proof. unfold mbind, M_bind. destruct (m f) as [[? [?|?]]| |]; done. Qed.

Lemma bind_ok {A C} (m : M A) (k : A -> M C) f f' a : m f = Ret (f', inr a) -> (m ≫= k) f = k a f'.
Proof. intros E. by rewrite M_bind_eq, E. Qed.

Lemma bind_err {A C} (m : M A) (k : A -> M C) f f' e : m f = Ret (f', inl e) -> (m ≫= k) f = Ret (f', inl e).
Proof. intros E. by rewrite M_bind_eq, E. Qed.

(** ** Memory *)

(** The fee of [w] words of memory. *)
Definition mem_fee (w : Z) : Z := MemoryGas * w + w * w / QuadCoeffDiv.

(** The memory holds whole words and its fee is paid. *)
Definition mem_ok (m : Memory) : Prop :=
  exists w, 0 <= w <= 0xFFFFFFFF /\ Len m = 32 * w /\ lastGasCost m = mem_fee w.

Lemma mem_fee_mono w w' : 0 <= w <= w' -> mem_fee w <= mem_fee w'.
Proof.
  intros H. unfold mem_fee, MemoryGas, QuadCoeffDiv. assert (w * w <= w' * w') by nia.
  pose proof (Z.div_le_mono (w * w) (w' * w') 512). lia.
Qed.

Lemma mem_fee_u64 w : 0 <= w <= 0xFFFFFFFF -> 0 <= w * w < 2 ^ 64 /\ 0 <= mem_fee w < 2 ^ 60 /\ 0 <= w * w / QuadCoeffDiv.
Proof.
  intros H. unfold mem_fee, MemoryGas, QuadCoeffDiv. assert (0 <= w * w <= 0xFFFFFFFF * 0xFFFFFFFF) by nia.
  pose proof (Z.div_le_mono (w * w) (0xFFFFFFFF * 0xFFFFFFFF) 512). pose proof (Z.div_pos (w * w) 512).
  change (0xFFFFFFFF * 0xFFFFFFFF / 512) with 36028797002186752 in *. lia.
Qed.

Lemma words_bound size : 0 <= size <= 0x1FFFFFFFE0 -> 0 <= words size <= 0xFFFFFFFF.
Proof. unfold words. intros. Z.to_euclidean_division_equations; lia. Qed.

Lemma memoryGasCost_spec size f :
  is_u64 size -> mem_ok (mem f) ->
  (0x1FFFFFFFE0 < size /\ memoryGasCost size f = Ret (f, inl ErrGasUintOverflow)) \/
  (size <= 0x1FFFFFFFE0 /\ exists f' fee, memoryGasCost size f = Ret (f', inr fee) /\ 0 <= fee < 2 ^ 60 /\
     store (mem f') = store (mem f) /\ f' = set_mem f (mem f') /\
     lastGasCost (mem f') = lastGasCost (mem f) + fee /\
     lastGasCost (mem f') = mem_fee (Z.max (Len (mem f) / 32) (words size))).
Proof.
  intros Hs (w & Hw & Hlen & Hlast). unfold memoryGasCost, is_u64 in *. pose proof (mem_fee_u64 w Hw) as (Hsq & Hfee & _).
  assert (Ew : Len (mem f) / 32 = w) by (rewrite Hlen, Z.mul_comm; by apply Z.div_mul).
  destruct (decide (size = 0)) as [->|Hne].
  { right. split; [lia|]. exists f, 0. split; [done|]. rewrite Ew. change (words 0) with 0. rewrite Z.max_l by lia.
    split; [lia|]. split; [done|]. split; [by destruct f|lia]. }
  destruct (decide (size > 0x1FFFFFFFE0)) as [Hbig|Hle]; [left; split; [lia|done]|right; split; [lia|]].
  rewrite (bind_ok _ _ f f (mem f)) by done. rewrite toWordSize_spec by done. cbn zeta.
  pose proof (words_bound size ltac:(lia)) as Hn. set (n := words size) in *. pose proof (mem_fee_u64 n Hn) as (Hsqn & Hfeen & Hq).
  rewrite (u64_id (n * 32)) by (unfold is_u64; lia). rewrite Ew. case_decide as Hgt.
  - rewrite (u64_id (n * n)) by (unfold is_u64; lia). rewrite (u64_id (n * MemoryGas)) by (unfold is_u64, MemoryGas; lia).
    replace (n * MemoryGas + n * n / QuadCoeffDiv) with (mem_fee n) by (unfold mem_fee; lia).
    rewrite (u64_id (mem_fee n)) by (unfold is_u64; lia). pose proof (mem_fee_mono w n ltac:(lia)).
    rewrite Hlast, (u64_id (mem_fee n - mem_fee w)) by (unfold is_u64; lia).
    eexists _, _. split; [done|]. split; [lia|]. split; [done|]. split; [done|]. cbn. rewrite Z.max_r by lia. lia.
  - exists f, 0. split; [done|]. split; [lia|]. split; [done|]. split; [by destruct f|]. rewrite Z.max_l by lia. lia.
Qed.

(** After the fee is paid the memory can be resized. *)
Lemma mem_ok_Resize m size :
  0 <= size <= 0x1FFFFFFFE0 -> (exists w, 0 <= w <= 0xFFFFFFFF /\ Len m = 32 * w /\
    lastGasCost m = mem_fee (Z.max w (words size))) -> mem_ok (Resize m (32 * words size)).
Proof.
  intros Hs (w & Hw & Hl & Hc). pose proof (words_bound size Hs). exists (Z.max w (words size)). split; [lia|].
  unfold Resize. case_decide; cbn; [|split; [lia|done]]. split; [|done].
  unfold Len, zlen in *. cbn. rewrite length_app, length_replicate. lia.
Qed.

(** The fee for expanding memory is the difference of the quadratic fees of
    its sizes before and after, computed without wrapping around; a size for
    which it could wrap is refused; once the memory is resized its fee is again
    the one recorded. *)
Theorem memoryGasCost_exact size f :
  is_u64 size -> mem_ok (mem f) ->
  (0x1FFFFFFFE0 < size -> memoryGasCost size f = Ret (f, inl ErrGasUintOverflow)) /\
  (size <= 0x1FFFFFFFE0 -> exists f', memoryGasCost size f =
      Ret (f', inr (mem_fee (Z.max (Len (mem f) / 32) (words size)) - mem_fee (Len (mem f) / 32))) /\
    f' = set_mem f (mem f') /\ mem_ok (Resize (mem f') (32 * words size))).
Proof.
  intros Hs Hm. pose proof Hm as (w & Hw & Hl & Hc).
  assert (Ew : Len (mem f) / 32 = w) by (rewrite Hl, Z.mul_comm; by apply Z.div_mul).
  destruct (memoryGasCost_spec size f Hs Hm) as [[Hbig E]|(Hle & f' & fee & E & _ & Hst & Hf & Hfee & Hlast)];
    (split; intros Hsz; [try done; lia|try lia]).
  exists f'. rewrite Ew in *. split; [rewrite E; do 3 f_equal; lia|]. split; [done|].
  apply mem_ok_Resize; [unfold is_u64 in Hs; lia|]. exists w. split; [done|]. split; [|done].
  unfold Len in *. by rewrite Hst.
Qed.

(** ** Charges per word and per byte *)

Lemma safe_add_spec x y f :
  is_u64 x -> is_u64 y ->
  safe_add x y f = if decide (2 ^ 64 <= x + y) then Ret (f, inl ErrGasUintOverflow) else Ret (f, inr (x + y)).
Proof.
  intros Hx Hy. unfold safe_add. rewrite SafeAdd_spec by done. unfold is_u64 in *.
  rewrite bool_decide_decide. case_decide; [done|]. cbn. rewrite u64_id by (unfold is_u64; lia). done.
Qed.

Lemma safe_mul_spec x y f :
  is_u64 x -> is_u64 y ->
  safe_mul x y f = if decide (2 ^ 64 <= x * y) then Ret (f, inl ErrGasUintOverflow) else Ret (f, inr (x * y)).
Proof.
  intros Hx Hy. unfold safe_mul. rewrite SafeMul_spec by done. unfold is_u64 in *. assert (0 <= x * y) by nia.
  rewrite bool_decide_decide. case_decide; [done|]. cbn. rewrite u64_id by (unfold is_u64; lia). done.
Qed.

(** The operand [n] below the top of the stack. *)
Definition operand (f : frame) (n x : Z) : Prop := Back (E:=Empty_set) (stack f) n = Ret x /\ is_u256 x.

Lemma back_spec f n x : operand f n x -> back n f = Ret (f, inr x).
Proof. intros [H _]. unfold back, lift. by rewrite H. Qed.

Lemma back_uint64_spec f n x :
  operand f n x -> back_uint64 n f = if decide (2 ^ 64 <= x) then Ret (f, inl ErrGasUintOverflow) else Ret (f, inr x).
Proof.
  intros H. pose proof H as [_ Hx]. unfold back_uint64. rewrite (bind_ok _ _ f f x) by by apply back_spec.
  rewrite Uint64WithOverflow_spec by done. rewrite bool_decide_decide. case_decide; [done|].
  unfold is_u256 in Hx. rewrite Z.mod_small by lia. done.
Qed.

Lemma operand_set_mem f m n x : operand (set_mem f m) n x <-> operand f n x.
Proof. done. Qed.

(** The fee for memory followed by [rate] for each word of an operand. *)
Definition word_gas (n rate : Z) (memorySize : Z) : M Z :=
  gas ← memoryGasCost memorySize;
  w ← back_uint64 n;
  w ← safe_mul (toWordSize w) rate;
  safe_add gas w.

Definition mem_charge (f : frame) (size : Z) : Z :=
  mem_fee (Z.max (Len (mem f) / 32) (words size)) - mem_fee (Len (mem f) / 32).

(** A gas function that charges [cost] in frame [f], or else overflows for the
    reason [over]. *)
Definition charges (f : frame) (m : M Z) (cost : Z) (over : Prop) : Prop :=
  match m f with
  | Ret (_, inr gas) => gas = cost /\ gas < 2 ^ 64
  | Ret (_, inl e) => e = ErrGasUintOverflow /\ (over \/ 2 ^ 64 <= cost)
  | _ => False
  end.

Lemma word_gas_spec n rate size f x :
  is_u64 size -> mem_ok (mem f) -> operand f n x -> 0 <= rate < 32 ->
  charges f (word_gas n rate size) (mem_charge f size + rate * words x) (0x1FFFFFFFE0 < size \/ 2 ^ 64 <= x).
Proof.
  intros Hs Hm Hx Hr. pose proof Hm as (w & Hw & Hl & Hc). pose proof Hx as [_ H256].
  assert (Ew : Len (mem f) / 32 = w) by (rewrite Hl, Z.mul_comm; by apply Z.div_mul). unfold charges, word_gas, mem_charge.
  destruct (memoryGasCost_spec size f Hs Hm) as [[Hbig E]|(Hle & f' & fee & E & Hfee64 & Hst & Hf & Hfee & Hlast)].
  { rewrite (bind_err _ _ _ _ _ E). split; [done|by left; left]. }
  rewrite (bind_ok _ _ _ _ _ E). rewrite Ew in *.
  assert (Hx' : operand f' n x) by (rewrite Hf; by apply operand_set_mem).
  rewrite M_bind_eq, (back_uint64_spec f' n x Hx'). case_decide as H64; [split; [done|by left; right]|].
  unfold is_u256 in H256. assert (Hxu : is_u64 x) by (unfold is_u64; lia).
  rewrite M_bind_eq, toWordSize_spec by done.
  assert (Hwx : 0 <= words x < 2 ^ 59 + 1) by (unfold words; Z.to_euclidean_division_equations; lia).
  rewrite safe_mul_spec by (unfold is_u64; lia). rewrite decide_False by nia.
  rewrite safe_add_spec by (unfold is_u64; nia).
  replace (mem_fee (Z.max w (words size)) - mem_fee w) with fee by lia. rewrite (Z.mul_comm (words x)).
  case_decide as Ha; [split; [done|by right]|split; [done|lia]].
Qed.

(** The gas of the copying instructions, SHA3 and CREATE2 is the fee for
    the memory and the rate for each word, over the integers, or an overflow
    is reported; no 64-bit operation wraps around silently. *)
Theorem word_gas_exact size f x1 x2 x3 :
  is_u64 size -> mem_ok (mem f) -> operand f 1 x1 -> operand f 2 x2 -> operand f 3 x3 ->
  let exact (m : M Z) (x rate : Z) :=
    charges f m (mem_charge f size + rate * words x) (0x1FFFFFFFE0 < size \/ 2 ^ 64 <= x) in
  exact (gasCallDataCopy size) x2 3 /\ exact (gasCodeCopy size) x2 3 /\ exact (gasExtCodeCopy size) x3 3 /\
  exact (gasReturnDataCopy size) x2 3 /\ exact (gasSha3 size) x1 6 /\ exact (gasCreate2 size) x2 6.
Proof. intros Hs Hm H1 H2 H3 exact. split_and!; by apply word_gas_spec. Qed.

(** LOG charges for the instruction, each topic and each byte of data. *)
Theorem makeGasLog_exact n size f x :
  is_u64 size -> mem_ok (mem f) -> operand f 1 x -> 0 <= n <= 4 ->
  charges f (makeGasLog n size) (mem_charge f size + LogGas + LogTopicGas * n + LogDataGas * x)
    (0x1FFFFFFFE0 < size \/ 2 ^ 64 <= LogDataGas * x).
Proof.
  intros Hs Hm Hx Hn. pose proof Hx as [_ H256]. unfold charges, makeGasLog, mem_charge.
  rewrite M_bind_eq, (back_uint64_spec f 1 x Hx). case_decide as H64; [split; [done|left; right; unfold LogDataGas; lia]|].
  destruct (memoryGasCost_spec size f Hs Hm) as [[Hbig E]|(Hle & f' & fee & E & Hfee64 & Hst & Hf & Hfee & Hlast)].
  { rewrite (bind_err _ _ _ _ _ E). split; [done|by left; left]. }
  rewrite (bind_ok _ _ _ _ _ E). pose proof Hm as (w & Hw & Hl & Hc).
  assert (Ew : Len (mem f) / 32 = w) by (rewrite Hl, Z.mul_comm; by apply Z.div_mul). rewrite Ew in *.
  replace (mem_fee (Z.max w (words size)) - mem_fee w) with fee by lia. unfold is_u256, is_u64, LogGas, LogTopicGas, LogDataGas in *.
  rewrite M_bind_eq, safe_add_spec, decide_False by (unfold is_u64; lia).
  rewrite u64_id by (unfold is_u64; lia).
  rewrite M_bind_eq, safe_add_spec, decide_False by (unfold is_u64; lia).
  rewrite M_bind_eq, safe_mul_spec by (unfold is_u64; lia). case_decide; [split; [done|left; right; lia]|].
  rewrite safe_add_spec by (unfold is_u64; lia). case_decide; [split; [done|right; lia]|split; lia].
Qed.

(** ** The gas of a call *)

(** All but a 64th. *)
Definition all_but_64th (gas : Z) : Z := gas - gas / 64.

(** Since EIP-150 a call is given what it asks for, at most all but a 64th
    of what remains after the base cost; when the base cost exceeds the gas of the
    contract the subtraction wraps around, but then the total exceeds the gas too,
    and the instruction fails. *)
Theorem add_call_gas_63_64 base f x :
  IsEIP150 (rules f) = true -> is_u64 (Gas (contract f)) -> is_u64 base -> operand f 0 x ->
  exists f' r, add_call_gas base f = Ret (f', r) /\
    match r with
    | inr total => total = base + callGasTemp f' /\
        (total <= Gas (contract f) ->
           callGasTemp f' = Z.min x (all_but_64th (Gas (contract f) - base)) /\
           (Gas (contract f) - base) / 64 <= Gas (contract f) - total)
    | inl _ => Gas (contract f) < base
    end.
Proof.
  intros Hr Hg Hb Hx. pose proof Hx as [_ H256]. unfold add_call_gas, is_u64, is_u256, all_but_64th in *.
  rewrite (bind_ok _ _ f f (rules f)), (bind_ok _ _ f f (contract f)), (bind_ok _ _ f f x) by (done || by apply back_spec).
  unfold callGas. rewrite Hr, IsUint64_spec by done. set (g := Gas (contract f)) in *. set (a := u64 (g - base)).
  assert (Ha : 0 <= a < 2 ^ 64) by apply u64_range. assert (Haw : base <= g -> a = g - base) by (intros; apply u64_id; unfold is_u64; lia).
  assert (Hd : 0 <= a / 64 <= a) by (Z.to_euclidean_division_equations; lia).
  clearbody a. destruct (negb _ || _) eqn:E.
  - assert (Hmin : a - a / 64 <= x).
    { apply orb_true_iff in E as [E|E]; [apply negb_true_iff, bool_decide_eq_false in E; lia|].
      apply bool_decide_eq_true in E. destruct (decide (x < 2 ^ 64)); [rewrite Uint64_small in E by done; lia|lia]. }
    rewrite (bind_ok _ _ f (set_callGasTemp f (a - a / 64)) tt) by done. rewrite safe_add_spec by (unfold is_u64; lia).
    destruct (decide (2 ^ 64 <= base + _)); eexists _, _.
    + split; [done|]. destruct (decide (base <= g)) as [Hbg|]; [specialize (Haw Hbg)|]; lia.
    + split; [done|]. cbn. split; [done|]. intros Hle. rewrite <- (Haw ltac:(lia)), Z.min_r by lia. lia.
  - apply orb_false_iff in E as [E1 E2]. apply negb_false_iff, bool_decide_eq_true in E1. apply bool_decide_eq_false in E2.
    rewrite bool_decide_true by done. cbn [negb]. rewrite Uint64_small in * by done.
    rewrite (bind_ok _ _ f (set_callGasTemp f x) tt) by done. rewrite safe_add_spec by (unfold is_u64; lia).
    destruct (decide (2 ^ 64 <= base + _)); eexists _, _.
    + split; [done|]. destruct (decide (base <= g)) as [Hbg|]; [specialize (Haw Hbg)|]; lia.
    + split; [done|]. cbn. split; [done|]. intros Hle. rewrite <- (Haw ltac:(lia)), Z.min_l by lia. lia.
Qed.

End GasProofs.

Module GasExamples.
Import SnapExamples ZUint256.
#[local] Existing Instance ex_backend.
#[local] Existing Instance z_uint256.

Definition gs_rules : Rules := mk_Rules true true true true true true true true false.

(** A frame with no memory, 1000 gas, and 70, 0, 64, 0 on the stack, 70 on top. *)
Definition gs_frame : frame := mk_frame gs_rules (New true) 0 (NewContract 5 5 None 0 1000) [0; 64; 0; 70] NewMemory [] 0 0 false [].

Lemma gs_mem_ok : mem_ok (mem gs_frame).
Proof. by exists 0. Qed.

Lemma memoryGasCost_exact_witness :
  exists f', memoryGasCost 65 gs_frame = Ret (f', inr 9) /\ f' = set_mem gs_frame (mem f') /\ mem_ok (Resize (mem f') 96).
Proof. apply (memoryGasCost_exact 65 gs_frame); [by vm_compute|apply gs_mem_ok|by vm_compute]. Defined.

Lemma word_gas_exact_witness :
  charges gs_frame (gasCallDataCopy 64) (mem_charge gs_frame 64 + 3 * words 64) (0x1FFFFFFFE0 < 64 \/ 2 ^ 64 <= 64).
Proof.
  destruct (word_gas_exact 64 gs_frame 0 64 0) as (H & _);
    [by vm_compute|apply gs_mem_ok|by vm_compute|by vm_compute|by vm_compute|exact H].
Defined.

Lemma makeGasLog_exact_witness :
  charges gs_frame (makeGasLog 2 64) (mem_charge gs_frame 64 + LogGas + LogTopicGas * 2 + LogDataGas * 0)
    (0x1FFFFFFFE0 < 64 \/ 2 ^ 64 <= LogDataGas * 0).
Proof. apply (makeGasLog_exact 2 64 gs_frame 0); first [apply gs_mem_ok|by vm_compute]. Defined.

Lemma add_call_gas_63_64_witness :
  exists f' r, add_call_gas 700 gs_frame = Ret (f', r) /\
    match r with
    | inr total => total = 700 + callGasTemp f' /\
        (total <= 1000 ->
           callGasTemp f' = Z.min 70 (all_but_64th (1000 - 700)) /\ (1000 - 700) / 64 <= 1000 - total)
    | inl _ => 1000 < 700
    end.
Proof. apply (add_call_gas_63_64 700 gs_frame 70); by vm_compute. Defined.

End GasExamples.
