(* ===== verification/VmSstore.v ===== *)
(** * Net gas metering of SSTORE (core/vm/gas_table.go: gasSStore,
    gasSStoreEIP2200; operations_acl.go: gasSStoreEIP2929)

    The gas of a sequence of writes to a slot and what they refund add up to a
    price that depends on the original and the final value only; and the refund
    counter, from which the gas functions subtract, never becomes negative. *)

From stdpp Require Import gmap.
From S2P Require Import Prelude Rlp Trie AccessList StateDB StateDBProofs StateDBSnapshots StateDBObserve StateDBEffects.
From S2P Require Import Uint256 VmAnalysis VmContract VmMemory VmGas VmGasProofs.

(** ** The schedule as a function of the original, the current and the new value *)

Record schedule := mk_schedule { sch_sload : Z; sch_set : Z; sch_reset : Z; sch_clear : Z }.

Definition net_gas (p : schedule) (o c v : Z) : Z :=
  if decide (c = v) then sch_sload p
  else if decide (o = c) then (if decide (o = 0) then sch_set p else sch_reset p)
  else sch_sload p.

(** What is added to the refund counter. *)
Definition net_refund (p : schedule) (o c v : Z) : Z :=
  if decide (c = v) then 0
  else if decide (o = c) then (if decide (o <> 0 /\ v = 0) then sch_clear p else 0)
  else
    (if decide (o <> 0) then (if decide (c = 0) then - sch_clear p else if decide (v = 0) then sch_clear p else 0) else 0) +
    (if decide (o = v) then (if decide (o = 0) then sch_set p - sch_sload p else sch_reset p - sch_sload p) else 0).

(** The price of a slot whose value has become [c]. *)
Definition price (p : schedule) (o c : Z) : Z :=
  if decide (o = c) then 0
  else if decide (o = 0) then sch_set p - sch_sload p
  else if decide (c = 0) then sch_reset p - sch_sload p - sch_clear p
  else sch_reset p - sch_sload p.

Lemma net_step p o c v : net_gas p o c v - net_refund p o c v = sch_sload p + (price p o v - price p o c).
Proof. unfold net_gas, net_refund, price. repeat case_decide; subst; try tauto; try lia. Qed.

(** Part of the refunds that may be taken back. *)
Definition owed (p : schedule) (o c : Z) : Z := if decide (o <> 0 /\ c = 0) then sch_clear p else 0.

Lemma net_refund_owed p o c v :
  0 <= sch_sload p <= sch_reset p -> sch_reset p <= sch_set p ->
  owed p o v - owed p o c <= net_refund p o c v.
Proof. intros. unfold owed, net_refund. repeat case_decide; subst; try tauto; try lia. Qed.

Definition EIP1283 : schedule := mk_schedule NetSstoreNoopGas NetSstoreInitGas NetSstoreCleanGas NetSstoreClearRefund.
Definition EIP2200 : schedule :=
  mk_schedule SloadGasEIP2200 SstoreSetGasEIP2200 SstoreResetGasEIP2200 SstoreClearsScheduleRefundEIP2200.
Definition EIP2929 : schedule :=
  mk_schedule WarmStorageReadCostEIP2929 SstoreSetGasEIP2200 (SstoreResetGasEIP2200 - ColdSloadCostEIP2929)
    SstoreClearsScheduleRefundEIP2200.

Section Sstore.
Context {B : Backend} {BL : BackendLaws B} {U : Uint256} {UL : Uint256Laws U}.
Implicit Types (s t : StateDB) (f : frame).

(** The values of a slot. *)
Definition orig s (a k : Z) : Z := (GetCommittedState s a k).1.
Definition cur s (a k : Z) : Z := (GetState s a k).1.

(** [t] shows the same slots as [s]. *)
Definition same_slots s t : Prop := forall b k, cur t b k = cur s b k /\ orig t b k = orig s b k.

#[global] Instance same_slots_refl : Reflexive same_slots.
Proof. by intros s b k. Qed.

#[global] Instance same_slots_trans : Transitive same_slots.
Proof. intros s t u H K b k. destruct (H b k), (K b k). split; congruence. Qed.

Lemma same_slots_accounts s t : (forall b, same_account t s b) -> same_slots s t.
Proof. intros H b k. split; [apply same_state, H|apply same_committed, H]. Qed.

Lemma same_frame s t b :
  wf s -> stateObjects t = stateObjects s -> snap t = snap s -> snapDestructs t = snapDestructs s -> same_account t s b.
Proof.
  intros W H1 H2 H3. apply same_look; [done|done|by rewrite H3|].
  unfold look. by rewrite H1, (loaded_snap t s).
Qed.

Lemma same_exist s t b : same_account t s b -> (Exist t b).1 = (Exist s b).1.
Proof.
  intros H. destruct (getters t b 0) as [-> _], (getters s b 0) as [-> _]. by destruct H.
Qed.

(** ** The three gas functions *)

(** The effects of the functions on the state: queries, then refunds. *)
Record refunded s t (delta : Z) : Prop := {
  rf_accounts : forall b, same_account t s b;
  rf_op : op s t;
  rf_refund : refund t = refund s + delta;
  rf_access : forall b, ContainsAddress (access s) b = true -> ContainsAddress (access t) b = true
}.

Lemma refunded_trans s t u d e : wf s -> refunded s t d -> refunded t u e -> refunded s u (d + e).
Proof. intros W [H1 H2 H3 H4] [K1 K2 K3 K4]. split; [intros b; by eapply same_trans|by eapply op_trans|lia|auto]. Qed.

Lemma refunded_quiet s t : wf s -> quiet s t -> refunded s t 0.
Proof.
  intros W Q. split; [intros b; by apply same_quiet|by apply quiet_op|rewrite (eqv_refund _ _ (quiet_eqv _ _ Q)); lia|].
  intros b. by replace (access t) with (access s) by (symmetry; apply Q).
Qed.

Lemma refunded_wf s t d : refunded s t d -> wf t.
Proof. intros [_ O _ _]. apply O. Qed.

(** A change of the state by a gas function. *)
Definition runs {A} (m : M A) f (a : A) (delta : Z) : Prop :=
  exists t, m f = Ret (set_db f t, inr a) /\ refunded (db f) t delta.

Lemma runs_ret {A} f (a : A) : wf (db f) -> runs (mret a) f a 0.
Proof. intros W. exists (db f). split; [by destruct f|by apply refunded_quiet]. Qed.

Lemma runs_bind {A C} (m : M A) (k : A -> M C) f a c d e :
  wf (db f) -> runs m f a d -> (forall t, refunded (db f) t d -> runs (k a) (set_db f t) c e) -> runs (m ≫= k) f c (d + e).
Proof.
  intros W (t & E & Ht) Hk. destruct (Hk t Ht) as (u & Eu & Hu). exists u. rewrite (bind_ok _ _ _ _ _ E). split; [done|].
  by eapply refunded_trans.
Qed.

Lemma query_quiet {A} f (q : StateDB -> A * StateDB) :
  wf (db f) -> quiet (db f) (q (db f)).2 -> runs (query q) f (q (db f)).1 0.
Proof.
  intros W Q. unfold runs, query. destruct (q (db f)) as [a t]. exists t. split; [done|]. by apply refunded_quiet.
Qed.

Lemma getState_runs f k : wf (db f) -> runs (getState k) f (cur (db f) (self (contract f)) k) 0.
Proof.
  intros W. apply query_quiet; [done|]. apply (read_object_quiet _ _ (fun s o => obj_GetState s o k)); [done|].
  intros. apply GetState_eqv.
Qed.

Lemma getCommittedState_runs f k : wf (db f) -> runs (getCommittedState k) f (orig (db f) (self (contract f)) k) 0.
Proof.
  intros W. apply query_quiet; [done|]. apply (read_object_quiet _ _ (fun s o => obj_GetCommittedState s o k)); [done|].
  intros. apply GetCommittedState_eqv.
Qed.

Lemma getState_quiet f k :
  wf (db f) -> exists t, getState k f = Ret (set_db f t, inr (cur (db f) (self (contract f)) k)) /\ quiet (db f) t.
Proof.
  intros W. exists (GetState (db f) (self (contract f)) k).2. split.
  - unfold getState, cur. rewrite (bind_ok _ _ f f (self (contract f))) by done. unfold query.
    by destruct (GetState (db f) (self (contract f)) k).
  - apply (read_object_quiet _ _ (fun s o => obj_GetState s o k)); [done|]. intros. apply GetState_eqv.
Qed.

Lemma addRefund_runs f g : wf (db f) -> is_u64 (refund (db f) + g) -> runs (addRefund g) f tt g.
Proof.
  intros W Hg. exists (AddRefund (db f) g). split; [done|]. split; [intros b; by apply same_frame| | |done].
  - apply (call_op (db f) (CAddRefund g)); done.
  - cbn. by rewrite u64_id.
Qed.

Lemma subRefund_runs f g : wf (db f) -> g <= refund (db f) -> runs (subRefund g) f tt (- g).
Proof.
  intros W Hg. unfold runs, subRefund, change, SubRefund. cbn. rewrite decide_False by lia. cbn [mbind outcome_bind].
  eexists. split; [done|]. split; [intros b; by apply same_frame|by apply set_refund_op|cbn; lia|done].
Qed.

(** The part that the functions have in common, on top of a [cost]. *)
Definition net_metering (p : schedule) (cost key value current : Z) : M Z :=
  if decide (current = value) then mret (cost + sch_sload p)
  else
    original ← getCommittedState key;
    if decide (original = current) then
      if decide (original = 0) then mret (cost + sch_set p)
      else
        _ ← (if decide (value = 0) then addRefund (sch_clear p) else mret tt);
        mret (cost + sch_reset p)
    else
      _ ← (if decide (original <> 0) then
             if decide (current = 0) then subRefund (sch_clear p)
             else if decide (value = 0) then addRefund (sch_clear p) else mret tt
           else mret tt);
      _ ← (if decide (original = value) then
             if decide (original = 0) then addRefund (sch_set p - sch_sload p)
             else addRefund (sch_reset p - sch_sload p)
           else mret tt);
      mret (cost + sch_sload p).

(** The counter can take every refund of a write. *)
Definition room (p : schedule) (r : Z) : Prop :=
  0 <= r /\ r + sch_set p + sch_clear p < 2 ^ 64 /\ 0 <= sch_sload p <= sch_reset p /\ sch_reset p <= sch_set p /\ 0 <= sch_clear p.

Lemma runs_eq {A} (m : M A) f a a' d d' : runs m f a d -> a = a' -> d = d' -> runs m f a' d'.
Proof. by intros H <- <-. Qed.

(** A refund followed by more. *)
Lemma runs_then {A} (m : M unit) (k : M A) f a d e r :
  wf (db f) -> runs m f tt d -> (forall t, wf t -> refund t = refund (db f) + d -> runs k (set_db f t) a e) ->
  r = d + e -> runs (m ≫= fun _ => k) f a r.
Proof.
  intros W Hm Hk ->. eapply runs_bind; [done..|]. intros t Ht. apply Hk; [by eapply refunded_wf|apply Ht].
Qed.

Lemma runs_skip f : wf (db f) -> runs (mret tt) f tt 0.
Proof. apply runs_ret. Qed.

Lemma net_metering_runs p cost key value f :
  let a := self (contract f) in
  let o := orig (db f) a key in
  let c := cur (db f) a key in
  wf (db f) -> room p (refund (db f)) -> owed p o c <= refund (db f) ->
  runs (net_metering p cost key value c) f (cost + net_gas p o c value) (net_refund p o c value).
Proof.
  intros a o c W (H0 & H1 & H2 & H3 & H4) Ho. unfold net_metering, net_gas, net_refund, owed in *.
  destruct (decide (c = value)) as [Ecv|Ncv]; [by apply runs_ret|].
  eapply runs_eq; [|reflexivity|apply Z.add_0_l].
  eapply runs_bind; [done|by apply getCommittedState_runs|]. fold a o. intros t Ht.
  pose proof (refunded_wf _ _ _ Ht) as Wt. pose proof (rf_refund _ _ _ Ht) as Rt. rewrite Z.add_0_r in Rt.
  destruct (decide (o = c)) as [Eoc|Noc].
  - destruct (decide (o = 0)) as [Eo|No]; [rewrite decide_False by tauto; by apply runs_ret|].
    eapply (runs_then _ _ _ _ (if decide (value = 0) then sch_clear p else 0));
      [done| |intros u Wu _; by apply runs_ret|repeat case_decide; tauto || lia].
    destruct (decide (value = 0)); [apply addRefund_runs; [done|unfold is_u64; cbn; lia]|by apply runs_skip].
  - eapply (runs_then _ _ _ _ (if decide (o <> 0) then if decide (c = 0) then - sch_clear p else if decide (value = 0) then sch_clear p else 0 else 0));
      [done| | |reflexivity].
    + destruct (decide (o <> 0)); [|by apply runs_skip].
      destruct (decide (c = 0)); [apply subRefund_runs; [done|cbn; rewrite decide_True in Ho by tauto; lia]|].
      destruct (decide (value = 0)); [apply addRefund_runs; [done|unfold is_u64; cbn; lia]|by apply runs_skip].
    + intros u Wu Ru. eapply (runs_then _ _ _ _ (if decide (o = value) then if decide (o = 0) then sch_set p - sch_sload p else sch_reset p - sch_sload p else 0));
        [done| | |symmetry; apply Z.add_0_r].
      * destruct (decide (o = value)); [|by apply runs_skip]. cbn in Ru.
        destruct (decide (o = 0)); (apply addRefund_runs; [done|unfold is_u64; cbn; repeat case_decide; tauto || lia]).
      * intros v Wv _. by apply runs_ret.
Qed.

(** ** The functions compute the schedule *)

Lemma same_slots_cur s t a k : same_slots s t -> cur t a k = cur s a k.
Proof. intros H. apply H. Qed.

Lemma same_slots_orig s t a k : same_slots s t -> orig t a k = orig s a k.
Proof. intros H. apply H. Qed.

Lemma runs_pure {A C} (m : M A) (k : A -> M C) f a c d : m f = Ret (f, inr a) -> runs (k a) f c d -> runs (m ≫= k) f c d.
Proof. intros E (t & Et & Ht). exists t. by rewrite (bind_ok _ _ _ _ _ E). Qed.

(** Metering after steps that kept the slots and the counter. *)
Lemma net_metering_after p cost key value f t :
  let a := self (contract f) in
  let o := orig (db f) a key in
  let c := cur (db f) a key in
  refunded (db f) t 0 -> room p (refund (db f)) -> owed p o c <= refund (db f) ->
  runs (net_metering p cost key value c) (set_db f t) (cost + net_gas p o c value) (net_refund p o c value).
Proof.
  intros a o c Ht Hr Ho. pose proof (same_slots_accounts _ _ (rf_accounts _ _ _ Ht)) as Hs. pose proof (rf_refund _ _ _ Ht) as Rt. rewrite Z.add_0_r in Rt.
  pose proof (net_metering_runs p cost key value (set_db f t)) as N. cbn in N. fold a in N.
  rewrite !(same_slots_orig _ t), !(same_slots_cur _ t), Rt in N by done. fold o c in N.
  apply N; [by eapply refunded_wf|done..].
Qed.

Lemma runs_quiet {A C} (m : M A) (k : A -> M C) f t a c d :
  wf (db f) -> m f = Ret (set_db f t, inr a) -> quiet (db f) t -> runs (k a) (set_db f t) c d -> runs (m ≫= k) f c d.
Proof.
  intros W E Q (u & Eu & Hu). exists u. rewrite (bind_ok _ _ _ _ _ E). split; [done|]. rewrite <- (Z.add_0_l d).
  eapply refunded_trans; [done|by apply refunded_quiet|done].
Qed.

Lemma peek_spec f x : operand f 0 x -> peek_m f = Ret (f, inr x).
Proof. intros [H _]. unfold peek_m, lift, peek. unfold Back in H. by rewrite Z.sub_0_r in H; rewrite H. Qed.

Section Functions.
Context (f : frame) (x y : Z).
Context (W : wf (db f)) (Hx : operand f 0 x) (Hy : operand f 1 y).

Local Notation a := (self (contract f)).
Local Notation o := (orig (db f) a x).
Local Notation c := (cur (db f) a x).

Lemma gasSStoreEIP2200_runs size :
  SstoreSentryGasEIP2200 < Gas (contract f) -> room EIP2200 (refund (db f)) -> owed EIP2200 o c <= refund (db f) ->
  runs (gasSStoreEIP2200 size) f (net_gas EIP2200 o c y) (net_refund EIP2200 o c y).
Proof.
  intros Hg Hr Ho. unfold gasSStoreEIP2200. eapply runs_pure; [done|]. rewrite decide_False by lia.
  eapply runs_pure; [by apply back_spec|]. eapply runs_pure; [by apply back_spec|].
  rewrite !Bytes32_spec by (apply Hx || apply Hy). eapply runs_eq; [|apply Z.add_0_l|apply Z.add_0_l].
  eapply runs_bind; [done|by apply getState_runs|]. intros t Ht. by apply (net_metering_after EIP2200 0 x y f t).
Qed.

Lemma gasSStore_runs size :
  IsConstantinople (rules f) = true -> IsPetersburg (rules f) = false ->
  room EIP1283 (refund (db f)) -> owed EIP1283 o c <= refund (db f) ->
  runs (gasSStore size) f (net_gas EIP1283 o c y) (net_refund EIP1283 o c y).
Proof.
  intros Hc Hp Hr Ho. unfold gasSStore.
  eapply runs_pure; [by apply back_spec|]. eapply runs_pure; [by apply back_spec|].
  rewrite !Bytes32_spec by (apply Hx || apply Hy). eapply runs_eq; [|apply Z.add_0_l|apply Z.add_0_l].
  eapply runs_bind; [done|by apply getState_runs|]. intros t Ht. eapply runs_pure; [done|]. cbn [rules set_db].
  rewrite Hc, Hp. by apply (net_metering_after EIP1283 0 x y f t).
Qed.

(** The surcharge for a slot that is not in the access list. *)
Definition cold_cost (s : StateDB) (b k : Z) : Z := if bool_decide (k ∈ slots_of (access s) b) then 0 else ColdSloadCostEIP2929.

Lemma refunded_access s b k :
  wf s -> exists t, AddSlotToAccessList s b k = Ret t /\ refunded s t 0.
Proof.
  intros Ws. destruct (AddSlotToAccessList_op s b k Ws) as (t & E & O). exists t. split; [done|].
  unfold AddSlotToAccessList in E.
  destruct (AddSlot_sets (access s) b k) as (ca & cs & al & Eal & _ & _ & _ & Hal & _); [apply Ws|]. rewrite Eal in E. cbn in E.
  injection E as <-. split; [|done|destruct ca, cs; cbn; lia|].
  - intros e. apply same_frame; [done|by destruct ca, cs..].
  - intros e He. replace (access _) with al by (by destruct ca, cs). rewrite Hal, He. apply orb_true_r.
Qed.

Lemma gasSStoreEIP2929_runs size :
  SstoreSentryGasEIP2200 < Gas (contract f) -> ContainsAddress (access (db f)) a = true ->
  room EIP2929 (refund (db f)) -> owed EIP2929 o c <= refund (db f) ->
  runs (gasSStoreEIP2929 size) f (cold_cost (db f) a x + net_gas EIP2929 o c y) (net_refund EIP2929 o c y).
Proof.
  intros Hg Hal Hr Ho. unfold gasSStoreEIP2929. eapply runs_pure; [done|]. rewrite decide_False by lia.
  eapply runs_pure; [by apply back_spec|]. eapply runs_pure; [by apply peek_spec|].
  rewrite !Bytes32_spec by (apply Hx || apply Hy).
  destruct (getState_quiet f x W) as (t & Et & Q). eapply runs_quiet; [done..|].
  pose proof (refunded_quiet _ _ W Q) as Ht. pose proof (refunded_wf _ _ _ Ht) as Wt.
  assert (Eal : access t = access (db f)) by apply Q.
  eapply runs_pure; [done|]. cbn [contract set_db].
  eapply runs_pure; [unfold lift; cbn [db set_db]; rewrite Contains_slots_of by apply Wt; done|].
  rewrite Eal, Hal. unfold cold_cost. case_bool_decide as Hin.
  - eapply runs_pure; [done|]. by apply (net_metering_after EIP2929 0 x y f t).
  - destruct (refunded_access t a x Wt) as (u & Eu & Hu).
    assert (Hu' : refunded (db f) u 0) by (by apply (refunded_trans _ t _ 0 0)).
    destruct (net_metering_after EIP2929 ColdSloadCostEIP2929 x y f u Hu' Hr Ho) as (v & Ev & Hv). exists v. split.
    + rewrite M_bind_eq. rewrite (bind_ok _ _ (set_db f t) (set_db f u) tt); [exact Ev|].
      unfold change. cbn [db set_db]. by rewrite Eu.
    + rewrite <- (Z.add_0_l (net_refund _ _ _ _)). by apply (refunded_trans _ u).
Qed.

End Functions.

(** ** The instruction *)

Inductive metering := Net1283 | Net2200 | Net2929.

Definition gas_function (m : metering) : Z -> M Z :=
  match m with Net1283 => gasSStore | Net2200 => gasSStoreEIP2200 | Net2929 => gasSStoreEIP2929 end.

Definition schedule_of (m : metering) : schedule :=
  match m with Net1283 => EIP1283 | Net2200 => EIP2200 | Net2929 => EIP2929 end.

(** SSTORE of [v] to the slot [k] of the contract [a]: the gas function, then
    [opSstore].  An error of the former ends the call. *)
Definition sstore (m : metering) (r : Rules) s (a gas k v : Z) : outcome Empty_set (StateDB * (vm_error + Z)) :=
  res ← gas_function m 0 (mk_frame r s 0 (NewContract a a None 0 gas) [v; k] NewMemory [] 0 0 false []);
  match res with
  | (f, inr g) => Ret (SetState (db f) a (Bytes32 k) (Bytes32 v), inr g)
  | (f, inl e) => Ret (db f, inl e)
  end.

(** When the gas function is the one of the rules, and its preconditions hold. *)
Definition metered (m : metering) (r : Rules) s (a gas : Z) : Prop :=
  match m with
  | Net1283 => IsConstantinople r = true /\ IsPetersburg r = false
  | Net2200 => SstoreSentryGasEIP2200 < gas
  | Net2929 => SstoreSentryGasEIP2200 < gas /\ ContainsAddress (access s) a = true
  end.

Definition surcharge (m : metering) s (a k : Z) : Z := match m with Net2929 => cold_cost s a k | _ => 0 end.

Lemma gas_function_runs m r s a gas k v :
  wf s -> is_u256 k -> is_u256 v -> metered m r s a gas -> let p := schedule_of m in
  room p (refund s) -> owed p (orig s a k) (cur s a k) <= refund s ->
  runs (gas_function m 0) (mk_frame r s 0 (NewContract a a None 0 gas) [v; k] NewMemory [] 0 0 false [])
    (surcharge m s a k + net_gas p (orig s a k) (cur s a k) v) (net_refund p (orig s a k) (cur s a k) v).
Proof.
  intros W Hk Hv Hm p Hr Ho. set (f := mk_frame _ _ _ _ _ _ _ _ _ _ _).
  assert (H0 : operand f 0 k) by done. assert (H1 : operand f 1 v) by done. destruct m; cbn [gas_function surcharge].
  - apply (gasSStore_runs f k v); done || apply Hm.
  - apply (gasSStoreEIP2200_runs f k v); done || apply Hm.
  - apply (gasSStoreEIP2929_runs f k v); done || apply Hm.
Qed.

(** *** The counter is left alone by other operations *)

Lemma getStateObject_refund s a : refund (getStateObject s a).2 = refund s.
Proof. unfold getStateObject, getDeletedStateObject. by repeat (case_match; simplify_eq/=). Qed.

Lemma createObject_refund s a : refund (createObject s a).2 = refund s.
Proof. unfold createObject, getDeletedStateObject. by repeat (case_match; simplify_eq/=). Qed.

Lemma GetOrNewStateObject_refund s a : refund (GetOrNewStateObject s a).2 = refund s.
Proof.
  unfold GetOrNewStateObject. pose proof (getStateObject_refund s a) as H.
  destruct (getStateObject s a) as [[o|] t]; cbn in *; [done|].
  pose proof (createObject_refund t a) as K. destruct (createObject t a) as [[n p] u]. cbn in *. congruence.
Qed.

Lemma with_object_refund s a (f : StateDB -> stateObject -> StateDB) :
  (forall t o, refund (f t o) = refund t) -> refund (let '(o, s) := GetOrNewStateObject s a in f s o) = refund s.
Proof.
  intros Hf. pose proof (GetOrNewStateObject_refund s a) as H. destruct (GetOrNewStateObject s a). by rewrite Hf.
Qed.

Lemma SetState_refund s a k v : refund (SetState s a k v) = refund s.
Proof.
  apply with_object_refund. intros t o. unfold obj_SetState. case_match; [done|].
  destruct (obj_GetState t o k). by case_decide.
Qed.

(** What one SSTORE does: the charge, the counter and the slots. *)
Lemma sstore_spec m r s a gas k v :
  wf s -> (Exist s a).1 = true -> is_u256 k -> is_u256 v -> metered m r s a gas -> let p := schedule_of m in
  room p (refund s) -> owed p (orig s a k) (cur s a k) <= refund s ->
  exists s', sstore m r s a gas k v = Ret (s', inr (surcharge m s a k + net_gas p (orig s a k) (cur s a k) v)) /\
    wf s' /\ refund s' = refund s + net_refund p (orig s a k) (cur s a k) v /\
    cur s' a k = v /\ (forall b j, b <> a \/ j <> k -> cur s' b j = cur s b j) /\ forall b j, orig s' b j = orig s b j.
Proof.
  intros W He Hk Hv Hm p Hr Ho. destruct (gas_function_runs m r s a gas k v W Hk Hv Hm Hr Ho) as (t & E & Ht).
  unfold sstore. rewrite E. cbn [mbind outcome_bind db set_db]. rewrite !Bytes32_spec by done.
  pose proof (refunded_wf _ _ _ Ht) as Wt. cbn [db] in Ht.
  pose proof (same_slots_accounts _ _ (rf_accounts _ _ _ Ht)) as Hs.
  assert (Het : (Exist t a).1 = true) by (by rewrite (same_exist s t) by apply Ht).
  destruct (SetState_slots t a k v Wt) as (S1 & S2 & S3). eexists. split; [done|].
  split; [apply (call_op t (CSetState a k v)); done|]. split; [rewrite SetState_refund; apply Ht|].
  split; [done|]. split; [|intros b j; etrans; [|apply Hs]; apply S3; destruct (decide (b = a)); auto].
  intros b j Hor. etrans; [|apply Hs]. apply S2. destruct (decide (b = a)); [right|by left]. destruct Hor; tauto.
Qed.

(** C31: Net metering: what SSTORE charges less what it adds to the refund
    counter is the price of reading, the surcharge for a cold slot, and the change
    of the price of the slot, which depends on its original and current value
    only. *)
Theorem sstore_net m r s a gas k v :
  wf s -> (Exist s a).1 = true -> is_u256 k -> is_u256 v -> metered m r s a gas -> let p := schedule_of m in
  room p (refund s) -> owed p (orig s a k) (cur s a k) <= refund s ->
  exists s' g, sstore m r s a gas k v = Ret (s', inr g) /\
    g - (refund s' - refund s) = surcharge m s a k + sch_sload p + (price p (orig s a k) v - price p (orig s a k) (cur s a k)) /\
    cur s' a k = v /\ orig s' a k = orig s a k.
Proof.
  intros W He Hk Hv Hm p Hr Ho.
  destruct (sstore_spec m r s a gas k v W He Hk Hv Hm Hr Ho) as (s' & E & _ & Hrf & Hc & _ & Hor).
  eexists _, _. split; [done|]. split; [|split; [done|apply Hor]]. fold p in E, Hrf.
  pose proof (net_step p (orig s a k) (cur s a k) v). fold p. lia.
Qed.

End Sstore.

Module SstoreExamples.
Import SnapExamples ZUint256.
#[local] Existing Instance ex_backend.
#[local] Existing Instance z_uint256.

(** Slot 3 of the contract 5, which holds 9, is cleared. *)
Lemma sstore_net_witness :
  exists s' g, sstore Net2200 (mk_Rules true true true true true true true true false) (New true) 5 9000 3 0 = Ret (s', inr g) /\
    g - (refund s' - 0) = -10000 /\ cur s' 5 3 = 0 /\ orig s' 5 3 = 9.
Proof.
  destruct (sstore_net Net2200 (mk_Rules true true true true true true true true false) (New true) 5 9000 3 0)
    as (s' & g & H1 & H2 & H3 & H4); [apply New_start|by vm_compute..|].
  exists s', g. split; [exact H1|]. split; [etrans; [exact H2|by vm_compute]|]. split; [exact H3|]. rewrite H4. by vm_compute.
Defined.

End SstoreExamples.
