(* ===== verification/VmRefund.v ===== *)
(** * The refund counter never becomes negative (core/vm/gas_table.go,
    operations_acl.go)

    SSTORE takes back the refund for clearing a slot when the slot is filled
    again, and [SubRefund] panics below zero.  A comment in gas_table.go says that
    this never happens; here it is shown for all sequences of operations on the
    state within a transaction, with snapshots and reverts: the counter is always
    at least the sum of what the cleared slots may give back. *)

From stdpp Require Import gmap.
From S2P Require Import Prelude Rlp Trie AccessList StateDB StateDBProofs StateDBSnapshots StateDBObserve StateDBEffects.
From S2P Require Import Uint256 VmAnalysis VmContract VmMemory VmGas VmGasProofs VmSstore.

Section Refund.
Context {B : Backend} {BL : BackendLaws B} {U : Uint256} {UL : Uint256Laws U}.
Implicit Types (s t : StateDB) (o : stateObject).

(** ** What the operations do to slots *)

(** The slots of [b] in [t] are those of [s], or none of them was written. *)
Definition slots_at s t (b : Z) : Prop :=
  (forall j, cur t b j = cur s b j /\ orig t b j = orig s b j) \/ (forall j, cur t b j = orig t b j).

Definition slots_kept s t : Prop := forall b, slots_at s t b.

#[global] Instance slots_kept_trans : Transitive slots_kept.
Proof.
  intros s t u H K b. destruct (K b) as [Kb|Kb]; [|by right]. destruct (H b) as [Hb|Hb].
  - left. intros j. destruct (Hb j), (Kb j). split; congruence.
  - right. intros j. destruct (Kb j) as [-> ->]. apply Hb.
Qed.

Lemma slots_kept_same s t : same_slots s t -> slots_kept s t.
Proof. intros H b. left. apply H. Qed.

Lemma slots_kept_accounts s t : (forall b, same_account t s b) -> slots_kept s t.
Proof. intros H. by apply slots_kept_same, same_slots_accounts. Qed.

Lemma slots_kept_quiet s t : quiet s t -> slots_kept s t.
Proof. intros Q. apply slots_kept_accounts. intros b. by apply same_quiet. Qed.

Lemma slots_live s a o : live s a = Some o -> forall j, cur s a j = state_of s o j /\ orig s a j = committed s o j.
Proof.
  intros H j. unfold cur, orig. destruct (getters s a j) as (_ & _ & _ & _ & _ & _ & _ & _ & -> & ->). by rewrite H.
Qed.

Lemma fresh_settled t a : live t a = Some (freshObject a) -> forall j, cur t a j = orig t a j.
Proof. intros H j. destruct (slots_live _ _ _ H j) as [-> ->]. by rewrite state_committed. Qed.

Lemma dead_settled s a j : live s a = None -> cur s a j = orig s a j.
Proof. intros E. unfold cur, orig. destruct (getters s a j) as (_ & _ & _ & _ & _ & _ & _ & _ & -> & ->). by rewrite E. Qed.

(** An account that is not in memory. *)
Lemma unloaded_settled s a j : stateObjects s !! a = None -> cur s a j = orig s a j.
Proof.
  intros El. destruct (live s a) as [o|] eqn:E; [|by apply dead_settled].
  destruct (slots_live _ _ _ E j) as [-> ->]. rewrite state_committed. unfold live, look in E. rewrite El in E. unfold loaded in E.
  destruct (_ ≫= _) as [p|] eqn:Ep in E; [|done]. apply bind_Some in Ep as (d & _ & [= <-]). cbn in E. by injection E as <-.
Qed.

Lemma New_settled sn a j : cur (New sn) a j = orig (New sn) a j.
Proof. apply unloaded_settled, lookup_empty. Qed.

Lemma GetOrNewStateObject_slots s a :
  wf s -> exists o t, GetOrNewStateObject s a = (o, t) /\ wf t /\ stateObjects t !! a = Some o /\ deleted o = false /\
    slots_kept s t.
Proof.
  intros W. destruct (GetOrNewStateObject_frame s a W) as (o & t & E & Wt & Hl & Hd & Ho & Hb).
  exists o, t. do 4 (split; [done|]). intros b. destruct (decide (b = a)) as [->|Hne].
  - assert (Hv : live t a = Some o) by (unfold live; by rewrite (look_live _ _ _ Hl), Hd).
    destruct (live s a) as [p|] eqn:Ep.
    + left. intros j. destruct (slots_live _ _ _ Hv j) as [-> ->], (slots_live _ _ _ Ep j) as [-> ->]. split; apply Ho.
    + right. subst o. by apply fresh_settled.
  - left. intros j. split; [by apply same_state, Hb|by apply same_committed, Hb].
Qed.

(** Replacing an object by one with the same slots. *)
Lemma set_slots t a e o o' :
  wf t -> stateObjects t !! a = Some o -> deleted o = false -> address o' = a -> deleted o' = false ->
  (forall j, committed t o' j = committed t o j) -> (forall j, state_of t o' j = state_of t o j) ->
  slots_kept t (setStateObject (append t e) o').
Proof.
  intros W Hl Hd Ha Hd' Hc Hs. apply slots_kept_same. intros b j. destruct (decide (b = a)) as [->|Hne].
  - assert (Hv : live t a = Some o) by (unfold live; by rewrite (look_live _ _ _ Hl), Hd).
    assert (Hv' : live (setStateObject (append t e) o') a = Some o') by (by rewrite live_set, decide_True, Hd').
    destruct (slots_live _ _ _ Hv j) as [-> ->], (slots_live _ _ _ Hv' j) as [-> ->].
    split; [rewrite view_append; apply Hs|]. rewrite (committed_view _ t) by done. apply Hc.
  - assert (S : same_account (setStateObject (append t e) o') t b).
    { apply same_look; try done. rewrite look_set_ne by congruence. apply look_append. }
    split; [by apply same_state|by apply same_committed].
Qed.

Lemma with_object_slots s a (f : StateDB -> stateObject -> StateDB) :
  wf s ->
  (forall t o, wf t -> stateObjects t !! a = Some o -> address o = a -> deleted o = false -> slots_kept t (f t o)) ->
  slots_kept s (let '(o, s) := GetOrNewStateObject s a in f s o).
Proof.
  intros W Hf. destruct (GetOrNewStateObject_slots s a W) as (o & t & -> & Wt & Hl & Hd & Hk).
  transitivity t; [done|]. apply Hf; try done. by destruct (wf_obj _ Wt a o) as [? _]; [apply look_live|].
Qed.

Lemma state_same_storage t o o' :
  fakeStorage o' = fakeStorage o -> dirtyStorage o' = dirtyStorage o ->
  (forall j, committed t o' j = committed t o j) -> forall j, state_of t o' j = state_of t o j.
Proof. intros H1 H2 Hc j. by rewrite !state_committed, H1, H2, Hc. Qed.

Lemma SetBalance_kept t a o v :
  wf t -> stateObjects t !! a = Some o -> address o = a -> deleted o = false -> slots_kept t (obj_SetBalance t o v).
Proof.
  intros W Hl Ha Hd. eapply set_slots; try done; [intros; apply committed_setBalance|].
  apply state_same_storage; [done..|]. intros. apply committed_setBalance.
Qed.

Lemma SetNonce_kept t a o v :
  wf t -> stateObjects t !! a = Some o -> address o = a -> deleted o = false -> slots_kept t (obj_SetNonce t o v).
Proof.
  intros W Hl Ha Hd. eapply set_slots; try done; [intros; apply committed_setNonce|].
  apply state_same_storage; [done..|]. intros. apply committed_setNonce.
Qed.

Lemma SetCode_kept t a o h c :
  wf t -> stateObjects t !! a = Some o -> address o = a -> deleted o = false -> slots_kept t (obj_SetCode t o h c).
Proof.
  intros W Hl Ha Hd. unfold obj_SetCode. pose proof (Code_eqv t o) as [Ea _ _ El _ _ Ek Est].
  destruct (obj_Code o) as [pc o1]. cbn [snd] in *.
  eapply (set_slots _ a _ o); try done; cbn; try congruence.
  - intros j. by rewrite committed_setCode.
  - intros j. rewrite <- Est. apply state_same_storage; [done..|]. intros. apply committed_setCode.
Qed.

Lemma frame_kept s t :
  wf s -> stateObjects t = stateObjects s -> snap t = snap s -> snapDestructs t = snapDestructs s -> slots_kept s t.
Proof. intros. apply slots_kept_accounts. intros b. by apply same_frame. Qed.

Lemma AddBalance_kept t a o v :
  wf t -> stateObjects t !! a = Some o -> address o = a -> deleted o = false -> slots_kept t (obj_AddBalance t o v).
Proof.
  intros W Hl Ha Hd. unfold obj_AddBalance. case_decide; [|by eapply SetBalance_kept].
  destruct (empty o); apply frame_kept; try done; unfold touch; by case_decide.
Qed.

Lemma SubBalance_kept t a o v :
  wf t -> stateObjects t !! a = Some o -> address o = a -> deleted o = false -> slots_kept t (obj_SubBalance t o v).
Proof. intros W Hl Ha Hd. unfold obj_SubBalance. case_decide; [by apply frame_kept|by eapply SetBalance_kept]. Qed.

Lemma Suicide_kept s a : wf s -> slots_kept s (Suicide s a).2.
Proof.
  intros W. unfold Suicide. destruct (getStateObject_spec s a) as (s1 & -> & Q & Hl). unfold live.
  destruct (look s a) as [o|] eqn:E; [|by apply slots_kept_quiet]. destruct (deleted o) eqn:Hd; [by apply slots_kept_quiet|].
  transitivity s1; [by apply slots_kept_quiet|]. pose proof (quiet_wf _ _ W Q) as W1.
  destruct (wf_obj _ W a o E) as [Ha _]. assert (Hc : forall j, committed s1 (setBalance (markSuicided o) 0) j = committed s1 o j).
  { intros j. rewrite committed_setBalance. apply committed_flags. }
  eapply set_slots; try done. by apply state_same_storage.
Qed.

Lemma CreateAccount_kept s a : wf s -> slots_kept s (CreateAccount s a).
Proof.
  intros W b. unfold CreateAccount. destruct (createObject_frame s a W) as (t & -> & Wt & Ht & Hb).
  set (u := match live s a with Some p => _ | None => _ end).
  assert (Hu : (forall j, cur u a j = orig u a j) /\ forall e, e <> a -> same_account u s e).
  { unfold u. destruct (live s a) as [p|].
    - set (n := setBalance _ _).
      assert (Hv : live (setStateObject t n) a = Some n) by (unfold live; by rewrite look_set_eq).
      split; [intros j; destruct (slots_live _ _ _ Hv j) as [-> ->]; by rewrite state_committed|].
      intros e He. apply (same_trans s t); [|by apply Hb]. apply same_look; try done. by rewrite look_set_ne.
    - split; [apply fresh_settled; unfold live; by rewrite (look_live _ _ _ Ht)|done]. }
  destruct Hu as [H1 H2]. destruct (decide (b = a)) as [->|Hne]; [by right|left].
  intros j. split; [by apply same_state, H2|by apply same_committed, H2].
Qed.

(** ** Accounts that the journal has not marked *)

(** An account with no entry in the journal has no writes that wait for the end
    of the transaction; with an empty journal there is no refund. *)
Record marked s : Prop := {
  mk_slots : forall a k, marks_of (entries (jrnl s)) a = 0 -> cur s a k = orig s a k;
  mk_refund : entries (jrnl s) = [] -> refund s = 0
}.

Lemma undoable_marks s t a : undoable s t -> marks_of (entries (jrnl t)) a = 0 -> marks_of (entries (jrnl s)) a = 0.
Proof.
  intros (es & -> & _). rewrite marks_of_app. pose proof (marks_of_nonneg (entries (jrnl s)) a). pose proof (marks_of_nonneg es a). lia.
Qed.

Lemma undoable_refund s t : undoable s t -> entries (jrnl t) = [] -> entries (jrnl s) = [] /\ refund t = refund s.
Proof.
  intros (es & E & u & R & Q) Et. rewrite Et in E. symmetry in E. apply app_nil in E as [E ->]. split; [done|].
  injection R as <-. apply (eqv_refund _ _ Q).
Qed.

Lemma undoable_no_refund s t : undoable s t -> marked s -> entries (jrnl t) = [] -> refund t = 0.
Proof. intros Un M Et. destruct (undoable_refund _ _ Un Et) as [E ->]. by apply M. Qed.

Lemma marked_kept s t : undoable s t -> slots_kept s t -> marked s -> marked t.
Proof.
  intros Un Hk M. split; [|by apply (undoable_no_refund s)]. intros a k Ha. apply (undoable_marks s) in Ha; [|done].
  destruct (Hk a) as [K|K]; [|apply K]. destruct (K k) as [-> ->]. by apply M.
Qed.

Lemma marked_eqv s t : eqv t s -> entries (jrnl t) = entries (jrnl s) -> marked s -> marked t.
Proof.
  intros H E [M1 M2]. split; rewrite E; [|rewrite (eqv_refund _ _ H); done]. intros a k Ha. specialize (M1 a k Ha).
  assert (S : same_account t s a) by apply live_eqv, H. unfold cur, orig in *. by rewrite (same_state _ _ _ _ S), (same_committed _ _ _ _ S).
Qed.

Lemma marked_SetState s a k v : wf s -> marked s -> marked (SetState s a k v).
Proof.
  intros W M. unfold SetState. destruct (GetOrNewStateObject_spec s a W) as (o & t & E & O & Wt & Hl & Hd).
  assert (Mt : marked t).
  { apply (marked_kept s); [apply O| |done]. destruct (GetOrNewStateObject_slots s a W) as (o' & t' & E' & _ & _ & _ & Hk).
    rewrite E in E'. by injection E' as <- <-. }
  rewrite E. destruct (wf_obj _ Wt a o) as [Ha Hf]; [by apply look_live|].
  destruct (SetState_object t a o k v Wt Hl Hd) as (o' & _ & _ & _ & Hb). pose proof (SetState_op _ _ _ Wt Hl Hd k v) as Ou.
  split; [|apply (undoable_no_refund t); [apply Ou|done]]. intros b j.
  destruct (decide (b = a)) as [->|Hne].
  - unfold obj_SetState in *. rewrite Hf in *. pose proof (GetState_eqv t o k) as H1.
    destruct (obj_GetState t o k) as [pv o1]. cbn [snd] in H1. pose proof H1 as [E1 E2 E3 E4 E5 E6 E7 E8]. case_decide.
    + apply (marked_kept t); [apply Ou| |done]. apply slots_kept_quiet, (setStateObject_quiet _ o); [|done].
      rewrite Ha. by apply look_live.
    + change (jrnl (setStateObject (append t ?e) _)) with (journal_append (jrnl t) e).
      rewrite entries_append, marks_of_app, marks_of_one. cbn [dirtied]. rewrite E1, Ha, decide_True by done.
      pose proof (marks_of_nonneg (entries (jrnl t)) a). lia.
  - intros Hm%(undoable_marks t); [|apply Ou]. specialize (mk_slots _ Mt b j Hm) as Mb. specialize (Hb b Hne).
    unfold cur, orig in *. by rewrite (same_state _ _ _ _ Hb), (same_committed _ _ _ _ Hb).
Qed.

(** The calls that do not touch the counter or write a slot. *)
Definition plain (c : call) : bool :=
  match c with
  | CSetState _ _ _ | CAddRefund _ | CSubRefund _ | CSnapshot | CRevertToSnapshot _ => false
  | _ => true
  end.

Lemma read_kept s a {A} (g : option stateObject -> A) :
  slots_kept s (let '(so, s) := getStateObject s a in (g so, s)).2.
Proof. destruct (getStateObject_spec s a) as (s1 & -> & Q & _). by apply slots_kept_quiet. Qed.

Lemma read_refund s a {A} (g : option stateObject -> A) :
  refund (let '(so, s) := getStateObject s a in (g so, s)).2 = refund s.
Proof. pose proof (getStateObject_refund s a). by destruct (getStateObject s a). Qed.

Lemma quiet_refund s t : quiet s t -> refund t = refund s.
Proof. intros Q. apply Q. Qed.

Lemma plain_kept s c s' : wf s -> plain c = true -> exec s c = Ret s' -> slots_kept s s'.
Proof.
  intros W Hc. destruct c; try done; cbn [exec]; try (intros [= <-]).
  - by apply CreateAccount_kept.
  - apply with_object_slots; [done|]. intros. by eapply AddBalance_kept.
  - apply with_object_slots; [done|]. intros. by eapply SubBalance_kept.
  - apply with_object_slots; [done|]. intros. by eapply SetBalance_kept.
  - apply with_object_slots; [done|]. intros. by eapply SetNonce_kept.
  - apply with_object_slots; [done|]. intros. by eapply SetCode_kept.
  - by apply Suicide_kept.
  - by apply frame_kept.
  - unfold AddPreimage. destruct (preimages s !! h); by apply frame_kept.
  - unfold AddAddressToAccessList. destruct (AddAddress (access s) a) as [[|] al]; by apply frame_kept.
  - intros E. destruct (refunded_access s a slot W) as (t & E' & Ht). rewrite E in E'. injection E' as <-.
    apply slots_kept_accounts, Ht.
  - apply read_kept.
  - apply read_kept.
  - apply read_kept.
  - apply read_kept.
  - apply read_kept.
  - apply read_kept.
  - apply slots_kept_quiet, (read_object_quiet _ a (fun _ => obj_Code)); [done|]. intros; apply Code_eqv.
  - apply slots_kept_quiet, (read_object_quiet _ a (fun _ => obj_CodeSize)); [done|]. intros; apply CodeSize_eqv.
  - apply slots_kept_quiet, (read_object_quiet _ a (fun s o => obj_GetState s o k)); [done|]. intros; apply GetState_eqv.
  - apply slots_kept_quiet, (read_object_quiet _ a (fun s o => obj_GetCommittedState s o k)); [done|].
    intros; apply GetCommittedState_eqv.
Qed.

Lemma plain_refund s c s' : wf s -> plain c = true -> exec s c = Ret s' -> refund s' = refund s.
Proof.
  intros W Hc. destruct c; try done; cbn [exec]; try (intros [= <-]).
  - unfold CreateAccount. pose proof (createObject_refund s a) as H. destruct (createObject s a) as [[n p] u].
    cbn in H. by destruct p.
  - apply with_object_refund. intros t o. unfold obj_AddBalance, touch. by repeat case_match.
  - apply with_object_refund. intros t o. unfold obj_SubBalance. by repeat case_match.
  - by apply with_object_refund.
  - by apply with_object_refund.
  - apply with_object_refund. intros t o. unfold obj_SetCode. by destruct (obj_Code o).
  - unfold Suicide. pose proof (getStateObject_refund s a) as H. destruct (getStateObject s a) as [[o|] t]; done.
  - done.
  - unfold AddPreimage. by destruct (preimages s !! h).
  - unfold AddAddressToAccessList. by destruct (AddAddress (access s) a) as [[|] al].
  - intros E. destruct (refunded_access s a slot W) as (t & E' & Ht). rewrite E in E'. injection E' as <-.
    rewrite (rf_refund _ _ _ Ht). lia.
  - apply read_refund.
  - apply read_refund.
  - apply read_refund.
  - apply read_refund.
  - apply read_refund.
  - apply read_refund.
  - apply quiet_refund, (read_object_quiet _ a (fun _ => obj_Code)); [done|]. intros; apply Code_eqv.
  - apply quiet_refund, (read_object_quiet _ a (fun _ => obj_CodeSize)); [done|]. intros; apply CodeSize_eqv.
  - apply quiet_refund, (read_object_quiet _ a (fun s o => obj_GetState s o k)); [done|]. intros; apply GetState_eqv.
  - apply quiet_refund, (read_object_quiet _ a (fun s o => obj_GetCommittedState s o k)); [done|].
    intros; apply GetCommittedState_eqv.
Qed.

(** ** The counter covers what is owed *)

Definition owed_at (p : schedule) s (x : Z * Z) : Z := owed p (orig s x.1 x.2) (cur s x.1 x.2).

Definition total (p : schedule) s (l : list (Z * Z)) : Z := foldr (fun x acc => owed_at p s x + acc) 0 l.

(** For any set of slots. *)
Definition covered (p : schedule) s : Prop := forall l, NoDup l -> total p s l <= refund s.

Lemma owed_nonneg p (o c : Z) : 0 <= sch_clear p -> 0 <= owed p o c.
Proof. intros. unfold owed. case_decide; lia. Qed.

Lemma total_mono p s t l : (forall x, owed_at p t x <= owed_at p s x) -> total p t l <= total p s l.
Proof. intros H. unfold total. induction l as [|x l IH]; cbn [foldr]; [lia|]. specialize (H x). lia. Qed.

Lemma covered_kept p s t : 0 <= sch_clear p -> slots_kept s t -> refund s <= refund t -> covered p s -> covered p t.
Proof.
  intros Hp Hk Hr H l Hl. specialize (H l Hl). enough (total p t l <= total p s l) by lia. apply total_mono.
  intros [b j]. unfold owed_at. cbn. destruct (Hk b) as [E|E].
  - destruct (E j) as [-> ->]. lia.
  - rewrite E. pose proof (owed_nonneg p (orig s b j) (cur s b j) Hp).
    unfold owed at 1. rewrite decide_False; [lia|]. intros [? ?]. lia.
Qed.

Lemma covered_eqv p s t : 0 <= sch_clear p -> eqv t s -> covered p s -> covered p t.
Proof.
  intros Hp H. apply covered_kept; [done| |by rewrite (eqv_refund _ _ H)]. apply slots_kept_accounts. intros b.
  by apply live_eqv.
Qed.

(** One write, in a state where the counter covers what is owed. *)
Lemma total_write p s t a k d l :
  (forall b j, b <> a \/ j <> k -> cur t b j = cur s b j) -> (forall b j, orig t b j = orig s b j) ->
  owed_at p t (a, k) <= owed_at p s (a, k) + d ->
  NoDup l -> total p t l <= total p s l + (if decide ((a, k) ∈ l) then d else 0).
Proof.
  intros Hc Ho Hd. induction l as [|x l IH]; intros Hl; cbn [total foldr].
  { rewrite decide_False by set_solver. lia. }
  inversion Hl as [|? ? Hx Hl']; subst. specialize (IH Hl'). unfold total in IH. destruct (decide (x = (a, k))) as [->|Hne].
  - rewrite decide_False in IH by done. rewrite decide_True by set_solver. lia.
  - assert (E : owed_at p t x = owed_at p s x).
    { destruct x as [b j]. unfold owed_at. cbn. rewrite Ho, Hc; [done|].
      destruct (decide (b = a)); [right|by left]. congruence. }
    rewrite E. destruct (decide ((a, k) ∈ l)); [rewrite decide_True by set_solver|rewrite decide_False by set_solver]; lia.
Qed.

Lemma covered_write p s t a k v :
  let o := orig s a k in let c := cur s a k in
  0 <= sch_sload p <= sch_reset p -> sch_reset p <= sch_set p -> 0 <= sch_clear p ->
  (forall b j, b <> a \/ j <> k -> cur t b j = cur s b j) -> (forall b j, orig t b j = orig s b j) -> cur t a k = v ->
  refund t = refund s + net_refund p o c v -> covered p s -> covered p t.
Proof.
  intros o c H1 H2 H3 Hc Ho Hv Hr H l Hl. pose proof (net_refund_owed p o c v H1 H2) as Hn.
  pose proof (total_write p s t a k (net_refund p o c v) l Hc Ho) as T. destruct (decide ((a, k) ∈ l)) as [Hin|Hin].
  - specialize (H l Hl). enough (total p t l <= total p s l + net_refund p o c v) by lia. apply T; [|done].
    unfold owed_at. cbn. rewrite Ho, Hv. fold o c. lia.
  - assert (Hl' : NoDup ((a, k) :: l)) by (constructor; done). specialize (H _ Hl').
    change (owed p o c + total p s l <= refund s) in H. enough (total p t l <= total p s l).
    { pose proof (owed_nonneg p o v H3). lia. }
    rewrite <- (Z.add_0_r (total p s l)). apply T; [|done]. unfold owed_at. cbn. rewrite Ho, Hv. fold o c. lia.
Qed.

(** ** Running a transaction *)

(** What the interpreter and the EVM do to the state: plain calls, snapshots and
    reverts; SSTORE; SSTORE whose gas is not available, which ends the call and
    reverts it; and the refund of SELFDESTRUCT. *)
Inductive step :=
  | Do (c : call)
  | Sstore (a gas k v : Z)
  | SstoreFails (a gas k v id : Z)
  | Selfdestruct.

Definition exec_step (m : metering) (r : Rules) s (x : step) : outcome Empty_set StateDB :=
  match x with
  | Do c => exec s c
  | Sstore a gas k v => res ← sstore m r s a gas k v; Ret res.1
  | SstoreFails a gas k v id =>
      res ← gas_function m 0 (mk_frame r s 0 (NewContract a a None 0 gas) [v; k] NewMemory [] 0 0 false []);
      RevertToSnapshot (db res.1) id
  | Selfdestruct => exec s (CAddRefund SelfdestructRefundGas)
  end.

(** The contract that runs exists, is in the access list where there is one, and
    has the gas of the sentry; snapshots are reverted while they are valid. *)
Definition enabled (m : metering) (r : Rules) s (x : step) : Prop :=
  match x with
  | Do (CRevertToSnapshot id) => valid s id
  | Do CSnapshot => True
  | Do c => plain c = true
  | Sstore a gas k v => (Exist s a).1 = true /\ is_u256 k /\ is_u256 v /\ metered m r s a gas
  | SstoreFails a gas k v id => is_u256 k /\ is_u256 v /\ metered m r s a gas /\ valid s id
  | Selfdestruct => True
  end.

Inductive trace (m : metering) (r : Rules) s : list step -> StateDB -> Prop :=
  | trace_nil : trace m r s [] s
  | trace_snoc l x t u : trace m r s l t -> enabled m r t x -> exec_step m r t x = Ret u -> trace m r s (l ++ [x]) u.

(** The invariant, of the state and of every state that a revert may restore.
    No step adds more than [step_refund] to the counter. *)
Definition step_refund : Z := 40000.

Definition good (p : schedule) (n : Z) s : Prop := covered p s /\ refund s <= step_refund * n.

Lemma covered_nonneg p s : covered p s -> 0 <= refund s.
Proof. intros H. apply (H [] (NoDup_nil_2)). Qed.

Lemma schedule_bounds m : let p := schedule_of m in
  0 <= sch_sload p <= sch_reset p /\ sch_reset p <= sch_set p /\ 0 <= sch_clear p /\ sch_set p + sch_clear p <= step_refund.
Proof. destruct m; cbv; intuition discriminate. Qed.

Lemma net_refund_le p (o c v : Z) :
  0 <= sch_sload p <= sch_reset p -> sch_reset p <= sch_set p -> 0 <= sch_clear p ->
  net_refund p o c v <= sch_set p + sch_clear p.
Proof. intros. unfold net_refund. repeat case_decide; lia. Qed.

Lemma good_room m n s : good (schedule_of m) n s -> step_refund * (n + 1) < 2 ^ 64 -> room (schedule_of m) (refund s).
Proof.
  intros [H1 H2] Hn. pose proof (schedule_bounds m) as B1. pose proof (covered_nonneg _ _ H1). cbv zeta in B1.
  unfold room. lia.
Qed.

Lemma good_owed p n s a k : good p n s -> owed p (orig s a k) (cur s a k) <= refund s.
Proof. intros [H _]. specialize (H [(a, k)] (NoDup_singleton _)). cbn in H. unfold owed_at in H. cbn in H. lia. Qed.

Lemma good_eqv m n s t : eqv t s -> good (schedule_of m) n s -> good (schedule_of m) n t.
Proof.
  intros Q [H1 H2]. split; [|by rewrite (eqv_refund _ _ Q)]. eapply covered_eqv; [apply schedule_bounds|done..].
Qed.

Lemma good_mono p n n' s : n <= n' -> good p n s -> good p n' s.
Proof. intros Hn [H1 H2]. split; [done|]. unfold step_refund in *. lia. Qed.

Definition invariant (m : metering) (n : Z) s : Prop :=
  exists st, chain st s /\ good (schedule_of m) n s /\ Forall (fun x => good (schedule_of m) n x.2) st.

Lemma ghosts_mono p (n n' : Z) (st : list (revision * StateDB)) :
  n <= n' -> Forall (fun x => good p n x.2) st -> Forall (fun x => good p n' x.2) st.
Proof. intros Hn. apply Forall_impl. intros x. by apply good_mono. Qed.

Lemma good_plain m n s c t :
  wf s -> plain c = true -> exec s c = Ret t -> good (schedule_of m) n s -> good (schedule_of m) n t.
Proof.
  intros W Hc E [H1 H2]. pose proof (plain_refund _ _ _ W Hc E) as R. split; [|lia].
  eapply covered_kept; [apply schedule_bounds|by eapply plain_kept|lia|done].
Qed.

(** A revert to a valid snapshot. *)
Lemma revert_invariant m n st s id :
  chain st s -> Forall (fun x => good (schedule_of m) n x.2) st -> valid s id ->
  exists t, RevertToSnapshot s id = Ret t /\ invariant m n t.
Proof.
  intros C G Hv. destruct (valid_chain _ _ _ C Hv) as (pre & rv & g & rs & -> & <-).
  destruct (RevertToSnapshot_chain _ _ _ _ _ C) as (t & E & Q & _ & _ & _ & Ct). exists t. split; [done|].
  apply Forall_app in G as [_ G]. inversion G as [|? ? Gg Grs]; subst. exists rs. split; [done|]. split; [|done].
  by apply (good_eqv m n g).
Qed.

(** The state after the gas function, before the write. *)
Lemma charge_chain m r n st s a gas k v :
  chain st s -> is_u256 k -> is_u256 v -> metered m r s a gas -> good (schedule_of m) n s ->
  step_refund * (n + 1) < 2 ^ 64 ->
  exists f g, gas_function m 0 (mk_frame r s 0 (NewContract a a None 0 gas) [v; k] NewMemory [] 0 0 false []) = Ret (f, inr g) /\
    chain st (db f).
Proof.
  intros C Hk Hv Hm G Hn. pose proof (chain_wf _ _ C) as W.
  destruct (gas_function_runs m r s a gas k v W Hk Hv Hm (good_room _ _ _ G Hn) (good_owed _ _ _ _ _ G)) as (t & E & Ht).
  eexists _, _. split; [exact E|]. cbn. eapply chain_op; [done|]. apply Ht.
Qed.

Lemma sstore_invariant m r n s a gas k v :
  invariant m n s -> enabled m r s (Sstore a gas k v) -> step_refund * (n + 1) < 2 ^ 64 ->
  exists t, exec_step m r s (Sstore a gas k v) = Ret t /\ invariant m (n + 1) t.
Proof.
  intros (st & C & G & Gs) (He & Hk & Hv & Hm) Hn. pose proof (chain_wf _ _ C) as W.
  pose proof (schedule_bounds m) as (B1 & B2 & B3 & B4).
  destruct (sstore_spec m r s a gas k v W He Hk Hv Hm (good_room _ _ _ G Hn) (good_owed _ _ _ _ _ G))
    as (t & E & Wt & R & H1 & H2 & H3).
  destruct (charge_chain m r n st s a gas k v C Hk Hv Hm G Hn) as (f & g & Ef & Cf).
  exists t. cbn [exec_step]. rewrite E. split; [done|]. exists st. split; [|split].
  - unfold sstore in E. rewrite Ef in E. cbn in E. injection E as <- _. eapply chain_op; [done|].
    apply (call_op (db f) (CSetState a _ _)); [by apply chain_wf in Cf|done].
  - split; [eapply covered_write; [done..|apply G]|]. destruct G as [_ G]. rewrite R.
    pose proof (net_refund_le (schedule_of m) (orig s a k) (cur s a k) v B1 B2 B3). lia.
  - eapply ghosts_mono; [|done]. lia.
Qed.

Lemma do_invariant m r n s c :
  0 <= n -> invariant m n s -> enabled m r s (Do c) -> exists t, exec s c = Ret t /\ invariant m n t.
Proof.
  intros Hn (st & C & G & Gs) He. pose proof (chain_wf _ _ C) as W. destruct (plain c) eqn:Hc.
  - assert (Hs : snapshotting c = false) by (by destruct c). pose proof (call_op s c W Hs) as O.
    destruct (exec s c) as [t|e|] eqn:E; [|destruct O as (g & -> & _); done..].
    exists t. split; [done|]. exists st. split; [by eapply chain_op|]. split; [by eapply good_plain|done].
  - destruct c; try done.
    + eexists. split; [done|]. exists ((mk_revision (nextRevisionId s) (zlen (entries (jrnl s))), s) :: st).
      split; [by apply chain_Snapshot|]. split; [|by constructor].
      destruct G as [G1 G2]. split; [|done]. apply (covered_kept _ s); [apply schedule_bounds| |done..].
      apply slots_kept_accounts. intros b. by apply same_frame.
    + by eapply revert_invariant.
Qed.

Lemma step_invariant m r n s x :
  0 <= n -> invariant m n s -> enabled m r s x -> step_refund * (n + 1) < 2 ^ 64 ->
  exists t, exec_step m r s x = Ret t /\ invariant m (n + 1) t.
Proof.
  intros H0 I He Hn. destruct x as [c|a gas k v|a gas k v id|].
  - destruct (do_invariant m r n s c H0 I He) as (t & E & st & C & G & Gs). exists t. split; [done|].
    exists st. split; [done|]. split; [eapply good_mono, G; lia|eapply ghosts_mono, Gs; lia].
  - by apply sstore_invariant.
  - destruct He as (Hk & Hv & Hm & Hid), I as (st & C & G & Gs).
    destruct (charge_chain m r n st s a gas k v C Hk Hv Hm G Hn) as (f & g & Ef & Cf). cbn [exec_step]. rewrite Ef. cbn.
    apply (revert_invariant m (n + 1) st); [done|eapply ghosts_mono, Gs; lia|].
    unfold valid. by rewrite (chain_revisions _ _ Cf), <- (chain_revisions _ _ C).
  - destruct I as (st & C & [G1 G2] & Gs). pose proof (chain_wf _ _ C) as W. eexists. split; [done|].
    assert (E : u64 (refund s + SelfdestructRefundGas) = refund s + SelfdestructRefundGas).
    { apply u64_id. pose proof (covered_nonneg _ _ G1). unfold is_u64, step_refund, SelfdestructRefundGas in *. lia. }
    exists st. split; [apply (chain_op st s); [done|]; by apply (call_op s (CAddRefund SelfdestructRefundGas))|].
    split; [|eapply ghosts_mono, Gs; lia]. split; cbn; rewrite ?E.
    + apply (covered_kept _ s); [apply schedule_bounds| |cbn; rewrite E; unfold SelfdestructRefundGas; lia|done].
      apply slots_kept_accounts. intros b. by apply same_frame.
    + unfold step_refund, SelfdestructRefundGas in *. lia.
Qed.

Lemma trace_invariant m r s l t :
  invariant m 0 s -> trace m r s l t -> step_refund * zlen l < 2 ^ 64 -> invariant m (zlen l) t.
Proof.
  intros I T. induction T as [|l x t u T IH He E]; intros Hl; [done|].
  unfold zlen in *. rewrite length_app in *. cbn in *. rewrite Nat2Z.inj_add in *. cbn in *.
  destruct (step_invariant m r (Z.of_nat (length l)) t x) as (u' & E' & Iu); [lia| |done|lia|].
  - apply IH. unfold step_refund in *. lia.
  - rewrite E in E'. by injection E' as <-.
Qed.

(** C18: In a transaction, the refund counter never goes below 0, which is the
    panic of [SubRefund] and which gas_table.go claims: started with a settled
    storage and an empty counter, any sequence of writes, calls, snapshots and
    reverts can be continued with any enabled step.  The transaction has to be
    shorter than the [2^64 / 40000] steps after which the counter might wrap. *)
Theorem refund_never_negative m r s0 l s x :
  start s0 -> refund s0 = 0 -> (forall a k, cur s0 a k = orig s0 a k) ->
  trace m r s0 l s -> enabled m r s x -> step_refund * (zlen l + 1) < 2 ^ 64 ->
  0 <= refund s /\ exists s', exec_step m r s x = Ret s'.
Proof.
  intros S R0 Hs T He Hl. pose proof (start_chain _ S) as C.
  assert (I : invariant m 0 s0).
  { exists []. split; [done|]. split; [|constructor]. split; [|lia]. intros l' _. rewrite R0.
    induction l' as [|[b j] l' IH]; [done|]. unfold total. cbn [foldr]. fold (total (schedule_of m) s0 l').
    unfold owed_at at 1, owed. cbn. rewrite Hs, decide_False; lia. }
  pose proof (trace_invariant m r s0 l s I T ltac:(unfold step_refund in *; lia)) as Is. split.
  - destruct Is as (st & _ & [G _] & _). by eapply covered_nonneg.
  - destruct (step_invariant m r (zlen l) s x) as (s' & E & _); [unfold zlen; lia|done..|]. by exists s'.
Qed.

End Refund.

Module RefundExamples.
Import SnapExamples ZUint256.
#[local] Existing Instance ex_backend.
#[local] Existing Instance z_uint256.

(** Slot 3 of the contract is cleared, and refilled, which takes the refund back. *)
Definition rf_rules : Rules := mk_Rules true true true true true true true true false.
Definition rf_s1 : StateDB := or_else (New true) (exec_step Net2200 rf_rules (New true) (Do CSnapshot)).
Definition rf_s2 : StateDB := or_else (New true) (exec_step Net2200 rf_rules rf_s1 (Sstore 5 9000 3 0)).

Lemma rf_trace : trace Net2200 rf_rules (New true) [Do CSnapshot; Sstore 5 9000 3 0] rf_s2.
Proof.
  apply (trace_snoc _ _ _ [Do CSnapshot] _ rf_s1); [|by vm_compute|by vm_compute].
  by apply (trace_snoc _ _ _ [] _ (New true)); [constructor|..].
Qed.

Lemma refund_never_negative_witness :
  refund rf_s2 = SstoreClearsScheduleRefundEIP2200 /\
  0 <= refund rf_s2 /\ exists s', exec_step Net2200 rf_rules rf_s2 (Sstore 5 9000 3 8) = Ret s'.
Proof.
  split; [by vm_compute|].
  apply (refund_never_negative Net2200 rf_rules (New true) [Do CSnapshot; Sstore 5 9000 3 0]).
  - apply New_start.
  - reflexivity.
  - apply New_settled.
  - apply rf_trace.
  - by vm_compute.
  - by vm_compute.
Defined.

End RefundExamples.
