(* ===== verification/VmSupply.v ===== *)
(** * What the operations do to balances (core/state/statedb.go)

    [supply] adds up the balances of a list of accounts.  A transfer and a
    self-destruction as the virtual machine performs them are [thrifty]: they do
    not raise the supply and make no balance negative; every other operation
    leaves all balances as they are. *)

From stdpp Require Import gmap.
From S2P Require Import Prelude Rlp Trie AccessList StateDB StateDBProofs StateDBSnapshots StateDBObserve StateDBEffects.
From S2P Require Import Uint256 VmAnalysis VmContract VmMemory VmGas VmGasProofs VmSstore VmRefund.

Section Supply.
Context {B : Backend} {BL : BackendLaws B}.
Implicit Types (s t u : StateDB) (o : stateObject) (l : list Z).

(** ** The supply *)

Fixpoint supply l s : Z :=
  match l with
  | [] => 0
  | a :: l => balance s a + supply l s
  end.

(** No balance is negative. *)
Definition solvent s : Prop := forall a, 0 <= balance s a.

(** On all lists that have some accounts, the supply does not grow. *)
Definition spends s t : Prop := exists l0, forall l, NoDup l -> l0 ⊆ l -> supply l t <= supply l s.

Definition thrifty s t : Prop := solvent s -> solvent t /\ spends s t.

#[global] Instance spends_refl : Reflexive spends.
Proof. intros s. by exists []. Qed.

#[global] Instance spends_trans : Transitive spends.
Proof.
  intros s t u [l1 H1] [l2 H2]. exists (l1 ++ l2). intros l Hl Hs. etrans; [apply H2|apply H1]; set_solver.
Qed.

#[global] Instance thrifty_refl : Reflexive thrifty.
Proof. by intros s H. Qed.

#[global] Instance thrifty_trans : Transitive thrifty.
Proof. intros s t u H K Hs. destruct (H Hs) as [Ht H1]. destruct (K Ht) as [Hu H2]. split; [done|by etrans]. Qed.

Lemma supply_ext l s t : (forall a, balance t a = balance s a) -> supply l t = supply l s.
Proof. intros H. induction l as [|a l IH]; cbn; [done|]. by rewrite H, IH. Qed.

Lemma thrifty_eq s t : (forall a, balance t a = balance s a) -> thrifty s t.
Proof. intros H Hs. split; [intros a; rewrite H; apply Hs|]. exists []. intros l _ _. by rewrite (supply_ext l s t). Qed.

(** A change of one balance, on a list that has the account. *)
Lemma supply_change l s t a d :
  NoDup l -> a ∈ l -> (forall b, balance t b = balance s b + if decide (b = a) then d else 0) -> supply l t = supply l s + d.
Proof.
  intros Hnd Ha H. induction Hnd as [|b l Hb Hnd IH]; [by apply elem_of_nil in Ha|]. cbn. rewrite H.
  apply elem_of_cons in Ha as [->|Ha].
  - rewrite decide_True by done. assert (E : supply l t = supply l s); [|lia]. clear IH Hnd.
    induction l as [|x l IH]; cbn; [done|]. rewrite H, decide_False by set_solver. rewrite IH by set_solver. lia.
  - rewrite IH by done. rewrite decide_False by (intros ->; done). lia.
Qed.

(** ** Operations that leave the balances *)

Lemma balance_quiet s t a : quiet s t -> balance t a = balance s a.
Proof. intros Q. by apply balance_same, same_quiet. Qed.

Lemma balance_eqv s t a : eqv t s -> balance t a = balance s a.
Proof. intros H. by apply balance_same, live_eqv. Qed.

Lemma balance_frame s t a :
  wf s -> stateObjects t = stateObjects s -> snap t = snap s -> snapDestructs t = snapDestructs s -> balance t a = balance s a.
Proof. intros. by apply balance_same, same_frame. Qed.

Lemma balance_read s a {A} (g : option stateObject -> A) b :
  balance (let '(so, s) := getStateObject s a in (g so, s)).2 b = balance s b.
Proof. destruct (getStateObject_spec s a) as (s1 & -> & Q & _). by apply balance_quiet. Qed.

(** An operation on an object that keeps its balance. *)
Lemma balance_neutral s a b (f : StateDB -> stateObject -> StateDB) :
  wf s ->
  (forall t o, wf t -> stateObjects t !! a = Some o -> deleted o = false -> address o = a -> balance (f t o) b = balance t b) ->
  balance (let '(o, s) := GetOrNewStateObject s a in f s o) b = balance s b.
Proof.
  intros W Hf. destruct (GetOrNewStateObject_frame s a W) as (o & t & -> & Wt & Hl & Hd & Ho & Hb).
  destruct (wf_obj _ Wt a o) as [Ha _]; [by apply look_live|]. rewrite Hf by done. destruct (decide (b = a)) as [->|].
  - rewrite (balance_live _ _ _ Hl Hd). by rewrite (balance_found t s a).
  - by apply balance_same, Hb.
Qed.

Lemma balance_set_same t e a o o' b :
  stateObjects t !! a = Some o -> deleted o = false -> address o' = a -> deleted o' = false -> Balance (data o') = Balance (data o) ->
  balance (setStateObject (append t e) o') b = balance t b.
Proof.
  intros Hl Hd Ha Hd' Hb. unfold balance at 1. rewrite live_set, Ha. destruct (decide (b = a)) as [->|]; [|done].
  rewrite Hd', Hb. by rewrite (balance_live _ _ _ Hl Hd).
Qed.

Lemma SetNonce_balance s a v b : wf s -> balance (SetNonce s a v) b = balance s b.
Proof. intros W. apply balance_neutral; [done|]. intros t o _ Hl Hd Ha. by eapply balance_set_same. Qed.

Lemma SetCode_balance s a c b : wf s -> balance (SetCode s a c) b = balance s b.
Proof.
  intros W. apply balance_neutral; [done|]. intros t o _ Hl Hd Ha. unfold obj_SetCode.
  pose proof (Code_eqv t o) as [Ea Ed _ El _ _ _ _]. destruct (obj_Code o) as [pc o1]. cbn [snd] in *.
  eapply balance_set_same; [done|done|cbn; congruence|cbn; congruence|cbn; by rewrite Ed].
Qed.

Lemma SetState_balance s a k v b : wf s -> balance (SetState s a k v) b = balance s b.
Proof.
  intros W. apply balance_neutral; [done|]. intros t o Wt Hl Hd Ha. destruct (wf_obj _ Wt a o) as [_ Hf]; [by apply look_live|].
  unfold obj_SetState. rewrite Hf. pose proof (GetState_eqv t o k) as [Ea Ed _ El _ _ _ _].
  destruct (obj_GetState t o k) as [pv o1]. cbn [snd] in *. case_decide.
  - unfold balance, live. rewrite look_set. destruct (decide (b = address o1)) as [->|]; [|done].
    rewrite Ea, Ha, (look_live _ _ _ Hl), El, Hd. by rewrite Ed.
  - eapply balance_set_same; [done|done|cbn; congruence|cbn; congruence|cbn; by rewrite Ed].
Qed.

Lemma CreateAccount_balance s a b : wf s -> balance (CreateAccount s a) b = balance s b.
Proof.
  intros W. unfold CreateAccount. destruct (createObject_frame s a W) as (t & -> & Wt & Ht & Hb).
  destruct (decide (b = a)) as [->|Hne].
  - unfold balance at 2. destruct (live s a) as [p|]; unfold balance, live.
    + rewrite look_set_eq by done. done.
    + by rewrite (look_live _ _ _ Ht).
  - transitivity (balance t b); [|by apply balance_same, Hb]. destruct (live s a); [|done]. unfold balance, live. by rewrite look_set_ne.
Qed.

Lemma Suicide_balance s a b : wf s -> balance (Suicide s a).2 b = if decide (b = a) then 0 else balance s b.
Proof.
  intros W. unfold Suicide. destruct (getStateObject_spec s a) as (s1 & -> & Q & Hl).
  assert (E0 : live s a = None -> balance s a = 0) by (unfold balance; by intros ->).
  destruct (live s a) as [o|] eqn:E.
  - unfold live in E. destruct (look s a) as [q|] eqn:Eq; [|done]. destruct (deleted q) eqn:Hd; [done|]. injection E as ->.
    destruct (wf_obj _ W a o Eq) as [Ha _]. cbn [snd]. unfold balance at 1. rewrite live_set. cbn. rewrite Ha, Hd.
    destruct (decide (b = a)); [done|]. by apply balance_quiet.
  - cbn [snd]. rewrite (balance_quiet _ _ _ Q). destruct (decide (b = a)) as [->|]; [by apply E0|done].
Qed.

(** The calls that leave every balance. *)
Definition neutral (c : call) : bool :=
  match c with
  | CAddBalance _ v => bool_decide (v = 0)
  | CSubBalance _ _ | CSetBalance _ _ | CSuicide _ | CRevertToSnapshot _ => false
  | _ => true
  end.

Lemma neutral_balance s c t b : wf s -> neutral c = true -> exec s c = Ret t -> balance t b = balance s b.
Proof.
  intros W Hc. destruct c; try done; cbn [exec]; try (intros [= <-]).
  - by apply CreateAccount_balance.
  - apply bool_decide_eq_true in Hc as ->. rewrite AddBalance_balance by done. case_decide; lia.
  - by apply SetNonce_balance.
  - by apply SetCode_balance.
  - by apply SetState_balance.
  - by apply balance_frame.
  - unfold AddPreimage. destruct (preimages s !! h); by apply balance_frame.
  - by apply balance_frame.
  - unfold SubRefund. case_decide; [done|]. intros [= <-]. by apply balance_frame.
  - unfold AddAddressToAccessList. destruct (AddAddress (access s) a) as [[|] al]; by apply balance_frame.
  - intros E. destruct (refunded_access s a slot W) as (t' & E' & Ht). rewrite E in E'. injection E' as <-. apply balance_same, Ht.
  - apply balance_read.
  - apply balance_read.
  - apply balance_read.
  - apply balance_read.
  - apply balance_read.
  - apply balance_read.
  - apply balance_quiet, (read_object_quiet _ a (fun _ => obj_Code)); [done|]. intros; apply Code_eqv.
  - apply balance_quiet, (read_object_quiet _ a (fun _ => obj_CodeSize)); [done|]. intros; apply CodeSize_eqv.
  - apply balance_quiet, (read_object_quiet _ a (fun s o => obj_GetState s o k)); [done|]. intros; apply GetState_eqv.
  - apply balance_quiet, (read_object_quiet _ a (fun s o => obj_GetCommittedState s o k)); [done|]. intros; apply GetCommittedState_eqv.
  - by apply balance_frame.
Qed.

(** ** Operations that move balances *)

Lemma SubBalance_thrifty s a v : wf s -> 0 <= v <= balance s a -> thrifty s (SubBalance s a v).
Proof.
  intros W Hv Hs. split.
  - intros b. rewrite SubBalance_balance by done. specialize (Hs b). case_decide; subst; lia.
  - exists [a]. intros l Hl Ha. rewrite (supply_change l s _ a (- v)); [lia|done|set_solver|].
    intros b. rewrite SubBalance_balance by done. case_decide; lia.
Qed.

Lemma Transfer_thrifty s a b v : wf s -> 0 <= v <= balance s a \/ v = 0 -> thrifty s (Transfer s a b v).
Proof.
  intros W Hv Hs. unfold Transfer. set (t := SubBalance s a v).
  assert (Wt : wf t) by (apply (call_op s (CSubBalance a v)); done).
  assert (Ht : forall x, balance t x = balance s x - if decide (x = a) then v else 0) by (intros x; by apply SubBalance_balance). split.
  - intros x. rewrite AddBalance_balance, Ht by done. specialize (Hs x). repeat case_decide; subst; lia.
  - exists [a; b]. intros l Hl Hab. rewrite (supply_change l t _ b v); [|done|set_solver|intros x; by apply AddBalance_balance].
    rewrite (supply_change l s t a (- v)); [lia|done|set_solver|]. intros x. rewrite Ht. case_decide; lia.
Qed.

(** SELFDESTRUCT gives the balance away and then clears the account; when the
    beneficiary is the account itself the balance is lost. *)
Lemma Suicide_thrifty s a b : wf s -> thrifty s (Suicide (AddBalance s b (balance s a)) a).2.
Proof.
  intros W Hs. set (v := balance s a). set (t := AddBalance s b v).
  assert (Wt : wf t) by (apply (call_op s (CAddBalance b v)); done).
  assert (Ht : forall x, balance t x = balance s x + if decide (x = b) then v else 0) by (intros x; by apply AddBalance_balance).
  pose proof (Hs a) as Ha. fold v in Ha. split.
  - intros x. rewrite Suicide_balance, Ht by done. specialize (Hs x). repeat case_decide; lia.
  - exists [a; b]. intros l Hl Hab. rewrite (supply_change l t _ a (- balance t a)); [|done|set_solver|].
    + rewrite (supply_change l s t b v); [|done|set_solver|done]. rewrite Ht. fold v. case_decide; lia.
    + intros x. rewrite Suicide_balance by done. case_decide; subst; lia.
Qed.

End Supply.
