(* ===== verification/VmState.v ===== *)
(** * What the virtual machine keeps of the state (core/state/statedb.go)

    While contracts run, accounts do not disappear, the code of an account is the
    one of its code hash, the access list grows, and operations other than writes
    of storage neither touch the refund counter nor the slots.  [evolves] collects
    what every such operation keeps, and [db_ok] is the invariant of the state
    within a call. *)

From stdpp Require Import gmap.
From S2P Require Import Prelude Rlp Trie AccessList StateDB StateDBProofs StateDBSnapshots StateDBObserve StateDBEffects.
From S2P Require Import Uint256 VmAnalysis VmContract VmMemory VmGas VmGasProofs VmSstore VmRefund VmSupply.

(** A slice of bytes. *)
Definition data_ok (d : bytes) : Prop := bytes_ok d /\ zlen d < 2 ^ 63.

#[global] Instance data_ok_dec d : Decision (data_ok d).
Proof. unfold data_ok. apply _. Defined.

(** Codes are stored under their hash, and hashes of codes do not collide. *)
Class CodeStore (B : Backend) := {
  code_of : Z -> bytes;
  code_of_hash : forall c, data_ok c -> code_of (hash_code c) = c;
  code_of_read : forall ah h c, read_code ah h = Some c -> code_of h = c /\ data_ok c
}.

Section State.
Context {B : Backend} {BL : BackendLaws B} {CS : CodeStore B}.
Implicit Types (s t u : StateDB) (o : stateObject).

(** ** The code of accounts *)

Definition code_ok o : Prop :=
  forall c, eff_code o = Some c -> c = [] \/ (code_of (StateDB.CodeHash (data o)) = c /\ data_ok c).

Definition coded s : Prop := forall a o, live s a = Some o -> code_ok o.

Lemma code_ok_read o : code o = None -> code_ok o.
Proof.
  intros E c. unfold eff_code, obj_Code. rewrite E. case_decide; [done|]. destruct (read_code _ _) eqn:Er; [|done].
  intros [= <-]. right. by eapply code_of_read.
Qed.

(** Every account of [s] is one of [t], with the same code or a new one. *)
Definition stays_at s t (b : Z) : Prop :=
  match live t b with
  | Some o' => code_ok o' \/ exists o, live s b = Some o /\ eff_code o' = eff_code o /\ StateDB.CodeHash (data o') = StateDB.CodeHash (data o)
  | None => live s b = None
  end.

Definition stays s t : Prop := forall b, stays_at s t b.

Lemma stays_same s t : (forall b, same_account t s b) -> stays s t.
Proof.
  intros H b. unfold stays_at. destruct (H b) as [o' o Ho|]; [|done]. right. exists o. split; [done|].
  split; [apply Ho|]. by rewrite (oe_data _ _ _ _ Ho).
Qed.

#[global] Instance stays_refl : Reflexive stays.
Proof. intros s b. unfold stays_at. destruct (live s b) as [o|]; [right; by exists o|done]. Qed.

#[global] Instance stays_trans : Transitive stays.
Proof.
  intros s t u H K b. specialize (H b). specialize (K b). unfold stays_at in *. destruct (live u b) as [o|].
  - destruct K as [K|(o1 & E1 & K1 & K2)]; [by left|]. rewrite E1 in H. destruct H as [H|(o2 & E2 & H1 & H2)].
    + left. intros c. rewrite K1, K2. apply H.
    + right. exists o2. split; [done|]. split; congruence.
  - rewrite K in H. done.
Qed.

Lemma stays_coded s t : stays s t -> coded s -> coded t.
Proof.
  intros H K a o E. specialize (H a). unfold stays_at in H. rewrite E in H. destruct H as [H|(p & Ep & H1 & H2)]; [done|].
  intros c. rewrite H1, H2. by apply (K a).
Qed.

Lemma Exist_live s a : (Exist s a).1 = true <-> is_Some (live s a).
Proof. destruct (getters s a 0) as [-> _]. apply bool_decide_eq_true. Qed.

Lemma stays_exist s t a : stays s t -> (Exist s a).1 = true -> (Exist t a).1 = true.
Proof.
  rewrite !Exist_live. intros H [o E]. specialize (H a). unfold stays_at in H. destruct (live t a); [done|]. congruence.
Qed.

(** An account whose object is replaced. *)
Lemma stays_set t a e o o' :
  wf t -> stateObjects t !! a = Some o -> deleted o = false -> address o' = a -> deleted o' = false ->
  (code_ok o' \/ eff_code o' = eff_code o /\ StateDB.CodeHash (data o') = StateDB.CodeHash (data o)) ->
  stays t (setStateObject (append t e) o').
Proof.
  intros W Hl Hd Ha Hd' Hc b. unfold stays_at. rewrite live_set, Ha, Hd'. destruct (decide (b = a)) as [->|].
  - assert (E : live t a = Some o) by (unfold live; by rewrite (look_live _ _ _ Hl), Hd).
    destruct Hc as [Hc|[H1 H2]]; [by left|right]. by exists o.
  - apply stays_refl.
Qed.

Lemma stays_GetOrNew s a :
  wf s -> exists o t, GetOrNewStateObject s a = (o, t) /\ wf t /\ stateObjects t !! a = Some o /\ deleted o = false /\ stays s t.
Proof.
  intros W. destruct (GetOrNewStateObject_frame s a W) as (o & t & E & Wt & Hl & Hd & Ho & Hb).
  exists o, t. do 4 (split; [done|]). intros b. destruct (decide (b = a)) as [->|Hne].
  - unfold stays_at. assert (live t a = Some o) as -> by (unfold live; by rewrite (look_live _ _ _ Hl), Hd).
    destruct (live s a) as [p|]; [|left; subst; by apply code_ok_read]. right. exists p. split; [done|].
    split; [apply Ho|]. by rewrite (oe_data _ _ _ _ Ho).
  - unfold stays_at. destruct (Hb b Hne) as [o' p Hp|]; [|done]. right. exists p. split; [done|].
    split; [apply Hp|]. by rewrite (oe_data _ _ _ _ Hp).
Qed.

Lemma stays_with_object s a (f : StateDB -> stateObject -> StateDB) :
  wf s ->
  (forall t o, wf t -> stateObjects t !! a = Some o -> address o = a -> deleted o = false -> stays t (f t o)) ->
  stays s (let '(o, s) := GetOrNewStateObject s a in f s o).
Proof.
  intros W Hf. destruct (stays_GetOrNew s a W) as (o & t & -> & Wt & Hl & Hd & Hk).
  transitivity t; [done|]. apply Hf; try done. by destruct (wf_obj _ Wt a o) as [? _]; [apply look_live|].
Qed.

Lemma stays_frame s t :
  wf s -> stateObjects t = stateObjects s -> snap t = snap s -> snapDestructs t = snapDestructs s -> stays s t.
Proof. intros. apply stays_same. intros b. by apply same_frame. Qed.

Lemma stays_quiet s t : quiet s t -> stays s t.
Proof. intros Q. apply stays_same. intros b. by apply same_quiet. Qed.

Lemma stays_SetBalance t a o v :
  wf t -> stateObjects t !! a = Some o -> address o = a -> deleted o = false -> stays t (obj_SetBalance t o v).
Proof. intros W Hl Ha Hd. eapply stays_set; try done. right. by rewrite !eff_code_layers. Qed.

Lemma stays_SetCode t a o c :
  wf t -> stateObjects t !! a = Some o -> address o = a -> deleted o = false -> data_ok c ->
  stays t (obj_SetCode t o (hash_code c) c).
Proof.
  intros W Hl Ha Hd Hc. unfold obj_SetCode. pose proof (Code_eqv t o) as [Ea _ _ El _ _ _ _].
  destruct (obj_Code o) as [pc o1]. cbn [snd] in *. eapply (stays_set _ a _ o); try done; cbn; try congruence.
  left. intros c' [= <-]. right. split; [by apply code_of_hash|done].
Qed.

Lemma stays_SetState t a o k v :
  wf t -> stateObjects t !! a = Some o -> address o = a -> deleted o = false -> stays t (obj_SetState t o k v).
Proof.
  intros W Hl Ha Hd b. destruct (SetState_object t a o k v W Hl Hd) as (o' & El & _ & _ & Hb). unfold stays_at.
  assert (Eo : live t a = Some o) by (unfold live; by rewrite (look_live _ _ _ Hl), Hd).
  destruct (decide (b = a)) as [->|Hne]; [|destruct (Hb b Hne) as [x y Hxy|]; [|done]].
  - rewrite El. right. exists o. split; [done|]. revert El. unfold obj_SetState.
    destruct (fakeStorage o) eqn:Ef; cbn.
    + unfold live, look. cbn. rewrite Ha, lookup_insert_eq. cbn. rewrite Hd. intros [= <-]. by rewrite !eff_code_layers.
    + pose proof (GetState_eqv t o k) as [Ea _ _ Ed _ Ec _ _]. pose proof (oe_data _ _ _ _ (GetState_eqv t o k)) as Edt.
      destruct (obj_GetState t o k) as [prev o1]. cbn [snd] in *. case_decide.
      * unfold live, look. cbn. rewrite Ea, Ha, lookup_insert_eq. rewrite Ed, Hd. intros [= <-]. split; congruence.
      * rewrite live_set. cbn. rewrite Ea, Ha, decide_True by done. rewrite Ed, Hd. intros [= <-]. cbn.
        rewrite <- Ec, !eff_code_layers. cbn. split; congruence.
  - right. exists y. split; [done|]. split; [apply Hxy|]. by rewrite (oe_data _ _ _ _ Hxy).
Qed.

Lemma stays_SetNonce t a o v :
  wf t -> stateObjects t !! a = Some o -> address o = a -> deleted o = false -> stays t (obj_SetNonce t o v).
Proof. intros W Hl Ha Hd. eapply stays_set; try done. right. by rewrite !eff_code_layers. Qed.

Lemma stays_AddBalance t a o v :
  wf t -> stateObjects t !! a = Some o -> address o = a -> deleted o = false -> stays t (obj_AddBalance t o v).
Proof.
  intros W Hl Ha Hd. unfold obj_AddBalance. case_decide; [|by eapply stays_SetBalance].
  destruct (empty o); apply stays_frame; try done; unfold touch; by case_decide.
Qed.

Lemma stays_SubBalance t a o v :
  wf t -> stateObjects t !! a = Some o -> address o = a -> deleted o = false -> stays t (obj_SubBalance t o v).
Proof. intros W Hl Ha Hd. unfold obj_SubBalance. case_decide; [by apply stays_frame|by eapply stays_SetBalance]. Qed.

Lemma stays_Suicide s a : wf s -> stays s (Suicide s a).2.
Proof.
  intros W. unfold Suicide. destruct (getStateObject_spec s a) as (s1 & -> & Q & Hl). unfold live.
  destruct (look s a) as [o|] eqn:E; [|by apply stays_quiet]. destruct (deleted o) eqn:Hd; [by apply stays_quiet|].
  transitivity s1; [by apply stays_quiet|]. pose proof (quiet_wf _ _ W Q) as W1. destruct (wf_obj _ W a o E) as [Ha _].
  eapply stays_set; try done. right. by rewrite !eff_code_layers.
Qed.

Lemma stays_CreateAccount s a : wf s -> stays s (CreateAccount s a).
Proof.
  intros W b. unfold CreateAccount. destruct (createObject_frame s a W) as (t & -> & Wt & Ht & Hb).
  assert (Hne : b <> a -> stays_at s t b).
  { intros Hne. unfold stays_at. destruct (Hb b Hne) as [o' p Hp|]; [|done]. right. exists p. split; [done|].
    split; [apply Hp|]. by rewrite (oe_data _ _ _ _ Hp). }
  assert (Hf : live t a = Some (freshObject a)) by (unfold live; by rewrite (look_live _ _ _ Ht)).
  destruct (decide (b = a)) as [->|Hn]; [|specialize (Hne Hn)]; destruct (live s a) as [p|] eqn:Ep; unfold stays_at in *.
  - unfold live, look. cbn. rewrite lookup_insert_eq. left. by apply code_ok_read.
  - rewrite Hf. left. by apply code_ok_read.
  - unfold live in *. by rewrite look_set_ne.
  - done.
Qed.

(** The calls other than writes, refunds and snapshots; stored codes are slices. *)
Definition mild (c : call) : Prop := plain c = true /\ match c with CSetCode _ code => data_ok code | _ => True end.

Lemma stays_read s a {A} (g : option stateObject -> A) : stays s (let '(so, s) := getStateObject s a in (g so, s)).2.
Proof. destruct (getStateObject_spec s a) as (s1 & -> & Q & _). by apply stays_quiet. Qed.

Lemma plain_stays s c s' : wf s -> mild c -> exec s c = Ret s' -> stays s s'.
Proof.
  intros W [Hc Hl]. destruct c; try done; cbn [exec]; try (intros [= <-]).
  - by apply stays_CreateAccount.
  - apply stays_with_object; [done|]. intros. by eapply stays_AddBalance.
  - apply stays_with_object; [done|]. intros. by eapply stays_SubBalance.
  - apply stays_with_object; [done|]. intros. by eapply stays_SetBalance.
  - apply stays_with_object; [done|]. intros. by eapply stays_SetNonce.
  - apply stays_with_object; [done|]. intros. by eapply stays_SetCode.
  - by apply stays_Suicide.
  - by apply stays_frame.
  - unfold AddPreimage. destruct (preimages s !! h); by apply stays_frame.
  - unfold AddAddressToAccessList. destruct (AddAddress (access s) a) as [[|] al]; by apply stays_frame.
  - intros E. destruct (refunded_access s a slot W) as (t & E' & Ht). rewrite E in E'. injection E' as <-.
    apply stays_same, Ht.
  - apply stays_read.
  - apply stays_read.
  - apply stays_read.
  - apply stays_read.
  - apply stays_read.
  - apply stays_read.
  - apply stays_quiet, (read_object_quiet _ a (fun _ => obj_Code)); [done|]. intros; apply Code_eqv.
  - apply stays_quiet, (read_object_quiet _ a (fun _ => obj_CodeSize)); [done|]. intros; apply CodeSize_eqv.
  - apply stays_quiet, (read_object_quiet _ a (fun s o => obj_GetState s o k)); [done|]. intros; apply GetState_eqv.
  - apply stays_quiet, (read_object_quiet _ a (fun s o => obj_GetCommittedState s o k)); [done|].
    intros; apply GetCommittedState_eqv.
Qed.

(** ** The access list *)

Definition warms s t : Prop := forall a, ContainsAddress (access s) a = true -> ContainsAddress (access t) a = true.

Lemma getStateObject_access s a : access (getStateObject s a).2 = access s.
Proof. unfold getStateObject, getDeletedStateObject. by repeat (case_match; simplify_eq/=). Qed.

Lemma createObject_access s a : access (createObject s a).2 = access s.
Proof. unfold createObject, getDeletedStateObject. by repeat (case_match; simplify_eq/=). Qed.

Lemma with_object_access s a (f : StateDB -> stateObject -> StateDB) :
  (forall t o, access (f t o) = access t) -> access (let '(o, s) := GetOrNewStateObject s a in f s o) = access s.
Proof.
  intros Hf. unfold GetOrNewStateObject. pose proof (getStateObject_access s a) as H.
  destruct (getStateObject s a) as [[o|] t]; cbn in *; [by rewrite Hf|].
  pose proof (createObject_access t a) as K. destruct (createObject t a) as [[n p] u]. cbn in *. rewrite Hf. congruence.
Qed.

Lemma warms_eq s t : access t = access s -> warms s t.
Proof. by intros E a; rewrite E. Qed.

Lemma warms_quiet s t : quiet s t -> warms s t.
Proof. intros Q. apply warms_eq. apply Q. Qed.

Lemma warms_read s a {A} (g : option stateObject -> A) : warms s (let '(so, s) := getStateObject s a in (g so, s)).2.
Proof. destruct (getStateObject_spec s a) as (s1 & -> & Q & _). by apply warms_quiet. Qed.

Lemma warms_SetState s a k v : warms s (SetState s a k v).
Proof.
  apply warms_eq, with_object_access. intros t o. unfold obj_SetState. case_match; [done|].
  destruct (obj_GetState t o k). by case_decide.
Qed.

Lemma AddAddress_Contains al a b : ContainsAddress (AddAddress al a).2 b = bool_decide (b = a) || ContainsAddress al b.
Proof.
  unfold AddAddress, ContainsAddress. destruct (addresses al !! a) as [i|] eqn:E; cbn.
  - destruct (decide (b = a)) as [->|Hne]; [rewrite E, (bool_decide_true (a = a)) by done; by rewrite bool_decide_true|].
    by rewrite (bool_decide_false (b = a)).
  - destruct (decide (b = a)) as [->|Hne]; [rewrite lookup_insert_eq, (bool_decide_true (a = a)) by done; by rewrite bool_decide_true|].
    rewrite lookup_insert_ne by done. by rewrite (bool_decide_false (b = a)).
Qed.

Lemma AddAddressToAccessList_access s a : access (AddAddressToAccessList s a) = (AddAddress (access s) a).2.
Proof. unfold AddAddressToAccessList. by destruct (AddAddress (access s) a) as [[|] al]. Qed.

Lemma plain_warms s c s' : wf s -> plain c = true -> exec s c = Ret s' -> warms s s'.
Proof.
  intros W Hc. destruct c; try done; cbn [exec]; try (intros [= <-]).
  - apply warms_eq. unfold CreateAccount. pose proof (createObject_access s a) as H. destruct (createObject s a) as [[n p] u].
    cbn in H. by destruct p.
  - apply warms_eq, with_object_access. intros t o. unfold obj_AddBalance, touch. by repeat case_match.
  - apply warms_eq, with_object_access. intros t o. unfold obj_SubBalance. by repeat case_match.
  - by apply warms_eq, with_object_access.
  - by apply warms_eq, with_object_access.
  - apply warms_eq, with_object_access. intros t o. unfold obj_SetCode. by destruct (obj_Code o).
  - apply warms_eq. unfold Suicide. pose proof (getStateObject_access s a) as H. destruct (getStateObject s a) as [[o|] t]; done.
  - by apply warms_eq.
  - apply warms_eq. unfold AddPreimage. by destruct (preimages s !! h).
  - intros b Hb. rewrite AddAddressToAccessList_access, AddAddress_Contains, Hb. apply orb_true_r.
  - unfold AddSlotToAccessList. destruct (AddSlot_sets (access s) a slot) as (ca & cs & al & -> & _ & _ & _ & Hal & _); [apply W|].
    cbn. intros [= <-] b Hb. replace (access _) with al by (by destruct ca, cs). rewrite Hal, Hb. apply orb_true_r.
  - apply warms_read.
  - apply warms_read.
  - apply warms_read.
  - apply warms_read.
  - apply warms_read.
  - apply warms_read.
  - apply warms_quiet, (read_object_quiet _ a (fun _ => obj_Code)); [done|]. intros; apply Code_eqv.
  - apply warms_quiet, (read_object_quiet _ a (fun _ => obj_CodeSize)); [done|]. intros; apply CodeSize_eqv.
  - apply warms_quiet, (read_object_quiet _ a (fun s o => obj_GetState s o k)); [done|]. intros; apply GetState_eqv.
  - apply warms_quiet, (read_object_quiet _ a (fun s o => obj_GetCommittedState s o k)); [done|].
    intros; apply GetCommittedState_eqv.
Qed.

(** ** Accounts and balances *)

(** Accounts stay, and no ether is made. *)
Definition lives s t : Prop := stays s t /\ thrifty s t.

#[global] Instance lives_refl : Reflexive lives.
Proof. by split. Qed.

#[global] Instance lives_trans : Transitive lives.
Proof. intros s t u [H1 H2] [K1 K2]. split; by etrans. Qed.

Lemma lives_coded s t : lives s t -> coded s -> coded t.
Proof. intros [H _]. by apply stays_coded. Qed.

Lemma lives_exist s t a : lives s t -> (Exist s a).1 = true -> (Exist t a).1 = true.
Proof. intros [H _]. by apply stays_exist. Qed.

Lemma lives_same s t : (forall b, same_account t s b) -> lives s t.
Proof. intros H. split; [by apply stays_same|]. apply thrifty_eq. intros b. by apply balance_same. Qed.

Lemma lives_frame s t :
  wf s -> stateObjects t = stateObjects s -> snap t = snap s -> snapDestructs t = snapDestructs s -> lives s t.
Proof. intros. apply lives_same. intros b. by apply same_frame. Qed.

Lemma lives_quiet s t : quiet s t -> lives s t.
Proof. intros Q. apply lives_same. intros b. by apply same_quiet. Qed.

Lemma lives_eqv s t : eqv t s -> lives s t.
Proof. intros H. apply lives_same. intros b. apply live_eqv, H. Qed.

Lemma lives_SetState s a k v : wf s -> lives s (SetState s a k v).
Proof.
  intros W. split; [apply stays_with_object; [done|]; intros; by eapply stays_SetState|].
  apply thrifty_eq. intros b. by apply SetState_balance.
Qed.

(** ** Evolution *)

(** What every mild operation keeps. *)
Record moves s t : Prop := {
  mv_op : op s t;
  mv_slots : slots_kept s t;
  mv_refund : refund t = refund s;
  mv_stays : stays s t;
  mv_warms : warms s t
}.

Lemma moves_trans s t u : wf s -> moves s t -> moves t u -> moves s u.
Proof.
  intros W [H1 H2 H3 H4 H5] [K1 K2 K3 K4 K5]. split; [by eapply op_trans|by etrans|congruence|by etrans|].
  intros a Ha. by apply K5, H5.
Qed.

Lemma moves_exec s c t : wf s -> mild c -> exec s c = Ret t -> moves s t.
Proof.
  intros W Hc E. pose proof Hc as [Hp _]. split.
  - assert (Hs : snapshotting c = false) by (by destruct c). pose proof (call_op s c W Hs) as O. by rewrite E in O.
  - by eapply plain_kept.
  - by eapply plain_refund.
  - by eapply plain_stays.
  - by eapply plain_warms.
Qed.

(** What the operations of the virtual machine keep. *)
Record evolves s t : Prop := {
  ev_op : op s t;
  ev_slots : slots_kept s t;
  ev_refund : refund t = refund s;
  ev_lives : lives s t;
  ev_warms : warms s t
}.

Lemma moves_evolves s t : moves s t -> thrifty s t -> evolves s t.
Proof. intros []. by split. Qed.

Lemma evolves_wf s t : evolves s t -> wf t.
Proof. intros H. apply (op_wf s), H. Qed.

Lemma evolves_trans s t u : wf s -> evolves s t -> evolves t u -> evolves s u.
Proof.
  intros W [H1 H2 H3 H4 H5] [K1 K2 K3 K4 K5]. split; [by eapply op_trans|by etrans|congruence|by etrans|].
  intros a Ha. by apply K5, H5.
Qed.

(** The mild calls that leave all balances. *)
Definition harmless (c : call) : Prop := mild c /\ neutral c = true.

Lemma evolves_exec s c t : wf s -> harmless c -> exec s c = Ret t -> evolves s t.
Proof.
  intros W [Hc Hn] E. apply moves_evolves; [by eapply moves_exec|]. apply thrifty_eq. intros b. by eapply neutral_balance.
Qed.

Lemma harmless_read c : plain c = true -> neutral c = true -> (forall a code, c <> CSetCode a code) -> harmless c.
Proof. intros H Hn Hc. split; [split; [done|]|done]. destruct c; try done. by destruct (Hc a c). Qed.

Lemma evolves_quiet s t : wf s -> quiet s t -> evolves s t.
Proof.
  intros W Q. split; [by apply quiet_op|by apply slots_kept_quiet|by apply quiet_refund|by apply lives_quiet|by apply warms_quiet].
Qed.

Lemma evolves_refl s : wf s -> evolves s s.
Proof. intros W. by apply evolves_quiet. Qed.

(** Operations on balances. *)
Lemma GetBalance_quiet s a : quiet s (GetBalance s a).2.
Proof. unfold GetBalance. by destruct (getStateObject_spec s a) as (s1 & -> & Q & _). Qed.

Lemma SubBalance_evolves s a v : wf s -> 0 <= v <= balance s a -> evolves s (SubBalance s a v).
Proof. intros W Hv. apply moves_evolves; [by apply (moves_exec _ (CSubBalance a v))|by apply SubBalance_thrifty]. Qed.

Lemma Transfer_evolves s a b v : wf s -> 0 <= v <= balance s a \/ v = 0 -> evolves s (Transfer s a b v).
Proof.
  intros W Hv. apply moves_evolves; [|by apply Transfer_thrifty]. unfold Transfer.
  assert (H : moves s (SubBalance s a v)) by (by apply (moves_exec _ (CSubBalance a v))).
  eapply moves_trans; [done|exact H|]. apply (moves_exec _ (CAddBalance b v)); [apply (op_wf s), H|done|done].
Qed.

Lemma Suicide_evolves s a b : wf s -> evolves s (Suicide (AddBalance s b (balance s a)) a).2.
Proof.
  intros W. apply moves_evolves; [|by apply Suicide_thrifty].
  assert (H : moves s (AddBalance s b (balance s a))) by (by apply (moves_exec _ (CAddBalance b (balance s a)))).
  eapply moves_trans; [done|exact H|]. apply (moves_exec _ (CSuicide a)); [apply (op_wf s), H|done|done].
Qed.

End State.
