(* ===== verification/VmWp.v ===== *)
(** * Total correctness of instructions

    [wp m f Q]: the computation [m] ends in frame [f], without panic and without
    running out of fuel, and [Q] holds of the frame and the result.  The rules
    follow the monads of VmGas and VmInstructions; the stack of a frame is read
    from its top, as [rev] of a list. *)

From stdpp Require Import gmap.
From S2P Require Import Prelude Rlp Trie AccessList StateDB StateDBProofs StateDBSnapshots StateDBObserve StateDBEffects.
From S2P Require Import Uint256 VmAnalysis VmContract VmMemory VmGas VmPrecompiles VmInstructions VmGasProofs VmSstore VmRefund VmState.

Section Wp.
Context {B : Backend} {U : Uint256}.
Implicit Types f : frame.

Definition post (A : Type) : Type := frame -> vm_error + A -> Prop.

Definition wpM {A} (m : M A) f (Q : post A) : Prop := exists f' r, m f = Ret (f', r) /\ Q f' r.
Definition wp {A} (m : X A) f (Q : post A) : Prop := exists f' r, m f = run (Ret (f', r)) /\ Q f' r.

(** After a bind, the result is an error or goes to the continuation. *)
Definition after {A C} (W : A -> frame -> post C -> Prop) (Q : post C) : post A :=
  fun f r => match r with inr a => W a f Q | inl e => Q f (inl e) end.

Lemma wpM_mono {A} (m : M A) f (Q R : post A) : wpM m f Q -> (forall f' r, Q f' r -> R f' r) -> wpM m f R.
Proof. intros (f' & r & E & H) K. exists f', r. auto. Qed.

Lemma wp_mono {A} (m : X A) f (Q R : post A) : wp m f Q -> (forall f' r, Q f' r -> R f' r) -> wp m f R.
Proof. intros (f' & r & E & H) K. exists f', r. auto. Qed.

Lemma wpM_bind {A C} (m : M A) (k : A -> M C) f Q : wpM m f (after (fun a => wpM (k a)) Q) -> wpM (m ≫= k) f Q.
Proof.
  intros (f1 & [e|a] & E & H).
  - exists f1, (inl e). by rewrite (bind_err _ _ _ _ _ E).
  - destruct H as (f2 & r & E2 & H). exists f2, r. by rewrite (bind_ok _ _ _ _ _ E).
Qed.

Lemma wp_bind {A C} (m : X A) (k : A -> X C) f Q : wp m f (after (fun a => wp (k a)) Q) -> wp (m ≫= k) f Q.
Proof.
  intros (f1 & [e|a] & E & H); unfold wp, mbind, X_bind; rewrite E; cbn.
  - by exists f1, (inl e).
  - destruct H as (f2 & r & E2 & H). exists f2, r. by rewrite E2.
Qed.

Lemma wp_embed {A} (m : M A) f Q : wpM m f Q -> wp (embed m) f Q.
Proof. intros (f' & r & E & H). exists f', r. unfold embed. by rewrite E. Qed.

Lemma wpM_ret {A} (a : A) f (Q : post A) : Q f (inr a) -> wpM (mret a) f Q.
Proof. intros H. by exists f, (inr a). Qed.

Lemma wp_ret {A} (a : A) f (Q : post A) : Q f (inr a) -> wp (mret a) f Q.
Proof. intros H. by exists f, (inr a). Qed.

Lemma wpM_fail {A} e f (Q : post A) : Q f (inl e) -> wpM (fail e) f Q.
Proof. intros H. by exists f, (inl e). Qed.

Lemma wpM_gets {A} (g : frame -> A) f Q : Q f (inr (g f)) -> wpM (gets g) f Q.
Proof. intros H. by exists f, (inr (g f)). Qed.

Lemma wpM_modify g f Q : Q (g f) (inr tt) -> wpM (modify g) f Q.
Proof. intros H. by exists (g f), (inr tt). Qed.

Lemma wpM_lift {A} (g : frame -> outcome Empty_set A) f a Q : g f = Ret a -> Q f (inr a) -> wpM (lift g) f Q.
Proof. intros E H. exists f, (inr a). unfold lift. by rewrite E. Qed.

Lemma wpM_query {A} (q : StateDB -> A * StateDB) f Q :
  Q (set_db f (q (db f)).2) (inr (q (db f)).1) -> wpM (query q) f Q.
Proof. intros H. unfold wpM, query. destruct (q (db f)) as [a s]. by exists (set_db f s), (inr a). Qed.

Lemma wpM_change q f s Q : q (db f) = Ret s -> Q (set_db f s) (inr tt) -> wpM (change q) f Q.
Proof. intros E H. exists (set_db f s), (inr tt). unfold change. by rewrite E. Qed.

Lemma wpM_update q f Q : Q (set_db f (q (db f))) (inr tt) -> wpM (update q) f Q.
Proof. intros H. by apply wpM_modify. Qed.

(** ** The stack *)

Lemma zlen_rev {A} (l : list A) : zlen (rev l) = zlen l.
Proof. unfold zlen. by rewrite length_rev. Qed.

Lemma top_rev {E A} (x : A) l : go_index (E:=E) (rev (x :: l)) (zlen (rev (x :: l)) - 1) = Ret x.
Proof.
  cbn [rev]. apply go_index_at; [rewrite zlen_app; zlen_lia|]. unfold zlen. rewrite length_app. cbn.
  replace (Z.to_nat _) with (length (rev l)) by lia. by apply list_lookup_middle.
Qed.

Lemma pop_rev {E} (x : Z) l : pop (E:=E) (rev (x :: l)) = Ret (x, rev l).
Proof.
  unfold pop. rewrite top_rev. cbn [mbind outcome_bind]. unfold go_to, go_slice. cbn [rev].
  replace (zlen (rev l ++ [x]) - 1) with (zlen (rev l)) by (rewrite zlen_app; zlen_lia).
  rewrite decide_True by (rewrite zlen_app; zlen_lia). rewrite Z.sub_0_r, zlen_to_nat.
  change (drop (Z.to_nat 0) (rev l ++ [x])) with (rev l ++ [x]). by rewrite take_app_length.
Qed.

Lemma push_rev (x : Z) l : push (rev l) x = rev (x :: l).
Proof. done. Qed.

Lemma peek_rev {E} (x : Z) l : peek (E:=E) (rev (x :: l)) = Ret x.
Proof. apply top_rev. Qed.

Lemma poke_rev (x d : Z) l : <[Z.to_nat (zlen (rev (x :: l)) - 1) := d]> (rev (x :: l)) = rev (d :: l).
Proof.
  cbn [rev]. replace (Z.to_nat _) with (length (rev l)) by (rewrite zlen_app; unfold zlen; cbn; lia).
  by rewrite insert_app_r_alt, Nat.sub_diag by lia.
Qed.

Lemma Back_rev {E} l (n : nat) (x : Z) : l !! n = Some x -> Back (E:=E) (rev l) (Z.of_nat n) = Ret x.
Proof.
  intros H. pose proof (lookup_lt_Some _ _ _ H) as Hlt. unfold Back. apply go_index_at; [rewrite zlen_rev; unfold zlen; lia|].
  rewrite zlen_rev. unfold zlen. replace (Z.to_nat _) with (length l - S n)%nat by lia. rewrite <- H.
  rewrite rev_alt. change (rev_append l []) with (reverse l). rewrite reverse_lookup by lia. f_equal. lia.
Qed.

Lemma wpM_pop f x l Q : stack f = rev (x :: l) -> Q (set_stack f (rev l)) (inr x) -> wpM pop_m f Q.
Proof. intros E H. exists (set_stack f (rev l)), (inr x). unfold pop_m. by rewrite E, pop_rev. Qed.

Lemma wpM_peek f x l Q : stack f = rev (x :: l) -> Q f (inr x) -> wpM peek_m f Q.
Proof. intros E H. apply (wpM_lift _ _ x); [|done]. by rewrite E, peek_rev. Qed.

Lemma wpM_poke d f x l Q : stack f = rev (x :: l) -> Q (set_stack f (rev (d :: l))) (inr tt) -> wpM (poke d) f Q.
Proof.
  intros E H. exists (set_stack f (rev (d :: l))), (inr tt). unfold poke. by rewrite E, peek_rev, poke_rev.
Qed.

Lemma wpM_push d f l Q : stack f = rev l -> Q (set_stack f (rev (d :: l))) (inr tt) -> wpM (push_m d) f Q.
Proof. intros E H. apply wpM_modify. by rewrite E. Qed.

Lemma wpM_back f l (n : nat) x Q : stack f = rev l -> l !! n = Some x -> Q f (inr x) -> wpM (back (Z.of_nat n)) f Q.
Proof. intros E Hx H. apply (wpM_lift _ _ x); [|done]. rewrite E. by apply Back_rev. Qed.

Lemma operand_rev f l (n : nat) x : stack f = rev l -> l !! n = Some x -> is_u256 x -> operand f (Z.of_nat n) x.
Proof. intros E H Hx. split; [|done]. rewrite E. by apply Back_rev. Qed.

(** ** Memory *)

(** The bytes from [off] on are in the memory of the frame. *)
Definition covers f (off len : Z) : Prop := is_u256 off /\ is_u256 len /\ (len = 0 \/ off + len <= Len (mem f)).

Context {UL : Uint256Laws U}.

Lemma mem_ok_len m : mem_ok m -> 0 <= Len m < 2 ^ 38.
Proof. intros (w & Hw & -> & _). lia. Qed.

(** Whole words of bytes, whose fee is paid. *)
Definition mem_good m : Prop := mem_ok m /\ bytes_ok (store m).

Lemma Uint64_id x : is_u256 x -> x < 2 ^ 63 -> Uint64 x = x /\ i64 (Uint64 x) = x.
Proof. intros H Hlt. rewrite Uint64_small by (done || lia). split; [done|]. apply i64_id. unfold is_u256 in H. lia. Qed.

Lemma go_slice_bytes {E} (l : bytes) a b :
  bytes_ok l -> 0 <= a <= b -> b <= zlen l -> exists d, go_slice (E:=E) l a b = Ret d /\ zlen d = b - a /\ bytes_ok d.
Proof.
  intros Hl Ha Hb. unfold go_slice. rewrite decide_True by lia. eexists. split; [done|].
  split; [|by apply Forall_take, Forall_drop]. unfold zlen in *. rewrite length_take, length_drop. lia.
Qed.

Lemma GetPtr_covers {E} f off len :
  mem_good (mem f) -> covers f off len ->
  exists d, GetPtr (E:=E) (mem f) (i64 (Uint64 off)) (i64 (Uint64 len)) = Ret d /\ zlen d = len /\ data_ok d.
Proof.
  intros [Hm Hbs] (Ho & Hl & Hc). pose proof (mem_ok_len _ Hm) as Hlen. unfold is_u256 in *. destruct (decide (len = 0)) as [->|Hne].
  { rewrite (proj2 (Uint64_id 0 ltac:(done) ltac:(done))). exists []. by repeat constructor. }
  rewrite (proj2 (Uint64_id off ltac:(done) ltac:(lia))), (proj2 (Uint64_id len ltac:(done) ltac:(lia))).
  unfold GetPtr. rewrite decide_False, decide_True by lia.
  destruct (go_slice_bytes (E:=E) (store (mem f)) off (off + len) Hbs) as (d & -> & Hz & Hd); [unfold Len in *; lia..|].
  exists d. split; [done|]. split; [lia|]. split; [done|lia].
Qed.

Lemma wpM_getPtr f off len Q :
  mem_good (mem f) -> covers f off len -> (forall d, zlen d = len -> data_ok d -> Q f (inr d)) -> wpM (getPtr off len) f Q.
Proof. intros Hm Hc H. destruct (GetPtr_covers (E:=Empty_set) f off len Hm Hc) as (d & E & Hz & Hd). eapply wpM_lift; [done|auto]. Qed.

Lemma wpM_getCopy f off len Q :
  mem_good (mem f) -> covers f off len -> (forall d, zlen d = len -> data_ok d -> Q f (inr d)) -> wpM (getCopy off len) f Q.
Proof. apply wpM_getPtr. Qed.

Lemma zlen_copy_into dst off size v :
  0 <= off -> 0 <= size -> off + size <= zlen dst -> zlen (copy_into dst off size v) = zlen dst.
Proof.
  intros H1 H2 H3. unfold copy_into, zlen in *. rewrite !length_app, !length_take, length_drop. lia.
Qed.

Lemma copy_into_bytes dst off size v : bytes_ok dst -> bytes_ok v -> bytes_ok (copy_into dst off size v).
Proof. intros Hd Hv. unfold copy_into. repeat apply Forall_app_2; auto using Forall_take, Forall_drop. Qed.

(** A memory of the same size. *)
Definition mem_like (m m' : Memory) : Prop := Len m' = Len m /\ mem_good m'.

Lemma mem_like_store m d :
  mem_good m -> zlen d = Len m -> bytes_ok d -> mem_like m (mk_Memory d (lastGasCost m)).
Proof. intros [(w & Hw & Hl & Hc) _] Hz Hd. split; [done|]. split; [|done]. exists w. unfold Len in *. cbn. by rewrite Hz. Qed.

Lemma covers_like f m off len : mem_like (mem f) m -> covers f off len -> covers (set_mem f m) off len.
Proof. intros [Hl _] (H1 & H2 & H3). split_and!; try done. cbn [mem set_mem]. by rewrite Hl. Qed.

Lemma Memory_Set_covers {E} f off len v :
  mem_good (mem f) -> covers f off len -> bytes_ok v ->
  exists m, Memory_Set (E:=E) (mem f) (Uint64 off) (Uint64 len) v = Ret m /\ mem_like (mem f) m.
Proof.
  intros Hm (Ho & Hl & Hc) Hv. pose proof (mem_ok_len _ (proj1 Hm)) as Hlen. unfold Memory_Set, is_u256 in *.
  destruct (decide (len = 0)) as [->|Hne].
  { rewrite (proj1 (Uint64_id 0 ltac:(done) ltac:(done))). by exists (mem f). }
  rewrite (proj1 (Uint64_id off ltac:(done) ltac:(lia))), (proj1 (Uint64_id len ltac:(done) ltac:(lia))).
  rewrite decide_True by lia. rewrite u64_id by (unfold is_u64; lia). rewrite decide_False by lia.
  unfold go_slice. rewrite decide_True by (unfold Len in *; lia). eexists. split; [done|].
  apply mem_like_store; [done|apply zlen_copy_into; unfold Len in *; lia|]. apply copy_into_bytes; [apply Hm|done].
Qed.

Lemma wpM_set_memory f g m Q : g (mem f) = Ret m -> Q (set_mem f m) (inr tt) -> wpM (set_memory g) f Q.
Proof. intros E H. exists (set_mem f m), (inr tt). unfold set_memory. by rewrite E. Qed.

Lemma wpM_Memory_Set f off len v Q :
  mem_good (mem f) -> covers f off len -> bytes_ok v -> (forall m, mem_like (mem f) m -> Q (set_mem f m) (inr tt)) ->
  wpM (set_memory (fun m => Memory_Set m (Uint64 off) (Uint64 len) v)) f Q.
Proof.
  intros Hm Hc Hv H. destruct (Memory_Set_covers (E:=Empty_set) f off len v Hm Hc Hv) as (m & E & Hs).
  eapply wpM_set_memory; [done|auto].
Qed.

Lemma RightPad_bytes d n : bytes_ok d -> bytes_ok (RightPadBytes d n).
Proof. intros Hd. unfold RightPadBytes. case_decide; [done|]. apply Forall_app_2; [done|]. by apply Forall_replicate. Qed.

(** [getData] never fails on slices of the size that memory has. *)
Lemma getData_total {E} data start size :
  data_ok data -> 0 <= start -> 0 <= size < 2 ^ 63 -> exists d, getData (E:=E) data start size = Ret d /\ bytes_ok d /\ zlen d = size.
Proof.
  intros [Hb Hd] Hs Hz. unfold getData. set (s := if decide (start > zlen data) then _ else _).
  assert (0 <= s <= zlen data) by (unfold s; case_decide; unfold zlen in *; lia).
  rewrite u64_id by (unfold is_u64; lia). set (e := if decide _ then _ else _).
  assert (s <= e <= zlen data /\ e - s <= size) by (unfold e; case_decide; lia).
  destruct (go_slice_bytes (E:=E) data s e Hb) as (d & -> & Hz' & Hd'); [lia..|]. eexists. split; [done|].
  split; [by apply RightPad_bytes|]. rewrite i64_id by lia. unfold RightPadBytes. case_decide; [lia|]. unfold zlen in *.
  rewrite length_app, length_replicate. lia.
Qed.

End Wp.
