(* ===== verification/VmFrame.v ===== *)
(** * The invariant of a running contract

    [frame_at] holds between the rounds of the run loop: the stack holds at most
    1024 words of 256 bits, the memory holds whole words whose fee is paid, the
    caches of jump destinations are right, and the state satisfies [db_ok].  The
    refund counter is bounded by a potential that every unit of gas can raise. *)

From stdpp Require Import gmap.
From S2P Require Import Prelude Rlp Trie AccessList StateDB StateDBProofs StateDBSnapshots StateDBObserve StateDBEffects.
From S2P Require Import Uint256 VmAnalysis VmContract VmMemory VmGas VmPrecompiles VmInstructions VmGasProofs VmSstore VmRefund VmState VmWp.

(** The metering of SSTORE under the rules, if it may take refunds back. *)
Definition metering_of (r : Rules) : option metering :=
  if IsYoloV3 r then Some Net2929
  else if IsIstanbul r then Some Net2200
  else if IsConstantinople r && negb (IsPetersburg r) then Some Net1283
  else None.

Section Frame.
Context {B : Backend} {BL : BackendLaws B} {CS : CodeStore B} {U : Uint256} {UL : Uint256Laws U}.
Implicit Types (s t : StateDB) (f : frame) (st : list (revision * StateDB)).

(** ** The state *)

Definition chained st s : Prop := exists pre, chain (pre ++ st) s.

Lemma chained_wf st s : chained st s -> wf s.
Proof. intros [pre C]. by eapply chain_wf. Qed.

Lemma chained_op st s t : chained st s -> op s t -> chained st t.
Proof. intros [pre C] O. exists pre. by eapply chain_op. Qed.

Lemma chained_weaken pre st s : chained (pre ++ st) s -> chained st s.
Proof. intros [p C]. exists (p ++ pre). by rewrite <- app_assoc. Qed.

Definition tracked (r : Rules) s : Prop :=
  match metering_of r with Some m => covered (schedule_of m) s | None => True end.

(** Each of [n] units of gas may still raise the counter. *)
Record db_ok (r : Rules) st (bound n : Z) s : Prop := {
  do_chain : chained st s;
  do_tracked : tracked r s;
  do_refund : 0 <= refund s /\ refund s + step_refund * n <= bound;
  do_coded : coded s;
  do_marked : marked s
}.

Lemma db_ok_wf r st bound n s : db_ok r st bound n s -> wf s.
Proof. intros H. eapply chained_wf, H. Qed.

Lemma tracked_kept r s t : slots_kept s t -> refund s <= refund t -> tracked r s -> tracked r t.
Proof.
  unfold tracked. destruct (metering_of r) as [m|]; [|done]. intros H1 H2. apply covered_kept; [apply schedule_bounds|done..].
Qed.

Lemma evolves_marked s t : evolves s t -> marked s -> marked t.
Proof. intros [K1 K2 _ _ _]. apply marked_kept; [apply K1|done]. Qed.

Lemma AddRefund_marked s g : wf s -> marked s -> marked (AddRefund s g).
Proof. intros W. apply marked_kept; [by apply (op_undo _ _ (call_op s (CAddRefund g) W eq_refl))|by apply frame_kept]. Qed.

Lemma db_ok_evolves r st bound n s t : db_ok r st bound n s -> evolves s t -> db_ok r st bound n t.
Proof.
  intros [H1 H2 H3 H4 H5] K. pose proof K as [K1 K2 K3 K4 K5]. split.
  - by eapply chained_op.
  - eapply tracked_kept; [done|lia|done].
  - lia.
  - by eapply lives_coded.
  - by eapply evolves_marked.
Qed.

Lemma db_ok_mono r st bound n n' s : db_ok r st bound n s -> n' <= n -> db_ok r st bound n' s.
Proof. intros [H1 H2 H3 H4 H5] Hn. split; try done. unfold step_refund in *. lia. Qed.

Lemma AddRefund_lives s g : wf s -> lives s (AddRefund s g).
Proof. intros W. by apply lives_frame. Qed.

Lemma db_ok_AddRefund r st bound n s g :
  db_ok r st bound (n + 1) s -> bound < 2 ^ 64 -> 0 <= n -> 0 <= g <= step_refund -> db_ok r st bound n (AddRefund s g).
Proof.
  intros [H1 H2 H3 H4 H5] Hb Hn Hg. pose proof (chained_wf _ _ H1) as W. unfold step_refund in *.
  assert (E : refund (AddRefund s g) = refund s + g) by (cbn; rewrite u64_id; [done|unfold is_u64; lia]). split.
  - eapply chained_op; [done|]. by apply (call_op s (CAddRefund g)).
  - eapply tracked_kept; [by apply frame_kept|lia|done].
  - unfold step_refund. lia.
  - eapply lives_coded; [by apply AddRefund_lives|done].
  - by apply AddRefund_marked.
Qed.

(** ** Contracts and frames *)

Definition contract_ok (c : Contract) : Prop := cache_ok code_of c /\ is_u64 (Gas c) /\ data_ok (Input c) /\ data_ok (Code c).

Record frame_at st (bound n : Z) f : Prop := {
  fr_stack : Forall is_u256 (stack f);
  fr_limit : zlen (stack f) <= 1024;
  fr_mem : mem_good (mem f);
  fr_contract : contract_ok (contract f);
  fr_pc : is_u64 (pc f);
  fr_return : data_ok (returnData f);
  fr_db : db_ok (rules f) st bound n (db f);
  fr_self : (Exist (db f) (self (contract f))).1 = true;
  fr_warm : IsYoloV3 (rules f) = true -> ContainsAddress (access (db f)) (self (contract f)) = true
}.

Lemma frame_wf st bound n f : frame_at st bound n f -> wf (db f).
Proof. intros H. eapply db_ok_wf, H. Qed.

(** What a successful step keeps. *)
Record kept f f' : Prop := {
  kp_rules : rules f' = rules f;
  kp_lives : lives (db f) (db f');
  kp_warms : warms (db f) (db f');
  kp_gas : Gas (contract f') <= Gas (contract f)
}.

Lemma kept_refl f : kept f f.
Proof. split; [done..|by intros ?|done]. Qed.

Lemma kept_trans f g h : kept f g -> kept g h -> kept f h.
Proof.
  intros [H1 H2 H3 H4] [K1 K2 K3 K4]. split; [congruence|by etrans| |lia]. intros a Ha. by apply K3, H3.
Qed.

(** What is left after an error: the state is going to be reverted. *)
Record failed st f f' : Prop := {
  fl_rules : rules f' = rules f;
  fl_chain : chained st (db f');
  fl_cache : cache_ok code_of (contract f');
  fl_gas : 0 <= Gas (contract f') <= Gas (contract f)
}.

Lemma failed_kept st f g h : kept f g -> failed st g h -> failed st f h.
Proof. intros [H1 H2 H3 H4] [K1 K2 K3 K4]. split; [congruence|done..|lia]. Qed.

Lemma frame_failed st bound n f g : kept f g -> frame_at st bound n g -> failed st f g.
Proof.
  intros [H1 H2 H3 H4] K. destruct (fr_contract _ _ _ _ K) as (Kc & Kg & _). unfold is_u64 in Kg.
  split; [done|apply (fr_db _ _ _ _ K)|done|lia].
Qed.

(** ** Changes of a frame *)

Lemma frame_mono st bound n n' f : frame_at st bound n f -> n' <= n -> frame_at st bound n' f.
Proof. intros [] Hn. split; try done. by eapply db_ok_mono. Qed.

Lemma frame_stack st bound n f l :
  frame_at st bound n f -> Forall is_u256 l -> zlen l <= 1024 -> frame_at st bound n (set_stack f (rev l)).
Proof. intros [] Hl Hz. split; cbn; try done; [by apply Forall_rev|by rewrite zlen_rev]. Qed.

Lemma frame_mem st bound n f m : frame_at st bound n f -> mem_good m -> frame_at st bound n (set_mem f m).
Proof. intros [] Hm. by split. Qed.

Lemma frame_db st bound n n' f t :
  frame_at st bound n f -> db_ok (rules f) st bound n' t -> lives (db f) t -> warms (db f) t -> frame_at st bound n' (set_db f t).
Proof. intros [] Ht Hl Hw. split; cbn; try done; [by eapply lives_exist|]. intros Hy. by apply Hw, fr_warm0. Qed.

Lemma frame_evolves st bound n f t : frame_at st bound n f -> evolves (db f) t -> frame_at st bound n (set_db f t).
Proof. intros H E. eapply frame_db; [done|eapply db_ok_evolves; [apply H|done]|apply E..]. Qed.

Lemma frame_pc st bound n f p : frame_at st bound n f -> is_u64 p -> frame_at st bound n (set_pc f p).
Proof. intros [] Hp. by split. Qed.

Lemma frame_rstack st bound n f l : frame_at st bound n f -> frame_at st bound n (set_rstack f l).
Proof. intros []. by split. Qed.

Lemma frame_returnData st bound n f d : frame_at st bound n f -> data_ok d -> frame_at st bound n (set_returnData f d).
Proof. intros [] Hd. by split. Qed.

Lemma frame_callGasTemp st bound n f g : frame_at st bound n f -> frame_at st bound n (set_callGasTemp f g).
Proof. intros []. by split. Qed.

Lemma frame_contract st bound n f c :
  frame_at st bound n f -> contract_ok c -> self c = self (contract f) -> frame_at st bound n (set_contract f c).
Proof. intros [] Hc Hs. split; cbn; rewrite ?Hs; done. Qed.

Lemma contract_ok_gas c g : contract_ok c -> is_u64 g -> contract_ok (set_gas c g).
Proof. intros (H1 & H2 & H3 & H4) Hg. by split_and!. Qed.

(** The stack, from its top. *)
Lemma frame_top st bound n f :
  frame_at st bound n f -> exists l, stack f = rev l /\ Forall is_u256 l /\ zlen l = zlen (stack f).
Proof.
  intros H. exists (rev (stack f)). rewrite rev_involutive, zlen_rev. split; [done|]. split; [|done]. apply Forall_rev, H.
Qed.

(** ** Instructions *)

Definition ok_post st (bound n : Z) f (delta : Z) : post bytes := fun f' r =>
  match r with
  | inr res => frame_at st bound n f' /\ kept f f' /\ zlen (stack f') = zlen (stack f) + delta /\ data_ok res
  | inl e => failed st f f'
  end.

(** An execution function that takes [k] operands, changes the size of the stack
    by [delta] and needs [pre]. *)
Definition exec_ok (k delta : Z) (pre : frame -> Prop) (x : X bytes) : Prop :=
  forall st bound n f, frame_at st bound n f -> k <= zlen (stack f) -> zlen (stack f) + delta <= 1024 -> pre f ->
  wp x f (ok_post st bound n f delta).

End Frame.
