(* ===== verification/VmInstrProofs.v ===== *)
(** * The instructions keep the invariant

    For every execution function that calls no other contract: with its operands
    on the stack and its memory in range it ends without panic, keeps the
    invariant of the frame and changes the size of the stack as the table of
    instructions says. *)

From stdpp Require Import gmap.
From S2P Require Import Prelude Rlp Trie AccessList StateDB StateDBProofs StateDBSnapshots StateDBObserve StateDBEffects.
From S2P Require Import Uint256 VmAnalysis VmContract VmMemory VmGas VmPrecompiles VmInstructions VmGasProofs VmSstore VmRefund VmState VmWp VmFrame.

(** Symbolic execution of one primitive. *)
Ltac stack_eq := first [eassumption | reflexivity].

Ltac wp_step :=
  cbv beta zeta;
  lazymatch goal with
  | |- after _ _ _ (inr _) => unfold after
  | |- after _ _ _ (inl _) => unfold after
  | |- wp (simple _) _ _ => unfold simple
  | |- wp (embed _) _ _ => apply wp_embed
  | |- wp (_ ≫= _) _ _ => apply wp_bind
  | |- wp (mret _) _ _ => apply wp_ret
  | |- wpM (_ ≫= _) _ _ => apply wpM_bind
  | |- wpM (mret _) _ _ => apply wpM_ret
  | |- wpM (fail _) _ _ => apply wpM_fail
  | |- wpM (gets _) _ _ => apply wpM_gets
  | |- wpM (modify _) _ _ => apply wpM_modify
  | |- wpM (add_pc _) _ _ => apply wpM_modify
  | |- wpM self_address _ _ => apply wpM_gets
  | |- wpM (query _) _ _ => apply wpM_query
  | |- wpM (update _) _ _ => apply wpM_update
  | |- wpM pop_m _ _ => eapply wpM_pop; [stack_eq|]
  | |- wpM peek_m _ _ => eapply wpM_peek; [stack_eq|]
  | |- wpM (poke _) _ _ => eapply wpM_poke; [stack_eq|]
  | |- wpM (push_m _) _ _ => eapply wpM_push; [stack_eq|]
  end.
Ltac wp_run := repeat wp_step.

(** The operands of an instruction, from the top of the stack. *)
Ltac operands H :=
  let l := fresh "l" in let E := fresh "E" in let Hl := fresh "Hl" in let Hz := fresh "Hz" in
  destruct (frame_top _ _ _ _ H) as (l & E & Hl & Hz).

Ltac pop_operand :=
  let x := fresh "x" in let r := fresh "l" in let Hx := fresh "Hx" in
  lazymatch goal with
  | Hl : Forall is_u256 ?l |- _ =>
      destruct l as [|x r]; [exfalso; unfold zlen in *; cbn in *; lia|];
      apply Forall_cons_1 in Hl as [Hx Hl]; rename r into l
  end.

(** The frame that was reached, in a normal form. *)
Ltac ok_frame F :=
  lazymatch goal with
  | |- ok_post ?st ?bound ?n ?f ?delta _ ?r => change (ok_post st bound n f delta F r)
  end.

(** A state that an operation other than a write leaves. *)
Ltac query_ok c := apply (evolves_exec _ c); [first [eassumption|by eapply frame_wf]|by apply harmless_read|done].

Create HintDb u256.

Notation any := (fun _ : frame => True).

Section Instr.
Context {B : Backend} {BL : BackendLaws B} {CS : CodeStore B} {U : Uint256} {UL : Uint256Laws U} {C : Crypto} {Ev : Evm} (env : Env).
Implicit Types (f : frame) (st : list (revision * StateDB)).

Lemma kept_eq f f' : rules f' = rules f -> db f' = db f -> Gas (contract f') = Gas (contract f) -> kept f f'.
Proof. intros H1 H2 H3. split; [done|by rewrite H2|rewrite H2; by intros ?|lia]. Qed.

(** The end of an instruction that changed the stack only. *)
Lemma ok_stack st bound n f delta l :
  frame_at st bound n f -> Forall is_u256 l -> zlen l = zlen (stack f) + delta -> zlen (stack f) + delta <= 1024 ->
  ok_post st bound n f delta (set_stack f (rev l)) (inr []).
Proof.
  intros H Hl Hz Hd. split; [apply frame_stack; [done..|lia]|]. split; [by apply kept_eq|].
  split; [cbn [stack set_stack]; by rewrite zlen_rev|done].
Qed.

(** Instructions that only compute. *)
Lemma unop_ok g : (forall x, is_u256 x -> is_u256 (g x)) -> exec_ok 1 0 any (unop g).
Proof.
  intros Hg st bound n f H Hk Hd _. operands H. unfold unop. pop_operand. wp_run.
  ok_frame (set_stack f (rev (g x :: l))). apply ok_stack; [done|auto|zlen_lia|done].
Qed.

Lemma binop_ok g :
  (forall x y, is_u256 x -> is_u256 y -> is_u256 (g x y)) -> exec_ok 2 (-1) any (binop g).
Proof.
  intros Hg st bound n f H Hk Hd _. operands H. unfold binop. do 2 pop_operand. wp_run.
  ok_frame (set_stack f (rev (g x x0 :: l))). apply ok_stack; [done|auto|zlen_lia|done].
Qed.

(** *** Words *)

Lemma u256_mod x : is_u256 (x mod 2 ^ 256).
Proof. unfold is_u256. apply Z.mod_pos_bound. done. Qed.

Lemma u256_u64 x : is_u256 (u64 x).
Proof. pose proof (u64_range x) as H. unfold is_u64, is_u256 in *. lia. Qed.

Lemma u256_of_bool b : is_u256 (of_bool b).
Proof. by destruct b. Qed.

Lemma u256_bits x y (g : Z -> Z -> Z) :
  (0 <= x -> 0 <= y -> 0 <= g x y) -> (Z.log2 (g x y) <= Z.max (Z.log2 x) (Z.log2 y)) ->
  is_u256 x -> is_u256 y -> is_u256 (g x y).
Proof.
  intros H0 Hlog Hx Hy. unfold is_u256 in *. split; [apply H0; lia|].
  destruct (decide (g x y = 0)) as [->|Hne]; [lia|]. apply Z.log2_lt_pow2; [specialize (H0 ltac:(lia) ltac:(lia)); lia|].
  assert (forall z, 0 <= z < 2 ^ 256 -> Z.log2 z < 256) as Hl.
  { intros z Hz. destruct (decide (z = 0)) as [->|]; [done|]. apply Z.log2_lt_pow2; lia. }
  pose proof (Hl x Hx). pose proof (Hl y Hy). lia.
Qed.

Lemma u256_SetBytes b : is_u256 (SetBytes b).
Proof. rewrite SetBytes_spec. apply u256_mod. Qed.

Lemma u256_FromBig x : is_u256 (FromBig x).1.
Proof. rewrite FromBig_spec. apply u256_mod. Qed.

Lemma u256_0 : is_u256 0.
Proof. done. Qed.

Lemma u256_div x y : is_u256 x -> is_u256 y -> y <> 0 -> is_u256 (x / y) /\ is_u256 (x mod y).
Proof.
  unfold is_u256. intros Hx Hy Hne. pose proof (Z.mod_pos_bound x y ltac:(lia)). split; [|lia].
  split; [apply Z.div_pos; lia|]. apply Z.div_lt_upper_bound; nia.
Qed.

Lemma Uint64_u64 x : is_u256 x -> is_u64 (Uint64 x).
Proof. intros H. rewrite Uint64_spec by done. apply u64_range. Qed.

#[local] Hint Resolve u256_mod u256_u64 u256_of_bool u256_SetBytes u256_FromBig u256_0 : u256.

Lemma opAdd_ok : exec_ok 2 (-1) any opAdd.
Proof. apply binop_ok. intros. rewrite Add_spec by done. auto with u256. Qed.
Lemma opSub_ok : exec_ok 2 (-1) any opSub.
Proof. apply binop_ok. intros. rewrite Sub_spec by done. auto with u256. Qed.
Lemma opMul_ok : exec_ok 2 (-1) any opMul.
Proof. apply binop_ok. intros. rewrite Mul_spec by done. auto with u256. Qed.
Lemma opDiv_ok : exec_ok 2 (-1) any opDiv.
Proof. apply binop_ok. intros x y Hx Hy. rewrite Div_spec by done. case_decide; [done|]. by apply u256_div. Qed.
Lemma opSdiv_ok : exec_ok 2 (-1) any opSdiv.
Proof. apply binop_ok. intros. rewrite SDiv_spec by done. case_decide; auto with u256. Qed.
Lemma opMod_ok : exec_ok 2 (-1) any opMod.
Proof. apply binop_ok. intros x y Hx Hy. rewrite Mod_spec by done. case_decide; [done|]. by apply u256_div. Qed.
Lemma opSmod_ok : exec_ok 2 (-1) any opSmod.
Proof. apply binop_ok. intros. rewrite SMod_spec by done. case_decide; auto with u256. Qed.
Lemma opExp_ok : exec_ok 2 (-1) any opExp.
Proof. apply binop_ok. intros. rewrite Exp_spec by done. auto with u256. Qed.
Lemma opSignExtend_ok : exec_ok 2 (-1) any opSignExtend.
Proof. apply binop_ok. intros. rewrite ExtendSign_spec by done. case_decide; auto with u256. Qed.
Lemma opNot_ok : exec_ok 1 0 any opNot.
Proof. apply unop_ok. intros x Hx. rewrite Not_spec by done. unfold is_u256 in *. lia. Qed.
Lemma opLt_ok : exec_ok 2 (-1) any opLt.
Proof. apply binop_ok. auto with u256. Qed.
Lemma opGt_ok : exec_ok 2 (-1) any opGt.
Proof. apply binop_ok. auto with u256. Qed.
Lemma opSlt_ok : exec_ok 2 (-1) any opSlt.
Proof. apply binop_ok. auto with u256. Qed.
Lemma opSgt_ok : exec_ok 2 (-1) any opSgt.
Proof. apply binop_ok. auto with u256. Qed.
Lemma opEq_ok : exec_ok 2 (-1) any opEq.
Proof. apply binop_ok. auto with u256. Qed.
Lemma opIszero_ok : exec_ok 1 0 any opIszero.
Proof. apply unop_ok. auto with u256. Qed.
Lemma opAnd_ok : exec_ok 2 (-1) any opAnd.
Proof.
  apply binop_ok. intros x y Hx Hy. rewrite And_spec by done.
  apply (u256_bits x y Z.land); try done; [intros; apply Z.land_nonneg; auto|]. unfold is_u256 in *. pose proof (Z.log2_land x y). lia.
Qed.
Lemma opOr_ok : exec_ok 2 (-1) any opOr.
Proof.
  apply binop_ok. intros x y Hx Hy. rewrite Or_spec by done.
  apply (u256_bits x y Z.lor); try done; [intros; by apply Z.lor_nonneg|]. unfold is_u256 in *. rewrite Z.log2_lor by lia. done.
Qed.
Lemma opXor_ok : exec_ok 2 (-1) any opXor.
Proof.
  apply binop_ok. intros x y Hx Hy. rewrite Xor_spec by done.
  apply (u256_bits x y Z.lxor); try done; [intros; by apply Z.lxor_nonneg|]. unfold is_u256 in *. apply Z.log2_lxor; lia.
Qed.
Lemma opByte_ok : exec_ok 2 (-1) any opByte.
Proof.
  apply binop_ok. intros x y Hx Hy. rewrite Byte_spec by done. case_decide; [|done]. unfold is_u256.
  pose proof (Z.mod_pos_bound (y ≫ (8 * (31 - x))) 256 ltac:(lia)). lia.
Qed.

Lemma opSHL_ok : exec_ok 2 (-1) any opSHL.
Proof.
  apply binop_ok. intros x y Hx Hy. case_bool_decide; [|done]. pose proof (Uint64_u64 x Hx) as H0. unfold is_u64 in H0.
  rewrite Lsh_spec by (done || lia). auto with u256.
Qed.
Lemma opSHR_ok : exec_ok 2 (-1) any opSHR.
Proof.
  apply binop_ok. intros x y Hx Hy. case_bool_decide; [|done]. pose proof (Uint64_u64 x Hx) as H0. unfold is_u64 in H0.
  rewrite Rsh_spec by (done || lia). unfold is_u256 in *. rewrite Z.shiftr_div_pow2 by lia.
  assert (0 < 2 ^ Uint64 x) by (apply Z.pow_pos_nonneg; lia). split; [by apply Z.div_pos; lia|].
  apply Z.div_lt_upper_bound; nia.
Qed.
Lemma opSAR_ok : exec_ok 2 (-1) any opSAR.
Proof.
  apply binop_ok. intros x y Hx Hy. case_bool_decide; [case_decide; done|]. pose proof (Uint64_u64 x Hx) as H0.
  unfold is_u64 in H0. rewrite SRsh_spec by (done || lia). auto with u256.
Qed.

Lemma opAddmod_ok : exec_ok 3 (-2) any opAddmod.
Proof.
  intros st bound n f H Hk Hd _. operands H. unfold opAddmod. do 3 pop_operand. wp_run. set (z := if IsZero _ then _ else _).
  assert (is_u256 z).
  { unfold z. destruct (IsZero x1) eqn:Ez; [done|]. rewrite IsZero_spec in Ez by done. apply bool_decide_eq_false in Ez.
    rewrite AddMod_spec by done. rewrite decide_False by done. unfold is_u256 in *.
    pose proof (Z.mod_pos_bound (x + x0) x1 ltac:(lia)). lia. }
  ok_frame (set_stack f (rev (z :: l))). apply ok_stack; [done|auto|zlen_lia|done].
Qed.

Lemma opMulmod_ok : exec_ok 3 (-2) any opMulmod.
Proof.
  intros st bound n f H Hk Hd _. operands H. unfold opMulmod. do 3 pop_operand. wp_run.
  assert (is_u256 (MulMod x x0 x1)).
  { rewrite MulMod_spec by done. case_decide; [done|]. unfold is_u256 in *.
    pose proof (Z.mod_pos_bound (x * x0) x1 ltac:(lia)). lia. }
  ok_frame (set_stack f (rev (MulMod x x0 x1 :: l))). apply ok_stack; [done|auto|zlen_lia|done].
Qed.

(** *** Instructions that push a word *)

Lemma pushes_ok (x : X bytes) (v : frame -> Z) :
  (forall f l, stack f = rev l -> wp x f (fun f' r => f' = set_stack f (rev (v f :: l)) /\ r = inr [])) ->
  (forall st bound n f, frame_at st bound n f -> is_u256 (v f)) -> exec_ok 0 1 any x.
Proof.
  intros Hx Hv st bound n f H _ Hd _. operands H. eapply wp_mono; [by apply (Hx f l)|]. intros f' r (-> & ->).
  apply ok_stack; [done|constructor; [by eapply Hv|done]|rewrite zlen_cons; lia|done].
Qed.

Ltac pushes v := apply (pushes_ok _ v); [intros f l E; wp_run; by split|intros; auto with u256].

Lemma opAddress_ok : exec_ok 0 1 any opAddress.
Proof. unfold opAddress. pushes (fun f => address_word (self (contract f))). unfold address_word. auto with u256. Qed.
Lemma opOrigin_ok : exec_ok 0 1 any (opOrigin env).
Proof. unfold opOrigin. pushes (fun _ : frame => address_word (Origin env)). unfold address_word. auto with u256. Qed.
Lemma opCaller_ok : exec_ok 0 1 any opCaller.
Proof. unfold opCaller. pushes (fun f => address_word (CallerAddress (contract f))). unfold address_word. auto with u256. Qed.
Lemma opCallValue_ok : exec_ok 0 1 any opCallValue.
Proof. unfold opCallValue. pushes (fun f => (FromBig (value (contract f))).1). Qed.
Lemma opCallDataSize_ok : exec_ok 0 1 any opCallDataSize.
Proof. unfold opCallDataSize. pushes (fun f => u64 (zlen (Input (contract f)))). Qed.
Lemma opReturnDataSize_ok : exec_ok 0 1 any opReturnDataSize.
Proof. unfold opReturnDataSize. pushes (fun f => u64 (zlen (returnData f))). Qed.
Lemma opCodeSize_ok : exec_ok 0 1 any opCodeSize.
Proof. unfold opCodeSize. pushes (fun f => u64 (zlen (Code (contract f)))). Qed.
Lemma opGasprice_ok : exec_ok 0 1 any (opGasprice env).
Proof. unfold opGasprice. pushes (fun _ : frame => (FromBig (GasPrice env)).1). Qed.
Lemma opCoinbase_ok : exec_ok 0 1 any (opCoinbase env).
Proof. unfold opCoinbase. pushes (fun _ : frame => address_word (Coinbase env)). unfold address_word. auto with u256. Qed.
Lemma opTimestamp_ok : exec_ok 0 1 any (opTimestamp env).
Proof. unfold opTimestamp. pushes (fun _ : frame => (FromBig (Time env)).1). Qed.
Lemma opNumber_ok : exec_ok 0 1 any (opNumber env).
Proof. unfold opNumber. pushes (fun _ : frame => (FromBig (BlockNumber env)).1). Qed.
Lemma opDifficulty_ok : exec_ok 0 1 any (opDifficulty env).
Proof. unfold opDifficulty. pushes (fun _ : frame => (FromBig (Difficulty env)).1). Qed.
Lemma opGasLimit_ok : exec_ok 0 1 any (opGasLimit env).
Proof. unfold opGasLimit. pushes (fun _ : frame => u64 (GasLimit env)). Qed.
Lemma opChainID_ok : exec_ok 0 1 any (opChainID env).
Proof. unfold opChainID. pushes (fun _ : frame => (FromBig (ChainID env)).1). Qed.
Lemma opMsize_ok : exec_ok 0 1 any opMsize.
Proof. unfold opMsize. pushes (fun f => u64 (Len (mem f))). Qed.

Lemma u256_is_u64 x : is_u64 x -> is_u256 x.
Proof. unfold is_u64, is_u256. lia. Qed.

Lemma opPc_ok : exec_ok 0 1 any opPc.
Proof. unfold opPc. pushes (fun f => pc f). eapply u256_is_u64, fr_pc. done. Qed.
Lemma opGas_ok : exec_ok 0 1 any opGas.
Proof. unfold opGas. pushes (fun f => Gas (contract f)). eapply u256_is_u64. by destruct (fr_contract _ _ _ _ H) as (_ & ? & _). Qed.

(** *** Instructions that read the state *)

(** The end of an instruction that changed the stack and filled caches. *)
Lemma ok_stack_db st bound n f delta l t :
  frame_at st bound n f -> evolves (db f) t -> Forall is_u256 l -> zlen l = zlen (stack f) + delta -> zlen (stack f) + delta <= 1024 ->
  ok_post st bound n f delta (set_stack (set_db f t) (rev l)) (inr []).
Proof.
  intros H He Hl Hz Hd. split; [apply frame_stack; [by apply frame_evolves|done|lia]|].
  split; [split; cbn; [done|apply He..|done]|]. split; [cbn [stack set_stack]; by rewrite zlen_rev|done].
Qed.

Lemma opBalance_ok : exec_ok 1 0 any opBalance.
Proof.
  intros st bound n f H Hk Hd _. operands H. unfold opBalance. pop_operand. wp_run.
  set (t := (GetBalance _ _).2). set (v := (FromBig _).1). ok_frame (set_stack (set_db f t) (rev (v :: l))).
  apply ok_stack_db; [done|query_ok (CGetBalance (Bytes20 x))|constructor; [apply u256_FromBig|done]|zlen_lia|done].
Qed.

Lemma opSelfBalance_ok : exec_ok 0 1 any opSelfBalance.
Proof.
  intros st bound n f H Hk Hd _. operands H. unfold opSelfBalance. wp_run.
  set (t := (GetBalance _ _).2). set (v := (FromBig _).1). ok_frame (set_stack (set_db f t) (rev (v :: l))).
  apply ok_stack_db; [done|query_ok (CGetBalance (self (contract f)))|constructor; [apply u256_FromBig|done]|rewrite zlen_cons; lia|done].
Qed.

Lemma opExtCodeSize_ok : exec_ok 1 0 any opExtCodeSize.
Proof.
  intros st bound n f H Hk Hd _. operands H. unfold opExtCodeSize. pop_operand. wp_run.
  set (t := (GetCodeSize _ _).2). set (v := u64 _). ok_frame (set_stack (set_db f t) (rev (v :: l))).
  apply ok_stack_db; [done|query_ok (CGetCodeSize (Bytes20 x))|constructor; [apply u256_u64|done]|zlen_lia|done].
Qed.

Lemma opExtCodeHash_ok : exec_ok 1 0 any opExtCodeHash.
Proof.
  intros st bound n f H Hk Hd _. operands H. unfold opExtCodeHash. pop_operand. wp_run.
  set (t := (Empty _ _).2). assert (Ht : evolves (db f) t) by query_ok (CEmpty (Bytes20 x)).
  destruct ((Empty _ _).1); wp_run.
  - ok_frame (set_stack (set_db f t) (rev (0 :: l))). apply ok_stack_db; [done..|by constructor|zlen_lia|done].
  - set (u := (GetCodeHash _ _).2). set (v := hash_word _). ok_frame (set_stack (set_db f u) (rev (v :: l))).
    pose proof (evolves_wf _ _ Ht) as Wt.
    apply ok_stack_db; [done| |constructor; [apply u256_SetBytes|done]|zlen_lia|done].
    eapply (evolves_trans _ t); [by eapply frame_wf|done|query_ok (CGetCodeHash (Bytes20 x))].
Qed.

Lemma opSload_ok : exec_ok 1 0 any opSload.
Proof.
  intros st bound n f H Hk Hd _. operands H. unfold opSload. pop_operand. unfold getState. wp_run.
  set (t := (GetState _ _ _).2). set (v := hash_word _). ok_frame (set_stack (set_db f t) (rev (v :: l))).
  apply ok_stack_db; [done|query_ok (CGetState (self (contract f)) (Bytes32 x))|constructor; [apply u256_SetBytes|done]|zlen_lia|done].
Qed.

End Instr.

#[export] Hint Resolve u256_mod u256_u64 u256_of_bool u256_SetBytes u256_FromBig u256_0 : u256.
