(* ===== verification/VmInstrState.v ===== *)
(** * Instructions that use the memory, the code and the state

    The continuation of VmInstrProofs: memory, copies, hashing, control flow,
    logs, storage and the end of a contract. *)

From stdpp Require Import gmap.
From S2P Require Import Prelude Rlp Trie AccessList StateDB StateDBProofs StateDBSnapshots StateDBObserve StateDBEffects.
From S2P Require Import Uint256 VmAnalysis VmContract VmMemory VmGas VmPrecompiles VmInstructions VmGasProofs VmSstore VmRefund VmSupply VmState VmWp VmFrame.
From S2P Require Import VmInstrProofs.

Section Instr.
Context {B : Backend} {BL : BackendLaws B} {CS : CodeStore B} {U : Uint256} {UL : Uint256Laws U} {C : Crypto} {Ev : Evm} (env : Env).
Implicit Types (f : frame) (st : list (revision * StateDB)).

(** The operands [i] and [j] are an offset and a size within the memory. *)
Definition in_range (i j : nat) f : Prop :=
  forall l x y, stack f = rev l -> l !! i = Some x -> l !! j = Some y -> covers f x y.
Definition in_range_const (i : nat) (len : Z) f : Prop :=
  forall l x, stack f = rev l -> l !! i = Some x -> covers f x len.

(** The end of an instruction, with what it changed. *)
Lemma ok_end st bound n f delta f' :
  frame_at st bound n f' -> rules f' = rules f -> evolves (db f) (db f') -> Gas (contract f') = Gas (contract f) ->
  zlen (stack f') = zlen (stack f) + delta -> ok_post st bound n f delta f' (inr []).
Proof.
  intros H Hr He Hg Hz. split; [done|]. split; [split; [done|apply He..|lia]|]. split; [done|]. by split.
Qed.

Lemma ok_mem st bound n f delta l m :
  frame_at st bound n f -> mem_like (mem f) m -> Forall is_u256 l -> zlen l = zlen (stack f) + delta -> zlen (stack f) + delta <= 1024 ->
  ok_post st bound n f delta (set_mem (set_stack f (rev l)) m) (inr []).
Proof.
  intros H Hm Hl Hz Hd. apply ok_end; [apply frame_mem; [apply frame_stack; [done..|lia]|apply Hm]|done| |done|].
  - apply (evolves_refl (db f)). by eapply frame_wf.
  - cbn [stack set_mem set_stack]. by rewrite zlen_rev.
Qed.

Lemma covers_len f off len : mem_good (mem f) -> covers f off len -> 0 <= Uint64 len < 2 ^ 38 /\ Uint64 len = len.
Proof.
  intros [Hm _] (Ho & Hl & Hc). pose proof (mem_ok_len _ Hm). unfold is_u256 in *.
  rewrite (proj1 (Uint64_id len ltac:(done) ltac:(lia))). lia.
Qed.

Lemma offset_or_max_u64 x : is_u256 x -> is_u64 (offset_or_max x).
Proof.
  intros Hx. unfold offset_or_max. rewrite Uint64WithOverflow_spec by done. case_bool_decide; [done|]. apply Z.mod_pos_bound. done.
Qed.

Ltac range H := eapply H; [eassumption|reflexivity..].

(** *** Reading memory *)

Lemma opSha3_ok : exec_ok 2 (-1) (in_range 0 1) (opSha3 env).
Proof.
  intros st bound n f H Hk Hd Hr. operands H. unfold opSha3. do 2 pop_operand. wp_run.
  apply wpM_getPtr; [apply (fr_mem _ _ _ _ H)|range Hr|]. intros d Hz' Hdk. wp_run.
  set (v := SetBytes _). destruct (EnablePreimageRecording env); wp_run.
  - set (t := AddPreimage _ _ _). ok_frame (set_stack (set_db f t) (rev (v :: l))).
    apply ok_stack_db; [done| |constructor; [apply u256_SetBytes|done]|zlen_lia|done].
    apply (evolves_exec _ (CAddPreimage (be_to_Z (Keccak256 d)) d)); [by eapply frame_wf|done|done].
  - ok_frame (set_stack f (rev (v :: l))). apply ok_stack; [done|constructor; [apply u256_SetBytes|done]|zlen_lia|done].
Qed.

Lemma opMload_ok : exec_ok 1 0 (in_range_const 0 32) opMload.
Proof.
  intros st bound n f H Hk Hd Hr. operands H. unfold opMload. pop_operand. wp_run.
  destruct (GetPtr_covers (E:=Empty_set) f x 32) as (d & Ed & _); [apply (fr_mem _ _ _ _ H)|range Hr|].
  rewrite (proj2 (Uint64_id 32 ltac:(done) ltac:(done))) in Ed.
  eapply wpM_lift; [exact Ed|]. wp_run. ok_frame (set_stack f (rev (SetBytes d :: l))).
  apply ok_stack; [done|constructor; [apply u256_SetBytes|done]|zlen_lia|done].
Qed.

Lemma opReturn_ok : exec_ok 2 (-2) (in_range 0 1) opReturn.
Proof.
  intros st bound n f H Hk Hd Hr. operands H. unfold opReturn. do 2 pop_operand. wp_run.
  apply wpM_getPtr; [apply (fr_mem _ _ _ _ H)|range Hr|]. intros d Hz' Hdk.
  ok_frame (set_stack f (rev l)).
  destruct (ok_stack st bound n f (-2) l) as (K1 & K2 & K3 & _); [done|done|zlen_lia|done|]. by split_and!.
Qed.

Lemma opRevert_ok : exec_ok 2 (-2) (in_range 0 1) opRevert.
Proof. exact opReturn_ok. Qed.

(** *** Writing memory *)

Lemma opMstore_ok : exec_ok 2 (-2) (in_range_const 0 32) opMstore.
Proof.
  intros st bound n f H Hk Hd Hr. operands H. unfold opMstore. do 2 pop_operand. wp_run.
  destruct (fr_mem _ _ _ _ H) as [Hm Hbs]. pose proof (mem_ok_len _ Hm) as Hlen.
  assert (covers f x 32) as (_ & _ & Hc) by (range Hr). unfold is_u256 in Hx. destruct Hc as [Hc|Hc]; [done|].
  eapply (wpM_set_memory _ _ (mk_Memory (copy_into (store (mem f)) x 32 (be_bytes 32 x0)) (lastGasCost (mem f)))).
  - cbn [mem set_stack]. unfold Set32. rewrite (proj1 (Uint64_id x ltac:(done) ltac:(lia))).
    rewrite u64_id by (unfold is_u64; lia). rewrite decide_False by lia.
    destruct (go_slice_bytes (E:=Empty_set) (store (mem f)) x (x + 32) Hbs) as (d & -> & _); [unfold Len in *; lia..|]. done.
  - wp_run. set (m := mk_Memory _ _). ok_frame (set_mem (set_stack f (rev l)) m). apply ok_mem; [done| |done|zlen_lia|done]. apply mem_like_store; [done|apply zlen_copy_into; unfold Len in *; lia|].
    apply copy_into_bytes; [done|apply be_bytes_ok].
Qed.

Lemma opMstore8_ok : exec_ok 2 (-2) (in_range_const 0 1) opMstore8.
Proof.
  intros st bound n f H Hk Hd Hr. operands H. unfold opMstore8. do 2 pop_operand. wp_run.
  destruct (fr_mem _ _ _ _ H) as [Hm Hbs]. pose proof (mem_ok_len _ Hm) as Hlen.
  assert (covers f x 1) as (_ & _ & Hc) by (range Hr). unfold is_u256 in Hx. destruct Hc as [Hc|Hc]; [done|].
  eapply (wpM_set_memory _ _ (mk_Memory (<[Z.to_nat x := u8 (Uint64 x0)]> (store (mem f))) (lastGasCost (mem f)))).
  - cbn [mem set_stack]. rewrite (proj1 (Uint64_id x ltac:(done) ltac:(lia))).
    destruct (lookup_lt_is_Some_2 (store (mem f)) (Z.to_nat x)) as [b Hb]; [unfold Len, zlen in *; lia|].
    by rewrite (go_index_at _ _ b) by (done || lia).
  - wp_run. set (m := mk_Memory _ _). ok_frame (set_mem (set_stack f (rev l)) m). apply ok_mem; [done| |done|zlen_lia|done]. apply mem_like_store; [done|unfold zlen, Len; by rewrite length_insert|].
    apply Forall_insert; [done|apply u8_byte].
Qed.

(** A copy of bytes to the memory. *)
Lemma ok_copy st bound n f delta l off len d :
  frame_at st bound n f -> covers f off len -> bytes_ok d -> Forall is_u256 l -> zlen l = zlen (stack f) + delta ->
  zlen (stack f) + delta <= 1024 ->
  wpM (set_memory (fun m => Memory_Set m (Uint64 off) (Uint64 len) d)) (set_stack f (rev l))
    (after (fun _ f => wpM (mret []) f) (ok_post st bound n f delta)).
Proof.
  intros H Hc Hd Hl Hz Hlt. apply wpM_Memory_Set; [apply (fr_mem _ _ _ _ H)|done..|]. intros m Hm. wp_run.
  ok_frame (set_mem (set_stack f (rev l)) m). by apply ok_mem.
Qed.

(** The code that is read is a slice of bytes. *)
Lemma GetCode_ok s a : coded s -> data_ok (default [] (GetCode s a).1).
Proof.
  intros K. destruct (getters s a 0) as (_ & _ & _ & _ & _ & _ & -> & _).
  destruct (live s a) as [o|] eqn:E; [|by repeat constructor]. specialize (K a o E).
  destruct (eff_code o) as [c|] eqn:Ec; [|by repeat constructor]. destruct (K c Ec) as [->|[_ Hc]]; [by repeat constructor|done].
Qed.

Lemma opCallDataLoad_ok : exec_ok 1 0 any opCallDataLoad.
Proof.
  intros st bound n f H Hk Hd _. operands H. unfold opCallDataLoad. pop_operand. wp_run.
  rewrite Uint64WithOverflow_spec by done. case_bool_decide; wp_run.
  - ok_frame (set_stack f (rev (0 :: l))). apply ok_stack; [done|by constructor|zlen_lia|done].
  - destruct (fr_contract _ _ _ _ H) as (_ & _ & Hi & _).
    destruct (getData_total (E:=Empty_set) (Input (contract f)) (x mod 2 ^ 64) 32) as (d & Ed & _);
      [done|by apply Z.mod_pos_bound|done|]. eapply wpM_lift; [exact Ed|]. wp_run.
    ok_frame (set_stack f (rev (SetBytes d :: l))). apply ok_stack; [done|constructor; [apply u256_SetBytes|done]|zlen_lia|done].
Qed.

Lemma opCallDataCopy_ok : exec_ok 3 (-3) (in_range 0 2) opCallDataCopy.
Proof.
  intros st bound n f H Hk Hd Hr. operands H. unfold opCallDataCopy. do 3 pop_operand.
  assert (Hc : covers f x x1) by (range Hr). pose proof (covers_len _ _ _ (fr_mem _ _ _ _ H) Hc) as (Hl1 & _).
  destruct (fr_contract _ _ _ _ H) as (_ & _ & Hi & _). pose proof (offset_or_max_u64 x0 Hx0) as Ho.
  destruct (getData_total (E:=Empty_set) (Input (contract f)) (offset_or_max x0) (Uint64 x1)) as (d & Ed & Hbs & _);
    [done|apply Ho|lia|]. wp_run. eapply wpM_lift; [exact Ed|]. wp_run.
  refine (ok_copy st bound n f (-3) l x x1 d _ _ _ _ _ _); [done..|zlen_lia|done].
Qed.

Lemma opCodeCopy_ok : exec_ok 3 (-3) (in_range 0 2) opCodeCopy.
Proof.
  intros st bound n f H Hk Hd Hr. operands H. unfold opCodeCopy. do 3 pop_operand.
  assert (Hc : covers f x x1) by (range Hr). pose proof (covers_len _ _ _ (fr_mem _ _ _ _ H) Hc) as (Hl1 & _).
  destruct (fr_contract _ _ _ _ H) as (_ & _ & _ & Hi). pose proof (offset_or_max_u64 x0 Hx0) as Ho.
  destruct (getData_total (E:=Empty_set) (Code (contract f)) (offset_or_max x0) (Uint64 x1)) as (d & Ed & Hbs & _);
    [done|apply Ho|lia|]. wp_run. eapply wpM_lift; [exact Ed|]. wp_run.
  refine (ok_copy st bound n f (-3) l x x1 d _ _ _ _ _ _); [done..|zlen_lia|done].
Qed.

Lemma ok_post_db st bound n f t delta f' r :
  frame_at st bound n f -> evolves (db f) t -> ok_post st bound n (set_db f t) delta f' r -> ok_post st bound n f delta f' r.
Proof.
  intros H He K. assert (Hk : kept f (set_db f t)) by (split; [done|apply He..|done]).
  destruct r as [e|res]; cbn in *; [by eapply failed_kept|]. destruct K as (K1 & K2 & K3 & K4). split_and!; try done.
  by eapply kept_trans.
Qed.

Lemma opExtCodeCopy_ok : exec_ok 4 (-4) (in_range 1 3) opExtCodeCopy.
Proof.
  intros st bound n f H Hk Hd Hr. operands H. unfold opExtCodeCopy. do 4 pop_operand.
  assert (Hc : covers f x0 x2) by (range Hr). pose proof (covers_len _ _ _ (fr_mem _ _ _ _ H) Hc) as (Hl1 & _).
  pose proof (GetCode_ok (db f) (Bytes20 x) (do_coded _ _ _ _ _ (fr_db _ _ _ _ H))) as Hi.
  pose proof (offset_or_max_u64 x1 Hx1) as Ho.
  destruct (getData_total (E:=Empty_set) _ (offset_or_max x1) (Uint64 x2) Hi) as (d & Ed & Hbs & _); [apply Ho|lia|].
  wp_run. eapply wpM_lift; [exact Ed|]. wp_run. set (t := (GetCode _ _).2).
  assert (Ht : evolves (db f) t) by query_ok (CGetCode (Bytes20 x)).
  eapply wpM_mono; [refine (ok_copy st bound n (set_db f t) (-4) l x0 x2 d _ Hc Hbs Hl _ _)|].
  - by apply frame_evolves.
  - cbn. zlen_lia.
  - done.
  - intros f' [e|r] K; unfold after in *; [by eapply ok_post_db|]. eapply wpM_mono; [exact K|]. intros. by eapply ok_post_db.
Qed.

Lemma failed_same st bound n f f' : frame_at st bound n f -> rules f' = rules f -> db f' = db f -> contract f' = contract f -> failed st f f'.
Proof.
  intros H Hr Hdb Hct. destruct (fr_contract _ _ _ _ H) as (Kc & Kg & _). unfold is_u64 in Kg.
  split; [done|rewrite Hdb; apply (fr_db _ _ _ _ H)|by rewrite Hct|rewrite Hct; lia].
Qed.

Lemma opReturnDataCopy_ok : exec_ok 3 (-3) (in_range 0 2) opReturnDataCopy.
Proof.
  intros st bound n f H Hk Hd Hr. operands H. unfold opReturnDataCopy. do 3 pop_operand.
  assert (Hc : covers f x x1) by (range Hr). pose proof (covers_len _ _ _ (fr_mem _ _ _ _ H) Hc) as (Hl1 & Hl2).
  destruct (fr_return _ _ _ _ H) as [Hrb Hrz]. wp_run.
  rewrite Uint64WithOverflow_spec by done. case_bool_decide as Hx64; wp_run; [by eapply failed_same|].
  rewrite Add_spec by done. unfold is_u256 in *. rewrite (Z.mod_small (x0 + x1)) by lia.
  rewrite Uint64WithOverflow_spec by (unfold is_u256; lia). wp_run.
  destruct (bool_decide (2 ^ 64 <= x0 + x1) || _) eqn:Eo; wp_run; [by eapply failed_same|].
  apply orb_false_iff in Eo as [E1 E2]. rewrite bool_decide_eq_false in E1, E2. rewrite !Z.mod_small in * by lia.
  cbn [returnData set_stack] in *.
  destruct (go_slice_bytes (E:=Empty_set) (returnData f) x0 (x0 + x1) Hrb) as (d & Ed & _ & Hbs); [lia..|].
  eapply wpM_lift; [exact Ed|]. wp_run.
  refine (ok_copy st bound n f (-3) l x x1 d _ _ _ _ _ _); [done..|zlen_lia|done].
Qed.

Lemma opBlockhash_ok : exec_ok 1 0 any (opBlockhash env).
Proof.
  intros st bound n f H Hk Hd _. operands H. unfold opBlockhash. pop_operand. wp_run.
  rewrite Uint64WithOverflow_spec by done.
  assert (Hw : forall v, is_u256 v -> wpM (poke v) f (after (fun _ f => wpM (mret []) f) (ok_post st bound n f 0))).
  { intros v Hv. wp_run. ok_frame (set_stack f (rev (v :: l))). apply ok_stack; [done|by constructor|zlen_lia|done]. }
  case_bool_decide; [by apply Hw|]. case_decide; [|by apply Hw]. apply Hw, u256_SetBytes.
Qed.

Lemma opPop_ok : exec_ok 1 (-1) any opPop.
Proof.
  intros st bound n f H Hk Hd _. operands H. unfold opPop. pop_operand. wp_run.
  ok_frame (set_stack f (rev l)). apply ok_stack; [done..|zlen_lia|done].
Qed.

(** *** Control flow *)

Lemma same_call_ok c c' : contract_ok c -> same_call c c' -> cache_ok code_of c' -> contract_ok c' /\ self c' = self c /\ Gas c' = Gas c.
Proof. intros (H1 & H2 & H3 & H4) (ch & a & [->| ->]) Hc; by split_and!. Qed.

(** The end of an instruction that moved the program counter. *)
Lemma ok_jump st bound n f delta l c rs p :
  frame_at st bound n f -> same_call (contract f) c -> cache_ok code_of c -> Forall is_u256 l ->
  zlen l = zlen (stack f) + delta -> zlen (stack f) + delta <= 1024 -> is_u64 p ->
  ok_post st bound n f delta (set_pc (set_rstack (set_contract (set_stack f (rev l)) c) rs) p) (inr []).
Proof.
  intros H Hs Hc Hl Hz Hd Hp. destruct (same_call_ok _ _ (fr_contract _ _ _ _ H) Hs Hc) as (K1 & K2 & K3).
  apply ok_end; [|done|by apply (evolves_refl (db f)), (frame_wf st bound n)|done|cbn [stack set_pc set_rstack set_contract set_stack]; by rewrite zlen_rev].
  apply frame_pc; [|done]. apply frame_rstack, frame_contract; [|done..]. by apply frame_stack; [|done|lia].
Qed.

Lemma failed_jump st bound n f f' :
  frame_at st bound n f -> rules f' = rules f -> db f' = db f -> same_call (contract f) (contract f') -> cache_ok code_of (contract f') ->
  failed st f f'.
Proof.
  intros H Hr Hdb Hs Hc. destruct (same_call_ok _ _ (fr_contract _ _ _ _ H) Hs Hc) as ((_ & K1 & _) & _ & K3). unfold is_u64 in K1.
  split; [done|rewrite Hdb; apply (fr_db _ _ _ _ H)|done|lia].
Qed.

Lemma wp_check_jump check f ok c Q :
  check (contract f) = run (Ret (ok, c)) -> Q (set_contract f c) (inr ok) -> wp (check_jump check) f Q.
Proof. intros E H. exists (set_contract f c), (inr ok). unfold check_jump. by rewrite E. Qed.

Lemma jump_to_ok st bound n f delta l x :
  frame_at st bound n f -> is_u256 x -> Forall is_u256 l -> zlen l = zlen (stack f) + delta -> zlen (stack f) + delta <= 1024 ->
  wp (jump_to x) (set_stack f (rev l)) (ok_post st bound n f delta).
Proof.
  intros H Hx Hl Hz Hd. destruct (fr_contract _ _ _ _ H) as (Hc & _).
  destruct (validJumpdest_spec code_of (contract f) x Hx Hc) as (c' & E & Hc' & Hs).
  unfold jump_to. wp_run. eapply wp_check_jump; [exact E|]. unfold after. case_bool_decide; wp_run.
  - ok_frame (set_pc (set_rstack (set_contract (set_stack f (rev l)) c') (rstack f)) (Uint64 x)).
    apply ok_jump; try done. by apply Uint64_u64.
  - by eapply failed_jump.
Qed.

Lemma opJump_ok : exec_ok 1 (-1) any opJump.
Proof.
  intros st bound n f H Hk Hd _. operands H. unfold opJump. pop_operand. wp_run.
  apply jump_to_ok; try done. zlen_lia.
Qed.

Lemma same_call_refl c : same_call c c.
Proof. exists ∅, []. by left. Qed.

Lemma opJumpi_ok : exec_ok 2 (-2) any opJumpi.
Proof.
  intros st bound n f H Hk Hd _. operands H. unfold opJumpi. do 2 pop_operand. wp_run.
  destruct (negb (IsZero x0)).
  - refine (jump_to_ok st bound n f (-2) l x H Hx Hl _ Hd). zlen_lia.
  - wp_run. ok_frame (set_pc (set_rstack (set_contract (set_stack f (rev l)) (contract f)) (rstack f)) (u64 (pc f + 1))).
    destruct (fr_contract _ _ _ _ H) as (Hc & _).
    apply ok_jump; [done|apply same_call_refl|done|done|zlen_lia|done|apply u64_range].
Qed.

Lemma opStop_ok : exec_ok 0 0 any opStop.
Proof.
  intros st bound n f H Hk Hd _. unfold opStop. wp_run. apply ok_end; [done|done|by apply evolves_refl, (frame_wf st bound n)|done|lia].
Qed.

Lemma opJumpdest_ok : exec_ok 0 0 any opJumpdest.
Proof. exact opStop_ok. Qed.

Lemma opBeginSub_ok : exec_ok 0 0 any opBeginSub.
Proof. intros st bound n f H Hk Hd _. unfold opBeginSub. wp_run. by eapply failed_same. Qed.

Lemma opJumpSub_ok : exec_ok 1 (-1) any opJumpSub.
Proof.
  intros st bound n f H Hk Hd _. operands H. unfold opJumpSub. pop_operand. wp_run.
  case_decide; wp_run; [by eapply failed_same|]. destruct (IsUint64 x); cbn [negb]; wp_run; [|by eapply failed_same].
  destruct (fr_contract _ _ _ _ H) as (Hc & _).
  destruct (validJumpSubdest_spec code_of (contract f) (Uint64 x) (Uint64_u64 x Hx) Hc) as (c' & E' & Hc' & Hs).
  eapply wp_check_jump; [exact E'|]. unfold after. case_bool_decide; wp_run; [|by eapply failed_jump].
  ok_frame (set_pc (set_rstack (set_contract (set_stack f (rev l)) c') (rstack f ++ [pc f mod 2 ^ 32])) (u64 (Uint64 x + 1))).
  apply ok_jump; try done; [zlen_lia|apply u64_range].
Qed.

Lemma opReturnSub_ok : exec_ok 0 0 any opReturnSub.
Proof.
  intros st bound n f H Hk Hd _. operands H. unfold opReturnSub. wp_run.
  case_decide as Hrs; wp_run; [by eapply failed_same|]. destruct (fr_contract _ _ _ _ H) as (Hc & _).
  assert (exists rs p, rstack f = rev (p :: rs)) as (rs & p & Ers).
  { destruct (rev (rstack f)) as [|p rs] eqn:Er; [|exists rs, p; by rewrite <- Er, rev_involutive].
    apply (f_equal (@rev _)) in Er. rewrite rev_involutive in Er. by rewrite Er in Hrs. }
  eapply wpM_lift; [rewrite Ers; apply top_rev|]. wp_run.
  pose proof (pop_rev (E:=Empty_set) p rs) as Ep. unfold pop in Ep. rewrite top_rev in Ep. cbn [mbind outcome_bind] in Ep.
  destruct (go_to (rev (p :: rs)) (zlen (rev (p :: rs)) - 1)) as [rest| |] eqn:Eg; try done. injection Ep as ->.
  eapply wpM_lift; [rewrite Ers; exact Eg|]. wp_run.
  ok_frame (set_pc (set_rstack (set_contract (set_stack f (stack f)) (contract f)) (rev rs)) (u64 (p + 1))).
  rewrite E. apply ok_jump; [done|apply same_call_refl|done|done|lia|lia|apply u64_range].
Qed.

(** *** Pushing, duplicating and exchanging words *)

Lemma go_index_Forall {E A} (P : A -> Prop) l i : Forall P l -> 0 <= i < zlen l -> exists x, go_index (E:=E) l i = Ret x /\ P x.
Proof.
  intros Hl Hi. destruct (lookup_lt_is_Some_2 l (Z.to_nat i)) as [x Hx]; [unfold zlen in *; lia|]. exists x.
  split; [by apply go_index_at; [lia|]|]. by eapply Forall_lookup_1.
Qed.

Lemma opPush1_ok : exec_ok 0 1 any opPush1.
Proof.
  intros st bound n f H Hk Hd _. operands H. unfold opPush1. wp_run.
  set (p := u64 (pc f + 1)). assert (Hp : is_u64 p) by apply u64_range.
  assert (Hw : forall v, is_u256 v -> ok_post st bound n f 1 (set_stack (set_pc f p) (rev (v :: l))) (inr [])).
  { intros v Hv. apply ok_end; [|done|by apply (evolves_refl (db f)), (frame_wf st bound n)|done|].
    - apply frame_stack; [by apply frame_pc|by constructor|rewrite zlen_cons; lia].
    - cbn [stack set_stack]. rewrite zlen_rev, zlen_cons. lia. }
  case_decide as Hlt.
  - destruct (fr_contract _ _ _ _ H) as (_ & _ & _ & Hc & _). unfold is_u64 in Hp. cbn [pc contract set_pc] in Hlt.
    destruct (go_index_Forall (E:=Empty_set) _ _ p Hc) as (b & Eb & _); [lia|].
    wp_run. eapply wpM_lift; [exact Eb|]. wp_run. apply Hw, u256_u64.
  - wp_run. apply Hw. done.
Qed.

(** The instruction is within the code. *)
Definition within f : Prop := pc f < zlen (Code (contract f)).

Lemma makePush_ok size n : 0 <= n < 2 ^ 62 -> exec_ok 0 1 within (makePush size n).
Proof.
  intros Hn st bound N f H Hk Hd Hw. operands H. unfold makePush. unfold within in Hw.
  destruct (fr_contract _ _ _ _ H) as (_ & _ & _ & Hc & Hcz). pose proof (fr_pc _ _ _ _ H) as Hpc. unfold is_u64 in Hpc.
  wp_run. set (s := if decide (i64 _ < _) then _ else _).
  assert (Hs : 0 <= s <= zlen (Code (contract f))).
  { unfold s. rewrite u64_id by (unfold is_u64; lia). destruct (decide (pc f + 1 < 2 ^ 63)).
    - rewrite i64_id by lia. case_decide; unfold zlen in *; lia.
    - lia. }
  set (e := if decide (s + n < _) then _ else _). assert (s <= e <= zlen (Code (contract f))) by (unfold e; case_decide; lia).
  destruct (go_slice_bytes (E:=Empty_set) (Code (contract f)) s e Hc) as (d & Ed & _); [lia..|].
  eapply wpM_lift; [exact Ed|]. wp_run. set (v := SetBytes _).
  ok_frame (set_pc (set_stack f (rev (v :: l))) (u64 (pc f + size))).
  apply ok_end; [|done|by apply (evolves_refl (db f)), (frame_wf st bound N)|done|].
  - apply frame_pc; [|apply u64_range]. apply frame_stack; [done|constructor; [apply u256_SetBytes|done]|rewrite zlen_cons; lia].
  - cbn [stack set_pc set_stack]. rewrite zlen_rev, zlen_cons. lia.
Qed.

Lemma ok_whole_stack st bound n f delta s :
  frame_at st bound n f -> Forall is_u256 s -> zlen s = zlen (stack f) + delta -> zlen (stack f) + delta <= 1024 ->
  ok_post st bound n f delta (set_stack f s) (inr []).
Proof.
  intros H Hl Hz Hd. rewrite <- (rev_involutive s). apply ok_stack; [done|by apply Forall_rev|by rewrite zlen_rev|done].
Qed.

Lemma makeDup_ok n : 0 < n -> exec_ok n 1 any (makeDup n).
Proof.
  intros Hn st bound N f H Hk Hd _. unfold makeDup. wp_run. pose proof (fr_stack _ _ _ _ H) as Hf.
  destruct (go_index_Forall (E:=Empty_set) _ _ (zlen (stack f) - n) Hf) as (x & Ex & Hx); [lia|].
  exists (set_stack f (push (stack f) x)), (inr tt). unfold dup. rewrite Ex. split; [done|]. wp_run.
  apply ok_whole_stack; [done|by apply Forall_app_2; [|constructor]|unfold push; rewrite zlen_app; zlen_lia|done].
Qed.

Lemma makeSwap_ok n : 0 < n -> exec_ok (n + 1) 0 any (makeSwap n).
Proof.
  intros Hn st bound N f H Hk Hd _. unfold makeSwap. wp_run. pose proof (fr_stack _ _ _ _ H) as Hf.
  destruct (go_index_Forall (E:=Empty_set) _ _ (zlen (stack f) - 1) Hf) as (x & Ex & Hx); [lia|].
  destruct (go_index_Forall (E:=Empty_set) _ _ (zlen (stack f) - (n + 1)) Hf) as (y & Ey & Hy); [lia|].
  eexists _, (inr tt). unfold swap. rewrite Ex. cbn [mbind outcome_bind]. rewrite Ey. split; [done|]. wp_run.
  apply ok_whole_stack; [done|by repeat apply Forall_insert|unfold zlen; rewrite !length_insert; lia|lia].
Qed.

(** *** Logs and the end of a contract *)

Lemma wpM_pop_topics k f l r Q :
  stack f = rev (l ++ r) -> length l = k -> (forall ts, Q (set_stack f (rev r)) (inr ts)) -> wpM (pop_topics k) f Q.
Proof.
  revert f l Q. induction k as [|k IH]; intros f l Q E Hk HQ; cbn [pop_topics].
  - destruct l; [|done]. apply wpM_ret. cbn [app] in E. assert (Ef : f = set_stack f (rev r)) by (rewrite <- E; by destruct f). rewrite Ef. apply HQ.
  - destruct l as [|x l]; [done|]. injection Hk as Hk. wp_run. eapply (IH _ l); [done|done|]. intros ts. wp_run. apply HQ.
Qed.

Lemma makeLog_ok (n : nat) : exec_ok (Z.of_nat n + 2) (- (Z.of_nat n + 2)) (in_range 0 1) (makeLog env n).
Proof.
  intros st bound N f H Hk Hd Hr. operands H. unfold makeLog. do 2 pop_operand. wp_run.
  assert (Hc : covers f x x0) by (range Hr). cbn in Hz. assert (n <= length l)%nat by (unfold zlen in *; cbn in *; lia).
  eapply (wpM_pop_topics n _ (take n l) (drop n l)); [by rewrite take_drop|rewrite length_take; lia|]. intros ts. wp_run.
  apply wpM_getCopy; [apply (fr_mem _ _ _ _ H)|exact Hc|]. intros d _ _. wp_run. set (lg := mk_Log _ _ _ _ _ _ _ _).
  ok_frame (set_stack (set_db f (AddLog (db f) lg)) (rev (drop n l))).
  apply ok_stack_db; [done| |by apply Forall_drop|unfold zlen in *; rewrite length_drop; cbn in *; lia|done].
  query_ok (CAddLog lg).
Qed.

Lemma opSuicide_ok : exec_ok 1 (-1) any opSuicide.
Proof.
  intros st bound n f H Hk Hd _. operands H. unfold opSuicide. pop_operand. wp_run.
  set (a := self (contract f)). set (b := (GetBalance (db f) a).1). set (t := (GetBalance (db f) a).2).
  set (u := AddBalance t (Bytes20 x) b). set (v := (Suicide u a).2). ok_frame (set_stack (set_db f v) (rev l)).
  pose proof (frame_wf _ _ _ _ H) as W.
  assert (Ht : evolves (db f) t) by query_ok (CGetBalance a). pose proof (evolves_wf _ _ Ht) as Wt.
  assert (Hv : evolves t v).
  { unfold v, u, b. rewrite GetBalance_balance. rewrite <- (balance_quiet (db f) t) by apply GetBalance_quiet. by apply Suicide_evolves. }
  apply ok_stack_db; [done| |done|zlen_lia|done]. by eapply evolves_trans.
Qed.

End Instr.
