(* ===== verification/VmGasTotal.v ===== *)
(** * The gas functions never panic

    Run on a frame that satisfies the invariant, with the operands of the
    instruction on the stack, every gas function ends; when it succeeds, the
    invariant holds again after the memory is resized ([paid]), and the cost is
    at least what the instruction is worth. *)

From stdpp Require Import gmap.
From S2P Require Import Prelude Rlp Trie AccessList StateDB StateDBProofs StateDBSnapshots StateDBObserve StateDBEffects.
From S2P Require Import Uint256 VmAnalysis VmContract VmMemory VmGas VmPrecompiles VmInstructions VmGasProofs VmSstore VmRefund VmState VmWp VmFrame.
From S2P Require Import VmInstrProofs VmInstrState.

Section GasTotal.
Context {B : Backend} {BL : BackendLaws B} {CS : CodeStore B} {U : Uint256} {UL : Uint256Laws U} {C : Crypto}.
Implicit Types (f : frame) (st : list (revision * StateDB)).

(** ** Arithmetic *)

Lemma wpM_safe_add x y f Q :
  is_u64 x -> is_u64 y -> (x + y < 2 ^ 64 -> Q f (inr (x + y))) -> Q f (inl ErrGasUintOverflow) -> wpM (safe_add x y) f Q.
Proof.
  intros Hx Hy H1 H2. unfold wpM. rewrite safe_add_spec by done. case_decide; eexists _, _; (split; [done|]); [done|].
  apply H1. lia.
Qed.

Lemma wpM_safe_mul x y f Q :
  is_u64 x -> is_u64 y -> (x * y < 2 ^ 64 -> Q f (inr (x * y))) -> Q f (inl ErrGasUintOverflow) -> wpM (safe_mul x y) f Q.
Proof.
  intros Hx Hy H1 H2. unfold wpM. rewrite safe_mul_spec by done. case_decide; eexists _, _; (split; [done|]); [done|].
  apply H1. lia.
Qed.

Lemma wpM_back_uint64 f l (n : nat) x Q :
  stack f = rev l -> l !! n = Some x -> is_u256 x -> (is_u64 x -> Q f (inr x)) -> Q f (inl ErrGasUintOverflow) ->
  wpM (back_uint64 (Z.of_nat n)) f Q.
Proof.
  intros E Hl Hx H1 H2. unfold wpM. rewrite (back_uint64_spec _ _ x) by (by eapply operand_rev).
  case_decide; eexists _, _; (split; [done|]); [done|]. apply H1. unfold is_u64, is_u256 in *. lia.
Qed.

(** ** What a gas function leaves *)

Record paid st (bound n : Z) f (size : Z) f' : Prop := {
  pd_frame : frame_at st bound n (set_mem f' (Resize (mem f') size));
  pd_kept : kept f f';
  pd_stack : stack f' = stack f;
  pd_pc : pc f' = pc f;
  pd_code : Code (contract f') = Code (contract f);
  pd_self : self (contract f') = self (contract f)
}.

Definition gas_post (lo : Z) st (bound n : Z) f (size : Z) : post Z := fun f' r =>
  match r with
  | inr cost => lo <= cost < 2 ^ 64 /\ paid st bound n f size f'
  | inl e => failed st f f'
  end.

(** The sizes of memory that the run loop passes on. *)
Definition whole (uses_memory : bool) (size : Z) : Prop :=
  if uses_memory then is_u64 size /\ size mod 32 = 0 else size = 0.

(** A gas function of an instruction with [k] operands that charges [lo] at least. *)
Definition gas_ok (uses_memory : bool) (k lo : Z) (g : Z -> M Z) : Prop :=
  forall st bound n f size, frame_at st bound n f -> k <= zlen (stack f) -> whole uses_memory size ->
  wpM (g size) f (gas_post lo st bound n f size).

Lemma Resize_0 m : Resize m 0 = m.
Proof. unfold Resize. rewrite decide_False; [done|]. unfold Len, zlen. lia. Qed.

Lemma set_mem_id f : set_mem f (mem f) = f.
Proof. by destruct f. Qed.

Lemma paid_refl st bound n f : frame_at st bound n f -> paid st bound n f 0 f.
Proof. intros H. split; try done; [by rewrite Resize_0, set_mem_id|apply kept_refl]. Qed.

Lemma paid_trans st bound n f g size h :
  kept f g -> stack g = stack f -> pc g = pc f -> Code (contract g) = Code (contract f) -> self (contract g) = self (contract f) ->
  paid st bound n g size h -> paid st bound n f size h.
Proof. intros H1 H2 H3 H4 H5 [K1 K2 K3 K4 K5 K6]. split; [done|by eapply kept_trans|congruence..]. Qed.

Lemma kept_db f t : evolves (db f) t -> kept f (set_db f t).
Proof. intros He. split; [done|apply He..|done]. Qed.

Lemma paid_db st bound n f size g t : paid st bound n f size g -> evolves (db g) t -> paid st bound n f size (set_db g t).
Proof.
  intros [K1 K2 K3 K4 K5] He. split; try done; [|by eapply kept_trans; [|apply kept_db]].
  by apply (frame_evolves st bound n (set_mem g (Resize (mem g) size))).
Qed.

Lemma paid_callGasTemp st bound n f size g x : paid st bound n f size g -> paid st bound n f size (set_callGasTemp g x).
Proof.
  intros [K1 K2 K3 K4 K5]. split; try done; [|by eapply kept_trans; [|apply kept_eq]].
  by apply (frame_callGasTemp st bound n (set_mem g (Resize (mem g) size))).
Qed.

Lemma paid_chain st bound n f size g : paid st bound n f size g -> chained st (db g).
Proof. intros [K1 _ _ _ _]. apply (fr_db _ _ _ _ K1). Qed.

Lemma paid_wf st bound n f size g : paid st bound n f size g -> wf (db g).
Proof. intros K. by eapply chained_wf, paid_chain. Qed.

Lemma paid_failed st bound n f size g : paid st bound n f size g -> failed st f g.
Proof.
  intros K. pose proof (pd_kept _ _ _ _ _ _ K) as Kk. pose proof (pd_frame _ _ _ _ _ _ K) as Kf.
  destruct (fr_contract _ _ _ _ Kf) as (Hc & Hg & _). cbn in Hc, Hg. unfold is_u64 in Hg.
  split; [apply Kk|by eapply paid_chain|done|destruct Kk; lia].
Qed.

(** ** The fee of memory *)

Lemma memory_paid st bound n f size :
  frame_at st bound n f -> whole true size ->
  wpM (memoryGasCost size) f (fun f' r =>
    match r with
    | inr fee => 0 <= fee < 2 ^ 60 /\ paid st bound n f size f' /\ f' = set_mem f (mem f')
    | inl e => failed st f f'
    end).
Proof.
  intros H [Hs H32]. pose proof (fr_mem _ _ _ _ H) as [Hm Hbs]. pose proof Hm as (w & Hw & Hl & Hc). unfold wpM.
  destruct (memoryGasCost_spec size f Hs Hm) as [[Hbig E]|(Hle & f' & fee & E & Hfee & Hst & Hf & Hd & Hlast)]; rewrite E.
  - eexists _, _. split; [done|]. eapply frame_failed; [apply kept_refl|done].
  - eexists _, _. split; [done|]. split; [done|]. split; [|done]. rewrite Hf.
    assert (Hres : mem_good (Resize (mem f') size)).
    { assert (Ew : Len (mem f) / 32 = w) by (rewrite Hl, Z.mul_comm; by apply Z.div_mul). rewrite Ew in Hlast.
      assert (Hsz : 32 * words size = size) by (unfold words, is_u64 in *; Z.to_euclidean_division_equations; lia).
      split.
      - rewrite <- Hsz. apply mem_ok_Resize; [unfold is_u64 in Hs; lia|]. exists w. unfold Len in *. by rewrite Hst.
      - unfold Resize. case_decide; cbn; rewrite Hst; [|done]. apply Forall_app_2; [done|]. by apply Forall_replicate. }
    split; try done; [by apply (frame_mem st bound n f)|by apply kept_eq].
Qed.

(** The continuation after the fee. *)
Lemma wpM_memory st bound n f size (Q : post Z) :
  frame_at st bound n f -> whole true size ->
  (forall g fee, 0 <= fee < 2 ^ 60 -> paid st bound n f size g -> g = set_mem f (mem g) -> Q g (inr fee)) ->
  (forall g e, failed st f g -> Q g (inl e)) -> wpM (memoryGasCost size) f Q.
Proof.
  intros H Hs H1 H2. eapply wpM_mono; [by apply (memory_paid st bound n)|]. intros g [e|fee]; [apply H2|].
  intros (K1 & K2 & K3). by apply H1.
Qed.

Lemma pureMemoryGascost_ok k : gas_ok true k 0 pureMemoryGascost.
Proof.
  intros st bound n f size H Hk Hs. apply (wpM_memory st bound n); [done|done| |by intros].
  intros g fee Hf Hp _. split; [lia|done].
Qed.

Lemma words_u64 x : is_u64 x -> is_u64 (toWordSize x) /\ 0 <= words x < 2 ^ 59 + 1.
Proof. intros Hx. rewrite toWordSize_spec by done. unfold is_u64, words in *. Z.to_euclidean_division_equations; lia. Qed.

(** The gas functions that charge for each word of an operand. *)
Lemma word_gas_ok (k : Z) (n : nat) rate : Z.of_nat n < k -> 0 <= rate < 32 -> gas_ok true k 0 (word_gas (Z.of_nat n) rate).
Proof.
  intros Hn Hr st bound N f size H Hk Hs. operands H. unfold word_gas. wp_run.
  apply (wpM_memory st bound N); [done|done| |by intros]. intros g fee Hf Hp Eg. unfold after. wp_run.
  destruct (lookup_lt_is_Some_2 l n) as [x Hx]; [unfold zlen in *; lia|].
  assert (Hx256 : is_u256 x) by (by eapply Forall_lookup_1).
  apply (wpM_back_uint64 g l n x); [by rewrite (pd_stack _ _ _ _ _ _ Hp)|done|done| |by eapply paid_failed].
  intros Hx64. destruct (words_u64 x Hx64) as [Hw1 Hw2]. wp_run.
  apply wpM_safe_mul; [done|unfold is_u64; lia| |by eapply paid_failed]. intros Hlt. wp_run.
  rewrite toWordSize_spec in * by done.
  apply wpM_safe_add; [unfold is_u64; lia|unfold is_u64; nia| |by eapply paid_failed]. intros Hlt'. split; [nia|done].
Qed.

Lemma gasCallDataCopy_ok : gas_ok true 3 0 gasCallDataCopy.
Proof. apply (word_gas_ok 3 2 CopyGas); done. Qed.
Lemma gasCodeCopy_ok : gas_ok true 3 0 gasCodeCopy.
Proof. apply (word_gas_ok 3 2 CopyGas); done. Qed.
Lemma gasReturnDataCopy_ok : gas_ok true 3 0 gasReturnDataCopy.
Proof. apply (word_gas_ok 3 2 CopyGas); done. Qed.
Lemma gasExtCodeCopy_ok : gas_ok true 4 0 gasExtCodeCopy.
Proof. apply (word_gas_ok 4 3 CopyGas); done. Qed.
Lemma gasSha3_ok : gas_ok true 2 0 gasSha3.
Proof. apply (word_gas_ok 2 1 Sha3WordGas); done. Qed.
Lemma gasCreate2_ok : gas_ok true 4 0 gasCreate2.
Proof. apply (word_gas_ok 4 2 Sha3WordGas); done. Qed.

Lemma makeGasLog_ok k t : 2 <= k -> 0 <= t <= 4 -> gas_ok true k 1 (makeGasLog t).
Proof.
  intros Hk2 Ht st bound N f size H Hk Hs. operands H. unfold makeGasLog. do 2 pop_operand. wp_run.
  apply (wpM_back_uint64 f _ 1 x0 _ E); [done|done| |by eapply frame_failed; [apply kept_refl|]].
  intros Hx64. wp_run. apply (wpM_memory st bound N); [done|done| |by intros]. intros g fee Hf Hp _. wp_run.
  unfold is_u64, LogGas, LogTopicGas, LogDataGas in *.
  apply wpM_safe_add; [unfold is_u64; lia..| |by eapply paid_failed]. intros _. wp_run.
  rewrite u64_id by (unfold is_u64; lia).
  apply wpM_safe_add; [unfold is_u64; lia..| |by eapply paid_failed]. intros _. wp_run.
  apply wpM_safe_mul; [unfold is_u64; lia..| |by eapply paid_failed]. intros Hm. wp_run.
  apply wpM_safe_add; [unfold is_u64; lia..| |by eapply paid_failed]. intros Hlt. split; [lia|done].
Qed.

Lemma gasExp_ok rate : 0 <= rate <= 50 -> gas_ok false 2 1 (gasExp rate).
Proof.
  intros Hr st bound N f size H Hk Hs. cbn in Hs. subst size. unfold gasExp. wp_run.
  destruct (go_index_Forall (E:=Empty_set) _ _ (zlen (stack f) - 2) (fr_stack _ _ _ _ H)) as (x & Ex & Hx); [lia|].
  eapply wpM_lift; [exact Ex|]. wp_run. rewrite BitLen_spec by done. set (b := if decide (x = 0) then _ else _).
  assert (Hb : 0 <= (b + 7) / 8 <= 32).
  { assert (0 <= b <= 256); [|Z.to_euclidean_division_equations; lia]. unfold b, is_u256 in *. case_decide; [lia|].
    pose proof (Z.log2_nonneg x). assert (Z.log2 x < 256) by (apply Z.log2_lt_pow2; lia). lia. }
  rewrite u64_id by (unfold is_u64; nia). unfold ExpGas.
  apply wpM_safe_add; [unfold is_u64; nia|done| |by eapply frame_failed; [apply kept_refl|]].
  intros Hlt. split; [nia|by apply paid_refl].
Qed.

(** ** The access list *)

Lemma wpM_touch_address f addr Q :
  wf (db f) ->
  (forall t b, evolves (db f) t -> ContainsAddress (access t) addr = true -> Q (set_db f t) (inr b)) -> wpM (touch_address addr) f Q.
Proof.
  intros W H. unfold touch_address. wp_run. destruct (ContainsAddress (access (db f)) addr) eqn:Ec; wp_run.
  - assert (Ef : f = set_db f (db f)) by (by destruct f). rewrite Ef at 1. apply H; [by apply evolves_refl|done].
  - eapply wpM_change; [done|]. wp_run. apply H; [query_ok (CAddAddressToAccessList addr)|].
    by rewrite AddAddressToAccessList_access, AddAddress_Contains, (bool_decide_true (addr = addr)).
Qed.

Lemma gasEip2929AccountCheck_ok : gas_ok false 1 0 gasEip2929AccountCheck.
Proof.
  intros st bound N f size H Hk Hs. cbn in Hs. subst size. operands H. unfold gasEip2929AccountCheck. pop_operand. wp_run.
  apply wpM_touch_address; [by eapply frame_wf|]. intros t b Ht _. wp_run.
  split; [destruct b; by vm_compute|]. by apply paid_db; [apply paid_refl|].
Qed.

Lemma gasExtCodeCopyEIP2929_ok : gas_ok true 4 0 gasExtCodeCopyEIP2929.
Proof.
  intros st bound N f size H Hk Hs. operands H. unfold gasExtCodeCopyEIP2929. wp_run.
  eapply wpM_mono; [by apply (gasExtCodeCopy_ok st bound N)|]. intros g [e|gas] K; unfold after; [done|].
  destruct K as [Hg Hp]. pop_operand. pose proof (pd_stack _ _ _ _ _ _ Hp) as Es. rewrite E in Es. wp_run.
  apply wpM_touch_address; [by eapply paid_wf|]. intros t b Ht _. pose proof (paid_db _ _ _ _ _ _ _ Hp Ht) as Hp'.
  unfold after. destruct b; wp_run; [|by split].
  apply wpM_safe_add; [done|done| |by eapply paid_failed]. intros Hlt.
  unfold ColdAccountAccessCostEIP2929, WarmStorageReadCostEIP2929 in *. split; [lia|done].
Qed.

Lemma gasSLoadEIP2929_ok : gas_ok false 1 1 gasSLoadEIP2929.
Proof.
  intros st bound N f size H Hk Hs. cbn in Hs. subst size. operands H. unfold gasSLoadEIP2929. pop_operand. wp_run.
  pose proof (frame_wf _ _ _ _ H) as W.
  eapply wpM_lift; [apply Contains_slots_of, W|]. wp_run. cbn [snd]. case_bool_decide; wp_run.
  - split; [done|by apply paid_refl].
  - set (a := self (contract f)). destruct (refunded_access (db f) a (Bytes32 x) W) as (t & Et & _).
    eapply wpM_change; [exact Et|]. wp_run. split; [done|]. apply paid_db; [by apply paid_refl|].
    apply (evolves_exec _ (CAddSlotToAccessList a (Bytes32 x))); [done|by apply harmless_read|done].
Qed.

(** ** Calls *)

(** What the caller pays covers what the callee gets; with a value there is the
    fee for transferring it on top; with [warm], the callee is in the access list. *)
Definition call_post (warm pays : bool) st (bound n : Z) f (size : Z) : post Z := fun f' r =>
  match r with
  | inr cost => cost < 2 ^ 64 /\ paid st bound n f size f' /\ 0 <= callGasTemp f' <= cost /\
      (pays = true -> forall l v, stack f = rev l -> l !! 2%nat = Some v -> v <> 0 -> callGasTemp f' + CallValueTransferGas <= cost) /\
      (warm = true -> forall l a, stack f = rev l -> l !! 1%nat = Some a -> ContainsAddress (access (db f')) (Bytes20 a) = true)
  | inl e => failed st f f'
  end.

Definition call_gas_ok (warm pays : bool) (k : Z) (g : Z -> M Z) : Prop :=
  forall st bound n f size, frame_at st bound n f -> k <= zlen (stack f) -> whole true size ->
  wpM (g size) f (call_post warm pays st bound n f size).

Lemma wpM_add_call_gas base f l x Q :
  stack f = rev (x :: l) -> is_u256 x -> is_u64 base ->
  (forall t, is_u64 t -> base + t < 2 ^ 64 -> Q (set_callGasTemp f t) (inr (base + t))) ->
  (forall t e, Q (set_callGasTemp f t) (inl e)) -> wpM (add_call_gas base) f Q.
Proof.
  intros E Hx Hb H1 H2. unfold add_call_gas. wp_run. eapply (wpM_back f _ 0 x _ E); [done|]. wp_run.
  assert (Hr : match callGas (IsEIP150 (rules f)) (Gas (contract f)) base x with inr t => is_u64 t | inl _ => True end).
  { pose proof (Uint64_u64 x Hx). unfold callGas. destruct (IsEIP150 (rules f)); [|by destruct (negb _)].
    destruct (negb (IsUint64 x) || _); [|by destruct (negb _)].
    pose proof (u64_range (Gas (contract f) - base)). unfold is_u64 in *. Z.to_euclidean_division_equations; lia. }
  destruct (callGas _ _ _ _) as [e|t]; wp_run; [by apply H2|]. apply wpM_safe_add; [done|done| |by apply H2]. by apply H1.
Qed.

(** The operands are determined by the stack. *)
Lemma stack_operand f l l' (i : nat) (x : Z) : stack f = rev l -> stack f = rev l' -> l' !! i = Some x -> l !! i = Some x.
Proof. intros E E' Hx. rewrite E in E'. apply (f_equal (@rev _)) in E'. rewrite !rev_involutive in E'. by subst l'. Qed.

Lemma add_call_gas_ok pays base st bound n f size g x a v rest :
  stack f = rev (x :: a :: v :: rest) -> is_u256 x -> is_u64 base -> paid st bound n f size g ->
  (pays = true -> v <> 0 -> CallValueTransferGas <= base) ->
  wpM (add_call_gas base) g (call_post false pays st bound n f size).
Proof.
  intros E Hx Hb Hp Hv. eapply (wpM_add_call_gas base g _ x); [rewrite (pd_stack _ _ _ _ _ _ Hp); exact E|done|done| |].
  - intros t Ht Hlt. unfold is_u64 in *. split; [done|]. split; [by apply paid_callGasTemp|].
    cbn [callGasTemp set_callGasTemp]. split; [lia|]. split; [|done]. intros Hpay l' v' E' Hl' Hne.
    pose proof (stack_operand _ _ _ _ _ E E' Hl') as [= <-]. specialize (Hv Hpay Hne). lia.
  - intros t e. eapply paid_failed. by apply paid_callGasTemp.
Qed.

Lemma fee_u64 fee : 0 <= fee < 2 ^ 60 -> is_u64 fee.
Proof. unfold is_u64. lia. Qed.

Lemma gasDelegateCall_ok : call_gas_ok false false 6 gasDelegateCall.
Proof.
  intros st bound N f size H Hk Hs. operands H. do 3 pop_operand. unfold gasDelegateCall. wp_run.
  apply (wpM_memory st bound N); [done|done| |by intros]. intros g fee Hf Hp _. unfold after.
  eapply add_call_gas_ok; [done|done|by apply fee_u64|done|done].
Qed.

Lemma gasStaticCall_ok : call_gas_ok false false 6 gasStaticCall.
Proof. exact gasDelegateCall_ok. Qed.

Lemma Sign_nonzero x : is_u256 x -> Sign x = 0 -> x = 0.
Proof. intros Hx. rewrite Sign_spec by done. by repeat case_decide. Qed.

Lemma gasCallCode_ok : call_gas_ok false true 7 gasCallCode.
Proof.
  intros st bound N f size H Hk Hs. operands H. do 3 pop_operand. unfold gasCallCode. wp_run.
  apply (wpM_memory st bound N); [done|done| |by intros]. intros g fee Hf Hp _. unfold after. wp_run.
  assert (Eg : stack g = rev (x :: x0 :: x1 :: l)) by (by rewrite (pd_stack _ _ _ _ _ _ Hp)).
  eapply (wpM_back g _ 2 x1 _ Eg); [done|]. wp_run. unfold CallValueTransferGas.
  apply wpM_safe_add; [case_decide; done|by apply fee_u64| |by eapply paid_failed]. intros Hlt. unfold after.
  eapply add_call_gas_ok; [done|done|case_decide; unfold is_u64; lia|done|]. intros _ Hne. unfold CallValueTransferGas.
  rewrite decide_True; [lia|]. intros Hs0. by apply Hne, Sign_nonzero.
Qed.

Lemma gasCall_ok : call_gas_ok false true 7 gasCall.
Proof.
  intros st bound N f size H Hk Hs. operands H. do 3 pop_operand. unfold gasCall. wp_run.
  eapply (wpM_back f _ 2 x1 _ E); [done|]. wp_run. eapply (wpM_back f _ 1 x0 _ E); [done|]. wp_run.
  pose proof (frame_wf _ _ _ _ H) as W.
  assert (Hrest : forall t (new : bool), evolves (db f) t ->
    wpM (memoryGas ← memoryGasCost size;
         gas ← safe_add (if negb (IsZero x1) then (if new then CallNewAccountGas else 0) + CallValueTransferGas
                         else if new then CallNewAccountGas else 0) memoryGas; add_call_gas gas) (set_db f t)
      (call_post false true st bound N f size)).
  { intros t new Ht. pose proof (frame_evolves _ _ _ _ _ H Ht) as H'. wp_run.
    apply (wpM_memory st bound N); [done|done| |intros g e Hg; by eapply failed_kept; [apply kept_db|]].
    intros g fee Hf Hp _. unfold after. wp_run. unfold CallNewAccountGas, CallValueTransferGas.
    assert (Hp' : paid st bound N f size g) by (eapply paid_trans; [by apply kept_db|..|exact Hp]; done).
    apply wpM_safe_add; [by destruct (negb _), new|by apply fee_u64| |by eapply paid_failed]. intros Hlt. unfold after.
    eapply add_call_gas_ok; [done|done|unfold is_u64; destruct (negb _), new; lia|done|]. intros _ Hne.
    unfold CallValueTransferGas. rewrite IsZero_spec, bool_decide_false by done. cbn. destruct new; lia. }
  destruct (IsEIP158 (rules f)); [destruct (negb (IsZero x1)) eqn:Ez|].
  - apply wpM_query, Hrest. query_ok (CEmpty (Bytes20 x0)).
  - apply wpM_ret. assert (Ef : f = set_db f (db f)) by (by destruct f). specialize (Hrest (db f) false (evolves_refl _ W)).
    rewrite <- Ef in Hrest. exact Hrest.
  - apply wpM_bind, wpM_query, wpM_ret, Hrest. query_ok (CExist (Bytes20 x0)).
Qed.

(** [contract.UseGas] *)
Lemma wpM_use_gas f c Q :
  (c <= Gas (contract f) -> Q (set_contract f (set_gas (contract f) (Gas (contract f) - c))) (inr tt)) ->
  Q f (inl ErrOutOfGas) -> wpM (use_gas c) f Q.
Proof.
  intros H1 H2. unfold wpM, use_gas, UseGas. case_decide; eexists _, _; (split; [done|]).
  - by destruct f.
  - apply H1. lia.
Qed.

Lemma frame_use_gas st bound n f c :
  frame_at st bound n f -> 0 <= c <= Gas (contract f) ->
  let g := set_contract f (set_gas (contract f) (Gas (contract f) - c)) in frame_at st bound n g /\ kept f g.
Proof.
  intros H Hc g. destruct (fr_contract _ _ _ _ H) as (_ & Hg & _). unfold is_u64 in Hg. split.
  - apply frame_contract; [done|apply contract_ok_gas; [apply (fr_contract _ _ _ _ H)|unfold is_u64; lia]|done].
  - split; [done|reflexivity|by intros ?|cbn; lia].
Qed.

Lemma call_post_trans pays st bound n f g size h r (addr : Z) l :
  kept f g -> stack g = stack f -> pc g = pc f -> Code (contract g) = Code (contract f) -> self (contract g) = self (contract f) ->
  stack f = rev l -> l !! 1%nat = Some addr -> ContainsAddress (access (db g)) (Bytes20 addr) = true ->
  call_post false pays st bound n g size h r -> call_post true pays st bound n f size h r.
Proof.
  intros H1 H2 H3 H4 H5 E Ha Hw. destruct r as [e|cost]; [apply failed_kept; done|]. intros (K1 & K2 & K3 & K4 & _).
  split; [done|]. split; [by eapply paid_trans|]. split; [done|]. split; [rewrite <- H2; done|].
  intros _ l' a E' Ha'. pose proof (stack_operand _ _ _ _ _ E E' Ha') as Ha2. assert (a = addr) as -> by congruence.
  by apply (kp_warms _ _ (pd_kept _ _ _ _ _ _ K2)).
Qed.

Lemma makeCallVariantGasCallEIP2929_ok pays k old :
  2 <= k -> call_gas_ok false pays k old -> call_gas_ok true pays k (makeCallVariantGasCallEIP2929 old).
Proof.
  intros Hk2 Hold st bound N f size H Hk Hs. operands H. do 2 pop_operand. unfold makeCallVariantGasCallEIP2929. wp_run.
  eapply (wpM_back f _ 1 x0 _ E); [done|]. wp_run. apply wpM_touch_address; [by eapply frame_wf|].
  intros t cold Ht Hw. pose proof (frame_evolves _ _ _ _ _ H Ht) as H'. unfold after. destruct cold; wp_run.
  - apply wpM_use_gas; [|by eapply failed_kept; [apply kept_db|eapply frame_failed; [apply kept_refl|]]].
    intros Hle. unfold after. set (c := ColdAccountAccessCostEIP2929 - WarmStorageReadCostEIP2929) in *.
    destruct (frame_use_gas _ _ _ _ c H' ltac:(by split)) as [Hg Hkg].
    eapply wpM_mono; [by apply (Hold st bound N)|]. intros h r. eapply call_post_trans; [|done..|exact E|done|exact Hw].
    eapply kept_trans; [by apply kept_db|done].
  - eapply wpM_mono; [by apply (Hold st bound N)|]. intros h r.
    eapply call_post_trans; [by apply kept_db|done..|exact E|done|exact Hw].
Qed.

(** ** Selfdestruction *)

(** A gas function that may add a refund. *)
Definition refund_gas_ok (k : Z) (g : Z -> M Z) : Prop :=
  forall st bound n f, frame_at st bound (n + 1) f -> bound < 2 ^ 64 -> 0 <= n -> k <= zlen (stack f) ->
  wpM (g 0) f (gas_post 0 st bound n f 0).

Lemma wpM_sends_to_empty f a Q :
  wf (db f) -> (forall t b, evolves (db f) t -> Q (set_db f t) (inr b)) -> wpM (sends_to_empty a) f Q.
Proof.
  intros W H. unfold sends_to_empty. wp_run. set (t := (Empty (db f) a).2).
  assert (Ht : evolves (db f) t) by query_ok (CEmpty a). pose proof (evolves_wf _ _ Ht) as Wt.
  destruct ((Empty (db f) a).1); wp_run; [|by apply H]. apply H. eapply evolves_trans; [done|exact Ht|].
  query_ok (CGetBalance (self (contract f))).
Qed.

Lemma refund_selfdestruct_ok st bound n f :
  frame_at st bound (n + 1) f -> bound < 2 ^ 64 -> 0 <= n ->
  wpM refund_selfdestruct f (fun f' r => r = inr tt /\ frame_at st bound n f' /\ kept f f' /\ stack f' = stack f /\
    pc f' = pc f /\ contract f' = contract f /\ mem f' = mem f).
Proof.
  intros H Hb Hn. unfold refund_selfdestruct. wp_run. set (a := self (contract f)). set (t := (HasSuicided (db f) a).2).
  assert (Ht : evolves (db f) t) by query_ok (CHasSuicided a). pose proof (frame_evolves _ _ _ _ _ H Ht) as H'.
  pose proof (evolves_wf _ _ Ht) as Wt. pose proof (kept_db f t Ht) as Hk.
  destruct ((HasSuicided (db f) a).1); wp_run.
  - split; [done|]. split; [eapply frame_mono; [done|lia]|done].
  - eapply wpM_change; [done|]. split; [done|]. cbn [db set_db].
    assert (Hl : lives t (AddRefund t SelfdestructRefundGas)) by by apply AddRefund_lives.
    assert (Hw : warms t (AddRefund t SelfdestructRefundGas)) by (by intros ?).
    split; [|split; [|done]].
    + apply (frame_db st bound (n + 1) n (set_db f t)); [done| |done..].
      apply db_ok_AddRefund; [apply (fr_db _ _ _ _ H')|done..].
    + eapply kept_trans; [exact Hk|]. by split.
Qed.

(** The refund comes last. *)
Lemma selfdestruct_gas st bound n f t cost :
  frame_at st bound (n + 1) f -> bound < 2 ^ 64 -> 0 <= n -> evolves (db f) t -> 0 <= cost < 2 ^ 64 ->
  wpM (_ ← refund_selfdestruct; mret cost) (set_db f t) (gas_post 0 st bound n f 0).
Proof.
  intros H Hb Hn Ht Hc. wp_run. pose proof (frame_evolves _ _ _ _ _ H Ht) as H'.
  eapply wpM_mono; [by apply (refund_selfdestruct_ok st bound n)|]. intros g r (-> & K1 & K2 & K3 & K4 & K5 & K6). wp_run.
  split; [done|]. apply (paid_trans _ _ _ _ g); [eapply kept_trans; [by apply kept_db|done]|done|done|by rewrite K5..|].
  by apply paid_refl.
Qed.

Lemma gasSelfdestruct_ok : refund_gas_ok 1 gasSelfdestruct.
Proof.
  intros st bound n f H Hb Hn Hk. operands H. pop_operand. unfold gasSelfdestruct. pose proof (frame_wf _ _ _ _ H) as W.
  apply wpM_bind, wpM_gets. unfold after. apply wpM_bind. destruct (IsEIP150 (rules f)).
  - apply wpM_bind, (wpM_back f _ 0 x _ E); [done|]. unfold after. apply wpM_bind. destruct (IsEIP158 (rules f)).
    + apply wpM_sends_to_empty; [done|]. intros t b Ht. apply wpM_ret. apply selfdestruct_gas; try done. by destruct b.
    + apply wpM_bind, wpM_query, wpM_ret, wpM_ret. apply selfdestruct_gas; try done; [query_ok (CExist (Bytes20 x))|].
      by destruct (negb _).
  - apply wpM_ret. assert (Ef : f = set_db f (db f)) by (by destruct f).
    pose proof (selfdestruct_gas st bound n f (db f) 0 H Hb Hn (evolves_refl _ W) ltac:(done)) as K. rewrite <- Ef in K. exact K.
Qed.

Lemma gasSelfdestructEIP2929_ok : refund_gas_ok 1 gasSelfdestructEIP2929.
Proof.
  intros st bound n f H Hb Hn Hk. operands H. pop_operand. unfold gasSelfdestructEIP2929. pose proof (frame_wf _ _ _ _ H) as W.
  wp_step. wp_step. unfold after. apply wpM_bind, wpM_touch_address; [done|]. intros t b Ht _. unfold after.
  pose proof (evolves_wf _ _ Ht) as Wt. apply wpM_bind, wpM_sends_to_empty; [done|]. intros u new Hu. unfold after.
  change (set_db (set_db f t) u) with (set_db f u).
  apply selfdestruct_gas; try done; [by eapply evolves_trans|by destruct b, new].
Qed.

End GasTotal.
