(* ===== verification/VmStep.v ===== *)
(** * One round of the run loop keeps the invariant

    The charge of an operation followed by its execution, for the operations that
    call no other contract. *)

From stdpp Require Import gmap.
From S2P Require Import Prelude Rlp Trie AccessList StateDB StateDBProofs StateDBSnapshots StateDBObserve StateDBEffects.
From S2P Require Import Uint256 VmAnalysis VmContract VmMemory VmGas VmPrecompiles VmInstructions VmJumpTable VmInterpreter VmGasProofs VmSstore.
From S2P Require Import VmRefund VmSupply VmState VmWp VmFrame VmInstrProofs VmInstrState VmGasTotal.

Notation G f := (Gas (contract f)).

Section Step.
Context {B : Backend} {BL : BackendLaws B} {CS : CodeStore B} {U : Uint256} {UL : Uint256Laws U} {C : Crypto} {Ev : Evm} (env : Env).
Implicit Types (f : frame) (st : list (revision * StateDB)) (o : operation).

(** ** Memory *)

(** What the size of memory that is computed is enough for. *)
Definition mem_needs (ms : Stack -> outcome Empty_set (Z * bool)) (k : Z) (pre : frame -> Prop) : Prop :=
  forall f, Forall is_u256 (stack f) -> k <= zlen (stack f) ->
  exists sz ov, ms (stack f) = Ret (sz, ov) /\
    (ov = false -> is_u64 sz /\ forall f', stack f' = stack f -> sz <= Len (mem f') -> pre f').

Lemma extent_covers f off len sz : is_u256 off -> is_u256 len -> extent off len <= sz -> sz <= Len (mem f) -> covers f off len.
Proof. intros H1 H2 He Hs. split; [done|]. split; [done|]. unfold extent in He. case_decide; [by left|right; lia]. Qed.

Lemma stack_rev (s : Stack) : s = rev (rev s).
Proof. by rewrite rev_involutive. Qed.

Lemma Back_operand (s : Stack) (i : nat) :
  Forall is_u256 s -> Z.of_nat i < zlen s ->
  exists x, Back (E:=Empty_set) s (Z.of_nat i) = Ret x /\ rev s !! i = Some x /\ is_u256 x.
Proof.
  intros Hs Hi. destruct (lookup_lt_is_Some_2 (rev s) i) as [x Hx]; [rewrite length_rev; unfold zlen in Hi; lia|]. exists x.
  split; [rewrite (stack_rev s); by apply Back_rev|]. split; [done|]. eapply Forall_lookup_1; [|done]. by apply Forall_rev.
Qed.

Lemma operand_unique (s l : Stack) (i : nat) (x y : Z) : s = rev l -> rev s !! i = Some x -> l !! i = Some y -> x = y.
Proof. intros -> Hx Hy. rewrite rev_involutive in Hx. congruence. Qed.

Lemma mem_range_spec (s : Stack) (i j : nat) :
  Forall is_u256 s -> Z.of_nat i < zlen s -> Z.of_nat j < zlen s ->
  exists sz ov, mem_range (E:=Empty_set) s (Z.of_nat i) (Z.of_nat j) = Ret (sz, ov) /\
    (ov = false -> is_u64 sz /\ forall f sz', stack f = s -> sz <= sz' -> sz' <= Len (mem f) -> in_range i j f).
Proof.
  intros Hs Hi Hj. destruct (Back_operand s i Hs Hi) as (x & Ex & Hx & Hx'). destruct (Back_operand s j Hs Hj) as (y & Ey & Hy & Hy').
  unfold mem_range. rewrite Ex. cbn [mbind outcome_bind]. rewrite Ey. cbn [mbind outcome_bind].
  destruct (calcMemSize64_spec x y Hx' Hy') as [[Hlt E]|[Hge E]].
  - eexists _, _. rewrite E. split; [done|]. intros _. assert (0 <= extent x y) by (unfold extent, is_u256 in *; case_decide; lia).
    split; [unfold is_u64; lia|]. intros f sz' <- Hle Hlen l x' y' El Hl1 Hl2.
    rewrite <- (operand_unique _ _ _ _ _ El Hx Hl1), <- (operand_unique _ _ _ _ _ El Hy Hl2). by eapply extent_covers.
  - destruct (calcMemSize64 x y) as [sz ov]. exists sz, ov. split; [done|]. cbn in E. by subst ov.
Qed.

Lemma mem_range_needs (i j : nat) k : Z.of_nat i < k -> Z.of_nat j < k ->
  mem_needs (fun s => mem_range s (Z.of_nat i) (Z.of_nat j)) k (in_range i j).
Proof.
  intros Hi Hj f Hs Hk. destruct (mem_range_spec (stack f) i j Hs) as (sz & ov & E & H); [lia..|]. exists sz, ov.
  split; [done|]. intros Hov. destruct (H Hov) as [H1 H2]. split; [done|]. intros f' E' Hlen. by eapply H2.
Qed.

Lemma mem_fixed_needs len k : 0 < k -> is_u64 len -> mem_needs (fun s => mem_fixed s len) k (in_range_const 0 len).
Proof.
  intros Hk Hlen f Hs Hkf. destruct (Back_operand (stack f) 0 Hs ltac:(lia)) as (x & Ex & Hx & Hx').
  unfold mem_fixed. change 0 with (Z.of_nat 0) at 1. rewrite Ex. cbn [mbind outcome_bind].
  destruct (calcMemSize64WithUint_spec x len Hx' Hlen) as [[Hlt E]|[Hge E]].
  - eexists _, _. rewrite E. split; [done|]. intros _.
    assert (0 <= extent x len) by (unfold extent, is_u256, is_u64 in *; case_decide; lia).
    split; [unfold is_u64; lia|]. intros f' E' Hl l x' El Hl1. rewrite E' in El.
    rewrite <- (operand_unique _ _ _ _ _ El Hx Hl1).
    eapply extent_covers; [done|unfold is_u256, is_u64 in *; lia|reflexivity|done].
  - destruct (calcMemSize64WithUint x len) as [sz ov]. exists sz, ov. split; [done|]. cbn in E. by subst ov.
Qed.

Lemma mem_two_needs (a b c d : nat) k : Z.of_nat a < k -> Z.of_nat b < k -> Z.of_nat c < k -> Z.of_nat d < k ->
  mem_needs (fun s => mem_two s (Z.of_nat a) (Z.of_nat b) (Z.of_nat c) (Z.of_nat d)) k (fun f => in_range a b f /\ in_range c d f).
Proof.
  intros Ha Hb Hc Hd f Hs Hk. unfold mem_two.
  destruct (mem_range_spec (stack f) a b Hs) as (x & ox & Ex & Hx); [lia..|]. rewrite Ex. cbn [mbind outcome_bind].
  destruct ox; [by exists 0, true|].
  destruct (mem_range_spec (stack f) c d Hs) as (y & oy & Ey & Hy); [lia..|]. rewrite Ey. cbn [mbind outcome_bind].
  destruct oy; [by exists 0, true|]. destruct (Hx eq_refl) as [Hx1 Hx2], (Hy eq_refl) as [Hy1 Hy2].
  case_decide; eexists _, _; (split; [done|]); intros _; (split; [done|]); intros f' E' Hl;
    (split; [eapply (Hx2 f'); [done| |exact Hl]|eapply (Hy2 f'); [done| |exact Hl]]); lia.
Qed.

(** ** The charge *)

Definition uses_memory o : bool := match memorySize o with Some _ => true | None => false end.

(** After the charge; [R] relates the frame in which the gas function is run, the
    cost, and the frame that it leaves. *)
Record charged st (bound n : Z) f o (R : frame -> Z -> frame -> Prop) f' : Prop := {
  ch_frame : frame_at st bound n f';
  ch_kept : kept f f';
  ch_stack : stack f' = stack f;
  ch_pc : pc f' = pc f;
  ch_code : Code (contract f') = Code (contract f);
  ch_cost : exists f1 cost f2, R f1 cost f2 /\ stack f1 = stack f /\ G f1 = G f - constantGas o /\ 0 <= cost <= G f2 /\ G f2 <= G f1 /\
    G f' = G f2 - cost /\ callGasTemp f' = callGasTemp f2 /\ db f' = db f2
}.

(** What is asked of the gas function. *)
Definition gas_side st (bound N n : Z) o f (R : frame -> Z -> frame -> Prop) (size : Z) : Prop :=
  match dynamicGas o with
  | None => memorySize o = None /\ R f 0 f
  | Some g => wpM (g size) f (fun f' r =>
      match r with
      | inr cost => 0 <= cost /\ paid st bound n f size f' /\ R f cost f'
      | inl _ => failed st f f'
      end)
  end.

Definition mem_side o (k : Z) (pre : frame -> Prop) : Prop :=
  match memorySize o with None => True | Some ms => mem_needs ms k pre end.

Lemma wpM_memory_size st bound n f o k pre (Q : post Z) :
  frame_at st bound n f -> k <= zlen (stack f) -> mem_side o k pre ->
  (forall size, whole (uses_memory o) size ->
     (memorySize o <> None -> forall f', stack f' = stack f -> size <= Len (mem f') -> pre f') -> Q f (inr size)) ->
  (forall e, Q f (inl e)) -> wpM (memory_size o) f Q.
Proof.
  intros H Hk Hm HQ He. unfold memory_size, mem_side, uses_memory in *. destruct (memorySize o) as [ms|]; [|wp_run; by apply HQ].
  destruct (Hm f (fr_stack _ _ _ _ H) Hk) as (sz & ov & E & Hov). wp_run. eapply wpM_lift; [exact E|]. wp_run.
  destruct ov; wp_run; [by apply He|]. destruct (Hov eq_refl) as [Hsz Hp]. destruct (words_u64 sz Hsz) as [Hw _].
  apply wpM_safe_mul; [done|done| |by apply He]. rewrite toWordSize_spec in * by done. intros Hlt. apply HQ.
  - unfold whole, is_u64 in *. split; [lia|]. by rewrite Z.mod_mul.
  - intros _ f' E' Hl. apply Hp; [done|]. unfold words, is_u64 in *. Z.to_euclidean_division_equations; lia.
Qed.

Lemma wpM_dynamic_gas o size f (Q : post unit) :
  match dynamicGas o with
  | None => Q f (inr tt)
  | Some g => wpM (g size) f (fun f' r => match r with inr cost => wpM (use_gas cost) f' Q | inl _ => Q f' (inl ErrOutOfGas) end)
  end -> wpM (dynamic_gas o size) f Q.
Proof.
  unfold dynamic_gas. destruct (dynamicGas o) as [g|]; [|apply wpM_ret]. intros (f' & r & E & H). unfold wpM. rewrite E. cbn [mbind outcome_bind].
  destruct r as [e|cost]; [|done]. by eexists _, _.
Qed.

Lemma wpM_resize size f (Q : post unit) :
  0 <= size -> Q (set_mem f (Resize (mem f) size)) (inr tt) -> wpM (resize size) f Q.
Proof.
  intros Hs H. unfold resize. case_decide; wp_run; [done|]. replace size with 0 in H by lia. by rewrite Resize_0, set_mem_id in H.
Qed.

Lemma Resize_len m size : size <= Len (Resize m size).
Proof. unfold Resize. case_decide; [|lia]. unfold Len, zlen in *. cbn. rewrite length_app, length_replicate. lia. Qed.

Lemma whole_nonneg b size : whole b size -> 0 <= size.
Proof. destruct b; cbn; unfold is_u64; lia. Qed.

(** The memory is resized after the gas is paid. *)
Lemma charged_resize st bound n f f1 f2 cost size o R :
  kept f f1 -> stack f1 = stack f -> pc f1 = pc f -> Code (contract f1) = Code (contract f) -> G f1 = G f - constantGas o ->
  paid st bound n f1 size f2 -> 0 <= cost <= G f2 -> R f1 cost f2 ->
  charged st bound n f o R (set_mem (set_contract f2 (set_gas (contract f2) (G f2 - cost))) (Resize (mem f2) size)).
Proof.
  intros Hk Hs Hp Hc Hg K Hcost HR. pose proof (pd_kept _ _ _ _ _ _ K) as Kk.
  destruct (frame_use_gas _ _ _ _ cost (pd_frame _ _ _ _ _ _ K) Hcost) as [K1 K2].
  split; [exact K1| |cbn; by rewrite (pd_stack _ _ _ _ _ _ K)|cbn; by rewrite (pd_pc _ _ _ _ _ _ K)|cbn; by rewrite (pd_code _ _ _ _ _ _ K)|].
  - eapply kept_trans; [exact Hk|]. eapply kept_trans; [exact Kk|]. destruct K2. by split.
  - exists f1, cost, f2. destruct Kk, Hcost. by split_and!.
Qed.

Lemma charge_ok st bound N n f o k pre R :
  frame_at st bound N f -> n <= N -> k <= zlen (stack f) -> 0 <= constantGas o -> mem_side o k pre ->
  (forall f1 size, frame_at st bound N f1 -> stack f1 = stack f -> rules f1 = rules f -> whole (uses_memory o) size ->
     gas_side st bound N n o f1 R size) ->
  wpM (charge o) f (fun f' r =>
    match r with
    | inr _ => charged st bound n f o R f' /\ (memorySize o <> None -> pre f')
    | inl _ => failed st f f'
    end).
Proof.
  intros H Hn Hk Hc0 Hm Hg. unfold charge. wp_run.
  assert (Hfail : failed st f f) by (eapply frame_failed; [apply kept_refl|done]).
  apply wpM_use_gas; [|done]. intros Hle. unfold after. destruct (frame_use_gas _ _ _ _ (constantGas o) H ltac:(done)) as [H1 K1].
  set (f1 := set_contract f _) in *. wp_run.
  apply (wpM_memory_size st bound N f1 o k pre); [done..| |intros e; by eapply failed_kept; [|eapply frame_failed; [apply kept_refl|]]].
  intros size Hw Hpre. wp_run. specialize (Hg f1 size H1 eq_refl eq_refl Hw). apply wpM_dynamic_gas. unfold gas_side in Hg.
  destruct (dynamicGas o) as [g|].
  - eapply wpM_mono; [exact Hg|]. intros f2 [e|cost]; [intros Hf; by eapply failed_kept|]. intros (Hc & Hp & HR).
    apply wpM_use_gas; [|by eapply failed_kept; [|eapply paid_failed]]. intros Hcle. wp_run.
    apply wpM_resize; [by eapply whole_nonneg|]. cbn [mem set_contract].
    split; [by apply (charged_resize st bound n f f1)|]. intros Hms. apply Hpre; [done|cbn; by rewrite (pd_stack _ _ _ _ _ _ Hp)|apply Resize_len].
  - destruct Hg as [Hno HR]. unfold uses_memory in Hw. rewrite Hno in Hw. cbn in Hw. subst size. wp_run.
    apply wpM_resize; [done|]. rewrite Resize_0, set_mem_id. split; [|by rewrite Hno]. split; try done.
    + by eapply frame_mono.
    + destruct (fr_contract _ _ _ _ H1) as (_ & Hg1 & _). unfold is_u64 in Hg1. exists f1, 0, f1. split_and!; try done; lia.
Qed.

(** ** A round *)

Definition stops o : bool := has Reverts o || has Halts o.

Definition perform o : X bytes := _ ← embed (charge o); execution o.

(** What is left when the contract may end. *)
Record stopped st (bound : Z) f f' : Prop := {
  sp_kept : kept f f';
  sp_db : db_ok (rules f') st bound (G f') (db f');
  sp_cache : cache_ok code_of (contract f');
  sp_gas : 0 <= G f'
}.

Definition step_post st (bound : Z) f o : post bytes := fun f' r =>
  match r with
  | inr res => data_ok res /\ stopped st bound f f' /\ (stops o = false -> frame_at st bound (G f' + 1) f' /\ G f' < G f)
  | inl _ => failed st f f'
  end.

(** An operation of a table: it can run whenever the checks of the loop allow it. *)
Definition allowed (lim : Z) (r : Rules) (op : Z) o : Prop :=
  forall st bound f, rules f = r -> frame_at st bound (G f + 1) f -> bound < 2 ^ 64 -> G f <= lim ->
  op_minStack o <= zlen (stack f) <= op_maxStack o -> (op <> 0 -> within f) -> wp (perform o) f (step_post st bound f o).

Definition returned (r : vm_error + bytes) : bytes := match r with inr b => b | inl _ => [] end.

Lemma wp_execution o f Q :
  wp (execute o) f (fun f' r => Q (if has Returns o then set_returnData f' (returned r) else f') r) -> wp (execution o) f Q.
Proof.
  intros (f' & r & E & H). unfold wp, execution. rewrite E. cbn [mbind fuelled_bind run]. eexists _, _. split; [|exact H].
  by destruct r.
Qed.

Lemma wp_perform o f Q R :
  wpM (charge o) f R -> (forall f' r, R f' r -> after (fun _ => wp (execution o)) Q f' r) -> wp (perform o) f Q.
Proof. intros H K. apply wp_bind, wp_embed. by eapply wpM_mono. Qed.

Lemma frame_stopped st bound n f f' : kept f f' -> frame_at st bound n f' -> G f' <= n -> stopped st bound f f'.
Proof.
  intros Hk H Hn. destruct (fr_contract _ _ _ _ H) as (Hc & Hg & _). unfold is_u64 in Hg. split; [done| |done|lia].
  eapply db_ok_mono; [apply (fr_db _ _ _ _ H)|done].
Qed.

Lemma frame_set_returned st bound n f (b : bool) d :
  frame_at st bound n f -> data_ok d -> frame_at st bound n (if b then set_returnData f d else f).
Proof. intros H Hd. destruct b; [by apply frame_returnData|done]. Qed.

Lemma failed_returned st f f' (b : bool) d : failed st f f' -> failed st f (if b then set_returnData f' d else f').
Proof. intros []. by destruct b. Qed.

Lemma ok_step st bound f f4 o delta f5 r :
  kept f f4 -> ok_post st bound (G f + 1) f4 delta f5 r -> (stops o = true \/ G f4 < G f) ->
  step_post st bound f o (if has Returns o then set_returnData f5 (returned r) else f5) r.
Proof.
  intros Hk H Hg. destruct r as [e|res]; [apply failed_returned; by eapply failed_kept|]. destruct H as (K1 & K2 & _ & K4).
  split; [done|]. cbn [returned]. set (f6 := if has Returns o then _ else f5).
  assert (H6 : frame_at st bound (G f + 1) f6) by by apply frame_set_returned.
  assert (Hk6 : kept f4 f6) by (unfold f6; destruct K2; by destruct (has Returns o)).
  pose proof (kept_trans _ _ _ Hk Hk6) as Hk'. pose proof (kp_gas _ _ Hk'). pose proof (kp_gas _ _ Hk6).
  split; [eapply frame_stopped; [done|exact H6|lia]|]. intros Hs. destruct Hg as [Hg|Hg]; [congruence|].
  split; [eapply frame_mono; [exact H6|lia]|lia].
Qed.

Lemma charged_gas st bound n f o lo f' :
  charged st bound n f o (fun _ cost _ => lo <= cost) f' -> G f' + constantGas o + lo <= G f.
Proof. intros K. destruct (ch_cost _ _ _ _ _ _ _ K) as (f1 & cost & f2 & H). lia. Qed.

(** Operations without calls, refunds and writes to the storage. *)
Lemma allowed_simple lim r op o k delta pre lo :
  exec_ok k delta pre (execute o) ->
  match dynamicGas o with None => memorySize o = None /\ lo = 0 | Some g => gas_ok (uses_memory o) k lo g end ->
  mem_side o k pre -> (memorySize o = None -> forall f, (op <> 0 -> within f) -> pre f) ->
  op_minStack o = k -> op_maxStack o = 1024 - delta -> 0 <= constantGas o -> 0 <= lo ->
  stops o = true \/ 1 <= constantGas o + lo -> allowed lim r op o.
Proof.
  intros He Hgas Hm Hpre Hmin Hmax Hc Hlo Hst st bound f Hr H Hb Hlim Hstack Hw.
  eapply wp_perform; [apply (charge_ok st bound (G f + 1) (G f + 1) f o k pre (fun _ cost _ => lo <= cost)); [done|lia|lia|done|done|]|].
  - intros f1 size H1 E1 _ Hsz. unfold gas_side. destruct (dynamicGas o) as [g|]; [|destruct Hgas as [? ->]; split; [done|lia]].
    eapply wpM_mono; [apply (Hgas st bound (G f + 1)); [done|rewrite E1; lia|done]|]. intros f2 [e|cost]; [done|].
    intros [H2 H3]. split; [lia|]. split; [done|lia].
  - intros f4 [e|u]; [done|]. intros [K Kp]. unfold after. apply wp_execution.
    pose proof (ch_stack _ _ _ _ _ _ _ K) as Es.
    eapply wp_mono; [apply (He st bound (G f + 1) f4); [apply (ch_frame _ _ _ _ _ _ _ K)|rewrite Es; lia|rewrite Es; lia|]|].
    + destruct (memorySize o) as [ms|] eqn:Em; [by apply Kp|]. apply Hpre; [done|]. intros Hop. specialize (Hw Hop).
      unfold within. by rewrite (ch_pc _ _ _ _ _ _ _ K), (ch_code _ _ _ _ _ _ _ K).
    + intros f5 rr Hok. eapply ok_step; [apply (ch_kept _ _ _ _ _ _ _ K)|exact Hok|].
      pose proof (charged_gas _ _ _ _ _ _ _ K). destruct Hst; [by left|right; lia].
Qed.

Lemma ok_stop st bound n f f4 o delta f5 r :
  kept f f4 -> ok_post st bound n f4 delta f5 r -> G f4 <= n -> stops o = true ->
  step_post st bound f o (if has Returns o then set_returnData f5 (returned r) else f5) r.
Proof.
  intros Hk H Hn Hst. destruct r as [e|res]; [apply failed_returned; by eapply failed_kept|]. destruct H as (K1 & K2 & _ & K4).
  split; [done|]. cbn [returned]. set (f6 := if has Returns o then _ else f5).
  assert (H6 : frame_at st bound n f6) by by apply frame_set_returned.
  assert (Hk6 : kept f4 f6) by (unfold f6; destruct K2; by destruct (has Returns o)).
  pose proof (kept_trans _ _ _ Hk Hk6) as Hk'. pose proof (kp_gas _ _ Hk6).
  split; [eapply frame_stopped; [done|exact H6|lia]|congruence].
Qed.

(** SELFDESTRUCT, which may add a refund and ends the contract. *)
Lemma allowed_suicide lim r op c g :
  0 <= c -> refund_gas_ok 1 g -> allowed lim r op (entry opSuicide c (Some g) 1 1025 None [Halts; Writes]).
Proof.
  intros Hc Hg st bound f Hr H Hb Hlim Hstack Hw. cbn in Hstack. set (o := entry _ _ _ _ _ _ _).
  destruct (fr_contract _ _ _ _ H) as (_ & Hgas & _). unfold is_u64 in Hgas.
  eapply wp_perform; [apply (charge_ok st bound (G f + 1) (G f) f o 1 any (fun _ _ _ => True)); [done|lia|lia|done|done|]|].
  - intros f1 size H1 E1 _ Hsz. cbn in Hsz. subst size. unfold gas_side. cbn.
    eapply wpM_mono; [apply (Hg st bound (G f)); [done|done|lia|rewrite E1; lia]|]. intros f2 [e|cost]; [done|].
    intros [H2 H3]. split; [lia|done].
  - intros f4 [e|u]; [done|]. intros [K _]. unfold after. apply wp_execution.
    pose proof (ch_stack _ _ _ _ _ _ _ K) as Es. cbn [execute o].
    eapply wp_mono; [apply (opSuicide_ok st bound (G f) f4); [apply (ch_frame _ _ _ _ _ _ _ K)|rewrite Es; lia|rewrite Es; lia|done]|].
    intros f5 rr Hok. eapply ok_stop; [apply (ch_kept _ _ _ _ _ _ _ K)|exact Hok|apply (kp_gas _ _ (ch_kept _ _ _ _ _ _ _ K))|done].
Qed.

(** ** Writing to the storage *)

(** The gas function of SSTORE of [y] at [x], followed by the write. *)
Definition write_post st (bound n : Z) f (x y : Z) : post Z := fun f' r =>
  match r with
  | inr cost => 1 <= cost /\ exists t, f' = set_db f t /\ chained st t /\ let u := SetState t (self (contract f)) x y in
      db_ok (rules f) st bound n u /\ lives (db f) u /\ warms (db f) u
  | inl _ => failed st f f'
  end.

Definition write_gas_ok (r : Rules) (g : Z -> M Z) : Prop :=
  forall st bound n f x y l, rules f = r -> frame_at st bound (n + 1) f -> bound < 2 ^ 64 -> 0 <= n ->
  stack f = rev (x :: y :: l) -> is_u256 x -> is_u256 y -> wpM (g 0) f (write_post st bound n f x y).


Lemma write_end st bound n f t x y :
  frame_at st bound (n + 1) f -> chained st t -> marked t -> lives (db f) t -> warms (db f) t ->
  0 <= refund t -> refund t + step_refund * n <= bound -> tracked (rules f) (SetState t (self (contract f)) x y) ->
  let u := SetState t (self (contract f)) x y in db_ok (rules f) st bound n u /\ lives (db f) u /\ warms (db f) u.
Proof.
  intros H Ct Hm Hl Hw H0 Hb Htr u. pose proof (chained_wf _ _ Ct) as Wt. set (a := self (contract f)) in *.
  assert (Hlu : lives (db f) u) by (etrans; [exact Hl|by apply lives_SetState]). split; [|split; [done|]].
  - split; [|done| | |by apply marked_SetState].
    + eapply chained_op; [done|]. by apply (call_op t (CSetState a x y)).
    + unfold u. rewrite SetState_refund. done.
    + eapply lives_coded; [exact Hlu|apply (fr_db _ _ _ _ H)].
  - intros b Hb'. by apply warms_SetState, Hw.
Qed.

(** Net metering. *)
Lemma write_net st bound n f x y m g cost :
  let p := schedule_of m in let a := self (contract f) in
  frame_at st bound (n + 1) f -> metering_of (rules f) = Some m -> 0 <= n -> is_u256 y ->
  runs (g 0) f cost (net_refund p (orig (db f) a x) (cur (db f) a x) y) -> 1 <= cost ->
  wpM (g 0) f (write_post st bound n f x y).
Proof.
  intros p a H Hm Hn Hy (t & E & Ht) Hc. exists (set_db f t), (inr cost). split; [exact E|]. split; [done|]. exists t. split; [done|].
  pose proof (fr_db _ _ _ _ H) as [D1 D2 D3 D4 D5]. pose proof (schedule_bounds m) as (B1 & B2 & B3 & B4).
  assert (Ct : chained st t) by (eapply chained_op; [done|apply Ht]). split; [done|]. pose proof (chained_wf _ _ Ct) as Wt.
  unfold tracked in D2. rewrite Hm in D2. fold p in D2, B1, B2, B3, B4.
  destruct (SetState_slots t a x y Wt) as (S1 & S2 & S3). pose proof (same_slots_accounts _ _ (rf_accounts _ _ _ Ht)) as Hs.
  assert (Het : (Exist t a).1 = true) by (rewrite (same_exist (db f) t) by apply Ht; apply (fr_self _ _ _ _ H)).
  assert (Hcov : covered p (SetState t a x y)).
  { apply (covered_write p (db f) _ a x y); try done.
    - intros b j Hor. etrans; [|apply Hs]. apply S2. destruct (decide (b = a)); [right|by left]. destruct Hor; tauto.
    - intros b j. etrans; [|apply Hs]. apply S3. by right.
    - rewrite SetState_refund. apply Ht. }
  pose proof (covered_nonneg _ _ Hcov) as Hnn. rewrite SetState_refund in Hnn.
  pose proof (net_refund_le p (orig (db f) a x) (cur (db f) a x) y B1 B2 B3). pose proof (rf_refund _ _ _ Ht).
  apply write_end; try done.
  - apply (marked_kept (db f)); [apply Ht|by apply slots_kept_same|done].
  - apply lives_same, Ht.
  - exact (rf_access _ _ _ Ht).
  - unfold step_refund in *. lia.
  - unfold tracked. by rewrite Hm.
Qed.

Lemma net_gas_pos m (o c v : Z) : 1 <= net_gas (schedule_of m) o c v.
Proof. unfold net_gas. repeat case_decide; destruct m; by vm_compute. Qed.

Lemma net_room st bound n f m :
  frame_at st bound (n + 1) f -> bound < 2 ^ 64 -> 0 <= n -> metering_of (rules f) = Some m -> forall a k,
  room (schedule_of m) (refund (db f)) /\ owed (schedule_of m) (orig (db f) a k) (cur (db f) a k) <= refund (db f).
Proof.
  intros H Hb Hn Hm a k. pose proof (fr_db _ _ _ _ H) as [D1 D2 D3 D4 D5]. pose proof (schedule_bounds m) as (B1 & B2 & B3 & B4).
  unfold tracked in D2. rewrite Hm in D2. unfold step_refund in *. split; [unfold room; lia|].
  specialize (D2 [(a, k)] (NoDup_singleton _)). unfold total, owed_at in D2. cbn in D2. lia.
Qed.

Lemma write_2929 r : IsYoloV3 r = true -> write_gas_ok r gasSStoreEIP2929.
Proof.
  intros Hr st bound n f x y l Er H Hb Hn E Hx Hy. assert (Hm : metering_of (rules f) = Some Net2929) by (unfold metering_of; by rewrite Er, Hr).
  destruct (decide (SstoreSentryGasEIP2200 < G f)) as [Hg|Hg]; [|unfold gasSStoreEIP2929; wp_run; rewrite decide_True by lia; wp_run;
    eapply frame_failed; [apply kept_refl|done]].
  destruct (net_room st bound n f Net2929 H Hb Hn Hm (self (contract f)) x) as [R1 R2].
  pose proof (gasSStoreEIP2929_runs f x y (frame_wf _ _ _ _ H) (operand_rev _ _ 0 _ E eq_refl Hx) (operand_rev _ _ 1 _ E eq_refl Hy)
    0 Hg (fr_warm _ _ _ _ H ltac:(by rewrite Er)) R1 R2) as K.
  eapply (write_net st bound n f x y Net2929 gasSStoreEIP2929 _ H Hm Hn Hy K).
  pose proof (net_gas_pos Net2929 (orig (db f) (self (contract f)) x) (cur (db f) (self (contract f)) x) y).
  unfold cold_cost, ColdSloadCostEIP2929. cbn [schedule_of] in *. case_bool_decide; lia.
Qed.

Lemma write_2200 r : IsYoloV3 r = false -> IsIstanbul r = true -> write_gas_ok r gasSStoreEIP2200.
Proof.
  intros Hr Hi st bound n f x y l Er H Hb Hn E Hx Hy.
  assert (Hm : metering_of (rules f) = Some Net2200) by (unfold metering_of; by rewrite Er, Hr, Hi).
  destruct (decide (SstoreSentryGasEIP2200 < G f)) as [Hg|Hg]; [|unfold gasSStoreEIP2200; wp_run; rewrite decide_True by lia; wp_run;
    eapply frame_failed; [apply kept_refl|done]].
  destruct (net_room st bound n f Net2200 H Hb Hn Hm (self (contract f)) x) as [R1 R2].
  pose proof (gasSStoreEIP2200_runs f x y (frame_wf _ _ _ _ H) (operand_rev _ _ 0 _ E eq_refl Hx) (operand_rev _ _ 1 _ E eq_refl Hy)
    0 Hg R1 R2) as K.
  apply (write_net st bound n f x y Net2200 gasSStoreEIP2200 _ H Hm Hn Hy K), (net_gas_pos Net2200).
Qed.

Lemma write_legacy st bound n f x y l :
  IsPetersburg (rules f) || negb (IsConstantinople (rules f)) = true -> metering_of (rules f) = None ->
  frame_at st bound (n + 1) f -> bound < 2 ^ 64 -> 0 <= n -> stack f = rev (x :: y :: l) -> is_u256 x -> is_u256 y ->
  wpM (gasSStore 0) f (write_post st bound n f x y).
Proof.
  intros Hl Hm H Hb Hn E Hx Hy. pose proof (frame_wf _ _ _ _ H) as W. unfold gasSStore, getState. wp_run.
  eapply (wpM_back f _ 1 y _ E); [done|]. wp_run. eapply (wpM_back f _ 0 x _ E); [done|]. wp_run.
  set (t := (GetState _ _ _).2). set (c := (GetState _ _ _).1).
  assert (Ht : evolves (db f) t) by query_ok (CGetState (self (contract f)) (Bytes32 x)). cbn [rules set_db]. rewrite Hl.
  pose proof (evolves_wf _ _ Ht) as Wt. pose proof (fr_db _ _ _ _ H) as [D1 D2 D3 D4 D5]. unfold step_refund in D3.
  assert (Ct : chained st t) by (eapply chained_op; [done|apply Ht]). pose proof (ev_refund _ _ Ht) as Rt.
  assert (Hw : forall u cost, 1 <= cost -> chained st u -> marked u -> lives t u -> warms t u -> 0 <= refund u <= refund t + step_refund ->
    write_post st bound n f x y (set_db f u) (inr cost)).
  { intros u cost Hc Cu Mu Hlu Hwu Hru. split; [done|]. exists u. split; [done|]. split; [done|].
    apply write_end; [done|done|done| | |lia|unfold step_refund in *; lia|unfold tracked; by rewrite Hm].
    - etrans; [apply Ht|done].
    - intros b Hb'. by apply Hwu, Ht. }
  assert (Mt : marked t) by by eapply evolves_marked.
  assert (Hkeep : forall cost, 1 <= cost -> write_post st bound n f x y (set_db f t) (inr cost)).
  { intros cost Hc. apply Hw; [done|done|done|reflexivity|by intros ?|unfold step_refund; lia]. }
  case_decide; wp_run; [by apply Hkeep|]. case_decide; wp_run; [|by apply Hkeep].
  eapply wpM_change; [done|]. wp_run. apply Hw; [done| |by apply AddRefund_marked|by apply AddRefund_lives|by intros ?|].
  - eapply chained_op; [done|]. by apply (call_op t (CAddRefund SstoreRefundGas)).
  - change (0 <= u64 (refund t + SstoreRefundGas) <= refund t + step_refund). rewrite u64_id; unfold is_u64, SstoreRefundGas, step_refund; lia.
Qed.

Lemma write_gasSStore r : IsYoloV3 r = false -> IsIstanbul r = false -> write_gas_ok r gasSStore.
Proof.
  intros Hr Hi st bound n f x y l Er H Hb Hn E Hx Hy. assert (Em : metering_of (rules f) =
    if IsConstantinople r && negb (IsPetersburg r) then Some Net1283 else None) by (unfold metering_of; by rewrite Er, Hr, Hi).
  destruct (IsConstantinople r && negb (IsPetersburg r)) eqn:Ec.
  - apply andb_true_iff in Ec as [Ec Ep]. apply negb_true_iff in Ep. rewrite <- Er in Ec, Ep.
    destruct (net_room st bound n f Net1283 H Hb Hn Em (self (contract f)) x) as [R1 R2].
    pose proof (gasSStore_runs f x y (frame_wf _ _ _ _ H) (operand_rev _ _ 0 _ E eq_refl Hx) (operand_rev _ _ 1 _ E eq_refl Hy)
      0 Ec Ep R1 R2) as K.
    apply (write_net st bound n f x y Net1283 gasSStore _ H Em Hn Hy K), (net_gas_pos Net1283).
  - eapply write_legacy; try done. rewrite Er. destruct (IsConstantinople r), (IsPetersburg r); done.
Qed.

Lemma allowed_sstore lim r op c g :
  0 <= c -> write_gas_ok r g -> allowed lim r op (entry opSstore c (Some g) 2 1026 None [Writes]).
Proof.
  intros Hc Hg st bound f Hr H Hb Hlim Hstack Hw. cbn in Hstack. operands H. do 2 pop_operand. unfold perform, charge.
  destruct (fr_contract _ _ _ _ H) as (_ & Hgas & _). unfold is_u64 in Hgas. apply wp_bind, wp_embed. wp_run. cbn [constantGas].
  assert (Hf : failed st f f) by (eapply frame_failed; [apply kept_refl|done]).
  apply wpM_use_gas; [|done]. intros Hle. destruct (frame_use_gas _ _ _ _ c H ltac:(done)) as [H1 K1].
  set (f1 := set_contract f _) in *. unfold after, memory_size. cbn [memorySize]. wp_run. apply wpM_dynamic_gas. cbn [dynamicGas].
  eapply wpM_mono; [apply (Hg st bound (G f) f1 x x0 l); try done; lia|].
  intros f2 [e|cost]; [intros Hf2; by eapply failed_kept|]. intros (Hcost & t & -> & Ct & Hdb & Hlv & Hwm).
  apply wpM_use_gas; cbn [contract set_db].
  - intros Hle2. unfold after. wp_run. apply wpM_resize; [done|]. apply wp_execution. cbn [execute has flags existsb].
    unfold opSstore. wp_run. cbn [returned]. rewrite !Bytes32_spec by done.
    set (u := SetState t (self (contract f)) x x0). rewrite Resize_0.
    set (f3 := set_stack (set_db (set_contract f1 (set_gas (contract f1) (G f1 - cost))) u) (rev l)).
    lazymatch goal with |- step_post _ _ _ ?o _ _ => change (step_post st bound f o f3 (inr [])) end.
    assert (H3 : frame_at st bound (G f) f3).
    { apply frame_stack; [|done|pose proof (fr_limit _ _ _ _ H); unfold zlen in *; cbn in *; lia].
      eapply frame_db; [apply (frame_use_gas _ _ _ _ cost H1); lia|done..]. }
    assert (Eg : G f3 = G f - c - cost) by done. assert (Hk : kept f f3) by (split; try done; lia).
    split; [done|]. split; [eapply frame_stopped; [exact Hk|exact H3|lia]|]. intros _. split; [|lia].
    eapply frame_mono; [exact H3|lia].
  - eapply failed_kept; [exact K1|]. destruct (fr_contract _ _ _ _ H1) as (Hca & Hg1 & _). unfold is_u64 in Hg1.
    split; try done; cbn; lia.
Qed.

End Step.
