(* ===== verification/VmCalls.v ===== *)
(** * Calls between contracts

    [evm_ok] is what the instructions rely on of the EVM: for less gas than a
    limit, a call ends without panic, keeps the invariant of the state within its
    share of the refund potential, and returns at most the gas it was given.
    Against this interface the instructions that call or create contracts keep
    the invariant of the frame; VmRun discharges it for evm.go. *)

From stdpp Require Import gmap.
From S2P Require Import Prelude Rlp Trie AccessList StateDB StateDBProofs StateDBSnapshots StateDBObserve StateDBEffects.
From S2P Require Import Uint256 VmAnalysis VmContract VmMemory VmGas VmPrecompiles VmInstructions VmJumpTable VmInterpreter VmGasProofs VmSstore.
From S2P Require Import VmRefund VmSupply VmState VmWp VmFrame VmInstrProofs VmInstrState VmGasTotal VmStep.

Section Calls.
Context {B : Backend} {BL : BackendLaws B} {CS : CodeStore B} {U : Uint256} {UL : Uint256Laws U} {C : Crypto}.
Implicit Types (f : frame) (st : list (revision * StateDB)) (e : EVM).

(** ** The interface *)

Definition caches_ok (m : gmap Z bitvec) : Prop := forall h a, m !! h = Some a -> bitmap_of (code_of h) a.

Definition caller_ok (caller : ContractRef) : Prop := match caller_cache caller with Some m => caches_ok m | None => True end.

(** The address is in the access list, where there is one. *)
Definition warm_in e (a : Z) : Prop := IsYoloV3 (chainRules e) = true -> ContainsAddress (access (evm_db e)) a = true.

(** The state and the gas of a call. *)
Record callable st (bound lim gas : Z) e (caller : ContractRef) : Prop := {
  cl_db : db_ok (chainRules e) st bound (gas + 1) (evm_db e);
  cl_bound : bound < 2 ^ 64;
  cl_gas : 0 <= gas < lim;
  cl_caller : caller_ok caller
}.

(** The caller's own account runs the code. *)
Definition home e (caller : ContractRef) : Prop :=
  (Exist (evm_db e) (caller_address caller)).1 = true /\ warm_in e (caller_address caller).

(** What a call leaves. *)
Record call_ok st (bound gas : Z) e e' (cache : gmap Z bitvec) (gas' : Z) : Prop := {
  co_rules : chainRules e' = chainRules e;
  co_db : db_ok (chainRules e) st bound gas' (evm_db e');
  co_lives : lives (evm_db e) (evm_db e');
  co_warms : warms (evm_db e) (evm_db e');
  co_cache : caches_ok cache;
  co_gas : 0 <= gas' <= gas
}.

Definition slice_ok (r : slice) : Prop := match r with Fresh b => data_ok b | InputSlice => True end.

(** An error leaves the state as it was; it takes the gas, unless the contract
    reverted or the call did not take place. *)
Definition undone e e' (gas' : Z) (err : option vm_error) : Prop :=
  forall er, err = Some er -> eqv (evm_db e') (evm_db e) /\
    (gas' = 0 \/ er ∈ [ErrExecutionReverted; ErrDepth; ErrInsufficientBalance]).

Definition call_spec st (bound gas : Z) e (m : fuelled Empty_set call_result) : Prop :=
  exists e' cache ret gas' err, m = run (Ret (e', cache, (ret, gas', err))) /\ call_ok st bound gas e e' cache gas' /\ slice_ok ret /\
    undone e e' gas' err.

Definition create_spec st (bound gas : Z) e (m : fuelled Empty_set create_result) : Prop :=
  exists e' cache ret addr gas' err, m = run (Ret (e', cache, (ret, addr, gas', err))) /\
    call_ok st bound gas e e' cache gas' /\ data_ok ret.

Record evm_ok (lim : Z) (E : Evm) : Prop := {
  ok_Call : forall st bound e caller addr input gas value,
    callable st bound lim gas e caller -> data_ok input -> warm_in e addr -> 0 <= value ->
    call_spec st bound gas e (evm_Call e caller addr input gas value);
  ok_CallCode : forall st bound e caller addr input gas value,
    callable st bound lim gas e caller -> data_ok input -> home e caller ->
    call_spec st bound gas e (evm_CallCode e caller addr input gas value);
  ok_DelegateCall : forall st bound e c addr input gas,
    callable st bound lim gas e (ContractCaller c) -> data_ok input -> home e (ContractCaller c) ->
    call_spec st bound gas e (evm_DelegateCall e (ContractCaller c) addr input gas);
  ok_StaticCall : forall st bound e caller addr input gas,
    callable st bound lim gas e caller -> data_ok input -> warm_in e addr ->
    call_spec st bound gas e (evm_StaticCall e caller addr input gas);
  ok_Create : forall st bound e caller code gas value,
    callable st bound lim gas e caller -> data_ok code -> 0 <= value ->
    create_spec st bound gas e (evm_Create e caller code gas value);
  ok_Create2 : forall st bound e caller code gas value salt,
    callable st bound lim gas e caller -> data_ok code -> 0 <= value ->
    create_spec st bound gas e (evm_Create2 e caller code gas value salt)
}.

(** ** Leaving and resuming a frame *)

(** The gas that is passed on, with two units to spare. *)
Definition affords st (bound lim : Z) f (gas : Z) : Prop :=
  bound < 2 ^ 64 /\ 0 <= gas < lim /\ exists n, frame_at st bound n f /\ G f + gas + 2 <= n.

Definition callee_bound (bound : Z) f : Z := bound - step_refund * (G f + 1).

Lemma affords_frame st bound lim f gas : affords st bound lim f gas -> frame_at st bound (G f + gas + 2) f.
Proof. intros (_ & _ & n & H & Hn). by eapply frame_mono. Qed.

Lemma affords_gas st bound lim f gas : affords st bound lim f gas -> 0 <= G f < 2 ^ 64.
Proof. intros H. pose proof (affords_frame _ _ _ _ _ H) as K. by destruct (fr_contract _ _ _ _ K) as (_ & Hg & _). Qed.

Lemma affords_callable st bound lim f gas :
  affords st bound lim f gas -> callable st (callee_bound bound f) lim gas (evm_of f) (ContractCaller (contract f)).
Proof.
  intros H. pose proof (affords_frame _ _ _ _ _ H) as K. pose proof (affords_gas _ _ _ _ _ H) as Hg. destruct H as (Hb & Hgas & _).
  destruct (fr_contract _ _ _ _ K) as ((_ & _ & _ & Hj) & _). destruct (fr_db _ _ _ _ K) as [D1 D2 D3 D4].
  unfold callee_bound, step_refund in *. split; [|lia|done|exact Hj]. split; try done. cbn. unfold step_refund. lia.
Qed.

Lemma affords_home st bound lim f gas : affords st bound lim f gas -> home (evm_of f) (ContractCaller (contract f)).
Proof. intros H. pose proof (affords_frame _ _ _ _ _ H) as K. split; [apply (fr_self _ _ _ _ K)|exact (fr_warm _ _ _ _ K)]. Qed.

Lemma cache_ok_set c m : cache_ok code_of c -> caches_ok m -> cache_ok code_of (set_jumpdests c m).
Proof. intros (H1 & H2 & H3 & _) Hm. by split_and!. Qed.

(** The frame after a call, but for the data that it returned. *)
Lemma resume_frame st bound lim f gas e' cache gas' :
  affords st bound lim f gas -> call_ok st (callee_bound bound f) gas (evm_of f) e' cache gas' ->
  frame_at st bound (G f + gas' + 1) (set_returnData (resume f e' cache) []).
Proof.
  intros H [K1 K2 K3 K4 K5 K6]. pose proof (affords_gas _ _ _ _ _ H) as Hg. pose proof (affords_frame _ _ _ _ _ H) as [].
  cbn in *. split; cbn; try done.
  - destruct fr_contract as (Hc & H2 & H3 & H4). split; [by apply cache_ok_set|done].
  - rewrite K1. destruct K2 as [D1 D2 D3 D4]. split; try done. unfold callee_bound, step_refund in *. lia.
  - by eapply lives_exist.
  - rewrite K1. intros Hy. by apply K4, fr_warm.
Qed.

(** The end of a call instruction. *)
Definition call_done st (bound : Z) f (gas : Z) : post bytes := fun f' r =>
  exists res, r = inr res /\ data_ok res /\ frame_at st bound (G f' + 1) (set_returnData f' []) /\
    rules f' = rules f /\ lives (db f) (db f') /\ warms (db f) (db f') /\ G f' <= G f + gas.

Lemma wp_call_with st bound gas f call (Q : post (slice * Z * option vm_error)) :
  call_spec st bound gas (evm_of f) (call (evm_of f) (ContractCaller (contract f))) ->
  (forall e' cache ret gas' err, call_ok st bound gas (evm_of f) e' cache gas' -> slice_ok ret ->
     Q (resume f e' cache) (inr (ret, gas', err))) -> wp (call_with call) f Q.
Proof.
  intros (e' & cache & ret & gas' & err & E & H1 & H2 & _) HQ. exists (resume f e' cache), (inr (ret, gas', err)).
  split; [|by apply HQ]. unfold call_with. by rewrite E.
Qed.

Lemma wp_create_with st bound gas f create (Q : post (bytes * Z * Z * option vm_error)) :
  create_spec st bound gas (evm_of f) (create (evm_of f) (ContractCaller (contract f))) ->
  (forall e' cache ret addr gas' err, call_ok st bound gas (evm_of f) e' cache gas' -> data_ok ret ->
     Q (resume f e' cache) (inr (ret, addr, gas', err))) -> wp (create_with create) f Q.
Proof.
  intros (e' & cache & ret & addr & gas' & err & E & H1 & H2) HQ. exists (resume f e' cache), (inr (ret, addr, gas', err)).
  split; [|by apply HQ]. unfold create_with. by rewrite E.
Qed.

(** A result is pushed and gas returned. *)
Lemma frame_returned st bound n f l v m gas' :
  frame_at st bound n (set_returnData f []) -> Forall is_u256 l -> zlen l < 1024 -> is_u256 v -> mem_good m ->
  0 <= gas' -> G f + gas' < 2 ^ 64 ->
  frame_at st bound n (set_returnData (set_contract (set_mem (set_stack f (rev (v :: l))) m)
    (set_gas (contract f) (u64 (G f + gas')))) []).
Proof.
  intros H Hl Hz Hv Hm Hg Hlt. destruct (fr_contract _ _ _ _ H) as (_ & Hgf & _). cbn in Hgf. unfold is_u64 in Hgf.
  apply (frame_contract st bound n (set_mem (set_stack (set_returnData f []) (rev (v :: l))) m)); [|apply contract_ok_gas; [apply (fr_contract _ _ _ _ H)|apply u64_range]|done].
  apply frame_mem; [|done]. apply frame_stack; [done|by constructor|rewrite zlen_cons; lia].
Qed.

Lemma finish_call_ok st bound lim f gas e' cache ret gas' err args inOff inSize retOff retSize l :
  affords st bound lim f gas -> call_ok st (callee_bound bound f) gas (evm_of f) e' cache gas' -> slice_ok ret ->
  G f + gas < 2 ^ 64 -> data_ok args -> covers f inOff inSize -> covers f retOff retSize -> stack f = rev l -> zlen l < 1024 ->
  wp (finish_call args inOff inSize retOff retSize (ret, gas', err)) (resume f e' cache) (call_done st bound f gas).
Proof.
  intros H K Hr Hlt Ha Hin Hret E Hz. pose proof (resume_frame _ _ _ _ _ _ _ _ H K) as Hf. pose proof (affords_gas _ _ _ _ _ H) as Hg.
  pose proof (affords_frame _ _ _ _ _ H) as H0. destruct K as [K1 K2 K3 K4 K5 K6]. cbn in K1.
  assert (Hl : Forall is_u256 l) by (pose proof (fr_stack _ _ _ _ H0) as Hs; rewrite E in Hs; by apply Forall_rev in Hs; rewrite rev_involutive in Hs).
  unfold finish_call. wp_run. set (f1 := set_stack (resume f e' cache) (rev (of_bool (bool_decide (err = None)) :: l))).
  assert (Hend : forall m, mem_like (mem f) m ->
    wpM (_ ← return_gas gas'; match ret with Fresh b => mret b | InputSlice => getPtr inOff inSize end) (set_mem f1 m)
      (call_done st bound f gas)).
  { intros m Hm. unfold return_gas. wp_run. set (f2 := set_contract (set_mem f1 m) _).
    assert (Hg2 : G f2 = G f + gas') by (unfold f2; cbn; apply u64_id; unfold is_u64; lia).
    assert (Hdone : forall res, data_ok res -> call_done st bound f gas f2 (inr res)).
    { intros res Hres. exists res. split; [done|]. split; [done|]. split; [|split; [done|]; split; [done|]; split; [done|lia]].
      rewrite Hg2. apply (frame_returned st bound _ (resume f e' cache) l); try done; [|apply Hm|lia|cbn; lia].
      destruct (bool_decide _); done. }
    destruct ret as [b|]; wp_run; [by apply Hdone|]. apply wpM_getPtr; [apply Hm| |auto].
    exact (covers_like f m _ _ Hm Hin). }
  case_decide.
  - apply (wpM_Memory_Set f1); [apply (fr_mem _ _ _ _ H0)|done|destruct ret; [apply Hr|apply Ha]|]. intros m Hm. exact (Hend m Hm).
  - pose proof (Hend (mem f)) as K. change (set_mem f1 (mem f)) with f1 in K. apply wpM_ret, K. split; [done|apply (fr_mem _ _ _ _ H0)].
Qed.

(** ** The call instructions *)

Lemma u256_nonneg x : is_u256 x -> 0 <= x.
Proof. unfold is_u256. lia. Qed.

Section Instructions.
Context {Ev : Evm} (lim : Z).

(** The gas of the callee, with the stipend for a value. *)
Definition passed (f : frame) (v : Z) : Z := callGasTemp f + (if decide (v = 0) then 0 else CallStipend).

Lemma value_call_ok st bound f call x addr v inOff inSize retOff retSize l :
  (forall input, data_ok input -> call_spec st (callee_bound bound f) (passed f v) (evm_of f)
     (call (evm_of f) (ContractCaller (contract f)) (Bytes20 addr) input (passed f v) v)) ->
  affords st bound lim f (passed f v) -> 0 <= callGasTemp f -> G f + passed f v < 2 ^ 64 ->
  stack f = rev (x :: addr :: v :: inOff :: inSize :: retOff :: retSize :: l) -> is_u256 v ->
  covers f inOff inSize -> covers f retOff retSize -> wp (value_call call) f (call_done st bound f (passed f v)).
Proof.
  intros Hcall H Ht Hlt E Hv Hin Hret. pose proof (affords_frame _ _ _ _ _ H) as H0. pose proof (affords_gas _ _ _ _ _ H) as Hg.
  unfold value_call. wp_run. apply wpM_getPtr; [apply (fr_mem _ _ _ _ H0)|exact Hin|]. intros args _ Hargs. unfold after.
  rewrite IsZero_spec by done.
  replace (if bool_decide (v = 0) then callGasTemp f else u64 (callGasTemp f + CallStipend)) with (passed f v).
  2:{ clear Hcall H. unfold passed, CallStipend in *. rewrite bool_decide_decide. destruct (decide (v = 0)); [lia|].
      rewrite u64_id; [done|unfold is_u64; lia]. }
  set (f1 := set_stack f (rev l)). apply wp_bind. eapply (wp_call_with _ _ _ f1); [exact (Hcall args Hargs)|].
  intros e' cache ret gas' err K Hr. unfold after. change (resume (set_stack _ _) e' cache) with (resume f1 e' cache).
  assert (Hl : zlen l < 1024) by (pose proof (fr_limit _ _ _ _ H0) as Hz; rewrite E, zlen_rev, !zlen_cons in Hz; lia).
  assert (Hl' : Forall is_u256 l).
  { pose proof (fr_stack _ _ _ _ H0) as Hs. rewrite E in Hs. apply Forall_rev in Hs. rewrite rev_involutive in Hs.
    by repeat (apply Forall_cons_1 in Hs as [_ Hs]). }
  apply (finish_call_ok st bound lim f1 _ _ _ _ _ _ _ _ _ _ _ l); try done.
  destruct H as (H1 & H2 & n & H3 & H4). split; [done|]. split; [done|]. exists n. split; [|done].
  apply frame_stack; [done|done|lia].
Qed.

(** Dropping operands. *)
Lemma affords_drop st bound f gas l0 l :
  affords st bound lim f gas -> stack f = rev (l0 ++ l) -> affords st bound lim (set_stack f (rev l)) gas /\ (zlen l + zlen l0 <= 1024).
Proof.
  intros (H1 & H2 & n & H3 & H4) E. pose proof (fr_limit _ _ _ _ H3) as Hz. rewrite E, zlen_rev, zlen_app in Hz. split; [|lia].
  split; [done|]. split; [done|]. exists n. split; [|done]. apply frame_stack; [done| |unfold zlen in *; lia].
  pose proof (fr_stack _ _ _ _ H3) as Hs. rewrite E in Hs. apply Forall_rev in Hs. rewrite rev_involutive in Hs.
  by apply Forall_app in Hs as [_ Hs].
Qed.

Lemma plain_call_ok st bound f call x addr inOff inSize retOff retSize l :
  (forall input, data_ok input -> call_spec st (callee_bound bound f) (callGasTemp f) (evm_of f)
     (call (evm_of f) (ContractCaller (contract f)) (Bytes20 addr) input (callGasTemp f))) ->
  affords st bound lim f (callGasTemp f) -> G f + callGasTemp f < 2 ^ 64 ->
  stack f = rev (x :: addr :: inOff :: inSize :: retOff :: retSize :: l) ->
  covers f inOff inSize -> covers f retOff retSize -> wp (plain_call call) f (call_done st bound f (callGasTemp f)).
Proof.
  intros Hcall H Hlt E Hin Hret. pose proof (affords_frame _ _ _ _ _ H) as H0.
  destruct (affords_drop _ _ _ _ [x; addr; inOff; inSize; retOff; retSize] l H E) as [H' Hz]. rewrite !zlen_cons in Hz.
  unfold plain_call. wp_run. apply wpM_getPtr; [apply (fr_mem _ _ _ _ H0)|exact Hin|]. intros args _ Hargs. unfold after.
  set (f1 := set_stack f (rev l)). apply wp_bind. eapply (wp_call_with _ _ _ f1); [exact (Hcall args Hargs)|].
  intros e' cache ret gas' err K Hr. unfold after. change (resume (set_stack _ _) e' cache) with (resume f1 e' cache).
  apply (finish_call_ok st bound lim f1 _ _ _ _ _ _ _ _ _ _ _ l); try done. change (zlen (@nil Z)) with 0 in Hz. lia.
Qed.

(** ** Rounds of call instructions *)

Lemma call_done_step st bound f f4 gas o f5 r :
  kept f f4 -> call_done st bound f4 gas f5 r -> G f4 + gas < G f -> has Returns o = true ->
  step_post st bound f o (if has Returns o then set_returnData f5 (returned r) else f5) r.
Proof.
  intros [K1 K2 K3 K4] (res & -> & Hd & Hf & H1 & H2 & H3 & H4) Hg Hret. rewrite Hret. cbn [returned]. split; [done|].
  assert (H5 : frame_at st bound (G f5 + 1) (set_returnData f5 res)) by exact (frame_returnData _ _ _ _ res Hf Hd).
  split; [|intros _; split; [exact H5|cbn; lia]]. eapply frame_stopped; [|exact H5|cbn; lia].
  split; cbn; [congruence|by etrans| |lia]. intros a Ha. by apply H3, K3.
Qed.

(** The gas that is charged pays for the gas that is passed. *)
Definition call_R (warm pays : bool) (f1 : frame) (cost : Z) (f2 : frame) : Prop :=
  0 <= callGasTemp f2 <= cost /\
  (pays = true -> forall l v, stack f1 = rev l -> l !! 2%nat = Some v -> v <> 0 -> callGasTemp f2 + CallValueTransferGas <= cost) /\
  (warm = true -> forall l a, stack f1 = rev l -> l !! 1%nat = Some a -> ContainsAddress (access (db f2)) (Bytes20 a) = true).

Lemma charged_call st bound f o k pre warm pays g :
  frame_at st bound (G f + 1) f -> k <= zlen (stack f) -> 0 <= constantGas o -> mem_side o k pre -> memorySize o <> None ->
  dynamicGas o = Some g -> call_gas_ok warm pays k g ->
  wpM (charge o) f (fun f' r =>
    match r with
    | inr _ => charged st bound (G f + 1) f o (call_R warm pays) f' /\ pre f'
    | inl _ => failed st f f'
    end).
Proof.
  intros H Hk Hc Hm Hms Hd Hg. eapply wpM_mono; [apply (charge_ok st bound (G f + 1) (G f + 1) f o k pre (call_R warm pays)); [done|lia|done..|]|].
  - intros f1 size H1 E1 _ Hsz. unfold gas_side. rewrite Hd.
    assert (Hw : whole true size) by (unfold uses_memory in Hsz; by destruct (memorySize o)).
    eapply wpM_mono; [apply (Hg st bound (G f + 1)); [done|by rewrite E1|done]|].
    intros f2 [e|cost]; [done|]. intros (H2 & H3 & H4 & H5 & H6). split; [lia|]. by split.
  - intros f4 [e|u]; [done|]. intros [K1 K2]. split; [done|]. by apply K2.
Qed.

Lemma charged_affords st bound f o warm pays f4 gas :
  frame_at st bound (G f + 1) f -> bound < 2 ^ 64 -> G f <= lim -> 1 <= constantGas o ->
  charged st bound (G f + 1) f o (call_R warm pays) f4 -> 0 <= gas -> G f4 + gas + constantGas o <= G f -> affords st bound lim f4 gas.
Proof.
  intros H Hb Hl Hc K Hg Hle. pose proof (ch_frame _ _ _ _ _ _ _ K) as K4. destruct (fr_contract _ _ _ _ K4) as (_ & Hg4 & _).
  unfold is_u64 in Hg4. split; [done|]. split; [lia|]. exists (G f + 1). split; [done|lia].
Qed.

(** What a call instruction may assume of its call. *)
Definition instr_call (r : Rules) (call : EVM -> ContractRef -> Z -> bytes -> Z -> Z -> fuelled Empty_set call_result) : Prop :=
  forall st bound f addr input gas v, rules f = r -> 0 <= v ->
  callable st bound lim gas (evm_of f) (ContractCaller (contract f)) -> home (evm_of f) (ContractCaller (contract f)) ->
  warm_in (evm_of f) addr -> data_ok input ->
  call_spec st bound gas (evm_of f) (call (evm_of f) (ContractCaller (contract f)) addr input gas v).

Lemma charged_warm st bound n f o warm pays f4 x addr l :
  (IsYoloV3 (rules f) = true -> warm = true) -> stack f = rev (x :: addr :: l) ->
  charged st bound n f o (call_R warm pays) f4 -> warm_in (evm_of f4) (Bytes20 addr).
Proof.
  intros Hw E K Hy. cbn [chainRules evm_of evm_db] in *. rewrite (kp_rules _ _ (ch_kept _ _ _ _ _ _ _ K)) in Hy.
  destruct (ch_cost _ _ _ _ _ _ _ K) as (f1 & cost & f2 & (_ & _ & R) & E1 & _ & _ & _ & _ & _ & ->).
  eapply (R (Hw Hy) (x :: addr :: l)); [by rewrite E1|done].
Qed.

Lemma allowed_value_call r op call c g warm :
  1 <= c -> call_gas_ok warm true 7 g -> (IsYoloV3 r = true -> warm = true) -> instr_call r call ->
  allowed lim r op (entry (value_call call) c (Some g) 7 1030 (Some memoryCall) [Returns]).
Proof.
  intros Hc Hg Hwarm Hcall st bound f Hr H Hb Hlim Hstack _. cbn in Hstack. set (o := entry _ _ _ _ _ _ _).
  eapply wp_perform; [apply (charged_call st bound f o 7 (fun f => in_range 5 6 f /\ in_range 3 4 f) warm true g);
    [done|lia|cbn; lia|apply (mem_two_needs 5 6 3 4 7); lia|done..]|].
  intros f4 [e|u]; [done|]. intros [K [Kp1 Kp2]]. unfold after. apply wp_execution.
  operands H. do 7 pop_operand. assert (E4 : stack f4 = rev (x :: x0 :: x1 :: x2 :: x3 :: x4 :: x5 :: l)) by (by rewrite (ch_stack _ _ _ _ _ _ _ K)).
  destruct (ch_cost _ _ _ _ _ _ _ K) as (f1 & cost & f2 & (R1 & R2 & _) & E1 & G1 & G2 & G3 & G4 & T4 & D4).
  specialize (R2 eq_refl _ x1 ltac:(rewrite E1; exact E) eq_refl). cbn in G1.
  assert (Hp : 0 <= passed f4 x1 /\ G f4 + passed f4 x1 + c <= G f).
  { unfold passed, CallStipend, CallValueTransferGas in *. rewrite T4. case_decide as Hv; [lia|]. specialize (R2 Hv). lia. }
  assert (Ha : affords st bound lim f4 (passed f4 x1)) by (eapply charged_affords; [done|done|done| |exact K|lia|]; cbn; lia).
  destruct (fr_contract _ _ _ _ H) as (_ & Hgf & _). unfold is_u64 in Hgf.
  eapply wp_mono; [apply (value_call_ok st bound f4 call x x0 x1 x2 x3 x4 x5 l); try done|].
  - intros input Hi. apply Hcall; [by rewrite (kp_rules _ _ (ch_kept _ _ _ _ _ _ _ K))|by eapply u256_nonneg|by apply affords_callable|by eapply affords_home| |done].
    eapply charged_warm; [by rewrite Hr|exact E|exact K].
  - rewrite T4. lia.
  - lia.
  - by eapply Kp2.
  - by eapply Kp1.
  - intros f5 rr Hd. eapply call_done_step; [apply (ch_kept _ _ _ _ _ _ _ K)|exact Hd|lia|done].
Qed.

Lemma allowed_plain_call r op (call : EVM -> ContractRef -> Z -> bytes -> Z -> fuelled Empty_set call_result) c g warm :
  1 <= c -> call_gas_ok warm false 6 g -> (IsYoloV3 r = true -> warm = true) ->
  instr_call r (fun e caller addr input gas _ => call e caller addr input gas) ->
  allowed lim r op (entry (plain_call call) c (Some g) 6 1029 (Some memoryDelegateCall) [Returns]).
Proof.
  intros Hc Hg Hwarm Hcall st bound f Hr H Hb Hlim Hstack _. cbn in Hstack. set (o := entry _ _ _ _ _ _ _).
  eapply wp_perform; [apply (charged_call st bound f o 6 (fun f => in_range 4 5 f /\ in_range 2 3 f) warm false g);
    [done|lia|cbn; lia|apply (mem_two_needs 4 5 2 3 6); lia|done..]|].
  intros f4 [e|u]; [done|]. intros [K [Kp1 Kp2]]. unfold after. apply wp_execution.
  operands H. do 6 pop_operand. assert (E4 : stack f4 = rev (x :: x0 :: x1 :: x2 :: x3 :: x4 :: l)) by (by rewrite (ch_stack _ _ _ _ _ _ _ K)).
  destruct (ch_cost _ _ _ _ _ _ _ K) as (f1 & cost & f2 & (R1 & _) & E1 & G1 & G2 & G3 & G4 & T4 & D4). cbn in G1.
  assert (Hp : 0 <= callGasTemp f4 /\ G f4 + callGasTemp f4 + c <= G f) by (rewrite T4; lia).
  assert (Ha : affords st bound lim f4 (callGasTemp f4)) by (eapply charged_affords; [done|done|done| |exact K|lia|]; cbn; lia).
  destruct (fr_contract _ _ _ _ H) as (_ & Hgf & _). unfold is_u64 in Hgf.
  eapply wp_mono; [apply (plain_call_ok st bound f4 call x x0 x1 x2 x3 x4 l); try done|].
  - intros input Hi. apply (Hcall _ _ _ _ _ _ 0); [by rewrite (kp_rules _ _ (ch_kept _ _ _ _ _ _ _ K))|done|by apply affords_callable|by eapply affords_home| |done].
    eapply charged_warm; [by rewrite Hr|exact E|exact K].
  - lia.
  - by eapply Kp2.
  - by eapply Kp1.
  - intros f5 rr Hd. eapply call_done_step; [apply (ch_kept _ _ _ _ _ _ _ K)|exact Hd|lia|done].
Qed.

(** ** Creations *)

Lemma finish_create_ok st bound f gas e' cache ok res addr gas' err l :
  affords st bound lim f gas -> call_ok st (callee_bound bound f) gas (evm_of f) e' cache gas' -> data_ok res ->
  G f + gas < 2 ^ 64 -> stack f = rev l -> zlen l < 1024 ->
  wp (finish_create ok res addr gas' err) (resume f e' cache) (call_done st bound f gas).
Proof.
  intros H K Hr Hlt E Hz. pose proof (resume_frame _ _ _ _ _ _ _ _ H K) as Hf. pose proof (affords_gas _ _ _ _ _ H) as Hg.
  pose proof (affords_frame _ _ _ _ _ H) as H0. destruct K as [K1 K2 K3 K4 K5 K6]. cbn in K1.
  assert (Hl : Forall is_u256 l) by (pose proof (fr_stack _ _ _ _ H0) as Hs; rewrite E in Hs; by apply Forall_rev in Hs; rewrite rev_involutive in Hs).
  unfold finish_create, return_gas. wp_run. set (v := if (ok : bool) then _ else 0).
  assert (Hv : is_u256 v) by (unfold v; destruct ok; [apply u256_SetBytes|done]). set (f2 := set_contract _ _).
  assert (Hg2 : G f2 = G f + gas') by (unfold f2; cbn; apply u64_id; unfold is_u64; lia).
  eexists. split; [done|]. split; [case_decide; [done|by repeat constructor]|].
  split; [|split; [done|]; split; [done|]; split; [done|lia]]. rewrite Hg2.
  apply (frame_returned st bound _ (resume f e' cache) l v (mem f)); try done; [apply (fr_mem _ _ _ _ H0)|lia|cbn; lia].
Qed.

(** The gas is taken from the contract before the creation. *)
Lemma take_gas_affords st bound f n gas :
  frame_at st bound n f -> bound < 2 ^ 64 -> 0 <= gas <= G f -> gas < lim -> G f + 2 <= n ->
  (UseGas (contract f) gas).2 = set_gas (contract f) (G f - gas) /\
  affords st bound lim (set_contract f (set_gas (contract f) (G f - gas))) gas.
Proof.
  intros H Hb Hg Hl Hn. split; [unfold UseGas; by rewrite decide_False by lia|]. split; [done|]. split; [lia|]. exists n. cbn.
  split; [apply (frame_use_gas _ _ _ _ gas H Hg)|lia].
Qed.

Lemma all_but_64th_le g : 0 <= g -> 0 <= g - g / 64 <= g.
Proof. intros. Z.to_euclidean_division_equations. lia. Qed.

Lemma opCreate_ok st bound f n value offset size l :
  evm_ok lim Ev -> frame_at st bound n f -> bound < 2 ^ 64 -> G f < lim -> G f + 2 <= n ->
  stack f = rev (value :: offset :: size :: l) -> covers f offset size ->
  wp opCreate f (fun f' r => exists f1, kept f f1 /\ exists gas, G f1 + gas = G f /\ call_done st bound f1 gas f' r).
Proof.
  intros He H Hb Hl Hn E Hc. destruct (fr_contract _ _ _ _ H) as (_ & Hg & _). unfold is_u64 in Hg. unfold opCreate, take_gas. wp_run.
  apply wpM_getCopy; [apply (fr_mem _ _ _ _ H)|exact Hc|]. intros input _ Hin. wp_run.
  cbn [rules contract set_stack]. set (gas := if IsEIP150 (rules f) then _ else _).
  assert (Hgas : 0 <= gas <= G f) by (unfold gas; pose proof (all_but_64th_le (G f)); destruct (IsEIP150 (rules f)); lia).
  pose proof (fr_limit _ _ _ _ H) as Hz. rewrite E, zlen_rev, !zlen_cons in Hz.
  pose proof (fr_stack _ _ _ _ H) as Hs. rewrite E in Hs. apply Forall_rev in Hs. rewrite rev_involutive in Hs.
  apply Forall_cons_1 in Hs as [Hv Hs]. do 2 (apply Forall_cons_1 in Hs as [_ Hs]).
  assert (H' : frame_at st bound n (set_stack f (rev l))) by (apply frame_stack; [done|done|lia]).
  destruct (take_gas_affords st bound _ n gas H' Hb) as [Eu Ha]; [cbn; lia|lia|cbn; lia|]. cbn [contract set_stack] in Eu, Ha.
  rewrite Eu. set (f1 := set_contract (set_stack f (rev l)) _) in Ha.
  apply (wp_create_with st (callee_bound bound f1) gas f1).
  { apply (ok_Create _ _ He); [by apply affords_callable|done|by apply u256_nonneg]. }
  intros e' cache ret addr gas' err K Hr. unfold after. wp_run.
  eapply wp_mono; [apply (finish_create_ok st bound f1 gas e' cache _ ret addr gas' err l); try done; [cbn; lia|unfold zlen in *; lia]|].
  intros f' rr Hd. exists f1. split; [split; cbn; [done|reflexivity|by intros ?|lia]|]. exists gas. split; [cbn; lia|done].
Qed.

Lemma opCreate2_ok st bound f n endowment offset size salt l :
  evm_ok lim Ev -> frame_at st bound n f -> bound < 2 ^ 64 -> G f < lim -> G f + 2 <= n ->
  stack f = rev (endowment :: offset :: size :: salt :: l) -> covers f offset size ->
  wp opCreate2 f (fun f' r => exists f1, kept f f1 /\ exists gas, G f1 + gas = G f /\ call_done st bound f1 gas f' r).
Proof.
  intros He H Hb Hl Hn E Hc. destruct (fr_contract _ _ _ _ H) as (_ & Hg & _). unfold is_u64 in Hg. unfold opCreate2, take_gas. wp_run.
  apply wpM_getCopy; [apply (fr_mem _ _ _ _ H)|exact Hc|]. intros input _ Hin. wp_run.
  cbn [rules contract set_stack]. set (gas := G f - G f / 64).
  assert (Hgas : 0 <= gas <= G f) by (unfold gas; pose proof (all_but_64th_le (G f)); lia).
  pose proof (fr_limit _ _ _ _ H) as Hz. rewrite E, zlen_rev, !zlen_cons in Hz.
  pose proof (fr_stack _ _ _ _ H) as Hs. rewrite E in Hs. apply Forall_rev in Hs. rewrite rev_involutive in Hs.
  apply Forall_cons_1 in Hs as [Hv Hs]. do 3 (apply Forall_cons_1 in Hs as [_ Hs]).
  assert (H' : frame_at st bound n (set_stack f (rev l))) by (apply frame_stack; [done|done|lia]).
  destruct (take_gas_affords st bound _ n gas H' Hb) as [Eu Ha]; [cbn; lia|lia|cbn; lia|]. cbn [contract set_stack] in Eu, Ha.
  rewrite Eu. set (f1 := set_contract (set_stack f (rev l)) _) in Ha.
  apply (wp_create_with st (callee_bound bound f1) gas f1).
  { apply (ok_Create2 _ _ He); [by apply affords_callable|done|by apply u256_nonneg]. }
  intros e' cache ret addr gas' err K Hr. unfold after. wp_run.
  eapply wp_mono; [apply (finish_create_ok st bound f1 gas e' cache _ ret addr gas' err l); try done; [cbn; lia|unfold zlen in *; lia]|].
  intros f' rr Hd. exists f1. split; [split; cbn; [done|reflexivity|by intros ?|lia]|]. exists gas. split; [cbn; lia|done].
Qed.

(** A creation takes the gas it passes on from the contract. *)
Definition creates (k : Z) (pre : frame -> Prop) (x : X bytes) : Prop :=
  forall st bound f n, frame_at st bound n f -> bound < 2 ^ 64 -> G f < lim -> G f + 2 <= n -> k <= zlen (stack f) -> pre f ->
  wp x f (fun f' r => exists f1, kept f f1 /\ exists gas, G f1 + gas = G f /\ call_done st bound f1 gas f' r).

Lemma opCreate_creates : evm_ok lim Ev -> creates 3 (in_range 1 2) opCreate.
Proof.
  intros He st bound f n H Hb Hl Hn Hk Hr. operands H. do 3 pop_operand. eapply opCreate_ok; try done. by eapply Hr.
Qed.

Lemma opCreate2_creates : evm_ok lim Ev -> creates 4 (in_range 1 2) opCreate2.
Proof.
  intros He st bound f n H Hb Hl Hn Hk Hr. operands H. do 4 pop_operand. eapply opCreate2_ok; try done. by eapply Hr.
Qed.

Lemma allowed_creation r op x c g k max pre ms :
  creates k pre x -> 1 <= c -> gas_ok true k 0 g -> mem_needs ms k pre ->
  allowed lim r op (entry x c (Some g) k max (Some ms) [Writes; Returns]).
Proof.
  intros Hx Hc Hg Hm st bound f Hr H Hb Hlim Hstack _. cbn in Hstack. set (o := entry _ _ _ _ _ _ _).
  eapply wp_perform; [apply (charge_ok st bound (G f + 1) (G f + 1) f o k pre (fun _ cost _ => 0 <= cost));
    [done|lia|lia|cbn; lia|done|]|].
  - intros f1 size H1 E1 _ Hsz. unfold gas_side. cbn [dynamicGas o].
    eapply wpM_mono; [apply (Hg st bound (G f + 1)); [done|rewrite E1; lia|done]|]. intros f2 [e|cost]; [done|].
    intros [H2 H3]. split; [lia|]. split; [done|lia].
  - intros f4 [e|u]; [done|]. intros [K Kp]. unfold after. apply wp_execution. pose proof (charged_gas _ _ _ _ _ _ _ K) as Hg4. cbn in Hg4.
    eapply wp_mono; [apply (Hx st bound f4 (G f + 1)); [apply (ch_frame _ _ _ _ _ _ _ K)|done|lia|lia| |by apply Kp]|].
    + rewrite (ch_stack _ _ _ _ _ _ _ K). lia.
    + intros f5 rr (f1 & K1 & gas & Eg & Hd). eapply call_done_step; [|exact Hd| |done].
      * eapply kept_trans; [apply (ch_kept _ _ _ _ _ _ _ K)|exact K1].
      * lia.
Qed.

End Instructions.

End Calls.
