(* ===== verification/VmTables.v ===== *)
(** * Every operation of every instruction set is sound

    The entries of the tables of jump_table.go and eips.go: the bounds on the
    stack fit what the execution functions take and leave, the memory functions
    cover what is accessed, and an operation that does not end the contract costs
    some gas. *)

From stdpp Require Import gmap.
From S2P Require Import Prelude Rlp Trie AccessList StateDB StateDBProofs StateDBSnapshots StateDBObserve StateDBEffects.
From S2P Require Import Uint256 VmAnalysis VmContract VmMemory VmGas VmPrecompiles VmInstructions VmJumpTable VmInterpreter VmGasProofs VmSstore.
From S2P Require Import VmRefund VmSupply VmState VmWp VmFrame VmInstrProofs VmInstrState VmGasTotal VmStep VmCalls.

Section Needs.
Context {B : Backend} {U : Uint256} {UL : Uint256Laws U}.

Lemma memorySha3_needs : mem_needs memorySha3 2 (in_range 0 1).
Proof. by apply (mem_range_needs 0 1 2). Qed.
Lemma memoryCallDataCopy_needs : mem_needs memoryCallDataCopy 3 (in_range 0 2).
Proof. by apply (mem_range_needs 0 2 3). Qed.
Lemma memoryReturnDataCopy_needs : mem_needs memoryReturnDataCopy 3 (in_range 0 2).
Proof. by apply (mem_range_needs 0 2 3). Qed.
Lemma memoryCodeCopy_needs : mem_needs memoryCodeCopy 3 (in_range 0 2).
Proof. by apply (mem_range_needs 0 2 3). Qed.
Lemma memoryExtCodeCopy_needs : mem_needs memoryExtCodeCopy 4 (in_range 1 3).
Proof. by apply (mem_range_needs 1 3 4). Qed.
Lemma memoryMLoad_needs : mem_needs memoryMLoad 1 (in_range_const 0 32).
Proof. by apply mem_fixed_needs. Qed.
Lemma memoryMStore_needs : mem_needs memoryMStore 2 (in_range_const 0 32).
Proof. by apply mem_fixed_needs. Qed.
Lemma memoryMStore8_needs : mem_needs memoryMStore8 2 (in_range_const 0 1).
Proof. by apply mem_fixed_needs. Qed.
Lemma memoryCreate_needs : mem_needs memoryCreate 3 (in_range 1 2).
Proof. by apply (mem_range_needs 1 2 3). Qed.
Lemma memoryCreate2_needs : mem_needs memoryCreate2 4 (in_range 1 2).
Proof. by apply (mem_range_needs 1 2 4). Qed.
Lemma memoryReturn_needs : mem_needs memoryReturn 2 (in_range 0 1).
Proof. by apply (mem_range_needs 0 1 2). Qed.
Lemma memoryRevert_needs : mem_needs memoryRevert 2 (in_range 0 1).
Proof. by apply (mem_range_needs 0 1 2). Qed.
Lemma memoryLog_needs (n : nat) : mem_needs memoryLog (Z.of_nat n + 2) (in_range 0 1).
Proof. apply (mem_range_needs 0 1); lia. Qed.

End Needs.

Create HintDb vm discriminated.
#[export] Hint Resolve memorySha3_needs memoryCallDataCopy_needs memoryReturnDataCopy_needs memoryCodeCopy_needs memoryExtCodeCopy_needs
  memoryMLoad_needs memoryMStore_needs memoryMStore8_needs memoryCreate_needs memoryCreate2_needs memoryReturn_needs memoryRevert_needs
  memoryLog_needs : vm.
#[export] Hint Resolve opAdd_ok opSub_ok opMul_ok opDiv_ok opSdiv_ok opMod_ok opSmod_ok opExp_ok opSignExtend_ok opNot_ok opLt_ok opGt_ok
  opSlt_ok opSgt_ok opEq_ok opIszero_ok opAnd_ok opOr_ok opXor_ok opByte_ok opSHL_ok opSHR_ok opSAR_ok opAddmod_ok opMulmod_ok : vm.
#[export] Hint Resolve opAddress_ok opOrigin_ok opCaller_ok opCallValue_ok opCallDataSize_ok opReturnDataSize_ok opCodeSize_ok opGasprice_ok
  opCoinbase_ok opTimestamp_ok opNumber_ok opDifficulty_ok opGasLimit_ok opChainID_ok opMsize_ok opPc_ok opGas_ok opBalance_ok opSelfBalance_ok
  opExtCodeSize_ok opExtCodeHash_ok opSload_ok : vm.
#[export] Hint Resolve opSha3_ok opMload_ok opReturn_ok opRevert_ok opMstore_ok opMstore8_ok opCallDataLoad_ok opCallDataCopy_ok opCodeCopy_ok
  opExtCodeCopy_ok opReturnDataCopy_ok opBlockhash_ok opPop_ok opJump_ok opJumpi_ok opStop_ok opJumpdest_ok opBeginSub_ok opJumpSub_ok
  opReturnSub_ok opPush1_ok makeLog_ok : vm.
#[export] Hint Resolve gasCallDataCopy_ok gasCodeCopy_ok gasReturnDataCopy_ok gasExtCodeCopy_ok gasSha3_ok gasCreate2_ok gasSLoadEIP2929_ok
  gasEip2929AccountCheck_ok gasExtCodeCopyEIP2929_ok : vm.
#[export] Hint Extern 1 (exec_ok _ _ _ (makePush _ _)) => apply makePush_ok; done : vm.
#[export] Hint Extern 1 (exec_ok _ _ _ (makeDup _)) => apply makeDup_ok; done : vm.
#[export] Hint Extern 1 (exec_ok _ _ _ (makeSwap _)) => apply makeSwap_ok; done : vm.
#[export] Hint Extern 1 (gas_ok _ _ _ (makeGasLog _)) => apply makeGasLog_ok; done : vm.
#[export] Hint Extern 1 (gas_ok _ _ _ gasExpFrontier) => apply gasExp_ok; done : vm.
#[export] Hint Extern 1 (gas_ok _ _ _ gasExpEIP158) => apply gasExp_ok; done : vm.
#[export] Hint Extern 1 (gas_ok _ _ _ gasReturn) => apply pureMemoryGascost_ok : vm.
#[export] Hint Extern 1 (gas_ok _ _ _ gasRevert) => apply pureMemoryGascost_ok : vm.
#[export] Hint Extern 1 (gas_ok _ _ _ gasMLoad) => apply pureMemoryGascost_ok : vm.
#[export] Hint Extern 1 (gas_ok _ _ _ gasMStore) => apply pureMemoryGascost_ok : vm.
#[export] Hint Extern 1 (gas_ok _ _ _ gasMStore8) => apply pureMemoryGascost_ok : vm.
#[export] Hint Extern 1 (gas_ok _ _ _ gasCreate) => apply pureMemoryGascost_ok : vm.

(** The entry of an operation in a table. *)
Ltac find_entry :=
  lazy beta iota zeta delta [
    lookup_op alter_op set_op set_constantGas set_dynamicGas Z.eqb Pos.eqb app execute constantGas dynamicGas op_minStack op_maxStack
    memorySize flags PUSH1 PUSH32 JUMPDEST BEGINSUB
    frontier_arithmetic frontier_logic frontier_environment frontier_block frontier_memory frontier_push_low frontier_push_high
    frontier_dup frontier_swap frontier_log frontier_system newFrontierInstructionSet newHomesteadInstructionSet
    newTangerineWhistleInstructionSet newSpuriousDragonInstructionSet newByzantiumInstructionSet newConstantinopleInstructionSet
    enable1884 enable1344 enable2200 enable2315 enable2929 newIstanbulInstructionSet newYoloV3InstructionSet].

(** An entry without calls. *)
Ltac simple_op :=
  cbn [fst snd]; eapply allowed_simple;
  [cbn [execute]; solve [eauto with vm]
  |cbn [dynamicGas uses_memory memorySize]; first [split; reflexivity|solve [eauto with vm]]
  |unfold mem_side; cbn [memorySize]; first [exact I|solve [eauto with vm]]
  |first [discriminate|let f := fresh in let H := fresh in intros _ f H; first [exact I|apply H; done]]
  |reflexivity|reflexivity|by vm_compute|done|first [left; reflexivity|right; by vm_compute]].

Section Tables.
Context {B : Backend} {BL : BackendLaws B} {CS : CodeStore B} {U : Uint256} {UL : Uint256Laws U} {C : Crypto} {Ev : Evm} (env : Env).
Context (lim : Z) (He : evm_ok lim Ev) (r : Rules).

(** The operations that are looked up in the final table: their gas functions
    depend on the rules, or are set in two steps. *)
Definition special (op : Z) : Prop := op ∈ [SLOAD; SSTORE; CALL; CALLCODE; DELEGATECALL; STATICCALL].

#[local] Instance special_dec op : Decision (special op).
Proof. unfold special. apply _. Defined.

Definition sound (t : JumpTable) : Prop := Forall (fun x => special x.1 \/ allowed lim r x.1 x.2) t.

Ltac entries := repeat (constructor; [first [right; simple_op|left; apply (bool_decide_unpack (special _)); exact I]|]); constructor.

Lemma frontier_arithmetic_sound : sound frontier_arithmetic.
Proof. entries. Qed.
Lemma frontier_logic_sound : sound (frontier_logic env).
Proof. entries. Qed.
Lemma frontier_environment_sound : sound (frontier_environment env).
Proof. entries. Qed.
Lemma frontier_block_sound : sound (frontier_block env).
Proof. entries. Qed.
Lemma frontier_memory_sound : sound frontier_memory.
Proof. entries. Qed.
Lemma frontier_push_low_sound : sound frontier_push_low.
Proof. entries. Qed.
Lemma frontier_push_high_sound : sound frontier_push_high.
Proof. entries. Qed.
Lemma frontier_dup_sound : sound frontier_dup.
Proof. entries. Qed.
Lemma frontier_swap_sound : sound frontier_swap.
Proof. entries. Qed.
Lemma frontier_log_sound : sound (frontier_log env).
Proof. entries. Qed.

Lemma create_allowed : allowed lim r CREATE (entry opCreate CreateGas (Some gasCreate) 3 1026 (Some memoryCreate) [Writes; Returns]).
Proof. apply (allowed_creation lim r _ _ _ _ 3 _ (in_range 1 2)); [by apply opCreate_creates|done|apply pureMemoryGascost_ok|apply memoryCreate_needs]. Qed.

Lemma create2_allowed : allowed lim r CREATE2 (entry opCreate2 Create2Gas (Some gasCreate2) 4 1027 (Some memoryCreate2) [Writes; Returns]).
Proof. apply (allowed_creation lim r _ _ _ _ 4 _ (in_range 1 2)); [by apply opCreate2_creates|done|apply gasCreate2_ok|apply memoryCreate2_needs]. Qed.

Ltac is_special := left; apply (bool_decide_unpack (special _)); exact I.

Lemma frontier_system_sound : sound frontier_system.
Proof.
  constructor; [right; exact create_allowed|]. constructor; [is_special|]. constructor; [is_special|].
  constructor; [right; simple_op|]. constructor; [|constructor]. right. apply (allowed_suicide lim r _ 0); [done|apply gasSelfdestruct_ok].
Qed.

(** ** Changes of a table *)

Lemma sound_app t t' : sound t -> sound t' -> sound (t ++ t').
Proof. apply Forall_app_2. Qed.

Lemma sound_set t op o : sound t -> special op \/ allowed lim r op o -> sound (set_op t op o).
Proof.
  intros Ht Ho. induction Ht as [|[k o'] t Hx Ht IH]; cbn; [constructor; [done|constructor]|]. case (Z.eqb_spec k op) as [->|]; by constructor.
Qed.

Lemma sound_alter t op g :
  sound t -> special op \/ (forall o, lookup_op t op = Some o -> allowed lim r op (g o)) -> sound (alter_op g op t).
Proof.
  intros Ht Ho. induction Ht as [|[k o'] t Hx Ht IH]; cbn in *; [constructor|]. case (Z.eqb_spec k op) as [->|].
  - constructor; [|done]. destruct Ho as [Ho|Ho]; [by left|right]. by apply Ho.
  - constructor; [done|]. by apply IH.
Qed.

Lemma sound_lookup t op o : sound t -> lookup_op t op = Some o -> ~ special op -> allowed lim r op o.
Proof.
  intros Ht. induction Ht as [|[k o'] t Hx Ht IH]; cbn; [done|]. case (Z.eqb_spec k op) as [->|]; [|done].
  intros [= <-] Hs. by destruct Hx.
Qed.

Ltac set_simple := apply sound_set; [|right; simple_op].
Ltac altered := apply sound_alter; [|right; intros o; find_entry; intros [= <-]; simple_op].

Lemma frontier_sound : sound (newFrontierInstructionSet env).
Proof.
  unfold newFrontierInstructionSet.
  repeat apply sound_app; [apply frontier_arithmetic_sound|apply frontier_logic_sound|apply frontier_environment_sound|
    apply frontier_block_sound|apply frontier_memory_sound|apply frontier_push_low_sound|apply frontier_push_high_sound|
    apply frontier_dup_sound|apply frontier_swap_sound|apply frontier_log_sound|apply frontier_system_sound].
Qed.

Lemma homestead_sound : sound (newHomesteadInstructionSet env).
Proof. apply sound_set; [apply frontier_sound|is_special]. Qed.

Lemma tangerine_sound : sound (newTangerineWhistleInstructionSet env).
Proof.
  unfold newTangerineWhistleInstructionSet, set_constantGas. do 3 (apply sound_alter; [|is_special]). altered.
  apply sound_alter; [|is_special]. do 2 altered. apply homestead_sound.
Qed.

Lemma spurious_sound : sound (newSpuriousDragonInstructionSet env).
Proof. unfold newSpuriousDragonInstructionSet, set_dynamicGas. altered. apply tangerine_sound. Qed.

Lemma byzantium_sound : sound (newByzantiumInstructionSet env).
Proof.
  unfold newByzantiumInstructionSet. do 3 set_simple. apply sound_set; [|is_special]. apply spurious_sound.
Qed.

Lemma constantinople_sound : sound (newConstantinopleInstructionSet env).
Proof.
  unfold newConstantinopleInstructionSet. apply sound_set; [|right; exact create2_allowed]. do 4 set_simple. apply byzantium_sound.
Qed.

Lemma istanbul_sound : sound (newIstanbulInstructionSet env).
Proof.
  unfold newIstanbulInstructionSet, enable2200, enable1884, enable1344, set_dynamicGas, set_constantGas.
  do 2 (apply sound_alter; [|is_special]). set_simple. do 2 altered. apply sound_alter; [|is_special]. set_simple.
  apply constantinople_sound.
Qed.

Lemma enable2315_sound : sound (enable2315 (newIstanbulInstructionSet env)).
Proof. unfold enable2315. do 3 set_simple. apply istanbul_sound. Qed.

Lemma yolo_sound : sound (newYoloV3InstructionSet env).
Proof.
  unfold newYoloV3InstructionSet, enable2929, set_dynamicGas, set_constantGas.
  do 2 (apply sound_alter; [|right; intros o; find_entry; intros [= <-]; apply allowed_suicide; [done|
    first [apply gasSelfdestructEIP2929_ok|apply gasSelfdestruct_ok]]]).
  do 8 (apply sound_alter; [|is_special]). do 8 altered. do 3 (apply sound_alter; [|is_special]). apply enable2315_sound.
Qed.

(** ** The operations that depend on the rules *)

Lemma instr_Call : instr_call lim r evm_Call.
Proof. intros st bound f addr input gas v _ Hv Hc _ Hw Hi. by apply (ok_Call _ _ He). Qed.

Lemma instr_CallCode : instr_call lim r evm_CallCode.
Proof. intros st bound f addr input gas v _ Hv Hc Hh _ Hi. by apply (ok_CallCode _ _ He). Qed.

Lemma instr_DelegateCall : instr_call lim r (fun e caller addr input gas _ => evm_DelegateCall e caller addr input gas).
Proof. intros st bound f addr input gas v _ Hv Hc Hh _ Hi. by apply (ok_DelegateCall _ _ He). Qed.

Lemma instr_StaticCall : instr_call lim r (fun e caller addr input gas _ => evm_StaticCall e caller addr input gas).
Proof. intros st bound f addr input gas v _ Hv Hc _ Hw Hi. by apply (ok_StaticCall _ _ He). Qed.

(** The gas functions of the calls before and after EIP-2929. *)
Definition call_gas (warm : bool) (old : Z -> M Z) : Z -> M Z := if warm then makeCallVariantGasCallEIP2929 old else old.

Lemma call_gas_total warm pays k old : 2 <= k -> call_gas_ok false pays k old -> call_gas_ok warm pays k (call_gas warm old).
Proof. intros Hk H. destruct warm; [by apply makeCallVariantGasCallEIP2929_ok|done]. Qed.

Lemma call_entry warm c : (IsYoloV3 r = true -> warm = true) -> 1 <= c ->
  allowed lim r CALL (entry opCall c (Some (call_gas warm gasCall)) 7 1030 (Some memoryCall) [Returns]).
Proof. intros Hw Hc. by eapply allowed_value_call; [|apply call_gas_total; [|apply gasCall_ok]| |apply instr_Call]. Qed.

Lemma callcode_entry warm c : (IsYoloV3 r = true -> warm = true) -> 1 <= c ->
  allowed lim r CALLCODE (entry opCallCode c (Some (call_gas warm gasCallCode)) 7 1030 (Some memoryCall) [Returns]).
Proof. intros Hw Hc. by eapply allowed_value_call; [|apply call_gas_total; [|apply gasCallCode_ok]| |apply instr_CallCode]. Qed.

Lemma delegatecall_entry warm c : (IsYoloV3 r = true -> warm = true) -> 1 <= c ->
  allowed lim r DELEGATECALL (entry opDelegateCall c (Some (call_gas warm gasDelegateCall)) 6 1029 (Some memoryDelegateCall) [Returns]).
Proof. intros Hw Hc. by eapply allowed_plain_call; [|apply call_gas_total; [|apply gasDelegateCall_ok]| |apply instr_DelegateCall]. Qed.

Lemma staticcall_entry warm c : (IsYoloV3 r = true -> warm = true) -> 1 <= c ->
  allowed lim r STATICCALL (entry opStaticCall c (Some (call_gas warm gasStaticCall)) 6 1029 (Some memoryStaticCall) [Returns]).
Proof. intros Hw Hc. by eapply allowed_plain_call; [|apply call_gas_total; [|apply gasStaticCall_ok]| |apply instr_StaticCall]. Qed.

(** The special operations of a table. *)
Definition specials_ok (t : JumpTable) : Prop := forall op o, special op -> lookup_op t op = Some o -> allowed lim r op o.

Ltac each_special :=
  intros op o Hs; unfold special in Hs;
  repeat (apply elem_of_cons in Hs as [->|Hs]; [find_entry; try discriminate; intros [= <-]|]); [..|by apply not_elem_of_nil in Hs].

Lemma yolo_specials : IsYoloV3 r = true -> specials_ok (newYoloV3InstructionSet env).
Proof.
  intros Hr. each_special.
  - simple_op.
  - apply allowed_sstore; [done|by apply write_2929].
  - by apply (call_entry true).
  - by apply (callcode_entry true).
  - by apply (delegatecall_entry true).
  - by apply (staticcall_entry true).
Qed.

Lemma istanbul_specials : IsYoloV3 r = false -> IsIstanbul r = true -> specials_ok (newIstanbulInstructionSet env).
Proof.
  intros Hr Hi. assert (Hw : IsYoloV3 r = true -> false = true) by congruence. each_special.
  - simple_op.
  - apply allowed_sstore; [done|by apply write_2200].
  - by apply (call_entry false).
  - by apply (callcode_entry false).
  - by apply (delegatecall_entry false).
  - by apply (staticcall_entry false).
Qed.

Ltac old_special Hw :=
  lazymatch goal with
  | |- allowed _ _ SLOAD _ => simple_op
  | |- allowed _ _ SSTORE _ => apply allowed_sstore; [done|by apply write_gasSStore]
  | |- allowed _ _ CALL _ => by apply (call_entry false)
  | |- allowed _ _ CALLCODE _ => by apply (callcode_entry false)
  | |- allowed _ _ DELEGATECALL _ => by apply (delegatecall_entry false)
  | |- allowed _ _ STATICCALL _ => by apply (staticcall_entry false)
  end.

Lemma old_specials : IsYoloV3 r = false -> IsIstanbul r = false ->
  Forall specials_ok [newConstantinopleInstructionSet env; newByzantiumInstructionSet env; newSpuriousDragonInstructionSet env;
    newTangerineWhistleInstructionSet env; newHomesteadInstructionSet env; newFrontierInstructionSet env].
Proof.
  intros Hr Hi. assert (Hw : IsYoloV3 r = true -> false = true) by congruence.
  repeat (constructor; [each_special; old_special Hw|]). constructor.
Qed.

Lemma instruction_set_allowed op o : lookup_op (instruction_set env r) op = Some o -> allowed lim r op o.
Proof.
  assert (Hall : forall t, sound t -> specials_ok t -> lookup_op t op = Some o -> allowed lim r op o).
  { intros t Ht Hs E. destruct (decide (special op)); [by eapply Hs|by eapply sound_lookup]. }
  unfold instruction_set. destruct (IsYoloV3 r) eqn:E1; [apply Hall; [apply yolo_sound|by apply yolo_specials]|].
  destruct (IsIstanbul r) eqn:E2; [apply Hall; [apply istanbul_sound|by apply istanbul_specials]|].
  pose proof (old_specials E1 E2) as Ho. apply Forall_cons_1 in Ho as [H1 Ho]. apply Forall_cons_1 in Ho as [H2 Ho].
  apply Forall_cons_1 in Ho as [H3 Ho]. apply Forall_cons_1 in Ho as [H4 Ho]. apply Forall_cons_1 in Ho as [H5 Ho]. apply Forall_cons_1 in Ho as [H6 _].
  destruct (IsConstantinople r); [apply Hall; [apply constantinople_sound|exact H1]|].
  destruct (IsByzantium r); [apply Hall; [apply byzantium_sound|exact H2]|].
  destruct (IsEIP158 r); [apply Hall; [apply spurious_sound|exact H3]|].
  destruct (IsEIP150 r); [apply Hall; [apply tangerine_sound|exact H4]|].
  destruct (IsHomestead r); [apply Hall; [apply homestead_sound|exact H5]|apply Hall; [apply frontier_sound|exact H6]].
Qed.

End Tables.
