(* ===== verification/VmPrecompileProofs.v ===== *)
(** * Precompiled contracts never panic

    Whatever the input, a precompiled contract whose gas is paid for ends with an
    output or an error.  For the modular exponentiation, whose operands have
    lengths chosen by the caller, this is because the gas bounds the lengths; its
    output is the power, reduced and padded. *)

From stdpp Require Import gmap.
From Stdlib Require Import Zpow_facts.
From S2P Require Import Prelude Rlp Trie AccessList StateDB StateDBProofs StateDBSnapshots StateDBObserve StateDBEffects.
From S2P Require Import Uint256 VmAnalysis VmContract VmMemory VmGas VmPrecompiles VmInstructions VmGasProofs VmSstore VmRefund VmState VmWp.

(** What the contracts rely on of the cryptographic packages: the sizes of their
    outputs. *)
Class CryptoLaws (C : Crypto) := {
  Keccak256_size : forall b, bytes_ok (Keccak256 b) /\ zlen (Keccak256 b) = 32;
  Sum256_size : forall b, bytes_ok (sha256_Sum256 b) /\ zlen (sha256_Sum256 b) = 32;
  ripemd160_size : forall b, bytes_ok (ripemd160_Sum b) /\ zlen (ripemd160_Sum b) = 20;
  Ecrecover_size : forall h sig k, Ecrecover h sig = Some k -> bytes_ok k /\ zlen k = 65;
  G1_Marshal_size : forall p, bytes_ok (G1_Marshal p) /\ zlen (G1_Marshal p) = 64;
  blake2b_F_size : forall h m t0 t1 last rounds, zlen h = 8 -> zlen (blake2b_F h m t0 t1 last rounds) = 8
}.

Section Precompiles.
Context {C : Crypto} {CL : CryptoLaws C}.

(** ** Lengths *)

Lemma data_ok_nil : data_ok [].
Proof. by repeat constructor. Qed.

Lemma be_to_Z_small d n : bytes_ok d -> zlen d = n -> 0 <= be_to_Z d < 256 ^ n.
Proof. intros Hd <-. by apply be_to_Z_bound. Qed.

(** The three lengths of the operands, and the rest of the input. *)
Lemma modexp_lengths_total {E} input :
  data_ok input -> exists b e m rest, modexp_lengths (E:=E) input = Ret (b, e, m, rest) /\
    0 <= b < 2 ^ 256 /\ 0 <= e < 2 ^ 256 /\ 0 <= m < 2 ^ 256 /\ data_ok rest.
Proof.
  intros Hi. unfold modexp_lengths.
  destruct (getData_total (E:=E) input 0 32 Hi) as (d1 & -> & B1 & Z1); [done..|]. cbn [mbind outcome_bind].
  destruct (getData_total (E:=E) input 32 32 Hi) as (d2 & -> & B2 & Z2); [done..|]. cbn [mbind outcome_bind].
  destruct (getData_total (E:=E) input 64 32 Hi) as (d3 & -> & B3 & Z3); [done..|]. cbn [mbind outcome_bind].
  eexists _, _, _, _. split; [done|]. change (2 ^ 256) with (256 ^ 32).
  split; [by apply be_to_Z_small|]. split; [by apply be_to_Z_small|]. split; [by apply be_to_Z_small|].
  destruct Hi as [Hb Hz]. case_decide; [|apply data_ok_nil]. split; [by apply Forall_drop|]. unfold zlen in *. rewrite length_drop. lia.
Qed.

(** The gas as an integer. *)
Definition modexp_gas (eip2565 : bool) (x adj : Z) : Z :=
  if eip2565 then (x + 7) / 8 * ((x + 7) / 8) * Z.max adj 1 / 3 else modexpMultComplexity x * Z.max adj 1 / 20.

Lemma bitlen_bound x : 0 <= x -> (bitlen x > 64 <-> 2 ^ 64 <= x).
Proof.
  intros Hx. unfold bitlen. case_decide; [lia|]. rewrite Z.abs_eq by done. split; intros Hb.
  - apply Z.log2_le_pow2; lia.
  - assert (64 <= Z.log2 x) by (by apply Z.log2_le_pow2; [lia|]). lia.
Qed.

Lemma bitlen_nonneg x : 0 <= bitlen x.
Proof. unfold bitlen. case_decide; [lia|]. pose proof (Z.log2_nonneg (Z.abs x)). lia. Qed.

Lemma modexpMultComplexity_bound x : 0 <= x -> 0 <= modexpMultComplexity x /\ (1 <= x -> 1 <= modexpMultComplexity x) /\
  x * x / 16 - 1 <= modexpMultComplexity x.
Proof.
  intros Hx. unfold modexpMultComplexity. assert (0 <= x * x) by nia.
  case_decide; [split_and!; [lia|nia|Z.to_euclidean_division_equations; nia]|].
  case_decide; (split_and!; [..|Z.to_euclidean_division_equations; nia]); Z.to_euclidean_division_equations; nia.
Qed.

Lemma modexp_gas_nonneg eip x adj : 0 <= x -> 0 <= modexp_gas eip x adj.
Proof.
  intros Hx. unfold modexp_gas. destruct (modexpMultComplexity_bound x Hx) as (H1 & _).
  destruct eip; apply Z.div_pos; [|lia| |lia]; [|nia]. assert (0 <= (x + 7) / 8) by (apply Z.div_pos; lia). nia.
Qed.

(** What is charged bounds the exact gas. *)
Lemma bigModExp_RequiredGas_spec {E} eip input :
  data_ok input -> exists b e m rest g adj,
    modexp_lengths (E:=E) input = Ret (b, e, m, rest) /\ bigModExp_RequiredGas (E:=E) eip input = Ret g /\ is_u64 g /\
    0 <= adj /\ (32 < e -> 8 * (e - 32) <= adj) /\ Z.min (modexp_gas eip (Z.max m b) adj) MaxUint64 <= g.
Proof.
  intros Hi. destruct (modexp_lengths_total (E:=E) input Hi) as (b & e & m & rest & El & Hb & He & Hm & Hr).
  unfold bigModExp_RequiredGas. rewrite El. cbn [mbind outcome_bind].
  assert (exists h, (if decide (zlen rest <= b) then Ret 0
     else if decide (e > 32) then d ← getData rest (u64 b) 32; Ret (be_to_Z d)
     else d ← getData rest (u64 b) (u64 e); Ret (be_to_Z d)) = Ret (E:=E) h) as [h ->].
  { pose proof (u64_range b) as Hub. unfold is_u64 in Hub. case_decide; [by eexists|]. case_decide.
    - destruct (getData_total (E:=E) rest (u64 b) 32 Hr) as (d & -> & _); [lia|done|]. by eexists.
    - rewrite (u64_id e) by (unfold is_u64; lia). destruct (getData_total (E:=E) rest (u64 b) e Hr) as (d & -> & _); [lia|lia|]. by eexists. }
  cbn [mbind outcome_bind]. set (msb := if decide (bitlen h > 0) then _ else _).
  assert (0 <= msb) by (unfold msb; case_decide; lia). set (adj := (if decide (e > 32) then _ else _) + msb).
  assert (0 <= adj /\ (32 < e -> 8 * (e - 32) <= adj)) as [Ha1 Ha2] by (unfold adj; case_decide; lia).
  set (x := Z.max m b). pose proof (modexp_gas_nonneg eip x adj ltac:(lia)) as H0.
  exists b, e, m, rest. fold x.
  assert (Hg : forall full, 0 <= full -> is_u64 (u64 full) /\ (bitlen full > 64 \/ Z.min full MaxUint64 <= u64 full)).
  { intros full Hf. split; [apply u64_range|]. destruct (decide (2 ^ 64 <= full)); [left; by apply bitlen_bound|right].
    rewrite u64_id by (unfold is_u64; lia). lia. }
  unfold modexp_gas in *. destruct eip; destruct (Hg _ H0) as [Hu Hmin].
  - case_decide; [exists MaxUint64, adj; unfold MaxUint64; by split_and!; try lia|].
    case_decide; [exists 200, adj|exists (u64 ((x + 7) / 8 * ((x + 7) / 8) * Z.max adj 1 / 3)), adj];
      destruct Hmin as [?|Hmin]; try done; split_and!; try done; try lia; unfold is_u64 in *; lia.
  - case_decide; [exists MaxUint64, adj; unfold MaxUint64; by split_and!; try lia|].
    exists (u64 (modexpMultComplexity x * Z.max adj 1 / 20)), adj. by destruct Hmin.
Qed.

(** Gas below 2^61 bounds the lengths. *)
Lemma modexp_gas_bounds eip x adj :
  1 <= x -> modexp_gas eip x adj < 2 ^ 61 -> x < 2 ^ 40 /\ adj < 3 * 2 ^ 64.
Proof.
  intros Hx Hg. unfold modexp_gas in Hg. destruct (modexpMultComplexity_bound x ltac:(lia)) as (H1 & H2 & H3). specialize (H2 Hx).
  assert (Hmax : 1 <= Z.max adj 1) by lia. set (a := Z.max adj 1) in *.
  destruct eip.
  - set (g := (x + 7) / 8) in *. assert (1 <= g) by (unfold g; apply Z.div_le_lower_bound; lia).
    assert (g * g * a < 3 * 2 ^ 61 + 3) by (pose proof (Z.mul_succ_div_gt (g * g * a) 3 ltac:(lia)); lia).
    assert (g < 2 ^ 35) by nia. assert (x < 8 * g + 1) by (unfold g; Z.to_euclidean_division_equations; lia). split; [lia|nia].
  - set (c := modexpMultComplexity x) in *.
    assert (c * a < 20 * 2 ^ 61 + 20) by (pose proof (Z.mul_succ_div_gt (c * a) 20 ltac:(lia)); lia).
    assert (c < 2 ^ 66) by nia. assert (x * x < 2 ^ 71) by (pose proof (Z.mul_succ_div_gt (x * x) 16 ltac:(lia)); lia).
    split; [nia|]. assert (a < 3 * 2 ^ 64) by nia. lia.
Qed.

(** ** Operands and results *)

(** The bytes from [start] on, with zeros beyond the end of the data. *)
Definition padded (data : bytes) (start size : Z) : bytes :=
  take (Z.to_nat size) (drop (Z.to_nat start) data ++ replicate (Z.to_nat size) 0).

Lemma getData_padded {E} data start size :
  data_ok data -> 0 <= start -> 0 <= size < 2 ^ 63 -> getData (E:=E) data start size = Ret (padded data start size).
Proof.
  intros [Hb Hd] Hs Hz. unfold getData, padded. set (s := if decide (start > zlen data) then _ else _).
  assert (Hs' : 0 <= s <= zlen data) by (unfold s; case_decide; unfold zlen in *; lia).
  assert (Ed : drop (Z.to_nat start) data = drop (Z.to_nat s) data).
  { unfold s. case_decide; [|done]. rewrite !drop_ge; unfold zlen in *; [done|lia..]. }
  rewrite u64_id by (unfold is_u64; lia). rewrite Ed. set (e := if decide (s + size > zlen data) then _ else _). unfold go_slice.
  assert (He : s <= e <= zlen data /\ (e - s = size \/ e = zlen data /\ e - s <= size)) by (unfold e; case_decide; lia).
  rewrite decide_True by lia. cbn [mbind outcome_bind]. do 2 f_equal. unfold RightPadBytes.
  rewrite i64_id by lia. set (d := drop (Z.to_nat s) data).
  assert (Hld : zlen d = zlen data - s) by (unfold d, zlen in *; rewrite length_drop; lia).
  case_decide as Hle.
  - assert (e - s = size) by (unfold zlen in *; rewrite length_take in Hle; lia). replace (e - s) with size by lia.
    rewrite take_app_le; [done|]. unfold zlen in *. rewrite length_take in Hle. lia.
  - assert (e = zlen data) by (unfold zlen in *; rewrite length_take in Hle; lia).
    assert (Et : take (Z.to_nat (e - s)) d = d) by (apply take_ge; unfold zlen in *; lia). rewrite Et, take_app_ge by (rewrite Et in Hle; unfold zlen in *; lia).
    f_equal. rewrite take_replicate, Nat.min_l by lia. f_equal. unfold zlen in *. lia.
Qed.

Lemma padded_ok data start size : bytes_ok data -> 0 <= size -> bytes_ok (padded data start size) /\ zlen (padded data start size) = size.
Proof.
  intros Hb Hs. unfold padded. split.
  - apply Forall_take, Forall_app_2; [by apply Forall_drop|by apply Forall_replicate].
  - unfold zlen. rewrite length_take, length_app, length_replicate. lia.
Qed.

Lemma be_to_Z_zeros n l : be_to_Z (replicate n 0 ++ l) = be_to_Z l.
Proof. induction n as [|n IH]; [done|]. cbn [replicate app]. rewrite be_to_Z_cons, IH. lia. Qed.

Lemma big_bytes_spec v : 0 <= v -> be_to_Z (big_bytes v) = v /\ forall n, 0 <= n -> v < 256 ^ n -> zlen (big_bytes v) <= n.
Proof.
  intros Hv. unfold big_bytes. set (k := (bitlen v + 7) / 8). pose proof (bitlen_nonneg v) as Hb.
  assert (Hk : 0 <= k /\ bitlen v <= 8 * k < bitlen v + 8) by (unfold k; Z.to_euclidean_division_equations; lia).
  assert (Hlt : v < 2 ^ bitlen v).
  { unfold bitlen. case_decide; [lia|]. rewrite Z.abs_eq by done. pose proof (Z.log2_spec v ltac:(lia)). rewrite <- Z.add_1_r in *. lia. }
  split.
  - rewrite be_to_Z_be_bytes, Z2Nat.id by lia. apply Z.mod_small. split; [done|]. change 256 with (2 ^ 8). rewrite <- Z.pow_mul_r by lia.
    eapply Z.lt_le_trans; [exact Hlt|]. apply Z.pow_le_mono_r; lia.
  - intros n Hn Hvn. rewrite zlen_be_bytes, Z2Nat.id by lia. enough (bitlen v <= 8 * n) by lia. unfold bitlen. case_decide; [lia|].
    rewrite Z.abs_eq by done. change 256 with (2 ^ 8) in Hvn. rewrite <- Z.pow_mul_r in Hvn by lia.
    assert (Z.log2 v < 8 * n) by (apply Z.log2_lt_pow2; lia). lia.
Qed.

Lemma LeftPad_big v n : 0 <= n -> 0 <= v < 256 ^ n ->
  let d := LeftPadBytes (big_bytes v) n in bytes_ok d /\ zlen d = n /\ be_to_Z d = v.
Proof.
  intros Hn Hv d. destruct (big_bytes_spec v ltac:(lia)) as [H1 H2]. specialize (H2 n Hn ltac:(lia)).
  assert (Hb : bytes_ok (big_bytes v)) by apply be_bytes_ok. unfold d, LeftPadBytes. case_decide; [split_and!; [done|lia|done]|].
  split; [apply Forall_app_2; [by apply Forall_replicate|done]|]. split; [|by rewrite be_to_Z_zeros].
  unfold zlen in *. rewrite length_app, length_replicate. lia.
Qed.

(** ** Modular exponentiation *)

(** The operands that the input encodes. *)
Definition base_len (input : bytes) : Z := be_to_Z (padded input 0 32).
Definition exp_len (input : bytes) : Z := be_to_Z (padded input 32 32).
Definition mod_len (input : bytes) : Z := be_to_Z (padded input 64 32).
Definition modexp_base (input : bytes) : Z := be_to_Z (padded (drop 96 input) 0 (base_len input)).
Definition modexp_exp (input : bytes) : Z := be_to_Z (padded (drop 96 input) (base_len input) (exp_len input)).
Definition modexp_mod (input : bytes) : Z := be_to_Z (padded (drop 96 input) (base_len input + exp_len input) (mod_len input)).

Definition modexp_value (input : bytes) : Z :=
  if decide (modexp_mod input = 0) then 0 else modexp_base input ^ modexp_exp input mod modexp_mod input.

Lemma lengths_nonneg input : bytes_ok input -> 0 <= base_len input /\ 0 <= exp_len input /\ 0 <= mod_len input.
Proof.
  intros Hi. assert (Hp : forall i, 0 <= be_to_Z (padded input i 32)); [|split_and!; apply Hp].
  intros i. destruct (padded_ok input i 32 Hi ltac:(done)) as [Hb Hz]. by apply be_to_Z_bound.
Qed.

Lemma modexp_lengths_eq {E} input :
  data_ok input -> modexp_lengths (E:=E) input = Ret (base_len input, exp_len input, mod_len input, drop 96 input).
Proof.
  intros Hi. unfold modexp_lengths. rewrite !getData_padded by done. cbn [mbind outcome_bind].
  case_decide; [done|]. rewrite drop_ge; [done|]. unfold zlen in *. lia.
Qed.

Lemma drop_data_ok n d : data_ok d -> data_ok (drop n d).
Proof. intros [H1 H2]. split; [by apply Forall_drop|]. unfold zlen in *. rewrite length_drop. lia. Qed.

Lemma bigModExp_Run_spec input :
  data_ok input -> base_len input + exp_len input < 2 ^ 63 -> mod_len input < 2 ^ 63 ->
  exists out, bigModExp_Run input = Ret (Fresh out) /\ bytes_ok out /\ zlen out = mod_len input /\ be_to_Z out = modexp_value input.
Proof.
  intros Hi Hbe Hm. unfold bigModExp_Run. rewrite modexp_lengths_eq by done. cbn [mbind outcome_bind].
  destruct Hi as [Hib Hiz]. destruct (lengths_nonneg input Hib) as (H1 & H2 & H3).
  set (bl := base_len input) in *. set (el := exp_len input) in *. set (ml := mod_len input) in *.
  rewrite (u64_id bl), (u64_id el), (u64_id ml), (u64_id (bl + el)) by (unfold is_u64; lia).
  assert (Hr : data_ok (drop 96 input)) by (by apply drop_data_ok).
  assert (Hlen : 0 <= modexp_mod input < 256 ^ ml) by (apply be_to_Z_small; apply padded_ok; [apply Hr|done|apply Hr|done]).
  case_decide as H0.
  - exists []. destruct H0 as [_ H0]. split; [done|]. split; [done|]. split; [by rewrite H0|]. unfold modexp_value.
    rewrite decide_True; [done|]. rewrite H0 in Hlen. lia.
  - rewrite !getData_padded by (done || lia). cbn [mbind outcome_bind]. change (be_to_Z (padded (drop 96 input) 0 bl)) with (modexp_base input).
    change (be_to_Z (padded (drop 96 input) bl el)) with (modexp_exp input). change (be_to_Z (padded (drop 96 input) (bl + el) ml)) with (modexp_mod input).
    rewrite i64_id by lia. unfold modexp_value. case_decide as Hm0.
    + exists (LeftPadBytes [] ml). split; [done|]. destruct (LeftPad_big 0 ml) as (K1 & K2 & K3); [lia|lia|]. done.
    + rewrite Zpow_mod_correct by done. eexists. split; [done|].
      pose proof (Z.mod_pos_bound (modexp_base input ^ modexp_exp input) (modexp_mod input) ltac:(lia)).
      destruct (LeftPad_big (modexp_base input ^ modexp_exp input mod modexp_mod input) ml) as (K1 & K2 & K3); [lia|lia|]. done.
Qed.

(** The gas bounds the lengths. *)
Lemma bigModExp_lengths eip input g :
  data_ok input -> bigModExp_RequiredGas (E:=Empty_set) eip input = Ret g -> g < 2 ^ 61 ->
  base_len input + mod_len input = 0 \/
  base_len input + exp_len input < 2 ^ 63 /\ mod_len input < 2 ^ 63.
Proof.
  intros Hi Eg Hg. destruct (bigModExp_RequiredGas_spec (E:=Empty_set) eip input Hi) as (b & e & m & rest & g' & adj & El & Eg' & Hu & Ha & He & Hmin).
  rewrite Eg in Eg'. injection Eg' as <-. rewrite modexp_lengths_eq in El by done. injection El as <- <- <- <-.
  destruct (lengths_nonneg input (proj1 Hi)) as (H1 & H2 & H3).
  destruct (decide (base_len input + mod_len input = 0)); [by left|right]. unfold MaxUint64 in Hmin.
  destruct (modexp_gas_bounds eip (Z.max (mod_len input) (base_len input)) adj) as [Hx Hadj]; [lia|lia|].
  destruct (decide (32 < exp_len input)) as [Hl|]; [specialize (He Hl)|]; lia.
Qed.

(** ** Every contract *)

Lemma per_word_range base perWord input : is_u64 (per_word base perWord input).
Proof. apply u64_range. Qed.

Lemma RequiredGas_total {E} p input : data_ok input -> exists g, RequiredGas (E:=E) p input = Ret g /\ is_u64 g.
Proof.
  intros Hi. destruct p; cbn [RequiredGas]; try (eexists; split; [reflexivity|]; first [apply u64_range|done]).
  - destruct (bigModExp_RequiredGas_spec (E:=E) eip2565 input Hi) as (b & e & m & rest & g & adj & _ & -> & Hg & _). by exists g.
  - case_decide as Hl; [by eexists|]. destruct (go_slice_bytes (E:=E) input 0 4 (proj1 Hi)) as (r & -> & Hz & Hr); [lia| |].
    { unfold blake2FInputLength in Hl. lia. }
    cbn [mbind outcome_bind]. eexists. split; [done|]. pose proof (be_to_Z_small r _ Hr Hz). unfold is_u64. lia.
Qed.

(** A contract settles when it ends with an output of byte values or with an
    error. *)
Definition settles (m : outcome vm_error slice) : Prop :=
  match m with Ret out => forall b, out = Fresh b -> data_ok b | Err _ => True | Panic => False end.

Lemma settles_fresh b : bytes_ok b -> zlen b < 2 ^ 63 -> settles (Ret (Fresh b)).
Proof. intros H1 H2 b' [= <-]. done. Qed.

Lemma settles_bind {A} (m : outcome vm_error A) (P : A -> Prop) k :
  match m with Ret a => P a | Err _ => True | Panic => False end -> (forall a, P a -> settles (k a)) -> settles (m ≫= k).
Proof. intros Hm Hk. destruct m; [by apply Hk|done|done]. Qed.

Lemma LeftPad_ok b n : bytes_ok b -> zlen b <= n -> bytes_ok (LeftPadBytes b n) /\ zlen (LeftPadBytes b n) = n.
Proof.
  intros Hb Hn. unfold LeftPadBytes. case_decide; [by split; [|lia]|]. split; [by apply Forall_app_2; [apply Forall_replicate|]|].
  unfold zlen in *. rewrite length_app, length_replicate. lia.
Qed.

Lemma settles_slice input a b (k : bytes -> outcome vm_error slice) :
  bytes_ok input -> 0 <= a <= b -> b <= zlen input -> (forall d, bytes_ok d -> zlen d = b - a -> settles (k d)) ->
  settles (d ← go_slice input a b; k d).
Proof. intros Hi Ha Hb Hk. destruct (go_slice_bytes (E:=vm_error) input a b Hi Ha Hb) as (d & -> & Hz & Hd). by apply Hk. Qed.

Lemma settles_getData input a b (k : bytes -> outcome vm_error slice) :
  data_ok input -> 0 <= a -> 0 <= b < 2 ^ 63 -> (forall d, bytes_ok d -> zlen d = b -> settles (k d)) ->
  settles (d ← getData input a b; k d).
Proof. intros Hi Ha Hb Hk. destruct (getData_total (E:=vm_error) input a b Hi Ha Hb) as (d & -> & Hz & Hd). by apply Hk. Qed.

Lemma settles_point {A} (p : option A) (k : A -> outcome vm_error slice) : (forall a, settles (k a)) -> settles (a ← point p; k a).
Proof. intros Hk. destruct p; cbn; [apply Hk|done]. Qed.

Lemma settles_index input i (k : Z -> outcome vm_error slice) :
  bytes_ok input -> 0 <= i < zlen input -> (forall x, is_byte x -> settles (k x)) -> settles (x ← go_index input i; k x).
Proof.
  intros Hb Hi Hk. destruct (lookup_lt_is_Some_2 input (Z.to_nat i)) as [x Hx]; [unfold zlen in *; lia|].
  rewrite (go_index_at _ _ x) by (done || lia). apply Hk. by eapply Forall_lookup_1 in Hx.
Qed.

Lemma settles_from (input : bytes) i (k : bytes -> outcome vm_error slice) :
  bytes_ok input -> 0 <= i <= zlen input -> (forall d, bytes_ok d -> zlen d = zlen input - i -> settles (k d)) ->
  settles (d ← go_from input i; k d).
Proof.
  intros Hb Hi Hk. unfold go_from, go_slice. rewrite decide_True by lia. apply Hk; [by apply Forall_take, Forall_drop|].
  unfold zlen in *. rewrite length_take, length_drop. lia.
Qed.

Lemma ecrecover_settles input : data_ok input -> settles (ecrecover_Run input).
Proof.
  intros [Hi _]. unfold ecrecover_Run. set (d := RightPadBytes input 128).
  assert (Hd : bytes_ok d) by by apply RightPad_bytes.
  assert (Hz : 128 <= zlen d).
  { unfold d, RightPadBytes. case_decide; [done|]. unfold zlen in *. rewrite length_app, length_replicate. lia. }
  apply settles_slice; [done|lia|lia|]. intros rb _ _. apply settles_slice; [done|lia|lia|]. intros sb _ _.
  apply settles_index; [done|lia|]. intros vb _. apply settles_slice; [done|lia|lia|]. intros z _ _.
  case_match; [by apply settles_fresh|]. apply settles_slice; [done|lia|lia|]. intros h _ _.
  destruct (Ecrecover _ _) as [k|] eqn:E; [|by apply settles_fresh]. apply Ecrecover_size in E as [Hk Hkz].
  apply settles_from; [done|lia|]. intros k' _ _. destruct (Keccak256_size k') as [H1 H2]. apply settles_from; [done|lia|].
  intros a Ha Haz. destruct (LeftPad_ok a 32 Ha ltac:(lia)). by apply settles_fresh; [|lia].
Qed.

Lemma pairing_points_total n input i :
  bytes_ok input -> 0 <= i -> i + 192 * Z.of_nat n <= zlen input ->
  match pairing_points n input i with Ret _ => True | Err _ => True | Panic => False end.
Proof.
  revert i. induction n as [|n IH]; intros i Hb Hi Hn; [done|]. cbn [pairing_points].
  destruct (go_slice_bytes (E:=vm_error) input i (i + 64) Hb) as (c & -> & _); [lia|lia|]. cbn [mbind outcome_bind].
  unfold newCurvePoint, newTwistPoint. destruct (G1_Unmarshal c); cbn [point mbind outcome_bind]; [|done].
  destruct (go_slice_bytes (E:=vm_error) input (i + 64) (i + 192) Hb) as (t & -> & _); [lia|lia|]. cbn [mbind outcome_bind].
  destruct (G2_Unmarshal t); cbn [point mbind outcome_bind]; [|done].
  specialize (IH (i + 192) Hb ltac:(lia) ltac:(lia)). by destruct (pairing_points n input (i + 192)).
Qed.

Lemma le_words_total n input i :
  bytes_ok input -> 0 <= i -> i + 8 * Z.of_nat n <= zlen input -> exists l, le_words n input i = Ret l /\ zlen l = Z.of_nat n.
Proof.
  revert i. induction n as [|n IH]; intros i Hb Hi Hn; [by exists []|]. cbn [le_words].
  destruct (go_slice_bytes (E:=vm_error) input i (i + 8) Hb) as (c & -> & _); [lia|lia|]. cbn [mbind outcome_bind].
  destruct (IH (i + 8) Hb) as (l & -> & Hl); [lia|lia|]. eexists. split; [done|]. rewrite zlen_cons. lia.
Qed.

Lemma put_le_ok h : bytes_ok (concat (map put_le h)) /\ zlen (concat (map put_le h)) = 8 * zlen h.
Proof.
  induction h as [|x h [IH1 IH2]]; [done|]. cbn [map concat]. split.
  - apply Forall_app_2; [|done]. apply Forall_map, Forall_true. intros k. apply u8_byte.
  - rewrite zlen_cons. unfold zlen in *. rewrite length_app. cbn. lia.
Qed.

Lemma blake2F_settles input : data_ok input -> settles (blake2F_Run input).
Proof.
  intros [Hi _]. unfold blake2F_Run. case_decide as Hl; [done|].  unfold blake2FInputLength in Hl.
  apply settles_index; [done|lia|]. intros flag _. case_decide; [done|]. apply settles_slice; [done|lia|lia|]. intros rounds _ _.
  destruct (le_words_total 8 input 4) as (h & -> & Hh); [done|lia|lia|]. cbn [mbind outcome_bind].
  destruct (le_words_total 16 input 68) as (m & -> & _); [done|lia|lia|]. cbn [mbind outcome_bind].
  apply settles_slice; [done|lia|lia|]. intros t0 _ _. apply settles_slice; [done|lia|lia|]. intros t1 _ _.
  match goal with |- settles (Ret (Fresh (concat (map put_le ?x)))) => destruct (put_le_ok x) as [H1 H2] end.
  rewrite blake2b_F_size in H2 by done. apply settles_fresh; [done|lia].
Qed.

Lemma bn256Add_settles input : data_ok input -> settles (runBn256Add input).
Proof.
  intros Hi. apply settles_getData; [done|lia|lia|]. intros x _ _. apply settles_point. intros p.
  apply settles_getData; [done|lia|lia|]. intros y _ _. apply settles_point. intros q.
  destruct (G1_Marshal_size (G1_Add p q)). apply settles_fresh; [done|lia].
Qed.

Lemma bn256ScalarMul_settles input : data_ok input -> settles (runBn256ScalarMul input).
Proof.
  intros Hi. apply settles_getData; [done|lia|lia|]. intros x _ _. apply settles_point. intros p.
  apply settles_getData; [done|lia|lia|]. intros k _ _.
  destruct (G1_Marshal_size (G1_ScalarMult p (be_to_Z k))). apply settles_fresh; [done|lia].
Qed.

Lemma bn256Pairing_settles input : data_ok input -> settles (runBn256Pairing input).
Proof.
  intros [Hi Hz]. unfold runBn256Pairing. case_decide; [done|].
  apply (settles_bind _ (fun _ => True)).
  - apply pairing_points_total; [done|lia|]. unfold zlen in *. Z.to_euclidean_division_equations; lia.
  - intros r _. destruct (PairingCheck _ _); by apply settles_fresh; [repeat constructor|].
Qed.

Lemma bigModExp_Run_empty input :
  data_ok input -> base_len input + mod_len input = 0 -> bigModExp_Run input = Ret (Fresh []).
Proof.
  intros Hi H0. destruct (lengths_nonneg input (proj1 Hi)) as (H1 & H2 & H3).
  unfold bigModExp_Run. rewrite modexp_lengths_eq by done. cbn [mbind outcome_bind].
  replace (base_len input) with 0 by lia. by replace (mod_len input) with 0 by lia.
Qed.

Lemma modexp_value_empty input :
  data_ok input -> base_len input + mod_len input = 0 -> zlen ([] : bytes) = mod_len input /\ be_to_Z [] = modexp_value input.
Proof.
  intros Hi H0. destruct (lengths_nonneg input (proj1 Hi)) as (H1 & H2 & H3).
  assert (E : mod_len input = 0) by lia. split; [by rewrite E|]. unfold modexp_value. rewrite decide_True; [done|].
  unfold modexp_mod. by rewrite E.
Qed.

Lemma Run_settles p input g :
  data_ok input -> RequiredGas (E:=Empty_set) p input = Ret g -> g < 2 ^ 61 -> settles (Run_precompile p input).
Proof.
  intros Hi Eg Hg. destruct p; cbn [Run_precompile].
  - by apply ecrecover_settles.
  - destruct (Sum256_size input). apply settles_fresh; [done|lia].
  - destruct (ripemd160_size input) as [H1 H2]. destruct (LeftPad_ok _ 32 H1 ltac:(lia)). apply settles_fresh; [done|lia].
  - by intros b [=].
  - destruct (bigModExp_lengths eip2565 input g Hi Eg Hg) as [H0|[H1 H2]].
    + rewrite bigModExp_Run_empty by done. by apply settles_fresh.
    + destruct (bigModExp_Run_spec input Hi H1 H2) as (out & -> & Hb & Hz & _). apply settles_fresh; [done|lia].
  - by apply bn256Add_settles.
  - by apply bn256Add_settles.
  - by apply bn256ScalarMul_settles.
  - by apply bn256ScalarMul_settles.
  - by apply bn256Pairing_settles.
  - by apply bn256Pairing_settles.
  - by apply blake2F_settles.
Qed.

(** A precompiled contract that is given less than 2^61 gas ends, and leaves at
    most that gas. *)
Lemma RunPrecompiledContract_total p input gas :
  data_ok input -> 0 <= gas < 2 ^ 61 -> exists out gas' err, RunPrecompiledContract p input gas = Ret (out, gas', err) /\
    0 <= gas' <= gas /\ (forall b, out = Fresh b -> data_ok b) /\ (err <> None -> out = Fresh []).
Proof.
  intros Hi Hg. unfold RunPrecompiledContract. destruct (RequiredGas_total (E:=Empty_set) p input Hi) as (g & Eg & Hgu).
  rewrite Eg. cbn [mbind outcome_bind]. unfold is_u64 in Hgu. case_decide.
  - eexists _, _, _. split; [done|]. split; [lia|]. split; [|done]. intros b [= <-]. apply data_ok_nil.
  - pose proof (Run_settles p input g Hi Eg ltac:(lia)) as Hs. destruct (Run_precompile p input) as [out|err|]; [| |done].
    + eexists _, _, _. split; [done|]. split; [lia|]. done.
    + eexists _, _, _. split; [done|]. split; [lia|]. split; [|done]. intros b [= <-]. apply data_ok_nil.
Qed.

(** ** Properties *)

(** C28: Modular exponentiation: when its gas is paid for, the precompiled contract
    returns as many bytes as the input announces for the modulus, and they hold
    the base to the exponent reduced by the modulus (zero for a modulus of zero),
    the operands being read big-endian with zeros beyond the end of the input. *)
Theorem bigModExp_correct eip2565 input gas g :
  data_ok input -> bigModExp_RequiredGas (E:=Empty_set) eip2565 input = Ret g -> g <= gas < 2 ^ 61 ->
  exists out, RunPrecompiledContract (bigModExp eip2565) input gas = Ret (Fresh out, gas - g, None) /\
    zlen out = mod_len input /\ be_to_Z out = modexp_value input.
Proof.
  intros Hi Eg Hg. unfold RunPrecompiledContract. cbn [RequiredGas Run_precompile]. rewrite Eg. cbn [mbind outcome_bind].
  rewrite decide_False by lia. destruct (bigModExp_lengths eip2565 input g Hi Eg ltac:(lia)) as [H0|[H1 H2]].
  - rewrite bigModExp_Run_empty by done. exists []. split; [done|]. by apply modexp_value_empty.
  - destruct (bigModExp_Run_spec input Hi H1 H2) as (out & -> & _ & Hz & Hv). by exists out.
Qed.

End Precompiles.
