(* ===== verification/VmErrors.v ===== *)
(** * The errors of a running contract

    The end of a creation (evm.go, [create]) treats [ErrCodeStoreOutOfGas], its
    own error, apart: before Homestead the state is then kept.  The run loop never
    reports this error, so that what fails in the loop is always reverted. *)

From stdpp Require Import gmap.
From S2P Require Import Prelude Rlp Trie AccessList StateDB.
From S2P Require Import Uint256 VmAnalysis VmContract VmMemory VmGas VmPrecompiles VmInstructions VmJumpTable VmInterpreter.

Create HintDb never discriminated.

Section Never.
Context {B : Backend} {U : Uint256}.

Definition never {A} (m : M A) : Prop := forall f f' e, m f = Ret (f', inl e) -> e <> ErrCodeStoreOutOfGas.
Definition neverX {A} (m : X A) : Prop := forall f f' e, m f = run (Ret (f', inl e)) -> e <> ErrCodeStoreOutOfGas.

Lemma never_bind {A D} (m : M A) (k : A -> M D) : never m -> (forall a, never (k a)) -> never (m ≫= k).
Proof.
  intros Hm Hk f f' e. unfold mbind, M_bind. destruct (m f) as [[f1 [e1|a]]|?|] eqn:E; cbn; try done.
  - intros [= _ <-]. by eapply Hm.
  - apply Hk.
Qed.

Lemma neverX_bind {A D} (m : X A) (k : A -> X D) : neverX m -> (forall a, neverX (k a)) -> neverX (m ≫= k).
Proof.
  intros Hm Hk f f' e. unfold mbind, X_bind. destruct (m f) as [[[f1 [e1|a]]|?|]|] eqn:E; cbn; try done.
  - intros [= _ <-]. by eapply Hm.
  - apply Hk.
Qed.

Lemma never_ret {A} (a : A) : never (mret a).
Proof. intros f f' e [=]. Qed.
Lemma neverX_ret {A} (a : A) : neverX (mret a).
Proof. intros f f' e [=]. Qed.
Lemma neverX_embed {A} (m : M A) : never m -> neverX (embed m).
Proof. intros H f f' e [= E]. by eapply H. Qed.
Lemma neverX_simple (m : M unit) : never m -> neverX (simple m).
Proof. intros H. apply neverX_embed, never_bind; [done|]. intros _. apply never_ret. Qed.
Lemma never_fail {A} e : e <> ErrCodeStoreOutOfGas -> never (fail (A:=A) e).
Proof. intros H f f' e' [= _ <-]. done. Qed.
Lemma never_gets {A} (g : frame -> A) : never (gets g).
Proof. intros f f' e [=]. Qed.
Lemma never_modify g : never (modify g).
Proof. intros f f' e [=]. Qed.
Lemma never_lift {A} (g : frame -> outcome Empty_set A) : never (lift g).
Proof. intros f f' e. unfold lift. by destruct (g f). Qed.
Lemma never_query {A} (q : StateDB -> A * StateDB) : never (query q).
Proof. intros f f' e. unfold query. by destruct (q (db f)). Qed.
Lemma never_set_memory g : never (set_memory g).
Proof. intros f f' e. unfold set_memory. by destruct (g (mem f)). Qed.
Lemma never_pop : never pop_m.
Proof. intros f f' e. unfold pop_m. by destruct (pop (stack f)). Qed.
Lemma never_poke d : never (poke d).
Proof. intros f f' e. unfold poke. by destruct (peek (stack f)). Qed.
Lemma never_use_gas g : never (use_gas g).
Proof. intros f f' e. unfold use_gas. destruct (UseGas _ _) as [[|] c]; [done|]. by intros [= _ <-]. Qed.
Lemma neverX_check check : neverX (check_jump check).
Proof. intros f f' e. unfold check_jump. by destruct (check (contract f)) as [[]|]. Qed.
Lemma neverX_call call : neverX (call_with call).
Proof. intros f f' e. unfold call_with. by destruct (call _ _) as [[[[? ?] ?]| |]|]. Qed.
Lemma neverX_create create : neverX (create_with create).
Proof. intros f f' e. unfold create_with. by destruct (create _ _) as [[[[? ?] ?]| |]|]. Qed.
Lemma never_pop_topics n : never (pop_topics n).
Proof.
  induction n as [|n IH]; cbn [pop_topics]; [apply never_ret|]. apply never_bind; [apply never_pop|]. intros t.
  apply never_bind; [done|]. intros ts. apply never_ret.
Qed.

End Never.

#[export] Hint Resolve never_ret neverX_ret never_gets never_modify never_lift never_query never_set_memory never_pop never_poke never_use_gas
  neverX_check neverX_call neverX_create never_pop_topics : never.

(** The computations of the model, by their structure. *)
Ltac head t := lazymatch t with ?f _ => head f | _ => t end.
Ltac never_step :=
  lazymatch goal with
  | |- never (mbind _ _) => apply never_bind; [|intros ?]
  | |- neverX (mbind _ _) => apply neverX_bind; [|intros ?]
  | |- neverX (embed _) => apply neverX_embed
  | |- neverX (simple _) => apply neverX_simple
  | |- never (fail _) => apply never_fail; discriminate
  | |- never (let '_ := ?x in _) => destruct x
  | |- neverX (let '_ := ?x in _) => destruct x
  | |- never (match ?x with _ => _ end) => destruct x
  | |- neverX (match ?x with _ => _ end) => destruct x
  | |- _ => first [solve [eauto 2 with never nocore]|lazymatch goal with |- never ?m => let h := head m in unfold h | |- neverX ?m => let h := head m in unfold h end]
  end.
Ltac never_run := repeat (cbv beta zeta; never_step).

Section Tables.
Context {B : Backend} {U : Uint256} {C : Crypto} {Ev : Evm} (env : Env).

Lemma neverX_dup n : neverX (makeDup n).
Proof. apply neverX_simple. intros f f' e. by destruct (dup (stack f) n). Qed.
Lemma neverX_swap n : neverX (makeSwap n).
Proof. apply neverX_simple. intros f f' e. by destruct (swap (stack f) (n + 1)). Qed.

Definition tame (t : JumpTable) : Prop := Forall (fun x => neverX (execute x.2)) t.

#[local] Hint Resolve neverX_dup neverX_swap : never.

Lemma frontier_tame : tame (newFrontierInstructionSet env).
Proof.
  unfold newFrontierInstructionSet, tame. rewrite !Forall_app.
  split_and!; repeat (constructor; [cbn [snd execute]; solve [never_run]|]); constructor.
Qed.

Lemma tame_set t op o : tame t -> neverX (execute o) -> tame (set_op t op o).
Proof. intros Ht Ho. induction Ht as [|[k o'] t Hx Ht IH]; cbn; [by repeat constructor|]. destruct (k =? op); by constructor. Qed.

Lemma tame_alter t op g : tame t -> (forall o, neverX (execute o) -> neverX (execute (g o))) -> tame (alter_op g op t).
Proof. intros Ht Hg. induction Ht as [|[k o'] t Hx Ht IH]; cbn; [constructor|]. destruct (k =? op); constructor; auto; by apply Hg. Qed.

Lemma tame_lookup t op o : tame t -> lookup_op t op = Some o -> neverX (execute o).
Proof. intros Ht. induction Ht as [|[k o'] t Hx Ht IH]; cbn; [done|]. destruct (k =? op); [by intros [= <-]|done]. Qed.

Ltac tame_steps :=
  unfold enable1884, enable1344, enable2200, enable2315, enable2929, set_constantGas, set_dynamicGas;
  cbv zeta; repeat lazymatch goal with
  | |- tame (set_op _ _ _) => apply tame_set; [|cbn [execute]; solve [never_run]]
  | |- tame (alter_op _ _ _) => apply tame_alter; [|by intros ? ?]
  end.

Lemma homestead_tame : tame (newHomesteadInstructionSet env).
Proof. unfold newHomesteadInstructionSet. tame_steps. apply frontier_tame. Qed.
Lemma tangerine_tame : tame (newTangerineWhistleInstructionSet env).
Proof. unfold newTangerineWhistleInstructionSet. tame_steps. apply homestead_tame. Qed.
Lemma spurious_tame : tame (newSpuriousDragonInstructionSet env).
Proof. unfold newSpuriousDragonInstructionSet. tame_steps. apply tangerine_tame. Qed.
Lemma byzantium_tame : tame (newByzantiumInstructionSet env).
Proof. unfold newByzantiumInstructionSet. tame_steps. apply spurious_tame. Qed.
Lemma constantinople_tame : tame (newConstantinopleInstructionSet env).
Proof. unfold newConstantinopleInstructionSet. tame_steps. apply byzantium_tame. Qed.
Lemma istanbul_tame : tame (newIstanbulInstructionSet env).
Proof. unfold newIstanbulInstructionSet. tame_steps. apply constantinople_tame. Qed.
Lemma yolo_tame : tame (newYoloV3InstructionSet env).
Proof. unfold newYoloV3InstructionSet. tame_steps. apply istanbul_tame. Qed.

Lemma instruction_set_tame r : tame (instruction_set env r).
Proof.
  unfold instruction_set. repeat case_match;
    first [apply yolo_tame|apply istanbul_tame|apply constantinople_tame|apply byzantium_tame|apply spurious_tame|apply tangerine_tame
          |apply homestead_tame|apply frontier_tame].
Qed.

(** ** The loop *)

Lemma never_dynamic_gas o size : never (dynamic_gas o size).
Proof.
  unfold dynamic_gas. destruct (dynamicGas o) as [g|]; [|apply never_ret]. intros f f' e.
  destruct (g size f) as [[f1 [e1|cost]]| |]; cbn; try done; [by intros [= _ <-]|]. apply never_use_gas.
Qed.

Lemma never_charge o : never (charge o).
Proof.
  unfold charge. apply never_bind; [apply never_use_gas|]. intros _. apply never_bind.
  - unfold memory_size. destruct (memorySize o); [|apply never_ret]. never_run.
  - intros size. apply never_bind; [apply never_dynamic_gas|]. intros _. unfold resize. never_run.
Qed.

Lemma neverX_execution o : neverX (execute o) -> neverX (execution o).
Proof.
  intros H f f' e. unfold execution. destruct (execute o f) as [[[f1 [e1|b]]| |]|] eqn:E; cbn; try done.
  intros [= _ <-]. by eapply H.
Qed.

Lemma neverX_run_step : neverX (run_step env).
Proof.
  unfold run_step. apply neverX_bind; [never_run|]. intros c. apply neverX_bind; [never_run|]. intros p.
  apply neverX_bind; [never_run|]. intros r. destruct (lookup_op _ _) as [o|] eqn:Eo; [|by apply neverX_embed, never_fail].
  apply neverX_bind; [never_run|]. intros n. case_decide; [by apply neverX_embed, never_fail|].
  case_decide; [by apply neverX_embed, never_fail|]. apply neverX_bind; [apply neverX_embed; unfold write_protection; never_run|]. intros _.
  apply neverX_bind; [apply neverX_embed, never_charge|]. intros _. apply neverX_bind; [|intros res; never_run].
  eapply neverX_execution, tame_lookup; [|exact Eo]. apply instruction_set_tame.
Qed.

End Tables.

Section Loop.
Context {B : Backend} {U : Uint256} {C : Crypto} (env : Env).

Lemma loop_error fuel steps f f' res e :
  loop env fuel steps f = run (Ret (f', (res, Some e))) -> e <> ErrCodeStoreOutOfGas.
Proof.
  revert steps f. induction fuel as [|fuel IH]; intros steps f; cbn [loop]; [done|]. destruct (_ && abort env); [done|].
  destruct (run_step _ _) as [[[f1 [e1|[[b rv]|]]]| |]|] eqn:E; cbn; try done.
  - intros [= _ _ <-]. by eapply neverX_run_step.
  - destruct rv; [|done]. by intros [= _ _ <-].
  - apply IH.
Qed.

End Loop.
