(* ===== verification/VmLoop.v ===== *)
(** * The run loop ends and keeps the invariant (core/vm/interpreter.go)

    Against the interface [evm_ok] of the calls, a round of the loop keeps the
    invariant of the frame and uses gas, so that the loop ends within as many
    rounds as there is gas. *)

From stdpp Require Import gmap.
From S2P Require Import Prelude Rlp Trie AccessList StateDB StateDBProofs StateDBSnapshots StateDBObserve StateDBEffects.
From S2P Require Import Uint256 VmAnalysis VmContract VmMemory VmGas VmPrecompiles VmInstructions VmJumpTable VmInterpreter VmGasProofs VmSstore.
From S2P Require Import VmRefund VmSupply VmState VmWp VmFrame VmInstrProofs VmInstrState VmGasTotal VmStep VmCalls VmTables.

Section Loop.
Context {B : Backend} {BL : BackendLaws B} {CS : CodeStore B} {U : Uint256} {UL : Uint256Laws U} {C : Crypto} (env : Env).
Implicit Types (f : frame) (st : list (revision * StateDB)) (o : operation).

(** ** One round *)

Lemma call_minStack {Ev : Evm} r o : lookup_op (instruction_set env r) CALL = Some o -> op_minStack o = 7.
Proof. unfold instruction_set. repeat case_match; find_entry; by intros [= <-]. Qed.

Lemma wpM_write_protection {Ev : Evm} op o f Q :
  (op = CALL -> 3 <= zlen (stack f)) -> Q f (inr tt) -> (forall e, Q f (inl e)) -> wpM (write_protection op o) f Q.
Proof.
  intros Hs H1 H2. unfold write_protection. apply wpM_bind, wpM_gets, wpM_bind, wpM_gets. cbn [after].
  destruct (readOnly f && IsByzantium (rules f)); [|by apply wpM_ret]. destruct (has Writes o); [by apply wpM_fail|].
  destruct (decide (op = CALL)) as [->|]; [|by apply wpM_ret].
  destruct (lookup_lt_is_Some_2 (rev (stack f)) 2) as [x Hx]; [rewrite length_rev; specialize (Hs eq_refl); unfold zlen in Hs; lia|].
  apply wpM_bind, (wpM_back f (rev (stack f)) 2 x); [by rewrite rev_involutive|done|]. cbn.
  case_decide; [by apply wpM_fail|by apply wpM_ret].
Qed.

Lemma wp_bind_inv {A D} (m : X A) (k : A -> X D) f Q : wp (m ≫= k) f Q -> wp m f (after (fun a => wp (k a)) Q).
Proof.
  intros (f' & r & E & H). revert E. unfold mbind, X_bind. destruct (m f) as [[[f1 [e|a]]|e|]|] eqn:Em; cbn; try done.
  - intros [= <- <-]. by exists f1, (inl e).
  - intros E. exists f1, (inr a). split; [done|]. by exists f', r.
Qed.

Lemma within_op f : GetOp (contract f) (pc f) <> 0 -> within f.
Proof. unfold GetOp, GetByte, within. by case_decide. Qed.

Definition round_post st (bound : Z) f : post (option (bytes * bool)) := fun f' r =>
  match r with
  | inl _ => failed st f f'
  | inr (Some (res, _)) => data_ok res /\ stopped st bound f f'
  | inr None => frame_at st bound (G f' + 1) f' /\ kept f f' /\ G f' < G f
  end.

(** The end of the round, after the operation. *)
Lemma round_end st bound f o f' r :
  step_post st bound f o f' r ->
  after (fun res => wp (if has Reverts o then mret (Some (res, true)) else if has Halts o then mret (Some (res, false))
         else _ ← embed (if has Jumps o then mret tt else add_pc 1); mret None)) (round_post st bound f) f' r.
Proof.
  destruct r as [e|res]; [done|]. intros (Hr & Hs & Hc). cbn [after]. unfold stops in Hc.
  destruct (has Reverts o); [by apply wp_ret|]. destruct (has Halts o); [by apply wp_ret|]. destruct (Hc eq_refl) as [H1 H2].
  apply wp_bind, wp_embed. destruct (has Jumps o).
  - apply wpM_ret, wp_ret. split; [done|]. split; [apply Hs|done].
  - apply wpM_modify, wp_ret. split; [apply frame_pc; [done|apply u64_range]|]. split; [|done]. destruct Hs as [[] _ _ _]. by split.
Qed.

Lemma run_step_ok {Ev : Evm} lim st bound f :
  evm_ok lim Ev -> frame_at st bound (G f + 1) f -> bound < 2 ^ 64 -> G f <= lim -> wp (run_step env) f (round_post st bound f).
Proof.
  intros He H Hb Hg. unfold run_step. do 3 (apply wp_bind, wp_embed, wpM_gets; cbn [after]). set (op := GetOp _ _).
  assert (Hf : failed st f f) by (eapply frame_failed; [apply kept_refl|done]).
  destruct (lookup_op _ op) as [o|] eqn:Eo; [|by apply wp_embed, wpM_fail].
  apply wp_bind, wp_embed, wpM_gets. cbn [after]. case_decide; [by apply wp_embed, wpM_fail|].
  case_decide; [by apply wp_embed, wpM_fail|]. apply wp_bind, wp_embed, wpM_write_protection; [|cbn [after]|done].
  { intros ->. rewrite (call_minStack _ _ Eo) in *. lia. }
  assert (Ha : wp (perform o) f (step_post st bound f o)).
  { apply (instruction_set_allowed env lim He (rules f) op o Eo); try done; [lia|]. intros Hop. by apply within_op. }
  apply wp_bind_inv in Ha. apply wp_bind. eapply wp_mono; [exact Ha|]. intros f1 [e|[]] Hx; [done|]. cbn [after] in *.
  apply wp_bind. eapply wp_mono; [exact Hx|]. apply round_end.
Qed.

(** ** The loop *)

(** What the loop promises when its fuel exceeds the gas of the frame. *)
Definition loop_good (fuel : nat) : Prop := forall steps st bound f,
  frame_at st bound (G f + 1) f -> bound < 2 ^ 64 -> G f < Z.of_nat fuel ->
  exists f' res err, loop env fuel steps f = run (Ret (f', (res, err))) /\ data_ok res /\
    match err with None => stopped st bound f f' | Some _ => failed st f f' end.

Lemma stopped_kept st bound f g h : kept f g -> stopped st bound g h -> stopped st bound f h.
Proof. intros H [K1 K2 K3 K4]. split; [by eapply kept_trans|done..]. Qed.

Lemma stopped_failed st bound f f' : stopped st bound f f' -> failed st f f'.
Proof. intros [[K1 K2 K3 K4] H2 H3 H4]. split; [done|apply H2|done|done]. Qed.

Lemma loop_good_O : loop_good 0.
Proof.
  intros steps st bound f H Hb Hg. destruct (fr_contract _ _ _ _ H) as (_ & Hu & _). unfold is_u64 in Hu. lia.
Qed.

Lemma loop_good_S fuel : evm_ok (Z.of_nat fuel) (evm_at env fuel) -> loop_good fuel -> loop_good (S fuel).
Proof.
  intros He Hl steps st bound f H Hb Hg. cbn [loop]. destruct (fr_contract _ _ _ _ H) as (Hc & Hu & _). unfold is_u64 in Hu.
  destruct (_ && abort env).
  { exists f, [], None. split; [done|]. split; [by repeat constructor|]. eapply frame_stopped; [apply kept_refl|done|lia]. }
  destruct (run_step_ok (Ev:=evm_at env fuel) (Z.of_nat fuel) st bound f He H Hb ltac:(lia)) as (f1 & r & E & Hr).
  unfold evm_at in E. rewrite E. cbn [mbind fuelled_bind run]. destruct r as [e|[[res rv]|]]; cbn [round_post] in Hr.
  - exists f1, [], (Some e). split; [done|]. split; [by repeat constructor|done].
  - destruct Hr as [Hd Hs]. exists f1, res, (if rv then Some ErrExecutionReverted else None). split; [done|]. split; [done|].
    destruct rv; [by eapply stopped_failed|done].
  - destruct Hr as (H1 & Hk & Hlt). destruct (Hl (steps + 1) st bound f1 H1 Hb ltac:(lia)) as (f' & res & err & E' & Hd & Hs).
    exists f', res, err. split; [done|]. split; [done|]. destruct err; [by eapply failed_kept|by eapply stopped_kept].
Qed.

End Loop.
