(* ===== verification/VmRun.v ===== *)
(** * The EVM discharges what the instructions rely on (core/vm/evm.go)

    Given an interpreter that keeps the invariant, every entry point of evm.go
    satisfies its part of [evm_ok]: it ends without panic, keeps the invariant of
    the state, and leaves the state as it was when it fails. *)

From stdpp Require Import gmap.
From S2P Require Import Prelude Rlp RlpEncode Trie AccessList StateDB StateDBProofs StateDBSnapshots StateDBObserve StateDBEffects.
From S2P Require Import Uint256 VmAnalysis VmContract VmMemory VmGas VmPrecompiles VmInstructions VmJumpTable VmInterpreter VmGasProofs VmSstore.
From S2P Require Import VmRefund VmSupply VmState VmWp VmFrame VmInstrProofs VmInstrState VmGasTotal VmStep VmCalls VmTables VmPrecompileProofs VmErrors VmLoop.

Section Run.
Context {B : Backend} {BL : BackendLaws B} {CS : CodeStore B} {U : Uint256} {UL : Uint256Laws U} {C : Crypto} {CL : CryptoLaws C} (env : Env).
Implicit Types (s g : StateDB) (st : list (revision * StateDB)) (e : EVM).

(** ** Snapshots *)

Definition revision_of s : revision := mk_revision (nextRevisionId s) (zlen (entries (jrnl s))).

Lemma Snapshot_lives s : wf s -> lives s (Snapshot s).2.
Proof. intros W. by apply lives_frame. Qed.

(** The stack of snapshots that a call runs on. *)
Lemma Snapshot_ok r st bound n s :
  db_ok r st bound n s -> exists pre, db_ok r ((revision_of s, s) :: pre ++ st) bound n (Snapshot s).2.
Proof.
  intros H. pose proof (db_ok_wf _ _ _ _ _ H) as W. destruct H as [[pre H1] H2 H3 H4 H5]. exists pre. split.
  - exists []. by apply chain_Snapshot.
  - apply (tracked_kept r s); [by apply frame_kept|done|done].
  - exact H3.
  - eapply lives_coded; [by apply Snapshot_lives|done].
  - apply (marked_kept s); [apply (chain_Snapshot _ _ H1)|by apply frame_kept|done].
Qed.

Lemma warms_eqv s g : eqv s g -> warms g s.
Proof. intros H. apply warms_eq. apply (eqv_access _ _ H). Qed.

Lemma db_ok_eqv r st bound n s g :
  chained st s -> eqv s g -> entries (jrnl s) = entries (jrnl g) -> db_ok r st bound n g -> db_ok r st bound n s.
Proof.
  intros Hc He Ee [H1 H2 H3 H4 H5]. split; [done| | | |by eapply marked_eqv].
  - apply (tracked_kept r g); [|by rewrite (eqv_refund _ _ He)|done]. apply slots_kept_accounts. intros b. apply live_eqv, He.
  - by rewrite (eqv_refund _ _ He).
  - eapply lives_coded; [by apply lives_eqv|done].
Qed.

Lemma reverted r st bound n pre s g :
  chained ((revision_of g, g) :: pre ++ st) s -> db_ok r st bound n g ->
  exists s', RevertToSnapshot s (nextRevisionId g) = Ret s' /\ eqv s' g /\ db_ok r st bound n s'.
Proof.
  intros [p Hc] Hg. destruct (RevertToSnapshot_chain _ _ _ _ _ Hc) as (s' & E & He & Ee & _ & _ & Hs'). exists s'.
  split; [exact E|]. split; [done|]. eapply db_ok_eqv; [by exists pre|done|done|done].
Qed.

(** ** The interpreter *)

Record runnable st (bound lim : Z) e (c : Contract) (input : bytes) : Prop := {
  ru_db : db_ok (chainRules e) st bound (Gas c + 1) (evm_db e);
  ru_bound : bound < 2 ^ 64;
  ru_gas : 0 <= Gas c < lim;
  ru_input : data_ok input;
  ru_code : data_ok (Code c);
  ru_caches : caches_ok (jumpdests c);
  ru_cache : Code c = [] \/ cache_ok code_of c;
  ru_self : (Exist (evm_db e) (self c)).1 = true;
  ru_warm : warm_in e (self c)
}.

Record ran st (bound : Z) e (c : Contract) e' (c' : Contract) (err : option vm_error) : Prop := {
  rn_rules : chainRules e' = chainRules e;
  rn_caches : caches_ok (jumpdests c');
  rn_gas : 0 <= Gas c' <= Gas c;
  rn_err : err <> Some ErrCodeStoreOutOfGas;
  rn_db : match err with
          | None => db_ok (chainRules e) st bound (Gas c') (evm_db e') /\ lives (evm_db e) (evm_db e') /\ warms (evm_db e) (evm_db e')
          | Some _ => chained st (evm_db e')
          end
}.

(** What the entry points rely on of the interpreter. *)
Definition interp_ok (lim : Z) (interpret : EVM -> Contract -> bytes -> bool -> fuelled Empty_set run_result) : Prop :=
  forall st bound e c input ro, runnable st bound lim e c input ->
  exists e' c' res err, interpret e c input ro = run (Ret (e', c', (res, err))) /\ data_ok res /\ ran st bound e c e' c' err.

Lemma db_ok_gas_bound r st bound n s : db_ok r st bound n s -> bound < 2 ^ 64 -> n < 2 ^ 61.
Proof. intros [_ _ H _] Hb. unfold step_refund in H. lia. Qed.

Lemma NewMemory_good : mem_good NewMemory.
Proof. split; [by exists 0|constructor]. Qed.

Lemma Run_ok fuel : loop_good env fuel -> interp_ok (Z.of_nat fuel) (Run (loop env fuel)).
Proof.
  intros Hl st bound e c input ro [H1 H2 H3 H4 H5 H6 H7 H8 H9]. unfold Run. case_decide as Hz.
  - eexists _, _, _, _. split; [done|]. split; [by repeat constructor|]. split; [done|done|lia|done|]. cbn.
    split; [eapply db_ok_mono; [exact H1|lia]|]. split; [done|by intros ?].
  - assert (Hc : cache_ok code_of c) by (destruct H7 as [H7|]; [by rewrite H7 in Hz|done]). set (f := mk_frame _ _ _ _ _ _ _ _ _ _ _).
    pose proof (db_ok_gas_bound _ _ _ _ _ H1 H2).
    assert (Hf : frame_at st bound (G f + 1) f).
    { split; cbn; try done; try apply NewMemory_good. split; [done|]. split; [unfold is_u64; cbn; lia|done]. }
    destruct (Hl 0 st bound f Hf H2 ltac:(cbn; lia)) as (f' & res & err & E & Hr & Hs). rewrite E. cbn [mbind fuelled_bind run].
    assert (Her : err <> Some ErrCodeStoreOutOfGas) by (destruct err; [intros [= ->]; by eapply loop_error|done]).
    eexists _, _, _, _. split; [done|]. split; [done|]. destruct err as [er|].
    + destruct Hs as [K1 K2 (_ & _ & _ & K3) K4]. by split.
    + destruct Hs as [[K1 K2 K3 K4] S1 (_ & _ & _ & S2) S3]. rewrite K1 in S1. by split; cbn.
Qed.

(** ** The end of a call *)

Lemma db_ok_weaken r p st bound n s : db_ok r (p ++ st) bound n s -> db_ok r st bound n s.
Proof. intros []. split; [by eapply chained_weaken|done..]. Qed.

(** A call whose snapshot is [g], below which there are the snapshots [pre]. *)
Record opened st (bound gas : Z) e g : Prop := {
  og_db : db_ok (chainRules e) st bound (gas + 1) g;
  og_eqv : eqv g (evm_db e)
}.

(** The outcome of what runs in the call. *)
Definition inner st (bound : Z) (r : Rules) g pre (gas : Z) s (err : option vm_error) : Prop :=
  match err with
  | None => db_ok r ((revision_of g, g) :: pre ++ st) bound gas s /\ lives g s /\ warms g s
  | Some _ => chained ((revision_of g, g) :: pre ++ st) s
  end.

Lemma finish_ok st bound gas e g pre e' cache ret gas' err :
  opened st bound gas e g -> chainRules e' = chainRules e -> caches_ok cache -> 0 <= gas' <= gas -> slice_ok ret ->
  inner st bound (chainRules e) g pre gas' (evm_db e') err ->
  call_spec st bound gas e (finish (nextRevisionId g) e' cache ret gas' err).
Proof.
  intros [O1 O2] Hr Hc Hg Hs Hi. destruct err as [er|]; cbn [finish inner] in *.
  - destruct (reverted _ _ _ _ _ _ _ Hi O1) as (s' & -> & He & Hdb). cbn [mbind fuelled_bind run].
    assert (He' : eqv s' (evm_db e)) by by rewrite He.
    eexists _, _, _, _, _. split; [done|]. split; [|split; [done|]].
    + split; cbn; try done; [eapply db_ok_mono; [exact Hdb|]; case_decide; lia|by apply lives_eqv|by apply warms_eqv|case_decide; lia].
    + intros er' [= <-]. split; [done|]. case_decide as Her; [by left|right]. subst er. apply list_elem_of_here.
  - destruct Hi as (H1 & H2 & H3). eexists _, _, _, _, _. split; [done|]. split; [|done].
    split; try done; [by apply (db_ok_weaken _ ((revision_of g, g) :: pre))| |].
    + transitivity g; [by apply lives_eqv|done].
    + intros a Ha. apply H3. by apply (warms_eqv _ _ O2).
Qed.

Context (interpret : EVM -> Contract -> bytes -> bool -> fuelled Empty_set run_result) (lim : Z) (Hint : interp_ok lim interpret).

(** The contract runs on a state [evm_db e1] that comes from the snapshot. *)
Lemma run_contract_ok st bound gas e g pre e1 c input ro :
  opened st bound gas e g -> chainRules e1 = chainRules e -> lives g (evm_db e1) -> warms g (evm_db e1) -> Gas c = gas ->
  runnable ((revision_of g, g) :: pre ++ st) bound lim e1 c input ->
  call_spec st bound gas e (run_contract interpret (nextRevisionId g) e1 c input ro).
Proof.
  intros O Hr Hl Hw Hg Hru. unfold run_contract. destruct (Hint _ _ _ _ _ ro Hru) as (e2 & c2 & res & err & -> & Hd & [R1 R2 R3 _ R4]).
  cbn [mbind fuelled_bind run]. eapply finish_ok; [done|congruence|done|lia|done|]. destruct err; [done|].
  cbn [inner]. destruct R4 as (K1 & K2 & K3). rewrite Hr in K1. split; [done|]. split; [by etrans|]. intros a Ha. by apply K3, Hw.
Qed.

Lemma run_precompiled_ok st bound gas e g pre e1 cache p input :
  opened st bound gas e g -> bound < 2 ^ 64 -> chainRules e1 = chainRules e -> lives g (evm_db e1) -> warms g (evm_db e1) -> 0 <= gas ->
  data_ok input -> caches_ok cache -> db_ok (chainRules e) ((revision_of g, g) :: pre ++ st) bound (gas + 1) (evm_db e1) ->
  call_spec st bound gas e (run_precompiled (nextRevisionId g) e1 cache p input gas).
Proof.
  intros O Hb Hr Hl Hw Hg Hi Hc Hdb. pose proof (db_ok_gas_bound _ _ _ _ _ Hdb Hb). unfold run_precompiled.
  destruct (RunPrecompiledContract_total p input gas Hi ltac:(lia)) as (out & gas' & err & -> & Hg' & Ho & _).
  cbn [mbind fuelled_bind run]. eapply finish_ok; [done|done|done|done| |].
  - destruct out; [by apply Ho|done].
  - destruct err; [apply Hdb|]. split; [|done]. eapply db_ok_mono; [exact Hdb|lia].
Qed.

(** ** The way to the contract *)

Lemma inner_evolves st bound r g pre n s t : inner st bound r g pre n s None -> evolves s t -> inner st bound r g pre n t None.
Proof.
  intros (H1 & H2 & H3) E. split; [by eapply db_ok_evolves|]. split; [etrans; [done|apply E]|]. intros a Ha. by apply E, H3.
Qed.

Lemma inner_wf st bound r g pre n s : inner st bound r g pre n s None -> wf s.
Proof. intros (H & _). by eapply db_ok_wf. Qed.

Lemma inner_Snapshot st bound gas e g :
  opened st bound gas e g -> exists pre, inner st bound (chainRules e) g pre (gas + 1) (Snapshot g).2 None.
Proof.
  intros [O _]. destruct (Snapshot_ok _ _ _ _ _ O) as [pre H]. exists pre. split; [done|]. pose proof (db_ok_wf _ _ _ _ _ O).
  split; [by apply Snapshot_lives|]. by apply warms_eq.
Qed.

Lemma caller_caches caller : caller_ok caller -> caches_ok (default ∅ (caller_cache caller)).
Proof.
  unfold caller_ok. destruct (caller_cache caller); [done|]. intros _ h a. cbn. by rewrite lookup_empty.
Qed.

Lemma CanTransfer_quiet s a v : quiet s (CanTransfer s a v).2.
Proof. unfold CanTransfer, GetBalance. by destruct (getStateObject_spec s a) as (s1 & -> & Q & _). Qed.

Lemma opened_quiet st bound lim' gas e caller s : callable st bound lim' gas e caller -> quiet (evm_db e) s -> opened st bound gas e s.
Proof.
  intros [H1 _ _ _] Q. split; [|apply Q]. pose proof (db_ok_wf _ _ _ _ _ H1). eapply db_ok_evolves; [exact H1|]. by apply evolves_quiet.
Qed.

(** A call that does not take place. *)
Lemma early_ok st bound lim' gas e caller e' err :
  callable st bound lim' gas e caller -> quiet (evm_db e) (evm_db e') -> chainRules e' = chainRules e ->
  (forall er, err = Some er -> er ∈ [ErrExecutionReverted; ErrDepth; ErrInsufficientBalance]) ->
  call_spec st bound gas e (run (Ret (e', default ∅ (caller_cache caller), (Fresh [], gas, err)))).
Proof.
  intros H Q Hr He. destruct (opened_quiet _ _ _ _ _ _ _ H Q) as [O1 O2]. destruct H as [H1 H2 H3 H4].
  eexists _, _, _, _, _. split; [done|]. split; [|split; [by repeat constructor|]].
  - split; [done|eapply db_ok_mono; [exact O1|lia]|by apply lives_quiet|by apply warms_quiet|by apply caller_caches|lia].
  - intros er Her. split; [done|]. right. by apply He.
Qed.

(** The code and its hash, read one after the other. *)
Lemma code_pair s t u a :
  coded s -> eqv t s -> eqv u s -> let c := default [] (GetCode t a).1 in data_ok c /\ (c = [] \/ code_of (GetCodeHash u a).1 = c).
Proof.
  intros K Ht Hu c. split; [apply GetCode_ok; eapply lives_coded; [by apply lives_eqv|done]|]. unfold c.
  destruct (getters t a 0) as (_ & _ & _ & _ & _ & _ & -> & _). destruct (getters u a 0) as (_ & _ & _ & _ & _ & -> & _).
  pose proof (live_eqv _ _ a Ht) as Lt. pose proof (live_eqv _ _ a Hu) as Lu.
  destruct (live s a) as [o|] eqn:E; [|inversion Lt; by left]. inversion Lt as [o1 ? H1 E1|]; inversion Lu as [o2 ? H2 E2|]; subst.
  rewrite (oe_code _ _ _ _ H1), (oe_data _ _ _ _ H2). destruct (eff_code o) as [c'|] eqn:Ec; [|by left].
  destruct (K a o E c' Ec) as [->|[Hc _]]; [by left|by right].
Qed.

Lemma runnable_new st bound g pre e1 caller c input :
  caller_ok caller -> inner st bound (chainRules e1) g pre (Gas c + 1) (evm_db e1) None -> bound < 2 ^ 64 -> 0 <= Gas c < lim ->
  data_ok input -> data_ok (Code c) -> Code c = [] \/ (CodeHash c <> 0 -> code_of (CodeHash c) = Code c) ->
  jumpdests c = default ∅ (caller_cache caller) -> analysis c = None -> (Exist (evm_db e1) (self c)).1 = true -> warm_in e1 (self c) ->
  runnable ((revision_of g, g) :: pre ++ st) bound lim e1 c input.
Proof.
  intros Hc Hi Hb Hg Hin Hcd Hh Hj Ha He Hw. apply caller_caches in Hc. split; try done; [apply Hi|by rewrite Hj|].
  destruct Hh as [|Hh]; [by left|right]. split; [apply Hcd|]. split; [done|]. rewrite Ha, Hj. by split.
Qed.

Lemma GetCode_quiet s a : wf s -> quiet s (GetCode s a).2.
Proof. intros W. apply (read_object_quiet _ a (fun _ => obj_Code)); [done|]. intros; apply Code_eqv. Qed.

Lemma GetCodeHash_quiet s a : quiet s (GetCodeHash s a).2.
Proof. unfold GetCodeHash. by destruct (getStateObject_spec s a) as (s1 & -> & Q & _). Qed.

Lemma hash_then_code s a :
  wf s -> coded s -> let h := GetCodeHash s a in let c := GetCode h.2 a in
  evolves s c.2 /\ data_ok (default [] c.1) /\ (default [] c.1 = [] \/ code_of h.1 = default [] c.1).
Proof.
  intros W K h c. pose proof (GetCodeHash_quiet s a) as Q1. pose proof (quiet_wf _ _ W Q1) as W1.
  pose proof (GetCode_quiet h.2 a W1) as Q2. split.
  - eapply evolves_trans; [done|by apply evolves_quiet|by apply evolves_quiet].
  - apply (code_pair s h.2 s a K); [apply Q1|done].
Qed.

Lemma code_then_hash s a :
  wf s -> coded s -> let c := GetCode s a in let h := GetCodeHash c.2 a in
  evolves s h.2 /\ data_ok (default [] c.1) /\ (default [] c.1 = [] \/ code_of h.1 = default [] c.1).
Proof.
  intros W K c h. pose proof (GetCode_quiet s a W) as Q1. pose proof (quiet_wf _ _ W Q1) as W1.
  pose proof (GetCodeHash_quiet c.2 a) as Q2. split.
  - eapply evolves_trans; [done|by apply evolves_quiet|by apply evolves_quiet].
  - apply (code_pair s s c.2 a K); [done|apply Q1].
Qed.

Lemma Exist_CreateAccount s a : wf s -> (Exist (CreateAccount s a) a).1 = true.
Proof.
  intros W. apply Exist_live. unfold CreateAccount. destruct (createObject_frame s a W) as (t & -> & Wt & Ht & _).
  destruct (live s a); unfold live, look; cbn; [by rewrite lookup_insert_eq|]. rewrite Ht. by eexists.
Qed.

Lemma Exist_AddBalance s a v : wf s -> (Exist (AddBalance s a v) a).1 = true.
Proof.
  intros W. unfold AddBalance. destruct (stays_GetOrNew s a W) as (o & t & -> & Wt & Hl & Hd & _).
  assert (Ha : address o = a) by (by destruct (wf_obj _ Wt a o) as [? _]; [apply look_live|]).
  eapply stays_exist; [by eapply stays_AddBalance|]. apply Exist_live. unfold live. rewrite (look_live _ _ _ Hl), Hd. by eexists.
Qed.

Lemma CanTransfer_funded s a v : (CanTransfer s a v).1 = true -> v <= balance s a.
Proof.
  unfold CanTransfer. pose proof (GetBalance_balance s a) as E. destruct (GetBalance s a) as [b s1]. cbn in *.
  intros H%bool_decide_eq_true. lia.
Qed.

Lemma Snapshot_balance s a : wf s -> balance (Snapshot s).2 a = balance s a.
Proof. intros W. by apply balance_frame. Qed.

(** A transfer that was checked in a state with the same balance. *)
Lemma checked_Transfer s t a b v :
  wf t -> 0 <= v -> (v <> 0 -> v <= balance s a) -> balance t a = balance s a -> evolves t (Transfer t a b v).
Proof. intros W Hv Hs E. apply Transfer_evolves; [done|]. destruct (decide (v = 0)); [by right|left]. rewrite E. specialize (Hs n). lia. Qed.

(** ** The entry points *)

Ltac split_pair x := rewrite (surjective_pairing x); cbv beta iota.

(** No call beyond the depth, or when calls are switched off. *)
Ltac early H := apply (early_ok _ _ _ _ _ _ _ _ H); [cbn; try done|done|intros ? [= <-]; set_solver].

Lemma after_lives s t a : evolves s t -> (Exist s a).1 = true -> (Exist t a).1 = true.
Proof. intros E. apply lives_exist, E. Qed.

(** From the snapshot to the code of an account. *)
Lemma call_account_ok st bound gas e g pre s caller self_ addr hash code input ro c :
  callable st bound lim gas e caller -> opened st bound gas e g -> data_ok input ->
  inner st bound (chainRules e) g pre (gas + 1) s None -> data_ok code -> (code = [] \/ code_of hash = code) ->
  (Exist s self_).1 = true -> warm_in e self_ ->
  Gas c = gas -> self c = self_ -> jumpdests c = default ∅ (caller_cache caller) -> analysis c = None ->
  call_spec st bound gas e (run_contract interpret (nextRevisionId g) (set_evm_db e s) (SetCallCode c addr hash code) input ro).
Proof.
  intros H O Hin Hi Hcd Hh He Hw Eg Es Ej Ea. pose proof Hi as (_ & Hl & Hwa). destruct H as [H1 H2 H3 H4].
  eapply run_contract_ok; [done|done|done|done|done|]. eapply (runnable_new _ _ _ _ _ caller); cbn; rewrite ?Eg, ?Es; try done.
  - destruct Hh as [|Hh]; [by left|by right].
  - intros Hy. apply Hwa. pose proof (eqv_access _ _ (og_eqv _ _ _ _ _ O)) as ->. by apply Hw.
Qed.

Lemma Call_ok st bound e caller addr input gas value :
  callable st bound lim gas e caller -> data_ok input -> warm_in e addr -> 0 <= value ->
  call_spec st bound gas e (Call env interpret e caller addr input gas value).
Proof.
  intros H Hin Hw Hv. unfold Call. destruct (no_recursion env e); [early H|]. case_decide; [early H|].
  set (ct := if decide (value <> 0) then _ else _). assert (Q : quiet (evm_db e) ct.2).
  { unfold ct. case_decide; [apply CanTransfer_quiet|done]. }
  assert (Hcan : ct.1 = true -> value <> 0 -> value <= balance (evm_db e) (caller_address caller)).
  { intros Hc Hn. unfold ct in Hc. rewrite decide_True in Hc by done. by apply CanTransfer_funded. }
  split_pair ct. destruct ct.1; cbn [negb]; [specialize (Hcan eq_refl)|early H]. pose proof (opened_quiet _ _ _ _ _ _ _ H Q) as O.
  destruct (inner_Snapshot _ _ _ _ _ O) as [pre I0]. split_pair (Snapshot ct.2). change (Snapshot ct.2).1 with (nextRevisionId ct.2).
  set (s0 := (Snapshot ct.2).2) in *. pose proof (inner_wf _ _ _ _ _ _ _ I0) as W0.
  assert (V1 : evolves s0 (Exist s0 addr).2) by query_ok (CExist addr). pose proof (inner_evolves _ _ _ _ _ _ _ _ I0 V1) as I1.
  split_pair (Exist s0 addr). set (s1 := (Exist s0 addr).2) in *. pose proof (inner_wf _ _ _ _ _ _ _ I1) as W1.
  pose proof H as [H1 H2 H3 H4]. set (p := precompile _ _).
  assert (Hfin : forall s, inner st bound (chainRules e) ct.2 pre (gas + 1) s None ->
    call_spec st bound gas e (finish (nextRevisionId ct.2) (set_evm_db e s) (default ∅ (caller_cache caller)) (Fresh []) gas None)).
  { intros s (K1 & K2 & K3). eapply finish_ok; [done|done|by apply caller_caches|lia|by repeat constructor|]. split; [|done].
    eapply db_ok_mono; [exact K1|lia]. }
  destruct (_ && _ && _ && _); [by apply (Hfin s1)|].
  set (s2 := if (Exist s0 addr).1 then s1 else CreateAccount s1 addr).
  assert (V2 : evolves s1 s2 /\ (Exist s2 addr).1 = true /\ forall b, balance s2 b = balance s1 b).
  { unfold s2. destruct (Exist s0 addr).1 eqn:Ee; [split; [by apply evolves_refl|]; split; [by eapply after_lives|done]|].
    split; [query_ok (CCreateAccount addr)|]. split; [by apply Exist_CreateAccount|]. intros b. by apply CreateAccount_balance. }
  destruct V2 as (V2 & X2 & B2). pose proof (inner_evolves _ _ _ _ _ _ _ _ I1 V2) as I2. pose proof (inner_wf _ _ _ _ _ _ _ I2) as W2.
  assert (V3 : evolves s2 (Transfer s2 (caller_address caller) addr value)).
  { apply (checked_Transfer (evm_db e)); [done|done|done|]. rewrite B2. unfold s1. rewrite (neutral_balance s0 (CExist addr) _ _ W0 eq_refl eq_refl).
    unfold s0. rewrite Snapshot_balance by (by eapply db_ok_wf, O). by apply balance_quiet. }
  set (s3 := Transfer _ _ _ _) in *.
  pose proof (inner_evolves _ _ _ _ _ _ _ _ I2 V3) as I3. pose proof (inner_wf _ _ _ _ _ _ _ I3) as W3.
  pose proof (after_lives _ _ _ V3 X2) as X3. pose proof I3 as (D3 & L3 & A3). destruct p as [p|].
  - eapply run_precompiled_ok; [exact O|done|done|exact L3|exact A3|lia|done|by apply caller_caches|exact D3].
  - destruct (code_then_hash s3 addr W3 (do_coded _ _ _ _ _ D3)) as (V4 & Hd & Hp). split_pair (GetCode s3 addr).
    assert (V5 : evolves s3 (GetCode s3 addr).2) by query_ok (CGetCode addr).
    case_decide; [apply Hfin; by eapply inner_evolves|]. split_pair (GetCodeHash (GetCode s3 addr).2 addr).
    eapply call_account_ok; [exact H|exact O|exact Hin|exact (inner_evolves _ _ _ _ _ _ _ _ I3 V4)|exact Hd|exact Hp
      |exact (after_lives _ _ _ V4 X3)|exact Hw|reflexivity..].
Qed.

(** The code of [addr] runs in a contract that is set up beforehand. *)
Lemma call_code_ok st bound gas e g pre s caller addr input ro c :
  callable st bound lim gas e caller -> opened st bound gas e g -> data_ok input ->
  inner st bound (chainRules e) g pre (gas + 1) s None -> (Exist s (self c)).1 = true -> warm_in e (self c) ->
  Gas c = gas -> jumpdests c = default ∅ (caller_cache caller) -> analysis c = None ->
  call_spec st bound gas e
    (let '(hash, s) := GetCodeHash s addr in let '(code, s) := GetCode s addr in
     run_contract interpret (nextRevisionId g) (set_evm_db e s) (SetCallCode c addr hash (default [] code)) input ro).
Proof.
  intros H O Hin I Hx Hw Eg Ej Ea. pose proof (inner_wf _ _ _ _ _ _ _ I) as W. pose proof I as (D & _).
  destruct (hash_then_code s addr W (do_coded _ _ _ _ _ D)) as (V & Hd & Hp). split_pair (GetCodeHash s addr).
  split_pair (GetCode (GetCodeHash s addr).2 addr). eapply call_account_ok; [exact H|exact O|exact Hin
    |exact (inner_evolves _ _ _ _ _ _ _ _ I V)|exact Hd|exact Hp|exact (after_lives _ _ _ V Hx)|exact Hw|done..].
Qed.

(** A precompiled contract runs after the snapshot. *)
Lemma call_precompiled_ok st bound gas e g pre s caller p input :
  callable st bound lim gas e caller -> opened st bound gas e g -> data_ok input ->
  inner st bound (chainRules e) g pre (gas + 1) s None ->
  call_spec st bound gas e (run_precompiled (nextRevisionId g) (set_evm_db e s) (default ∅ (caller_cache caller)) p input gas).
Proof.
  intros [H1 H2 H3 H4] O Hin (D & L & A).
  eapply run_precompiled_ok; [exact O|done|done|exact L|exact A|lia|done|by apply caller_caches|exact D].
Qed.

Lemma inner_exist st bound r g pre n s e a :
  opened st bound n e g -> inner st bound r g pre (n + 1) s None -> (Exist (evm_db e) a).1 = true -> (Exist s a).1 = true.
Proof.
  intros O (_ & L & _) He. eapply lives_exist; [exact L|]. eapply lives_exist; [|exact He]. apply lives_eqv, O.
Qed.

Lemma CallCode_ok st bound e caller addr input gas value :
  callable st bound lim gas e caller -> data_ok input -> home e caller ->
  call_spec st bound gas e (CallCode env interpret e caller addr input gas value).
Proof.
  intros H Hin [Hx Hw]. unfold CallCode. destruct (no_recursion env e); [early H|]. case_decide; [early H|].
  pose proof (CanTransfer_quiet (evm_db e) (caller_address caller) value) as Q. set (ct := CanTransfer _ _ _) in *.
  split_pair ct. destruct (negb ct.1); [early H|]. pose proof (opened_quiet _ _ _ _ _ _ _ H Q) as O.
  destruct (inner_Snapshot _ _ _ _ _ O) as [pre I]. split_pair (Snapshot ct.2). change (Snapshot ct.2).1 with (nextRevisionId ct.2).
  destruct (precompile _ _) as [p|]; [by eapply call_precompiled_ok|].
  eapply (call_code_ok _ _ _ _ _ pre); [exact H|exact O|exact Hin|exact I|exact (inner_exist _ _ _ _ _ _ _ _ _ O I Hx)|exact Hw|done..].
Qed.

Lemma DelegateCall_ok st bound e c addr input gas :
  callable st bound lim gas e (ContractCaller c) -> data_ok input -> home e (ContractCaller c) ->
  call_spec st bound gas e (DelegateCall env interpret e (ContractCaller c) addr input gas).
Proof.
  intros H Hin [Hx Hw]. unfold DelegateCall. destruct (no_recursion env e); [early H|]. case_decide; [early H|].
  assert (O : opened st bound gas e (evm_db e)) by by apply (opened_quiet _ _ _ _ _ _ _ H).
  destruct (inner_Snapshot _ _ _ _ _ O) as [pre I]. split_pair (Snapshot (evm_db e)). change (Snapshot (evm_db e)).1 with (nextRevisionId (evm_db e)).
  destruct (precompile _ _) as [p|]; [by eapply call_precompiled_ok|]. cbn [AsDelegate mbind fuelled_bind run].
  eapply (call_code_ok _ _ _ _ _ pre); [exact H|exact O|exact Hin|exact I|exact (inner_exist _ _ _ _ _ _ _ _ _ O I Hx)|exact Hw|done..].
Qed.

Lemma StaticCall_ok st bound e caller addr input gas :
  callable st bound lim gas e caller -> data_ok input -> warm_in e addr ->
  call_spec st bound gas e (StaticCall env interpret e caller addr input gas).
Proof.
  intros H Hin Hw. unfold StaticCall. destruct (no_recursion env e); [early H|]. case_decide; [early H|].
  assert (O : opened st bound gas e (evm_db e)) by by apply (opened_quiet _ _ _ _ _ _ _ H).
  destruct (inner_Snapshot _ _ _ _ _ O) as [pre I]. split_pair (Snapshot (evm_db e)). change (Snapshot (evm_db e)).1 with (nextRevisionId (evm_db e)).
  set (s0 := (Snapshot (evm_db e)).2) in *. pose proof (inner_wf _ _ _ _ _ _ _ I) as W.
  assert (V : evolves s0 (AddBalance s0 addr 0)) by query_ok (CAddBalance addr 0). pose proof (inner_evolves _ _ _ _ _ _ _ _ I V) as I1.
  destruct (precompile _ _) as [p|]; [by eapply call_precompiled_ok|].
  eapply (call_code_ok _ _ _ _ _ pre); [exact H|exact O|exact Hin|exact I1|exact (Exist_AddBalance s0 addr 0 W)|exact Hw|done..].
Qed.

(** ** Creating contracts *)

(** The snapshot of a creation, which the nonce of the caller precedes. *)
Record created st (bound gas : Z) e g : Prop := {
  cr_db : db_ok (chainRules e) st bound (gas + 1) g;
  cr_lives : lives (evm_db e) g;
  cr_warms : warms (evm_db e) g
}.

Lemma create_ret st bound gas e e' cache ret addr gas' err :
  call_ok st bound gas e e' cache gas' -> data_ok ret -> create_spec st bound gas e (run (Ret (e', cache, (ret, addr, gas', err)))).
Proof. intros H Hr. by eexists _, _, _, _, _, _. Qed.

Lemma UseGas_all c : UseGas c (Gas c) = (true, set_gas c 0).
Proof. unfold UseGas. rewrite decide_False by lia. by rewrite Z.sub_diag. Qed.

Lemma deploy_end st bound gas e g pre e2 s c address ret err (undo take : bool) :
  created st bound gas e g -> chainRules e2 = chainRules e -> data_ok ret -> caches_ok (jumpdests c) -> 0 <= Gas c <= gas ->
  (if undo then chained ((revision_of g, g) :: pre ++ st) s else inner st bound (chainRules e) g pre (Gas c) s None) ->
  create_spec st bound gas e
    (s ← (if undo then run (RevertToSnapshot s (nextRevisionId g)) else run (Ret s));
     let c := if take then (UseGas c (Gas c)).2 else c in
     run (Ret (set_evm_db e2 s, jumpdests c, (ret, address, Gas c, err)))).
Proof.
  intros [C1 C2 C3] Hr Hd Hc Hg Hs. rewrite UseGas_all. cbn [snd].
  assert (Hend : forall s', db_ok (chainRules e) st bound (Gas c) s' -> lives g s' -> warms g s' ->
    create_spec st bound gas e (run (Ret (set_evm_db e2 s', jumpdests (if take then set_gas c 0 else c),
      (ret, address, Gas (if take then set_gas c 0 else c), err))))).
  { intros s' K1 K2 K3. apply create_ret; [|done]. split; cbn; try done.
    - eapply db_ok_mono; [exact K1|]. destruct take; cbn; lia.
    - by etrans.
    - intros a Ha. by apply K3, C3.
    - by destruct take.
    - destruct take; cbn; lia. }
  destruct undo.
  - destruct (reverted _ _ _ _ _ _ _ Hs C1) as (s' & -> & He & Hdb). cbn [mbind fuelled_bind run].
    apply Hend; [eapply db_ok_mono; [exact Hdb|lia]|by apply lives_eqv|by apply warms_eqv].
  - destruct Hs as (K1 & K2 & K3). cbn [mbind fuelled_bind run]. apply Hend; [|done|done].
    by apply (db_ok_weaken _ ((revision_of g, g) :: pre)).
Qed.

Lemma SetCode_evolves s a code : wf s -> data_ok code -> evolves s (SetCode s a code).
Proof. intros W Hc. by apply (evolves_exec s (CSetCode a code)). Qed.

Lemma finish_deployment_ok st bound gas e g pre e1 c1 e2 c2 address ret err :
  created st bound gas e g -> chainRules e1 = chainRules e -> Gas c1 = gas -> lives g (evm_db e1) -> warms g (evm_db e1) ->
  ran ((revision_of g, g) :: pre ++ st) bound e1 c1 e2 c2 err -> data_ok ret ->
  create_spec st bound gas e (finish_deployment (nextRevisionId g) e2 c2 address ret err).
Proof.
  intros Hc Hr Hg Hl Hw [R1 R2 R3 R4 R5] Hd. unfold finish_deployment. rewrite Hr in R1. rewrite Hg in R3.
  set (mce := IsEIP158 _ && _). destruct err as [er|].
  - rewrite (bool_decide_false (Some er = None)) by done. cbn [andb]. cbv beta iota zeta.
    rewrite (bool_decide_true (Some er <> None)), (bool_decide_true (Some er <> Some ErrCodeStoreOutOfGas)) by done.
    rewrite orb_true_r. cbn [andb]. rewrite orb_true_r. cbn [andb].
    exact (deploy_end _ _ _ _ _ _ _ _ _ _ _ _ true _ Hc R1 Hd R2 R3 R5).
  - destruct R5 as (K1 & K2 & K3). rewrite Hr in K1.
    assert (Hi : inner st bound (chainRules e) g pre (Gas c2) (evm_db e2) None).
    { split; [done|]. split; [by etrans|]. intros a Ha. by apply K3, Hw. }
    rewrite (bool_decide_true (None = None)) by done. destruct mce; cbn [andb orb negb]; cbv beta iota zeta.
    + exact (deploy_end _ _ _ _ _ _ _ _ _ _ _ (Some ErrMaxCodeSizeExceeded) true true Hc R1 Hd R2 R3 (do_chain _ _ _ _ _ K1)).
    + unfold UseGas at 1. case_decide; cbv beta iota zeta.
      * rewrite (bool_decide_true (Some ErrCodeStoreOutOfGas <> None)), (bool_decide_false (Some ErrCodeStoreOutOfGas <> Some ErrCodeStoreOutOfGas)) by naive_solver.
        rewrite orb_false_r. cbn [andb]. apply (deploy_end _ _ _ _ _ pre); [done..|]. destruct (IsHomestead _); [apply K1|done].
      * rewrite (bool_decide_false (None <> None)) by naive_solver. cbn [andb].
        pose proof (u64_range (zlen ret * CreateDataGas)) as Hu. unfold is_u64 in Hu.
        set (c' := set_gas c2 _). assert (Hi' : inner st bound (chainRules e) g pre (Gas c') (SetCode (evm_db e2) address ret) None).
        { eapply inner_evolves; [|apply SetCode_evolves; [by eapply inner_wf|done]]. destruct Hi as (J1 & J2 & J3).
          split; [eapply db_ok_mono; [exact J1|cbn; lia]|done]. }
        exact (deploy_end st bound gas e g pre e2 _ c' address ret None false false Hc R1 Hd R2 ltac:(cbn; lia) Hi').
Qed.

Lemma GetNonce_quiet s a : quiet s (GetNonce s a).2.
Proof. unfold GetNonce. by destruct (getStateObject_spec s a) as (s1 & -> & Q & _). Qed.

(** The state up to the snapshot of a creation. *)
Lemma created_evolves st bound gas e caller s :
  callable st bound lim gas e caller -> evolves (evm_db e) s -> created st bound gas e s.
Proof. intros [H1 _ _ _] E. split; [by eapply db_ok_evolves|apply E|apply E]. Qed.

Lemma created_inner st bound gas e g :
  created st bound gas e g -> exists pre, inner st bound (chainRules e) g pre (gas + 1) (Snapshot g).2 None.
Proof.
  intros [O _ _]. destruct (Snapshot_ok _ _ _ _ _ O) as [pre H]. exists pre. split; [done|]. pose proof (db_ok_wf _ _ _ _ _ O).
  split; [by apply Snapshot_lives|]. by apply warms_eq.
Qed.

(** The new account, from the snapshot to its code. *)
Lemma deploy_ok st bound gas e caller code hash value address g :
  callable st bound lim gas e caller -> data_ok code -> (hash <> 0 -> code_of hash = code) -> created st bound gas e g ->
  0 <= value <= balance g (caller_address caller) ->
  (IsYoloV3 (chainRules e) = true -> ContainsAddress (access g) address = true) ->
  create_spec st bound gas e
    (let '(snapshot, s) := Snapshot g in
     let s := CreateAccount s address in
     let s := if IsEIP158 (chainRules e) then SetNonce s address 1 else s in
     let s := Transfer s (caller_address caller) address value in
     let c := SetCodeOptionalHash (NewContract (caller_address caller) address (caller_cache caller) value gas) address hash code in
     let e := set_evm_db e s in
     if no_recursion env e then run (Ret (e, default ∅ (caller_cache caller), ([], address, gas, None)))
     else
       r ← interpret e c [] false;
       let '(e, c, (ret, err)) := r in
       finish_deployment snapshot e c address ret err).
Proof.
  intros H Hcd Hh Hc Hv Hw. destruct (created_inner _ _ _ _ _ Hc) as [pre I0]. split_pair (Snapshot g).
  change (Snapshot g).1 with (nextRevisionId g). set (s0 := (Snapshot g).2) in *. pose proof (inner_wf _ _ _ _ _ _ _ I0) as W0. cbv zeta.
  assert (V1 : evolves s0 (CreateAccount s0 address)) by query_ok (CCreateAccount address).
  pose proof (Exist_CreateAccount s0 address W0) as X1. set (s1 := CreateAccount s0 address) in *. pose proof (evolves_wf _ _ V1) as W1.
  set (s2 := if IsEIP158 (chainRules e) then SetNonce s1 address 1 else s1).
  assert (V2 : evolves s1 s2) by (unfold s2; destruct (IsEIP158 _); [query_ok (CSetNonce address 1)|by apply evolves_refl]).
  assert (B2 : forall b, balance s2 b = balance g b).
  { intros b. transitivity (balance s1 b); [unfold s2; destruct (IsEIP158 _); [by apply SetNonce_balance|done]|].
    unfold s1. rewrite CreateAccount_balance by done. apply Snapshot_balance. by eapply db_ok_wf, Hc. }
  assert (V3 : evolves s2 (Transfer s2 (caller_address caller) address value)).
  { apply Transfer_evolves; [by eapply evolves_wf|]. left. by rewrite B2. }
  set (s3 := Transfer _ _ _ _) in *.
  pose proof (inner_evolves _ _ _ _ _ _ _ _ (inner_evolves _ _ _ _ _ _ _ _ (inner_evolves _ _ _ _ _ _ _ _ I0 V1) V2) V3) as I3.
  pose proof (after_lives _ _ _ V3 (after_lives _ _ _ V2 X1)) as X3. pose proof I3 as (D3 & L3 & A3). destruct H as [H1 H2 H3 H4]. cbv zeta.
  destruct (no_recursion _ _).
  { apply create_ret; [|by repeat constructor]. destruct Hc as [C1 C2 C3]. split; cbn; try done; [| |by intros a Ha; apply A3, C3|by apply caller_caches|lia].
    - eapply db_ok_mono; [by apply (db_ok_weaken _ ((revision_of g, g) :: pre))|lia].
    - by etrans. }
  set (c := SetCodeOptionalHash _ _ _ _).
  assert (Hr : runnable ((revision_of g, g) :: pre ++ st) bound lim (set_evm_db e s3) c []).
  { apply (runnable_new _ _ _ _ _ caller); cbn; try done; [by right|]. intros Hy. by apply A3, Hw. }
  destruct (Hint _ _ _ _ _ false Hr) as (e2 & c2 & res & err & -> & Hd & Hran). cbn [mbind fuelled_bind run].
  by eapply (finish_deployment_ok _ _ _ _ _ pre (set_evm_db e s3) c).
Qed.

Lemma create_ok st bound e caller code hash gas value address :
  callable st bound lim gas e caller -> data_ok code -> (hash <> 0 -> code_of hash = code) -> 0 <= value ->
  create_spec st bound gas e (create env interpret e caller code hash gas value address).
Proof.
  intros H Hcd Hh Hv. unfold create. pose proof H as [H1 H2 H3 H4]. pose proof (db_ok_wf _ _ _ _ _ H1) as W0.
  assert (Hret : forall s err, evolves (evm_db e) s -> forall gas', 0 <= gas' <= gas ->
    create_spec st bound gas e (run (Ret (set_evm_db e s, default ∅ (caller_cache caller), ([], 0, gas', err))))).
  { intros s err E gas' Hg. apply create_ret; [|by repeat constructor]. split; cbn; [done| |apply E|apply E|by apply caller_caches|done].
    eapply db_ok_evolves; [|exact E]. eapply db_ok_mono; [exact H1|lia]. }
  case_decide; [replace e with (set_evm_db e (evm_db e)) at 2 by (by destruct e); apply Hret; [by apply evolves_refl|lia]|].
  pose proof (CanTransfer_quiet (evm_db e) (caller_address caller) value) as Q1. set (ct := CanTransfer _ _ _) in *.
  split_pair ct. pose proof (evolves_quiet _ _ W0 Q1) as V1. destruct ct.1 eqn:Hcan; cbn [negb]; [|apply Hret; [done|lia]].
  apply CanTransfer_funded in Hcan. pose proof (evolves_wf _ _ V1) as W1. pose proof (evolves_quiet _ _ W1 (GetNonce_quiet ct.2 (caller_address caller))) as V2.
  split_pair (GetNonce ct.2 (caller_address caller)). set (gn := GetNonce _ _) in *. pose proof (evolves_wf _ _ V2) as W2.
  assert (V3 : evolves gn.2 (SetNonce gn.2 (caller_address caller) (u64 (gn.1 + 1)))) by query_ok (CSetNonce (caller_address caller) (u64 (gn.1 + 1))).
  set (s3 := SetNonce _ _ _) in *. pose proof (evolves_wf _ _ V3) as W3. set (s4 := if IsYoloV3 (chainRules e) then AddAddressToAccessList s3 address else s3).
  assert (V4 : evolves s3 s4) by (unfold s4; destruct (IsYoloV3 _); [query_ok (CAddAddressToAccessList address)|by apply evolves_refl]).
  assert (Hw : IsYoloV3 (chainRules e) = true -> ContainsAddress (access s4) address = true).
  { unfold s4. intros ->. rewrite AddAddressToAccessList_access, AddAddress_Contains. by rewrite bool_decide_true. }
  pose proof (evolves_wf _ _ V4) as W4. pose proof (evolves_quiet _ _ W4 (GetCodeHash_quiet s4 address)) as V5.
  split_pair (GetCodeHash s4 address). set (gh := GetCodeHash _ _) in *. pose proof (evolves_wf _ _ V5) as W5.
  pose proof (evolves_quiet _ _ W5 (GetNonce_quiet gh.2 address)) as V6. split_pair (GetNonce gh.2 address). set (ga := GetNonce gh.2 address) in *.
  assert (V : evolves (evm_db e) ga.2).
  { apply (evolves_trans _ ct.2), (evolves_trans _ gn.2), (evolves_trans _ s3), (evolves_trans _ s4), (evolves_trans _ gh.2); done. }
  assert (Bal : balance ga.2 (caller_address caller) = balance (evm_db e) (caller_address caller)).
  { rewrite (balance_quiet gh.2 ga.2), (balance_quiet s4 gh.2) by (apply GetNonce_quiet || apply GetCodeHash_quiet).
    transitivity (balance s3 (caller_address caller)).
    - unfold s4. destruct (IsYoloV3 _); [by apply (neutral_balance s3 (CAddAddressToAccessList address))|done].
    - unfold s3. rewrite SetNonce_balance, (balance_quiet ct.2 gn.2) by (done || apply GetNonce_quiet). by apply balance_quiet. }
  case_match; [apply Hret; [done|lia]|]. apply deploy_ok; [done|done|done|by eapply created_evolves|by rewrite Bal|].
  intros Hy. by apply V6, V5, Hw.
Qed.

Lemma create_spec_quiet st bound gas e s m :
  quiet (evm_db e) s -> create_spec st bound gas (set_evm_db e s) m -> create_spec st bound gas e m.
Proof.
  intros Q (e' & cache & ret & addr & gas' & err & -> & [K1 K2 K3 K4 K5 K6] & Hr). apply create_ret; [|done]. cbn in *.
  split; try done; [etrans; [by apply lives_quiet|done]|]. intros a Ha. by apply K4, (warms_quiet _ _ Q).
Qed.

Lemma hash_tail h : bytes_ok h /\ zlen h = 32 -> exists t, go_from (E:=Empty_set) h 12 = Ret t.
Proof. intros [_ Hz]. unfold go_from, go_slice. rewrite decide_True by lia. by eexists. Qed.

(** The address of a created contract is the tail of the hash of the RLP list of
    the creator and its nonce; the encoding does not fail. *)
Lemma CreateAddress_total b nonce : exists a, CreateAddress b nonce = Ret a.
Proof.
  unfold CreateAddress. set (v := SliceV false _). set (x := Spec.enc_str (be_bytes 20 b) ++ enc_nat (u64 nonce) ++ []).
  assert (Hu : is_u64 (u64 nonce)) by apply u64_range.
  rewrite (EncodeToBytes_Some v (Spec.enc_list x)).
  - destruct (hash_tail _ (Keccak256_size (Spec.enc_list x))) as [t ->]. by eexists.
  - split; [exact (be_bytes_ok 20 b)|]. by split.
  - done.
  - pose proof (enc_uint_length (u64 nonce) Hu) as Hn. fold (enc_nat (u64 nonce)) in Hn.
    assert (Hx : zlen x <= 30).
    { unfold x. rewrite !zlen_app. change (zlen (@nil Z)) with 0. change (zlen (Spec.enc_str (be_bytes 20 b))) with 21. lia. }
    unfold Spec.enc_list. rewrite zlen_app. unfold Spec.header. rewrite decide_True by lia. rewrite zlen_cons. change (zlen (@nil Z)) with 0. lia.
Qed.

Lemma CreateAddress2_total b salt h : exists a, CreateAddress2 b salt h = Ret a.
Proof. unfold CreateAddress2. edestruct hash_tail as [t ->]; [apply Keccak256_size|]. by eexists. Qed.

Lemma Create_ok st bound e caller code gas value :
  callable st bound lim gas e caller -> data_ok code -> 0 <= value -> create_spec st bound gas e (Create env interpret e caller code gas value).
Proof.
  intros H Hc Hv. unfold Create. split_pair (GetNonce (evm_db e) (caller_address caller)).
  pose proof (GetNonce_quiet (evm_db e) (caller_address caller)) as Q. set (gn := GetNonce _ _) in *.
  destruct (CreateAddress_total (caller_address caller) gn.1) as [a ->]. cbn [mbind fuelled_bind run].
  apply (create_spec_quiet _ _ _ _ gn.2 _ Q), create_ok; [|done|done|done]. destruct (opened_quiet _ _ _ _ _ _ _ H Q) as [O _].
  destruct H as [H1 H2 H3 H4]. by split.
Qed.

Lemma Create2_ok st bound e caller code gas value salt :
  callable st bound lim gas e caller -> data_ok code -> 0 <= value -> create_spec st bound gas e (Create2 env interpret e caller code gas value salt).
Proof.
  intros H Hc Hv. unfold Create2. destruct (CreateAddress2_total (caller_address caller) (Bytes32 salt) (hash_code code)) as [a ->].
  cbn [mbind fuelled_bind run]. apply create_ok; [done|done| |done]. intros _. by apply code_of_hash.
Qed.

Lemma make_evm_ok : evm_ok lim (make_evm env interpret).
Proof. split; [apply Call_ok|apply CallCode_ok|apply DelegateCall_ok|apply StaticCall_ok|apply Create_ok|apply Create2_ok]. Qed.

End Run.

(** ** The EVM with fuel *)

Section Fuel.
Context {B : Backend} {BL : BackendLaws B} {CS : CodeStore B} {U : Uint256} {UL : Uint256Laws U} {C : Crypto} {CL : CryptoLaws C} (env : Env).

Lemma fuel_good fuel : loop_good env fuel /\ evm_ok (Z.of_nat fuel) (evm_at env fuel).
Proof.
  induction fuel as [|fuel [IH1 IH2]].
  - split; [apply loop_good_O|]. apply make_evm_ok, Run_ok, loop_good_O.
  - assert (loop_good env (S fuel)) by by apply loop_good_S. split; [done|]. by apply make_evm_ok, Run_ok.
Qed.

End Fuel.
