(* ===== verification/VmSafety.v ===== *)
(** * Properties of the virtual machine (core/vm)

    A transaction that calls or creates a contract ends: the run loop and all the
    contracts it calls stop without panic within as many rounds as there is gas.
    What fails is undone, the gas that is left does not exceed the gas that was
    given, and the refund counter stays within bounds. *)

From stdpp Require Import gmap.
From S2P Require Import Prelude Rlp RlpEncode Trie AccessList StateDB StateDBProofs StateDBSnapshots StateDBObserve StateDBEffects.
From S2P Require Import Uint256 VmAnalysis VmContract VmMemory VmGas VmPrecompiles VmInstructions VmJumpTable VmInterpreter VmGasProofs VmSstore.
From S2P Require Import VmRefund VmSupply VmState VmWp VmFrame VmInstrProofs VmInstrState VmGasTotal VmStep VmCalls VmTables VmPrecompileProofs VmErrors VmLoop VmRun.

Section Safety.
Context {B : Backend} {BL : BackendLaws B} {CS : CodeStore B} {U : Uint256} {UL : Uint256Laws U} {C : Crypto} {CL : CryptoLaws C} (env : Env).

(** A state between transactions: no snapshots, no refund, no pending writes. *)
Record ready (s : StateDB) : Prop := {
  rd_start : start s;
  rd_refund : refund s = 0;
  rd_settled : forall a k, cur s a k = orig s a k;
  rd_coded : coded s
}.

Lemma ready_New sn : ready (New sn).
Proof.
  split; [apply New_start|done|apply New_settled|]. intros a o E. apply code_ok_read. unfold live, look in E. cbn in E.
  rewrite lookup_empty in E. destruct (loaded (New sn) a) as [p|] eqn:Ep; [|done]. cbn in E. unfold loaded in Ep.
  apply bind_Some in Ep as (d & _ & [= <-]). cbn in E. by injection E as <-.
Qed.

Lemma settled_covered p s : 0 <= refund s -> (forall a k, cur s a k = orig s a k) -> covered p s.
Proof.
  intros Hr Hs l _. induction l as [|[b j] l IH]; [done|]. unfold total. cbn [foldr]. fold (total p s l).
  unfold owed_at at 1, owed. cbn. rewrite Hs, decide_False; lia.
Qed.

(** The gas that a transaction may have so that the refund counter cannot wrap. *)
Definition max_gas : Z := 2 ^ 64 / step_refund - 1.

(** Calls that a transaction makes before it runs a contract. *)
Lemma prepared s0 cs s : wf s0 -> Forall harmless cs -> execs s0 cs = Ret s -> evolves s0 s.
Proof.
  revert s0. induction cs as [|c cs IH]; intros s0 W Hc; cbn [execs]; [intros [= <-]; by apply evolves_refl|].
  apply Forall_cons_1 in Hc as [Hc Hcs]. destruct (exec s0 c) as [t| |] eqn:E; cbn [mbind outcome_bind]; try done. intros Et.
  pose proof (evolves_exec _ _ _ W Hc E) as H. eapply evolves_trans; [done|exact H|]. apply IH; [by eapply evolves_wf|done|done].
Qed.

Lemma ready_ok r s0 s gas : ready s0 -> evolves s0 s -> db_ok r [] (step_refund * (gas + 1)) (gas + 1) s.
Proof.
  intros [[W V] H2 H3 H4] E. apply (db_ok_evolves _ _ _ _ s0); [|done]. split; [by exists []| |lia|done|by split].
  unfold tracked. destruct (metering_of r); [|done]. apply settled_covered; [lia|done].
Qed.

Lemma ready_callable fuel s0 cs e a gas :
  ready s0 -> Forall harmless cs -> execs s0 cs = Ret (evm_db e) -> 0 <= gas < Z.of_nat fuel -> gas < max_gas ->
  callable [] (step_refund * (gas + 1)) (Z.of_nat fuel) gas e (AccountRef a).
Proof.
  intros H1 H2 H3 H4 H5. assert (E : max_gas = 461168601842737) by by vm_compute. split; [|unfold step_refund; lia|done|done].
  eapply ready_ok; [done|]. eapply prepared; [apply H1|done|done].
Qed.

(** C2: A call from a transaction ends.  From a state between transactions,
    prepared by calls other than writes of storage, with any fuel above the gas,
    [Call] returns: no panic, no exhaustion of the loop, for any code and any
    input, through all nested calls and creations.  It leaves at most the gas it
    was given, a well-formed state, and a refund bounded by the gas that was used. *)
Theorem Call_total fuel s0 cs e caller addr input gas value :
  ready s0 -> Forall harmless cs -> execs s0 cs = Ret (evm_db e) -> data_ok input -> 0 <= gas < Z.of_nat fuel -> gas < max_gas ->
  warm_in e addr -> 0 <= value ->
  exists e' cache ret gas' err,
    evm_Call (Evm := evm_at env fuel) e (AccountRef caller) addr input gas value = run (Ret (e', cache, (ret, gas', err))) /\
    0 <= gas' <= gas /\ wf (evm_db e') /\ 0 <= refund (evm_db e') <= step_refund * (gas + 1 - gas').
Proof.
  intros H1 H2 H3 H4 H5 H6 H7 H8. pose proof (ready_callable fuel s0 cs e caller gas H1 H2 H3 H5 H6) as Hc.
  destruct (fuel_good env fuel) as [_ Hf].
  destruct (ok_Call _ _ Hf _ _ _ _ addr input gas value Hc H4 H7 H8) as (e' & cache & ret & gas' & err & E & [K1 K2 K3 K4 K5 K6] & _).
  exists e', cache, ret, gas', err. split; [exact E|]. split; [done|]. split; [by eapply db_ok_wf|]. destruct K2 as [_ _ K2 _ _]. lia.
Qed.

(** C3: A call that fails is undone: the state afterwards is equivalent to the
    state before, whatever the code did and called.  The gas is gone, unless the
    code executed REVERT or the call did not take place at all. *)
Theorem Call_undone fuel s0 cs e caller addr input gas value e' cache ret gas' er :
  ready s0 -> Forall harmless cs -> execs s0 cs = Ret (evm_db e) -> data_ok input -> 0 <= gas < Z.of_nat fuel -> gas < max_gas ->
  warm_in e addr -> 0 <= value ->
  evm_Call (Evm := evm_at env fuel) e (AccountRef caller) addr input gas value = run (Ret (e', cache, (ret, gas', Some er))) ->
  eqv (evm_db e') (evm_db e) /\ (gas' = 0 \/ er ∈ [ErrExecutionReverted; ErrDepth; ErrInsufficientBalance]).
Proof.
  intros H1 H2 H3 H4 H5 H6 H7 H8 E. pose proof (ready_callable fuel s0 cs e caller gas H1 H2 H3 H5 H6) as Hc.
  destruct (fuel_good env fuel) as [_ Hf].
  destruct (ok_Call _ _ Hf _ _ _ _ addr input gas value Hc H4 H7 H8) as (e1 & cache1 & ret1 & gas1 & err1 & E1 & _ & _ & Hu).
  rewrite E in E1. injection E1 as <- <- <- <- <-. by apply Hu.
Qed.

(** CREATE and CREATE2 from a transaction end in the same way. *)
Theorem Create_total fuel s0 cs e caller code gas value salt :
  ready s0 -> Forall harmless cs -> execs s0 cs = Ret (evm_db e) -> data_ok code -> 0 <= gas < Z.of_nat fuel -> gas < max_gas ->
  0 <= value -> Forall (fun m => exists e' cache ret addr gas' err, m = run (Ret (e', cache, (ret, addr, gas', err))) /\
      0 <= gas' <= gas /\ wf (evm_db e') /\ 0 <= refund (evm_db e') <= step_refund * (gas + 1 - gas'))
    [evm_Create (Evm := evm_at env fuel) e (AccountRef caller) code gas value;
     evm_Create2 (Evm := evm_at env fuel) e (AccountRef caller) code gas value salt].
Proof.
  intros H1 H2 H3 H4 H5 H6 H7. pose proof (ready_callable fuel s0 cs e caller gas H1 H2 H3 H5 H6) as Hc.
  destruct (fuel_good env fuel) as [_ Hf].
  assert (K : forall m, create_spec [] (step_refund * (gas + 1)) gas e m -> exists e' cache ret addr gas' err,
    m = run (Ret (e', cache, (ret, addr, gas', err))) /\ 0 <= gas' <= gas /\ wf (evm_db e') /\
    0 <= refund (evm_db e') <= step_refund * (gas + 1 - gas')).
  { intros m (e' & cache & ret & addr & gas' & err & E & [K1 K2 K3 K4 K5 K6] & _). exists e', cache, ret, addr, gas', err.
    split; [exact E|]. split; [done|]. split; [by eapply db_ok_wf|]. destruct K2 as [_ _ K2 _ _]. lia. }
  constructor; [apply K, (ok_Create _ _ Hf); done|]. constructor; [apply K, (ok_Create2 _ _ Hf); done|constructor].
Qed.

(** C21: One round of the run loop is type-safe.  On a frame whose stack holds at
    most 1024 words of 256 bits, whose memory holds whole paid-for words of bytes,
    whose jump analyses are right and whose state satisfies the invariant, the
    round does not panic whatever the instruction, and when the loop goes on the
    frame is again such a frame, with less gas. *)
Theorem run_step_safe fuel st bound f :
  frame_at st bound (G f + 1) f -> bound < 2 ^ 64 -> G f <= Z.of_nat fuel ->
  exists f' r, run_step (E := evm_at env fuel) env f = run (Ret (f', r)) /\
    match r with
    | inr None => frame_at st bound (G f' + 1) f' /\ G f' < G f
    | inr (Some (res, _)) => data_ok res /\ 0 <= G f' <= G f
    | inl e => e <> ErrCodeStoreOutOfGas /\ 0 <= G f' <= G f
    end.
Proof.
  intros H Hb Hg. destruct (fuel_good env fuel) as [_ Hf].
  destruct (run_step_ok (Ev := evm_at env fuel) env (Z.of_nat fuel) st bound f Hf H Hb Hg) as (f' & r & E & Hr).
  exists f', r. split; [exact E|]. destruct r as [e|[[res rv]|]]; cbn [round_post] in Hr.
  - split; [by eapply neverX_run_step|apply Hr].
  - destruct Hr as [Hd [Hk _ _ Hz]]. split; [done|]. destruct Hk. lia.
  - destruct Hr as (K1 & _ & K2). done.
Qed.

End Safety.

(** ** The addresses of the precompiled contracts *)

Section Addresses.

Lemma fold_yolo a l : foldl (fun a k => mk_addresses (PrecompiledAddressesYoloV3 a ++ [k]) (PrecompiledAddressesIstanbul a)
    (PrecompiledAddressesByzantium a) (PrecompiledAddressesHomestead a)) a l
  = mk_addresses (PrecompiledAddressesYoloV3 a ++ l) (PrecompiledAddressesIstanbul a) (PrecompiledAddressesByzantium a) (PrecompiledAddressesHomestead a).
Proof. revert a. induction l as [|k l IH]; intros [x y z w]; cbn in *; [by rewrite app_nil_r|]. rewrite IH. cbn. by rewrite <- app_assoc. Qed.

Lemma fold_istanbul a l : foldl (fun a k => mk_addresses (PrecompiledAddressesYoloV3 a) (PrecompiledAddressesIstanbul a ++ [k])
    (PrecompiledAddressesByzantium a) (PrecompiledAddressesHomestead a)) a l
  = mk_addresses (PrecompiledAddressesYoloV3 a) (PrecompiledAddressesIstanbul a ++ l) (PrecompiledAddressesByzantium a) (PrecompiledAddressesHomestead a).
Proof. revert a. induction l as [|k l IH]; intros [x y z w]; cbn in *; [by rewrite app_nil_r|]. rewrite IH. cbn. by rewrite <- app_assoc. Qed.

Lemma fold_homestead a l : foldl (fun a k => mk_addresses (PrecompiledAddressesYoloV3 a) (PrecompiledAddressesIstanbul a)
    (PrecompiledAddressesByzantium a) (PrecompiledAddressesHomestead a ++ [k])) a l
  = mk_addresses (PrecompiledAddressesYoloV3 a) (PrecompiledAddressesIstanbul a) (PrecompiledAddressesByzantium a) (PrecompiledAddressesHomestead a ++ l).
Proof. revert a. induction l as [|k l IH]; intros [x y z w]; cbn in *; [by rewrite app_nil_r|]. rewrite IH. cbn. by rewrite <- app_assoc. Qed.

(** The loop over the Byzantium contracts overwrites the list of Homestead. *)
Lemma fold_byzantium a l k : foldl (fun a k => mk_addresses (PrecompiledAddressesYoloV3 a) (PrecompiledAddressesIstanbul a)
    (PrecompiledAddressesByzantium a) (PrecompiledAddressesByzantium a ++ [k])) a (l ++ [k])
  = mk_addresses (PrecompiledAddressesYoloV3 a) (PrecompiledAddressesIstanbul a) (PrecompiledAddressesByzantium a) (PrecompiledAddressesByzantium a ++ [k]).
Proof. revert a. induction l as [|x l IH]; intros a; [done|]. cbn [app foldl]. by rewrite IH. Qed.

Lemma find_precompile_elem x l : x ∈ map fst l <-> is_Some (find_precompile x l).
Proof.
  induction l as [|[a p] l IH]; cbn; [rewrite elem_of_nil; split; [done|by intros [? ?]]|]. rewrite elem_of_cons, IH.
  case (Z.eqb_spec a x) as [->|]; [split; [by eexists|by left]|]. split; [intros [->|]; done|by right].
Qed.

(** C40: What [ActivePrecompiles] lists.  Whatever the order in which [init]
    iterates over the maps, from Istanbul on these are exactly the addresses at
    which a call finds a precompiled contract.  For Byzantium the list is empty,
    and before it has one single address, one of the Byzantium contracts, because
    the second loop of [init] assigns to the wrong list. *)
Theorem ActivePrecompiles_init homestead byzantium istanbul yoloV3 r :
  homestead ≡ₚ map fst PrecompiledContractsHomestead -> byzantium ≡ₚ map fst PrecompiledContractsByzantium ->
  istanbul ≡ₚ map fst PrecompiledContractsIstanbul -> yoloV3 ≡ₚ map fst PrecompiledContractsYoloV3 ->
  let active := ActivePrecompiles (init homestead byzantium istanbul yoloV3) r in
  if IsYoloV3 r || IsIstanbul r then forall x, x ∈ active <-> is_Some (precompile r x)
  else if IsByzantium r then active = []
  else exists k, active = [k] /\ k ∈ map fst PrecompiledContractsByzantium.
Proof.
  intros Hh Hb Hi Hy active. destruct byzantium as [|k l _] using rev_ind; [apply Permutation_nil_l in Hb; discriminate Hb|].
  assert (E : init homestead (l ++ [k]) istanbul yoloV3 = mk_addresses yoloV3 istanbul [] [k]).
  { unfold init. by rewrite fold_homestead, fold_byzantium, fold_istanbul, fold_yolo. }
  unfold active, ActivePrecompiles, precompile, precompiles. rewrite E. cbn. destruct (IsYoloV3 r); cbn [orb].
  { intros x. rewrite Hy. apply find_precompile_elem. }
  destruct (IsIstanbul r); [intros x; rewrite Hi; apply find_precompile_elem|]. destruct (IsByzantium r); [done|].
  exists k. split; [done|]. rewrite <- Hb. apply elem_of_app. right. apply list_elem_of_here.
Qed.

Lemma ActivePrecompiles_init_witness :
  let active := ActivePrecompiles (init [1; 2; 3; 4] [1; 2; 3; 4; 5; 6; 7; 8] [1; 2; 3; 4; 5; 6; 7; 8; 9] (map fst PrecompiledContractsYoloV3))
    (mk_Rules true true true true false false false false false) in
  exists k, active = [k] /\ k ∈ map fst PrecompiledContractsByzantium.
Proof.
  apply (ActivePrecompiles_init [1; 2; 3; 4] [1; 2; 3; 4; 5; 6; 7; 8] [1; 2; 3; 4; 5; 6; 7; 8; 9] (map fst PrecompiledContractsYoloV3)
    (mk_Rules true true true true false false false false false)); reflexivity.
Defined.

End Addresses.

(** ** The return data of the identity contract *)

Section Identity.
Context {B : Backend} {U : Uint256} {UL : Uint256Laws U} {C : Crypto} (env : Env).
Context (interpret : EVM -> Contract -> bytes -> bool -> fuelled Empty_set run_result).
#[local] Instance identity_evm : Evm := make_evm env interpret.

Lemma lookup_slice (s : bytes) a n k : 0 <= a -> 0 <= k < n ->
  take (Z.to_nat n) (drop (Z.to_nat a) s) !! Z.to_nat k = s !! Z.to_nat (a + k).
Proof.
  intros Ha Hk. rewrite lookup_take_lt by lia. rewrite lookup_drop. f_equal. lia.
Qed.

Lemma getPtr_exact f off len :
  mem_good (mem f) -> covers f off len ->
  exists d, GetPtr (E:=Empty_set) (mem f) (i64 (Uint64 off)) (i64 (Uint64 len)) = Ret d /\ zlen d = len /\
    forall k, 0 <= k < len -> d !! Z.to_nat k = store (mem f) !! Z.to_nat (off + k).
Proof.
  intros Hm Hc. destruct (GetPtr_covers (E:=Empty_set) f off len Hm Hc) as (d & E & Hz & _). exists d.
  split; [done|]. split; [done|]. intros k Hk. destruct Hm as [Hm _], Hc as (Ho & Hl & [->|Hc]); [lia|].
  pose proof (mem_ok_len _ Hm). unfold is_u256 in *. unfold GetPtr in E.
  rewrite (proj2 (Uint64_id off ltac:(done) ltac:(lia))), (proj2 (Uint64_id len ltac:(done) ltac:(lia))) in E.
  rewrite decide_False, decide_True in E by lia. unfold go_slice in E. rewrite decide_True in E by (unfold Len in *; lia).
  injection E as <-. replace (off + len - off) with len by lia. apply lookup_slice; lia.
Qed.

(** The bytes that [copy_into] writes, and those that it keeps. *)
Lemma lookup_copy_into dst off size v i :
  0 <= off -> 0 <= size -> off + size <= zlen dst -> 0 <= i ->
  copy_into dst off size v !! Z.to_nat i =
  if decide (off <= i < off + Z.min size (zlen v)) then v !! Z.to_nat (i - off) else dst !! Z.to_nat i.
Proof.
  intros Ho Hs Hd Hi. unfold copy_into, zlen in *. case_decide as H.
  - rewrite lookup_app_r by (rewrite length_take; lia). rewrite lookup_app_l by (rewrite !length_take; lia).
    rewrite length_take, lookup_take_lt by lia. f_equal. lia.
  - destruct (decide (i < off)).
    + rewrite lookup_app_l by (rewrite length_take; lia). by rewrite lookup_take_lt by lia.
    + rewrite !lookup_app_r by (rewrite ?length_take; lia). rewrite !length_take, lookup_drop. f_equal. lia.
Qed.

Lemma Memory_Set_exact f off len v :
  mem_good (mem f) -> bytes_ok v -> covers f off len ->
  exists m, Memory_Set (E:=Empty_set) (mem f) (Uint64 off) (Uint64 len) v = Ret m /\ mem_like (mem f) m /\
    forall i, 0 <= i -> store m !! Z.to_nat i =
      if decide (off <= i < off + Z.min len (zlen v)) then v !! Z.to_nat (i - off) else store (mem f) !! Z.to_nat i.
Proof.
  intros Hm Hv (Ho & Hl & Hc). pose proof (mem_ok_len _ (proj1 Hm)). unfold is_u256 in *.
  rewrite (proj1 (Uint64_id len ltac:(done) ltac:(lia))). unfold Memory_Set. case_decide.
  - rewrite (proj1 (Uint64_id off ltac:(done) ltac:(lia))).
    rewrite (u64_id (off + len)) by (unfold is_u64; lia). rewrite decide_False by lia.
    unfold go_slice. rewrite decide_True by (unfold Len in *; lia). cbn [mbind outcome_bind].
    eexists. split; [done|]. split.
    + apply mem_like_store; [done|apply zlen_copy_into; unfold Len in *; lia|]. apply copy_into_bytes; [apply Hm|done].
    + intros i Hi. cbn [store]. apply lookup_copy_into; unfold Len in *; lia.
  - exists (mem f). split; [done|]. split; [by split|]. intros i Hi. by rewrite decide_False by lia.
Qed.

(** The return data of a call whose input is at [inOff] and whose output goes to
    [retOff]: byte [k] is that of the input, unless the output was copied over
    it; then it is the byte that the copy put there. *)
Definition reads_back (s : bytes) (inOff inSize retOff retSize : Z) (data : bytes) : Prop :=
  zlen data = inSize /\
  forall k, 0 <= k < inSize -> data !! Z.to_nat k = s !! Z.to_nat
    (if decide (retOff <= inOff + k < retOff + Z.min retSize inSize) then inOff + (inOff + k - retOff) else inOff + k).

Lemma finish_call_input f l args inOff inSize retOff retSize gas :
  stack f = rev l -> mem_good (mem f) -> covers f inOff inSize -> covers f retOff retSize ->
  GetPtr (E:=Empty_set) (mem f) (i64 (Uint64 inOff)) (i64 (Uint64 inSize)) = Ret args ->
  wp (finish_call args inOff inSize retOff retSize (InputSlice, gas, None)) f
    (fun _ r => exists data, r = inr data /\ reads_back (store (mem f)) inOff inSize retOff retSize data).
Proof.
  intros E Hm Hin Hret Ha. destruct (GetPtr_covers (E:=Empty_set) f _ _ Hm Hin) as (d & Ea & Hz & Hd).
  destruct (getPtr_exact f _ _ Hm Hin) as (d' & Ea' & _ & Hbytes).
  rewrite Ha in Ea, Ea'. injection Ea as <-. injection Ea' as <-.
  destruct (Memory_Set_exact f retOff retSize args Hm (proj1 Hd) Hret) as (m & Em & Hlike & Hset).
  unfold finish_call. wp_run. rewrite decide_True by (by left). eapply (wpM_set_memory _ _ m); [exact Em|].
  wp_run. unfold return_gas. wp_run. set (f' := set_contract _ _).
  destruct (getPtr_exact f' inOff inSize) as (data & Ed & Hzd & Hk); [apply Hlike|exact (covers_like f m _ _ Hlike Hin)|].
  eapply wpM_lift; [exact Ed|]. exists data. split; [done|]. split; [done|].
  intros k Hr. rewrite Hk by done. assert (0 <= inOff) by apply Hin.
  change (store (mem f')) with (store m). rewrite Hset by lia. rewrite Hz.
  case_decide; [|done]. apply Hbytes. lia.
Qed.

(** A call that hands its input back. *)
Definition hands_back (r : fuelled Empty_set call_result) : Prop :=
  exists e cache gas, r = run (Ret (e, cache, (InputSlice, gas, None))).

Lemma run_dataCopy snapshot e cache input gas :
  per_word IdentityBaseGas IdentityPerWordGas input <= gas ->
  hands_back (run_precompiled snapshot e cache dataCopy input gas).
Proof.
  intros Hg. unfold run_precompiled, RunPrecompiledContract. cbn [RequiredGas Run_precompile mbind outcome_bind].
  rewrite decide_False by lia. by repeat eexists.
Qed.

Lemma precompile_identity r : precompile r 4 = Some dataCopy.
Proof. unfold precompile, precompiles. by destruct (IsYoloV3 r), (IsIstanbul r), (IsByzantium r). Qed.

Lemma wp_call_back call f (Q : post (slice * Z * option vm_error)) :
  hands_back (call (evm_of f) (ContractCaller (contract f))) ->
  (forall e cache gas, Q (resume f e cache) (inr (InputSlice, gas, None))) -> wp (call_with call) f Q.
Proof.
  intros (e & cache & gas & E) HQ. eexists _, _. unfold call_with. rewrite E. split; [done|apply HQ].
Qed.

(** The calls that reach the identity contract. *)
Section Reach.
Context (e : EVM) (caller : ContractRef) (input : bytes) (gas : Z).
Hypothesis Hrec : no_recursion env e = false.
Hypothesis Hdepth : evm_depth e <= CallCreateDepth.
Hypothesis Hgas : per_word IdentityBaseGas IdentityPerWordGas input <= gas.

Lemma StaticCall_identity : hands_back (evm_StaticCall e caller 4 input gas).
Proof.
  cbn. unfold StaticCall. rewrite Hrec, decide_False by lia. destruct (Snapshot _).
  rewrite precompile_identity. by apply run_dataCopy.
Qed.

Lemma DelegateCall_identity : hands_back (evm_DelegateCall e caller 4 input gas).
Proof.
  cbn. unfold DelegateCall. rewrite Hrec, decide_False by lia. destruct (Snapshot _).
  rewrite precompile_identity. by apply run_dataCopy.
Qed.

Lemma Call_identity : hands_back (evm_Call e caller 4 input gas 0).
Proof.
  unfold evm_Call, identity_evm, make_evm, Call. rewrite Hrec, decide_False, decide_False by lia. cbn [negb].
  destruct (Snapshot _). rewrite precompile_identity. destruct (Exist _ _). rewrite (bool_decide_eq_false_2 (Some _ = None)) by done.
  rewrite andb_false_r. by apply run_dataCopy.
Qed.

End Reach.

(** C39: The return data of the identity contract is a view of the caller's
    memory at the time of the call's end, not a copy of the input.  For every
    frame whose memory covers the input and the output, with the gas of the
    contract, STATICCALL, DELEGATECALL and CALL without value return as many
    bytes as the input has; the bytes of the input that the copy of the output
    has overwritten are returned as overwritten, the others as they were. *)
Theorem identity_returndata_aliased f x addr inOff inSize retOff retSize l :
  mem_good (mem f) -> covers f inOff inSize -> covers f retOff retSize -> Bytes20 addr = 4 ->
  no_recursion env (evm_of f) = false -> depth f <= CallCreateDepth ->
  (inSize + 31) / 32 * IdentityPerWordGas + IdentityBaseGas <= callGasTemp f ->
  let returned_by op := exists f' data, op f = run (Ret (f', inr data)) /\
    reads_back (store (mem f)) inOff inSize retOff retSize data in
  (stack f = rev (x :: addr :: inOff :: inSize :: retOff :: retSize :: l) ->
     returned_by opStaticCall /\ returned_by opDelegateCall) /\
  (stack f = rev (x :: addr :: 0 :: inOff :: inSize :: retOff :: retSize :: l) -> returned_by opCall).
Proof.
  intros Hm Hin Hret H4 Hrec Hdepth Hgas returned_by.
  destruct (getPtr_exact f _ _ Hm Hin) as (args & Ea & Hz & _).
  assert (Hcost : per_word IdentityBaseGas IdentityPerWordGas args <= callGasTemp f).
  { unfold per_word. rewrite Hz. assert (0 <= inSize) by apply Hin.
    etrans; [apply Z.mod_le; [|done]|exact Hgas]. pose proof (Z.div_pos (inSize + 31) 32). lia. }
  assert (Hwp : forall op, wp op f (fun _ r => exists data, r = inr data /\
    reads_back (store (mem f)) inOff inSize retOff retSize data) -> returned_by op).
  { intros op (f' & r & E & data & -> & H). by exists f', data. }
  split; intros E; [split|]; apply Hwp; unfold opStaticCall, opDelegateCall, opCall, plain_call, value_call; wp_run;
    (eapply wpM_lift; [exact Ea|]); unfold after; rewrite ?H4; apply wp_bind.
  - apply wp_call_back; [by apply StaticCall_identity|]. intros e cache gas.
    exact (finish_call_input (resume (set_stack f (rev l)) e cache) l args inOff inSize retOff retSize gas eq_refl Hm Hin Hret Ea).
  - apply wp_call_back; [by apply DelegateCall_identity|]. intros e cache gas.
    exact (finish_call_input (resume (set_stack f (rev l)) e cache) l args inOff inSize retOff retSize gas eq_refl Hm Hin Hret Ea).
  - rewrite IsZero_spec, bool_decide_eq_true_2 by done.
    apply wp_call_back; [by apply Call_identity|]. intros e cache gas.
    exact (finish_call_input (resume (set_stack f (rev l)) e cache) l args inOff inSize retOff retSize gas eq_refl Hm Hin Hret Ea).
Qed.

End Identity.

(** ** Concrete runs *)

Module SafetyExamples.
Import ZUint256.

(** Codes are stored under a hash that encodes them. *)
Definition code_at (h : Z) : bytes := match h with Zpos p => default [] (decode p) | _ => [] end.
Definition hash_at (c : bytes) : Z := Zpos (encode c).

(** It writes 5 to slot 3, calls the identity contract, and returns 32 bytes. *)
Definition run_code : bytes :=
  [0x60; 5; 0x60; 3; 0x55; 0x60; 0; 0x60; 0; 0x60; 32; 0x60; 0; 0x60; 0; 0x60; 4; 0x61; 0x10; 0; 0xf1; 0x60; 32; 0x60; 0; 0xf3].

#[export] Instance vm_backend : Backend := {|
  STrie := Z;
  emptyRoot := 1;
  emptyCodeHash := hash_at [];
  hash_address a := a + 1000;
  hash_code := hash_at;
  snap_account h :=
    if decide (h = 1060) then Some (Some (mk_snapAccount 1 100 7 (Some (hash_at run_code))))
    else if decide (h = 1005) then Some (Some (mk_snapAccount 0 (10 ^ 18) 1 None))
    else Some None;
  trie_account a := Some [];
  decode_account _ := None;
  snap_storage h k := if decide (h = 1060 /\ k = 3) then Some [9] else Some [];
  open_storage _ root := Some root;
  empty_storage := 1;
  strie_get t k := Some [];
  read_code _ h := if decide (data_ok (code_at h)) then Some (code_at h) else None
|}.

#[export] Instance vm_laws : BackendLaws vm_backend.
Proof. intros a b. cbn. lia. Qed.

#[export] Instance vm_store : CodeStore vm_backend.
Proof.
  exists code_at.
  - intros c _. unfold hash_code, vm_backend, hash_at, code_at. by rewrite decode_encode.
  - intros ah h c. cbn. case_decide; [|done]. by intros [= <-].
Defined.

#[export] Instance vm_crypto : Crypto := {|
  Ecrecover _ _ := None;
  Keccak256 b := replicate 32 7;
  sha256_Sum256 b := replicate 32 1;
  ripemd160_Sum b := replicate 20 2;
  G1 := unit;
  G2 := unit;
  G1_Unmarshal _ := Some tt;
  G2_Unmarshal _ := Some tt;
  G1_Add _ _ := tt;
  G1_ScalarMult _ _ := tt;
  G1_Marshal _ := replicate 64 3;
  PairingCheck _ _ := true;
  blake2b_F h _ _ _ _ _ := h
|}.

#[export] Instance vm_crypto_laws : CryptoLaws vm_crypto.
Proof. split; try done; intros; (split; [by apply Forall_replicate|done]). Defined.

Definition vm_env : Env := mk_Env (fun _ => 0) 9 1000000 10 100 1 5 1 329 false false false.
Definition vm_rules : Rules := mk_Rules true true true true true true true true false.

Definition run_evm : EVM := mk_EVM vm_rules (New true) 0 0 false [].
Definition cs_evm : EVM := mk_EVM vm_rules (SetNonce (New true) 5 1) 0 0 false [].

(** A call of [run_code] by account 5, whose nonce the transaction has raised. *)
Lemma cs_prepared : execs (New true) [CSetNonce 5 1] = Ret (evm_db cs_evm).
Proof. reflexivity. Qed.

Lemma Call_total_witness :
  exists e' cache ret gas' err,
    evm_Call (Evm := evm_at vm_env (Z.to_nat 60001)) cs_evm (AccountRef 5) 60 [] 60000 0 = run (Ret (e', cache, (ret, gas', err))) /\
    0 <= gas' <= 60000 /\ wf (evm_db e') /\ 0 <= refund (evm_db e') <= step_refund * (60000 + 1 - gas').
Proof.
  apply (Call_total vm_env (Z.to_nat 60001) (New true) [CSetNonce 5 1] cs_evm 5 60 [] 60000 0).
  - apply ready_New.
  - repeat constructor.
  - reflexivity.
  - apply (bool_decide_unpack _). vm_compute. exact I.
  - lia.
  - by vm_compute.
  - intros H. discriminate H.
  - lia.
Defined.

Definition call_out (x : fuelled Empty_set call_result) : option (slice * Z * option vm_error) :=
  match x with Some (Ret (_, _, o)) => Some o | _ => None end.

Example run_code_returns : call_out (evm_Call (Evm := evm_at vm_env 100) cs_evm (AccountRef 5) 60 [] 60000 0)
  = Some (Fresh (replicate 32 0), 54246, None).
Proof. vm_compute. reflexivity. Qed.

(** The same call, with gas for the write but not for the call after it. *)
Lemma Call_undone_witness :
  exists e' cache ret gas' er,
    evm_Call (Evm := evm_at vm_env (Z.to_nat 5701)) cs_evm (AccountRef 5) 60 [] 5700 0 = run (Ret (e', cache, (ret, gas', Some er))) /\
    er = ErrOutOfGas /\ eqv (evm_db e') (evm_db cs_evm) /\ (gas' = 0 \/ er ∈ [ErrExecutionReverted; ErrDepth; ErrInsufficientBalance]).
Proof.
  assert (Ho : call_out (evm_Call (Evm := evm_at vm_env (Z.to_nat 5701)) cs_evm (AccountRef 5) 60 [] 5700 0)
    = Some (Fresh [], 0, Some ErrOutOfGas)) by (vm_compute; reflexivity).
  destruct (evm_Call _ _ _ _ _ _) as [[[[e' cache] o]| |]|] eqn:E; try discriminate Ho. injection Ho as ->.
  exists e', cache, (Fresh []), 0, ErrOutOfGas. split; [reflexivity|]. split; [reflexivity|].
  apply (Call_undone vm_env (Z.to_nat 5701) (New true) [CSetNonce 5 1] cs_evm 5 60 [] 5700 0 e' cache (Fresh []) 0 ErrOutOfGas).
  - apply ready_New.
  - repeat constructor.
  - reflexivity.
  - apply (bool_decide_unpack _). vm_compute. exact I.
  - lia.
  - by vm_compute.
  - intros H. discriminate H.
  - lia.
  - exact E.
Defined.

(** The code [PUSH1 0 PUSH1 0 RETURN] creates an empty contract. *)
Lemma Create_total_witness :
  Forall (fun m => exists e' cache ret addr gas' err, m = run (Ret (e', cache, (ret, addr, gas', err))) /\
      0 <= gas' <= 60000 /\ wf (evm_db e') /\ 0 <= refund (evm_db e') <= step_refund * (60000 + 1 - gas'))
    [evm_Create (Evm := evm_at vm_env (Z.to_nat 60001)) cs_evm (AccountRef 5) [0x60; 0; 0x60; 0; 0xf3] 60000 0;
     evm_Create2 (Evm := evm_at vm_env (Z.to_nat 60001)) cs_evm (AccountRef 5) [0x60; 0; 0x60; 0; 0xf3] 60000 0 8].
Proof.
  apply (Create_total vm_env (Z.to_nat 60001) (New true) [CSetNonce 5 1] cs_evm 5 [0x60; 0; 0x60; 0; 0xf3] 60000 0 8).
  - apply ready_New.
  - repeat constructor.
  - reflexivity.
  - apply (bool_decide_unpack _). vm_compute. exact I.
  - lia.
  - by vm_compute.
  - lia.
Defined.

(** [run_code] about to write its slot. *)
Definition step_contract : Contract := SetCallCode (NewContract 5 60 None 0 9000) 60 (hash_at run_code) run_code.
Definition step_frame : frame := mk_frame vm_rules (New true) 0 step_contract [5; 3] NewMemory [] 4 1 false [].

Lemma step_frame_at : frame_at [] (step_refund * 9001) 9001 step_frame.
Proof.
  split; cbn [stack mem contract pc returnData rules db step_frame]; try done.
  - by repeat constructor.
  - apply NewMemory_good.
  - split; [|split; [done|split; [apply data_ok_nil|]]].
    + split; [done|]. split; [intros _; unfold code_of, vm_store, step_contract; cbn [CodeHash SetCallCode Code]; unfold hash_at, code_at; by rewrite decode_encode|].
      split; [done|]. intros h a. cbn. by rewrite lookup_empty.
    + apply (bool_decide_unpack _). vm_compute. exact I.
  - apply (ready_ok _ (New true) (New true) 9000); [apply ready_New|apply evolves_refl, New_start].
Qed.

Lemma run_step_safe_witness :
  exists f' r, run_step (E := evm_at vm_env (Z.to_nat 9001)) vm_env step_frame = run (Ret (f', r)) /\
    match r with
    | inr None => frame_at [] (step_refund * 9001) (G f' + 1) f' /\ G f' < 9000
    | inr (Some (res, _)) => data_ok res /\ 0 <= G f' <= 9000
    | inl e => e <> ErrCodeStoreOutOfGas /\ 0 <= G f' <= 9000
    end.
Proof.
  apply (run_step_safe vm_env (Z.to_nat 9001) [] (step_refund * 9001) step_frame).
  - apply step_frame_at.
  - by vm_compute.
  - cbn. lia.
Defined.

(** The code stores 0xaa in byte 0 of the memory, calls the identity contract on
    the bytes 0 to 3 with its output going to [out], and returns the four bytes of
    RETURNDATACOPY. *)
Definition alias_code (out : Z) : bytes :=
  [0x60; 0xaa; 0x60; 0; 0x53; 0x60; 4; 0x60; out; 0x60; 4; 0x60; 0; 0x60; 0; 0x60; 4; 0x61; 0xff; 0xff; 0xf1;
   0x3d; 0x60; 0; 0x60; 0x40; 0x3e; 0x60; 4; 0x60; 0x40; 0xf3].
Definition alias_evm (out : Z) : EVM := mk_EVM vm_rules (SetCode (New true) 70 (alias_code out)) 0 0 false [].

(** With the output away from the input the contract reads back the four bytes
    that it passed; with the output at offset 1 it reads what the copy of the
    output has left there. *)
Example alias_code_returns :
  call_out (evm_Call (Evm := evm_at vm_env 100) (alias_evm 0x80) (AccountRef 5) 70 [] 100000 0)
    = Some (Fresh [0xaa; 0; 0; 0], 99217, None) /\
  call_out (evm_Call (Evm := evm_at vm_env 100) (alias_evm 1) (AccountRef 5) 70 [] 100000 0)
    = Some (Fresh [0xaa; 0xaa; 0; 0], 99223, None).
Proof. split; vm_compute; reflexivity. Qed.

(** A frame about to pass the bytes 0 to 3 of its memory, with the output going
    to offset 1. *)
Definition alias_memory : Memory := mk_Memory (0xaa :: replicate 31 0) 3.
Definition alias_frame : frame :=
  mk_frame vm_rules (New true) 1000 step_contract (rev [0; 4; 0; 4; 1; 4]) alias_memory [] 0 1 false [].

Lemma identity_returndata_aliased_witness :
  exists f' data, opStaticCall (E := make_evm vm_env (fun _ _ _ _ => out_of_fuel)) alias_frame = run (Ret (f', inr data)) /\
    reads_back (0xaa :: replicate 31 0) 0 4 1 4 data.
Proof.
  refine (proj1 (proj1 (identity_returndata_aliased vm_env (fun _ _ _ _ => out_of_fuel) alias_frame 0 4 0 4 1 4 []
    _ _ _ _ _ _ _) eq_refl)).
  - split; [exists 1; split; [lia|split; vm_compute; reflexivity]|]. apply (bool_decide_unpack _). vm_compute. exact I.
  - split; [done|]. split; [done|]. right. by vm_compute.
  - split; [done|]. split; [done|]. right. by vm_compute.
  - vm_compute. reflexivity.
  - vm_compute. reflexivity.
  - by vm_compute.
  - by vm_compute.
Defined.

(** 3^5 mod 7, with lengths of one byte. *)
Definition modexp_input : bytes := replicate 31 0 ++ [1] ++ replicate 31 0 ++ [1] ++ replicate 31 0 ++ [1] ++ [3; 5; 7].

Lemma bigModExp_correct_witness :
  exists out, RunPrecompiledContract (bigModExp true) modexp_input 1000 = Ret (Fresh out, 800, None) /\
    zlen out = mod_len modexp_input /\ be_to_Z out = modexp_value modexp_input.
Proof.
  apply (bigModExp_correct true modexp_input 1000 200).
  - apply (bool_decide_unpack _). vm_compute. exact I.
  - vm_compute. reflexivity.
  - by vm_compute.
Defined.

End SafetyExamples.
