(* ===== verification/StateTransition.v ===== *)
(** * Applying messages to the state (core/state_transition.go, gaspool.go, state_processor.go)

    [TransitionDb] buys the gas of a message from the sender and from the pool of
    the block, runs the message on the virtual machine, and gives back what is
    left; [applyTransaction] prepares and finalises the state around it, and
    [apply_all] is the loop of [Process] over the transactions of a block. *)

From stdpp Require Import gmap.
From S2P Require Import Prelude Rlp RlpEncode Trie AccessList StateDB Uint256 VmAnalysis VmContract VmMemory VmGas VmPrecompiles.
From S2P Require Import VmInstructions VmJumpTable VmInterpreter.

(** ** core/error.go *)

Module Core.

Inductive error :=
| ErrNonceTooLow
| ErrNonceTooHigh
| ErrGasLimitReached
| ErrInsufficientFundsForTransfer
| ErrInsufficientFunds
| ErrGasUintOverflow
| ErrIntrinsicGas.

End Core.

#[global] Instance core_error_dec : EqDecision Core.error.
Proof. solve_decision. Defined.

(** ** core/gaspool.go *)

Definition GasPool : Type := Z.

Definition AddGas (gp : GasPool) (amount : Z) : outcome Empty_set GasPool :=
  if decide (gp > MaxUint64 - amount) then Panic else Ret (gp + amount).

Definition SubGas (gp : GasPool) (amount : Z) : Core.error + GasPool :=
  if decide (gp < amount) then inl Core.ErrGasLimitReached else inr (gp - amount).

(** ** core/state_transition.go *)

Record Message := mk_Message {
  From : Z;
  To : option Z;
  msg_GasPrice : Z;
  msg_Gas : Z;
  msg_Value : Z;
  msg_Nonce : Z;
  CheckNonce : bool;
  msg_Data : bytes
}.

Record ExecutionResult := mk_result {
  UsedGas : Z;
  result_Err : option vm_error;
  ReturnData : bytes
}.

Definition Failed (r : ExecutionResult) : bool := bool_decide (result_Err r <> None).

Definition Return (r : ExecutionResult) : bytes := match result_Err r with None => ReturnData r | Some _ => [] end.

Definition Revert (r : ExecutionResult) : bytes :=
  if decide (result_Err r = Some ErrExecutionReverted) then ReturnData r else [].

Definition TxGas : Z := 21000.
Definition TxGasContractCreation : Z := 53000.
Definition TxDataZeroGas : Z := 4.
Definition TxDataNonZeroGasFrontier : Z := 68.
Definition TxDataNonZeroGasEIP2028 : Z := 16.

(** The loop that counts the bytes that are not zero. *)
Definition nonzero_bytes (data : bytes) : Z := fold_left (fun nz b => if decide (b <> 0) then u64 (nz + 1) else nz) data 0.

Definition IntrinsicGas (data : bytes) (contractCreation isHomestead isEIP2028 : bool) : Core.error + Z :=
  let gas := if contractCreation && isHomestead then TxGasContractCreation else TxGas in
  if decide (zlen data > 0) then
    let nz := nonzero_bytes data in
    let nonZeroGas := if isEIP2028 then TxDataNonZeroGasEIP2028 else TxDataNonZeroGasFrontier in
    if decide ((MaxUint64 - gas) / nonZeroGas < nz) then inl Core.ErrGasUintOverflow
    else
      let gas := u64 (gas + u64 (nz * nonZeroGas)) in
      let z := u64 (u64 (zlen data) - nz) in
      if decide ((MaxUint64 - gas) / TxDataZeroGas < z) then inl Core.ErrGasUintOverflow
      else inr (u64 (gas + u64 (z * TxDataZeroGas)))
  else inr gas.

Section Transition.
Context {B : Backend} {U : Uint256} {C : Crypto}.

Record StateTransition := mk_transition {
  gp : GasPool;
  msg : Message;
  st_gas : Z;
  initialGas : Z;
  st_evm : EVM
}.

Definition NewStateTransition (e : EVM) (m : Message) (g : GasPool) : StateTransition := mk_transition g m 0 0 e.

Definition st_state (st : StateTransition) : StateDB := evm_db (st_evm st).
Definition set_state (st : StateTransition) (s : StateDB) : StateTransition :=
  mk_transition (gp st) (msg st) (st_gas st) (initialGas st) (set_evm_db (st_evm st) s).
Definition set_st_gas (st : StateTransition) (g : Z) : StateTransition := mk_transition (gp st) (msg st) g (initialGas st) (st_evm st).
Definition set_evm (st : StateTransition) (e : EVM) (g : Z) : StateTransition := mk_transition (gp st) (msg st) g (initialGas st) e.

Definition gasUsed (st : StateTransition) : Z := u64 (initialGas st - st_gas st).

Definition buyGas (st : StateTransition) : StateTransition * option Core.error :=
  let m := msg st in
  let mgval := msg_Gas m * msg_GasPrice m in
  let '(have, s) := GetBalance (st_state st) (From m) in
  let st := set_state st s in
  if decide (have < mgval) then (st, Some Core.ErrInsufficientFunds)
  else
    match SubGas (gp st) (msg_Gas m) with
    | inl e => (st, Some e)
    | inr g => (mk_transition g m (u64 (st_gas st + msg_Gas m)) (msg_Gas m) (set_evm_db (st_evm st) (SubBalance s (From m) mgval)), None)
    end.

Definition preCheck (st : StateTransition) : StateTransition * option Core.error :=
  let m := msg st in
  if CheckNonce m then
    let '(stNonce, s) := GetNonce (st_state st) (From m) in
    let st := set_state st s in
    if decide (stNonce < msg_Nonce m) then (st, Some Core.ErrNonceTooHigh)
    else if decide (stNonce > msg_Nonce m) then (st, Some Core.ErrNonceTooLow)
    else buyGas st
  else buyGas st.

Definition refundGas (st : StateTransition) : outcome Empty_set StateTransition :=
  let half := gasUsed st / 2 in
  let refund := if decide (half > refund (st_state st)) then refund (st_state st) else half in
  let gas := u64 (st_gas st + refund) in
  let s := AddBalance (st_state st) (From (msg st)) (gas * msg_GasPrice (msg st)) in
  g ← AddGas (gp st) gas;
  Ret (mk_transition g (msg st) gas (initialGas st) (set_evm_db (st_evm st) s)).

Section Db.
Context {E : Evm} (env : Env).

(** The message on the virtual machine: a creation, or a call after the nonce of
    the sender has been raised. *)
Definition run_message (st : StateTransition) : fuelled Empty_set (StateTransition * (bytes * option vm_error)) :=
  let m := msg st in
  let sender := AccountRef (From m) in
  match To m with
  | None =>
      r ← evm_Create (st_evm st) sender (msg_Data m) (st_gas st) (msg_Value m);
      let '(e, _, (ret, _, gas, vmerr)) := r in
      run (Ret (set_evm st e gas, (ret, vmerr)))
  | Some to =>
      let '(nonce, s) := GetNonce (st_state st) (From m) in
      let st := set_state st (SetNonce s (From m) (u64 (nonce + 1))) in
      r ← evm_Call (st_evm st) sender to (msg_Data m) (st_gas st) (msg_Value m);
      let '(e, _, (ret, gas, vmerr)) := r in
      run (Ret (set_evm st e gas, (content (msg_Data m) ret, vmerr)))
  end.

Definition TransitionDb (st : StateTransition) : fuelled Empty_set (StateTransition * (Core.error + ExecutionResult)) :=
  let '(st, err) := preCheck st in
  match err with
  | Some e => run (Ret (st, inl e))
  | None =>
      let m := msg st in
      let r := chainRules (st_evm st) in
      match IntrinsicGas (msg_Data m) (bool_decide (To m = None)) (IsHomestead r) (IsIstanbul r) with
      | inl e => run (Ret (st, inl e))
      | inr gas =>
          if decide (st_gas st < gas) then run (Ret (st, inl Core.ErrIntrinsicGas))
          else
            let st := set_st_gas st (st_gas st - gas) in
            let '(can, s) := if decide (msg_Value m > 0) then CanTransfer (st_state st) (From m) (msg_Value m) else (true, st_state st) in
            let st := set_state st s in
            if negb can then run (Ret (st, inl Core.ErrInsufficientFundsForTransfer))
            else
              r ← run_message st;
              let '(st, (ret, vmerr)) := r in
              st ← run (refundGas st);
              let st := set_state st (AddBalance (st_state st) (Coinbase env) (gasUsed st * msg_GasPrice m)) in
              run (Ret (st, inr (mk_result (gasUsed st) vmerr ret)))
      end
  end.

Definition ApplyMessage (e : EVM) (m : Message) (g : GasPool) := TransitionDb (NewStateTransition e m g).

End Db.

(** ** core/state_processor.go *)

(** evm.go, [Reset]: the transaction part of the context of the virtual machine. *)
Definition with_tx (env : Env) (m : Message) : Env :=
  mk_Env (GetHash env) (Coinbase env) (GasLimit env) (BlockNumber env) (Time env) (Difficulty env) (From m) (msg_GasPrice m)
    (ChainID env) (NoRecursion env) (EnablePreimageRecording env) (abort env).

Record Receipt := mk_Receipt {
  Status : Z;
  CumulativeGasUsed : Z;
  rcpt_GasUsed : Z;
  rcpt_TxHash : Z;
  ContractAddress : Z;
  rcpt_Logs : list Log;
  rcpt_BlockHash : Z;
  TransactionIndex : Z
}.

(** A transaction of a block: its hash and nonce, the message that [AsMessage]
    recovers from it, and the order in which [Finalise] ranges over the accounts
    that it makes dirty. *)
Record Transaction := mk_tx {
  tx_Hash : Z;
  tx_Nonce : Z;
  AsMessage : option Message;
  tx_order : StateDB -> list Z
}.

Inductive process_error := InvalidSender | CouldNotApply (e : Core.error).

(** The access list of a transaction. *)
Definition prepare_access (addresses : PrecompiledAddresses) (r : Rules) (m : Message) (s : StateDB) : StateDB :=
  if IsYoloV3 r then
    let s := AddAddressToAccessList s (From m) in
    let s := match To m with Some dst => AddAddressToAccessList s dst | None => s end in
    fold_left AddAddressToAccessList (ActivePrecompiles addresses r) s
  else s.

(** From Byzantium on, where the receipt has a status instead of a state root. *)
Definition applyTransaction (env : Env) (fuel : nat) (addresses : PrecompiledAddresses) (e : EVM) (g : GasPool) (usedGas : Z)
    (tx : Transaction) (m : Message) : fuelled Empty_set (EVM * GasPool * Z * (Core.error + Receipt)) :=
  let s := prepare_access addresses (chainRules e) m (evm_db e) in
  let env := with_tx env m in
  r ← ApplyMessage (E := evm_at env fuel) env (set_evm_db e s) m g;
  let '(st, res) := r in
  match res with
  | inl err => run (Ret (st_evm st, gp st, usedGas, inl err))
  | inr result =>
      let s := Finalise (st_state st) true (tx_order tx (st_state st)) in
      let usedGas := u64 (usedGas + UsedGas result) in
      address ← (match To m with None => run (CreateAddress (Origin env) (tx_Nonce tx)) | Some _ => run (Ret 0) end);
      let receipt := mk_Receipt (if Failed result then 0 else 1) usedGas (UsedGas result) (tx_Hash tx) address
                       (default [] (logs s !! tx_Hash tx)) (bhash s) (txIndex s) in
      run (Ret (set_evm_db (st_evm st) s, gp st, usedGas, inr receipt))
  end.

(** The loop of [Process] over the transactions, from index [i]. *)
Fixpoint apply_all (env : Env) (fuel : nat) (addresses : PrecompiledAddresses) (blockHash : Z) (e : EVM) (g : GasPool) (usedGas i : Z)
    (txs : list Transaction) : fuelled Empty_set (EVM * GasPool * Z * (process_error + list Receipt)) :=
  match txs with
  | [] => run (Ret (e, g, usedGas, inr []))
  | tx :: txs =>
      match AsMessage tx with
      | None => run (Ret (e, g, usedGas, inl InvalidSender))
      | Some m =>
          let e := set_evm_db e (Prepare (evm_db e) (tx_Hash tx) blockHash i) in
          r ← applyTransaction env fuel addresses e g usedGas tx m;
          let '(e, g, usedGas, res) := r in
          match res with
          | inl err => run (Ret (e, g, usedGas, inl (CouldNotApply err)))
          | inr receipt =>
              r ← apply_all env fuel addresses blockHash e g usedGas (i + 1) txs;
              let '(e, g, usedGas, res) := r in
              run (Ret (e, g, usedGas, match res with inr l => inr (receipt :: l) | inl err => inl err end))
          end
      end
  end.

End Transition.
