(* ===== verification/StateTransitionProofs.v ===== *)
(** * Gas and ether in a transaction (core/state_transition.go)

    Applying a message never panics; the gas that a message uses is what it takes
    from the pool of the block; and whatever contracts run, the transaction does
    not make ether: the fee that is bought is exactly split between the sender
    and the coinbase. *)

From stdpp Require Import gmap.
From S2P Require Import Prelude Rlp RlpEncode Trie AccessList StateDB StateDBProofs StateDBSnapshots StateDBObserve StateDBEffects.
From S2P Require Import Uint256 VmAnalysis VmContract VmMemory VmGas VmPrecompiles VmInstructions VmJumpTable VmInterpreter VmGasProofs VmSstore.
From S2P Require Import VmRefund VmSupply VmState VmWp VmFrame VmStep VmCalls VmPrecompileProofs VmRun VmSafety StateTransition.

(** ** Intrinsic gas *)

Definition nonzeros (data : bytes) : Z := zlen (filter (fun b => b <> 0) data).

Lemma nonzero_bytes_spec data : zlen data < 2 ^ 63 -> nonzero_bytes data = nonzeros data.
Proof.
  intros Hz. unfold nonzero_bytes, nonzeros.
  assert (G : forall n, 0 <= n -> n + zlen data < 2 ^ 64 ->
    fold_left (fun nz b => if decide (b <> 0) then u64 (nz + 1) else nz) data n = n + zlen (filter (fun b => b <> 0) data)).
  { clear Hz. induction data as [|b data IH]; intros n Hn Hl; cbn [fold_left]; [rewrite filter_nil; change (zlen (@nil Z)) with 0; lia|].
    rewrite zlen_cons in Hl. rewrite filter_cons. case_decide.
    - rewrite u64_id by (unfold is_u64; unfold zlen in *; lia). rewrite IH, zlen_cons by lia. lia.
    - apply IH; lia. }
  rewrite G by lia. lia.
Qed.

Lemma nonzeros_le data : 0 <= nonzeros data <= zlen data.
Proof. unfold nonzeros, zlen. pose proof (length_filter (fun b => b <> 0) data). lia. Qed.

(** The price of the data over the integers. *)
Definition exact_gas (data : bytes) (contractCreation isHomestead isEIP2028 : bool) : Z :=
  (if contractCreation && isHomestead then TxGasContractCreation else TxGas) +
  nonzeros data * (if isEIP2028 then TxDataNonZeroGasEIP2028 else TxDataNonZeroGasFrontier) +
  (zlen data - nonzeros data) * TxDataZeroGas.

Lemma div_lt a b n : 0 < b -> (a / b < n <-> a < n * b).
Proof. intros Hb. split; intros H; [|apply Z.div_lt_upper_bound; lia]. pose proof (Z.mul_succ_div_gt a b Hb). nia. Qed.

Lemma exact_gas_nonneg data creation homestead eip2028 : 0 <= exact_gas data creation homestead eip2028.
Proof.
  unfold exact_gas. pose proof (nonzeros_le data). unfold TxDataZeroGas.
  destruct (creation && homestead), eip2028; unfold TxGasContractCreation, TxGas, TxDataNonZeroGasEIP2028, TxDataNonZeroGasFrontier; lia.
Qed.

Lemma IntrinsicGas_eq data creation homestead eip2028 :
  zlen data < 2 ^ 63 ->
  IntrinsicGas data creation homestead eip2028 =
    let gas := exact_gas data creation homestead eip2028 in
    if decide (gas < 2 ^ 64) then inr gas else inl Core.ErrGasUintOverflow.
Proof.
  intros Hz. unfold IntrinsicGas, exact_gas. cbv zeta. pose proof (nonzeros_le data) as Hn.
  set (base := if creation && homestead then _ else _). set (price := if eip2028 then _ else _).
  assert (Hb : 0 <= base < 2 ^ 16) by (unfold base; by destruct (creation && homestead)).
  assert (Hp : 0 < price < 2 ^ 7) by (unfold price; by destruct eip2028).
  rewrite nonzero_bytes_spec by done. set (nz := nonzeros data) in *. set (n := zlen data) in *.
  case_decide as H0.
  2: { assert (En : n = 0) by lia. assert (Ez : nz = 0) by lia. rewrite En, Ez. rewrite decide_True by lia. f_equal. lia. }
  assert (D1 : (MaxUint64 - base) / price < nz <-> MaxUint64 - base < nz * price) by (apply div_lt; lia).
  unfold MaxUint64 in *. case_decide as H1; [rewrite decide_False; [done|]; apply D1 in H1; unfold TxDataZeroGas; nia|].
  assert (H1' : nz * price <= 2 ^ 64 - 1 - base) by (destruct D1; lia).
  rewrite (u64_id (nz * price)), (u64_id (base + nz * price)), (u64_id n), (u64_id (n - nz)) by (unfold is_u64; nia).
  assert (D2 : (2 ^ 64 - 1 - (base + nz * price)) / TxDataZeroGas < n - nz <-> 2 ^ 64 - 1 - (base + nz * price) < (n - nz) * TxDataZeroGas).
  { apply div_lt. done. }
  case_decide as H2; [rewrite decide_False; [done|]; apply D2 in H2; lia|].
  assert (H2' : (n - nz) * TxDataZeroGas <= 2 ^ 64 - 1 - (base + nz * price)) by (destruct D2; lia).
  unfold TxDataZeroGas in *. rewrite (u64_id ((n - nz) * 4)), u64_id by (unfold is_u64; nia). by rewrite decide_True by lia.
Qed.

(** The gas that a transaction costs before it runs is the price of its bytes
    over the integers, or an error exactly when that does not fit in 64 bits. *)
Theorem IntrinsicGas_exact data creation homestead eip2028 :
  zlen data < 2 ^ 63 ->
  IntrinsicGas data creation homestead eip2028 =
    let gas := exact_gas data creation homestead eip2028 in
    if decide (gas < 2 ^ 64) then inr gas else inl Core.ErrGasUintOverflow.
Proof. apply IntrinsicGas_eq. Qed.

Lemma IntrinsicGas_exact_witness :
  IntrinsicGas [0; 7] true true true = inr 53020.
Proof. apply (IntrinsicGas_exact [0; 7] true true true). reflexivity. Defined.

Section Transition.
Context {B : Backend} {BL : BackendLaws B} {CS : CodeStore B} {U : Uint256} {UL : Uint256Laws U} {C : Crypto} {CL : CryptoLaws C}.
Implicit Types (s t : StateDB) (e : EVM) (st : StateTransition) (m : Message).

(** What a signed transaction guarantees of its message. *)
Record message_ok m : Prop := {
  mo_gas : 0 <= msg_Gas m < max_gas;
  mo_price : 0 <= msg_GasPrice m;
  mo_value : 0 <= msg_Value m;
  mo_data : data_ok (msg_Data m)
}.

(** ** Before the message *)

(** The sender has paid for all the gas of the message in advance. *)
Record bought st st' : Prop := {
  bt_pool : gp st' = gp st - msg_Gas (msg st) /\ msg_Gas (msg st) <= gp st;
  bt_msg : msg st' = msg st;
  bt_gas : st_gas st' = u64 (st_gas st + msg_Gas (msg st)) /\ initialGas st' = msg_Gas (msg st);
  bt_evm : st_evm st' = set_evm_db (st_evm st) (st_state st');
  bt_state : evolves (st_state st) (st_state st');
  bt_funds : msg_Gas (msg st) * msg_GasPrice (msg st) <= balance (st_state st) (From (msg st));
  bt_balance : forall b, balance (st_state st') b =
    balance (st_state st) b + if decide (b = From (msg st)) then - (msg_Gas (msg st) * msg_GasPrice (msg st)) else 0
}.

(** The message is refused, and nothing has been charged. *)
Record refused st st' : Prop := {
  rf_pool : gp st' = gp st;
  rf_evm : st_evm st' = set_evm_db (st_evm st) (st_state st');
  rf_state : quiet (st_state st) (st_state st')
}.

(** The errors of a message for which nothing has been charged. *)
Definition early (err : Core.error) : bool :=
  match err with
  | Core.ErrNonceTooLow | Core.ErrNonceTooHigh | Core.ErrGasLimitReached | Core.ErrInsufficientFunds => true
  | _ => false
  end.

Lemma buyGas_spec st : wf (st_state st) -> message_ok (msg st) ->
  let '(st', err) := buyGas st in
  match err with Some er => refused st st' /\ early er = true | None => bought st st' end.
Proof.
  intros W [Hg Hp Hv Hd]. unfold buyGas. pose proof (GetBalance_balance (st_state st) (From (msg st))) as Eb.
  pose proof (GetBalance_quiet (st_state st) (From (msg st))) as Q. destruct (GetBalance (st_state st) (From (msg st))) as [have s1].
  cbn in Eb, Q. subst have. case_decide as H1; [by split_and!|]. unfold SubGas. cbn [gp set_state]. case_decide as H2; [by split_and!|].
  pose proof (quiet_wf _ _ W Q) as W1. pose proof (balance_quiet _ _ (From (msg st)) Q) as E1.
  split; [cbn; lia|done|done|done| |lia|].
  - eapply evolves_trans; [done|by apply evolves_quiet|]. apply SubBalance_evolves; [done|]. nia.
  - intros b. change (st_state (mk_transition _ _ _ _ _)) with (SubBalance s1 (From (msg st)) (msg_Gas (msg st) * msg_GasPrice (msg st))).
    rewrite SubBalance_balance by done. rewrite (balance_quiet _ _ b Q). case_decide; lia.
Qed.

Lemma preCheck_spec st : wf (st_state st) -> message_ok (msg st) ->
  let '(st', err) := preCheck st in
  match err with Some er => refused st st' /\ early er = true | None => bought st st' end.
Proof.
  intros W Hm. unfold preCheck. destruct (CheckNonce (msg st)); [|by apply buyGas_spec].
  pose proof (GetNonce_quiet (st_state st) (From (msg st))) as Q.
  destruct (GetNonce (st_state st) (From (msg st))) as [n s1]. cbn in Q.
  case_decide; [by split_and!|]. case_decide; [by split_and!|]. pose proof (quiet_wf _ _ W Q) as W1.
  pose proof (buyGas_spec (set_state st s1) W1 Hm) as HB. destruct (buyGas (set_state st s1)) as [st' [err|]].
  - destruct HB as [[H1 H2 H3] He]. split; [|done]. split; [done|done|]. by etrans.
  - destruct HB as [H1 H2 H3 H4 H5 H6 H7]. split; try done.
    + eapply evolves_trans; [done|by apply evolves_quiet|done].
    + by rewrite <- (balance_quiet _ _ _ Q).
    + intros b. rewrite H7. by rewrite <- (balance_quiet _ _ b Q).
Qed.

(** ** The message *)

Variable env : Env.

(** What running the message on the virtual machine leaves. *)
Record ran_message st st' : Prop := {
  rm_frame : gp st' = gp st /\ msg st' = msg st /\ initialGas st' = initialGas st /\ chainRules (st_evm st') = chainRules (st_evm st);
  rm_gas : 0 <= st_gas st' <= st_gas st;
  rm_db : db_ok (chainRules (st_evm st)) [] (step_refund * (st_gas st + 1)) (st_gas st') (st_state st');
  rm_thrifty : thrifty (st_state st) (st_state st')
}.

Lemma evolves_callable fuel s0 e a gas :
  ready s0 -> evolves s0 (evm_db e) -> 0 <= gas < Z.of_nat fuel -> gas < max_gas ->
  callable [] (step_refund * (gas + 1)) (Z.of_nat fuel) gas e (AccountRef a).
Proof.
  intros H1 H2 H4 H5. assert (E : max_gas = 461168601842737) by by vm_compute. split; [|unfold step_refund; lia|done|done].
  by eapply ready_ok.
Qed.

Lemma run_message_spec fuel s0 st :
  ready s0 -> evolves s0 (st_state st) -> 0 <= st_gas st < Z.of_nat fuel -> st_gas st < max_gas ->
  data_ok (msg_Data (msg st)) -> 0 <= msg_Value (msg st) -> (forall to, To (msg st) = Some to -> warm_in (st_evm st) to) ->
  exists st' ret err, run_message (E := evm_at env fuel) st = run (Ret (st', (ret, err))) /\ ran_message st st'.
Proof.
  intros R Ev Hf Hg Hd Hv Hw. destruct (fuel_good env fuel) as [_ Hok]. pose proof (evolves_wf _ _ Ev) as W. unfold run_message.
  destruct (To (msg st)) as [to|].
  - pose proof (GetNonce_quiet (st_state st) (From (msg st))) as Q. destruct (GetNonce (st_state st) (From (msg st))) as [n s1]. cbn in Q.
    set (t := SetNonce s1 _ _). assert (Et : evolves (st_state st) t).
    { eapply evolves_trans; [done|by apply evolves_quiet|].
      eapply (evolves_exec _ (CSetNonce _ _)); [by eapply quiet_wf|by apply harmless_read|done]. }
    assert (E0 : evolves s0 t) by (eapply evolves_trans; [apply R|exact Ev|exact Et]).
    pose proof (evolves_callable fuel s0 (set_evm_db (st_evm st) t) (From (msg st)) (st_gas st) R E0 Hf Hg) as Hc.
    assert (Hw' : warm_in (set_evm_db (st_evm st) t) to) by (intros Hy; apply (ev_warms _ _ Et), Hw; done).
    destruct (ok_Call _ _ Hok _ _ _ _ to (msg_Data (msg st)) (st_gas st) (msg_Value (msg st)) Hc Hd Hw' Hv)
      as (e' & cache & ret & gas' & err & E & [K1 K2 K3 K4 K5 K6] & _).
    exists (set_evm st e' gas'), (content (msg_Data (msg st)) ret), err. cbn [set_state st_evm]. change (st_gas (set_state st t)) with (st_gas st).
    rewrite E. split; [done|]. split; [done|done|exact K2|]. etrans; [apply Et|apply K3].
  - pose proof (evolves_callable fuel s0 (st_evm st) (From (msg st)) (st_gas st) R Ev Hf Hg) as Hc.
    destruct (ok_Create _ _ Hok _ _ _ _ (msg_Data (msg st)) (st_gas st) (msg_Value (msg st)) Hc Hd Hv)
      as (e' & cache & ret & addr & gas' & err & E & [K1 K2 K3 K4 K5 K6] & _).
    exists (set_evm st e' gas'), ret, err. rewrite E. split; [done|]. split; [done|done|exact K2|apply K3].
Qed.

(** ** After the message *)

(** The fees: the sender gets the price of the gas that is left and the coinbase
    that of the gas that was used, which together is the price of all the gas. *)
Lemma fees_thrifty s s1 t t1 t2 a c total left price :
  (forall b, balance s1 b = balance s b + if decide (b = a) then - (total * price) else 0) -> 0 <= total * price <= balance s a ->
  thrifty s1 t ->
  (forall b, balance t1 b = balance t b + if decide (b = a) then left * price else 0) ->
  (forall b, balance t2 b = balance t1 b + if decide (b = c) then (total - left) * price else 0) ->
  0 <= left <= total -> 0 <= price -> thrifty s t2.
Proof.
  intros H1 Hb H2 H3 H4 Hl Hp Hs. assert (S1 : solvent s1).
  { intros b. specialize (Hs b). rewrite H1. case_decide; subst; lia. }
  destruct (H2 S1) as [St [l0 Hl0]]. split.
  - intros b. specialize (St b). rewrite H4, H3. repeat case_decide; nia.
  - exists (a :: c :: l0). intros l Hn Hsub. specialize (Hl0 l Hn ltac:(set_solver)).
    rewrite (supply_change l t1 t2 c ((total - left) * price)) by (done || set_solver).
    rewrite (supply_change l t t1 a (left * price)) by (done || set_solver).
    rewrite (supply_change l s s1 a (- (total * price))) in Hl0 by (done || set_solver). lia.
Qed.

(** The gas that is left after the refund, which is at most half of the gas used. *)
Definition gas_left st : Z :=
  let used := initialGas st - st_gas st in
  st_gas st + Z.min (used / 2) (refund (st_state st)).

Lemma refundGas_spec st : 0 <= st_gas st <= initialGas st -> initialGas st < 2 ^ 64 -> 0 <= refund (st_state st) ->
  0 <= gp st -> gp st + initialGas st < 2 ^ 64 ->
  st_gas st <= gas_left st <= initialGas st /\
  refundGas st = Ret (mk_transition (gp st + gas_left st) (msg st) (gas_left st) (initialGas st)
    (set_evm_db (st_evm st) (AddBalance (st_state st) (From (msg st)) (gas_left st * msg_GasPrice (msg st))))).
Proof.
  intros H1 H2 H3 H4 H5. unfold refundGas, gasUsed. rewrite (u64_id (initialGas st - st_gas st)) by (unfold is_u64; lia).
  assert (Hu : 0 <= initialGas st - st_gas st) by lia.
  assert (Hl : 0 <= (initialGas st - st_gas st) / 2 <= initialGas st - st_gas st).
  { split; [apply Z.div_pos; lia|]. apply Z.div_le_upper_bound; lia. }
  assert (Em : (if decide ((initialGas st - st_gas st) / 2 > refund (st_state st)) then refund (st_state st)
    else (initialGas st - st_gas st) / 2) = gas_left st - st_gas st).
  { unfold gas_left. case_decide; lia. }
  assert (Hgl : st_gas st <= gas_left st <= initialGas st) by (unfold gas_left; lia).
  split; [done|]. rewrite Em. replace (st_gas st + (gas_left st - st_gas st)) with (gas_left st) by lia.
  rewrite u64_id by (unfold is_u64; lia). unfold AddGas, MaxUint64. rewrite decide_False by lia. done.
Qed.

(** ** Between transactions *)

(** An account after [Finalise]: gone, as before, or with its writes committed. *)
Lemma Finalise_live s del addrs a :
  wf s -> NoDup addrs ->
  let t := Finalise s del addrs in
  live t a = None \/ (same_account t s a /\ (a ∉ addrs \/ stateObjects s !! a = None)) \/
  exists o, live s a = Some o /\ fakeStorage o = None /\ live t a = Some (finalise o).
Proof.
  intros W Hn t. pose proof (Finalise_account s del addrs a W Hn) as H. fold t in H. cbv zeta in H.
  destruct (stateObjects s !! a) as [o|] eqn:E; [|right; left; by split; [|right]].
  destruct (decide (a ∈ addrs)) as [Hin|Hin]; [|right; left; by split; [|left]].
  destruct (dies del o); [by left|]. destruct H as [H _]. destruct (deleted o) eqn:Ed; [by left|]. right. right. exists o.
  destruct (wf_obj _ W a o) as [_ Hf]; [by apply look_live|]. split; [|done]. unfold live. by rewrite (look_live _ _ _ E), Ed.
Qed.

Lemma Finalise_settled s del addrs a k :
  wf s -> marked s -> NoDup addrs -> (forall b, b ∈ addrs <-> is_Some (dirties (jrnl s) !! b)) ->
  cur (Finalise s del addrs) a k = orig (Finalise s del addrs) a k.
Proof.
  intros W M Hn Hd. destruct (Finalise_live s del addrs a W Hn) as [H|[[H Ha]|(o & _ & Hf & H)]].
  - by apply dead_settled.
  - assert (E : cur s a k = orig s a k); [|unfold cur, orig in *; by rewrite (same_state _ _ _ _ H), (same_committed _ _ _ _ H)].
    destruct Ha as [Ha|Ha]; [|by apply unloaded_settled]. apply M. rewrite Hd in Ha.
    pose proof (tl_count _ (wf_tallied _ W) a) as Ht. destruct (dirties (jrnl s) !! a); [by destruct Ha|].
    pose proof (marks_of_nonneg (entries (jrnl s)) a). cbn in Ht. lia.
  - destruct (slots_live _ _ _ H k) as [-> ->]. rewrite state_committed. cbn. by rewrite Hf.
Qed.

Lemma Finalise_refund s del addrs : wf s -> marked s -> refund (Finalise s del addrs) = 0.
Proof.
  intros W M. unfold Finalise, clearJournalAndRefund.
  assert (H : forall s, jrnl (fold_left (finalise_account del) addrs s) = jrnl s /\ refund (fold_left (finalise_account del) addrs s) = refund s).
  { clear s W M. induction addrs as [|a addrs IH]; intros s; [done|]. cbn. destruct (IH (finalise_account del s a)) as [-> ->].
    unfold finalise_account. destruct (stateObjects s !! a) as [o|]; [|done]. destruct (suicided o || del && empty o); [|done].
    cbn. by destruct (snap s). }
  destruct (H s) as [-> E]. destruct (entries (jrnl s)) eqn:Ee; [|done]. cbn. rewrite E. by apply M.
Qed.

Lemma Finalise_coded s del addrs : wf s -> coded s -> NoDup addrs -> coded (Finalise s del addrs).
Proof.
  intros W Hc Hn a o' El. destruct (Finalise_live s del addrs a W Hn) as [H|[[H _]|(o & Ho & _ & H)]]; [congruence| |].
  - unfold same_account in H. rewrite El in H. inversion H as [? o Heq E1 E2|]; subst. intros c. rewrite (oe_code _ _ _ _ Heq), (oe_data _ _ _ _ Heq).
    by eapply Hc.
  - rewrite El in H. injection H as ->. intros c. rewrite eff_code_layers. cbn. rewrite <- eff_code_layers. by eapply Hc.
Qed.

(** What the accounts lose at the end of a transaction is lost. *)
Lemma Finalise_balance s del addrs a :
  wf s -> NoDup addrs -> balance (Finalise s del addrs) a = balance s a \/ balance (Finalise s del addrs) a = 0.
Proof.
  intros W Hn. destruct (Finalise_live s del addrs a W Hn) as [H|[[H _]|(o & Ho & _ & H)]].
  - right. unfold balance. by rewrite H.
  - left. by apply balance_same.
  - left. unfold balance. by rewrite H, Ho.
Qed.

Lemma thrifty_le s t : (forall a, 0 <= balance s a -> 0 <= balance t a <= balance s a) -> thrifty s t.
Proof.
  intros H Hs. split; [intros a; apply H, Hs|]. exists []. intros l _ _.
  induction l as [|a l IH]; cbn; [done|]. pose proof (H a (Hs a)). lia.
Qed.

Lemma Finalise_thrifty s del addrs : wf s -> NoDup addrs -> thrifty s (Finalise s del addrs).
Proof. intros W Hn. apply thrifty_le. intros a Ha. destruct (Finalise_balance s del addrs a W Hn) as [->| ->]; lia. Qed.

Lemma ready_Finalise s del addrs :
  wf s -> coded s -> marked s -> NoDup addrs -> (forall b, b ∈ addrs <-> is_Some (dirties (jrnl s) !! b)) -> ready (Finalise s del addrs).
Proof.
  intros W Hc M Hn Hd. split; [by apply Finalise_start|by apply Finalise_refund|intros a k; by apply Finalise_settled|by apply Finalise_coded].
Qed.

Lemma same_Prepare s th bh ti b : wf s -> same_account (Prepare s th bh ti) s b.
Proof. intros W. by apply same_frame. Qed.

Lemma ready_Prepare s th bh ti : ready s -> ready (Prepare s th bh ti).
Proof.
  intros [H1 H2 H3 H4]. split; [by apply Prepare_start|done| |].
  - intros a k. specialize (H3 a k). pose proof (same_Prepare s th bh ti a (proj1 H1)) as S.
    unfold cur, orig in *. by rewrite (same_state _ _ _ _ S), (same_committed _ _ _ _ S).
  - eapply stays_coded; [|exact H4]. apply stays_same. intros b. by apply same_Prepare, H1.
Qed.

Lemma Prepare_thrifty s th bh ti : wf s -> thrifty s (Prepare s th bh ti).
Proof. intros W. apply thrifty_eq. intros a. by apply balance_same, same_Prepare. Qed.

(** ** The whole transaction *)

(** The outcomes of a message. *)
Definition applied e m (g : GasPool) st' (res : Core.error + ExecutionResult) : Prop :=
  match res with
  | inl err => gp st' = (if early err then g else g - msg_Gas m)
  | inr r =>
      exact_gas (msg_Data m) (bool_decide (To m = None)) (IsHomestead (chainRules e)) (IsIstanbul (chainRules e)) <= 2 * UsedGas r /\
      UsedGas r <= msg_Gas m /\ gp st' = g - UsedGas r
  end /\ 0 <= gp st' <= g /\ thrifty (evm_db e) (st_state st').

(** The state is ready for [Finalise]. *)
Record closing e st' : Prop := {
  cs_rules : chainRules (st_evm st') = chainRules e;
  cs_wf : wf (st_state st');
  cs_coded : coded (st_state st');
  cs_marked : marked (st_state st')
}.

Lemma closing_evolves s0 e st' :
  ready s0 -> evolves s0 (st_state st') -> chainRules (st_evm st') = chainRules e -> closing e st'.
Proof.
  intros R Ev Er. pose proof (ready_ok (chainRules e) s0 _ 0 R Ev) as D. split; [done|by eapply evolves_wf|apply D|apply D].
Qed.

Lemma AddBalance_closing s a v : wf s -> coded s -> marked s ->
  wf (AddBalance s a v) /\ coded (AddBalance s a v) /\ marked (AddBalance s a v).
Proof.
  intros W Hc M. assert (H : moves s (AddBalance s a v)) by by apply (moves_exec _ (CAddBalance a v)).
  split; [apply (op_wf s), H|]. split; [eapply stays_coded; [apply H|done]|]. apply (marked_kept s); [apply H|apply H|done].
Qed.

(** The gas that is taken before the message runs. *)
Record charged m (gas : Z) st0 st1 : Prop := {
  ch_intrinsic : 0 <= gas <= msg_Gas m;
  ch_gas : st_gas st1 = msg_Gas m - gas;
  ch_frame : gp st1 = gp st0 /\ msg st1 = m /\ initialGas st1 = msg_Gas m /\ chainRules (st_evm st1) = chainRules (st_evm st0);
  ch_state : quiet (st_state st0) (st_state st1)
}.

(** The end of a message that was run: the refund and the fee of the coinbase. *)
Lemma settle_spec e m g gas st0 st1 st2 ret vmerr :
  message_ok m -> is_u64 g -> bought (NewStateTransition e m g) st0 -> charged m gas st0 st1 -> ran_message st1 st2 ->
  exists st' r, (st ← run (refundGas st2);
    let st := set_state st (AddBalance (st_state st) (Coinbase env) (gasUsed st * msg_GasPrice m)) in
    run (Ret (st, inr (mk_result (gasUsed st) vmerr ret)))) = run (Ret (st', inr (A := Core.error) r)) /\
    (gas <= 2 * UsedGas r /\ UsedGas r <= msg_Gas m /\ gp st' = g - UsedGas r) /\
    (0 <= gp st' <= g /\ thrifty (evm_db e) (st_state st')) /\ closing e st'.
Proof.
  intros [M1 M2 M3 M4] Hg [B1 B2 B3 B4 B5 B6 B7] [C1 C2 (C3 & C4 & C5 & C6) C7] [(R1 & R2 & R3 & R4) R5 R6 R7].
  assert (Emax : max_gas = 461168601842737) by by vm_compute. cbn [NewStateTransition gp msg st_gas] in *. unfold is_u64 in Hg.
  destruct R6 as [D1 D2 D3 D4 D5]. pose proof (chained_wf _ _ D1) as W2.
  destruct (refundGas_spec st2) as [H1 H2]; [lia..|]. rewrite H2. set (left := gas_left st2) in *.
  assert (Hl : gas <= 2 * (msg_Gas m - left)).
  { unfold left, gas_left. rewrite R3, C5. pose proof (Z.div_mod (msg_Gas m - st_gas st2) 2 ltac:(done)).
    pose proof (Z.mod_pos_bound (msg_Gas m - st_gas st2) 2 ltac:(done)). lia. }
  cbn [run mbind fuelled_bind]. unfold gasUsed, set_state, st_state. cbn [st_evm initialGas st_gas gp msg set_evm_db evm_db chainRules].
  rewrite R2, C4 in *. rewrite u64_id by (unfold is_u64; lia). fold (st_state st2). set (t1 := AddBalance (st_state st2) _ _).
  destruct (AddBalance_closing (st_state st2) (From m) (left * msg_GasPrice m) W2 D4 D5) as (W3 & K3 & N3). fold t1 in W3, K3, N3.
  destruct (AddBalance_closing t1 (Coinbase env) ((initialGas st2 - left) * msg_GasPrice m) W3 K3 N3) as (W4 & K4 & N4).
  eexists _, _. split; [reflexivity|]. cbn [UsedGas gp st_evm evm_db set_evm_db]. split; [lia|]. split; [split; [lia|]|].
  - apply (fees_thrifty (evm_db e) (st_state st0) (st_state st2) t1 _ (From m) (Coinbase env) (msg_Gas m) left (msg_GasPrice m)); [done| | | | |lia|done].
    + split; [nia|exact B6].
    + etrans; [|exact R7]. apply lives_quiet, C7.
    + intros b. by apply AddBalance_balance.
    + intros b. unfold st_state. cbn. rewrite R3, C5. by apply AddBalance_balance.
  - split; cbn; [|done..]. rewrite R4, C6, B4. done.
Qed.

Lemma TransitionDb_spec fuel s0 e m g :
  ready s0 -> evolves s0 (evm_db e) -> message_ok m -> msg_Gas m < Z.of_nat fuel -> is_u64 g ->
  (forall to, To m = Some to -> warm_in e to) ->
  exists st' res, TransitionDb (E := evm_at env fuel) env (NewStateTransition e m g) = run (Ret (st', res)) /\
    applied e m g st' res /\ closing e st'.
Proof.
  intros R Ev Hm Hf Hg Hw. unfold TransitionDb. pose proof (evolves_wf _ _ Ev) as W. unfold is_u64 in Hg.
  pose proof (preCheck_spec (NewStateTransition e m g) W Hm) as P. destruct (preCheck (NewStateTransition e m g)) as [st0 [err|]].
  { destruct P as [[P1 P2 P3] Pe]. exists st0, (inl err). split; [done|]. cbn in P1, P3. split.
    - unfold applied. rewrite Pe, P1. split; [done|]. split; [lia|]. by apply lives_quiet.
    - apply (closing_evolves s0); [done|eapply evolves_trans; [apply R|done|by apply evolves_quiet]|by rewrite P2]. }
  pose proof P as [B1 B2 B3 B4 B5 B6 B7]. cbn [NewStateTransition gp msg st_gas] in *. pose proof Hm as [M1 M2 M3 M4].
  assert (Emax : max_gas = 461168601842737) by by vm_compute. rewrite B2.
  assert (Ev0 : evolves s0 (st_state st0)) by (eapply evolves_trans; [apply R|exact Ev|exact B5]).
  assert (Er0 : chainRules (st_evm st0) = chainRules e) by by rewrite B4.
  assert (Hfail : forall st' er, early er = false -> gp st' = gp st0 -> quiet (st_state st0) (st_state st') -> chainRules (st_evm st') = chainRules e ->
    applied e m g st' (inl er) /\ closing e st').
  { intros st' er He Hp Q Hr. assert (Ev' : evolves (st_state st0) (st_state st')) by (apply evolves_quiet; [by eapply evolves_wf|done]). split.
    - unfold applied. rewrite He, Hp. split; [lia|]. split; [lia|]. etrans; [apply B5|apply Ev'].
    - apply (closing_evolves s0); [done|eapply evolves_trans; [apply R|exact Ev0|exact Ev']|done]. }
  rewrite IntrinsicGas_eq, Er0 by apply M4. cbv zeta. set (gas := exact_gas _ _ _ _).
  case_decide as Hgas; [|eexists _, _; split; [done|]; by apply Hfail].
  assert (Eg : st_gas st0 = msg_Gas m) by (rewrite (proj1 B3), u64_id; [done|unfold is_u64; lia]). rewrite Eg.
  case_decide as Hi; [eexists _, _; split; [done|]; by apply Hfail|]. change (st_state (set_st_gas st0 _)) with (st_state st0).
  set (ct := if decide (msg_Value m > 0) then _ else _).
  assert (Qc : quiet (st_state st0) ct.2) by (unfold ct; case_decide; [apply CanTransfer_quiet|done]).
  rewrite (surjective_pairing ct). set (st1 := set_state _ ct.2). destruct (negb ct.1); [eexists _, _; split; [done|]; by apply Hfail|].
  assert (Hc : charged m gas st0 st1).
  { split; [|cbn; congruence|by split_and!; [..|apply B3|]|done]. unfold gas. pose proof (exact_gas_nonneg (msg_Data m)
      (bool_decide (To m = None)) (IsHomestead (chainRules e)) (IsIstanbul (chainRules e))). lia. }
  destruct (run_message_spec fuel s0 st1) as (st2 & ret & vmerr & E & Hr); [done| | | | | | |].
  - eapply evolves_trans; [apply R|exact Ev0|]. apply evolves_quiet; [by eapply evolves_wf|done].
  - destruct Hc. lia.
  - destruct Hc. lia.
  - change (msg st1) with (msg st0). by rewrite B2.
  - change (msg st1) with (msg st0). by rewrite B2.
  - change (msg st1) with (msg st0). rewrite B2. intros to Hto Hy. change (chainRules (st_evm st1)) with (chainRules (st_evm st0)) in Hy.
    apply (warms_quiet _ _ Qc), (ev_warms _ _ B5), Hw; [done|congruence].
  - rewrite E. destruct (settle_spec e m g gas st0 st1 st2 ret vmerr Hm Hg P Hc Hr) as (st' & r & E' & H1 & H2 & H3).
    exists st', (inr r). split; [exact E'|done].
Qed.

(** ** The theorems *)

(** C22: A message always comes to an end.  From a state between transactions,
    prepared by calls other than writes of storage, [TransitionDb] neither panics
    nor runs out of fuel, whatever contracts the message runs.  A message that is
    refused before its gas is bought takes nothing from the pool of the block;
    otherwise a message that was run takes from it what it used, which is at most
    its gas limit and at least half its intrinsic gas. *)
Theorem TransitionDb_accounting fuel s0 cs e m g :
  ready s0 -> Forall harmless cs -> execs s0 cs = Ret (evm_db e) -> message_ok m -> msg_Gas m < Z.of_nat fuel -> is_u64 g ->
  (forall to, To m = Some to -> warm_in e to) ->
  exists st' res, TransitionDb (E := evm_at env fuel) env (NewStateTransition e m g) = run (Ret (st', res)) /\ 0 <= gp st' <= g /\
    match res with
    | inl err => gp st' = (if early err then g else g - msg_Gas m)
    | inr r =>
        exact_gas (msg_Data m) (bool_decide (To m = None)) (IsHomestead (chainRules e)) (IsIstanbul (chainRules e)) <= 2 * UsedGas r /\
        UsedGas r <= msg_Gas m /\ gp st' = g - UsedGas r
    end.
Proof.
  intros R Hcs Ecs Hm Hf Hg Hw.
  destruct (TransitionDb_spec fuel s0 e m g R (prepared _ _ _ (proj1 (rd_start _ R)) Hcs Ecs) Hm Hf Hg Hw) as (st' & res & E & (H1 & H2 & _) & _).
  exists st', res. done.
Qed.

End Transition.

(** ** A concrete message *)

Module TransitionExamples.
Import ZUint256 SafetyExamples.

(** Account 5 calls account 60 with two bytes of data, and sends 2 along. *)
Definition tr_message : Message := mk_Message 5 (Some 60) 3 100000 2 0 true [1; 0].

Lemma tr_message_ok : message_ok tr_message.
Proof. split; [|done..|]; [by vm_compute|]. split; [by repeat constructor|done]. Qed.

Definition tr_result (x : fuelled Empty_set (StateTransition * (Core.error + ExecutionResult))) : option (Z * (Core.error + Z)) :=
  match x with Some (Ret (st, r)) => Some (gp st, match r with inl er => inl er | inr r => inr (UsedGas r) end) | _ => None end.

Example tr_runs :
  tr_result (TransitionDb (E := evm_at vm_env (Z.to_nat 100001)) vm_env (NewStateTransition run_evm tr_message 1000000)) = Some (973226, inr 26774).
Proof. vm_compute. reflexivity. Qed.

Lemma TransitionDb_accounting_witness :
  exists st' res, TransitionDb (E := evm_at vm_env (Z.to_nat 100001)) vm_env (NewStateTransition run_evm tr_message 1000000) = run (Ret (st', res)) /\
    0 <= gp st' <= 1000000 /\
    match res with
    | inl err => gp st' = (if early err then 1000000 else 1000000 - 100000)
    | inr r => exact_gas [1; 0] false true true <= 2 * UsedGas r /\ UsedGas r <= 100000 /\ gp st' = 1000000 - UsedGas r
    end.
Proof.
  apply (TransitionDb_accounting vm_env (Z.to_nat 100001) (New true) [] run_evm tr_message 1000000).
  - apply ready_New.
  - constructor.
  - reflexivity.
  - exact tr_message_ok.
  - rewrite Z2Nat.id; done.
  - done.
  - intros to _ Hy. done.
Defined.

End TransitionExamples.
