(* ===== verification/StateProcessorProofs.v ===== *)
(** * The transactions of a block (core/state_processor.go)

    Whatever the transactions and the contracts they run, processing them ends
    without a panic, accounts for the gas of the block, and makes no ether; and
    each transaction starts from a state in which nothing of the one before is
    pending. *)

From stdpp Require Import gmap.
From S2P Require Import Prelude Rlp RlpEncode Trie AccessList StateDB StateDBProofs StateDBSnapshots StateDBObserve StateDBEffects.
From S2P Require Import Uint256 VmAnalysis VmContract VmMemory VmGas VmPrecompiles VmInstructions VmJumpTable VmInterpreter VmGasProofs VmSstore.
From S2P Require Import VmRefund VmSupply VmState VmWp VmFrame VmStep VmCalls VmPrecompileProofs VmRun VmSafety StateTransition StateTransitionProofs.

Section Processor.
Context {B : Backend} {BL : BackendLaws B} {CS : CodeStore B} {U : Uint256} {UL : Uint256Laws U} {C : Crypto} {CL : CryptoLaws C}.
Implicit Types (s t : StateDB) (e : EVM) (m : Message) (tx : Transaction).
Variables (env : Env) (fuel : nat) (addresses : PrecompiledAddresses).

(** ** The access list of a transaction *)

Lemma AddAddress_evolves s a : wf s -> evolves s (AddAddressToAccessList s a).
Proof. intros W. apply (evolves_exec _ (CAddAddressToAccessList a)); [done|by apply harmless_read|done]. Qed.

Lemma AddAddresses_evolves l s : wf s -> evolves s (fold_left AddAddressToAccessList l s).
Proof.
  revert s. induction l as [|a l IH]; intros s W; cbn; [by apply evolves_refl|]. pose proof (AddAddress_evolves s a W) as H.
  eapply evolves_trans; [done|exact H|]. by apply IH, (evolves_wf s).
Qed.

Lemma prepare_access_evolves r m s : wf s -> evolves s (prepare_access addresses r m s).
Proof.
  intros W. unfold prepare_access. destruct (IsYoloV3 r); [|by apply evolves_refl].
  pose proof (AddAddress_evolves s (From m) W) as H1. pose proof (evolves_wf _ _ H1) as W1.
  eapply evolves_trans; [done|exact H1|]. destruct (To m) as [to|]; [|by apply AddAddresses_evolves].
  pose proof (AddAddress_evolves _ to W1) as H2. eapply evolves_trans; [done|exact H2|]. by apply AddAddresses_evolves, (evolves_wf _ _ H2).
Qed.

Lemma prepare_access_warm e m to :
  wf (evm_db e) -> To m = Some to -> warm_in (set_evm_db e (prepare_access addresses (chainRules e) m (evm_db e))) to.
Proof.
  intros W Ht Hy. cbn in Hy |- *. unfold prepare_access. rewrite Hy, Ht. pose proof (AddAddress_evolves (evm_db e) (From m) W) as H1.
  pose proof (AddAddress_evolves _ to (evolves_wf _ _ H1)) as H2.
  apply (ev_warms _ _ (AddAddresses_evolves (ActivePrecompiles addresses (chainRules e)) _ (evolves_wf _ _ H2))).
  rewrite AddAddressToAccessList_access, AddAddress_Contains. by rewrite bool_decide_true.
Qed.

(** ** One transaction *)

(** Go ranges over each dirty account once. *)
Definition order_ok tx : Prop :=
  forall s, NoDup (tx_order tx s) /\ forall b, b ∈ tx_order tx s <-> is_Some (dirties (jrnl s) !! b).

Definition transaction_ok tx : Prop :=
  order_ok tx /\ forall m, AsMessage tx = Some m -> message_ok m /\ msg_Gas m < Z.of_nat fuel.

(** What a transaction leaves. *)
Record processed e (g : GasPool) e' (g' : GasPool) : Prop := {
  pr_rules : chainRules e' = chainRules e;
  pr_pool : 0 <= g' <= g;
  pr_thrifty : thrifty (evm_db e) (evm_db e')
}.

Lemma applyTransaction_spec e g used tx m :
  ready (evm_db e) -> order_ok tx -> message_ok m -> msg_Gas m < Z.of_nat fuel -> is_u64 g -> 0 <= used -> used + g < 2 ^ 64 ->
  exists e' g' used' res, applyTransaction env fuel addresses e g used tx m = run (Ret (e', g', used', res)) /\
    processed e g e' g' /\
    match res with
    | inl err => g' = (if early err then g else g - msg_Gas m) /\ used' = used
    | inr r => ready (evm_db e') /\ g' = g - rcpt_GasUsed r /\ used' = used + rcpt_GasUsed r /\ CumulativeGasUsed r = used' /\
        rcpt_GasUsed r <= msg_Gas m /\
        exact_gas (msg_Data m) (bool_decide (To m = None)) (IsHomestead (chainRules e)) (IsIstanbul (chainRules e)) <= 2 * rcpt_GasUsed r
    end.
Proof.
  intros R Ho Hm Hf Hg Hu Hb. unfold applyTransaction. pose proof (proj1 (rd_start _ R)) as W.
  set (s := prepare_access _ _ _ _). assert (Ev : evolves (evm_db e) s) by by apply prepare_access_evolves.
  destruct (TransitionDb_spec (with_tx env m) fuel (evm_db e) (set_evm_db e s) m g R Ev Hm Hf Hg) as (st & res & E & (A1 & A2 & A3) & [K1 K2 K3 K4]).
  { intros to Ht. by apply prepare_access_warm. }
  unfold ApplyMessage. rewrite E. cbn [run mbind fuelled_bind]. assert (Ht : thrifty (evm_db e) (st_state st)) by (etrans; [apply Ev|exact A3]).
  destruct res as [err|r].
  - eexists _, _, _, _. split; [reflexivity|]. by split.
  - destruct A1 as (I1 & I2 & I3). destruct (Ho (st_state st)) as [Hn Hd].
    pose proof (ready_Finalise (st_state st) true _ K2 K3 K4 Hn Hd) as Rf. pose proof (Finalise_thrifty (st_state st) true _ K2 Hn) as Tf.
    assert (Ea : exists a, (match To m with None => run (CreateAddress (Origin (with_tx env m)) (tx_Nonce tx)) | Some _ => run (Ret 0) end) = run (Ret a)).
    { destruct (To m); [by eexists|]. destruct (CreateAddress_total (Origin (with_tx env m)) (tx_Nonce tx)) as [a ->]. by eexists. }
    destruct Ea as [a ->]. cbn [run mbind fuelled_bind]. eexists _, _, _, _. split; [reflexivity|]. cbn. rewrite u64_id by (unfold is_u64 in *; lia).
    split; [split; [done|done|by etrans]|]. done.
Qed.

(** ** All transactions *)

(** The receipts account for the gas: each for its own, and all up to it. *)
Fixpoint accounts (used : Z) (rs : list Receipt) : Prop :=
  match rs with
  | [] => True
  | r :: rs => CumulativeGasUsed r = used + rcpt_GasUsed r /\ accounts (used + rcpt_GasUsed r) rs
  end.

Fixpoint gas_of (rs : list Receipt) : Z :=
  match rs with
  | [] => 0
  | r :: rs => rcpt_GasUsed r + gas_of rs
  end.

Lemma processed_trans e g e1 g1 e2 g2 : processed e g e1 g1 -> processed e1 g1 e2 g2 -> processed e g e2 g2.
Proof. intros [H1 H2 H3] [K1 K2 K3]. split; [congruence|lia|by etrans]. Qed.

Lemma apply_all_spec blockHash txs e g used i :
  ready (evm_db e) -> Forall transaction_ok txs -> is_u64 g -> 0 <= used -> used + g < 2 ^ 64 ->
  exists e' g' used' res, apply_all env fuel addresses blockHash e g used i txs = run (Ret (e', g', used', res)) /\ processed e g e' g' /\
    match res with
    | inl _ => True
    | inr rs => length rs = length txs /\ ready (evm_db e') /\ g' = g - gas_of rs /\ used' = used + gas_of rs /\ accounts used rs
    end.
Proof.
  revert e g used i. induction txs as [|tx txs IH]; intros e g used i R Ht Hg Hu Hb; cbn [apply_all].
  { eexists _, _, _, _. split; [reflexivity|]. unfold is_u64 in Hg. split; [split; [done|lia|reflexivity]|]. cbn. split_and!; [done|done|lia|lia|done]. }
  apply Forall_cons_1 in Ht as [[Ho Hm] Ht]. destruct (AsMessage tx) as [m|].
  2: { eexists _, _, _, _. split; [reflexivity|]. unfold is_u64 in Hg. split; [|done]. split; [done|lia|reflexivity]. }
  destruct (Hm m eq_refl) as [Hm1 Hm2]. set (e0 := set_evm_db e (Prepare (evm_db e) (tx_Hash tx) blockHash i)).
  assert (P0 : processed e g e0 g).
  { unfold is_u64 in Hg. split; [done|lia|]. apply Prepare_thrifty, R. }
  assert (R0 : ready (evm_db e0)) by by apply ready_Prepare.
  destruct (applyTransaction_spec e0 g used tx m R0 Ho Hm1 Hm2 Hg Hu Hb) as (e1 & g1 & used1 & res & -> & P1 & Hr).
  pose proof (processed_trans _ _ _ _ _ _ P0 P1) as P. cbn [run mbind fuelled_bind]. destruct res as [err|r].
  { eexists _, _, _, _. split; [reflexivity|]. by split. }
  destruct Hr as (R1 & Eg & Eu & Ec & _). pose proof (pr_pool _ _ _ _ P1) as Hp. unfold is_u64 in Hg.
  destruct (IH e1 g1 used1 (i + 1) R1 Ht) as (e2 & g2 & used2 & res & -> & P2 & Hr); [unfold is_u64; lia|lia|lia|].
  cbn [run mbind fuelled_bind]. eexists _, _, _, _. split; [reflexivity|]. split; [by eapply processed_trans|].
  destruct res as [err|rs]; [done|]. destruct Hr as (L & R2 & Eg2 & Eu2 & Ha). cbn. split_and!; [by rewrite L|done|lia|lia|congruence|congruence].
Qed.

(** C4: The transactions of a block.  Processing them from a state between
    transactions ends without a panic.  When all are applied there is a receipt
    for each, what is left of the gas of the block is what their receipts do not
    account for, the cumulative gas of each receipt is that of all up to it, and
    the state is again one between transactions. *)
Theorem apply_all_accounts blockHash txs e g :
  ready (evm_db e) -> Forall transaction_ok txs -> is_u64 g ->
  exists e' g' used res, apply_all env fuel addresses blockHash e g 0 0 txs = run (Ret (e', g', used, res)) /\ 0 <= g' <= g /\
    match res with
    | inl _ => True
    | inr rs => length rs = length txs /\ g' = g - gas_of rs /\ used = gas_of rs /\ accounts 0 rs /\ ready (evm_db e')
    end.
Proof.
  intros R Ht Hg. destruct (apply_all_spec blockHash txs e g 0 0 R Ht Hg) as (e' & g' & used & res & E & [_ P _] & H); [done|unfold is_u64 in Hg; lia|].
  exists e', g', used, res. split; [exact E|]. split; [exact P|]. destruct res as [|rs]; [done|]. destruct H as (H1 & H2 & H3 & H4 & H5).
  split_and!; [done|done|lia|done|done].
Qed.

(** C1: The transactions of a block make no ether.  When no balance is negative
    before, none is afterwards, and the sum of the balances, over any set of
    accounts that has those concerned, has not grown: what senders pay for gas in
    advance is the refund and the fee of the coinbase, and the virtual machine and
    the end of each transaction only move or burn the rest. *)
Theorem apply_all_supply blockHash txs e g e' g' used res :
  ready (evm_db e) -> Forall transaction_ok txs -> is_u64 g -> solvent (evm_db e) ->
  apply_all env fuel addresses blockHash e g 0 0 txs = run (Ret (e', g', used, res)) ->
  solvent (evm_db e') /\ exists l0, forall l, NoDup l -> l0 ⊆ l -> supply l (evm_db e') <= supply l (evm_db e).
Proof.
  intros R Ht Hg Hs E. destruct (apply_all_spec blockHash txs e g 0 0 R Ht Hg) as (e1 & g1 & used1 & res1 & E1 & [_ _ P] & _); [done|unfold is_u64 in Hg; lia|].
  rewrite E in E1. injection E1 as <- <- <- <-. by apply P.
Qed.

End Processor.

(** ** A concrete block *)

Module ProcessorExamples.
Import ZUint256 SafetyExamples TransitionExamples.

Definition dirty_order (s : StateDB) : list Z := (map_to_list (dirties (jrnl s))).*1.

(** The call of account 60, and then a creation by the same sender. *)
Definition pr_create : Message := mk_Message 5 None 2 60000 0 1 true [0x60; 0; 0x60; 0; 0xf3].
Definition pr_txs : list Transaction := [mk_tx 71 0 (Some tr_message) dirty_order; mk_tx 72 1 (Some pr_create) dirty_order].
Definition pr_fuel : nat := Z.to_nat 100001.
Definition pr_addresses : PrecompiledAddresses := mk_addresses [] [] [] [].

Lemma dirty_order_ok h n m : order_ok (mk_tx h n m dirty_order).
Proof. 
  intros s. split; [apply NoDup_fst_map_to_list|]. intros b. cbn. unfold dirty_order. rewrite list_elem_of_fmap. split.
  - intros ([a n'] & -> & H%elem_of_map_to_list). by eexists.
  - intros [n' H]. exists (b, n'). split; [done|by apply elem_of_map_to_list].
Qed.

Lemma pr_create_ok : message_ok pr_create.
Proof. split; [|done..|]; [by vm_compute|]. split; [by repeat constructor|done]. Qed.

Lemma pr_fuel_gas g : g <= 100000 -> g < Z.of_nat pr_fuel.
Proof. unfold pr_fuel. rewrite Z2Nat.id by done. lia. Qed.

Lemma pr_txs_ok : Forall (transaction_ok pr_fuel) pr_txs.
Proof.
  constructor; [|constructor; [|constructor]]; (split; [apply dirty_order_ok|]); cbn [AsMessage]; intros m [= <-].
  - split; [apply tr_message_ok|by apply pr_fuel_gas].
  - split; [apply pr_create_ok|by apply pr_fuel_gas].
Qed.

Definition pr_result (x : fuelled Empty_set (EVM * GasPool * Z * (process_error + list Receipt))) : option (Z * Z * list (Z * Z * Z)) :=
  match x with
  | Some (Ret (_, g, used, inr rs)) => Some (g, used, map (fun r => (Status r, rcpt_GasUsed r, CumulativeGasUsed r)) rs)
  | _ => None
  end.

Example pr_runs : pr_result (apply_all vm_env pr_fuel pr_addresses 77 run_evm 1000000 0 0 pr_txs)
  = Some (920164, 79836, [(1, 26774, 26774); (1, 53062, 79836)]).
Proof. vm_compute. reflexivity. Qed.

Lemma apply_all_accounts_witness :
  exists e' g' used res, apply_all vm_env pr_fuel pr_addresses 77 run_evm 1000000 0 0 pr_txs = run (Ret (e', g', used, res)) /\ 0 <= g' <= 1000000 /\
    match res with
    | inl _ => True
    | inr rs => length rs = 2%nat /\ g' = 1000000 - gas_of rs /\ used = gas_of rs /\ accounts 0 rs /\ ready (evm_db e')
    end.
Proof. apply (apply_all_accounts vm_env pr_fuel pr_addresses 77 pr_txs run_evm 1000000 (ready_New true) pr_txs_ok); done. Defined.

Lemma pr_solvent : solvent (evm_db run_evm).
Proof.
  intros a. unfold balance, live, look. cbn. rewrite lookup_empty. unfold loaded, load_account. cbn.
  destruct (decide (a + 1000 = 1060)); [done|]. destruct (decide (a + 1000 = 1005)); done.
Qed.

Lemma apply_all_supply_witness :
  exists e', (exists g' used res, apply_all vm_env pr_fuel pr_addresses 77 run_evm 1000000 0 0 pr_txs = run (Ret (e', g', used, res))) /\
    solvent (evm_db e') /\ exists l0, forall l, NoDup l -> l0 ⊆ l -> supply l (evm_db e') <= supply l (evm_db run_evm).
Proof.
  assert (Hg : is_u64 1000000) by done.
  destruct (apply_all_spec vm_env pr_fuel pr_addresses 77 pr_txs run_evm 1000000 0 0 (ready_New true) pr_txs_ok) as (e' & g' & used & res & E & _); [done..|].
  exists e'. split; [exists g', used, res; exact E|].
  exact (apply_all_supply vm_env pr_fuel pr_addresses 77 pr_txs run_evm 1000000 e' g' used res (ready_New true) pr_txs_ok Hg pr_solvent E).
Defined.

End ProcessorExamples.
