(* ===== verification/ChainConfig.v ===== *)
(** * The configuration of a chain (params/config.go)

    The schedule of the forks, the rules of a block, and the checks that a node
    makes of a configuration: that the forks are in order, and that a new
    configuration does not alter the blocks the node already has. *)

From stdpp Require Import gmap.
From Stdlib Require Import String.
From S2P Require Import Prelude Uint256 VmAnalysis VmContract VmMemory VmGas.

Module Params.

(** A block number that is nil is a fork that is not scheduled. *)
Record ChainConfig := mk_ChainConfig {
  ChainID : option Z;
  HomesteadBlock : option Z;
  DAOForkBlock : option Z;
  DAOForkSupport : bool;
  EIP150Block : option Z;
  EIP150Hash : Z;
  EIP155Block : option Z;
  EIP158Block : option Z;
  ByzantiumBlock : option Z;
  ConstantinopleBlock : option Z;
  PetersburgBlock : option Z;
  IstanbulBlock : option Z;
  MuirGlacierBlock : option Z;
  YoloV3Block : option Z;
  EWASMBlock : option Z;
  QuicheBlock : option Z;
  MicheBlock : option Z;
  RuskBlock : option Z;
  CelestiaBlock : option Z;
  MafuyuBlock : option Z;
  KipfelBlock : option Z;
  LuminaBlock : option Z
}.

Definition MainnetChainConfig : ChainConfig :=
  mk_ChainConfig (Some 329) (Some 0) None true (Some 0) 0 (Some 0) (Some 0) (Some 0) (Some 0) (Some 100000000) (Some 500000000) None None None
    (Some 4200000) (Some 6300000) (Some 8400000) (Some 10500000) (Some 12600000) (Some 14700000) (Some 16800000).

Definition isForked (s : option Z) (head : Z) : bool :=
  match s with
  | None => false
  | Some s => bool_decide (s <= head)
  end.

Definition configNumEqual (x y : option Z) : bool := bool_decide (x = y).

Definition IsHomestead (c : ChainConfig) (num : Z) : bool := isForked (HomesteadBlock c) num.
Definition IsDAOFork (c : ChainConfig) (num : Z) : bool := isForked (DAOForkBlock c) num.
Definition IsEIP150 (c : ChainConfig) (num : Z) : bool := isForked (EIP150Block c) num.
Definition IsEIP155 (c : ChainConfig) (num : Z) : bool := isForked (EIP155Block c) num.
Definition IsEIP158 (c : ChainConfig) (num : Z) : bool := isForked (EIP158Block c) num.
Definition IsByzantium (c : ChainConfig) (num : Z) : bool := isForked (ByzantiumBlock c) num.
Definition IsConstantinople (c : ChainConfig) (num : Z) : bool := isForked (ConstantinopleBlock c) num.
Definition IsMuirGlacier (c : ChainConfig) (num : Z) : bool := isForked (MuirGlacierBlock c) num.
Definition IsPetersburg (c : ChainConfig) (num : Z) : bool :=
  isForked (PetersburgBlock c) num || bool_decide (PetersburgBlock c = None) && isForked (ConstantinopleBlock c) num.
Definition IsIstanbul (c : ChainConfig) (num : Z) : bool := isForked (IstanbulBlock c) num.
Definition IsYoloV3 (c : ChainConfig) (num : Z) : bool := isForked (YoloV3Block c) num.
Definition IsEWASM (c : ChainConfig) (num : Z) : bool := isForked (EWASMBlock c) num.

(** The method [Rules], with the chain identifier beside the flags. *)
Definition Rules_of (c : ChainConfig) (num : Z) : Z * Rules :=
  (default 0 (ChainID c),
   mk_Rules (IsHomestead c num) (IsEIP150 c num) (IsEIP155 c num) (IsEIP158 c num) (IsByzantium c num) (IsConstantinople c num)
     (IsPetersburg c num) (IsIstanbul c num) (IsYoloV3 c num)).

(** ** Compatibility *)

Record ConfigCompatError := mk_compat {
  What : string;
  StoredConfig : option Z;
  NewConfig : option Z;
  RewindTo : Z
}.

Definition newCompatError (what : string) (storedblock newblock : option Z) : ConfigCompatError :=
  let rew :=
    match storedblock, newblock with
    | None, _ => newblock
    | _, None => storedblock
    | Some s, Some n => if decide (s < n) then storedblock else newblock
    end in
  let rewindTo :=
    match rew with
    | Some r => if decide (r > 0) then u64 (u64 r - 1) else 0
    | None => 0
    end in
  mk_compat what storedblock newblock rewindTo.

Definition isForkIncompatible (s1 s2 : option Z) (head : Z) : bool := (isForked s1 head || isForked s2 head) && negb (configNumEqual s1 s2).

Local Open Scope string_scope.

Definition checkCompatible (c newcfg : ChainConfig) (head : Z) : option ConfigCompatError :=
  if isForkIncompatible (HomesteadBlock c) (HomesteadBlock newcfg) head then
    Some (newCompatError "Homestead fork block" (HomesteadBlock c) (HomesteadBlock newcfg))
  else if isForkIncompatible (DAOForkBlock c) (DAOForkBlock newcfg) head then
    Some (newCompatError "DAO fork block" (DAOForkBlock c) (DAOForkBlock newcfg))
  else if IsDAOFork c head && negb (bool_decide (DAOForkSupport c = DAOForkSupport newcfg)) then
    Some (newCompatError "DAO fork support flag" (DAOForkBlock c) (DAOForkBlock newcfg))
  else if isForkIncompatible (EIP150Block c) (EIP150Block newcfg) head then
    Some (newCompatError "EIP150 fork block" (EIP150Block c) (EIP150Block newcfg))
  else if isForkIncompatible (EIP155Block c) (EIP155Block newcfg) head then
    Some (newCompatError "EIP155 fork block" (EIP155Block c) (EIP155Block newcfg))
  else if isForkIncompatible (EIP158Block c) (EIP158Block newcfg) head then
    Some (newCompatError "EIP158 fork block" (EIP158Block c) (EIP158Block newcfg))
  else if IsEIP158 c head && negb (configNumEqual (ChainID c) (ChainID newcfg)) then
    Some (newCompatError "EIP158 chain ID" (EIP158Block c) (EIP158Block newcfg))
  else if isForkIncompatible (ByzantiumBlock c) (ByzantiumBlock newcfg) head then
    Some (newCompatError "Byzantium fork block" (ByzantiumBlock c) (ByzantiumBlock newcfg))
  else if isForkIncompatible (ConstantinopleBlock c) (ConstantinopleBlock newcfg) head then
    Some (newCompatError "Constantinople fork block" (ConstantinopleBlock c) (ConstantinopleBlock newcfg))
  else if isForkIncompatible (PetersburgBlock c) (PetersburgBlock newcfg) head &&
          isForkIncompatible (ConstantinopleBlock c) (PetersburgBlock newcfg) head then
    Some (newCompatError "Petersburg fork block" (PetersburgBlock c) (PetersburgBlock newcfg))
  else if isForkIncompatible (IstanbulBlock c) (IstanbulBlock newcfg) head then
    Some (newCompatError "Istanbul fork block" (IstanbulBlock c) (IstanbulBlock newcfg))
  else if isForkIncompatible (MuirGlacierBlock c) (MuirGlacierBlock newcfg) head then
    Some (newCompatError "Muir Glacier fork block" (MuirGlacierBlock c) (MuirGlacierBlock newcfg))
  else if isForkIncompatible (YoloV3Block c) (YoloV3Block newcfg) head then
    Some (newCompatError "YOLOv3 fork block" (YoloV3Block c) (YoloV3Block newcfg))
  else if isForkIncompatible (EWASMBlock c) (EWASMBlock newcfg) head then
    Some (newCompatError "ewasm fork block" (EWASMBlock c) (EWASMBlock newcfg))
  else None.

(** The loop of [CheckCompatible]. *)
Fixpoint compatible_loop (fuel : nat) (c newcfg : ChainConfig) (bhead : Z) (lasterr : option ConfigCompatError)
    : fuelled Empty_set (option ConfigCompatError) :=
  match fuel with
  | O => out_of_fuel
  | S fuel =>
      match checkCompatible c newcfg bhead with
      | None => run (Ret lasterr)
      | Some err =>
          if match lasterr with Some last => bool_decide (RewindTo err = RewindTo last) | None => false end then run (Ret lasterr)
          else compatible_loop fuel c newcfg (RewindTo err) (Some err)
      end
  end.

(** Every round but the last goes back to before one of the forks. *)
Definition compatible_fuel : nat := 32.

Definition CheckCompatible (c newcfg : ChainConfig) (height : Z) : fuelled Empty_set (option ConfigCompatError) :=
  compatible_loop compatible_fuel c newcfg height None.

(** ** The order of the forks *)

Record fork := mk_fork { name : string; block : option Z; optional : bool }.

Definition forks (c : ChainConfig) : list fork := [
  mk_fork "homesteadBlock" (HomesteadBlock c) false;
  mk_fork "daoForkBlock" (DAOForkBlock c) true;
  mk_fork "eip150Block" (EIP150Block c) false;
  mk_fork "eip155Block" (EIP155Block c) false;
  mk_fork "eip158Block" (EIP158Block c) false;
  mk_fork "byzantiumBlock" (ByzantiumBlock c) false;
  mk_fork "constantinopleBlock" (ConstantinopleBlock c) false;
  mk_fork "petersburgBlock" (PetersburgBlock c) false;
  mk_fork "istanbulBlock" (IstanbulBlock c) false;
  mk_fork "muirGlacierBlock" (MuirGlacierBlock c) true;
  mk_fork "yoloV3Block" (YoloV3Block c) false
].

(** The two errors, with the names of the forks that are not in order. *)
Inductive order_error := NotEnabled (last cur : string) | OutOfOrder (last cur : string).

(** [lastFork] starts as the zero value, which has no name. *)
Definition fork_error (lastFork : option fork) (cur : fork) : option order_error :=
  match lastFork with
  | None => None
  | Some last =>
      match block last, block cur with
      | None, Some _ => Some (NotEnabled (name last) (name cur))
      | Some l, Some n => if decide (l > n) then Some (OutOfOrder (name last) (name cur)) else None
      | _, None => None
      end
  end.

Fixpoint order_loop (lastFork : option fork) (l : list fork) : option order_error :=
  match l with
  | [] => None
  | cur :: l =>
      match fork_error lastFork cur with
      | Some err => Some err
      | None => order_loop (if negb (optional cur) || bool_decide (is_Some (block cur)) then Some cur else lastFork) l
      end
  end.

Definition CheckConfigForkOrder (c : ChainConfig) : option order_error := order_loop None (forks c).

Local Close Scope string_scope.

End Params.
