(* ===== verification/ChainConfigProofs.v ===== *)
(** * What the checks of a configuration guarantee (params/config.go) *)

From stdpp Require Import gmap.
From Stdlib Require Import String.
From S2P Require Import Prelude Uint256 VmAnalysis VmContract VmMemory VmGas ChainConfig.

Import Params.
Implicit Types (c n : ChainConfig) (s : option Z).

(** ** Forks *)

Lemma isForked_true s head : isForked s head = true <-> exists b, s = Some b /\ b <= head.
Proof.
  destruct s as [b|]; cbn; [|split; [done|by intros (? & ? & _)]]. rewrite bool_decide_eq_true.
  split; [by eauto|]. by intros (? & [= <-] & ?).
Qed.

(** Two schedules that are compatible at [head] agree up to it. *)
Lemma compatible_fork s1 s2 head num : isForkIncompatible s1 s2 head = false -> num <= head -> isForked s1 num = isForked s2 num.
Proof.
  unfold isForkIncompatible, configNumEqual. intros H Hn. case_bool_decide as E; [by rewrite E|]. rewrite andb_true_r in H.
  apply orb_false_iff in H as [H1 H2]. destruct s1 as [a|], s2 as [b|]; cbn in *; try done;
    repeat case_bool_decide; try done; lia.
Qed.

(** ** The past *)

Lemma if_None {A} (b : bool) (x : A) (k : option A) : (if b then Some x else k) = None <-> b = false /\ k = None.
Proof. destruct b; [split; [done|by intros []]|]. tauto. Qed.

Lemma negb_andb_false (b b' : bool) : b && negb b' = false <-> (b = true -> b' = true).
Proof. destruct b, b'; cbn; split; try done; intros H; by specialize (H eq_refl). Qed.

(** The checks, one by one. *)
Lemma checkCompatible_None c n head :
  checkCompatible c n head = None <->
  isForkIncompatible (HomesteadBlock c) (HomesteadBlock n) head = false /\
  isForkIncompatible (DAOForkBlock c) (DAOForkBlock n) head = false /\
  (IsDAOFork c head = true -> DAOForkSupport c = DAOForkSupport n) /\
  isForkIncompatible (EIP150Block c) (EIP150Block n) head = false /\
  isForkIncompatible (EIP155Block c) (EIP155Block n) head = false /\
  isForkIncompatible (EIP158Block c) (EIP158Block n) head = false /\
  (IsEIP158 c head = true -> Params.ChainID c = Params.ChainID n) /\
  isForkIncompatible (ByzantiumBlock c) (ByzantiumBlock n) head = false /\
  isForkIncompatible (ConstantinopleBlock c) (ConstantinopleBlock n) head = false /\
  (isForkIncompatible (PetersburgBlock c) (PetersburgBlock n) head = false \/
   isForkIncompatible (ConstantinopleBlock c) (PetersburgBlock n) head = false) /\
  isForkIncompatible (IstanbulBlock c) (IstanbulBlock n) head = false /\
  isForkIncompatible (MuirGlacierBlock c) (MuirGlacierBlock n) head = false /\
  isForkIncompatible (YoloV3Block c) (YoloV3Block n) head = false /\
  isForkIncompatible (EWASMBlock c) (EWASMBlock n) head = false.
Proof.
  unfold checkCompatible. rewrite !if_None, !negb_andb_false, andb_false_iff. unfold configNumEqual. rewrite !bool_decide_eq_true. assert (HN : (None : option ConfigCompatError) = None) by done. tauto.
Qed.

(** The block from which Petersburg is active: without one of its own, that of
    Constantinople. *)
Definition petersburg c : option Z := match PetersburgBlock c with None => ConstantinopleBlock c | Some b => Some b end.

Lemma IsPetersburg_eq c num : IsPetersburg c num = isForked (petersburg c) num.
Proof. unfold IsPetersburg, petersburg. destruct (PetersburgBlock c) as [b|]; cbn; [by rewrite orb_false_r|done]. Qed.

(** A configuration that is accepted does not alter the past: up to the head
    of the chain, and from the block on at which the chain identifier is checked,
    the rules of every block are those of the stored configuration, provided that
    the blocks from which Petersburg is active are compatible too. *)
Theorem checkCompatible_past c n head num :
  checkCompatible c n head = None -> isForkIncompatible (petersburg c) (petersburg n) head = false -> IsEIP158 c head = true -> num <= head ->
  Rules_of n num = Rules_of c num /\ IsDAOFork n num = IsDAOFork c num /\ IsMuirGlacier n num = IsMuirGlacier c num /\ IsEWASM n num = IsEWASM c num.
Proof.
  intros (H1 & H2 & _ & H3 & H4 & H5 & H6 & H7 & H8 & _ & H9 & H10 & H11 & H12)%checkCompatible_None Hp He Hn.
  unfold Rules_of. rewrite !IsPetersburg_eq. rewrite (H6 He).
  unfold IsHomestead, IsDAOFork, IsEIP150, IsEIP155, IsEIP158, IsByzantium, IsConstantinople, IsMuirGlacier, IsIstanbul, IsYoloV3, IsEWASM.
  rewrite (compatible_fork _ _ _ _ H1 Hn), (compatible_fork _ _ _ _ H2 Hn), (compatible_fork _ _ _ _ H3 Hn), (compatible_fork _ _ _ _ H4 Hn),
    (compatible_fork _ _ _ _ H5 Hn), (compatible_fork _ _ _ _ H7 Hn), (compatible_fork _ _ _ _ H8 Hn), (compatible_fork _ _ _ _ H9 Hn),
    (compatible_fork _ _ _ _ H10 Hn), (compatible_fork _ _ _ _ H11 Hn), (compatible_fork _ _ _ _ H12 Hn), (compatible_fork _ _ _ _ Hp Hn).
  done.
Qed.

(** The configuration of the main network with another block for Petersburg. *)
Definition with_petersburg c (b : option Z) : ChainConfig :=
  mk_ChainConfig (Params.ChainID c) (HomesteadBlock c) (DAOForkBlock c) (DAOForkSupport c) (EIP150Block c) (EIP150Hash c) (EIP155Block c)
    (EIP158Block c) (ByzantiumBlock c) (ConstantinopleBlock c) b (IstanbulBlock c) (MuirGlacierBlock c) (YoloV3Block c) (EWASMBlock c)
    (QuicheBlock c) (MicheBlock c) (RuskBlock c) (CelestiaBlock c) (MafuyuBlock c) (KipfelBlock c) (LuminaBlock c).

Lemma checkCompatible_past_witness :
  Rules_of (with_petersburg MainnetChainConfig (Some 200000000)) 7 = Rules_of MainnetChainConfig 7.
Proof.
  apply (checkCompatible_past MainnetChainConfig (with_petersburg MainnetChainConfig (Some 200000000)) 5000000 7); [reflexivity..|lia].
Defined.

(** C34: The check misses changes of Petersburg.  On the main network, whose
    configuration has Petersburg at a block far ahead, a configuration that moves
    it to block 0, and one that leaves it out, are both accepted at every height
    before, and both change the rules of the blocks that the node already has. *)
Theorem checkCompatible_petersburg head num b :
  b = Some 0 \/ b = None -> 0 <= num <= head -> head < 100000000 ->
  let n := with_petersburg MainnetChainConfig b in
  CheckConfigForkOrder n = (if b then None else Some (NotEnabled "petersburgBlock" "istanbulBlock")) /\
  CheckCompatible MainnetChainConfig n head = run (Ret None) /\
  IsPetersburg MainnetChainConfig num = false /\ IsPetersburg n num = true.
Proof.
  intros Hb Hn Hh n.
  assert (H : checkCompatible MainnetChainConfig n head = None).
  { apply checkCompatible_None. assert (R : forall s, isForkIncompatible s s head = false).
    { intros s. unfold isForkIncompatible, configNumEqual. by rewrite (bool_decide_true (s = s)), andb_false_r. }
    split_and!; try apply R; try done. destruct Hb as [->| ->]; [right; apply R|left]. unfold isForkIncompatible. cbn.
    by rewrite bool_decide_false by lia. }
  unfold CheckCompatible, compatible_fuel. cbn [compatible_loop]. rewrite H, !IsPetersburg_eq. cbn.
  destruct Hb as [->| ->]; (split; [done|split; [done|]]); cbn; rewrite bool_decide_false, bool_decide_true by lia; done.
Qed.

Lemma checkCompatible_petersburg_witness :
  CheckCompatible MainnetChainConfig (with_petersburg MainnetChainConfig (Some 0)) 3000000 = run (Ret None).
Proof. apply (checkCompatible_petersburg 3000000 7 (Some 0)); [by left|lia|lia]. Defined.

(** ** Rewinding *)

Definition blocks c : list (option Z) :=
  [HomesteadBlock c; DAOForkBlock c; EIP150Block c; EIP155Block c; EIP158Block c; ByzantiumBlock c; ConstantinopleBlock c; PetersburgBlock c;
   IstanbulBlock c; MuirGlacierBlock c; YoloV3Block c; EWASMBlock c].

(** The blocks to which an error may rewind. *)
Definition rewinds c n : list Z := 0 :: map (fun s => match s with Some b => b - 1 | None => 0 end) (blocks c ++ blocks n).

(** An error is about a fork that is active in one of the configurations. *)
Definition from_fork c n head (err : ConfigCompatError) : Prop :=
  exists what s1 s2, err = newCompatError what s1 s2 /\ s1 ∈ blocks c /\ s2 ∈ blocks n /\ (isForked s1 head = true \/ isForked s2 head = true).

Lemma if_Some {A} (b : bool) (x : A) (k : option A) (P : A -> Prop) :
  (b = true -> P x) -> (forall y, k = Some y -> P y) -> forall y, (if b then Some x else k) = Some y -> P y.
Proof. destruct b; [intros H _ y [= <-]; by apply H|intros _ H; exact H]. Qed.

Lemma incompatible_forked s1 s2 head : isForkIncompatible s1 s2 head = true -> isForked s1 head = true \/ isForked s2 head = true.
Proof. unfold isForkIncompatible. intros [H _]%andb_true_iff. by apply orb_true_iff. Qed.

Lemma checkCompatible_fork c n head err : checkCompatible c n head = Some err -> from_fork c n head err.
Proof.
  revert err. unfold checkCompatible.
  repeat (apply if_Some; [intros H; eexists _, _, _; split; [reflexivity|]; split; [set_solver|]; split; [set_solver|];
    first [by apply incompatible_forked|apply andb_true_iff in H as [H _]; first [by left|by apply incompatible_forked]]|]). done.
Qed.

(** An error rewinds to before [head], or to the genesis block. *)
Lemma from_fork_rewind c n head err :
  0 <= head < 2 ^ 64 -> from_fork c n head err ->
  RewindTo err ∈ rewinds c n /\ 0 <= RewindTo err <= head /\ (RewindTo err < head \/ RewindTo err = 0).
Proof.
  intros Hh (what & s1 & s2 & -> & H1 & H2 & Hf). unfold newCompatError. cbn [RewindTo]. set (rew := match s1 with None => _ | _ => _ end).
  assert (Hr : exists r, rew = Some r /\ r <= head /\ (rew ∈ blocks c \/ rew ∈ blocks n)).
  { unfold rew. destruct s1 as [a|], s2 as [b|]; cbn in Hf; rewrite ?bool_decide_eq_true in Hf; try (by destruct Hf);
      [case_decide; eexists; (split; [reflexivity|]); (split; [lia|auto])|..]; eexists; (split; [reflexivity|]); (split; [destruct Hf; [done || lia..]|auto]). }
  destruct Hr as (r & -> & Hle & Hin). case_decide as Hr; [|by split; [left|lia]].
  rewrite (u64_id r) by (unfold is_u64; lia). rewrite u64_id by (unfold is_u64; lia). split; [|lia].
  right. apply list_elem_of_fmap. exists (Some r). split; [done|]. apply elem_of_app. tauto.
Qed.

(** How many of the blocks lie before [head]. *)
Definition before c n (head : Z) : nat := length (filter (fun r => r < head) (rewinds c n)).

Lemma filter_lt_mono (l : list Z) (x y : Z) :
  x <= y -> (length (filter (fun r => (r < x)%Z) l) <= length (filter (fun r => (r < y)%Z) l))%nat.
Proof. intros Hxy. induction l as [|r l IH]; [done|]. rewrite !filter_cons. repeat case_decide; cbn; lia. Qed.

Lemma before_lt c n r head : r ∈ rewinds c n -> r < head -> (before c n r < before c n head)%nat.
Proof.
  unfold before. intros Hr Hl. induction (rewinds c n) as [|x l IH]; [by apply elem_of_nil in Hr|].
  rewrite !filter_cons. pose proof (filter_lt_mono l r head ltac:(lia)). apply elem_of_cons in Hr as [->|Hr].
  - rewrite decide_False by lia. rewrite decide_True by done. cbn. lia.
  - specialize (IH Hr). repeat case_decide; cbn; lia.
Qed.

(** What the loop returns. *)
Definition lowest c n (err : ConfigCompatError) : Prop := checkCompatible c n (RewindTo err) = None \/ RewindTo err = 0.

Lemma CheckCompatible_step c n height :
  CheckCompatible c n height =
    match checkCompatible c n height with
    | None => run (Ret None)
    | Some err => compatible_loop 31 c n (RewindTo err) (Some err)
    end.
Proof. reflexivity. Qed.

Lemma compatible_loop_spec fuel c n last :
  0 <= RewindTo last < 2 ^ 64 -> (before c n (RewindTo last) < fuel)%nat ->
  exists err, compatible_loop fuel c n (RewindTo last) (Some last) = run (Ret (Some err)) /\ 0 <= RewindTo err <= RewindTo last /\ lowest c n err.
Proof.
  revert last. induction fuel as [|fuel IH]; intros last Hl Hf; [lia|]. cbn [compatible_loop].
  destruct (checkCompatible c n (RewindTo last)) as [err|] eqn:E; [|exists last; split; [done|]; split; [lia|by left]].
  destruct (from_fork_rewind c n _ err Hl (checkCompatible_fork _ _ _ _ E)) as (Hin & Hr & Hlt). case_bool_decide as Heq.
  { exists last. split; [done|]. split; [lia|]. right. lia. }
  pose proof (before_lt c n (RewindTo err) (RewindTo last) Hin ltac:(lia)).
  destruct (IH err) as (e & -> & He & Hlow); [lia|lia|]. exists e. split; [done|]. split; [lia|done].
Qed.

(** [CheckCompatible] ends, and finds the lowest conflict: it accepts exactly
    the configurations that a single check accepts; otherwise the block to which it
    asks to rewind is not above the head, and a chain that is rewound to it accepts
    the new configuration, unless the block is the genesis block. *)
Theorem CheckCompatible_lowest c n height :
  0 <= height < 2 ^ 64 ->
  exists r, CheckCompatible c n height = run (Ret r) /\
    match r with
    | None => checkCompatible c n height = None
    | Some err => checkCompatible c n height <> None /\ 0 <= RewindTo err <= height /\
        (checkCompatible c n (RewindTo err) = None \/ RewindTo err = 0)
    end.
Proof.
  intros Hh. rewrite CheckCompatible_step.
  destruct (checkCompatible c n height) as [err|] eqn:E; [|by exists None].
  destruct (from_fork_rewind c n _ err Hh (checkCompatible_fork _ _ _ _ E)) as (Hin & Hr & _).
  destruct (compatible_loop_spec 31 c n err) as (e & -> & He & Hlow); [lia| |by exists (Some e); split_and!; [..|lia|lia|]].
  unfold before. pose proof (length_filter (fun r => r < RewindTo err) (rewinds c n)) as L.
  change (length (rewinds c n)) with 25%nat in L. lia.
Qed.

Lemma CheckCompatible_lowest_witness :
  exists err, CheckCompatible MainnetChainConfig (with_petersburg MainnetChainConfig (Some 5)) 900000000 = run (Ret (Some err)) /\ RewindTo err = 4 /\
    0 <= RewindTo err <= 900000000.
Proof.
  destruct (CheckCompatible_lowest MainnetChainConfig (with_petersburg MainnetChainConfig (Some 5)) 900000000) as (r & E & H); [lia|].
  assert (E' : CheckCompatible MainnetChainConfig (with_petersburg MainnetChainConfig (Some 5)) 900000000
    = run (Ret (Some (newCompatError "Petersburg fork block" (Some 100000000) (Some 5))))) by (vm_compute; reflexivity).
  rewrite E' in E. injection E as <-. destruct H as (_ & H & _). eexists. split; [exact E'|]. split; [reflexivity|exact H].
Defined.

(** ** The order of the forks *)

Lemma order_cons last a x (p : bool) l :
  p = false \/ is_Some x -> order_loop last (mk_fork a x p :: l) = None ->
  fork_error last (mk_fork a x p) = None /\ order_loop (Some (mk_fork a x p)) l = None.
Proof.
  intros Hp. cbn. destruct (fork_error _ _); [done|]. intros H. split; [done|]. destruct Hp as [->|Hx]; [done|].
  by rewrite bool_decide_true, orb_true_r in H.
Qed.

Lemma order_skip last a l : order_loop last (mk_fork a None true :: l) = None -> order_loop last l = None.
Proof. cbn. by destruct (fork_error _ _). Qed.

Lemma fork_error_None a b x y (p q : bool) num :
  fork_error (Some (mk_fork a x p)) (mk_fork b y q) = None -> isForked y num = true -> isForked x num = true.
Proof.
  unfold fork_error. cbn. destruct x as [x|], y as [y|]; try done. case_decide; [done|]. intros _. cbn. rewrite !bool_decide_eq_true. lia.
Qed.

(** Each fork of a list is active only when all before it are. *)
Fixpoint descending (num : Z) (l : list (option Z)) : Prop :=
  match l with
  | x :: (y :: _) as l' => (isForked y num = true -> isForked x num = true) /\ descending num l'
  | _ => True
  end.

Lemma CheckConfigForkOrder_blocks c num :
  CheckConfigForkOrder c = None ->
  descending num [HomesteadBlock c; EIP150Block c; EIP155Block c; EIP158Block c; ByzantiumBlock c; ConstantinopleBlock c; PetersburgBlock c;
    IstanbulBlock c; YoloV3Block c] /\ (isForked (MuirGlacierBlock c) num = true -> isForked (IstanbulBlock c) num = true).
Proof.
  unfold CheckConfigForkOrder, forks. intros H. destruct (DAOForkBlock c) as [d|], (MuirGlacierBlock c) as [g|];
    repeat lazymatch type of H with
    | order_loop ?last (mk_fork ?a None true :: ?l) = None => pose proof (order_skip last a l H) as H'; clear H; rename H' into H
    | order_loop ?last (mk_fork ?a ?x ?p :: ?l) = None =>
        let K := fresh "K" in
        assert (K : fork_error last (mk_fork a x p) = None /\ order_loop (Some (mk_fork a x p)) l = None)
          by (apply order_cons; [first [left; reflexivity|right; eexists; reflexivity]|exact H]);
        clear H; destruct K as [K H]
    end;
    repeat match goal with K : fork_error (Some _) _ = None |- _ =>
      let K' := fresh in pose proof (fork_error_None _ _ _ _ _ _ num K) as K'; clear K end;
    clear H; cbn [descending]; split_and!; auto; done.
Qed.

(** The check of the order of the forks guarantees that the rules of every
    block are cumulative: whenever a fork is active, so are all before it.  Among
    them, the instruction set that the virtual machine selects by the newest fork
    is that of all active forks. *)
Theorem CheckConfigForkOrder_rules c num :
  CheckConfigForkOrder c = None ->
  let r := (Rules_of c num).2 in
  implb (VmGas.IsYoloV3 r) (VmGas.IsIstanbul r) && implb (VmGas.IsIstanbul r) (VmGas.IsPetersburg r) &&
  implb (VmGas.IsPetersburg r) (VmGas.IsConstantinople r) && implb (VmGas.IsConstantinople r) (VmGas.IsByzantium r) &&
  implb (VmGas.IsByzantium r) (VmGas.IsEIP158 r) && implb (VmGas.IsEIP158 r) (VmGas.IsEIP155 r) &&
  implb (VmGas.IsEIP155 r) (VmGas.IsEIP150 r) && implb (VmGas.IsEIP150 r) (VmGas.IsHomestead r) && implb (IsMuirGlacier c num) (VmGas.IsIstanbul r) = true.
Proof.
  intros [(H1 & H2 & H3 & H4 & H5 & H6 & H7 & H8 & _) H9]%(CheckConfigForkOrder_blocks c num). cbn [Rules_of snd].
  rewrite !andb_true_iff, !implb_true_iff. cbn. unfold IsYoloV3, IsIstanbul, IsConstantinople, IsByzantium, IsEIP158, IsEIP155, IsEIP150, IsHomestead, IsMuirGlacier.
  rewrite IsPetersburg_eq. unfold petersburg in *. split_and!; auto; destruct (PetersburgBlock c) as [b|]; auto; cbn in *; intros; exfalso; by auto.
Qed.

Lemma CheckConfigForkOrder_rules_witness :
  let r := (Rules_of MainnetChainConfig 600000000).2 in implb (VmGas.IsIstanbul r) (VmGas.IsPetersburg r) = true.
Proof.
  pose proof (CheckConfigForkOrder_rules MainnetChainConfig 600000000) as H. cbv zeta in H. rewrite !andb_true_iff in H.
  destruct H as ((((((((_ & H) & _) & _) & _) & _) & _) & _) & _); [reflexivity|exact H].
Defined.
