(* ===== verification/BlockTypes.v ===== *)
(** * Headers and blocks (core/types/block.go)

    A header and its hash, which is the Keccak-256 hash of its RLP encoding. *)

From stdpp Require Import gmap.
From S2P Require Import Prelude Rlp RlpEncode StateDB VmPrecompiles.

Module Types.

(** Hashes and addresses are big-endian integers; the nonce is eight bytes. *)
Record Header := mk_Header {
  ParentHash : Z;
  UncleHash : Z;
  Coinbase : Z;
  Root : Z;
  TxHash : Z;
  ReceiptHash : Z;
  Bloom : bytes;
  Difficulty : Z;
  Number : Z;
  GasLimit : Z;
  GasUsed : Z;
  Time : Z;
  Extra : bytes;
  MixDigest : Z;
  Nonce : bytes
}.

(** The part of a block that consensus looks at. *)
Record Block := mk_Block { header : Header; uncles : list Header }.

Definition hash_val (h : Z) : val := ByteArrayV false (be_bytes 32 h).
Definition address_val (a : Z) : val := ByteArrayV false (be_bytes 20 a).

(** What the encoder sees of a header. *)
Definition header_val (h : Header) : val :=
  StructV [hash_val (ParentHash h); hash_val (UncleHash h); address_val (Coinbase h); hash_val (Root h); hash_val (TxHash h);
    hash_val (ReceiptHash h); ByteArrayV false (Bloom h); BigPtrV (Some (Difficulty h)); BigPtrV (Some (Number h)); UintV (GasLimit h);
    UintV (GasUsed h); UintV (Time h); BytesV (Extra h); hash_val (MixDigest h); ByteArrayV false (Nonce h)].

Section Hash.
Context {C : Crypto}.

(** An encoding error leaves the hash of nothing. *)
Definition rlpHash (x : val) : Z :=
  match EncodeToBytes x with
  | Ret data => be_to_Z (Keccak256 data)
  | _ => be_to_Z (Keccak256 [])
  end.

Definition Hash (h : Header) : Z := rlpHash (header_val h).

(** A nil slice of headers. *)
Definition EmptyUncleHash : Z := rlpHash (SliceV false []).

Definition CalcUncleHash (uncles : list Header) : Z :=
  match uncles with
  | [] => EmptyUncleHash
  | _ => rlpHash (SliceV false (map (fun h => PtrV List (Some (header_val h))) uncles))
  end.

End Hash.

End Types.
