(* ===== verification/Ethash.v ===== *)
(** * Proof of work: difficulty and rewards (consensus/ethash)

    The difficulty of the next block, once with big integers and once with the
    package of 256-bit integers, and the rewards of a block. *)

From stdpp Require Import gmap.
From S2P Require Import Prelude Rlp RlpEncode Trie AccessList StateDB Uint256 VmAnalysis VmContract VmMemory VmGas VmPrecompiles.
From S2P Require Import ChainConfig BlockTypes.

Import Types.

(** ** params/protocol_params.go *)

Definition DifficultyBoundDivisor : Z := 512.
Definition MinimumDifficulty : Z := 131072.
Definition DurationLimit : Z := 12.

(** ** consensus.go: difficulty *)

Definition expDiffPeriod : Z := 100000.

Section Difficulty.
Context {C : Crypto}.

(** [big.Int.Div] rounds down for the positive divisors that occur here. *)
Definition makeDifficultyCalculator (bombDelay time : Z) (parent : Header) : Z :=
  let bombDelayFromParent := bombDelay - 1 in
  let x := time - Time parent in
  let x := x / 9 in
  let x := if decide (UncleHash parent = EmptyUncleHash) then 1 - x else 2 - x in
  let x := if decide (x < -99) then -99 else x in
  let y := Difficulty parent / DifficultyBoundDivisor in
  let x := y * x in
  let x := Difficulty parent + x in
  let x := if decide (x < MinimumDifficulty) then MinimumDifficulty else x in
  let fakeBlockNumber := if decide (Number parent >= bombDelayFromParent) then Number parent - bombDelayFromParent else 0 in
  let periodCount := fakeBlockNumber / expDiffPeriod in
  if decide (periodCount > 1) then x + 2 ^ (periodCount - 2) else x.

Definition calcDifficultyEip2384 : Z -> Header -> Z := makeDifficultyCalculator 9000000.
Definition calcDifficultyConstantinople : Z -> Header -> Z := makeDifficultyCalculator 5000000.
Definition calcDifficultyByzantium : Z -> Header -> Z := makeDifficultyCalculator 3000000.

Definition calcDifficultyHomestead (time : Z) (parent : Header) : Z :=
  let x := time - Time parent in
  let x := x / 10 in
  let x := 1 - x in
  let x := if decide (x < -99) then -99 else x in
  let y := Difficulty parent / DifficultyBoundDivisor in
  let x := y * x in
  let x := Difficulty parent + x in
  let x := if decide (x < MinimumDifficulty) then MinimumDifficulty else x in
  let periodCount := (Number parent + 1) / expDiffPeriod in
  if decide (periodCount > 1) then x + 2 ^ (periodCount - 2) else x.

(** common/math/big.go *)
Definition BigMax (x y : Z) : Z := if decide (x < y) then y else x.

Definition calcDifficultyFrontier (time : Z) (parent : Header) : Z :=
  let adjust := Difficulty parent / DifficultyBoundDivisor in
  let diff := if decide (time - Time parent < DurationLimit) then Difficulty parent + adjust else Difficulty parent - adjust in
  let diff := if decide (diff < MinimumDifficulty) then MinimumDifficulty else diff in
  let periodCount := (Number parent + 1) / expDiffPeriod in
  if decide (periodCount > 1) then BigMax (diff + 2 ^ (periodCount - 2)) MinimumDifficulty else diff.

Definition CalcDifficulty (config : Params.ChainConfig) (time : Z) (parent : Header) : Z :=
  let next := Number parent + 1 in
  if Params.IsMuirGlacier config next then calcDifficultyEip2384 time parent
  else if Params.IsConstantinople config next then calcDifficultyConstantinople time parent
  else if Params.IsByzantium config next then calcDifficultyByzantium time parent
  else if Params.IsHomestead config next then calcDifficultyHomestead time parent
  else calcDifficultyFrontier time parent.

(** ** difficulty.go *)

Definition frontierDurationLimit : Z := 13.
Definition minimumDifficulty : Z := 131072.
Definition expDiffPeriodUint : Z := 100000.
Definition difficultyBoundDivisor : Z := 11.

Context {U : Uint256}.

Definition CalcDifficultyFrontierU256 (time : Z) (parent : Header) : Z :=
  let pDiff := (FromBig (Difficulty parent)).1 in
  let adjust := Rsh pDiff difficultyBoundDivisor in
  let pDiff := if decide (u64 (time - Time parent) < frontierDurationLimit) then Add pDiff adjust else Sub pDiff adjust in
  let pDiff := if Lt pDiff minimumDifficulty then minimumDifficulty else pDiff in
  let periodCount := u64 (u64 (Number parent) + 1) / expDiffPeriodUint in
  if decide (periodCount > 1) then Add pDiff (Lsh 1 (periodCount - 2)) else pDiff.

Definition CalcDifficultyHomesteadU256 (time : Z) (parent : Header) : Z :=
  let pDiff := (FromBig (Difficulty parent)).1 in
  let adjust := Rsh pDiff difficultyBoundDivisor in
  let x := u64 (time - Time parent) / 10 in
  let '(x, neg) := if decide (x = 0) then (1, false) else if decide (x >= 100) then (99, true) else (x - 1, true) in
  let adjust := Mul adjust x in
  let pDiff := if (neg : bool) then Sub pDiff adjust else Add pDiff adjust in
  let pDiff := if Lt pDiff minimumDifficulty then minimumDifficulty else pDiff in
  let periodCount := u64 (1 + u64 (Number parent)) / expDiffPeriodUint in
  if decide (periodCount > 1) then Add pDiff (Lsh 1 (periodCount - 2)) else pDiff.

Definition MakeDifficultyCalculatorU256 (bombDelay time : Z) (parent : Header) : Z :=
  let bombDelayFromParent := u64 (u64 bombDelay - 1) in
  let x := u64 (time - Time parent) / 9 in
  let c := if decide (UncleHash parent = EmptyUncleHash) then 1 else 2 in
  let xNeg := bool_decide (x >= c) in
  let x := if xNeg then x - c else c - x in
  let x := if decide (x > 99) then 99 else x in
  let pDiff := (FromBig (Difficulty parent)).1 in
  let y := Rsh pDiff difficultyBoundDivisor in
  let z := Mul y x in
  let y := if xNeg then Sub pDiff z else Add pDiff z in
  let y := if Lt y minimumDifficulty then minimumDifficulty else y in
  let pNum := u64 (Number parent) in
  if decide (pNum >= bombDelayFromParent) then
    let fakeBlockNumber := pNum - bombDelayFromParent in
    if decide (fakeBlockNumber >= 2 * expDiffPeriodUint) then Add (Lsh 1 (fakeBlockNumber / expDiffPeriodUint - 2)) y else y
  else y.

End Difficulty.

(** ** consensus.go: rewards *)

Definition FrontierBlockReward : Z := 8 * 10 ^ 18.
Definition RewardReductionInterval : Z := 2100000.
Definition FirstReductionBlock : Z := 4200000.
Definition MinimumBlockReward : Z := 10 ^ 18.
Definition OneVBC : Z := 10 ^ 18.

Definition calcBlockReward (blockNumber : Z) : Z :=
  if decide (blockNumber < FirstReductionBlock) then FrontierBlockReward
  else
    let blocksSinceFirstReduction := blockNumber - FirstReductionBlock in
    let reductions := blocksSinceFirstReduction / RewardReductionInterval in
    let reductions := reductions + 1 in
    if decide (reductions >= 7) then MinimumBlockReward
    else FrontierBlockReward - OneVBC * reductions.

Section Rewards.
Context {B : Backend}.

(** The loop over the uncles: the state, and the reward of the coinbase so far. *)
Definition reward_uncle (header : Header) (blockReward : Z) (acc : StateDB * Z) (uncle : Header) : StateDB * Z :=
  let '(state, reward) := acc in
  let r := Number uncle + 8 in
  let r := r - Number header in
  let r := r * blockReward in
  let r := r / 8 in
  let state := AddBalance state (Coinbase uncle) r in
  let r := blockReward / 32 in
  (state, reward + r).

Definition accumulateRewards (state : StateDB) (header : Header) (uncles : list Header) : StateDB :=
  let blockReward := calcBlockReward (Number header) in
  let '(state, reward) := fold_left (reward_uncle header blockReward) uncles (state, blockReward) in
  AddBalance state (Coinbase header) reward.

End Rewards.
