(* ===== verification/EthashProofs.v ===== *)
(** * What difficulty and rewards come to (consensus/ethash) *)

From stdpp Require Import gmap.
From S2P Require Import Prelude Rlp RlpEncode Trie AccessList StateDB StateDBProofs StateDBSnapshots StateDBObserve StateDBEffects.
From S2P Require Import Uint256 VmAnalysis VmContract VmMemory VmGas VmPrecompiles VmGasProofs VmSstore VmRefund VmSupply.
From S2P Require Import ChainConfig BlockTypes Ethash.

Import Types.

(** ** The rule for the difficulty *)

(** The exponential factor for block [n] of its period. *)
Definition bomb (n : Z) : Z := let p := n / 100000 in if decide (2 <= p) then 2 ^ (p - 2) else 0.

(** The difficulty [d] of the parent, changed by [k] parts of [divisor]. *)
Definition difficulty_rule (divisor d k n : Z) : Z := Z.max (d + d / divisor * Z.max k (-99)) 131072 + bomb n.

Section Difficulty.
Context {C : Crypto}.
Implicit Types (parent : Header).

Definition has_uncles parent : Z := if decide (UncleHash parent = EmptyUncleHash) then 1 else 2.
Definition byzantium_factor time parent : Z := has_uncles parent - (time - Time parent) / 9.
Definition homestead_factor time parent : Z := 1 - (time - Time parent) / 10.
Definition frontier_factor (limit time : Z) parent : Z := if decide (time - Time parent < limit) then 1 else -1.

Lemma bomb_eq x n : (let periodCount := n / expDiffPeriod in if decide (periodCount > 1) then x + 2 ^ (periodCount - 2) else x) = x + bomb n.
Proof. unfold bomb, expDiffPeriod. cbv zeta. repeat case_decide; lia. Qed.

Lemma clamp_eq x y : (if decide (x < y) then y else x) = Z.max x y.
Proof. case_decide; lia. Qed.

(** The calculators with big integers follow the rule with the divisor of the
    parameters. *)
Lemma makeDifficultyCalculator_rule bombDelay time parent :
  makeDifficultyCalculator bombDelay time parent =
    difficulty_rule DifficultyBoundDivisor (Difficulty parent) (byzantium_factor time parent) (Z.max (Number parent - (bombDelay - 1)) 0).
Proof.
  unfold makeDifficultyCalculator, difficulty_rule, byzantium_factor, has_uncles. cbv zeta. rewrite bomb_eq, !clamp_eq. unfold MinimumDifficulty.
  f_equal; [|f_equal; case_decide; lia]. do 3 f_equal. case_decide; lia.
Qed.

Lemma calcDifficultyHomestead_rule time parent :
  calcDifficultyHomestead time parent = difficulty_rule DifficultyBoundDivisor (Difficulty parent) (homestead_factor time parent) (Number parent + 1).
Proof. unfold calcDifficultyHomestead, difficulty_rule, homestead_factor. cbv zeta. rewrite bomb_eq, !clamp_eq. done. Qed.

Lemma calcDifficultyFrontier_rule time parent :
  calcDifficultyFrontier time parent = difficulty_rule DifficultyBoundDivisor (Difficulty parent) (frontier_factor DurationLimit time parent) (Number parent + 1).
Proof.
  unfold calcDifficultyFrontier, difficulty_rule, frontier_factor, BigMax. cbv zeta. rewrite !clamp_eq. unfold MinimumDifficulty.
  set (q := Difficulty parent / _). set (k := if decide (_ < DurationLimit) then 1 else -1).
  replace (if decide (_ < DurationLimit) then _ else _) with (Difficulty parent + q * Z.max k (-99)) by (unfold k; case_decide; lia).
  unfold bomb, expDiffPeriod. cbv zeta. pose proof (Z.pow_nonneg 2 ((Number parent + 1) / 100000 - 2)). repeat case_decide; lia.
Qed.

(** ** The calculators with 256-bit integers *)

Context {U : Uint256} {UL : Uint256Laws U}.

Lemma Lsh_1 n : 0 <= n < 256 -> Lsh 1 n = 2 ^ n.
Proof.
  intros Hn. rewrite Lsh_spec by (done || lia). rewrite Z.shiftl_mul_pow2, Z.mul_1_l by lia. apply Z.mod_small.
  split; [lia|]. apply Z.pow_lt_mono_r; lia.
Qed.

(** Adding or taking [m] parts of the difficulty, and the minimum. *)
Lemma adjust_U256 d (m : Z) (neg : bool) :
  is_u256 d -> 0 <= m <= 99 -> (neg = false -> d + d / 2048 * m < 2 ^ 256) ->
  let y := Rsh d difficultyBoundDivisor in
  let v := if neg then Sub d (Mul y m) else Add d (Mul y m) in
  (if Lt v minimumDifficulty then minimumDifficulty else v) = Z.max (d + d / 2048 * (if neg then - m else m)) 131072.
Proof.
  intros Hd Hm Hs y v. assert (Ey : y = d / 2048) by (unfold y, difficultyBoundDivisor; rewrite Rsh_spec by (done || lia); by rewrite Z.shiftr_div_pow2).
  unfold is_u256 in *. assert (Hq : 0 <= d / 2048 /\ d / 2048 * 2048 <= d) by (split; [apply Z.div_pos; lia|pose proof (Z.mul_div_le d 2048); lia]).
  assert (Ez : Mul y m = d / 2048 * m) by (rewrite Ey, Mul_spec by (unfold is_u256; lia); apply Z.mod_small; nia).
  assert (Ev : v = d + d / 2048 * (if neg then - m else m)).
  { unfold v. rewrite Ez. destruct neg; [|specialize (Hs eq_refl)]; [rewrite Sub_spec by (unfold is_u256; nia)|rewrite Add_spec by (unfold is_u256; nia)]; rewrite Z.mod_small; nia. }
  assert (Hv : is_u256 v) by (rewrite Ev; unfold is_u256; destruct neg; [|specialize (Hs eq_refl)]; nia). unfold minimumDifficulty. rewrite Lt_spec by done.
  rewrite Ev. rewrite bool_decide_decide. case_decide; cbn; lia.
Qed.

Lemma bomb_U256 x n :
  0 <= x -> 0 <= n -> x + bomb n < 2 ^ 256 ->
  (if decide (n / expDiffPeriodUint > 1) then Add x (Lsh 1 (n / expDiffPeriodUint - 2)) else x) = x + bomb n /\
  (if decide (n / expDiffPeriodUint > 1) then Add (Lsh 1 (n / expDiffPeriodUint - 2)) x else x) = x + bomb n.
Proof.
  unfold bomb, expDiffPeriodUint. cbv zeta. set (p := n / 100000). intros Hx Hn Hs.
  destruct (decide (p > 1)) as [Hp|Hp], (decide (2 <= p)) as [Hp'|Hp']; try lia. assert (Hl : p - 2 < 256).
  { apply (Z.pow_lt_mono_r_iff 2); lia. }
  rewrite Lsh_1 by lia. pose proof (Z.pow_pos_nonneg 2 (p - 2) ltac:(lia) ltac:(lia)).
  rewrite !Add_spec by (unfold is_u256; lia). rewrite !Z.mod_small by lia. lia.
Qed.

Lemma rule_parts d k n : difficulty_rule 2048 d k n < 2 ^ 256 -> d + d / 2048 * Z.max k (-99) < 2 ^ 256.
Proof. unfold difficulty_rule. intros H. assert (0 <= bomb n) by (unfold bomb; cbv zeta; case_decide; lia). lia. Qed.

(** What the header of a block and its parent satisfy. *)
Record timely time parent : Prop := {
  ti_time : is_u64 time;
  ti_parent : 0 <= Time parent <= time;
  ti_number : 0 <= Number parent < 2 ^ 64 - 1;
  ti_difficulty : is_u256 (Difficulty parent)
}.

Lemma timely_elapsed time parent : timely time parent -> u64 (time - Time parent) = time - Time parent.
Proof. intros [H1 H2 _ _]. unfold is_u64 in H1. apply u64_id. unfold is_u64. lia. Qed.

Lemma timely_FromBig time parent : timely time parent -> (FromBig (Difficulty parent)).1 = Difficulty parent.
Proof. intros [_ _ _ H]. rewrite FromBig_spec. cbn. apply Z.mod_small. apply H. Qed.

(** The end of all three calculators. *)
Lemma finish_U256 d m (neg : bool) k n :
  is_u256 d -> 0 <= m <= 99 -> Z.max k (-99) = (if neg then - m else m) -> 0 <= n -> difficulty_rule 2048 d k n < 2 ^ 256 ->
  let y := Rsh d difficultyBoundDivisor in
  let v := if neg then Sub d (Mul y m) else Add d (Mul y m) in
  let v := if Lt v minimumDifficulty then minimumDifficulty else v in
  (if decide (n / expDiffPeriodUint > 1) then Add v (Lsh 1 (n / expDiffPeriodUint - 2)) else v) = difficulty_rule 2048 d k n /\
  (if decide (n / expDiffPeriodUint > 1) then Add (Lsh 1 (n / expDiffPeriodUint - 2)) v else v) = difficulty_rule 2048 d k n.
Proof.
  intros Hd Hm Hk Hn Hr y v v'.
  assert (Hs : neg = false -> d + d / 2048 * m < 2 ^ 256).
  { intros ->. rewrite <- Hk. eapply rule_parts, Hr. }
  pose proof (adjust_U256 d m neg Hd Hm Hs) as E. cbv zeta in E. fold y v v' in E.
  unfold difficulty_rule in *. rewrite Hk in *. rewrite <- E in *. apply bomb_U256; [lia|done|done].
Qed.

Lemma MakeDifficultyCalculatorU256_rule bombDelay time parent :
  timely time parent -> 1 <= bombDelay < 2 ^ 64 ->
  let v := difficulty_rule 2048 (Difficulty parent) (byzantium_factor time parent) (Z.max (Number parent - (bombDelay - 1)) 0) in
  v < 2 ^ 256 -> MakeDifficultyCalculatorU256 bombDelay time parent = v.
Proof.
  intros T Hb v Hv. pose proof T as [T1 T2 T3 T4]. unfold MakeDifficultyCalculatorU256. cbv zeta. rewrite (timely_elapsed _ _ T), (timely_FromBig _ _ T).
  fold (has_uncles parent). set (x := (time - Time parent) / 9). set (c := has_uncles parent).
  assert (Hx : 0 <= x) by (apply Z.div_pos; lia). assert (Hc : 1 <= c <= 2) by (unfold c, has_uncles; case_decide; lia).
  rewrite (u64_id bombDelay), (u64_id (bombDelay - 1)), (u64_id (Number parent)) by (unfold is_u64; lia).
  set (neg := bool_decide (x >= c)). set (m := if decide (_ > 99) then 99 else _).
  assert (Hm : 0 <= m <= 99 /\ Z.max (c - x) (-99) = if neg then - m else m) by (unfold m, neg; case_bool_decide; case_decide; lia).
  destruct (finish_U256 (Difficulty parent) m neg (c - x) (Z.max (Number parent - (bombDelay - 1)) 0)) as [_ E]; [done|apply Hm|apply Hm|lia|exact Hv|].
  cbv zeta in E. refine (eq_trans _ E). set (y := if Lt _ _ then _ else _). unfold expDiffPeriodUint.
  destruct (decide (Number parent >= bombDelay - 1)) as [H1|H1]; [|by rewrite Z.max_r by lia]. rewrite Z.max_l by lia.
  set (n := Number parent - (bombDelay - 1)). destruct (decide (n >= 2 * 100000)) as [H2|H2].
  - rewrite decide_True; [done|]. assert (2 <= n / 100000) by (apply Z.div_le_lower_bound; lia). lia.
  - rewrite decide_False; [done|]. assert (n / 100000 < 2) by (apply Z.div_lt_upper_bound; lia). lia.
Qed.

Lemma CalcDifficultyHomesteadU256_rule time parent :
  timely time parent ->
  let v := difficulty_rule 2048 (Difficulty parent) (homestead_factor time parent) (Number parent + 1) in
  v < 2 ^ 256 -> CalcDifficultyHomesteadU256 time parent = v.
Proof.
  intros T v Hv. pose proof T as [T1 T2 T3 T4]. unfold CalcDifficultyHomesteadU256. cbv zeta. rewrite (timely_elapsed _ _ T), (timely_FromBig _ _ T).
  rewrite (u64_id (Number parent)), (u64_id (1 + Number parent)) by (unfold is_u64; lia). rewrite (Z.add_comm 1).
  unfold homestead_factor in v. set (x := (time - Time parent) / 10) in *. assert (Hx : 0 <= x) by (apply Z.div_pos; lia).
  assert (Hm : exists m (neg : bool), (if decide (x = 0) then (1, false) else if decide (x >= 100) then (99, true) else (x - 1, true)) = (m, neg) /\
    0 <= m <= 99 /\ Z.max (1 - x) (-99) = if neg then - m else m) 
    by (repeat case_decide; eexists _, _; (split; [reflexivity|]); cbn; lia).
  destruct Hm as (m & neg & -> & Hm1 & Hm2).
  destruct (finish_U256 (Difficulty parent) m neg (1 - x) (Number parent + 1)) as [E _]; [done|done|done|lia|exact Hv|]. exact E.
Qed.

Lemma CalcDifficultyFrontierU256_rule time parent :
  timely time parent ->
  let v := difficulty_rule 2048 (Difficulty parent) (frontier_factor frontierDurationLimit time parent) (Number parent + 1) in
  v < 2 ^ 256 -> CalcDifficultyFrontierU256 time parent = v.
Proof.
  intros T v Hv. pose proof T as [T1 T2 T3 T4]. unfold CalcDifficultyFrontierU256. cbv zeta. rewrite (timely_elapsed _ _ T), (timely_FromBig _ _ T).
  rewrite (u64_id (Number parent)), (u64_id (Number parent + 1)) by (unfold is_u64; lia).
  set (d := Difficulty parent) in *. assert (Hq : is_u256 (d / 2048)).
  { unfold is_u256 in *. split; [apply Z.div_pos; lia|]. apply Z.div_lt_upper_bound; lia. }
  assert (Ey : Rsh d difficultyBoundDivisor = d / 2048) by (unfold difficultyBoundDivisor; rewrite Rsh_spec by (done || lia); by rewrite Z.shiftr_div_pow2).
  assert (E1 : Mul (Rsh d difficultyBoundDivisor) 1 = Rsh d difficultyBoundDivisor).
  { rewrite Ey, Mul_spec by done. rewrite Z.mul_1_r. apply Z.mod_small, Hq. }
  unfold frontier_factor in v. rewrite <- E1. subst v. destruct (decide (time - Time parent < frontierDurationLimit)) as [Hd|Hd].
  - destruct (finish_U256 d 1 false 1 (Number parent + 1)) as [E _]; [done|lia|lia|lia|exact Hv|]. exact E.
  - destruct (finish_U256 d 1 true (-1) (Number parent + 1)) as [E _]; [done|lia|lia|lia|exact Hv|]. exact E.
Qed.

(** The calculators over 256-bit integers compute, without wrapping around,
    the rule of the difficulty over the integers with a divisor of 2048, whenever
    its value fits. *)
Theorem DifficultyU256_exact bombDelay time parent :
  timely time parent -> 1 <= bombDelay < 2 ^ 64 ->
  let fits x y := y < 2 ^ 256 -> x = y in
  let d := Difficulty parent in
  fits (MakeDifficultyCalculatorU256 bombDelay time parent)
    (difficulty_rule 2048 d (byzantium_factor time parent) (Z.max (Number parent - (bombDelay - 1)) 0)) /\
  fits (CalcDifficultyHomesteadU256 time parent) (difficulty_rule 2048 d (homestead_factor time parent) (Number parent + 1)) /\
  fits (CalcDifficultyFrontierU256 time parent) (difficulty_rule 2048 d (frontier_factor frontierDurationLimit time parent) (Number parent + 1)).
Proof.
  intros T Hb fits d. split_and!; [exact (MakeDifficultyCalculatorU256_rule bombDelay time parent T Hb)|exact (CalcDifficultyHomesteadU256_rule time parent T)|
    exact (CalcDifficultyFrontierU256_rule time parent T)].
Qed.

(** When the rule with the divisor 2048 and a factor [k] differs from that with the divisor
    512 and a factor [k'] of the same sign, or of the other sign if it is smaller. *)
Lemma divisors_differ d k k' n :
  131072 <= d -> -1 <= Z.sgn k' <= Z.sgn k -> (k = k' \/ Z.abs k = 1 /\ Z.abs k' = 1) ->
  difficulty_rule 2048 d k n <> difficulty_rule 512 d k' n <-> k <> 0 /\ 131072 < d + d / 2048 * Z.max k (-99).
Proof.
  intros Hd Hs Hk. unfold difficulty_rule. set (b := bomb n). assert (d / 2048 * 4 <= d / 512 /\ 64 <= d / 2048) as [Hp Hq].
  { pose proof (Z.div_mod d 2048 ltac:(lia)). pose proof (Z.mod_pos_bound d 2048 ltac:(lia)). pose proof (Z.div_mod d 512 ltac:(lia)). pose proof (Z.mod_pos_bound d 512 ltac:(lia)). lia. }
  revert Hp Hq. generalize (d / 2048) (d / 512). intros q p Hp Hq. destruct Hk as [<-|[H1 H2]].
  - destruct (Z.lt_trichotomy k 0) as [Hk|[->|Hk]]; [|lia|split; [nia|intros _; rewrite !Z.max_l by lia; nia]].
    assert (Z.max k (-99) < 0) as Hm by lia. revert Hm. generalize (Z.max k (-99)). intros m Hm. assert (p * m < q * m) by nia. lia.
  - assert (k = 1 \/ k = -1) as [->| ->] by lia; (assert (k' = 1 \/ k' = -1) as [->| ->] by lia); cbn in Hs; try lia.
Qed.

(** C35: The 256-bit calculators do not agree with those with big integers, which divide
    by 512 in the place of 2048. From a difficulty of at least the minimum of 131072,
    and as long as the 256-bit value does not overflow, those of Byzantium and
    Homestead differ exactly on the blocks whose difficulty is to change and is not cut
    off at the minimum by the 256-bit rule; those of Frontier, which also differ in the
    limit of 13 seconds, exactly where it is not cut off. *)
Theorem DifficultyU256_diverges bombDelay time parent :
  timely time parent -> 131072 <= Difficulty parent -> 1 <= bombDelay < 2 ^ 64 ->
  let d := Difficulty parent in
  let above k := 131072 < d + d / 2048 * Z.max k (-99) in
  (difficulty_rule 2048 d (byzantium_factor time parent) (Z.max (Number parent - (bombDelay - 1)) 0) < 2 ^ 256 ->
    MakeDifficultyCalculatorU256 bombDelay time parent <> makeDifficultyCalculator bombDelay time parent <->
    byzantium_factor time parent <> 0 /\ above (byzantium_factor time parent)) /\
  (difficulty_rule 2048 d (homestead_factor time parent) (Number parent + 1) < 2 ^ 256 ->
    CalcDifficultyHomesteadU256 time parent <> calcDifficultyHomestead time parent <->
    homestead_factor time parent <> 0 /\ above (homestead_factor time parent)) /\
  (difficulty_rule 2048 d (frontier_factor frontierDurationLimit time parent) (Number parent + 1) < 2 ^ 256 ->
    CalcDifficultyFrontierU256 time parent <> calcDifficultyFrontier time parent <-> above (frontier_factor frontierDurationLimit time parent)).
Proof.
  intros T Hd Hb d above. split_and!; intros Hf.
  - rewrite MakeDifficultyCalculatorU256_rule by done. rewrite makeDifficultyCalculator_rule. apply divisors_differ; [done|lia|by left].
  - rewrite CalcDifficultyHomesteadU256_rule by done. rewrite calcDifficultyHomestead_rule. apply divisors_differ; [done|lia|by left].
  - rewrite CalcDifficultyFrontierU256_rule by done. rewrite calcDifficultyFrontier_rule.
    assert (forall l, frontier_factor l time parent = 1 \/ frontier_factor l time parent = -1) as Hk by (intros l; unfold frontier_factor; case_decide; auto).
    assert (frontier_factor DurationLimit time parent <= frontier_factor frontierDurationLimit time parent) as Hle by (unfold frontier_factor, DurationLimit, frontierDurationLimit; repeat case_decide; lia).
    pose proof (Hk frontierDurationLimit). pose proof (Hk DurationLimit). unfold DifficultyBoundDivisor. rewrite divisors_differ; [unfold above, d; lia|done|lia|right; lia].
Qed.

(** ** The difficulty over time *)

Lemma rule_min divisor d k n : 131072 <= difficulty_rule divisor d k n.
Proof. unfold difficulty_rule. assert (0 <= bomb n) by (unfold bomb; cbv zeta; case_decide; lia). lia. Qed.

Lemma rule_mono divisor d k k' n : 0 < divisor -> 0 <= d -> k <= k' -> difficulty_rule divisor d k n <= difficulty_rule divisor d k' n.
Proof. intros Hp Hd Hk. unfold difficulty_rule. pose proof (Z.div_pos d divisor Hd Hp). nia. Qed.

Lemma factors_mono time time' parent :
  time <= time' ->
  byzantium_factor time' parent <= byzantium_factor time parent /\ homestead_factor time' parent <= homestead_factor time parent /\
  frontier_factor DurationLimit time' parent <= frontier_factor DurationLimit time parent.
Proof.
  intros Ht. unfold byzantium_factor, homestead_factor, frontier_factor.
  pose proof (Z.div_le_mono (time - Time parent) (time' - Time parent) 9 ltac:(lia) ltac:(lia)).
  pose proof (Z.div_le_mono (time - Time parent) (time' - Time parent) 10 ltac:(lia) ltac:(lia)). repeat case_decide; lia.
Qed.

(** Each case of [CalcDifficulty] is the rule, for some factor and period. *)
Lemma CalcDifficulty_rule config parent :
  exists n (k : Z -> Z), (forall time, CalcDifficulty config time parent = difficulty_rule 512 (Difficulty parent) (k time) n) /\
    (forall time time', time <= time' -> k time' <= k time) /\ (forall time, Time parent < time -> k time <= 2) /\
    (0 <= Number parent -> n <= Number parent + 1).
Proof.
  unfold CalcDifficulty, calcDifficultyEip2384, calcDifficultyConstantinople, calcDifficultyByzantium.
  assert (Hb : forall time, Time parent < time -> byzantium_factor time parent <= 2 /\ homestead_factor time parent <= 2).
  { intros time Ht. unfold byzantium_factor, has_uncles, homestead_factor. pose proof (Z.div_pos (time - Time parent) 9 ltac:(lia) ltac:(lia)).
    pose proof (Z.div_pos (time - Time parent) 10 ltac:(lia) ltac:(lia)). case_decide; lia. }
  destruct (Params.IsMuirGlacier _ _); [|destruct (Params.IsConstantinople _ _); [|destruct (Params.IsByzantium _ _); [|destruct (Params.IsHomestead _ _)]]].
  1-3: eexists _, (fun time => byzantium_factor time parent); split; [intros time; apply makeDifficultyCalculator_rule|];
    split; [intros time time' Ht; by apply factors_mono|split; [intros time Ht; by apply Hb|lia]].
  - eexists _, (fun time => homestead_factor time parent). split; [intros time; apply calcDifficultyHomestead_rule|].
    split; [intros time time' Ht; by apply factors_mono|split; [intros time Ht; by apply Hb|lia]].
  - eexists _, (fun time => frontier_factor DurationLimit time parent). split; [intros time; apply calcDifficultyFrontier_rule|].
    split; [intros time time' Ht; by apply factors_mono|split; [intros time Ht; unfold frontier_factor; case_decide; lia|lia]].
Qed.

(** The difficulty of the next block, under the rules of any fork: never below
    the minimum; the later the block, the lower; and, apart from the exponential
    factor, between 99 parts of 512 less and 2 parts of 512 more than that of its
    parent, or the minimum. *)
Theorem CalcDifficulty_bounds config time parent :
  0 <= Difficulty parent -> 0 <= Number parent -> Time parent < time ->
  MinimumDifficulty <= CalcDifficulty config time parent /\
  (forall time', time <= time' -> CalcDifficulty config time' parent <= CalcDifficulty config time parent) /\
  exists n, n <= Number parent + 1 /\
    Difficulty parent - 99 * (Difficulty parent / 512) <= CalcDifficulty config time parent - bomb n <= Z.max (Difficulty parent + 2 * (Difficulty parent / 512)) MinimumDifficulty.
Proof.
  intros Hd Hn Ht. destruct (CalcDifficulty_rule config parent) as (n & k & Hk & Hm & H2 & H3). rewrite Hk. split; [apply rule_min|]. split.
  - intros time' Hle. rewrite Hk. apply rule_mono; [lia|done|by apply Hm].
  - exists n. split; [by apply H3|]. unfold difficulty_rule. specialize (H2 time Ht).
    pose proof (Z.div_pos (Difficulty parent) 512 Hd ltac:(lia)). unfold MinimumDifficulty. nia.
Qed.

End Difficulty.

(** ** The reward of a block *)

(** How many of the forks are active. *)
Fixpoint active (num : Z) (l : list (option Z)) : Z :=
  match l with
  | [] => 0
  | s :: l => (if Params.isForked s num then 1 else 0) + active num l
  end.

(** The forks that lower the reward. *)
Definition reward_forks (c : Params.ChainConfig) : list (option Z) :=
  [Params.QuicheBlock c; Params.MicheBlock c; Params.RuskBlock c; Params.CelestiaBlock c; Params.MafuyuBlock c; Params.KipfelBlock c; Params.LuminaBlock c].

(** C36: The reward follows the schedule of the main network: 8 coins, and one less
    for each of the seven forks of its configuration that is active. *)
Theorem calcBlockReward_schedule num :
  calcBlockReward num = (8 - active num (reward_forks Params.MainnetChainConfig)) * 10 ^ 18.
Proof.
  unfold calcBlockReward, FirstReductionBlock, RewardReductionInterval, MinimumBlockReward, FrontierBlockReward, OneVBC.
  set (q := (num - 4200000) / 2100000). cbv zeta.
  assert (Hq : 2100000 * q <= num - 4200000 < 2100000 * q + 2100000).
  { pose proof (Z.div_mod (num - 4200000) 2100000 ltac:(lia)). pose proof (Z.mod_pos_bound (num - 4200000) 2100000 ltac:(lia)). lia. }
  clearbody q. cbn [active reward_forks Params.isForked Params.QuicheBlock Params.MicheBlock Params.RuskBlock Params.CelestiaBlock Params.MafuyuBlock
    Params.KipfelBlock Params.LuminaBlock Params.MainnetChainConfig]. repeat case_bool_decide; repeat case_decide; lia.
Qed.

Lemma calcBlockReward_range num : 10 ^ 18 <= calcBlockReward num <= 8 * 10 ^ 18.
Proof.
  unfold calcBlockReward, FirstReductionBlock, RewardReductionInterval, MinimumBlockReward, FrontierBlockReward, OneVBC. cbv zeta.
  case_decide; [lia|]. pose proof (Z.div_pos (num - 4200000) 2100000 ltac:(lia) ltac:(lia)). case_decide; lia.
Qed.

Section Rewards.
Context {B : Backend} {BL : BackendLaws B}.
Implicit Types (s t : StateDB) (h u : Header).

(** The reward of an uncle. *)
Definition uncle_reward h u : Z := (Number u + 8 - Number h) * calcBlockReward (Number h) / 8.

(** All that a block pays out. *)
Definition issuance h (us : list Header) : Z :=
  calcBlockReward (Number h) + zlen us * (calcBlockReward (Number h) / 32) + foldr (fun u acc => uncle_reward h u + acc) 0 us.

Lemma AddBalance_wf s a v : wf s -> wf (AddBalance s a v).
Proof. intros W. apply (op_wf s), (call_op s (CAddBalance a v)); done. Qed.

(** The uncles: wherever the accounts are all listed, the supply grows by their
    rewards; no balance falls when the rewards are not negative. *)
Lemma reward_uncles h us s r :
  wf s ->
  let '(t, r') := fold_left (reward_uncle h (calcBlockReward (Number h))) us (s, r) in
  wf t /\ r' = r + zlen us * (calcBlockReward (Number h) / 32) /\
  (Forall (fun u => 0 <= uncle_reward h u) us -> forall b, balance s b <= balance t b) /\
  (forall l, NoDup l -> map Coinbase us ⊆ l -> supply l t = supply l s + foldr (fun u acc => uncle_reward h u + acc) 0 us).
Proof.
  revert s r. induction us as [|u us IH]; intros s r W; cbn [fold_left].
  { split; [done|]. split; [change (zlen []) with 0; lia|]. split; [done|]. intros l _ _. cbn. lia. }
  cbn [reward_uncle]. fold (uncle_reward h u). set (s1 := AddBalance s (Coinbase u) (uncle_reward h u)).
  pose proof (AddBalance_wf s (Coinbase u) (uncle_reward h u) W) as W1. fold s1 in W1.
  specialize (IH s1 (r + calcBlockReward (Number h) / 32) W1). destruct (fold_left _ us _) as [t r']. destruct IH as (Wt & Er & Hb & Hs).
  split; [done|]. split; [rewrite zlen_cons; lia|]. split.
  - intros [Hu Hus]%Forall_cons_1 b. etrans; [|by apply Hb]. unfold s1. rewrite AddBalance_balance by done. case_decide; lia.
  - intros l Hl Hsub. rewrite Hs by (done || set_solver). cbn [foldr].
    rewrite (supply_change l s s1 (Coinbase u) (uncle_reward h u)); [lia|done|set_solver|]. intros b. by apply AddBalance_balance.
Qed.

(** The rewards of a block raise the supply by exactly its reward, a 32nd of
    it for each uncle, and the share of each uncle, whatever the state; the state
    stays well-formed, and no account loses. *)
Lemma accumulateRewards_spec s h us :
  wf s ->
  let t := accumulateRewards s h us in
  wf t /\ (forall l, NoDup l -> Coinbase h :: map Coinbase us ⊆ l -> supply l t = supply l s + issuance h us) /\
  (Forall (fun u => Number h <= Number u + 8) us -> forall b, balance s b <= balance t b).
Proof.
  intros W t. unfold t, accumulateRewards. pose proof (reward_uncles h us s (calcBlockReward (Number h)) W) as H. cbv zeta.
  destruct (fold_left _ us _) as [s1 r]. destruct H as (W1 & -> & Hb & Hs). set (r := _ + _). pose proof (calcBlockReward_range (Number h)) as HR.
  assert (Hr : 0 <= r) by (unfold r; pose proof (zlen_nonneg us); pose proof (Z.div_pos (calcBlockReward (Number h)) 32 ltac:(lia) ltac:(lia)); nia).
  split; [by apply AddBalance_wf|]. split.
  - intros l Hl Hsub. rewrite (supply_change l s1 _ (Coinbase h) r); [|done|set_solver|intros b; by apply AddBalance_balance].
    rewrite Hs by (done || set_solver). unfold issuance, r. lia.
  - intros Hu b. rewrite AddBalance_balance by done. assert (Hb1 : balance s b <= balance s1 b); [|case_decide; lia].
    apply Hb. revert Hu. apply Forall_impl. intros u Hn. unfold uncle_reward. apply Z.div_pos; [|lia]. nia.
Qed.

End Rewards.
