(* ===== verification/EthashAlgo.v ===== *)
(** * The proof-of-work function (consensus/ethash/algorithm.go)

    Caches, the dataset, and hashimoto over either.  Keccak-512 is a parameter.
    Caches and datasets are the words that the code stores in machine byte order;
    a run-time panic (an index out of range, a division by zero) is a result. *)

From stdpp Require Import gmap.
From S2P Require Import Prelude StateDB VmPrecompiles.

Notation panics := (outcome Empty_set).

(** ** encoding/binary *)

Definition le_Uint32 (b : bytes) : panics Z :=
  b0 ← go_index b 0; b1 ← go_index b 1; b2 ← go_index b 2; b3 ← go_index b 3;
  Ret (b0 + Z.shiftl b1 8 + Z.shiftl b2 16 + Z.shiftl b3 24).

Definition le_PutUint32 (x : Z) : bytes := [u8 x; u8 (Z.shiftr x 8); u8 (Z.shiftr x 16); u8 (Z.shiftr x 24)].

(** [n] words from the front of [b]. *)
Fixpoint le_uint32s (n : nat) (b : bytes) : panics (list Z) :=
  match n with
  | O => Ret []
  | S n => x ← le_Uint32 b; l ← le_uint32s n (drop 4 b); Ret (x :: l)
  end.

Definition le_bytes (l : list Z) : bytes := concat (map le_PutUint32 l).

(** [copy(dst[off:], src)]. *)
Definition copy_at {A} (dst : list A) (off : Z) (src : list A) : panics (list A) :=
  if decide (0 <= off <= zlen dst) then
    let n := Z.to_nat off in
    Ret (take n dst ++ take (length dst - n) src ++ drop (n + length src) dst)
  else Panic.

Class Keccak512 := keccak512_sum : bytes -> bytes.

Definition hash_ok (hash : bytes -> bytes) (n : nat) : Prop := forall b, length (hash b) = n /\ bytes_ok (hash b).

Section Algorithm.
Context {K : Keccak512} {C : Crypto}.

Definition datasetInitBytes : Z := 2 ^ 30.
Definition datasetGrowthBytes : Z := 2 ^ 23.
Definition cacheInitBytes : Z := 2 ^ 24.
Definition cacheGrowthBytes : Z := 2 ^ 17.
Definition epochLength : Z := 30000.
Definition mixBytes : Z := 128.
Definition hashBytes : Z := 64.
Definition hashWords : Z := 16.
Definition datasetParents : Z := 256.
Definition cacheRounds : Z := 3.
Definition loopAccesses : Z := 64.

(** ** Sizes *)

(** [ProbablyPrime], which is exact below 2^64. *)
Definition prime_upto (n : Z) (k : nat) : bool := forallb (fun i => negb (bool_decide (n mod (Z.of_nat i + 2) = 0))) (seq 0 k).
Definition ProbablyPrime (n : Z) : bool := bool_decide (2 <= n) && prime_upto n (Z.to_nat (Z.sqrt n - 1)).

Fixpoint prime_loop (fuel : nat) (unit size : Z) : fuelled Empty_set Z :=
  match fuel with
  | O => out_of_fuel
  | S fuel => if ProbablyPrime (size / unit) then run (Ret size) else prime_loop fuel unit (u64 (size - 2 * unit))
  end.

Definition calcCacheSize (epoch : Z) : fuelled Empty_set Z :=
  let size := u64 (u64 (cacheInitBytes + u64 (cacheGrowthBytes * u64 epoch)) - hashBytes) in
  prime_loop (S (Z.to_nat (size / hashBytes))) hashBytes size.

Definition calcDatasetSize (epoch : Z) : fuelled Empty_set Z :=
  let size := u64 (u64 (datasetInitBytes + u64 (datasetGrowthBytes * u64 epoch)) - mixBytes) in
  prime_loop (S (Z.to_nat (size / mixBytes))) mixBytes size.

(** [keccak256(seed, seed)] writes the sum over the seed. *)
Definition seedHash (block : Z) : bytes :=
  if decide (block < epochLength) then replicate 32 0
  else Nat.iter (Z.to_nat (block / epochLength)) Keccak256 (replicate 32 0).

(** ** The cache *)

(** [keccak512(dest[off:], data)]: the sum needs 64 bytes of room. *)
Definition keccak512_at (dest : bytes) (off : Z) (data : bytes) : panics bytes :=
  if decide (off + 64 <= zlen dest) then copy_at dest off (keccak512_sum data) else Panic.

Fixpoint fill_cache (n : nat) (cache : bytes) (offset : Z) : panics bytes :=
  match n with
  | O => Ret cache
  | S n =>
      if decide (offset < zlen cache) then
        prev ← go_slice cache (offset - hashBytes) offset;
        cache ← keccak512_at cache offset prev;
        fill_cache n cache (offset + hashBytes)
      else Ret cache
  end.

Definition memohash_row (rows : Z) (cache : bytes) (j : Z) : panics bytes :=
  if decide (u32 rows = 0) then Panic else
  let srcOff := (j - 1 + rows) mod rows * hashBytes in
  let dstOff := j * hashBytes in
  d ← go_from cache dstOff;
  w ← le_Uint32 d;
  let xorOff := u32 (w mod u32 rows * hashBytes) in
  a ← go_slice cache srcOff (srcOff + hashBytes);
  b ← go_slice cache xorOff (xorOff + hashBytes);
  keccak512_at cache dstOff (zip_with Z.lxor a b).

Fixpoint memohash_rows (rows : Z) (js : list nat) (cache : bytes) : panics bytes :=
  match js with
  | [] => Ret cache
  | j :: js => cache ← memohash_row rows cache (Z.of_nat j); memohash_rows rows js cache
  end.

(** The result in the [n] words of [dest]. *)
Definition generateCache (n : nat) (seed : bytes) : panics (list Z) :=
  let size := 4 * Z.of_nat n in
  let rows := size / hashBytes in
  cache ← keccak512_at (replicate (Z.to_nat size) 0) 0 seed;
  cache ← fill_cache (Z.to_nat rows) cache hashBytes;
  cache ← Nat.iter (Z.to_nat cacheRounds) (fun m => cache ← m; memohash_rows rows (seq 0 (Z.to_nat rows)) cache) (Ret cache);
  le_uint32s n cache.

(** ** The dataset *)

Definition fnv (a b : Z) : Z := Z.lxor (u32 (a * 0x01000193)) b.

Definition fnvHash (mix data : list Z) : panics (list Z) :=
  if decide (length data < length mix)%nat then Panic else Ret (zip_with fnv mix data).

(** The loop over the parents of an item. *)
Fixpoint mix_parents (cache : list Z) (rows index : Z) (js : list nat) (intMix : list Z) : panics (list Z) :=
  match js with
  | [] => Ret intMix
  | i :: js =>
      w ← go_index intMix (Z.of_nat i mod 16);
      let parent := fnv (Z.lxor index (Z.of_nat i)) w mod rows in
      data ← go_from cache (u32 (parent * hashWords));
      intMix ← fnvHash intMix data;
      mix_parents cache rows index js intMix
  end.

Definition generateDatasetItem (cache : list Z) (index : Z) : panics bytes :=
  let rows := u32 (zlen cache / hashWords) in
  if decide (rows = 0) then Panic
  else
    let base := u32 (index mod rows * hashWords) in
    row ← go_slice cache base (base + hashWords);
    let words := match row with w :: row => Z.lxor w index :: row | [] => [] end in
    let mix := keccak512_sum (le_bytes words) in
    intMix ← le_uint32s 16 mix;
    intMix ← mix_parents cache rows index (seq 0 256) intMix;
    Ret (keccak512_sum (le_bytes intMix)).

(** The items that the thread [id] generates. *)
Definition batch (threads size : Z) : Z := (size + hashBytes * threads - 1) / (hashBytes * threads).
Definition segment (threads size id : Z) : list Z :=
  let first := id * batch threads size in
  let limit := first + batch threads size in
  let limit := if decide (limit > size / hashBytes) then size / hashBytes else limit in
  map Z.of_nat (seq (Z.to_nat first) (Z.to_nat (limit - first))).

Definition work (threads size : Z) : list Z := concat (map (fun id => segment threads size (Z.of_nat id)) (seq 0 (Z.to_nat threads))).

(** One item: its words go to its place in the dataset. *)
Definition generate_item (cache : list Z) (size : Z) (dataset : list Z) (index : Z) : panics (list Z) :=
  item ← generateDatasetItem cache (u32 index);
  words ← le_uint32s 16 item;
  dataset ← copy_at dataset (index * hashWords) words;
  if decide (size / hashBytes / 100 = 0) then Panic else Ret dataset.

Fixpoint generate_items (cache : list Z) (size : Z) (order : list Z) (dataset : list Z) : panics (list Z) :=
  match order with
  | [] => Ret dataset
  | index :: order => dataset ← generate_item cache size dataset index; generate_items cache size order dataset
  end.

(** The threads write in some interleaving [order] of their work. *)
Definition generateDataset (order : list Z) (dest : list Z) (cache : list Z) : panics (list Z) :=
  generate_items cache (4 * zlen dest) order dest.

(** ** hashimoto *)

Definition le_PutUint64 (x : Z) : bytes := le_PutUint32 x ++ le_PutUint32 (Z.shiftr x 32).

Fixpoint mix_accesses (rows seedHead : Z) (lookup : Z -> panics (list Z)) (js : list nat) (mix temp : list Z) : panics (list Z) :=
  match js with
  | [] => Ret mix
  | i :: js =>
      w ← go_index mix (Z.of_nat i mod zlen mix);
      if decide (rows = 0) then Panic
      else
        let parent := fnv (Z.lxor (Z.of_nat i) seedHead) w mod rows in
        d0 ← lookup (u32 (2 * parent));
        temp ← copy_at temp 0 d0;
        d1 ← lookup (u32 (2 * parent + 1));
        temp ← copy_at temp hashWords d1;
        mix ← fnvHash mix temp;
        mix_accesses rows seedHead lookup js mix temp
  end.

(** [mix[i/4] = fnv(fnv(fnv(mix[i], mix[i+1]), mix[i+2]), mix[i+3])] for [i = 0, 4, ...]. *)
Fixpoint compress (ks : list nat) (mix : list Z) : panics (list Z) :=
  match ks with
  | [] => Ret mix
  | k :: ks =>
      let i := 4 * Z.of_nat k in
      a ← go_index mix i; b ← go_index mix (i + 1); c ← go_index mix (i + 2); d ← go_index mix (i + 3);
      compress ks (<[k := fnv (fnv (fnv a b) c) d]> mix)
  end.

(** The digest and the result. *)
Definition hashimoto (hash : bytes) (nonce size : Z) (lookup : Z -> panics (list Z)) : panics (bytes * bytes) :=
  let rows := u32 (size / mixBytes) in
  let seed := take 32 (hash ++ replicate 32 0) ++ le_PutUint64 nonce in
  let seed := keccak512_sum seed in
  seedHead ← le_Uint32 seed;
  half ← le_uint32s 16 seed;
  let mix := half ++ half in
  mix ← mix_accesses rows seedHead lookup (seq 0 (Z.to_nat loopAccesses)) mix (replicate 32 0);
  mix ← compress (seq 0 8) mix;
  let mix := take 8 mix in
  let digest := le_bytes mix in
  Ret (digest, Keccak256 (seed ++ digest)).

Definition hashimotoLight (size : Z) (cache : list Z) (hash : bytes) (nonce : Z) : panics (bytes * bytes) :=
  hashimoto hash nonce size (fun index => rawData ← generateDatasetItem cache index; le_uint32s (length rawData / 4) rawData).

Definition hashimotoFull (dataset : list Z) (hash : bytes) (nonce : Z) : panics (bytes * bytes) :=
  hashimoto hash nonce (u64 (zlen dataset * 4)) (fun index => let offset := u32 (index * hashWords) in go_slice dataset offset (u32 (offset + hashWords))).

End Algorithm.
