(* ===== verification/EthashAlgoProofs.v ===== *)
(** * Light and full verification agree (consensus/ethash/algorithm.go)

    Verification from the cache computes the same digest and result as from the
    dataset, in whichever order the threads have generated it; neither panics. *)

From Stdlib Require Import Znumtheory.
From stdpp Require Import gmap.
From S2P Require Import Prelude StateDB VmPrecompiles EthashAlgo.

(** ** Words and copies *)

Lemma le_uint32s_Ret n b : (4 * n <= length b)%nat -> exists l, le_uint32s n b = Ret l /\ length l = n.
Proof.
  revert b. induction n as [|n IH]; intros b Hb; [by exists []|]. do 4 (destruct b as [|? b]; [cbn in Hb; lia|]).
  destruct (IH b) as (l & E & Hl); [cbn in Hb; lia|]. eexists. cbn -[Z.shiftl]. rewrite drop_0, E. split; [reflexivity|]. cbn. by rewrite Hl.
Qed.

Lemma go_slice_Ret {E A} (l : list A) i n : 0 <= i -> 0 <= n -> i + n <= zlen l ->
  go_slice (E := E) l i (i + n) = Ret (take (Z.to_nat n) (drop (Z.to_nat i) l)).
Proof. intros. unfold go_slice. rewrite decide_True by lia. by replace (i + n - i) with n by lia. Qed.

Lemma go_from_Ret {E A} (l : list A) i : 0 <= i <= zlen l -> go_from (E := E) l i = Ret (drop (Z.to_nat i) l).
Proof.
  intros Hi. unfold go_from, go_slice. rewrite decide_True by lia. f_equal. apply take_ge. rewrite length_drop. unfold zlen in *. lia.
Qed.

Lemma go_index_Ret {E A} (l : list A) i : 0 <= i < zlen l -> exists a, go_index (E := E) l i = Ret a.
Proof.
  intros Hi. unfold go_index. rewrite decide_True by lia. destruct (lookup_lt_is_Some_2 l (Z.to_nat i)) as [a ->]; [unfold zlen in *; lia|].
  by exists a.
Qed.

(** The row [i] of a list of words. *)
Definition row (d : list Z) (i : Z) : list Z := take 16 (drop (Z.to_nat (16 * i)) d).

Lemma copy_row d i w : 0 <= i -> 16 * i + 16 <= zlen d -> length w = 16%nat ->
  exists d', copy_at d (i * hashWords) w = Ret d' /\ length d' = length d /\ row d' i = w /\ (forall j, 0 <= j -> j <> i -> row d' j = row d j).
Proof.
  intros Hi Hd Hw. unfold copy_at, hashWords. rewrite decide_True by lia. eexists. split; [reflexivity|].
  replace (i * 16) with (16 * i) by lia. set (n := Z.to_nat (16 * i)). unfold zlen in Hd. assert (Hn : (n + 16 <= length d)%nat) by lia.
  rewrite (take_ge w) by lia. rewrite Hw.
  split; [rewrite !length_app, length_take, length_drop; lia|]. split.
  - unfold row. fold n. rewrite drop_app_length' by (rewrite length_take; lia). by apply take_app_length'.
  - intros j Hj Hne. unfold row. set (m := Z.to_nat (16 * j)). apply list_eq. intros k. destruct (decide (k < 16)%nat) as [Hk|Hk].
    2: { rewrite !lookup_take_ge by lia. done. }
    rewrite !lookup_take_lt by lia. rewrite !lookup_drop. destruct (decide (m + k < n)%nat).
    + rewrite lookup_app_l by (rewrite length_take; lia). by rewrite lookup_take_lt by lia.
    + assert (n + 16 <= m + k)%nat by lia. rewrite lookup_app_r by (rewrite length_take; lia). rewrite length_take, lookup_app_r by lia.
      rewrite lookup_drop. f_equal. lia.
Qed.

(** ** Sizes *)

Lemma prime_upto_spec n k : prime_upto n k = true <-> forall d, 2 <= d < 2 + Z.of_nat k -> n mod d <> 0.
Proof.
  unfold prime_upto. rewrite forallb_forall. setoid_rewrite List.in_seq. split.
  - intros H d Hd. specialize (H (Z.to_nat (d - 2)) ltac:(lia)). replace (Z.of_nat (Z.to_nat (d - 2)) + 2) with d in H by lia.
    by destruct (bool_decide_reflect (n mod d = 0)).
  - intros H i Hi. rewrite bool_decide_false; [done|]. apply H. lia.
Qed.

(** Trial division up to the square root decides primality. *)
Lemma ProbablyPrime_spec n : ProbablyPrime n = true <-> prime n.
Proof.
  unfold ProbablyPrime. rewrite andb_true_iff, bool_decide_eq_true, prime_upto_spec. split.
  - intros [Hn H]. pose proof (Z.sqrt_spec n ltac:(lia)). pose proof (Z.sqrt_nonneg n). apply prime_alt. split; [lia|]. intros d Hd [m Hm].
    assert (1 < m < n) by nia. destruct (decide (d <= Z.sqrt n)).
    + apply (H d); [lia|]. apply Z.mod_divide; [lia|]. by exists m.
    + assert (m <= Z.sqrt n) by (cbv zeta in *; nia). apply (H m); [lia|]. apply Z.mod_divide; [lia|]. exists d. lia.
  - intros Hp. pose proof (prime_ge_2 n Hp). split; [lia|]. intros d Hd Hdiv%Z.mod_divide; [|lia].
    pose proof (Z.sqrt_spec n ltac:(lia)) as Hs. cbv zeta in Hs. assert (d <= Z.sqrt n) by lia. destruct (prime_divisors n Hp d Hdiv) as [|[|[|]]]; nia.
Qed.

(** From an odd quotient of at least 3 the loop stops at the largest prime below it. *)
Lemma prime_loop_spec unit k fuel : 0 < unit -> unit * (2 * Z.of_nat k + 3) < 2 ^ 64 -> (k < fuel)%nat ->
  exists q, prime_loop fuel unit (unit * (2 * Z.of_nat k + 3)) = run (Ret (unit * q)) /\ prime q /\
    (forall p, prime p -> p <= 2 * Z.of_nat k + 3 -> p <= q).
Proof.
  intros Hu. revert fuel. induction k as [|k IH]; intros [|fuel] Hw Hf; try lia; cbn [prime_loop]; rewrite (Z.mul_comm unit), Z.div_mul by lia.
  - exists 3. split; [change (2 * Z.of_nat 0 + 3) with 3; change (ProbablyPrime 3) with true; by rewrite (Z.mul_comm unit)|]. split; [apply prime_3|lia].
  - set (q := 2 * Z.of_nat (S k) + 3) in *. destruct (ProbablyPrime q) eqn:E.
    { exists q. split; [by rewrite Z.mul_comm|]. split; [by apply ProbablyPrime_spec|lia]. }
    replace (u64 (q * unit - 2 * unit)) with (unit * (2 * Z.of_nat k + 3)) by (unfold u64; rewrite Z.mod_small; unfold q in *; nia).
    destruct (IH fuel) as (q' & -> & Hq & Hmax); [unfold q in *; nia|lia|]. exists q'. split; [done|]. split; [done|]. intros p Hp Hle.
    destruct (decide (p = q)) as [->|]; [by apply ProbablyPrime_spec in Hp; congruence|].
    destruct (decide (p = q - 1)) as [->|]; [|apply Hmax; [done|unfold q in *; lia]].
    exfalso. assert (Hd : (2 | q - 1)) by (exists (Z.of_nat k + 2); unfold q; lia). pose proof (prime_divisors (q - 1) Hp 2 Hd). unfold q in *. lia.
Qed.

(** The sizes before the search: a multiple of the growth less one unit. *)
Lemma size_start a g unit e : 0 < unit -> 4 * unit <= g -> (2 * unit | g) -> (g | 2 ^ 64) -> (g | a) ->
  exists k, u64 (u64 (a + u64 (g * u64 e)) - unit) = unit * (2 * Z.of_nat k + 3).
Proof.
  intros Hu Hg Hd H64 Ha. assert (H : (g | u64 (a + u64 (g * u64 e)))).
  { unfold u64. rewrite <- Z.add_mod_idemp_r, Z.mod_mod, Z.add_mod_idemp_r by lia. apply Z.mod_divide; [lia|].
    rewrite <- Zmod_div_mod; [|lia|lia|done]. apply Z.mod_divide; [lia|]. apply Z.divide_add_r; [done|]. apply Z.divide_factor_l. }
  pose proof (Z.divide_pos_le g (2 ^ 64) ltac:(lia) H64) as Hle.
  set (x := u64 (a + _)) in *. assert (0 <= x < 2 ^ 64) by (apply Z.mod_pos_bound; lia). destruct Hd as [c ->], H as [m Hm].
  assert (2 <= c) by nia. destruct (decide (x = 0)) as [E|].
  - destruct H64 as [m' Hm']. exists (Z.to_nat (m' * c - 2)). rewrite E. unfold u64. replace ((0 - unit) mod 2 ^ 64) with (2 ^ 64 - unit).
    { assert (0 < m') by nia. rewrite Z2Nat.id by nia. lia. }
    symmetry. rewrite <- (Z.mod_small (2 ^ 64 - unit) (2 ^ 64)) by lia. replace (0 - unit) with (2 ^ 64 - unit + (-1) * 2 ^ 64) by lia. by rewrite Z.mod_add.
  - exists (Z.to_nat (m * c - 2)). unfold u64. assert (0 < m) by nia. rewrite Z.mod_small by nia. rewrite Z2Nat.id by nia. lia.
Qed.

Lemma prime_search a g unit e : 0 < unit -> 4 * unit <= g -> (2 * unit | g) -> (g | 2 ^ 64) -> (g | a) ->
  let size := u64 (u64 (a + u64 (g * u64 e)) - unit) in
  exists q, prime_loop (S (Z.to_nat (size / unit))) unit size = run (Ret (unit * q)) /\ prime q /\ forall p, prime p -> unit * p <= size -> p <= q.
Proof.
  intros Hu H1 H2 H3 H4 size. destruct (size_start a g unit e Hu H1 H2 H3 H4) as [k E]. fold size in E. assert (Hb : is_u64 size) by apply u64_range.
  assert (E' : size / unit = 2 * Z.of_nat k + 3) by (rewrite E, Z.mul_comm, Z.div_mul; lia). unfold is_u64 in Hb.
  destruct (prime_loop_spec unit k (S (Z.to_nat (size / unit)))) as (q & Eq & Hq & Hm); [lia..|]. rewrite <- E in Eq. exists q.
  split; [done|]. split; [done|]. intros p Hp Hle. apply Hm; [done|]. nia.
Qed.

(** the size searches terminate with the largest prime. For every epoch, even one whose size overflows 64
    bits, [calcCacheSize] and [calcDatasetSize] return a number of rows of 64 and 128 bytes that is prime, and no
    larger prime is below the linear growth that they start from. *)
Theorem calcSizes_prime epoch :
  (exists q, calcCacheSize epoch = run (Ret (hashBytes * q)) /\ prime q /\
    forall p, prime p -> hashBytes * p <= u64 (u64 (cacheInitBytes + u64 (cacheGrowthBytes * u64 epoch)) - hashBytes) -> p <= q) /\
  (exists q, calcDatasetSize epoch = run (Ret (mixBytes * q)) /\ prime q /\
    forall p, prime p -> mixBytes * p <= u64 (u64 (datasetInitBytes + u64 (datasetGrowthBytes * u64 epoch)) - mixBytes) -> p <= q).
Proof.
  split.
  - apply (prime_search cacheInitBytes cacheGrowthBytes hashBytes); [done|done|by exists 1024|by exists (2 ^ 47)|by exists 128].
  - apply (prime_search datasetInitBytes datasetGrowthBytes mixBytes); [done|done|by exists 32768|by exists (2 ^ 41)|by exists 128].
Qed.

Section Dataset.
Context {K : Keccak512} {C : Crypto} (HK : forall b, length (keccak512_sum b) = 64%nat).

Lemma fnvHash_Ret mix data : (length mix <= length data)%nat -> exists l, fnvHash mix data = Ret l /\ length l = length mix.
Proof. intros H. unfold fnvHash. rewrite decide_False by lia. eexists. split; [done|]. rewrite length_zip_with. lia. Qed.

(** ** The cache *)

Lemma keccak512_at_Ret d off b : 0 <= off -> off + 64 <= zlen d -> exists d', keccak512_at d off b = Ret d' /\ length d' = length d.
Proof.
  intros H0 H. unfold keccak512_at. rewrite decide_True by lia. unfold copy_at. rewrite decide_True by lia. eexists. split; [done|].
  rewrite !length_app, !length_take, length_drop, HK. unfold zlen in H. lia.
Qed.

Lemma fill_cache_Ret n d rows k : zlen d = 64 * rows -> 1 <= k -> exists d', fill_cache n d (64 * k) = Ret d' /\ length d' = length d.
Proof.
  revert d k. induction n as [|n IH]; intros d k Hd Hk; [by exists d|]. cbn [fill_cache]. case_decide as H; [|by exists d].
  unfold hashBytes. unfold go_slice. rewrite decide_True by lia. cbn [mbind outcome_bind]. set (prev := take _ _).
  destruct (keccak512_at_Ret d (64 * k) prev) as (d1 & -> & Hl); [lia|lia|].
  cbn [mbind outcome_bind]. destruct (IH d1 (k + 1)) as (d2 & E & Hl2); [unfold zlen in *; lia|lia|]. exists d2.
  replace (64 * k + 64) with (64 * (k + 1)) by lia. split; [exact E|lia].
Qed.

Lemma memohash_row_Ret rows d j : 1 <= rows < 2 ^ 26 -> zlen d = 64 * rows -> 0 <= j < rows ->
  exists d', memohash_row rows d j = Ret d' /\ length d' = length d.
Proof.
  intros Hr Hd Hj. unfold memohash_row. replace (u32 rows) with rows by (unfold u32; rewrite Z.mod_small; lia). rewrite decide_False by lia.
  unfold hashBytes. rewrite go_from_Ret by lia. cbn [mbind outcome_bind].
  destruct (le_uint32s_Ret 1 (drop (Z.to_nat (j * 64)) d)) as (l & El & _); [rewrite length_drop; unfold zlen in Hd; lia|]. cbn [le_uint32s] in El.
  destruct (le_Uint32 _) as [w|?|]; [|done..]. clear El. cbn [mbind outcome_bind].
  assert (0 <= w mod rows < rows) by (apply Z.mod_pos_bound; lia). assert (0 <= (j - 1 + rows) mod rows < rows) by (apply Z.mod_pos_bound; lia).
  replace (u32 (w mod rows * 64)) with (w mod rows * 64) by (unfold u32; rewrite (Z.mod_small (_ * 64)); lia).
  rewrite go_slice_Ret by lia. cbn [mbind outcome_bind].
  rewrite go_slice_Ret by lia. cbn [mbind outcome_bind]. apply keccak512_at_Ret; lia.
Qed.

Lemma memohash_rows_Ret rows js d : 1 <= rows < 2 ^ 26 -> zlen d = 64 * rows -> (forall j, j ∈ js -> Z.of_nat j < rows) ->
  exists d', memohash_rows rows js d = Ret d' /\ length d' = length d.
Proof.
  intros Hr. revert d. induction js as [|j js IH]; intros d Hd Hj; [by exists d|]. cbn [memohash_rows].
  destruct (memohash_row_Ret rows d (Z.of_nat j) Hr Hd) as (d1 & -> & Hl); [split; [lia|apply Hj; set_solver]|]. cbn [mbind outcome_bind].
  destruct (IH d1) as (d2 & E & Hl2); [unfold zlen in *; lia|set_solver|]. exists d2. split; [exact E|lia].
Qed.

(** A cache of whole rows is generated without a panic. *)
Lemma generateCache_Ret rows seed : 1 <= rows < 2 ^ 26 -> exists cache, generateCache (Z.to_nat (16 * rows)) seed = Ret cache /\ zlen cache = 16 * rows.
Proof.
  intros Hr. unfold generateCache. rewrite Z2Nat.id by lia. replace (4 * (16 * rows)) with (64 * rows) by lia. set (z := replicate _ 0).
  assert (Hz : length z = Z.to_nat (64 * rows)) by apply length_replicate.
  destruct (keccak512_at_Ret z 0 seed) as (c0 & -> & H0); [lia|unfold zlen; lia|]. cbn [mbind outcome_bind]. unfold hashBytes.
  replace (64 * rows / 64) with rows by (rewrite Z.mul_comm, Z.div_mul; lia). destruct (fill_cache_Ret (Z.to_nat rows) c0 rows 1) as (c1 & E1 & H1); [unfold zlen; lia|lia|].
  change (64 * 1) with 64 in E1. rewrite E1. cbn [mbind outcome_bind].
  assert (H : forall n, exists c, Nat.iter n (fun m : panics bytes => cache ← m; memohash_rows rows (seq 0 (Z.to_nat rows)) cache) (Ret c1) = Ret c /\ length c = length c1).
  { induction n as [|n (c & E & Hc)]; [by exists c1|]. cbn [Nat.iter nat_rect]. unfold Nat.iter in E. rewrite E. cbn [mbind outcome_bind].
    destruct (memohash_rows_Ret rows (seq 0 (Z.to_nat rows)) c) as (c' & -> & Hl); [done|unfold zlen; lia|intros j Hj%elem_of_seq; lia|].
    exists c'. split; [done|lia]. }
  destruct (H (Z.to_nat cacheRounds)) as (c & E & Hc). rewrite E. cbn [mbind outcome_bind].
  destruct (le_uint32s_Ret (Z.to_nat (16 * rows)) c) as (l & -> & Hl); [lia|]. exists l. split; [done|]. unfold zlen. lia.
Qed.

(** ** Items of the dataset *)

(** A cache of the sizes that occur: some rows, indexed by 32 bits. *)
Definition cache_sized (cache : list Z) : Prop := 16 <= zlen cache < 2 ^ 32.

Lemma cache_rows cache : cache_sized cache ->
  let rows := u32 (zlen cache / hashWords) in 0 < rows /\ forall p, 0 <= p < rows -> u32 (p * hashWords) = p * hashWords /\ p * hashWords + 16 <= zlen cache.
Proof.
  intros Hc rows. unfold cache_sized in Hc. unfold rows, hashWords, u32.
  pose proof (Z.mul_div_le (zlen cache) 16 ltac:(lia)). assert (1 <= zlen cache / 16) by (apply Z.div_le_lower_bound; lia).
  rewrite (Z.mod_small (zlen cache / 16)) by lia. split; [lia|]. intros p Hp. rewrite Z.mod_small by lia. lia.
Qed.

Lemma mix_parents_Ret cache index js intMix :
  cache_sized cache -> length intMix = 16%nat ->
  exists l, mix_parents cache (u32 (zlen cache / hashWords)) index js intMix = Ret l /\ length l = 16%nat.
Proof.
  intros Hc. destruct (cache_rows cache Hc) as [Hr Hp]. revert intMix. induction js as [|i js IH]; intros intMix Hm; [by exists intMix|].
  cbn [mix_parents]. destruct (go_index_Ret (E := Empty_set) intMix (Z.of_nat i mod 16)) as [w ->].
  { unfold zlen. rewrite Hm. apply Z.mod_pos_bound. lia. }
  cbn [mbind outcome_bind]. set (p := _ mod _). destruct (Hp p) as [-> Hle]; [apply Z.mod_pos_bound; lia|].
  assert (0 <= p) by (apply Z.mod_pos_bound; lia). rewrite go_from_Ret by (unfold hashWords in *; lia). cbn [mbind outcome_bind].
  destruct (fnvHash_Ret intMix (drop (Z.to_nat (p * hashWords)) cache)) as (l & -> & Hl).
  { rewrite length_drop. unfold zlen, hashWords in *. lia. }
  apply IH. congruence.
Qed.

Lemma generateDatasetItem_Ret cache index : cache_sized cache -> exists b, generateDatasetItem cache index = Ret b /\ length b = 64%nat.
Proof.
  intros Hc. destruct (cache_rows cache Hc) as [Hr Hp]. unfold generateDatasetItem. rewrite decide_False by lia.
  set (p := index mod _). assert (Hpr : 0 <= p < u32 (zlen cache / hashWords)) by (apply Z.mod_pos_bound; lia). destruct (Hp p Hpr) as [-> Hle].
  rewrite go_slice_Ret by (unfold hashWords in *; lia). cbn [mbind outcome_bind].
  destruct (le_uint32s_Ret 16 (keccak512_sum (le_bytes (match take (Z.to_nat hashWords) (drop (Z.to_nat (p * hashWords)) cache) with
    w :: row => Z.lxor w index :: row | [] => [] end)))) as (l & -> & Hl); [rewrite HK; lia|]. cbn [mbind outcome_bind].
  destruct (mix_parents_Ret cache index (seq 0 256) l Hc Hl) as (l' & -> & Hl'). eexists. split; [reflexivity|apply HK].
Qed.

(** The words of an item, as both lookups return them. *)
Definition item_words (cache : list Z) (index : Z) : panics (list Z) := b ← generateDatasetItem cache index; le_uint32s 16 b.

Lemma item_words_Ret cache index : cache_sized cache -> exists l, item_words cache index = Ret l /\ length l = 16%nat.
Proof.
  intros Hc. unfold item_words. destruct (generateDatasetItem_Ret cache index Hc) as (b & -> & Hb). cbn [mbind outcome_bind].
  apply le_uint32s_Ret. lia.
Qed.

(** ** Generating the dataset *)

Lemma generate_item_spec cache size d i :
  cache_sized cache -> size / hashBytes / 100 <> 0 -> zlen d < 2 ^ 32 -> 0 <= i -> 16 * i + 16 <= zlen d ->
  exists d', generate_item cache size d i = Ret d' /\ length d' = length d /\ item_words cache i = Ret (row d' i) /\
    forall j, 0 <= j -> j <> i -> row d' j = row d j.
Proof.
  intros Hc Hs Hd Hi Hle. unfold generate_item. replace (u32 i) with i by (unfold u32; rewrite Z.mod_small; lia).
  destruct (item_words_Ret cache i Hc) as (w & Ew & Hw). rewrite Ew. unfold item_words in Ew.
  destruct (generateDatasetItem_Ret cache i Hc) as (b & Eb & _). rewrite Eb in Ew |- *. cbn [mbind outcome_bind] in Ew |- *. rewrite Ew.
  destruct (copy_row d i w Hi Hle Hw) as (d' & Ed & Hl & Hr & Hj). cbn [mbind outcome_bind]. rewrite Ed. cbn [mbind outcome_bind].
  rewrite decide_False by done. exists d'. rewrite Hr. done.
Qed.

Lemma generate_items_spec cache size order d :
  cache_sized cache -> size / hashBytes / 100 <> 0 -> zlen d < 2 ^ 32 -> (forall i, i ∈ order -> 0 <= i /\ 16 * i + 16 <= zlen d) ->
  exists d', generate_items cache size order d = Ret d' /\ length d' = length d /\
    forall i, 0 <= i -> if decide (i ∈ order) then item_words cache i = Ret (row d' i) else row d' i = row d i.
Proof.
  intros Hc Hs. revert d. induction order as [|x order IH]; intros d Hd Ho.
  { exists d. split; [done|]. split; [done|]. intros i Hi. by rewrite decide_False by set_solver. }
  destruct (Ho x) as [Hx0 Hx1]; [set_solver|]. cbn [generate_items].
  destruct (generate_item_spec cache size d x Hc Hs Hd Hx0 Hx1) as (d1 & -> & Hl & Hw & Hr). cbn [mbind outcome_bind].
  assert (Hz : zlen d1 = zlen d) by (unfold zlen; lia).
  destruct (IH d1) as (d' & E & Hl' & H); [lia|intros i Hi; rewrite Hz; apply Ho; set_solver|].
  exists d'. split; [exact E|]. split; [lia|]. intros i Hi. specialize (H i Hi). destruct (decide (i ∈ order)).
  { rewrite decide_True by set_solver. done. }
  rewrite H. destruct (decide (i = x)) as [->|].
  - rewrite decide_True by set_solver. done.
  - rewrite decide_False by set_solver. by apply Hr.
Qed.

(** ** The work of the threads *)

Lemma elem_of_segment threads size id i : 0 <= id -> 0 <= batch threads size -> 0 <= size ->
  i ∈ segment threads size id <-> id * batch threads size <= i < Z.min ((id + 1) * batch threads size) (size / hashBytes).
Proof.
  intros Hid Hb Hs. unfold segment. rewrite list_elem_of_fmap. set (lim := if decide _ then _ else _).
  assert (lim = Z.min ((id + 1) * batch threads size) (size / hashBytes)) as -> by (unfold lim; case_decide; lia).
  assert (0 <= id * batch threads size) by nia. split.
  - intros (k & -> & Hk%elem_of_seq). lia.
  - intros Hi. exists (Z.to_nat i). rewrite Z2Nat.id by lia. split; [done|]. apply elem_of_seq. lia.
Qed.

(** The threads' segments cover the items, no item is beyond the dataset. *)
Lemma elem_of_work threads size i : 1 <= threads -> 0 <= size -> i ∈ work threads size <-> 0 <= i < size / hashBytes.
Proof.
  intros Ht Hs. unfold work, hashBytes in *. rewrite list_elem_of_In, List.in_concat.
  assert (Hb : 0 <= batch threads size) by (apply Z.div_pos; unfold hashBytes; lia).
  split.
  - intros (l & (id & <- & Hid)%List.in_map_iff & Hi%list_elem_of_In). apply elem_of_segment in Hi; [|lia..]. unfold hashBytes in Hi. nia.
  - intros Hi. set (b := batch threads size) in *.
    assert (Hcov : size <= 64 * threads * b).
    { unfold b, batch, hashBytes. pose proof (Z.div_mod (size + 64 * threads - 1) (64 * threads) ltac:(lia)).
      pose proof (Z.mod_pos_bound (size + 64 * threads - 1) (64 * threads) ltac:(lia)). lia. }
    pose proof (Z.mul_div_le size 64 ltac:(lia)). assert (Hbp : 0 < b) by nia.
    pose proof (Z.div_mod i b ltac:(lia)). pose proof (Z.mod_pos_bound i b ltac:(lia)). assert (0 <= i / b) by (apply Z.div_pos; lia).
    assert (i / b < threads) by nia. exists (segment threads size (i / b)). split.
    + apply List.in_map_iff. exists (Z.to_nat (i / b)). rewrite Z2Nat.id by lia. split; [done|]. apply List.in_seq. lia.
    + apply list_elem_of_In, elem_of_segment; [lia..|]. fold b. unfold hashBytes. nia.
Qed.

(** ** hashimoto *)

Lemma copy_halves (t a b : list Z) : length t = 32%nat -> length a = 16%nat -> length b = 16%nat ->
  exists t1, copy_at t 0 a = Ret t1 /\ copy_at t1 hashWords b = Ret (a ++ b).
Proof.
  intros Ht Ha Hb. exists (a ++ drop 16 t). unfold copy_at. split.
  { rewrite decide_True by (unfold zlen; lia). change (Z.to_nat 0) with 0%nat. rewrite Nat.sub_0_r, (take_ge a) by lia. by rewrite Ha. }
  unfold zlen, hashWords.
  assert (Hd : length (drop 16 t) = 16%nat) by (rewrite length_drop; lia). rewrite length_app, Hd, Ha.
  rewrite decide_True by lia. change (Z.to_nat 16) with 16%nat. f_equal.
  rewrite take_app_length' by lia. rewrite (take_ge b) by lia. rewrite drop_ge; [by rewrite app_nil_r|]. rewrite length_app. lia.
Qed.

(** The accesses return, and depend on the lookup only below twice the number of rows. *)
Lemma mix_accesses_spec rows sh lookup lookup' js mix temp :
  0 < rows -> 2 * rows <= 2 ^ 32 -> (forall i, 0 <= i < 2 * rows -> exists l, lookup i = Ret l /\ lookup' i = Ret l /\ length l = 16%nat) ->
  length mix = 32%nat -> length temp = 32%nat ->
  exists l, mix_accesses rows sh lookup js mix temp = Ret l /\ mix_accesses rows sh lookup' js mix temp = Ret l /\ length l = 32%nat.
Proof.
  intros Hr Hr2 Hl. revert mix temp. induction js as [|i js IH]; intros mix temp Hm Ht; [by exists mix|]. cbn [mix_accesses].
  destruct (go_index_Ret (E := Empty_set) mix (Z.of_nat i mod zlen mix)) as [w ->]; [apply Z.mod_pos_bound; unfold zlen; lia|].
  cbn [mbind outcome_bind]. rewrite !decide_False by lia. set (p := _ mod rows). assert (0 <= p < rows) by (apply Z.mod_pos_bound; lia).
  replace (u32 (2 * p)) with (2 * p) by (unfold u32; rewrite Z.mod_small; lia).
  replace (u32 (2 * p + 1)) with (2 * p + 1) by (unfold u32; rewrite Z.mod_small; lia).
  destruct (Hl (2 * p)) as (a & -> & -> & Ha); [lia|]. destruct (Hl (2 * p + 1)) as (b & -> & -> & Hb); [lia|].
  destruct (copy_halves temp a b Ht Ha Hb) as (t1 & E1 & E2). cbn [mbind outcome_bind]. rewrite E1. cbn [mbind outcome_bind]. rewrite E2.
  cbn [mbind outcome_bind]. destruct (fnvHash_Ret mix (a ++ b)) as (m & -> & Hm'); [rewrite length_app; lia|]. cbn [mbind outcome_bind].
  apply IH; [lia|rewrite length_app; lia].
Qed.

Lemma compress_Ret ks mix : (forall k, k ∈ ks -> 4 * k + 4 <= length mix)%nat -> exists l, compress ks mix = Ret l.
Proof.
  revert mix. induction ks as [|k ks IH]; intros mix Hk; [by exists mix|]. cbn [compress].
  assert (4 * k + 4 <= length mix)%nat by (apply Hk; set_solver).
  destruct (go_index_Ret (E := Empty_set) mix (4 * Z.of_nat k)) as [? ->]; [unfold zlen; lia|].
  destruct (go_index_Ret (E := Empty_set) mix (4 * Z.of_nat k + 1)) as [? ->]; [unfold zlen; lia|].
  destruct (go_index_Ret (E := Empty_set) mix (4 * Z.of_nat k + 2)) as [? ->]; [unfold zlen; lia|].
  destruct (go_index_Ret (E := Empty_set) mix (4 * Z.of_nat k + 3)) as [? ->]; [unfold zlen; lia|].
  cbn [mbind outcome_bind]. apply IH. intros. rewrite length_insert. apply Hk. set_solver.
Qed.

Lemma hashimoto_spec hash nonce size lookup lookup' :
  128 <= size < 2 ^ 34 -> (forall i, 0 <= i < size / hashBytes -> exists l, lookup i = Ret l /\ lookup' i = Ret l /\ length l = 16%nat) ->
  exists r, hashimoto hash nonce size lookup = Ret r /\ hashimoto hash nonce size lookup' = Ret r.
Proof.
  intros Hs Hl. unfold hashimoto. set (seed := keccak512_sum _). assert (Hseed : length seed = 64%nat) by apply HK.
  destruct (le_uint32s_Ret 16 seed) as (half & Eh & Hh); [lia|]. rewrite Eh. cbn [le_uint32s] in Eh.
  destruct (le_Uint32 seed) as [sh|?|] eqn:E0; [|done..]. clear Eh E0. cbn [mbind outcome_bind].
  unfold mixBytes, hashBytes in *. pose proof (Z.mul_div_le size 128 ltac:(lia)). pose proof (Z.div_le_lower_bound size 128 1 ltac:(lia) ltac:(lia)).
  replace (u32 (size / 128)) with (size / 128) by (unfold u32; rewrite Z.mod_small; lia).
  assert (2 * (size / 128) <= size / 64) by (apply Z.div_le_lower_bound; lia).
  destruct (mix_accesses_spec (size / 128) sh lookup lookup' (seq 0 (Z.to_nat loopAccesses)) (half ++ half) (replicate 32 0))
    as (l & -> & -> & Hlen); [lia|lia|intros; apply Hl; lia|rewrite length_app; lia|apply length_replicate|]. cbn [mbind outcome_bind].
  destruct (compress_Ret (seq 0 8) l) as [m ->]; [intros k Hk%elem_of_seq; lia|]. cbn [mbind outcome_bind]. by eexists.
Qed.

(** The two lookups return the same rows. *)
Lemma full_light threads order dest cache :
  cache_sized cache -> 6400 <= 4 * zlen dest < 2 ^ 34 -> 1 <= threads -> order ≡ₚ work threads (4 * zlen dest) ->
  exists dataset, generateDataset order dest cache = Ret dataset /\
    forall hash nonce, exists r, hashimotoFull dataset hash nonce = Ret r /\ hashimotoLight (4 * zlen dest) cache hash nonce = Ret r.
Proof.
  intros Hc Hd Ht Ho. set (size := 4 * zlen dest) in *.
  assert (Hin : forall i, i ∈ order <-> 0 <= i < size / 64) by (intros i; rewrite Ho; apply elem_of_work; lia).
  pose proof (Z.mul_div_le size 64 ltac:(lia)). unfold generateDataset. fold size.
  destruct (generate_items_spec cache size order dest) as (d & E & Hlen & Hrow); [done| |lia|intros i Hi%Hin; lia|].
  { unfold hashBytes. assert (100 <= size / 64) by (apply Z.div_le_lower_bound; lia). pose proof (Z.div_le_lower_bound (size / 64) 100 1). lia. }
  assert (Hz : zlen d = zlen dest) by (unfold zlen; lia).
  exists d. split; [exact E|]. intros hash nonce. unfold hashimotoFull, hashimotoLight.
  replace (u64 (zlen d * 4)) with size by (unfold u64; rewrite Z.mod_small; lia).
  apply hashimoto_spec; [lia|]. unfold hashBytes. intros i Hi. specialize (Hrow i ltac:(lia)). rewrite decide_True in Hrow by (apply Hin; lia).
  destruct (item_words_Ret cache i Hc) as (w & Ew & Hw). exists w. unfold hashWords.
  replace (u32 (i * 16)) with (16 * i) by (unfold u32; rewrite Z.mod_small; lia).
  replace (u32 (16 * i + 16)) with (16 * i + 16) by (unfold u32; rewrite Z.mod_small; lia).
  rewrite go_slice_Ret by lia. change (take (Z.to_nat 16) (drop (Z.to_nat (16 * i)) d)) with (row d i).
  split; [congruence|]. split; [|done]. unfold item_words in Ew. destruct (generateDatasetItem_Ret cache i Hc) as (b & Eb & Hb).
  rewrite Eb in Ew |- *. cbn [mbind outcome_bind] in Ew |- *. rewrite Hb. exact Ew.
Qed.

(** Verification from the cache is verification from the dataset. A cache of whole rows below 4 GiB is generated
    without a panic. For a dataset of the sizes that 32-bit offsets address, and at least one thread, every
    interleaving of the threads' work generates a dataset over which [hashimotoFull] returns, for every header hash
    and nonce, what [hashimotoLight] returns from the cache; neither panics. *)
Theorem hashimotoFull_Light rows seed threads order dest :
  1 <= rows < 2 ^ 26 -> 6400 <= 4 * zlen dest < 2 ^ 34 -> 1 <= threads -> order ≡ₚ work threads (4 * zlen dest) ->
  exists cache dataset, generateCache (Z.to_nat (16 * rows)) seed = Ret cache /\ generateDataset order dest cache = Ret dataset /\
    forall hash nonce, exists r, hashimotoFull dataset hash nonce = Ret r /\ hashimotoLight (4 * zlen dest) cache hash nonce = Ret r.
Proof.
  intros Hr Hd Ht Ho. destruct (generateCache_Ret rows seed Hr) as (cache & E & Hc).
  destruct (full_light threads order dest cache) as (d & E' & H); [unfold cache_sized; lia|done..|]. by exists cache, d.
Qed.
End Dataset.
