(* ===== verification/EthashVerify.v ===== *)
(** * Verification of headers, seals and uncles (consensus/ethash/consensus.go)

    With the fork checks of consensus/misc and the gas limit of
    core/block_validator.go.  Caches and datasets are generated in memory or in
    mapped files (ethash.go); what the file system answers, how far the generation
    has come, and the time are inputs. *)

From stdpp Require Import gmap.
From S2P Require Import Prelude Rlp RlpEncode Trie AccessList StateDB Uint256 VmAnalysis VmContract VmMemory VmGas VmPrecompiles.
From S2P Require Import ChainConfig BlockTypes Ethash EthashAlgo EthashSizes.

Import Types.

Inductive verify_error :=
| ExtraDataTooLong | ErrFutureBlock | errOlderBlockTime | InvalidDifficulty | InvalidGasLimitCap | InvalidGasUsed | InvalidGasLimit
| ErrInvalidNumber | ErrUnknownAncestor
| errInvalidPoW | errInvalidDifficulty | errInvalidMixDigest
| ErrBadProDAOExtra | ErrBadNoDAOExtra | ForkHashMismatch
| errTooManyUncles | errDuplicateUncle | errUncleIsAncestor | errDanglingUncle.

(** [consensus.ChainReader]: the chain as the engine reads it. *)
Record ChainReader := mk_ChainReader {
  Config : Params.ChainConfig;
  GetHeader : Z -> Z -> option Header;
  GetBlock : Z -> Z -> option Block
}.

Inductive Mode := ModeNormal | ModeShared | ModeTest | ModeFake | ModeFullFake.

#[global] Instance Mode_eq_dec : EqDecision Mode.
Proof. solve_decision. Defined.

(** What the file system does for a cache or a dataset that is stored on disk. *)
Record disk := mk_disk {
  stored : option (list Z);   (* the words at the path, none if they cannot be opened and mapped *)
  locks_old : bool;           (* they can be locked, or no lock is asked for *)
  creates : bool;             (* a temporary file is created, resized and mapped *)
  moves : bool;               (* it is unmapped, closed and renamed to the path *)
  reopens : bool;             (* the path is opened and mapped again *)
  locks_new : bool            (* and locked, or no lock is asked for *)
}.

(** How a dataset is generated: the directory, none for [dir == ""], and the
    orders in which the threads write its items, the second one for the dataset in
    memory that replaces a file. *)
Record generation := mk_generation { dir : option disk; order : list Z; order' : list Z }.

(** The engine: the directory of the cache of an epoch, and the generation of its
    dataset if that has ended. *)
Inductive Ethash := mk_Ethash (PowMode : Mode) (fakeFail : Z) (caches : Z -> option disk) (datasets : Z -> option generation) (shared : option Ethash).
Definition PowMode (e : Ethash) : Mode := let '(mk_Ethash m _ _ _ _) := e in m.

(** An error that cannot happen is none of the caller's. *)
Definition total_fuelled {E A} (m : fuelled Empty_set A) : fuelled E A :=
  match m with
  | Some (Ret a) => Some (Ret a)
  | Some (Err e) => match e with end
  | Some Panic => Some Panic
  | None => None
  end.

(** ** consensus/misc *)

Definition DAOForkBlockExtra : bytes := [0x64; 0x61; 0x6f; 0x2d; 0x68; 0x61; 0x72; 0x64; 0x2d; 0x66; 0x6f; 0x72; 0x6b].
Definition DAOForkExtraRange : Z := 10.

Definition VerifyDAOHeaderExtraData (config : Params.ChainConfig) (header : Header) : outcome verify_error unit :=
  match Params.DAOForkBlock config with
  | None => Ret tt
  | Some fork =>
      let limit := fork + DAOForkExtraRange in
      if decide (Number header < fork \/ Number header >= limit) then Ret tt
      else if Params.DAOForkSupport config then
        if decide (Extra header = DAOForkBlockExtra) then Ret tt else Err ErrBadProDAOExtra
      else if decide (Extra header = DAOForkBlockExtra) then Err ErrBadNoDAOExtra else Ret tt
  end.

(** ** params/protocol_params.go *)

Definition MaximumExtraDataSize : Z := 32.
Definition GasLimitBoundDivisor : Z := 1024.
Definition MinGasLimit : Z := 5000.
Definition allowedFutureBlockTimeSeconds : Z := 15.
Definition maxUncles : Z := 2.

Section Verify.
Context {K : Keccak512} {C : Crypto}.

Definition VerifyForkHashes (config : Params.ChainConfig) (header : Header) (uncle : bool) : outcome verify_error unit :=
  if uncle then Ret tt
  else if decide (Params.EIP150Block config = Some (Number header)) then
    if decide (Params.EIP150Hash config <> 0 /\ Params.EIP150Hash config <> Hash header) then Err ForkHashMismatch else Ret tt
  else Ret tt.

(** ** Seals *)

(** The list of interface values that is hashed. *)
Definition SealHash (h : Header) : Z :=
  rlpHash (SliceV false (map (fun v => IfaceV (Some v))
    [hash_val (ParentHash h); hash_val (UncleHash h); address_val (Coinbase h); hash_val (Root h); hash_val (TxHash h); hash_val (ReceiptHash h);
     ByteArrayV false (Bloom h); BigPtrV (Some (Difficulty h)); BigPtrV (Some (Number h)); UintV (GasLimit h); UintV (GasUsed h); UintV (Time h);
     BytesV (Extra h)])).

(** ethash.go: the mapped files. *)
Definition dumpMagic : list Z := [0xbaddcafe; 0xfee1dead].

(** The loop over [dumpMagic], which indexes the file. *)
Fixpoint has_magic (buffer magics : list Z) (i : Z) : outcome Empty_set bool :=
  match magics with
  | [] => Ret true
  | magic :: magics =>
      w ← go_index buffer i;
      if decide (w <> magic) then Ret false else has_magic buffer magics (i + 1)
  end.

(** None is an error. *)
Definition memoryMap (file : option (list Z)) (locks : bool) : outcome Empty_set (option (list Z)) :=
  match file with
  | None => Ret None
  | Some buffer =>
      valid ← has_magic buffer dumpMagic 0;
      if negb valid then Ret None
      else if negb locks then Ret None
      else data ← go_from buffer (zlen dumpMagic); Ret (Some data)
  end.

Definition memoryMapAndGenerate (d : disk) (size : Z) (generator : list Z -> outcome Empty_set (list Z)) : outcome Empty_set (option (list Z)) :=
  if negb (creates d) then Ret None
  else
    let buffer := replicate (Z.to_nat ((zlen dumpMagic * 4 + size) / 4)) 0 in
    let buffer := take (length buffer) dumpMagic ++ drop (length dumpMagic) buffer in
    data ← go_from buffer (zlen dumpMagic);
    data ← generator data;
    if negb (moves d) then Ret None
    else memoryMap (if reopens d then Some (take (length dumpMagic) buffer ++ data) else None) (locks_new d).

(** [cache.generate] *)
Definition cache_generate (epoch : Z) (test : bool) (dir : option disk) : fuelled Empty_set (list Z) :=
  let block := u64 (u64 (epoch * epochLength) + 1) in
  size ← cacheSize block;
  let seed := seedHash block in
  let size := if test then 1024 else size in
  match dir with
  | None => run (generateCache (Z.to_nat (size / 4)) seed)
  | Some d =>
      old ← run (memoryMap (stored d) (locks_old d));
      match old with
      | Some cache => run (Ret cache)
      | None =>
          new ← run (memoryMapAndGenerate d size (fun buffer => generateCache (length buffer) seed));
          match new with
          | Some cache => run (Ret cache)
          | None => run (generateCache (Z.to_nat (size / 4)) seed)
          end
      end
  end.

(** [dataset.generate]; without a file the dataset in memory has [dsize/2] words. *)
Definition dataset_generate (epoch : Z) (test : bool) (g : generation) : fuelled Empty_set (list Z) :=
  let block := u64 (u64 (epoch * epochLength) + 1) in
  csize ← cacheSize block;
  dsize ← datasetSize block;
  let seed := seedHash block in
  let csize := if test then 1024 else csize in
  let dsize := if test then 32 * 1024 else dsize in
  match dir g with
  | None =>
      cache ← run (generateCache (Z.to_nat (csize / 4)) seed);
      run (generateDataset (order g) (replicate (Z.to_nat (dsize / 4)) 0) cache)
  | Some d =>
      old ← run (memoryMap (stored d) (locks_old d));
      match old with
      | Some dataset => run (Ret dataset)
      | None =>
          cache ← run (generateCache (Z.to_nat (csize / 4)) seed);
          new ← run (memoryMapAndGenerate d dsize (fun buffer => generateDataset (order g) buffer cache));
          match new with
          | Some dataset => run (Ret dataset)
          | None => run (generateDataset (order' g) (replicate (Z.to_nat (dsize / 2)) 0) cache)
          end
      end
  end.

(** The slow branch of [verifySeal]. *)
Definition light_seal (mode : Mode) (dir : option disk) (header : Header) : fuelled Empty_set (bytes * bytes) :=
  let number := u64 (Number header) in
  let test := bool_decide (mode = ModeTest) in
  cache ← cache_generate (number / epochLength) test dir;
  size ← datasetSize number;
  let size := if test then 32 * 1024 else size in
  run (hashimotoLight size cache (be_bytes 32 (SealHash header)) (be_to_Z (Nonce header))).

Definition full_seal (mode : Mode) (g : generation) (header : Header) : fuelled Empty_set (bytes * bytes) :=
  dataset ← dataset_generate (u64 (Number header) / epochLength) (bool_decide (mode = ModeTest)) g;
  run (hashimotoFull dataset (be_bytes 32 (SealHash header)) (be_to_Z (Nonce header))).

Fixpoint verifySeal (ethash : Ethash) (header : Header) (fulldag : bool) : fuelled verify_error unit :=
  let '(mk_Ethash mode fakeFail caches datasets shared) := ethash in
  if decide (mode = ModeFake \/ mode = ModeFullFake) then
    run (if decide (fakeFail = u64 (Number header)) then Err errInvalidPoW else Ret tt)
  else
    match shared with
    | Some shared => verifySeal shared header fulldag
    | None =>
        if decide (Difficulty header <= 0) then run (Err errInvalidDifficulty)
        else
          '(digest, result) ← total_fuelled
            match fulldag, datasets (u64 (Number header) / epochLength) with
            | true, Some g => full_seal mode g header
            | _, _ => light_seal mode (caches (u64 (Number header) / epochLength)) header
            end;
          if decide (be_bytes 32 (MixDigest header) <> digest) then run (Err errInvalidMixDigest)
          else
            let target := 2 ^ 256 / Difficulty header in
            if decide (be_to_Z result > target) then run (Err errInvalidPoW) else run (Ret tt)
    end.

(** ** Headers *)

Definition verifyHeader (ethash : Ethash) (chain : ChainReader) (header parent : Header) (uncle seal : bool) (unixNow : Z) : fuelled verify_error unit :=
  if decide (zlen (Extra header) > MaximumExtraDataSize) then run (Err ExtraDataTooLong)
  else if negb uncle && bool_decide (Time header > u64 (i64 (unixNow + allowedFutureBlockTimeSeconds))) then run (Err ErrFutureBlock)
  else if decide (Time header <= Time parent) then run (Err errOlderBlockTime)
  else
    let expected := CalcDifficulty (Config chain) (Time header) parent in
    if decide (expected <> Difficulty header) then run (Err InvalidDifficulty)
    else
      let cap := 0x7fffffffffffffff in
      if decide (GasLimit header > cap) then run (Err InvalidGasLimitCap)
      else if decide (GasUsed header > GasLimit header) then run (Err InvalidGasUsed)
      else
        let diff := i64 (i64 (GasLimit parent) - i64 (GasLimit header)) in
        let diff := if decide (diff < 0) then i64 (diff * -1) else diff in
        let limit := GasLimit parent / GasLimitBoundDivisor in
        if decide (u64 diff >= limit \/ GasLimit header < MinGasLimit) then run (Err InvalidGasLimit)
        else if decide (Number header - Number parent <> 1) then run (Err ErrInvalidNumber)
        else
          _ ← (if seal then verifySeal ethash header false else run (Ret tt));
          _ ← run (VerifyDAOHeaderExtraData (Config chain) header);
          run (VerifyForkHashes (Config chain) header uncle).

Definition VerifyHeader (ethash : Ethash) (chain : ChainReader) (header : Header) (seal : bool) (now : Z) : fuelled verify_error unit :=
  if decide (PowMode ethash = ModeFullFake) then run (Ret tt)
  else
    let number := u64 (Number header) in
    match GetHeader chain (Hash header) number with
    | Some _ => run (Ret tt)
    | None =>
        match GetHeader chain (ParentHash header) (u64 (number - 1)) with
        | None => run (Err ErrUnknownAncestor)
        | Some parent => verifyHeader ethash chain header parent false seal now
        end
    end.

(** [headers] and [seals] have the same length. *)
Definition verifyHeaderWorker (ethash : Ethash) (chain : ChainReader) (headers : list Header) (seals : list bool) (index : nat) (unixNow : Z) :
    fuelled verify_error unit :=
  match headers !! index, seals !! index with
  | Some header, Some seal =>
      let parent :=
        match index with
        | O => GetHeader chain (ParentHash header) (u64 (u64 (Number header) - 1))
        | S i =>
            match headers !! i with
            | Some prev => if decide (Hash prev = ParentHash header) then Some prev else None
            | None => None
            end
        end in
      match parent with
      | None => run (Err ErrUnknownAncestor)
      | Some parent => verifyHeader ethash chain header parent false seal unixNow
      end
  | _, _ => run Panic
  end.

(** ** Uncles *)

(** The last [n] ancestors, and their uncles. *)
Fixpoint gather (chain : ChainReader) (n : nat) (parent number : Z) (uncles : gset Z) (ancestors : gmap Z Header) : gset Z * gmap Z Header :=
  match n with
  | O => (uncles, ancestors)
  | S n =>
      match GetBlock chain parent number with
      | None => (uncles, ancestors)
      | Some ancestor =>
          let ancestors := <[Hash (header ancestor) := header ancestor]> ancestors in
          let uncles := fold_left (fun us u => {[Hash u]} ∪ us) (Types.uncles ancestor) uncles in
          gather chain n (ParentHash (header ancestor)) (u64 (number - 1)) uncles ancestors
      end
  end.

Fixpoint check_uncles (ethash : Ethash) (chain : ChainReader) (block : Block) (now : Z) (ancestors : gmap Z Header) (uncles : gset Z)
    (us : list Header) : fuelled verify_error unit :=
  match us with
  | [] => run (Ret tt)
  | uncle :: us =>
      let hash := Hash uncle in
      if decide (hash ∈ uncles) then run (Err errDuplicateUncle)
      else
        let uncles := {[hash]} ∪ uncles in
        if decide (is_Some (ancestors !! hash)) then run (Err errUncleIsAncestor)
        else
          match ancestors !! ParentHash uncle with
          | None => run (Err errDanglingUncle)
          | Some parent =>
              if decide (ParentHash uncle = ParentHash (header block)) then run (Err errDanglingUncle)
              else
                _ ← verifyHeader ethash chain uncle parent true true now;
                check_uncles ethash chain block now ancestors uncles us
          end
  end.

Definition VerifyUncles (ethash : Ethash) (chain : ChainReader) (block : Block) (now : Z) : fuelled verify_error unit :=
  if decide (PowMode ethash = ModeFullFake) then run (Ret tt)
  else if decide (zlen (Types.uncles block) > maxUncles) then run (Err errTooManyUncles)
  else if decide (zlen (Types.uncles block) = 0) then run (Ret tt)
  else
    let number := u64 (u64 (Number (header block)) - 1) in
    let '(uncles, ancestors) := gather chain 7 (ParentHash (header block)) number ∅ ∅ in
    let ancestors := <[Hash (header block) := header block]> ancestors in
    let uncles := {[Hash (header block)]} ∪ uncles in
    check_uncles ethash chain block now ancestors uncles (Types.uncles block).

(** ** Preparing a header *)

Definition set_Difficulty (h : Header) (d : Z) : Header :=
  mk_Header (ParentHash h) (UncleHash h) (Coinbase h) (Root h) (TxHash h) (ReceiptHash h) (Bloom h) d (Number h) (GasLimit h) (GasUsed h) (Time h)
    (Extra h) (MixDigest h) (Nonce h).

Definition Prepare (chain : ChainReader) (header : Header) : outcome verify_error Header :=
  match GetHeader chain (ParentHash header) (u64 (u64 (Number header) - 1)) with
  | None => Err ErrUnknownAncestor
  | Some parent => Ret (set_Difficulty header (CalcDifficulty (Config chain) (Time header) parent))
  end.

(** core/block_validator.go *)
Definition CalcGasLimit (parent : Block) (gasFloor gasCeil : Z) : Z :=
  let used := GasUsed (header parent) in
  let parentLimit := GasLimit (header parent) in
  let contrib := u64 (used + used / 2) / GasLimitBoundDivisor in
  let decay := u64 (parentLimit / GasLimitBoundDivisor - 1) in
  let limit := u64 (u64 (parentLimit - decay) + contrib) in
  let limit := if decide (limit < MinGasLimit) then MinGasLimit else limit in
  if decide (limit < gasFloor) then
    let limit := u64 (parentLimit + decay) in
    if decide (limit > gasFloor) then gasFloor else limit
  else if decide (limit > gasCeil) then
    let limit := u64 (parentLimit - decay) in
    if decide (limit < gasCeil) then gasCeil else limit
  else limit.

End Verify.

(** ** The DAO fork *)

Definition DAORefundContract : Z := 0xbf4ed7b27f1d666546e30d74d50d173d20bca754.

Definition DAODrainList : list Z := [
  0xd4fe7bc31cedb7bfb8a345f31e668033056b2728; 0xb3fb0e5aba0e20e5c49d252dfd30e102b171a425; 0x2c19c7f9ae8b751e37aeb2d93a699722395ae18f;
  0xecd135fa4f61a655311e86238c92adcd779555d2; 0x1975bd06d486162d5dc297798dfc41edd5d160a7; 0xa3acf3a1e16b1d7c315e23510fdd7847b48234f6;
  0x319f70bab6845585f412ec7724b744fec6095c85; 0x06706dd3f2c9abf0a21ddcc6941d9b86f0596936; 0x5c8536898fbb74fc7445814902fd08422eac56d0;
  0x6966ab0d485353095148a2155858910e0965b6f9; 0x779543a0491a837ca36ce8c635d6154e3c4911a6; 0x2a5ed960395e2a49b1c758cef4aa15213cfd874c;
  0x5c6e67ccd5849c0d29219c4f95f1a7a93b3f5dc5; 0x9c50426be05db97f5d64fc54bf89eff947f0a321; 0x200450f06520bdd6c527622a273333384d870efb;
  0xbe8539bfe837b67d1282b2b1d61c3f723966f049; 0x6b0c4d41ba9ab8d8cfb5d379c69a612f2ced8ecb; 0xf1385fb24aad0cd7432824085e42aff90886fef5;
  0xd1ac8b1ef1b69ff51d1d401a476e7e612414f091; 0x8163e7fb499e90f8544ea62bbf80d21cd26d9efd; 0x51e0ddd9998364a2eb38588679f0d2c42653e4a6;
  0x627a0a960c079c21c34f7612d5d230e01b4ad4c7; 0xf0b1aa0eb660754448a7937c022e30aa692fe0c5; 0x24c4d950dfd4dd1902bbed3508144a54542bba94;
  0x9f27daea7aca0aa0446220b98d028715e3bc803d; 0xa5dc5acd6a7968a4554d89d65e59b7fd3bff0f90; 0xd9aef3a1e38a39c16b31d1ace71bca8ef58d315b;
  0x63ed5a272de2f6d968408b4acb9024f4cc208ebf; 0x6f6704e5a10332af6672e50b3d9754dc460dfa4d; 0x77ca7b50b6cd7e2f3fa008e24ab793fd56cb15f6;
  0x492ea3bb0f3315521c31f273e565b868fc090f17; 0x0ff30d6de14a8224aa97b78aea5388d1c51c1f00; 0x9ea779f907f0b315b364b0cfc39a0fde5b02a416;
  0xceaeb481747ca6c540a000c1f3641f8cef161fa7; 0xcc34673c6c40e791051898567a1222daf90be287; 0x579a80d909f346fbfb1189493f521d7f48d52238;
  0xe308bd1ac5fda103967359b2712dd89deffb7973; 0x4cb31628079fb14e4bc3cd5e30c2f7489b00960c; 0xac1ecab32727358dba8962a0f3b261731aad9723;
  0x4fd6ace747f06ece9c49699c7cabc62d02211f75; 0x440c59b325d2997a134c2c7c60a8c61611212bad; 0x4486a3d68fac6967006d7a517b889fd3f98c102b;
  0x9c15b54878ba618f494b38f0ae7443db6af648ba; 0x27b137a85656544b1ccb5a0f2e561a5703c6a68f; 0x21c7fdb9ed8d291d79ffd82eb2c4356ec0d81241;
  0x23b75c2f6791eef49c69684db4c6c1f93bf49a50; 0x1ca6abd14d30affe533b24d7a21bff4c2d5e1f3b; 0xb9637156d330c0d605a791f1c31ba5890582fe1c;
  0x6131c42fa982e56929107413a9d526fd99405560; 0x1591fc0f688c81fbeb17f5426a162a7024d430c2; 0x542a9515200d14b68e934e9830d91645a980dd7a;
  0xc4bbd073882dd2add2424cf47d35213405b01324; 0x782495b7b3355efb2833d56ecb34dc22ad7dfcc4; 0x58b95c9a9d5d26825e70a82b6adb139d3fd829eb;
  0x3ba4d81db016dc2890c81f3acec2454bff5aada5; 0xb52042c8ca3f8aa246fa79c3feaa3d959347c0ab; 0xe4ae1efdfc53b73893af49113d8694a057b9c0d1;
  0x3c02a7bc0391e86d91b7d144e61c2c01a25a79c5; 0x0737a6b837f97f46ebade41b9bc3e1c509c85c53; 0x97f43a37f595ab5dd318fb46e7a155eae057317a;
  0x52c5317c848ba20c7504cb2c8052abd1fde29d03; 0x4863226780fe7c0356454236d3b1c8792785748d; 0x5d2b2e6fcbe3b11d26b525e085ff818dae332479;
  0x5f9f3392e9f62f63b8eac0beb55541fc8627f42c; 0x057b56736d32b86616a10f619859c6cd6f59092a; 0x9aa008f65de0b923a2a4f02012ad034a5e2e2192;
  0x304a554a310c7e546dfe434669c62820b7d83490; 0x914d1b8b43e92723e64fd0a06f5bdb8dd9b10c79; 0x4deb0033bb26bc534b197e61d19e0733e5679784;
  0x07f5c1e1bc2c93e0402f23341973a0e043f7bf8a; 0x35a051a0010aba705c9008d7a7eff6fb88f6ea7b; 0x4fa802324e929786dbda3b8820dc7834e9134a2a;
  0x9da397b9e80755301a3b32173283a91c0ef6c87e; 0x8d9edb3054ce5c5774a420ac37ebae0ac02343c6; 0x0101f3be8ebb4bbd39a2e3b9a3639d4259832fd9;
  0x5dc28b15dffed94048d73806ce4b7a4612a1d48f; 0xbcf899e6c7d9d5a215ab1e3444c86806fa854c76; 0x12e626b0eebfe86a56d633b9864e389b45dcb260;
  0xa2f1ccba9395d7fcb155bba8bc92db9bafaeade7; 0xec8e57756626fdc07c63ad2eafbd28d08e7b0ca5; 0xd164b088bd9108b60d0ca3751da4bceb207b0782;
  0x6231b6d0d5e77fe001c2a460bd9584fee60d409b; 0x1cba23d343a983e9b5cfd19496b9a9701ada385f; 0xa82f360a8d3455c5c41366975bde739c37bfeb8a;
  0x9fcd2deaff372a39cc679d5c5e4de7bafb0b1339; 0x005f5cee7a43331d5a3d3eec71305925a62f34b6; 0x0e0da70933f4c7849fc0d203f5d1d43b9ae4532d;
  0xd131637d5275fd1a68a3200f4ad25c71a2a9522e; 0xbc07118b9ac290e4622f5e77a0853539789effbe; 0x47e7aa56d6bdf3f36be34619660de61275420af8;
  0xacd87e28b0c9d1254e868b81cba4cc20d9a32225; 0xadf80daec7ba8dcf15392f1ac611fff65d94f880; 0x5524c55fb03cf21f549444ccbecb664d0acad706;
  0x40b803a9abce16f50f36a77ba41180eb90023925; 0xfe24cdd8648121a43a7c86d289be4dd2951ed49f; 0x17802f43a0137c506ba92291391a8a8f207f487d;
  0x253488078a4edf4d6f42f113d1e62836a942cf1a; 0x86af3e9626fce1957c82e88cbf04ddf3a2ed7915; 0xb136707642a4ea12fb4bae820f03d2562ebff487;
  0xdbe9b615a3ae8709af8b93336ce9b477e4ac0940; 0xf14c14075d6c4ed84b86798af0956deef67365b5; 0xca544e5c4687d109611d0f8f928b53a25af72448;
  0xaeeb8ff27288bdabc0fa5ebb731b6f409507516c; 0xcbb9d3703e651b0d496cdefb8b92c25aeb2171f7; 0x6d87578288b6cb5549d5076a207456a1f6a63dc0;
  0xb2c6f0dfbb716ac562e2d85d6cb2f8d5ee87603e; 0xaccc230e8a6e5be9160b8cdf2864dd2a001c28b6; 0x2b3455ec7fedf16e646268bf88846bd7a2319bb2;
  0x4613f3bca5c44ea06337a9e439fbc6d42e501d0a; 0xd343b217de44030afaa275f54d31a9317c7f441e; 0x84ef4b2357079cd7a7c69fd7a37cd0609a679106;
  0xda2fef9e4a3230988ff17df2165440f37e8b1708; 0xf4c64518ea10f995918a454158c6b61407ea345c; 0x7602b46df5390e432ef1c307d4f2c9ff6d65cc97;
  0xbb9bc244d798123fde783fcc1c72d3bb8c189413; 0x807640a13483f8ac783c557fcdf27be11ea4ac7a].

Section DAO.
Context {B : Backend}.

Definition drain (statedb : StateDB) (addr : Z) : StateDB :=
  let '(amount, statedb) := GetBalance statedb addr in
  let statedb := AddBalance statedb DAORefundContract amount in
  SetBalance statedb addr 0.

Definition ApplyDAOHardFork (statedb : StateDB) : StateDB :=
  let '(found, statedb) := Exist statedb DAORefundContract in
  let statedb := if (found : bool) then statedb else CreateAccount statedb DAORefundContract in
  fold_left drain DAODrainList statedb.

End DAO.
