(* ===== verification/EthashVerifyProofs.v ===== *)
(** * What verification accepts (consensus/ethash/consensus.go)

    The full and the light verification of a seal agree; the rules that accepted
    headers and uncles keep; that prepared headers are accepted. *)

From stdpp Require Import gmap.
From S2P Require Import Prelude Rlp RlpEncode Trie AccessList StateDB StateDBProofs StateDBSnapshots StateDBObserve StateDBEffects.
From S2P Require Import Uint256 VmAnalysis VmContract VmMemory VmGas VmPrecompiles VmGasProofs VmSstore VmRefund VmState VmSupply.
From S2P Require Import ChainConfig BlockTypes Ethash EthashProofs EthashAlgo EthashAlgoProofs EthashSizes EthashVerify.

Import Types.

(** ** Seals *)

Section Seals.
Context {K : Keccak512} {C : Crypto} (HK : forall b, length (keccak512_sum b) = 64%nat).

(** The block that stands for an epoch belongs to it. *)
Lemma epoch_block e : 0 <= e < 2 ^ 32 -> u64 (u64 (e * epochLength) + 1) / epochLength = e.
Proof.
  intros He. unfold epochLength, u64. rewrite (Z.mod_small (e * 30000)) by lia. rewrite Z.mod_small by lia. symmetry. apply (Z.div_unique _ _ _ 1); lia.
Qed.

(** The size of the dataset for a mode of the engine. *)
Definition dataset_bytes (mode : Mode) (block : Z) (size : Z) : Prop :=
  if decide (mode = ModeTest) then size = 32 * 1024 else datasetSize block = run (Ret size).

(** One or more threads write all the items, in some interleaving. *)
Definition interleaves (size : Z) (order : list Z) : Prop := exists threads, 1 <= threads /\ order ≡ₚ work threads size.

(** *** Files *)

(** A file that starts with the magic words. *)
Definition valid_file (file : option (list Z)) : bool :=
  match file with Some buffer => bool_decide (take 2 buffer = dumpMagic) | None => false end.

(** Such a file holds data that satisfy [P]; no file is shorter than the magic words. *)
Definition holds (d : disk) (P : list Z -> Prop) : Prop :=
  forall buffer, stored d = Some buffer -> (2 <= length buffer)%nat /\ (take 2 buffer = dumpMagic -> P (drop 2 buffer)).

(** A new file can be written and mapped. *)
Definition writes (d : disk) : bool := creates d && moves d && reopens d && locks_new d.

(** The dataset is generated in memory in the place of a file. *)
Definition falls_back (g : generation) : bool :=
  match dir g with
  | Some d => negb (valid_file (stored d) && locks_old d) && negb (writes d)
  | None => false
  end.

Lemma has_magic_spec x y rest : has_magic (x :: y :: rest) dumpMagic 0 = Ret (bool_decide ([x; y] = dumpMagic)).
Proof.
  change (has_magic _ _ _) with
    (if decide (x <> 0xbaddcafe) then Ret false else if decide (y <> 0xfee1dead) then Ret false else Ret true : outcome Empty_set bool).
  unfold dumpMagic. destruct (decide (x <> _)) as [Hx|Hx%dec_stable].
  { rewrite bool_decide_eq_false_2; [done|]. intros [= ? _]. congruence. }
  destruct (decide (y <> _)) as [Hy|Hy%dec_stable].
  { rewrite bool_decide_eq_false_2; [done|]. intros [= ? ?]. congruence. }
  by rewrite bool_decide_eq_true_2 by (by rewrite Hx, Hy).
Qed.

Lemma memoryMap_old d P : holds d P ->
  if valid_file (stored d) && locks_old d
  then exists l, memoryMap (stored d) (locks_old d) = Ret (Some l) /\ P l
  else memoryMap (stored d) (locks_old d) = Ret None.
Proof.
  intros H. unfold holds in H. destruct (stored d) as [buffer|]; [|done]. destruct (H buffer eq_refl) as [Hl HP]. clear H.
  destruct buffer as [|x [|y rest]]; [cbn in Hl; lia..|]. change (take 2 (x :: y :: rest)) with [x; y] in HP.
  cbn [valid_file memoryMap]. change (take 2 (x :: y :: rest)) with [x; y]. rewrite has_magic_spec. cbn [mbind outcome_bind].
  case_bool_decide as E; [|done]. destruct (locks_old d); [|done]. cbn [andb negb].
  exists rest. split; [|by apply HP]. unfold go_from, go_slice. rewrite decide_True by (unfold zlen; cbn; lia). cbn [mbind outcome_bind].
  do 2 f_equal. change (Z.to_nat (zlen dumpMagic)) with 2%nat. cbn [drop]. apply take_ge. unfold zlen. cbn. lia.
Qed.

Lemma memoryMap_new data : memoryMap (Some (dumpMagic ++ data)) true = Ret (Some data).
Proof.
  cbn [memoryMap dumpMagic app]. rewrite has_magic_spec, bool_decide_eq_true_2 by done. cbn [mbind outcome_bind negb].
  unfold go_from, go_slice. rewrite decide_True by (unfold zlen; cbn; lia). cbn [mbind outcome_bind].
  do 2 f_equal. change (Z.to_nat (zlen dumpMagic)) with 2%nat. cbn [drop]. apply take_ge. unfold zlen. cbn. lia.
Qed.

(** The generator gets zeros; its data come back from the file, or an error. *)
Lemma memoryMapAndGenerate_spec d size generator data :
  0 <= size -> generator (replicate (Z.to_nat (size / 4)) 0) = Ret data ->
  memoryMapAndGenerate d size generator = Ret (if writes d then Some data else None).
Proof.
  intros Hs Hg. unfold memoryMapAndGenerate, writes. destruct (creates d); [|done]. cbn [negb andb].
  change (zlen dumpMagic * 4 + size) with (2 * 4 + size). rewrite Z.div_add_l by lia.
  assert (0 <= size / 4) by (apply Z.div_pos; lia).
  rewrite Z2Nat.inj_add by lia. change (Z.to_nat 2) with 2%nat. cbn [Nat.add replicate length dumpMagic take drop app]. set (zs := replicate _ 0) in *.
  assert (go_from (E:=Empty_set) (0xbaddcafe :: 0xfee1dead :: zs) 2 = Ret zs) as E.
  { unfold go_from, go_slice. rewrite decide_True by (unfold zlen; cbn; lia). f_equal. change (Z.to_nat 2) with 2%nat. cbn [drop].
    apply take_ge. unfold zlen. cbn. lia. }
  rewrite !take_nil, !drop_0, !take_0. change (zlen dumpMagic) with 2. cbn [app]. rewrite E. cbn [mbind outcome_bind]. rewrite Hg. cbn [mbind outcome_bind].
  destruct (moves d); [|done]. cbn [negb andb]. destruct (reopens d); [|done]. cbn [andb].
  destruct (locks_new d); [apply memoryMap_new|]. cbn [memoryMap]. by rewrite has_magic_spec, bool_decide_eq_true_2 by done.
Qed.

(** *** Epochs *)

(** What the engine generates for an epoch: the cache, and the words of the dataset. *)
Record epoch_of (mode : Mode) (e cs ds : Z) (cache : list Z) (w : Z) : Prop := {
  ep_cache : cacheSize (u64 (u64 (e * epochLength) + 1)) = run (Ret cs);
  ep_data : datasetSize (u64 (u64 (e * epochLength) + 1)) = run (Ret ds);
  ep_nonneg : 0 <= (if bool_decide (mode = ModeTest) then 1024 else cs);
  ep_generate : generateCache (Z.to_nat ((if bool_decide (mode = ModeTest) then 1024 else cs) / 4))
    (seedHash (u64 (u64 (e * epochLength) + 1))) = Ret cache;
  ep_sized : cache_sized cache;
  ep_words : (if bool_decide (mode = ModeTest) then 32 * 1024 else ds) = 4 * w;
  ep_range : 6400 <= 4 * w < 2 ^ 34;
  ep_double : e < 896 -> 8 * w < 2 ^ 34
}.

Lemma epoch_exists mode e : 0 <= e < 1920 -> exists cs ds cache w, epoch_of mode e cs ds cache w.
Proof.
  intros He. set (b := u64 (u64 (e * epochLength) + 1)). assert (Hb : b / epochLength = e) by (apply epoch_block; lia).
  destruct (cacheSize_row b) as (q & Hq & Hqb); [unfold maxEpoch; lia|].
  destruct (datasetSize_row b) as (q' & Hq' & Hqb' & Hlim); [unfold maxEpoch; lia|].
  set (test := bool_decide (mode = ModeTest)).
  assert (exists rows, (if test then 1024 else hashBytes * q) = 64 * rows /\ 1 <= rows < 2 ^ 26) as (rows & Hrows & Hr).
  { unfold hashBytes. destruct test; [exists 16|exists q]; lia. }
  assert (exists w, (if test then 32 * 1024 else mixBytes * q') = 4 * w /\ 6400 <= 4 * w < 2 ^ 34 /\ (e < 896 -> 8 * w < 2 ^ 34)) as (w & Hw & Hwb & Hw2).
  { rewrite Hb in Hlim. unfold mixBytes, datasetInitBytes, datasetGrowthBytes in *. destruct test; [exists 8192|exists (32 * q')]; lia. }
  destruct (generateCache_Ret HK rows (seedHash b) Hr) as (cache & Ec & Hc).
  exists (hashBytes * q), (mixBytes * q'), cache, w. split; fold b test; try done; [lia| |unfold cache_sized; lia].
  rewrite Hrows. replace (64 * rows / 4) with (16 * rows) by (apply Z.div_unique_exact; lia). done.
Qed.

Lemma epoch_bytes mode e cs ds cache w : 0 <= e < 1920 -> epoch_of mode e cs ds cache w ->
  forall block, block / epochLength = e -> dataset_bytes mode block (4 * w).
Proof.
  intros He E block Hb. unfold dataset_bytes. destruct E as [_ E _ _ _ <- _ _].
  unfold datasetSize in *. rewrite epoch_block in E by lia. rewrite Hb.
  destruct (decide (mode = ModeTest)); [by rewrite bool_decide_eq_true_2|by rewrite bool_decide_eq_false_2].
Qed.

(** *** Generation *)

Lemma cache_generate_Ret mode e cs ds cache w d :
  epoch_of mode e cs ds cache w ->
  (forall k, d = Some k -> holds k (fun l => cache_generate e (bool_decide (mode = ModeTest)) None = run (Ret l))) ->
  cache_generate e (bool_decide (mode = ModeTest)) d = run (Ret cache).
Proof.
  intros E Hd. unfold cache_generate in *. rewrite (ep_cache _ _ _ _ _ _ E) in *. cbn [mbind fuelled_bind run] in *.
  rewrite (ep_generate _ _ _ _ _ _ E) in *. destruct d as [k|]; [|done]. specialize (Hd k eq_refl). apply memoryMap_old in Hd.
  destruct (_ && _); [destruct Hd as (l & -> & [= ->]); done|]. rewrite Hd. cbn [mbind fuelled_bind run].
  rewrite (memoryMapAndGenerate_spec _ _ _ cache);
    [|apply (ep_nonneg _ _ _ _ _ _ E)|rewrite length_replicate; apply (ep_generate _ _ _ _ _ _ E)].
  cbn [mbind fuelled_bind run]. by destruct (writes k).
Qed.

(** The threads write all items, into the file or in memory; a file at the path
    was written by such threads. *)
Definition generation_ok (mode : Mode) (e : Z) (g : generation) : Prop :=
  forall size, dataset_bytes mode (e * epochLength) size ->
    interleaves size (order g) /\ interleaves (2 * size) (order' g) /\
    forall d, dir g = Some d -> holds d (fun l => exists o, interleaves size o /\
      dataset_generate e (bool_decide (mode = ModeTest)) (mk_generation None o []) = run (Ret l)).

Lemma dataset_in_memory mode e cs ds cache w o :
  epoch_of mode e cs ds cache w ->
  dataset_generate e (bool_decide (mode = ModeTest)) (mk_generation None o []) = run (generateDataset o (replicate (Z.to_nat w) 0) cache).
Proof.
  intros E. unfold dataset_generate. rewrite (ep_cache _ _ _ _ _ _ E), (ep_data _ _ _ _ _ _ E). cbn [mbind fuelled_bind run dir order].
  rewrite (ep_generate _ _ _ _ _ _ E), (ep_words _ _ _ _ _ _ E). cbn [mbind fuelled_bind run]. by rewrite (Z.mul_comm 4), Z.div_mul.
Qed.

(** A dataset of [n] words that threads write. *)
Lemma dataset_written mode e cs ds cache w n o : epoch_of mode e cs ds cache w -> w <= n -> 4 * n < 2 ^ 34 -> interleaves (4 * n) o ->
  exists l, generateDataset o (replicate (Z.to_nat n) 0) cache = Ret l /\
    forall hash nonce, exists r, hashimotoFull l hash nonce = Ret r /\ hashimotoLight (4 * n) cache hash nonce = Ret r.
Proof.
  intros E Hn Hlt (threads & Ht & Ho). pose proof (ep_range _ _ _ _ _ _ E).
  assert (zlen (replicate (Z.to_nat n) 0) = n) as Hz by (unfold zlen; rewrite length_replicate; lia).
  pose proof (full_light HK threads o (replicate (Z.to_nat n) 0) cache) as H'. rewrite Hz in H'.
  apply H'; [apply (ep_sized _ _ _ _ _ _ E)|lia|done|done].
Qed.

Lemma dataset_generate_spec mode e cs ds cache w g :
  0 <= e < 1920 -> epoch_of mode e cs ds cache w -> generation_ok mode e g -> (falls_back g = true -> e < 896) ->
  exists l, dataset_generate e (bool_decide (mode = ModeTest)) g = run (Ret l) /\
    forall hash nonce, exists r, hashimotoFull l hash nonce = Ret r /\
      hashimotoLight (if falls_back g then 8 * w else 4 * w) cache hash nonce = Ret r.
Proof.
  intros He E Hg Hb. destruct (Hg (4 * w)) as (Ho & Ho' & Hd).
  { apply (epoch_bytes _ e cs ds cache); [done..|]. apply Z.div_mul. done. }
  pose proof (ep_range _ _ _ _ _ _ E) as Hr.
  destruct (dataset_written _ _ _ _ _ _ w (order g) E) as (l & El & Hl); [lia|lia|done|].
  unfold falls_back in *. destruct g as [[d|] o o']; cbn [dir order order'] in *.
  2: { exists l. split; [|done]. transitivity (dataset_generate e (bool_decide (mode = ModeTest)) (mk_generation None o [])); [done|].
       by rewrite (dataset_in_memory _ _ _ _ _ _ o E), El. }
  specialize (Hd d eq_refl). apply memoryMap_old in Hd. unfold dataset_generate.
  rewrite (ep_cache _ _ _ _ _ _ E), (ep_data _ _ _ _ _ _ E). cbn [mbind fuelled_bind run dir order order'].
  destruct (valid_file _ && _); cbn [negb andb] in *.
  { destruct Hd as (l0 & Em & o0 & Ho0 & El0). rewrite Em. cbn [mbind fuelled_bind run]. exists l0. split; [done|].
    destruct (dataset_written _ _ _ _ _ _ w o0 E) as (l1 & El1 & Hl1); [lia|lia|done|].
    rewrite (dataset_in_memory _ _ _ _ _ _ o0 E), El1 in El0. by injection El0 as <-. }
  rewrite Hd, (ep_generate _ _ _ _ _ _ E), (ep_words _ _ _ _ _ _ E). cbn [mbind fuelled_bind run].
  rewrite (memoryMapAndGenerate_spec _ _ _ l); [|lia|by rewrite (Z.mul_comm 4), Z.div_mul]. cbn [mbind fuelled_bind run].
  destruct (writes d); cbn [negb] in *; [by exists l|]. replace (4 * w / 2) with (2 * w) by (apply Z.div_unique_exact; lia).
  pose proof (ep_double _ _ _ _ _ _ E (Hb eq_refl)).
  destruct (dataset_written _ _ _ _ _ _ (2 * w) o' E) as (l' & El' & Hl'); [lia|lia|by replace (4 * (2 * w)) with (2 * (4 * w)) by lia|].
  exists l'. rewrite El'. split; [done|]. by replace (8 * w) with (4 * (2 * w)) by lia.
Qed.

(** *** Verification *)

Lemma header_epoch header n : 0 <= Number header < n * epochLength -> n <= 1920 ->
  0 <= Number header / epochLength < n /\ u64 (Number header) = Number header.
Proof.
  unfold epochLength. intros Hn Hle. split; [split; [apply Z.div_pos; lia|apply Z.div_lt_upper_bound; lia]|].
  unfold u64. rewrite Z.mod_small; lia.
Qed.

Lemma full_seal_spec mode g header cs ds cache w :
  0 <= Number header < 1920 * epochLength -> epoch_of mode (Number header / epochLength) cs ds cache w ->
  generation_ok mode (Number header / epochLength) g -> (falls_back g = true -> Number header / epochLength < 896) ->
  exists r, full_seal mode g header = run (Ret r) /\
    hashimotoLight (if falls_back g then 8 * w else 4 * w) cache (be_bytes 32 (SealHash header)) (be_to_Z (Nonce header)) = Ret r.
Proof.
  intros Hn E Hg Hb. destruct (header_epoch header 1920 Hn) as [He Hu]; [done|]. unfold full_seal. rewrite Hu.
  destruct (dataset_generate_spec _ _ _ _ _ _ _ He E Hg Hb) as (l & -> & Hl). cbn [mbind fuelled_bind run].
  destruct (Hl (be_bytes 32 (SealHash header)) (be_to_Z (Nonce header))) as (r & -> & Hr). by exists r.
Qed.

Lemma light_seal_spec mode d header cs ds cache w :
  0 <= Number header < 1920 * epochLength -> epoch_of mode (Number header / epochLength) cs ds cache w ->
  (forall k, d = Some k -> holds k (fun l => cache_generate (Number header / epochLength) (bool_decide (mode = ModeTest)) None = run (Ret l))) ->
  light_seal mode d header = run (hashimotoLight (4 * w) cache (be_bytes 32 (SealHash header)) (be_to_Z (Nonce header))).
Proof.
  intros Hn E Hd. destruct (header_epoch header 1920 Hn) as [He Hu]; [done|]. unfold light_seal. rewrite Hu.
  rewrite (cache_generate_Ret _ _ _ _ _ _ _ E Hd). cbn [mbind fuelled_bind run].
  assert (datasetSize (Number header) = run (Ret ds)) as ->.
  { rewrite <- (ep_data _ _ _ _ _ _ E). unfold datasetSize. by rewrite epoch_block by lia. }
  cbn [mbind fuelled_bind run]. by rewrite (ep_words _ _ _ _ _ _ E).
Qed.

Lemma light_seal_Ret mode d header :
  0 <= Number header < 1920 * epochLength ->
  (forall k, d = Some k -> holds k (fun l => cache_generate (Number header / epochLength) (bool_decide (mode = ModeTest)) None = run (Ret l))) ->
  exists r, light_seal mode d header = run (Ret r).
Proof.
  intros Hn Hd. destruct (header_epoch header 1920 Hn) as [He _]; [done|].
  destruct (epoch_exists mode _ He) as (cs & ds & cache & w & E). rewrite (light_seal_spec _ _ _ _ _ _ _ Hn E Hd).
  pose proof (ep_range _ _ _ _ _ _ E). destruct (dataset_written _ _ _ _ _ _ w (work 1 (4 * w)) E) as (l & _ & Hl); [lia|lia|by exists 1|].
  destruct (Hl (be_bytes 32 (SealHash header)) (be_to_Z (Nonce header))) as (r & _ & ->). by exists r.
Qed.

(** When the dataset is generated in memory in the place of a file, the seal is
    checked against a dataset of twice the size of the one of the slow verification. *)
Theorem full_seal_fallback mode g header :
  generation_ok mode (Number header / epochLength) g -> falls_back g = true -> 0 <= Number header < 896 * epochLength ->
  exists cache size r, cache_generate (Number header / epochLength) (bool_decide (mode = ModeTest)) None = run (Ret cache) /\
    dataset_bytes mode (Number header) size /\ full_seal mode g header = run (Ret r) /\
    hashimotoLight (2 * size) cache (be_bytes 32 (SealHash header)) (be_to_Z (Nonce header)) = Ret r.
Proof.
  intros Hg Hb Hn. destruct (header_epoch header 896 Hn) as [He _]; [done|].
  destruct (epoch_exists mode (Number header / epochLength)) as (cs & ds & cache & w & E); [lia|].
  destruct (full_seal_spec mode g header cs ds cache w) as (r & Hr & Hl); [unfold epochLength in *; lia|done|done|lia|].
  rewrite Hb in Hl. exists cache, (4 * w), r. split; [by apply (cache_generate_Ret _ _ cs ds cache w)|].
  split; [apply (epoch_bytes _ (Number header / epochLength) cs ds cache); [lia|done|done]|]. split; [done|]. by replace (2 * (4 * w)) with (8 * w) by lia.
Qed.

(** The files at the paths of the engine were written by it, and its datasets by
    one or more threads in some interleaving. *)
Fixpoint engine_ok (ethash : Ethash) : Prop :=
  let '(mk_Ethash mode _ caches datasets shared) := ethash in
  (forall e d, caches e = Some d -> holds d (fun l => cache_generate e (bool_decide (mode = ModeTest)) None = run (Ret l))) /\
  (forall e g, datasets e = Some g -> generation_ok mode e g) /\
  match shared with Some shared => engine_ok shared | None => True end.

(** The dataset of the epoch replaces a file that could not be written. *)
Fixpoint fell_back (ethash : Ethash) (e : Z) : bool :=
  let '(mk_Ethash _ _ _ datasets shared) := ethash in
  match shared with
  | Some shared => fell_back shared e
  | None => match datasets e with Some g => falls_back g | None => false end
  end.

(** C15: in the first 1920 epochs the fast verification of a seal against the dataset and the slow one against the
    cache give the same answer, in every mode of the engine and for a shared engine: whether the dataset is generated
    or not, in memory or in a mapped file, found on disk or written anew, and in whichever interleaving its threads
    wrote it; the cache may also be in memory or in a file. Verification ends without a panic. The files found on disk
    are those that the engine writes. Excluded is the dataset that is generated in memory because no file could be
    written, which has twice the size ([full_seal_fallback]). *)
Theorem verifySeal_fulldag ethash header fulldag :
  engine_ok ethash -> 0 <= Number header < 1920 * epochLength ->
  (fulldag = true -> fell_back ethash (Number header / epochLength) = false) ->
  verifySeal ethash header fulldag = verifySeal ethash header false /\
  exists o, verifySeal ethash header false = run o /\ no_panic o.
Proof.
  intros Hok Hn Hfb. destruct (header_epoch header 1920 Hn) as [He Hu]; [done|]. revert ethash Hok Hfb. fix IH 1.
  intros [mode fakeFail caches datasets [shared|]] (Hcs & Hds & Hsh) Hfb; cbn [verifySeal].
  - destruct (decide (mode = _ \/ _)); [split; [reflexivity|]; destruct (decide (fakeFail = _)); by eexists|]. by apply IH.
  - clear IH. destruct (decide (mode = _ \/ _)); [split; [reflexivity|]; destruct (decide (fakeFail = _)); by eexists|].
    destruct (decide (Difficulty header <= 0)); [split; [reflexivity|by eexists]|].
    rewrite Hu. set (d := caches _). assert (forall k, d = Some k -> holds k (fun l =>
      cache_generate (Number header / epochLength) (bool_decide (mode = ModeTest)) None = run (Ret l))) as Hd by (intros k; apply Hcs).
    destruct (light_seal_Ret mode d header Hn Hd) as ([digest result] & El).
    assert (Eq : match fulldag, datasets (Number header / epochLength) with
      | true, Some g => full_seal mode g header | _, _ => light_seal mode d header end = run (Ret (digest, result))).
    { destruct fulldag; [|done]. specialize (Hfb eq_refl). cbn [fell_back] in Hfb. destruct (datasets _) as [g|] eqn:Eg; [|done].
      destruct (epoch_exists mode _ He) as (cs & ds & cache & w & E).
      destruct (full_seal_spec mode g header cs ds cache w) as (r & Hr & Hl); [done|done|by apply Hds|by rewrite Hfb|].
      rewrite (light_seal_spec _ _ _ _ _ _ _ Hn E Hd) in El. rewrite Hfb in Hl. rewrite Hl in El. by injection El as <-. }
    rewrite Eq, El. cbn [total_fuelled run mbind fuelled_bind]. split; [done|].
    destruct (decide (_ <> digest)); [by eexists|]. destruct (decide (be_to_Z result > _)); by eexists.
Qed.

End Seals.

(** ** Headers *)

Section Headers.
Context {K : Keccak512} {C : Crypto}.

(** The rules for a header on its parent, apart from its seal. *)
Record valid_header (config : Params.ChainConfig) (uncle : bool) (now : Z) (parent header : Header) : Prop := {
  vh_extra : zlen (Extra header) <= 32;
  vh_future : uncle = false -> Time header <= now + 15;
  vh_time : Time parent < Time header;
  vh_difficulty : Difficulty header = CalcDifficulty config (Time header) parent;
  vh_gas : GasUsed header <= GasLimit header < 2 ^ 63;
  vh_limit : Z.abs (GasLimit parent - GasLimit header) < GasLimit parent / 1024;
  vh_min : 5000 <= GasLimit header;
  vh_number : Number header = Number parent + 1;
  vh_dao : VerifyDAOHeaderExtraData config header = Ret tt;
  vh_fork : VerifyForkHashes config header uncle = Ret tt
}.

(** The 64-bit arithmetic on gas limits below 2^63 is exact. *)
Lemma gas_diff p h : 0 <= p < 2 ^ 63 -> 0 <= h < 2 ^ 63 ->
  (let diff := i64 (i64 p - i64 h) in u64 (if decide (diff < 0) then i64 (diff * -1) else diff)) = Z.abs (p - h).
Proof.
  intros Hp Hh. assert (Hi : forall x, - 2 ^ 63 <= x < 2 ^ 63 -> i64 x = x).
  { intros x Hx. unfold i64, u64. destruct (decide (0 <= x)).
    - rewrite Z.mod_small by lia. by rewrite decide_True by lia.
    - replace (x mod 2 ^ 64) with (x + 2 ^ 64); [rewrite decide_False by lia; lia|].
      rewrite <- (Z.mod_add x 1 (2 ^ 64)) by lia. rewrite Z.mod_small; lia. }
  rewrite (Hi p), (Hi h), (Hi (p - h)) by lia. cbv zeta. case_decide; rewrite ?Hi by lia; unfold u64; rewrite Z.mod_small; lia.
Qed.

Definition header_ok (h : Header) : Prop := is_u64 (Time h) /\ is_u64 (GasLimit h) /\ is_u64 (GasUsed h).

(** What is verified before the seal. *)
Lemma verifyHeader_rules ethash chain header parent uncle seal now :
  header_ok header -> 0 <= GasLimit parent < 2 ^ 63 -> 0 <= now < 2 ^ 62 ->
  verifyHeader ethash chain header parent uncle seal now = run (Ret tt) <->
  valid_header (Config chain) uncle now parent header /\ (seal = true -> verifySeal ethash header false = run (Ret tt)).
Proof.
  intros (Ht & Hg & Hu) Hp Hn. unfold is_u64 in *. unfold verifyHeader, MaximumExtraDataSize, allowedFutureBlockTimeSeconds.
  assert (Hnow : u64 (i64 (now + 15)) = now + 15).
  { unfold i64, u64. rewrite (Z.mod_small (now + 15)) by lia. rewrite decide_True by lia. rewrite Z.mod_small; lia. }
  rewrite Hnow. split.
  - destruct (decide (zlen (Extra header) > 32)); [done|]. destruct (negb uncle && _) eqn:Ef; [done|].
    destruct (decide (Time header <= Time parent)); [done|]. destruct (decide (CalcDifficulty (Config chain) (Time header) parent <> Difficulty header)); [done|].
    destruct (decide (GasLimit header > _)); [done|]. destruct (decide (GasUsed header > GasLimit header)); [done|].
    pose proof (gas_diff (GasLimit parent) (GasLimit header) ltac:(lia) ltac:(lia)) as Hdiff. cbv zeta in Hdiff |- *. rewrite Hdiff.
    unfold GasLimitBoundDivisor, MinGasLimit in *. destruct (decide (_ \/ _)); [done|]. destruct (decide (Number header - _ <> 1)); [done|].
    intros H0. assert (Hs : (seal = true -> verifySeal ethash header false = run (Ret tt)) /\
      VerifyDAOHeaderExtraData (Config chain) header = Ret tt /\ VerifyForkHashes (Config chain) header uncle = Ret tt).
    { destruct (if seal then _ else _) as [[[]|?|]|] eqn:Es; try done. cbn [mbind fuelled_bind] in H0.
      destruct (VerifyDAOHeaderExtraData _ _) as [[]|?|]; try done. cbn [run mbind fuelled_bind] in H0. unfold run in H0. injection H0 as H0.
      split; [intros ->; exact Es|done]. }
    destruct Hs as (Hs & Hd & Hf). split; [|done]. split; try (done || lia).
    intros ->. cbn in Ef. apply bool_decide_eq_false in Ef. lia.
  - intros [[V1 V2 V3 V4 V5 V6 V7 V8 V9 V10] Hs]. rewrite decide_False by lia.
    replace (negb uncle && _) with false by (destruct uncle; cbn; [done|symmetry; apply bool_decide_eq_false; specialize (V2 eq_refl); lia]).
    rewrite decide_False by lia. rewrite <- V4. rewrite decide_False by tauto. rewrite !decide_False by lia.
    pose proof (gas_diff (GasLimit parent) (GasLimit header) ltac:(lia) ltac:(lia)) as Hdiff. cbv zeta in Hdiff |- *. rewrite Hdiff.
    unfold GasLimitBoundDivisor, MinGasLimit. rewrite !decide_False by lia. rewrite V9, V10. destruct seal; [by rewrite Hs|done].
Qed.

(** ** A batch of headers *)

(** The header before the header [i] of a batch that starts on [parent]. *)
Definition previous (parent : Header) (headers : list Header) (i : nat) : option Header :=
  match i with O => Some parent | S i => headers !! i end.

(** A batch in which every header is valid on the one before it, and refers to it. *)
Definition valid_batch (ethash : Ethash) (chain : ChainReader) (now : Z) (parent : Header) (headers : list Header) (seals : list bool) : Prop :=
  forall i h prev, headers !! i = Some h -> previous parent headers i = Some prev ->
    valid_header (Config chain) false now prev h /\ (i <> O -> ParentHash h = Hash prev) /\
    (seals !! i = Some true -> verifySeal ethash h false = run (Ret tt)).

Section Batch.
Context (ethash : Ethash) (chain : ChainReader) (now : Z) (parent : Header) (headers : list Header) (seals : list bool).
Hypothesis Hparent : forall h, headers !! O = Some h -> GetHeader chain (ParentHash h) (u64 (u64 (Number h) - 1)) = Some parent.
Hypothesis Hlimit : 0 <= GasLimit parent < 2 ^ 63.
Hypothesis Hok : Forall header_ok headers.
Hypothesis Hseals : length seals = length headers.
Hypothesis Hnow : 0 <= now < 2 ^ 62.

Let worker i := verifyHeaderWorker ethash chain headers seals i now.

Lemma previous_Some i h : headers !! i = Some h -> exists prev, previous parent headers i = Some prev.
Proof.
  intros Hi. destruct i as [|i]; [by eexists|]. apply lookup_lt_Some in Hi. destruct (lookup_lt_is_Some_2 headers i) as [p Hp]; [lia|]. by exists p.
Qed.

(** One worker, when the header before is within bounds. *)
Lemma worker_spec i h prev seal : headers !! i = Some h -> seals !! i = Some seal -> previous parent headers i = Some prev -> 0 <= GasLimit prev < 2 ^ 63 ->
  worker i = run (Ret tt) <->
  valid_header (Config chain) false now prev h /\ (i <> O -> ParentHash h = Hash prev) /\ (seal = true -> verifySeal ethash h false = run (Ret tt)).
Proof.
  intros Hi Hs Hprev Hp. unfold worker, verifyHeaderWorker. rewrite Hi, Hs. assert (Hh : header_ok h) by (by eapply Forall_lookup_1).
  destruct i as [|i]; cbn in Hprev.
  - rewrite (Hparent h Hi). simplify_eq. rewrite verifyHeader_rules by done. naive_solver.
  - rewrite Hprev. case_decide as E; [rewrite verifyHeader_rules by done; naive_solver|]. split; [done|]. intros (_ & H & _). by destruct E; rewrite H.
Qed.

Lemma worker_limit i h : (forall j, (j <= i)%nat -> worker j = run (Ret tt)) -> headers !! i = Some h -> 0 <= GasLimit h < 2 ^ 63.
Proof.
  revert h. induction i as [|i IH]; intros h Hw Hi.
  - destruct (lookup_lt_is_Some_2 seals 0) as [seal Hs]; [rewrite Hseals; by eapply lookup_lt_Some|].
    apply (worker_spec 0 h parent seal) in Hw as [[] _]; [lia|done..|lia].
  - destruct (previous_Some (S i) h Hi) as [prev Hp]. destruct (lookup_lt_is_Some_2 seals (S i)) as [seal Hs]; [rewrite Hseals; by eapply lookup_lt_Some|].
    pose proof (Hw (S i) ltac:(lia)) as H. apply (worker_spec (S i) h prev seal) in H as [[] _]; [lia|done..|].
    apply IH; [|done]. intros j Hj. apply Hw. lia.
Qed.

Lemma batch_spec : (forall i, (i < length headers)%nat -> worker i = run (Ret tt)) <-> valid_batch ethash chain now parent headers seals.
Proof.
  split.
  - intros Hw i h prev Hi Hp. assert (Hlt : (i < length headers)%nat) by (by eapply lookup_lt_Some).
    destruct (lookup_lt_is_Some_2 seals i) as [seal Hs]; [lia|]. assert (Hl : 0 <= GasLimit prev < 2 ^ 63).
    { destruct i as [|i]; cbn in Hp; [by simplify_eq|]. apply (worker_limit i); [|done]. intros j Hj. apply Hw. lia. }
    pose proof (Hw i Hlt) as H. apply (worker_spec i h prev seal) in H; [|done..]. rewrite Hs. naive_solver.
  - intros HV i Hi. destruct (lookup_lt_is_Some_2 headers i Hi) as [h Hh]. destruct (previous_Some i h Hh) as [prev Hp].
    destruct (lookup_lt_is_Some_2 seals i) as [seal Hs]; [lia|]. destruct (HV i h prev Hh Hp) as (V & H1 & H2).
    assert (Hl : 0 <= GasLimit prev < 2 ^ 63).
    { destruct i as [|i]; cbn in Hp; [by simplify_eq|]. destruct (previous_Some i prev Hp) as [p Hp']. destruct (HV i prev p Hp Hp') as [[] _]. lia. }
    apply (worker_spec i h prev seal); [done..|]. split; [done|]. split; [done|]. intros ->. by apply H2.
Qed.

Lemma batch_numbers : valid_batch ethash chain now parent headers seals ->
  forall i h, headers !! i = Some h -> Number h = Number parent + 1 + Z.of_nat i /\ Time parent + Z.of_nat i < Time h.
Proof.
  intros HV. induction i as [|i IH]; intros h Hh.
  - destruct (HV 0%nat h parent Hh eq_refl) as [[] _]. lia.
  - destruct (previous_Some (S i) h Hh) as [prev Hp]. destruct (HV (S i) h prev Hh Hp) as [[] _]. destruct (IH prev Hp). lia.
Qed.
End Batch.

(** a batch of headers on a known parent. Every worker accepts its header if and only if every header is valid
    on the one before it, carries its hash, and has a valid seal where seals are checked; the numbers of an
    accepted batch are consecutive and its times increase. *)
Theorem verifyHeaderWorker_batch ethash chain now parent headers seals :
  (forall h, headers !! O = Some h -> GetHeader chain (ParentHash h) (u64 (u64 (Number h) - 1)) = Some parent) ->
  0 <= GasLimit parent < 2 ^ 63 -> Forall header_ok headers -> length seals = length headers -> 0 <= now < 2 ^ 62 ->
  ((forall i, (i < length headers)%nat -> verifyHeaderWorker ethash chain headers seals i now = run (Ret tt)) <->
    valid_batch ethash chain now parent headers seals) /\
  (valid_batch ethash chain now parent headers seals ->
    forall i h, headers !! i = Some h -> Number h = Number parent + 1 + Z.of_nat i /\ Time parent + Z.of_nat i < Time h).
Proof. intros Hp Hl Hok Hs Hn. split; [by apply batch_spec|]. intros HV. by eapply batch_numbers. Qed.

(** ** Prepared headers *)

(** The bounds that a verifier sets on the gas limit. *)
Definition limit_ok (p r : Z) : Prop := Z.abs (p - r) < p / 1024 /\ 5000 <= r < 2 ^ 63.

Lemma CalcGasLimit_ok parent floor ceil :
  5120 <= GasLimit (header parent) < 2 ^ 63 -> 0 <= GasUsed (header parent) <= GasLimit (header parent) ->
  0 <= floor < 2 ^ 63 -> 5000 <= ceil < 2 ^ 63 -> limit_ok (GasLimit (header parent)) (CalcGasLimit parent floor ceil).
Proof.
  intros Hp Hu Hf Hc. unfold CalcGasLimit, limit_ok, GasLimitBoundDivisor, MinGasLimit. set (p := GasLimit _) in *. set (u := GasUsed _) in *.
  assert (0 <= u / 2 <= p / 2) by (split; [apply Z.div_pos; lia|apply Z.div_le_mono; lia]). pose proof (Z.mul_div_le p 2 ltac:(lia)).
  replace (u64 (u + u / 2)) with (u + u / 2) by (unfold u64; rewrite Z.mod_small; lia).
  pose proof (Z.div_mod p 1024 ltac:(lia)). pose proof (Z.mod_pos_bound p 1024 ltac:(lia)). set (k := p / 1024) in *.
  assert (0 <= (u + u / 2) / 1024) by (apply Z.div_pos; lia). pose proof (Z.mul_div_le (u + u / 2) 1024 ltac:(lia)). set (c := (u + u / 2) / 1024) in *.
  assert (5 <= k) by lia. assert (c < 2 * k - 1) by lia.
  replace (u64 (k - 1)) with (k - 1) by (unfold u64; rewrite Z.mod_small; lia). replace (u64 (p - (k - 1))) with (p - (k - 1)) by (unfold u64; rewrite Z.mod_small; lia).
  replace (u64 (p - (k - 1) + c)) with (p - (k - 1) + c) by (unfold u64; rewrite Z.mod_small; lia).
  replace (u64 (p + (k - 1))) with (p + (k - 1)) by (unfold u64; rewrite Z.mod_small; lia). repeat case_decide; lia.
Qed.

(** C29: what a miner prepares, a verifier accepts. A header with the difficulty that [Prepare] sets, the gas limit of
    [CalcGasLimit] for a parent with a gas limit from 5120, a later time that is not in the future, and the next
    number passes [verifyHeader]. On a nearly full parent with a gas limit below 5120 the limit of [CalcGasLimit] is one that
    [verifyHeader] refuses. *)
Theorem Prepare_accepted ethash chain parent h h' floor ceil now :
  let p := header parent in
  Prepare chain h = Ret h' -> GetHeader chain (ParentHash h) (u64 (u64 (Number h) - 1)) = Some p ->
  header_ok h -> 0 <= GasUsed p <= GasLimit p -> 5000 <= GasLimit p < 2 ^ 63 -> 0 <= floor < 2 ^ 63 -> 5123 <= ceil < 2 ^ 63 ->
  zlen (Extra h) <= 32 -> Time p < Time h <= now + 15 -> 0 <= now < 2 ^ 62 -> Number h = Number p + 1 ->
  GasLimit h = CalcGasLimit parent floor ceil -> GasUsed h <= GasLimit h ->
  VerifyDAOHeaderExtraData (Config chain) h' = Ret tt -> VerifyForkHashes (Config chain) h' false = Ret tt ->
  (5120 <= GasLimit p -> verifyHeader ethash chain h' p false false now = run (Ret tt)) /\
  (GasLimit p < 5120 -> 4779 <= GasUsed p -> floor <= 5000 -> verifyHeader ethash chain h' p false false now <> run (Ret tt)).
Proof.
  intros p HP Hg Hok Hu Hp Hf Hc He Ht Hn Hnum Hl Hgu Hd Hfk. unfold Prepare in HP. rewrite Hg in HP. injection HP as <-.
  assert (Hok' : header_ok (set_Difficulty h (CalcDifficulty (Config chain) (Time h) p))) by exact Hok. split.
  - intros Hp'. pose proof (CalcGasLimit_ok parent floor ceil ltac:(fold p; lia) Hu Hf ltac:(lia)) as [Ha Hb]. fold p in Ha. rewrite <- Hl in Ha, Hb.
    apply verifyHeader_rules; [done|lia|lia|]. split; [|done]. split; cbn; try done; try lia.
  - intros Hs Hus Hfl HV%verifyHeader_rules; [|done|lia|lia]. destruct HV as [[_ _ _ _ _ V _ _ _ _] _]. cbn in V. revert V. rewrite Hl.
    unfold CalcGasLimit, GasLimitBoundDivisor, MinGasLimit. fold p.
    assert (Hk : GasLimit p / 1024 = 4) by (symmetry; apply (Z.div_unique _ _ _ (GasLimit p - 4096)); lia). rewrite Hk.
    pose proof (Z.div_mod (GasUsed p) 2 ltac:(lia)). pose proof (Z.mod_pos_bound (GasUsed p) 2 ltac:(lia)).
    replace (u64 (GasUsed p + GasUsed p / 2)) with (GasUsed p + GasUsed p / 2) by (unfold u64; rewrite Z.mod_small; lia).
    replace ((GasUsed p + GasUsed p / 2) / 1024) with 7 by (apply (Z.div_unique _ _ _ (GasUsed p + GasUsed p / 2 - 7168)); lia).
    change (u64 (4 - 1)) with 3. replace (u64 (GasLimit p - 3)) with (GasLimit p - 3) by (unfold u64; rewrite Z.mod_small; lia).
    replace (u64 (GasLimit p - 3 + 7)) with (GasLimit p + 4) by (unfold u64; rewrite Z.mod_small; lia).
    repeat case_decide; lia.
Qed.
End Headers.

(** ** Uncles *)

Section Uncles.
Context {K : Keccak512} {C : Crypto}.
Implicit Types (chain : ChainReader) (u a : Header).

(** What a chain promises of its blocks: they have the hash and the number that they were asked for by. *)
Definition reader_ok chain : Prop :=
  forall h n b, GetBlock chain h n = Some b -> Hash (header b) = h /\ Number (header b) = n /\ 0 <= n < 2 ^ 63.

Lemma gather_wrapped chain n parent us ancestors : reader_ok chain -> gather chain n parent (u64 (0 - 1)) us ancestors = (us, ancestors).
Proof.
  intros HR. destruct n as [|n]; [done|]. cbn [gather]. destruct (GetBlock _ _ _) as [b|] eqn:E; [|done]. destruct (HR _ _ _ E) as (_ & _ & H).
  vm_compute in H. destruct H as [_ H]. by discriminate H.
Qed.

(** The ancestors of the [n] generations before [number + 1]: the parent, and those with smaller numbers. *)
Lemma gather_spec chain n parent number us ancestors : reader_ok chain -> 0 <= number < 2 ^ 64 ->
  let '(us', ancestors') := gather chain n parent number us ancestors in
  us ⊆ us' /\ forall k a, ancestors' !! k = Some a ->
    ancestors !! k = Some a \/ Hash a = k /\ number - Z.of_nat n < Number a <= number /\ (k = parent \/ Number a < number).
Proof.
  intros HR. revert parent number us ancestors. induction n as [|n IH]; intros parent number us ancestors Hn; cbn [gather]; [split; [done|by left]|].
  destruct (GetBlock chain parent number) as [b|] eqn:E; [|split; [done|by left]]. destruct (HR _ _ _ E) as (Hh & Hb & Hlt).
  set (us1 := fold_left _ _ _). set (an1 := <[_ := _]> ancestors).
  assert (Hus : us ⊆ us1).
  { unfold us1. generalize (Types.uncles b), us. induction l as [|x l IHl]; intros us0; [done|]. cbn. etrans; [|apply IHl]. set_solver. }
  assert (Han : forall k a, an1 !! k = Some a -> ancestors !! k = Some a \/ Hash a = k /\ Number a = number /\ k = parent).
  { intros k a Hk. unfold an1 in Hk. apply lookup_insert_Some in Hk as [[<- <-]|[_ Hk]]; [right; done|by left]. }
  destruct (decide (number = 0)) as [->|Hne].
  { rewrite gather_wrapped by done. split; [done|]. intros k a Hk. destruct (Han k a Hk) as [|(H1 & H2 & H3)]; [by left|]. right. split; [done|]. split; [lia|]. by left. }
  replace (u64 (number - 1)) with (number - 1) by (unfold u64; rewrite Z.mod_small; lia).
  specialize (IH (ParentHash (header b)) (number - 1) us1 an1 ltac:(lia)). destruct (gather _ _ _ _ _ _) as [us' an']. destruct IH as [Hsub H].
  split; [by etrans|]. intros k a Hk. destruct (H k a Hk) as [Hk1|(H1 & H2 & H3)].
  - destruct (Han k a Hk1) as [|(H1 & H2 & H3)]; [by left|]. right. split; [done|]. split; [lia|]. by left.
  - right. split; [done|]. split; [lia|]. right. lia.
Qed.

(** What an accepted header shows whatever its parent. *)
Lemma verifyHeader_accepts ethash chain h parent uncle now :
  verifyHeader ethash chain h parent uncle true now = run (Ret tt) ->
  Number h = Number parent + 1 /\ Time parent < Time h /\ Difficulty h = CalcDifficulty (Config chain) (Time h) parent /\
  verifySeal ethash h false = run (Ret tt).
Proof.
  unfold verifyHeader. destruct (decide (zlen _ > _)); [done|]. destruct (negb uncle && _); [done|]. destruct (decide (Time h <= Time parent)); [done|].
  cbv zeta. destruct (decide (CalcDifficulty _ _ _ <> _)); [done|]. destruct (decide (GasLimit h > _)); [done|]. destruct (decide (GasUsed h > _)); [done|].
  destruct (decide (_ \/ _)); [done|]. destruct (decide (Number h - _ <> 1)); [done|]. destruct (verifySeal ethash h false) as [[[]|?|]|] eqn:Es; try done.
  intros _. split; [lia|]. split; [lia|]. split; [|done]. destruct (decide (Difficulty h = CalcDifficulty (Config chain) (Time h) parent)); [done|naive_solver].
Qed.

(** The uncles that the loop accepts. *)
Lemma check_uncles_spec ethash chain block now ancestors seen us :
  check_uncles ethash chain block now ancestors seen us = run (Ret tt) ->
  NoDup (map Hash us) /\ Forall (fun u => Hash u ∉ seen /\ ancestors !! Hash u = None /\ ParentHash u <> ParentHash (header block) /\
    verifySeal ethash u false = run (Ret tt) /\
    exists a, ancestors !! ParentHash u = Some a /\ Number u = Number a + 1 /\ Time a < Time u) us.
Proof.
  revert seen. induction us as [|u us IH]; intros seen; cbn [check_uncles]; [intros _; split; constructor|].
  destruct (decide (Hash u ∈ seen)); [done|]. destruct (decide (is_Some (ancestors !! Hash u))) as [|Ha]; [done|].
  destruct (ancestors !! ParentHash u) as [a|] eqn:Ea; [|done]. destruct (decide (ParentHash u = _)); [done|].
  destruct (verifyHeader _ _ _ _ _ _ _) as [[[]|?|]|] eqn:EV; try done. cbn [mbind fuelled_bind].
  intros H. destruct (IH _ H) as [Hnd HF]. apply verifyHeader_accepts in EV as (V1 & V2 & V3 & V4). split.
  - cbn. constructor; [|done]. intros Hin. apply list_elem_of_fmap in Hin as (u' & E & Hu'). apply list_elem_of_lookup in Hu' as [j Hj]. destruct (Forall_lookup_1 _ _ _ _ HF Hj) as [HF' _]. set_solver.
  - constructor.
    + split; [done|]. split; [by apply eq_None_not_Some|]. split; [done|]. split; [done|]. by exists a.
    + revert HF. apply Forall_impl. intros u' (H1 & H2). split; [set_solver|done].
Qed.

(** Accepted uncles: at most two, different, neither ancestors nor the block, sealed, and from the six generations before the block,
    unless one refers to the block that it is part of. *)
Definition uncles_ok (ethash : Ethash) (block : Block) : Prop :=
  zlen (Types.uncles block) <= 2 /\ NoDup (map Hash (Types.uncles block)) /\
  Forall (fun u => Hash u <> Hash (header block) /\ ParentHash u <> ParentHash (header block) /\ verifySeal ethash u false = run (Ret tt) /\
    (ParentHash u = Hash (header block) \/ Number (header block) - 6 <= Number u < Number (header block))) (Types.uncles block).

Lemma VerifyUncles_spec ethash chain block now :
  PowMode ethash <> ModeFullFake -> reader_ok chain -> 0 <= Number (header block) < 2 ^ 63 ->
  VerifyUncles ethash chain block now = run (Ret tt) -> uncles_ok ethash block.
Proof.
  intros Hm HR HN. unfold VerifyUncles, uncles_ok, maxUncles. rewrite decide_False by done. case_decide; [done|]. destruct (decide (zlen _ = 0)) as [E0|_].
  { intros _. destruct (Types.uncles block) as [|u us]; [|rewrite zlen_cons in E0; pose proof (zlen_nonneg us); lia]. split; [lia|]. split; constructor. }
  replace (u64 (Number (header block))) with (Number (header block)) by (unfold u64; rewrite Z.mod_small; lia).
  pose proof (gather_spec chain 7 (ParentHash (header block)) (u64 (Number (header block) - 1)) ∅ ∅ HR ltac:(apply u64_range)) as HG.
  assert (HW : Number (header block) = 0 -> gather chain 7 (ParentHash (header block)) (u64 (Number (header block) - 1)) ∅ ∅ = (∅, ∅)) by
    (intros ->; by apply gather_wrapped).
  destruct (gather _ _ _ _ _ _) as [us an]. destruct HG as [_ HG]. intros HV. apply check_uncles_spec in HV as [Hnd HF]. split; [lia|]. split; [done|].
  revert HF. apply Forall_impl. intros u (H1 & H2 & H3 & H4 & a & Ha & Hna & _). split; [set_solver|]. split; [done|]. split; [done|].
  apply lookup_insert_Some in Ha as [[<- <-]|[Hne Ha]]; [by left|]. right.
  destruct (decide (Number (header block) = 0)) as [E|]; [specialize (HW E); simplify_eq; set_solver|].
  replace (u64 (Number (header block) - 1)) with (Number (header block) - 1) in HG by (unfold u64; rewrite Z.mod_small; lia).
  destruct (HG _ _ Ha) as [Hx|(Hh & Hb & [Hk|Hk])]; [set_solver|done|]. lia.
Qed.
End Uncles.

(** ** The rewards of a verified block *)

Section Issuance.
Context {K : Keccak512} {C : Crypto} {B : Backend} {BL : BackendLaws B}.

(** The reward is a whole number of coins. *)
Lemma calcBlockReward_coins num : exists c, calcBlockReward num = c * 10 ^ 18 /\ 1 <= c <= 8.
Proof.
  unfold calcBlockReward, FrontierBlockReward, FirstReductionBlock, RewardReductionInterval, MinimumBlockReward, OneVBC. cbv zeta.
  case_decide; [exists 8; lia|]. pose proof (Z.div_pos (num - 4200000) 2100000 ltac:(lia) ltac:(lia)). case_decide; [exists 1; lia|].
  exists (8 - ((num - 4200000) / 2100000 + 1)). lia.
Qed.

Lemma uncle_reward_bounds h u : Number h - 6 <= Number u < Number h ->
  2 * calcBlockReward (Number h) <= 8 * uncle_reward h u <= 7 * calcBlockReward (Number h).
Proof.
  intros Hu. unfold uncle_reward. destruct (calcBlockReward_coins (Number h)) as (c & -> & Hc). set (k := Number u + 8 - Number h).
  assert (2 <= k <= 7) by (unfold k; lia). replace (k * (c * 10 ^ 18)) with (k * c * (10 ^ 18 / 8) * 8) by (change (10 ^ 18 / 8) with 125000000000000000; lia).
  rewrite Z.div_mul by lia. change (10 ^ 18 / 8) with 125000000000000000. nia.
Qed.

(** C17: the issuance of a verified block. If [VerifyUncles] accepts a block, none of whose uncles refers to the block
    itself, then its rewards raise the supply by at least the reward of the block and at most 45 sixteenths of
    it: each of the at most two uncles, of the last six generations, is worth a 32nd for the miner and two to
    seven eighths for itself. The state stays well-formed and no account loses. *)
Theorem verified_issuance ethash chain block now s :
  PowMode ethash <> ModeFullFake -> reader_ok chain -> 0 <= Number (header block) < 2 ^ 63 -> wf s ->
  VerifyUncles ethash chain block now = run (Ret tt) -> Forall (fun u => ParentHash u <> Hash (header block)) (Types.uncles block) ->
  let h := header block in let us := Types.uncles block in let R := calcBlockReward (Number h) in
  let t := accumulateRewards s h us in
  wf t /\ (forall b, balance s b <= balance t b) /\
  exists i, 16 * R <= 16 * i <= 45 * R /\ forall l, NoDup l -> Coinbase h :: map Coinbase us ⊆ l -> supply l t = supply l s + i.
Proof.
  intros Hm HR HN W HV Hself h us R t. destruct (VerifyUncles_spec _ _ _ _ Hm HR HN HV) as (Hlen & _ & HF).
  destruct (accumulateRewards_spec s h us W) as (Wt & Hs & Hb). fold t in Wt, Hs, Hb.
  assert (Hus : Forall (fun u => Number h - 6 <= Number u < Number h) us).
  { apply Forall_lookup_2. intros i u Hi. destruct (Forall_lookup_1 _ _ _ _ HF Hi) as (_ & _ & _ & [Hp|Hp]); [|done].
    by destruct (Forall_lookup_1 _ _ _ _ Hself Hi). }
  split; [done|]. split; [apply Hb; revert Hus; apply Forall_impl; lia|]. exists (issuance h us). split; [|done].
  fold us in Hlen. unfold issuance. fold R. destruct (calcBlockReward_coins (Number h)) as (c & Ec & Hc). fold R in Ec.
  assert (HR32 : R / 32 * 32 = R) by (rewrite Ec; replace (c * 10 ^ 18) with (c * 31250000000000000 * 32) by lia; rewrite Z.div_mul; lia).
  destruct us as [|u [|u2 [|? ?]]]; rewrite ?zlen_cons in Hlen |- *; change (zlen []) with 0; cbn [foldr].
  - lia.
  - apply Forall_cons_1 in Hus as [H1 _]. pose proof (uncle_reward_bounds h u H1) as K1. fold R in K1. lia.
  - apply Forall_cons_1 in Hus as [H1 [H2 _]%Forall_cons_1]. pose proof (uncle_reward_bounds h u H1) as K1. pose proof (uncle_reward_bounds h u2 H2) as K2.
    fold R in K1, K2. lia.
  - pose proof (zlen_nonneg l). lia.
Qed.

(** ** The DAO fork *)

Lemma drain_spec s a : wf s -> a <> DAORefundContract ->
  wf (drain s a) /\ forall b, balance (drain s a) b =
    if decide (b = a) then 0 else if decide (b = DAORefundContract) then balance s b + balance s a else balance s b.
Proof.
  intros W Ha. unfold drain. pose proof (GetBalance_balance s a) as E. pose proof (GetBalance_quiet s a) as Q. destruct (GetBalance s a) as [v s1]. cbn in E, Q. subst v.
  pose proof (quiet_wf _ _ W Q) as W1. pose proof (AddBalance_wf s1 DAORefundContract (balance s a) W1) as W2. split.
  - by apply (op_wf (AddBalance s1 DAORefundContract (balance s a))), (call_op _ (CSetBalance a 0)).
  - intros b. rewrite SetBalance_balance by done. case_decide; [done|]. rewrite AddBalance_balance by done. rewrite (balance_quiet _ _ b Q). case_decide; [done|lia].
Qed.

Lemma drains_spec l s : wf s -> DAORefundContract ∉ l -> NoDup l ->
  let t := fold_left drain l s in
  wf t /\ forall b, balance t b = if decide (b ∈ l) then 0 else if decide (b = DAORefundContract) then balance s b + supply l s else balance s b.
Proof.
  revert s. induction l as [|a l IH]; intros s W Hr Hnd; cbn [fold_left].
  { split; [done|]. intros b. rewrite decide_False by set_solver. cbn. case_decide; lia. }
  apply list.NoDup_cons in Hnd as [Ha Hnd]. destruct (drain_spec s a W) as [W1 H1]; [set_solver|]. destruct (IH (drain s a) W1) as [Wt Ht]; [set_solver|done|].
  split; [done|]. intros b. rewrite Ht. cbn [supply]. assert (Es : supply l (drain s a) = supply l s).
  { clear -H1 Ha Hr. induction l as [|x l IH]; cbn; [done|]. rewrite H1, !decide_False by set_solver. rewrite IH by set_solver. done. }
  rewrite Es, H1. destruct (decide (b ∈ l)); [by rewrite decide_True by set_solver|]. destruct (decide (b = a)) as [->|].
  - rewrite (decide_True (P := a ∈ a :: l)) by set_solver. by rewrite decide_False by set_solver.
  - rewrite (decide_False (P := b ∈ a :: l)) by set_solver. case_decide; lia.
Qed.

(** The DAO fork moves balances and makes none. It empties the 116 accounts of its list, adds their balances
    to the refund contract, and leaves every other balance as it is. *)
Theorem ApplyDAOHardFork_moves s : wf s ->
  let t := ApplyDAOHardFork s in
  wf t /\ (forall a, a ∈ DAODrainList -> balance t a = 0) /\
  balance t DAORefundContract = balance s DAORefundContract + supply DAODrainList s /\
  (forall a, a ∉ DAODrainList -> a <> DAORefundContract -> balance t a = balance s a).
Proof.
  intros W t. assert (Hr : DAORefundContract ∉ DAODrainList) by (apply (bool_decide_unpack _); vm_compute; exact I).
  assert (Hnd : NoDup DAODrainList) by (apply (bool_decide_unpack _); vm_compute; exact I).
  unfold t, ApplyDAOHardFork, Exist. destruct (getStateObject_spec s DAORefundContract) as (s1 & -> & Q & _). pose proof (quiet_wf _ _ W Q) as W1.
  set (s2 := if bool_decide _ then s1 else CreateAccount s1 DAORefundContract). assert (H2 : wf s2 /\ forall b, balance s2 b = balance s b).
  { unfold s2. destruct (bool_decide _); [split; [done|intros b; by apply balance_quiet]|]. split; [by apply (op_wf s1), CreateAccount_op|].
    intros b. rewrite CreateAccount_balance by done. by apply balance_quiet. }
  destruct H2 as [W2 H2]. destruct (drains_spec DAODrainList s2 W2 Hr Hnd) as [Wt Ht]. split; [done|].
  rewrite <- (supply_ext DAODrainList s s2 H2). split_and!; intros; rewrite Ht.
  - by rewrite decide_True.
  - rewrite decide_False by done. rewrite decide_True by done. by rewrite H2.
  - rewrite !decide_False by done. apply H2.
Qed.
End Issuance.
