(* ===== verification/EthashHeaders.v ===== *)
(** * Concurrent verification of a batch of headers (VerifyHeaders in consensus/ethash/consensus.go)

    The workers, the coordinator and the channels between them as a transition system,
    and that every interleaving delivers the results of the workers in the order of
    the headers. *)

From stdpp Require Import gmap relations.
From S2P Require Import Prelude VmPrecompiles ChainConfig BlockTypes Ethash EthashAlgo EthashVerify.

Import Types.

Notation verdict := (fuelled verify_error unit).

(** The channels and variables. A worker that has received an index is in [running] until it has stored its
    error, then in [computed] until it has sent the index to [done], which has room for one index per worker. *)
Record batch_state := mk_batch {
  next_in : nat;              (* in *)
  running : list nat;
  computed : list nat;
  done_chan : list nat;
  errors : list verdict;      (* nil until stored *)
  checked : list bool;
  next_out : nat;             (* out *)
  errorsOut : list verdict;
  returned : bool             (* the coordinator *)
}.

Section VerifyHeaders.
Context {K : Keccak512} {C : Crypto}.
Context (ethash : Ethash) (chain : ChainReader) (headers : list Header) (seals : list bool) (unixNow : Z) (GOMAXPROCS : nat).

Definition no_error : verdict := run (Ret tt).
Definition workers : nat := if decide (length headers < GOMAXPROCS)%nat then length headers else GOMAXPROCS.
Definition verify_at (index : nat) : verdict := verifyHeaderWorker ethash chain headers seals index unixNow.

(** [for checked[index] = true; checked[out]; out++], with the error of each header sent on. *)
Fixpoint emit (fuel : nat) (errors : list verdict) (checked : list bool) (out : nat) (sent : list verdict) : nat * list verdict * bool :=
  match fuel with
  | O => (out, sent, true)
  | S fuel =>
      match checked !! out with
      | Some true =>
          let sent := sent ++ [default no_error (errors !! out)] in
          if decide (out = length headers - 1)%nat then (out, sent, true) else emit fuel errors checked (S out) sent
      | _ => (out, sent, false)
      end
  end.

(** The steps of the workers and of the coordinator. *)
Inductive work_step : batch_state -> batch_state -> Prop :=
| step_send s : returned s = false -> (next_in s < length headers)%nat -> (length (running s) + length (computed s) < workers)%nat ->
    work_step s (mk_batch (S (next_in s)) (running s ++ [next_in s]) (computed s) (done_chan s) (errors s) (checked s) (next_out s) (errorsOut s) false)
| step_verify s l1 i l2 : running s = l1 ++ i :: l2 ->
    work_step s (mk_batch (next_in s) (l1 ++ l2) (i :: computed s) (done_chan s) (<[i := verify_at i]> (errors s)) (checked s) (next_out s) (errorsOut s) (returned s))
| step_report s l1 i l2 : computed s = l1 ++ i :: l2 -> (length (done_chan s) < workers)%nat ->
    work_step s (mk_batch (next_in s) (running s) (l1 ++ l2) (done_chan s ++ [i]) (errors s) (checked s) (next_out s) (errorsOut s) (returned s))
| step_collect s i rest out sent ret : returned s = false -> done_chan s = i :: rest ->
    emit (length headers) (errors s) (<[i := true]> (checked s)) (next_out s) (errorsOut s) = (out, sent, ret) ->
    work_step s (mk_batch (next_in s) (running s) (computed s) rest (errors s) (<[i := true]> (checked s)) out sent ret).

(** The caller may abort at any time. *)
Inductive batch_step : batch_state -> batch_state -> Prop :=
| step_work s t : work_step s t -> batch_step s t
| step_abort s : batch_step s (mk_batch (next_in s) (running s) (computed s) (done_chan s) (errors s) (checked s) (next_out s) (errorsOut s) true).

Definition VerifyHeaders : batch_state :=
  if decide (EthashVerify.PowMode ethash = ModeFullFake \/ length headers = O) then mk_batch 0 [] [] [] [] [] 0 (replicate (length headers) no_error) true
  else mk_batch 0 [] [] [] (replicate (length headers) no_error) (replicate (length headers) false) 0 [] false.

(** ** The invariant *)

(** [fin] are the indices that the coordinator has collected. *)
Record batch_ok (s : batch_state) (fin : list nat) : Prop := {
  bo_in : (next_in s <= length headers)%nat;
  bo_split : running s ++ computed s ++ done_chan s ++ fin ≡ₚ seq 0 (next_in s);
  bo_errors : length (errors s) = length headers;
  bo_stored : forall i, i ∈ computed s ++ done_chan s ++ fin -> errors s !! i = Some (verify_at i);
  bo_checked : forall i, checked s !! i = Some true <-> i ∈ fin;
  bo_length : length (checked s) = length headers;
  bo_sent : errorsOut s = map verify_at (seq 0 (length (errorsOut s)));
  bo_le : (length (errorsOut s) <= length headers)%nat;
  bo_open : returned s = false -> next_out s = length (errorsOut s) /\ (next_out s < length headers)%nat /\ next_out s ∉ fin
}.

(** The loop of the coordinator sends verified results, and stops at a header that is not checked or at the end. *)
Lemma emit_spec fuel errs chk out sent :
  (forall i, chk !! i = Some true -> errs !! i = Some (verify_at i)) -> length chk = length headers ->
  (out < length headers)%nat -> (length headers - out <= fuel)%nat -> sent = map verify_at (seq 0 out) ->
  let '(out', sent', ret) := emit fuel errs chk out sent in
  sent' = map verify_at (seq 0 (length sent')) /\ (length sent' <= length headers)%nat /\
  (if ret : bool then length sent' = length headers else out' = length sent' /\ (out' < length headers)%nat /\ chk !! out' <> Some true).
Proof.
  intros Hst Hlen. revert out sent. induction fuel as [|fuel IH]; intros out sent Ho Hf Hs; [lia|]. cbn [emit].
  assert (Hl : length sent = out) by (rewrite Hs, length_map, length_seq; done).
  destruct (chk !! out) as [[]|] eqn:Ec.
  - rewrite (Hst out Ec). change (default no_error (Some (verify_at out))) with (verify_at out).
    assert (Hs' : sent ++ [verify_at out] = map verify_at (seq 0 (S out))) by (rewrite seq_S, map_app, <- Hs; done).
    case_decide as E; [|apply IH; [lia|lia|done]].
    assert (Hl' : length (sent ++ [verify_at out]) = S out) by (rewrite length_app; cbn; lia). rewrite Hl'. split; [done|]. lia.
  - rewrite Hl. split_and!; [done|lia|done|done|congruence].
  - rewrite Hl. split_and!; [done|lia|done|done|congruence].
Qed.

Context (Hprocs : (0 < GOMAXPROCS)%nat).

Lemma workers_pos : length headers <> O -> (0 < workers)%nat.
Proof. intros H. unfold workers. case_decide; lia. Qed.

(** Collected indices have been stored. *)
Lemma collect_ok s fin i rest out sent ret :
  batch_ok s fin -> returned s = false -> done_chan s = i :: rest ->
  emit (length headers) (errors s) (<[i := true]> (checked s)) (next_out s) (errorsOut s) = (out, sent, ret) ->
  batch_ok (mk_batch (next_in s) (running s) (computed s) rest (errors s) (<[i := true]> (checked s)) out sent ret) (i :: fin).
Proof.
  intros [H1 H2 H3 H4 H5 H6 H7 H8 H9] Hr Hd E. destruct (H9 Hr) as (Ho & Hlt & Hnin). rewrite Hd in *.
  assert (Hi : (i < length headers)%nat).
  { assert (Hin : i ∈ seq 0 (next_in s)) by (rewrite <- H2; set_solver). apply elem_of_seq in Hin. lia. }
  assert (Hc : forall j, <[i := true]> (checked s) !! j = Some true <-> j ∈ i :: fin).
  { intros j. rewrite elem_of_cons, <- H5. destruct (decide (j = i)) as [->|Hne].
    - rewrite list_lookup_insert_eq by lia. naive_solver.
    - rewrite list_lookup_insert_ne by done. naive_solver. }
  pose proof (emit_spec (length headers) (errors s) (<[i := true]> (checked s)) (next_out s) (errorsOut s)) as HE. rewrite E in HE.
  destruct HE as (E1 & E2 & E3); [intros j Hj%Hc; apply H4; set_solver|rewrite length_insert; done|done|lia|by rewrite Ho|].
  split; cbn; try done.
  - rewrite <- H2. cbn. by rewrite Permutation_middle.
  - intros j Hj. apply H4. set_solver.
  - by rewrite length_insert.
  - intros ->. destruct E3 as (-> & E3 & E4). split; [done|]. split; [done|]. intros Hin. apply E4. by apply Hc.
Qed.

Lemma work_step_ok s t fin : batch_ok s fin -> work_step s t -> exists fin', batch_ok t fin'.
Proof.
  intros HB Hst. destruct Hst as [s Hr Hin Hw|s l1 i l2 Hrun|s l1 i l2 Hcomp Hroom|s i rest out sent ret Hr Hd E].
  - exists fin. destruct HB as [H1 H2 H3 H4 H5 H6 H7 H8 H9]. split; cbn [next_in running computed done_chan errors checked next_out errorsOut returned]; try done.
    + rewrite seq_S, <- H2. rewrite <- !app_assoc. apply Permutation_app_head. cbn. rewrite !app_assoc. apply Permutation_cons_append.
    + intros _. by apply H9.
  - exists fin. destruct HB as [H1 H2 H3 H4 H5 H6 H7 H8 H9]. rewrite Hrun in H2.
    assert (Hi : (i < length headers)%nat).
    { assert (Hin : i ∈ seq 0 (next_in s)) by (rewrite <- H2; set_solver). apply elem_of_seq in Hin. lia. }
    split; cbn [next_in running computed done_chan errors checked next_out errorsOut returned]; try done.
    + rewrite <- H2. rewrite <- !app_assoc. cbn. by rewrite <- !Permutation_middle.
    + by rewrite length_insert.
    + intros j Hj. destruct (decide (j = i)) as [->|Hne]; [rewrite list_lookup_insert_eq by lia; done|]. rewrite list_lookup_insert_ne by done. apply H4. set_solver.
  - exists fin. destruct HB as [H1 H2 H3 H4 H5 H6 H7 H8 H9]. rewrite Hcomp in *.
    split; cbn [next_in running computed done_chan errors checked next_out errorsOut returned]; try done.
    + rewrite <- H2. apply Permutation_app_head. rewrite <- !app_assoc. cbn. by rewrite <- !Permutation_middle.
    + intros j Hj. apply H4. set_solver.
  - exists (i :: fin). by apply (collect_ok s fin).
Qed.

Definition checking : Prop := EthashVerify.PowMode ethash <> ModeFullFake /\ length headers <> O.

Lemma VerifyHeaders_ok : checking -> batch_ok VerifyHeaders [].
Proof.
  intros [Hm Hn]. unfold VerifyHeaders. rewrite decide_False by tauto. split; cbn; try done; try lia.
  - apply length_replicate.
  - intros i Hi. by apply elem_of_nil in Hi.
  - intros i. rewrite elem_of_nil. split; [|done]. intros Hi. apply lookup_replicate in Hi as [Hi _]. done.
  - apply length_replicate.
  - intros _. split; [done|]. split; [lia|]. apply not_elem_of_nil.
Qed.

Lemma reachable_ok s : checking -> rtc batch_step VerifyHeaders s -> exists fin, batch_ok s fin.
Proof.
  intros Hc. revert s. apply rtc_ind_r; [exists []; by apply VerifyHeaders_ok|]. intros s t _ Hst [fin HB].
  destruct Hst as [s t Hst|s]; [by apply (work_step_ok s t fin)|]. exists fin. destruct HB. by split.
Qed.

(** Until the coordinator returns some worker or the coordinator can go on. *)
Lemma work_progress s fin : checking -> batch_ok s fin -> returned s = false -> exists t, work_step s t.
Proof.
  intros [_ Hn] [H1 H2 H3 H4 H5 H6 H7 H8 H9] Hr. pose proof (workers_pos Hn) as Hw.
  destruct (done_chan s) as [|i rest] eqn:Ed.
  2: { destruct (emit (length headers) (errors s) (<[i := true]> (checked s)) (next_out s) (errorsOut s)) as [[out sent] ret] eqn:E.
    eexists. by eapply step_collect. }
  destruct (computed s) as [|i l] eqn:Ec.
  2: { eexists. apply (step_report s [] i l); [done|]. rewrite Ed. cbn. lia. }
  destruct (running s) as [|i l] eqn:Er; [|eexists; by apply (step_verify s [] i l)].
  destruct (decide (next_in s < length headers)%nat) as [Hlt|Hge]; [eexists; apply step_send; [done|done|rewrite Er, Ec; cbn; lia]|].
  destruct (H9 Hr) as (_ & Hlt & Hnin). destruct Hnin. cbn in H2. rewrite H2. apply elem_of_seq. lia.
Qed.

(** How many steps are left. *)
Definition steps_left (s : batch_state) : nat :=
  (4 * (length headers - next_in s) + 3 * length (running s) + 2 * length (computed s) + length (done_chan s))%nat.

Lemma work_step_left s t : work_step s t -> (steps_left t < steps_left s)%nat.
Proof.
  intros Hst. destruct Hst as [s Hr Hin Hw|s l1 i l2 Hrun|s l1 i l2 Hcomp Hroom|s i rest out sent ret Hr Hd E]; unfold steps_left; cbn.
  - rewrite length_app. cbn. lia.
  - rewrite Hrun, !length_app. cbn. lia.
  - rewrite Hcomp, !length_app. cbn. lia.
  - rewrite Hd. cbn. lia.
Qed.

Lemma work_steps_bound k s t : nsteps work_step k s t -> (k <= steps_left s)%nat.
Proof. induction 1 as [|k s u t Hst _ IH]; [lia|]. apply work_step_left in Hst. lia. Qed.

Lemma work_batch s t : rtc work_step s t -> rtc batch_step s t.
Proof. apply rtc_subrel. intros x y. apply step_work. Qed.

(** The verdicts of all headers are sent when the coordinator returns. *)
Lemma all_sent s : checking -> rtc work_step VerifyHeaders s -> (exists t, work_step s t) \/ errorsOut s = map verify_at (seq 0 (length headers)).
Proof.
  intros Hc Hs. destruct (reachable_ok s Hc (work_batch _ _ Hs)) as [fin HB]. destruct (returned s) eqn:Er; [|left; by apply (work_progress s fin)].
  right. rewrite (bo_sent _ _ HB). do 2 f_equal. clear fin HB. revert s Hs Er. apply (rtc_ind_r (fun s => returned s = true -> length (errorsOut s) = length headers)).
  { unfold VerifyHeaders. destruct Hc. by rewrite decide_False by tauto. }
  intros s t Hs Hst IH. destruct Hst as [s Hr Hin Hw|s l1 i l2 Hrun|s l1 i l2 Hcomp Hroom|s i rest out sent ret Hr Hd E]; cbn; try done. intros ->.
  destruct (reachable_ok s Hc (work_batch _ _ Hs)) as [fin HB]. destruct HB as [H1 H2 H3 H4 H5 H6 H7 H8 H9]. destruct (H9 Hr) as (Ho & Hlt & Hnin).
  pose proof (emit_spec (length headers) (errors s) (<[i := true]> (checked s)) (next_out s) (errorsOut s)) as HE. rewrite E in HE.
  destruct HE as (_ & _ & HE); [|by rewrite length_insert|done|lia|by rewrite Ho|done]. intros j Hj. rewrite Hd in H4. apply H4.
  destruct (decide (j = i)) as [->|Hne]; [set_solver|]. rewrite list_lookup_insert_ne in Hj by done. apply H5 in Hj. set_solver.
Qed.

End VerifyHeaders.

(** C16: the results of a batch arrive in order. Whatever the interleaving of the workers and the coordinator, and
    with an abort at any time, the verdicts sent so far are those of the first headers, in their order; without an
    abort there are at most four steps per header, no deadlock before the end, and at the end the verdicts of all
    headers are sent. *)
Theorem VerifyHeaders_delivers {K : Keccak512} {C : Crypto} ethash chain headers seals now procs :
  (0 < procs)%nat -> EthashVerify.PowMode ethash <> ModeFullFake -> headers <> [] ->
  let start := VerifyHeaders ethash headers in
  let verdicts n := map (fun i => verifyHeaderWorker ethash chain headers seals i now) (seq 0 n) in
  let step := work_step ethash chain headers seals now procs in
  (forall s, rtc (batch_step ethash chain headers seals now procs) start s ->
    errorsOut s = verdicts (length (errorsOut s)) /\ (length (errorsOut s) <= length headers)%nat) /\
  (forall k s, nsteps step k start s -> (k <= 4 * length headers)%nat) /\
  (forall s, rtc step start s -> (exists t, step s t) \/ errorsOut s = verdicts (length headers)).
Proof.
  intros Hp Hm Hne start verdicts step.
  assert (Hc : checking ethash headers) by (split; [done|by destruct headers]).
  split_and!.
  - intros s Hs. destruct (reachable_ok ethash chain headers seals now procs Hp s Hc Hs) as [fin [_ _ _ _ _ _ HB1 HB2 _]]. done.
  - intros k s Hk. apply work_steps_bound in Hk; [|done]. unfold steps_left, start, VerifyHeaders in Hk. rewrite decide_False in Hk by (destruct Hc; tauto). cbn in Hk. lia.
  - intros s Hs. pose proof (all_sent ethash chain headers seals now procs Hp s Hc Hs) as [Hr|Hr]; [by left|by right].
Qed.
