(* ===== verification/EthashExamples.v ===== *)
(** * Ethash on concrete blocks

    A short chain with an uncle, and the theorems about difficulty, rewards, seals and
    verification applied to it. *)

From stdpp Require Import gmap relations.
From S2P Require Import Prelude Rlp RlpEncode Trie AccessList StateDB StateDBProofs StateDBSnapshots StateDBObserve StateDBEffects.
From S2P Require Import Uint256 VmAnalysis VmContract VmMemory VmGas VmPrecompiles VmGasProofs VmSstore VmRefund VmSupply.
From S2P Require Import ChainConfig BlockTypes Ethash EthashProofs EthashAlgo EthashAlgoProofs EthashSizes EthashVerify EthashVerifyProofs EthashHeaders.

Import Types ZUint256.

(** ** The parameters *)

(** A hash that tells the blocks below apart. *)
Definition mixed (n : nat) (b : bytes) : bytes := be_bytes n (fold_left (fun acc x => (acc * 257 + x + 1) mod 2 ^ 61) b 7).

#[local] Instance eth_crypto : Crypto := {|
  Ecrecover _ _ := None;
  Keccak256 := mixed 32;
  sha256_Sum256 b := replicate 32 1;
  ripemd160_Sum b := replicate 20 2;
  G1 := unit;
  G2 := unit;
  G1_Unmarshal _ := Some tt;
  G2_Unmarshal _ := Some tt;
  G1_Add _ _ := tt;
  G1_ScalarMult _ _ := tt;
  G1_Marshal _ := replicate 64 3;
  PairingCheck _ _ := true;
  blake2b_F h _ _ _ _ _ := h
|}.

#[local] Instance eth_keccak512 : Keccak512 := mixed 64.

Lemma eth_keccak512_length b : length (keccak512_sum b) = 64%nat.
Proof. apply length_be_bytes. Qed.

#[local] Instance eth_backend : Backend := {|
  STrie := Z;
  emptyRoot := 1;
  emptyCodeHash := 2;
  hash_address a := a + 1000;
  hash_code _ := 3;
  snap_account h := Some None;
  trie_account a := Some [];
  decode_account _ := None;
  snap_storage h k := Some [];
  open_storage _ root := Some root;
  empty_storage := 1;
  strie_get t k := Some [];
  read_code _ h := None
|}.

#[local] Instance eth_laws : BackendLaws eth_backend.
Proof. intros a b. cbn. lia. Qed.

(** ** The chain *)

Definition block_header (parent uncle_hash coinbase difficulty number time : Z) : Header :=
  mk_Header parent uncle_hash coinbase 1 2 3 (replicate 256 0) difficulty number 10000000 21000 time [1; 2] 0 (replicate 8 0).

Definition config : Params.ChainConfig := Params.MainnetChainConfig.
Definition header0 : Header := block_header 99 EmptyUncleHash 50 (2 ^ 20) 10 1000.
Definition child (h : Header) (coinbase time : Z) : Header :=
  block_header (Hash h) EmptyUncleHash coinbase (CalcDifficulty config time h) (Number h + 1) time.
Definition header1 : Header := child header0 51 1010.
Definition uncle1 : Header := child header0 52 1012.
Definition header2 : Header := child header1 53 1025.
Definition block2 : Block := mk_Block header2 [uncle1].

Definition known (h n : Z) : option Block :=
  if decide (n = 11 /\ h = Hash header1) then Some (mk_Block header1 [])
  else if decide (n = 10 /\ h = Hash header0) then Some (mk_Block header0 []) else None.

Definition chain : ChainReader := mk_ChainReader config (fun h n => header <$> known h n) known.

Lemma chain_ok : reader_ok chain.
Proof.
  intros h n b. cbn. unfold known. repeat case_decide; intros [= <-]; destruct_and!; subst; by vm_compute.
Qed.

Definition faker : Ethash := mk_Ethash ModeFake 7 (fun _ => None) (fun _ => None) None.

(** An empty directory that can be written, and a test engine that stores its
    caches and datasets there. *)
Definition empty_dir : disk := mk_disk None true true true true true.
Definition tester : Ethash :=
  mk_Ethash ModeTest 0 (fun _ => Some empty_dir) (fun _ => Some (mk_generation (Some empty_dir) (work 4 32768) (work 4 65536))) None.

(** ** Difficulty and rewards *)

Lemma header0_timely : timely 1010 header0.
Proof. split; by vm_compute. Qed.

Lemma DifficultyU256_exact_witness :
  let fits x y := y < 2 ^ 256 -> x = y in
  fits (CalcDifficultyHomesteadU256 1010 header0) (difficulty_rule 2048 (2 ^ 20) (homestead_factor 1010 header0) 11).
Proof. destruct (DifficultyU256_exact 5000000 1010 header0 header0_timely) as (_ & H & _); [by vm_compute|exact H]. Defined.

Lemma DifficultyU256_diverges_witness : CalcDifficultyFrontierU256 1010 header0 <> calcDifficultyFrontier 1010 header0.
Proof.
  destruct (DifficultyU256_diverges 5000000 1010 header0 header0_timely) as (_ & _ & H); [by vm_compute|lia|].
  apply H; by vm_compute.
Defined.

Lemma CalcDifficulty_bounds_witness : MinimumDifficulty <= CalcDifficulty config 1010 header0.
Proof. destruct (CalcDifficulty_bounds config 1010 header0) as [H _]; [by vm_compute..|exact H]. Defined.

Lemma verified_issuance_witness :
  let t := accumulateRewards (New true) header2 [uncle1] in
  wf t /\ (forall b, balance (New true) b <= balance t b) /\
  exists i, 16 * (8 * 10 ^ 18) <= 16 * i <= 45 * (8 * 10 ^ 18) /\
    forall l, NoDup l -> [53; 52] ⊆ l -> supply l t = supply l (New true) + i.
Proof.
  apply (verified_issuance faker chain block2 2000 (New true)).
  - done.
  - apply chain_ok.
  - by vm_compute.
  - apply New_start.
  - vm_compute. reflexivity.
  - constructor; [by vm_compute|constructor].
Defined.

(** ** The proof of work *)

Lemma hashimotoFull_Light_witness :
  exists cache dataset, generateCache 16 (seedHash 1) = Ret cache /\ generateDataset (rev (work 3 6400)) (replicate 1600 0) cache = Ret dataset /\
    forall hash nonce, exists r, hashimotoFull dataset hash nonce = Ret r /\ hashimotoLight 6400 cache hash nonce = Ret r.
Proof.
  apply (hashimotoFull_Light eth_keccak512_length 1 (seedHash 1) 3 (rev (work 3 6400)) (replicate 1600 0)); [done|done|done|].
  symmetry. apply Permutation_rev.
Defined.

Lemma tester_ok : engine_ok tester.
Proof.
  split; [intros e d [= <-] buffer; done|]. split; [|done]. intros e g [= <-] size. unfold dataset_bytes.
  rewrite decide_True by done. intros ->. split; [by exists 4|]. split; [by exists 4|]. intros d [= <-] buffer. done.
Qed.

Lemma verifySeal_fulldag_witness : verifySeal tester header2 true = verifySeal tester header2 false.
Proof. destruct (verifySeal_fulldag eth_keccak512_length tester header2 true tester_ok) as [H _]; [done|done|exact H]. Defined.

(** ** Verification *)

Lemma verifyHeaderWorker_batch_witness :
  valid_batch faker chain 2000 header0 [header1; header2] [true; true] /\ Number header2 = Number header0 + 1 + 1.
Proof.
  destruct (verifyHeaderWorker_batch faker chain 2000 header0 [header1; header2] [true; true]) as [H1 H2].
  - intros h [= <-]. by vm_compute.
  - by vm_compute.
  - repeat constructor; by vm_compute.
  - done.
  - done.
  - assert (HV : valid_batch faker chain 2000 header0 [header1; header2] [true; true]).
    { apply H1. intros [|[|i]] Hi; [by vm_compute|by vm_compute|cbn in Hi; lia]. }
    split; [exact HV|]. exact (proj1 (H2 HV 1%nat header2 eq_refl)).
Defined.

Definition template : Header :=
  mk_Header (Hash header0) EmptyUncleHash 51 1 2 3 (replicate 256 0) 0 11 (CalcGasLimit (mk_Block header0 []) 8000000 8000000) 21000 1010 [1; 2] 0 (replicate 8 0).
Definition prepared : Header := set_Difficulty template (CalcDifficulty config 1010 header0).

Lemma template_prepared : Prepare chain template = Ret prepared.
Proof. vm_compute. reflexivity. Qed.

Lemma Prepare_accepted_witness : verifyHeader faker chain prepared header0 false false 2000 = run (Ret tt).
Proof.
  destruct (Prepare_accepted faker chain (mk_Block header0 []) template prepared 8000000 8000000 2000) as [H _];
    [exact template_prepared|vm_compute; reflexivity|split_and!; by vm_compute|by vm_compute..|]. apply H. by vm_compute.
Defined.

Lemma ApplyDAOHardFork_moves_witness : balance (ApplyDAOHardFork (New true)) 0xd4fe7bc31cedb7bfb8a345f31e668033056b2728 = 0.
Proof. destruct (ApplyDAOHardFork_moves (New true)) as (_ & H & _); [apply New_start|]. apply H. apply (bool_decide_unpack _). vm_compute. exact I. Defined.

Lemma VerifyHeaders_delivers_witness :
  let headers := [header1; header2] in
  (exists t, work_step faker chain headers [true; true] 2000 4 (VerifyHeaders faker headers) t) \/
  errorsOut (VerifyHeaders faker headers) = map (fun i => verifyHeaderWorker faker chain headers [true; true] i 2000) (seq 0 2).
Proof.
  destruct (VerifyHeaders_delivers faker chain [header1; header2] [true; true] 2000 4) as (_ & _ & H); [lia|done|done|]. apply H. apply rtc_refl.
Defined.
