(* ===== verification/GoHeap.v ===== *)
(** * Binary heaps (container/heap)

    The heap operations of the Go library on a slice, for any order, and that they keep
    the heap property and the elements.  [Less(i, j)] compares the elements at two
    positions, [less] the elements themselves. *)

From stdpp Require Import list.
From S2P Require Import Prelude.

#[local] Open Scope nat_scope.

Section Heap.
Context {A : Type} (less : A -> A -> bool).

Definition less_at (h : list A) (i j : nat) : bool :=
  match h !! i, h !! j with Some x, Some y => less x y | _, _ => false end.
Definition swap (h : list A) (i j : nat) : list A :=
  match h !! i, h !! j with Some x, Some y => <[i := y]> (<[j := x]> h) | _, _ => h end.

Definition parent (j : nat) : nat := (j - 1) / 2.

(** The fuel bounds the number of levels. *)
Fixpoint up_loop (fuel : nat) (h : list A) (j : nat) : list A :=
  match fuel with
  | O => h
  | S fuel => let i := parent j in if decide (i = j) then h else if less_at h j i then up_loop fuel (swap h i j) i else h
  end.
Definition up (h : list A) (j : nat) : list A := up_loop (S j) h j.

(** The smaller of the children of [i] among the first [n] elements. *)
Definition child (h : list A) (i n : nat) : option nat :=
  let j1 := 2 * i + 1 in
  if decide (n <= j1) then None
  else Some (if decide (j1 + 1 < n) then if less_at h (j1 + 1) j1 then j1 + 1 else j1 else j1).

Fixpoint down_loop (fuel : nat) (h : list A) (i n : nat) : list A * nat :=
  match fuel with
  | O => (h, i)
  | S fuel =>
      match child h i n with
      | Some j => if less_at h j i then down_loop fuel (swap h i j) j n else (h, i)
      | None => (h, i)
      end
  end.
Definition down (h : list A) (i0 n : nat) : list A * bool :=
  let '(h, i) := down_loop (S (n - i0)) h i0 n in (h, bool_decide (i0 < i)).

Definition heap_Push (h : list A) (x : A) : list A := up (h ++ [x]) (length h).

Fixpoint heapify (k : nat) (h : list A) : list A := match k with O => h | S k => heapify k (down h k (length h)).1 end.
Definition heap_Init (h : list A) : list A := heapify (length h / 2) h.

(** The last element is taken off; there is none in an empty heap. *)
Definition pop_last (h : list A) : outcome Empty_set (A * list A) :=
  match h !! (length h - 1) with Some x => Ret (x, take (length h - 1) h) | None => Panic end.
Definition heap_Pop (h : list A) : outcome Empty_set (A * list A) :=
  let n := (length h - 1)%nat in pop_last (down (swap h 0 n) 0 n).1.
Definition heap_Fix (h : list A) (i : nat) : list A :=
  let '(h', moved) := down h i (length h) in if moved then h' else up h' i.
Definition heap_Remove (h : list A) (i : nat) : outcome Empty_set (A * list A) :=
  let n := (length h - 1)%nat in
  if decide (n = i) then pop_last h
  else let '(h', moved) := down (swap h i n) i n in pop_last (if moved then h' else up h' i).

(** ** Swapping *)

Lemma length_swap h i j : length (swap h i j) = length h.
Proof. unfold swap. destruct (h !! i), (h !! j); rewrite ?length_insert; done. Qed.

Lemma lookup_swap h i j x y k : h !! i = Some x -> h !! j = Some y ->
  swap h i j !! k = if decide (k = i) then Some y else if decide (k = j) then Some x else h !! k.
Proof.
  intros Hi Hj. unfold swap. rewrite Hi, Hj. pose proof (lookup_lt_Some _ _ _ Hi). pose proof (lookup_lt_Some _ _ _ Hj).
  destruct (decide (k = i)) as [->|]; [apply list_lookup_insert_eq; by rewrite length_insert|].
  rewrite list_lookup_insert_ne by done. destruct (decide (k = j)) as [->|]; [by apply list_lookup_insert_eq|by apply list_lookup_insert_ne].
Qed.

Lemma swap_perm h i j : swap h i j ≡ₚ h.
Proof. unfold swap. destruct (h !! i) as [x|] eqn:Hi, (h !! j) as [y|] eqn:Hj; try done. by apply Permutation_insert_swap. Qed.

(** ** The heap property *)

(** [less] is a strict weak order. *)
Context (less_asym : forall x y, less x y = true -> less y x = false).
Context (le_trans : forall x y z, less y x = false -> less z y = false -> less z x = false).

(** The element at [i] may be above that at [k]. *)
Definition above (h : list A) (i k : nat) : Prop := forall x y, h !! i = Some x -> h !! k = Some y -> less y x = false.
(** The first [n] elements are a heap, as far as the parents from [m] on are concerned. *)
Definition heap_from (h : list A) (m n : nat) : Prop := forall k, 0 < k < n -> m <= parent k -> above h (parent k) k.
Definition heap (h : list A) : Prop := heap_from h 0 (length h).

Lemma parent_lt k : 0 < k -> parent k < k.
Proof. unfold parent. intros. apply Nat.Div0.div_lt_upper_bound; lia. Qed.

Lemma parent_child k i : 0 < k -> parent k = i <-> k = 2 * i + 1 \/ k = 2 * i + 2.
Proof. unfold parent. intros. pose proof (Nat.div_mod (k - 1) 2). pose proof (Nat.mod_upper_bound (k - 1) 2). lia. Qed.

Lemma up_loop_enough f1 f2 h j : j < f1 -> j < f2 -> up_loop f1 h j = up_loop f2 h j.
Proof.
  revert f2 h j. induction f1 as [|f1 IH]; intros [|f2] h j H1 H2; try lia. cbn [up_loop]. cbv zeta.
  destruct (decide (parent j = j)) as [|Hj]; [done|]. destruct (less_at _ _ _); [|done]. assert (j <> 0) by (intros ->; by apply Hj). pose proof (parent_lt j). apply IH; lia.
Qed.

Lemma up_eq h j : up h j = if decide (j = 0) then h else if less_at h j (parent j) then up (swap h (parent j) j) (parent j) else h.
Proof.
  unfold up at 1. cbn [up_loop]. cbv zeta. destruct (decide (j = 0)) as [->|]; [done|]. pose proof (parent_lt j ltac:(lia)). rewrite decide_False by lia.
  destruct (less_at _ _ _); [|done]. apply up_loop_enough; lia.
Qed.

Lemma child_spec h i n j : child h i n = Some j -> (j = 2 * i + 1 \/ j = 2 * i + 2) /\ j < n /\ forall k, 0 < k < n -> parent k = i -> k <> j -> above h j k.
Proof.
  unfold child. cbv zeta. remember (2 * i + 1) as j1 eqn:Ej. destruct (decide _) as [|Hn]; [done|]. intros [= <-]. destruct (decide (j1 + 1 < n)) as [H2|H2].
  - destruct (less_at h (j1 + 1) j1) eqn:Hl; (split; [lia|]); (split; [lia|]); intros k Hk Hp Hne; apply parent_child in Hp; try lia; intros x y Hx Hy; unfold less_at in Hl.
    + assert (k = j1) as -> by lia. rewrite Hx, Hy in Hl. by apply less_asym.
    + assert (k = j1 + 1) as -> by lia. by rewrite Hx, Hy in Hl.
  - split; [lia|]. split; [lia|]. intros k Hk Hp Hne. apply parent_child in Hp; lia.
Qed.

Lemma child_None h i n : child h i n = None -> forall k, 0 < k < n -> parent k <> i.
Proof. unfold child. cbv zeta. destruct (decide _); [|done]. intros _ k Hk Hp. apply parent_child in Hp; lia. Qed.

(** *** Up *)

(** A heap but for the element at [j], which may be too small. *)
Definition up_inv (h : list A) (j n : nat) : Prop :=
  (forall k, 0 < k < n -> k <> j -> above h (parent k) k) /\ (forall k, 0 < k < n -> parent k = j -> 0 < j -> above h (parent j) k).

Lemma up_ok h j n : j < n -> n <= length h -> up_inv h j n -> heap_from (up h j) 0 n.
Proof.
  revert h. induction j as [j IH] using lt_wf_ind. intros h Hj Hn [H1 H2]. rewrite up_eq. destruct (decide (j = 0)) as [->|Hj0]; [intros k Hk _; apply H1; lia|].
  pose proof (parent_lt j ltac:(lia)) as Hp. destruct (lookup_lt_is_Some_2 h j) as [y Hy]; [lia|]. destruct (lookup_lt_is_Some_2 h (parent j)) as [x Hx]; [lia|].
  unfold less_at. rewrite Hx, Hy. destruct (less y x) eqn:Hl.
  - apply IH; [lia|lia|by rewrite length_swap|]. pose proof (less_asym _ _ Hl) as Hl'. split.
    + intros k Hk Hne a b. rewrite !(lookup_swap h _ _ x y) by done. destruct (decide (k = parent j)); [done|]. destruct (decide (k = j)) as [->|Hkj].
      * rewrite decide_True by done. by intros [= <-] [= <-].
      * destruct (decide (parent k = parent j)) as [E|]; [intros [= <-] Hb; eapply le_trans; [exact Hl'|]; specialize (H1 k Hk Hkj); rewrite E in H1; by apply H1|].
        destruct (decide (parent k = j)) as [E|]; [intros [= <-] Hb; specialize (H2 k Hk E ltac:(lia)); by apply H2|]. intros Ha Hb. by apply (H1 k).
    + intros k Hk E H0. pose proof (parent_lt (parent j) H0). intros a b. rewrite !(lookup_swap h _ _ x y) by done. rewrite !(decide_False (P := parent (parent j) = _)) by lia.
      pose proof (H1 (parent j) ltac:(lia) ltac:(lia)) as Hpp. destruct (decide (k = parent j)) as [->|]; [exfalso; pose proof (parent_lt (parent j)); lia|].
      destruct (decide (k = j)) as [->|Hkj]; [intros Ha [= <-]; by apply Hpp|]. intros Ha Hb. eapply le_trans; [by apply Hpp|]. specialize (H1 k Hk Hkj). rewrite E in H1. by apply H1.
  - intros k Hk _. destruct (decide (k = j)) as [->|]; [|by apply H1]. intros a b Ha Hb. congruence.
Qed.

Lemma up_perm h j : up h j ≡ₚ h.
Proof.
  revert h. induction j as [j IH] using lt_wf_ind. intros h. rewrite up_eq. destruct (decide _); [done|]. destruct (less_at _ _ _); [|done].
  rewrite IH by (apply parent_lt; lia). apply swap_perm.
Qed.

(** *** Down *)

Lemma child_gt h i n j : child h i n = Some j -> i < j < n.
Proof. intros Hc. apply child_spec in Hc. lia. Qed.

Lemma down_loop_enough f1 f2 h i n : n - i < f1 -> n - i < f2 -> down_loop f1 h i n = down_loop f2 h i n.
Proof.
  revert f2 h i. induction f1 as [|f1 IH]; intros [|f2] h i H1 H2; try lia. cbn [down_loop]. destruct (child h i n) as [j|] eqn:Hc; [|done].
  apply child_gt in Hc. destruct (less_at _ _ _); [|done]. apply IH; lia.
Qed.

Definition down_at (h : list A) (i n : nat) : list A * nat := down_loop (S (n - i)) h i n.

Lemma down_at_eq h i n : down_at h i n =
  match child h i n with Some j => if less_at h j i then down_at (swap h i j) j n else (h, i) | None => (h, i) end.
Proof.
  unfold down_at at 1. cbn [down_loop]. destruct (child h i n) as [j|] eqn:Hc; [|done]. apply child_gt in Hc. destruct (less_at _ _ _); [|done]. apply down_loop_enough; lia.
Qed.

(** Induction along the way down. *)
Lemma down_ind (P : list A -> nat -> Prop) n :
  (forall h i, (forall j, child h i n = Some j -> less_at h j i = true -> P (swap h i j) j) -> P h i) -> forall h i, P h i.
Proof.
  intros HP h i. remember (n - i) as d eqn:Hd. revert h i Hd. induction d as [d IH] using lt_wf_ind. intros h i ->. apply HP.
  intros j Hc _. apply child_gt in Hc. eapply IH; [|done]. lia.
Qed.

(** A heap but for the element at [i], which may be too large; [weak] if it may also be too small. *)
Definition weak_inv (h : list A) (i m n : nat) : Prop :=
  (forall k, 0 < k < n -> m <= parent k -> parent k <> i -> k <> i -> above h (parent k) k) /\
  (forall k, 0 < k < n -> parent k = i -> 0 < i -> m <= parent i -> above h (parent i) k).
Definition down_inv (h : list A) (i m n : nat) : Prop := weak_inv h i m n /\ (0 < i -> m <= parent i -> above h (parent i) i).

Lemma down_move h i m n j :
  i < n -> m <= i -> n <= length h -> weak_inv h i m n -> child h i n = Some j -> less_at h j i = true -> down_inv (swap h i j) j m n.
Proof.
  intros Hi Hm Hn [H1 H2] Hc Hl. destruct (child_spec _ _ _ _ Hc) as (Hj & Hjn & Hsib). assert (0 < j) by lia. assert (parent j = i) as Hpj by (apply parent_child; lia).
  destruct (lookup_lt_is_Some_2 h i) as [x Hx]; [lia|]. destruct (lookup_lt_is_Some_2 h j) as [y Hy]; [lia|]. unfold less_at in Hl. rewrite Hx, Hy in Hl. pose proof (less_asym _ _ Hl) as Hl'.
  split; [split|].
  - intros k Hk Hmk Hpk Hkj a b. rewrite !(lookup_swap h _ _ x y) by done. rewrite (decide_False (P := parent k = j)) by done. rewrite (decide_False (P := k = j)) by done.
    destruct (decide (parent k = i)) as [E|E]; [pose proof (parent_lt k); rewrite decide_False by lia; intros [= <-] Hb; by apply (Hsib k)|].
    destruct (decide (k = i)) as [->|]; [intros Ha [= <-]; apply (H2 j); [lia|done|lia|done|done|done]|by apply H1].
  - intros k Hk Hpk _ _ a b. rewrite Hpj, !(lookup_swap h _ _ x y) by done. rewrite decide_True by done. pose proof (parent_lt k). rewrite !(decide_False (P := k = _)) by lia.
    intros [= <-] Hb. apply (H1 k); [done|lia|lia|lia|by rewrite Hpk|done].
  - intros _ _ a b. rewrite Hpj, !(lookup_swap h _ _ x y) by done. rewrite decide_True by done. rewrite decide_False by lia. rewrite decide_True by done. by intros [= <-] [= <-].
Qed.

Lemma down_stop h i m n : weak_inv h i m n -> i < n -> n <= length h -> (match child h i n with Some j => less_at h j i = false | None => True end) ->
  forall k, 0 < k < n -> m <= parent k -> k <> i -> above h (parent k) k.
Proof.
  intros [H1 _] Hi Hn Hs k Hk Hm Hki. destruct (decide (parent k = i)) as [E|]; [|by apply H1]. destruct (child h i n) as [j|] eqn:Hc; [|by apply child_None with (k := k) in Hc].
  destruct (child_spec _ _ _ _ Hc) as (_ & Hjn & Hsib). destruct (lookup_lt_is_Some_2 h j) as [y Hy]; [lia|]. intros a b Ha Hb. unfold less_at in Hs. rewrite Hy in Hs. rewrite E in Ha. rewrite Ha in Hs.
  destruct (decide (k = j)) as [->|]; [by rewrite Hy in Hb; injection Hb as <-|]. eapply le_trans; [exact Hs|]. by apply (Hsib k).
Qed.

Lemma down_ok h i m n : i < n -> m <= i -> n <= length h -> down_inv h i m n -> heap_from (down_at h i n).1 m n.
Proof.
  revert h i. apply (down_ind (fun h i => i < n -> m <= i -> n <= length h -> down_inv h i m n -> heap_from (down_at h i n).1 m n) n).
  intros h i IH Hi Hm Hn [Hw Hp]. rewrite down_at_eq. pose proof (down_stop h i m n Hw Hi Hn) as Hstop.
  assert (forall k, (k <> i -> above h (parent k) k) -> 0 < k < n -> m <= parent k -> above h (parent k) k) as Hall.
  { intros k Hk Hkn Hmk. destruct (decide (k = i)) as [->|]; [apply Hp; lia|auto]. }
  destruct (child h i n) as [j|] eqn:Hc; [|intros k Hk Hmk; apply Hall; auto]. destruct (less_at h j i) eqn:Hl; [|intros k Hk Hmk; apply Hall; auto].
  pose proof (child_gt _ _ _ _ Hc). apply IH; [done|done|lia|lia|by rewrite length_swap|by eapply down_move].
Qed.

Lemma down_perm h i n : (down_at h i n).1 ≡ₚ h.
Proof.
  revert h i. apply (down_ind (fun h i => (down_at h i n).1 ≡ₚ h) n). intros h i IH. rewrite down_at_eq. destruct (child h i n) as [j|]; [|done].
  destruct (less_at h j i) eqn:Hl; [|done]. rewrite (IH j eq_refl Hl). apply swap_perm.
Qed.

Lemma down_outside h i n k : n <= k -> i < n -> (down_at h i n).1 !! k = h !! k.
Proof.
  intros Hk. revert h i. apply (down_ind (fun h i => i < n -> (down_at h i n).1 !! k = h !! k) n). intros h i IH Hi. rewrite down_at_eq. destruct (child h i n) as [j|] eqn:Hc; [|done].
  destruct (less_at h j i) eqn:Hl; [|done]. pose proof (child_gt _ _ _ _ Hc). rewrite (IH j eq_refl Hl) by lia. unfold less_at in Hl.
  destruct (h !! j) as [y|] eqn:Hy; [|done]. destruct (h !! i) as [x|] eqn:Hx; [|done]. rewrite (lookup_swap h i j x y) by done. by rewrite !decide_False by lia.
Qed.

Lemma down_unmoved h i n : (down_at h i n).2 = i \/ i < (down_at h i n).2.
Proof.
  revert h i. apply (down_ind (fun h i => (down_at h i n).2 = i \/ i < (down_at h i n).2) n). intros h i IH. rewrite down_at_eq. destruct (child h i n) as [j|] eqn:Hc; [|by left].
  destruct (less_at h j i) eqn:Hl; [|by left]. right. pose proof (child_gt _ _ _ _ Hc). destruct (IH j eq_refl Hl); lia.
Qed.

(** Down, and up if nothing moved. *)
Definition settle (h : list A) (i n : nat) : list A := let '(h', moved) := down h i n in if moved then h' else up h' i.

Lemma settle_ok h i n : i < n -> n <= length h -> weak_inv h i 0 n -> heap_from (settle h i n) 0 n.
Proof.
  intros Hi Hn Hw. unfold settle, down. fold (down_at h i n). rewrite down_at_eq. pose proof (down_stop h i 0 n Hw Hi Hn) as Hstop.
  assert (forall b : bool, b = false -> (match child h i n with Some j => less_at h j i = false | None => True end) -> heap_from (if b then h else up h i) 0 n) as Hend.
  { intros b -> Hc. apply up_ok; [done|done|]. split; [intros k Hk Hki; apply Hstop; [done|done|lia|done]|]. intros k Hk Hp H0. apply Hw; [done|done|done|lia]. }
  destruct (child h i n) as [j|] eqn:Hc; [|apply Hend; [apply bool_decide_eq_false; lia|done]]. destruct (less_at h j i) eqn:Hl; [|apply Hend; [apply bool_decide_eq_false; lia|done]].
  pose proof (child_gt _ _ _ _ Hc). destruct (down_at (swap h i j) j n) as [h' i'] eqn:E. pose proof (down_unmoved (swap h i j) j n) as Hu. rewrite E in Hu. cbn in Hu.
  rewrite bool_decide_true by lia. replace h' with (down_at (swap h i j) j n).1 by (by rewrite E). apply down_ok; [lia|lia|by rewrite length_swap|by eapply down_move; [| | | |done|]; [lia..| | |]].
Qed.

Lemma settle_perm h i n : settle h i n ≡ₚ h.
Proof.
  unfold settle, down. fold (down_at h i n). pose proof (down_perm h i n) as Hp. destruct (down_at h i n) as [h' i']. cbn in Hp.
  destruct (bool_decide _); [done|]. by rewrite up_perm.
Qed.

Lemma up_outside h j k : j < k -> up h j !! k = h !! k.
Proof.
  revert h. induction j as [j IH] using lt_wf_ind. intros h Hk. rewrite up_eq. destruct (decide _); [done|]. pose proof (parent_lt j ltac:(lia)).
  destruct (less_at h j (parent j)) eqn:Hl; [|done]. rewrite IH by lia. unfold less_at in Hl. destruct (h !! j) as [y|] eqn:Hy; [|done]. destruct (h !! parent j) as [x|] eqn:Hx; [|done].
  rewrite (lookup_swap h _ _ x y) by done. by rewrite !decide_False by lia.
Qed.

Lemma settle_outside h i n k : n <= k -> i < n -> settle h i n !! k = h !! k.
Proof.
  intros Hk Hi. unfold settle, down. fold (down_at h i n). pose proof (down_outside h i n k Hk Hi) as Hd. destruct (down_at h i n) as [h' i']. cbn in Hd.
  destruct (bool_decide _); [done|]. by rewrite up_outside by lia.
Qed.

Lemma heap_from_take h m n : heap_from h m n -> heap_from (take n h) m n.
Proof. intros Hh k Hk Hm x y Hx Hy. pose proof (parent_lt k). rewrite lookup_take_lt in Hx by lia. rewrite lookup_take_lt in Hy by lia. by apply (Hh k). Qed.

(** ** The operations *)

Lemma heap_nil : heap [].
Proof. intros k Hk. cbn in Hk. lia. Qed.

Lemma heap_Push_ok h x : heap h -> heap (heap_Push h x) /\ heap_Push h x ≡ₚ x :: h.
Proof.
  intros Hh. unfold heap_Push. assert (up (h ++ [x]) (length h) ≡ₚ x :: h) as Hp by (rewrite up_perm; apply Permutation_app_comm). split; [|done].
  unfold heap. rewrite (Permutation_length Hp). cbn [length]. replace (S (length h)) with (length (h ++ [x])) by (rewrite length_app; cbn; lia).
  apply up_ok; [rewrite length_app; cbn; lia|lia|]. rewrite length_app. cbn. split.
  - intros k Hk Hne. pose proof (parent_lt k). intros a b. rewrite !lookup_app_l by lia. apply (Hh k); lia.
  - intros k Hk Hp' H0. pose proof (parent_lt k). lia.
Qed.

(** The first element of a heap is the smallest. *)
Lemma heap_min h x : heap h -> h !! 0 = Some x -> forall y, y ∈ h -> less y x = false.
Proof.
  intros Hh Hx y [k Hk]%list_elem_of_lookup. revert y Hk. induction k as [k IH] using lt_wf_ind. intros y Hk. destruct (decide (k = 0)) as [->|H0].
  - assert (y = x) as -> by congruence. destruct (less x x) eqn:E; [|done]. by pose proof (less_asym _ _ E); congruence.
  - pose proof (parent_lt k ltac:(lia)). pose proof (lookup_lt_Some _ _ _ Hk). destruct (lookup_lt_is_Some_2 h (parent k)) as [z Hz]; [lia|].
    eapply le_trans; [exact (IH (parent k) ltac:(lia) z Hz)|]. by apply (Hh k ltac:(lia) ltac:(lia)).
Qed.

Lemma pop_last_ok h n x h0 : length h = S n -> h !! n = Some x -> h ≡ₚ h0 -> heap_from h 0 n ->
  exists h', pop_last h = Ret (x, h') /\ h0 ≡ₚ x :: h' /\ heap h'.
Proof.
  intros Hl Hx Hp Hh. unfold pop_last. rewrite Hl. replace (S n - 1) with n by lia. rewrite Hx. eexists. split; [done|]. split.
  - rewrite <- Hp. rewrite <- (take_drop_middle h n x Hx) at 1. rewrite drop_ge by lia. rewrite Permutation_app_comm. done.
  - unfold heap. rewrite length_take. replace (n `min` length h) with n by lia. by apply heap_from_take.
Qed.

Lemma down_fst h i n : (down h i n).1 = (down_at h i n).1.
Proof. unfold down. fold (down_at h i n). by destruct (down_at h i n). Qed.

Lemma heap_Pop_ok h x : heap h -> h !! 0 = Some x -> exists h', heap_Pop h = Ret (x, h') /\ h ≡ₚ x :: h' /\ heap h'.
Proof.
  intros Hh Hx. unfold heap_Pop. set (n := length h - 1). pose proof (lookup_lt_Some _ _ _ Hx). destruct (lookup_lt_is_Some_2 h n) as [y Hy]; [lia|]. rewrite down_fst.
  assert (swap h 0 n !! n = Some x) as Hn. { rewrite (lookup_swap h 0 n x y) by done. destruct (decide (n = 0)) as [E|]; [rewrite E in Hy; congruence|by rewrite decide_True]. }
  destruct (decide (n = 0)) as [E|E].
  - assert (down_at (swap h 0 n) 0 n = (swap h 0 n, 0)) as -> by (rewrite down_at_eq; unfold child; by rewrite decide_True by lia). cbn.
    apply (pop_last_ok _ n); [rewrite length_swap; lia|done|apply swap_perm|intros k Hk; lia].
  - apply (pop_last_ok _ n); [rewrite (Permutation_length (down_perm _ _ _)), length_swap; lia|by rewrite down_outside by lia|by rewrite down_perm, swap_perm|].
    apply down_ok; [lia|lia|rewrite length_swap; lia|]. split; [split|lia]; [|lia]. intros k Hk _ Hp _. pose proof (parent_lt k).
    intros a b. rewrite !(lookup_swap h 0 n x y) by done. rewrite !decide_False by lia. apply (Hh k); lia.
Qed.

Lemma heap_Remove_ok h i x : heap h -> h !! i = Some x -> exists h', heap_Remove h i = Ret (x, h') /\ h ≡ₚ x :: h' /\ heap h'.
Proof.
  intros Hh Hx. unfold heap_Remove. set (n := length h - 1). pose proof (lookup_lt_Some _ _ _ Hx). destruct (lookup_lt_is_Some_2 h n) as [y Hy]; [lia|].
  destruct (decide (n = i)) as [<-|Hni].
  - apply (pop_last_ok _ n); [lia|done|done|]. intros k Hk. apply Hh. lia.
  - fold (settle (swap h i n) i n). assert (swap h i n !! n = Some x) as Hn by (rewrite (lookup_swap h i n x y) by done; by rewrite decide_False, decide_True by lia).
    assert (weak_inv (swap h i n) i 0 n) as Hw.
    { split.
      - intros k Hk _ Hp Hki. pose proof (parent_lt k). intros a b. rewrite !(lookup_swap h i n x y) by done. rewrite !decide_False by lia. apply (Hh k); lia.
      - intros k Hk Hp H0 _. pose proof (parent_lt k). pose proof (parent_lt i). intros a b. rewrite !(lookup_swap h i n x y) by done. rewrite !decide_False by lia. intros Ha Hb.
        eapply le_trans; [exact (Hh i ltac:(lia) ltac:(lia) a x Ha Hx)|]. apply (Hh k ltac:(lia) ltac:(lia)); [by rewrite Hp|done]. }
    replace (let '(h', moved) := down (swap h i n) i n in pop_last (if moved then h' else up h' i)) with (pop_last (settle (swap h i n) i n)) by (unfold settle; by destruct (down _ _ _)).
    apply (pop_last_ok _ n); [rewrite (Permutation_length (settle_perm _ _ _)), length_swap; lia|by rewrite settle_outside by lia|by rewrite settle_perm, swap_perm|apply settle_ok; [lia|rewrite length_swap; lia|done]].
Qed.

Lemma heap_Fix_ok h i x : heap h -> h !! i <> None -> heap (heap_Fix (<[i := x]> h) i) /\ heap_Fix (<[i := x]> h) i ≡ₚ <[i := x]> h.
Proof.
  intros Hh [y Hy]%not_eq_None_Some. pose proof (lookup_lt_Some _ _ _ Hy). unfold heap_Fix. change (let '(h', moved) := down ?l ?k ?n in if moved then h' else up h' ?k) with (settle l k n).
  split; [|apply settle_perm]. unfold heap. rewrite (Permutation_length (settle_perm _ _ _)).
  apply settle_ok; rewrite length_insert; [done|done|]. split.
  - intros k Hk _ Hp Hki. intros a b. rewrite !list_lookup_insert_ne by congruence. apply (Hh k); lia.
  - intros k Hk Hp H0 _. pose proof (parent_lt k). pose proof (parent_lt i). intros a b. rewrite !list_lookup_insert_ne by lia. intros Ha Hb.
    eapply le_trans; [exact (Hh i ltac:(lia) ltac:(lia) a y Ha Hy)|]. apply (Hh k ltac:(lia) ltac:(lia)); [by rewrite Hp|done].
Qed.

Lemma heapify_ok k h : k <= length h -> heap_from h k (length h) -> heap_from (heapify k h) 0 (length h) /\ heapify k h ≡ₚ h.
Proof.
  revert h. induction k as [|k IH]; intros h Hk Hh; [done|]. cbn [heapify]. rewrite down_fst. pose proof (down_perm h k (length h)) as Hp.
  destruct (IH (down_at h k (length h)).1) as [H1 H2]; [rewrite (Permutation_length Hp); lia| |rewrite (Permutation_length Hp) in H1; split; [done|by rewrite H2]].
  rewrite (Permutation_length Hp). apply down_ok; [lia|lia|lia|]. split; [split|].
  - intros x Hx Hm Hpx _. apply (Hh x); lia.
  - intros x Hx Hpx H0 Hm. pose proof (parent_lt k). lia.
  - intros H0 Hm. pose proof (parent_lt k). lia.
Qed.

Lemma heap_Init_ok h : heap (heap_Init h) /\ heap_Init h ≡ₚ h.
Proof.
  unfold heap_Init. pose proof (Nat.div_mod (length h) 2). pose proof (Nat.mod_upper_bound (length h) 2).
  destruct (heapify_ok (length h / 2) h) as [H1 H2]; [lia| |split; [unfold heap; by rewrite (Permutation_length H2)|done]].
  intros k Hk Hm. pose proof (proj1 (parent_child k (parent k) ltac:(lia)) eq_refl). lia.
Qed.

End Heap.

(** ** Orders that agree on the elements *)

Section Agree.
Context {A : Type} (less less' : A -> A -> bool) (P : A -> Prop) (agree : forall x y, P x -> P y -> less x y = less' x y).

Definition holds (h : list A) : Prop := forall x, x ∈ h -> P x.

Lemma less_at_agree h i j : holds h -> less_at less h i j = less_at less' h i j.
Proof. intros Hh. unfold less_at. destruct (h !! i) eqn:Hi, (h !! j) eqn:Hj; try done. apply agree; apply Hh; by eapply list_elem_of_lookup_2. Qed.

Lemma holds_swap h i j : holds h -> holds (swap h i j).
Proof. intros Hh x. rewrite swap_perm. apply Hh. Qed.

Lemma up_loop_agree fuel : forall h j, holds h -> up_loop less fuel h j = up_loop less' fuel h j.
Proof.
  induction fuel as [|fuel IH]; intros h j Hh; [done|]. cbn [up_loop]. cbv zeta. destruct (decide _); [done|]. rewrite less_at_agree by done. destruct (less_at _ _ _ _); [|done]. by apply IH, holds_swap.
Qed.

Lemma child_agree h i n : holds h -> child less h i n = child less' h i n.
Proof. intros Hh. unfold child. by rewrite less_at_agree. Qed.

Lemma down_loop_agree fuel : forall h i n, holds h -> down_loop less fuel h i n = down_loop less' fuel h i n.
Proof.
  induction fuel as [|fuel IH]; intros h i n Hh; [done|]. cbn [down_loop]. rewrite child_agree by done. destruct (child _ _ _ _); [|done]. rewrite less_at_agree by done. destruct (less_at _ _ _ _); [|done]. by apply IH, holds_swap.
Qed.

Lemma heap_Push_agree h x : holds h -> P x -> heap_Push less h x = heap_Push less' h x.
Proof. intros Hh Hx. unfold heap_Push, up. apply up_loop_agree. intros y [Hy| ->%list_elem_of_singleton]%elem_of_app; [by apply Hh|done]. Qed.

Lemma heap_Pop_agree h : holds h -> heap_Pop less h = heap_Pop less' h.
Proof. intros Hh. unfold heap_Pop, down. by rewrite down_loop_agree by (by apply holds_swap). Qed.
End Agree.

#[global] Arguments heap_Push : simpl never.
#[global] Arguments heap_Pop : simpl never.
#[global] Arguments heap_Init : simpl never.
#[global] Arguments heap_Remove : simpl never.
#[global] Arguments heap_Fix : simpl never.
