(* ===== verification/TxList.v ===== *)
(** * Lists of transactions (core/types/transaction.go, core/tx_list.go)

    Transactions, and the transactions of one account by nonce: a map with a heap of
    its nonces as index and a cache of the sorted list.  Integers of 64 bits are in
    [Z]; the order in which a map is visited is any order. *)

From stdpp Require Import gmap sorting.
From S2P Require Import Prelude Rlp RlpEncode VmPrecompiles BlockTypes GoHeap.

(** ** Transactions *)

(** [txdata], and the time at which the transaction was first seen. *)
Record Transaction := mk_Transaction {
  AccountNonce : Z;
  Price : Z;
  tx_GasLimit : Z;
  Recipient : option Z;
  Amount : Z;
  Payload : bytes;
  tx_V : Z;
  tx_R : Z;
  tx_S : Z;
  tx_time : Z
}.

#[global] Instance Transaction_dec : EqDecision Transaction.
Proof. solve_decision. Defined.

Definition Cost (tx : Transaction) : Z := Price tx * tx_GasLimit tx + Amount tx.

Definition txdata_val (tx : Transaction) : val :=
  StructV [UintV (AccountNonce tx); BigPtrV (Some (Price tx)); UintV (tx_GasLimit tx); PtrV String (Types.address_val <$> Recipient tx);
    BigPtrV (Some (Amount tx)); BytesV (Payload tx); BigPtrV (Some (tx_V tx)); BigPtrV (Some (tx_R tx)); BigPtrV (Some (tx_S tx))].

Definition tx_Hash {C : Crypto} (tx : Transaction) : Z := Types.rlpHash (txdata_val tx).

(** Nothing is counted if the encoder fails. *)
Definition tx_Size (tx : Transaction) : Z := match EncodeToBytes (txdata_val tx) with Ret e => zlen e | _ => 0 end.

(** [TxDifference] *)
Definition TxDifference {C : Crypto} (a b : list Transaction) : list Transaction :=
  base.filter (fun tx => tx_Hash tx ∉ map tx_Hash b) a.

(** ** txSortedMap *)

Notation F A := (fuelled Empty_set A).
Notation P A := (outcome Empty_set A).

(** The entries of a map in the order in which [range] visits them. *)
Class MapOrder := {
  map_range : forall A, gmap Z A -> list (Z * A);
  map_range_perm A (m : gmap Z A) : map_range A m ≡ₚ map_to_list m
}.
Arguments map_range {_ A} _.

Definition nonce_less (x y : Z) : bool := bool_decide (x < y).

Record txSortedMap := mk_txSortedMap {
  items : gmap Z Transaction;
  index : list Z;
  cache : option (list Transaction)
}.

Definition newTxSortedMap : txSortedMap := mk_txSortedMap ∅ [] None.

Definition sorted_Get (m : txSortedMap) (nonce : Z) : option Transaction := items m !! nonce.

Definition sorted_Put (m : txSortedMap) (tx : Transaction) : txSortedMap :=
  let nonce := AccountNonce tx in
  let index := match items m !! nonce with None => heap_Push nonce_less (index m) nonce | Some _ => index m end in
  mk_txSortedMap (<[nonce := tx]> (items m)) index None.

(** The item of a nonce of the index. A nil transaction panics where it is used first. *)
Definition item (m : gmap Z Transaction) (nonce : Z) : P Transaction := match m !! nonce with Some tx => Ret tx | None => Panic end.

(** The loop of [Forward]: what is removed, the items and the index. *)
Fixpoint forward_loop (fuel : nat) (threshold : Z) (m : gmap Z Transaction) (h : list Z) : F (list Transaction * gmap Z Transaction * list Z) :=
  match h with
  | n :: _ =>
      if decide (n < threshold) then
        match fuel with
        | O => out_of_fuel
        | S fuel =>
            '(nonce, h) ← run (heap_Pop nonce_less h);
            tx ← run (item m nonce);
            '(removed, m, h) ← forward_loop fuel threshold (base.delete nonce m) h;
            run (Ret (tx :: removed, m, h))
        end
      else run (Ret ([], m, h))
  | [] => run (Ret ([], m, h))
  end.

Definition sorted_Forward (m : txSortedMap) (threshold : Z) : F (list Transaction * txSortedMap) :=
  '(removed, its, h) ← forward_loop (length (index m)) threshold (items m) (index m);
  c ← match cache m with
      | Some c => c ← run (go_from c (zlen removed)); run (Ret (Some c))
      | None => run (Ret None)
      end;
  run (Ret (removed, mk_txSortedMap its h c)).

Section Order.
Context {O : MapOrder}.

Definition sorted_reheap (m : txSortedMap) : txSortedMap :=
  mk_txSortedMap (items m) (heap_Init nonce_less (map_range (items m)).*1) None.

(** [filter]: the index is not kept. *)
Definition sorted_filter (m : txSortedMap) (f : Transaction -> bool) : list Transaction * txSortedMap :=
  let removed := base.filter (fun kv => f kv.2 = true) (map_range (items m)) in
  let its := fold_left (fun m kv => base.delete kv.1 m) removed (items m) in
  (removed.*2, mk_txSortedMap its (index m) (if decide (removed = []) then cache m else None)).

Definition sorted_Filter (m : txSortedMap) (f : Transaction -> bool) : list Transaction * txSortedMap :=
  let '(removed, m) := sorted_filter m f in
  (removed, if decide (removed = []) then m else sorted_reheap m).
End Order.

(** The loop of [Cap], from the back of the sorted index. *)
Fixpoint cap_loop (k : nat) (h : list Z) (size : Z) (m : gmap Z Transaction) : P (list Transaction * gmap Z Transaction) :=
  match k with
  | O => Ret ([], m)
  | S k =>
      nonce ← go_index h (size - 1);
      tx ← item m nonce;
      '(drops, m) ← cap_loop k h (size - 1) (base.delete nonce m);
      Ret (tx :: drops, m)
  end.

Definition sort_nonces (h : list Z) : list Z := merge_sort Z.le h.

Definition sorted_Cap (m : txSortedMap) (threshold : Z) : P (list Transaction * txSortedMap) :=
  let size := Z.of_nat (size (items m)) in
  if decide (size <= threshold) then Ret ([], m)
  else
    let h := sort_nonces (index m) in
    '(drops, its) ← cap_loop (Z.to_nat (size - threshold)) h size (items m);
    h ← go_to h threshold;
    c ← match cache m with
        | Some c => c ← go_to c (zlen c - zlen drops); Ret (Some c)
        | None => Ret None
        end;
    Ret (drops, mk_txSortedMap its (heap_Init nonce_less h) c).

(** The position of a nonce in the index. *)
Fixpoint index_of (nonce : Z) (h : list Z) : option nat :=
  match h with [] => None | n :: h => if decide (n = nonce) then Some O else S <$> index_of nonce h end.

Definition sorted_Remove (m : txSortedMap) (nonce : Z) : P (bool * txSortedMap) :=
  match items m !! nonce with
  | None => Ret (false, m)
  | Some _ =>
      h ← match index_of nonce (index m) with
          | Some i => '(_, h) ← heap_Remove nonce_less (index m) i; Ret h
          | None => Ret (index m)
          end;
      Ret (true, mk_txSortedMap (base.delete nonce (items m)) h None)
  end.

Fixpoint ready_loop (fuel : nat) (next : Z) (m : gmap Z Transaction) (h : list Z) : F (list Transaction * gmap Z Transaction * list Z) :=
  match h with
  | n :: _ =>
      if decide (n = next) then
        match fuel with
        | O => out_of_fuel
        | S fuel =>
            tx ← run (item m next);
            '(_, h) ← run (heap_Pop nonce_less h);
            '(ready, m, h) ← ready_loop fuel (u64 (next + 1)) (base.delete next m) h;
            run (Ret (tx :: ready, m, h))
        end
      else run (Ret ([], m, h))
  | [] => run (Ret ([], m, h))
  end.

Definition sorted_Ready (m : txSortedMap) (start : Z) : F (list Transaction * txSortedMap) :=
  match index m with
  | [] => run (Ret ([], m))
  | n :: _ =>
      if decide (n > start) then run (Ret ([], m))
      else
        '(ready, its, h) ← ready_loop (length (index m)) n (items m) (index m);
        run (Ret (ready, mk_txSortedMap its h None))
  end.

Definition sorted_Len (m : txSortedMap) : Z := Z.of_nat (size (items m)).

Definition by_nonce (x y : Transaction) : Prop := AccountNonce x <= AccountNonce y.
#[global] Instance by_nonce_dec : RelDecision by_nonce.
Proof. intros x y. unfold by_nonce. apply _. Defined.

Section Flatten.
Context {O : MapOrder}.

Definition sorted_flatten (m : txSortedMap) : list Transaction * txSortedMap :=
  match cache m with
  | Some c => (c, m)
  | None => let c := merge_sort by_nonce (map_range (items m)).*2 in (c, mk_txSortedMap (items m) (index m) (Some c))
  end.

(** [Flatten] returns a copy. *)
Definition sorted_Flatten (m : txSortedMap) : list Transaction * txSortedMap := sorted_flatten m.

Definition sorted_LastElement (m : txSortedMap) : P (Transaction * txSortedMap) :=
  let '(c, m) := sorted_flatten m in
  tx ← go_index c (zlen c - 1);
  Ret (tx, m).
End Flatten.

(** ** txList *)

Record txList := mk_txList {
  strict : bool;
  txs : txSortedMap;
  costcap : Z;
  gascap : Z
}.

Definition newTxList (strict : bool) : txList := mk_txList strict newTxSortedMap 0 0.
Definition set_txs (l : txList) (m : txSortedMap) : txList := mk_txList (strict l) m (costcap l) (gascap l).

Definition list_Overlaps (l : txList) (tx : Transaction) : bool := bool_decide (is_Some (sorted_Get (txs l) (AccountNonce tx))).

(** Whether the transaction was inserted, and the one it replaced. *)
Definition list_Add (l : txList) (tx : Transaction) (priceBump : Z) : bool * option Transaction * txList :=
  let old := sorted_Get (txs l) (AccountNonce tx) in
  let refused :=
    match old with
    | Some o =>
        let threshold := Z.div (i64 (100 + i64 priceBump) * Price o) 100 in
        bool_decide (Price o >= Price tx \/ Price tx < threshold)
    | None => false
    end in
  if refused then (false, None, l)
  else
    (true, old, mk_txList (strict l) (sorted_Put (txs l) tx) (Z.max (costcap l) (Cost tx)) (Z.max (gascap l) (tx_GasLimit tx))).

Definition list_Forward (l : txList) (threshold : Z) : F (list Transaction * txList) :=
  '(removed, m) ← sorted_Forward (txs l) threshold; run (Ret (removed, set_txs l m)).

Section ListOrder.
Context {O : MapOrder}.

Definition MaxUint64_ : Z := 2 ^ 64 - 1.
Definition lowest_nonce (l : list Transaction) : Z := fold_left (fun lowest tx => if decide (lowest > AccountNonce tx) then AccountNonce tx else lowest) l MaxUint64_.

Definition list_Filter (l : txList) (costLimit gasLimit : Z) : list Transaction * list Transaction * txList :=
  if decide (costcap l <= costLimit /\ gascap l <= gasLimit) then ([], [], l)
  else
    let '(removed, m) := sorted_Filter (txs l) (fun tx => bool_decide (tx_GasLimit tx > gasLimit \/ Cost tx > costLimit)) in
    let l := mk_txList (strict l) m costLimit gasLimit in
    if decide (removed = []) then ([], [], l)
    else
      let '(invalids, m) :=
        if strict l then sorted_filter m (fun tx => bool_decide (AccountNonce tx > lowest_nonce removed)) else ([], m) in
      (removed, invalids, set_txs l (sorted_reheap m)).

Definition list_Cap (l : txList) (threshold : Z) : P (list Transaction * txList) :=
  '(drops, m) ← sorted_Cap (txs l) threshold; Ret (drops, set_txs l m).

Definition list_Remove (l : txList) (tx : Transaction) : P (bool * list Transaction * txList) :=
  let nonce := AccountNonce tx in
  '(removed, m) ← sorted_Remove (txs l) nonce;
  if negb removed then Ret (false, [], set_txs l m)
  else if strict l then
    let '(invalids, m) := sorted_Filter m (fun tx => bool_decide (AccountNonce tx > nonce)) in
    Ret (true, invalids, set_txs l m)
  else Ret (true, [], set_txs l m).

Definition list_Ready (l : txList) (start : Z) : F (list Transaction * txList) :=
  '(ready, m) ← sorted_Ready (txs l) start; run (Ret (ready, set_txs l m)).

Definition list_Len (l : txList) : Z := sorted_Len (txs l).
Definition list_Empty (l : txList) : bool := bool_decide (list_Len l = 0).
Definition list_Flatten (l : txList) : list Transaction * txList := let '(c, m) := sorted_Flatten (txs l) in (c, set_txs l m).
Definition list_LastElement (l : txList) : P (Transaction * txList) := '(tx, m) ← sorted_LastElement (txs l); Ret (tx, set_txs l m).
End ListOrder.
