(* ===== verification/TxListProofs.v ===== *)
(** * The lists of transactions are sorted maps (core/tx_list.go)

    The index of a list is a heap of its nonces, the cache its sorted content.  Every
    operation keeps this, and does on the list in the order of nonces what it says. *)

From stdpp Require Import gmap sorting.
From S2P Require Import Prelude VmPrecompiles BlockTypes GoHeap TxList.

Notation nheap := (heap nonce_less).

Lemma nonce_asym x y : nonce_less x y = true -> nonce_less y x = false.
Proof. unfold nonce_less. rewrite bool_decide_eq_true, bool_decide_eq_false. lia. Qed.

Lemma nonce_trans x y z : nonce_less y x = false -> nonce_less z y = false -> nonce_less z x = false.
Proof. unfold nonce_less. rewrite !bool_decide_eq_false. lia. Qed.

#[local] Hint Resolve nonce_asym nonce_trans : core.

(** ** Transactions in the order of their nonces *)

Definition before (x y : Transaction) : Prop := AccountNonce x < AccountNonce y.
#[global] Instance before_dec : RelDecision before.
Proof. intros x y. unfold before. apply _. Defined.

(** The items of a map, in order. *)
Definition in_order (m : gmap Z Transaction) : list Transaction := merge_sort by_nonce (map_to_list m).*2.

(** Transactions are under their nonces, which are 64 bits wide. *)
Definition keyed (m : gmap Z Transaction) : Prop := map_Forall (fun n tx => AccountNonce tx = n /\ is_u64 n) m.

Lemma keyed_nonce m n tx : keyed m -> m !! n = Some tx -> AccountNonce tx = n.
Proof. intros Hk Hn. by apply Hk. Qed.

#[global] Instance by_nonce_trans : Transitive by_nonce.
Proof. intros x y z. unfold by_nonce. lia. Qed.
#[global] Instance by_nonce_total : Total by_nonce.
Proof. intros x y. unfold by_nonce. lia. Qed.

Lemma values_nonces m : keyed m -> AccountNonce <$> (map_to_list m).*2 = (map_to_list m).*1.
Proof.
  intros Hk. rewrite <- list_fmap_compose. apply list_fmap_ext. intros i [n tx] Hi. cbn. apply (keyed_nonce m); [done|]. apply elem_of_map_to_list. by apply list_elem_of_lookup_2 in Hi.
Qed.

Lemma sorted_strict l : StronglySorted by_nonce l -> NoDup (AccountNonce <$> l) -> StronglySorted before l.
Proof.
  induction 1 as [|x l Hs IH Hf]; intros Hnd; [constructor|]. apply list.NoDup_cons in Hnd as [Hx Hnd]. constructor; [by apply IH|].
  apply Forall_forall. intros y Hy. rewrite Forall_forall in Hf. specialize (Hf y Hy). unfold by_nonce, before in *.
  assert (AccountNonce y <> AccountNonce x); [|lia]. intros E. apply Hx. rewrite <- E. apply list_elem_of_fmap. exists y. split; [done|]. by apply list_elem_of_In.
Qed.

Lemma before_unique l l' : StronglySorted before l -> StronglySorted before l' -> l ≡ₚ l' -> l = l'.
Proof. intros H1 H2 Hp. apply (StronglySorted_unique_strong before); [|done|done|done]. intros x y _ _. unfold before. lia. Qed.

Lemma in_order_perm m : in_order m ≡ₚ (map_to_list m).*2.
Proof. apply merge_sort_Permutation. Qed.

Lemma in_order_sorted m : keyed m -> StronglySorted before (in_order m).
Proof.
  intros Hk. apply sorted_strict; [apply StronglySorted_merge_sort; apply _|]. rewrite in_order_perm, values_nonces by done. apply NoDup_fst_map_to_list.
Qed.

Lemma elem_of_in_order m tx : keyed m -> tx ∈ in_order m <-> m !! AccountNonce tx = Some tx.
Proof.
  intros Hk. rewrite in_order_perm, list_elem_of_fmap. split.
  - intros ([n t] & -> & Ht%elem_of_map_to_list). cbn. by rewrite (keyed_nonce m n t Hk Ht).
  - intros Ht. exists (AccountNonce tx, tx). by rewrite elem_of_map_to_list.
Qed.

Lemma length_in_order m : length (in_order m) = size m.
Proof. rewrite in_order_perm, length_fmap. apply length_map_to_list. Qed.

(** What is sorted and has the elements of a map is the map in order. *)
Lemma in_order_unique m l : keyed m -> StronglySorted before l -> (forall tx, tx ∈ l <-> m !! AccountNonce tx = Some tx) -> l = in_order m.
Proof.
  intros Hk Hs Hl. apply before_unique; [done|by apply in_order_sorted|]. apply NoDup_Permutation.
  - clear Hl. induction Hs as [|x l Hs IH Hf]; constructor; [|done]. rewrite Forall_forall in Hf. intros Hx%list_elem_of_In. specialize (Hf x Hx). unfold before in Hf. lia.
  - apply (NoDup_fmap_1 AccountNonce). rewrite in_order_perm, values_nonces by done. apply NoDup_fst_map_to_list.
  - intros tx. by rewrite Hl, elem_of_in_order.
Qed.

Lemma sorted_filter_before (f : Transaction -> Prop) `{!forall x, Decision (f x)} l : StronglySorted before l -> StronglySorted before (base.filter f l).
Proof.
  induction 1 as [|x l Hs IH Hf]; [constructor|]. rewrite filter_cons. destruct (decide _); [|done]. constructor; [done|]. rewrite Forall_forall in *.
  intros y Hy%list_elem_of_In%list_elem_of_filter. apply Hf. apply list_elem_of_In. tauto.
Qed.

(** In order, a part of a map is a part of the list. *)
Lemma in_order_filter (f : Transaction -> Prop) `{!forall x, Decision (f x)} m :
  keyed m -> in_order (base.filter (fun kv => f kv.2) m) = base.filter f (in_order m).
Proof.
  intros Hk. symmetry. apply in_order_unique.
  - intros n tx [Hn _]%map_lookup_filter_Some. by apply Hk.
  - by apply sorted_filter_before, in_order_sorted.
  - intros tx. rewrite list_elem_of_filter, elem_of_in_order by done. rewrite map_lookup_filter_Some. tauto.
Qed.

(** ** The invariant *)

Record wf_map (m : txSortedMap) : Prop := {
  wf_keyed : keyed (items m);
  wf_heap : nheap (index m);
  wf_index : index m ≡ₚ (map_to_list (items m)).*1;
  wf_cache c : cache m = Some c -> c = in_order (items m)
}.

Lemma wf_new : wf_map newTxSortedMap.
Proof. split; [by intros n tx ?|apply heap_nil|done|done]. Qed.

Lemma keyed_insert m tx : keyed m -> is_u64 (AccountNonce tx) -> keyed (<[AccountNonce tx := tx]> m).
Proof. intros Hk Hu. by apply map_Forall_insert_2. Qed.

Lemma keyed_delete m n : keyed m -> keyed (base.delete n m).
Proof. intros Hk. by apply map_Forall_delete. Qed.

Lemma keyed_filter (f : Z * Transaction -> Prop) `{!forall x, Decision (f x)} m : keyed m -> keyed (base.filter f m).
Proof. intros Hk n tx [Hn _]%map_lookup_filter_Some. by apply Hk. Qed.

Lemma elem_of_index m n : wf_map m -> n ∈ index m <-> is_Some (items m !! n).
Proof.
  intros Hm. rewrite (wf_index m Hm), list_elem_of_fmap. split.
  - intros ([n' tx] & -> & Ht%elem_of_map_to_list). by exists tx.
  - intros [tx Ht]. exists (n, tx). by rewrite elem_of_map_to_list.
Qed.

Lemma NoDup_index m : wf_map m -> NoDup (index m).
Proof. intros Hm. rewrite (wf_index m Hm). apply NoDup_fst_map_to_list. Qed.

Lemma sorted_Put_ok m tx : wf_map m -> is_u64 (AccountNonce tx) -> wf_map (sorted_Put m tx).
Proof.
  intros Hm Hu. unfold sorted_Put. split; cbn; [by apply keyed_insert; [apply wf_keyed|]| | |done]; destruct (items m !! AccountNonce tx) as [old|] eqn:Hn.
  - by apply wf_heap.
  - apply (heap_Push_ok nonce_less nonce_asym nonce_trans), wf_heap, Hm.
  - rewrite (wf_index m Hm). rewrite <- (insert_delete_id (items m) (AccountNonce tx) old Hn) at 1. rewrite <- (insert_delete_eq (items m) (AccountNonce tx) tx).
    by rewrite !map_to_list_insert by apply lookup_delete_eq.
  - rewrite (proj2 (heap_Push_ok nonce_less nonce_asym nonce_trans _ _ (wf_heap m Hm))). rewrite map_to_list_insert by done. cbn. by rewrite (wf_index m Hm).
Qed.

(** Taking the smallest nonce off the index. *)
Lemma pop_index m h n h0 : h = n :: h0 -> nheap h -> h ≡ₚ (map_to_list m).*1 -> keyed m ->
  exists h' tx, heap_Pop nonce_less h = Ret (n, h') /\ m !! n = Some tx /\ nheap h' /\ h' ≡ₚ (map_to_list (base.delete n m)).*1 /\ (forall x, x ∈ (map_to_list m).*1 -> n <= x).
Proof.
  intros -> Hh Hp Hk. destruct (heap_Pop_ok nonce_less nonce_asym nonce_trans (n :: h0) n Hh eq_refl) as (h' & -> & Hp' & Hh').
  assert (n ∈ (map_to_list m).*1) as Hn by (rewrite <- Hp; set_solver). apply list_elem_of_fmap in Hn as ([n' tx] & -> & Ht%elem_of_map_to_list). cbn in *.
  exists h', tx. split; [done|]. split; [done|]. split; [done|]. split.
  - apply (Permutation_cons_inv (a := n')). rewrite <- Hp', Hp. rewrite <- (insert_delete_id m n' tx Ht) at 1. by rewrite map_to_list_insert by apply lookup_delete_eq.
  - intros x Hx. rewrite <- Hp in Hx. pose proof (heap_min nonce_less nonce_asym nonce_trans _ n' Hh eq_refl x Hx) as Hl. unfold nonce_less in Hl. apply bool_decide_eq_false in Hl. lia.
Qed.

Definition lows (t : Z) (m : gmap Z Transaction) : gmap Z Transaction := base.filter (fun kv => kv.1 < t) m.
Definition highs (t : Z) (m : gmap Z Transaction) : gmap Z Transaction := base.filter (fun kv => t <= kv.1) m.

Lemma lookup_lows t m n tx : lows t m !! n = Some tx <-> m !! n = Some tx /\ n < t.
Proof. apply map_lookup_filter_Some. Qed.
Lemma lookup_highs t m n tx : highs t m !! n = Some tx <-> m !! n = Some tx /\ t <= n.
Proof. apply map_lookup_filter_Some. Qed.

(** The first transaction in order. *)
Lemma in_order_first m n tx : keyed m -> m !! n = Some tx -> (forall x, x ∈ (map_to_list m).*1 -> n <= x) -> in_order m = tx :: in_order (base.delete n m).
Proof.
  intros Hk Hn Hmin. assert (AccountNonce tx = n) as Hnn by (by apply Hk). symmetry. apply in_order_unique; [done| |].
  - constructor; [by apply in_order_sorted, keyed_delete|]. apply Forall_forall. intros y Hy%list_elem_of_In. apply elem_of_in_order in Hy; [|by apply keyed_delete].
    apply lookup_delete_Some in Hy as [Hne Hy]. unfold before. assert (AccountNonce y ∈ (map_to_list m).*1) as Hm; [|specialize (Hmin _ Hm); lia].
    apply list_elem_of_fmap. exists (AccountNonce y, y). by rewrite elem_of_map_to_list.
  - intros y. rewrite elem_of_cons, elem_of_in_order by (by apply keyed_delete). rewrite lookup_delete_Some. split.
    + intros [->|[_ ?]]; [by rewrite Hnn|done].
    + intros Hy. destruct (decide (n = AccountNonce y)) as [E|]; [left; congruence|by right].
Qed.

Lemma keys_elem (m : gmap Z Transaction) n : n ∈ (map_to_list m).*1 <-> is_Some (m !! n).
Proof.
  rewrite list_elem_of_fmap. split; [intros ([n' tx] & -> & Ht%elem_of_map_to_list); by exists tx|]. intros [tx Ht]. exists (n, tx). by rewrite elem_of_map_to_list.
Qed.

Lemma lows_none t m : (forall x, x ∈ (map_to_list m).*1 -> t <= x) -> lows t m = ∅ /\ highs t m = m.
Proof.
  intros Hx. split; apply map_eq; intros n; apply option_eq; intros tx; [rewrite lookup_lows, lookup_empty|rewrite lookup_highs]; specialize (Hx n); rewrite keys_elem in Hx.
  - split; [|done]. intros [Hn ?]. specialize (Hx (mk_is_Some _ _ Hn)). lia.
  - split; [naive_solver|]. intros Hn. split; [done|]. by apply Hx, (mk_is_Some _ _ Hn).
Qed.

Lemma in_order_empty : in_order ∅ = [].
Proof. done. Qed.

Lemma lows_delete t m n : lows t (base.delete n m) = base.delete n (lows t m).
Proof. apply map_filter_delete. Qed.

Lemma highs_delete t m n : n < t -> highs t (base.delete n m) = highs t m.
Proof.
  intros Hn. apply map_eq. intros x. apply option_eq. intros tx. rewrite !lookup_highs, lookup_delete_Some. split; [naive_solver|]. intros [? ?]. split; [split; [lia|done]|done].
Qed.

Lemma forward_loop_ok fuel : forall t m h, (length h <= fuel)%nat -> nheap h -> h ≡ₚ (map_to_list m).*1 -> keyed m ->
  exists h', forward_loop fuel t m h = run (Ret (in_order (lows t m), highs t m, h')) /\ nheap h' /\ h' ≡ₚ (map_to_list (highs t m)).*1.
Proof.
  induction fuel as [|fuel IH]; intros t m h Hf Hh Hp Hk.
  - destruct h; [|cbn in Hf; lia]. cbn. destruct (lows_none t m) as [-> ->]; [intros x; rewrite <- Hp; by intros ?%elem_of_nil|]. exists []. split; [done|]. split; [apply heap_nil|done].
  - destruct h as [|n h0]; cbn [forward_loop].
    { destruct (lows_none t m) as [-> ->]; [intros x; rewrite <- Hp; by intros ?%elem_of_nil|]. exists []. split; [done|]. split; [apply heap_nil|done]. }
    destruct (pop_index m (n :: h0) n h0 eq_refl Hh Hp Hk) as (h1 & tx & E & Hn & Hh1 & Hp1 & Hmin). destruct (decide (n < t)) as [Ht|Ht].
    + rewrite E. cbn. unfold item. rewrite Hn. cbn. destruct (IH t (base.delete n m) h1) as (h2 & -> & Hh2 & Hp2); [|done|done|by apply keyed_delete|].
      * apply Permutation_length in Hp, Hp1. rewrite length_fmap, length_map_to_list in Hp, Hp1. rewrite map_size_delete, Hn in Hp1. cbn in Hf, Hp. lia.
      * cbn. rewrite lows_delete, highs_delete in * by done. exists h2. split; [|done]. do 3 f_equal. rewrite (in_order_first (lows t m) n tx); [done|by apply keyed_filter|by rewrite lookup_lows|].
        intros x [y [Hy _]%lookup_lows]%keys_elem. apply Hmin, keys_elem. by exists y.
    + destruct (lows_none t m) as [-> ->]; [intros x Hx; specialize (Hmin x Hx); lia|]. by exists (n :: h0).
Qed.

(** In order, the low nonces come first. *)
Lemma in_order_split t m : keyed m -> in_order m = in_order (lows t m) ++ in_order (highs t m).
Proof.
  intros Hk. symmetry. assert (keyed (lows t m)) as H1 by (by apply keyed_filter). assert (keyed (highs t m)) as H2 by (by apply keyed_filter). apply in_order_unique; [done| |].
  - apply StronglySorted_app_2; [|by apply in_order_sorted..]. intros x y Hx Hy. apply elem_of_in_order in Hx, Hy; [|done..]. apply lookup_lows in Hx. apply lookup_highs in Hy. unfold before. lia.
  - intros tx. rewrite elem_of_app, !elem_of_in_order by done. rewrite lookup_lows, lookup_highs. split; [naive_solver|]. intros Hx. destruct (decide (AccountNonce tx < t)); [left|right]; (split; [done|lia]).
Qed.

Lemma sorted_Forward_ok m t : wf_map m ->
  exists m', sorted_Forward m t = run (Ret (in_order (lows t (items m)), m')) /\ wf_map m' /\ items m' = highs t (items m).
Proof.
  intros Hm. unfold sorted_Forward. destruct (forward_loop_ok (length (index m)) t (items m) (index m)) as (h' & -> & Hh & Hp); [done|by apply wf_heap|by apply wf_index|by apply wf_keyed|]. cbn.
  destruct (cache m) as [c|] eqn:Hc; cbn.
  - rewrite (wf_cache m Hm c Hc), (in_order_split t (items m) (wf_keyed m Hm)), go_from_app. cbn. eexists. split; [done|]. split; [|done]. split; cbn; [by apply keyed_filter, wf_keyed|done|done|by intros ? [= <-]].
  - eexists. split; [done|]. split; [|done]. split; cbn; [by apply keyed_filter, wf_keyed|done|done|done].
Qed.

(** ** Filtering *)

Section Order.
Context {O : MapOrder}.

Lemma range_values (m : gmap Z Transaction) : (map_range m).*1 ≡ₚ (map_to_list m).*1.
Proof. by rewrite map_range_perm. Qed.

Lemma sorted_reheap_ok m : keyed (items m) -> wf_map (sorted_reheap m).
Proof.
  intros Hk. destruct (heap_Init_ok nonce_less nonce_asym nonce_trans (map_range (items m)).*1) as [H1 H2]. split; cbn; [done|done| |done]. by rewrite H2, range_values.
Qed.

(** Deleting what a filter selects. *)
Lemma fold_delete (l : list (Z * Transaction)) (m : gmap Z Transaction) n :
  fold_left (fun m kv => base.delete kv.1 m) l m !! n = if decide (n ∈ l.*1) then None else m !! n.
Proof.
  revert m. induction l as [|[k tx] l IH]; intros m; [done|]. cbn [fold_left]. rewrite IH. cbn. destruct (decide (n ∈ l.*1)) as [Hn|Hn].
  - by rewrite decide_True by set_solver.
  - destruct (decide (n = k)) as [->|Hne]; [rewrite lookup_delete_eq, decide_True; [done|set_solver]|]. rewrite lookup_delete_ne by done. by rewrite decide_False by set_solver.
Qed.

Lemma sorted_filter_ok m f : keyed (items m) ->
  let '(removed, m') := sorted_filter m f in
  keyed (items m') /\ items m' = base.filter (fun kv => f kv.2 = false) (items m) /\
  removed ≡ₚ (map_to_list (base.filter (fun kv => f kv.2 = true) (items m))).*2 /\ (removed = [] -> m' = m).
Proof.
  intros Hk. unfold sorted_filter. set (removed := base.filter _ (map_range (items m))).
  assert (removed ≡ₚ map_to_list (base.filter (fun kv => f kv.2 = true) (items m))) as Hp.
  { unfold removed. rewrite map_range_perm. symmetry. apply NoDup_Permutation; [apply NoDup_map_to_list|apply list.NoDup_filter, NoDup_map_to_list|].
    intros [n tx]. rewrite list_elem_of_filter, !elem_of_map_to_list, map_lookup_filter_Some. cbn. tauto. }
  assert (fold_left (fun m kv => base.delete kv.1 m) removed (items m) = base.filter (fun kv => f kv.2 = false) (items m)) as Hf.
  { apply map_eq. intros n. rewrite fold_delete. apply option_eq. intros tx. rewrite map_lookup_filter_Some. cbn. destruct (decide _) as [Hn|Hn]; rewrite Hp in Hn.
    - split; [done|]. intros [H1 H2]. apply keys_elem in Hn as [tx' [H3 H4]%map_lookup_filter_Some]. cbn in H4. congruence.
    - split; [|tauto]. intros H1. split; [done|]. destruct (f tx) eqn:E; [|done]. destruct Hn. apply keys_elem. exists tx. by apply map_lookup_filter_Some. }
  rewrite Hf. cbn. split; [by apply keyed_filter|]. split; [done|]. split; [by rewrite Hp|]. intros Hnil%fmap_nil_inv. rewrite Hnil in *. rewrite decide_True by done. cbn in Hf. rewrite <- Hf. by destruct m.
Qed.

Lemma sorted_Filter_ok m f : wf_map m ->
  let '(removed, m') := sorted_Filter m f in
  wf_map m' /\ items m' = base.filter (fun kv => f kv.2 = false) (items m) /\ removed ≡ₚ (map_to_list (base.filter (fun kv => f kv.2 = true) (items m))).*2.
Proof.
  intros Hm. unfold sorted_Filter. pose proof (sorted_filter_ok m f (wf_keyed m Hm)) as Hf. destruct (sorted_filter m f) as [removed m']. destruct Hf as (H1 & H2 & H3 & H4).
  destruct (decide _) as [E|]; [rewrite (H4 E) in *|]; (split; [|done]); [done|by apply sorted_reheap_ok].
Qed.
End Order.

(** ** Capping *)

(** The last transaction in order. *)
Lemma in_order_last m l x : keyed m -> in_order m = l ++ [x] -> m !! AccountNonce x = Some x /\ in_order (base.delete (AccountNonce x) m) = l.
Proof.
  intros Hk E. assert (m !! AccountNonce x = Some x) as Hx by (apply elem_of_in_order; [done|rewrite E; set_solver]). split; [done|].
  pose proof (in_order_sorted m Hk) as Hs. rewrite E in Hs. apply StronglySorted_app in Hs as (Hlt & Hs & _). symmetry. apply in_order_unique; [by apply keyed_delete|done|].
  intros tx. rewrite lookup_delete_Some, <- elem_of_in_order by done. rewrite E, elem_of_app, list_elem_of_singleton. split.
  - intros Ht. split; [|by left]. specialize (Hlt tx x Ht ltac:(set_solver)). unfold before in Hlt. lia.
  - intros [Hne [?| ->]]; done.
Qed.

Lemma cap_loop_ok k : forall m l h r, (k <= length l)%nat -> keyed m -> in_order m = l -> h = (AccountNonce <$> l) ++ r ->
  exists m', cap_loop k h (zlen l) m = Ret (rev (drop (length l - k) l), m') /\ keyed m' /\ in_order m' = take (length l - k) l.
Proof.
  induction k as [|k IH]; intros m l h r Hl Hk Ho Hh.
  - exists m. rewrite Nat.sub_0_r, drop_all, firstn_all. done.
  - destruct l as [|x l _] using rev_ind; [cbn in Hl; lia|]. rewrite length_app in Hl. cbn in Hl. destruct (in_order_last m l x Hk Ho) as [Hx Ho'].
    cbn [cap_loop]. rewrite fmap_app, <- app_assoc in Hh. cbn in Hh. replace (zlen (l ++ [x]) - 1) with (zlen l) by zlen_lia.
    rewrite (go_index_at h (zlen l) (AccountNonce x)); [|apply zlen_nonneg|].
    2: { rewrite zlen_to_nat, Hh, lookup_app_r by (rewrite length_fmap; done). by rewrite length_fmap, Nat.sub_diag. }
    cbn. unfold item. rewrite Hx. cbn. destruct (IH (base.delete (AccountNonce x) m) l h (AccountNonce x :: r)) as (m' & -> & Hk' & Ho2); [lia|by apply keyed_delete|done|done|]. cbn.
    exists m'. rewrite length_app. cbn. replace (length l + 1 - S k)%nat with (length l - k)%nat by lia. split; [|split; [done|]].
    + do 2 f_equal. rewrite drop_app_le by lia. by rewrite rev_app_distr.
    + by rewrite take_app_le by lia.
Qed.

Lemma sort_nonces_ok m : wf_map m -> sort_nonces (index m) = AccountNonce <$> in_order (items m).
Proof.
  intros Hm. pose proof (wf_keyed m Hm) as Hk. apply (StronglySorted_unique Z.le).
  - apply StronglySorted_merge_sort; apply _.
  - pose proof (in_order_sorted _ Hk) as Hs. induction Hs as [|x l Hs IH Hf]; cbn; constructor; [done|]. apply Forall_fmap. eapply Forall_impl; [|exact Hf]. intros y. unfold before. cbn. lia.
  - unfold sort_nonces. rewrite merge_sort_Permutation, (wf_index m Hm), in_order_perm. by rewrite values_nonces.
Qed.

Lemma keys_in_order m : keyed m -> AccountNonce <$> in_order m ≡ₚ (map_to_list m).*1.
Proof. intros Hk. by rewrite in_order_perm, values_nonces. Qed.

Lemma go_to_take {E A} (l : list A) t : 0 <= t <= zlen l -> go_to (E:=E) l t = Ret (take (Z.to_nat t) l).
Proof.
  intros Ht. assert (zlen (take (Z.to_nat t) l) = t) as E' by (unfold zlen in *; rewrite length_take; lia).
  rewrite <- (take_drop (Z.to_nat t) l) at 1. rewrite <- E' at 3. apply go_to_app.
Qed.

Lemma sorted_Cap_ok m t : wf_map m -> 0 <= t ->
  exists m', sorted_Cap m t = Ret (rev (drop (Z.to_nat t) (in_order (items m))), m') /\ wf_map m' /\ in_order (items m') = take (Z.to_nat t) (in_order (items m)).
Proof.
  intros Hm Ht. pose proof (wf_keyed m Hm) as Hk. unfold sorted_Cap. set (l := in_order (items m)). assert (Z.of_nat (size (items m)) = zlen l) as Hsz by (unfold zlen, l; by rewrite length_in_order).
  rewrite Hsz. destruct (decide _) as [Hle|Hgt].
  - exists m. rewrite drop_ge, take_ge by (unfold zlen in *; lia). done.
  - rewrite sort_nonces_ok by done. fold l. destruct (cap_loop_ok (Z.to_nat (zlen l - t)) (items m) l (AccountNonce <$> l) []) as (its & -> & Hk' & Ho); [unfold zlen; lia|done|done|by rewrite app_nil_r|].
    replace (length l - Z.to_nat (zlen l - t))%nat with (Z.to_nat t) in * by (unfold zlen in *; lia). cbn.
    rewrite go_to_take by (unfold zlen in *; rewrite length_fmap; lia). cbn. destruct (heap_Init_ok nonce_less nonce_asym nonce_trans (take (Z.to_nat t) (AccountNonce <$> l))) as [H1 H2].
    assert (heap_Init nonce_less (take (Z.to_nat t) (AccountNonce <$> l)) ≡ₚ (map_to_list its).*1) as H3 by (rewrite H2, <- fmap_take, <- Ho; by apply keys_in_order).
    destruct (cache m) as [c|] eqn:Hca; cbn.
    + rewrite (wf_cache m Hm c Hca). fold l. replace (zlen l - zlen (rev (drop (Z.to_nat t) l))) with t by (unfold zlen in *; rewrite length_rev, length_drop; lia).
      rewrite go_to_take by lia. cbn. eexists. split; [done|]. split; [|done]. split; cbn; [done|done|done|by intros ? [= <-]].
    + eexists. split; [done|]. split; [|done]. by split.
Qed.

(** ** Removing *)

Lemma index_of_Some nonce h : nonce ∈ h -> exists i, index_of nonce h = Some i /\ h !! i = Some nonce.
Proof.
  induction h as [|n h IH]; [by intros ?%elem_of_nil|]. intros Hn. cbn. destruct (decide (n = nonce)) as [->|Hne]; [by exists O|].
  destruct IH as (i & -> & Hi); [set_solver|]. by exists (S i).
Qed.

Lemma sorted_Remove_ok m nonce : wf_map m ->
  exists m', sorted_Remove m nonce = Ret (bool_decide (is_Some (items m !! nonce)), m') /\ wf_map m' /\ items m' = base.delete nonce (items m).
Proof.
  intros Hm. unfold sorted_Remove. destruct (items m !! nonce) as [tx|] eqn:Hn; cycle 1.
  { exists m. rewrite bool_decide_false by (by intros [? ?]). split; [done|]. split; [done|]. by rewrite delete_id. }
  rewrite bool_decide_true by done. destruct (index_of_Some nonce (index m)) as (i & -> & Hi); [apply elem_of_index; [done|by exists tx]|].
  destruct (heap_Remove_ok nonce_less nonce_asym nonce_trans (index m) i nonce (wf_heap m Hm) Hi) as (h & -> & Hp & Hh). cbn. eexists. split; [done|]. split; [|done].
  split; cbn; [apply keyed_delete, wf_keyed, Hm|done| |done]. apply (Permutation_cons_inv (a := nonce)). rewrite <- Hp, (wf_index m Hm).
  rewrite <- (insert_delete_id (items m) nonce tx Hn) at 1. by rewrite map_to_list_insert by apply lookup_delete_eq.
Qed.

(** ** Ready transactions *)

(** The longest run of consecutive nonces from [n] at the front of a list, and the rest. *)
Fixpoint run_from (n : Z) (l : list Transaction) : list Transaction * list Transaction :=
  match l with
  | x :: l' => if decide (AccountNonce x = n) then let '(r, rest) := run_from (n + 1) l' in (x :: r, rest) else ([], l)
  | [] => ([], [])
  end.

Lemma run_from_app n l : let '(r, rest) := run_from n l in l = r ++ rest.
Proof.
  revert n. induction l as [|x l IH]; intros n; [done|]. cbn. destruct (decide _); [|done]. specialize (IH (n + 1)). destruct (run_from (n + 1) l) as [r rest]. by rewrite IH.
Qed.

(** What the index shows is the first transaction in order. *)
Lemma index_first m n h0 : h0 = [] \/ (exists h1, h0 = n :: h1) -> nheap h0 -> h0 ≡ₚ (map_to_list m).*1 -> keyed m ->
  match h0 with [] => in_order m = [] | n :: _ => exists tx, m !! n = Some tx /\ in_order m = tx :: in_order (base.delete n m) end.
Proof.
  intros [->|[h1 ->]] Hh Hp Hk.
  - apply Permutation_nil in Hp. apply fmap_nil_inv, map_to_list_empty_iff in Hp as ->. done.
  - destruct (pop_index m (n :: h1) n h1 eq_refl Hh Hp Hk) as (_ & tx & _ & Hn & _ & _ & Hmin). exists tx. split; [done|]. by apply in_order_first.
Qed.

Lemma ready_loop_ok fuel : forall m h next, (length h <= fuel)%nat -> nheap h -> h ≡ₚ (map_to_list m).*1 -> keyed m -> is_u64 next \/ in_order m = [] ->
  exists its h', ready_loop fuel (u64 next) m h = run (Ret ((run_from next (in_order m)).1, its, h')) /\ nheap h' /\ h' ≡ₚ (map_to_list its).*1 /\ keyed its /\
    in_order its = (run_from next (in_order m)).2.
Proof.
  induction fuel as [|fuel IH]; intros m h next Hf Hh Hp Hk Hu.
  - destruct h; [|cbn in Hf; lia]. pose proof (index_first m 0 [] ltac:(by left) Hh Hp Hk) as E. exists m, []. by rewrite E.
  - destruct h as [|n h0]; [pose proof (index_first m 0 [] ltac:(by left) Hh Hp Hk) as E; exists m, []; by rewrite E|].
    destruct (index_first m n (n :: h0) ltac:(right; by exists h0) Hh Hp Hk) as (tx & Hn & Ho). pose proof (keyed_nonce m n tx Hk Hn) as Hnn.
    assert (is_u64 next) as Hu' by (destruct Hu as [?|E]; [done|by rewrite E in Ho]). cbn [ready_loop]. rewrite (u64_id next Hu'), Ho. cbn [run_from]. rewrite Hnn.
    destruct (decide (n = next)) as [<-|Hne]; [|exists m, (n :: h0); by rewrite Ho].
    destruct (pop_index m (n :: h0) n h0 eq_refl Hh Hp Hk) as (h1 & _ & E & _ & Hh1 & Hp1 & _). unfold item. rewrite Hn. cbn. rewrite E. cbn.
    destruct (IH (base.delete n m) h1 (n + 1)) as (its & h2 & -> & Hh2 & Hp2 & Hk2 & Ho2); [|done|done|by apply keyed_delete| |].
    + apply Permutation_length in Hp, Hp1. rewrite length_fmap, length_map_to_list in Hp, Hp1. rewrite map_size_delete, Hn in Hp1. cbn in Hf, Hp. lia.
    + destruct (in_order (base.delete n m)) as [|y l] eqn:Ey; [by right|left]. assert (y ∈ in_order (base.delete n m)) as Hy by (rewrite Ey; set_solver).
      apply elem_of_in_order in Hy; [|by apply keyed_delete]. pose proof (in_order_sorted m Hk) as Hs. rewrite Ho in Hs. apply StronglySorted_inv in Hs as [_ Hs]. apply Forall_inv in Hs.
      apply lookup_delete_Some in Hy as [_ Hy]. destruct (Hk _ _ Hy) as [_ Hyu]. unfold before, is_u64 in *. lia.
    + cbn. destruct (run_from (n + 1) (in_order (base.delete n m))) as [r rest]. by exists its, h2.
Qed.

(** [Ready] on the transactions in order. *)
Definition ready_of (start : Z) (l : list Transaction) : list Transaction * list Transaction :=
  match l with x :: _ => if decide (AccountNonce x > start) then ([], l) else run_from (AccountNonce x) l | [] => ([], []) end.

Lemma ready_of_app start l : l = (ready_of start l).1 ++ (ready_of start l).2.
Proof. unfold ready_of. destruct l as [|x l]; [done|]. destruct (decide _); [done|]. pose proof (run_from_app (AccountNonce x) (x :: l)). by destruct (run_from _ _). Qed.

Lemma sorted_Ready_ok m start : wf_map m ->
  exists m', sorted_Ready m start = run (Ret ((ready_of start (in_order (items m))).1, m')) /\ wf_map m' /\ in_order (items m') = (ready_of start (in_order (items m))).2.
Proof.
  intros Hm. pose proof (wf_keyed m Hm) as Hk. unfold sorted_Ready. destruct (index m) as [|n h0] eqn:Ei.
  - pose proof (index_first (items m) 0 [] ltac:(by left) (heap_nil _) ltac:(rewrite <- Ei; by apply wf_index) Hk) as E. rewrite E. by exists m.
  - assert (nheap (n :: h0)) as Hh by (rewrite <- Ei; by apply wf_heap). assert (n :: h0 ≡ₚ (map_to_list (items m)).*1) as Hp by (rewrite <- Ei; by apply wf_index).
    destruct (index_first (items m) n (n :: h0) ltac:(right; by exists h0) Hh Hp Hk) as (tx & Hn & Ho). destruct (Hk n tx Hn) as [Hnn Hu]. unfold ready_of. rewrite Ho. rewrite Hnn. rewrite <- Ho.
    destruct (decide _); [by exists m|]. destruct (ready_loop_ok (length (n :: h0)) (items m) (n :: h0) n) as (its & h' & E & Hh' & Hp' & Hk' & Ho'); [done|done|done|done|by left|].
    rewrite (u64_id n Hu) in E. rewrite E. cbn [mbind fuelled_bind run]. eexists. split; [done|]. split; [|done]. by split.
Qed.

(** ** Flattening *)

Section FlattenOrder.
Context {O : MapOrder}.

Lemma range_in_order m : keyed m -> merge_sort by_nonce (map_range m).*2 = in_order m.
Proof.
  intros Hk. apply before_unique; [|by apply in_order_sorted|by rewrite merge_sort_Permutation, map_range_perm, in_order_perm].
  apply sorted_strict; [apply StronglySorted_merge_sort; apply _|]. rewrite merge_sort_Permutation, map_range_perm, values_nonces by done. apply NoDup_fst_map_to_list.
Qed.

Lemma sorted_flatten_ok m : wf_map m -> exists m', sorted_flatten m = (in_order (items m), m') /\ wf_map m' /\ items m' = items m.
Proof.
  intros Hm. unfold sorted_flatten. destruct (cache m) as [c|] eqn:Hc; [rewrite (wf_cache m Hm c Hc); by exists m|]. rewrite range_in_order by (by apply wf_keyed).
  eexists. split; [done|]. split; [|done]. split; cbn; [by apply wf_keyed|by apply wf_heap|by apply wf_index|by intros ? [= <-]].
Qed.

Lemma sorted_LastElement_ok m l x : wf_map m -> in_order (items m) = l ++ [x] -> exists m', sorted_LastElement m = Ret (x, m') /\ wf_map m' /\ items m' = items m.
Proof.
  intros Hm Ho. unfold sorted_LastElement. destruct (sorted_flatten_ok m Hm) as (m' & -> & Hm' & Hi). rewrite Ho. replace (zlen (l ++ [x]) - 1) with (zlen l) by zlen_lia.
  rewrite (go_index_at _ (zlen l) x); [by exists m'|apply zlen_nonneg|]. rewrite zlen_to_nat. by apply list_lookup_middle.
Qed.
End FlattenOrder.

(** ** The abstract list *)

Section Refinement.
Context {O : MapOrder}.

Inductive sop :=
| SPut (tx : Transaction)
| SForward (threshold : Z)
| SFilter (f : Transaction -> bool)
| SCap (threshold : Z)
| SRemove (nonce : Z)
| SReady (start : Z)
| SFlatten.

(** The transactions that an operation returns, and the map it leaves. *)
Definition exec_sop (o : sop) (m : txSortedMap) : F (list Transaction * txSortedMap) :=
  match o with
  | SPut tx => run (Ret ([], sorted_Put m tx))
  | SForward t => sorted_Forward m t
  | SFilter f => run (Ret (sorted_Filter m f))
  | SCap t => run (sorted_Cap m t)
  | SRemove n => '(_, m) ← run (sorted_Remove m n); run (Ret ([], m))
  | SReady s => sorted_Ready m s
  | SFlatten => run (Ret (sorted_Flatten m))
  end.

(** The same on the list of transactions in the order of nonces. *)
Definition spec_sop (o : sop) (l : list Transaction) : list Transaction * list Transaction :=
  match o with
  | SPut tx => ([], base.filter (fun x => before x tx) l ++ tx :: base.filter (fun x => before tx x) l)
  | SForward t => (base.filter (fun x => AccountNonce x < t) l, base.filter (fun x => t <= AccountNonce x) l)
  | SFilter f => (base.filter (fun x => f x = true) l, base.filter (fun x => f x = false) l)
  | SCap t => (rev (drop (Z.to_nat t) l), take (Z.to_nat t) l)
  | SRemove n => ([], base.filter (fun x => AccountNonce x <> n) l)
  | SReady s => ready_of s l
  | SFlatten => (l, l)
  end.

Definition sop_ok (o : sop) : Prop := match o with SPut tx => is_u64 (AccountNonce tx) | SCap t => 0 <= t | _ => True end.

Lemma in_order_lows t m : keyed m -> in_order (lows t m) = base.filter (fun x => AccountNonce x < t) (in_order m).
Proof.
  intros Hk. symmetry. apply in_order_unique; [by apply keyed_filter|by apply sorted_filter_before, in_order_sorted|].
  intros x. rewrite list_elem_of_filter, elem_of_in_order, lookup_lows by done. tauto.
Qed.

Lemma in_order_highs t m : keyed m -> in_order (highs t m) = base.filter (fun x => t <= AccountNonce x) (in_order m).
Proof.
  intros Hk. symmetry. apply in_order_unique; [by apply keyed_filter|by apply sorted_filter_before, in_order_sorted|].
  intros x. rewrite list_elem_of_filter, elem_of_in_order, lookup_highs by done. tauto.
Qed.

Lemma in_order_insert m tx : keyed m -> is_u64 (AccountNonce tx) ->
  in_order (<[AccountNonce tx := tx]> m) = base.filter (fun x => before x tx) (in_order m) ++ tx :: base.filter (fun x => before tx x) (in_order m).
Proof.
  intros Hk Hu. symmetry. apply in_order_unique; [by apply keyed_insert| |].
  - apply StronglySorted_app_2.
    + intros x y [Hx _]%list_elem_of_filter [->|[Hy _]%list_elem_of_filter]%elem_of_cons; [done|]. unfold before in *. lia.
    + by apply sorted_filter_before, in_order_sorted.
    + constructor; [by apply sorted_filter_before, in_order_sorted|]. apply Forall_forall. intros y [Hy _]%list_elem_of_In%list_elem_of_filter. done.
  - intros x. rewrite elem_of_app, elem_of_cons, !list_elem_of_filter, !elem_of_in_order by done. unfold before. destruct (decide (AccountNonce tx = AccountNonce x)) as [E|E].
    + rewrite E, lookup_insert_eq. split; [naive_solver lia|]. intros [= ->]. auto.
    + rewrite lookup_insert_ne by done. split; [naive_solver|]. intros Hx. destruct (decide (AccountNonce x < AccountNonce tx)); [by left|right; right; split; [lia|done]].
Qed.

Lemma in_order_delete m n : keyed m -> in_order (base.delete n m) = base.filter (fun x => AccountNonce x <> n) (in_order m).
Proof.
  intros Hk. symmetry. apply in_order_unique; [by apply keyed_delete|by apply sorted_filter_before, in_order_sorted|].
  intros x. rewrite list_elem_of_filter, elem_of_in_order, lookup_delete_Some by done. naive_solver.
Qed.

Lemma exec_sop_ok o m : wf_map m -> sop_ok o ->
  exists r m', exec_sop o m = run (Ret (r, m')) /\ wf_map m' /\ in_order (items m') = (spec_sop o (in_order (items m))).2 /\ r ≡ₚ (spec_sop o (in_order (items m))).1 /\
    (match o with SFilter _ => True | _ => r = (spec_sop o (in_order (items m))).1 end).
Proof.
  intros Hm Ho. pose proof (wf_keyed m Hm) as Hk. destruct o as [tx|t|f|t|n|s|]; cbn [exec_sop spec_sop fst snd] in *.
  - eexists _, _. split; [done|]. split; [by apply sorted_Put_ok|]. split; [by apply in_order_insert|done].
  - destruct (sorted_Forward_ok m t Hm) as (m' & -> & Hm' & Hi). eexists _, m'. split; [done|]. split; [done|]. rewrite Hi. by rewrite in_order_lows, in_order_highs.
  - pose proof (sorted_Filter_ok m f Hm) as Hf. destruct (sorted_Filter m f) as [r m']. destruct Hf as (Hm' & Hi & Hp). eexists r, m'. split; [done|]. split; [done|].
    pose proof (in_order_filter (fun x => f x = false) (items m) Hk) as E1. pose proof (in_order_filter (fun x => f x = true) (items m) Hk) as E2. rewrite Hi, E1, Hp, <- in_order_perm, E2. done.
  - destruct (sorted_Cap_ok m t Hm Ho) as (m' & -> & Hm' & Hi). by eexists _, m'.
  - destruct (sorted_Remove_ok m n Hm) as (m' & -> & Hm' & Hi). eexists _, m'. split; [done|]. split; [done|]. rewrite Hi. split; [by apply in_order_delete|done].
  - destruct (sorted_Ready_ok m s Hm) as (m' & -> & Hm' & Hi). by eexists _, m'.
  - destruct (sorted_flatten_ok m Hm) as (m' & E & Hm' & Hi). unfold sorted_Flatten. rewrite E. eexists _, m'. rewrite Hi. done.
Qed.

(** *** Sequences of operations *)

Fixpoint exec_sops (os : list sop) (m : txSortedMap) : F (list (list Transaction) * txSortedMap) :=
  match os with
  | [] => run (Ret ([], m))
  | o :: os => '(r, m) ← exec_sop o m; '(rs, m) ← exec_sops os m; run (Ret (r :: rs, m))
  end.

Fixpoint spec_sops (os : list sop) (l : list Transaction) : list (list Transaction) * list Transaction :=
  match os with
  | [] => ([], l)
  | o :: os => let '(r, l) := spec_sop o l in let '(rs, l) := spec_sops os l in (r :: rs, l)
  end.

(** [Filter] collects what it removes in the order of the Go map. *)
Definition agrees (o : sop) (r s : list Transaction) : Prop := match o with SFilter _ => r ≡ₚ s | _ => r = s end.

Lemma exec_sops_ok os : forall m, wf_map m -> (forall o, o ∈ os -> sop_ok o) ->
  exists rs m', exec_sops os m = run (Ret (rs, m')) /\ wf_map m' /\ Forall3 agrees os rs (spec_sops os (in_order (items m))).1 /\ in_order (items m') = (spec_sops os (in_order (items m))).2.
Proof.
  induction os as [|o os IH]; intros m Hm Hok; cbn [exec_sops spec_sops]; [eexists _, m; split; [done|]; split; [done|]; split; [constructor|done]|].
  destruct (exec_sop_ok o m Hm (Hok o ltac:(by constructor))) as (r & m1 & -> & H1 & H2 & H3 & H4). cbn [mbind fuelled_bind run]. destruct (IH m1 H1 ltac:(intros; apply Hok; by constructor)) as (rs & m2 & -> & H5 & H6 & H7). cbn [mbind fuelled_bind run].
  exists (r :: rs), m2. split; [done|]. split; [done|]. rewrite H2 in H6, H7. destruct (spec_sop o _) as [s l]. cbn [fst snd] in *. destruct (spec_sops os l) as [ss l']. split; [|done]. constructor; [|done]. by destruct o.
Qed.

(** C25: A sorted map of transactions, whose heap of nonces and whose cache are brought up to
    date step by step, gives after any sequence of [Put], [Forward], [Filter], [Cap],
    [Remove], [Ready] and [Flatten] what a plain list of transactions in the order of
    their nonces gives; no operation panics, and all end. *)
Theorem txSortedMap_refines os : (forall o, o ∈ os -> sop_ok o) ->
  exists rs m, exec_sops os newTxSortedMap = run (Ret (rs, m)) /\ Forall3 agrees os rs (spec_sops os []).1 /\ (sorted_Flatten m).1 = (spec_sops os []).2 /\ sorted_Len m = zlen (spec_sops os []).2.
Proof.
  intros Hok. destruct (exec_sops_ok os newTxSortedMap wf_new Hok) as (rs & m & E & H1 & H2 & H3). change (in_order (items newTxSortedMap)) with (@nil Transaction) in *. exists rs, m. split; [done|]. split; [done|].
  rewrite <- H3. destruct (sorted_flatten_ok m H1) as (m' & Ef & _). unfold sorted_Flatten. rewrite Ef. split; [done|]. unfold sorted_Len, zlen. by rewrite length_in_order.
Qed.
End Refinement.

Module SortedExample.

#[local] Instance range_order : MapOrder := {| map_range := fun A m => map_to_list m; map_range_perm := fun A m => reflexivity _ |}.

Definition nth_tx (n : Z) : Transaction := mk_Transaction n 1 21000 None 0 [] 27 1 1 0.
Definition steps : list sop := [SPut (nth_tx 4); SPut (nth_tx 2); SPut (nth_tx 3); SPut (nth_tx 7); SFlatten; SPut (nth_tx 5); SForward 3; SCap 3; SReady 3].

Lemma txSortedMap_refines_witness : exists rs m, exec_sops steps newTxSortedMap = run (Ret (rs, m)) /\ rs !! 8%nat = Some [nth_tx 3; nth_tx 4; nth_tx 5] /\ sorted_Len m = 0.
Proof.
  destruct (txSortedMap_refines steps) as (rs & m & E & _ & _ & H).
  - apply list.Forall_forall. repeat constructor; vm_compute; done.
  - exists rs, m. split; [exact E|]. split; [|exact H]. vm_compute in E. by injection E as <- <-.
Defined.
End SortedExample.

(** ** The lists of an account *)

Definition litems (l : txList) : gmap Z Transaction := items (txs l).
(** The transactions of a list, in the order of nonces. *)
Definition listed (l : txList) : list Transaction := in_order (litems l).

(** The caps bound what is in the list. *)
Record wf_list (l : txList) : Prop := {
  wl_map : wf_map (txs l);
  wl_cost : forall tx, tx ∈ listed l -> Cost tx <= costcap l;
  wl_gas : forall tx, tx ∈ listed l -> tx_GasLimit tx <= gascap l
}.

Lemma wl_keyed l : wf_list l -> keyed (litems l).
Proof. intros Hl. apply wf_keyed, wl_map, Hl. Qed.
#[export] Hint Resolve wl_keyed wl_map : core.

Lemma elem_of_listed l tx : wf_list l -> tx ∈ listed l <-> litems l !! AccountNonce tx = Some tx.
Proof. intros Hl. apply elem_of_in_order. auto. Qed.

Lemma wf_newTxList b : wf_list (newTxList b).
Proof. split; [apply wf_new|by intros tx ?%elem_of_nil..]. Qed.

(** A list of fewer transactions under the same caps. *)
Lemma wf_set_txs l m : wf_list l -> wf_map m -> (forall tx, tx ∈ in_order (items m) -> tx ∈ listed l) -> wf_list (set_txs l m).
Proof. intros Hl Hm Hs. split; [done|..]; intros tx Ht; [apply (wl_cost l Hl)|apply (wl_gas l Hl)]; by apply Hs. Qed.

Lemma list_Overlaps_true l tx : list_Overlaps l tx = true <-> is_Some (litems l !! AccountNonce tx).
Proof. apply bool_decide_eq_true. Qed.

(** A transaction replaces one of its nonce for a price that is higher, and higher by the bump. *)
Definition outbids (priceBump : Z) (old tx : Transaction) : Prop :=
  Price old < Price tx /\ i64 (100 + i64 priceBump) * Price old / 100 <= Price tx.

Lemma in_order_put m tx : keyed m -> is_u64 (AccountNonce tx) -> m !! AccountNonce tx = None -> in_order (<[AccountNonce tx := tx]> m) ≡ₚ tx :: in_order m.
Proof. intros Hk Hu Hn. by rewrite !in_order_perm, map_to_list_insert. Qed.

Lemma in_order_take m n tx : keyed m -> m !! n = Some tx -> in_order m ≡ₚ tx :: in_order (base.delete n m).
Proof. intros Hk Hn. rewrite !in_order_perm. by rewrite <- (map_to_list_delete m n tx). Qed.

Lemma in_order_replace m tx old : keyed m -> is_u64 (AccountNonce tx) -> m !! AccountNonce tx = Some old -> old :: in_order (<[AccountNonce tx := tx]> m) ≡ₚ tx :: in_order m.
Proof.
  intros Hk Hu Hn. rewrite (in_order_take m _ old Hk Hn), (in_order_take (<[AccountNonce tx := tx]> m) (AccountNonce tx) tx); [|by apply keyed_insert|apply lookup_insert_eq].
  rewrite delete_insert_eq. apply perm_swap.
Qed.

Lemma wf_put l tx : wf_list l -> is_u64 (AccountNonce tx) ->
  wf_list (mk_txList (strict l) (sorted_Put (txs l) tx) (Z.max (costcap l) (Cost tx)) (Z.max (gascap l) (tx_GasLimit tx))).
Proof.
  intros Hl Hu. pose proof (sorted_Put_ok (txs l) tx (wl_map l Hl) Hu) as Hm. split; [done|..]; intros x Hx; cbn in *;
    apply elem_of_in_order in Hx; [|by apply wf_keyed in Hm| |by apply wf_keyed in Hm]; cbn in Hx;
    (destruct (decide (AccountNonce tx = AccountNonce x)) as [E|E]; [rewrite E, lookup_insert_eq in Hx; injection Hx as ->; lia|]);
    rewrite lookup_insert_ne in Hx by done; apply (elem_of_listed l) in Hx; [|done| |done].
  - pose proof (wl_cost l Hl x Hx). lia.
  - pose proof (wl_gas l Hl x Hx). lia.
Qed.

(** [Add]: the transaction goes in unless there is a better one of its nonce. *)
Lemma list_Add_ok l tx bump : wf_list l -> is_u64 (AccountNonce tx) ->
  match litems l !! AccountNonce tx with
  | None => exists l', list_Add l tx bump = (true, None, l') /\ wf_list l' /\ strict l' = strict l /\ litems l' = <[AccountNonce tx := tx]> (litems l)
  | Some old =>
      (~ outbids bump old tx /\ list_Add l tx bump = (false, None, l)) \/
      (outbids bump old tx /\ exists l', list_Add l tx bump = (true, Some old, l') /\ wf_list l' /\ strict l' = strict l /\ litems l' = <[AccountNonce tx := tx]> (litems l))
  end.
Proof.
  intros Hl Hu. unfold list_Add, sorted_Get. change (items (txs l)) with (litems l). pose proof (wf_put l tx Hl Hu) as Hw. destruct (litems l !! AccountNonce tx) as [old|]; [|by eexists].
  unfold outbids. cbv zeta. case_bool_decide; [left; split; [lia|done]|right; split; [lia|by eexists]].
Qed.

Lemma list_Forward_ok l t : wf_list l ->
  exists l', list_Forward l t = run (Ret (in_order (lows t (litems l)), l')) /\ wf_list l' /\ strict l' = strict l /\ litems l' = highs t (litems l).
Proof.
  intros Hl. unfold list_Forward. destruct (sorted_Forward_ok (txs l) t (wl_map l Hl)) as (m & -> & Hm & Hi). eexists. split; [done|]. split; [|done].
  apply wf_set_txs; [done|done|]. intros tx. rewrite Hi. fold (litems l). rewrite in_order_highs by auto. intros [_ Ht]%list_elem_of_filter. done.
Qed.

Lemma list_Cap_ok l t : wf_list l -> 0 <= t ->
  exists l', list_Cap l t = Ret (rev (drop (Z.to_nat t) (listed l)), l') /\ wf_list l' /\ strict l' = strict l /\ listed l' = take (Z.to_nat t) (listed l).
Proof.
  intros Hl Ht. unfold list_Cap. destruct (sorted_Cap_ok (txs l) t (wl_map l Hl) Ht) as (m & -> & Hm & Hi). eexists. split; [done|]. split; [|done].
  apply wf_set_txs; [done|done|]. intros tx. rewrite Hi. intros Hx. rewrite <- (take_drop (Z.to_nat t) (listed l)). apply elem_of_app. by left.
Qed.

Lemma list_Ready_ok l start : wf_list l ->
  exists l', list_Ready l start = run (Ret ((ready_of start (listed l)).1, l')) /\ wf_list l' /\ strict l' = strict l /\ listed l' = (ready_of start (listed l)).2.
Proof.
  intros Hl. unfold list_Ready. destruct (sorted_Ready_ok (txs l) start (wl_map l Hl)) as (m & -> & Hm & Hi). eexists. split; [done|]. split; [|done].
  apply wf_set_txs; [done|done|]. intros tx. rewrite Hi. fold (litems l). fold (listed l). intros Ht. pose proof (ready_of_app start (listed l)) as E. rewrite E. set_solver.
Qed.

Section ListOrder.
Context {O : MapOrder}.

(** What a filter leaves and what it takes. *)
Lemma filter_perm (f : Transaction -> bool) m removed : keyed m -> removed ≡ₚ (map_to_list (base.filter (fun kv => f kv.2 = true) m)).*2 ->
  removed ++ in_order (base.filter (fun kv => f kv.2 = false) m) ≡ₚ in_order m.
Proof.
  intros Hk ->. rewrite <- in_order_perm. pose proof (in_order_filter (fun x => f x = true) m Hk) as ->. pose proof (in_order_filter (fun x => f x = false) m Hk) as ->.
  rewrite <- (filter_app_complement (fun x => f x = true) (in_order m)) at 3. apply Permutation_app_head. apply reflexive_eq, list_filter_iff. intros x. by destruct (f x).
Qed.

Lemma lowest_nonce_ok l : (forall tx, tx ∈ l -> is_u64 (AccountNonce tx)) -> l <> [] ->
  (exists x, x ∈ l /\ AccountNonce x = lowest_nonce l) /\ (forall tx, tx ∈ l -> lowest_nonce l <= AccountNonce tx).
Proof.
  unfold lowest_nonce. assert (forall l a, (forall tx, tx ∈ l -> is_u64 (AccountNonce tx)) ->
    let r := fold_left (fun lowest tx => if decide (lowest > AccountNonce tx) then AccountNonce tx else lowest) l a in
    (r = a \/ exists x, x ∈ l /\ AccountNonce x = r) /\ r <= a /\ (forall tx, tx ∈ l -> r <= AccountNonce tx)) as Hg.
  { clear l. induction l as [|x l IH]; intros a Hu; cbn; [split; [by left|split; [lia|by intros ? ?%elem_of_nil]]|].
    destruct (IH (if decide (a > AccountNonce x) then AccountNonce x else a)) as (H1 & H2 & H3); [intros; apply Hu; set_solver|]. split; [|split].
    - destruct H1 as [->|(y & Hy & Ey)]; [destruct (decide _); [right; exists x; set_solver|by left]|right; exists y; split; [set_solver|done]].
    - destruct (decide _); lia.
    - intros tx [->|Ht]%elem_of_cons; [destruct (decide _); lia|by apply H3]. }
  intros Hu Hl. destruct (Hg l MaxUint64_ Hu) as (H1 & H2 & H3). split; [|done]. destruct H1 as [E|?]; [|done].
  destruct l as [|x l]; [done|]. exists x. split; [set_solver|]. specialize (H3 x ltac:(set_solver)). specialize (Hu x ltac:(set_solver)). unfold is_u64, MaxUint64_ in *. lia.
Qed.

Lemma listed_u64 l tx : wf_list l -> tx ∈ listed l -> is_u64 (AccountNonce tx).
Proof. intros Hl Ht%elem_of_listed; [|done]. by apply (wl_keyed l Hl) in Ht as [_ ?]. Qed.

Definition affordable (costLimit gasLimit : Z) (tx : Transaction) : Prop := Cost tx <= costLimit /\ tx_GasLimit tx <= gasLimit.

(** What [Filter] takes out and leaves: in a strict list nothing stays behind what was taken. *)
Record filtered (costLimit gasLimit : Z) (l : txList) (removed invalids : list Transaction) (l' : txList) : Prop := {
  fl_wf : wf_list l';
  fl_strict : strict l' = strict l;
  fl_perm : removed ++ invalids ++ listed l' ≡ₚ listed l;
  fl_kept : forall tx, tx ∈ listed l' -> affordable costLimit gasLimit tx;
  fl_removed : forall tx, tx ∈ removed -> ~ affordable costLimit gasLimit tx;
  fl_invalids : forall tx, tx ∈ invalids -> affordable costLimit gasLimit tx /\ strict l = true /\ exists y, y ∈ removed /\ AccountNonce y < AccountNonce tx;
  fl_front : strict l = true -> forall x y, x ∈ listed l' -> y ∈ removed -> AccountNonce x < AccountNonce y
}.

Lemma affordable_test c g tx : affordable c g tx <-> bool_decide (tx_GasLimit tx > g \/ Cost tx > c) = false.
Proof. rewrite bool_decide_eq_false. unfold affordable. lia. Qed.

(** The second pass of a strict list. *)
Lemma strict_pass c g l removed m1 : wf_list l -> wf_map m1 -> removed <> [] -> removed ++ in_order (items m1) ≡ₚ listed l ->
  (forall tx, tx ∈ in_order (items m1) -> affordable c g tx) -> (forall tx, tx ∈ removed -> ~ affordable c g tx) -> strict l = true ->
  let '(invalids, m) := sorted_filter m1 (fun tx => bool_decide (AccountNonce tx > lowest_nonce removed)) in
  filtered c g l removed invalids (mk_txList true (sorted_reheap m) c g).
Proof.
  intros Hl Hm Hne Hp Hk Hr Hs. pose proof (wf_keyed m1 Hm) as Hk1. pose proof (sorted_filter_ok m1 (fun tx => bool_decide (AccountNonce tx > lowest_nonce removed)) Hk1) as Hf.
  destruct (sorted_filter m1 _) as [invalids m2]. destruct Hf as (Hk2 & Hi & Hv & _). pose proof (filter_perm (fun tx => bool_decide (AccountNonce tx > lowest_nonce removed)) _ _ Hk1 Hv) as Hp2.
  destruct (lowest_nonce_ok removed) as [(y & Hy & Ey) Hlow]; [intros tx Ht; apply (listed_u64 l); [done|rewrite <- Hp; set_solver]|done|].
  pose proof (in_order_filter (fun tx => bool_decide (AccountNonce tx > lowest_nonce removed) = true) _ Hk1) as E1. pose proof (in_order_filter (fun tx => bool_decide (AccountNonce tx > lowest_nonce removed) = false) _ Hk1) as E2. cbv beta in E1, E2.
  assert (listed (mk_txList true (sorted_reheap m2) c g) = in_order (base.filter (fun kv => bool_decide (AccountNonce kv.2 > lowest_nonce removed) = false) (items m1))) as El by (unfold listed, litems; cbn; by rewrite Hi).
  assert (forall tx, tx ∈ listed (mk_txList true (sorted_reheap m2) c g) -> affordable c g tx /\ AccountNonce tx <= lowest_nonce removed /\ tx ∈ listed l) as Hkept.
  { intros tx. rewrite El, E2. intros [Ht%bool_decide_eq_false Hin]%list_elem_of_filter. split; [by apply Hk|]. split; [lia|]. rewrite <- Hp. set_solver. }
  split.
  - split; [by apply sorted_reheap_ok|intros tx Ht; by apply Hkept..].
  - done.
  - by rewrite El, Hp2.
  - intros tx Ht. by apply Hkept.
  - done.
  - intros tx. rewrite Hv, <- in_order_perm, E1. intros [Ht%bool_decide_eq_true Hin]%list_elem_of_filter. split; [by apply Hk|]. split; [done|]. exists y. split; [done|lia].
  - intros _ x z (Hx1 & Hx2 & Hx)%Hkept Hz. pose proof (Hlow z Hz). destruct (decide (AccountNonce x = AccountNonce z)) as [E|]; [|lia].
    assert (z ∈ listed l) as Hz' by (rewrite <- Hp; set_solver). apply elem_of_listed in Hx, Hz'; [|done..]. rewrite E, Hz' in Hx. injection Hx as ->. by destruct (Hr x Hz).
Qed.

Lemma list_Filter_ok c g l : wf_list l ->
  let '(removed, invalids, l') := list_Filter l c g in filtered c g l removed invalids l'.
Proof.
  intros Hl. unfold list_Filter. destruct (decide (costcap l <= c /\ gascap l <= g)) as [Hcap|_].
  { split; [done|done|done| |by intros ? ?%elem_of_nil..|by intros _ ? ? _ ?%elem_of_nil]. intros tx Ht. pose proof (wl_cost l Hl tx Ht). pose proof (wl_gas l Hl tx Ht). unfold affordable. lia. }
  pose proof (sorted_Filter_ok (txs l) (fun tx => bool_decide (tx_GasLimit tx > g \/ Cost tx > c)) (wl_map l Hl)) as Hf. destruct (sorted_Filter (txs l) _) as [removed m1]. destruct Hf as (Hm1 & Hi & Hr).
  pose proof (wl_keyed l Hl) as Hk. pose proof (filter_perm (fun tx => bool_decide (tx_GasLimit tx > g \/ Cost tx > c)) _ _ Hk Hr) as Hp. unfold litems in Hp. cbv beta in Hp. rewrite <- Hi in Hp. fold (litems l) (listed l) in Hp.
  assert (forall tx, tx ∈ in_order (items m1) -> affordable c g tx) as Hkept.
  { intros tx Ht%elem_of_in_order; [|by apply wf_keyed]. rewrite Hi in Ht. apply map_lookup_filter_Some in Ht as [_ Ht]. by apply affordable_test. }
  assert (forall tx, tx ∈ removed -> ~ affordable c g tx) as Hrem.
  { intros tx. rewrite Hr. intros ([n x] & -> & Hx%elem_of_map_to_list)%list_elem_of_fmap. apply map_lookup_filter_Some in Hx as [_ Hx]. rewrite affordable_test. cbn in *. congruence. }
  assert (wf_list (mk_txList (strict l) m1 c g)) as Hw by (split; [done|intros tx Ht; by apply Hkept..]).
  cbn [strict]. destruct (decide (removed = [])) as [->|Hne].
  { split; [done|done|done|done|done|by intros ? ?%elem_of_nil|by intros _ ? ? _ ?%elem_of_nil]. }
  destruct (strict l) eqn:Hs; [pose proof (strict_pass c g l removed m1 Hl Hm1 Hne Hp Hkept Hrem Hs) as Hx; by destruct (sorted_filter m1 _)|].
  split; [|done|done|done|done|by intros ? ?%elem_of_nil|intros; congruence]. split; [apply sorted_reheap_ok, wf_keyed, Hm1|intros tx Ht; by apply Hkept..].
Qed.

Lemma list_Remove_None l tx : litems l !! AccountNonce tx = None -> list_Remove l tx = Ret (false, [], l).
Proof. intros Hn. unfold list_Remove, sorted_Remove. unfold litems in Hn. rewrite Hn. by destruct l. Qed.

Lemma list_Remove_ok l tx x : wf_list l -> litems l !! AccountNonce tx = Some x ->
  exists invalids l', list_Remove l tx = Ret (true, invalids, l') /\ wf_list l' /\ strict l' = strict l /\ x :: invalids ++ listed l' ≡ₚ listed l /\
    (forall y, y ∈ invalids -> strict l = true /\ AccountNonce tx < AccountNonce y) /\ (strict l = true -> forall y, y ∈ listed l' -> AccountNonce y < AccountNonce tx).
Proof.
  intros Hl Hx. pose proof (wl_keyed l Hl) as Hk. unfold list_Remove. destruct (sorted_Remove_ok (txs l) (AccountNonce tx) (wl_map l Hl)) as (m1 & -> & Hm1 & Hi).
  fold (litems l) in Hi |- *. rewrite bool_decide_eq_true_2 by (by eexists). cbn [mbind outcome_bind negb]. pose proof (in_order_take _ _ _ Hk Hx) as Hp. rewrite <- Hi in Hp. destruct (strict l) eqn:Hs; cycle 1.
  { eexists [], _. split; [done|]. split; [|split; [done|split; [by rewrite Hp|split; [by intros ? ?%elem_of_nil|done]]]]. apply wf_set_txs; [done|done|]. intros y Hy. unfold listed. rewrite Hp. by constructor. }
  pose proof (sorted_Filter_ok m1 (fun y => bool_decide (AccountNonce y > AccountNonce tx)) Hm1) as Hf. destruct (sorted_Filter m1 _) as [inv m2]. destruct Hf as (Hm2 & Hi2 & Hv).
  pose proof (filter_perm (fun y => bool_decide (AccountNonce y > AccountNonce tx)) _ _ (wf_keyed _ Hm1) Hv) as Hp2. cbv beta in Hp2. rewrite <- Hi2 in Hp2.
  exists inv, (set_txs l m2). split; [done|]. split; [|split; [done|split; [|split]]].
  - apply wf_set_txs; [done|done|]. intros y Hy. unfold listed. rewrite Hp, <- Hp2. set_solver.
  - unfold listed. rewrite Hp, <- Hp2. done.
  - intros y. rewrite Hv. intros ([n z] & -> & Hz%elem_of_map_to_list)%list_elem_of_fmap. apply map_lookup_filter_Some in Hz as [_ Hz%bool_decide_eq_true]. cbn in *. split; [done|lia].
  - intros _ y Hy. unfold listed, litems in Hy. cbn in Hy. apply elem_of_in_order in Hy; [|by apply wf_keyed]. rewrite Hi2 in Hy. apply map_lookup_filter_Some in Hy as [Hy Hb%bool_decide_eq_false]. cbn in Hb.
    rewrite Hi in Hy. apply lookup_delete_Some in Hy as [? _]. lia.
Qed.

Lemma list_Flatten_ok l : wf_list l -> exists l', list_Flatten l = (listed l, l') /\ wf_list l' /\ strict l' = strict l /\ litems l' = litems l.
Proof.
  intros Hl. unfold list_Flatten, sorted_Flatten. destruct (sorted_flatten_ok (txs l) (wl_map l Hl)) as (m & -> & Hm & Hi). eexists. split; [done|]. split; [|done].
  apply wf_set_txs; [done|done|]. intros tx. by rewrite Hi.
Qed.

Lemma list_LastElement_ok l r x : wf_list l -> listed l = r ++ [x] -> exists l', list_LastElement l = Ret (x, l') /\ wf_list l' /\ strict l' = strict l /\ litems l' = litems l.
Proof.
  intros Hl Hr. unfold list_LastElement. destruct (sorted_LastElement_ok (txs l) r x (wl_map l Hl) Hr) as (m & -> & Hm & Hi). eexists. split; [done|]. split; [|done].
  apply wf_set_txs; [done|done|]. intros tx. by rewrite Hi.
Qed.

Lemma list_Len_eq l : list_Len l = zlen (listed l).
Proof. unfold list_Len, sorted_Len, zlen, listed. by rewrite length_in_order. Qed.

Lemma list_Empty_true l : list_Empty l = true <-> listed l = [].
Proof. unfold list_Empty. rewrite bool_decide_eq_true, list_Len_eq. unfold zlen. split; [|by intros ->]. destruct (listed l); [done|cbn; lia]. Qed.
End ListOrder.

(** ** Parts of a list *)

Lemma listed_NoDup l : wf_list l -> NoDup (AccountNonce <$> listed l).
Proof. intros Hl. unfold listed. rewrite keys_in_order by auto. apply NoDup_fst_map_to_list. Qed.

Lemma lookup_listed l n : wf_list l -> is_Some (litems l !! n) <-> exists tx, tx ∈ listed l /\ AccountNonce tx = n.
Proof.
  intros Hl. split.
  - intros [tx Ht]. pose proof (keyed_nonce _ _ _ (wl_keyed l Hl) Ht) as E. exists tx. split; [|done]. apply elem_of_listed; [done|]. by rewrite E.
  - intros (tx & Ht%elem_of_listed & <-); [by eexists|done].
Qed.

(** The nonces of what is taken out and of what stays are different. *)
Lemma split_nonces l l' r : wf_list l -> r ++ listed l' ≡ₚ listed l -> NoDup (AccountNonce <$> r) /\ forall x y, x ∈ r -> y ∈ listed l' -> AccountNonce x <> AccountNonce y.
Proof.
  intros Hl Hp. pose proof (listed_NoDup l Hl) as Hn. rewrite <- Hp, fmap_app in Hn. apply list.NoDup_app in Hn as (Hr & Hd & _). split; [done|].
  intros x y Hx Hy E. apply (Hd (AccountNonce x)); [by apply list_elem_of_fmap_2|]. rewrite E. by apply list_elem_of_fmap_2.
Qed.
