(* ===== verification/TxSigning.v ===== *)
(** * Signatures of transactions (core/types/transaction_signing.go)

    The signers of the three rule sets, the recovery of the sender of a transaction and
    the chain id that protects it from a replay on another chain.  The curve and the
    hash are those of [Crypto]. *)

From stdpp Require Import gmap.
From S2P Require Import Prelude Rlp RlpEncode VmGas VmPrecompiles VmPrecompileProofs BlockTypes EthashAlgoProofs TxList.

Inductive sign_err := ErrInvalidSig | ErrInvalidChainId | ErrRecover | ErrInvalidPublicKey.

(** [EIP155Signer] has a chain id: that of [NewEIP155Signer], with zero for nil. *)
Inductive Signer := FrontierSigner | HomesteadSigner | EIP155Signer (chainId : Z).

(** [big.Int.Uint64] takes the low bits of the absolute value. *)
Definition big_Uint64 (x : Z) : Z := u64 (Z.abs x).

Definition isProtectedV (V : Z) : bool :=
  if decide (RlpEncode.BitLen V <= 8) then negb (bool_decide (big_Uint64 V = 27)) && negb (bool_decide (big_Uint64 V = 28)) else true.

Definition deriveChainId (v : Z) : Z :=
  if decide (RlpEncode.BitLen v <= 64) then
    let v := big_Uint64 v in
    if decide (v = 27 \/ v = 28) then 0 else u64 (v - 35) / 2
  else (v - 35) / 2.

Definition Protected (tx : Transaction) : bool := isProtectedV (tx_V tx).
Definition ChainId (tx : Transaction) : Z := deriveChainId (tx_V tx).

Section Signers.
Context {C : Crypto}.

(** The fields that are signed. *)
Definition plain_fields (tx : Transaction) : list val :=
  [UintV (AccountNonce tx); BigPtrV (Some (Price tx)); UintV (tx_GasLimit tx); PtrV String (Types.address_val <$> Recipient tx);
    BigPtrV (Some (Amount tx)); BytesV (Payload tx)].

Definition signer_Hash (s : Signer) (tx : Transaction) : Z :=
  match s with
  | FrontierSigner | HomesteadSigner => Types.rlpHash (SliceV false (map (fun v => IfaceV (Some v)) (plain_fields tx)))
  | EIP155Signer chainId => Types.rlpHash (SliceV false (map (fun v => IfaceV (Some v)) (plain_fields tx ++ [BigPtrV (Some chainId); UintV 0; UintV 0])))
  end.

(** [copy(sig[32-len(b):32], b)] into zeros. *)
Definition copy_right (b : bytes) : outcome sign_err bytes := if decide (32 < zlen b) then Panic else Ret (LeftPadBytes b 32).

Definition recoverPlain (sighash R S Vb : Z) (homestead : bool) : outcome sign_err Z :=
  if decide (RlpEncode.BitLen Vb > 8) then Err ErrInvalidSig
  else
    let V := u8 (u64 (big_Uint64 Vb - 27)) in
    if negb (ValidateSignatureValues V R S homestead) then Err ErrInvalidSig
    else
      r ← copy_right (big_bytes R);
      s ← copy_right (big_bytes S);
      match Ecrecover (be_bytes 32 sighash) (r ++ s ++ [V]) with
      | None => Err ErrRecover
      | Some pub =>
          match pub with
          | [] => Err ErrInvalidPublicKey
          | p0 :: rest =>
              if decide (p0 <> 4) then Err ErrInvalidPublicKey
              else a ← go_from (Keccak256 rest) 12; Ret (be_to_Z a)
          end
      end.

Definition signer_Sender (s : Signer) (tx : Transaction) : outcome sign_err Z :=
  match s with
  | FrontierSigner => recoverPlain (signer_Hash s tx) (tx_R tx) (tx_S tx) (tx_V tx) false
  | HomesteadSigner => recoverPlain (signer_Hash s tx) (tx_R tx) (tx_S tx) (tx_V tx) true
  | EIP155Signer chainId =>
      if negb (Protected tx) then recoverPlain (signer_Hash HomesteadSigner tx) (tx_R tx) (tx_S tx) (tx_V tx) true
      else if decide (ChainId tx <> chainId) then Err ErrInvalidChainId
      else recoverPlain (signer_Hash s tx) (tx_R tx) (tx_S tx) (tx_V tx - 2 * chainId - 8) true
  end.

(** [types.Sender]. The cached sender is that of the same signer. *)
Definition Sender (s : Signer) (tx : Transaction) : option Z := match signer_Sender s tx with Ret a => Some a | _ => None end.

Definition SignatureValues (s : Signer) (sig : bytes) : outcome sign_err (Z * Z * Z) :=
  if decide (zlen sig <> 65) then Panic
  else
    r ← go_to sig 32;
    sb ← go_slice sig 32 64;
    v ← go_index sig 64;
    match s with
    | EIP155Signer chainId => Ret (be_to_Z r, be_to_Z sb, if decide (chainId <> 0) then u8 (v + 35) + 2 * chainId else u8 (v + 27))
    | _ => Ret (be_to_Z r, be_to_Z sb, u8 (v + 27))
    end.

Definition WithSignature (s : Signer) (tx : Transaction) (sig : bytes) : outcome sign_err Transaction :=
  '(r, sv, v) ← SignatureValues s sig;
  Ret (mk_Transaction (AccountNonce tx) (Price tx) (tx_GasLimit tx) (Recipient tx) (Amount tx) (Payload tx) v r sv (tx_time tx)).

(** ** Round trip *)

(** The address of a public key. *)
Definition address_of (pub : bytes) : Z := be_to_Z (drop 12 (Keccak256 (drop 1 pub))).

(** A signature of 65 bytes that the rules of Homestead accept. *)
Record good_sig (rb sb : bytes) (v : Z) : Prop := {
  gs_r : bytes_ok rb /\ zlen rb = 32;
  gs_s : bytes_ok sb /\ zlen sb = 32;
  gs_v : v = 0 \/ v = 1;
  gs_ok : ValidateSignatureValues v (be_to_Z rb) (be_to_Z sb) true = true
}.

Lemma SignatureValues_eq s rb sb v : good_sig rb sb v ->
  SignatureValues s (rb ++ sb ++ [v]) = Ret (be_to_Z rb, be_to_Z sb, match s with EIP155Signer c => if decide (c <> 0) then v + 35 + 2 * c else v + 27 | _ => v + 27 end).
Proof.
  intros [[_ Hr] [_ Hs] Hv _]. unfold SignatureValues. rewrite decide_False by (autorewrite with zlen; lia).
  pose proof (go_to_app (E := sign_err) rb (sb ++ [v])) as E1. rewrite Hr in E1. pose proof (go_slice_app (E := sign_err) rb sb [v]) as E2. rewrite Hr, Hs in E2. change (32 + 32) with 64 in E2.
  assert (go_index (E := sign_err) (rb ++ sb ++ [v]) 64 = Ret v) as E3.
  { apply go_index_at; [lia|]. unfold zlen in *. rewrite lookup_app_r, lookup_app_r by lia. by replace (Z.to_nat 64 - length rb - length sb)%nat with O by lia. }
  rewrite E1, E2, E3. cbn [mbind outcome_bind]. rewrite !u8_small by (unfold is_byte; lia). by destruct s.
Qed.

Lemma BitLen_small V : 0 <= V < 256 -> RlpEncode.BitLen V <= 8.
Proof.
  intros HV. unfold RlpEncode.BitLen. destruct (decide (V = 0)); [lia|]. rewrite Z.abs_eq by lia. assert (Z.log2 V < 8); [|lia]. apply Z.log2_lt_pow2; lia.
Qed.

Lemma copy_right_big b : bytes_ok b -> zlen b = 32 -> copy_right (big_bytes (be_to_Z b)) = Ret b.
Proof.
  intros Hb Hz. pose proof (be_to_Z_bound b Hb) as Hr. rewrite Hz in Hr. unfold copy_right. destruct (big_bytes_spec (be_to_Z b)) as [_ H2]; [lia|]. rewrite decide_False by (pose proof (H2 32); lia).
  destruct (LeftPad_big (be_to_Z b) 32) as (H3 & H4 & H5); [lia|lia|]. f_equal. rewrite <- (be_bytes_be_to_Z _ H3), H5.
  replace (length (LeftPadBytes _ _)) with (length b) by (unfold zlen in *; lia). by apply be_bytes_be_to_Z.
Qed.

(** The sender is the owner of the key that the curve recovers from the hash and the signature. *)
Lemma recoverPlain_eq h rb sb v : good_sig rb sb v ->
  recoverPlain h (be_to_Z rb) (be_to_Z sb) (v + 27) true =
    match Ecrecover (be_bytes 32 h) (rb ++ sb ++ [v]) with
    | None => Err ErrRecover
    | Some [] => Err ErrInvalidPublicKey
    | Some (p0 :: rest) => if decide (p0 <> 4) then Err ErrInvalidPublicKey else a ← go_from (Keccak256 rest) 12; Ret (be_to_Z a)
    end.
Proof.
  intros Hg. unfold recoverPlain. pose proof (gs_v _ _ _ Hg) as Hv. rewrite decide_False by (pose proof (BitLen_small (v + 27)); lia).
  assert (u8 (u64 (big_Uint64 (v + 27) - 27)) = v) as -> by (destruct Hv as [-> | ->]; done). rewrite (gs_ok _ _ _ Hg). cbn [negb].
  rewrite !copy_right_big by apply Hg. cbn [mbind outcome_bind]. destruct (Ecrecover _ _) as [[|]|]; done.
Qed.

Lemma BitLen_big V k : 0 < k -> 0 <= V -> RlpEncode.BitLen V <= k <-> V < 2 ^ k.
Proof.
  intros Hk HV. unfold RlpEncode.BitLen. destruct (decide (V = 0)) as [->|]; [split; [intros _; lia|lia]|]. rewrite Z.abs_eq by lia.
  pose proof (Z.log2_lt_pow2 V k). lia.
Qed.

(** A signature of a chain has its id. *)
Lemma protected_id v c : (v = 0 \/ v = 1) -> 0 < c -> isProtectedV (v + 35 + 2 * c) = true /\ deriveChainId (v + 35 + 2 * c) = c.
Proof.
  intros Hv Hc. set (V := v + 35 + 2 * c). assert (0 <= V) as HV by lia. split.
  - unfold isProtectedV. destruct (decide _) as [HB|]; [|done]. apply BitLen_big in HB; [|lia|done]. unfold big_Uint64. rewrite Z.abs_eq, u64_id by (unfold is_u64; lia). rewrite !bool_decide_eq_false_2 by lia. done.
  - unfold deriveChainId. destruct (decide _) as [HB|].
    + apply BitLen_big in HB; [|lia|done]. unfold big_Uint64. rewrite Z.abs_eq, (u64_id V) by (unfold is_u64; lia). rewrite decide_False by lia. rewrite u64_id by (unfold is_u64; lia). unfold V. Z.to_euclidean_division_equations. lia.
    + unfold V. Z.to_euclidean_division_equations. lia.
Qed.

(** C26: Signing and recovering are inverse under the EIP155 rules: whatever the chain id
    other than zero and the signature that the curve gives for the hash of a
    transaction, the signed transaction names as its sender the owner of the key that
    the curve recovers from this hash and this signature. *)
Theorem EIP155_roundtrip c tx rb sb v pub rest : 0 < c -> good_sig rb sb v ->
  Ecrecover (be_bytes 32 (signer_Hash (EIP155Signer c) tx)) (rb ++ sb ++ [v]) = Some pub -> pub = 4 :: rest -> 12 <= zlen (Keccak256 rest) ->
  exists tx', WithSignature (EIP155Signer c) tx (rb ++ sb ++ [v]) = Ret tx' /\ signer_Sender (EIP155Signer c) tx' = Ret (address_of pub) /\
    (forall c', c' <> c -> signer_Sender (EIP155Signer c') tx' = Err ErrInvalidChainId).
Proof.
  intros Hc Hg He Hp Hk. destruct (protected_id v c (gs_v _ _ _ Hg) Hc) as [H1 H2]. unfold WithSignature. rewrite SignatureValues_eq by done. cbn [mbind outcome_bind].
  rewrite decide_True by lia. eexists. split; [done|]. unfold signer_Sender, Protected, ChainId. cbn [tx_V tx_R tx_S]. rewrite H1, H2. cbn [negb]. split.
  - rewrite decide_False by (intros []; done). replace (v + 35 + 2 * c - 2 * c - 8) with (v + 27) by lia. rewrite recoverPlain_eq by done.
    change (signer_Hash _ (mk_Transaction _ _ _ _ _ _ _ _ _ _)) with (signer_Hash (EIP155Signer c) tx). rewrite He, Hp. rewrite decide_False by lia.
    rewrite go_from_Ret by lia. done.
  - intros c' Hne. by rewrite decide_True.
Qed.
End Signers.

Module SigningExample.

(** A key that is read off the signature, and the identity for a hash. *)
#[local] Instance plain_crypto : Crypto := {|
  Ecrecover := fun _ sig => Some (4 :: take 32 sig);
  Keccak256 := fun b => be_bytes 32 (be_to_Z b);
  sha256_Sum256 := fun _ => []; ripemd160_Sum := fun _ => [];
  G1 := unit; G2 := unit; G1_Unmarshal := fun _ => None; G2_Unmarshal := fun _ => None;
  G1_Add := fun _ _ => tt; G1_ScalarMult := fun _ _ => tt; G1_Marshal := fun _ => []; PairingCheck := fun _ _ => false;
  blake2b_F := fun h _ _ _ _ _ => h
|}.

Definition unsigned : Transaction := mk_Transaction 7 1 21000 (Some 9) 5 [] 0 0 0 0.

Lemma EIP155_roundtrip_witness : exists tx', WithSignature (EIP155Signer 329) unsigned (be_bytes 32 77 ++ be_bytes 32 5 ++ [1]) = Ret tx' /\
  tx_V tx' = 694 /\ signer_Sender (EIP155Signer 329) tx' = Ret 77 /\ signer_Sender (EIP155Signer 1) tx' = Err ErrInvalidChainId.
Proof.
  destruct (EIP155_roundtrip 329 unsigned (be_bytes 32 77) (be_bytes 32 5) 1 (4 :: be_bytes 32 77) (be_bytes 32 77)) as (tx' & E & H1 & H2); try reflexivity.
  - split; [|split|right; reflexivity|vm_compute; reflexivity]; [split; [apply be_bytes_ok|reflexivity]|apply be_bytes_ok|reflexivity].
  - vm_compute. discriminate.
  - exists tx'. split; [exact E|]. split; [by vm_compute in E; injection E as <-|]. split; [exact H1|]. apply H2. discriminate.
Defined.
End SigningExample.
