(* ===== verification/TxByPrice.v ===== *)
(** * The order of transactions in a block (core/types/transaction.go)

    [TransactionsByPriceAndNonce] gives the pending transactions to the miner: always the
    best of the next transactions of the accounts, those of an account in the order of
    their nonces, and none of an account after one that could not be executed. *)

From stdpp Require Import gmap list_numbers.
From S2P Require Import Prelude VmPrecompiles GoHeap TxList TxSigning.

(** [TxByPriceAndTime.Less] *)
Definition byprice_less (x y : Transaction) : bool :=
  if decide (Price x = Price y) then bool_decide (tx_time x < tx_time y) else bool_decide (Price x > Price y).

Record TransactionsByPriceAndNonce := mk_ByPrice {
  bp_txs : gmap Z (list Transaction);
  bp_heads : list Transaction
}.

Section ByPrice.
Context {C : Crypto} {MO : MapOrder} (sg : Signer).

(** [acc, _ := Sender(signer, tx)] *)
Definition acc_of (tx : Transaction) : Z := default 0 (Sender sg tx).

(** The loop of the constructor over the keys of the map. A key that is added is not visited. *)
Fixpoint take_heads (froms : list Z) (txs : gmap Z (list Transaction)) (heads : list Transaction) : P (gmap Z (list Transaction) * list Transaction) :=
  match froms with
  | [] => Ret (txs, heads)
  | from :: froms =>
      match txs !! from with
      | None => take_heads froms txs heads
      | Some [] => Panic
      | Some (tx :: accTxs) =>
          let acc := acc_of tx in
          let txs := <[acc := accTxs]> txs in
          take_heads froms (if decide (from <> acc) then base.delete from txs else txs) (heads ++ [tx])
      end
  end.

Definition NewTransactionsByPriceAndNonce (txs : gmap Z (list Transaction)) : P TransactionsByPriceAndNonce :=
  '(txs, heads) ← take_heads (map_range txs).*1 txs [];
  Ret (mk_ByPrice txs (heap_Init byprice_less heads)).

Definition Peek (t : TransactionsByPriceAndNonce) : option Transaction := bp_heads t !! O.

Definition bp_Pop (t : TransactionsByPriceAndNonce) : P TransactionsByPriceAndNonce :=
  '(_, heads) ← heap_Pop byprice_less (bp_heads t);
  Ret (mk_ByPrice (bp_txs t) heads).

Definition Shift (t : TransactionsByPriceAndNonce) : P TransactionsByPriceAndNonce :=
  match bp_heads t with
  | [] => Panic
  | head :: _ =>
      let acc := acc_of head in
      match bp_txs t !! acc with
      | Some (tx :: txs) => Ret (mk_ByPrice (<[acc := txs]> (bp_txs t)) (heap_Fix byprice_less (<[O := tx]> (bp_heads t)) O))
      | _ => bp_Pop t
      end
  end.

(** ** Draining the set *)

(** The way the set is used: the best is taken and, if it could be executed, followed by the
    next of its account. *)
Fixpoint drain (fuel : nat) (runs : Transaction -> bool) (t : TransactionsByPriceAndNonce) : F (list Transaction) :=
  match Peek t with
  | None => run (Ret [])
  | Some tx =>
      match fuel with
      | O => out_of_fuel
      | S fuel =>
          t ← run (if runs tx then Shift t else bp_Pop t);
          l ← drain fuel runs t;
          run (Ret (tx :: l))
      end
  end.

(** Up to the first that cannot be executed. *)
Fixpoint upto (runs : Transaction -> bool) (l : list Transaction) : list Transaction :=
  match l with [] => [] | tx :: l => tx :: (if runs tx then upto runs l else []) end.

(** Each is at least as good as the next one of every other account. *)
Definition greedy (l : list Transaction) : Prop :=
  forall pre x mid y post, l = pre ++ x :: mid ++ y :: post -> (forall z, z ∈ x :: mid -> acc_of z <> acc_of y) -> byprice_less y x = false.

Definition of_acc (a : Z) (l : list Transaction) : list Transaction := base.filter (fun tx => acc_of tx = a) l.

(** What an account has left: its head and the rest. *)
Definition left_of (t : TransactionsByPriceAndNonce) (a : Z) : list Transaction :=
  match of_acc a (bp_heads t) with [] => [] | x :: _ => x :: default [] (bp_txs t !! a) end.

Record wf_ByPrice (t : TransactionsByPriceAndNonce) : Prop := {
  bp_heap : heap byprice_less (bp_heads t);
  bp_nodup : NoDup (acc_of <$> bp_heads t);
  bp_from : forall a x, x ∈ default [] (bp_txs t !! a) -> acc_of x = a
}.

Lemma byprice_asym x y : byprice_less x y = true -> byprice_less y x = false.
Proof. unfold byprice_less. repeat destruct (decide _); rewrite !bool_decide_eq_true, bool_decide_eq_false; lia. Qed.

Lemma byprice_trans x y z : byprice_less y x = false -> byprice_less z y = false -> byprice_less z x = false.
Proof. unfold byprice_less. repeat destruct (decide _); rewrite !bool_decide_eq_false; lia. Qed.

(** *** The head of an account *)

Lemma of_acc_one h x : NoDup (acc_of <$> h) -> x ∈ h -> of_acc (acc_of x) h = [x].
Proof.
  intros Hn Hx. apply list_elem_of_split in Hx as (l1 & l2 & ->). rewrite fmap_app in Hn. apply list.NoDup_app in Hn as (_ & H1 & H2). cbn in H1, H2. apply list.NoDup_cons in H2 as [H2 _].
  unfold of_acc. rewrite list.filter_app, filter_cons_True by done. assert (forall l, (forall y, y ∈ l -> acc_of y <> acc_of x) -> base.filter (fun tx => acc_of tx = acc_of x) l = []) as Hnil.
  { intros l Hl. induction l as [|y l IH]; [done|]. rewrite filter_cons_False by (apply Hl; constructor). apply IH. intros z Hz. apply Hl. by constructor. }
  rewrite !Hnil; [done|..].
  - intros y Hy E. apply H2. rewrite <- E. by apply list_elem_of_fmap_2.
  - intros y Hy E. apply (H1 (acc_of y)); [by apply list_elem_of_fmap_2|rewrite E; constructor].
Qed.

Lemma of_acc_none h a : (forall x, x ∈ h -> acc_of x <> a) -> of_acc a h = [].
Proof.
  intros H. destruct (of_acc a h) as [|x l] eqn:E; [done|]. assert (x ∈ of_acc a h) as Hx by (rewrite E; constructor). apply list_elem_of_filter in Hx as [E' Hx]. by destruct (H x Hx).
Qed.

Lemma left_of_head t x : wf_ByPrice t -> x ∈ bp_heads t -> left_of t (acc_of x) = x :: default [] (bp_txs t !! acc_of x).
Proof. intros Ht Hx. unfold left_of. by rewrite (of_acc_one _ x (bp_nodup t Ht) Hx). Qed.

Lemma left_of_cons t a x l : left_of t a = x :: l -> x ∈ bp_heads t /\ acc_of x = a.
Proof.
  unfold left_of. destruct (of_acc a (bp_heads t)) as [|y r] eqn:E; [done|]. intros [= -> _]. assert (x ∈ of_acc a (bp_heads t)) as Hx by (rewrite E; constructor). by apply list_elem_of_filter in Hx as [].
Qed.

(** The order of the heads and the transactions of other accounts do not matter. *)
Lemma left_of_perm t t' a : NoDup (acc_of <$> bp_heads t) -> (forall x, acc_of x = a -> x ∈ bp_heads t <-> x ∈ bp_heads t') -> NoDup (acc_of <$> bp_heads t') ->
  bp_txs t' !! a = bp_txs t !! a -> left_of t' a = left_of t a.
Proof.
  intros Hn H Hn' E. unfold left_of. rewrite E. destruct (of_acc a (bp_heads t)) as [|x l] eqn:E1.
  - rewrite of_acc_none; [done|]. intros x Hx Ea. apply (H x Ea) in Hx. assert (x ∈ of_acc a (bp_heads t)) as Hc by (by apply list_elem_of_filter). rewrite E1 in Hc. by apply elem_of_nil in Hc.
  - assert (x ∈ of_acc a (bp_heads t)) as Hx by (rewrite E1; constructor). apply list_elem_of_filter in Hx as [Ea Hx]. apply (H x Ea) in Hx. by rewrite <- Ea, (of_acc_one _ x Hn' Hx).
Qed.

(** *** A step *)

Definition bp_weight (t : TransactionsByPriceAndNonce) : nat := sum_list_with (fun h => S (length (default [] (bp_txs t !! acc_of h)))) (bp_heads t).

(** The set after [x] was taken, with [r] left of its account. *)
Record taken (t t' : TransactionsByPriceAndNonce) (x : Transaction) (r : list Transaction) : Prop := {
  tk_wf : wf_ByPrice t';
  tk_other : forall a, a <> acc_of x -> left_of t' a = left_of t a;
  tk_own : left_of t' (acc_of x) = r;
  tk_weight : (bp_weight t' < bp_weight t)%nat
}.

Lemma bp_Pop_ok t x : wf_ByPrice t -> Peek t = Some x -> exists t', bp_Pop t = Ret t' /\ taken t t' x [].
Proof.
  intros Ht Hx. unfold bp_Pop. destruct (heap_Pop_ok byprice_less byprice_asym byprice_trans (bp_heads t) x (bp_heap t Ht) Hx) as (h & -> & Hp & Hh). cbn [mbind outcome_bind]. eexists. split; [done|].
  pose proof (bp_nodup t Ht) as Hn. rewrite Hp in Hn. cbn in Hn. apply list.NoDup_cons in Hn as [Hnot Hn]. split.
  - split; [done|done|apply (bp_from t Ht)].
  - intros a Ha. apply left_of_perm; [apply (bp_nodup t Ht)| |done|done]. intros y Ey. cbn. rewrite Hp, elem_of_cons. split; [|by right]. by intros [->|].
  - unfold left_of. cbn [bp_heads]. rewrite of_acc_none; [done|]. intros y Hy E. apply Hnot. rewrite <- E. by apply list_elem_of_fmap_2.
  - unfold bp_weight. cbn [bp_txs bp_heads]. rewrite Hp. cbn. lia.
Qed.

Lemma Shift_ok t x : wf_ByPrice t -> Peek t = Some x -> exists t', Shift t = Ret t' /\ taken t t' x (default [] (bp_txs t !! acc_of x)).
Proof.
  intros Ht Hx. unfold Shift. destruct (bp_heads t) as [|x' hs] eqn:Eh; [unfold Peek in Hx; by rewrite Eh in Hx|]. assert (x' = x) as -> by (unfold Peek in Hx; rewrite Eh in Hx; by injection Hx).
  destruct (bp_txs t !! acc_of x) as [[|y r]|] eqn:Er; [by apply bp_Pop_ok| |by apply bp_Pop_ok]. eexists. split; [done|].
  destruct (heap_Fix_ok byprice_less byprice_asym byprice_trans (x :: hs) 0 y) as [Hh Hp]; [rewrite <- Eh; apply Ht|done|]. cbn [list_insert insert] in Hp. change (<[0%nat := y]> (x :: hs)) with (y :: hs) in *.
  assert (acc_of y = acc_of x) as Ey by (apply (bp_from t Ht); rewrite Er; constructor). pose proof (bp_nodup t Ht) as Hn. rewrite Eh in Hn. assert (NoDup (acc_of <$> y :: hs)) as Hn' by (cbn in *; by rewrite Ey). cbn in Hn. apply list.NoDup_cons in Hn as [Hnot Hn].
  assert (wf_ByPrice (mk_ByPrice (<[acc_of x := r]> (bp_txs t)) (heap_Fix byprice_less (y :: hs) 0))) as Hw.
  { split; [done|cbn; by rewrite Hp|]. intros a z Hz. cbn in Hz. destruct (decide (acc_of x = a)) as [<-|Ha]; [rewrite lookup_insert_eq in Hz; cbn in Hz; apply (bp_from t Ht); rewrite Er; by constructor|]. rewrite lookup_insert_ne in Hz by done. by apply (bp_from t Ht). }
  split; [done|..].
  - intros a Ha. apply left_of_perm; [apply (bp_nodup t Ht)| |apply (bp_nodup _ Hw)|cbn; by rewrite lookup_insert_ne]. intros z Ez. cbn. rewrite Hp, Eh, !elem_of_cons. split; (intros [->|?]; [congruence|by right]).
  - pose proof (left_of_head _ y Hw ltac:(cbn; rewrite Hp; constructor)) as E. rewrite Ey in E. rewrite E. cbn. by rewrite lookup_insert_eq.
  - unfold bp_weight. cbn [bp_txs bp_heads]. rewrite Hp, Eh. cbn [sum_list_with]. rewrite Ey, lookup_insert_eq, Er. cbn [default length]. change (id r) with r. change (id (y :: r)) with (y :: r). cbn [length].
    assert (sum_list_with (fun h => S (length (default [] (<[acc_of x := r]> (bp_txs t) !! acc_of h)))) hs = sum_list_with (fun h => S (length (default [] (bp_txs t !! acc_of h)))) hs) as ->; [|lia].
    clear - Hnot. induction hs as [|h hs IH]; [done|]. cbn [sum_list_with]. cbn in Hnot. rewrite lookup_insert_ne by (intros E; apply Hnot; rewrite E; constructor). rewrite IH; [done|]. intros Hc. apply Hnot. by constructor.
Qed.

(** *** Draining *)

Lemma Peek_None t : Peek t = None -> bp_heads t = [].
Proof. unfold Peek. by destruct (bp_heads t). Qed.

Lemma of_acc_cons a x l : of_acc a (x :: l) = if decide (acc_of x = a) then x :: of_acc a l else of_acc a l.
Proof. unfold of_acc. by rewrite list.filter_cons. Qed.

(** The first one of an account that is drained is its head. *)
Lemma first_is_head runs t l mid y post : (forall a, of_acc a l = upto runs (left_of t a)) -> l = mid ++ y :: post -> (forall z, z ∈ mid -> acc_of z <> acc_of y) -> y ∈ bp_heads t.
Proof.
  intros Hl -> Hm. specialize (Hl (acc_of y)). unfold of_acc in Hl. rewrite list.filter_app in Hl. fold (of_acc (acc_of y) mid) in Hl. rewrite (of_acc_none mid) in Hl by done. cbn [app] in Hl. rewrite filter_cons_True in Hl by done.
  destruct (left_of t (acc_of y)) as [|x r] eqn:E; [done|]. cbn in Hl. injection Hl as -> _. by eapply left_of_cons.
Qed.

Lemma drain_ok runs : forall fuel t, wf_ByPrice t -> (bp_weight t <= fuel)%nat -> exists l, drain fuel runs t = run (Ret l) /\ (forall a, of_acc a l = upto runs (left_of t a)) /\ greedy l.
Proof.
  induction fuel as [|fuel IH]; intros t Ht Hf; cbn [drain]; destruct (Peek t) as [x|] eqn:Hx.
  1: { unfold bp_weight in Hf. unfold Peek in Hx. destruct (bp_heads t); [done|]. cbn in Hf. lia. }
  1, 3: exists []; split; [done|]; split; [intros a; unfold left_of; by rewrite (Peek_None t Hx)|intros pre ? ? ? ? E; by destruct pre].
  assert (x ∈ bp_heads t) as Hin by (unfold Peek in Hx; by eapply list_elem_of_lookup_2).
  assert (exists t', (if runs x then Shift t else bp_Pop t) = Ret t' /\ taken t t' x (if runs x then default [] (bp_txs t !! acc_of x) else [])) as (t' & -> & [H1 H2 H3 H4]) by (destruct (runs x); [by apply Shift_ok|by apply bp_Pop_ok]).
  cbn [mbind fuelled_bind run]. destruct (IH t' H1 ltac:(lia)) as (l & -> & Hl & Hg). cbn [mbind fuelled_bind run]. exists (x :: l). split; [done|]. split.
  - intros a. rewrite of_acc_cons, Hl. destruct (decide (acc_of x = a)) as [<-|Ha]; [|by rewrite H2]. rewrite H3, (left_of_head t x Ht Hin). cbn. by destruct (runs x).
  - intros pre y mid z post E Hz. destruct pre as [|p0 pre]; cbn in E; injection E as E0 E; [|by eapply Hg]. subst y. apply (heap_min byprice_less byprice_asym byprice_trans (bp_heads t) x (bp_heap t Ht) Hx).
    pose proof (first_is_head runs t' l mid z post Hl E ltac:(intros; apply Hz; by constructor)) as Hz'. assert (acc_of z <> acc_of x) as Hne by (intros Ea; apply (Hz x); [constructor|done]).
    pose proof (left_of_head t' z H1 Hz') as E'. rewrite (H2 _ Hne) in E'. by apply left_of_cons in E' as [? _].
Qed.

(** *** The constructor *)

(** What the pool gives: the transactions of each account, of which there are some. *)
Definition by_account (txs : gmap Z (list Transaction)) : Prop := forall a l, txs !! a = Some l -> l <> [] /\ forall x, x ∈ l -> acc_of x = a.

Lemma take_heads_ok froms : forall txs heads, NoDup froms -> (forall a, a ∈ froms -> exists l, txs !! a = Some l /\ l <> [] /\ forall x, x ∈ l -> acc_of x = a) ->
  exists txs' hs, take_heads froms txs heads = Ret (txs', heads ++ hs) /\ acc_of <$> hs = froms /\ (forall a, a ∉ froms -> txs' !! a = txs !! a) /\
    (forall h, h ∈ hs -> exists r, txs' !! acc_of h = Some r /\ txs !! acc_of h = Some (h :: r)).
Proof.
  induction froms as [|a froms IH]; intros txs heads Hn Hok; [exists txs, []; rewrite app_nil_r; split_and!; try done; by intros h ?%elem_of_nil|]. apply list.NoDup_cons in Hn as [Ha Hn]. cbn [take_heads].
  destruct (Hok a ltac:(constructor)) as (l & E & Hne & Hl). rewrite E. destruct l as [|x r]; [done|]. pose proof (Hl x ltac:(constructor)) as Ex. rewrite Ex. rewrite decide_False by tauto.
  destruct (IH (<[a := r]> txs) (heads ++ [x]) Hn) as (txs' & hs & -> & H1 & H2 & H3).
  { intros b Hb. rewrite lookup_insert_ne by (intros ->; done). apply Hok. by constructor. }
  exists txs', (x :: hs). rewrite <- (assoc_L (++)). split; [done|]. split; [cbn; congruence|]. split.
  - intros b Hb. rewrite not_elem_of_cons in Hb. rewrite H2 by tauto. apply lookup_insert_ne. naive_solver.
  - intros h [->|Hh]%elem_of_cons; [exists r; rewrite Ex, (H2 a Ha), lookup_insert_eq; done|]. destruct (H3 h Hh) as (r' & E1 & E2). exists r'. split; [done|]. rewrite lookup_insert_ne in E2; [done|]. intros ->. apply Ha. rewrite <- H1. by apply list_elem_of_fmap_2.
Qed.

(** The number of transactions. *)
Definition count_txs (txs : gmap Z (list Transaction)) : nat := sum_list_with (fun a => length (default [] (txs !! a))) (elements (dom txs)).

Lemma keys_perm (txs : gmap Z (list Transaction)) : (map_range txs).*1 ≡ₚ elements (dom txs).
Proof.
  apply NoDup_Permutation; [rewrite map_range_perm; apply NoDup_fst_map_to_list|apply NoDup_elements|]. intros a. rewrite map_range_perm, elem_of_elements, elem_of_dom, list_elem_of_fmap. split.
  - intros ([b l] & -> & H%elem_of_map_to_list). by eexists.
  - intros [l H]. exists (a, l). by rewrite elem_of_map_to_list.
Qed.

Lemma New_ok txs : by_account txs -> exists t, NewTransactionsByPriceAndNonce txs = Ret t /\ wf_ByPrice t /\ (forall a, left_of t a = default [] (txs !! a)) /\ bp_weight t = count_txs txs.
Proof.
  intros Htx. unfold NewTransactionsByPriceAndNonce. destruct (take_heads_ok (map_range txs).*1 txs []) as (txs' & hs & E & Hk & Hout & Hin).
  { rewrite map_range_perm. apply NoDup_fst_map_to_list. }
  { intros a Ha. rewrite keys_perm, elem_of_elements, elem_of_dom in Ha. destruct Ha as [l Ha]. exists l. split; [done|by apply Htx]. }
  rewrite E. cbn [mbind outcome_bind app]. eexists. split; [done|]. destruct (heap_Init_ok byprice_less byprice_asym byprice_trans hs) as [Hh Hp].
  assert (forall a, a ∈ (map_range txs).*1 <-> is_Some (txs !! a)) as Hdom by (intros a; by rewrite keys_perm, elem_of_elements, elem_of_dom).
  set (t := mk_ByPrice _ _). assert (wf_ByPrice t) as Hw.
  { split; cbn; [done|rewrite Hp, Hk, map_range_perm; apply NoDup_fst_map_to_list|]. intros a x Hx. destruct (decide (a ∈ (map_range txs).*1)) as [Ha|Ha].
    - rewrite <- Hk in Ha. apply list_elem_of_fmap in Ha as (h & -> & Hh'). destruct (Hin h Hh') as (r & E1 & E2). rewrite E1 in Hx. apply (Htx _ _ E2). by constructor.
    - rewrite (Hout a Ha) in Hx. destruct (txs !! a) eqn:Ea; [|by apply elem_of_nil in Hx]. destruct Ha. apply Hdom. by eexists. }
  split; [done|]. split.
  - intros a. destruct (decide (a ∈ (map_range txs).*1)) as [Ha|Ha].
    + rewrite <- Hk in Ha. apply list_elem_of_fmap in Ha as (h & -> & Hh'). destruct (Hin h Hh') as (r & E1 & E2). rewrite left_of_head; [|done|cbn; by rewrite Hp]. cbn. by rewrite E1, E2.
    + unfold left_of. cbn [bp_heads t]. rewrite of_acc_none; [rewrite Hdom in Ha; by destruct (txs !! a); [destruct Ha; eexists|]|]. intros x Hx <-. apply Ha. rewrite <- Hk. apply list_elem_of_fmap_2. by rewrite <- Hp.
  - unfold bp_weight, count_txs. cbn [bp_heads bp_txs t]. rewrite <- keys_perm, <- Hk, Hp. clear - Hin. induction hs as [|h hs IH]; [done|]. cbn. destruct (Hin h ltac:(constructor)) as (r & -> & ->). rewrite IH by (intros; apply Hin; by constructor). done.
Qed.

(** C14: The miner gets the pending transactions in the right order. Whatever transactions it
    can execute, draining the set ends without a panic, gives of each account its
    transactions in the order of their nonces up to and with the first that could not
    be executed, and at every turn one that is at least as good, by price and then by
    the time it was first seen, as the next one of every other account. *)
Theorem drain_greedy txs runs fuel : by_account txs -> (count_txs txs <= fuel)%nat ->
  exists t l, NewTransactionsByPriceAndNonce txs = Ret t /\ drain fuel runs t = run (Ret l) /\ (forall a, of_acc a l = upto runs (default [] (txs !! a))) /\ greedy l.
Proof.
  intros Htx Hf. destruct (New_ok txs Htx) as (t & E & Hw & Hl & Hc). destruct (drain_ok runs fuel t Hw) as (l & E' & H1 & H2); [by rewrite Hc|]. exists t, l. split; [done|]. split; [done|]. split; [|done]. intros a. by rewrite H1, Hl.
Qed.
End ByPrice.

Module ByPriceExample.

#[local] Existing Instance SigningExample.plain_crypto.
#[local] Instance key_order : MapOrder := {| map_range := fun A m => map_to_list m; map_range_perm := fun A m => reflexivity _ |}.

(** A transaction for the chain 1, whose sender is its R. *)
Definition signed (from nonce price : Z) : Transaction := mk_Transaction nonce price 21000 (Some 9) 0 [] 37 from 1 0.

Definition pending_txs : gmap Z (list Transaction) := {[ 5 := [signed 5 0 3; signed 5 1 9]; 6 := [signed 6 4 7; signed 6 5 8; signed 6 6 9]; 7 := [signed 7 0 4] ]}.

Lemma pending_txs_ok : by_account (EIP155Signer 1) pending_txs.
Proof.
  change (map_Forall (fun a l => l <> [] /\ forall x, x ∈ l -> acc_of (EIP155Signer 1) x = a) pending_txs). unfold pending_txs. repeat apply map_Forall_insert_2; [..|apply map_Forall_empty].
  all: split; [done|]; apply list.Forall_forall; repeat constructor; vm_compute; reflexivity.
Qed.

(** The second transaction of the account 6 cannot be executed, and its third is not tried. *)
Lemma drain_greedy_witness : exists t l, NewTransactionsByPriceAndNonce (EIP155Signer 1) pending_txs = Ret t /\
  drain (EIP155Signer 1) 6 (fun tx => bool_decide (AccountNonce tx <> 5)) t = run (Ret l) /\ greedy (EIP155Signer 1) l /\ l = [signed 6 4 7; signed 6 5 8; signed 7 0 4; signed 5 0 3; signed 5 1 9].
Proof.
  destruct (drain_greedy (EIP155Signer 1) pending_txs (fun tx => bool_decide (AccountNonce tx <> 5)) 6 pending_txs_ok) as (t & l & E1 & E2 & _ & H); [vm_compute; lia|].
  exists t, l. split; [exact E1|]. split; [exact E2|]. split; [exact H|].
  assert (match NewTransactionsByPriceAndNonce (EIP155Signer 1) pending_txs with Ret t => drain (EIP155Signer 1) 6 (fun tx => bool_decide (AccountNonce tx <> 5)) t | _ => out_of_fuel end
    = run (Ret [signed 6 4 7; signed 6 5 8; signed 7 0 4; signed 5 0 3; signed 5 1 9])) as Ev by (vm_compute; reflexivity).
  rewrite E1, E2 in Ev. by injection Ev.
Defined.
End ByPriceExample.
