(* ===== verification/TxLookup.v ===== *)
(** * Lookup, prices and nonces of the pool (core/tx_pool.go, core/tx_list.go, core/tx_noncer.go)

    All transactions of the pool by hash, local and remote ones apart; the heap of the
    remote transactions by price; and the next nonces of the accounts.  A lookup holds a
    given collection of transactions, each under its hash, and counts their slots; the
    price heap covers the remote ones. *)

From stdpp Require Import gmap sorting.
From S2P Require Import Prelude VmPrecompiles GoHeap TxList TxListProofs TxSigning.

Section Lookup.
Context {C : Crypto} {MO : MapOrder}.

(** ** Sets of accounts *)

Definition accountSet : Type := gset Z.

Definition contains (s : accountSet) (addr : Z) : bool := bool_decide (addr ∈ s).
Definition containsTx (sg : Signer) (s : accountSet) (tx : Transaction) : bool := match Sender sg tx with Some a => contains s a | None => false end.
Definition addTx (sg : Signer) (s : accountSet) (tx : Transaction) : accountSet := match Sender sg tx with Some a => {[a]} ∪ s | None => s end.

(** ** txLookup *)

Definition txSlotSize : Z := 32 * 1024.
Definition txMaxSize : Z := 4 * txSlotSize.

Definition numSlots (tx : Transaction) : Z := (tx_Size tx + txSlotSize - 1) / txSlotSize.

Record txLookup := mk_txLookup {
  slots : Z;
  lk_locals : gmap Z Transaction;
  lk_remotes : gmap Z Transaction
}.

Definition newTxLookup : txLookup := mk_txLookup 0 ∅ ∅.

Definition lookup_Get (t : txLookup) (hash : Z) : option Transaction :=
  match lk_locals t !! hash with Some tx => Some tx | None => lk_remotes t !! hash end.
Definition GetLocal (t : txLookup) (hash : Z) : option Transaction := lk_locals t !! hash.
Definition GetRemote (t : txLookup) (hash : Z) : option Transaction := lk_remotes t !! hash.
Definition Count (t : txLookup) : Z := Z.of_nat (size (lk_locals t)) + Z.of_nat (size (lk_remotes t)).
Definition LocalCount (t : txLookup) : Z := Z.of_nat (size (lk_locals t)).
Definition RemoteCount (t : txLookup) : Z := Z.of_nat (size (lk_remotes t)).
Definition Slots (t : txLookup) : Z := slots t.

Definition lookup_Add (t : txLookup) (tx : Transaction) (local : bool) : txLookup :=
  let s := slots t + numSlots tx in
  if local then mk_txLookup s (<[tx_Hash tx := tx]> (lk_locals t)) (lk_remotes t)
  else mk_txLookup s (lk_locals t) (<[tx_Hash tx := tx]> (lk_remotes t)).

Definition lookup_Remove (t : txLookup) (hash : Z) : txLookup :=
  match lookup_Get t hash with
  | None => t
  | Some tx => mk_txLookup (slots t - numSlots tx) (base.delete hash (lk_locals t)) (base.delete hash (lk_remotes t))
  end.

(** One step of the loop over the remote transactions. *)
Definition migrate (sg : Signer) (locals : accountSet) (acc : Z * txLookup) (kv : Z * Transaction) : Z * txLookup :=
  let '(migrated, t) := acc in
  if containsTx sg locals kv.2 then (migrated + 1, mk_txLookup (slots t) (<[kv.1 := kv.2]> (lk_locals t)) (base.delete kv.1 (lk_remotes t)))
  else acc.

Definition RemoteToLocals (sg : Signer) (t : txLookup) (locals : accountSet) : Z * txLookup :=
  fold_left (migrate sg locals) (map_range (lk_remotes t)) (0, t).

(** ** txPricedList *)

(** [priceHeap.Less] *)
Definition price_less (x y : Transaction) : bool :=
  if decide (Price x < Price y) then true
  else if decide (Price x > Price y) then false
  else bool_decide (AccountNonce x > AccountNonce y).

Record txPricedList := mk_txPricedList { remotes : list Transaction; stales : Z }.

Definition newTxPricedList : txPricedList := mk_txPricedList [] 0.

Definition priced_Put (l : txPricedList) (tx : Transaction) (local : bool) : txPricedList :=
  if local then l else mk_txPricedList (heap_Push price_less (remotes l) tx) (stales l).

Definition priced_Reheap (all : txLookup) (l : txPricedList) : txPricedList :=
  mk_txPricedList (heap_Init price_less (map_range (lk_remotes all)).*2) 0.

Definition priced_Removed (all : txLookup) (l : txPricedList) (count : Z) : txPricedList :=
  let s := stales l + count in
  if decide (s <= Z.quot (zlen (remotes l)) 4) then mk_txPricedList (remotes l) s
  else priced_Reheap all (mk_txPricedList (remotes l) s).

Definition stale (all : txLookup) (tx : Transaction) : bool := bool_decide (GetRemote all (tx_Hash tx) = None).

Fixpoint priced_cap_loop (fuel : nat) (all : txLookup) (threshold : Z) (l : txPricedList) : F (list Transaction * txPricedList) :=
  match remotes l with
  | [] => run (Ret ([], l))
  | cheapest :: _ =>
      match fuel with
      | O => out_of_fuel
      | S fuel =>
          if stale all cheapest then
            '(_, h) ← run (heap_Pop price_less (remotes l));
            priced_cap_loop fuel all threshold (mk_txPricedList h (stales l - 1))
          else if decide (Price cheapest >= threshold) then run (Ret ([], l))
          else
            '(_, h) ← run (heap_Pop price_less (remotes l));
            '(drop, l) ← priced_cap_loop fuel all threshold (mk_txPricedList h (stales l));
            run (Ret (cheapest :: drop, l))
      end
  end.

Definition priced_Cap (all : txLookup) (l : txPricedList) (threshold : Z) : F (list Transaction * txPricedList) :=
  priced_cap_loop (length (remotes l)) all threshold l.

(** Stale transactions are taken off the head. *)
Fixpoint drop_stale (fuel : nat) (all : txLookup) (l : txPricedList) : F txPricedList :=
  match remotes l with
  | [] => run (Ret l)
  | head :: _ =>
      if stale all head then
        match fuel with
        | O => out_of_fuel
        | S fuel => '(_, h) ← run (heap_Pop price_less (remotes l)); drop_stale fuel all (mk_txPricedList h (stales l - 1))
        end
      else run (Ret l)
  end.

Definition Underpriced (all : txLookup) (l : txPricedList) (tx : Transaction) : F (bool * txPricedList) :=
  l ← drop_stale (length (remotes l)) all l;
  match remotes l with
  | [] => run (Ret (false, l))
  | cheapest :: _ => run (Ret (bool_decide (Price cheapest >= Price tx), l))
  end.

Fixpoint discard_loop (fuel : nat) (all : txLookup) (slots : Z) (l : txPricedList) : F (list Transaction * Z * txPricedList) :=
  match remotes l with
  | [] => run (Ret ([], slots, l))
  | _ :: _ =>
      if decide (slots > 0) then
        match fuel with
        | O => out_of_fuel
        | S fuel =>
            '(tx, h) ← run (heap_Pop price_less (remotes l));
            if stale all tx then discard_loop fuel all slots (mk_txPricedList h (stales l - 1))
            else
              '(drop, slots, l) ← discard_loop fuel all (slots - numSlots tx) (mk_txPricedList h (stales l));
              run (Ret (tx :: drop, slots, l))
        end
      else run (Ret ([], slots, l))
  end.

(** The slice of the transactions to drop has room for [slots] of them, which is not negative. *)
Definition Discard (all : txLookup) (l : txPricedList) (slots : Z) (force : bool) : F (list Transaction * bool * txPricedList) :=
  if decide (slots < 0) then run Panic
  else
    '(drop, lacking, l) ← discard_loop (length (remotes l)) all slots l;
    if decide (lacking > 0) then
      if force then run (Ret (drop, true, l))
      else run (Ret ([], false, mk_txPricedList (fold_left (heap_Push price_less) drop (remotes l)) (stales l)))
    else run (Ret (drop, true, l)).

(** ** txNoncer *)

Record txNoncer := mk_txNoncer { fallback : Z -> Z; nonces : gmap Z Z }.

Definition newTxNoncer (getNonce : Z -> Z) : txNoncer := mk_txNoncer getNonce ∅.

(** The nonce of an account is read once. *)
Definition noncer_load (n : txNoncer) (addr : Z) : txNoncer :=
  match nonces n !! addr with Some _ => n | None => mk_txNoncer (fallback n) (<[addr := fallback n addr]> (nonces n)) end.

Definition noncer_get (n : txNoncer) (addr : Z) : Z * txNoncer := let n := noncer_load n addr in (default 0 (nonces n !! addr), n).
Definition noncer_set (n : txNoncer) (addr nonce : Z) : txNoncer := mk_txNoncer (fallback n) (<[addr := nonce]> (nonces n)).
Definition noncer_setIfLower (n : txNoncer) (addr nonce : Z) : txNoncer :=
  let n := noncer_load n addr in
  if decide (default 0 (nonces n !! addr) <= nonce) then n else mk_txNoncer (fallback n) (<[addr := nonce]> (nonces n)).
End Lookup.

(** ** Proofs *)

Section LookupProofs.
Context {C : Crypto} {MO : MapOrder}.

(** ** The lookup *)

Definition values (m : gmap Z Transaction) : list Transaction := (map_to_list m).*2.
Fixpoint sum_slots (l : list Transaction) : Z := match l with [] => 0 | tx :: l => numSlots tx + sum_slots l end.

#[global] Instance sum_slots_perm : Proper ((≡ₚ) ==> (=)) sum_slots.
Proof. induction 1; cbn [sum_slots]; lia. Qed.

Lemma sum_slots_app l l' : sum_slots (l ++ l') = sum_slots l + sum_slots l'.
Proof. induction l; cbn [sum_slots app]; lia. Qed.

(** The lookup holds the transactions of [L]. *)
Record lookup_ok (t : txLookup) (L : list Transaction) : Prop := {
  lk_hash : forall h tx, lk_locals t !! h = Some tx \/ lk_remotes t !! h = Some tx -> tx_Hash tx = h;
  lk_disj : lk_locals t ##ₘ lk_remotes t;
  lk_elems : values (lk_locals t) ++ values (lk_remotes t) ≡ₚ L;
  lk_slots : slots t = sum_slots L
}.

#[global] Instance lookup_ok_perm t : Proper ((≡ₚ) ==> iff) (lookup_ok t).
Proof. intros L L' E. split; intros [H1 H2 H3 H4]; (split; [done|done|by rewrite H3|rewrite H4; by rewrite E]). Qed.

Lemma lookup_ok_new : lookup_ok newTxLookup [].
Proof. split; [intros h tx [?|?]; done|apply map_disjoint_empty_l|done|done]. Qed.

Lemma elem_of_values (m : gmap Z Transaction) tx : tx ∈ values m <-> exists h, m !! h = Some tx.
Proof.
  unfold values. rewrite list_elem_of_fmap. split; [intros ([h x] & -> & Hx%elem_of_map_to_list); by exists h|]. intros [h Hx]. exists (h, tx). by rewrite elem_of_map_to_list.
Qed.

Lemma lookup_Get_iff t h tx : lk_locals t ##ₘ lk_remotes t -> lookup_Get t h = Some tx <-> lk_locals t !! h = Some tx \/ lk_remotes t !! h = Some tx.
Proof.
  intros Hd. unfold lookup_Get. destruct (lk_locals t !! h) as [x|] eqn:Hx; [|naive_solver].
  split; [naive_solver|]. intros [E|E]; [done|]. by destruct (map_disjoint_spec (lk_locals t) (lk_remotes t)) as [H _]; destruct (H Hd h x tx).
Qed.

(** What is in the collection is found under its hash, and nothing else is found. *)
Lemma Get_elem t L h tx : lookup_ok t L -> lookup_Get t h = Some tx <-> tx ∈ L /\ tx_Hash tx = h.
Proof.
  intros [H1 H2 H3 _]. rewrite lookup_Get_iff by done. rewrite <- H3, elem_of_app, !elem_of_values. split.
  - intros H. split; [naive_solver|by apply H1].
  - intros [[[k Hk]|[k Hk]] <-]; [left|right]; by rewrite (H1 k tx) by tauto.
Qed.

Lemma Get_None t L h : lookup_ok t L -> lookup_Get t h = None <-> h ∉ (tx_Hash <$> L).
Proof.
  intros Ht. split.
  - intros Hn (tx & -> & Hx)%list_elem_of_fmap. assert (lookup_Get t (tx_Hash tx) = Some tx) by (by eapply Get_elem). congruence.
  - intros Hn. destruct (lookup_Get t h) as [tx|] eqn:Hg; [|done]. eapply Get_elem in Hg as [Hx <-]; [|done]. destruct Hn. by apply list_elem_of_fmap_2.
Qed.

(** No two transactions have the same hash. *)
Lemma lookup_NoDup t L : lookup_ok t L -> NoDup (tx_Hash <$> L).
Proof.
  intros [H1 H2 H3 _]. rewrite <- H3, fmap_app. assert (forall m, (forall h tx, m !! h = Some tx -> tx_Hash tx = h) -> tx_Hash <$> values m = (map_to_list m).*1) as Hk.
  { intros m Hm. unfold values. rewrite <- list_fmap_compose. apply list_fmap_ext. intros i [h tx] Hi. cbn. apply Hm, elem_of_map_to_list. by apply list_elem_of_lookup_2 in Hi. }
  rewrite !Hk by (intros h tx Hh; apply H1; tauto). apply list.NoDup_app. split; [apply NoDup_fst_map_to_list|]. split; [|apply NoDup_fst_map_to_list].
  intros h ([k x] & -> & Hx%elem_of_map_to_list)%list_elem_of_fmap ([k' y] & E & Hy%elem_of_map_to_list)%list_elem_of_fmap. cbn in E. subst k'.
  pose proof (proj1 (map_disjoint_spec _ _) H2 k x y Hx Hy) as []. 
Qed.

Lemma values_delete (m : gmap Z Transaction) h tx : m !! h = Some tx -> values m ≡ₚ tx :: values (base.delete h m).
Proof. intros Hh. unfold values. by rewrite <- (map_to_list_delete m h tx). Qed.

Lemma values_insert (m : gmap Z Transaction) h tx : m !! h = None -> values (<[h := tx]> m) ≡ₚ tx :: values m.
Proof. intros Hh. unfold values. by rewrite map_to_list_insert. Qed.

Lemma lookup_Remove_eq t L tx : lookup_ok t (tx :: L) ->
  lookup_ok (lookup_Remove t (tx_Hash tx)) L /\ lk_remotes (lookup_Remove t (tx_Hash tx)) = base.delete (tx_Hash tx) (lk_remotes t).
Proof.
  intros Ht. assert (lookup_Get t (tx_Hash tx) = Some tx) as Hg by (eapply Get_elem; [done|]; set_solver). unfold lookup_Remove. rewrite Hg. split; [|done]. destruct Ht as [H1 H2 H3 H4].
  split; cbn [lk_locals lk_remotes slots].
  - intros h x [[_ ?]%lookup_delete_Some|[_ ?]%lookup_delete_Some]; apply H1; tauto.
  - by apply map_disjoint_delete_l, map_disjoint_delete_r.
  - apply (Permutation_cons_inv (a := tx)). rewrite <- H3. apply lookup_Get_iff in Hg as [Hg|Hg]; [| |done].
    + rewrite (values_delete _ _ _ Hg). rewrite (delete_id (lk_remotes t)); [done|]. by eapply map_disjoint_Some_l.
    + rewrite (values_delete _ _ _ Hg), <- Permutation_middle. rewrite (delete_id (lk_locals t)); [done|]. by eapply map_disjoint_Some_r.
  - rewrite H4. cbn [sum_slots]. lia.
Qed.

Lemma lookup_Add_eq t L tx local : lookup_ok t L -> lookup_Get t (tx_Hash tx) = None -> lookup_ok (lookup_Add t tx local) (tx :: L).
Proof.
  intros [H1 H2 H3 H4] Hn. unfold lookup_Get in Hn. destruct (lk_locals t !! tx_Hash tx) eqn:Hl; [done|]. unfold lookup_Add. destruct local; split; cbn [lk_locals lk_remotes slots].
  - intros h x [[[<- <-]|[_ ?]]%lookup_insert_Some|?]; [done|apply H1; tauto..].
  - by apply map_disjoint_insert_l_2.
  - by rewrite values_insert, <- H3.
  - rewrite H4. cbn [sum_slots]. lia.
  - intros h x [?|[[<- <-]|[_ ?]]%lookup_insert_Some]; [apply H1; tauto|done|apply H1; tauto].
  - by apply map_disjoint_insert_r_2.
  - by rewrite values_insert, <- Permutation_middle, <- H3.
  - rewrite H4. cbn [sum_slots]. lia.
Qed.

Lemma move_ok t L h tx : lookup_ok t L -> lk_remotes t !! h = Some tx ->
  lookup_ok (mk_txLookup (slots t) (<[h := tx]> (lk_locals t)) (base.delete h (lk_remotes t))) L.
Proof.
  intros [H1 H2 H3 H4] Hh. assert (lk_locals t !! h = None) as Hl by (by eapply map_disjoint_Some_r). split; cbn [lk_locals lk_remotes slots]; [| | |done].
  - intros k x [[[<- <-]|[_ ?]]%lookup_insert_Some|[_ ?]%lookup_delete_Some]; apply H1; tauto.
  - apply map_disjoint_insert_l_2; [apply lookup_delete_eq|by apply map_disjoint_delete_r].
  - rewrite values_insert by done. rewrite <- H3, (values_delete _ _ _ Hh). apply Permutation_middle.
Qed.

Lemma fold_migrate sg s L l : forall n t, lookup_ok t L -> NoDup l.*1 -> (forall kv, kv ∈ l -> lk_remotes t !! kv.1 = Some kv.2) ->
  let '(n', t') := fold_left (migrate sg s) l (n, t) in
  lookup_ok t' L /\ n <= n' /\ forall h x, lk_remotes t' !! h = Some x <-> lk_remotes t !! h = Some x /\ ~ ((h, x) ∈ l /\ containsTx sg s x = true).
Proof.
  induction l as [|[k tx] l IH]; intros n t Ht Hnd Hl; cbn [fold_left].
  { split; [done|]. split; [lia|]. intros h x. split; [|tauto]. intros ?. split; [done|]. intros [?%elem_of_nil _]. done. }
  cbn in Hnd. apply list.NoDup_cons in Hnd as [Hk Hnd]. pose proof (Hl (k, tx) ltac:(set_solver)) as Hkt. cbn in Hkt. unfold migrate at 2. cbn [fst snd]. destruct (containsTx sg s tx) eqn:Hc.
  - specialize (IH (n + 1) _ (move_ok t L k tx Ht Hkt) Hnd). destruct (fold_left _ _ _) as [n' t']. destruct IH as (H1 & H2 & H3).
    { intros [h x] Hx. cbn. rewrite lookup_delete_ne; [by apply (Hl (h, x)); set_solver|]. intros <-. apply Hk. by apply (list_elem_of_fmap_2 fst) in Hx. }
    split; [done|]. split; [lia|]. intros h x. rewrite H3. cbn. rewrite lookup_delete_Some, elem_of_cons. split; [intros [[? ?] ?]; split; [done|]; naive_solver|].
    intros [Hx Hn]. split; [split; [|done]|tauto]. intros <-. apply Hn. split; [left; congruence|congruence].
  - specialize (IH n t Ht Hnd). destruct (fold_left _ _ _) as [n' t']. destruct IH as (H1 & H2 & H3); [intros kv ?; apply Hl; set_solver|].
    split; [done|]. split; [lia|]. intros h x. rewrite H3, elem_of_cons. split; [intros [? ?]; split; [done|]; intros [[[= -> ->]|?] ?]; [congruence|tauto]|tauto].
Qed.

Lemma RemoteToLocals_ok sg s t L : lookup_ok t L ->
  let '(n, t') := RemoteToLocals sg t s in
  lookup_ok t' L /\ 0 <= n /\ forall h x, lk_remotes t' !! h = Some x <-> lk_remotes t !! h = Some x /\ containsTx sg s x = false.
Proof.
  intros Ht. unfold RemoteToLocals. pose proof (fold_migrate sg s L (map_range (lk_remotes t)) 0 t Ht) as H. destruct (fold_left _ _ _) as [n t'].
  destruct H as (H1 & H2 & H3); [rewrite map_range_perm; apply NoDup_fst_map_to_list|intros [h x]; rewrite map_range_perm; by rewrite elem_of_map_to_list|].
  split; [done|]. split; [done|]. intros h x. rewrite H3, map_range_perm, elem_of_map_to_list. destruct (containsTx sg s x); naive_solver.
Qed.

(** ** The price heap *)

Lemma price_asym x y : price_less x y = true -> price_less y x = false.
Proof. unfold price_less. repeat destruct (decide _); try lia; try done. rewrite bool_decide_eq_true, bool_decide_eq_false. lia. Qed.

Lemma price_trans x y z : price_less y x = false -> price_less z y = false -> price_less z x = false.
Proof. unfold price_less. repeat destruct (decide _); try lia; try done. rewrite !bool_decide_eq_false. lia. Qed.

Notation pheap := (heap price_less).

Lemma price_head x h y : pheap (x :: h) -> y ∈ x :: h -> Price x <= Price y.
Proof.
  intros Hh Hy. pose proof (heap_min price_less price_asym price_trans (x :: h) x Hh eq_refl y Hy) as Hm. unfold price_less in Hm. destruct (decide _); [done|lia].
Qed.

(** Every remote transaction is in the heap or in [D]. *)
Record priced_ok (all : txLookup) (l : txPricedList) (D : list Transaction) : Prop := {
  pr_heap : pheap (remotes l);
  pr_covers : forall h tx, lk_remotes all !! h = Some tx -> tx ∈ remotes l \/ tx ∈ D
}.

Lemma priced_ok_new : priced_ok newTxLookup newTxPricedList [].
Proof. split; [apply heap_nil|done]. Qed.

Lemma priced_ok_incl all l D D' : priced_ok all l D -> (forall tx, tx ∈ D -> tx ∈ D') -> priced_ok all l D'.
Proof. intros [H1 H2] HD. split; [done|]. intros h tx Hh. destruct (H2 h tx Hh); [by left|right; by apply HD]. Qed.

(** Fewer remote transactions. *)
Lemma priced_ok_sub all all' l D : priced_ok all l D -> (forall h tx, lk_remotes all' !! h = Some tx -> lk_remotes all !! h = Some tx) -> priced_ok all' l D.
Proof. intros [H1 H2] Hs. split; [done|]. intros h tx Hh. by eapply H2, Hs. Qed.

Lemma priced_Put_ok all l D tx local : priced_ok all l D -> priced_ok (lookup_Add all tx local) (priced_Put l tx local) D.
Proof.
  intros [H1 H2]. unfold priced_Put, lookup_Add. destruct local; [by split|]. destruct (heap_Push_ok price_less price_asym price_trans (remotes l) tx H1) as [H3 H4]. split; [done|].
  cbn. intros h x [[<- <-]|[_ Hx]]%lookup_insert_Some; rewrite H4; [left; set_solver|]. destruct (H2 h x Hx); [left; set_solver|by right].
Qed.

Lemma priced_Removed_ok all l D n : priced_ok all l D -> priced_ok all (priced_Removed all l n) D.
Proof.
  intros [H1 H2]. unfold priced_Removed. destruct (decide _); [by split|]. unfold priced_Reheap. destruct (heap_Init_ok price_less price_asym price_trans (map_range (lk_remotes all)).*2) as [H3 H4].
  split; [done|]. cbn. intros h tx Hh. left. rewrite H4, map_range_perm. apply elem_of_values. by exists h.
Qed.

(** The transactions found under their hash are there to be removed. *)
Definition live (all : txLookup) (tx : Transaction) : Prop := is_Some (lk_remotes all !! tx_Hash tx).

Lemma stale_false all tx : stale all tx = false <-> live all tx.
Proof. unfold stale, live, GetRemote. rewrite bool_decide_eq_false, <- not_eq_None_Some. done. Qed.

(** The head of the heap is taken off. *)
Lemma pop_price h x h0 : h = x :: h0 -> pheap h ->
  exists h', heap_Pop price_less h = Ret (x, h') /\ pheap h' /\ h ≡ₚ x :: h' /\ length h = S (length h') /\ (forall y, y ∈ h' -> Price x <= Price y).
Proof.
  intros -> Hh. destruct (heap_Pop_ok price_less price_asym price_trans (x :: h0) x Hh eq_refl) as (h' & E & Hp & Hh'). exists h'.
  split; [done|]. split; [done|]. split; [done|]. split; [by rewrite (Permutation_length Hp)|]. intros y Hy. apply (price_head x h0 y Hh). rewrite Hp. by constructor.
Qed.

Lemma covers_pop all L l x h' s D : lookup_ok all L -> priced_ok all l D -> pheap h' -> remotes l ≡ₚ x :: h' -> stale all x = true -> priced_ok all (mk_txPricedList h' s) D.
Proof.
  intros Ha [H1 H2] Hh' Hp Hs. split; [done|]. cbn. intros h tx Hh. destruct (H2 h tx Hh) as [Hx|]; [|by right]. rewrite Hp in Hx. apply elem_of_cons in Hx as [->|]; [|by left].
  exfalso. assert (live all x) as Hlive by (unfold live; rewrite (lk_hash all L Ha h x) by tauto; by eexists). apply stale_false in Hlive. congruence.
Qed.

Lemma covers_drop all l x h' s D : priced_ok all l D -> pheap h' -> remotes l ≡ₚ x :: h' -> priced_ok all (mk_txPricedList h' s) (x :: D).
Proof.
  intros [H1 H2] Hh' Hp. split; [done|]. cbn. intros h tx Hh. destruct (H2 h tx Hh) as [Hx|]; [|right; by constructor]. rewrite Hp in Hx. apply elem_of_cons in Hx as [->|]; [right; by constructor|by left].
Qed.

Lemma priced_cap_loop_ok all L threshold fuel : forall l D, (length (remotes l) <= fuel)%nat -> lookup_ok all L -> priced_ok all l D ->
  exists drop l', priced_cap_loop fuel all threshold l = run (Ret (drop, l')) /\ priced_ok all l' (drop ++ D) /\
    (forall tx, tx ∈ drop -> live all tx /\ Price tx < threshold) /\ (forall tx, tx ∈ remotes l' -> threshold <= Price tx).
Proof.
  induction fuel as [|fuel IH]; intros l D Hf Ha Hl; (destruct (remotes l) as [|x h0] eqn:Er; [exists [], l|]).
  1, 3: cbn; rewrite Er; by (split; [done|]; split; [done|]; split; intros ? ?%elem_of_nil).
  - cbn in Hf. lia.
  - destruct (pop_price (remotes l) x h0 Er (pr_heap _ _ _ Hl)) as (h' & E & Hh' & Hp & Hlen & Hmin). rewrite Er in Hlen. cbn [length] in Hf, Hlen. cbn [priced_cap_loop]. rewrite Er, <- Er, E. destruct (stale all x) eqn:Hs.
    + destruct (IH (mk_txPricedList h' (stales l - 1)) D) as (drop & l' & ? & ?); [cbn; lia|done|by eapply covers_pop|]. by exists drop, l'.
    + destruct (decide _) as [Hge|Hlt].
      * exists [], l. split; [done|]. split; [done|]. split; [by intros ? ?%elem_of_nil|]. intros tx Ht. rewrite Hp in Ht. apply elem_of_cons in Ht as [->|Ht]; [lia|]. specialize (Hmin tx Ht). lia.
      * destruct (IH (mk_txPricedList h' (stales l)) (x :: D)) as (drop & l' & E' & H1 & H2 & H3); [cbn; lia|done|by eapply covers_drop|]. cbn [mbind fuelled_bind run]. rewrite E'.
        exists (x :: drop), l'. split; [done|]. split; [|split; [|done]].
        -- eapply priced_ok_incl; [done|]. set_solver.
        -- intros tx [->|Ht]%elem_of_cons; [|by apply H2]. split; [by apply stale_false|lia].
Qed.

Lemma priced_Cap_ok all L l threshold : lookup_ok all L -> priced_ok all l [] ->
  exists drop l', priced_Cap all l threshold = run (Ret (drop, l')) /\ priced_ok all l' drop /\
    (forall tx, tx ∈ drop -> live all tx /\ Price tx < threshold) /\ (forall tx, tx ∈ remotes l' -> threshold <= Price tx).
Proof.
  intros Ha Hl. destruct (priced_cap_loop_ok all L threshold (length (remotes l)) l []) as (drop & l' & E & H1 & H2); [done|done|done|]. exists drop, l'. by rewrite app_nil_r in H1.
Qed.

Lemma drop_stale_ok all L fuel : forall l D, (length (remotes l) <= fuel)%nat -> lookup_ok all L -> priced_ok all l D ->
  exists l', drop_stale fuel all l = run (Ret l') /\ priced_ok all l' D.
Proof.
  induction fuel as [|fuel IH]; intros l D Hf Ha Hl; (destruct (remotes l) as [|x h0] eqn:Er; [exists l; cbn; by rewrite Er|]); [cbn in Hf; lia|].
  destruct (pop_price (remotes l) x h0 Er (pr_heap _ _ _ Hl)) as (h' & E & Hh' & Hp & Hlen & Hmin). rewrite Er in Hlen. cbn [length] in Hf, Hlen. cbn [drop_stale]. rewrite Er, <- Er, E.
  destruct (stale all x) eqn:Hs; [|by exists l]. apply IH; [cbn; lia|done|by eapply covers_pop].
Qed.

(** A transaction that is called underpriced pays no more than any remote one. *)
Lemma Underpriced_ok all L l tx : lookup_ok all L -> priced_ok all l [] ->
  exists b l', Underpriced all l tx = run (Ret (b, l')) /\ priced_ok all l' [] /\ (b = true -> forall h x, lk_remotes all !! h = Some x -> Price tx <= Price x).
Proof.
  intros Ha Hl. unfold Underpriced. destruct (drop_stale_ok all L (length (remotes l)) l []) as (l' & -> & Hl'); [done|done|done|]. cbn [mbind fuelled_bind run].
  destruct (remotes l') as [|x h0] eqn:Er; [by eexists _, _|]. eexists _, l'. split; [done|]. split; [done|]. intros Hb%bool_decide_eq_true h y Hy.
  destruct (pr_covers _ _ _ Hl' h y Hy) as [Hin|?%elem_of_nil]; [|done]. pose proof (pr_heap _ _ _ Hl') as Hh. rewrite Er in Hh, Hin. pose proof (price_head x h0 y Hh Hin). lia.
Qed.

Lemma discard_loop_ok all L fuel : forall n l D, (length (remotes l) <= fuel)%nat -> lookup_ok all L -> priced_ok all l D ->
  exists drop l', discard_loop fuel all n l = run (Ret (drop, n - sum_slots drop, l')) /\ priced_ok all l' (drop ++ D) /\
    (forall tx, tx ∈ drop -> live all tx /\ tx ∈ remotes l) /\ (forall x y, x ∈ drop -> y ∈ remotes l' -> Price x <= Price y) /\ (forall y, y ∈ remotes l' -> y ∈ remotes l).
Proof.
  induction fuel as [|fuel IH]; intros n l D Hf Ha Hl; (destruct (remotes l) as [|x h0] eqn:Er; [exists [], l|]).
  1, 3: cbn; rewrite Er, Z.sub_0_r; by (split; [done|]; split; [done|]; split; [intros ? ?%elem_of_nil|split; [intros ? ? ?%elem_of_nil|]]).
  - cbn in Hf. lia.
  - destruct (pop_price (remotes l) x h0 Er (pr_heap _ _ _ Hl)) as (h' & E & Hh' & Hp & Hlen & Hmin). rewrite Er in Hlen. cbn [length] in Hf, Hlen. cbn [discard_loop]. rewrite Er, <- Er, E.
    destruct (decide (n > 0)) as [Hn|Hn]; cycle 1.
    { exists [], l. cbn [sum_slots]. rewrite Z.sub_0_r. split; [done|]. split; [done|]. split; [intros ? ?%elem_of_nil; done|split; [by intros ? ? ?%elem_of_nil|done]]. }
    cbn [mbind fuelled_bind run]. destruct (stale all x) eqn:Hs.
    + destruct (IH n (mk_txPricedList h' (stales l - 1)) D) as (drop & l' & ? & ? & H1 & H2 & H3); [cbn; lia|done|by eapply covers_pop|]. cbn [remotes] in *. exists drop, l'. split; [done|]. split; [done|].
      split; [intros tx Ht; split; [by apply H1|]; rewrite Hp; constructor; by apply H1|]. split; [done|]. intros y Hy. rewrite Hp. constructor. by apply H3.
    + destruct (IH (n - numSlots x) (mk_txPricedList h' (stales l)) (x :: D)) as (drop & l' & E' & H0 & H1 & H2 & H3); [cbn; lia|done|by eapply covers_drop|]. rewrite E'. cbn [remotes] in *.
      exists (x :: drop), l'. cbn [mbind fuelled_bind run sum_slots]. rewrite Z.sub_add_distr. split; [done|]. split; [eapply priced_ok_incl; [done|]; set_solver|]. split; [|split].
      * intros tx [->|Ht]%elem_of_cons; [split; [by apply stale_false|rewrite Hp; by constructor]|]. split; [by apply H1|]. rewrite Hp. constructor. by apply H1.
      * intros a b [->|Hx]%elem_of_cons Hy; [by apply Hmin, H3|by apply H2].
      * intros y Hy. rewrite Hp. constructor. by apply H3.
Qed.

Lemma push_all_ok drop : forall h, pheap h -> pheap (fold_left (heap_Push price_less) drop h) /\ fold_left (heap_Push price_less) drop h ≡ₚ drop ++ h.
Proof.
  induction drop as [|x drop IH]; intros h Hh; [done|]. cbn [fold_left]. destruct (heap_Push_ok price_less price_asym price_trans h x Hh) as [H1 H2]. destruct (IH _ H1) as [H3 H4]. split; [done|].
  rewrite H4, H2. cbn. by rewrite <- Permutation_middle.
Qed.

(** [Discard] takes the cheapest remote transactions, for as many slots as are asked for,
    or none if there are not enough and it is not forced. *)
Lemma Discard_ok all L l n force : lookup_ok all L -> priced_ok all l [] -> 0 <= n ->
  exists drop ok l', Discard all l n force = run (Ret (drop, ok, l')) /\ priced_ok all l' drop /\ (forall tx, tx ∈ drop -> live all tx /\ tx ∈ remotes l) /\
    (forall x y, x ∈ drop -> y ∈ remotes l' -> Price x <= Price y) /\ (ok = false -> drop = [] /\ force = false) /\ (ok = true -> force = true \/ n <= sum_slots drop).
Proof.
  intros Ha Hl Hn. unfold Discard. rewrite decide_False by lia. destruct (discard_loop_ok all L (length (remotes l)) n l []) as (drop & l' & -> & H1 & H2 & H3 & _); [done|done|done|]. rewrite app_nil_r in H1.
  cbn [mbind fuelled_bind run]. destruct (decide _) as [Hlack|Hlack]; [destruct force|]; [by eexists _, _, _; split_and!; try done; left| |eexists _, _, _; split_and!; try done; intros _; right; lia].
  eexists [], false, _. split; [done|]. destruct (push_all_ok drop (remotes l') (pr_heap _ _ _ H1)) as [H4 H5]. split; [|split; [intros ? ?%elem_of_nil; done|split; [by intros ? ? ?%elem_of_nil|done]]].
  split; [done|]. cbn. intros h tx Hh. left. rewrite H5. destruct (pr_covers _ _ _ H1 h tx Hh); set_solver.
Qed.
End LookupProofs.
