(* ===== verification/TxPool.v ===== *)
(** * The transaction pool (core/tx_pool.go)

    The pool keeps the executable transactions of every account in [pending] and the
    others in [queue].  The lock that every operation takes makes them sequential; the
    readings of the clock, the order in which a map is visited and the order of equal
    elements after a sort are arbitrary.  Logs and metrics are left out. *)

From stdpp Require Import gmap sorting.
From S2P Require Import Prelude VmPrecompiles BlockTypes ChainConfig StateTransition GoHeap TxList TxSigning TxLookup.

(** ** Errors *)

Inductive pool_err :=
| ErrAlreadyKnown | ErrInvalidSender | ErrUnderpriced | ErrTxPoolOverflow | ErrReplaceUnderpriced | ErrGasLimit | ErrNegativeValue | ErrOversizedData
| ErrCore (e : Core.error).

#[global] Instance pool_err_dec : EqDecision pool_err.
Proof. solve_decision. Defined.

(** ** Configuration *)

Record TxPoolConfig := mk_TxPoolConfig {
  Locals : list Z;
  NoLocals : bool;
  Journal : bytes;
  Rejournal : Z;
  PriceLimit : Z;
  PriceBump : Z;
  AccountSlots : Z;
  GlobalSlots : Z;
  AccountQueue : Z;
  GlobalQueue : Z;
  Lifetime : Z
}.

Definition Second : Z := 10 ^ 9.
Definition Hour : Z := 3600 * Second.

(** The name of the journal is ["transactions.rlp"]. *)
Definition DefaultTxPoolConfig : TxPoolConfig :=
  mk_TxPoolConfig [] false [116; 114; 97; 110; 115; 97; 99; 116; 105; 111; 110; 115; 46; 114; 108; 112] Hour 1 10 16 4096 64 1024 (3 * Hour).

Definition sanitize (conf : TxPoolConfig) : TxPoolConfig :=
  let at_least low v d := if decide (v < low) then d else v in
  mk_TxPoolConfig (Locals conf) (NoLocals conf) (Journal conf)
    (at_least Second (Rejournal conf) Second)
    (at_least 1 (PriceLimit conf) (PriceLimit DefaultTxPoolConfig))
    (at_least 1 (PriceBump conf) (PriceBump DefaultTxPoolConfig))
    (at_least 1 (AccountSlots conf) (AccountSlots DefaultTxPoolConfig))
    (at_least 1 (GlobalSlots conf) (GlobalSlots DefaultTxPoolConfig))
    (at_least 1 (AccountQueue conf) (AccountQueue DefaultTxPoolConfig))
    (at_least 1 (GlobalQueue conf) (GlobalQueue DefaultTxPoolConfig))
    (at_least 1 (Lifetime conf) (Lifetime DefaultTxPoolConfig)).

(** ** The chain as the pool sees it *)

(** What the pool reads of a [state.StateDB]. *)
Record StateReader := mk_StateReader { GetNonce : Z -> Z; GetBalance : Z -> Z }.

Record TxBlock := mk_TxBlock { blk_header : Types.Header; Transactions : list Transaction }.

(** The interface [blockChain]. *)
Record blockChain := mk_blockChain {
  CurrentBlock : TxBlock;
  GetBlock : Z -> Z -> option TxBlock;
  StateAt : Z -> option StateReader
}.

(** What does not change in a pool, and the readings of the clock, in nanoseconds. *)
Class PoolEnv := {
  config : TxPoolConfig;
  chainconfig : Params.ChainConfig;
  clock : nat -> Z
}.

(** [sort.Sort] of the accounts by heartbeat. *)
Class BeatOrder := {
  sort_beats : list (Z * Z) -> list (Z * Z);
  sort_beats_perm l : sort_beats l ≡ₚ l;
  sort_beats_sorted l : StronglySorted (fun x y => x.2 <= y.2) (sort_beats l)
}.

(** ** The pool *)

(** [journal] has what was written to the journal, [events] what was sent to the
    scheduler, [ticks] the number of readings of the clock. *)
Record TxPool := mk_TxPool {
  gasPrice : Z;
  istanbul : bool;
  currentState : StateReader;
  pendingNonces : txNoncer;
  currentMaxGas : Z;
  locals : accountSet;
  journal : option (list Transaction);
  pending : gmap Z txList;
  queue : gmap Z txList;
  beats : gmap Z Z;
  all : txLookup;
  priced : txPricedList;
  events : list Transaction;
  ticks : nat
}.

Definition set_gasPrice (p : TxPool) v := mk_TxPool v (istanbul p) (currentState p) (pendingNonces p) (currentMaxGas p) (locals p) (journal p) (pending p) (queue p) (beats p) (all p) (priced p) (events p) (ticks p).
Definition set_istanbul (p : TxPool) v := mk_TxPool (gasPrice p) v (currentState p) (pendingNonces p) (currentMaxGas p) (locals p) (journal p) (pending p) (queue p) (beats p) (all p) (priced p) (events p) (ticks p).
Definition set_state (p : TxPool) s n g := mk_TxPool (gasPrice p) (istanbul p) s n g (locals p) (journal p) (pending p) (queue p) (beats p) (all p) (priced p) (events p) (ticks p).
Definition set_nonces (p : TxPool) v := mk_TxPool (gasPrice p) (istanbul p) (currentState p) v (currentMaxGas p) (locals p) (journal p) (pending p) (queue p) (beats p) (all p) (priced p) (events p) (ticks p).
Definition set_locals (p : TxPool) v := mk_TxPool (gasPrice p) (istanbul p) (currentState p) (pendingNonces p) (currentMaxGas p) v (journal p) (pending p) (queue p) (beats p) (all p) (priced p) (events p) (ticks p).
Definition set_journal (p : TxPool) v := mk_TxPool (gasPrice p) (istanbul p) (currentState p) (pendingNonces p) (currentMaxGas p) (locals p) v (pending p) (queue p) (beats p) (all p) (priced p) (events p) (ticks p).
Definition set_pending (p : TxPool) v := mk_TxPool (gasPrice p) (istanbul p) (currentState p) (pendingNonces p) (currentMaxGas p) (locals p) (journal p) v (queue p) (beats p) (all p) (priced p) (events p) (ticks p).
Definition set_queue (p : TxPool) v := mk_TxPool (gasPrice p) (istanbul p) (currentState p) (pendingNonces p) (currentMaxGas p) (locals p) (journal p) (pending p) v (beats p) (all p) (priced p) (events p) (ticks p).
Definition set_beats (p : TxPool) v := mk_TxPool (gasPrice p) (istanbul p) (currentState p) (pendingNonces p) (currentMaxGas p) (locals p) (journal p) (pending p) (queue p) v (all p) (priced p) (events p) (ticks p).
Definition set_all (p : TxPool) v := mk_TxPool (gasPrice p) (istanbul p) (currentState p) (pendingNonces p) (currentMaxGas p) (locals p) (journal p) (pending p) (queue p) (beats p) v (priced p) (events p) (ticks p).
Definition set_priced (p : TxPool) v := mk_TxPool (gasPrice p) (istanbul p) (currentState p) (pendingNonces p) (currentMaxGas p) (locals p) (journal p) (pending p) (queue p) (beats p) (all p) v (events p) (ticks p).
Definition set_events (p : TxPool) v := mk_TxPool (gasPrice p) (istanbul p) (currentState p) (pendingNonces p) (currentMaxGas p) (locals p) (journal p) (pending p) (queue p) (beats p) (all p) (priced p) v (ticks p).
Definition tick (p : TxPool) := mk_TxPool (gasPrice p) (istanbul p) (currentState p) (pendingNonces p) (currentMaxGas p) (locals p) (journal p) (pending p) (queue p) (beats p) (all p) (priced p) (events p) (S (ticks p)).

(** The entry of an account, and the map with a list for the account. *)
Definition set_pending_list (p : TxPool) (addr : Z) (l : txList) : TxPool := set_pending p (<[addr := l]> (pending p)).
Definition set_queue_list (p : TxPool) (addr : Z) (l : txList) : TxPool := set_queue p (<[addr := l]> (queue p)).

Section Pool.
Context {C : Crypto} {MO : MapOrder} {Env : PoolEnv} {BO : BeatOrder}.

Definition signer : Signer := EIP155Signer (default 0 (Params.ChainID chainconfig)).
Definition sender (tx : Transaction) : option Z := Sender signer tx.
(** The zero address where there is no sender. *)
Definition from_of (tx : Transaction) : Z := default 0 (sender tx).

(** [time.Now] *)
Definition now (p : TxPool) : Z * TxPool := (clock (ticks p), tick p).

(** A list of transactions drops out of the lookup; the price heap is told how many. *)
Definition all_Remove (p : TxPool) (hash : Z) : TxPool := set_all p (lookup_Remove (all p) hash).
Definition Removed (p : TxPool) (count : Z) : TxPool := set_priced p (priced_Removed (all p) (priced p) count).
Definition remove_all (p : TxPool) (l : list Transaction) : TxPool := fold_left (fun p tx => all_Remove p (tx_Hash tx)) l p.
Definition beat (p : TxPool) (addr : Z) : TxPool := let '(t, p) := now p in set_beats p (<[addr := t]> (beats p)).

(** ** Adding *)

Definition validateTx (p : TxPool) (tx : Transaction) (local : bool) : option pool_err :=
  if decide (u64 (tx_Size tx) > txMaxSize) then Some ErrOversizedData
  else if decide (Amount tx < 0) then Some ErrNegativeValue
  else if decide (currentMaxGas p < tx_GasLimit tx) then Some ErrGasLimit
  else match sender tx with
  | None => Some ErrInvalidSender
  | Some from =>
      if negb local && bool_decide (Price tx < gasPrice p) then Some ErrUnderpriced
      else if decide (GetNonce (currentState p) from > AccountNonce tx) then Some (ErrCore Core.ErrNonceTooLow)
      else if decide (GetBalance (currentState p) from < Cost tx) then Some (ErrCore Core.ErrInsufficientFunds)
      else match IntrinsicGas (Payload tx) (bool_decide (Recipient tx = None)) true (istanbul p) with
      | inl e => Some (ErrCore e)
      | inr intrGas => if decide (tx_GasLimit tx < intrGas) then Some (ErrCore Core.ErrIntrinsicGas) else None
      end
  end.

(** Whether a transaction was replaced, or the error. *)
Definition enqueueTx (p : TxPool) (hash : Z) (tx : Transaction) (local addAll : bool) : (pool_err + bool) * TxPool :=
  let from := from_of tx in
  let list := default (newTxList false) (queue p !! from) in
  let '(inserted, old, list) := list_Add list tx (PriceBump config) in
  let p := set_queue_list p from list in
  if negb inserted then (inl ErrReplaceUnderpriced, p)
  else
    let p := match old with Some o => Removed (all_Remove p (tx_Hash o)) 1 | None => p end in
    let p := if addAll then let p := set_all p (lookup_Add (all p) tx local) in set_priced p (priced_Put (priced p) tx local) else p in
    let p := match beats p !! from with Some _ => p | None => beat p from end in
    (inr (bool_decide (is_Some old)), p).

(** Only the file is touched. *)
Definition journalTx (p : TxPool) (from : Z) (tx : Transaction) : TxPool :=
  match journal p with
  | Some j => if contains (locals p) from then set_journal p (Some (j ++ [tx])) else p
  | None => p
  end.

Definition queueTxEvent (p : TxPool) (tx : Transaction) : TxPool := set_events p (events p ++ [tx]).

Definition promoteTx (p : TxPool) (addr hash : Z) (tx : Transaction) : bool * TxPool :=
  let list := default (newTxList true) (pending p !! addr) in
  let '(inserted, old, list) := list_Add list tx (PriceBump config) in
  let p := set_pending_list p addr list in
  if negb inserted then (false, Removed (all_Remove p hash) 1)
  else
    let p := match old with Some o => Removed (all_Remove p (tx_Hash o)) 1 | None => p end in
    let p := set_nonces p (noncer_set (pendingNonces p) addr (u64 (AccountNonce tx + 1))) in
    (true, beat p addr).

(** ** Removing *)

(** Transactions go back to the queue. *)
Definition requeue (p : TxPool) (l : list Transaction) : TxPool := fold_left (fun p tx => (enqueueTx p (tx_Hash tx) tx false false).2) l p.

(** The part of [removeTx] about the pending list: whether it was there. *)
Definition remove_pending (p : TxPool) (addr : Z) (tx : Transaction) : F (bool * TxPool) :=
  match pending p !! addr with
  | None => run (Ret (false, p))
  | Some list =>
      '(removed, invalids, list) ← run (list_Remove list tx);
      let p := set_pending_list p addr list in
      if negb removed then run (Ret (false, p))
      else
        let p := if list_Empty list then set_pending p (base.delete addr (pending p)) else p in
        let p := requeue p invalids in
        run (Ret (true, set_nonces p (noncer_setIfLower (pendingNonces p) addr (AccountNonce tx))))
  end.

(** The part about the queue. *)
Definition remove_queued (p : TxPool) (addr : Z) (tx : Transaction) : F TxPool :=
  match queue p !! addr with
  | None => run (Ret p)
  | Some list =>
      '(_, _, list) ← run (list_Remove list tx);
      let p := set_queue_list p addr list in
      run (Ret (if list_Empty list then set_beats (set_queue p (base.delete addr (queue p))) (base.delete addr (beats p)) else p))
  end.

Definition removeTx (p : TxPool) (hash : Z) (outofbound : bool) : F TxPool :=
  match lookup_Get (all p) hash with
  | None => run (Ret p)
  | Some tx =>
      let addr := from_of tx in
      let p := all_Remove p hash in
      let p := if outofbound then Removed p 1 else p in
      '(removed, p) ← remove_pending p addr tx;
      if (removed : bool) then run (Ret p) else remove_queued p addr tx
  end.

(** A removal for every transaction of a list. *)
Fixpoint removeTxs (p : TxPool) (l : list Transaction) (outofbound : bool) : F TxPool :=
  match l with
  | [] => run (Ret p)
  | tx :: l => p ← removeTx p (tx_Hash tx) outofbound; removeTxs p l outofbound
  end.

Definition SetGasPrice (p : TxPool) (price : Z) : F TxPool :=
  let p := set_gasPrice p price in
  '(drop, l) ← priced_Cap (all p) (priced p) price;
  removeTxs (set_priced p l) drop false.

(** ** add *)

(** Room is made for a transaction in a full pool: nothing is returned if there is room. *)
Definition make_room (p : TxPool) (tx : Transaction) (isLocal : bool) : F (option pool_err * TxPool) :=
  let limit := u64 (GlobalSlots config + GlobalQueue config) in
  if decide (u64 (Count (all p) + numSlots tx) > limit) then
    '(underpriced, p) ← (if isLocal then run (Ret (false, p)) else '(b, l) ← Underpriced (all p) (priced p) tx; run (Ret (b, set_priced p l)));
    if (underpriced : bool) then run (Ret (Some ErrUnderpriced, p))
    else
      '(drop, success, l) ← Discard (all p) (priced p) (Slots (all p) - i64 limit + numSlots tx) isLocal;
      let p := set_priced p l in
      if negb isLocal && negb success then run (Ret (Some ErrTxPoolOverflow, p))
      else p ← removeTxs p drop false; run (Ret (None, p))
  else run (Ret (None, p)).

(** A pending transaction is replaced. *)
Definition replace_pending (p : TxPool) (from : Z) (list : txList) (tx : Transaction) (isLocal : bool) : (pool_err + bool) * TxPool :=
  let '(inserted, old, list) := list_Add list tx (PriceBump config) in
  let p := set_pending_list p from list in
  if negb inserted then (inl ErrReplaceUnderpriced, p)
  else
    let p := match old with Some o => Removed (all_Remove p (tx_Hash o)) 1 | None => p end in
    let p := set_all p (lookup_Add (all p) tx isLocal) in
    let p := set_priced p (priced_Put (priced p) tx isLocal) in
    let p := journalTx p from tx in
    let p := queueTxEvent p tx in
    (inr (bool_decide (is_Some old)), beat p from).

(** The sender becomes a local account, with the transactions that it has in the pool. *)
Definition mark_local (p : TxPool) (from : Z) : TxPool :=
  let p := set_locals p ({[from]} ∪ locals p) in
  let '(migrated, a) := RemoteToLocals signer (all p) (locals p) in
  Removed (set_all p a) migrated.

Definition add (p : TxPool) (tx : Transaction) (local : bool) : F ((pool_err + bool) * TxPool) :=
  let hash := tx_Hash tx in
  match lookup_Get (all p) hash with
  | Some _ => run (Ret (inl ErrAlreadyKnown, p))
  | None =>
      let isLocal := local || containsTx signer (locals p) tx in
      match validateTx p tx isLocal with
      | Some e => run (Ret (inl e, p))
      | None =>
          '(e, p) ← make_room p tx isLocal;
          match (e : option pool_err) with
          | Some e => run (Ret (inl e, p))
          | None =>
              let from := from_of tx in
              let overlapping := match pending p !! from with Some list => if list_Overlaps list tx then Some list else None | None => None end in
              match overlapping with
              | Some list => run (Ret (replace_pending p from list tx isLocal))
              | None =>
                  let '(r, p) := enqueueTx p hash tx isLocal true in
                  match r with
                  | inl e => run (Ret (inl e, p))
                  | inr replaced =>
                      let p := if local && negb (contains (locals p) from) then mark_local p from else p in
                      run (Ret (inr replaced, journalTx p from tx))
                  end
              end
          end
      end
  end.

(** The error of each transaction, and the accounts that are to be looked at. *)
Fixpoint addTxsLocked (p : TxPool) (txs : list Transaction) (local : bool) (dirty : accountSet) : F (list (option pool_err) * accountSet * TxPool) :=
  match txs with
  | [] => run (Ret ([], dirty, p))
  | tx :: txs =>
      '(r, p) ← add p tx local;
      let dirty := match (r : pool_err + bool) with inr false => addTx signer dirty tx | _ => dirty end in
      '(errs, dirty, p) ← addTxsLocked p txs local dirty;
      run (Ret (match r with inl e => Some e | inr _ => None end :: errs, dirty, p))
  end.

(** The errors that are known before the lock is taken, and the other transactions. *)
Definition known_err (p : TxPool) (tx : Transaction) : option pool_err :=
  if decide (is_Some (lookup_Get (all p) (tx_Hash tx))) then Some ErrAlreadyKnown
  else match sender tx with None => Some ErrInvalidSender | Some _ => None end.

(** The slots without an error take the errors of the second pass in order. Running out
    of slots is an index out of range. *)
Fixpoint merge_errs (errs newErrs : list (option pool_err)) {struct errs} : P (list (option pool_err)) :=
  match newErrs, errs with
  | [], _ => Ret errs
  | _, [] => Panic
  | _, Some x :: errs => r ← merge_errs errs newErrs; Ret (Some x :: r)
  | e :: newErrs, None :: errs => r ← merge_errs errs newErrs; Ret (e :: r)
  end.

(** [addTxs] up to the request for a promotion, which is returned: none if nothing is new. *)
Definition addTxs (p : TxPool) (txs : list Transaction) (local : bool) : F (list (option pool_err) * option accountSet * TxPool) :=
  let errs := map (known_err p) txs in
  let news := base.filter (fun tx => known_err p tx = None) txs in
  if decide (news = []) then run (Ret (errs, None, p))
  else
    '(newErrs, dirty, p) ← addTxsLocked p news local ∅;
    errs ← run (merge_errs errs newErrs);
    run (Ret (errs, Some dirty, p)).

Definition AddLocals (p : TxPool) (txs : list Transaction) : F (list (option pool_err) * option accountSet * TxPool) := addTxs p txs (negb (NoLocals config)).
Definition AddRemotes (p : TxPool) (txs : list Transaction) : F (list (option pool_err) * option accountSet * TxPool) := addTxs p txs false.

(** ** Promotion and demotion *)

(** The ready transactions of an account become pending: those that were promoted. *)
Definition promote_readies (p : TxPool) (addr : Z) (readies : list Transaction) : list Transaction * TxPool :=
  fold_left (fun '(promoted, p) tx => let '(ok, p) := promoteTx p addr (tx_Hash tx) tx in (if (ok : bool) then promoted ++ [tx] else promoted, p)) readies ([], p).

(** One account of [promoteExecutables]. *)
Definition promote_account (p : TxPool) (addr : Z) : F (list Transaction * TxPool) :=
  match queue p !! addr with
  | None => run (Ret ([], p))
  | Some list =>
      '(forwards, list) ← list_Forward list (GetNonce (currentState p) addr);
      let p := remove_all (set_queue_list p addr list) forwards in
      let '(drops, _, list) := list_Filter list (GetBalance (currentState p) addr) (currentMaxGas p) in
      let p := remove_all (set_queue_list p addr list) drops in
      let '(nonce, n) := noncer_get (pendingNonces p) addr in
      let p := set_nonces p n in
      '(readies, list) ← list_Ready list nonce;
      let p := set_queue_list p addr list in
      let '(promoted, p) := promote_readies p addr readies in
      '(caps, list, p) ←
        (if contains (locals p) addr then run (Ret ([], list, p))
         else '(caps, list) ← run (list_Cap list (i64 (AccountQueue config))); run (Ret (caps, list, remove_all (set_queue_list p addr list) caps)));
      let p := Removed p (zlen forwards + zlen drops + zlen caps) in
      run (Ret (promoted, if list_Empty list then set_beats (set_queue p (base.delete addr (queue p))) (base.delete addr (beats p)) else p))
  end.

Fixpoint promoteExecutables (p : TxPool) (accounts : list Z) : F (list Transaction * TxPool) :=
  match accounts with
  | [] => run (Ret ([], p))
  | addr :: accounts =>
      '(promoted, p) ← promote_account p addr;
      '(rest, p) ← promoteExecutables p accounts;
      run (Ret (promoted ++ rest, p))
  end.

(** One account of [demoteUnexecutables]. *)
Definition demote_account (p : TxPool) (addr : Z) : F TxPool :=
  match pending p !! addr with
  | None => run (Ret p)
  | Some list =>
      let nonce := GetNonce (currentState p) addr in
      '(olds, list) ← list_Forward list nonce;
      let p := remove_all (set_pending_list p addr list) olds in
      let '(drops, invalids, list) := list_Filter list (GetBalance (currentState p) addr) (currentMaxGas p) in
      let p := remove_all (set_pending_list p addr list) drops in
      let p := Removed p (zlen olds + zlen drops) in
      let p := requeue p invalids in
      '(list, p) ←
        (if decide (list_Len list > 0 /\ sorted_Get (txs list) nonce = None) then
           '(gapped, list) ← run (list_Cap list 0);
           run (Ret (list, requeue (set_pending_list p addr list) gapped))
         else run (Ret (list, p)));
      run (Ret (if list_Empty list then set_pending p (base.delete addr (pending p)) else p))
  end.

Fixpoint demote_accounts (p : TxPool) (accounts : list Z) : F TxPool :=
  match accounts with
  | [] => run (Ret p)
  | addr :: accounts => p ← demote_account p addr; demote_accounts p accounts
  end.

Definition demoteUnexecutables (p : TxPool) : F TxPool := demote_accounts p (map_range (pending p)).*1.

(** ** Limits *)

(** The number of transactions in a map of lists, as a word. *)
Definition count_lists (m : gmap Z txList) : Z := fold_left (fun n kv => u64 (n + u64 (list_Len kv.2))) (map_range m) 0.

(** [prque]: the items by falling priority. The stack of blocks under the heap is a list here. *)
Definition prque_less (x y : Z * Z) : bool := bool_decide (i64 (x.2 - y.2) > 0).
Definition prque_Push (q : list (Z * Z)) (data priority : Z) : list (Z * Z) := heap_Push prque_less q (data, priority).
Definition prque_Pop (q : list (Z * Z)) : P (Z * Z * list (Z * Z)) := heap_Pop prque_less q.

Definition pending_list (p : TxPool) (addr : Z) : P txList := match pending p !! addr with Some l => Ret l | None => Panic end.

(** The last transaction of an offender is dropped. *)
Definition drop_last (p : TxPool) (addr : Z) : P TxPool :=
  list ← pending_list p addr;
  '(caps, list) ← list_Cap list (list_Len list - 1);
  let p := set_pending_list p addr list in
  let p := fold_left (fun p tx =>
    let p := all_Remove p (tx_Hash tx) in set_nonces p (noncer_setIfLower (pendingNonces p) addr (AccountNonce tx))) caps p in
  Ret (Removed p (zlen caps)).

(** The last transaction of each of some offenders; [count] is the number of pending ones. *)
Fixpoint drop_each (p : TxPool) (count : Z) (offenders : list Z) : P (Z * TxPool) :=
  match offenders with
  | [] => Ret (count, p)
  | addr :: offenders => p ← drop_last p addr; drop_each p (u64 (count - 1)) offenders
  end.

(** Rounds over [offenders], until there are few enough pending transactions or those of [pivot] are down to [threshold]. *)
Fixpoint drop_rounds (fuel : nat) (p : TxPool) (count threshold pivot : Z) (offenders : list Z) : F (Z * TxPool) :=
  if decide (count > GlobalSlots config) then
    list ← run (pending_list p pivot);
    if decide (list_Len list > threshold) then
      match fuel with
      | O => out_of_fuel
      | S fuel => '(count, p) ← run (drop_each p count offenders); drop_rounds fuel p count threshold pivot offenders
      end
    else run (Ret (count, p))
  else run (Ret (count, p)).

(** The offenders so far, the last one first. *)
Fixpoint equalize (fuel : nat) (p : TxPool) (count : Z) (spammers : list (Z * Z)) (offenders : list Z) : F (Z * list Z * TxPool) :=
  if decide (count > GlobalSlots config) then
    match spammers with
    | [] => run (Ret (count, offenders, p))
    | _ :: _ =>
        match fuel with
        | O => out_of_fuel
        | S fuel =>
            '(offender, _, spammers) ← run (prque_Pop spammers);
            match offenders with
            | [] => equalize fuel p count spammers [offender]
            | pivot :: _ =>
                list ← run (pending_list p offender);
                '(count, p) ← drop_rounds (Z.to_nat count) p count (list_Len list) pivot (rev offenders);
                equalize fuel p count spammers (offender :: offenders)
            end
        end
    end
  else run (Ret (count, offenders, p)).

Definition truncatePending (p : TxPool) : F TxPool :=
  let count := count_lists (pending p) in
  if decide (count <= GlobalSlots config) then run (Ret p)
  else
    let spammers := fold_left (fun q kv =>
      if negb (contains (locals p) kv.1) && bool_decide (u64 (list_Len kv.2) > AccountSlots config) then prque_Push q kv.1 (list_Len kv.2) else q)
      (map_range (pending p)) [] in
    '(count, offenders, p) ← equalize (length spammers) p count spammers [];
    match offenders with
    | [] => run (Ret p)
    | pivot :: _ => '(_, p) ← drop_rounds (Z.to_nat count) p count (AccountSlots config) pivot (rev offenders); run (Ret p)
    end.

(** Transactions are dropped from the back of a list, [drop] at most. *)
Fixpoint drop_back (p : TxPool) (txs : list Transaction) (drop : Z) : F (Z * TxPool) :=
  match txs with
  | [] => run (Ret (drop, p))
  | tx :: txs => if decide (drop > 0) then p ← removeTx p (tx_Hash tx) true; drop_back p txs (drop - 1) else run (Ret (drop, p))
  end.

(** The accounts from the last one on. *)
Fixpoint truncate_loop (p : TxPool) (addresses : list Z) (drop : Z) : F TxPool :=
  match addresses with
  | [] => run (Ret p)
  | addr :: addresses =>
      if decide (drop > 0) then
        match queue p !! addr with
        | None => run Panic
        | Some list =>
            let size := u64 (list_Len list) in
            let '(txs, list) := list_Flatten list in
            let p := set_queue_list p addr list in
            if decide (size <= drop) then p ← removeTxs p txs true; truncate_loop p addresses (drop - size)
            else '(drop, p) ← drop_back p (rev txs) drop; truncate_loop p addresses drop
        end
      else run (Ret p)
  end.

Definition zeroTime : Z := - 62135596800 * Second.
Definition beat_of (p : TxPool) (addr : Z) : Z := default zeroTime (beats p !! addr).

Definition truncateQueue (p : TxPool) : F TxPool :=
  let queued := count_lists (queue p) in
  if decide (queued <= GlobalQueue config) then run (Ret p)
  else
    let addresses := base.filter (fun addr => contains (locals p) addr = false) (map_range (queue p)).*1 in
    let sorted := sort_beats (map (fun addr => (addr, beat_of p addr)) addresses) in
    truncate_loop p (rev sorted.*1) (queued - GlobalQueue config).

(** ** Reset to a new head *)

Definition NumberU64 (b : TxBlock) : Z := big_Uint64 (Types.Number (blk_header b)).
Definition block_Hash (b : TxBlock) : Z := Types.Hash (blk_header b).
Definition parent_of (chain : blockChain) (b : TxBlock) : option TxBlock := GetBlock chain (Types.ParentHash (blk_header b)) (u64 (NumberU64 b - 1)).

(** The transactions of the blocks from [b] down to the height [low], and the block there. *)
Fixpoint walk_down (fuel : nat) (chain : blockChain) (b : TxBlock) (low : Z) : option (option (list Transaction * TxBlock)) :=
  if decide (NumberU64 b > low) then
    match fuel with
    | O => None
    | S fuel =>
        match parent_of chain b with
        | None => Some None
        | Some b' => match walk_down fuel chain b' low with Some (Some (l, r)) => Some (Some (Transactions b ++ l, r)) | x => x end
        end
    end
  else Some (Some ([], b)).

(** Two chains, down to the block that they share: the transactions of each. *)
Fixpoint walk_common (fuel : nat) (chain : blockChain) (rem add : TxBlock) : option (option (list Transaction * list Transaction)) :=
  if decide (block_Hash rem = block_Hash add) then Some (Some ([], []))
  else
    match fuel with
    | O => None
    | S fuel =>
        match parent_of chain rem with
        | None => Some None
        | Some rem' =>
            match parent_of chain add with
            | None => Some None
            | Some add' => match walk_common fuel chain rem' add' with Some (Some (d, i)) => Some (Some (Transactions rem ++ d, Transactions add ++ i)) | x => x end
            end
        end
    end.

(** A word as a [float64]: the nearest multiple of a power of two with 53 bits. *)
Definition round53 (n : Z) : Z :=
  if decide (n < 2 ^ 53) then n
  else
    let u := 2 ^ (Z.log2 n - 52) in
    let q := n / u in
    let r := n mod u in
    u * (if decide (2 * r < u \/ (2 * r = u /\ Z.even q = true)) then q else q + 1).
Definition reorg_depth (oldNum newNum : Z) : Z := round53 (Z.abs (round53 oldNum - round53 newNum)).

(** The transactions to inject again; none at all if the reset is given up. *)
Definition reinject_of (fuel : nat) (chain : blockChain) (oldHead : option Types.Header) (newHead : Types.Header) : F (option (list Transaction)) :=
  match oldHead with
  | None => run (Ret (Some []))
  | Some oldHead =>
      if decide (Types.Hash oldHead = Types.ParentHash newHead) then run (Ret (Some []))
      else
        let oldNum := big_Uint64 (Types.Number oldHead) in
        let newNum := big_Uint64 (Types.Number newHead) in
        if decide (reorg_depth oldNum newNum > 64) then run (Ret (Some []))
        else
          match GetBlock chain (Types.Hash oldHead) oldNum with
          | None => if decide (newNum >= oldNum) then run (Ret None) else run (Ret (Some []))
          | Some rem =>
              match GetBlock chain (Types.Hash newHead) newNum with
              | None => run Panic
              | Some add =>
                  match walk_down fuel chain rem (NumberU64 add) with
                  | None => out_of_fuel
                  | Some None => run (Ret None)
                  | Some (Some (discarded, rem)) =>
                      match walk_down fuel chain add (NumberU64 rem) with
                      | None => out_of_fuel
                      | Some None => run (Ret None)
                      | Some (Some (included, add)) =>
                          match walk_common fuel chain rem add with
                          | None => out_of_fuel
                          | Some None => run (Ret None)
                          | Some (Some (d, i)) => run (Ret (Some (TxDifference (discarded ++ d) (included ++ i))))
                          end
                      end
                  end
              end
          end
  end.

(** A new head that is nil is the current block. *)
Definition reset (fuel : nat) (chain : blockChain) (p : TxPool) (oldHead newHead : option Types.Header) : F TxPool :=
  reinject ←
    match oldHead, newHead with
    | Some _, None => run Panic
    | _, Some h => reinject_of fuel chain oldHead h
    | None, None => run (Ret (Some []))
    end;
  match (reinject : option (list Transaction)) with
  | None => run (Ret p)
  | Some reinject =>
      let newHead := default (blk_header (CurrentBlock chain)) newHead in
      match StateAt chain (Types.Root newHead) with
      | None => run (Ret p)
      | Some statedb =>
          let p := set_state p statedb (newTxNoncer (GetNonce statedb)) (Types.GasLimit newHead) in
          '(_, _, p) ← addTxsLocked p reinject false ∅;
          run (Ret (set_istanbul p (Params.IsIstanbul chainconfig (Types.Number newHead + 1))))
      end
  end.

(** ** runReorg *)

Definition queuedEvents : Type := gmap Z txSortedMap.

(** The events of transactions that are not pending any more are dropped. *)
Fixpoint forward_events (p : TxPool) (ev : queuedEvents) (addrs : list Z) : F (queuedEvents * TxPool) :=
  match addrs with
  | [] => run (Ret (ev, p))
  | addr :: addrs =>
      let '(nonce, n) := noncer_get (pendingNonces p) addr in
      let p := set_nonces p n in
      match ev !! addr with
      | None => forward_events p ev addrs
      | Some m =>
          '(_, m) ← sorted_Forward m nonce;
          forward_events p (if decide (sorted_Len m = 0) then base.delete addr ev else <[addr := m]> ev) addrs
      end
  end.

(** The next nonce of an account is that after its last pending transaction. *)
Fixpoint update_nonces (p : TxPool) (addrs : list Z) : P TxPool :=
  match addrs with
  | [] => Ret p
  | addr :: addrs =>
      list ← pending_list p addr;
      '(tx, list) ← list_LastElement list;
      let p := set_pending_list p addr list in
      update_nonces (set_nonces p (noncer_set (pendingNonces p) addr (u64 (AccountNonce tx + 1)))) addrs
  end.

Definition put_event (ev : queuedEvents) (tx : Transaction) : queuedEvents :=
  let addr := from_of tx in <[addr := sorted_Put (default newTxSortedMap (ev !! addr)) tx]> ev.

(** The transactions of the event that is sent, if any is. *)
Definition flatten_events (ev : queuedEvents) : list Transaction := concat (map (fun kv => (sorted_Flatten kv.2).1) (map_range ev)).

Definition runReorg (fuel : nat) (chain : blockChain) (p : TxPool) (req : option (option Types.Header * option Types.Header)) (dirty : option (list Z)) (ev : queuedEvents)
  : F (list Transaction * TxPool) :=
  '(promoteAddrs, ev, p) ←
    match req with
    | Some (oldHead, newHead) =>
        p ← reset fuel chain p oldHead newHead;
        '(ev, p) ← forward_events p ev (map_range ev).*1;
        run (Ret ((map_range (queue p)).*1, ev, p))
    | None => run (Ret (default [] dirty, ev, p))
    end;
  '(promoted, p) ← promoteExecutables p promoteAddrs;
  p ← (if decide (is_Some req) then demoteUnexecutables p else run (Ret p));
  p ← truncatePending p;
  p ← truncateQueue p;
  p ← run (update_nonces p (map_range (pending p)).*1);
  run (Ret (flatten_events (fold_left put_event promoted ev), p)).

(** ** The loop, and what can be asked of the pool *)

(** [time.Since], which is at most the longest duration. *)
Definition since (t : Z) (p : TxPool) : Z * TxPool := let '(n, p) := now p in (Z.max (- 2 ^ 63) (Z.min (2 ^ 63 - 1) (n - t)), p).

(** The eviction of accounts that were quiet for too long. *)
Fixpoint evict_accounts (p : TxPool) (addrs : list Z) : F TxPool :=
  match addrs with
  | [] => run (Ret p)
  | addr :: addrs =>
      if contains (locals p) addr then evict_accounts p addrs
      else
        let '(d, p) := since (beat_of p addr) p in
        if decide (d > Lifetime config) then
          match queue p !! addr with
          | None => run Panic
          | Some list =>
              let '(txs, list) := list_Flatten list in
              p ← removeTxs (set_queue_list p addr list) txs true;
              evict_accounts p addrs
          end
        else evict_accounts p addrs
  end.
Definition evict (p : TxPool) : F TxPool := evict_accounts p (map_range (queue p)).*1.

Definition stats (p : TxPool) : Z * Z :=
  let count m := fold_left (fun n kv => n + list_Len kv.2) (map_range m) 0 in (count (pending p), count (queue p)).

(** The lists in the order of nonces; they are cached in the pool. *)
Definition flatten_lists (m : gmap Z txList) : gmap Z (list Transaction) * gmap Z txList :=
  ((fun l => (list_Flatten l).1) <$> m, (fun l => (list_Flatten l).2) <$> m).
Definition Pending (p : TxPool) : gmap Z (list Transaction) * TxPool := let '(r, m) := flatten_lists (pending p) in (r, set_pending p m).
Definition Content (p : TxPool) : gmap Z (list Transaction) * gmap Z (list Transaction) * TxPool :=
  let '(r, m) := flatten_lists (pending p) in
  let '(r', m') := flatten_lists (queue p) in
  (r, r', set_queue (set_pending p m) m').

Definition pool_Nonce (p : TxPool) (addr : Z) : Z * TxPool := let '(n, m) := noncer_get (pendingNonces p) addr in (n, set_nonces p m).
Definition pool_Get (p : TxPool) (hash : Z) : option Transaction := lookup_Get (all p) hash.
Definition Has (p : TxPool) (hash : Z) : bool := bool_decide (is_Some (lookup_Get (all p) hash)).

Inductive TxStatus := TxStatusUnknown | TxStatusQueued | TxStatusPending | TxStatusIncluded.

Definition has_nonce (m : gmap Z txList) (from nonce : Z) : bool :=
  match m !! from with Some l => bool_decide (is_Some (items (txs l) !! nonce)) | None => false end.
Definition Status (p : TxPool) (hash : Z) : TxStatus :=
  match pool_Get p hash with
  | None => TxStatusUnknown
  | Some tx =>
      let from := from_of tx in
      if has_nonce (pending p) from (AccountNonce tx) then TxStatusPending
      else if has_nonce (queue p) from (AccountNonce tx) then TxStatusQueued
      else TxStatusUnknown
  end.

(** The transactions of the local accounts, as they are written to a new journal. *)
Definition flat_of (m : gmap Z txList) (addr : Z) : list Transaction := match m !! addr with Some l => (list_Flatten l).1 | None => [] end.
Definition local_txs (p : TxPool) : gmap Z (list Transaction) :=
  set_to_map (fun addr => (addr, flat_of (pending p) addr ++ flat_of (queue p) addr))
    (base.filter (fun addr => is_Some (pending p !! addr) \/ is_Some (queue p !! addr)) (locals p)).

(** [NewTxPool], without the goroutines and the loading of the journal.  There is no state
    before the first reset; its reads are zero here. *)
Definition NewTxPool (fuel : nat) (chain : blockChain) : F TxPool :=
  let none := mk_StateReader (fun _ => 0) (fun _ => 0) in
  let p := mk_TxPool (PriceLimit config) false none (newTxNoncer (GetNonce none)) 0 (list_to_set (Locals config))
    (if NoLocals config then None else if decide (Journal config = []) then None else Some [])
    ∅ ∅ ∅ newTxLookup newTxPricedList [] 0 in
  reset fuel chain p None (Some (blk_header (CurrentBlock chain))).
End Pool.
