(* ===== verification/TxPoolInv.v ===== *)
(** * The invariant of the transaction pool

    The lists of an account have transactions of this account; a nonce is pending or
    queued, not both; the lookup has the transactions of the lists and no others, and
    the price heap covers the remote ones.  Within an operation the lookup has the
    transactions [L], which may not be those of the lists, and some transactions have
    left the price heap and not yet the lookup: [D].

    A removal takes one transaction out of the lists and the lookup; the pending ones
    of the account behind it go back to the queue. *)

From stdpp Require Import gmap sorting.
From S2P Require Import Prelude VmPrecompiles GoHeap TxList TxListProofs TxSigning TxLookup TxPool.

(** ** The transactions of a map of lists *)

Definition lists_txs (m : gmap Z txList) : list Transaction := concat (listed <$> (map_to_list m).*2).
Definition list_at (m : gmap Z txList) (a : Z) : list Transaction := match m !! a with Some l => listed l | None => [] end.

Lemma lists_txs_delete m a : lists_txs m ≡ₚ list_at m a ++ lists_txs (base.delete a m).
Proof.
  unfold lists_txs, list_at. destruct (m !! a) as [l|] eqn:Ha; [|by rewrite delete_id].
  rewrite <- (map_to_list_delete m a l) by done. done.
Qed.

Lemma lists_txs_insert m a l : lists_txs (<[a := l]> m) ≡ₚ listed l ++ lists_txs (base.delete a m).
Proof. rewrite (lists_txs_delete _ a), delete_insert_eq. unfold list_at. by rewrite lookup_insert_eq. Qed.

Lemma elem_of_lists_txs m tx : tx ∈ lists_txs m <-> exists a, tx ∈ list_at m a.
Proof.
  split.
  - unfold lists_txs. intros Hx%list_elem_of_In%in_concat. destruct Hx as (l & Hl & Hx). apply list_elem_of_In in Hl, Hx. apply list_elem_of_fmap in Hl as (tl & -> & Ht).
    apply list_elem_of_fmap in Ht as ([a l'] & -> & Ha%elem_of_map_to_list). exists a. unfold list_at. by rewrite Ha.
  - intros [a Ha]. rewrite (lists_txs_delete m a). set_solver.
Qed.

Lemma list_at_insert m a l : list_at (<[a := l]> m) a = listed l.
Proof. unfold list_at. by rewrite lookup_insert_eq. Qed.
Lemma list_at_insert_ne m a b l : a <> b -> list_at (<[a := l]> m) b = list_at m b.
Proof. intros Hab. unfold list_at. by rewrite lookup_insert_ne. Qed.
Lemma list_at_delete m a : list_at (base.delete a m) a = [].
Proof. unfold list_at. by rewrite lookup_delete_eq. Qed.
Lemma list_at_delete_ne m a b : a <> b -> list_at (base.delete a m) b = list_at m b.
Proof. intros Hab. unfold list_at. by rewrite lookup_delete_ne. Qed.
Lemma list_at_Some m a l : m !! a = Some l -> list_at m a = listed l.
Proof. intros Ha. unfold list_at. by rewrite Ha. Qed.
Lemma list_at_None m a : m !! a = None -> list_at m a = [].
Proof. intros Ha. unfold list_at. by rewrite Ha. Qed.

Section Inv.
Context {C : Crypto} {MO : MapOrder} {Env : PoolEnv} {BO : BeatOrder}.

(** A transaction that the pool takes: its nonce is a word and it has an encoding. *)
Definition tx_ok (tx : Transaction) : Prop := is_u64 (AccountNonce tx) /\ 0 < tx_Size tx.
Definition good (a : Z) (tx : Transaction) : Prop := sender tx = Some a /\ tx_ok tx.

Lemma good_from a tx : good a tx -> from_of tx = a.
Proof. intros [Hs _]. unfold from_of. by rewrite Hs. Qed.

(** The lists of the accounts, all strict or all not. *)
Definition side_ok (b : bool) (m : gmap Z txList) : Prop :=
  map_Forall (fun a l => wf_list l /\ strict l = b /\ (forall tx, tx ∈ listed l -> good a tx)) m.

Lemma side_wf b m a l : side_ok b m -> m !! a = Some l -> wf_list l.
Proof. intros Hm Ha. by apply (Hm a l Ha). Qed.
Lemma side_strict b m a l : side_ok b m -> m !! a = Some l -> strict l = b.
Proof. intros Hm Ha. by apply (Hm a l Ha). Qed.
Lemma side_good b m a tx : side_ok b m -> tx ∈ list_at m a -> good a tx.
Proof. unfold list_at. intros Hm Ht. destruct (m !! a) as [l|] eqn:Ha; [|by apply elem_of_nil in Ht]. by apply (Hm a l Ha). Qed.

Definition distinct (l l' : list Transaction) : Prop := forall x y, x ∈ l -> y ∈ l' -> AccountNonce x <> AccountNonce y.

Definition pool_txs (p : TxPool) : list Transaction := lists_txs (pending p) ++ lists_txs (queue p).

Record Inv (p : TxPool) (L D : list Transaction) : Prop := {
  inv_pending : side_ok true (pending p);
  inv_queue : side_ok false (queue p);
  inv_disj : forall a, distinct (list_at (pending p) a) (list_at (queue p) a);
  inv_all : lookup_ok (all p) L;
  inv_priced : priced_ok (all p) (priced p) D;
  inv_locals : forall h tx, lk_remotes (all p) !! h = Some tx -> containsTx signer (locals p) tx = false;
  inv_beats : forall a, is_Some (queue p !! a) -> is_Some (beats p !! a);
  inv_events : forall tx, tx ∈ events p -> is_u64 (AccountNonce tx)
}.

(** *** One list changes *)

Lemma side_insert b m a l : side_ok b m -> wf_list l -> strict l = b -> (forall tx, tx ∈ listed l -> good a tx) -> side_ok b (<[a := l]> m).
Proof. intros Hm Hw Hs Hg. by apply map_Forall_insert_2. Qed.

Lemma side_delete b m a : side_ok b m -> side_ok b (base.delete a m).
Proof. apply map_Forall_delete. Qed.

Lemma Inv_set_queue p L D a l : Inv p L D -> wf_list l -> strict l = false -> (forall tx, tx ∈ listed l -> good a tx) ->
  distinct (list_at (pending p) a) (listed l) -> is_Some (beats p !! a) -> Inv (set_queue_list p a l) L D.
Proof.
  intros [H1 H2 H3 H4 H5 H6 H7 Hev] Hw Hs Hg Hd Hb. split; cbn; [done|by apply side_insert| |done|done|done| |done].
  - intros b. destruct (decide (a = b)) as [<-|Hne]; [by rewrite list_at_insert|by rewrite list_at_insert_ne].
  - intros b. destruct (decide (a = b)) as [<-|Hne]; [done|rewrite lookup_insert_ne by done; apply H7].
Qed.

Lemma Inv_set_pending p L D a l : Inv p L D -> wf_list l -> strict l = true -> (forall tx, tx ∈ listed l -> good a tx) ->
  distinct (listed l) (list_at (queue p) a) -> Inv (set_pending_list p a l) L D.
Proof.
  intros [H1 H2 H3 H4 H5 H6 H7 Hev] Hw Hs Hg Hd. split; cbn; [by apply side_insert|done| |done|done|done|done|done].
  intros b. destruct (decide (a = b)) as [<-|Hne]; [by rewrite list_at_insert|by rewrite list_at_insert_ne].
Qed.

Lemma Inv_delete_queue p L D a : Inv p L D -> Inv (set_beats (set_queue p (base.delete a (queue p))) (base.delete a (beats p))) L D.
Proof.
  intros [H1 H2 H3 H4 H5 H6 H7 Hev]. split; cbn; [done|by apply side_delete| |done|done|done| |done].
  - intros b. destruct (decide (a = b)) as [<-|Hne]; [rewrite list_at_delete; by intros x y _ ?%elem_of_nil|by rewrite list_at_delete_ne].
  - intros b [l [Hab Hb]%lookup_delete_Some]. rewrite lookup_delete_ne by done. by apply H7.
Qed.

Lemma Inv_delete_pending p L D a : Inv p L D -> Inv (set_pending p (base.delete a (pending p))) L D.
Proof.
  intros [H1 H2 H3 H4 H5 H6 H7 Hev]. split; cbn; [by apply side_delete|done| |done|done|done|done|done].
  intros b. destruct (decide (a = b)) as [<-|Hne]; [rewrite list_at_delete; by intros x y ?%elem_of_nil|by rewrite list_at_delete_ne].
Qed.

(** *** The lookup changes *)

Lemma Inv_all_Remove p tx L D : Inv p (tx :: L) D -> Inv (all_Remove p (tx_Hash tx)) L D.
Proof.
  intros [H1 H2 H3 H4 H5 H6 H7 Hev]. destruct (lookup_Remove_eq (all p) L tx H4) as [H8 H9]. split; cbn; [done|done|done|done| | |done|done].
  - apply (priced_ok_sub (all p)); [done|]. intros h x. rewrite H9. by intros [_ ?]%lookup_delete_Some.
  - intros h x. rewrite H9. intros [_ ?]%lookup_delete_Some. by eapply H6.
Qed.

Lemma Inv_Removed p L D n : Inv p L D -> Inv (Removed p n) L D.
Proof. intros [H1 H2 H3 H4 H5 H6 H7 Hev]. split; try done. by apply priced_Removed_ok. Qed.

Lemma remove_all_eq p l : exists t, remove_all p l = set_all p t.
Proof.
  revert p. induction l as [|x l IH]; intros p; [exists (all p); by destruct p|]. unfold remove_all in *. cbn [fold_left]. destruct (IH (all_Remove p (tx_Hash x))) as [t ->]. by exists t.
Qed.

Lemma Inv_remove_all l p L D : Inv p (l ++ L) D -> Inv (remove_all p l) L D.
Proof.
  revert p. induction l as [|x l IH]; intros p Hp; [done|]. unfold remove_all in *. cbn [fold_left]. apply IH. by apply Inv_all_Remove.
Qed.

(** A new transaction for the lookup. *)
Lemma lookup_Add_remotes (t : txLookup) tx local h x : lk_remotes (lookup_Add t tx local) !! h = Some x -> (x = tx /\ local = false) \/ lk_remotes t !! h = Some x.
Proof. unfold lookup_Add. destruct local; cbn; [by right|]. intros [[_ <-]|[_ ?]]%lookup_insert_Some; [by left|by right]. Qed.

(** The pool with another lookup and heap. *)
Definition with_tx (p : TxPool) (tx : Transaction) (local : bool) : TxPool :=
  let p := set_all p (lookup_Add (all p) tx local) in set_priced p (priced_Put (priced p) tx local).

Lemma Inv_with_tx p tx local L D : Inv p L D -> lookup_Get (all p) (tx_Hash tx) = None -> (local = false -> containsTx signer (locals p) tx = false) -> Inv (with_tx p tx local) (tx :: L) D.
Proof.
  intros [H1 H2 H3 H4 H5 H6 H7 Hev] Hn Hl. split; cbn; [done|done|done|by apply lookup_Add_eq|by apply priced_Put_ok| |done|done].
  intros h x [[-> Hf]|Hx]%lookup_Add_remotes; [by apply Hl|by eapply H6].
Qed.

(** *** What does not matter to the invariant *)

Lemma Inv_set_nonces p L D n : Inv p L D -> Inv (set_nonces p n) L D.
Proof. by intros [H1 H2 H3 H4 H5 H6 H7 Hev]. Qed.

Lemma Inv_beat p L D a : Inv p L D -> Inv (beat p a) L D.
Proof.
  intros [H1 H2 H3 H4 H5 H6 H7 Hev]. split; try done. cbn. intros b Hb. destruct (decide (a = b)) as [<-|Hne]; [by rewrite lookup_insert_eq|rewrite lookup_insert_ne by done; by apply H7].
Qed.

Lemma Inv_journalTx p L D a tx : Inv p L D -> Inv (journalTx p a tx) L D.
Proof. unfold journalTx. destruct (journal p); [|done]. destruct (contains _ _); [|done]. by intros [H1 H2 H3 H4 H5 H6 H7 Hev]. Qed.

Lemma Inv_queueTxEvent p L D tx : Inv p L D -> is_u64 (AccountNonce tx) -> Inv (queueTxEvent p tx) L D.
Proof. intros [H1 H2 H3 H4 H5 H6 H7 Hev] Hu. split; try done. cbn. intros x [Hx| ->%list_elem_of_singleton]%elem_of_app; [by apply Hev|done]. Qed.

Lemma Inv_perm p L L' D : L ≡ₚ L' -> Inv p L D -> Inv p L' D.
Proof. intros E [H1 H2 H3 H4 H5 H6 H7 Hev]. split; try done. by rewrite <- E. Qed.

(** ** Back to the queue *)

(** The pool with another queue. *)
Definition with_queue (p : TxPool) (q : gmap Z txList) (b : gmap Z Z) (t : nat) : TxPool :=
  mk_TxPool (gasPrice p) (istanbul p) (currentState p) (pendingNonces p) (currentMaxGas p) (locals p) (journal p) (pending p) q b (all p) (priced p) (events p) t.

(** The queue [q'] has the transactions [l] of [a] more than [q], each of another nonce. *)
Definition queue_more (q q' : gmap Z txList) (a : Z) (l : list Transaction) : Prop := list_at q' a ≡ₚ l ++ list_at q a /\ forall c, c <> a -> q' !! c = q !! c.

(** A list takes a transaction of a new nonce. *)
Lemma add_fresh l tx bump : wf_list l -> is_u64 (AccountNonce tx) -> (forall x, x ∈ listed l -> AccountNonce x <> AccountNonce tx) ->
  exists l', list_Add l tx bump = (true, None, l') /\ wf_list l' /\ strict l' = strict l /\ listed l' ≡ₚ tx :: listed l.
Proof.
  intros Hl Hu Hx. assert (litems l !! AccountNonce tx = None) as Hn.
  { apply eq_None_not_Some. rewrite lookup_listed by done. intros (x & Hin & E). by apply (Hx x). }
  pose proof (list_Add_ok l tx bump Hl Hu) as Ha. rewrite Hn in Ha. destruct Ha as (l' & E & Hw & Hs & Hi). exists l'. split; [done|]. split; [done|]. split; [done|].
  unfold listed. rewrite Hi. by apply in_order_put; [auto|..].
Qed.

Lemma queue_list_ok p L D a : Inv p L D ->
  let l := default (newTxList false) (queue p !! a) in wf_list l /\ strict l = false /\ listed l = list_at (queue p) a /\ forall tx, tx ∈ listed l -> good a tx.
Proof.
  intros Hp l. subst l. destruct (queue p !! a) as [l|] eqn:Ha; cbn.
  - destruct (inv_queue _ _ _ Hp a l Ha) as (H1 & H2 & H3). unfold list_at. by rewrite Ha.
  - split; [apply wf_newTxList|]. split; [done|]. unfold list_at. rewrite Ha. split; [done|]. by intros tx ?%elem_of_nil.
Qed.

Lemma enqueue_again p tx L D a h local : Inv p L D -> good a tx -> distinct [tx] (list_at (pending p) a) -> distinct [tx] (list_at (queue p) a) ->
  exists q b t, enqueueTx p h tx local false = (inr false, with_queue p q b t) /\ Inv (with_queue p q b t) L D /\ queue_more (queue p) q a [tx].
Proof.
  intros Hp Hg Hd1 Hd2. destruct (queue_list_ok p _ _ a Hp) as (Hw & Hs & Hl & Hgl). unfold enqueueTx. rewrite (good_from a tx Hg). set (l := default _ _) in *.
  destruct (add_fresh l tx (PriceBump config) Hw) as (l' & -> & Hw' & Hs' & Hp'); [apply Hg|intros x Hx E; apply (Hd2 tx x); [by left|by rewrite <- Hl|done]|].
  cbn [negb]. set (pb := match beats p !! a with Some _ => p | None => beat p a end).
  assert (Inv (set_queue_list pb a l') L D) as Hfin.
  { apply Inv_set_queue.
    - unfold pb. destruct (beats p !! a); [done|by apply Inv_beat].
    - done.
    - congruence.
    - intros x. rewrite Hp'. intros [->|Hx]%elem_of_cons; [done|by apply Hgl].
    - intros x y Hx. rewrite Hp'. intros [->|Hy]%elem_of_cons.
      + intros E. apply (Hd1 tx x); [by left| |done]. unfold pb in Hx. by destruct (beats p !! a).
      + rewrite Hl in Hy. apply (inv_disj _ _ _ Hp a); [|done]. unfold pb in Hx. by destruct (beats p !! a).
    - unfold pb. destruct (beats p !! a) eqn:E; [by rewrite E|]. cbn. by rewrite lookup_insert_eq. }
  assert (queue_more (queue p) (<[a := l']> (queue p)) a [tx]) as Hm.
  { split; [rewrite list_at_insert, Hp', Hl; done|]. intros c Hc. by rewrite lookup_insert_ne. }
  unfold pb in Hfin. cbn [beats set_queue_list set_queue]. destruct (beats p !! a); eexists _, _, _; (split; [done|]; split; [exact Hfin|exact Hm]).
Qed.

Lemma requeue_ok l : forall p L D a, Inv p L D -> (forall x, x ∈ l -> good a x) -> NoDup (AccountNonce <$> l) -> distinct l (list_at (pending p) a) -> distinct l (list_at (queue p) a) ->
  exists q b t, requeue p l = with_queue p q b t /\ Inv (with_queue p q b t) L D /\ queue_more (queue p) q a l.
Proof.
  induction l as [|x l IH]; intros p L D a Hp Hg Hnd Hd1 Hd2.
  { exists (queue p), (beats p), (ticks p). cbn. destruct p. by split. }
  cbn in Hnd. apply list.NoDup_cons in Hnd as [Hx Hnd]. destruct (enqueue_again p x L D a (tx_Hash x) false Hp) as (q & b & t & E & Hp' & Hm & Hm').
  - apply Hg. set_solver.
  - intros y z Hy Hz. apply Hd1; set_solver.
  - intros y z Hy Hz. apply Hd2; set_solver.
  - unfold requeue in *. cbn [fold_left]. rewrite E. cbn [snd]. destruct (IH (with_queue p q b t) L D a) as (q' & b' & t' & E' & Hp'' & Hn & Hn'); [done|set_solver|done| | |].
    + intros y z Hy Hz. apply Hd1; set_solver.
    + cbn. intros y z Hy. rewrite Hm. intros [->|Hz]%elem_of_cons; [|apply Hd2; set_solver]. intros E2. apply Hx. rewrite <- E2. by apply list_elem_of_fmap_2.
    + cbn in Hn, Hn'. exists q', b', t'. split; [done|]. split; [done|]. split; [rewrite Hn, Hm; cbn; by rewrite <- Permutation_middle|]. intros c Hc. by rewrite Hn', Hm'.
Qed.
End Inv.

(** ** Removing transactions *)

Section Remove.
Context {C : Crypto} {MO : MapOrder} {Env : PoolEnv} {BO : BeatOrder}.

(** No account has an empty list. *)
Definition filled (m : gmap Z txList) : Prop := map_Forall (fun _ l => listed l <> []) m.
Definition full (p : TxPool) : Prop := filled (pending p) /\ filled (queue p).

Lemma filled_insert m a l : filled m -> listed l <> [] -> filled (<[a := l]> m).
Proof. intros Hm Hl. by apply map_Forall_insert_2. Qed.

Lemma filled_delete m a : filled m -> filled (base.delete a m).
Proof. apply map_Forall_delete. Qed.

Lemma filled_delete_insert m a l : filled m -> filled (base.delete a (<[a := l]> m)).
Proof. intros Hm. rewrite delete_insert_eq. by apply filled_delete. Qed.

Lemma filled_more q q' a l : filled q -> queue_more q q' a l -> (l = [] -> q' !! a = q !! a) -> filled q'.
Proof.
  intros Hq [H1 H2] H3 b lb Hb. destruct (decide (b = a)) as [->|Hne]; [|rewrite H2 in Hb by done; by apply (Hq b)].
  destruct l as [|x l]; [rewrite (H3 eq_refl) in Hb; by apply (Hq a)|]. intros E. rewrite (list_at_Some _ _ _ Hb), E in H1. apply Permutation_nil in H1. done.
Qed.

Lemma requeue_nil p : requeue p [] = p.
Proof. done. Qed.

(** Where a transaction of the pool is. *)
Lemma locate p L D tx : Inv p L D -> tx ∈ pool_txs p ->
  let a := from_of tx in
  good a tx /\ ((tx ∈ list_at (pending p) a /\ forall x, x ∈ list_at (queue p) a -> AccountNonce x <> AccountNonce tx) \/
                (tx ∈ list_at (queue p) a /\ forall x, x ∈ list_at (pending p) a -> AccountNonce x <> AccountNonce tx)).
Proof.
  intros Hp Ht. unfold pool_txs in Ht. apply elem_of_app in Ht as [[a Ha]%elem_of_lists_txs|[a Ha]%elem_of_lists_txs]; cbv zeta.
  - pose proof (side_good _ _ _ _ (inv_pending _ _ _ Hp) Ha) as Hg. rewrite (good_from a tx Hg). split; [done|]. left. split; [done|]. intros x Hx E. by apply (inv_disj _ _ _ Hp a tx x Ha Hx).
  - pose proof (side_good _ _ _ _ (inv_queue _ _ _ Hp) Ha) as Hg. rewrite (good_from a tx Hg). split; [done|]. right. split; [done|]. intros x Hx E. by apply (inv_disj _ _ _ Hp a x tx Hx Ha).
Qed.

(** What a removal leaves as it is. *)
Record framed (p p' : TxPool) : Prop := {
  fr_gasPrice : gasPrice p' = gasPrice p;
  fr_istanbul : istanbul p' = istanbul p;
  fr_state : currentState p' = currentState p;
  fr_gas : currentMaxGas p' = currentMaxGas p;
  fr_locals : locals p' = locals p;
  fr_journal : journal p' = journal p;
  fr_events : events p' = events p
}.

#[global] Instance framed_refl : Reflexive framed.
Proof. by intros p. Qed.
#[global] Instance framed_trans : Transitive framed.
Proof. intros p q r [] []. split; congruence. Qed.

(** The account [a] loses the transactions [l], and nothing else happens to the others. *)
Record loses (p p' : TxPool) (a : Z) (l : list Transaction) : Prop := {
  ls_perm : list_at (pending p) a ++ list_at (queue p) a ≡ₚ l ++ list_at (pending p') a ++ list_at (queue p') a;
  ls_pending : forall c, c <> a -> pending p' !! c = pending p !! c;
  ls_queue : forall c, c <> a -> queue p' !! c = queue p !! c
}.

Lemma side_list b m a l : side_ok b m -> m !! a = Some l -> forall tx, tx ∈ listed l -> good a tx.
Proof. intros Hm Ha. by apply (Hm a l Ha). Qed.

(** The pending transaction of a removal. *)
Lemma remove_pending_ok p L D a tx : Inv p L D -> full p -> tx ∈ list_at (pending p) a -> (forall x, x ∈ list_at (queue p) a -> AccountNonce x <> AccountNonce tx) ->
  exists p', remove_pending p a tx = run (Ret (true, p')) /\ Inv p' L D /\ full p' /\ framed p p' /\ loses p p' a [tx] /\ all p' = all p /\
    (forall x, x ∈ list_at (pending p') a -> AccountNonce x < AccountNonce tx) /\ (forall x, x ∈ list_at (queue p) a -> x ∈ list_at (queue p') a).
Proof.
  intros Hp [Hf1 Hf2] Ht Hq. unfold list_at in Ht. destruct (pending p !! a) as [l|] eqn:Ha; [|by apply elem_of_nil in Ht]. pose proof (side_wf _ _ _ _ (inv_pending _ _ _ Hp) Ha) as Hw.
  pose proof (side_strict _ _ _ _ (inv_pending _ _ _ Hp) Ha) as Hs. pose proof (side_list _ _ _ _ (inv_pending _ _ _ Hp) Ha) as Hg. unfold remove_pending. rewrite Ha.
  pose proof Ht as Hx. apply elem_of_listed in Hx; [|done]. destruct (list_Remove_ok l tx tx Hw Hx) as (inv & l' & -> & Hw' & Hs' & Hp' & Hinv & Hfront). cbn [mbind fuelled_bind run negb].
  assert (list_at (pending p) a = listed l) as Hla by (by apply list_at_Some).
  assert (Inv (set_pending_list p a l') L D) as H1.
  { apply Inv_set_pending; [done|done|congruence|intros x Hin; apply Hg; rewrite <- Hp'; set_solver|]. intros x y Hin Hy. apply (inv_disj _ _ _ Hp a); [|done]. rewrite Hla, <- Hp'. set_solver. }
  set (p2 := if list_Empty l' then set_pending (set_pending_list p a l') (base.delete a (pending (set_pending_list p a l'))) else set_pending_list p a l').
  assert (Inv p2 L D /\ list_at (pending p2) a = listed l' /\ filled (pending p2) /\ queue p2 = queue p /\ all p2 = all p /\ framed p p2 /\ forall c, c <> a -> pending p2 !! c = pending p !! c) as (H2 & Hl2 & Hf & Hq2 & Ha2 & Hfr & Hc).
  { unfold p2. destruct (list_Empty l') eqn:He.
    - apply list_Empty_true in He. split_and!; [by apply Inv_delete_pending|cbn; by rewrite list_at_delete|by apply filled_delete_insert|done|done|done|].
      intros c Hc. cbn. by rewrite lookup_delete_ne, lookup_insert_ne.
    - split_and!; [done|cbn; by rewrite list_at_insert| |done|done|done|intros c Hc; cbn; by rewrite lookup_insert_ne].
      apply filled_insert; [done|]. intros E. apply list_Empty_true in E. congruence. }
  destruct (requeue_ok inv p2 L D a H2) as (q & b & t & E & H3 & Hm).
  { intros x Hin. apply Hg. rewrite <- Hp'. set_solver. }
  { by destruct (split_nonces l l' (tx :: inv) Hw Hp') as [[_ ?]%list.NoDup_cons _]. }
  { rewrite Hl2. intros x y Hin Hy. destruct (split_nonces l l' (tx :: inv) Hw Hp') as [_ Hd]. apply Hd; set_solver. }
  { rewrite Hq2. intros x y Hin Hy. apply (inv_disj _ _ _ Hp a); [rewrite Hla, <- Hp'; set_solver|done]. }
  rewrite E. eexists. split; [done|]. split; [by apply Inv_set_nonces|]. rewrite Hq2 in Hm. split; [|split; [|split; [|split; [exact Ha2|split]]]].
  - split; [done|]. cbn. apply (filled_more (queue p) q a inv); [done|done|]. intros ->. cbn in E. apply (f_equal queue) in E. cbn in E. by rewrite <- E, Hq2.
  - etrans; [exact Hfr|done].
  - destruct Hm as [Hm1 Hm2]. split; cbn; [rewrite Hla, Hl2, Hm1, <- Hp'; solve_Permutation|done|intros c Hne; by apply Hm2].
  - cbn. rewrite Hl2. by apply Hfront.
  - intros x Hin. cbn. destruct Hm as [-> _]. set_solver.
Qed.

Lemma delete_same (m m' : gmap Z txList) a : (forall c, c <> a -> m' !! c = m !! c) -> base.delete a m' = base.delete a m.
Proof. intros H. apply map_eq. intros c. destruct (decide (c = a)) as [->|Hc]; [by rewrite !lookup_delete_eq|]. rewrite !lookup_delete_ne by done. by apply H. Qed.

Lemma loses_txs p p' a l : loses p p' a l -> pool_txs p ≡ₚ l ++ pool_txs p'.
Proof.
  intros [H1 H2 H3]. unfold pool_txs. rewrite (lists_txs_delete (pending p) a), (lists_txs_delete (queue p) a), (lists_txs_delete (pending p') a), (lists_txs_delete (queue p') a).
  rewrite (delete_same _ _ a H2), (delete_same _ _ a H3).
  trans ((list_at (pending p) a ++ list_at (queue p) a) ++ lists_txs (base.delete a (pending p)) ++ lists_txs (base.delete a (queue p))); [solve_Permutation|]. rewrite H1. solve_Permutation.
Qed.

Lemma loses_perm p p' a l l' : l ≡ₚ l' -> loses p p' a l -> loses p p' a l'.
Proof. intros E [H1 H2 H3]. split; [by rewrite <- E|done|done]. Qed.

Lemma loses_trans p1 p2 p3 a l l' : loses p1 p2 a l -> loses p2 p3 a l' -> loses p1 p3 a (l ++ l').
Proof. intros [H1 H2 H3] [H4 H5 H6]. split; [rewrite H1, H4; solve_Permutation|intros c Hc; by rewrite H5, H2|intros c Hc; by rewrite H6, H3]. Qed.

Lemma loses_lists p p' q q' a l : loses p p' a l -> pending q = pending p -> queue q = queue p -> pending q' = pending p' -> queue q' = queue p' -> loses q q' a l.
Proof. intros [H1 H2 H3] E1 E2 E3 E4. split; rewrite ?E1, ?E2, ?E3, ?E4; done. Qed.

(** A transaction that is not pending. *)
Lemma remove_pending_other p L D a tx : Inv p L D -> (forall x, x ∈ list_at (pending p) a -> AccountNonce x <> AccountNonce tx) -> remove_pending p a tx = run (Ret (false, p)).
Proof.
  intros Hp Hx. unfold remove_pending. destruct (pending p !! a) as [l|] eqn:Ha; [|done]. rewrite list_Remove_None.
  - cbn [mbind fuelled_bind run negb]. unfold set_pending_list. rewrite insert_id by done. by destruct p.
  - apply eq_None_not_Some. rewrite lookup_listed by (by eapply side_wf, Ha; apply Hp). intros (x & Hin & E). apply (Hx x); [by rewrite (list_at_Some _ _ _ Ha)|done].
Qed.

Lemma remove_queued_ok p L D a tx : Inv p L D -> full p -> tx ∈ list_at (queue p) a ->
  exists p', remove_queued p a tx = run (Ret p') /\ Inv p' L D /\ full p' /\ framed p p' /\ loses p p' a [tx] /\ all p' = all p /\ priced p' = priced p /\ pending p' = pending p /\ pendingNonces p' = pendingNonces p.
Proof.
  intros Hp [Hf1 Hf2] Ht. unfold list_at in Ht. destruct (queue p !! a) as [l|] eqn:Ha; [|by apply elem_of_nil in Ht]. pose proof (side_wf _ _ _ _ (inv_queue _ _ _ Hp) Ha) as Hw.
  pose proof (side_strict _ _ _ _ (inv_queue _ _ _ Hp) Ha) as Hs. pose proof (side_list _ _ _ _ (inv_queue _ _ _ Hp) Ha) as Hg. unfold remove_queued. rewrite Ha.
  pose proof Ht as Hx. apply elem_of_listed in Hx; [|done]. destruct (list_Remove_ok l tx tx Hw Hx) as (inv & l' & -> & Hw' & Hs' & Hp' & Hinv & _). cbn [mbind fuelled_bind run].
  assert (inv = []) as ->. { destruct inv as [|y inv]; [done|]. destruct (Hinv y) as [Hc _]; [set_solver|congruence]. }
  assert (list_at (queue p) a = listed l) as Hla by (by apply list_at_Some). cbn in Hp'.
  assert (Inv (set_queue_list p a l') L D) as H1.
  { apply Inv_set_queue; [done|done|congruence|intros x Hin; apply Hg; rewrite <- Hp'; set_solver| |apply Hp; by eexists]. intros x y Hin Hy. apply (inv_disj _ _ _ Hp a); [done|]. rewrite Hla, <- Hp'. set_solver. }
  destruct (list_Empty l') eqn:He; eexists; (split; [done|]).
  - apply list_Empty_true in He. split; [by apply Inv_delete_queue|]. split; [split; [done|by apply filled_delete_insert]|]. split; [done|]. split; [|done].
    split; cbn; [rewrite list_at_delete, Hla, <- Hp', He, app_nil_r; solve_Permutation|done|intros c Hc; by rewrite lookup_delete_ne, lookup_insert_ne].
  - split; [done|]. split; [split; [done|]; apply filled_insert; [done|]; intros E; apply list_Empty_true in E; congruence|]. split; [done|]. split; [|done].
    split; cbn; [rewrite list_at_insert, Hla, <- Hp'; solve_Permutation|done|intros c Hc; by rewrite lookup_insert_ne].
Qed.

(** The pool between two operations; [D] is what has left the price heap. *)
Definition PoolInv (p : TxPool) (D : list Transaction) : Prop := Inv p (pool_txs p) D /\ full p.

(** The result of the removal of [tx]. *)
Record removed_tx (p p' : TxPool) (D : list Transaction) (tx : Transaction) : Prop := {
  rm_inv : PoolInv p' D;
  rm_frame : framed p p';
  rm_loses : loses p p' (from_of tx) [tx];
  rm_remotes : lk_remotes (all p') = base.delete (tx_Hash tx) (lk_remotes (all p));
  rm_queued : tx ∈ list_at (queue p) (from_of tx) -> pending p' = pending p /\ pendingNonces p' = pendingNonces p;
  rm_queue : forall a x, x ∈ list_at (queue p) a -> x <> tx -> x ∈ list_at (queue p') a
}.

Lemma loses_queue p p' a l x c : loses p p' a l -> c <> a -> x ∈ list_at (queue p) c -> x ∈ list_at (queue p') c.
Proof. intros [_ _ H] Hc. unfold list_at. by rewrite H. Qed.

Lemma Inv_out p L D (ob : bool) : Inv p L D -> Inv (if ob then Removed p 1 else p) L D.
Proof. destruct ob; [apply Inv_Removed|done]. Qed.

Lemma removeTx_ok p D tx ob : PoolInv p D -> tx ∈ pool_txs p -> exists p', removeTx p (tx_Hash tx) ob = run (Ret p') /\ removed_tx p p' D tx.
Proof.
  intros [Hp Hf] Ht. destruct (locate p _ _ tx Hp Ht) as [Hg Hloc]. set (a := from_of tx) in *. destruct (elem_of_Permutation (pool_txs p) tx) as [HL _]. destruct (HL Ht) as [L' HL']. clear HL.
  assert (lookup_Get (all p) (tx_Hash tx) = Some tx) as Hget by (eapply Get_elem; [apply Hp|done]). unfold removeTx. rewrite Hget. fold a.
  set (p1 := all_Remove p (tx_Hash tx)). set (p2 := if ob then Removed p1 1 else p1).
  assert (Inv p2 L' D) as H2 by (apply Inv_out, Inv_all_Remove; by eapply Inv_perm).
  assert (lk_remotes (all p2) = base.delete (tx_Hash tx) (lk_remotes (all p))) as Hr.
  { unfold p2, p1. destruct ob; cbn; unfold lookup_Remove; by rewrite Hget. }
  assert (pending p2 = pending p /\ queue p2 = queue p /\ pendingNonces p2 = pendingNonces p /\ framed p p2) as (E1 & E2 & E3 & E4) by (unfold p2, p1; by destruct ob).
  assert (full p2) as Hf2 by (unfold full; by rewrite E1, E2).
  assert (forall p', Inv p' L' D -> full p' -> loses p2 p' a [tx] -> PoolInv p' D /\ loses p p' a [tx]) as Hfin.
  { intros p' Hp' Hf' Hl. assert (loses p p' a [tx]) as Hl' by (by eapply loses_lists). split; [|done]. split; [|done]. eapply Inv_perm; [|done]. apply (Permutation_cons_inv (a := tx)). rewrite <- HL'. by apply loses_txs in Hl'. }
  destruct Hloc as [[Hin Hq]|[Hin Hq]].
  - destruct (remove_pending_ok p2 L' D a tx H2 Hf2) as (p' & -> & Hp' & Hf' & Hfr & Hl & Ha & _ & Hqq); [by rewrite E1|by rewrite E2|]. exists p'. split; [done|]. destruct (Hfin p' Hp' Hf' Hl) as [Hi Hl'].
    split; [done|by etrans|done|by rewrite Ha| |].
    + intros Hc. by destruct (Hq tx Hc).
    + intros c x Hx _. destruct (decide (c = a)) as [->|Hc]; [apply Hqq; by rewrite E2|]. by eapply loses_queue.
  - rewrite (remove_pending_other p2 L' D a tx H2) by (by rewrite E1). cbn [mbind fuelled_bind run]. destruct (remove_queued_ok p2 L' D a tx H2 Hf2) as (p' & -> & Hp' & Hf' & Hfr & Hl & Ha & _ & Hpe & Hn); [by rewrite E2|].
    exists p'. split; [done|]. destruct (Hfin p' Hp' Hf' Hl) as [Hi Hl']. split; [done|by etrans|done|by rewrite Ha|intros _; split; congruence|].
    intros c x Hx Hne. destruct (decide (c = a)) as [->|Hc]; [|by eapply loses_queue]. destruct Hl' as [Hl' _ _]. rewrite Hpe, E1 in Hl'.
    assert (list_at (queue p) a ≡ₚ tx :: list_at (queue p') a) as Hq'. { apply (Permutation_app_inv_l (list_at (pending p) a)). rewrite Hl'. solve_Permutation. }
    rewrite Hq' in Hx. by apply elem_of_cons in Hx as [?|?].
Qed.

(** ** Any hashes *)

(** What is left after the removal of some hashes. *)
Record removed_hashes (p p' : TxPool) (D : list Transaction) (hs : list Z) : Prop := {
  rh_inv : PoolInv p' D;
  rh_frame : framed p p';
  rh_remotes : forall h tx, lk_remotes (all p') !! h = Some tx <-> lk_remotes (all p) !! h = Some tx /\ h ∉ hs;
  rh_txs : forall tx, tx ∈ pool_txs p' <-> tx ∈ pool_txs p /\ tx_Hash tx ∉ hs
}.

Lemma pool_elem p L D tx : Inv p L D -> L ≡ₚ pool_txs p -> tx ∈ pool_txs p <-> lookup_Get (all p) (tx_Hash tx) = Some tx.
Proof. intros Hp HL. rewrite (Get_elem (all p) L) by apply Hp. rewrite HL. tauto. Qed.

Lemma removeTx_any p D h ob : PoolInv p D -> exists p', removeTx p h ob = run (Ret p') /\ removed_hashes p p' D [h].
Proof.
  intros Hp. destruct (lookup_Get (all p) h) as [tx|] eqn:Hget; cycle 1.
  { exists p. unfold removeTx. rewrite Hget. split; [done|]. pose proof (inv_all _ _ _ (proj1 Hp)) as Ha. split; [done|done| |].
    - intros k x. split; [|tauto]. intros Hx. split; [done|]. intros ->%list_elem_of_singleton. assert (lookup_Get (all p) h = Some x); [|congruence]. apply lookup_Get_iff; [apply Ha|by right].
    - intros x. split; [|tauto]. intros Hx. split; [done|]. intros Hh%list_elem_of_singleton. apply (proj1 (pool_elem p _ D x (proj1 Hp) (reflexivity _))) in Hx. congruence. }
  pose proof Hget as Hin. eapply Get_elem in Hin as [Hin <-]; [|apply Hp]. destruct (removeTx_ok p D tx ob Hp Hin) as (p' & E & H). exists p'. split; [done|]. split; [apply H|apply H| |].
  - intros k x. rewrite (rm_remotes _ _ _ _ H), lookup_delete_Some, list_elem_of_singleton. naive_solver.
  - intros x. pose proof (loses_txs _ _ _ _ (rm_loses _ _ _ _ H)) as Hl. pose proof (proj1 (rm_inv _ _ _ _ H)) as Hp'. rewrite Hl, list_elem_of_singleton. cbn [app]. rewrite elem_of_cons. split; [|naive_solver].
    intros Hx. split; [by right|]. intros Hh. pose proof (proj1 (pool_elem p _ D x (proj1 Hp) (reflexivity _))) as H1. rewrite Hl, Hh, Hget in H1. injection H1 as ->; [|set_solver].
    pose proof (proj1 (pool_elem p' _ D x Hp' (reflexivity _)) Hx) as H2. pose proof (inv_all _ _ _ (proj1 Hp)) as Ha. rewrite Hl in Ha. apply lookup_NoDup in Ha. cbn in Ha. apply list.NoDup_cons in Ha as [Ha _]. apply Ha. by apply list_elem_of_fmap_2.
Qed.

Lemma removeTxs_ok l ob D : forall p, PoolInv p D -> exists p', removeTxs p l ob = run (Ret p') /\ removed_hashes p p' D (tx_Hash <$> l).
Proof.
  induction l as [|x l IH]; intros p Hp.
  { exists p. split; [done|]. split; [done|done|..]; intros; rewrite elem_of_nil; tauto. }
  destruct (removeTx_any p D (tx_Hash x) ob Hp) as (p1 & E1 & [H1 H2 H3 H4]). cbn [removeTxs]. rewrite E1. cbn [mbind fuelled_bind run]. destruct (IH p1 H1) as (p' & E & [H5 H6 H7 H8]). exists p'. split; [done|].
  split; [done|by etrans| |].
  - intros h tx. rewrite H7, H3. rewrite fmap_cons, !elem_of_cons, elem_of_nil. tauto.
  - intros tx. rewrite H8, H4. rewrite fmap_cons, !elem_of_cons, elem_of_nil. tauto.
Qed.

(** What left the price heap has left the pool. *)
Lemma priced_done all l D : priced_ok all l D -> (forall h tx, lk_remotes all !! h = Some tx -> tx ∉ D) -> priced_ok all l [].
Proof. intros [H1 H2] Hd. split; [done|]. intros h tx Hh. destruct (H2 h tx Hh) as [|Hx]; [by left|]. by destruct (Hd h tx Hh). Qed.

Lemma Inv_done p L D : Inv p L D -> (forall h tx, lk_remotes (all p) !! h = Some tx -> tx ∉ D) -> Inv p L [].
Proof. intros [H1 H2 H3 H4 H5 H6 H7 Hev] Hd. split; try done. by eapply priced_done. Qed.

(** Dropped transactions are removed, and the heap is in step again. *)
Lemma removeTxs_drop l ob p : PoolInv p l -> exists p', removeTxs p l ob = run (Ret p') /\ removed_hashes p p' [] (tx_Hash <$> l).
Proof.
  intros Hp. destruct (removeTxs_ok l ob l p Hp) as (p' & E & [[H1 Hf] H2 H3 H4]). exists p'. split; [done|]. split; [|done|done|done]. split; [|done]. apply (Inv_done _ _ l); [done|].
  intros h tx Hx%H3 Hin. destruct Hx as [Hx Hn]. apply Hn. pose proof (lk_hash _ _ (inv_all _ _ _ (proj1 Hp)) h tx (or_intror Hx)) as <-. by apply list_elem_of_fmap_2.
Qed.

Lemma PoolInv_priced p r D D' : PoolInv p D -> priced_ok (all p) r D' -> PoolInv (set_priced p r) D'.
Proof. intros [[H1 H2 H3 H4 H5 H6 H7 Hev] Hf] Hr. split; [|done]. by split. Qed.

(** Whether a transaction of the pool is a local one. *)
Definition is_local (p : TxPool) (tx : Transaction) : Prop := lk_locals (all p) !! tx_Hash tx = Some tx.

Lemma local_or_remote p D tx : PoolInv p D -> tx ∈ pool_txs p -> is_local p tx \/ lk_remotes (all p) !! tx_Hash tx = Some tx.
Proof. intros [Hp _] Ht. apply (pool_elem p _ D tx Hp (reflexivity _)) in Ht. apply lookup_Get_iff in Ht; [done|apply (inv_all _ _ _ Hp)]. Qed.

Lemma local_not_live p D tx x : PoolInv p D -> is_local p tx -> live (all p) x -> tx_Hash x <> tx_Hash tx.
Proof.
  intros [Hp _] Hl [y Hy] E. rewrite E in Hy. pose proof (lk_disj _ _ (inv_all _ _ _ Hp)) as Hd. by destruct (proj1 (map_disjoint_spec _ _) Hd _ _ _ Hl Hy).
Qed.

Lemma SetGasPrice_ok p price : PoolInv p [] ->
  exists p', SetGasPrice p price = run (Ret p') /\ PoolInv p' [] /\ gasPrice p' = price /\
    (forall tx, tx ∈ pool_txs p' -> tx ∈ pool_txs p /\ (price <= Price tx \/ is_local p tx)) /\ (forall tx, tx ∈ pool_txs p -> is_local p tx -> tx ∈ pool_txs p').
Proof.
  intros Hp. unfold SetGasPrice. cbv zeta. cbn [all priced set_gasPrice]. destruct (priced_Cap_ok (all p) _ (priced p) price (inv_all _ _ _ (proj1 Hp)) (inv_priced _ _ _ (proj1 Hp))) as (drop & l & -> & Hpr & Hdrop & Hrest).
  cbn [mbind fuelled_bind run]. assert (PoolInv (set_gasPrice p price) []) as Hg by (destruct Hp as [[] ?]; done).
  destruct (removeTxs_drop drop false (set_priced (set_gasPrice p price) l)) as (p' & -> & [H1 H2 H3 H4]); [by eapply PoolInv_priced|]. exists p'. split; [done|]. split; [done|]. split; [apply H2|].
  change (pool_txs (set_priced (set_gasPrice p price) l)) with (pool_txs p) in H4. split.
  - intros tx Ht%H4. destruct Ht as [Ht Hn]. split; [done|]. destruct (local_or_remote p [] tx Hp Ht) as [|Hr]; [by right|left]. apply Hrest.
    destruct (pr_covers _ _ _ Hpr _ _ Hr) as [|Hd]; [done|]. destruct Hn. by apply list_elem_of_fmap_2.
  - intros tx Ht Hl. apply H4. split; [done|]. intros (x & E & Hx)%list_elem_of_fmap. destruct (Hdrop x Hx) as [Hlive _]. by destruct (local_not_live p [] tx x Hp Hl Hlive).
Qed.
End Remove.
