(* ===== verification/TxPoolAdd.v ===== *)
(** * Adding transactions to the pool

    An added transaction is in the pool, in the place of one of its nonce that it
    outbids; room is made by dropping cheap remote transactions.  Whatever happens the
    invariant is kept, and nothing panics. *)

From stdpp Require Import gmap sorting.
From S2P Require Import Prelude VmPrecompiles GoHeap TxList TxListProofs TxSigning TxLookup TxPool TxPoolInv.

Section Add.
Context {C : Crypto} {MO : MapOrder} {Env : PoolEnv} {BO : BeatOrder}.

(** ** Slots *)

Lemma tx_Size_nonneg tx : 0 <= tx_Size tx.
Proof. unfold tx_Size. destruct (RlpEncode.EncodeToBytes _); [apply zlen_nonneg|lia|lia]. Qed.

Lemma numSlots_nonneg tx : 0 <= numSlots tx.
Proof. unfold numSlots, txSlotSize. pose proof (tx_Size_nonneg tx). apply Z.div_pos; lia. Qed.

Lemma numSlots_pos tx : 0 < tx_Size tx -> 1 <= numSlots tx.
Proof. unfold numSlots, txSlotSize. intros H. apply Z.div_le_lower_bound; lia. Qed.

Lemma Count_length t L : lookup_ok t L -> Count t = zlen L.
Proof.
  intros Ht. unfold Count, zlen. pose proof (Permutation_length (lk_elems _ _ Ht)) as E. rewrite length_app in E. unfold values in E. rewrite !length_fmap, !length_map_to_list in E. lia.
Qed.

Lemma slots_count L : (forall tx, tx ∈ L -> 0 < tx_Size tx) -> zlen L <= sum_slots L.
Proof.
  induction L as [|x L IH]; intros HL; [done|]. cbn [sum_slots]. pose proof (numSlots_pos x (HL x ltac:(set_solver))). pose proof (IH ltac:(set_solver)). unfold zlen in *. cbn [length]. lia.
Qed.

Lemma pool_good p L D tx : Inv p L D -> tx ∈ pool_txs p -> good (from_of tx) tx.
Proof. intros Hp Ht. by destruct (locate p L D tx Hp Ht) as [Hg _]. Qed.

Lemma room_needed p D tx limit : PoolInv p D -> is_u64 limit -> u64 (Count (all p) + numSlots tx) > limit -> 0 <= Slots (all p) - i64 limit + numSlots tx.
Proof.
  intros [Hp _] Hl Hc. pose proof (inv_all _ _ _ Hp) as Ha. unfold Slots. rewrite (lk_slots _ _ Ha). rewrite (Count_length _ _ Ha) in Hc.
  pose proof (slots_count (pool_txs p) ltac:(intros x Hx; by apply (pool_good p _ _ x Hp))). pose proof (numSlots_nonneg tx). pose proof (zlen_nonneg (pool_txs p)).
  assert (u64 (zlen (pool_txs p) + numSlots tx) <= zlen (pool_txs p) + numSlots tx) by (unfold u64; apply Z.mod_le; lia).
  assert (i64 limit <= limit) by (unfold i64; rewrite (u64_id limit Hl); destruct (decide _); unfold is_u64 in *; lia). lia.
Qed.

(** ** Room *)

(** Only remote transactions left. *)
Record thinned (p p' : TxPool) : Prop := {
  th_inv : PoolInv p' [];
  th_frame : framed p p';
  th_sub : forall tx, tx ∈ pool_txs p' -> tx ∈ pool_txs p;
  th_local : forall tx, tx ∈ pool_txs p -> is_local p tx -> tx ∈ pool_txs p'
}.

Lemma thinned_priced p r : PoolInv p [] -> priced_ok (all p) r [] -> thinned p (set_priced p r).
Proof. intros Hp Hr. split; [by eapply PoolInv_priced|done|done|done]. Qed.

Lemma discard_ok p n force : PoolInv p [] -> 0 <= n ->
  exists drop ok l, Discard (all p) (priced p) n force = run (Ret (drop, ok, l)) /\ PoolInv (set_priced p l) drop /\ (drop = [] -> thinned p (set_priced p l)) /\
    (ok = false -> drop = []) /\ exists p', removeTxs (set_priced p l) drop false = run (Ret p') /\ thinned p p'.
Proof.
  intros Hp Hn. destruct (Discard_ok (all p) _ (priced p) n force (inv_all _ _ _ (proj1 Hp)) (inv_priced _ _ _ (proj1 Hp)) Hn) as (drop & ok & l & E & H1 & H2 & H3 & H4 & H5).
  exists drop, ok, l. split; [done|]. assert (PoolInv (set_priced p l) drop) as Hp' by (by eapply PoolInv_priced). split; [done|]. split; [intros ->; by apply thinned_priced|]. split; [intros Ho; by apply H4|].
  destruct (removeTxs_drop drop false (set_priced p l) Hp') as (p' & E' & [R1 R2 R3 R4]). exists p'. split; [done|]. change (pool_txs (set_priced p l)) with (pool_txs p) in R4. split; [done|by etrans; [|exact R2]|intros tx Ht; by apply R4|].
  intros tx Ht Hl. apply R4. split; [done|]. intros (x & Ex & Hx)%list_elem_of_fmap. destruct (H2 x Hx) as [Hlive _]. by destruct (local_not_live p [] tx x Hp Hl Hlive).
Qed.

Lemma thinned_trans p1 p2 p3 : thinned p1 p2 -> thinned p2 p3 -> (forall tx, is_local p1 tx -> is_local p2 tx) -> thinned p1 p3.
Proof. intros [A1 A2 A3 A4] [B1 B2 B3 B4] Hl. split; [done|by etrans|auto|auto]. Qed.

Lemma make_room_ok p tx isLocal : PoolInv p [] -> exists e p', make_room p tx isLocal = run (Ret (e, p')) /\ thinned p p' /\ (isLocal = true -> e = None).
Proof.
  intros Hp. unfold make_room. cbv zeta. set (limit := u64 (GlobalSlots config + GlobalQueue config)). destruct (decide _) as [Hc|Hc]; [|by exists None, p].
  assert (exists u r, (if isLocal then run (Ret (false, p)) else '(b, l) ← Underpriced (all p) (priced p) tx; run (Ret (b, set_priced p l))) = run (Ret (u, set_priced p r)) /\ priced_ok (all p) r [] /\ (isLocal = true -> u = false)) as (u & r & -> & Hr & Hu).
  { destruct isLocal; [exists false, (priced p); split; [by destruct p|split; [apply (proj1 Hp)|done]]|].
    destruct (Underpriced_ok (all p) _ (priced p) tx (inv_all _ _ _ (proj1 Hp)) (inv_priced _ _ _ (proj1 Hp))) as (b & l & -> & Hl & _). by exists b, l. }
  cbn [mbind fuelled_bind run]. pose proof (thinned_priced p r Hp Hr) as Ht. destruct u; [eexists _, _; split; [done|]; split; [done|]; intros E; by specialize (Hu E)|].
  destruct (discard_ok (set_priced p r) (Slots (all p) - i64 limit + numSlots tx) isLocal) as (drop & ok & l & E & H1 & H2 & H3 & p' & E' & H4); [by apply Ht|apply (room_needed p []); [done|apply u64_range|done]|].
  cbn [all priced set_priced] in E |- *. rewrite E. cbn [mbind fuelled_bind run]. assert (forall q, thinned (set_priced p r) q -> thinned p q) as Htr by (intros q Hq; by eapply thinned_trans).
  destruct (negb isLocal && negb ok) eqn:Hov.
  - apply andb_true_iff in Hov as [Hi Ho]. apply negb_true_iff in Hi, Ho. subst. eexists _, _. split; [done|]. split; [apply Htr, H2, H3; done|done].
  - rewrite E'. cbn [mbind fuelled_bind run]. eexists _, _. split; [done|]. split; [by apply Htr|done].
Qed.

(** ** A transaction goes in *)

Definition drop_old (p : TxPool) (old : option Transaction) : TxPool := match old with Some o => Removed (all_Remove p (tx_Hash o)) 1 | None => p end.

Lemma Inv_drop_old p L D old X : Inv p L D -> L ≡ₚ option_list old ++ X -> Inv (drop_old p old) X D.
Proof. intros Hp HL. destruct old as [o|]; cbn in *; [apply Inv_Removed, Inv_all_Remove|]; by eapply Inv_perm. Qed.

(** The transaction takes the place of the old one in the lookup. *)
Lemma Inv_swap p L old X tx local : Inv p L [] -> L ≡ₚ option_list old ++ X -> lookup_Get (all p) (tx_Hash tx) = None -> (local = false -> containsTx signer (locals p) tx = false) ->
  Inv (with_tx (drop_old p old) tx local) (tx :: X) [].
Proof.
  intros Hp HL Hn Hloc. pose proof (Inv_drop_old p L [] old X Hp HL) as Hp'. apply Inv_with_tx; [done| |by destruct old].
  apply (Get_None _ X); [apply Hp'|]. rewrite (Get_None _ L) in Hn by apply Hp. intros Hx. apply Hn. rewrite HL, fmap_app. set_solver.
Qed.

(** What an account has besides its pending, and besides its queued transactions. *)
Lemma pool_set_pending p a l : exists R, pool_txs p ≡ₚ list_at (pending p) a ++ R /\ pool_txs (set_pending_list p a l) ≡ₚ listed l ++ R.
Proof.
  exists (lists_txs (base.delete a (pending p)) ++ lists_txs (queue p)). unfold pool_txs. cbn. rewrite (lists_txs_delete (pending p) a), lists_txs_insert. by rewrite <- !(assoc_L (++)).
Qed.

Lemma pool_set_queue p a l : exists R, pool_txs p ≡ₚ list_at (queue p) a ++ R /\ pool_txs (set_queue_list p a l) ≡ₚ listed l ++ R.
Proof.
  exists (lists_txs (base.delete a (queue p)) ++ lists_txs (pending p)). unfold pool_txs. cbn. rewrite (lists_txs_delete (queue p) a), lists_txs_insert. split; solve_Permutation.
Qed.

(** The new list of an account: the old transaction, if any, is out and the new one in. *)
Definition takes (l l' : txList) (tx : Transaction) (old : option Transaction) : Prop :=
  wf_list l' /\ strict l' = strict l /\ option_list old ++ listed l' ≡ₚ tx :: listed l /\ (forall o, old = Some o -> AccountNonce o = AccountNonce tx /\ outbids (PriceBump config) o tx).

Lemma list_Add_takes l tx : wf_list l -> is_u64 (AccountNonce tx) ->
  (exists o, o ∈ listed l /\ AccountNonce o = AccountNonce tx /\ ~ outbids (PriceBump config) o tx /\ list_Add l tx (PriceBump config) = (false, None, l)) \/
  (exists l' old, list_Add l tx (PriceBump config) = (true, old, l') /\ takes l l' tx old /\ old = litems l !! AccountNonce tx).
Proof.
  intros Hl Hu. pose proof (list_Add_ok l tx (PriceBump config) Hl Hu) as H. pose proof (wl_keyed l Hl) as Hk. destruct (litems l !! AccountNonce tx) as [o|] eqn:Ho.
  - pose proof (keyed_nonce _ _ _ Hk Ho) as En. assert (o ∈ listed l) as Hin by (apply elem_of_listed; [done|by rewrite En]).
    destruct H as [[Hb E]|(Hb & l' & E & Hw & Hs & Hi)]; [left; by exists o|right; exists l', (Some o)]. split; [done|]. split; [|done]. split; [done|]. split; [done|]. split; [|by intros ? [= <-]].
    cbn. unfold listed. rewrite Hi. by apply in_order_replace.
  - destruct H as (l' & E & Hw & Hs & Hi). right. exists l', None. split; [done|]. split; [|done]. split; [done|]. split; [done|]. split; [|done]. cbn. unfold listed. rewrite Hi. by apply in_order_put.
Qed.

(** The result of an insertion. *)
Record inserted (p p' : TxPool) (tx : Transaction) (old : option Transaction) : Prop := {
  in_inv : PoolInv p' [];
  in_txs : option_list old ++ pool_txs p' ≡ₚ tx :: pool_txs p;
  in_old : forall o, old = Some o -> from_of o = from_of tx /\ AccountNonce o = AccountNonce tx /\ outbids (PriceBump config) o tx;
  in_state : currentState p' = currentState p /\ currentMaxGas p' = currentMaxGas p /\ gasPrice p' = gasPrice p /\ istanbul p' = istanbul p
}.

Lemma takes_elem l l' tx old x : takes l l' tx old -> x ∈ listed l' -> x = tx \/ x ∈ listed l.
Proof. intros (_ & _ & Hp & _) Hx. assert (x ∈ tx :: listed l) as H by (rewrite <- Hp; set_solver). by apply elem_of_cons in H. Qed.

Lemma takes_nonempty l l' tx old : takes l l' tx old -> listed l' <> [].
Proof.
  intros (Hw & _ & Hp & Ho) E. rewrite E, app_nil_r in Hp. destruct old as [o|]; cbn in Hp; [|by apply Permutation_nil in Hp].
  destruct (listed l); [|by apply Permutation_length in Hp]. apply Permutation_singleton_inj in Hp as ->. destruct (Ho tx eq_refl) as [_ [Hb _]]. lia.
Qed.

Lemma replace_pending_ok p a l tx isLocal : PoolInv p [] -> pending p !! a = Some l -> list_Overlaps l tx = true -> good a tx -> lookup_Get (all p) (tx_Hash tx) = None ->
  (isLocal = false -> containsTx signer (locals p) tx = false) ->
  replace_pending p a l tx isLocal = (inl ErrReplaceUnderpriced, p) \/ exists old p', replace_pending p a l tx isLocal = (inr true, p') /\ inserted p p' tx (Some old) /\ locals p' = locals p.
Proof.
  intros [Hp [Hf1 Hf2]] Ha Hov Hg Hn Hloc. pose proof (side_wf _ _ _ _ (inv_pending _ _ _ Hp) Ha) as Hw. pose proof (side_strict _ _ _ _ (inv_pending _ _ _ Hp) Ha) as Hs.
  pose proof (side_list _ _ _ _ (inv_pending _ _ _ Hp) Ha) as Hgl. pose proof (list_at_Some _ _ _ Ha) as Hla. unfold replace_pending.
  destruct (list_Add_takes l tx Hw) as [(o & _ & _ & _ & ->)|(l' & old & -> & Ht & Hold)]; [apply Hg|left; cbn; unfold set_pending_list; rewrite insert_id by done; by destruct p|right].
  apply list_Overlaps_true in Hov as [o Ho]. rewrite Ho in Hold. subst old. pose proof (keyed_nonce _ _ _ (wl_keyed l Hw) Ho) as En. cbn [negb].
  assert (o ∈ listed l) as Hol by (apply elem_of_listed; [done|by rewrite En]).
  assert (Inv (set_pending_list p a l') (pool_txs p) []) as H1.
  { apply Inv_set_pending; [done|apply Ht|destruct Ht as (_ & -> & _); done|intros x Hx; destruct (takes_elem _ _ _ _ _ Ht Hx) as [->|]; [done|by apply Hgl]|].
    intros x y Hx Hy. destruct (takes_elem _ _ _ _ _ Ht Hx) as [->|Hx']; [rewrite <- En|]; apply (inv_disj _ _ _ Hp a); by rewrite ?Hla. }
  pose proof (takes_nonempty _ _ _ _ Ht) as Hne. destruct (pool_set_pending p a l') as (R & HR1 & HR2). rewrite Hla in HR1. destruct Ht as (Hw' & Hs' & Hperm & Ho'). destruct (elem_of_Permutation (listed l) o) as [HX _]. destruct (HX Hol) as [X0 HX0].
  assert (listed l' ≡ₚ tx :: X0) as Hl' by (apply (Permutation_cons_inv (a := o)); cbn in Hperm; rewrite Hperm, HX0; solve_Permutation).
  pose proof (Inv_swap (set_pending_list p a l') (pool_txs p) (Some o) (X0 ++ R) tx isLocal H1) as H2. cbn [option_list app] in H2. rewrite HR1, HX0 in H2. specialize (H2 (reflexivity _) Hn Hloc).
  exists o. eexists. rewrite bool_decide_eq_true_2 by (by eexists). split; [done|]. set (p4 := journalTx _ _ _).
  assert (pending p4 = <[a := l']> (pending p) /\ queue p4 = queue p /\ locals p4 = locals p /\ currentState p4 = currentState p /\ currentMaxGas p4 = currentMaxGas p /\ gasPrice p4 = gasPrice p /\ istanbul p4 = istanbul p) as (E1 & E2 & E3 & E4).
  { subst p4. unfold journalTx. destruct (journal _); [destruct (contains _ _)|]; done. }
  assert (pool_txs p4 = pool_txs (set_pending_list p a l')) as Ep by (unfold pool_txs; by rewrite E1, E2).
  split; [|done]. split; [split; [|split; [cbn; rewrite E1; by apply filled_insert|cbn; by rewrite E2]]| | |done].
  - apply Inv_beat, Inv_queueTxEvent; [apply Inv_journalTx|apply Hg]. eapply Inv_perm; [|exact H2]. change (pool_txs _) with (pool_txs p4). rewrite Ep, HR2, Hl'. done.
  - change (pool_txs _) with (pool_txs p4) at 1. rewrite Ep, HR2, HR1, HX0, Hl'. cbn. apply perm_swap.
  - intros ? [= <-]. split; [by rewrite (good_from a tx), (good_from a o) by auto|]. by apply Ho'.
Qed.

Lemma option_list_length (old : option Transaction) (X Y : list Transaction) tx : option_list old ++ X ≡ₚ tx :: Y -> (forall o, old = Some o -> o ∈ Y) -> exists X0, X ≡ₚ tx :: X0 /\ Y ≡ₚ option_list old ++ X0.
Proof.
  intros Hp Ho. destruct old as [o|]; cbn in *; [|by exists Y]. destruct (elem_of_Permutation Y o) as [H _]. destruct (H (Ho o eq_refl)) as [X0 HX]. exists X0. split; [|done].
  apply (Permutation_cons_inv (a := o)). rewrite Hp, HX. apply perm_swap.
Qed.

Lemma enqueue_new_ok p a tx local : PoolInv p [] -> good a tx -> lookup_Get (all p) (tx_Hash tx) = None -> (forall x, x ∈ list_at (pending p) a -> AccountNonce x <> AccountNonce tx) ->
  (local = false -> containsTx signer (locals p) tx = false) ->
  enqueueTx p (tx_Hash tx) tx local true = (inl ErrReplaceUnderpriced, p) \/
  exists old p', enqueueTx p (tx_Hash tx) tx local true = (inr (bool_decide (is_Some old)), p') /\ inserted p p' tx old /\ locals p' = locals p.
Proof.
  intros [Hp [Hf1 Hf2]] Hg Hn Hpend Hloc. destruct (queue_list_ok p _ _ a Hp) as (Hw & Hs & Hla & Hgl). unfold enqueueTx. rewrite (good_from a tx Hg). set (l := default _ _) in *.
  destruct (list_Add_takes l tx Hw) as [(o & Hin & _ & _ & ->)|(l' & old & -> & Ht & Hold)]; [apply Hg|left|right].
  { cbn. unfold set_queue_list. subst l. destruct (queue p !! a) as [l|] eqn:Ha; [cbn; rewrite insert_id by done; by destruct p|by apply elem_of_nil in Hin]. }
  cbn [negb]. pose proof (takes_nonempty _ _ _ _ Ht) as Hne. set (pb := match beats p !! a with Some _ => p | None => beat p a end).
  assert (Inv pb (pool_txs p) [] /\ pending pb = pending p /\ queue pb = queue p /\ all pb = all p /\ locals pb = locals p /\ is_Some (beats pb !! a)) as (Hb & E1 & E2 & E3 & E4 & E5).
  { subst pb. destruct (beats p !! a) eqn:Eb; [by rewrite Eb|]. split; [by apply Inv_beat|]. cbn. by rewrite lookup_insert_eq. }
  assert (Inv (set_queue_list pb a l') (pool_txs p) []) as H1.
  { apply Inv_set_queue; [done|apply Ht|destruct Ht as (_ & -> & _); done|intros x Hx; destruct (takes_elem _ _ _ _ _ Ht Hx) as [->|]; [done|by apply Hgl]| |done].
    rewrite E1. intros x y Hx Hy. destruct (takes_elem _ _ _ _ _ Ht Hy) as [->|Hy']; [by apply Hpend|]. apply (inv_disj _ _ _ Hp a); [done|by rewrite <- Hla]. }
  destruct (pool_set_queue p a l') as (R & HR1 & HR2). rewrite <- Hla in HR1. destruct Ht as (Hw' & Hs' & Hperm & Ho').
  assert (forall o, old = Some o -> o ∈ listed l) as Hol. { intros o ->. symmetry in Hold. pose proof (keyed_nonce _ _ _ (wl_keyed l Hw) Hold) as En. apply elem_of_listed; [done|by rewrite En]. }
  destruct (option_list_length _ _ _ _ Hperm Hol) as (X0 & HX1 & HX2).
  pose proof (Inv_swap (set_queue_list pb a l') (pool_txs p) old (X0 ++ R) tx local H1) as H2. rewrite HR1, HX2, <- (assoc_L (++)) in H2. cbn [all locals set_queue_list set_queue] in H2. rewrite E3, E4 in H2. specialize (H2 (reflexivity _) Hn Hloc).
  remember (with_tx (drop_old (set_queue_list pb a l') old) tx local) as p4 eqn:E6. exists old, p4. split.
  { rewrite E6. unfold with_tx, drop_old, pb. destruct old; cbn [set_queue_list set_queue Removed all_Remove set_all set_priced beats]; destruct (beats p !! a) eqn:Eb; done. }
  assert (pending p4 = pending p /\ queue p4 = <[a := l']> (queue p) /\ locals p4 = locals p /\ currentState p4 = currentState p /\ currentMaxGas p4 = currentMaxGas p /\ gasPrice p4 = gasPrice p /\ istanbul p4 = istanbul p) as (F1 & F2 & F3 & F4).
  { rewrite E6. unfold drop_old, pb. destruct old, (beats p !! a); done. }
  assert (pool_txs p4 ≡ₚ listed l' ++ R) as Ep by (rewrite <- HR2; unfold pool_txs; by rewrite F1, F2).
  split; [|done]. split; [split; [|split; [by rewrite F1|rewrite F2; by apply filled_insert]]| | |done].
  - eapply Inv_perm; [|exact H2]. rewrite Ep, HX1. done.
  - rewrite Ep, HR1, HX1, HX2. solve_Permutation.
  - intros o E. split; [|by apply Ho']. rewrite (good_from a tx Hg). apply good_from. by apply Hgl, Hol.
Qed.

(** What the operations on the lists leave of the state of the chain. *)
Definition same_chain (p p' : TxPool) : Prop := currentState p' = currentState p /\ currentMaxGas p' = currentMaxGas p /\ gasPrice p' = gasPrice p /\ istanbul p' = istanbul p.

#[global] Instance same_chain_refl : Reflexive same_chain.
Proof. by intros p. Qed.
#[global] Instance same_chain_trans : Transitive same_chain.
Proof. intros p q r (?&?&?&?) (?&?&?&?). split_and!; congruence. Qed.
Lemma framed_chain p p' : framed p p' -> same_chain p p'.
Proof. by intros []. Qed.

Lemma mark_local_ok p a : PoolInv p [] -> PoolInv (mark_local p a) [] /\ pool_txs (mark_local p a) = pool_txs p /\ same_chain p (mark_local p a) /\ locals (mark_local p a) = {[a]} ∪ locals p.
Proof.
  intros [Hp Hf]. unfold mark_local. cbv zeta. cbn [all locals set_locals]. pose proof (RemoteToLocals_ok signer ({[a]} ∪ locals p) (all p) _ (inv_all _ _ _ Hp)) as Hr. destruct (RemoteToLocals _ _ _) as [n t]. destruct Hr as (H1 & H2 & H3).
  split; [|done]. split; [|done]. apply Inv_Removed. destruct Hp as [A1 A2 A3 A4 A5 A6 A7 A8]. split; try done.
  - eapply priced_ok_sub; [done|]. intros h x. cbn. rewrite H3. tauto.
  - intros h x. cbn. rewrite H3. tauto.
Qed.

Lemma journalTx_ok p a tx D : PoolInv p D -> PoolInv (journalTx p a tx) D /\ pool_txs (journalTx p a tx) = pool_txs p /\ same_chain p (journalTx p a tx) /\ locals (journalTx p a tx) = locals p.
Proof. intros [Hp Hf]. pose proof (Inv_journalTx p _ D a tx Hp) as H. unfold journalTx in *. destruct (journal p); [destruct (contains _ _)|]; done. Qed.

(** The outcome of [add]: the transaction is in, in the place of one that it outbids, or there is an
    error; in both cases remote transactions may have been dropped. *)
Record added (p p' : TxPool) (tx : Transaction) (r : pool_err + bool) : Prop := {
  ad_inv : PoolInv p' [];
  ad_chain : same_chain p p';
  ad_locals : locals p ⊆ locals p';
  ad_result : exists q, thinned p q /\
    match r with
    | inl _ => pool_txs p' = pool_txs q
    | inr b => exists old, option_list old ++ pool_txs p' ≡ₚ tx :: pool_txs q /\ b = bool_decide (is_Some old) /\
        forall o, old = Some o -> from_of o = from_of tx /\ AccountNonce o = AccountNonce tx /\ outbids (PriceBump config) o tx
    end
}.

Lemma thinned_refl p : PoolInv p [] -> thinned p p.
Proof. done. Qed.

Lemma validate_sender p tx local : validateTx p tx local = None -> exists a, sender tx = Some a.
Proof. unfold validateTx. repeat destruct (decide _); try done. destruct (sender tx) as [a|]; [by exists a|done]. Qed.

Lemma overlapping_None p a tx D : PoolInv p D -> match pending p !! a with Some list => if list_Overlaps list tx then Some list else None | None => None end = None ->
  forall x, x ∈ list_at (pending p) a -> AccountNonce x <> AccountNonce tx.
Proof.
  intros [Hp _] Ho x Hx. unfold list_at in Hx. destruct (pending p !! a) as [l|] eqn:Ha; [|by apply elem_of_nil in Hx]. destruct (list_Overlaps l tx) eqn:Hl; [done|]. intros E.
  assert (list_Overlaps l tx = true); [|congruence]. apply list_Overlaps_true. apply lookup_listed; [by eapply side_wf, Ha; apply Hp|]. by exists x.
Qed.

Lemma add_ok p tx local : PoolInv p [] -> tx_ok tx -> exists r p', add p tx local = run (Ret (r, p')) /\ added p p' tx r.
Proof.
  intros Hp Hok. unfold add. destruct (lookup_Get (all p) (tx_Hash tx)) as [x|] eqn:Hn; [by exists (inl ErrAlreadyKnown), p; split; [|split; [| | |exists p]]|].
  set (isLocal := local || containsTx signer (locals p) tx). destruct (validateTx p tx isLocal) as [e|] eqn:Hv; [by exists (inl e), p; split; [|split; [| | |exists p]]|].
  apply validate_sender in Hv as [a Hs]. assert (good a tx) as Hg by done. destruct (make_room_ok p tx isLocal Hp) as (e & q & -> & Hq & _). cbn [mbind fuelled_bind run].
  assert (same_chain p q) as Hch by apply framed_chain, Hq. assert (locals q = locals p) as Hlq by apply (th_frame _ _ Hq). destruct e as [e|]; [exists (inl e), q; split; [done|]; split; [apply Hq|done|by rewrite Hlq|by exists q]|].
  assert (lookup_Get (all q) (tx_Hash tx) = None) as Hnq.
  { destruct (lookup_Get (all q) (tx_Hash tx)) as [x|] eqn:Hx; [|done]. pose proof (proj1 (th_inv _ _ Hq)) as Hqi. eapply Get_elem in Hx as [Hx Eh]; [|apply Hqi]. apply (th_sub _ _ Hq) in Hx. apply (pool_elem p _ _ x (proj1 Hp) (reflexivity _)) in Hx. congruence. }
  assert (isLocal = false -> containsTx signer (locals q) tx = false) as Hloc by (rewrite Hlq; unfold isLocal; by intros [_ ?]%orb_false_iff).
  rewrite (good_from a tx Hg). destruct (match pending q !! a with Some list => _ | None => _ end) as [l|] eqn:Hov.
  - destruct (pending q !! a) as [l'|] eqn:Ha; [|done]. destruct (list_Overlaps l' tx) eqn:Hl; [|done]. injection Hov as ->.
    destruct (replace_pending_ok q a l tx isLocal (th_inv _ _ Hq) Ha Hl Hg Hnq Hloc) as [->|(old & p' & -> & Hin & El)]; eexists _, _; (split; [done|]).
    + split; [apply Hq|done|by rewrite Hlq|by exists q].
    + split; [apply Hin|etrans; [done|apply Hin]|by rewrite El, Hlq|exists q; split; [done|]; exists (Some old); split; [apply Hin|split; [done|apply Hin]]].
  - destruct (enqueue_new_ok q a tx isLocal (th_inv _ _ Hq) Hg Hnq (overlapping_None q a tx [] (th_inv _ _ Hq) Hov) Hloc) as [->|(old & p1 & -> & Hin & El)]; [eexists _, q; split; [done|]; split; [apply Hq|done|by rewrite Hlq|by exists q]|].
    set (p2 := if local && negb (contains (locals p1) a) then mark_local p1 a else p1).
    assert (PoolInv p2 [] /\ pool_txs p2 = pool_txs p1 /\ same_chain p1 p2 /\ locals p1 ⊆ locals p2) as (A1 & A2 & A3 & A4).
    { unfold p2. destruct (local && _); [|split; [apply Hin|done]]. destruct (mark_local_ok p1 a (in_inv _ _ _ _ Hin)) as (B1 & B2 & B3 & B4). split_and!; [done|done|done|rewrite B4; set_solver]. }
    destruct (journalTx_ok p2 a tx [] A1) as (B1 & B2 & B3 & B4). eexists _, _. split; [done|]. split; [done|etrans; [done|]; etrans; [apply Hin|]; by etrans|rewrite B4, <- Hlq, <- El; done|].
    exists q. split; [done|]. exists old. rewrite B2, A2. split; [apply Hin|]. split; [done|apply Hin].
Qed.

(** ** Batches *)

Lemma pool_NoDup p D : PoolInv p D -> NoDup (pool_txs p).
Proof. intros [Hp _]. eapply NoDup_fmap_1, lookup_NoDup, inv_all, Hp. Qed.

Lemma pool_sub_size p p' D : PoolInv p' D -> (forall tx, tx ∈ pool_txs p' -> tx ∈ pool_txs p) -> zlen (pool_txs p') <= zlen (pool_txs p).
Proof. intros Hp Hs. unfold zlen. apply inj_le, submseteq_length, NoDup_submseteq; [by eapply pool_NoDup|done]. Qed.

Lemma added_size p p' tx r : added p p' tx r -> zlen (pool_txs p') <= zlen (pool_txs p) + 1.
Proof.
  intros [_ _ _ (q & Hq & Hr)]. pose proof (pool_sub_size p q [] (th_inv _ _ Hq) (th_sub _ _ Hq)) as Hs. destruct r as [e|b]; [rewrite Hr; lia|].
  destruct Hr as (old & Hp & _). apply Permutation_length in Hp. rewrite length_app in Hp. unfold zlen in *. cbn [length] in Hp. lia.
Qed.

Lemma addTxsLocked_ok txs local : forall p dirty, PoolInv p [] -> (forall tx, tx ∈ txs -> tx_ok tx) ->
  exists errs dirty' p', addTxsLocked p txs local dirty = run (Ret (errs, dirty', p')) /\ PoolInv p' [] /\ same_chain p p' /\ length errs = length txs /\ locals p ⊆ locals p' /\
    zlen (pool_txs p') <= zlen (pool_txs p) + zlen txs.
Proof.
  induction txs as [|tx txs IH]; intros p dirty Hp Hok; [eexists _, _, _; split_and!; try done; unfold zlen; cbn [length]; lia|]. cbn [addTxsLocked]. destruct (add_ok p tx local Hp) as (r & p1 & -> & Ha); [apply Hok; set_solver|]. cbn [mbind fuelled_bind run].
  set (d := match r with inr false => _ | _ => _ end). destruct (IH p1 d (ad_inv _ _ _ _ Ha)) as (errs & dirty' & p' & -> & H1 & H2 & H3 & H4 & H5); [set_solver|]. cbn [mbind fuelled_bind run]. pose proof (added_size _ _ _ _ Ha).
  eexists _, _, _. split; [done|]. split; [done|]. split; [etrans; [apply Ha|done]|]. split; [cbn; congruence|]. split; [etrans; [apply Ha|done]|]. unfold zlen in *. cbn [length]. lia.
Qed.

(** The number of slots without an error. *)
Definition open_slots (errs : list (option pool_err)) : nat := length (base.filter (fun e => e = None) errs).

Lemma merge_errs_ok errs : forall newErrs, length newErrs = open_slots errs -> exists r, merge_errs errs newErrs = Ret r /\ length r = length errs.
Proof.
  unfold open_slots. induction errs as [|[x|] errs IH]; intros newErrs Hl.
  - destruct newErrs; [|done]. by exists [].
  - rewrite filter_cons_False in Hl by done. destruct newErrs as [|e newErrs]; [by eexists|]. destruct (IH (e :: newErrs) Hl) as (r & E & Hr). cbn [merge_errs]. rewrite E. eexists. split; [done|]. cbn. congruence.
  - rewrite filter_cons_True in Hl by done. destruct newErrs as [|e newErrs]; [done|]. destruct (IH newErrs) as (r & E & Hr); [cbn in Hl; lia|]. cbn [merge_errs]. rewrite E. eexists. split; [done|]. cbn. congruence.
Qed.

Lemma open_known p txs : open_slots (map (known_err p) txs) = length (base.filter (fun tx => known_err p tx = None) txs).
Proof.
  unfold open_slots. induction txs as [|tx txs IH]; [done|]. cbn [map]. rewrite !filter_cons. destruct (known_err p tx); [done|]. destruct (decide _); [|done]. cbn [length]. f_equal. exact IH.
Qed.

(** A batch is taken without a panic, with an answer for each transaction. *)
Lemma addTxs_ok p txs local : PoolInv p [] -> (forall tx, tx ∈ txs -> tx_ok tx) ->
  exists errs d p', addTxs p txs local = run (Ret (errs, d, p')) /\ PoolInv p' [] /\ same_chain p p' /\ length errs = length txs /\ zlen (pool_txs p') <= zlen (pool_txs p) + zlen txs.
Proof.
  intros Hp Hok. unfold addTxs. cbv zeta. destruct (decide _); [eexists _, _, _; split_and!; [done|done|done|apply length_map|pose proof (zlen_nonneg txs); lia]|].
  destruct (addTxsLocked_ok (base.filter (fun tx => known_err p tx = None) txs) local p ∅ Hp) as (errs & dirty & p' & -> & H1 & H2 & H3 & _ & H5); [intros tx [_ ?]%list_elem_of_filter; by apply Hok|]. cbn [mbind fuelled_bind run].
  destruct (merge_errs_ok (map (known_err p) txs) errs) as (r & -> & Hr); [by rewrite open_known|]. cbn [mbind fuelled_bind run]. eexists _, _, _. split_and!; [done|done|done|by rewrite Hr, length_map|].
  pose proof (list.length_filter (fun tx => known_err p tx = None) txs). unfold zlen in *. lia.
Qed.
End Add.
