(* ===== verification/TxPoolReorg.v ===== *)
(** * Promotion and demotion in the pool

    The accounts of the queue give up what is stale or cannot be paid for and hand over
    what is ready; pending transactions that are not executable any more go back. *)

From stdpp Require Import gmap sorting.
From S2P Require Import Prelude VmPrecompiles GoHeap TxList TxListProofs TxSigning TxLookup TxPool TxPoolInv TxPoolAdd.

Section Reorg.
Context {C : Crypto} {MO : MapOrder} {Env : PoolEnv} {BO : BeatOrder}.

(** ** A list gives up transactions *)

(** The pool with other lists and another lookup. *)
Lemma remove_all_lists p l : pending (remove_all p l) = pending p /\ queue (remove_all p l) = queue p /\ beats (remove_all p l) = beats p /\ locals (remove_all p l) = locals p /\
  pendingNonces (remove_all p l) = pendingNonces p /\ framed p (remove_all p l).
Proof. destruct (remove_all_eq p l) as [t ->]. done. Qed.

Lemma queue_sub p L D a l l' r : Inv p L D -> queue p !! a = Some l -> wf_list l' -> strict l' = strict l -> r ++ listed l' ≡ₚ listed l -> Inv (set_queue_list p a l') L D.
Proof.
  intros Hp Ha Hw Hs Hr. pose proof (list_at_Some _ _ _ Ha) as Hla. apply Inv_set_queue; [done|done|rewrite Hs; by eapply side_strict, Ha; apply Hp| | |apply Hp; by eexists].
  - intros tx Ht. eapply (side_list false (queue p)); [apply Hp|done|]. rewrite <- Hr. set_solver.
  - intros x y Hx Hy. apply (inv_disj _ _ _ Hp a); [done|]. rewrite Hla, <- Hr. set_solver.
Qed.

Lemma pending_sub p L D a l l' r : Inv p L D -> pending p !! a = Some l -> wf_list l' -> strict l' = strict l -> r ++ listed l' ≡ₚ listed l -> Inv (set_pending_list p a l') L D.
Proof.
  intros Hp Ha Hw Hs Hr. pose proof (list_at_Some _ _ _ Ha) as Hla. apply Inv_set_pending; [done|done|rewrite Hs; by eapply side_strict, Ha; apply Hp| |].
  - intros tx Ht. eapply (side_list true (pending p)); [apply Hp|done|]. rewrite <- Hr. set_solver.
  - intros x y Hx Hy. apply (inv_disj _ _ _ Hp a); [|done]. rewrite Hla, <- Hr. set_solver.
Qed.

(** ** Promotion *)

(** The pool after an account has handed over some transactions. *)
Definition with_pending (p : TxPool) (m : gmap Z txList) (n : txNoncer) (b : gmap Z Z) (t : nat) : TxPool :=
  mk_TxPool (gasPrice p) (istanbul p) (currentState p) n (currentMaxGas p) (locals p) (journal p) m (queue p) b (all p) (priced p) (events p) t.

Lemma pending_list_ok p L D a : Inv p L D ->
  let l := default (newTxList true) (pending p !! a) in wf_list l /\ strict l = true /\ listed l = list_at (pending p) a /\ forall tx, tx ∈ listed l -> good a tx.
Proof.
  intros Hp l. subst l. destruct (pending p !! a) as [l|] eqn:Ha; cbn.
  - destruct (inv_pending _ _ _ Hp a l Ha) as (H1 & H2 & H3). unfold list_at. by rewrite Ha.
  - split; [apply wf_newTxList|]. split; [done|]. unfold list_at. rewrite Ha. split; [done|]. by intros tx ?%elem_of_nil.
Qed.

Lemma promoteTx_ok p L D a tx h : Inv p L D -> good a tx -> distinct [tx] (list_at (pending p) a) -> distinct [tx] (list_at (queue p) a) ->
  exists m n b t, promoteTx p a h tx = (true, with_pending p m n b t) /\ Inv (with_pending p m n b t) L D /\ queue_more (pending p) m a [tx].
Proof.
  intros Hp Hg Hd1 Hd2. destruct (pending_list_ok p _ _ a Hp) as (Hw & Hs & Hl & Hgl). unfold promoteTx. set (l := default _ _) in *.
  destruct (add_fresh l tx (PriceBump config) Hw) as (l' & -> & Hw' & Hs' & Hp'); [apply Hg|intros x Hx E; apply (Hd1 tx x); [by left|by rewrite <- Hl|done]|].
  cbn [negb]. eexists _, _, _, _. split; [done|]. split.
  - apply (Inv_beat (set_nonces (set_pending_list p a l') (noncer_set (pendingNonces p) a (u64 (AccountNonce tx + 1)))) L D a). apply Inv_set_nonces, Inv_set_pending; [done|done|congruence|intros x; rewrite Hp'; intros [->|Hx]%elem_of_cons; [done|by apply Hgl]|].
    intros x y. rewrite Hp'. intros [->|Hx]%elem_of_cons Hy; [by apply Hd2; [left|]|]. apply (inv_disj _ _ _ Hp a); [by rewrite <- Hl|done].
  - change (queue_more (pending p) (<[a := l']> (pending p)) a [tx]). split; [rewrite list_at_insert, Hp', Hl; done|]. intros c Hc. by rewrite lookup_insert_ne.
Qed.

Lemma promote_readies_ok readies : forall p L D a acc, Inv p L D -> (forall x, x ∈ readies -> good a x) -> NoDup (AccountNonce <$> readies) ->
  distinct readies (list_at (pending p) a) -> distinct readies (list_at (queue p) a) ->
  exists m n b t, fold_left (fun '(promoted, p) tx => let '(ok, p) := promoteTx p a (tx_Hash tx) tx in (if (ok : bool) then promoted ++ [tx] else promoted, p)) readies (acc, p) =
      (acc ++ readies, with_pending p m n b t) /\ Inv (with_pending p m n b t) L D /\ queue_more (pending p) m a readies /\ (readies = [] -> with_pending p m n b t = p).
Proof.
  induction readies as [|x l IH]; intros p L D a acc Hp Hg Hnd Hd1 Hd2.
  { exists (pending p), (pendingNonces p), (beats p), (ticks p). rewrite app_nil_r. destruct p. by split. }
  cbn in Hnd. apply list.NoDup_cons in Hnd as [Hx Hnd]. destruct (promoteTx_ok p L D a x (tx_Hash x) Hp) as (m & n & b & t & E & Hp' & Hm & Hm').
  - apply Hg. set_solver.
  - intros y z Hy Hz. apply Hd1; set_solver.
  - intros y z Hy Hz. apply Hd2; set_solver.
  - cbn [fold_left]. rewrite E. destruct (IH (with_pending p m n b t) L D a (acc ++ [x])) as (m' & n' & b' & t' & E' & Hp'' & [Hn Hn'] & _); [done|set_solver|done| | |].
    + cbn. intros y z Hy. rewrite Hm. intros [->|Hz]%elem_of_cons; [|apply Hd1; set_solver]. intros E2. apply Hx. rewrite <- E2. by apply list_elem_of_fmap_2.
    + intros y z Hy Hz. apply Hd2; set_solver.
    + cbn in Hn, Hn'. exists m', n', b', t'. rewrite E', <- (assoc_L (++)). split; [done|]. split; [done|]. split; [|done]. split; [rewrite Hn, Hm; cbn; by rewrite <- Permutation_middle|].
      intros c Hc. by rewrite Hn', Hm'.
Qed.

(** The limits, as [sanitize] leaves them; that of the queue of an account is also an [int]. *)
Class ConfigOk := {
  cf_queue : 1 <= AccountQueue config < 2 ^ 63;
  cf_slots : 1 <= AccountSlots config < 2 ^ 64;
  cf_gslots : 1 <= GlobalSlots config < 2 ^ 64;
  cf_gqueue : 1 <= GlobalQueue config < 2 ^ 64
}.

(** Transactions are given up: the list and the lookup lose them. *)
Lemma give_back p L D a l l' r X : Inv p L D -> queue p !! a = Some l -> wf_list l' -> strict l' = strict l -> r ++ listed l' ≡ₚ listed l -> L ≡ₚ r ++ X ->
  let p' := remove_all (set_queue_list p a l') r in
  Inv p' X D /\ queue p' = <[a := l']> (queue p) /\ pending p' = pending p /\ beats p' = beats p /\ framed p p' /\ pendingNonces p' = pendingNonces p.
Proof.
  intros Hp Ha Hw Hs Hr HL p'. subst p'. destruct (remove_all_lists (set_queue_list p a l') r) as (E1 & E2 & E3 & E4 & E5 & E6). split; [|split_and!; [done|done|done|by etrans; [|exact E6]|done]].
  apply Inv_remove_all. eapply Inv_perm; [done|]. by eapply queue_sub.
Qed.

Lemma forward_split l t : wf_list l -> listed l = in_order (lows t (litems l)) ++ in_order (highs t (litems l)).
Proof. intros Hl. apply in_order_split. auto. Qed.

(** A permutation of the transactions of the pool through one list of the queue. *)
Lemma pool_queue_split p a l r rest : queue p !! a = Some l -> r ++ rest ≡ₚ listed l -> exists X, pool_txs p ≡ₚ r ++ X.
Proof.
  intros Ha Hr. destruct (pool_set_queue p a l) as (R & HR & _). rewrite (list_at_Some _ _ _ Ha), <- Hr in HR. exists (rest ++ R). by rewrite HR, <- (assoc_L (++)).
Qed.

(** What is left of the queue of an account after its promotion. *)
Record promoted_account (p p' : TxPool) (a : Z) (pr gone : list Transaction) : Prop := {
  pa_inv : PoolInv p' [];
  pa_frame : framed p p';
  pa_loses : loses p p' a gone;
  pa_pending : list_at (pending p') a ≡ₚ pr ++ list_at (pending p) a;
  pa_valid : forall x, x ∈ list_at (queue p') a -> GetNonce (currentState p) a <= AccountNonce x /\ affordable (GetBalance (currentState p) a) (currentMaxGas p) x;
  pa_limit : a ∈ locals p \/ zlen (list_at (queue p') a) <= AccountQueue config
}.

(** The first half: stale and unpayable transactions leave. *)
Lemma promote_clean p a l : PoolInv p [] -> queue p !! a = Some l ->
  exists f l1 d l2 X, list_Forward l (GetNonce (currentState p) a) = run (Ret (f, l1)) /\
    let p1 := remove_all (set_queue_list p a l1) f in
    list_Filter l1 (GetBalance (currentState p1) a) (currentMaxGas p1) = (d, [], l2) /\
    let p2 := remove_all (set_queue_list p1 a l2) d in
    Inv p2 X [] /\ pool_txs p ≡ₚ f ++ d ++ X /\ f ++ d ++ listed l2 ≡ₚ listed l /\ wf_list l2 /\ strict l2 = false /\
    queue p2 = <[a := l2]> (queue p) /\ pending p2 = pending p /\ framed p p2 /\
    (forall x, x ∈ listed l2 -> GetNonce (currentState p) a <= AccountNonce x /\ affordable (GetBalance (currentState p) a) (currentMaxGas p) x).
Proof.
  intros [Hp Hf] Ha. pose proof (side_wf _ _ _ _ (inv_queue _ _ _ Hp) Ha) as Hw. pose proof (side_strict _ _ _ _ (inv_queue _ _ _ Hp) Ha) as Hs. set (N := GetNonce (currentState p) a).
  destruct (list_Forward_ok l N Hw) as (l1 & E1 & Hw1 & Hs1 & Hi1). set (f := in_order (lows N (litems l))) in *.
  assert (f ++ listed l1 ≡ₚ listed l) as P1 by (rewrite (forward_split l N Hw); unfold listed; by rewrite Hi1).
  destruct (pool_queue_split p a l f (listed l1) Ha P1) as [X1 HX1]. destruct (give_back p _ [] a l l1 f X1 Hp Ha Hw1 Hs1 P1 HX1) as (G1 & G2 & G3 & G4 & G5 & G6). set (p1 := remove_all _ f) in *.
  pose proof (list_Filter_ok (GetBalance (currentState p) a) (currentMaxGas p) l1 Hw1) as Hfi. destruct (list_Filter l1 _ _) as [[d inv] l2] eqn:E2. destruct Hfi as [F1 F2 F3 F4 _ F6 _].
  assert (inv = []) as ->. { destruct inv as [|y inv]; [done|]. destruct (F6 y) as (_ & Hc & _); [set_solver|congruence]. }
  cbn in F3. assert (queue p1 !! a = Some l1) as Ha1 by (rewrite G2; apply lookup_insert_eq).
  assert (exists X, X1 ≡ₚ d ++ X) as [X HX].
  { destruct (pool_set_queue p a l1) as (R & HR1 & HR2). rewrite (list_at_Some _ _ _ Ha), <- P1, HX1, <- (assoc_L (++)) in HR1. apply Permutation_app_inv_l in HR1. exists (listed l2 ++ R). by rewrite HR1, <- F3, <- (assoc_L (++)). }
  destruct (give_back p1 X1 [] a l1 l2 d X G1 Ha1 F1 F2 F3 HX) as (K1 & K2 & K3 & K4 & K5 & K6).
  exists f, l1, d, l2, X. split; [done|]. cbv zeta. fold p1. rewrite (fr_state _ _ G5), (fr_gas _ _ G5). split; [done|]. split; [done|]. split; [by rewrite HX1, HX|]. split; [by rewrite <- P1, <- F3|]. split; [done|]. split; [congruence|].
  split; [by rewrite K2, G2, insert_insert_eq|]. split; [by rewrite K3|]. split; [by etrans|]. intros x Hx. split; [|by apply F4].
  assert (x ∈ listed l1) as Hx1 by (rewrite <- F3; set_solver). unfold listed in Hx1. rewrite Hi1 in Hx1. rewrite in_order_highs in Hx1 by auto. by apply list_elem_of_filter in Hx1 as [? _].
Qed.

(** The ready transactions are handed over. *)
Lemma promote_ready p X a l start : Inv p X [] -> queue p !! a = Some l -> wf_list l -> strict l = false ->
  exists r l' m n b t, list_Ready l start = run (Ret (r, l')) /\ promote_readies (set_queue_list p a l') a r = (r, with_pending (set_queue_list p a l') m n b t) /\
    Inv (with_pending (set_queue_list p a l') m n b t) X [] /\ listed l = r ++ listed l' /\ wf_list l' /\ strict l' = false /\ queue_more (pending p) m a r /\ (r = [] -> m = pending p).
Proof.
  intros Hp Ha Hw Hs. destruct (list_Ready_ok l start Hw) as (l' & E & Hw' & Hs' & Hl'). pose proof (ready_of_app start (listed l)) as Happ. set (r := (ready_of start (listed l)).1) in *. rewrite <- Hl' in Happ.
  pose proof (queue_sub p X [] a l l' r Hp Ha Hw' Hs' ltac:(by rewrite <- Happ)) as H1. destruct (split_nonces l l' r Hw ltac:(by rewrite <- Happ)) as [Hnd Hd].
  destruct (promote_readies_ok r (set_queue_list p a l') X [] a [] H1) as (m & n & b & t & E2 & H2 & H3 & H4).
  - intros x Hx. eapply (side_list false (queue p)); [apply Hp|done|]. rewrite Happ. set_solver.
  - done.
  - cbn. intros x y Hx Hy E'. apply (inv_disj _ _ _ Hp a y x Hy); [rewrite (list_at_Some _ _ _ Ha), Happ; set_solver|done].
  - cbn. rewrite list_at_insert. done.
  - exists r, l', m, n, b, t. split; [done|]. split; [done|]. split; [done|]. split; [done|]. split; [done|]. split; [congruence|]. split; [done|]. intros Hr. specialize (H4 Hr). by apply (f_equal pending) in H4.
Qed.

(** The end: what is over the limit leaves, and the list if it is empty. *)
Lemma cap_queue `{ConfigOk} p X a l : Inv p X [] -> queue p !! a = Some l -> wf_list l -> strict l = false -> (exists R, X ≡ₚ listed l ++ R) ->
  exists c l' p' X', (if contains (locals p) a then run (Ret ([], l, p))
     else '(caps, list) ← run (list_Cap l (i64 (AccountQueue config))); run (Ret (caps, list, remove_all (set_queue_list p a list) caps))) = run (Ret (c, l', p')) /\
    Inv p' X' [] /\ X ≡ₚ c ++ X' /\ c ++ listed l' ≡ₚ listed l /\ wf_list l' /\ strict l' = false /\ queue p' = <[a := l']> (queue p) /\ pending p' = pending p /\ framed p p' /\
    (a ∈ locals p \/ zlen (listed l') <= AccountQueue config).
Proof.
  intros Hp Ha Hw Hs [R HR]. unfold contains. case_bool_decide as Hloc.
  { exists [], l, p, X. split; [done|]. split_and!; try done; [by rewrite insert_id|by left]. }
  pose proof cf_queue as Hq. assert (i64 (AccountQueue config) = AccountQueue config) as -> by (unfold i64; rewrite u64_id by (unfold is_u64; lia); rewrite decide_True; lia).
  assert (0 <= AccountQueue config) as H0 by lia. destruct (list_Cap_ok l (AccountQueue config) Hw H0) as (l' & -> & Hw' & Hs' & Hl'). cbn [mbind fuelled_bind run]. set (c := rev _).
  assert (c ++ listed l' ≡ₚ listed l) as Hc. { subst c. rewrite Hl', <- (Permutation_rev (drop _ _)). rewrite (Permutation_app_comm _ (take _ _)). by rewrite take_drop. }
  destruct (give_back p X [] a l l' c (listed l' ++ R) Hp Ha Hw' Hs' Hc) as (G1 & G2 & G3 & G4 & G5 & G6); [by rewrite HR, <- Hc, <- (assoc_L (++))|].
  exists c, l'. eexists _, (listed l' ++ R). split; [done|]. split; [done|]. split; [by rewrite HR, <- Hc, <- (assoc_L (++))|]. split_and!; try done; [congruence|].
  right. rewrite Hl'. unfold zlen. rewrite length_take. lia.
Qed.

(** An empty list of the queue is deleted with the heartbeat. *)
Definition tidy_queue (p : TxPool) (a : Z) (l : txList) : TxPool :=
  if list_Empty l then set_beats (set_queue p (base.delete a (queue p))) (base.delete a (beats p)) else p.

Lemma tidy_queue_ok p X D a l q0 : Inv p X D -> queue p = <[a := l]> q0 -> filled q0 ->
  Inv (tidy_queue p a l) X D /\ filled (queue (tidy_queue p a l)) /\ list_at (queue (tidy_queue p a l)) a = listed l /\ (forall c, c <> a -> queue (tidy_queue p a l) !! c = q0 !! c) /\
  pending (tidy_queue p a l) = pending p /\ framed p (tidy_queue p a l).
Proof.
  intros Hp Hq Hf. unfold tidy_queue. destruct (list_Empty l) eqn:He.
  - apply list_Empty_true in He. split; [by apply Inv_delete_queue|]. cbn. rewrite Hq, He. split; [by apply filled_delete_insert|]. split; [apply list_at_delete|]. split; [|done]. intros c Hc. by rewrite lookup_delete_ne, lookup_insert_ne.
  - split; [done|]. rewrite Hq. split; [apply filled_insert; [done|]; intros E; apply list_Empty_true in E; congruence|]. split; [apply list_at_insert|]. split; [|done]. intros c Hc. by rewrite lookup_insert_ne.
Qed.

Lemma promote_account_ok `{ConfigOk} p a : PoolInv p [] -> exists pr p' gone, promote_account p a = run (Ret (pr, p')) /\ promoted_account p p' a pr gone.
Proof.
  intros HP. pose proof HP as [Hp [Hf1 Hf2]]. unfold promote_account. destruct (queue p !! a) as [l|] eqn:Ha; cycle 1.
  { exists [], p, []. split; [done|]. pose proof cf_queue as Hcf. split; [done|done|done|done|rewrite (list_at_None _ _ Ha); by intros x ?%elem_of_nil|right; rewrite (list_at_None _ _ Ha); unfold zlen; cbn [length]; lia]. }
  destruct (promote_clean p a l HP Ha) as (f & l1 & d & l2 & X & -> & E2 & H2 & HX & Hl2 & Hw2 & Hs2 & Hq2 & Hp2 & Hfr & Hv). cbn [mbind fuelled_bind run]. rewrite E2. set (p2 := remove_all _ d) in *.
  destruct (noncer_get (pendingNonces p2) a) as [nonce n].
  destruct (promote_ready (set_nonces p2 n) X a l2 nonce (Inv_set_nonces _ _ _ n H2)) as (r & l3 & m & n' & b & t & E3 & E4 & H3 & Hl3 & Hw3 & Hs3 & Hm & Hm0); [cbn; rewrite Hq2; apply lookup_insert_eq|done|done|].
  rewrite E3. cbn [mbind fuelled_bind run]. rewrite E4. set (p3 := with_pending _ m n' b t) in *.
  destruct (pool_set_queue p a l2) as (R & HR & _). rewrite (list_at_Some _ _ _ Ha), <- Hl2, HX, <- !(assoc_L (++)) in HR. apply Permutation_app_inv_l, Permutation_app_inv_l in HR.
  destruct (cap_queue p3 X a l3) as (c & l4 & p4 & X4 & E5 & H4 & HX4 & Hl4 & Hw4 & Hs4 & Hq4 & Hp4 & Hfr4 & Hlim); [done|cbn; apply lookup_insert_eq|done|done|exists (r ++ R); rewrite HR, Hl3; solve_Permutation|].
  cbn [mbind fuelled_bind run] in E5. rewrite E5. cbn [mbind fuelled_bind run]. set (p5 := Removed p4 _). assert (Inv p5 X4 []) as H5 by (by apply Inv_Removed).
  assert (queue p5 = <[a := l4]> (queue p)) as Hq5 by (subst p5; cbn; rewrite Hq4; cbn; by rewrite Hq2, !insert_insert_eq). assert (pending p5 = m) as Hp5 by (subst p5; cbn; by rewrite Hp4).
  destruct (tidy_queue_ok p5 X4 [] a l4 (queue p) H5 Hq5 Hf2) as (T1 & T2 & T3 & T4 & T5 & T6). change (if list_Empty l4 then _ else p5) with (tidy_queue p5 a l4). set (p6 := tidy_queue p5 a l4) in *. cbn in Hm. rewrite Hp2 in Hm.
  assert (framed p p6) as Hfr6. { etrans; [exact Hfr|]. assert (framed p2 p3) as A1 by done. assert (framed p4 p5) as A2 by done. by rewrite A1, Hfr4, A2. }
  assert (loses p p6 a (f ++ d ++ c)) as Hlose.
  { destruct Hm as [Hm1 Hm2]. split; rewrite ?T5, ?Hp5; [|done|done]. rewrite T3, Hm1, (list_at_Some _ _ _ Ha), <- Hl2, Hl3, <- Hl4. solve_Permutation. }
  exists r, p6, (f ++ d ++ c). split; [done|]. split.
  - split.
    + eapply Inv_perm; [|exact T1]. pose proof (loses_txs _ _ _ _ Hlose) as Hlt. rewrite HX, HX4 in Hlt. rewrite <- !(assoc_L (++)) in Hlt. by do 3 apply Permutation_app_inv_l in Hlt.
    + split; [|done]. rewrite T5, Hp5. eapply filled_more; [exact Hf1|done|]. intros Hr. specialize (Hm0 Hr). cbn in Hm0. by rewrite Hm0, Hp2.
  - done.
  - done.
  - rewrite T5, Hp5. apply Hm.
  - rewrite T3. intros x Hx. apply Hv. rewrite Hl3. apply elem_of_app. right. rewrite <- Hl4. set_solver.
  - rewrite T3. destruct Hlim as [Hlim|]; [left|by right]. cbn in Hlim. by rewrite (fr_locals _ _ Hfr) in Hlim.
Qed.

(** The queue of an account has what the current state allows, within the limit. *)
Definition queue_valid (s p : TxPool) (a : Z) : Prop :=
  (forall x, x ∈ list_at (queue p) a -> GetNonce (currentState s) a <= AccountNonce x /\ affordable (GetBalance (currentState s) a) (currentMaxGas s) x) /\
  (a ∈ locals s \/ zlen (list_at (queue p) a) <= AccountQueue config).

Lemma queue_valid_same s s' p p' a : framed s s' -> list_at (queue p') a = list_at (queue p) a -> queue_valid s p a -> queue_valid s' p' a.
Proof. intros [A1 A2 A3 A4 A5 A6 A7] E. unfold queue_valid. by rewrite A3, A4, A5, E. Qed.

Lemma framed_sym p p' : framed p p' -> framed p' p.
Proof. intros []. by split. Qed.

Lemma promoteExecutables_ok `{ConfigOk} accounts : forall p, PoolInv p [] ->
  exists pr p', promoteExecutables p accounts = run (Ret (pr, p')) /\ PoolInv p' [] /\ framed p p' /\ (forall tx, tx ∈ pool_txs p' -> tx ∈ pool_txs p) /\
    (forall a, a ∈ accounts -> queue_valid p p' a) /\ (forall a, a ∉ accounts -> queue p' !! a = queue p !! a).
Proof.
  induction accounts as [|a accounts IH]; intros p Hp; [exists [], p; split_and!; try done; by intros a ?%elem_of_nil|]. cbn [promoteExecutables].
  destruct (promote_account_ok p a Hp) as (pr & p1 & gone & -> & [H1 H2 H3 H4 H5 H6]). cbn [mbind fuelled_bind run]. destruct (IH p1 H1) as (pr' & p' & -> & K1 & K2 & K3 & K4 & K5). cbn [mbind fuelled_bind run].
  eexists _, p'. split; [done|]. split; [done|]. split; [by etrans|]. split; [intros tx Ht%K3; rewrite (loses_txs _ _ _ _ H3); set_solver|]. split.
  - intros c Hc. destruct (decide (c ∈ accounts)) as [Hin|Hin]; [eapply queue_valid_same; [by apply framed_sym|done|by apply K4]|]. apply elem_of_cons in Hc as [->|]; [|done].
    unfold queue_valid, list_at in *. by rewrite K5.
  - intros c Hc. apply not_elem_of_cons in Hc as [Hca Hc]. rewrite K5 by done. by apply (ls_queue _ _ _ _ H3).
Qed.

(** ** Demotion *)

(** The pending list of an account becomes [l']; of what leaves it [r] leaves the pool too. *)
Lemma shed_pending p L D a l l' r r' X : Inv p L D -> pending p !! a = Some l -> wf_list l' -> strict l' = strict l -> r ++ r' ++ listed l' ≡ₚ listed l -> L ≡ₚ r ++ X ->
  let p' := remove_all (set_pending_list p a l') r in
  Inv p' X D /\ pending p' = <[a := l']> (pending p) /\ queue p' = queue p /\ framed p p'.
Proof.
  intros Hp Ha Hw Hs Hr HL p'. subst p'. destruct (remove_all_lists (set_pending_list p a l') r) as (E1 & E2 & E3 & E4 & E5 & E6). split; [|split_and!; [done|done|by etrans; [|exact E6]]].
  apply Inv_remove_all. eapply Inv_perm; [done|]. eapply (pending_sub p L D a l l' (r ++ r')); try done. by rewrite <- (assoc_L (++)).
Qed.

(** Transactions that left the pending list of an account go back to the queue. *)
Lemma requeue_out p L D a l l' r : Inv p L D -> pending p !! a = Some l' -> wf_list l -> r ++ listed l' ≡ₚ listed l -> (forall x, x ∈ listed l -> good a x) -> distinct (listed l) (list_at (queue p) a) ->
  exists q b t, requeue p r = with_queue p q b t /\ Inv (with_queue p q b t) L D /\ queue_more (queue p) q a r /\ (r = [] -> q = queue p).
Proof.
  intros Hp Ha Hw Hr Hg Hd. destruct (split_nonces l l' r Hw Hr) as [H1 H2]. destruct (requeue_ok r p L D a Hp) as (q & b & t & E & H3 & H4).
  - intros x Hx. apply Hg. rewrite <- Hr. set_solver.
  - done.
  - by rewrite (list_at_Some _ _ _ Ha).
  - intros x y Hx Hy. apply Hd; [rewrite <- Hr; set_solver|done].
  - exists q, b, t. split; [done|]. split; [done|]. split; [done|]. intros ->. cbn in E. by apply (f_equal queue) in E.
Qed.

Lemma pool_pending_split p a l r rest : pending p !! a = Some l -> r ++ rest ≡ₚ listed l -> exists X, pool_txs p ≡ₚ r ++ X.
Proof.
  intros Ha Hr. destruct (pool_set_pending p a l) as (R & HR & _). rewrite (list_at_Some _ _ _ Ha), <- Hr in HR. exists (rest ++ R). by rewrite HR, <- (assoc_L (++)).
Qed.

(** An empty pending list is deleted. *)
Definition tidy_pending (p : TxPool) (a : Z) (l : txList) : TxPool := if list_Empty l then set_pending p (base.delete a (pending p)) else p.

Lemma tidy_pending_ok p X D a l m0 : Inv p X D -> pending p = <[a := l]> m0 -> filled m0 ->
  Inv (tidy_pending p a l) X D /\ filled (pending (tidy_pending p a l)) /\ list_at (pending (tidy_pending p a l)) a = listed l /\ (forall c, c <> a -> pending (tidy_pending p a l) !! c = m0 !! c) /\
  queue (tidy_pending p a l) = queue p /\ framed p (tidy_pending p a l).
Proof.
  intros Hp Hq Hf. unfold tidy_pending. destruct (list_Empty l) eqn:He.
  - apply list_Empty_true in He. split; [by apply Inv_delete_pending|]. cbn. rewrite Hq, He. split; [by apply filled_delete_insert|]. split; [apply list_at_delete|]. split; [|done]. intros c Hc. by rewrite lookup_delete_ne, lookup_insert_ne.
  - split; [done|]. rewrite Hq. split; [apply filled_insert; [done|]; intros E; apply list_Empty_true in E; congruence|]. split; [apply list_at_insert|]. split; [|done]. intros c Hc. by rewrite lookup_insert_ne.
Qed.

(** What is pending is executable now: it can be paid for, and the next nonce of the state is there. *)
Definition pending_valid (s p : TxPool) (a : Z) : Prop :=
  (forall x, x ∈ list_at (pending p) a -> GetNonce (currentState s) a <= AccountNonce x /\ affordable (GetBalance (currentState s) a) (currentMaxGas s) x) /\
  (list_at (pending p) a = [] \/ exists x, x ∈ list_at (pending p) a /\ AccountNonce x = GetNonce (currentState s) a).

Record demoted_account (p p' : TxPool) (a : Z) (gone : list Transaction) : Prop := {
  da_inv : PoolInv p' [];
  da_frame : framed p p';
  da_loses : loses p p' a gone;
  da_valid : pending_valid p p' a;
  da_sub : forall x, x ∈ list_at (pending p') a -> x ∈ list_at (pending p) a
}.

Lemma demote_clean p a l : PoolInv p [] -> pending p !! a = Some l ->
  exists f l1 d inv l2 X, list_Forward l (GetNonce (currentState p) a) = run (Ret (f, l1)) /\
    let p1 := remove_all (set_pending_list p a l1) f in
    list_Filter l1 (GetBalance (currentState p1) a) (currentMaxGas p1) = (d, inv, l2) /\
    let p2 := remove_all (set_pending_list p1 a l2) d in
    Inv p2 X [] /\ pool_txs p ≡ₚ f ++ d ++ X /\ f ++ d ++ inv ++ listed l2 ≡ₚ listed l /\ wf_list l2 /\ strict l2 = true /\
    pending p2 = <[a := l2]> (pending p) /\ queue p2 = queue p /\ framed p p2 /\
    (forall x, x ∈ listed l2 -> GetNonce (currentState p) a <= AccountNonce x /\ affordable (GetBalance (currentState p) a) (currentMaxGas p) x).
Proof.
  intros [Hp Hf] Ha. pose proof (side_wf _ _ _ _ (inv_pending _ _ _ Hp) Ha) as Hw. pose proof (side_strict _ _ _ _ (inv_pending _ _ _ Hp) Ha) as Hs. set (N := GetNonce (currentState p) a).
  destruct (list_Forward_ok l N Hw) as (l1 & E1 & Hw1 & Hs1 & Hi1). set (f := in_order (lows N (litems l))) in *.
  assert (f ++ listed l1 ≡ₚ listed l) as P1 by (rewrite (forward_split l N Hw); unfold listed; by rewrite Hi1).
  destruct (pool_pending_split p a l f (listed l1) Ha P1) as [X1 HX1]. destruct (shed_pending p _ [] a l l1 f [] X1 Hp Ha Hw1 Hs1 P1 HX1) as (G1 & G2 & G3 & G4). set (p1 := remove_all _ f) in *.
  pose proof (list_Filter_ok (GetBalance (currentState p) a) (currentMaxGas p) l1 Hw1) as Hfi. destruct (list_Filter l1 _ _) as [[d inv] l2] eqn:E2. destruct Hfi as [F1 F2 F3 F4 _ _ _].
  assert (pending p1 !! a = Some l1) as Ha1 by (rewrite G2; apply lookup_insert_eq).
  assert (exists X, X1 ≡ₚ d ++ X) as [X HX].
  { destruct (pool_set_pending p a l1) as (R & HR1 & HR2). rewrite (list_at_Some _ _ _ Ha), <- P1, HX1, <- (assoc_L (++)) in HR1. apply Permutation_app_inv_l in HR1. exists (inv ++ listed l2 ++ R). by rewrite HR1, <- F3, <- !(assoc_L (++)). }
  destruct (shed_pending p1 X1 [] a l1 l2 d inv X G1 Ha1 F1 F2 F3 HX) as (K1 & K2 & K3 & K4).
  exists f, l1, d, inv, l2, X. split; [done|]. cbv zeta. fold p1. rewrite (fr_state _ _ G4), (fr_gas _ _ G4). split; [done|]. split; [done|]. split; [by rewrite HX1, HX|]. split; [by rewrite <- P1, <- F3|]. split; [done|]. split; [congruence|].
  split; [by rewrite K2, G2, insert_insert_eq|]. split; [by rewrite K3|]. split; [by etrans|]. intros x Hx. split; [|by apply F4].
  assert (x ∈ listed l1) as Hx1 by (rewrite <- F3; set_solver). unfold listed in Hx1. rewrite Hi1 in Hx1. rewrite in_order_highs in Hx1 by auto. by apply list_elem_of_filter in Hx1 as [? _].
Qed.

(** The gap in front: all that is left goes back to the queue. *)
Lemma demote_gap p X a l nonce m0 : Inv p X [] -> pending p = <[a := l]> m0 -> wf_list l -> (forall x, x ∈ listed l -> good a x) ->
  distinct (listed l) (list_at (queue p) a) ->
  exists l' q b t, (if decide (list_Len l > 0 /\ sorted_Get (txs l) nonce = None) then '(gapped, l) ← run (list_Cap l 0); run (Ret (l, requeue (set_pending_list p a l) gapped)) else run (Ret (l, p))) =
      run (Ret (l', with_queue (set_pending_list p a l') q b t)) /\
    Inv (with_queue (set_pending_list p a l') q b t) X [] /\ list_at q a ++ listed l' ≡ₚ list_at (queue p) a ++ listed l /\ (forall c, c <> a -> q !! c = queue p !! c) /\ (filled (queue p) -> filled q) /\
    (forall x, x ∈ listed l' -> x ∈ listed l) /\ (listed l' = [] \/ exists x, x ∈ listed l' /\ AccountNonce x = nonce).
Proof.
  intros Hp Hm Hw Hg Hd. destruct (decide _) as [[Hlen Hget]|Hno].
  - destruct (list_Cap_ok l 0 Hw ltac:(lia)) as (l' & -> & Hw' & Hs' & Hl'). cbn in Hl'. cbn [mbind fuelled_bind run]. set (r := rev _). assert (r ++ listed l' ≡ₚ listed l) as Hr by (subst r; rewrite Hl', app_nil_r; symmetry; apply Permutation_rev).
    assert (pending p !! a = Some l) as Ha by (rewrite Hm; apply lookup_insert_eq). pose proof (pending_sub p X [] a l l' r Hp Ha Hw' Hs' Hr) as H1.
    destruct (requeue_out (set_pending_list p a l') X [] a l l' r H1) as (q & b & t & E & H2 & [H3 H4] & H5); [cbn; apply lookup_insert_eq|done|done|done|done|].
    exists l', q, b, t. rewrite E. split; [done|]. split; [done|]. cbn in H3, H4. split; [rewrite H3, Hl', app_nil_r, <- Hr, Hl', app_nil_r; apply Permutation_app_comm|]. split; [done|].
    split; [intros Hf; eapply (filled_more (queue p)); [done|by split|intros Hr0; by rewrite (H5 Hr0)]|]. rewrite Hl'. split; [by intros x ?%elem_of_nil|by left].
  - exists l, (queue p), (beats p), (ticks p). assert (set_pending_list p a l = p) as E by (unfold set_pending_list; rewrite Hm, insert_insert_eq, <- Hm; by destruct p).
    rewrite E. assert (with_queue p (queue p) (beats p) (ticks p) = p) as -> by (by destruct p). split; [done|]. split; [done|]. split; [done|]. split; [done|]. split; [done|]. split; [done|].
    destruct (sorted_Get (txs l) nonce) as [x|] eqn:Hx; [right; exists x; pose proof (keyed_nonce _ _ _ (wl_keyed l Hw) Hx) as En; split; [apply elem_of_listed; [done|]; rewrite En; exact Hx|done]|].
    left. apply list_Empty_true. unfold list_Empty. apply bool_decide_eq_true. rewrite list_Len_eq in *. pose proof (zlen_nonneg (listed l)). destruct (decide (zlen (listed l) = 0)); [done|]. exfalso. apply Hno. split; [lia|done].
Qed.

Lemma demote_account_ok p a : PoolInv p [] -> exists p' gone, demote_account p a = run (Ret p') /\ demoted_account p p' a gone.
Proof.
  intros HP. pose proof HP as [Hp [Hf1 Hf2]]. unfold demote_account. destruct (pending p !! a) as [l|] eqn:Ha; cycle 1.
  { exists p, []. split; [done|]. split; [done|done|done| |done]. split; rewrite (list_at_None _ _ Ha); [by intros x ?%elem_of_nil|by left]. }
  pose proof (side_wf _ _ _ _ (inv_pending _ _ _ Hp) Ha) as Hw. pose proof (side_list _ _ _ _ (inv_pending _ _ _ Hp) Ha) as Hg. pose proof (list_at_Some _ _ _ Ha) as Hla.
  destruct (demote_clean p a l HP Ha) as (f & l1 & d & inv & l2 & X & -> & E2 & H2 & HX & Hl2 & Hw2 & Hs2 & Hp2 & Hq2 & Hfr & Hv). cbn [mbind fuelled_bind run]. rewrite E2. set (p2 := remove_all _ d) in *. set (p3 := Removed p2 _).
  assert (Inv p3 X []) as H3 by (by apply Inv_Removed). assert (distinct (listed l) (list_at (queue p) a)) as Hd by (rewrite <- Hla; apply Hp).
  assert (forall x, x ∈ inv ++ listed l2 -> x ∈ listed l) as Hsub by (intros x Hx; rewrite <- Hl2; set_solver).
  assert (exists q b t, requeue p3 inv = with_queue p3 q b t /\ Inv (with_queue p3 q b t) X [] /\ queue_more (queue p) q a inv /\ (inv = [] -> q = queue p)) as (q & b & t & E3 & H4 & Hm & Hm0).
  { destruct (split_nonces l l2 (f ++ d ++ inv) Hw) as [Hnd Hdd]; [by rewrite <- Hl2, <- !(assoc_L (++))|]. rewrite !fmap_app in Hnd. do 2 (apply list.NoDup_app in Hnd as (_ & _ & Hnd)).
    destruct (requeue_ok inv p3 X [] a H3) as (q & b & t & E3 & H4 & H5); [intros x Hx; apply Hg, Hsub; set_solver|done|cbn; rewrite Hp2, list_at_insert; intros x y Hx; apply Hdd; set_solver|cbn; rewrite Hq2; intros x y Hx; apply Hd, Hsub; set_solver|].
    cbn in H5. rewrite Hq2 in H5. exists q, b, t. split; [done|]. split; [done|]. split; [done|]. intros ->. cbn in E3. apply (f_equal queue) in E3. cbn in E3. by rewrite <- E3, Hq2. }
  rewrite E3. destruct Hm as [Hm1 Hm2]. assert (distinct (listed l2) (list_at q a)) as Hd2.
  { pose proof (inv_disj _ _ _ H4 a) as H5. cbn in H5. by rewrite Hp2, list_at_insert in H5. }
  destruct (demote_gap (with_queue p3 q b t) X a l2 (GetNonce (currentState p) a) (pending p) H4 Hp2 Hw2) as (l3 & q' & b' & t' & E5 & H5 & Hq5 & Hq5' & Hf5 & Hs5 & Hg5); [intros x Hx; apply Hg, Hsub; set_solver|exact Hd2|].
  cbn [mbind fuelled_bind run] in E5. rewrite E5. cbn [mbind fuelled_bind run]. set (p5 := with_queue (set_pending_list _ a l3) q' b' t') in *.
  destruct (tidy_pending_ok p5 X [] a l3 (pending p)) as (T1 & T2 & T3 & T4 & T5 & T6); [done|cbn; by rewrite Hp2, insert_insert_eq|done|]. change (if list_Empty l3 then _ else p5) with (tidy_pending p5 a l3). set (p6 := tidy_pending p5 a l3) in *.
  assert (framed p p6) as Hfr6. { etrans; [exact Hfr|]. assert (framed p2 p5) as A1 by done. by rewrite A1. }
  assert (loses p p6 a (f ++ d)) as Hlose.
  { split; [|done|intros c Hc; rewrite T5; cbn; rewrite Hq5' by done; by apply Hm2]. rewrite T3, T5, Hla. cbn. cbn in Hq5. rewrite (Permutation_app_comm (listed l3)), Hq5, Hm1, <- Hl2. solve_Permutation. }
  exists p6, (f ++ d). split; [done|]. split; [split|done|done|split|].
  - eapply Inv_perm; [|exact T1]. pose proof (loses_txs _ _ _ _ Hlose) as Hlt. rewrite HX in Hlt. rewrite <- !(assoc_L (++)) in Hlt. by do 2 apply Permutation_app_inv_l in Hlt.
  - split; [done|]. rewrite T5. apply Hf5. cbn. eapply (filled_more (queue p)); [done|by split|intros Hi; by rewrite (Hm0 Hi)].
  - rewrite T3. intros x Hx. by apply Hv, Hs5.
  - by rewrite T3.
  - rewrite T3, Hla. intros x Hx. apply Hsub. apply Hs5 in Hx. set_solver.
Qed.

Lemma pending_valid_same s s' p p' a : framed s s' -> list_at (pending p') a = list_at (pending p) a -> pending_valid s p a -> pending_valid s' p' a.
Proof. intros [A1 A2 A3 A4 A5 A6 A7] E. unfold pending_valid. by rewrite A3, A4, E. Qed.

Lemma demote_accounts_ok accounts : forall p, PoolInv p [] ->
  exists p', demote_accounts p accounts = run (Ret p') /\ PoolInv p' [] /\ framed p p' /\ (forall tx, tx ∈ pool_txs p' -> tx ∈ pool_txs p) /\
    (forall a, a ∈ accounts -> pending_valid p p' a) /\ (forall a, a ∉ accounts -> pending p' !! a = pending p !! a).
Proof.
  induction accounts as [|a accounts IH]; intros p Hp; [exists p; split_and!; try done; by intros a ?%elem_of_nil|]. cbn [demote_accounts].
  destruct (demote_account_ok p a Hp) as (p1 & gone & -> & [H1 H2 H3 H4 H5]). cbn [mbind fuelled_bind run]. destruct (IH p1 H1) as (p' & -> & K1 & K2 & K3 & K4 & K5).
  exists p'. split; [done|]. split; [done|]. split; [by etrans|]. split; [intros tx Ht%K3; rewrite (loses_txs _ _ _ _ H3); set_solver|]. split.
  - intros c Hc. destruct (decide (c ∈ accounts)) as [Hin|Hin]; [eapply pending_valid_same; [by apply framed_sym|done|by apply K4]|]. apply elem_of_cons in Hc as [->|]; [|done].
    unfold pending_valid, list_at in *. by rewrite K5.
  - intros c Hc. apply not_elem_of_cons in Hc as [Hca Hc]. rewrite K5 by done. by apply (ls_pending _ _ _ _ H3).
Qed.

Lemma range_keys {A} (m : gmap Z A) a : a ∈ (map_range m).*1 <-> is_Some (m !! a).
Proof.
  rewrite map_range_perm, list_elem_of_fmap. split; [intros ([k x] & -> & Hx%elem_of_map_to_list); by exists x|]. intros [x Hx]. exists (a, x). by rewrite elem_of_map_to_list.
Qed.

(** After [demoteUnexecutables] every pending transaction can be paid for and is not in the past,
    and every account with pending transactions has the one that is next. *)
Lemma demoteUnexecutables_ok p : PoolInv p [] ->
  exists p', demoteUnexecutables p = run (Ret p') /\ PoolInv p' [] /\ framed p p' /\ (forall tx, tx ∈ pool_txs p' -> tx ∈ pool_txs p) /\ (forall a, pending_valid p p' a).
Proof.
  intros Hp. destruct (demote_accounts_ok (map_range (pending p)).*1 p Hp) as (p' & E & H1 & H2 & H3 & H4 & H5). exists p'. split; [done|]. split; [done|]. split; [done|]. split; [done|].
  intros a. destruct (pending p !! a) as [l|] eqn:Ha; [apply H4, range_keys; by eexists|]. assert (pending p' !! a = None) as Ha' by (rewrite H5, Ha; [done|]; rewrite range_keys, Ha; by intros []).
  split; rewrite (list_at_None _ _ Ha'); [by intros x ?%elem_of_nil|by left].
Qed.

(** ** Nonces *)

Lemma Inv_same_listed p L D a l l' : Inv p L D -> pending p !! a = Some l -> wf_list l' -> strict l' = strict l -> litems l' = litems l -> Inv (set_pending_list p a l') L D.
Proof. intros Hp Ha Hw Hs Hi. apply (pending_sub p L D a l l' []); [done|done|done|done|]. unfold listed. by rewrite Hi. Qed.

Definition nonce_of (p : TxPool) (a : Z) : Z := (noncer_get (pendingNonces p) a).1.

Lemma noncer_set_get n a v b : (noncer_get (noncer_set n a v) b).1 = if decide (b = a) then v else (noncer_get n b).1.
Proof.
  unfold noncer_get, noncer_load, noncer_set. cbn. destruct (decide (b = a)) as [->|Hne]; [by rewrite lookup_insert_eq; cbn; rewrite lookup_insert_eq|]. rewrite lookup_insert_ne by done.
  destruct (nonces n !! b) as [x|] eqn:Hb; cbn; [by rewrite lookup_insert_ne, Hb|]. by rewrite !lookup_insert_eq.
Qed.

(** The lists are the same up to their caches. *)
Definition same_lists (m m' : gmap Z txList) : Prop := forall a, (litems <$> m' !! a) = (litems <$> m !! a).

Lemma same_list_at m m' a : same_lists m m' -> list_at m' a = list_at m a.
Proof. intros H. specialize (H a). unfold list_at, listed. by destruct (m !! a), (m' !! a); cbn in H; simplify_eq/=; rewrite ?H. Qed.

Lemma PoolInv_same_listed p D a l l' : PoolInv p D -> pending p !! a = Some l -> wf_list l' -> strict l' = strict l -> litems l' = litems l -> PoolInv (set_pending_list p a l') D /\ pool_txs (set_pending_list p a l') ≡ₚ pool_txs p.
Proof.
  intros [Hp [Hf1 Hf2]] Ha Hw Hs Hi. destruct (pool_set_pending p a l') as (R & HR1 & HR2). assert (listed l' = listed l) as El by (unfold listed; by rewrite Hi).
  assert (pool_txs (set_pending_list p a l') ≡ₚ pool_txs p) as E by (rewrite HR2, HR1, El, (list_at_Some _ _ _ Ha); done). split; [|done]. split; [|split; [|done]].
  - eapply Inv_perm; [symmetry; exact E|]. by eapply Inv_same_listed.
  - cbn. apply filled_insert; [done|]. rewrite El. by apply (Hf1 a).
Qed.

(** The account's next nonce is one more than that of its last pending transaction. *)
Definition nonce_synced (p : TxPool) (a : Z) : Prop := exists r x, list_at (pending p) a = r ++ [x] /\ nonce_of p a = u64 (AccountNonce x + 1).

Lemma update_nonces_ok addrs : forall p D, PoolInv p D -> (forall a, a ∈ addrs -> is_Some (pending p !! a)) ->
  exists p', update_nonces p addrs = Ret p' /\ PoolInv p' D /\ framed p p' /\ pool_txs p' ≡ₚ pool_txs p /\ queue p' = queue p /\ same_lists (pending p) (pending p') /\
    (forall a, a ∈ addrs -> nonce_synced p' a) /\ (forall a, a ∉ addrs -> nonce_of p' a = nonce_of p a).
Proof.
  induction addrs as [|a addrs IH]; intros p D Hp Hin; [exists p; split_and!; try done; by intros a ?%elem_of_nil|]. cbn [update_nonces]. destruct (Hin a) as [l Ha]; [set_solver|]. unfold pending_list. rewrite Ha. cbn [mbind outcome_bind].
  pose proof (side_wf _ _ _ _ (inv_pending _ _ _ (proj1 Hp)) Ha) as Hw. assert (listed l <> []) as Hne by (by apply (proj1 (proj2 Hp) a)). destruct (exists_last Hne) as (r & x & Hr).
  destruct (list_LastElement_ok l r x Hw Hr) as (l' & -> & Hw' & Hs' & Hi). cbn [mbind outcome_bind]. destruct (PoolInv_same_listed p D a l l' Hp Ha Hw' Hs' Hi) as [H1 H2].
  set (p1 := set_nonces _ _). assert (PoolInv p1 D) as H3 by (destruct H1 as [[] ?]; done). destruct (IH p1 D H3) as (p' & E & K1 & K2 & K3 & K4 & K5 & K6 & K7).
  { intros c Hc. cbn. destruct (decide (c = a)) as [->|Hne']; [rewrite lookup_insert_eq; by eexists|rewrite lookup_insert_ne by done; apply Hin; set_solver]. }
  exists p'. split; [done|]. split; [done|]. split; [by etrans; [|exact K2]|]. split; [by rewrite K3|]. split; [by rewrite K4|].
  assert (same_lists (pending p) (pending p1)) as Hs1. { intros c. cbn. destruct (decide (c = a)) as [->|]; [rewrite lookup_insert_eq, Ha; cbn; by rewrite Hi|by rewrite lookup_insert_ne]. }
  split; [intros c; by rewrite K5|]. assert (forall c, nonce_of p1 c = if decide (c = a) then u64 (AccountNonce x + 1) else nonce_of p c) as Hn by (intros c; apply noncer_set_get). split.
  - intros c Hc. destruct (decide (c ∈ addrs)) as [|Hout]; [by apply K6|]. apply elem_of_cons in Hc as [->|]; [|done]. exists r, x. split; [rewrite (same_list_at (pending p1)) by done; cbn; rewrite list_at_insert; unfold listed in *; by rewrite Hi|].
    rewrite K7, Hn by done. by rewrite decide_True.
  - intros c Hc. apply not_elem_of_cons in Hc as [Hca Hc]. rewrite K7, Hn by done. by rewrite decide_False.
Qed.
End Reorg.
