(* ===== verification/TxPoolLimits.v ===== *)
(** * The limits of the pool

    [truncateQueue] leaves no more queued transactions than the limit, unless only local
    accounts are left; [truncatePending] does the same for the pending ones, down to the
    number that each account is guaranteed: it takes transactions from the accounts that
    have the most of them, in rounds that keep these accounts level. *)

From stdpp Require Import gmap sorting.
From S2P Require Import Prelude VmPrecompiles GoHeap TxList TxListProofs TxSigning TxLookup TxPool TxPoolInv TxPoolAdd TxPoolReorg.

Section Limits.
Context {C : Crypto} {MO : MapOrder} {Env : PoolEnv} {BO : BeatOrder} {CF : ConfigOk}.

(** ** Counting *)

Definition total (m : gmap Z txList) : Z := zlen (lists_txs m).

Fixpoint sum_lens (l : list (Z * txList)) : Z := match l with [] => 0 | kv :: l => list_Len kv.2 + sum_lens l end.

#[global] Instance sum_lens_perm : Proper ((≡ₚ) ==> (=)) sum_lens.
Proof. induction 1; cbn [sum_lens]; lia. Qed.

Lemma sum_lens_total m : sum_lens (map_to_list m) = total m.
Proof.
  unfold total, lists_txs. induction (map_to_list m) as [|[a l] r IH]; [done|]. cbn [sum_lens]. rewrite IH, !fmap_cons. cbn [concat snd]. rewrite zlen_app, list_Len_eq. done.
Qed.

Lemma count_fold (l : list (Z * txList)) : forall n, is_u64 n -> fold_left (fun n kv => u64 (n + u64 (list_Len kv.2))) l n = u64 (n + sum_lens l).
Proof.
  induction l as [|kv l IH]; intros n Hn; cbn [fold_left sum_lens]; [by rewrite Z.add_0_r, u64_id|]. rewrite IH by apply u64_range. unfold u64. rewrite Zplus_mod_idemp_r, Zplus_mod_idemp_l. f_equal. lia.
Qed.

Lemma count_lists_eq m : total m < 2 ^ 64 -> count_lists m = total m.
Proof.
  intros Hm. unfold count_lists. rewrite count_fold by (unfold is_u64; lia). rewrite map_range_perm, sum_lens_total. apply u64_id. unfold total in *. pose proof (zlen_nonneg (lists_txs m)). unfold is_u64. lia.
Qed.

Lemma total_delete m a : total m = zlen (list_at m a) + total (base.delete a m).
Proof. unfold total, zlen. rewrite (Permutation_length (lists_txs_delete m a)), length_app. lia. Qed.

(** A change of one list. *)
Lemma total_change m m' a : (forall c, c <> a -> m' !! c = m !! c) -> total m' = total m - zlen (list_at m a) + zlen (list_at m' a).
Proof. intros H. rewrite (total_delete m a), (total_delete m' a), (delete_same m m' a H). lia. Qed.

(** ** The queue *)

Lemma queue_same_listed p D a l l' : PoolInv p D -> queue p !! a = Some l -> wf_list l' -> strict l' = strict l -> litems l' = litems l -> PoolInv (set_queue_list p a l') D /\ pool_txs (set_queue_list p a l') ≡ₚ pool_txs p.
Proof.
  intros [Hp [Hf1 Hf2]] Ha Hw Hs Hi. destruct (pool_set_queue p a l') as (R & HR1 & HR2). assert (listed l' = listed l) as El by (unfold listed; by rewrite Hi).
  assert (pool_txs (set_queue_list p a l') ≡ₚ pool_txs p) as E by (rewrite HR2, HR1, El, (list_at_Some _ _ _ Ha); done). split; [|done]. split; [|split; [done|]].
  - eapply Inv_perm; [symmetry; exact E|]. eapply (queue_sub p _ D a l l' []); [done|done|done|done|by rewrite El].
  - cbn. apply filled_insert; [done|]. rewrite El. by apply (Hf2 a).
Qed.

(** The queue of [a] loses the transactions [txs]. *)
Record unqueued (p p' : TxPool) (a : Z) (txs : list Transaction) : Prop := {
  uq_inv : PoolInv p' [];
  uq_frame : framed p p';
  uq_pending : pending p' = pending p;
  uq_perm : list_at (queue p) a ≡ₚ txs ++ list_at (queue p') a;
  uq_other : forall c, c <> a -> queue p' !! c = queue p !! c
}.

Lemma queue_txs p a tx : tx ∈ list_at (queue p) a -> tx ∈ pool_txs p.
Proof. intros Ht. unfold pool_txs. apply elem_of_app. right. apply elem_of_lists_txs. by exists a. Qed.

Lemma remove_queued_list txs : forall p a rest, PoolInv p [] -> list_at (queue p) a ≡ₚ txs ++ rest -> exists p', removeTxs p txs true = run (Ret p') /\ unqueued p p' a txs.
Proof.
  induction txs as [|tx txs IH]; intros p a rest Hp Hl; [by exists p|]. cbn [removeTxs]. assert (tx ∈ list_at (queue p) a) as Hin by (rewrite Hl; set_solver).
  assert (from_of tx = a) as Hfrom by (apply good_from; apply (side_good false (queue p)); [apply (inv_queue _ _ _ (proj1 Hp))|done]).
  destruct (removeTx_ok p [] tx true Hp (queue_txs p a tx Hin)) as (p1 & -> & [H1 H2 H3 _ H5 _]). cbn [mbind fuelled_bind run]. rewrite Hfrom in H3, H5. destruct (H5 Hin) as [H6 _].
  assert (list_at (queue p) a ≡ₚ tx :: list_at (queue p1) a) as Hq. { pose proof (ls_perm _ _ _ _ H3) as E. rewrite H6 in E. apply (Permutation_app_inv_l (list_at (pending p) a)). rewrite E. solve_Permutation. }
  destruct (IH p1 a rest H1) as (p' & E & [K1 K2 K3 K4 K5]); [apply (Permutation_cons_inv (a := tx)); by rewrite <- Hq, Hl|]. exists p'. split; [done|].
  split; [done|by etrans|by rewrite K3|by rewrite Hq, K4|]. intros c Hc. rewrite K5 by done. by apply (ls_queue _ _ _ _ H3).
Qed.

Lemma drop_back_eq txs : forall p drop, 0 <= drop <= zlen txs -> drop_back p txs drop = p' ← removeTxs p (take (Z.to_nat drop) txs) true; run (Ret (0, p')).
Proof.
  induction txs as [|tx txs IH]; intros p drop Hd; cbn [drop_back].
  - assert (drop = 0) as -> by (unfold zlen in Hd; cbn in Hd; lia). done.
  - destruct (decide (drop > 0)) as [Hpos|Hpos]; [|assert (drop = 0) as -> by lia; done]. replace (Z.to_nat drop) with (S (Z.to_nat (drop - 1))) by lia. cbn [take removeTxs].
    destruct (removeTx p (tx_Hash tx) true) as [[p1| |]|]; cbn [mbind fuelled_bind]; try done. apply IH. unfold zlen in *. cbn [length] in Hd. lia.
Qed.

(** What a truncation of the queue has done to the accounts [addrs]. *)
Record truncated (p p' : TxPool) (addrs : list Z) (drop : Z) : Prop := {
  tq_inv : PoolInv p' [];
  tq_frame : framed p p';
  tq_pending : pending p' = pending p;
  tq_other : forall c, c ∉ addrs -> list_at (queue p') c = list_at (queue p) c;
  tq_total : total (queue p') = total (queue p) - drop \/ (total (queue p) - drop <= total (queue p') <= total (queue p) /\ forall a, a ∈ addrs -> list_at (queue p') a = [])
}.

(** The flattened list in the queue. *)
Lemma flatten_queue p a l : PoolInv p [] -> queue p !! a = Some l ->
  exists l', list_Flatten l = (listed l, l') /\ PoolInv (set_queue_list p a l') [] /\ (forall c, list_at (queue (set_queue_list p a l')) c = list_at (queue p) c) /\ total (queue (set_queue_list p a l')) = total (queue p).
Proof.
  intros Hp Ha. pose proof (side_wf _ _ _ _ (inv_queue _ _ _ (proj1 Hp)) Ha) as Hw. destruct (list_Flatten_ok l Hw) as (l' & E & Hw' & Hs' & Hi). exists l'. split; [done|]. destruct (queue_same_listed p [] a l l' Hp Ha Hw' Hs' Hi) as [H1 _]. split; [done|].
  assert (listed l' = listed l) as El by (unfold listed; by rewrite Hi). assert (forall c, list_at (queue (set_queue_list p a l')) c = list_at (queue p) c) as Hc.
  { intros c. cbn. destruct (decide (a = c)) as [<-|]; [by rewrite list_at_insert, El, (list_at_Some _ _ _ Ha)|by rewrite list_at_insert_ne]. }
  split; [done|]. rewrite (total_change (queue p) _ a) by (intros c Hne; cbn; by rewrite lookup_insert_ne). rewrite Hc. lia.
Qed.

Lemma total_bound m a l : m !! a = Some l -> zlen (listed l) <= total m.
Proof. intros Ha. rewrite (total_delete m a), (list_at_Some _ _ _ Ha). unfold total. pose proof (zlen_nonneg (lists_txs (base.delete a m))). lia. Qed.

Lemma truncate_loop_ok addrs : forall p drop, PoolInv p [] -> NoDup addrs -> (forall a, a ∈ addrs -> is_Some (queue p !! a)) -> 0 <= drop -> total (queue p) < 2 ^ 64 ->
  exists p', truncate_loop p addrs drop = run (Ret p') /\ truncated p p' addrs drop.
Proof.
  induction addrs as [|a addrs IH]; intros p drop Hp Hnd Hin Hd Ht; cbn [truncate_loop].
  { exists p. split; [done|]. split; try done. right. split; [lia|by intros a ?%elem_of_nil]. }
  destruct (decide (drop > 0)) as [Hpos|Hpos]; [|exists p; split; [done|]; split; try done; left; lia]. apply list.NoDup_cons in Hnd as [Hna Hnd]. destruct (Hin a) as [l Ha]; [set_solver|]. rewrite Ha.
  pose proof (total_bound _ _ _ Ha) as Hlb. assert (u64 (list_Len l) = zlen (listed l)) as Hsz by (rewrite list_Len_eq; apply u64_id; pose proof (zlen_nonneg (listed l)); unfold is_u64; lia).
  destruct (flatten_queue p a l Hp Ha) as (l' & -> & H1 & Hsame & Htot). set (p1 := set_queue_list p a l') in *. assert (framed p p1) as Hf1 by done. pose proof (Hsame a) as Hla. rewrite (list_at_Some _ _ _ Ha) in Hla. rewrite Hsz.
  destruct (decide (zlen (listed l) <= drop)) as [Hle|Hgt].
  - destruct (remove_queued_list (listed l) p1 a [] H1) as (p2 & -> & [K1 K2 K3 K4 K5]); [by rewrite app_nil_r, Hla|]. cbn [mbind fuelled_bind run].
    assert (list_at (queue p2) a = []) as Hnil by (rewrite Hla in K4; apply Permutation_length in K4; rewrite length_app in K4; apply nil_length_inv; lia).
    assert (total (queue p2) = total (queue p) - zlen (listed l)) as Ht2 by (rewrite (total_change (queue p1) _ a K5), Hnil, Htot, Hla; unfold zlen; cbn [length]; lia).
    destruct (IH p2 (drop - zlen (listed l)) K1 Hnd) as (p' & -> & [L1 L2 L3 L4 L5]); [|lia|pose proof (zlen_nonneg (listed l)); lia|].
    { intros c Hc. rewrite K5 by (intros ->; done). cbn. rewrite lookup_insert_ne by (intros ->; done). apply Hin. set_solver. }
    exists p'. split; [done|]. split; [done|by rewrite Hf1, K2|by rewrite L3, K3| |].
    + intros c Hc. apply not_elem_of_cons in Hc as [Hca Hc]. rewrite L4 by done. unfold list_at at 1. rewrite K5 by done. apply Hsame.
    + destruct L5 as [L5|[L5 L6]]; [left; lia|right]. pose proof (zlen_nonneg (listed l)). split; [lia|]. intros c [->|Hc]%elem_of_cons; [by rewrite L4|by apply L6].
  - rewrite drop_back_eq by (unfold zlen in *; rewrite length_rev; lia). set (txs := take (Z.to_nat drop) (rev (listed l))).
    destruct (remove_queued_list txs p1 a (list.drop (Z.to_nat drop) (rev (listed l))) H1) as (p2 & -> & [K1 K2 K3 K4 K5]); [rewrite Hla; unfold txs; rewrite take_drop; apply Permutation_rev|].
    cbn [mbind fuelled_bind run]. assert (truncate_loop p2 addrs 0 = run (Ret p2)) as -> by (by destruct addrs). exists p2. split; [done|]. split; [done|by rewrite Hf1|by rewrite K3| |].
    + intros c Hc. apply not_elem_of_cons in Hc as [Hca Hc]. unfold list_at at 1. rewrite K5 by done. apply Hsame.
    + left. rewrite (total_change (queue p1) _ a K5), Htot. apply Permutation_length in K4. rewrite length_app in K4. unfold txs in K4. rewrite length_take, length_rev in K4. unfold zlen in *. rewrite Hla in *. lia.
Qed.

Lemma range_NoDup {A} (m : gmap Z A) : NoDup (map_range m).*1.
Proof. rewrite map_range_perm. apply NoDup_fst_map_to_list. Qed.

(** The accounts in the order of the sort. *)
Lemma beat_accounts p addrs : rev (sort_beats (map (fun addr => (addr, beat_of p addr)) addrs)).*1 ≡ₚ addrs.
Proof.
  rewrite <- Permutation_rev, sort_beats_perm. rewrite <- (list_fmap_id addrs) at 2. change (map ?f addrs) with (f <$> addrs). by rewrite <- list_fmap_compose.
Qed.

(** The queue is cut down to its limit, unless only local accounts are left in it; they lose nothing. *)
Lemma truncateQueue_ok p : PoolInv p [] -> total (queue p) < 2 ^ 64 ->
  exists p', truncateQueue p = run (Ret p') /\ PoolInv p' [] /\ framed p p' /\ pending p' = pending p /\
    (total (queue p') <= GlobalQueue config \/ forall a, a ∉ locals p -> list_at (queue p') a = []) /\
    (forall a, a ∈ locals p -> list_at (queue p') a = list_at (queue p) a) /\ Z.min (GlobalQueue config) (total (queue p)) <= total (queue p') <= total (queue p).
Proof.
  intros Hp Ht. pose proof cf_gqueue as Hg. unfold truncateQueue. rewrite (count_lists_eq _ Ht). cbv zeta. destruct (decide _) as [Hle|Hgt]; [exists p; split_and!; try done; [by left|lia]|].
  set (addrs := base.filter _ _). destruct (truncate_loop_ok (rev (sort_beats (map (fun addr => (addr, beat_of p addr)) addrs)).*1) p (total (queue p) - GlobalQueue config) Hp) as (p' & -> & [H1 H2 H3 H4 H5]); [| |lia|done|].
  - rewrite beat_accounts. apply list.NoDup_filter, range_NoDup.
  - intros a. rewrite beat_accounts. intros [_ Ha]%list_elem_of_filter. by apply range_keys.
  - exists p'. split; [done|]. split; [done|]. split; [done|]. split; [done|]. split; [|split].
    + destruct H5 as [H5|[_ H5]]; [left; lia|right]. intros a Ha. destruct (decide (is_Some (queue p !! a))) as [Hs|Hs].
      * apply H5. rewrite beat_accounts. apply list_elem_of_filter. split; [unfold contains; by apply bool_decide_eq_false|by apply range_keys].
      * rewrite H4; [apply list_at_None; by apply eq_None_not_Some|]. rewrite beat_accounts. intros [_ Hk%range_keys]%list_elem_of_filter. done.
    + intros a Ha. apply H4. rewrite beat_accounts. intros [Hc _]%list_elem_of_filter. unfold contains in Hc. apply bool_decide_eq_false in Hc. done.
    + destruct H5 as [H5|[H5 _]]; lia.
Qed.
End Limits.

(** ** The pending transactions *)

(** ** The priority queue *)

Definition falling (x y : Z * Z) : bool := bool_decide (x.2 > y.2).
(** Priorities for which the difference does not wrap. *)
Definition in_prio (x : Z * Z) : Prop := 0 <= x.2 < 2 ^ 63.

Lemma falling_asym x y : falling x y = true -> falling y x = false.
Proof. unfold falling. rewrite bool_decide_eq_true, bool_decide_eq_false. lia. Qed.

Lemma falling_trans x y z : falling y x = false -> falling z y = false -> falling z x = false.
Proof. unfold falling. rewrite !bool_decide_eq_false. lia. Qed.

Lemma prque_agree x y : in_prio x -> in_prio y -> prque_less x y = falling x y.
Proof.
  unfold in_prio, prque_less, falling. intros Hx Hy. apply bool_decide_ext. unfold i64, u64. destruct (decide (x.2 < y.2)).
  - assert ((x.2 - y.2) mod 2 ^ 64 = x.2 - y.2 + 2 ^ 64) as -> by (symmetry; apply (Z.mod_unique _ _ (-1)); lia). rewrite decide_False by lia. lia.
  - rewrite Z.mod_small by lia. rewrite decide_True by lia. lia.
Qed.

Notation pq_heap := (heap falling).

Lemma prque_Push_ok q data prio : holds in_prio q -> pq_heap q -> 0 <= prio < 2 ^ 63 ->
  pq_heap (prque_Push q data prio) /\ prque_Push q data prio ≡ₚ (data, prio) :: q /\ holds in_prio (prque_Push q data prio).
Proof.
  intros Hq Hh Hp. unfold prque_Push. rewrite (heap_Push_agree prque_less falling in_prio prque_agree q (data, prio) Hq Hp).
  destruct (heap_Push_ok falling falling_asym falling_trans q (data, prio) Hh) as [H1 H2]. split; [done|]. split; [done|]. intros x. rewrite H2. intros [->|Hx]%elem_of_cons; [done|by apply Hq].
Qed.

(** The greatest priority comes off first. *)
Lemma prque_Pop_ok q : holds in_prio q -> pq_heap q -> q <> [] ->
  exists a n q', prque_Pop q = Ret (a, n, q') /\ q ≡ₚ (a, n) :: q' /\ pq_heap q' /\ holds in_prio q' /\ forall x, x ∈ q' -> x.2 <= n.
Proof.
  intros Hq Hh Hne. unfold prque_Pop. rewrite (heap_Pop_agree prque_less falling in_prio prque_agree q Hq). destruct q as [|[a n] q0]; [done|].
  destruct (heap_Pop_ok falling falling_asym falling_trans ((a, n) :: q0) (a, n) Hh eq_refl) as (q' & E & Hp & Hh'). exists a, n, q'. split; [done|]. split; [done|]. split; [done|]. split; [intros x Hx; apply Hq; rewrite Hp; by constructor|].
  intros x Hx. pose proof (heap_min falling falling_asym falling_trans _ (a, n) Hh eq_refl x) as Hm. unfold falling in Hm. rewrite bool_decide_eq_false in Hm. cbn in Hm. rewrite Hp in Hm. specialize (Hm ltac:(by constructor)). lia.
Qed.

Section Pending.
Context {C : Crypto} {MO : MapOrder} {Env : PoolEnv} {BO : BeatOrder} {CF : ConfigOk}.

(** The number of pending transactions of an account. *)
Definition len (p : TxPool) (a : Z) : Z := zlen (list_at (pending p) a).

(** ** Dropping the last transactions *)

(** The last transaction of each of the accounts [os] is gone. *)
Record dropped (p p' : TxPool) (os : list Z) : Prop := {
  dr_inv : PoolInv p' [];
  dr_frame : framed p p';
  dr_queue : queue p' = queue p;
  dr_in : forall a, a ∈ os -> len p' a = len p a - 1 /\ list_at (pending p') a `prefix_of` list_at (pending p) a;
  dr_out : forall a, a ∉ os -> pending p' !! a = pending p !! a;
  dr_total : total (pending p') = total (pending p) - zlen os
}.

Lemma drop_last_ok p a : PoolInv p [] -> 2 <= len p a -> exists p', drop_last p a = Ret p' /\ dropped p p' [a].
Proof.
  intros HP Hlen. pose proof HP as [Hp [Hf1 Hf2]]. unfold len, list_at in Hlen. destruct (pending p !! a) as [l|] eqn:Ha; [|unfold zlen in Hlen; cbn in Hlen; lia]. unfold drop_last, pending_list. rewrite Ha. cbn [mbind outcome_bind].
  pose proof (side_wf _ _ _ _ (inv_pending _ _ _ Hp) Ha) as Hw. destruct (exists_last (l := listed l)) as (r & x & Hr); [intros E; rewrite E in Hlen; unfold zlen in Hlen; cbn in Hlen; lia|].
  rewrite list_Len_eq. destruct (list_Cap_ok l (zlen (listed l) - 1) Hw ltac:(lia)) as (l' & -> & Hw' & Hs' & Hl'). cbn [mbind outcome_bind].
  assert (Z.to_nat (zlen (listed l) - 1) = length r) as En by (rewrite Hr; unfold zlen; rewrite length_app; cbn [length]; lia). rewrite En in Hl' |- *. rewrite Hr in Hl' |- *. rewrite take_app_length in Hl'. rewrite drop_app_length. cbn [rev app fold_left].
  assert ([x] ++ listed l' ≡ₚ listed l) as Hperm by (rewrite Hl', Hr; apply Permutation_app_comm).
  pose proof (pending_sub p _ [] a l l' [x] Hp Ha Hw' Hs' Hperm) as H1. destruct (pool_pending_split p a l [x] (listed l') Ha Hperm) as [X HX].
  destruct (pool_set_pending p a l') as (R & HR1 & HR2). rewrite (list_at_Some _ _ _ Ha), <- Hperm in HR1.
  set (p2 := all_Remove (set_pending_list p a l') (tx_Hash x)). set (p4 := Removed (set_nonces p2 _) _). exists p4. split; [done|].
  assert (Inv p2 X []) as H2 by (apply Inv_all_Remove; by eapply Inv_perm). assert (X ≡ₚ pool_txs p4) as HX4.
  { apply (Permutation_cons_inv (a := x)). change (pool_txs p4) with (pool_txs (set_pending_list p a l')). rewrite HR2. rewrite HX in HR1. exact HR1. }
  assert (forall c, c <> a -> pending p4 !! c = pending p !! c) as Hout by (intros c Hc; cbn; by rewrite lookup_insert_ne).
  assert (list_at (pending p4) a = r) as Hla by (cbn; by rewrite list_at_insert). assert (list_at (pending p) a = r ++ [x]) as Hla0 by (by rewrite (list_at_Some _ _ _ Ha)).
  split; [split; [apply Inv_Removed, Inv_set_nonces; by eapply Inv_perm|split; [cbn; apply filled_insert; [done|]|done]]|done|done| | |].
  - rewrite Hl'. intros ->. rewrite Hr in Hlen. unfold zlen in Hlen. cbn in Hlen. lia.
  - intros c ->%list_elem_of_singleton. unfold len. rewrite Hla, Hla0. split; [unfold zlen; rewrite length_app; cbn [length]; lia|by eexists].
  - intros c Hc. apply Hout. intros ->. apply Hc. by apply list_elem_of_singleton.
  - rewrite (total_change _ _ a Hout), Hla, Hla0. unfold zlen. rewrite length_app. cbn [length]. lia.
Qed.

Lemma dropped_trans p1 p2 p3 a os : dropped p1 p2 [a] -> dropped p2 p3 os -> a ∉ os -> dropped p1 p3 (a :: os).
Proof.
  intros [A1 A2 A3 A4 A5 A6] [B1 B2 B3 B4 B5 B6] Hna. split; [done|by etrans|congruence| | |rewrite B6, A6; unfold zlen; cbn [length]; lia].
  - intros c [->|Hc]%elem_of_cons.
    + destruct (A4 a) as [H1 H2]; [set_solver|]. unfold len, list_at in *. by rewrite B5.
    + destruct (B4 c Hc) as [H1 H2]. assert (c ∉ [a]) as Hca by (intros ->%list_elem_of_singleton; done). unfold len, list_at in *. by rewrite A5 in H1, H2.
  - intros c Hc. apply not_elem_of_cons in Hc as [Hca Hc]. rewrite B5 by done. apply A5. by intros ?%list_elem_of_singleton.
Qed.

Lemma drop_each_ok os : forall p, PoolInv p [] -> NoDup os -> (forall a, a ∈ os -> 2 <= len p a) -> total (pending p) < 2 ^ 64 ->
  exists p', drop_each p (total (pending p)) os = Ret (total (pending p'), p') /\ dropped p p' os.
Proof.
  induction os as [|a os IH]; intros p Hp Hnd Hlen Ht; cbn [drop_each].
  { exists p. split; [done|]. split; try done; [intros a ?%elem_of_nil; done|unfold zlen; cbn [length]; lia]. }
  apply list.NoDup_cons in Hnd as [Hna Hnd]. destruct (drop_last_ok p a Hp) as (p1 & -> & H1); [apply Hlen; set_solver|]. cbn [mbind outcome_bind].
  pose proof (dr_total _ _ _ H1) as Ht1. unfold zlen in Ht1. cbn [length] in Ht1. pose proof (zlen_nonneg (lists_txs (pending p1))) as Hnn. fold (total (pending p1)) in Hnn.
  replace (u64 (total (pending p) - 1)) with (total (pending p1)) by (symmetry; rewrite u64_id; [lia|unfold is_u64; lia]).
  destruct (IH p1 (dr_inv _ _ _ H1) Hnd) as (p' & -> & H2); [|lia|].
  - intros c Hc. assert (c ∉ [a]) as Hca by (intros ->%list_elem_of_singleton; done). unfold len, list_at. rewrite (dr_out _ _ _ H1 c Hca). apply Hlen. set_solver.
  - exists p'. split; [done|]. by eapply dropped_trans.
Qed.

(** ** Rounds *)

(** The accounts [os] are level at [n], and were at least as high before. *)
Record levelled (p p' : TxPool) (os : list Z) (n : Z) : Prop := {
  lv_inv : PoolInv p' [];
  lv_frame : framed p p';
  lv_queue : queue p' = queue p;
  lv_in : forall a, a ∈ os -> len p' a = n /\ list_at (pending p') a `prefix_of` list_at (pending p) a;
  lv_out : forall a, a ∉ os -> pending p' !! a = pending p !! a;
  lv_total : total (pending p') <= total (pending p)
}.

Lemma drop_rounds_ok fuel : forall p n threshold pivot os, PoolInv p [] -> NoDup os -> pivot ∈ os -> (forall a, a ∈ os -> len p a = n) -> 1 <= threshold <= n -> total (pending p) < 2 ^ 64 -> total (pending p) <= Z.of_nat fuel ->
  exists p' n', drop_rounds fuel p (total (pending p)) threshold pivot os = run (Ret (total (pending p'), p')) /\ levelled p p' os n' /\ threshold <= n' <= n /\ (total (pending p') <= GlobalSlots config \/ n' = threshold).
Proof.
  pose proof cf_gslots as Hg. induction fuel as [|fuel IH]; intros p n threshold pivot os Hp Hnd Hpiv Hlen Hth Ht Hf.
  { exists p, n. cbn. rewrite decide_False by lia. split; [done|]. split; [split; try done; intros a Ha; split; [by apply Hlen|done]|]. split; [lia|left; lia]. }
  cbn [drop_rounds]. destruct (decide _) as [Hc|Hc]; cycle 1.
  { exists p, n. split; [done|]. split; [split; try done; intros a Ha; split; [by apply Hlen|done]|]. split; [lia|left; lia]. }
  pose proof (Hlen pivot Hpiv) as Hl. unfold len, list_at in Hl. unfold pending_list. destruct (pending p !! pivot) as [l|] eqn:Ha; [|unfold zlen in Hl; cbn in Hl; lia]. cbn [mbind fuelled_bind run]. rewrite list_Len_eq, Hl.
  destruct (decide (n > threshold)) as [Hn|Hn]; cycle 1.
  { exists p, n. split; [done|]. split; [split; try done; intros a Ha'; split; [by apply Hlen|done]|]. split; [lia|right; lia]. }
  destruct (drop_each_ok os p Hp Hnd) as (p1 & -> & [A1 A2 A3 A4 A5 A6]); [intros a Ha'; rewrite Hlen by done; lia|done|]. cbn [mbind fuelled_bind run].
  assert (1 <= zlen os) as Hos by (destruct os; [by apply elem_of_nil in Hpiv|unfold zlen; cbn [length]; lia]).
  destruct (IH p1 (n - 1) threshold pivot os A1 Hnd Hpiv) as (p' & n' & -> & [B1 B2 B3 B4 B5 B6] & Hn' & Hend); [intros a Ha'; rewrite (proj1 (A4 a Ha')), Hlen by done; lia|lia|lia|lia|].
  exists p', n'. split; [done|]. split; [|split; [lia|done]]. split; [done|by etrans|congruence| |intros a Ha'; by rewrite B5, A5|lia].
  intros a Ha'. split; [by apply B4|]. etrans; [by apply B4|by apply A4].
Qed.

(** ** Equalizing *)

(** The spammers that are left, with their numbers of transactions. *)
Record spam_ok (p : TxPool) (q : list (Z * Z)) (os : list Z) : Prop := {
  sp_prio : holds in_prio q;
  sp_heap : pq_heap q;
  sp_len : forall x, x ∈ q -> len p x.1 = x.2 /\ AccountSlots config < x.2;
  sp_nodup : NoDup (os ++ q.*1)
}.

(** The offenders are level, and no spammer is above them. *)
Definition level (p : TxPool) (q : list (Z * Z)) (os : list Z) : Prop :=
  os = [] \/ exists n, AccountSlots config <= n /\ (forall a, a ∈ os -> len p a = n) /\ (forall x, x ∈ q -> x.2 <= n).

(** Some accounts among [os] have lost their last transactions. *)
Record cut (p p' : TxPool) (os : list Z) : Prop := {
  ct_inv : PoolInv p' [];
  ct_frame : framed p p';
  ct_queue : queue p' = queue p;
  ct_prefix : forall a, list_at (pending p') a `prefix_of` list_at (pending p) a;
  ct_out : forall a, a ∉ os -> pending p' !! a = pending p !! a;
  ct_total : total (pending p') <= total (pending p);
  ct_min : forall a, Z.min (AccountSlots config) (len p a) <= len p' a
}.

Lemma cut_refl p os : PoolInv p [] -> cut p p os.
Proof. split; try done. intros a. lia. Qed.

Lemma cut_trans p1 p2 p3 os os' : cut p1 p2 os -> cut p2 p3 os' -> (forall a, a ∈ os -> a ∈ os') -> cut p1 p3 os'.
Proof.
  intros [A1 A2 A3 A4 A5 A6 A7] [B1 B2 B3 B4 B5 B6 B7] Hs. split; [done|by etrans|congruence|intros a; etrans; [apply B4|apply A4]|intros a Ha; rewrite B5 by done; apply A5; auto|lia|].
  intros a. specialize (A7 a). specialize (B7 a). lia.
Qed.

Lemma levelled_cut p p' os os' n : levelled p p' os n -> AccountSlots config <= n -> (forall a, a ∈ os -> a ∈ os') -> cut p p' os'.
Proof.
  intros [A1 A2 A3 A4 A5 A6] Hn Hs. split; [done|done|done| |intros a Ha; apply A5; auto|done|]; intros a; destruct (decide (a ∈ os)); [by apply A4|unfold list_at; by rewrite A5|rewrite (proj1 (A4 a ltac:(done))); lia|unfold len, list_at; rewrite A5 by done; lia].
Qed.

Lemma out_len p p' os a : cut p p' os -> a ∉ os -> len p' a = len p a.
Proof. intros Hc Ha. unfold len, list_at. by rewrite (ct_out _ _ _ Hc a Ha). Qed.

Lemma equalize_ok fuel : forall p q os, PoolInv p [] -> (length q <= fuel)%nat -> spam_ok p q os -> total (pending p) < 2 ^ 64 -> total (pending p) <= GlobalSlots config \/ level p q os ->
  exists os' p', equalize fuel p (total (pending p)) q os = run (Ret (total (pending p'), os', p')) /\ cut p p' os' /\ NoDup os' /\ (forall a, a ∈ os' -> a ∈ os \/ a ∈ q.*1) /\
    (forall a, a ∈ os -> a ∈ os') /\ (total (pending p') <= GlobalSlots config \/ ((forall x, x ∈ q -> x.1 ∈ os') /\ level p' [] os')).
Proof.
  pose proof cf_slots as Hcs. induction fuel as [|fuel IH]; intros p q os Hp Hf Hsp Ht Hlv.
  all: cbn [equalize]; destruct (decide _) as [Hc|Hc]; [destruct Hlv as [|Hlv]; [lia|]|exists os, p; split; [done|]; split; [by apply cut_refl|]; split; [apply sp_nodup, list.NoDup_app in Hsp; tauto|split; [by left|split; [done|left; lia]]]].
  all: destruct q as [|x0 q0]; [exists os, p; split; [done|]; split; [by apply cut_refl|]; split; [by destruct Hsp as [_ _ _ Hnd]; rewrite app_nil_r in Hnd|split; [by left|split; [done|right; split; [by intros x ?%elem_of_nil|done]]]]|].
  { cbn in Hf. lia. }
  destruct (prque_Pop_ok (x0 :: q0)) as (a & n & q & -> & Hq & Hh & Hpr & Hmax); [apply Hsp|apply Hsp|done|]. cbn [mbind fuelled_bind run]. set (q1 := x0 :: q0) in *. clearbody q1. destruct Hsp as [S1 S2 S3 S4].
  assert (length q1 = S (length q)) as Hlq by (by rewrite (Permutation_length Hq)). destruct (S3 (a, n)) as [Hla Hna]; [rewrite Hq; set_solver|]. cbn in Hla, Hna.
  assert (NoDup (a :: os ++ q.*1)) as Hnd by (rewrite Hq in S4; cbn in S4; by rewrite <- Permutation_middle in S4).
  assert (forall p', (forall c, c ∈ q.*1 -> len p' c = len p c) -> spam_ok p' q (a :: os)) as Hspam.
  { intros p' Hsame. split; [done|done| |done]. intros x Hx. destruct (S3 x) as [H1 H2]; [rewrite Hq; by constructor|]. split; [|done]. rewrite Hsame; [done|]. by apply list_elem_of_fmap_2. }
  destruct os as [|pivot os0].
  - destruct (IH p q [a] Hp) as (os' & p' & -> & K1 & K2 & K3 & K5 & K4); [lia|by apply Hspam|done|right; right; exists n; split; [lia|]; split; [by intros c ->%list_elem_of_singleton|done]|].
    exists os', p'. split; [done|]. split; [done|]. split; [done|]. split; [intros c Hcin; destruct (K3 c Hcin) as [->%list_elem_of_singleton|Hx]; right; rewrite Hq; set_solver|].
    split; [by intros c ?%elem_of_nil|]. destruct K4 as [K4|[K4 K6]]; [by left|right]. split; [|done]. intros x. rewrite Hq. intros [->|Hx]%elem_of_cons; [apply K5; set_solver|by apply K4].
  - unfold pending_list. pose proof Hla as Hla'. unfold len, list_at in Hla'. destruct (pending p !! a) as [l|] eqn:Ha; [|unfold zlen in Hla'; cbn in Hla'; lia]. cbn [mbind fuelled_bind run]. rewrite list_Len_eq, Hla'.
    destruct Hlv as [|(n0 & Hn0 & Hlev & Hle)]; [done|]. set (os := pivot :: os0) in *.
    apply list.NoDup_cons in Hnd as Hnd'. destruct Hnd' as [Hnotin Hnd']. apply list.NoDup_app in Hnd' as (Hos & Hdis & _).
    pose proof (zlen_nonneg (lists_txs (pending p))) as Hnn. fold (total (pending p)) in Hnn.
    destruct (drop_rounds_ok (Z.to_nat (total (pending p))) p n0 n pivot (rev os) Hp) as (p1 & n1 & -> & Hlv1 & Hn1 & Hend); [by rewrite <- Permutation_rev|rewrite <- Permutation_rev; set_solver|intros c; rewrite <- Permutation_rev; apply Hlev|split; [lia|apply (Hle (a, n)); rewrite Hq; set_solver]|done|lia|].
    cbn [mbind fuelled_bind run]. assert (cut p p1 os) as Hcut1 by (eapply levelled_cut; [done|lia|intros c; by rewrite <- Permutation_rev]).
    assert (len p1 a = n) as Hla1 by (rewrite (out_len p p1 os); [done|done|set_solver]).
    destruct (IH p1 q (a :: os) (lv_inv _ _ _ _ Hlv1)) as (os' & p' & -> & K1 & K2 & K3 & K5 & K4); [lia| |pose proof (lv_total _ _ _ _ Hlv1); lia| |].
    { apply Hspam. intros c Hc'. apply (out_len p p1 os); [done|]. intros Hin. by apply (Hdis c). }
    { destruct Hend as [|Hend]; [by left|right; right; exists n; split; [lia|]; split; [|done]]. intros c [->|Hc']%elem_of_cons; [done|]. rewrite (proj1 (lv_in _ _ _ _ Hlv1 c ltac:(by rewrite <- Permutation_rev))). done. }
    exists os', p'. split; [done|]. split; [eapply cut_trans; [done|done|]; intros c Hc'; apply K5; by constructor|]. split; [done|]. split; [|split].
    + intros c Hcin. destruct (K3 c Hcin) as [[->|Hx]%elem_of_cons|Hx]; [right; rewrite Hq; set_solver|by left|right; rewrite Hq; set_solver].
    + intros c Hc'. apply K5. by constructor.
    + destruct K4 as [K4|[K4 K6]]; [by left|right]. split; [|done]. intros x. rewrite Hq. intros [->|Hx]%elem_of_cons; [apply K5; set_solver|by apply K4].
Qed.

(** ** The whole *)

Definition spams (p : TxPool) (kv : Z * txList) : Prop := kv.1 ∉ locals p /\ AccountSlots config < zlen (listed kv.2).

Definition push_spammer (p : TxPool) (q : list (Z * Z)) (kv : Z * txList) : list (Z * Z) :=
  if negb (contains (locals p) kv.1) && bool_decide (u64 (list_Len kv.2) > AccountSlots config) then prque_Push q kv.1 (list_Len kv.2) else q.

Lemma spam_fold p l : forall q, holds in_prio q -> pq_heap q -> (forall kv, kv ∈ l -> zlen (listed kv.2) < 2 ^ 63) -> NoDup (l.*1 ++ q.*1) ->
  let r := fold_left (push_spammer p) l q in
  holds in_prio r /\ pq_heap r /\ NoDup r.*1 /\ forall x, x ∈ r <-> x ∈ q \/ exists kv, kv ∈ l /\ spams p kv /\ x = (kv.1, zlen (listed kv.2)).
Proof.
  induction l as [|kv l IH]; intros q Hq Hh Hl Hnd; cbn [fold_left]; [split_and!; try done; intros x; split; [by left|intros [?|(kv & ?%elem_of_nil & _)]; done]|].
  pose proof (Hl kv ltac:(set_solver)) as Hkv. pose proof (zlen_nonneg (listed kv.2)) as Hnn. cbn in Hnd. apply list.NoDup_cons in Hnd as [Hna Hnd].
  assert (push_spammer p q kv = if bool_decide (spams p kv) then prque_Push q kv.1 (zlen (listed kv.2)) else q) as ->.
  { unfold push_spammer. rewrite list_Len_eq. rewrite u64_id by (unfold is_u64; lia). unfold contains, spams. rewrite <- bool_decide_not, <- bool_decide_and.
    assert (bool_decide (kv.1 ∉ locals p /\ zlen (listed kv.2) > AccountSlots config) = bool_decide (kv.1 ∉ locals p /\ AccountSlots config < zlen (listed kv.2))) as ->; [|done]. apply bool_decide_ext. split; intros [? ?]; (split; [done|lia]). }
  case_bool_decide as Hs; cycle 1.
  { destruct (IH q Hq Hh) as (H1 & H2 & H3 & H4); [intros; apply Hl; by constructor|done|]. split_and!; try done. intros x. rewrite H4. setoid_rewrite elem_of_cons. naive_solver. }
  destruct (prque_Push_ok q kv.1 (zlen (listed kv.2)) Hq Hh ltac:(lia)) as (P1 & P2 & P3). destruct (IH (prque_Push q kv.1 (zlen (listed kv.2))) P3 P1) as (H1 & H2 & H3 & H4); [intros; apply Hl; by constructor| |].
  { rewrite P2. cbn. rewrite <- Permutation_middle. by constructor. }
  split_and!; try done. intros x. rewrite H4, P2. setoid_rewrite elem_of_cons. naive_solver.
Qed.

Lemma spammers_ok p : total (pending p) < 2 ^ 63 ->
  let q := fold_left (push_spammer p) (map_range (pending p)) [] in
  spam_ok p q [] /\ (forall a, a ∈ q.*1 <-> a ∉ locals p /\ AccountSlots config < len p a).
Proof.
  intros Ht. pose proof cf_slots as Hcs. assert (forall a l, (a, l) ∈ map_range (pending p) <-> pending p !! a = Some l) as Hr by (intros a l; rewrite map_range_perm; apply elem_of_map_to_list).
  destruct (spam_fold p (map_range (pending p)) []) as (H1 & H2 & H3 & H4); [by intros x ?%elem_of_nil|apply heap_nil|intros [a l] Ha%Hr; pose proof (total_bound _ _ _ Ha); cbn; lia|rewrite app_nil_r; apply range_NoDup|].
  cbv zeta. split; [split; [done|done| |done]|].
  - intros x [?%elem_of_nil|([a l] & Ha%Hr & [Hs1 Hs2] & ->)]%H4; [done|]. cbn in *. split; [|done]. unfold len. by rewrite (list_at_Some _ _ _ Ha).
  - intros a. rewrite list_elem_of_fmap. split.
    + intros (x & -> & [?%elem_of_nil|([c l] & Ha%Hr & [Hs1 Hs2] & ->)]%H4); [done|]. cbn in *. split; [done|]. unfold len. by rewrite (list_at_Some _ _ _ Ha).
    + intros [Ha1 Ha2]. unfold len, list_at in Ha2. destruct (pending p !! a) as [l|] eqn:Ha; [|unfold zlen in Ha2; cbn in Ha2; lia].
      exists (a, zlen (listed l)). split; [done|]. apply H4. right. exists (a, l). split; [by apply Hr|]. done.
Qed.

(** The pending transactions are cut down to their limit, unless no account that is not local has
    more than it is guaranteed; local accounts lose nothing, and no account falls below the guarantee. *)
Lemma truncatePending_ok p : PoolInv p [] -> total (pending p) < 2 ^ 63 ->
  exists p', truncatePending p = run (Ret p') /\ (exists os, cut p p' os /\ forall a, a ∈ os -> a ∉ locals p) /\
    (total (pending p') <= GlobalSlots config \/ forall a, a ∉ locals p -> len p' a <= AccountSlots config).
Proof.
  intros Hp Ht. pose proof cf_slots as Hcs. unfold truncatePending. rewrite count_lists_eq by lia. cbv zeta. destruct (decide _) as [Hle|Hgt]; [exists p; split; [done|]; split; [exists []; split; [by apply cut_refl|by intros a ?%elem_of_nil]|by left]|].
  change (fold_left _ (map_range (pending p)) []) with (fold_left (push_spammer p) (map_range (pending p)) []). destruct (spammers_ok p Ht) as [Hsp Hq]. set (q := fold_left (push_spammer p) _ []) in *. clearbody q.
  destruct (equalize_ok (length q) p q [] Hp) as (os & p1 & -> & Hcut & Hnd & Hos & _ & Hend); [done|done|lia|right; by left|]. cbn [mbind fuelled_bind run].
  assert (forall a, a ∈ os -> a ∉ locals p) as Hloc by (intros a Ha; destruct (Hos a Ha) as [?%elem_of_nil|Hx]; [done|by apply Hq in Hx as [? _]]).
  assert (forall p' , cut p p' os -> (forall a, a ∈ os -> len p' a <= AccountSlots config) -> (forall x, x ∈ q -> x.1 ∈ os) -> forall a, a ∉ locals p -> len p' a <= AccountSlots config) as Hfin.
  { intros p' Hc Hlen Hall a Ha. destruct (decide (a ∈ os)); [by apply Hlen|]. rewrite (out_len p p' os) by done. destruct (decide (AccountSlots config < len p a)); [|lia].
    exfalso. assert (a ∈ q.*1) as (x & -> & Hx)%list_elem_of_fmap by (by apply Hq). by apply Hall in Hx. }
  pose proof (ct_total _ _ _ Hcut) as Ht1. pose proof (zlen_nonneg (lists_txs (pending p1))) as Hnn. fold (total (pending p1)) in Hnn. destruct os as [|pivot os0].
  { exists p1. split; [done|]. split; [by exists []|]. destruct Hend as [|[Hall _]]; [by left|right]. apply Hfin; [done|by intros a ?%elem_of_nil|done]. }
  set (os := pivot :: os0) in *. destruct Hend as [Hend|[Hall [|(n & Hn & Hlev & _)]]]; [|done|].
  - exists p1. assert (drop_rounds (Z.to_nat (total (pending p1))) p1 (total (pending p1)) (AccountSlots config) pivot (rev os) = run (Ret (total (pending p1), p1))) as ->.
    { destruct (Z.to_nat (total (pending p1))); cbn [drop_rounds]; by rewrite decide_False by lia. }
    split; [done|]. split; [by exists os|by left].
  - destruct (drop_rounds_ok (Z.to_nat (total (pending p1))) p1 n (AccountSlots config) pivot (rev os) (ct_inv _ _ _ Hcut)) as (p2 & n2 & -> & Hlv & Hn2 & Hend); [by rewrite <- Permutation_rev|rewrite <- Permutation_rev; set_solver|intros c; rewrite <- Permutation_rev; apply Hlev|lia|lia|lia|].
    assert (cut p p2 os) as Hcut2 by (eapply cut_trans; [done| |done]; eapply levelled_cut; [done|lia|intros c; by rewrite <- Permutation_rev]).
    exists p2. split; [done|]. split; [by exists os|]. destruct Hend as [|Hend]; [by left|right]. apply Hfin; [done| |done]. intros a Ha. rewrite (proj1 (lv_in _ _ _ _ Hlv a ltac:(by rewrite <- Permutation_rev))). lia.
Qed.
End Pending.
