(* ===== verification/TxPoolRun.v ===== *)
(** * Runs of the pool

    The walk down the two branches of a reorganisation ends at their common block with
    the transactions of each; those that the new branch lacks are added again.  A run of
    the reorganiser and an eviction keep the invariant and do not panic; after a run the
    pool is within its limits, its nonces are in step with the pending transactions, and
    after a reset these can be executed. *)

From stdpp Require Import gmap sorting.
From S2P Require Import Prelude VmPrecompiles BlockTypes ChainConfig GoHeap TxList TxListProofs TxSigning TxLookup.
From S2P Require Import TxPool TxPoolInv TxPoolAdd TxPoolReorg TxPoolLimits.

Section Reset.
Context {C : Crypto} {MO : MapOrder} {Env : PoolEnv} {BO : BeatOrder}.

(** What the pool relies on of the chain: a block has the number that it is asked for by, which
    is not the predecessor of zero, and transactions that could be encoded. *)
Record ChainOk (chain : blockChain) : Prop := {
  co_number : forall h n b, GetBlock chain h n = Some b -> NumberU64 b = n /\ n < 2 ^ 64 - 1;
  co_txs : forall h n b, GetBlock chain h n = Some b -> forall tx, tx ∈ Transactions b -> tx_ok tx
}.

(** [l] has the transactions of the blocks from [b] down to [c], without those of [c]. *)
Inductive branch (chain : blockChain) : TxBlock -> list Transaction -> TxBlock -> Prop :=
| branch_here b : branch chain b [] b
| branch_step b b' l c : parent_of chain b = Some b' -> branch chain b' l c -> branch chain b (Transactions b ++ l) c.

Lemma branch_app chain b l c l' d : branch chain b l c -> branch chain c l' d -> branch chain b (l ++ l') d.
Proof. induction 1 as [|b b' l c E _ IH]; intros H; [done|]. rewrite <- (assoc_L (++)). econstructor; [done|by apply IH]. Qed.

Lemma NumberU64_nonneg b : 0 <= NumberU64 b.
Proof. unfold NumberU64, big_Uint64. apply u64_range. Qed.

Lemma parent_number chain b b' : ChainOk chain -> parent_of chain b = Some b' -> NumberU64 b' = NumberU64 b - 1 /\ (forall tx, tx ∈ Transactions b' -> tx_ok tx).
Proof.
  intros Hc Hp. unfold parent_of in Hp. destruct (co_number chain Hc _ _ _ Hp) as [H1 H2]. split; [|by eapply co_txs]. rewrite H1.
  assert (is_u64 (NumberU64 b)) as Hu by (unfold NumberU64, big_Uint64; apply u64_range). unfold is_u64 in Hu. destruct (decide (NumberU64 b = 0)) as [E|]; [rewrite E in H2; by vm_compute in H2|].
  rewrite u64_id; [done|unfold is_u64; lia].
Qed.

Lemma branch_ok chain b l c : ChainOk chain -> branch chain b l c -> (forall tx, tx ∈ Transactions b -> tx_ok tx) -> forall tx, tx ∈ l -> tx_ok tx.
Proof.
  intros Hc. induction 1 as [|b b' l c E _ IH]; intros Hb tx Ht; [by apply elem_of_nil in Ht|]. apply elem_of_app in Ht as [|Ht]; [by apply Hb|]. destruct (parent_number chain b b' Hc E) as [_ H]. by apply IH.
Qed.

Lemma branch_number chain b l c : ChainOk chain -> branch chain b l c -> NumberU64 c <= NumberU64 b.
Proof. intros Hc. induction 1 as [|b b' l c E _ IH]; [done|]. destruct (parent_number chain b b' Hc E) as [H1 _]. lia. Qed.

Lemma walk_down_ok chain low : ChainOk chain -> forall fuel b, NumberU64 b - low <= Z.of_nat fuel ->
  walk_down fuel chain b low = Some None \/ exists l c, walk_down fuel chain b low = Some (Some (l, c)) /\ branch chain b l c.
Proof.
  intros Hc. induction fuel as [|fuel IH]; intros b Hf; cbn [walk_down].
  { rewrite decide_False by lia. right. exists [], b. split; [done|constructor]. }
  destruct (decide _) as [Hn|Hn]; [|right; exists [], b; split; [done|constructor]].
  destruct (parent_of chain b) as [b'|] eqn:Hp; [|by left]. destruct (parent_number chain b b' Hc Hp) as [H1 H2]. destruct (IH b' ltac:(lia)) as [->|(l & c & -> & H3)]; [by left|right].
  eexists _, c. split; [done|by econstructor].
Qed.

(** The two branches meet, or one of them ends. *)
Lemma walk_common_ok chain : ChainOk chain -> forall fuel rem add, NumberU64 rem < Z.of_nat fuel ->
  walk_common fuel chain rem add = Some None \/
  exists d i c c', walk_common fuel chain rem add = Some (Some (d, i)) /\ branch chain rem d c /\ branch chain add i c' /\ block_Hash c = block_Hash c'.
Proof.
  intros Hc. induction fuel as [|fuel IH]; intros rem add Hf; cbn [walk_common]; [pose proof (NumberU64_nonneg rem); lia|].
  destruct (decide _) as [E|E]; [right; exists [], [], rem, add; split; [done|]; split; [constructor|]; split; [constructor|done]|].
  destruct (parent_of chain rem) as [rem'|] eqn:Hr; [|by left]. destruct (parent_of chain add) as [add'|] eqn:Ha; [|by left]. destruct (parent_number chain rem rem' Hc Hr) as [H1 _].
  destruct (IH rem' add' ltac:(lia)) as [->|(d & i & c & c' & -> & H2 & H3 & H4)]; [by left|right]. eexists _, _, c, c'. split; [done|]. split; [by econstructor|]. split; [by econstructor|done].
Qed.

(** The branches of a reorganisation: what the old head has from the common block on, and the new head. *)
Definition reorg_branches (chain : blockChain) (oldHead newHead : Types.Header) (d i : list Transaction) : Prop :=
  exists rem add c c', GetBlock chain (Types.Hash oldHead) (big_Uint64 (Types.Number oldHead)) = Some rem /\ GetBlock chain (Types.Hash newHead) (big_Uint64 (Types.Number newHead)) = Some add /\
    branch chain rem d c /\ branch chain add i c' /\ block_Hash c = block_Hash c'.

(** Enough steps for the walk, and a new head that is there. *)
Definition reset_ready (fuel : nat) (chain : blockChain) (oldHead : option Types.Header) (newHead : Types.Header) : Prop :=
  forall old, oldHead = Some old -> big_Uint64 (Types.Number old) < Z.of_nat fuel /\ big_Uint64 (Types.Number newHead) < Z.of_nat fuel /\ GetBlock chain (Types.Hash newHead) (big_Uint64 (Types.Number newHead)) <> None.

(** Nothing is to be added again, or the reset is given up, or it is what the new branch lacks of the old one. *)
Lemma reinject_of_ok fuel chain oldHead newHead : ChainOk chain -> reset_ready fuel chain oldHead newHead ->
  exists r, reinject_of fuel chain oldHead newHead = run (Ret r) /\
    (r = Some [] \/ r = None \/ exists old d i, oldHead = Some old /\ r = Some (TxDifference d i) /\ reorg_branches chain old newHead d i) /\ (forall l tx, r = Some l -> tx ∈ l -> tx_ok tx).
Proof.
  intros Hc Hr. unfold reinject_of. destruct oldHead as [old|]; [|eexists; split; [done|]; split; [by left|by intros l tx [= <-] ?%elem_of_nil]]. destruct (Hr old eq_refl) as (Hf1 & Hf2 & Hnew).
  destruct (decide _); [eexists; split; [done|]; split; [by left|by intros l tx [= <-] ?%elem_of_nil]|]. destruct (decide _); [eexists; split; [done|]; split; [by left|by intros l tx [= <-] ?%elem_of_nil]|].
  destruct (GetBlock chain (Types.Hash old) _) as [rem|] eqn:Hrem; [|destruct (decide _); eexists; (split; [done|]; split; [tauto|]); [done|by intros l tx [= <-] ?%elem_of_nil]].
  destruct (GetBlock chain (Types.Hash newHead) _) as [add|] eqn:Hadd; [|done]. destruct (co_number chain Hc _ _ _ Hrem) as [N1 _]. destruct (co_number chain Hc _ _ _ Hadd) as [N2 _]. pose proof (NumberU64_nonneg add) as Hna. pose proof (NumberU64_nonneg rem) as Hnr.
  destruct (walk_down_ok chain (NumberU64 add) Hc fuel rem ltac:(lia)) as [->|(d1 & c1 & -> & B1)]; [eexists; split; [done|]; split; [tauto|done]|].
  pose proof (NumberU64_nonneg c1). destruct (walk_down_ok chain (NumberU64 c1) Hc fuel add ltac:(lia)) as [->|(i1 & c2 & -> & B2)]; [eexists; split; [done|]; split; [tauto|done]|].
  pose proof (branch_number _ _ _ _ Hc B1). destruct (walk_common_ok chain Hc fuel c1 c2 ltac:(lia)) as [->|(d2 & i2 & c & c' & -> & B3 & B4 & Hh)]; [eexists; split; [done|]; split; [tauto|done]|].
  eexists. split; [done|]. split; [right; right; exists old, (d1 ++ d2), (i1 ++ i2); split; [done|]; split; [done|]; exists rem, add, c, c'; split_and!; try done; by eapply branch_app|].
  intros l tx [= <-] [_ Ht]%list_elem_of_filter. eapply (branch_ok chain rem (d1 ++ d2) c); [done|by eapply branch_app| |done]. by eapply co_txs.
Qed.

(** ** A chain with one genesis *)

Definition in_chain (chain : blockChain) (b : TxBlock) : Prop := exists h n, GetBlock chain h n = Some b.

(** The chain has the parents of its blocks, down to one genesis block. *)
Record rooted (chain : blockChain) : Prop := {
  rt_parent : forall b, in_chain chain b -> 0 < NumberU64 b -> is_Some (parent_of chain b);
  rt_genesis : forall b b', in_chain chain b -> in_chain chain b' -> NumberU64 b = 0 -> NumberU64 b' = 0 -> block_Hash b = block_Hash b'
}.

Lemma parent_in chain b b' : parent_of chain b = Some b' -> in_chain chain b'.
Proof. intros Hp. by eexists _, _. Qed.

(** [bs] are the blocks from [b] down to [c], without [c]. *)
Inductive path (chain : blockChain) : TxBlock -> list TxBlock -> TxBlock -> Prop :=
| path_here b : path chain b [] b
| path_step b b' bs c : parent_of chain b = Some b' -> path chain b' bs c -> path chain b (b :: bs) c.

Definition txs_of (bs : list TxBlock) : list Transaction := bs ≫= Transactions.

Lemma txs_of_app bs bs' : txs_of (bs ++ bs') = txs_of bs ++ txs_of bs'.
Proof. apply bind_app. Qed.

Lemma path_app chain b bs c bs' d : path chain b bs c -> path chain c bs' d -> path chain b (bs ++ bs') d.
Proof. induction 1 as [|b b' bs c E _ IH]; intros H; [done|]. cbn. econstructor; [done|by apply IH]. Qed.

Lemma path_numbers chain b bs c : ChainOk chain -> path chain b bs c -> NumberU64 c <= NumberU64 b /\ forall x, x ∈ bs -> NumberU64 c < NumberU64 x <= NumberU64 b.
Proof.
  intros Hc. induction 1 as [|b b' bs c E _ [IH1 IH2]]; [split; [done|by intros x ?%elem_of_nil]|]. destruct (parent_number chain b b' Hc E) as [H1 _].
  split; [lia|]. intros x [->|Hx]%elem_of_cons; [lia|]. specialize (IH2 x Hx). lia.
Qed.

(** No block is on both branches: blocks of the same number have different hashes. *)
Definition apart (bs bs' : list TxBlock) : Prop :=
  forall x y, x ∈ bs -> y ∈ bs' -> NumberU64 x = NumberU64 y -> block_Hash x <> block_Hash y.

Lemma walk_down_rooted chain low : ChainOk chain -> rooted chain -> 0 <= low -> forall fuel b, in_chain chain b -> NumberU64 b - low <= Z.of_nat fuel ->
  exists bs c, walk_down fuel chain b low = Some (Some (txs_of bs, c)) /\ path chain b bs c /\ in_chain chain c /\ NumberU64 c = Z.min low (NumberU64 b).
Proof.
  intros Hc Hr Hlow. induction fuel as [|fuel IH]; intros b Hb Hf; cbn [walk_down].
  { rewrite decide_False by lia. exists [], b. split; [done|]. split; [constructor|]. split; [done|lia]. }
  destruct (decide _) as [Hn|Hn]; [|exists [], b; split; [done|]; split; [constructor|]; split; [done|lia]].
  destruct (rt_parent chain Hr b Hb ltac:(lia)) as [b' Hp]. rewrite Hp. destruct (parent_number chain b b' Hc Hp) as [H1 _]. destruct (IH b' (parent_in _ _ _ Hp) ltac:(lia)) as (bs & c & -> & H3 & H4 & H5).
  exists (b :: bs), c. split; [done|]. split; [by econstructor|]. split; [done|lia].
Qed.

Lemma walk_common_rooted chain : ChainOk chain -> rooted chain -> forall fuel rem add, in_chain chain rem -> in_chain chain add -> NumberU64 rem = NumberU64 add -> NumberU64 rem < Z.of_nat fuel ->
  exists bs bs' c c', walk_common fuel chain rem add = Some (Some (txs_of bs, txs_of bs')) /\ path chain rem bs c /\ path chain add bs' c' /\ block_Hash c = block_Hash c' /\ apart bs bs'.
Proof.
  intros Hc Hr. induction fuel as [|fuel IH]; intros rem add H1 H2 Hn Hf; cbn [walk_common]; [pose proof (NumberU64_nonneg rem); lia|].
  destruct (decide _) as [E|E]; [exists [], [], rem, add; split; [done|]; split; [constructor|]; split; [constructor|]; split; [done|by intros x y ?%elem_of_nil]|]. pose proof (NumberU64_nonneg rem) as H0.
  assert (0 < NumberU64 rem) as Hpos by (destruct (decide (NumberU64 rem = 0)) as [Ez|]; [destruct E; apply (rt_genesis chain Hr); [done|done|done|congruence]|lia]).
  destruct (rt_parent chain Hr rem H1 Hpos) as [rem' P1]. destruct (rt_parent chain Hr add H2 ltac:(lia)) as [add' P2]. rewrite P1, P2. destruct (parent_number chain _ _ Hc P1) as [N1 _]. destruct (parent_number chain _ _ Hc P2) as [N2 _].
  destruct (IH rem' add' (parent_in _ _ _ P1) (parent_in _ _ _ P2) ltac:(lia) ltac:(lia)) as (bs & bs' & c & c' & -> & H3 & H4 & H5 & H6).
  exists (rem :: bs), (add :: bs'), c, c'. split; [done|]. split; [by econstructor|]. split; [by econstructor|]. split; [done|].
  destruct (path_numbers _ _ _ _ Hc H3) as [_ L1]. destruct (path_numbers _ _ _ _ Hc H4) as [_ L2].
  intros x y [->|Hx]%elem_of_cons [->|Hy]%elem_of_cons Hxy; [done|specialize (L2 y Hy); lia|specialize (L1 x Hx); lia|by apply H6].
Qed.

(** The blocks of the old and of the new head above the highest block that they share. *)
Definition forked (chain : blockChain) (old new : Types.Header) (bs bs' : list TxBlock) : Prop :=
  exists rem add c c', GetBlock chain (Types.Hash old) (big_Uint64 (Types.Number old)) = Some rem /\ GetBlock chain (Types.Hash new) (big_Uint64 (Types.Number new)) = Some add /\
    path chain rem bs c /\ path chain add bs' c' /\ block_Hash c = block_Hash c' /\ apart bs bs'.

(** The old head is there and is not the parent of the new one. *)
Record reorganised (chain : blockChain) (old new : Types.Header) : Prop := {
  ro_parent : Types.Hash old <> Types.ParentHash new;
  ro_old : is_Some (GetBlock chain (Types.Hash old) (big_Uint64 (Types.Number old)))
}.

(** The transactions that a reorganisation takes back: none beyond a depth of 64, else those of the old
    branch that the new one lacks. *)
Definition taken_back (chain : blockChain) (old new : Types.Header) (l : list Transaction) : Prop :=
  if decide (reorg_depth (big_Uint64 (Types.Number old)) (big_Uint64 (Types.Number new)) > 64) then l = []
  else exists bs bs', forked chain old new bs bs' /\ l = TxDifference (txs_of bs) (txs_of bs').

Lemma reinject_rooted fuel chain old new : ChainOk chain -> rooted chain -> reorganised chain old new -> reset_ready fuel chain (Some old) new ->
  exists l, reinject_of fuel chain (Some old) new = run (Ret (Some l)) /\ taken_back chain old new l.
Proof.
  intros Hc Hr [R1 [rem Hrem]] Hrdy. destruct (Hrdy old eq_refl) as (Hf1 & Hf2 & Hnew). unfold reinject_of, taken_back. rewrite decide_False by done.
  destruct (decide _); [by exists []|]. rewrite Hrem. destruct (GetBlock chain (Types.Hash new) _) as [add|] eqn:Hadd; [|done].
  destruct (co_number chain Hc _ _ _ Hrem) as [N1 _]. destruct (co_number chain Hc _ _ _ Hadd) as [N2 _]. pose proof (NumberU64_nonneg add) as Ha0. pose proof (NumberU64_nonneg rem) as Hr0.
  destruct (walk_down_rooted chain (NumberU64 add) Hc Hr Ha0 fuel rem) as (bs1 & c1 & -> & B1 & I1 & M1); [by eexists _, _|lia|].
  destruct (walk_down_rooted chain (NumberU64 c1) Hc Hr (NumberU64_nonneg c1) fuel add) as (bs1' & c2 & -> & B2 & I2 & M2); [by eexists _, _|pose proof (NumberU64_nonneg c1); lia|].
  destruct (walk_common_rooted chain Hc Hr fuel c1 c2 I1 I2) as (bs2 & bs2' & c & c' & -> & B3 & B4 & Hh & Hap); [lia|lia|].
  eexists. split; [done|]. exists (bs1 ++ bs2), (bs1' ++ bs2'). rewrite !txs_of_app. split; [|done].
  exists rem, add, c, c'. split; [done|]. split; [done|]. split; [by eapply path_app|]. split; [by eapply path_app|]. split; [done|].
  destruct (path_numbers _ _ _ _ Hc B1) as [_ L1]. destruct (path_numbers _ _ _ _ Hc B2) as [_ L2]. destruct (path_numbers _ _ _ _ Hc B3) as [_ L3]. destruct (path_numbers _ _ _ _ Hc B4) as [_ L4].
  intros x y [Hx|Hx]%elem_of_app [Hy|Hy]%elem_of_app Hxy; [specialize (L1 x Hx); specialize (L2 y Hy)|specialize (L1 x Hx); specialize (L4 y Hy)|specialize (L3 x Hx); specialize (L2 y Hy)|by apply Hap]; lia.
Qed.
End Reset.

(** ** Runs *)

Section Run.
Context {C : Crypto} {MO : MapOrder} {Env : PoolEnv} {BO : BeatOrder} {CF : ConfigOk}.

(** ** Reset *)

(** The pool reads the state of the new head. *)
Definition at_head (chain : blockChain) (p : TxPool) (newHead : Types.Header) : Prop :=
  exists statedb, StateAt chain (Types.Root newHead) = Some statedb /\ currentState p = statedb /\ currentMaxGas p = Types.GasLimit newHead.

(** The number of transactions that can be added again. *)
Definition reinjected (fuel : nat) (chain : blockChain) (oldHead : option Types.Header) (newHead : Types.Header) : Z :=
  match reinject_of fuel chain oldHead newHead with Some (Ret (Some l)) => zlen l | _ => 0 end.

Lemma PoolInv_state p D s n g : PoolInv p D -> PoolInv (set_state p s n g) D.
Proof. by intros [[] ?]. Qed.
Lemma PoolInv_istanbul p D b : PoolInv p D -> PoolInv (set_istanbul p b) D.
Proof. by intros [[] ?]. Qed.
Lemma PoolInv_nonces p D n : PoolInv p D -> PoolInv (set_nonces p n) D.
Proof. by intros [[] ?]. Qed.

Lemma reset_ok fuel chain p oldHead newHead : PoolInv p [] -> ChainOk chain -> reset_ready fuel chain oldHead newHead ->
  exists p', reset fuel chain p oldHead (Some newHead) = run (Ret p') /\ PoolInv p' [] /\ (p' = p \/ at_head chain p' newHead) /\ zlen (pool_txs p') <= zlen (pool_txs p) + reinjected fuel chain oldHead newHead.
Proof.
  intros Hp Hc Hr. destruct (reinject_of_ok fuel chain oldHead newHead Hc Hr) as (r & E & _ & Hok). unfold reset, reinjected.
  replace (match oldHead with Some _ => reinject_of fuel chain oldHead newHead | None => reinject_of fuel chain oldHead newHead end) with (reinject_of fuel chain oldHead newHead) by (by destruct oldHead).
  rewrite E. cbn [mbind fuelled_bind run default]. change (id newHead) with newHead. destruct r as [l|]; [|exists p; split; [done|]; split; [done|]; split; [by left|lia]]. pose proof (zlen_nonneg l).
  destruct (StateAt chain (Types.Root newHead)) as [sdb|] eqn:Hs; [|exists p; split; [done|]; split; [done|]; split; [by left|lia]].
  set (p1 := set_state p _ _ _). destruct (addTxsLocked_ok l false p1 ∅ (PoolInv_state _ _ _ _ _ Hp)) as (errs & d & p' & -> & H1 & H2 & _ & _ & H5); [intros tx Ht; by eapply Hok|].
  cbn [mbind fuelled_bind run]. eexists. split; [done|]. split; [by apply PoolInv_istanbul|]. split; [|done]. right. exists sdb. destruct H2 as (A1 & A2 & _). split; [done|]. cbn. by rewrite A1, A2.
Qed.

(** A reorganisation moves the pool to the state of the new head and adds what it takes back. *)
Lemma reset_adds fuel chain p old new sdb : PoolInv p [] -> ChainOk chain -> rooted chain -> reorganised chain old new -> reset_ready fuel chain (Some old) new -> StateAt chain (Types.Root new) = Some sdb ->
  exists l errs dirty p', taken_back chain old new l /\
    addTxsLocked (set_state p sdb (newTxNoncer (GetNonce sdb)) (Types.GasLimit new)) l false ∅ = run (Ret (errs, dirty, p')) /\
    reset fuel chain p (Some old) (Some new) = run (Ret (set_istanbul p' (Params.IsIstanbul chainconfig (Types.Number new + 1)))) /\ PoolInv p' [] /\ length errs = length l.
Proof.
  intros Hp Hc Hr Ho Hrdy Hs. destruct (reinject_of_ok fuel chain (Some old) new Hc Hrdy) as (r & E & _ & Hok). destruct (reinject_rooted fuel chain old new Hc Hr Ho Hrdy) as (l & E' & Hl).
  rewrite E' in E. injection E as <-. set (p1 := set_state p sdb _ _).
  destruct (addTxsLocked_ok l false p1 ∅ (PoolInv_state _ _ _ _ _ Hp)) as (errs & d & p' & Ea & H1 & _ & H3 & _); [intros tx Ht; by eapply Hok|].
  exists l, errs, d, p'. split; [done|]. split; [done|]. split; [|done]. unfold reset. rewrite E'. cbn [mbind fuelled_bind run default]. change (id new) with new. rewrite Hs. fold p1. by rewrite Ea.
Qed.

(** ** Events *)

Definition events_ok (ev : queuedEvents) : Prop := map_Forall (fun _ m => wf_map m) ev.

Lemma forward_events_ok addrs : forall p ev D, PoolInv p D -> events_ok ev ->
  exists ev' n, forward_events p ev addrs = run (Ret (ev', set_nonces p n)) /\ events_ok ev'.
Proof.
  induction addrs as [|a addrs IH]; intros p ev D Hp Hev; cbn [forward_events]; [exists ev, (pendingNonces p); split; [by destruct p|done]|].
  destruct (noncer_get (pendingNonces p) a) as [nonce n]. destruct (ev !! a) as [m|] eqn:Ha; [|destruct (IH (set_nonces p n) ev D) as (ev' & n' & -> & H); [by apply PoolInv_nonces|done|by exists ev', n']].
  destruct (sorted_Forward_ok m nonce (Hev a m Ha)) as (m' & -> & Hm' & _). cbn [mbind fuelled_bind run].
  destruct (IH (set_nonces p n) (if decide (sorted_Len m' = 0) then base.delete a ev else <[a := m']> ev) D) as (ev' & n' & -> & H); [by apply PoolInv_nonces| |by exists ev', n'].
  destruct (decide _); [by apply map_Forall_delete|by apply map_Forall_insert_2].
Qed.

(** ** A run *)

(** The part of a run that comes before the promotion. *)
Lemma run_head fuel chain p req dirty ev : PoolInv p [] -> ChainOk chain -> (forall oldHead newHead, req = Some (oldHead, newHead) -> exists h, newHead = Some h /\ reset_ready fuel chain oldHead h) -> events_ok ev ->
  exists addrs ev' p', match req with
    | Some (oldHead, newHead) =>
        p ← reset fuel chain p oldHead newHead;
        '(ev, p) ← forward_events p ev (map_range ev).*1;
        run (Ret ((map_range (queue p)).*1, ev, p))
    | None => run (Ret (default [] dirty, ev, p))
    end = run (Ret (addrs, ev', p')) /\ PoolInv p' [] /\ (req = None -> p' = p) /\
    zlen (pool_txs p') <= zlen (pool_txs p) + match req with Some (o, Some h) => reinjected fuel chain o h | _ => 0 end.
Proof.
  intros Hp Hc Hr Hev. destruct req as [[o nh]|]; [|eexists _, _, p; split_and!; try done; lia]. destruct (Hr o nh eq_refl) as (h & -> & Hh).
  destruct (reset_ok fuel chain p o h Hp Hc Hh) as (p1 & -> & H1 & _ & H3). cbn [mbind fuelled_bind run]. destruct (forward_events_ok (map_range ev).*1 p1 ev [] H1 Hev) as (ev' & n & -> & H4). cbn [mbind fuelled_bind run].
  eexists _, _, _. split; [done|]. split; [by apply PoolInv_nonces|]. split; [done|]. done.
Qed.

Lemma pool_total p : zlen (pool_txs p) = total (pending p) + total (queue p).
Proof. unfold pool_txs, total. apply zlen_app. Qed.

Lemma total_nonneg m : 0 <= total m.
Proof. apply zlen_nonneg. Qed.

Lemma list_at_sorted p D a : PoolInv p D -> StronglySorted before (list_at (pending p) a).
Proof.
  intros [Hp _]. unfold list_at. destruct (pending p !! a) as [l|] eqn:Ha; [|constructor]. apply in_order_sorted. apply wl_keyed. by eapply side_wf, Ha; apply Hp.
Qed.

(** The front of a list that can be executed can be executed. *)
Lemma pending_valid_prefix s p p' a D : PoolInv p D -> pending_valid s p a -> list_at (pending p') a `prefix_of` list_at (pending p) a -> pending_valid s p' a.
Proof.
  intros Hp [H1 H2] [r Hr]. pose proof (list_at_sorted p D a Hp) as Hs. split; [intros x Hx; apply H1; rewrite Hr; set_solver|]. destruct (list_at (pending p') a) as [|x0 l] eqn:El; [by left|right]. destruct H2 as [H2|(x & Hx & En)]; [by rewrite H2 in Hr|].
  exists x0. split; [set_solver|]. rewrite Hr in Hs, Hx. cbn in Hs, Hx. apply StronglySorted_inv in Hs as [_ Hs]. pose proof (H1 x0 ltac:(rewrite Hr; set_solver)) as [Hge _]. apply elem_of_cons in Hx as [->|Hx]; [done|].
  rewrite Forall_forall in Hs. specialize (Hs x ltac:(by apply list_elem_of_In)). unfold before in Hs. lia.
Qed.

(** The pool after a run. *)
Record settled_pool (p : TxPool) : Prop := {
  rs_inv : PoolInv p [];
  rs_queue : total (queue p) <= GlobalQueue config \/ forall a, a ∉ locals p -> list_at (queue p) a = [];
  rs_pending : total (pending p) <= GlobalSlots config \/ forall a, a ∉ locals p -> len p a <= AccountSlots config;
  rs_nonces : forall a, is_Some (pending p !! a) -> nonce_synced p a
}.

(** From the truncations on. *)
Lemma run_tail p : PoolInv p [] -> zlen (pool_txs p) < 2 ^ 63 ->
  exists p1 p2 p3, truncatePending p = run (Ret p1) /\ truncateQueue p1 = run (Ret p2) /\ update_nonces p2 (map_range (pending p2)).*1 = Ret p3 /\ settled_pool p3 /\ framed p p3 /\
    (forall a, list_at (pending p3) a `prefix_of` list_at (pending p) a) /\ (forall a, Z.min (AccountSlots config) (len p a) <= len p3 a) /\ (forall a, a ∈ locals p -> list_at (pending p3) a = list_at (pending p) a /\ list_at (queue p3) a = list_at (queue p) a) /\
    zlen (pool_txs p3) <= zlen (pool_txs p).
Proof.
  intros Hp Hsz. rewrite pool_total in Hsz. pose proof (total_nonneg (queue p)) as Hn1. pose proof (total_nonneg (pending p)) as Hn2. destruct (truncatePending_ok p Hp ltac:(lia)) as (p1 & E1 & (os & Hcut & Hos) & Hlim). destruct Hcut as [A1 A2 A3 A4 A5 A6 A7].
  destruct (truncateQueue_ok p1 A1) as (p2 & E2 & B1 & B2 & B3 & B4 & B5 & B6); [rewrite A3; lia|]. destruct (update_nonces_ok (map_range (pending p2)).*1 p2 [] B1) as (p3 & E3 & D1 & D2 & D3 & D4 & D5 & D6 & _); [intros a; by rewrite range_keys|].
  exists p1, p2, p3. split; [done|]. split; [done|]. split; [done|]. assert (forall a, list_at (pending p3) a = list_at (pending p1) a) as Hl by (intros a; by rewrite (same_list_at _ _ a D5), B3).
  assert (forall a, len p3 a = len p1 a) as Hlen by (intros a; unfold len; by rewrite Hl). assert (total (pending p3) = total (pending p1)) as Ht.
  { pose proof (Permutation_length D3) as E. unfold total in *. pose proof (pool_total p3) as F1. pose proof (pool_total p2) as F2. unfold zlen in F1, F2. rewrite E in F1. unfold total, zlen in *. rewrite D4, B3 in *. lia. }
  assert (total (queue p3) <= total (queue p)) as Htq by (rewrite D4, <- A3; lia).
  split; [split; [done|..]|].
  - destruct B4 as [B4|B4]; [left; by rewrite D4|right]. intros a Ha. rewrite D4. apply B4. by rewrite (fr_locals _ _ D2), (fr_locals _ _ B2) in Ha.
  - destruct Hlim as [Hlim|Hlim]; [left; by rewrite Ht|right]. intros a Ha. rewrite Hlen. apply Hlim. by rewrite (fr_locals _ _ D2), (fr_locals _ _ B2), (fr_locals _ _ A2) in Ha.
  - intros a Ha. apply D6, range_keys. specialize (D5 a). destruct Ha as [l Ha]. rewrite Ha in D5. destruct (pending p2 !! a); [by eexists|done].
  - split; [by rewrite A2, B2|]. split; [intros a; by rewrite Hl|]. split; [intros a; by rewrite Hlen|]. split; [|rewrite !pool_total; lia].
    intros a Ha. rewrite Hl, D4. split; [unfold list_at; rewrite A5; [done|]; intros Hin; by apply (Hos a)|]. rewrite B5; [by rewrite A3|]. by rewrite (fr_locals _ _ A2).
Qed.

(** What a run is asked to do can be done: the heads are there, and the pool can be counted. *)
Record run_ready (fuel : nat) (chain : blockChain) (p : TxPool) (req : option (option Types.Header * option Types.Header)) (ev : queuedEvents) : Prop := {
  rr_chain : ChainOk chain;
  rr_heads : forall oldHead newHead, req = Some (oldHead, newHead) -> exists h, newHead = Some h /\ reset_ready fuel chain oldHead h;
  rr_events : events_ok ev;
  rr_size : zlen (pool_txs p) + match req with Some (o, Some h) => reinjected fuel chain o h | _ => 0 end < 2 ^ 63
}.

Lemma runReorg_ok fuel chain p req dirty ev : PoolInv p [] -> run_ready fuel chain p req ev ->
  exists sent p', runReorg fuel chain p req dirty ev = run (Ret (sent, p')) /\ settled_pool p' /\ (is_Some req -> forall a, pending_valid p' p' a) /\
    zlen (pool_txs p') <= zlen (pool_txs p) + match req with Some (o, Some h) => reinjected fuel chain o h | _ => 0 end.
Proof.
  intros Hp [Hc Hh Hev Hsz]. unfold runReorg. destruct (run_head fuel chain p req dirty ev Hp Hc Hh Hev) as (addrs & ev' & p1 & E1 & H1 & _ & Hs1). rewrite E1. cbn [mbind fuelled_bind run].
  destruct (promoteExecutables_ok addrs p1 H1) as (pr & p2 & -> & H2 & F2 & S2 & _). cbn [mbind fuelled_bind run]. pose proof (pool_sub_size _ _ _ H2 S2) as Hs2.
  assert (exists p3, (if decide (is_Some req) then demoteUnexecutables p2 else run (Ret p2)) = run (Ret p3) /\ PoolInv p3 [] /\ zlen (pool_txs p3) <= zlen (pool_txs p2) /\ (is_Some req -> forall a, pending_valid p3 p3 a)) as (p3 & -> & H3 & Hs3 & Hv3).
  { destruct (decide (is_Some req)) as [Hr|Hr]; [|exists p2; split_and!; try done; lia]. destruct (demoteUnexecutables_ok p2 H2) as (p3 & -> & A1 & A2 & A3 & A4). exists p3. split; [done|]. split; [done|]. split; [by eapply pool_sub_size|].
    intros _ a. by eapply pending_valid_same. }
  cbn [mbind fuelled_bind run]. destruct (run_tail p3 H3 ltac:(lia)) as (p4 & p5 & p6 & -> & E5 & E6 & Hset & Hfr & Hpre & _ & _ & Hs6). cbn [mbind fuelled_bind run]. rewrite E5. cbn [mbind fuelled_bind run]. rewrite E6. cbn [mbind fuelled_bind run].
  eexists _, p6. split; [done|]. split; [done|]. split; [|lia]. intros Hr a. eapply pending_valid_same; [exact Hfr|reflexivity|]. eapply pending_valid_prefix; [exact H3|by apply Hv3|apply Hpre].
Qed.

(** ** Eviction *)

Lemma PoolInv_tick p D : PoolInv p D -> PoolInv (tick p) D.
Proof. by intros [[] ?]. Qed.

Lemma evict_accounts_ok addrs : forall p, PoolInv p [] -> NoDup addrs -> (forall a, a ∈ addrs -> is_Some (queue p !! a)) ->
  exists p', evict_accounts p addrs = run (Ret p') /\ PoolInv p' [] /\ framed p p' /\ pending p' = pending p /\ (forall a, a ∉ addrs \/ a ∈ locals p -> list_at (queue p') a = list_at (queue p) a) /\ zlen (pool_txs p') <= zlen (pool_txs p).
Proof.
  induction addrs as [|a addrs IH]; intros p Hp Hnd Hin; cbn [evict_accounts]; [by exists p|]. apply list.NoDup_cons in Hnd as [Hna Hnd].
  assert (forall q, PoolInv q [] -> framed p q -> pending q = pending p -> (forall c, c <> a -> queue q !! c = queue p !! c) -> (a ∈ locals p -> list_at (queue q) a = list_at (queue p) a) -> zlen (pool_txs q) <= zlen (pool_txs p) ->
    exists p', evict_accounts q addrs = run (Ret p') /\ PoolInv p' [] /\ framed p p' /\ pending p' = pending p /\ (forall c, c ∉ a :: addrs \/ c ∈ locals p -> list_at (queue p') c = list_at (queue p) c) /\ zlen (pool_txs p') <= zlen (pool_txs p)) as Hstep.
  { intros q Hq Hfr Hpe Hqu Hloc Hsz. destruct (IH q Hq Hnd) as (p' & E & K1 & K2 & K3 & K4 & K5); [intros c Hc; rewrite Hqu by (intros ->; done); apply Hin; by constructor|]. exists p'. split; [done|]. split; [done|]. split; [by etrans|]. split; [congruence|]. split; [|lia].
    intros c Hc. rewrite K4; [|destruct Hc as [Hc|Hc]; [left; set_solver|right; by rewrite (fr_locals _ _ Hfr)]]. destruct (decide (c = a)) as [->|Hne]; [|unfold list_at; by rewrite Hqu]. apply Hloc. destruct Hc as [Hc|]; [set_solver|done]. }
  unfold contains. case_bool_decide as Hloc; [by apply Hstep|]. unfold since, now. cbv zeta. pose proof (PoolInv_tick p [] Hp) as Ht. destruct (decide _); [|by apply (Hstep (tick p))].
  destruct (Hin a) as [l Ha]; [by constructor|]. cbn [queue tick]. rewrite Ha. destruct (flatten_queue (tick p) a l Ht Ha) as (l' & -> & H1 & Hsame & _).
  destruct (remove_queued_list (listed l) (set_queue_list (tick p) a l') a [] H1) as (p2 & -> & [K1 K2 K3 K4 K5]); [rewrite app_nil_r, Hsame; cbn; by rewrite (list_at_Some _ _ _ Ha)|]. cbn [mbind fuelled_bind run].
  apply (Hstep p2); [done|by etrans; [|exact K2]|by rewrite K3| |done|].
  - intros c Hc. rewrite K5 by done. cbn. by rewrite lookup_insert_ne.
  - eapply pool_sub_size; [done|]. intros tx Ht2. unfold pool_txs in *. rewrite K3 in Ht2. apply elem_of_app in Ht2 as [Ht2|[c Hc]%elem_of_lists_txs]; apply elem_of_app; [by left|right]. apply elem_of_lists_txs. exists c.
    change (queue p) with (queue (tick p)). rewrite <- (Hsame c). destruct (decide (c = a)) as [->|Hne]; [rewrite K4; set_solver|unfold list_at in *; by rewrite <- K5].
Qed.

Lemma evict_ok p : PoolInv p [] -> exists p', evict p = run (Ret p') /\ PoolInv p' [] /\ framed p p' /\ pending p' = pending p /\ (forall a, a ∈ locals p -> list_at (queue p') a = list_at (queue p) a) /\ zlen (pool_txs p') <= zlen (pool_txs p).
Proof.
  intros Hp. destruct (evict_accounts_ok (map_range (queue p)).*1 p Hp) as (p' & E & H1 & H2 & H3 & H4 & H5); [apply range_NoDup|intros a; by rewrite range_keys|]. exists p'. split_and!; try done. intros a Ha. apply H4. by right.
Qed.
End Run.
