(* ===== verification/TxPoolTheorems.v ===== *)
(** * Theorems about the transaction pool

    Any sequence of operations on a new pool runs without a panic and keeps the pool
    coherent; what each operation does to the transactions of the pool. *)

From stdpp Require Import gmap sorting.
From S2P Require Import Prelude VmPrecompiles BlockTypes ChainConfig GoHeap TxList TxListProofs TxSigning TxByPrice TxLookup.
From S2P Require Import TxPool TxPoolInv TxPoolAdd TxPoolReorg TxPoolLimits TxPoolRun.

(** What [sanitize] makes of the limits. *)
Lemma sanitize_limits conf : let c := sanitize conf in 1 <= AccountSlots c /\ 1 <= GlobalSlots c /\ 1 <= AccountQueue c /\ 1 <= GlobalQueue c /\ 1 <= PriceLimit c /\ 1 <= PriceBump c /\ 1 <= Lifetime c /\ Second <= Rejournal c.
Proof. unfold sanitize, DefaultTxPoolConfig, Hour. change Second with 1000000000. cbn. repeat (destruct (decide _)); lia. Qed.

Section Theorems.
Context {C : Crypto} {MO : MapOrder} {Env : PoolEnv} {BO : BeatOrder} {CF : ConfigOk}.

(** ** Sequences of operations *)

Inductive pool_op :=
| OpAdd (txs : list Transaction) (local : bool)
| OpReorg (fuel : nat) (chain : blockChain) (req : option (option Types.Header * option Types.Header)) (dirty : option (list Z)) (ev : queuedEvents)
| OpSetGasPrice (price : Z)
| OpEvict.

Definition exec_op (p : TxPool) (o : pool_op) : F TxPool :=
  match o with
  | OpAdd txs local => '(_, _, p) ← addTxs p txs local; run (Ret p)
  | OpReorg fuel chain req dirty ev => '(_, p) ← runReorg fuel chain p req dirty ev; run (Ret p)
  | OpSetGasPrice price => SetGasPrice p price
  | OpEvict => evict p
  end.

Fixpoint exec_ops (p : TxPool) (os : list pool_op) : F TxPool :=
  match os with
  | [] => run (Ret p)
  | o :: os => p ← exec_op p o; exec_ops p os
  end.

(** The transactions that an operation can add. *)
Definition op_weight (o : pool_op) : Z :=
  match o with
  | OpAdd txs _ => zlen txs
  | OpReorg fuel chain (Some (old, Some h)) _ _ => reinjected fuel chain old h
  | _ => 0
  end.
Fixpoint weight (os : list pool_op) : Z := match os with [] => 0 | o :: os => op_weight o + weight os end.

(** What is asked for can be done, whatever the pool. *)
Definition op_ok (o : pool_op) : Prop :=
  match o with
  | OpAdd txs _ => forall tx, tx ∈ txs -> tx_ok tx
  | OpReorg fuel chain req _ ev => ChainOk chain /\ events_ok ev /\ forall old new, req = Some (old, new) -> exists h, new = Some h /\ reset_ready fuel chain old h
  | _ => True
  end.

Lemma op_weight_nonneg o : 0 <= op_weight o.
Proof.
  destruct o as [txs l|fuel chain [[old [h|]]|] dirty ev|n|]; cbn; try lia; [apply zlen_nonneg|]. unfold reinjected. destruct (reinject_of _ _ _ _) as [[[l|]| |]|]; try lia. apply zlen_nonneg.
Qed.

Lemma weight_nonneg os : 0 <= weight os.
Proof. induction os as [|o os IH]; cbn; [lia|]. pose proof (op_weight_nonneg o). lia. Qed.

Lemma exec_op_ok p o : PoolInv p [] -> op_ok o -> zlen (pool_txs p) + op_weight o < 2 ^ 63 ->
  exists p', exec_op p o = run (Ret p') /\ PoolInv p' [] /\ zlen (pool_txs p') <= zlen (pool_txs p) + op_weight o.
Proof.
  intros Hp Ho Hs. destruct o as [txs l|fuel chain req dirty ev|n|]; cbn [exec_op].
  - destruct (addTxs_ok p txs l Hp Ho) as (errs & d & p' & -> & H1 & _ & _ & H2). by exists p'.
  - destruct Ho as (H1 & H2 & H3). destruct (runReorg_ok fuel chain p req dirty ev Hp) as (sent & p' & -> & H4 & _ & H5); [split; [done|done|done|destruct req as [[old [h|]]|]; done]|].
    exists p'. split; [done|]. split; [apply H4|]. destruct req as [[old [h|]]|]; done.
  - destruct (SetGasPrice_ok p n Hp) as (p' & -> & H1 & _ & H2 & _). exists p'. split; [done|]. split; [done|]. cbn. rewrite Z.add_0_r. eapply pool_sub_size; [done|]. intros tx Ht. by apply H2.
  - destruct (evict_ok p Hp) as (p' & -> & H1 & _ & _ & _ & H2). exists p'. split; [done|]. split; [done|]. cbn. lia.
Qed.

Lemma exec_ops_ok os : forall p, PoolInv p [] -> (forall o, o ∈ os -> op_ok o) -> zlen (pool_txs p) + weight os < 2 ^ 63 -> exists p', exec_ops p os = run (Ret p') /\ PoolInv p' [].
Proof.
  induction os as [|o os IH]; intros p Hp Hok Hs; [by exists p|]. cbn [exec_ops weight] in *. pose proof (weight_nonneg os).
  destruct (exec_op_ok p o Hp (Hok o ltac:(by constructor)) ltac:(lia)) as (p1 & -> & H1 & H2). cbn [mbind fuelled_bind run]. apply IH; [done|intros; apply Hok; by constructor|lia].
Qed.

Lemma NewTxPool_ok fuel chain : ChainOk chain -> exists p, NewTxPool fuel chain = run (Ret p) /\ PoolInv p [] /\ pool_txs p = [].
Proof.
  intros Hc. unfold NewTxPool. cbv zeta. set (p0 := mk_TxPool _ _ _ _ _ _ _ _ _ _ _ _ _ _).
  assert (PoolInv p0 []) as Hp.
  { split; [|done]. split; [done|done|by intros a x y ?%elem_of_nil|apply lookup_ok_new|apply priced_ok_new|done|by intros a [? ?]|by intros tx ?%elem_of_nil]. }
  destruct (reset_ok fuel chain p0 None (blk_header (CurrentBlock chain)) Hp Hc) as (p & -> & H1 & _ & H2); [done|]. exists p. split; [done|]. split; [done|]. change (zlen (pool_txs p) <= 0) in H2. apply nil_length_inv. unfold zlen in H2. lia.
Qed.

(** ** What can be seen of a pool *)

(** Every transaction is found by its hash and is pending or queued, under its sender and its
    nonce and not under both; the counters tell the numbers; the price heap has every
    remote transaction, and none of these is from a local account. *)
Record coherent (p : TxPool) : Prop := {
  ch_get : forall h tx, pool_Get p h = Some tx <-> tx ∈ pool_txs p /\ tx_Hash tx = h;
  ch_from : forall a tx, tx ∈ list_at (pending p) a \/ tx ∈ list_at (queue p) a -> sender tx = Some a;
  ch_nonces : forall a x y, x ∈ list_at (pending p) a -> y ∈ list_at (queue p) a -> AccountNonce x <> AccountNonce y;
  ch_sorted : forall a, StronglySorted before (list_at (pending p) a) /\ StronglySorted before (list_at (queue p) a);
  ch_pending : forall tx, tx ∈ pool_txs p -> Status p (tx_Hash tx) = TxStatusPending <-> tx ∈ list_at (pending p) (from_of tx);
  ch_queued : forall tx, tx ∈ pool_txs p -> Status p (tx_Hash tx) = TxStatusQueued <-> tx ∈ list_at (queue p) (from_of tx);
  ch_stats : stats p = (total (pending p), total (queue p));
  ch_count : Count (all p) = total (pending p) + total (queue p) /\ Slots (all p) = sum_slots (pool_txs p);
  ch_remotes : forall h tx, lk_remotes (all p) !! h = Some tx -> tx ∈ remotes (priced p) /\ containsTx signer (locals p) tx = false;
  ch_nonempty : forall a l, pending p !! a = Some l \/ queue p !! a = Some l -> list_Empty l = false
}.

Lemma has_nonce_true b m a n : side_ok b m -> has_nonce m a n = true <-> exists x, x ∈ list_at m a /\ AccountNonce x = n.
Proof.
  intros Hm. unfold has_nonce, list_at. destruct (m !! a) as [l|] eqn:Ha; [|split; [done|by intros (x & ?%elem_of_nil & _)]].
  rewrite bool_decide_eq_true. apply lookup_listed. by eapply side_wf.
Qed.

Lemma Status_eq p D tx : PoolInv p D -> tx ∈ pool_txs p ->
  (tx ∈ list_at (pending p) (from_of tx) /\ Status p (tx_Hash tx) = TxStatusPending) \/ (tx ∈ list_at (queue p) (from_of tx) /\ tx ∉ list_at (pending p) (from_of tx) /\ Status p (tx_Hash tx) = TxStatusQueued).
Proof.
  intros [Hp _] Ht. unfold Status, pool_Get. rewrite (proj1 (pool_elem p _ D tx Hp (reflexivity _)) Ht). destruct (locate p _ D tx Hp Ht) as [_ [[Hin Hq]|[Hin Hq]]].
  - left. split; [done|]. assert (has_nonce (pending p) (from_of tx) (AccountNonce tx) = true) as ->; [|done]. eapply has_nonce_true; [apply Hp|]. by exists tx.
  - right. split; [done|]. split; [intros Hc; by apply (Hq tx)|]. destruct (has_nonce (pending p) (from_of tx) (AccountNonce tx)) eqn:E; [eapply has_nonce_true in E as (x & Hx & En); [by destruct (Hq x Hx)|apply Hp]|].
    assert (has_nonce (queue p) (from_of tx) (AccountNonce tx) = true) as ->; [|done]. eapply has_nonce_true; [apply Hp|]. by exists tx.
Qed.

Lemma sum_fold (l : list (Z * txList)) : forall n, fold_left (fun n kv => n + list_Len kv.2) l n = n + sum_lens l.
Proof. induction l as [|kv l IH]; intros n; cbn [fold_left sum_lens]; [lia|]. rewrite IH. lia. Qed.

Lemma side_sorted b m a : side_ok b m -> StronglySorted before (list_at m a).
Proof. intros Hm. unfold list_at. destruct (m !! a) as [l|] eqn:Ha; [|constructor]. apply in_order_sorted, wl_keyed. by eapply side_wf. Qed.

Lemma PoolInv_coherent p : PoolInv p [] -> coherent p.
Proof.
  intros HP. pose proof HP as [Hp [Hf1 Hf2]]. split.
  - intros h tx. apply Get_elem, Hp.
  - intros a tx [Ht|Ht]; eapply side_good in Ht as [Hs _]; [done|apply Hp|done|apply Hp].
  - intros a. apply Hp.
  - intros a. split; eapply side_sorted; apply Hp.
  - intros tx Ht. destruct (Status_eq p [] tx HP Ht) as [[? ->]|(? & ? & ->)]; done.
  - intros tx Ht. destruct (Status_eq p [] tx HP Ht) as [[Hin ->]|(? & ? & ->)]; [|done]. split; [done|]. intros Hq. by destruct (inv_disj _ _ _ Hp _ tx tx Hin Hq).
  - unfold stats. rewrite !sum_fold, !map_range_perm, !sum_lens_total. done.
  - split; [rewrite (Count_length _ _ (inv_all _ _ _ Hp)); apply pool_total|apply (lk_slots _ _ (inv_all _ _ _ Hp))].
  - intros h tx Hh. split; [|by eapply inv_locals]. by destruct (pr_covers _ _ _ (inv_priced _ _ _ Hp) h tx Hh) as [|?%elem_of_nil].
  - intros a l Hl. destruct (list_Empty l) eqn:He; [|done]. apply list_Empty_true in He. destruct Hl as [Hl|Hl]; [by destruct (Hf1 a l Hl)|by destruct (Hf2 a l Hl)].
Qed.

(** ** What the miner is given *)

(** [Pending] gives the pending transactions by account, and only caches what it gives. *)
Lemma Pending_ok p : PoolInv p [] -> by_account signer (Pending p).1 /\ (forall a, default [] ((Pending p).1 !! a) = list_at (pending p) a) /\ pool_txs (Pending p).2 = pool_txs p.
Proof.
  intros [Hp [Hf _]]. unfold Pending, flatten_lists. cbn [fst snd]. assert (forall a l, pending p !! a = Some l -> wf_list l) as Hw by (intros a l Ha; eapply side_wf, Ha; apply Hp).
  assert (forall a l, pending p !! a = Some l -> (list_Flatten l).1 = listed l /\ listed (list_Flatten l).2 = listed l) as Hl.
  { intros a l Ha. destruct (list_Flatten_ok l (Hw a l Ha)) as (l' & -> & _ & _ & E). split; [done|]. unfold listed. cbn. by rewrite E. }
  split_and!.
  - intros a l Ha. rewrite lookup_fmap in Ha. destruct (pending p !! a) as [l0|] eqn:E; [|done]. injection Ha as <-. destruct (Hl a l0 E) as [-> _]. split; [by apply (Hf a)|].
    intros x Hx. eapply side_list in Hx as [Hs _]; [|apply Hp|exact E]. unfold acc_of. change (Sender signer x) with (sender x). by rewrite Hs.
  - intros a. rewrite lookup_fmap. unfold list_at. destruct (pending p !! a) as [l|] eqn:E; [|done]. cbn. by apply (Hl a).
  - unfold pool_txs, lists_txs. cbn [pending queue set_pending]. f_equal. rewrite map_to_list_fmap, <- !list_fmap_compose. f_equal. apply list_fmap_ext. intros i [a l] Hi. cbn. apply (Hl a). apply elem_of_map_to_list. by eapply list_elem_of_lookup_2.
Qed.

(** The transactions of a block: those of each account by increasing nonces, up to the first that fails,
    and the best of the next ones first. *)
Lemma pending_drained p runs fuel : PoolInv p [] -> (count_txs (Pending p).1 <= fuel)%nat ->
  exists t l, NewTransactionsByPriceAndNonce signer (Pending p).1 = Ret t /\ drain signer fuel runs t = run (Ret l) /\ greedy signer l /\
    forall a, of_acc signer a l = upto runs (list_at (pending p) a) /\ StronglySorted before (list_at (pending p) a).
Proof.
  intros HP Hf. pose proof HP as [Hp _]. destruct (Pending_ok p HP) as (H1 & H2 & _). destruct (New_ok signer _ H1) as (t & E & Hw & Hl & Hc). destruct (drain_ok signer runs fuel t Hw) as (l & E' & H3 & H4); [by rewrite Hc|].
  exists t, l. split; [done|]. split; [done|]. split; [done|]. intros a. rewrite H3, Hl, H2. split; [done|]. eapply side_sorted, Hp.
Qed.

(** ** The theorems *)

(** C5: Whatever batches of transactions a new pool takes, however the chain is
    reorganised under it, prices are set and quiet accounts are evicted, no operation
    panics or fails to end, and the pool that results is coherent: the lookup has the
    transactions of the pending and queued lists and no others, each under its hash,
    its sender and its nonce, and only there; the counters, the slots and the price heap
    agree with the lists. *)
Theorem pool_safe fuel chain os : ChainOk chain -> (forall o, o ∈ os -> op_ok o) -> weight os < 2 ^ 63 ->
  exists p0 p, NewTxPool fuel chain = run (Ret p0) /\ exec_ops p0 os = run (Ret p) /\ coherent p.
Proof.
  intros Hc Hok Hw. destruct (NewTxPool_ok fuel chain Hc) as (p0 & E & Hp & Hnil). destruct (exec_ops_ok os p0 Hp Hok) as (p & E' & Hp'); [rewrite Hnil; exact Hw|].
  exists p0, p. split; [done|]. split; [done|]. by apply PoolInv_coherent.
Qed.

(** C9: After a run of the reorganiser the pool is within its limits, or only local accounts
    are queued, or no account that is not local has more pending transactions than it is
    guaranteed; the next nonce of every account with pending transactions is one more than
    that of its last one; and after a reset every pending transaction can be paid for and
    is not in the past, and each account's next transaction is there. *)
Theorem runReorg_settles fuel chain p req dirty ev : PoolInv p [] -> run_ready fuel chain p req ev ->
  exists sent p', runReorg fuel chain p req dirty ev = run (Ret (sent, p')) /\ coherent p' /\
    (total (queue p') <= GlobalQueue config \/ forall a, a ∉ locals p' -> list_at (queue p') a = []) /\
    (total (pending p') <= GlobalSlots config \/ forall a, a ∉ locals p' -> len p' a <= AccountSlots config) /\
    (forall a, is_Some (pending p' !! a) -> nonce_synced p' a) /\ (is_Some req -> forall a, pending_valid p' p' a).
Proof.
  intros Hp Hr. destruct (runReorg_ok fuel chain p req dirty ev Hp Hr) as (sent & p' & E & [H1 H2 H3 H4] & H5 & _). exists sent, p'. split; [done|]. split; [by apply PoolInv_coherent|]. done.
Qed.

(** C13: Adding a transaction never panics and leaves the pool coherent. If it is accepted it
    is in the pool, in the place of the one with the same sender and nonce if there was
    one, whose price it exceeds by the configured bump; to make room for it only remote
    transactions are dropped, also when it is refused in the end. *)
Theorem add_outcome p tx local : PoolInv p [] -> tx_ok tx ->
  exists r p' q, add p tx local = run (Ret (r, p')) /\ coherent p' /\
    (forall x, x ∈ pool_txs q -> x ∈ pool_txs p) /\ (forall x, x ∈ pool_txs p -> is_local p x -> x ∈ pool_txs q) /\
    match r with
    | inl _ => pool_txs p' = pool_txs q
    | inr replaced => exists old, option_list old ++ pool_txs p' ≡ₚ tx :: pool_txs q /\ replaced = bool_decide (is_Some old) /\
        forall o, old = Some o -> from_of o = from_of tx /\ AccountNonce o = AccountNonce tx /\ outbids (PriceBump config) o tx
    end.
Proof.
  intros Hp Hok. destruct (add_ok p tx local Hp Hok) as (r & p' & E & [H1 _ _ (q & [_ _ H2 H3] & H4)]). exists r, p', q. split; [done|]. split; [by apply PoolInv_coherent|]. done.
Qed.

(** [SetGasPrice] drops every remote transaction below the new price, and no local one. *)
Theorem SetGasPrice_drops p price : PoolInv p [] ->
  exists p', SetGasPrice p price = run (Ret p') /\ coherent p' /\ gasPrice p' = price /\
    (forall tx, tx ∈ pool_txs p' -> tx ∈ pool_txs p /\ (price <= Price tx \/ is_local p tx)) /\ (forall tx, tx ∈ pool_txs p -> is_local p tx -> tx ∈ pool_txs p').
Proof.
  intros Hp. destruct (SetGasPrice_ok p price Hp) as (p' & E & H1 & H2). exists p'. split; [done|]. split; [by apply PoolInv_coherent|]. done.
Qed.

(** C19: [truncatePending] brings the pending transactions down to the global limit, or
    every account that is not local down to what it is guaranteed. It only takes the
    last transactions of an account, never goes below the guarantee and never touches
    a local account or the queue. *)
Theorem truncatePending_fair p : PoolInv p [] -> total (pending p) < 2 ^ 63 ->
  exists p', truncatePending p = run (Ret p') /\ coherent p' /\ queue p' = queue p /\
    (total (pending p') <= GlobalSlots config \/ forall a, a ∉ locals p -> len p' a <= AccountSlots config) /\
    (forall a, list_at (pending p') a `prefix_of` list_at (pending p) a) /\ (forall a, Z.min (AccountSlots config) (len p a) <= len p' a) /\
    (forall a, a ∈ locals p -> list_at (pending p') a = list_at (pending p) a).
Proof.
  intros Hp Ht. destruct (truncatePending_ok p Hp Ht) as (p' & E & (os & [A1 A2 A3 A4 A5 A6 A7] & Hos) & Hlim). exists p'. split; [done|]. split; [by apply PoolInv_coherent|]. split_and!; try done.
  intros a Ha. unfold list_at. rewrite A5; [done|]. intros Hin. by apply (Hos a).
Qed.

(** C20: On a chain with one genesis block, when the new head does not follow the old one, both
    are in the chain and the state of the new head is available, a reset moves the pool to that state and
    hands to [addTxsLocked], as remote transactions, exactly these: none if the heights of the heads
    differ by more than 64, else those of the abandoned blocks above the highest common block that
    the blocks of the new branch above it do not have.  The pool that the reset returns is the pool
    that [addTxsLocked] returns, with the rules of the next block, and is coherent. *)
Theorem reinject_exact fuel chain p old new sdb : PoolInv p [] -> ChainOk chain -> rooted chain -> reorganised chain old new -> reset_ready fuel chain (Some old) new -> StateAt chain (Types.Root new) = Some sdb ->
  exists l errs dirty p', taken_back chain old new l /\
    addTxsLocked (set_state p sdb (newTxNoncer (GetNonce sdb)) (Types.GasLimit new)) l false ∅ = run (Ret (errs, dirty, p')) /\
    reset fuel chain p (Some old) (Some new) = run (Ret (set_istanbul p' (Params.IsIstanbul chainconfig (Types.Number new + 1)))) /\ coherent p' /\ length errs = length l.
Proof.
  intros Hp Hc Hr Ho Hrdy Hs. destruct (reset_adds fuel chain p old new sdb Hp Hc Hr Ho Hrdy Hs) as (l & errs & d & p' & H1 & H2 & H3 & H4 & H5).
  exists l, errs, d, p'. split; [done|]. split; [done|]. split; [done|]. split; [by apply PoolInv_coherent|done].
Qed.
End Theorems.
