(* ===== verification/TxPoolSched.v ===== *)
(** * The scheduler of the pool (core/tx_pool.go)

    [scheduleReorgLoop] merges the requests for a reset or a promotion and lets one
    [runReorg] at a time work them off in the background, while transactions are added
    by others and the loop of the pool reports new heads.  A request is answered with a
    channel that is closed after the run that serves it.  Channels are numbered in the
    order in which they are made. *)

From stdpp Require Import gmap sorting relations.
From S2P Require Import Prelude VmPrecompiles BlockTypes ChainConfig GoHeap TxList TxListProofs TxSigning TxLookup.
From S2P Require Import TxPool TxPoolInv TxPoolAdd TxPoolReorg TxPoolLimits TxPoolRun TxPoolTheorems.

(** ** The loop *)

Record txpoolResetRequest := mk_reset { rq_old : option Types.Header; rq_new : option Types.Header }.

(** The arguments of a [runReorg] that was started. *)
Record reorg_run := mk_run {
  run_done : nat;
  run_reset : option txpoolResetRequest;
  run_dirty : option accountSet;
  run_events : queuedEvents
}.

(** The variables of the loop. *)
Record loop_state := mk_loop {
  curDone : option nat;
  nextDone : nat;
  launchNextRun : bool;
  lp_reset : option txpoolResetRequest;
  dirtyAccounts : option accountSet;
  lp_events : queuedEvents
}.

Definition start_loop : loop_state := mk_loop None O false None None ∅.

Section Loop.
Context {C : Crypto} {MO : MapOrder} {Env : PoolEnv}.

(** The head of the loop: a new run, if one is asked for and none is active. *)
Definition launch (s : loop_state) : loop_state * option reorg_run :=
  match curDone s with
  | Some _ => (s, None)
  | None =>
      if launchNextRun s then
        (mk_loop (Some (nextDone s)) (S (nextDone s)) false None None ∅, Some (mk_run (nextDone s) (lp_reset s) (dirtyAccounts s) (lp_events s)))
      else (s, None)
  end.

(** The cases of the [select]. *)
Definition on_reset (s : loop_state) (req : txpoolResetRequest) : nat * loop_state :=
  let reset := match lp_reset s with None => req | Some r => mk_reset (rq_old r) (rq_new req) end in
  (nextDone s, mk_loop (curDone s) (nextDone s) true (Some reset) (dirtyAccounts s) (lp_events s)).

(** [accountSet.merge]. *)
Definition merge (s req : accountSet) : accountSet := s ∪ req.

Definition on_promote (s : loop_state) (req : accountSet) : nat * loop_state :=
  let dirty := match dirtyAccounts s with None => req | Some d => merge d req end in
  (nextDone s, mk_loop (curDone s) (nextDone s) true (lp_reset s) (Some dirty) (lp_events s)).

Definition on_event (s : loop_state) (tx : Transaction) : loop_state :=
  mk_loop (curDone s) (nextDone s) (launchNextRun s) (lp_reset s) (dirtyAccounts s) (put_event (lp_events s) tx).

Definition on_done (s : loop_state) : loop_state := mk_loop None (nextDone s) (launchNextRun s) (lp_reset s) (dirtyAccounts s) (lp_events s).
End Loop.

(** A request, as it is accepted. *)
Inductive request := RqReset (req : txpoolResetRequest) | RqPromote (req : accountSet).

(** ** The pool with its goroutines *)

Record world := mk_world {
  w_pool : TxPool;
  w_loop : loop_state;
  w_runs : list reorg_run;          (** the runs that are active *)
  w_closed : gset nat;              (** the channels that are closed *)
  w_up : bool;                      (** the loop has not returned *)
  w_head : Types.Header;            (** the variable [head] of [loop] *)
  w_asks : list accountSet;         (** the callers of [addTxs] that will ask for a promotion *)
  w_accepted : list (nat * request); (** history: the requests, and the channels they were answered with *)
  w_launched : list reorg_run       (** history: the runs *)
}.

Section Sched.
Context {C : Crypto} {MO : MapOrder} {Env : PoolEnv} {BO : BeatOrder} {CF : ConfigOk}.
(** The blocks that are ever announced, and a bound for their numbers. *)
Context (fuel : nat) (chain : blockChain).

Definition reset_args (r : option txpoolResetRequest) : option (option Types.Header * option Types.Header) := (fun q => (rq_old q, rq_new q)) <$> r.

(** The addresses that a run is to promote come in any order. *)
Definition flattens (d : option accountSet) (l : option (list Z)) : Prop :=
  match d, l with Some s, Some l => l ≡ₚ elements s | None, None => True | _, _ => False end.

(** The transactions that a reset can add. *)
Definition reinjects (r : option txpoolResetRequest) : Z :=
  match r with Some q => match rq_new q with Some h => reinjected fuel chain (rq_old q) h | None => 0 end | None => 0 end.

Definition set_pool (w : world) (p : TxPool) : world := mk_world p (w_loop w) (w_runs w) (w_closed w) (w_up w) (w_head w) (w_asks w) (w_accepted w) (w_launched w).
Definition set_loop (w : world) (s : loop_state) : world := mk_world (w_pool w) s (w_runs w) (w_closed w) (w_up w) (w_head w) (w_asks w) (w_accepted w) (w_launched w).

Definition accept (w : world) (q : request) (ns : nat * loop_state) : world :=
  mk_world (w_pool w) ns.2 (w_runs w) (w_closed w) (w_up w) (w_head w) (w_asks w) (w_accepted w ++ [(ns.1, q)]) (w_launched w).

(** The [select] is reached: there is nothing to launch. *)
Definition selecting (w : world) : Prop := w_up w = true /\ launch (w_loop w) = (w_loop w, None).

(** What the loop and the runs do on their own. *)
Inductive internal (w : world) : world -> Prop :=
| i_launch s r : w_up w = true -> launch (w_loop w) = (s, Some r) ->
    internal w (mk_world (w_pool w) s (w_runs w ++ [r]) (w_closed w) (w_up w) (w_head w) (w_asks w) (w_accepted w) (w_launched w ++ [r]))
| i_run l1 r l2 addrs sent p : w_runs w = l1 ++ r :: l2 -> flattens (run_dirty r) addrs -> zlen (pool_txs (w_pool w)) + reinjects (run_reset r) < 2 ^ 63 ->
    runReorg fuel chain (w_pool w) (reset_args (run_reset r)) addrs (run_events r) = run (Ret (sent, p)) ->
    internal w (mk_world p (w_loop w) (l1 ++ l2) ({[run_done r]} ∪ w_closed w) (w_up w) (w_head w) (w_asks w) (w_accepted w) (w_launched w))
| i_done d : selecting w -> curDone (w_loop w) = Some d -> d ∈ w_closed w -> internal w (set_loop w (on_done (w_loop w)))
| i_event tx rest : selecting w -> events (w_pool w) = tx :: rest -> internal w (set_loop (set_pool w (set_events (w_pool w) rest)) (on_event (w_loop w) tx)).

(** What happens to them. *)
Inductive external (w : world) : world -> Prop :=
| e_add txs local errs d p : (forall tx, tx ∈ txs -> tx_ok tx) -> addTxs (w_pool w) txs local = run (Ret (errs, d, p)) ->
    external w (mk_world p (w_loop w) (w_runs w) (w_closed w) (w_up w) (w_head w) (w_asks w ++ option_list d) (w_accepted w) (w_launched w))
| e_promote l1 q l2 : selecting w -> w_asks w = l1 ++ q :: l2 ->
    external w (accept (mk_world (w_pool w) (w_loop w) (w_runs w) (w_closed w) (w_up w) (w_head w) (l1 ++ l2) (w_accepted w) (w_launched w)) (RqPromote q) (on_promote (w_loop w) q))
| e_head b : selecting w -> big_Uint64 (Types.Number b) < Z.of_nat fuel -> GetBlock chain (Types.Hash b) (big_Uint64 (Types.Number b)) <> None ->
    let q := mk_reset (Some (w_head w)) (Some b) in
    external w (accept (mk_world (w_pool w) (w_loop w) (w_runs w) (w_closed w) (w_up w) b (w_asks w) (w_accepted w) (w_launched w)) (RqReset q) (on_reset (w_loop w) q))
| e_price price p : SetGasPrice (w_pool w) price = run (Ret p) -> external w (set_pool w p)
| e_evict p : evict (w_pool w) = run (Ret p) -> external w (set_pool w p)
| e_stop : selecting w -> (forall d, curDone (w_loop w) = Some d -> d ∈ w_closed w) ->
    external w (mk_world (w_pool w) (w_loop w) (w_runs w) ({[nextDone (w_loop w)]} ∪ w_closed w) false (w_head w) (w_asks w) (w_accepted w) (w_launched w)).

Definition wstep (w w' : world) : Prop := internal w w' \/ external w w'.

(** A new pool, with the loop started. *)
Definition boots (w : world) : Prop :=
  exists p, NewTxPool fuel chain = run (Ret p) /\ w = mk_world p start_loop [] ∅ true (blk_header (CurrentBlock chain)) [] [] [].

Definition reachable (w : world) : Prop := exists w0, boots w0 /\ rtc wstep w0 w.

(** ** What the scheduler promises *)

(** The requests that were answered with a channel. *)
Definition asked (acc : list (nat * request)) (d : nat) : list request := omap (fun x => if decide (x.1 = d) then Some x.2 else None) acc.

Definition resets_of (l : list request) : list txpoolResetRequest := omap (fun q => match q with RqReset r => Some r | RqPromote _ => None end) l.
Definition promotes_of (l : list request) : list accountSet := omap (fun q => match q with RqReset _ => None | RqPromote s => Some s end) l.

(** What is to be done for a list of requests: a reset from the first old head to the last new
    one, and a promotion of all accounts that are named. *)
Definition merged_reset (l : list request) : option txpoolResetRequest :=
  match resets_of l with [] => None | q :: qs => Some (mk_reset (rq_old q) (rq_new (List.last qs q))) end.
Definition merged_dirty (l : list request) : option accountSet :=
  match promotes_of l with [] => None | ss => Some (⋃ ss) end.

(** Each reset starts from the head that the one before went to. *)
Fixpoint linked (h : Types.Header) (l : list txpoolResetRequest) (last : Types.Header) : Prop :=
  match l with
  | [] => h = last
  | q :: l => rq_old q = Some h /\ exists h', rq_new q = Some h' /\ linked h' l last
  end.

(** The resets that were run, and that which is to come. *)
Definition resets (w : world) : list txpoolResetRequest := omap run_reset (w_launched w) ++ option_list (lp_reset (w_loop w)).

Definition known (b : Types.Header) : Prop := big_Uint64 (Types.Number b) < Z.of_nat fuel /\ GetBlock chain (Types.Hash b) (big_Uint64 (Types.Number b)) <> None.

Definition known_reset (r : option txpoolResetRequest) : Prop :=
  forall q, r = Some q -> (exists b, rq_new q = Some b /\ known b) /\ forall o, rq_old q = Some o -> big_Uint64 (Types.Number o) < Z.of_nat fuel.

Record sched_inv (w : world) : Prop := {
  si_pool : PoolInv (w_pool w) [];
  si_cur : match curDone (w_loop w) with
    | None => w_runs w = []
    | Some d => (d < nextDone (w_loop w))%nat /\ ((w_runs w = [] /\ d ∈ w_closed w) \/ exists r, w_runs w = [r] /\ run_done r = d /\ d ∉ w_closed w)
    end;
  si_down : w_up w = false -> w_runs w = [];
  si_closed : w_up w = true -> forall d, d ∈ w_closed w -> exists r, r ∈ w_launched w /\ run_done r = d;
  si_launch : launchNextRun (w_loop w) = true <-> is_Some (lp_reset (w_loop w)) \/ is_Some (dirtyAccounts (w_loop w));
  si_events : events_ok (lp_events (w_loop w)) /\ forall r, r ∈ w_runs w -> events_ok (run_events r);
  si_known : known_reset (lp_reset (w_loop w)) /\ forall r, r ∈ w_runs w -> known_reset (run_reset r);
  si_channels : forall d q, (d, q) ∈ w_accepted w -> d = nextDone (w_loop w) \/ exists r, r ∈ w_launched w /\ run_done r = d;
  si_next : lp_reset (w_loop w) = merged_reset (asked (w_accepted w) (nextDone (w_loop w))) /\ dirtyAccounts (w_loop w) = merged_dirty (asked (w_accepted w) (nextDone (w_loop w)));
  si_merged : forall r, r ∈ w_launched w -> run_reset r = merged_reset (asked (w_accepted w) (run_done r)) /\ run_dirty r = merged_dirty (asked (w_accepted w) (run_done r));
  si_old : forall r, r ∈ w_launched w -> (run_done r < nextDone (w_loop w))%nat /\ (r ∈ w_runs w \/ run_done r ∈ w_closed w);
  si_unique : NoDup (run_done <$> w_launched w);
  si_linked : linked (blk_header (CurrentBlock chain)) (resets w) (w_head w);
  si_head : big_Uint64 (Types.Number (w_head w)) < Z.of_nat fuel;
  si_runs : forall r, r ∈ w_runs w -> r ∈ w_launched w
}.

(** *** Merging *)

Lemma asked_app acc d q : asked (acc ++ [(d, q)]) d = asked acc d ++ [q].
Proof. unfold asked. rewrite omap_app. cbn. by rewrite decide_True. Qed.

Lemma asked_other acc d d' q : d <> d' -> asked (acc ++ [(d, q)]) d' = asked acc d'.
Proof. intros Hd. unfold asked. rewrite omap_app. cbn. rewrite decide_False by done. apply app_nil_r. Qed.

Lemma asked_none acc d : (forall q, (d, q) ∉ acc) -> asked acc d = [].
Proof.
  intros H. destruct (asked acc d) as [|q l] eqn:E; [done|]. assert (q ∈ asked acc d) as Hq by (rewrite E; constructor).
  apply list_elem_of_omap in Hq as ([d' q'] & Hin & Hx). cbn in Hx. destruct (decide (d' = d)) as [->|]; [|done]. by destruct (H q').
Qed.

Lemma merged_reset_app l q : merged_reset (l ++ [RqReset q]) = Some (match merged_reset l with None => q | Some r => mk_reset (rq_old r) (rq_new q) end).
Proof.
  unfold merged_reset, resets_of. rewrite omap_app. cbn. destruct (omap _ l) as [|r rs]; cbn [app]; [by destruct q|]. by rewrite List.last_last.
Qed.

Lemma merged_reset_promote l s : merged_reset (l ++ [RqPromote s]) = merged_reset l.
Proof. unfold merged_reset, resets_of. rewrite omap_app. cbn. by rewrite app_nil_r. Qed.

Lemma merged_dirty_app l s : merged_dirty (l ++ [RqPromote s]) = Some (match merged_dirty l with None => s | Some d => merge d s end).
Proof.
  unfold merged_dirty, promotes_of, merge. rewrite omap_app. cbn. destruct (omap _ l) as [|r rs]; cbn [app union_list foldr]; f_equal; [set_solver|]. rewrite union_list_app_L. cbn. set_solver.
Qed.

Lemma merged_dirty_reset l q : merged_dirty (l ++ [RqReset q]) = merged_dirty l.
Proof. unfold merged_dirty, promotes_of. rewrite omap_app. cbn. by rewrite app_nil_r. Qed.

Lemma asked_some acc d q : (d, q) ∈ acc -> is_Some (merged_reset (asked acc d)) \/ is_Some (merged_dirty (asked acc d)).
Proof.
  intros Hq. assert (q ∈ asked acc d) as Hin by (apply list_elem_of_omap; exists (d, q); split; [done|cbn; by rewrite decide_True]). unfold merged_reset, merged_dirty. destruct q as [r|s].
  - left. assert (r ∈ resets_of (asked acc d)) as H by (apply list_elem_of_omap; by eexists). destruct (resets_of _); [by apply elem_of_nil in H|by eexists].
  - right. assert (s ∈ promotes_of (asked acc d)) as H by (apply list_elem_of_omap; by eexists). destruct (promotes_of _); [by apply elem_of_nil in H|by eexists].
Qed.

Lemma linked_snoc l : forall h q b, linked h (l ++ [q]) b <-> exists m, linked h l m /\ rq_old q = Some m /\ rq_new q = Some b.
Proof.
  induction l as [|r l IH]; intros h q b; cbn [app linked].
  - split; [intros (? & h' & ? & ->); by exists h|intros (m & -> & ? & ?); split; [done|by exists b]].
  - split.
    + intros (? & h' & ? & (m & ? & ? & ?)%IH). exists m. split; [|done]. split; [done|by exists h'].
    + intros (m & (? & h' & ? & ?) & ? & ?). split; [done|]. exists h'. split; [done|]. apply IH. by exists m.
Qed.

(** *** Every step keeps the promise *)

Lemma put_event_ok ev tx : events_ok ev -> is_u64 (AccountNonce tx) -> events_ok (put_event ev tx).
Proof.
  intros Hev Hu. unfold put_event. apply map_Forall_insert_2; [|done]. apply sorted_Put_ok; [|done]. destruct (ev !! _) as [m|] eqn:E; [by eapply Hev|apply wf_new].
Qed.

Lemma known_ready r : known_reset r -> forall old new, reset_args r = Some (old, new) -> exists h, new = Some h /\ reset_ready fuel chain old h.
Proof.
  intros Hk old new E. destruct r as [q|]; [|done]. injection E as <- <-. destruct (Hk q eq_refl) as [(b & Eb & Hb1 & Hb2) Ho]. exists b. split; [done|]. intros o Eo. split; [by apply Ho|done].
Qed.

Lemma set_pool_inv w p asks : sched_inv w -> PoolInv p [] -> sched_inv (mk_world p (w_loop w) (w_runs w) (w_closed w) (w_up w) (w_head w) asks (w_accepted w) (w_launched w)).
Proof. by intros [] ?. Qed.

Lemma launch_None s : launch s = (s, None) -> curDone s <> None \/ launchNextRun s = false.
Proof. unfold launch. destruct (curDone s); [by left|]. destruct (launchNextRun s); [done|by right]. Qed.

Lemma launch_Some s s' r : launch s = (s', Some r) ->
  curDone s = None /\ launchNextRun s = true /\ s' = mk_loop (Some (nextDone s)) (S (nextDone s)) false None None ∅ /\ r = mk_run (nextDone s) (lp_reset s) (dirtyAccounts s) (lp_events s).
Proof. unfold launch. destruct (curDone s); [done|]. destruct (launchNextRun s); [|done]. by intros [= <- <-]. Qed.

(** The next channel is new. *)
Lemma next_fresh w r : sched_inv w -> r ∈ w_launched w -> run_done r <> nextDone (w_loop w).
Proof. intros Hw Hr. destruct (si_old w Hw r Hr) as [H _]. lia. Qed.

Lemma asked_next w : sched_inv w -> asked (w_accepted w) (S (nextDone (w_loop w))) = [].
Proof. intros Hw. apply asked_none. intros q Hq. destruct (si_channels w Hw _ _ Hq) as [E|(r & Hr & E)]; [lia|]. destruct (si_old w Hw r Hr) as [H _]. lia. Qed.

Lemma i_launch_inv w s r : sched_inv w -> w_up w = true -> launch (w_loop w) = (s, Some r) ->
  sched_inv (mk_world (w_pool w) s (w_runs w ++ [r]) (w_closed w) (w_up w) (w_head w) (w_asks w) (w_accepted w) (w_launched w ++ [r])).
Proof.
  intros Hw Hup (E1 & E2 & -> & ->)%launch_Some. pose proof (asked_next w Hw) as Hnone. pose proof (fun r => next_fresh w r Hw) as Hfr. destruct Hw as [A1 A2 A3 A4 A5 [A6 A6'] [A7 A7'] A8 [A9 A9'] A10 A11 A12 A13 A14 A15]. rewrite E1 in A2. rewrite A2 in *.
  split; cbn -[asked merged_reset merged_dirty]; try done.
  - split; [lia|]. right. eexists. split; [done|]. split; [done|]. intros Hc. destruct (A4 Hup _ Hc) as (r & Hr & Er). by apply (Hfr r).
  - rewrite Hup. done.
  - intros _ d Hd. destruct (A4 Hup d Hd) as (r & Hr & Er). exists r. split; [set_solver|done].
  - split; [done|by intros [[? ?]|[? ?]]].
  - split; [done|]. intros r ->%list_elem_of_singleton. done.
  - split; [done|]. intros r ->%list_elem_of_singleton. done.
  - intros d q Hq. right. destruct (A8 d q Hq) as [->|(r & Hr & Er)]; [eexists; split; [apply elem_of_app; right; by constructor|done]|exists r; split; [set_solver|done]].
  - by rewrite Hnone.
  - intros r [Hr| ->%list_elem_of_singleton]%elem_of_app; [by apply A10|done].
  - intros r [Hr| ->%list_elem_of_singleton]%elem_of_app; [|cbn; split; [lia|left; by constructor]]. destruct (A11 r Hr) as [? [?%elem_of_nil|?]]; [done|]. split; [lia|by right].
  - rewrite fmap_app. apply list.NoDup_app. split; [done|]. split; [|by apply NoDup_singleton]. intros d (r & -> & Hr)%list_elem_of_fmap. cbn. intros Hx%list_elem_of_singleton. by apply (Hfr r).
  - revert A13. unfold resets. cbn. rewrite omap_app, app_nil_r. cbn. by destruct (lp_reset (w_loop w)).
  - intros r ->%list_elem_of_singleton. set_solver.
Qed.

(** The run that is active. *)
Lemma active_run w l1 r l2 : sched_inv w -> w_runs w = l1 ++ r :: l2 -> l1 = [] /\ l2 = [] /\ curDone (w_loop w) = Some (run_done r) /\ (run_done r < nextDone (w_loop w))%nat /\ run_done r ∉ w_closed w.
Proof.
  intros Hw E. pose proof (si_cur w Hw) as Hc. rewrite E in Hc. destruct (curDone (w_loop w)) as [d|]; [|by destruct l1]. destruct Hc as [Hd [[H _]|(r' & H & <- & Hn)]]; [by destruct l1|].
  destruct l1 as [|x l1]; [injection H as -> ->; done|]. injection H as _ H. by destruct l1.
Qed.

Lemma i_run_inv w l1 r l2 p : sched_inv w -> w_runs w = l1 ++ r :: l2 -> PoolInv p [] ->
  sched_inv (mk_world p (w_loop w) (l1 ++ l2) ({[run_done r]} ∪ w_closed w) (w_up w) (w_head w) (w_asks w) (w_accepted w) (w_launched w)).
Proof.
  intros Hw E Hp. assert (r ∈ w_launched w) as Hl by (apply (si_runs w Hw); rewrite E; set_solver). destruct (active_run w l1 r l2 Hw E) as (-> & -> & Ec & Hd & _). destruct Hw as [A1 A2 A3 A4 A5 [A6 A6'] [A7 A7'] A8 A9 A10 A11 A12 A13 A14 A15]. rewrite E in *.
  split; cbn -[asked merged_reset merged_dirty]; try done.
  - rewrite Ec. split; [done|]. left. split; [done|set_solver].
  - intros Hup d [->%elem_of_singleton|Hx]%elem_of_union; [by exists r|by apply A4].
  - split; [done|by intros ? ?%elem_of_nil].
  - split; [done|by intros ? ?%elem_of_nil].
  - intros x Hx. destruct (A11 x Hx) as [? [->%list_elem_of_singleton|?]]; (split; [done|right; set_solver]).
  - by intros ? ?%elem_of_nil.
Qed.

Lemma i_done_inv w d : sched_inv w -> curDone (w_loop w) = Some d -> d ∈ w_closed w -> sched_inv (set_loop w (on_done (w_loop w))).
Proof.
  intros [A1 A2 A3 A4 A5 A6 A7 A8 A9 A10 A11 A12 A13 A14 A15] E Hd. rewrite E in A2. destruct A2 as [_ [[H _]|(r & _ & _ & ?)]]; [|done]. by split; cbn -[asked merged_reset merged_dirty].
Qed.

Lemma i_event_inv w tx rest : sched_inv w -> events (w_pool w) = tx :: rest -> sched_inv (set_loop (set_pool w (set_events (w_pool w) rest)) (on_event (w_loop w) tx)).
Proof.
  intros Hw E. pose proof (inv_events _ _ _ (proj1 (si_pool w Hw))) as Hev. rewrite E in Hev. destruct Hw as [[[B1 B2 B3 B4 B5 B6 B7 B8] B9] A2 A3 A4 A5 [A6 A6'] A7 A8 A9 A10 A11 A12 A13 A14 A15]. split; cbn -[asked merged_reset merged_dirty]; try done.
  - split; [|done]. split; try done. cbn. intros x Hx. apply Hev. by constructor.
  - split; [|done]. apply put_event_ok; [done|]. apply Hev. by constructor.
Qed.

Lemma accepted_channels w q : sched_inv w ->
  forall d x, (d, x) ∈ w_accepted w ++ [(nextDone (w_loop w), q)] -> d = nextDone (w_loop w) \/ exists r, r ∈ w_launched w /\ run_done r = d.
Proof. intros Hw d x [Hx|[= -> ->]%list_elem_of_singleton]%elem_of_app; [by eapply si_channels|by left]. Qed.

Lemma accepted_merged w q : sched_inv w -> forall r, r ∈ w_launched w ->
  run_reset r = merged_reset (asked (w_accepted w ++ [(nextDone (w_loop w), q)]) (run_done r)) /\ run_dirty r = merged_dirty (asked (w_accepted w ++ [(nextDone (w_loop w), q)]) (run_done r)).
Proof. intros Hw r Hr. rewrite asked_other by (intros E; by apply (next_fresh w r)). by apply (si_merged w Hw). Qed.

Lemma e_promote_inv w asks q : sched_inv w ->
  sched_inv (accept (mk_world (w_pool w) (w_loop w) (w_runs w) (w_closed w) (w_up w) (w_head w) asks (w_accepted w) (w_launched w)) (RqPromote q) (on_promote (w_loop w) q)).
Proof.
  intros Hw. pose proof (accepted_channels w (RqPromote q) Hw) as Hch. pose proof (accepted_merged w (RqPromote q) Hw) as Hm. destruct Hw as [A1 A2 A3 A4 A5 A6 A7 A8 [A9 A9'] A10 A11 A12 A13 A14 A15].
  split; cbn -[asked merged_reset merged_dirty]; try done.
  - split; [intros _; right; by eexists|done].
  - rewrite asked_app, merged_reset_promote, merged_dirty_app, <- A9, <- A9'. done.
Qed.

Lemma e_head_inv w b : sched_inv w -> known b -> let q := mk_reset (Some (w_head w)) (Some b) in
  sched_inv (accept (mk_world (w_pool w) (w_loop w) (w_runs w) (w_closed w) (w_up w) b (w_asks w) (w_accepted w) (w_launched w)) (RqReset q) (on_reset (w_loop w) q)).
Proof.
  intros Hw Hb q. pose proof (accepted_channels w (RqReset q) Hw) as Hch. pose proof (accepted_merged w (RqReset q) Hw) as Hm. destruct Hw as [A1 A2 A3 A4 A5 A6 [A7 A7'] A8 [A9 A9'] A10 A11 A12 A13 A14 A15].
  split; cbn -[asked merged_reset merged_dirty]; try done.
  - split; [intros _; left; by eexists|done].
  - split; [|done]. intros x [= <-]. destruct (lp_reset (w_loop w)) as [r|]; cbn; (split; [by exists b|]); [by apply (A7 r)|by intros o [= <-]].
  - rewrite asked_app, merged_reset_app, merged_dirty_reset, <- A9, <- A9'. done.
  - revert A13. unfold resets. cbn. destruct (lp_reset (w_loop w)) as [r|]; cbn; [intros (m & H1 & H2 & H3)%linked_snoc; apply linked_snoc; by exists m|]. rewrite app_nil_r. intros H. apply linked_snoc. by exists (w_head w).
  - apply Hb.
Qed.

Lemma e_stop_inv w : sched_inv w -> w_up w = true -> (forall d, curDone (w_loop w) = Some d -> d ∈ w_closed w) ->
  sched_inv (mk_world (w_pool w) (w_loop w) (w_runs w) ({[nextDone (w_loop w)]} ∪ w_closed w) false (w_head w) (w_asks w) (w_accepted w) (w_launched w)).
Proof.
  intros [A1 A2 A3 A4 A5 A6 A7 A8 A9 A10 A11 A12 A13 A14 A15] Hup Hd. assert (w_runs w = []) as Er.
  { destruct (curDone (w_loop w)) as [d|] eqn:E; [|done]. destruct A2 as [_ [[? _]|(r & _ & _ & H)]]; [done|]. by specialize (Hd d eq_refl). }
  split; cbn -[asked merged_reset merged_dirty]; try done.
  - destruct (curDone (w_loop w)) as [d|]; [|done]. destruct A2 as [H1 [[H2 H3]|(r & H2 & _)]]; [split; [done|left; set_solver]|congruence].
  - intros r Hr. destruct (A11 r Hr) as [H1 [H2|H2]]; (split; [done|]); [by left|right; set_solver].
Qed.

Lemma reinjects_eq r : match reset_args r with Some (o, Some h) => reinjected fuel chain o h | _ => 0 end = reinjects r.
Proof. destruct r as [[o [h|]]|]; done. Qed.

Section Reachable.
Hypothesis chain_ok : ChainOk chain.
Hypothesis head_ok : big_Uint64 (Types.Number (blk_header (CurrentBlock chain))) < Z.of_nat fuel.

(** An active run comes to its end. *)
Lemma run_returns w r addrs : sched_inv w -> r ∈ w_runs w -> zlen (pool_txs (w_pool w)) + reinjects (run_reset r) < 2 ^ 63 ->
  exists sent p, runReorg fuel chain (w_pool w) (reset_args (run_reset r)) addrs (run_events r) = run (Ret (sent, p)) /\ PoolInv p [] /\ zlen (pool_txs p) <= zlen (pool_txs (w_pool w)) + reinjects (run_reset r).
Proof.
  intros Hw Hr Hs. destruct (runReorg_ok fuel chain (w_pool w) (reset_args (run_reset r)) addrs (run_events r) (si_pool w Hw)) as (sent & p & E & H1 & _ & H2).
  - split; [done|apply known_ready, (proj2 (si_known w Hw)), Hr|by apply (proj2 (si_events w Hw))|by rewrite reinjects_eq].
  - exists sent, p. split; [done|]. split; [apply H1|by rewrite reinjects_eq in H2].
Qed.

Lemma internal_inv w w' : sched_inv w -> internal w w' -> sched_inv w'.
Proof.
  intros Hw [s r Hup E|l1 r l2 addrs sent p E Ha Hs Er|d _ E Hd|tx rest _ E].
  - by apply i_launch_inv.
  - destruct (run_returns w r addrs Hw) as (sent' & p' & Er' & Hp & _); [rewrite E; set_solver|done|]. rewrite Er in Er'. injection Er' as <- <-. by apply i_run_inv.
  - by eapply i_done_inv.
  - by apply i_event_inv.
Qed.

Lemma external_inv w w' : sched_inv w -> external w w' -> sched_inv w'.
Proof.
  intros Hw [txs local errs d p Ht E|l1 q l2 _ _|b _ H1 H2 q|price p E|p E|[Hup _] H].
  - destruct (addTxs_ok (w_pool w) txs local (si_pool w Hw) Ht) as (errs' & d' & p' & E' & Hp & _). rewrite E in E'. injection E' as <- <- <-. by apply set_pool_inv.
  - by apply e_promote_inv.
  - by apply e_head_inv.
  - destruct (SetGasPrice_ok (w_pool w) price (si_pool w Hw)) as (p' & E' & Hp & _). rewrite E in E'. injection E' as <-. by apply set_pool_inv.
  - destruct (evict_ok (w_pool w) (si_pool w Hw)) as (p' & E' & Hp & _). rewrite E in E'. injection E' as <-. by apply set_pool_inv.
  - by apply e_stop_inv.
Qed.

Lemma boots_inv w : boots w -> sched_inv w.
Proof.
  intros (p & E & ->). destruct (NewTxPool_ok fuel chain chain_ok) as (p' & E' & Hp & _). rewrite E in E'. injection E' as <-.
  split; cbn -[asked merged_reset merged_dirty]; try done; try (by intros ? ?%elem_of_nil); try (by intros ? ? ?%elem_of_nil).
  - split; [done|by intros [[? ?]|[? ?]]].
  - split; [done|by intros ? ?%elem_of_nil].
  - split; [done|by intros ? ?%elem_of_nil].
  - constructor.
Qed.

Lemma reachable_inv w : reachable w -> sched_inv w.
Proof.
  intros (w0 & H0 & Hs). apply boots_inv in H0. induction Hs as [|w0 w1 w2 [H|H] _ IH]; [done|apply IH; by eapply internal_inv|apply IH; by eapply external_inv].
Qed.

Lemma reinjects_nonneg r : 0 <= reinjects r.
Proof. destruct r as [[o [h|]]|]; cbn; try lia. unfold reinjected. destruct (reinject_of _ _ _ _) as [[[l|]| |]|]; try lia. apply zlen_nonneg. Qed.

(** The pool can be counted whatever the runs that are active or asked for add to it. *)
Definition room (w : world) : Prop := zlen (pool_txs (w_pool w)) + foldr (fun r n => reinjects (run_reset r) + n) 0 (w_runs w) + reinjects (lp_reset (w_loop w)) < 2 ^ 63.

Lemma finish_run w r : sched_inv w -> room w -> w_runs w = [r] ->
  exists w', internal w w' /\ sched_inv w' /\ room w' /\ w_up w' = w_up w /\ w_loop w' = w_loop w /\ run_done r ∈ w_closed w' /\ w_runs w' = [].
Proof.
  intros Hw Hroom E. unfold room in Hroom. rewrite E in Hroom. cbn in Hroom. pose proof (reinjects_nonneg (lp_reset (w_loop w))) as Hn.
  set (addrs := elements <$> run_dirty r). destruct (run_returns w r addrs Hw) as (sent & p & Er & Hp & Hs); [rewrite E; by constructor|lia|].
  assert (internal w (mk_world p (w_loop w) ([] ++ []) ({[run_done r]} ∪ w_closed w) (w_up w) (w_head w) (w_asks w) (w_accepted w) (w_launched w))) as Hi.
  { eapply i_run; [exact E| |lia|exact Er]. unfold addrs, flattens. destruct (run_dirty r); cbn; [reflexivity|exact I]. }
  eexists. split; [exact Hi|]. split; [by eapply internal_inv|]. split; [unfold room; cbn; lia|]. split_and!; try done. cbn. set_solver.
Qed.

Lemma launch_now w : sched_inv w -> room w -> w_up w = true -> curDone (w_loop w) = None -> launchNextRun (w_loop w) = true ->
  exists w' r, internal w w' /\ sched_inv w' /\ room w' /\ w_up w' = true /\ w_runs w' = [r] /\ run_done r = nextDone (w_loop w).
Proof.
  intros Hw Hroom Hup E1 E2. pose proof (si_cur w Hw) as Hr. rewrite E1 in Hr. destruct (launch (w_loop w)) as [s [r|]] eqn:El; [|unfold launch in El; by rewrite E1, E2 in El].
  pose proof (i_launch w s r Hup El) as Hi. pose proof (internal_inv _ _ Hw Hi) as Hw'. apply launch_Some in El as (_ & _ & -> & ->). eexists _, _. split; [exact Hi|]. split; [exact Hw'|]. split; [|split_and!; [done|cbn; by rewrite Hr|done]].
  unfold room in *. cbn. rewrite Hr in *. cbn in *. lia.
Qed.

(** What is asked for and not launched yet will be, after the active run. *)
Lemma next_served w : sched_inv w -> room w -> w_up w = true -> launchNextRun (w_loop w) = true -> exists w', bsteps internal 4 w w' /\ nextDone (w_loop w) ∈ w_closed w'.
Proof.
  intros Hw Hroom Hup El.
  assert (forall w1, sched_inv w1 -> room w1 -> w_up w1 = true -> w_loop w1 = on_done (w_loop w) -> exists w', bsteps internal 2 w1 w' /\ nextDone (w_loop w) ∈ w_closed w') as Hlast.
  { intros w1 H1 H2 H3 H4. destruct (launch_now w1 H1 H2 H3) as (w2 & r & S2 & I2 & R2 & U2 & E2 & D2); [by rewrite H4|by rewrite H4|]. destruct (finish_run w2 r I2 R2 E2) as (w3 & S3 & _ & _ & _ & _ & D3 & _).
    exists w3. split; [eapply bsteps_l, bsteps_once; eassumption|]. rewrite D2, H4 in D3. exact D3. }
  assert (forall w1 d, sched_inv w1 -> room w1 -> w_up w1 = true -> w_loop w1 = w_loop w -> curDone (w_loop w) = Some d -> d ∈ w_closed w1 -> exists w', bsteps internal 3 w1 w' /\ nextDone (w_loop w) ∈ w_closed w') as Hmid.
  { intros w1 d H1 H2 H3 H4 H5 H6. assert (internal w1 (set_loop w1 (on_done (w_loop w1)))) as Hi by (eapply i_done; [split; [done|]; unfold launch; by rewrite H4, H5|by rewrite H4|done]).
    destruct (Hlast (set_loop w1 (on_done (w_loop w1)))) as (w' & B & D); [by eapply internal_inv|exact H2|done|cbn; by rewrite H4|]. exists w'. split; [by eapply bsteps_l|done]. }
  pose proof (si_cur w Hw) as Hc. destruct (curDone (w_loop w)) as [d|] eqn:Ec.
  - destruct Hc as [_ [[_ Hd]|(r & Er & Ed & _)]]; [destruct (Hmid w d) as (w' & B & D); try done; exists w'; split; [by apply bsteps_S|done]|].
    destruct (finish_run w r Hw Hroom Er) as (w1 & S1 & I1 & R1 & U1 & L1 & D1 & _). destruct (Hmid w1 d I1 R1) as (w' & B & D); [congruence|done|done|by rewrite <- Ed|]. exists w'. split; [by eapply bsteps_l|done].
  - destruct (Hlast w) as (w' & B & D); try done; [destruct (w_loop w); cbn in *; by subst|]. exists w'. split; [by apply bsteps_S, bsteps_S|done].
Qed.
End Reachable.

(** C6: However additions, evictions, price changes, reports of new heads and the work of the
    background are interleaved, the pool stays coherent, at most one [runReorg] is
    active, and it returns and closes a channel that is open. Every run does what
    the requests ask for that were answered with its channel: it resets from the old
    head of the first to the new head of the last and promotes all accounts that are
    named. While the loop is up a channel that was given out is closed only after its
    run. The resets follow the heads without a gap, from that of the new pool to the
    last that was reported. *)
Theorem scheduler_safe w : ChainOk chain -> big_Uint64 (Types.Number (blk_header (CurrentBlock chain))) < Z.of_nat fuel -> reachable w ->
  coherent (w_pool w) /\ (length (w_runs w) <= 1)%nat /\
  (forall r addrs, r ∈ w_runs w -> run_done r ∉ w_closed w /\
    (zlen (pool_txs (w_pool w)) + reinjects (run_reset r) < 2 ^ 63 -> exists sent p, runReorg fuel chain (w_pool w) (reset_args (run_reset r)) addrs (run_events r) = run (Ret (sent, p)))) /\
  (forall r, r ∈ w_launched w -> run_reset r = merged_reset (asked (w_accepted w) (run_done r)) /\ run_dirty r = merged_dirty (asked (w_accepted w) (run_done r))) /\
  (w_up w = true -> forall d q, (d, q) ∈ w_accepted w -> d ∈ w_closed w -> exists r, r ∈ w_launched w /\ run_done r = d /\ r ∉ w_runs w) /\
  linked (blk_header (CurrentBlock chain)) (resets w) (w_head w).
Proof.
  intros Hc Hh Hr. pose proof (reachable_inv Hc Hh w Hr) as Hw. pose proof (si_cur w Hw) as Hcur. assert (forall r, r ∈ w_runs w -> run_done r ∉ w_closed w) as Hopen.
  { intros r Hx. apply list_elem_of_split in Hx as (l1 & l2 & E). by eapply active_run. }
  split; [apply PoolInv_coherent, Hw|]. split; [destruct (curDone (w_loop w)) as [d|]; [destruct Hcur as [_ [[-> _]|(r & -> & _)]]; cbn; lia|rewrite Hcur; cbn; lia]|].
  split; [intros r addrs Hx; split; [by apply Hopen|]; intros Hs; destruct (run_returns Hc w r addrs Hw Hx Hs) as (sent & p & E & _); by exists sent, p|].
  split; [apply (si_merged w Hw)|]. split; [|apply (si_linked w Hw)]. intros Hup d q _ Hd. destruct (si_closed w Hw Hup d Hd) as (r & Hx & <-). exists r. split; [done|]. split; [done|]. intros Hy. by apply (Hopen r).
Qed.

(** C10: Every request is served: while the loop is up, the channel that a request was
    answered with can be closed by steps that the loop and the runs take on their own,
    four at most, whatever the state that the rest of the pool is in. *)
Theorem request_served w d q : ChainOk chain -> big_Uint64 (Types.Number (blk_header (CurrentBlock chain))) < Z.of_nat fuel -> reachable w -> w_up w = true -> room w ->
  (d, q) ∈ w_accepted w -> exists w', bsteps internal 4 w w' /\ d ∈ w_closed w'.
Proof.
  intros Hc Hh Hr Hup Hroom Hq. pose proof (reachable_inv Hc Hh w Hr) as Hw. destruct (si_channels w Hw d q Hq) as [->|(r & Hx & <-)].
  - apply next_served; try done. apply (si_launch w Hw). destruct (si_next w Hw) as [-> ->]. apply (asked_some _ _ q), Hq.
  - destruct (si_old w Hw r Hx) as [_ [Hrun|Hd]]; [|exists w; split; [apply bsteps_refl|done]].
    assert (w_runs w = [r]) as E by (apply list_elem_of_split in Hrun as (l1 & l2 & E); destruct (active_run w l1 r l2 Hw E) as (-> & -> & _); exact E).
    destruct (finish_run Hc Hh w r Hw Hroom E) as (w' & S & _ & _ & _ & _ & D & _). exists w'. split; [apply bsteps_S, bsteps_S, bsteps_S, bsteps_once, S|done].
Qed.
End Sched.
