(* ===== verification/TxPoolExamples.v ===== *)
(** * A pool with a few transactions

    Witnesses for the theorems about the pool, on a curve and a hash that can be
    evaluated: the address of a sender is its R, the hash of a transaction the end of
    its encoding. *)

From stdpp Require Import gmap sorting relations.
From S2P Require Import Prelude VmPrecompiles BlockTypes ChainConfig GoHeap TxList TxListProofs TxSigning TxLookup.
From S2P Require Import TxPool TxPoolInv TxPoolAdd TxPoolReorg TxPoolLimits TxPoolRun TxPoolTheorems TxPoolSched.

Module PoolExample.

#[local] Instance toy_crypto : Crypto := {|
  Ecrecover := fun _ sig => Some (4 :: take 32 sig);
  Keccak256 := fun b => be_bytes 32 (be_to_Z b);
  sha256_Sum256 := fun _ => []; ripemd160_Sum := fun _ => [];
  G1 := unit; G2 := unit; G1_Unmarshal := fun _ => None; G2_Unmarshal := fun _ => None;
  G1_Add := fun _ _ => tt; G1_ScalarMult := fun _ _ => tt; G1_Marshal := fun _ => []; PairingCheck := fun _ _ => false;
  blake2b_F := fun h _ _ _ _ _ => h
|}.

#[local] Instance toy_order : MapOrder := {| map_range := fun A m => map_to_list m; map_range_perm := fun A m => reflexivity _ |}.

Definition earlier (x y : Z * Z) : Prop := x.2 <= y.2.
#[local] Instance earlier_dec : RelDecision earlier.
Proof. intros x y. unfold earlier. apply _. Defined.
#[local] Instance earlier_trans : Transitive earlier.
Proof. intros x y z. unfold earlier. lia. Qed.
#[local] Instance earlier_total : Total earlier.
Proof. intros x y. unfold earlier. lia. Qed.

#[local] Instance toy_beats : BeatOrder := {|
  sort_beats := merge_sort earlier;
  sort_beats_perm := merge_sort_Permutation earlier;
  sort_beats_sorted := StronglySorted_merge_sort earlier
|}.

(** Two pending transactions of an account are guaranteed, and there is room for three of all; four of an account and five of all can be queued. *)
Definition small_config : TxPoolConfig := mk_TxPoolConfig [] false [1] Second 1 10 2 3 4 5 Hour.

#[local] Instance toy_env : PoolEnv := {| config := small_config; chainconfig := Params.MainnetChainConfig; clock := fun n => Z.of_nat n |}.

#[local] Instance toy_ok : ConfigOk.
Proof. split; cbn; lia. Qed.

(** The transaction number [id] of the account [from], signed for the chain. *)
Definition tx (from nonce price id : Z) : Transaction := mk_Transaction nonce price 21000 (Some 9) 0 [] 693 from id 0.

(** *** Two branches *)

Definition head (number parent root : Z) : Types.Header := Types.mk_Header parent 0 0 root 0 0 [] 1 number 8000000 0 0 [] 0 (be_bytes 8 root).
Definition genesis : TxBlock := mk_TxBlock (head 0 0 0) [].
Definition a1 : TxBlock := mk_TxBlock (head 1 (block_Hash genesis) 1) [tx 1 0 5 1; tx 1 1 5 2].
Definition b1 : TxBlock := mk_TxBlock (head 1 (block_Hash genesis) 2) [tx 2 0 5 3].
Definition b2 : TxBlock := mk_TxBlock (head 2 (block_Hash b1) 3) [tx 1 0 5 1].
Definition blocks : list TxBlock := [genesis; a1; b1; b2].

(** All accounts are rich; the state of each block has the nonces of its branch. *)
Definition nonces_at (root a : Z) : Z :=
  if decide (a = 1) then (if decide (root = 1) then 2 else if decide (root = 3) then 1 else 0) else if decide (a = 2 /\ 2 <= root) then 1 else 0.
Definition state_at (root : Z) : StateReader := mk_StateReader (nonces_at root) (fun _ => 10 ^ 18).

Definition find_block (h n : Z) : option TxBlock := snd <$> list_find (fun b => block_Hash b = h /\ NumberU64 b = n) blocks.
Definition chain_at (b : TxBlock) : blockChain := mk_blockChain b find_block (fun root => Some (state_at root)).

Lemma find_block_Some c h n b : GetBlock (chain_at c) h n = Some b -> b ∈ blocks /\ NumberU64 b = n.
Proof.
  unfold chain_at. cbn [GetBlock]. unfold find_block. destruct (list_find _ blocks) as [[i b']|] eqn:E; [|done]. intros [= ->]. apply list_find_Some in E as (H1 & [_ H2] & _). split; [by eapply list_elem_of_lookup_2|done].
Qed.

Lemma blocks_all (P : TxBlock -> Prop) : P genesis -> P a1 -> P b1 -> P b2 -> forall b, b ∈ blocks -> P b.
Proof. intros H1 H2 H3 H4. apply list.Forall_forall. exact (Forall_cons_2 _ _ _ H1 (Forall_cons_2 _ _ _ H2 (Forall_cons_2 _ _ _ H3 (Forall_cons_2 _ _ _ H4 (Forall_nil_2 _))))). Qed.

Ltac each_block := match goal with |- forall b, b ∈ blocks -> @?P b => apply (blocks_all P) end; cbv beta.

Lemma txs_ok l : forallb (fun tx => bool_decide (0 <= AccountNonce tx < 2 ^ 64 /\ 0 < tx_Size tx)) l = true -> forall tx, tx ∈ l -> tx_ok tx.
Proof. rewrite forallb_forall. intros H x Hx. apply list_elem_of_In, H, bool_decide_eq_true_1 in Hx. exact Hx. Qed.

Lemma is_Some_bool {A} (o : option A) : match o with Some _ => true | None => false end = true -> is_Some o.
Proof. destruct o; [by eexists|done]. Qed.

Lemma chain_at_ok b : ChainOk (chain_at b).
Proof.
  split; intros h n b' [Hb <-]%find_block_Some; [split; [done|]|]; revert b' Hb; each_block.
  1-4: vm_compute; reflexivity. all: apply txs_ok; vm_compute; reflexivity.
Qed.

Lemma chain_at_rooted b : rooted (chain_at b).
Proof.
  split.
  - intros b' (h & n & [Hb _]%find_block_Some). revert b' Hb. each_block; intros Hn; [vm_compute in Hn; discriminate|..]; apply is_Some_bool; vm_compute; reflexivity.
  - intros b' b'' (h & n & [Hb _]%find_block_Some) (h' & n' & [Hb' _]%find_block_Some) E E'. assert (forall b, b ∈ blocks -> NumberU64 b = 0 -> b = genesis) as H.
    { each_block; intros H; [reflexivity|..]; exfalso; vm_compute in H; discriminate. }
    by rewrite (H b' Hb E), (H b'' Hb' E').
Qed.

(** *** A pool at the old head *)

Definition pool_after (os : list pool_op) : F TxPool := p ← NewTxPool 10 (chain_at a1); exec_ops p os.

Lemma reached os : (forall o, o ∈ os -> op_ok o) -> weight os < 2 ^ 63 -> exists p, pool_after os = run (Ret p) /\ PoolInv p [].
Proof.
  intros Hok Hw. destruct (NewTxPool_ok 10 (chain_at a1) (chain_at_ok a1)) as (p0 & E & Hp & Hnil). destruct (exec_ops_ok os p0 Hp Hok) as (p & E' & Hp'); [rewrite Hnil; exact Hw|].
  exists p. split; [|exact Hp']. unfold pool_after. rewrite E. exact E'.
Qed.

(** The account 1 has four transactions in a row and one after a gap, and the account 2 one; the account 3 is local. *)
Definition batch : list Transaction := [tx 1 2 5 11; tx 1 3 5 12; tx 1 4 9 13; tx 1 7 9 15; tx 2 0 7 16].
Definition mine : list Transaction := [tx 3 0 1 21; tx 3 1 1 22].
Definition fill : list pool_op := [OpAdd batch false; OpAdd mine true].

(** The chain moves to the other branch. *)
Definition move : option (option Types.Header * option Types.Header) := Some (Some (blk_header a1), Some (blk_header b2)).

Lemma fill_ok o : o ∈ fill -> op_ok o.
Proof. revert o. apply list.Forall_forall. refine (Forall_cons_2 _ _ _ _ (Forall_cons_2 _ _ _ _ (Forall_nil_2 _))); refine (txs_ok _ _); vm_compute; reflexivity. Qed.

Lemma move_ready c : reset_ready 10 (chain_at c) (Some (blk_header a1)) (blk_header b2).
Proof. intros old [= <-]. split; [vm_compute; reflexivity|]. split; [vm_compute; reflexivity|]. intros E. assert (match GetBlock (chain_at c) (Types.Hash (blk_header b2)) (big_Uint64 (Types.Number (blk_header b2))) with None => true | Some _ => false end = false) as H by (vm_compute; reflexivity). rewrite E in H. discriminate. Qed.

(** What is seen of a result is what is computed from the operation. *)
Lemma observe {A B} (f : A -> B) (d : B) (m : F A) (x : A) : m = run (Ret x) -> f x = match m with Some (Ret y) => f y | _ => d end.
Proof. by intros ->. Qed.

Lemma after {A B} (m : F A) (f : A -> F B) (x : A) (y : B) : m = run (Ret x) -> f x = run (Ret y) -> (x ← m; f x) = run (Ret y).
Proof. intros -> E. exact E. Qed.

Ltac computed f d E := let H := fresh in pose proof (observe f d _ _ E) as H; cbv beta in H; cbn [fst snd] in H; rewrite H; vm_compute; reflexivity.

Lemma filled_pool : exists p, pool_after fill = run (Ret p) /\ PoolInv p [].
Proof. apply reached; [exact fill_ok|vm_compute; reflexivity]. Qed.

(** Seven transactions, the move to the other branch, a higher price, a round of eviction. *)
Definition busy : list pool_op := fill ++ [OpReorg 10 (chain_at b2) move (Some [1; 2; 3]) ∅; OpSetGasPrice 6; OpEvict].

Lemma busy_ok o : o ∈ busy -> op_ok o.
Proof.
  intros [Ho|Ho]%elem_of_app; [by apply fill_ok|]. revert o Ho. apply list.Forall_forall. refine (Forall_cons_2 _ _ _ _ (Forall_cons_2 _ _ _ _ (Forall_cons_2 _ _ _ _ (Forall_nil_2 _)))); [|exact I|exact I].
  split; [apply chain_at_ok|]. split; [apply map_Forall_empty|]. intros old new [= <- <-]. eexists. split; [reflexivity|apply move_ready].
Qed.

Lemma pool_safe_witness : weight busy < 2 ^ 63 /\ exists p0 p, NewTxPool 10 (chain_at a1) = run (Ret p0) /\ exec_ops p0 busy = run (Ret p) /\ coherent p.
Proof.
  assert (weight busy < 2 ^ 63) as Hw by (vm_compute; reflexivity). split; [exact Hw|]. exact (pool_safe 10 (chain_at a1) busy (chain_at_ok a1) busy_ok Hw).
Defined.

(** The transaction of the abandoned block is pending again; the last ones are cut off. *)
Lemma runReorg_settles_witness : exists p sent p', pool_after fill = run (Ret p) /\ runReorg 10 (chain_at b2) p move (Some [1; 2; 3]) ∅ = run (Ret (sent, p')) /\
  coherent p' /\ (forall a, pending_valid p' p' a) /\ list_at (pending p') 1 = [tx 1 1 5 2; tx 1 2 5 11].
Proof.
  destruct filled_pool as (p & E & Hp). exists p. destruct (runReorg_settles 10 (chain_at b2) p move (Some [1; 2; 3]) ∅ Hp) as (sent & p' & E' & H1 & _ & _ & _ & H2).
  - split; [apply chain_at_ok| |apply map_Forall_empty|match goal with |- ?a + ?b < ?c => replace a with 7 by (symmetry; computed (fun p => zlen (pool_txs p)) 0 E) end; vm_compute; reflexivity].
    intros old new [= <- <-]. eexists. split; [reflexivity|apply move_ready].
  - exists sent, p'. split; [exact E|]. split; [exact E'|]. split; [exact H1|]. split; [apply H2; by eexists|].
    pose proof (after _ (fun p => runReorg 10 (chain_at b2) p move (Some [1; 2; 3]) ∅) _ _ E E') as E2. computed (fun r : list Transaction * TxPool => list_at (pending r.2) 1) (@nil Transaction) E2.
Defined.

(** A better price replaces the queued transaction with the same nonce. *)
Lemma add_outcome_witness : exists p p', pool_after fill = run (Ret p) /\ add p (tx 1 2 6 31) false = run (Ret (inr true, p')) /\ coherent p' /\ tx 1 2 6 31 ∈ pool_txs p'.
Proof.
  destruct filled_pool as (p & E & Hp). assert (tx_ok (tx 1 2 6 31)) as Hok by (apply (txs_ok [tx 1 2 6 31]); [vm_compute; reflexivity|constructor]).
  destruct (add_outcome p (tx 1 2 6 31) false Hp Hok) as (r & p' & q & E' & H1 & _ & _ & H2). exists p, p'. pose proof (after _ (fun p => add p (tx 1 2 6 31) false) _ _ E E') as E2.
  assert (r = inr true) as -> by (computed (fun r : (pool_err + bool) * TxPool => r.1) (@inr pool_err bool false) E2).
  split; [exact E|]. split; [exact E'|]. split; [exact H1|]. destruct H2 as (old & H2 & _ & H3). assert (tx 1 2 6 31 ∈ option_list old ++ pool_txs p') as [Ht|Ht]%elem_of_app by (rewrite H2; constructor); [|exact Ht].
  destruct old as [o|]; [|destruct (not_elem_of_nil _ Ht)]. apply list_elem_of_singleton in Ht as <-. destruct (H3 _ eq_refl) as (_ & _ & H4 & _). exfalso. vm_compute in H4. discriminate.
Defined.

(** Of the seven transactions the two remote ones that are cheaper go; the local ones stay. *)
Lemma SetGasPrice_drops_witness : exists p p', pool_after fill = run (Ret p) /\ SetGasPrice p 6 = run (Ret p') /\ coherent p' /\ stats p = (0, 7) /\ stats p' = (0, 5) /\ list_at (queue p') 3 = mine.
Proof.
  destruct filled_pool as (p & E & Hp). destruct (SetGasPrice_drops p 6 Hp) as (p' & E' & H1 & _). pose proof (after _ (fun p => SetGasPrice p 6) _ _ E E') as E2.
  exists p, p'. split; [exact E|]. split; [exact E'|]. split; [exact H1|]. split; [computed stats (0, 0) E|]. split; [computed stats (0, 0) E2|]. computed (fun p : TxPool => list_at (queue p) 3) (@nil Transaction) E2.
Defined.

(** The account 1 keeps the two pending transactions that it is guaranteed, and the local one both of its own. *)
Lemma truncatePending_fair_witness : exists p pr q p', pool_after fill = run (Ret p) /\ promoteExecutables p [1; 2; 3] = run (Ret (pr, q)) /\ truncatePending q = run (Ret p') /\ coherent p' /\
  (len q 1, len q 2, len q 3) = (3, 1, 2) /\ (len p' 1, len p' 2, len p' 3) = (2, 1, 2).
Proof.
  destruct filled_pool as (p & E & Hp). destruct (promoteExecutables_ok [1; 2; 3] p Hp) as (pr & q & E' & Hq & _). pose proof (after _ (fun p => promoteExecutables p [1; 2; 3]) _ _ E E') as E2.
  assert (total (pending q) = 6) as Ht by (computed (fun r : list Transaction * TxPool => total (pending r.2)) 0 E2).
  destruct (truncatePending_fair q Hq) as (p' & E3 & H1 & _); [rewrite Ht; reflexivity|]. pose proof (after _ (fun r : list Transaction * TxPool => truncatePending r.2) _ _ E2 E3) as E4.
  exists p, pr, q, p'. split; [exact E|]. split; [exact E'|]. split; [exact E3|]. split; [exact H1|]. split; [computed (fun r : list Transaction * TxPool => (len r.2 1, len r.2 2, len r.2 3)) (0, 0, 0) E2|].
  computed (fun p : TxPool => (len p 1, len p 2, len p 3)) (0, 0, 0) E4.
Defined.

(** Of the two transactions of the abandoned block the new branch has the first; the other is queued again. *)
Lemma reinject_exact_witness : exists p l p', pool_after fill = run (Ret p) /\ taken_back (chain_at b2) (blk_header a1) (blk_header b2) l /\
  reset 10 (chain_at b2) p (Some (blk_header a1)) (Some (blk_header b2)) = run (Ret p') /\ list_at (queue p) 1 ++ [tx 1 1 5 2] ≡ₚ list_at (queue p') 1.
Proof.
  destruct filled_pool as (p & E & Hp).
  destruct (reinject_exact 10 (chain_at b2) p (blk_header a1) (blk_header b2) (state_at 3) Hp (chain_at_ok b2) (chain_at_rooted b2)) as (l & errs & d & p' & H1 & _ & E' & _).
  - split; [vm_compute; discriminate|apply is_Some_bool; vm_compute; reflexivity].
  - exact (move_ready b2).
  - reflexivity.
  - exists p, l. eexists. split; [exact E|]. split; [exact H1|]. split; [exact E'|].
    pose proof (after _ (fun p => reset 10 (chain_at b2) p (Some (blk_header a1)) (Some (blk_header b2))) _ _ E E') as E2.
    match goal with |- ?x ++ _ ≡ₚ ?y =>
      replace x with [tx 1 2 5 11; tx 1 3 5 12; tx 1 4 9 13; tx 1 7 9 15] by (symmetry; computed (fun p : TxPool => list_at (queue p) 1) (@nil Transaction) E);
      replace y with [tx 1 1 5 2; tx 1 2 5 11; tx 1 3 5 12; tx 1 4 9 13; tx 1 7 9 15] by (symmetry; computed (fun p : TxPool => list_at (queue p) 1) (@nil Transaction) E2)
    end.
    apply Permutation_sym, (Permutation_cons_append [tx 1 2 5 11; tx 1 3 5 12; tx 1 4 9 13; tx 1 7 9 15] (tx 1 1 5 2)).
Defined.

(** *** The scheduler at work *)

Definition moved : txpoolResetRequest := mk_reset (Some (blk_header a1)) (Some (blk_header b2)).

(** A batch is promoted in the background when the new head is reported. *)
Lemma working : exists w, reachable 10 (chain_at a1) w /\ w_up w = true /\ room 10 (chain_at a1) w /\ (1%nat, RqReset moved) ∈ w_accepted w /\ length (w_runs w) = 1%nat.
Proof.
  destruct (NewTxPool_ok 10 (chain_at a1) (chain_at_ok a1)) as (p0 & E0 & H0 & _). destruct (addTxs_ok p0 batch false H0 (fill_ok (OpAdd batch false) ltac:(constructor))) as (errs & d & p1 & E1 & H1 & _).
  pose proof (after _ (fun p => addTxs p batch false) _ _ E0 E1) as E2. assert (d = Some {[1; 2]}) as -> by (computed (fun r : list (option pool_err) * option accountSet * TxPool => r.1.2) (@None accountSet) E2).
  assert (zlen (pool_txs p1) = 5) as Hs by (computed (fun r : list (option pool_err) * option accountSet * TxPool => zlen (pool_txs r.2)) 0 E2).
  eexists. split; [eexists; split; [exists p0; split; [exact E0|reflexivity]|]|].
  - eapply rtc_l; [right; eapply e_add; [exact (fill_ok (OpAdd batch false) ltac:(constructor))|exact E1]|]. eapply rtc_l; [right; apply (e_promote _ _ _ []); [split; reflexivity|reflexivity]|].
    eapply rtc_l; [left; eapply i_launch; reflexivity|]. apply rtc_once. right. apply (e_head _ _ _ (blk_header b2)); [split; reflexivity|apply (move_ready a1 _ eq_refl)|apply (move_ready a1 _ eq_refl)].
  - split; [reflexivity|]. split; [|split; [apply elem_of_app; right; constructor|reflexivity]]. unfold room. cbn [w_pool w_runs w_loop accept]. rewrite Hs. vm_compute. reflexivity.
Qed.

Lemma a1_number : big_Uint64 (Types.Number (blk_header (CurrentBlock (chain_at a1)))) < Z.of_nat 10.
Proof. reflexivity. Qed.

Lemma scheduler_safe_witness : exists w, reachable 10 (chain_at a1) w /\ length (w_runs w) = 1%nat /\ coherent (w_pool w) /\ linked (blk_header a1) (resets w) (w_head w).
Proof.
  destruct working as (w & Hr & _ & _ & _ & Hl). exists w. destruct (scheduler_safe 10 (chain_at a1) w (chain_at_ok a1) a1_number Hr) as (H1 & _ & _ & _ & _ & H2). split; [exact Hr|]. split; [exact Hl|]. split; [exact H1|exact H2].
Defined.

Lemma request_served_witness : exists w w', reachable 10 (chain_at a1) w /\ (1%nat, RqReset moved) ∈ w_accepted w /\ bsteps (internal 10 (chain_at a1)) 4 w w' /\ 1%nat ∈ w_closed w'.
Proof.
  destruct working as (w & Hr & Hup & Hroom & Hq & _). destruct (request_served 10 (chain_at a1) w 1 (RqReset moved) (chain_at_ok a1) a1_number Hr Hup Hroom Hq) as (w' & H1 & H2).
  exists w, w'. split; [exact Hr|]. split; [exact Hq|]. split; [exact H1|exact H2].
Defined.
End PoolExample.
